(* ===== verification/_CoqProject ===== *)
-Q . S2P
Prelude.v
Bitops.v
Memblock.v
MemblockOps.v
MemblockSpec.v
MemblockRemove.v
MemblockIter.v
MemblockFind.v
MemblockRelease.v
Board.v
MemblockProps.v
Bitmap.v
BitmapSpec.v
BitmapProps.v
Buddy.v
BuddyInv.v
BuddyPcp.v
BuddyUse.v
BuddyProps.v
Boot.v
PageOwner.v
OwnerProps.v
Slub.v
SlubInv.v
SlubLists.v
SlubNew.v
SlubAlloc.v
SlubProps.v
SlubShrink.v
SlubSizes.v
SizesProps.v
Numa.v
NumaSpec.v
ZoneInit.v
ZoneInitSpec.v
BootMem.v
InitProps.v
Arith.v
Objects.v
Cpumask.v
Cpupri.v
CpupriProps.v
Cpudl.v
CpudlProps.v
Sort.v
SortProps.v
Percpu.v
PercpuBlock.v
PercpuRefresh.v
PercpuAlloc.v
PercpuCore.v
PercpuCoreSpec.v
PercpuSetup.v
PercpuSetupSpec.v
PercpuProps.v
Resource.v
ResourceSpec.v
ResourceRelease.v
ResourceFind.v
ResourceRegion.v
ResourceProps.v
Rbtree.v
RbtreeSpec.v
RbErase.v
RbSet.v
RbProps.v
Timerqueue.v
FairMath.v
Fair.v
FairSpec.v
FairProps.v
Vmalloc.v
VmallocSpec.v
VmallocOps.v
VmallocProps.v
Calendar.v
Timecounter.v
