(* ===== verification/Prelude.v ===== *)
(** * miracle-kernel: memory, trees and run queues of a small arm64 kernel

    A verification of how miracle-kernel manages physical memory: the
    boot-time allocator memblock (src/mm/memblock.c), the zoned buddy page
    allocator (src/mm/page_alloc.c) with its zone lists for several nodes, the
    hand-over of memory from the first to the second while booting
    (src/init/main.c, src/arch/arm64/mm/init.c), and the slab allocator on top
    of the page allocator (src/mm/slub.c, src/mm/slab_common.c); the allocator
    of per-CPU variables (src/mm/percpu.c); the ranges of virtual addresses
    (src/mm/vmalloc.c); and the tree of address ranges that records who uses
    memory (src/kernel/resource.c).  Of the scheduler it covers the run queue
    of the fair class (src/kernel/sched/fair.c) and the tables by which CPUs
    are chosen (cpupri.c, cpudeadline.c).  The library routines these rest on
    are verified too: red-black trees, timer queues, sorting, bit searches,
    bitmaps and arithmetic; and of the time code the calendar, timespecs and
    time counters (src/kernel/time/).

    ** The parts and how they interact

    - memblock keeps two sorted arrays of address ranges, memory and
      reservations.  It is filled while the device tree is read, hands out
      reserved memory, and is grown by allocating from itself.
    - bootmem_init() derives nodes, zones and struct pages from memblock;
      __build_all_zonelists() orders the zones of all nodes for each node;
      memblock_free_all() walks the free memory and gives every page to the
      page allocator.
    - The page allocator keeps free blocks of 2^order pages in per-zone lists,
      merges buddies, and has per-CPU lists of single pages.
    - The slab allocator owns blocks of pages, cuts them into objects of one
      size and threads free lists through the objects.  It sees the page
      allocator only through the interface [PageAllocator] of PageOwner.v.
    - The per-CPU allocator serves areas that exist once per CPU from chunks,
      each a unit of memory per CPU with one bitmap for all of them and hints
      per page of the bitmap.  Its first chunk is carved from boot memory, its
      bookkeeping comes from memblock and later from the slab allocator, its
      pages from the page allocator: three interfaces of PercpuCore.v and
      PercpuSetup.v.
    - The resource tree records which ranges of the I/O and memory space are
      taken; its nodes come from the slab allocator or from boot memory.
    - The allocator of virtual ranges keeps its areas in a red-black tree and
      a list, both in order of address, remembers where the last search
      ended, and frees lazily.  Areas and [vm_struct]s are objects of the slab
      allocator, seen through the interface [ObjectAllocator] of Objects.v.
    - The red-black tree balances nodes embedded in its users' objects; the
      user finds the place of a new node and the tree rebalances.  Its users
      here are the timer queue, the fair run queue and vmalloc: each is
      proved against [rbtree], the in-order list of the nodes, only.
    - The fair run queue orders runnable tasks by weighted run time and picks
      the next; the tables of CPU priorities and deadlines answer which CPU
      to push a task to, over masks from the object allocator.

    ** Files

    - Prelude.v: widths of C integers, the result type [outcome], rounding,
      arithmetic tactics.  Bitops.v: src/lib/find_bit.c and the bit searches of
      asm-generic; the searches are proved against their specification.
    - Bitmap.v, BitmapSpec.v, BitmapProps.v: src/lib/bitmap.c, bit operations
      and the population count.  Arith.v: gcd, lcm, integer square root.
    - Memblock.v, MemblockOps.v: model of src/mm/memblock.c, data and
      primitives, then operations.  MemblockSpec.v: the abstract view
      [attr_at], a partial map from addresses to flags and node, and
      well-formed arrays [type_wf]; MemblockRemove.v, MemblockIter.v, MemblockFind.v
      (searches and allocation), MemblockRelease.v: one group of operations each, the
      last one also models the walk of memblock_free_all().  Board.v: a
      concrete machine for the examples.  MemblockProps.v: theorems.
    - Buddy.v: model of src/mm/page_alloc.c, allocation and freeing, with
      struct page and its flags.  BuddyInv.v: the invariant of a zone
      ([zone_wf]), block moves and lists of blocks;
      BuddyPcp.v: per-CPU lists, the allocation entry and freeing;
      BuddyUse.v: blocks in use and zone lists.
      BuddyProps.v: theorems.
    - Boot.v: the hand-over.  Numa.v, NumaSpec.v: node masks,
      distances (src/arch/arm64/mm/numa.c) and zone lists.  ZoneInit.v,
      ZoneInitSpec.v, InitProps.v: nodes, zones, struct pages and pagesets.
      BootMem.v: the whole memory side of booting as one theorem.
    - PageOwner.v: the interface [PageAllocator] with its laws
      [PageAllocatorLaws], the buddy allocator as its instance, and clients
      that hold many blocks as a transition system.  OwnerProps.v: its theorem.
    - Slub.v: model of the object paths of src/mm/slub.c with the address
      computations of src/arch/arm64/include/asm/memory.h.  SlubInv.v: the
      representation invariant [rep], which relates a state to the finite map
      of live objects through a ghost description of every slab, and what
      single writes keep; SlubLists.v, SlubNew.v, SlubAlloc.v: the stages of
      allocation and freeing; SlubProps.v: clients as a transition system and
      the theorems.  SlubShrink.v: shrinking and shutting down a cache.
    - SlubSizes.v: model of calculate_sizes() and what it calls, of merging
      and of the kmalloc array (src/mm/slab_common.c,
      src/include/linux/slab.h).  SizesProps.v: proofs and theorems.
    - Percpu.v: model of one chunk of src/mm/percpu.c; PercpuBlock.v: the hint
      of a block and well-formed chunks [chunk_ok] against the list
      of live areas; PercpuRefresh.v, PercpuAlloc.v: the hint
      of a chunk, allocation and release in a chunk.  PercpuCore.v,
      PercpuCoreSpec.v: the allocator, its invariant [pcpu_ok], pcpu_alloc()
      and free_percpu(); PercpuSetup.v, PercpuSetupSpec.v: the first chunk;
      PercpuProps.v: clients as a transition system and the theorems.
    - Resource.v: model of src/kernel/resource.c, a tree of address ranges
      linked through [struct resource]; memory is a finite map.
      ResourceSpec.v: the invariant [forest], which relates the links to the
      lists of children, and requests; ResourceRelease.v: release, removal
      and insertion; ResourceFind.v: the search for room, allocation and
      changing a range; ResourceRegion.v: reservation with splits, over
      kzalloc() as a parameter, and searches; ResourceProps.v: theorems.
    - Objects.v: kzalloc() and kfree() as an interface with laws.  Cpumask.v:
      sets of CPUs.  Cpupri.v, CpupriProps.v: priorities of CPUs; Cpudl.v,
      CpudlProps.v: the heap of CPU deadlines.  Sort.v,
      SortProps.v: heapsort of src/lib/sort.c.
    - Rbtree.v: model of src/lib/rbtree.c and its headers, nodes in memory
      with the colour in the parent pointer; the mirrored branches of the
      source are one definition with a [side].  RbtreeSpec.v: trees and
      contexts and what memory represents ([rep], [crep]), the loop of
      insertion, path lengths; RbErase.v: rebalancing and unlinking; RbSet.v:
      [rbtree] and every operation as one on lists, whole walks and the depth
      of a search; RbProps.v: theorems.  Timerqueue.v: src/lib/timerqueue.c.
    - FairMath.v: weights, inverses and virtual time; Fair.v: the run queue of
      src/kernel/sched/fair.c; FairSpec.v: its invariant [cfs_ok],
      queueing, choosing and preemption; FairProps.v: theorems.
    - Vmalloc.v: model of src/mm/vmalloc.c; VmallocSpec.v: lookups and
      the search for a hole; VmallocOps.v: the invariant [vmap_ok], placing,
      freeing, purging, allocation, the view of [vm_struct]s, early areas;
      VmallocProps.v: theorems.
    - Calendar.v: src/kernel/time/timeconv.c and mktime64(), the calendar they
      are measured by, and the theorems.  Timecounter.v: the timespec helpers
      of src/include/linux/time64.h and src/kernel/time/time.c, and
      src/kernel/time/timecounter.c, with their theorems.

    ** How code is modelled

    Definitions carry the names of the source.  A C object is a record, an
    array a list, memory reached through pointers a function or a map; a
    w-bit integer is a [Z] and every operation the machine truncates is
    written with its width ([u32], [u64]).  A function that changes state
    takes the state and returns it in [outcome]: [Ret] for a return, [Panic]
    for BUG_ON(), panic() and the dereference of NULL, [Stuck] for a loop that
    outruns its fuel, a read outside an array, a write beyond the memory an
    object has, or a retry that only an interfering CPU could cause.  Theorems
    that an operation succeeds exclude [Panic] and [Stuck]; where the source
    may panic, or fail for want of memory, the theorem says when, in terms of
    the requests made to the allocator below.

    The machine is arm64 with 4 KB pages, 48-bit virtual addresses,
    MAX_ORDER 11 and 8 nodes, as the repository configures it.

    ** What the theorems show

    - memblock: the arrays stay sorted, disjoint and minimal; adding,
      removing, flagging and assigning nodes refine the update of the address
      map; allocation is sound and complete; iterators report exactly the free
      memory; the error path leaves the state alone; searches terminate.
    - page allocator: freeing and allocating keep every zone well formed and
      move exactly the pages of the block; free lists are canonical; alloc and
      free are inverse; owners of blocks never overlap however they
      interleave.  With several nodes online the allocation can loop forever
      (a theorem, and a finding).
    - boot: every call of the hand-over succeeds and a page becomes available
      exactly when memory holds all of it and nothing reserves any of it.
    - slab allocator: allocation hands out an object that was not live, and
      fails only if the CPU and the node have no free object and the page
      allocator no block; freeing takes exactly it back, neither touches the contents of another
      live object, live objects never overlap in any reachable state; slab
      layouts are within bounds for every sane request; kmalloc() picks the
      smallest sufficient cache; shrinking and shutting down give back exactly
      the slabs without objects.
    - per-CPU allocator: setting up the first chunk gives a well-formed
      allocator if boot memory serves its requests (for units of at most 192
      pages, a finding says why); an allocation hands out a cleared, aligned
      area that was not live and misses none that the exact hint exceeds by
      twice the alignment; freeing gives it back
      exactly; areas never overlap on any CPU in any reachable state; the
      hint computed from the blocks equals the scan of the whole bitmap.
    - bitmaps and arithmetic: every operation computes what its name says bit
      by bit; the searches terminate and find the first area; gcd, lcm and
      int_sqrt are the mathematical functions.
    - resource tree: requests, insertion, release, removal and adjustment keep
      the tree well formed and succeed exactly when the ranges allow it;
      allocation is sound and complete; insertion and removal are inverse;
      reservation with splits terminates and covers its range.
    - red-black trees: insertion and removal put a node into the in-order list
      or take it out and leave a red-black tree, write no node outside of it,
      and finish; the iterators visit the list; a search takes at most
      2 log2 (n + 1) steps; the cached first node is right.
    - timer queue: it is the list of timers by expiry, first come first served;
      emptying it gives all timers in that order.
    - fair run queue: tree, counters, weights and task list stay consistent
      (while virtual times lie within 2^62 of each other);
      the task picked is the first or close to it; virtual time advances at the
      rate of the weight within a rounding error; slices fit the period.
    - CPU tables: after any sequence of updates the answers are those of the
      last values; sorting gives a sorted permutation.
    - vmalloc: allocation is sound, and complete when it starts from the
      beginning (from the cache it can miss a hole of exactly the size, a
      finding); lookups answer by range; freeing and purging remove exactly
      the areas freed.
    - time: every 64-bit time has its Gregorian date, found in ten turns of
      the year search, and mktime64() is the inverse; timespec arithmetic
      keeps the normal form and add_safe clamps; a time counter loses no
      fraction of a nanosecond over any sequence of reads (a stamp before the
      last read can wrap, a finding).

    ** Fuel and bounds

    Fuel is never a hypothesis of a theorem about success: each loop gets
    enough.  RESIZE_FUEL 64 bounds doublings of an array below 2^64 entries,
    DOUBLE_FUEL 4 the nesting of growing the reserved array while growing;
    [isolate_fuel], [iterate_fuel] and [scan_b_fuel] count array entries;
    ORDER_FUEL is MAX_NUMNODES + 1; walks over zones visit 3 zones of 8
    nodes; draining a CPU's list takes at most one step per object;
    [ralign_loop] halves a 32-bit integer 33 times; walks of the resource tree
    get one unit more than there are resources, splitting twice as much;
    GCD_FUEL 130 is two steps per bit of two 64-bit numbers; walks over a
    bitmap or its blocks get one unit per bit or block; RESTART_FUEL 3 allows
    two restarts of the chunk search, and none is ever taken; PATH_FUEL 200
    is more than the longest path of a red-black tree whose nodes have
    different word-aligned 64-bit addresses (path_short); halving a 64-bit
    factor takes at most 64 steps; YEAR_FUEL 10 covers any 64-bit time,
    because every turn of the year search divides the distance by a thousand,
    and DAY_FUEL and NSEC_FUEL count days and seconds; page
    allocation retries once, because a second retry finds the same state.

    ** Not modelled

    Calls run one after the other: locks, interrupts and the interleaving of
    single instructions are left out (compare-and-exchange compares with what
    was just read).  Logging and statistics have no effect on the state.
    Memory contents are followed only where the slab allocator keeps its free
    pointers and where it clears objects, word by word; constructors of caches
    are not run.  mem_init_print_info(), free_reserved_area() and memtest act
    on contents or print.  Bulk calls and the bootstrap of the first caches
    are not modelled yet.  Hardware page
    tables, exception entry, drivers, locking primitives and the concurrent
    parts of the scheduler, timers and interrupts depend on hardware or on
    weak-memory interleaving and stay outside.  The fair class is modelled for
    one CPU without task groups; load averages, balancing, bandwidth control
    and the real-time and deadline run queues are left out, and so are the
    pages behind vmalloc() and pcpu_get_vm_areas().  High-resolution timers,
    conversions of jiffies, number parsing, string functions and radix trees are sequential code that could
    be treated in the same way.  Of the per-CPU allocator the choice of the layout
    (pcpu_build_alloc_info(), pcpu_embed_first_chunk()) is left out. *)

From stdpp Require Import base list numbers option.
From Stdlib Require Export ZArith Lia Bool.

#[global] Open Scope Z_scope.

(** ** Fixed-width unsigned integers

    A C object of type [u32]/[u64]/[unsigned long]/[phys_addr_t] is a [Z];
    every arithmetic operation whose result the machine truncates is written
    with [u32] or [u64] around it, so wrap-around is explicit. *)

Definition U32_MOD : Z := 2 ^ 32.
Definition U64_MOD : Z := 2 ^ 64.

Definition u32 (x : Z) : Z := x mod U32_MOD.
Definition u64 (x : Z) : Z := x mod U64_MOD.

(** Two's complement views: the value a signed object of the given width
    holds after the bits of [x] are stored in it. *)
Definition s32 (x : Z) : Z := (x + 2 ^ 31) mod 2 ^ 32 - 2 ^ 31.
Definition s64 (x : Z) : Z := (x + 2 ^ 63) mod 2 ^ 64 - 2 ^ 63.

Declare Scope kernel_scope.
Delimit Scope kernel_scope with kernel.
Notation "a +64 b" := (u64 (a + b)) (at level 50, left associativity) : kernel_scope.
Notation "a -64 b" := (u64 (a - b)) (at level 50, left associativity) : kernel_scope.
Notation "a *64 b" := (u64 (a * b)) (at level 40, left associativity) : kernel_scope.
#[global] Open Scope kernel_scope.

Definition is_u32 (x : Z) : Prop := 0 <= x < U32_MOD.
Definition is_u64 (x : Z) : Prop := 0 <= x < U64_MOD.

Lemma u64_id x : is_u64 x -> u64 x = x.
Proof. apply Z.mod_small. Qed.

Lemma u32_id x : is_u32 x -> u32 x = x.
Proof. apply Z.mod_small. Qed.

Lemma u64_range x : is_u64 (u64 x).
Proof. apply Z.mod_pos_bound. reflexivity. Qed.

Lemma u32_range x : is_u32 (u32 x).
Proof. apply Z.mod_pos_bound. reflexivity. Qed.

Lemma u64_add_l x y : u64 (u64 x + y) = u64 (x + y).
Proof. unfold u64. by rewrite Zplus_mod_idemp_l. Qed.

Lemma u64_sub_l x y : u64 (u64 x - y) = u64 (x - y).
Proof. unfold u64. by rewrite Zminus_mod_idemp_l. Qed.

Lemma s32_id x : - 2 ^ 31 <= x < 2 ^ 31 -> s32 x = x.
Proof. intros. unfold s32. rewrite Z.mod_small; lia. Qed.

Lemma s64_id x : - 2 ^ 63 <= x < 2 ^ 63 -> s64 x = x.
Proof. intros. unfold s64. rewrite Z.mod_small; lia. Qed.

(** [ulia]: linear arithmetic after the widths are unfolded. *)
Ltac uunfold := unfold is_u64, is_u32, U64_MOD, U32_MOD in *.
Ltac ulia := uunfold; lia.

(** [unwrap] removes every [u64]/[u32] whose argument [lia] shows in range. *)
Ltac unwrap_one :=
  match goal with
  | |- context [u64 ?e] => rewrite (u64_id e) by ulia
  | |- context [u32 ?e] => rewrite (u32_id e) by ulia
  | H : context [u64 ?e] |- _ => rewrite (u64_id e) in H by ulia
  | H : context [u32 ?e] |- _ => rewrite (u32_id e) in H by ulia
  end.
Ltac unwrap := repeat unwrap_one.

(** [bdestr] turns boolean comparisons into case splits over [Z]. *)
Ltac bdestr_one :=
  match goal with
  | |- context [?a <? ?b] => destruct (Z.ltb_spec a b)
  | |- context [?a <=? ?b] => destruct (Z.leb_spec a b)
  | |- context [?a =? ?b] => destruct (Z.eqb_spec a b)
  | |- context [?a >? ?b] => rewrite (Z.gtb_ltb a b)
  | |- context [?a >=? ?b] => rewrite (Z.geb_leb a b)
  | H : context [?a <? ?b] |- _ => destruct (Z.ltb_spec a b)
  | H : context [?a <=? ?b] |- _ => destruct (Z.leb_spec a b)
  | H : context [?a =? ?b] |- _ => destruct (Z.eqb_spec a b)
  end.
Ltac bdestr := repeat (bdestr_one; cbn [negb andb orb] in *).

(** ** Outcomes

    [Ret a] is a normal return, [Panic] is BUG_ON(), panic(), BUG() or the
    dereference of NULL, and [Stuck] is what a fuelled loop answers when its
    fuel runs out, an array read outside its bounds, or a compare and exchange
    that fails although nothing interferes; every theorem that says an
    operation succeeds excludes the last two. *)
Inductive outcome (A : Type) : Type :=
  | Ret (a : A)
  | Panic
  | Stuck.
Arguments Ret {A} a.
Arguments Panic {A}.
Arguments Stuck {A}.

Definition obind {A B} (m : outcome A) (k : A -> outcome B) : outcome B :=
  match m with
  | Ret a => k a
  | Panic => Panic
  | Stuck => Stuck
  end.

Notation "'let!' x := m 'in' k" := (obind m (fun x => k))
  (at level 10, x pattern, k at level 200) : kernel_scope.

Lemma obind_assoc {X Y W} (r : outcome X) (f : X -> outcome Y) (g : Y -> outcome W) :
  (let! y := (let! x := r in f x) in g y) = let! x := r in let! y := f x in g y.
Proof. by destruct r. Qed.

Lemma obind_ret {A B} (m : outcome A) (k : A -> outcome B) b :
  obind m k = Ret b <-> exists a, m = Ret a /\ k a = Ret b.
Proof.
  destruct m; cbn; split; intros H; try discriminate; eauto.
  all: destruct H as (? & ? & ?); congruence.
Qed.

(** [run_inv H] inverts a successful run [H : (let! x := m in k) = Ret b]. *)
Ltac run_inv H :=
  let a := fresh "r" in let E := fresh "E" in
  apply obind_ret in H; destruct H as (a & E & H).

(** Orders of the page allocator (include/linux/mmzone.h). *)
Definition MAX_ORDER : Z := 11.

(** ** Powers of two *)

Definition is_pow2 (x : Z) : Prop := exists k, 0 <= k /\ x = 2 ^ k.

Lemma is_pow2_pos x : is_pow2 x -> 0 < x.
Proof. intros (k & Hk & ->). apply Z.pow_pos_nonneg; lia. Qed.

(** ** Rounding to a power of two (include/linux/kernel.h) *)

(** [__round_mask(x, y)] for a 64-bit [x]. *)
Definition round_mask (y : Z) : Z := u64 (y - 1).

(** [round_up(x, y)]: [(((x)-1) | __round_mask(x, y))+1] on 64-bit [x]. *)
Definition round_up (x y : Z) : Z := u64 (Z.lor (u64 (x - 1)) (round_mask y) + 1).

(** [round_down(x, y)]: [((x) & ~__round_mask(x, y))] on 64-bit [x]. *)
Definition round_down (x y : Z) : Z := Z.land x (u64 (Z.lnot (round_mask y))).

(** [clamp(val, lo, hi)]: [min(max(val, lo), hi)]. *)
Definition clamp (val lo hi : Z) : Z := Z.min (Z.max val lo) hi.

Lemma pow2_64 : U64_MOD = 2 ^ 64.
Proof. reflexivity. Qed.

Lemma u64_bits x n : 0 <= n -> Z.testbit (u64 x) n = Z.testbit x n && (n <? 64).
Proof.
  intros Hn. unfold u64. rewrite pow2_64.
  destruct (Z.ltb_spec n 64).
  - rewrite Z.mod_pow2_bits_low by lia. by rewrite andb_true_r.
  - rewrite Z.mod_pow2_bits_high by lia. by rewrite andb_false_r.
Qed.

Lemma u64_testbit_high x n : is_u64 x -> 64 <= n -> Z.testbit x n = false.
Proof.
  intros Hx Hn. rewrite <- (u64_id x Hx), u64_bits by lia.
  rewrite (proj2 (Z.ltb_ge n 64)) by lia. apply andb_false_r.
Qed.

Lemma pow2_mask_bits k n : 0 <= k -> 0 <= n -> Z.testbit (2 ^ k - 1) n = (n <? k).
Proof.
  intros. rewrite Z.sub_1_r, <- Z.ones_equiv. apply Z.testbit_ones_nonneg; lia.
Qed.

(** Rounding down subtracts the remainder. *)
Lemma round_down_spec x k :
  is_u64 x -> 0 <= k <= 64 -> round_down x (2 ^ k) = x - x mod 2 ^ k.
Proof.
  intros Hx Hk. unfold round_down, round_mask.
  assert (H2 : 0 < 2 ^ k) by (apply Z.pow_pos_nonneg; lia).
  assert (H64 : 2 ^ k <= U64_MOD) by (rewrite pow2_64; apply Z.pow_le_mono_r; lia).
  rewrite (u64_id (2 ^ k - 1)) by ulia.
  replace (x - x mod 2 ^ k) with (Z.ldiff x (Z.ones k)).
  2:{ rewrite Z.ldiff_ones_r by lia. rewrite Z.shiftl_mul_pow2, Z.shiftr_div_pow2 by lia.
      pose proof (Z.div_mod x (2 ^ k)). lia. }
  apply Z.bits_inj'. intros n Hn.
  rewrite Z.land_spec, Z.ldiff_spec, u64_bits, Z.lnot_spec by lia.
  rewrite Z.ones_equiv, <- Z.sub_1_r.
  destruct (Z.ltb_spec n 64).
  - by rewrite andb_true_r.
  - rewrite (u64_testbit_high x n) by (done || lia). done.
Qed.

(** [round_up] computes the next multiple, truncated to 64 bits: it wraps to
    zero exactly when that multiple is 2^64. *)
Lemma round_up_spec x k :
  is_u64 x -> 0 <= k <= 64 ->
  round_up x (2 ^ k) = u64 ((x + 2 ^ k - 1) / 2 ^ k * 2 ^ k).
Proof.
  intros Hx Hk. unfold round_up, round_mask.
  assert (H2 : 0 < 2 ^ k) by (apply Z.pow_pos_nonneg; lia).
  assert (H64 : 2 ^ k <= U64_MOD) by (rewrite pow2_64; apply Z.pow_le_mono_r; lia).
  rewrite (u64_id (2 ^ k - 1)) by ulia.
  set (P := 2 ^ k) in *.
  assert (Hor : forall y, Z.lor y (P - 1) + 1 = (y / P + 1) * P).
  { intros y. pose proof (Z.add_lor_land y (P - 1)) as H.
    replace (P - 1) with (Z.ones k) in * by (rewrite Z.ones_equiv; subst P; lia).
    rewrite Z.land_ones in H by lia. fold P in H.
    pose proof (Z.div_mod y P). rewrite Z.ones_equiv in *. subst P. lia. }
  rewrite Hor. destruct (Z.eq_dec x 0) as [->|Hx0].
  - replace ((0 + P - 1) / P) with 0 by (symmetry; apply Z.div_small; lia).
    assert (Hd : (P | U64_MOD)).
    { exists (2 ^ (64 - k)). subst P. rewrite <- Z.pow_add_r, pow2_64 by lia. f_equal. lia. }
    destruct Hd as [q Hq]. change (u64 (0 - 1)) with (U64_MOD - 1).
    replace ((U64_MOD - 1) / P) with (q - 1).
    2:{ apply Z.div_unique with (P - 1); lia. }
    replace ((q - 1 + 1) * P) with (1 * U64_MOD) by lia. unfold u64. by rewrite Z.mod_mul.
  - rewrite (u64_id (x - 1)) by ulia. do 2 f_equal.
    replace (x + P - 1) with (x - 1 + 1 * P) by lia. by rewrite Z.div_add by lia.
Qed.

(** Filtering a list by what holds of all its members. *)
Lemma filter_every {T} (P : T -> Prop) `{forall x, Decision (P x)} (l : list T) :
  (forall x, x ∈ l -> P x) -> filter P l = l.
Proof. induction l as [|x l IH]; intros Hl; [done|]. rewrite filter_cons_True, IH; [done| |apply Hl; left]. intros y Hy. apply Hl. by right. Qed.

Create HintDb kernel.
#[export] Hint Resolve u64_range u32_range is_pow2_pos : kernel.
