(* ===== verification/Bitops.v ===== *)
(** * Bit searches in words and bitmaps

    The word operations of include/asm-generic/bitops and the bitmap searches
    of lib/find_bit.c, which the node and CPU masks are built on.  A bitmap is
    the list of its 64-bit words; reading a word past the end has no defined
    result ([Stuck]), so that a theorem that a search returns also says that it
    stays inside the bitmap. *)

From S2P Require Import Prelude.
From stdpp Require Import base list numbers option.
#[local] Open Scope Z_scope.
#[local] Open Scope kernel_scope.

Definition BITS_PER_LONG : Z := 64.
Definition ULONG_MAX : Z := U64_MOD - 1.

(** [__ffs(word)] for a nonzero word: the index of its lowest set bit. *)
Fixpoint ffs_loop (n : nat) (word i : Z) : Z :=
  match n with
  | O => i
  | S n' => if Z.testbit word i then i else ffs_loop n' word (i + 1)
  end.
Definition __ffs (word : Z) : Z := ffs_loop 64 word 0.

(** [~x] on an unsigned long. *)
Definition not64 (x : Z) : Z := Z.lxor x ULONG_MAX.

Definition ffz (x : Z) : Z := __ffs (not64 x).

(** [__fls(word)] for a nonzero word: the index of its highest set bit. *)
Definition __fls (word : Z) : Z := Z.log2 word.
Definition fls64 (x : Z) : Z := if x =? 0 then 0 else __fls x + 1.
Definition fls_long (l : Z) : Z := fls64 l.
(** [fls(x)] for an int [x]. *)
Definition fls (x : Z) : Z := fls64 (u32 x).

Definition BITMAP_FIRST_WORD_MASK (start : Z) : Z :=
  u64 (Z.shiftl ULONG_MAX (Z.land start (BITS_PER_LONG - 1))).
Definition BITMAP_LAST_WORD_MASK (nbits : Z) : Z :=
  Z.shiftr ULONG_MAX (Z.land (u64 (- nbits)) (BITS_PER_LONG - 1)).

(** [addr[i]]. *)
Definition word (addr : list Z) (i : Z) : outcome Z :=
  match addr !! Z.to_nat i with
  | Some w => Ret w
  | None => Stuck
  end.

Definition fetch (addr1 : list Z) (addr2 : option (list Z)) (invert i : Z) : outcome Z :=
  let! w1 := word addr1 i in
  let! tmp := match addr2 with
              | None => Ret w1
              | Some a2 => let! w2 := word a2 i in Ret (Z.land w1 w2)
              end in
  Ret (Z.lxor tmp invert).

(** [while (!tmp)] of _find_next_bit() and the return after it. *)
Fixpoint next_bit_loop (fuel : nat) (addr1 : list Z) (addr2 : option (list Z))
    (nbits start invert tmp : Z) : outcome Z :=
  if negb (tmp =? 0) then Ret (Z.min (start +64 __ffs tmp) nbits)
  else
    match fuel with
    | O => Stuck
    | S fuel' =>
        let start1 := start +64 BITS_PER_LONG in
        if start1 >=? nbits then Ret nbits
        else
          let! tmp1 := fetch addr1 addr2 invert (start1 / BITS_PER_LONG) in
          next_bit_loop fuel' addr1 addr2 nbits start1 invert tmp1
    end.

Definition _find_next_bit (addr1 : list Z) (addr2 : option (list Z)) (nbits start invert : Z)
  : outcome Z :=
  if start >=? nbits then Ret nbits
  else
    let! tmp := fetch addr1 addr2 invert (start / BITS_PER_LONG) in
    let tmp1 := Z.land tmp (BITMAP_FIRST_WORD_MASK start) in
    next_bit_loop (length addr1) addr1 addr2 nbits (round_down start BITS_PER_LONG) invert tmp1.

Definition find_next_bit (addr : list Z) (size offset : Z) : outcome Z :=
  _find_next_bit addr None size offset 0.
Definition find_next_zero_bit (addr : list Z) (size offset : Z) : outcome Z :=
  _find_next_bit addr None size offset ULONG_MAX.
Definition find_next_and_bit (addr1 addr2 : list Z) (size offset : Z) : outcome Z :=
  _find_next_bit addr1 (Some addr2) size offset 0.

Fixpoint first_bit_loop (fuel : nat) (addr : list Z) (idx size : Z) : outcome Z :=
  if negb (idx *64 BITS_PER_LONG <? size) then Ret size
  else
    match fuel with
    | O => Stuck
    | S fuel' =>
        let! w := word addr idx in
        if negb (w =? 0) then Ret (Z.min (idx * BITS_PER_LONG +64 __ffs w) size)
        else first_bit_loop fuel' addr (idx +64 1) size
    end.
Definition find_first_bit (addr : list Z) (size : Z) : outcome Z :=
  first_bit_loop (S (length addr)) addr 0 size.

Fixpoint first_zero_loop (fuel : nat) (addr : list Z) (idx size : Z) : outcome Z :=
  if negb (idx *64 BITS_PER_LONG <? size) then Ret size
  else
    match fuel with
    | O => Stuck
    | S fuel' =>
        let! w := word addr idx in
        if negb (w =? ULONG_MAX) then Ret (Z.min (idx * BITS_PER_LONG +64 ffz w) size)
        else first_zero_loop fuel' addr (idx +64 1) size
    end.
Definition find_first_zero_bit (addr : list Z) (size : Z) : outcome Z :=
  first_zero_loop (S (length addr)) addr 0 size.

(** [do ... while (idx--)] of find_last_bit(), from word [idx] down. *)
Fixpoint last_bit_loop (idx : nat) (addr : list Z) (val size : Z) : outcome Z :=
  let! w := word addr (Z.of_nat idx) in
  let val1 := Z.land val w in
  if negb (val1 =? 0) then Ret (Z.of_nat idx * BITS_PER_LONG +64 __fls val1)
  else
    match idx with
    | O => Ret size
    | S idx' => last_bit_loop idx' addr ULONG_MAX size
    end.
Definition find_last_bit (addr : list Z) (size : Z) : outcome Z :=
  if size =? 0 then Ret size
  else last_bit_loop (Z.to_nat ((size - 1) / BITS_PER_LONG)) addr (BITMAP_LAST_WORD_MASK size) size.

Lemma ffs_loop_spec n word i :
  0 <= i -> word mod 2 ^ i = 0 ->
  let o := ffs_loop n word i in
  i <= o <= i + Z.of_nat n /\ word mod 2 ^ o = 0
  /\ (o < i + Z.of_nat n -> Z.testbit word o = true).
Proof.
  revert i. induction n as [|n IH]; intros i Hi Hm; cbn [ffs_loop].
  { split_and!; try lia; done. }
  destruct (Z.testbit word i) eqn:E; [split_and!; try lia; done|].
  destruct (IH (i + 1)) as (? & ? & Hbit); [lia| |].
  - apply Z.testbit_false in E; [|lia].
    rewrite Z.pow_add_r, Z.pow_1_r, Z.rem_mul_r by lia. lia.
  - split_and!; try lia; try done. intros. apply Hbit. lia.
Qed.

Lemma __ffs_spec word :
  0 < word < 2 ^ 63 -> 0 <= __ffs word < 63 /\ (2 ^ __ffs word | word) /\ ~ (2 ^ (__ffs word + 1) | word).
Proof.
  intros Hw. unfold __ffs.
  destruct (ffs_loop_spec 64 word 0) as (Hr & Hm & Hb); [lia|by rewrite Z.mod_1_r|].
  set (o := ffs_loop 64 word 0) in *. cbn [Z.of_nat] in *.
  assert (Hp : 0 < 2 ^ o) by (apply Z.pow_pos_nonneg; lia).
  assert (Hlt : o < 63).
  { destruct (Z.lt_ge_cases o 63); [done|exfalso].
    assert (2 ^ 63 <= 2 ^ o) by (apply Z.pow_le_mono_r; lia).
    rewrite Z.mod_small in Hm by lia. lia. }
  split_and!; try lia; [by apply Z.mod_divide; lia|].
  intros Hd. apply Z.mod_divide in Hd; [|apply Z.pow_nonzero; lia].
  assert (Hbit : Z.testbit word o = true) by (apply Hb; lia).
  rewrite <- (Z.mod_pow2_bits_low word (o + 1) o), Hd, Z.bits_0 in Hbit by lia. done.
Qed.

(** ** Words *)

Lemma testbit_u64 w i : is_u64 w -> 64 <= i -> Z.testbit w i = false.
Proof.
  intros Hw Hi. rewrite <- (Z.mod_small w (2 ^ 64)) by exact Hw. apply Z.mod_pow2_bits_high. lia.
Qed.

Lemma u64_nonzero_bit w : is_u64 w -> w <> 0 -> exists i, 0 <= i < 64 /\ Z.testbit w i = true.
Proof.
  intros Hw Hne. exists (Z.log2 w). assert (0 < w) by ulia. split; [|by apply Z.bit_log2].
  split; [apply Z.log2_nonneg|]. apply Z.log2_lt_pow2; ulia.
Qed.

Lemma ffs_loop_least n : forall w i, 
  (exists j, i <= j < i + Z.of_nat n /\ Z.testbit w j = true) ->
  let o := ffs_loop n w i in
  i <= o < i + Z.of_nat n /\ Z.testbit w o = true /\ forall j, i <= j < o -> Z.testbit w j = false.
Proof.
  induction n as [|n IH]; intros w i (j & Hj & Hb); cbn [ffs_loop]; [lia|].
  destruct (Z.testbit w i) eqn:E; [split_and!; [lia|lia|done|lia]|].
  destruct (IH w (i + 1)) as (? & ? & Hl).
  { exists j. split; [|done]. destruct (Z.eq_dec j i); [congruence|lia]. }
  split_and!; [lia|lia|done|]. intros k Hk. destruct (Z.eq_dec k i) as [->|]; [done|]. apply Hl. lia.
Qed.

(** [__ffs] of a nonzero word is its lowest set bit. *)
Lemma ffs_least w : is_u64 w -> w <> 0 ->
  0 <= __ffs w < 64 /\ Z.testbit w (__ffs w) = true /\ forall j, 0 <= j < __ffs w -> Z.testbit w j = false.
Proof. intros Hw Hne. apply (ffs_loop_least 64 w 0). by apply u64_nonzero_bit. Qed.

Lemma fls64_le x j : 0 <= x -> 0 <= j -> fls64 x <= j <-> x < 2 ^ j.
Proof.
  intros Hx Hj. unfold fls64, __fls. destruct (Z.eqb_spec x 0) as [->|Hne].
  - split; [intros _; by apply Z.pow_pos_nonneg|done].
  - rewrite (Z.log2_lt_pow2 x j) by lia. lia.
Qed.

Lemma fls64_nonneg x : 0 <= fls64 x.
Proof. unfold fls64, __fls. destruct (x =? 0); [done|]. pose proof (Z.log2_nonneg x). lia. Qed.

(** [__fls] of a nonzero word is its highest set bit. *)
Lemma fls_greatest w : is_u64 w -> w <> 0 ->
  0 <= __fls w < 64 /\ Z.testbit w (__fls w) = true /\ forall j, __fls w < j -> Z.testbit w j = false.
Proof.
  intros Hw Hne. assert (0 < w) by ulia. split_and!; [apply Z.log2_nonneg|apply Z.log2_lt_pow2; ulia|by apply Z.bit_log2|].
  intros j Hj. by apply Z.bits_above_log2; [lia|].
Qed.

Lemma ones64_bit i : 0 <= i -> Z.testbit ULONG_MAX i = (i <? 64).
Proof.
  intros Hi. change ULONG_MAX with (Z.ones 64). destruct (Z.ltb_spec i 64).
  - by apply Z.ones_spec_low.
  - by apply Z.ones_spec_high.
Qed.

Lemma not64_bit x i : 0 <= i < 64 -> Z.testbit (not64 x) i = negb (Z.testbit x i).
Proof.
  intros Hi. unfold not64. rewrite Z.lxor_spec, ones64_bit by lia.
  destruct (Z.ltb_spec i 64); [|lia]. by destruct (Z.testbit x i).
Qed.

(** Words are closed under the bit operations. *)
Lemma is_u64_bits w : 0 <= w -> (forall i, 64 <= i -> Z.testbit w i = false) -> is_u64 w.
Proof.
  intros Hw Hb. split; [done|]. destruct (Z.eq_dec w 0) as [->|Hne]; [reflexivity|].
  apply Z.log2_lt_pow2; [lia|]. destruct (Z.lt_ge_cases (Z.log2 w) 64) as [|Hge]; [done|].
  specialize (Hb _ Hge). rewrite Z.bit_log2 in Hb by lia. done.
Qed.

Lemma is_u64_land a b : is_u64 a -> is_u64 b -> is_u64 (Z.land a b).
Proof.
  intros Ha Hb. apply is_u64_bits; [apply Z.land_nonneg; left; apply Ha|].
  intros i Hi. by rewrite Z.land_spec, (testbit_u64 a) by done.
Qed.

Lemma is_u64_lxor a b : is_u64 a -> is_u64 b -> is_u64 (Z.lxor a b).
Proof.
  intros Ha Hb. apply is_u64_bits; [apply Z.lxor_nonneg; split; intros; [apply Hb|apply Ha]|].
  intros i Hi. by rewrite Z.lxor_spec, (testbit_u64 a), (testbit_u64 b) by done.
Qed.

Lemma is_u64_ones : is_u64 ULONG_MAX.
Proof. by vm_compute. Qed.

Lemma land63 x : Z.land x 63 = x mod 64.
Proof. apply (Z.land_ones x 6). lia. Qed.

Lemma first_mask_bit start i : 0 <= i < 64 ->
  Z.testbit (BITMAP_FIRST_WORD_MASK start) i = (start mod 64 <=? i).
Proof.
  intros Hi. unfold BITMAP_FIRST_WORD_MASK. change (BITS_PER_LONG - 1) with 63. rewrite land63.
  pose proof (Z.mod_pos_bound start 64 ltac:(lia)). set (m := start mod 64) in *.
  unfold u64, U64_MOD. rewrite Z.mod_pow2_bits_low, Z.shiftl_spec by lia.
  destruct (Z.leb_spec m i); [|by apply Z.testbit_neg_r; lia].
  rewrite ones64_bit by lia. apply Z.ltb_lt. lia.
Qed.

Lemma last_mask_bit nbits i : 0 < nbits -> 0 <= i < 64 ->
  Z.testbit (BITMAP_LAST_WORD_MASK nbits) i = (i <=? (nbits - 1) mod 64).
Proof.
  intros Hn Hi. unfold BITMAP_LAST_WORD_MASK. change (BITS_PER_LONG - 1) with 63. rewrite land63.
  assert (E : u64 (- nbits) mod 64 = 63 - (nbits - 1) mod 64).
  { unfold u64, U64_MOD. change (2 ^ 64) with (64 * 2 ^ 58). rewrite Z.rem_mul_r by lia.
    rewrite (Z.mul_comm 64), Z_mod_plus_full, Zmod_mod. Z.to_euclidean_division_equations. lia. }
  rewrite E. pose proof (Z.mod_pos_bound (nbits - 1) 64 ltac:(lia)). set (m := (nbits - 1) mod 64) in *.
  rewrite Z.shiftr_spec, ones64_bit by lia. destruct (Z.leb_spec i m), (Z.ltb_spec (i + (63 - m)) 64); done || lia.
Qed.

(** ** Bitmaps *)

(** Bit [i] of a bitmap. *)
Definition bit (addr : list Z) (i : Z) : bool :=
  Z.testbit (default 0 (addr !! Z.to_nat (i / 64))) (i mod 64).

(** The bitmap has [nbits] bits. *)
Record bm_wf (addr : list Z) (nbits : Z) : Prop := {
  bm_words : Forall is_u64 addr;
  bm_size : 0 <= nbits <= 64 * Z.of_nat (length addr);
  bm_small : nbits < 2 ^ 62
}.

(** What _find_next_bit() looks for. *)
Definition selected (addr1 : list Z) (addr2 : option (list Z)) (invert : Z) (i : Z) : bool :=
  xorb (bit addr1 i && match addr2 with None => true | Some a2 => bit a2 i end)
       (Z.testbit invert (i mod 64)).

(** [r] is the first index of [P] in [lo, n), or [n]. *)
Record first_from (P : Z -> bool) (lo n r : Z) : Prop := {
  ff_le : r <= n;
  ff_found : r < n -> lo <= r /\ P r = true;
  ff_none : forall i, lo <= i < r -> P i = false
}.

(** Indices inside the word that starts at [start]. *)
Lemma word_index start j : (64 | start) -> 0 <= j < 64 -> (start + j) / 64 = start / 64 /\ (start + j) mod 64 = j.
Proof. intros [c ->] Hj. Z.to_euclidean_division_equations. lia. Qed.

Lemma word_bit addr nbits start :
  bm_wf addr nbits -> 0 <= start < nbits -> (64 | start) ->
  exists w, word addr (start / 64) = Ret w /\ is_u64 w
    /\ forall j, 0 <= j < 64 -> Z.testbit w j = bit addr (start + j).
Proof.
  intros [Hw Hs _] Hst Hd. unfold word, bit.
  destruct (lookup_lt_is_Some_2 addr (Z.to_nat (start / 64))) as [w Hl].
  { Z.to_euclidean_division_equations. lia. }
  rewrite Hl. exists w. split_and!; [done|by apply (Forall_lookup_1 _ _ _ _ Hw Hl)..|].
  intros j Hj. destruct (word_index start j Hd Hj) as [-> ->]. by rewrite Hl.
Qed.

Lemma fetch_bits addr1 addr2 invert nbits start :
  bm_wf addr1 nbits -> (forall a2, addr2 = Some a2 -> bm_wf a2 nbits) -> is_u64 invert ->
  0 <= start < nbits -> (64 | start) ->
  exists w, fetch addr1 addr2 invert (start / 64) = Ret w /\ is_u64 w
    /\ forall j, 0 <= j < 64 -> Z.testbit w j = selected addr1 addr2 invert (start + j).
Proof.
  intros H1 H2 Hi Hst Hd. unfold fetch.
  destruct (word_bit addr1 nbits start H1 Hst Hd) as (w1 & -> & Hu1 & Hb1). cbn [obind].
  destruct addr2 as [a2|].
  - destruct (word_bit a2 nbits start (H2 a2 eq_refl) Hst Hd) as (w2 & -> & Hu2 & Hb2). cbn [obind].
    eexists. split_and!; [done|by apply is_u64_lxor; [apply is_u64_land|]..|].
    intros j Hj. unfold selected. destruct (word_index start j Hd Hj) as [_ ->].
    by rewrite Z.lxor_spec, Z.land_spec, Hb1, Hb2.
  - cbn [obind]. eexists. split_and!; [done|by apply is_u64_lxor..|].
    intros j Hj. unfold selected. destruct (word_index start j Hd Hj) as [_ ->].
    by rewrite Z.lxor_spec, Hb1, andb_true_r.
Qed.

(** A nonzero word decides the search. *)
Lemma first_in_word P lo nbits start w :
  is_u64 w -> w <> 0 -> 0 <= start < nbits -> nbits < 2 ^ 62 ->
  (forall j, 0 <= j < 64 -> Z.testbit w j = (lo <=? start + j) && P (start + j)) ->
  (forall i, lo <= i < start -> P i = false) ->
  first_from P lo nbits (Z.min (start +64 __ffs w) nbits).
Proof.
  intros Hu Hne Hst Hn Hb Hbelow. destruct (ffs_least w Hu Hne) as (Hr & Hset & Hl).
  set (o := __ffs w) in *. rewrite (u64_id (start + o)) by ulia.
  rewrite Hb in Hset by lia. apply andb_true_iff in Hset as [Hlo%Z.leb_le Hp]. split; [lia| |].
  - intros Hlt. by replace (Z.min (start + o) nbits) with (start + o) by lia.
  - intros i Hi. destruct (Z.lt_ge_cases i start); [apply Hbelow; lia|].
    specialize (Hl (i - start) ltac:(lia)). rewrite Hb in Hl by lia.
    replace (start + (i - start)) with i in Hl by lia.
    destruct (Z.leb_spec lo i); [done|lia].
Qed.

(** A zero word rules its bits out. *)
Lemma none_in_word P lo start :
  (forall j, 0 <= j < 64 -> Z.testbit 0 j = (lo <=? start + j) && P (start + j)) ->
  (forall i, lo <= i < start -> P i = false) -> forall i, lo <= i < start + 64 -> P i = false.
Proof.
  intros Hb Hbelow i Hi. destruct (Z.lt_ge_cases i start); [apply Hbelow; lia|].
  specialize (Hb (i - start) ltac:(lia)). rewrite Z.bits_0 in Hb. replace (start + (i - start)) with i in Hb by lia.
  destruct (Z.leb_spec lo i); [done|lia].
Qed.

Section NextBit.
Context (addr1 : list Z) (addr2 : option (list Z)) (invert nbits : Z).
Context (H1 : bm_wf addr1 nbits) (H2 : forall a2, addr2 = Some a2 -> bm_wf a2 nbits) (Hinv : is_u64 invert).

Lemma next_bit_loop_spec lo : forall fuel start w,
  0 <= start < nbits -> (64 | start) -> is_u64 w -> nbits <= start + 64 * Z.of_nat fuel ->
  (forall j, 0 <= j < 64 -> Z.testbit w j = (lo <=? start + j) && selected addr1 addr2 invert (start + j)) ->
  (forall i, lo <= i < start -> selected addr1 addr2 invert i = false) -> lo < start + 64 ->
  exists r, next_bit_loop fuel addr1 addr2 nbits start invert w = Ret r
    /\ first_from (selected addr1 addr2 invert) lo nbits r.
Proof.
  pose proof (bm_small _ _ H1) as Hsm.
  induction fuel as [|fuel IH]; intros start w Hst Hd Hu Hf Hb Hbelow Hclose; [lia|]. cbn [next_bit_loop].
  destruct (Z.eqb_spec w 0) as [->|Hne]; cbn [negb];
    [|eexists; split; [done|by apply (first_in_word _ lo nbits start w)]].
  pose proof (none_in_word _ lo start Hb Hbelow) as Hnone. change BITS_PER_LONG with 64.
  rewrite (u64_id (start + 64)) by ulia. rewrite Z.geb_leb. destruct (Z.leb_spec nbits (start + 64)).
  { exists nbits. split; [done|]. split; [lia|lia|]. intros i Hi. apply Hnone. lia. }
  assert (Hd' : (64 | start + 64)) by (apply Z.divide_add_r; [done|by exists 1]).
  destruct (fetch_bits addr1 addr2 invert nbits (start + 64)) as (w' & -> & Hu' & Hb'); try done; [lia|].
  cbn [obind]. apply IH; try done; try lia. intros j Hj. rewrite Hb' by done.
  by destruct (Z.leb_spec lo (start + 64 + j)); [|lia].
Qed.

Lemma find_next_spec start :
  0 <= start -> exists r, _find_next_bit addr1 addr2 nbits start invert = Ret r
    /\ first_from (selected addr1 addr2 invert) start nbits r.
Proof.
  intros Hs. unfold _find_next_bit. rewrite Z.geb_leb. destruct (Z.leb_spec nbits start).
  { exists nbits. split; [done|]. split; lia. }
  change BITS_PER_LONG with 64. pose proof (bm_small _ _ H1) as Hsm. pose proof (bm_size _ _ H1) as Hsz.
  set (b := start / 64 * 64). assert (Hb : 0 <= b <= start /\ start < b + 64 /\ b / 64 = start / 64).
  { unfold b. Z.to_euclidean_division_equations. lia. }
  destruct (fetch_bits addr1 addr2 invert nbits b) as (w & Hw & Hu & Hbit); try done; [lia|by exists (start / 64)|].
  replace (start / 64) with (b / 64) by lia. rewrite Hw. cbn [obind].
  assert (Erd : round_down start 64 = b).
  { change 64 with (2 ^ 6) at 1. rewrite round_down_spec by ulia. change (2 ^ 6) with 64. unfold b. Z.to_euclidean_division_equations. lia. }
  rewrite Erd. apply next_bit_loop_spec; try lia; [by exists (start / 64)| |].
  - apply is_u64_land; [done|]. apply u64_range.
  - intros j Hj. rewrite Z.land_spec, Hbit, first_mask_bit, andb_comm by done. f_equal.
    destruct (Z.leb_spec (start mod 64) j), (Z.leb_spec start (b + j)); try done; unfold b in *;
      Z.to_euclidean_division_equations; lia.
Qed.
End NextBit.

Lemma bit_selected addr i : selected addr None 0 i = bit addr i.
Proof. unfold selected. by rewrite Z.bits_0, xorb_false_r, andb_true_r. Qed.

Lemma bit_selected_inv addr i : selected addr None ULONG_MAX i = negb (bit addr i).
Proof.
  unfold selected. pose proof (Z.mod_pos_bound i 64 ltac:(lia)).
  rewrite ones64_bit by lia. destruct (Z.ltb_spec (i mod 64) 64); [|lia]. by rewrite andb_true_r, xorb_true_r.
Qed.

Lemma first_from_ext P Q lo n r : (forall i, P i = Q i) -> first_from P lo n r -> first_from Q lo n r.
Proof.
  intros E [H1 H2 H3]. split; [done| |].
  - intros Hr. rewrite <- E. auto.
  - intros i Hi. rewrite <- E. auto.
Qed.

Lemma first_bit_loop_spec addr size : bm_wf addr size -> forall fuel idx,
  0 <= idx -> 64 * idx <= size + 63 -> size <= 64 * (idx + Z.of_nat fuel) -> (forall i, 0 <= i < 64 * idx -> bit addr i = false) ->
  exists r, first_bit_loop (S fuel) addr idx size = Ret r /\ first_from (bit addr) 0 size r.
Proof.
  intros Hwf. pose proof (bm_small _ _ Hwf) as Hsm.
  assert (Hdone : forall idx, size <= 64 * idx -> (forall i, 0 <= i < 64 * idx -> bit addr i = false) ->
    first_from (bit addr) 0 size size).
  { intros idx Hle Hbelow. split; [lia|lia|]. intros i Hi. apply Hbelow. lia. }
  induction fuel as [|fuel IH]; intros idx Hi0 Hi Hf Hbelow; cbn [first_bit_loop];
    change BITS_PER_LONG with 64; rewrite (u64_id (idx * 64)) by ulia;
    (destruct (Z.ltb_spec (idx * 64) size); cbn [negb]; [|exists size; split; [done|by apply (Hdone idx); [lia|]]]);
    [lia|].
  destruct (word_bit addr size (idx * 64)) as (w & Hw & Hu & Hb); [done|lia|by exists idx|].
  rewrite Z.div_mul in Hw by lia. rewrite Hw. cbn [obind].
  assert (Hb' : forall j, 0 <= j < 64 -> Z.testbit w j = (0 <=? idx * 64 + j) && bit addr (idx * 64 + j)).
  { intros j Hj. rewrite Hb by done. by destruct (Z.leb_spec 0 (idx * 64 + j)); [|lia]. }
  destruct (Z.eqb_spec w 0) as [->|Hne]; cbn [negb].
  - pose proof (none_in_word _ 0 (idx * 64) Hb') as Hnone. rewrite (u64_id (idx + 1)) by ulia. apply IH; try lia.
    intros i Hi'. apply Hnone; [|lia]. intros k Hk. apply Hbelow. lia.
  - eexists. split; [done|]. apply first_in_word; try done; [lia|]. intros i Hi'. apply Hbelow. lia.
Qed.

Lemma not64_zero w : (not64 w =? 0) = (w =? ULONG_MAX).
Proof.
  apply eq_bool_prop_intro. rewrite !Is_true_true, !Z.eqb_eq. split; [apply Z.lxor_eq|].
  intros ->. apply Z.lxor_nilpotent.
Qed.

(** Searching for a zero is searching the complemented bitmap for a one. *)
Lemma first_zero_loop_not fuel : forall addr idx size,
  first_zero_loop fuel addr idx size = first_bit_loop fuel (map not64 addr) idx size.
Proof.
  induction fuel as [|fuel IH]; intros addr idx size; cbn [first_zero_loop first_bit_loop]; [done|].
  destruct (idx *64 BITS_PER_LONG <? size); cbn [negb]; [|done]. unfold word. rewrite list_lookup_fmap.
  destruct (addr !! Z.to_nat idx) as [w|]; cbn [fmap option_fmap option_map obind]; [|done].
  rewrite not64_zero, IH. done.
Qed.

Lemma bit_not addr size i : bm_wf addr size -> 0 <= i < size -> bit (map not64 addr) i = negb (bit addr i).
Proof.
  intros [Hw Hs _] Hi. unfold bit. rewrite list_lookup_fmap.
  destruct (lookup_lt_is_Some_2 addr (Z.to_nat (i / 64))) as [w ->]; [Z.to_euclidean_division_equations; lia|].
  cbn. apply not64_bit. apply Z.mod_pos_bound. lia.
Qed.

Lemma bm_wf_not addr size : bm_wf addr size -> bm_wf (map not64 addr) size.
Proof.
  intros [Hw Hs Hn]. split; [|by rewrite length_map|done].
  apply Forall_fmap. eapply Forall_impl; [|exact Hw]. intros w Hu. apply is_u64_lxor; [done|apply is_u64_ones].
Qed.

(** [r] is the last index of [P] below [n], or [n] when there is none. *)
Definition last_below (P : Z -> bool) (n r : Z) : Prop :=
  (0 <= r < n /\ P r = true /\ forall i, r < i < n -> P i = false)
  \/ (r = n /\ forall i, 0 <= i < n -> P i = false).

(** The word of bits [b, b + 64), cut at [size], decides the search or rules
    its bits out. *)
Lemma last_in_word P b size w :
  is_u64 w -> w <> 0 -> 0 <= b < size -> size < 2 ^ 62 ->
  (forall j, 0 <= j < 64 -> Z.testbit w j = (b + j <? size) && P (b + j)) ->
  (forall i, b + 64 <= i < size -> P i = false) -> last_below P size (b +64 __fls w).
Proof.
  intros Hu Hne Hb Hs Hbit Habove. destruct (fls_greatest w Hu Hne) as (Hr & Hset & Hg). set (o := __fls w) in *.
  rewrite (u64_id (b + o)) by ulia. rewrite Hbit in Hset by lia. apply andb_true_iff in Hset as [Hlt%Z.ltb_lt Hset].
  left. split_and!; [lia|lia|done|]. intros i Hi. destruct (Z.lt_ge_cases i (b + 64)); [|apply Habove; lia].
  specialize (Hg (i - b) ltac:(lia)). rewrite Hbit in Hg by lia. replace (b + (i - b)) with i in Hg by lia.
  destruct (Z.ltb_spec i size); [done|lia].
Qed.

Lemma none_in_last P b size :
  (forall j, 0 <= j < 64 -> Z.testbit 0 j = (b + j <? size) && P (b + j)) ->
  (forall i, b + 64 <= i < size -> P i = false) -> forall i, b <= i < size -> P i = false.
Proof.
  intros Hbit Habove i Hi. destruct (Z.lt_ge_cases i (b + 64)); [|apply Habove; lia].
  specialize (Hbit (i - b) ltac:(lia)). rewrite Z.bits_0 in Hbit. replace (b + (i - b)) with i in Hbit by lia.
  destruct (Z.ltb_spec i size); [done|lia].
Qed.

Lemma last_bit_loop_spec addr size : bm_wf addr size -> forall idx val,
  Z.of_nat idx * 64 < size -> is_u64 val ->
  (forall j, 0 <= j < 64 -> Z.testbit val j = (Z.of_nat idx * 64 + j <? size)) ->
  (forall i, Z.of_nat idx * 64 + 64 <= i < size -> bit addr i = false) ->
  exists r, last_bit_loop idx addr val size = Ret r /\ last_below (bit addr) size r.
Proof.
  intros Hwf. pose proof (bm_small _ _ Hwf) as Hsm.
  assert (Hword : forall idx val, Z.of_nat idx * 64 < size -> is_u64 val ->
    (forall j, 0 <= j < 64 -> Z.testbit val j = (Z.of_nat idx * 64 + j <? size)) ->
    exists w, word addr (Z.of_nat idx) = Ret w /\ is_u64 (Z.land val w)
      /\ forall j, 0 <= j < 64 -> Z.testbit (Z.land val w) j
                  = (Z.of_nat idx * 64 + j <? size) && bit addr (Z.of_nat idx * 64 + j)).
  { intros idx val Hi Hu Hval.
    destruct (word_bit addr size (Z.of_nat idx * 64)) as (w & Hw & Huw & Hb); [done|lia|by exists (Z.of_nat idx)|].
    rewrite Z.div_mul in Hw by lia. exists w. split; [done|]. split; [by apply is_u64_land|].
    intros j Hj. by rewrite Z.land_spec, Hval, Hb by done. }
  induction idx as [|idx IH]; intros val Hi Hu Hval Habove; cbn [last_bit_loop];
    destruct (Hword _ val Hi Hu Hval) as (w & -> & Hv & Hbit); cbn [obind]; change BITS_PER_LONG with 64;
    (destruct (Z.eqb_spec (Z.land val w) 0) as [E|Hne]; cbn [negb];
      [rewrite E in Hbit; pose proof (none_in_last _ _ size Hbit Habove) as Hz
      |eexists; split; [done|apply last_in_word; done || lia]]).
  - exists size. split; [done|]. right. split; [done|]. intros i Hi'. apply Hz. lia.
  - apply IH; [lia|apply is_u64_ones| |].
    + intros j Hj. rewrite ones64_bit by lia. destruct (Z.ltb_spec j 64), (Z.ltb_spec (Z.of_nat idx * 64 + j) size); done || lia.
    + intros i Hi'. apply Hz. lia.
Qed.

Lemma find_next_bit_spec addr size offset :
  bm_wf addr size -> 0 <= offset ->
  exists r, find_next_bit addr size offset = Ret r /\ first_from (bit addr) offset size r.
Proof.
  intros H1 Ho.
  destruct (find_next_spec addr None 0 size H1) with offset as (r & Hr & Hf); [done|by vm_compute|done|].
  exists r. split; [done|]. by apply (first_from_ext _ _ _ _ _ (bit_selected addr)).
Qed.

Lemma find_first_bit_spec addr size :
  bm_wf addr size -> exists r, find_first_bit addr size = Ret r /\ first_from (bit addr) 0 size r.
Proof. intros Hwf. pose proof (bm_size _ _ Hwf). apply first_bit_loop_spec; lia || done. Qed.

Lemma find_first_zero_bit_spec addr size :
  bm_wf addr size -> exists r, find_first_zero_bit addr size = Ret r /\ first_from (fun i => negb (bit addr i)) 0 size r.
Proof.
  intros Hwf. pose proof (bm_size _ _ Hwf). unfold find_first_zero_bit. rewrite first_zero_loop_not.
  destruct (first_bit_loop_spec (map not64 addr) size (bm_wf_not _ _ Hwf) (length addr) 0) as (r & Hr & [Hle Hf Hn]);
    [lia..|]. exists r. split; [done|]. split; [done| |].
  - intros Hr'. destruct (Hf Hr') as [? Hb]. rewrite (bit_not addr size) in Hb by (done || lia). done.
  - intros i Hi. rewrite <- (bit_not addr size) by (done || lia). by apply Hn.
Qed.

Lemma find_last_bit_spec addr size :
  bm_wf addr size -> exists r, find_last_bit addr size = Ret r /\ last_below (bit addr) size r.
Proof.
  intros Hwf. pose proof (bm_size _ _ Hwf) as Hs.
  unfold find_last_bit. destruct (Z.eqb_spec size 0) as [->|Hne].
  { exists 0. split; [done|]. right. split; [done|]. lia. }
  change BITS_PER_LONG with 64. set (k := (size - 1) / 64).
  assert (Hk : 0 <= k /\ k * 64 <= size - 1 < k * 64 + 64 /\ size - 1 = k * 64 + (size - 1) mod 64)
    by (unfold k; Z.to_euclidean_division_equations; lia).
  apply last_bit_loop_spec; rewrite ?Z2Nat.id by lia; [done|lia| | |lia].
  + apply is_u64_bits.
    * apply Z.shiftr_nonneg. by vm_compute.
    * intros i Hi. unfold BITMAP_LAST_WORD_MASK. rewrite Z.shiftr_spec, ones64_bit; [|change (BITS_PER_LONG - 1) with 63; rewrite land63; pose proof (Z.mod_pos_bound (u64 (- size)) 64); lia|lia].
      apply Z.ltb_ge. change (BITS_PER_LONG - 1) with 63. rewrite land63. pose proof (Z.mod_pos_bound (u64 (- size)) 64). lia.
  + intros j Hj. rewrite last_mask_bit by lia.
    destruct (Z.leb_spec j ((size - 1) mod 64)), (Z.ltb_spec (k * 64 + j) size); done || lia.
Qed.

(** The three forward searches terminate and return the first position at or
    after the offset whose bit is set (clear; set in both maps), or the size
    of the bitmap when there is none. *)
Theorem find_next_bits_correct (addr1 addr2 : list Z) (size offset : Z) :
  bm_wf addr1 size -> bm_wf addr2 size -> 0 <= offset ->
  (exists r, find_next_bit addr1 size offset = Ret r /\ first_from (bit addr1) offset size r)
  /\ (exists r, find_next_zero_bit addr1 size offset = Ret r
        /\ first_from (fun i => negb (bit addr1 i)) offset size r)
  /\ (exists r, find_next_and_bit addr1 addr2 size offset = Ret r
        /\ first_from (fun i => bit addr1 i && bit addr2 i) offset size r).
Proof.
  intros H1 H2 Ho. split_and!.
  - by apply find_next_bit_spec.
  - destruct (find_next_spec addr1 None ULONG_MAX size H1) with offset as (r & Hr & Hf); [done|apply is_u64_ones|done|].
    exists r. split; [done|]. by apply (first_from_ext _ _ _ _ _ (bit_selected_inv addr1)).
  - destruct (find_next_spec addr1 (Some addr2) 0 size H1) with offset as (r & Hr & Hf);
      [by intros ? [= <-]|by vm_compute|done|].
    exists r. split; [done|]. eapply first_from_ext; [|done]. intros i. unfold selected. cbn.
    by rewrite Z.bits_0, xorb_false_r.
Qed.

Lemma mask_bm_wf w n : is_u64 w -> 0 <= n <= 64 -> bm_wf [w] n.
Proof. intros Hw Hn. split; [constructor; [done|constructor]|cbn; lia|lia]. Qed.

Lemma find_next_bits_correct_witness :
  (exists r, find_next_bit [5] 8 1 = Ret r /\ first_from (bit [5]) 1 8 r)
  /\ (exists r, find_next_zero_bit [5] 8 1 = Ret r /\ first_from (fun i => negb (bit [5] i)) 1 8 r)
  /\ (exists r, find_next_and_bit [5] [6] 8 1 = Ret r
        /\ first_from (fun i => bit [5] i && bit [6] i) 1 8 r).
Proof.
  apply (find_next_bits_correct [5] [6] 8 1); [apply mask_bm_wf; ulia|apply mask_bm_wf; ulia|lia].
Defined.

(** The searches from either end of the bitmap return the first set, the first
    clear and the last set position, or the size when there is none. *)
Theorem find_ends_correct (addr : list Z) (size : Z) :
  bm_wf addr size ->
  (exists r, find_first_bit addr size = Ret r /\ first_from (bit addr) 0 size r)
  /\ (exists r, find_first_zero_bit addr size = Ret r /\ first_from (fun i => negb (bit addr i)) 0 size r)
  /\ (exists r, find_last_bit addr size = Ret r /\ last_below (bit addr) size r).
Proof.
  intros Hwf. pose proof (bm_size _ _ Hwf) as Hs. split_and!.
  - by apply find_first_bit_spec.
  - by apply find_first_zero_bit_spec.
  - by apply find_last_bit_spec.
Qed.

Lemma find_ends_correct_witness :
  (exists r, find_first_bit [5] 8 = Ret r /\ first_from (bit [5]) 0 8 r)
  /\ (exists r, find_first_zero_bit [5] 8 = Ret r /\ first_from (fun i => negb (bit [5] i)) 0 8 r)
  /\ (exists r, find_last_bit [5] 8 = Ret r /\ last_below (bit [5]) 8 r).
Proof. apply (find_ends_correct [5] 8). apply mask_bm_wf; ulia. Defined.
