(* ===== verification/Memblock.v ===== *)
(** * The boot-time physical memory allocator: data, iteration and search

    Model of mm/memblock.c and include/linux/memblock.h, first part: the
    region arrays, their merging, insertion and removal primitives, the
    "next range" iterators, the two range finders and the binary search.
    The operations that may grow an array (and therefore recurse into the
    allocator) are in MemblockOps.

    An array [type->regions] with [type->cnt] live entries is the list of its
    live entries: [cnt] is the length of the list, entry [i] is the [i]-th
    element, and a memmove() that opens or closes a slot is an insertion or a
    deletion.  Entries past [cnt] are never read by the code. *)

From stdpp Require Import base list numbers option.
From S2P Require Import Prelude.

(** ** Constants *)

Definition PHYS_ADDR_MAX : Z := U64_MOD - 1.
Definition ULLONG_MAX : Z := U64_MOD - 1.
Definition PAGE_SHIFT : Z := 12.
Definition PAGE_SIZE : Z := 2 ^ PAGE_SHIFT.
Definition MAX_NUMNODES : Z := 8.
Definition NUMA_NO_NODE : Z := -1.
Definition SMP_CACHE_BYTES : Z := 64.
Definition INIT_MEMBLOCK_REGIONS : Z := 128.
Definition MEMBLOCK_ALLOC_ANYWHERE : Z := PHYS_ADDR_MAX.
Definition MEMBLOCK_ALLOC_ACCESSIBLE : Z := 0.
Definition ENOMEM : Z := 12.
Definition SIZEOF_REGION : Z := 24.

Definition MEMBLOCK_NONE : Z := 0.
Definition MEMBLOCK_HOTPLUG : Z := 1.
Definition MEMBLOCK_MIRROR : Z := 2.
Definition MEMBLOCK_NOMAP : Z := 4.

Definition PFN_UP (x : Z) : Z := Z.shiftr (u64 (x + PAGE_SIZE - 1)) PAGE_SHIFT.
Definition PFN_DOWN (x : Z) : Z := Z.shiftr x PAGE_SHIFT.
Definition PFN_PHYS (x : Z) : Z := u64 (Z.shiftl x PAGE_SHIFT).
Definition PAGE_ALIGN (x : Z) : Z := round_down (u64 (x + PAGE_SIZE - 1)) PAGE_SIZE.

(** ** Data *)

Record memblock_region := mk_region {
  r_base : Z;
  r_size : Z;
  r_flags : Z;
  r_nid : Z
}.

#[global] Instance memblock_region_eq_dec : EqDecision memblock_region.
Proof. solve_decision. Defined.

(** [array_pa] tells where the region array itself lives: [None] for the
    static [memblock_*_init_regions], [Some pa] for one that
    memblock_double_array() allocated at physical address [pa]. *)
Record memblock_type := mk_type {
  t_max : Z;
  total_size : Z;
  regions : list memblock_region;
  array_pa : option Z
}.

Definition t_cnt (t : memblock_type) : Z := Z.of_nat (length (regions t)).

Record memblock := mk_memblock {
  bottom_up : bool;
  current_limit : Z;
  memory : memblock_type;
  reserved : memblock_type;
  system_has_some_mirror : bool;
  memblock_can_resize : bool
}.

(** Which of the two arrays a [struct memblock_type *] argument points to. *)
Inductive which := Memory | Reserved.

Definition get_type (s : memblock) (w : which) : memblock_type :=
  match w with Memory => memory s | Reserved => reserved s end.

Definition set_type (s : memblock) (w : which) (t : memblock_type) : memblock :=
  match w with
  | Memory => mk_memblock (bottom_up s) (current_limit s) t (reserved s)
                (system_has_some_mirror s) (memblock_can_resize s)
  | Reserved => mk_memblock (bottom_up s) (current_limit s) (memory s) t
                  (system_has_some_mirror s) (memblock_can_resize s)
  end.

Definition set_regions (t : memblock_type) (rs : list memblock_region) : memblock_type :=
  mk_type (t_max t) (total_size t) rs (array_pa t).

Definition set_total (t : memblock_type) (v : Z) : memblock_type :=
  mk_type (t_max t) v (regions t) (array_pa t).

Definition dummy_region : memblock_region := mk_region 0 0 0 0.

(** The static initialiser of [struct memblock memblock]: both arrays hold one
    zeroed entry. *)
Definition memblock_init : memblock :=
  let t := mk_type INIT_MEMBLOCK_REGIONS 0 [dummy_region] None in
  mk_memblock false MEMBLOCK_ALLOC_ANYWHERE t t false false.

Definition region_at (rs : list memblock_region) (i : Z) : memblock_region :=
  nth (Z.to_nat i) rs dummy_region.

Definition region_end (r : memblock_region) : Z := r_base r +64 r_size r.

(** ** Accessors of include/linux/memblock.h *)

Definition memblock_set_region_node (r : memblock_region) (nid : Z) : memblock_region :=
  mk_region (r_base r) (r_size r) (r_flags r) nid.
Definition memblock_get_region_node (r : memblock_region) : Z := r_nid r.
Definition movable_node_is_enabled : bool := false.
Definition memblock_is_hotpluggable (m : memblock_region) : bool :=
  negb (Z.land (r_flags m) MEMBLOCK_HOTPLUG =? 0).
Definition memblock_is_mirror (m : memblock_region) : bool :=
  negb (Z.land (r_flags m) MEMBLOCK_MIRROR =? 0).
Definition memblock_is_nomap (m : memblock_region) : bool :=
  negb (Z.land (r_flags m) MEMBLOCK_NOMAP =? 0).
Definition memblock_set_region_flags (r : memblock_region) (flags : Z) : memblock_region :=
  mk_region (r_base r) (r_size r) (Z.lor (r_flags r) flags) (r_nid r).
Definition memblock_clear_region_flags (r : memblock_region) (flags : Z) : memblock_region :=
  mk_region (r_base r) (r_size r) (Z.land (r_flags r) (Z.lnot flags)) (r_nid r).
Definition memblock_set_bottom_up (s : memblock) (enable : bool) : memblock :=
  mk_memblock enable (current_limit s) (memory s) (reserved s)
    (system_has_some_mirror s) (memblock_can_resize s).

(** ** Array primitives *)

Definition choose_memblock_flags (s : memblock) : Z :=
  if system_has_some_mirror s then MEMBLOCK_MIRROR else MEMBLOCK_NONE.

(** The capped size that memblock_cap_size() stores back through its pointer
    and returns. *)
Definition memblock_cap_size (base size : Z) : Z :=
  Z.min size (PHYS_ADDR_MAX -64 base).

Definition memblock_addrs_overlap (base1 size1 base2 size2 : Z) : bool :=
  (base1 <? base2 +64 size2) && (base2 <? base1 +64 size1).

Fixpoint overlaps_loop (rs : list memblock_region) (base size : Z) : bool :=
  match rs with
  | [] => false
  | r :: rs' =>
      if memblock_addrs_overlap base size (r_base r) (r_size r) then true
      else overlaps_loop rs' base size
  end.

Definition memblock_overlaps_region (t : memblock_type) (base size : Z) : bool :=
  overlaps_loop (regions t) base size.

Definition memblock_insert_region (t : memblock_type) (idx : nat)
    (base size nid flags : Z) : outcome memblock_type :=
  if t_max t <=? t_cnt t then Panic (* BUG_ON(type->cnt >= type->max) *)
  else Ret (mk_type (t_max t) (total_size t +64 size)
              (take idx (regions t) ++ mk_region base size flags nid :: drop idx (regions t))
              (array_pa t)).

(** The scan of memblock_merge_regions(): [this] is entry [i], [rest] the
    entries after it. *)
Fixpoint merge_loop (this : memblock_region) (rest : list memblock_region)
    : outcome (list memblock_region) :=
  match rest with
  | [] => Ret [this]
  | next :: rest' =>
      if negb (region_end this =? r_base next)
         || negb (memblock_get_region_node this =? memblock_get_region_node next)
         || negb (r_flags this =? r_flags next)
      then
        if r_base next <? region_end this then Panic (* BUG_ON *)
        else let! l := merge_loop next rest' in Ret (this :: l)
      else
        merge_loop (mk_region (r_base this) (r_size this +64 r_size next)
                      (r_flags this) (r_nid this)) rest'
  end.

Definition memblock_merge_regions (t : memblock_type) : outcome memblock_type :=
  match regions t with
  | [] => Ret t
  | r :: rs => let! l := merge_loop r rs in Ret (set_regions t l)
  end.

Definition memblock_remove_region (t : memblock_type) (r : nat) : memblock_type :=
  let total := total_size t -64 r_size (region_at (regions t) (Z.of_nat r)) in
  let rs := take r (regions t) ++ drop (S r) (regions t) in
  match rs with
  | [] => mk_type (t_max t) total [mk_region 0 0 0 MAX_NUMNODES] (array_pa t)
  | _ => mk_type (t_max t) total rs (array_pa t)
  end.

(** ** Iterators *)

(** [*idx] packs two 32-bit cursors. *)
Definition pack_idx (idx_a idx_b : Z) : Z :=
  Z.lor (u32 idx_a) (u64 (Z.shiftl (u64 idx_b) 32)).
Definition idx_a_of (idx : Z) : Z := s32 (Z.land idx 0xffffffff).
Definition idx_b_of (idx : Z) : Z := s32 (Z.shiftr idx 32).

(** What one call stores through [out_start], [out_end] and [out_nid]. *)
Record mem_range := mk_range { mr_start : Z; mr_end : Z; mr_nid : Z }.

Definition next_reserved_mem_region (s : memblock) (idx : Z) : Z * option (Z * Z) :=
  if idx <? t_cnt (reserved s) then
    let r := region_at (regions (reserved s)) idx in
    (idx +64 1, Some (r_base r, u64 (r_base r + r_size r - 1)))
  else (ULLONG_MAX, None).

(** The three "continue" tests shared by both directions. *)
Definition range_skips (nid flags : Z) (m : memblock_region) : bool :=
  (negb (nid =? NUMA_NO_NODE) && negb (nid =? memblock_get_region_node m))
  || (movable_node_is_enabled && memblock_is_hotpluggable m)
  || (negb (Z.land flags MEMBLOCK_MIRROR =? 0) && negb (memblock_is_mirror m))
  || ((Z.land flags MEMBLOCK_NOMAP =? 0) && memblock_is_nomap m).

(** The gap before reservation [idx_b]: [r_start, r_end). *)
Definition gap_start (rsb : list memblock_region) (idx_b : Z) : Z :=
  if idx_b =? 0 then 0 else region_end (region_at rsb (idx_b - 1)).
Definition gap_end (rsb : list memblock_region) (idx_b : Z) : Z :=
  if idx_b <? Z.of_nat (length rsb) then r_base (region_at rsb idx_b) else PHYS_ADDR_MAX.

(** Result of the inner scan over reservations: a range was found, with the
    cursors for the next call, or the scan was left at [idx_b]. *)
Inductive scan_result :=
  | ScanFound (start end_ idx_a idx_b : Z)
  | ScanLeft (idx_b : Z).

Fixpoint next_scan_b (fuel : nat) (rsb : list memblock_region)
    (m_start m_end idx_a idx_b : Z) : scan_result :=
  match fuel with
  | O => ScanLeft idx_b
  | S fuel' =>
      let r_start := gap_start rsb idx_b in
      let r_end := gap_end rsb idx_b in
      if r_start >=? m_end then ScanLeft idx_b
      else if m_start <? r_end then
        if m_end <=? r_end
        then ScanFound (Z.max m_start r_start) (Z.min m_end r_end) (idx_a + 1) idx_b
        else ScanFound (Z.max m_start r_start) (Z.min m_end r_end) idx_a (idx_b + 1)
      else next_scan_b fuel' rsb m_start m_end idx_a (idx_b + 1)
  end.

(** Iterations left in [for (; idx_b < type_b->cnt + 1; idx_b++)]; the
    comparison is unsigned, so a negative [idx_b] leaves none. *)
Definition scan_b_fuel (rsb : list memblock_region) (idx_b : Z) : nat :=
  if idx_b <? 0 then O else Z.to_nat (Z.of_nat (length rsb) + 1 - idx_b).

Fixpoint next_scan_a (todo : list memblock_region) (rsb : option (list memblock_region))
    (nid flags idx_a idx_b : Z) : Z * option mem_range :=
  match todo with
  | [] => (ULLONG_MAX, None)
  | m :: todo' =>
      if range_skips nid flags m then next_scan_a todo' rsb nid flags (idx_a + 1) idx_b
      else
        let m_start := r_base m in
        let m_end := region_end m in
        match rsb with
        | None => (pack_idx (idx_a + 1) idx_b, Some (mk_range m_start m_end (r_nid m)))
        | Some rsb' =>
            match next_scan_b (scan_b_fuel rsb' idx_b) rsb' m_start m_end idx_a idx_b with
            | ScanFound st en ia ib => (pack_idx ia ib, Some (mk_range st en (r_nid m)))
            | ScanLeft ib => next_scan_a todo' rsb nid flags (idx_a + 1) ib
            end
        end
  end.

(** [if (WARN_ONCE(nid == MAX_NUMNODES, ...)) nid = NUMA_NO_NODE;] *)
Definition fix_nid (nid : Z) : Z := if nid =? MAX_NUMNODES then NUMA_NO_NODE else nid.

Definition next_mem_range (idx nid flags : Z) (type_a : list memblock_region)
    (type_b : option (list memblock_region)) : Z * option mem_range :=
  let idx_a := idx_a_of idx in
  let idx_b := idx_b_of idx in
  if idx_a <? 0 then (ULLONG_MAX, None)
  else next_scan_a (drop (Z.to_nat idx_a) type_a) type_b (fix_nid nid) flags idx_a idx_b.

(** Reverse direction: the scans walk [idx_b] and [idx_a] down to zero;
    [n] is the cursor plus one, so [O] is the exit test [idx >= 0]. *)
Fixpoint next_scan_b_rev (n : nat) (rsb : list memblock_region)
    (m_start m_end idx_a : Z) : scan_result :=
  match n with
  | O => ScanLeft (-1)
  | S n' =>
      let idx_b := Z.of_nat n' in
      let r_start := gap_start rsb idx_b in
      let r_end := gap_end rsb idx_b in
      if r_end <=? m_start then ScanLeft idx_b
      else if m_end >? r_start then
        if m_start >=? r_start
        then ScanFound (Z.max m_start r_start) (Z.min m_end r_end) (idx_a - 1) idx_b
        else ScanFound (Z.max m_start r_start) (Z.min m_end r_end) idx_a (idx_b - 1)
      else next_scan_b_rev n' rsb m_start m_end idx_a
  end.

Fixpoint next_scan_a_rev (n : nat) (type_a : list memblock_region)
    (rsb : option (list memblock_region)) (nid flags idx_b : Z) : Z * option mem_range :=
  match n with
  | O => (ULLONG_MAX, None)
  | S n' =>
      let idx_a := Z.of_nat n' in
      let m := region_at type_a idx_a in
      if range_skips nid flags m then next_scan_a_rev n' type_a rsb nid flags idx_b
      else
        let m_start := r_base m in
        let m_end := region_end m in
        match rsb with
        | None => (pack_idx (idx_a - 1) idx_b, Some (mk_range m_start m_end (r_nid m)))
        | Some rsb' =>
            match next_scan_b_rev (Z.to_nat (idx_b + 1)) rsb' m_start m_end idx_a with
            | ScanFound st en ia ib => (pack_idx ia ib, Some (mk_range st en (r_nid m)))
            | ScanLeft ib => next_scan_a_rev n' type_a rsb nid flags ib
            end
        end
  end.

Definition next_mem_range_rev (idx nid flags : Z) (type_a : list memblock_region)
    (type_b : option (list memblock_region)) : Z * option mem_range :=
  let start := idx =? ULLONG_MAX in
  let idx_a := if start then Z.of_nat (length type_a) - 1 else idx_a_of idx in
  let idx_b := if start then
                 match type_b with Some b => Z.of_nat (length b) | None => 0 end
               else idx_b_of idx in
  next_scan_a_rev (Z.to_nat (idx_a + 1)) type_a type_b (fix_nid nid) flags idx_b.

(** [for_each_mem_range] and its reverse: the successive ranges the loop body
    sees.  The bodies below do not change the arrays, so the loop is the list
    of its iterations.  [fuel] bounds the number of calls. *)
Fixpoint iterate (fuel : nat) (next : Z -> Z * option mem_range) (idx : Z)
    : outcome (list mem_range) :=
  match fuel with
  | O => Stuck
  | S fuel' =>
      match next idx with
      | (idx', Some r) =>
          if idx' =? ULLONG_MAX then Ret []
          else let! l := iterate fuel' next idx' in Ret (r :: l)
      | (_, None) => Ret []
      end
  end.

Definition iterate_fuel (s : memblock) : nat :=
  S (S (length (regions (memory s)) + length (regions (reserved s)))).

Definition for_each_free_mem_range (s : memblock) (nid flags : Z) : outcome (list mem_range) :=
  iterate (iterate_fuel s)
    (fun i => next_mem_range i nid flags (regions (memory s)) (Some (regions (reserved s)))) 0.

Definition for_each_free_mem_range_reverse (s : memblock) (nid flags : Z)
    : outcome (list mem_range) :=
  iterate (iterate_fuel s)
    (fun i => next_mem_range_rev i nid flags (regions (memory s)) (Some (regions (reserved s))))
    ULLONG_MAX.

(** ** Range finders *)

Fixpoint find_bottom_up_loop (l : list mem_range) (start end_ size align : Z) : Z :=
  match l with
  | [] => 0
  | r :: l' =>
      let this_start := clamp (mr_start r) start end_ in
      let this_end := clamp (mr_end r) start end_ in
      let cand := round_up this_start align in
      if (cand <? this_end) && (this_end -64 cand >=? size) then cand
      else find_bottom_up_loop l' start end_ size align
  end.

Definition memblock_find_range_bottom_up (s : memblock) (start end_ size align nid flags : Z)
    : outcome Z :=
  let! l := for_each_free_mem_range s nid flags in
  Ret (find_bottom_up_loop l start end_ size align).

Fixpoint find_top_down_loop (l : list mem_range) (start end_ size align : Z) : Z :=
  match l with
  | [] => 0
  | r :: l' =>
      let this_start := clamp (mr_start r) start end_ in
      let this_end := clamp (mr_end r) start end_ in
      if this_end <? size then find_top_down_loop l' start end_ size align
      else
        let cand := round_down (this_end -64 size) align in
        if cand >=? this_start then cand
        else find_top_down_loop l' start end_ size align
  end.

Definition memblock_find_range_top_down (s : memblock) (start end_ size align nid flags : Z)
    : outcome Z :=
  let! l := for_each_free_mem_range_reverse s nid flags in
  Ret (find_top_down_loop l start end_ size align).

(** [kernel_end] is [__pa_symbol(_end)], fixed by the linker. *)
Definition memblock_find_in_range_node (kernel_end : Z) (s : memblock)
    (size align start end_ nid flags : Z) : outcome Z :=
  let end0 := if end_ =? MEMBLOCK_ALLOC_ACCESSIBLE then current_limit s else end_ in
  let start1 := Z.max start PAGE_SIZE in
  let end1 := Z.max start1 end0 in
  let! ret :=
    (if bottom_up s && (end1 >? kernel_end)
     then memblock_find_range_bottom_up s (Z.max start1 kernel_end) end1 size align nid flags
     else Ret 0) in
  if negb (ret =? 0) then Ret ret
  else memblock_find_range_top_down s start1 end1 size align nid flags.

Definition memblock_find_in_range (kernel_end : Z) (s : memblock)
    (start end_ size align : Z) : outcome Z :=
  let flags := choose_memblock_flags s in
  let! ret := memblock_find_in_range_node kernel_end s size align start end_ NUMA_NO_NODE flags in
  if (ret =? 0) && negb (Z.land flags MEMBLOCK_MIRROR =? 0)
  then (* flags &= ~MEMBLOCK_MIRROR; goto again *)
    memblock_find_in_range_node kernel_end s size align start end_ NUMA_NO_NODE
      (Z.land flags (Z.lnot MEMBLOCK_MIRROR))
  else Ret ret.

(** ** Binary search *)

Fixpoint search_loop (fuel : nat) (rs : list memblock_region) (addr left right : Z)
    : outcome Z :=
  match fuel with
  | O => Stuck
  | S fuel' =>
      let mid := (u32 (right + left)) / 2 in
      let r := region_at rs mid in
      if addr <? r_base r then
        if left <? mid then search_loop fuel' rs addr left mid else Ret (-1)
      else if addr >=? region_end r then
        if u32 (mid + 1) <? right then search_loop fuel' rs addr (u32 (mid + 1)) right
        else Ret (-1)
      else Ret mid
  end.

Definition memblock_search (t : memblock_type) (addr : Z) : outcome Z :=
  search_loop (S (length (regions t))) (regions t) addr 0 (u32 (t_cnt t)).
