(* ===== verification/MemblockOps.v ===== *)
(** * The boot-time physical memory allocator: operations

    Second part of the model of mm/memblock.c: adding, isolating, removing and
    flagging ranges, the allocation entry points, the memory limit and the
    query functions.

    memblock_add_range() and memblock_isolate_range() call
    memblock_double_array() when the array is full, and that function calls
    memblock_free() and memblock_reserve(), which come back to the first two.
    The two are therefore written over an abstract "double the array" argument
    [dbl], and memblock_double_array() closes the recursion with a fuel that
    counts nested doublings. *)

From stdpp Require Import base list numbers option.
From S2P Require Import Prelude Memblock.

(** ** Growing an array *)

Definition doubler : Type := memblock -> which -> Z -> Z -> outcome (memblock * Z).

(** [while (type->cnt + need > type->max) if (memblock_double_array(...) < 0)
    return -ENOMEM;]: the flag tells whether there is room now. *)
Fixpoint resize_loop (fuel : nat) (dbl : doubler) (s : memblock) (w : which)
    (need start size : Z) : outcome (memblock * bool) :=
  match fuel with
  | O => Stuck
  | S fuel' =>
      if t_cnt (get_type s w) + need >? t_max (get_type s w) then
        let! (s', r) := dbl s w start size in
        if r <? 0 then Ret (s', false)
        else resize_loop fuel' dbl s' w need start size
      else Ret (s, true)
  end.

(** Each round doubles [max], which is at least one. *)
Definition RESIZE_FUEL : nat := 64.

(** ** memblock_add_range *)

(** The region loop of one pass.  [todo] holds the entries not visited yet,
    [idx] the index of its head in the current array. *)
Fixpoint add_range_loop (insert : bool) (end_ nid flags : Z) (todo : list memblock_region)
    (t : memblock_type) (idx : nat) (base nr_new : Z)
    : outcome (memblock_type * nat * Z * Z) :=
  match todo with
  | [] => Ret (t, idx, base, nr_new)
  | rgn :: todo' =>
      let rbase := r_base rgn in
      let rend := region_end rgn in
      if rbase >=? end_ then Ret (t, idx, base, nr_new)
      else if rend <=? base then
        add_range_loop insert end_ nid flags todo' t (S idx) base nr_new
      else if rbase >? base then
        let! t' := (if insert then memblock_insert_region t idx base (rbase -64 base) nid flags
                    else Ret t) in
        add_range_loop insert end_ nid flags todo' t'
          (if insert then S (S idx) else S idx) (Z.min rend end_) (nr_new + 1)
      else add_range_loop insert end_ nid flags todo' t (S idx) (Z.min rend end_) nr_new
  end.

(** One pass: the loop, then "insert the remaining portion". *)
Definition add_range_pass (insert : bool) (t : memblock_type) (obase end_ nid flags : Z)
    : outcome (memblock_type * Z) :=
  let! (t1, idx, base, nr_new) :=
    add_range_loop insert end_ nid flags (regions t) t 0 obase 0 in
  if base <? end_ then
    let! t2 := (if insert then memblock_insert_region t1 idx base (end_ -64 base) nid flags
                else Ret t1) in
    Ret (t2, nr_new + 1)
  else Ret (t1, nr_new).

Definition memblock_add_range_with (dbl : doubler) (s : memblock) (w : which)
    (base size nid flags : Z) : outcome (memblock * Z) :=
  let size := memblock_cap_size base size in
  let end_ := base +64 size in
  let t := get_type s w in
  if size =? 0 then Ret (s, 0)
  else if r_size (region_at (regions t) 0) =? 0 then
    Ret (set_type s w (mk_type (t_max t) size
                         (mk_region base size flags nid :: tail (regions t)) (array_pa t)), 0)
  else
    let! (_, nr_new) := add_range_pass false t base end_ nid flags in
    if nr_new =? 0 then Ret (s, 0)
    else
      let! (s1, room) := resize_loop RESIZE_FUEL dbl s w nr_new base size in
      if negb room then Ret (s1, - ENOMEM)
      else
        let! (t2, nr_new2) := add_range_pass true (get_type s1 w) base end_ nid flags in
        if nr_new2 =? 0 then Ret (set_type s1 w t2, 0)
        else
          let! t3 := memblock_merge_regions t2 in
          Ret (set_type s1 w t3, 0).

(** ** memblock_isolate_range *)

Fixpoint isolate_loop (fuel : nat) (t : memblock_type) (idx : nat) (base end_ : Z)
    (start_rgn end_rgn : nat) : outcome (memblock_type * nat * nat) :=
  match fuel with
  | O => Stuck
  | S fuel' =>
      match regions t !! idx with
      | None => Ret (t, start_rgn, end_rgn)
      | Some rgn =>
          let rbase := r_base rgn in
          let rend := region_end rgn in
          if rbase >=? end_ then Ret (t, start_rgn, end_rgn)
          else if rend <=? base then isolate_loop fuel' t (S idx) base end_ start_rgn end_rgn
          else if rbase <? base then
            let rgn' := mk_region base (r_size rgn -64 (base -64 rbase)) (r_flags rgn) (r_nid rgn) in
            let t1 := mk_type (t_max t) (total_size t -64 (base -64 rbase))
                        (<[idx := rgn']> (regions t)) (array_pa t) in
            let! t2 := memblock_insert_region t1 idx rbase (base -64 rbase)
                         (memblock_get_region_node rgn) (r_flags rgn) in
            isolate_loop fuel' t2 (S idx) base end_ start_rgn end_rgn
          else if rend >? end_ then
            let rgn' := mk_region end_ (r_size rgn -64 (end_ -64 rbase)) (r_flags rgn) (r_nid rgn) in
            let t1 := mk_type (t_max t) (total_size t -64 (end_ -64 rbase))
                        (<[idx := rgn']> (regions t)) (array_pa t) in
            let! t2 := memblock_insert_region t1 idx rbase (end_ -64 rbase)
                         (memblock_get_region_node rgn) (r_flags rgn) in
            (* idx-- here and idx++ in the loop header: the same index again *)
            isolate_loop fuel' t2 idx base end_ start_rgn end_rgn
          else
            isolate_loop fuel' t (S idx) base end_
              (if (end_rgn =? 0)%nat then idx else start_rgn) (S idx)
      end
  end.

(** One entry at most is split at each end of the range: three visits beyond
    one per entry, and one to leave the loop. *)
Definition isolate_fuel (t : memblock_type) : nat := length (regions t) + 4.

(** The result carries the return value and [*start_rgn], [*end_rgn]. *)
Definition memblock_isolate_range_with (dbl : doubler) (s : memblock) (w : which)
    (base size : Z) : outcome (memblock * Z * nat * nat) :=
  let size := memblock_cap_size base size in
  let end_ := base +64 size in
  if size =? 0 then Ret (s, 0, O, O)
  else
    let! (s1, room) := resize_loop RESIZE_FUEL dbl s w 2 base size in
    if negb room then Ret (s1, - ENOMEM, O, O)
    else
      let t := get_type s1 w in
      let! (t', start_rgn, end_rgn) := isolate_loop (isolate_fuel t) t 0 base end_ 0 0 in
      Ret (set_type s1 w t', 0, start_rgn, end_rgn).

(** ** memblock_remove_range *)

(** [for (i = end_rgn - 1; i >= start_rgn; i--) memblock_remove_region(type, i);]
    with [n] iterations left. *)
Fixpoint remove_loop (n start : nat) (t : memblock_type) : memblock_type :=
  match n with
  | O => t
  | S n' => remove_loop n' start (memblock_remove_region t (start + n'))
  end.

Definition memblock_remove_range_with (dbl : doubler) (s : memblock) (w : which)
    (base size : Z) : outcome (memblock * Z) :=
  let! (s1, ret, start_rgn, end_rgn) := memblock_isolate_range_with dbl s w base size in
  if negb (ret =? 0) then Ret (s1, ret)
  else Ret (set_type s1 w (remove_loop (end_rgn - start_rgn) start_rgn (get_type s1 w)), 0).

(** ** memblock_double_array *)

Definition double_array_body (dbl : doubler) (kernel_end : Z) (s : memblock) (w : which)
    (new_area_start new_area_size : Z) : outcome (memblock * Z) :=
  if negb (memblock_can_resize s) then Ret (s, -1)
  else
    let t := get_type s w in
    let old_size := t_max t *64 SIZEOF_REGION in
    let new_size := u64 (Z.shiftl old_size 1) in
    let old_alloc_size := PAGE_ALIGN old_size in
    let new_alloc_size := PAGE_ALIGN new_size in
    let '(start, size) := match w with
                          | Reserved => (new_area_start, new_area_size)
                          | Memory => (0, 0)
                          end in
    let! addr0 := memblock_find_in_range kernel_end s (start +64 size) (current_limit s)
                    new_alloc_size PAGE_SIZE in
    let! addr :=
      (if (addr0 =? 0) && negb (size =? 0)
       then memblock_find_in_range kernel_end s 0 (Z.min start (current_limit s))
              new_alloc_size PAGE_SIZE
       else Ret addr0) in
    if addr =? 0 then Ret (s, -1)
    else
      let s1 := set_type s w (mk_type (u64 (Z.shiftl (t_max t) 1)) (total_size t)
                                (regions t) (Some addr)) in
      let! s2 :=
        (match array_pa t with
         | None => Ret s1
         | Some old => let! (s', _) := memblock_remove_range_with dbl s1 Reserved old old_alloc_size in
                       Ret s'
         end) in
      let! (s3, r) := memblock_add_range_with dbl s2 Reserved addr new_alloc_size MAX_NUMNODES 0 in
      if negb (r =? 0) then Panic (* BUG_ON(memblock_reserve(...)) *)
      else Ret (s3, 0).

Fixpoint memblock_double_array (fuel : nat) (kernel_end : Z) : doubler :=
  match fuel with
  | O => fun _ _ _ _ => Stuck
  | S fuel' => double_array_body (memblock_double_array fuel' kernel_end) kernel_end
  end.

(** Doubling the memory array may double the reserved array once, which makes
    room for both of its own bookkeeping calls. *)
Definition DOUBLE_FUEL : nat := 4.

Section Ops.
Context (kernel_end : Z).

Definition memblock_add_range := memblock_add_range_with (memblock_double_array DOUBLE_FUEL kernel_end).
Definition memblock_isolate_range := memblock_isolate_range_with (memblock_double_array DOUBLE_FUEL kernel_end).
Definition memblock_remove_range := memblock_remove_range_with (memblock_double_array DOUBLE_FUEL kernel_end).

Definition memblock_add_node (s : memblock) (base size nid : Z) :=
  memblock_add_range s Memory base size nid 0.
Definition memblock_add (s : memblock) (base size : Z) :=
  memblock_add_range s Memory base size MAX_NUMNODES 0.
Definition memblock_reserve (s : memblock) (base size : Z) :=
  memblock_add_range s Reserved base size MAX_NUMNODES 0.
Definition memblock_remove (s : memblock) (base size : Z) :=
  memblock_remove_range s Memory base size.
Definition memblock_free (s : memblock) (base size : Z) :=
  memblock_remove_range s Reserved base size.

(** ** Flags and nodes *)

(** [for (i = start_rgn; i < end_rgn; i++)] with [n] iterations left. *)
Fixpoint update_loop (f : memblock_region -> memblock_region) (n i : nat)
    (rs : list memblock_region) : list memblock_region :=
  match n with
  | O => rs
  | S n' => update_loop f n' (S i) (alter f i rs)
  end.

(** The shape shared by memblock_setclr_flag() and memblock_set_node():
    isolate, update the isolated entries, merge. *)
Definition memblock_update_range (s : memblock) (w : which) (base size : Z)
    (f : memblock_region -> memblock_region) : outcome (memblock * Z) :=
  let! (s1, ret, start_rgn, end_rgn) := memblock_isolate_range s w base size in
  if negb (ret =? 0) then Ret (s1, ret)
  else
    let t := get_type s1 w in
    let! t' := memblock_merge_regions
                 (set_regions t (update_loop f (end_rgn - start_rgn) start_rgn (regions t))) in
    Ret (set_type s1 w t', 0).

Definition memblock_setclr_flag (s : memblock) (base size : Z) (set : bool) (flag : Z) :=
  memblock_update_range s Memory base size
    (fun r => if set then memblock_set_region_flags r flag
              else memblock_clear_region_flags r flag).

Definition memblock_mark_hotplug (s : memblock) (base size : Z) :=
  memblock_setclr_flag s base size true MEMBLOCK_HOTPLUG.
Definition memblock_clear_hotplug (s : memblock) (base size : Z) :=
  memblock_setclr_flag s base size false MEMBLOCK_HOTPLUG.
Definition memblock_mark_mirror (s : memblock) (base size : Z) :=
  memblock_setclr_flag
    (mk_memblock (bottom_up s) (current_limit s) (memory s) (reserved s) true
       (memblock_can_resize s)) base size true MEMBLOCK_MIRROR.
Definition memblock_mark_nomap (s : memblock) (base size : Z) :=
  memblock_setclr_flag s base size true MEMBLOCK_NOMAP.
Definition memblock_clear_nomap (s : memblock) (base size : Z) :=
  memblock_setclr_flag s base size false MEMBLOCK_NOMAP.

Definition memblock_set_node (s : memblock) (base size : Z) (w : which) (nid : Z) :=
  memblock_update_range s w base size (fun r => memblock_set_region_node r nid).

(** ** Allocation *)

Definition memblock_alloc_range_nid (s : memblock) (size align start end_ nid flags : Z)
    : outcome (memblock * Z) :=
  let align := if align =? 0 then SMP_CACHE_BYTES else align in
  let! found := memblock_find_in_range_node kernel_end s size align start end_ nid flags in
  if found =? 0 then Ret (s, 0)
  else
    let! (s', r) := memblock_reserve s found size in
    if r =? 0 then Ret (s', found) else Ret (s', 0).

Definition memblock_alloc_range (s : memblock) (size align start end_ flags : Z) :=
  memblock_alloc_range_nid s size align start end_ NUMA_NO_NODE flags.

Definition memblock_alloc_base_nid (s : memblock) (size align max_addr nid flags : Z) :=
  memblock_alloc_range_nid s size align 0 max_addr nid flags.

Definition memblock_phys_alloc_nid (s : memblock) (size align nid : Z) : outcome (memblock * Z) :=
  let flags := choose_memblock_flags s in
  let! (s1, ret) := memblock_alloc_base_nid s size align MEMBLOCK_ALLOC_ACCESSIBLE nid flags in
  if (ret =? 0) && negb (Z.land flags MEMBLOCK_MIRROR =? 0)
  then memblock_alloc_base_nid s1 size align MEMBLOCK_ALLOC_ACCESSIBLE nid
         (Z.land flags (Z.lnot MEMBLOCK_MIRROR))
  else Ret (s1, ret).

Definition memblock_alloc_base_nopanic (s : memblock) (size align max_addr : Z) :=
  memblock_alloc_base_nid s size align max_addr NUMA_NO_NODE MEMBLOCK_NONE.

Definition memblock_alloc_base (s : memblock) (size align max_addr : Z) : outcome (memblock * Z) :=
  let! (s', alloc) := memblock_alloc_base_nopanic s size align max_addr in
  if alloc =? 0 then Panic else Ret (s', alloc).

Definition memblock_phys_alloc (s : memblock) (size align : Z) :=
  memblock_alloc_base s size align MEMBLOCK_ALLOC_ACCESSIBLE.

Definition memblock_phys_alloc_try_nid (s : memblock) (size align nid : Z) : outcome (memblock * Z) :=
  let! (s', res) := memblock_phys_alloc_nid s size align nid in
  if negb (res =? 0) then Ret (s', res)
  else memblock_alloc_base s' size align MEMBLOCK_ALLOC_ACCESSIBLE.

(** [if (alloc && !memblock_reserve(alloc, size)) goto done;]: [Some] on done. *)
Definition try_reserve (s : memblock) (size align min_addr max_addr nid flags : Z)
    : outcome (memblock * option Z) :=
  let! alloc := memblock_find_in_range_node kernel_end s size align min_addr max_addr nid flags in
  if alloc =? 0 then Ret (s, None)
  else
    let! (s', r) := memblock_reserve s alloc size in
    Ret (s', if r =? 0 then Some alloc else None).

(** The [again:] loop of memblock_alloc_internal().  [min_addr] is dropped at
    most once and the mirror flag at most once: three rounds. *)
Fixpoint alloc_again (fuel : nat) (s : memblock) (size align min_addr max_addr nid flags : Z)
    : outcome (memblock * option Z) :=
  match fuel with
  | O => Stuck
  | S fuel' =>
      let! (s1, a1) := try_reserve s size align min_addr max_addr nid flags in
      match a1 with
      | Some alloc => Ret (s1, Some alloc)
      | None =>
          let! (s2, a2) :=
            (if negb (nid =? NUMA_NO_NODE)
             then try_reserve s1 size align min_addr max_addr NUMA_NO_NODE flags
             else Ret (s1, None)) in
          match a2 with
          | Some alloc => Ret (s2, Some alloc)
          | None =>
              if negb (min_addr =? 0) then alloc_again fuel' s2 size align 0 max_addr nid flags
              else if negb (Z.land flags MEMBLOCK_MIRROR =? 0) then
                alloc_again fuel' s2 size align min_addr max_addr nid
                  (Z.land flags (Z.lnot MEMBLOCK_MIRROR))
              else Ret (s2, None)
          end
      end
  end.

(** The returned pointer is given by the physical address it maps. *)
Definition memblock_alloc_internal (s : memblock) (size align min_addr max_addr nid : Z)
    : outcome (memblock * option Z) :=
  let flags := choose_memblock_flags s in
  let nid := fix_nid nid in
  let align := if align =? 0 then SMP_CACHE_BYTES else align in
  let max_addr := if max_addr >? current_limit s then current_limit s else max_addr in
  alloc_again 3 s size align min_addr max_addr nid flags.

(** The zeroing of the block (memset) touches memory contents only, which the
    model does not carry. *)
Definition memblock_alloc_try_nid_nopanic (s : memblock) (size align min_addr max_addr nid : Z) :=
  memblock_alloc_internal s size align min_addr max_addr nid.

Definition memblock_alloc_try_nid (s : memblock) (size align min_addr max_addr nid : Z)
    : outcome (memblock * Z) :=
  let! (s', p) := memblock_alloc_internal s size align min_addr max_addr nid in
  match p with Some a => Ret (s', a) | None => Panic end.

(** ** Limits *)

Fixpoint find_max_addr_loop (rs : list memblock_region) (limit : Z) : Z :=
  match rs with
  | [] => PHYS_ADDR_MAX
  | r :: rs' =>
      if limit <=? r_size r then r_base r +64 limit
      else find_max_addr_loop rs' (limit -64 r_size r)
  end.

Definition find_max_addr (s : memblock) (limit : Z) : Z :=
  find_max_addr_loop (regions (memory s)) limit.

Definition memblock_enforce_memory_limit (s : memblock) (limit : Z) : outcome memblock :=
  if limit =? 0 then Ret s
  else
    let max_addr := find_max_addr s limit in
    if max_addr =? PHYS_ADDR_MAX then Ret s
    else
      let! (s1, _) := memblock_remove_range s Memory max_addr PHYS_ADDR_MAX in
      let! (s2, _) := memblock_remove_range s1 Reserved max_addr PHYS_ADDR_MAX in
      Ret s2.

(** [for (i = lo + n - 1; i >= lo; i--) if (!nomap(regions[i])) remove(i);] *)
Fixpoint remove_map_loop (n lo : nat) (t : memblock_type) : memblock_type :=
  match n with
  | O => t
  | S n' =>
      let i := (lo + n')%nat in
      remove_map_loop n' lo
        (if memblock_is_nomap (region_at (regions t) (Z.of_nat i)) then t
         else memblock_remove_region t i)
  end.

Definition memblock_cap_memory_range (s : memblock) (base size : Z) : outcome memblock :=
  if size =? 0 then Ret s
  else
    let! (s1, ret, start_rgn, end_rgn) := memblock_isolate_range s Memory base size in
    if negb (ret =? 0) then Ret s1
    else
      let t1 := remove_map_loop (length (regions (memory s1)) - end_rgn) end_rgn (memory s1) in
      let t2 := remove_map_loop start_rgn 0 t1 in
      let! (s2, _) := memblock_remove_range (set_type s1 Memory t2) Reserved 0 base in
      let! (s3, _) := memblock_remove_range s2 Reserved (base +64 size) PHYS_ADDR_MAX in
      Ret s3.

Definition memblock_mem_limit_remove_map (s : memblock) (limit : Z) : outcome memblock :=
  if limit =? 0 then Ret s
  else
    let max_addr := find_max_addr s limit in
    if max_addr =? PHYS_ADDR_MAX then Ret s
    else memblock_cap_memory_range s 0 max_addr.

End Ops.

(** ** Queries *)

Definition memblock_phys_mem_size (s : memblock) : Z := total_size (memory s).
Definition memblock_reserved_size (s : memblock) : Z := total_size (reserved s).
Definition memblock_start_of_DRAM (s : memblock) : Z := r_base (region_at (regions (memory s)) 0).
Definition memblock_end_of_DRAM (s : memblock) : Z :=
  region_end (region_at (regions (memory s)) (t_cnt (memory s) - 1)).

Definition memblock_is_reserved (s : memblock) (addr : Z) : outcome bool :=
  let! i := memblock_search (reserved s) addr in Ret (negb (i =? -1)).
Definition memblock_is_memory (s : memblock) (addr : Z) : outcome bool :=
  let! i := memblock_search (memory s) addr in Ret (negb (i =? -1)).
Definition memblock_is_map_memory (s : memblock) (addr : Z) : outcome bool :=
  let! i := memblock_search (memory s) addr in
  if i =? -1 then Ret false
  else Ret (negb (memblock_is_nomap (region_at (regions (memory s)) i))).

Definition memblock_search_pfn_nid (s : memblock) (pfn : Z) : outcome (option (Z * Z * Z)) :=
  let! mid := memblock_search (memory s) (PFN_PHYS pfn) in
  if mid =? -1 then Ret None
  else
    let r := region_at (regions (memory s)) mid in
    Ret (Some (PFN_DOWN (r_base r), PFN_DOWN (region_end r), r_nid r)).

Definition memblock_is_region_memory (s : memblock) (base size : Z) : outcome bool :=
  let! idx := memblock_search (memory s) base in
  let end_ := base +64 memblock_cap_size base size in
  if idx =? -1 then Ret false
  else Ret (region_end (region_at (regions (memory s)) idx) >=? end_).

Definition memblock_is_region_reserved (s : memblock) (base size : Z) : bool :=
  memblock_overlaps_region (reserved s) base (memblock_cap_size base size).

Definition memblock_set_current_limit (s : memblock) (limit : Z) : memblock :=
  mk_memblock (bottom_up s) limit (memory s) (reserved s) (system_has_some_mirror s)
    (memblock_can_resize s).
Definition memblock_get_current_limit (s : memblock) : Z := current_limit s.
Definition memblock_allow_resize (s : memblock) : memblock :=
  mk_memblock (bottom_up s) (current_limit s) (memory s) (reserved s)
    (system_has_some_mirror s) true.

(** memblock_trim_memory(): entry [idx] is rounded inward, or removed (and the
    same index looked at again, [r--] then [r++]) when nothing is left. *)
Fixpoint trim_loop (fuel : nat) (t : memblock_type) (idx : nat) (align : Z) : outcome memblock_type :=
  match fuel with
  | O => Stuck
  | S fuel' =>
      match regions t !! idx with
      | None => Ret t
      | Some r =>
          let orig_start := r_base r in
          let orig_end := region_end r in
          let start := round_up orig_start align in
          let end_ := round_down orig_end align in
          if (start =? orig_start) && (end_ =? orig_end) then trim_loop fuel' t (S idx) align
          else if start <? end_ then
            trim_loop fuel'
              (set_regions t (<[idx := mk_region start (end_ -64 start) (r_flags r) (r_nid r)]>
                                (regions t))) (S idx) align
          else trim_loop fuel' (memblock_remove_region t idx) idx align
      end
  end.

Definition memblock_trim_memory (s : memblock) (align : Z) : outcome memblock :=
  let! t := trim_loop (2 * length (regions (memory s)) + 2) (memory s) 0 align in
  Ret (set_type s Memory t).
