(* ===== verification/MemblockRemove.v ===== *)
(** * Isolating and removing ranges

    memblock_isolate_range() cuts the array so that a range is a union of
    whole entries, and memblock_remove_range(), memblock_setclr_flag() and
    memblock_set_node() work on the entries it names.  The lemmas here give
    its result as a split of the array into the entries below, inside and
    above the range, with the memory map unchanged. *)

From stdpp Require Import base list numbers option.
From S2P Require Import Prelude Memblock MemblockOps MemblockSpec.

Definition below (p : Z) (rs : list memblock_region) : Prop :=
  Forall (fun r => r_base r + r_size r <= p) rs.
Definition above (p : Z) (rs : list memblock_region) : Prop :=
  Forall (fun r => p <= r_base r) rs.
Definition within (base end_ : Z) (rs : list memblock_region) : Prop :=
  above base rs /\ below end_ rs.

(** How many entries have [p] strictly inside. *)
Fixpoint cuts (p : Z) (rs : list memblock_region) : nat :=
  match rs with
  | [] => 0
  | r :: rs' =>
      ((if ((r_base r <? p) && (p <? r_base r + r_size r))%Z then 1 else 0) + cuts p rs')%nat
  end.

Lemma cuts_cons_out p r rs :
  p <= r_base r \/ r_base r + r_size r <= p -> cuts p (r :: rs) = cuts p rs.
Proof. intros. cbn. bdestr; lia. Qed.

Lemma cuts_cons_in p r rs :
  r_base r < p < r_base r + r_size r -> cuts p (r :: rs) = S (cuts p rs).
Proof. intros. cbn. bdestr; lia. Qed.

Lemma cuts_zero p lo rs : p <= lo -> regions_from lo rs -> cuts p rs = O.
Proof.
  revert lo. induction rs as [|r rs IH]; intros lo Hp; [done|]. intros (? & ? & ? & Hs). cbn.
  rewrite (IH (r_base r + r_size r)) by (done || lia). bdestr; lia.
Qed.

Lemma cuts_le_one p lo rs : regions_from lo rs -> (cuts p rs <= 1)%nat.
Proof.
  revert lo. induction rs as [|r rs IH]; intros lo; [cbn; lia|]. intros (? & ? & ? & Hs). cbn.
  specialize (IH _ Hs). bdestr; try lia.
  rewrite (cuts_zero p (r_base r + r_size r)) by (done || lia). lia.
Qed.

Lemma above_from lo p rs : regions_from lo rs -> p <= lo -> above p rs.
Proof.
  revert lo. induction rs as [|r rs IH]; intros lo; [constructor|]. intros (? & ? & ? & Hs) Hp.
  constructor; [lia|]. apply (IH _ Hs). lia.
Qed.

(** Splitting one entry into two adjacent pieces changes nothing visible. *)
Lemma split_attr lo rest b m e flags nid a :
  regions_from lo (mk_region b (e - b) flags nid :: rest) -> b <= m <= e ->
  attr_at (mk_region b (m - b) flags nid :: mk_region m (e - m) flags nid :: rest) a
  = attr_at (mk_region b (e - b) flags nid :: rest) a.
Proof.
  intros _ Hm. cbn [attr_at]. unfold contains. cbn [r_base r_size r_flags r_nid].
  bdestr; try done; lia.
Qed.

Section Isolate.
Context (base end_ : Z) (Hbe : 0 <= base < end_).

(** The cursor state: [A] below the range, [B] recorded inside it, [todo]
    ahead. *)
Record iso_inv (t : memblock_type) (A B todo : list memblock_region) (st en : nat) : Prop := {
  iso_regions : regions t = A ++ B ++ todo;
  iso_sorted : regions_from 0 (A ++ B ++ todo);
  iso_pos : all_pos (A ++ B ++ todo);
  iso_below : below base A;
  iso_within : within base end_ B;
  iso_marks : (B = [] /\ st = O /\ en = O)
              \/ (B <> [] /\ st = length A /\ en = length (A ++ B) /\ above base todo)
}.

(** What the loop leaves: [C] lies above the range. *)
Record iso_post (t t' : memblock_type) (A B C : list memblock_region) (st en : nat) : Prop := {
  post_regions : regions t' = A ++ B ++ C;
  post_sorted : regions_from 0 (regions t');
  post_pos : all_pos (regions t');
  post_below : below base A;
  post_within : within base end_ B;
  post_above : above end_ C;
  post_marks : (B = [] /\ st = O /\ en = O) \/ (B <> [] /\ st = length A /\ en = length (A ++ B));
  post_attr : forall a, attr_at (regions t') a = attr_at (regions t) a;
  post_total : total_size t' = total_size t;
  post_sum : sum_sizes (regions t') = sum_sizes (regions t);
  post_max : t_max t' = t_max t;
  post_array : array_pa t' = array_pa t
}.

Definition iso_measure (todo : list memblock_region) : nat :=
  (length todo + cuts base todo + 2 * cuts end_ todo)%nat.

(** One split step of the loop body, at [cut] inside entry [rgn]: the array
    gets one more entry and the map stays. *)
Definition split_at (t : memblock_type) (idx : nat) (rgn : memblock_region) (cut : Z)
    : outcome memblock_type :=
  memblock_insert_region
    (mk_type (t_max t) (total_size t -64 (cut -64 r_base rgn))
       (<[idx := mk_region cut (r_size rgn -64 (cut -64 r_base rgn)) (r_flags rgn) (r_nid rgn)]>
          (regions t)) (array_pa t))
    idx (r_base rgn) (cut -64 r_base rgn) (r_nid rgn) (r_flags rgn).

Definition lo_piece (rgn : memblock_region) (cut : Z) : memblock_region :=
  mk_region (r_base rgn) (cut - r_base rgn) (r_flags rgn) (r_nid rgn).
Definition hi_piece (rgn : memblock_region) (cut : Z) : memblock_region :=
  mk_region cut (r_base rgn + r_size rgn - cut) (r_flags rgn) (r_nid rgn).

Lemma split_at_spec t pre rgn rest cut :
  regions t = pre ++ rgn :: rest -> regions_from 0 (pre ++ rgn :: rest) ->
  is_u64 (total_size t) -> t_cnt t < t_max t ->
  r_base rgn < cut < r_base rgn + r_size rgn ->
  split_at t (length pre) rgn cut =
  Ret (mk_type (t_max t) (total_size t)
         (pre ++ lo_piece rgn cut :: hi_piece rgn cut :: rest) (array_pa t)).
Proof.
  intros Er Hs Htot Hroom Hcut. unfold split_at.
  apply regions_from_app in Hs as [Hpre (? & ? & ? & ?)].
  pose proof (last_end_ge _ _ Hpre).
  rewrite (u64_id (cut - r_base rgn)) by (unfold PHYS_ADDR_MAX in *; ulia).
  rewrite (u64_id (r_size rgn - (cut - r_base rgn))) by (unfold PHYS_ADDR_MAX in *; ulia).
  rewrite Er, insert_app_r_alt, Nat.sub_diag by lia. cbn [insert list_insert].
  erewrite insert_region_ret; [|done|].
  - cbn [t_max total_size array_pa]. rewrite u64_add_l.
    replace (total_size t - (cut - r_base rgn) + (cut - r_base rgn)) with (total_size t) by lia.
    rewrite u64_id by done. unfold lo_piece, hi_piece.
    by replace (r_base rgn + r_size rgn - cut) with (r_size rgn - (cut - r_base rgn)) by lia.
  - unfold t_cnt in *. cbn [regions t_max]. rewrite Er in Hroom.
    rewrite length_app in *. cbn in *. lia.
Qed.

Lemma split_sorted pre rgn rest cut :
  regions_from 0 (pre ++ rgn :: rest) -> r_base rgn < cut < r_base rgn + r_size rgn ->
  regions_from 0 (pre ++ lo_piece rgn cut :: hi_piece rgn cut :: rest).
Proof.
  intros Hs Hc. apply regions_from_app in Hs as [Hpre (? & ? & ? & ?)].
  apply regions_from_app. split; [done|]. cbn. split_and!; try lia.
  replace (cut + (r_base rgn + r_size rgn - cut)) with (r_base rgn + r_size rgn) by lia. done.
Qed.

Lemma split_map pre rgn rest cut a :
  r_base rgn < cut < r_base rgn + r_size rgn ->
  attr_at (pre ++ lo_piece rgn cut :: hi_piece rgn cut :: rest) a = attr_at (pre ++ rgn :: rest) a.
Proof.
  intros Hc. rewrite !attr_at_app. destruct (attr_at pre a); [done|]. cbn [attr_at].
  unfold contains. cbn. bdestr; try done; lia.
Qed.

(** The loop's body, with its two split branches named. *)
Lemma isolate_loop_unfold fuel t idx st en :
  isolate_loop (S fuel) t idx base end_ st en =
  match regions t !! idx with
  | None => Ret (t, st, en)
  | Some rgn =>
      if r_base rgn >=? end_ then Ret (t, st, en)
      else if region_end rgn <=? base then isolate_loop fuel t (S idx) base end_ st en
      else if r_base rgn <? base then
        let! t2 := split_at t idx rgn base in isolate_loop fuel t2 (S idx) base end_ st en
      else if region_end rgn >? end_ then
        let! t2 := split_at t idx rgn end_ in isolate_loop fuel t2 idx base end_ st en
      else isolate_loop fuel t (S idx) base end_ (if (en =? 0)%nat then idx else st) (S idx)
  end.
Proof. done. Qed.

Lemma iso_stop t A B C st en :
  iso_inv t A B C st en -> above end_ C -> iso_post t t A B C st en.
Proof.
  intros [Er Hs Hp Hb Hw Hm] Ha. split; rewrite ?Er; try done.
  destruct Hm as [?|(? & ? & ? & ?)]; auto.
Qed.

Lemma iso_post_trans t t2 t' A B C st en :
  (forall a, attr_at (regions t2) a = attr_at (regions t) a) ->
  total_size t2 = total_size t -> sum_sizes (regions t2) = sum_sizes (regions t) ->
  t_max t2 = t_max t -> array_pa t2 = array_pa t ->
  iso_post t2 t' A B C st en -> iso_post t t' A B C st en.
Proof. intros Ha Ht Hs Hm Hr []. split; try done; try congruence. Qed.

(** While nothing is recorded yet, an entry ahead that starts before the
    range shows that [B] is empty. *)
Lemma iso_inv_B_nil t A B r rest st en :
  iso_inv t A B (r :: rest) st en -> r_base r < base -> B = [] /\ st = O /\ en = O.
Proof.
  intros [_ _ _ _ _ [?|(_ & _ & _ & Ha)]] Hr; [done|]. inversion Ha; subst. lia.
Qed.

Lemma iso_inv_skip t A B r rest st en :
  iso_inv t A B (r :: rest) st en -> r_base r + r_size r <= base ->
  B = [] /\ st = O /\ en = O /\ iso_inv t (A ++ [r]) [] rest O O.
Proof.
  intros Hi Hr. assert (0 < r_size r).
  { destruct Hi as [_ _ Hp _ _ _]. apply all_pos_app in Hp as [_ Hp].
    apply all_pos_app in Hp as [_ Hp]. by inversion Hp. }
  destruct (iso_inv_B_nil _ _ _ _ _ _ _ Hi) as (-> & -> & ->); [lia|].
  destruct Hi as [Er Hs Hp Hb Hw _]. cbn [app] in *. split_and!; try done.
  split; cbn [app]; rewrite <- ?app_assoc; try done; [|by left].
  apply Forall_app. split; [done|]. by repeat constructor.
Qed.

Lemma iso_inv_record t A B r rest st en :
  iso_inv t A B (r :: rest) st en -> base <= r_base r -> r_base r + r_size r <= end_ ->
  iso_inv t A (B ++ [r]) rest
    (if (en =? 0)%nat then length (A ++ B) else st) (S (length (A ++ B))).
Proof.
  intros [Er Hs Hp Hb [Hw1 Hw2] Hm] Hr1 Hr2. split; rewrite <- ?app_assoc; cbn [app]; try done.
  - split; apply Forall_app; (split; [done|]); by repeat constructor.
  - right. split_and!.
    + by destruct B.
    + destruct Hm as [(-> & -> & ->)|(HB & -> & -> & _)]; [by rewrite app_nil_r|].
      destruct (Nat.eqb_spec (length (A ++ B)) 0); [|done].
      rewrite length_app in *. destruct B; [done | cbn in *; lia].
    + rewrite !length_app. cbn. lia.
    + rewrite app_assoc in Hs. apply regions_from_app in Hs as [_ Hs].
      destruct Hs as (? & ? & ? & Hs). eapply above_from; [exact Hs | lia].
Qed.

(** The cursor after a split below the range or above it. *)
Lemma iso_inv_split t A B r rest st en cut pre :
  iso_inv t A B (r :: rest) st en -> r_base r < cut < r_base r + r_size r ->
  pre = A ++ B ->
  let t2 := mk_type (t_max t) (total_size t)
              (pre ++ lo_piece r cut :: hi_piece r cut :: rest) (array_pa t) in
  regions_from 0 (regions t2) /\ all_pos (regions t2)
  /\ (forall a, attr_at (regions t2) a = attr_at (regions t) a)
  /\ sum_sizes (regions t2) = sum_sizes (regions t)
  /\ length (regions t2) = S (length (regions t)).
Proof.
  intros [Er Hs Hp _ _ _] Hc -> t2. cbn [t2 regions].
  rewrite Er, !app_assoc in *. split_and!.
  - by apply split_sorted.
  - apply all_pos_app in Hp as [Hp1 Hp2]. apply all_pos_app. split; [done|].
    inversion Hp2; subst. repeat (constructor; cbn; try lia). done.
  - intros a. by apply split_map.
  - rewrite !sum_sizes_app. cbn. lia.
  - rewrite !length_app. cbn. lia.
Qed.

Lemma isolate_loop_spec fuel t A B todo st en :
  iso_inv t A B todo st en -> is_u64 (total_size t) ->
  t_cnt t + Z.of_nat (cuts base todo + cuts end_ todo) <= t_max t ->
  (iso_measure todo < fuel)%nat ->
  exists t' A' B' C st' en',
    isolate_loop fuel t (length (A ++ B)) base end_ st en = Ret (t', st', en')
    /\ iso_post t t' A' B' C st' en'
    /\ (length (regions t') <= length (regions t) + cuts base todo + cuts end_ todo)%nat.
Proof.
  revert t A B todo st en. unfold iso_measure.
  induction fuel as [|fuel IH]; intros t A B todo st en Hi Htot Hroom Hfuel; [lia|].
  rewrite isolate_loop_unfold.
  pose proof Hi as [Er Hs Hp _ _ _]. rewrite app_assoc in Er, Hs, Hp.
  destruct todo as [|r rest].
  { assert (Hl : regions t !! length (A ++ B) = None)
      by (rewrite Er, app_nil_r; by apply lookup_ge_None_2).
    rewrite Hl. do 6 eexists. split; [done|]. split; [apply iso_stop; [done|constructor]|]. lia. }
  assert (Hl : regions t !! length (A ++ B) = Some r) by (rewrite Er; by apply list_lookup_middle).
  rewrite Hl.
  apply regions_from_app in Hs as [Hpre Hs']. pose proof (last_end_ge _ _ Hpre).
  rewrite (region_end_eq (last_end 0 (A ++ B)) r rest) by done.
  pose proof Hs' as (? & ? & ? & Hrest).
  cbn [length] in *. rewrite Z.geb_leb, Z.gtb_ltb.
  destruct (Z.leb_spec end_ (r_base r)).
  { do 6 eexists. split; [done|]. split; [apply iso_stop; [done|]|lia].
    constructor; [done|]. eapply above_from; [exact Hrest | lia]. }
  destruct (Z.leb_spec (r_base r + r_size r) base).
  { rewrite !cuts_cons_out in * by lia.
    destruct (iso_inv_skip _ _ _ _ _ _ _ Hi) as (-> & -> & -> & Hi'); [done|].
    destruct (IH t (A ++ [r]) [] rest O O) as (t' & A' & B' & C & st' & en' & Hrun & Hpost & Hlen);
      try done; [lia|].
    rewrite !app_nil_r in *. rewrite length_app in Hrun. cbn in Hrun. rewrite Nat.add_1_r in Hrun.
    do 6 eexists. split; [exact Hrun|]. split; [done|lia]. }
  destruct (Z.ltb_spec (r_base r) base).
  { rewrite (cuts_cons_in base) in * by lia.
    destruct (iso_inv_B_nil _ _ _ _ _ _ _ Hi) as (-> & -> & ->); [done|]. rewrite app_nil_r in *.
    rewrite (split_at_spec t A r rest base); try done; try lia.
    2:{ by destruct Hi as [_ ? _ _ _ _]. }
    destruct (iso_inv_split _ _ _ _ _ _ _ base A Hi) as (H2s & H2p & H2a & H2sum & H2len);
      [lia | by rewrite app_nil_r|].
    cbn [obind regions] in *.
    assert (Hce : cuts end_ (hi_piece r base :: rest) = cuts end_ (r :: rest)).
    { cbn [cuts hi_piece r_base r_size]. bdestr; lia. }
    edestruct (IH (mk_type (t_max t) (total_size t) (A ++ lo_piece r base :: hi_piece r base :: rest)
      (array_pa t)) (A ++ [lo_piece r base]) [] (hi_piece r base :: rest) O O)
      as (t' & A' & B' & C & st' & en' & Hrun & Hpost & Hlen).
    - split; cbn [regions app]; rewrite <- ?app_assoc; try done; [|by repeat constructor|by left].
      apply Forall_app. destruct Hi as [_ _ _ Hb _ _]. split; [done|].
      repeat constructor. cbn. lia.
    - done.
    - unfold t_cnt in *. cbn [regions t_max]. rewrite H2len, Hce, (cuts_cons_out base) by (cbn; lia).
      lia.
    - rewrite Hce, (cuts_cons_out base) by (cbn; lia). cbn [length]. lia.
    - rewrite !app_nil_r, length_app in Hrun. cbn in Hrun. rewrite Nat.add_1_r in Hrun.
      do 6 eexists. split; [exact Hrun|]. split; [by eapply iso_post_trans; [..|exact Hpost]|].
      rewrite Hce, (cuts_cons_out base) in Hlen by (cbn; lia). cbn [regions] in Hlen. lia. }
  rewrite (cuts_cons_out base) in * by lia.
  destruct (Z.ltb_spec end_ (r_base r + r_size r)).
  { rewrite (cuts_cons_in end_) in * by lia.
    rewrite (split_at_spec t (A ++ B) r rest end_); try done; try lia.
    2:{ rewrite <- app_assoc. apply (iso_sorted _ _ _ _ _ _ Hi). }
    destruct (iso_inv_split _ _ _ _ _ _ _ end_ _ Hi ltac:(lia) eq_refl)
      as (H2s & H2p & H2a & H2sum & H2len).
    cbn [obind regions] in *.
    edestruct (IH (mk_type (t_max t) (total_size t)
       ((A ++ B) ++ lo_piece r end_ :: hi_piece r end_ :: rest) (array_pa t))
       A B (lo_piece r end_ :: hi_piece r end_ :: rest) st en)
      as (t' & A' & B' & C & st' & en' & Hrun & Hpost & Hlen).
    - destruct Hi as [_ _ _ Hb Hw Hm]. split; cbn [regions]; rewrite ?app_assoc; try done.
      destruct Hm as [?|(? & ? & ? & Ha)]; [by left|right]. split_and!; try done.
      inversion Ha; subst. repeat (constructor; cbn; try lia). done.
    - done.
    - unfold t_cnt in *. cbn [regions t_max]. rewrite H2len, !cuts_cons_out by (cbn; lia). lia.
    - rewrite !cuts_cons_out by (cbn; lia). cbn [length]. lia.
    - do 6 eexists. split; [exact Hrun|]. split; [by eapply iso_post_trans; [..|exact Hpost]|].
      rewrite !cuts_cons_out in Hlen by (cbn; lia). cbn [regions] in Hlen. lia. }
  rewrite (cuts_cons_out end_) in * by lia.
  pose proof (iso_inv_record _ _ _ _ _ _ _ Hi ltac:(lia) ltac:(lia)) as Hi'.
  destruct (IH _ _ _ _ _ _ Hi') as (t' & A' & B' & C & st' & en' & Hrun & Hpost & Hlen);
    [done|lia|lia|].
  rewrite app_assoc, length_app in Hrun. cbn in Hrun. rewrite Nat.add_1_r in Hrun.
  do 6 eexists. split; [exact Hrun|]. split; [done|lia].
Qed.

End Isolate.

(** ** The isolated parts and the memory map *)

Lemma below_attr p rs a : below p rs -> p <= a -> attr_at rs a = None.
Proof.
  intros Hb Ha. induction Hb as [|r rs Hr _ IH]; [done|]. cbn [attr_at]. unfold contains.
  bdestr; done || lia.
Qed.

Lemma above_attr p rs a : above p rs -> a < p -> attr_at rs a = None.
Proof.
  intros Hb Ha. induction Hb as [|r rs Hr _ IH]; [done|]. cbn [attr_at]. unfold contains.
  bdestr; done || lia.
Qed.

Definition in_range (base end_ a : Z) : bool := (base <=? a) && (a <? end_).

Lemma parts_attr_out base end_ A B C a :
  within base end_ B -> in_range base end_ a = false ->
  attr_at (A ++ B ++ C) a = attr_at (A ++ C) a.
Proof.
  unfold in_range. intros [Ha Hb] Hr. rewrite !attr_at_app.
  assert (attr_at B a = None) as ->; [|done].
  revert Hr. bdestr; intros; try done; eauto using below_attr, above_attr.
Qed.

Lemma parts_attr_in base end_ A B C a :
  below base A -> above end_ C -> in_range base end_ a = true ->
  attr_at (A ++ B ++ C) a = attr_at B a.
Proof.
  unfold in_range. intros HA HC Hr. apply andb_true_iff in Hr as [?%Z.leb_le ?%Z.ltb_lt].
  rewrite !attr_at_app, (below_attr base A), (above_attr end_ C) by done.
  by destruct (attr_at B a).
Qed.

Lemma regions_from_drop_mid lo A B C :
  0 <= lo -> regions_from lo (A ++ B ++ C) -> regions_from lo (A ++ C).
Proof.
  intros Hlo. rewrite !regions_from_app. intros (HA & HB & HC). split; [done|].
  eapply regions_from_weaken; [|exact HC]. by apply last_end_ge.
Qed.

(** ** memblock_isolate_range *)

(** Nothing to cut in an empty array. *)
Lemma isolate_placeholder n t r base end_ :
  regions t = [r] -> r_base r = 0 -> r_size r = 0 -> 0 <= base < end_ ->
  isolate_loop (S (S n)) t 0 base end_ 0 0 = Ret (t, O, O).
Proof.
  intros Er Hb Hz Hbe. rewrite !isolate_loop_unfold, Er. cbn [lookup list_lookup].
  assert (region_end r = 0) as -> by (unfold region_end; by rewrite Hb, Hz).
  rewrite Hb, Z.geb_leb. destruct (Z.leb_spec end_ 0), (Z.leb_spec 0 base); done || lia.
Qed.

Lemma isolate_range_with_spec dbl s w base size :
  let t := get_type s w in
  let end_ := range_end base size in
  type_wf t -> is_u64 base -> 0 <= size -> t_cnt t + 2 <= t_max t ->
  exists t' A B C st en,
    memblock_isolate_range_with dbl s w base size = Ret (set_type s w t', 0, st, en)
    /\ type_wf t' /\ regions t' = A ++ B ++ C
    /\ st = (if decide (B = []) then O else length A) /\ (en - st)%nat = length B
    /\ within base end_ B
    /\ (forall a, in_range base end_ a = true -> attr_at (A ++ C) a = None)
    /\ (forall a, attr_at (regions t') a = attr_at (regions t) a)
    /\ t_max t' = t_max t /\ array_pa t' = array_pa t.
Proof.
  intros t end_ Hwf Hb Hsz Hroom. unfold memblock_isolate_range_with.
  rewrite cap_end_eq by done. fold end_.
  pose proof (range_end_bounds base size Hb Hsz) as He. fold end_ in He.
  assert (Hcap : memblock_cap_size base size = end_ - base)
    by (rewrite cap_size_eq by done; unfold end_, range_end; lia).
  rewrite Hcap. destruct (Z.eqb_spec (end_ - base) 0) as [H0|H0].
  { exists t, (regions t), [], [], O, O. rewrite set_get_type, !app_nil_r.
    split_and!; try done. { split; constructor. }
    intros a. unfold in_range. bdestr; done || lia. }
  unfold RESIZE_FUEL. cbn [resize_loop]. fold t. rewrite Z.gtb_ltb.
  destruct (Z.ltb_spec (t_max t) (t_cnt t + 2)); [lia|]. cbn [obind negb]. fold t.
  pose proof Hwf as [Hs Ht [Hne [Hp|(r & Er & Hrb & Hrz)]] Hm].
  - destruct (isolate_loop_spec base end_ ltac:(destruct Hb; lia) (isolate_fuel t) t [] []
      (regions t) O O) as (t' & A & B & C & st & en & Hrun & Hpost & Hlen).
    + split; cbn [app]; try done; [constructor | split; constructor | by left].
    + by apply type_wf_total_u64.
    + pose proof (cuts_le_one base 0 _ Hs). pose proof (cuts_le_one end_ 0 _ Hs). lia.
    + unfold iso_measure, isolate_fuel.
      pose proof (cuts_le_one base 0 _ Hs). pose proof (cuts_le_one end_ 0 _ Hs). lia.
    + cbn [app length] in Hrun. rewrite Hrun. cbn [obind].
      destruct Hpost as [Hr' Hs' Hp' HA HB HC Hmarks Hat Htot Hsum Hmax Harr].
      exists t', A, B, C, st, en. split_and!; try done.
      * split; try done; [congruence| |].
        -- split; [|by left]. intros E. rewrite E in Hsum. cbn in Hsum.
           destruct (regions t) as [|r0 l]; [done|].
           apply Forall_cons_1 in Hp as [? _]. cbn in Hs. destruct Hs as (? & ? & ? & Hl).
           pose proof (sum_sizes_bound (r_base r0 + r_size r0) l ltac:(lia) Hl). cbn in Hsum. lia.
        -- unfold t_cnt in *. rewrite Hmax.
           pose proof (cuts_le_one base 0 _ Hs). pose proof (cuts_le_one end_ 0 _ Hs). lia.
      * destruct Hmarks as [(-> & -> & ->)|(HBne & -> & ->)]; [done|]. by rewrite decide_False.
      * destruct Hmarks as [(-> & -> & ->)|(HBne & -> & ->)]; [done|]. rewrite length_app. lia.
      * intros a Ha. unfold in_range in Ha. apply andb_true_iff in Ha as [?%Z.leb_le ?%Z.ltb_lt].
        rewrite attr_at_app, (below_attr base A), (above_attr end_ C) by done. done.
  - exists t, (regions t), [], [], O, O. rewrite set_get_type, !app_nil_r. split_and!; try done.
    + unfold isolate_fuel. replace (length (regions t) + 4)%nat with (S (S (length (regions t) + 2))) by lia.
      rewrite (isolate_placeholder _ t r) by (done || (destruct Hb; lia)). cbn [obind].
      by rewrite set_get_type.
    + split; constructor.
    + intros a _. apply placeholder_attr. by exists r.
Qed.

(** ** memblock_remove_range *)

Definition empty_placeholder : memblock_region := mk_region 0 0 0 MAX_NUMNODES.

Definition or_placeholder (rs : list memblock_region) : list memblock_region :=
  match rs with [] => [empty_placeholder] | _ => rs end.

Lemma remove_region_spec t A b C :
  regions t = A ++ b :: C ->
  memblock_remove_region t (length A) =
  mk_type (t_max t) (total_size t -64 r_size b) (or_placeholder (A ++ C)) (array_pa t).
Proof.
  intros E. unfold memblock_remove_region, region_at. rewrite Nat2Z.id, E.
  rewrite nth_middle. replace (S (length A)) with (length (A ++ [b])) by (rewrite length_app; cbn; lia).
  rewrite take_app_length. change (b :: C) with ([b] ++ C). rewrite app_assoc, drop_app_length.
  by destruct (A ++ C).
Qed.

Lemma remove_loop_spec n : forall t A B C,
  length B = n -> B <> [] -> regions t = A ++ B ++ C ->
  remove_loop n (length A) t =
  mk_type (t_max t) (u64 (total_size t - sum_sizes B)) (or_placeholder (A ++ C)) (array_pa t).
Proof.
  induction n as [|n IH]; intros t A B C Hlen Hne E; [by destruct B|].
  destruct (exists_last Hne) as (B' & b & ->). rewrite length_app in Hlen. cbn in Hlen.
  assert (n = length B') by lia. subst n. cbn [remove_loop].
  rewrite <- length_app. rewrite (remove_region_spec t (A ++ B') b C).
  2:{ rewrite E. by rewrite <- !app_assoc. }
  destruct B' as [|b' B'].
  - cbn [length remove_loop sum_sizes app]. rewrite !app_nil_r. do 2 f_equal. lia.
  - rewrite (IH _ A (b' :: B') C); try done.
    + cbn [t_max total_size array_pa]. rewrite u64_sub_l, sum_sizes_app. f_equal. f_equal. cbn. lia.
    + cbn [regions]. destruct A; cbn; by rewrite <- ?app_assoc.
Qed.

(** What a removal does to one array. *)
Definition removed (t t' : memblock_type) (base end_ : Z) : Prop :=
  type_wf t'
  /\ (forall a, attr_at (regions t') a =
        if in_range base end_ a then None else attr_at (regions t) a)
  /\ t_max t' = t_max t /\ array_pa t' = array_pa t.

Lemma or_placeholder_attr rs a : attr_at (or_placeholder rs) a = attr_at rs a.
Proof. destruct rs; [|done]. cbn. unfold contains. cbn. bdestr; done || lia. Qed.

Lemma removed_wf t A B C :
  type_wf t -> regions t = A ++ B ++ C -> B <> [] ->
  type_wf (mk_type (t_max t) (u64 (total_size t - sum_sizes B)) (or_placeholder (A ++ C))
             (array_pa t)).
Proof.
  intros Hwf E HB. pose proof (type_wf_total_u64 t Hwf) as Hu.
  destruct Hwf as [Hs Ht [Hne Hl] Hm]. rewrite E in *.
  pose proof (regions_from_drop_mid 0 A B C ltac:(lia) Hs) as HsAC.
  pose proof (sum_sizes_bound 0 (A ++ C) ltac:(unfold PHYS_ADDR_MAX; ulia) HsAC) as Hsum.
  split; cbn [regions total_size t_max].
  - destruct (A ++ C) eqn:EAC; [cbn; unfold PHYS_ADDR_MAX; ulia | done].
  - rewrite Ht, !sum_sizes_app in *. rewrite u64_id by (unfold PHYS_ADDR_MAX in *; ulia).
    destruct (A ++ C) eqn:EAC.
    + apply app_nil in EAC as [-> ->]. cbn in *. lia.
    + change (or_placeholder (m :: l)) with (m :: l). rewrite <- EAC, sum_sizes_app. lia.
  - split; [by destruct (A ++ C)|].
    destruct Hl as [Hp|(r & Er & Hrb & Hrz)].
    + rewrite !all_pos_app in Hp. destruct Hp as (HpA & HpB & HpC).
      destruct (A ++ C) eqn:EAC; [right; by eexists|left].
      change (or_placeholder (m :: l)) with (m :: l). rewrite <- EAC. by apply all_pos_app.
    + right. assert (A = [] /\ C = []) as [-> ->].
      { destruct A as [|? [|]], B as [|? [|]], C; try done. }
      cbn. by eexists.
  - unfold t_cnt in *. cbn [regions t_max]. rewrite E, !length_app in Hm.
    destruct (A ++ C) eqn:EAC; cbn [or_placeholder].
    + destruct B; [done|]. cbn in *. lia.
    + rewrite <- EAC, length_app. lia.
Qed.

Lemma remove_range_with_spec dbl s w base size :
  let t := get_type s w in
  type_wf t -> is_u64 base -> 0 <= size -> t_cnt t + 2 <= t_max t ->
  exists t', memblock_remove_range_with dbl s w base size = Ret (set_type s w t', 0)
    /\ removed t t' base (range_end base size).
Proof.
  intros t Hwf Hb Hsz Hroom. unfold memblock_remove_range_with.
  destruct (isolate_range_with_spec dbl s w base size Hwf Hb Hsz Hroom)
    as (t' & A & B & C & st & en & -> & Hwf' & Er & Hst & Hn & HB & Hcl & Hat & Hmax & Harr).
  cbn [obind negb Z.eqb]. rewrite get_set_type, Hn. fold t in Hat, Hmax, Harr.
  assert (Hset : forall x, set_type (set_type s w t') w x = set_type s w x) by (by destruct w).
  assert (Hmap : forall a, attr_at (A ++ C) a
    = if in_range base (range_end base size) a then None else attr_at (regions t) a).
  { intros a. destruct (in_range _ _ a) eqn:Ea; [by apply Hcl|].
    rewrite <- Hat, Er. symmetry. by eapply parts_attr_out. }
  destruct (decide (B = [])) as [->|HBne].
  - exists t'. cbn [length remove_loop]. rewrite Hset. split; [done|].
    split_and!; try done. intros a. rewrite Er. cbn [app]. apply Hmap.
  - subst st. eexists. rewrite (remove_loop_spec (length B) t' A B C) by done.
    split; [rewrite Hset; done|]. split_and!; try done.
    + by apply (removed_wf t' A B C).
    + intros a. cbn [regions]. rewrite or_placeholder_attr. apply Hmap.
Qed.

(** ** Updating the isolated entries *)

Lemma update_loop_spec f B : forall A C,
  update_loop f (length B) (length A) (A ++ B ++ C) = A ++ map f B ++ C.
Proof.
  induction B as [|b B IH]; intros A C; [done|]. cbn [length update_loop map app].
  rewrite alter_app_r_alt, Nat.sub_diag by done. cbn [alter list_alter].
  specialize (IH (A ++ [f b]) C). rewrite length_app in IH. cbn in IH. rewrite Nat.add_1_r in IH.
  by rewrite <- !app_assoc in IH.
Qed.

Section Update.
Context (f : memblock_region -> memblock_region) (g : Z * Z -> Z * Z).
Context (Hf_base : forall r, r_base (f r) = r_base r).
Context (Hf_size : forall r, r_size (f r) = r_size r).
Context (Hf_attr : forall r, (r_flags (f r), r_nid (f r)) = g (r_flags r, r_nid r)).

Lemma map_attr rs a : attr_at (map f rs) a = g <$> attr_at rs a.
Proof.
  induction rs as [|r rs IH]; [done|]. cbn [map attr_at]. unfold contains.
  rewrite Hf_base, Hf_size, IH, Hf_attr. by destruct (_ && _).
Qed.

Lemma map_regions_from lo rs C :
  regions_from lo (rs ++ C) -> regions_from lo (map f rs ++ C).
Proof.
  revert lo. induction rs as [|r rs IH]; intros lo; [done|]. cbn.
  rewrite Hf_base, Hf_size. intros (? & ? & ? & ?). auto.
Qed.

Lemma map_sum rs : sum_sizes (map f rs) = sum_sizes rs.
Proof. induction rs; cbn; rewrite ?Hf_size; lia. Qed.

Lemma map_pos rs : all_pos rs -> all_pos (map f rs).
Proof. induction 1; cbn; constructor; [by rewrite Hf_size | done]. Qed.

Lemma updated_wf t A B C :
  type_wf t -> regions t = A ++ B ++ C -> type_wf (set_regions t (A ++ map f B ++ C)).
Proof.
  intros [Hs Ht [Hne Hl] Hm] E. rewrite E in *. unfold t_cnt in *. rewrite E in Hm.
  split; cbn [regions set_regions total_size t_max].
  - apply regions_from_app in Hs as [? ?]. apply regions_from_app. split; [done|].
    by apply map_regions_from.
  - rewrite Ht, !sum_sizes_app, map_sum. done.
  - split; [by destruct A, B, C|]. destruct Hl as [Hp|(r & Er & ? & ?)].
    + left. rewrite !all_pos_app in *. destruct Hp as (? & ? & ?). split_and!; try done. by apply map_pos.
    + right. assert (B = [] \/ B = [r] /\ A = [] /\ C = []) as [->|(-> & -> & ->)].
      { destruct A as [|? [|]], B as [|? [|]], C; cbn in Er; simplify_eq; auto. }
      * cbn [map app] in *. by exists r.
      * exists (f r). rewrite Hf_base, Hf_size. done.
  - unfold t_cnt. cbn [regions set_regions]. rewrite !length_app in *. by rewrite length_map.
Qed.

(** Isolate, update and merge: the attributes inside the range are mapped by
    [g], those outside stay, and the array ends minimal. *)
Lemma update_range_spec kernel_end s w base size :
  let t := get_type s w in
  let end_ := range_end base size in
  type_wf t -> is_u64 base -> 0 <= size -> t_cnt t + 2 <= t_max t ->
  exists t', memblock_update_range kernel_end s w base size f = Ret (set_type s w t', 0)
    /\ type_wf t' /\ minimal (regions t')
    /\ (forall a, attr_at (regions t') a =
         if in_range base end_ a then g <$> attr_at (regions t) a else attr_at (regions t) a)
    /\ t_max t' = t_max t /\ array_pa t' = array_pa t.
Proof.
  intros t end_ Hwf Hb Hsz Hroom. unfold memblock_update_range, memblock_isolate_range.
  edestruct (isolate_range_with_spec (memblock_double_array DOUBLE_FUEL kernel_end) s w base size)
    as (t1 & A & B & C & st & en & -> & Hwf1 & Er & Hst & Hn & HB & Hcl & Hat & Hmax & Harr);
    try done.
  cbn [obind negb Z.eqb]. rewrite get_set_type, Hn. fold t in Hat, Hmax, Harr.
  assert (Hupd : update_loop f (length B) st (regions t1) = A ++ map f B ++ C).
  { rewrite Er. destruct (decide (B = [])) as [->|]; [done|]. subst st. apply update_loop_spec. }
  rewrite Hupd.
  destruct (memblock_merge_regions_spec _ (updated_wf t1 A B C Hwf1 Er))
    as (t' & -> & Hwf' & Hmin & Hat' & Hmax' & Harr' & _).
  exists t'. cbn [obind]. split; [by destruct w|]. cbn [set_regions t_max array_pa] in *.
  split_and!; try done; try congruence.
  intros a. rewrite Hat'. cbn [set_regions regions]. rewrite <- Hat, Er.
  destruct (in_range base end_ a) eqn:Ea.
  - specialize (Hcl a Ea). rewrite !attr_at_app in *.
    destruct (attr_at A a); [done|]. cbn in *. rewrite Hcl, map_attr. by destruct (attr_at B a).
  - rewrite !attr_at_app. destruct (attr_at A a); [done|].
    assert (attr_at B a = None) as HBa.
    { pose proof (parts_attr_out base end_ [] B [] a HB Ea) as HBa. cbn in HBa.
      by rewrite app_nil_r in HBa. }
    by rewrite map_attr, HBa.
Qed.

End Update.
