(* ===== verification/MemblockIter.v ===== *)
(** * Walking free memory

    for_each_free_mem_range() and its reverse visit, in address order, exactly
    the memory that is not reserved: the cursor arithmetic of
    __next_mem_range() and __next_mem_range_rev() is refined by a
    set-theoretic description of what is still ahead of the two cursors. *)

From stdpp Require Import base list numbers option.
From S2P Require Import Prelude Memblock MemblockOps MemblockSpec.

(** ** Entries by index *)

Definition ent (rs : list memblock_region) (i : nat) : memblock_region := nth i rs dummy_region.

Lemma regions_from_ent lo rs i :
  regions_from lo rs -> (i < length rs)%nat ->
  lo <= r_base (ent rs i) /\ 0 <= r_size (ent rs i)
  /\ r_base (ent rs i) + r_size (ent rs i) <= PHYS_ADDR_MAX.
Proof.
  revert lo i. induction rs as [|r rs IH]; intros lo i; cbn [length]; [lia|].
  intros (? & ? & ? & Hs) Hi. destruct i; [unfold ent; cbn; lia|].
  destruct (IH _ i Hs ltac:(lia)). unfold ent in *. cbn. lia.
Qed.

Lemma regions_from_order lo rs i j :
  regions_from lo rs -> (i < j)%nat -> (j < length rs)%nat ->
  r_base (ent rs i) + r_size (ent rs i) <= r_base (ent rs j).
Proof.
  revert lo i j. induction rs as [|r rs IH]; intros lo i j; cbn [length]; [lia|].
  intros (? & ? & ? & Hs) Hij Hj. destruct j; [lia|]. destruct i.
  - destruct (regions_from_ent _ rs j Hs ltac:(lia)). unfold ent in *. cbn. lia.
  - apply (IH _ i j Hs); lia.
Qed.

Lemma region_at_ent rs i : region_at rs (Z.of_nat i) = ent rs i.
Proof. unfold region_at, ent. by rewrite Nat2Z.id. Qed.

Lemma ent_end rs i :
  regions_from 0 rs -> (i < length rs)%nat ->
  region_end (ent rs i) = r_base (ent rs i) + r_size (ent rs i).
Proof.
  intros Hs Hi. destruct (regions_from_ent 0 rs i Hs Hi). unfold region_end.
  apply u64_id. unfold PHYS_ADDR_MAX in *. ulia.
Qed.

Lemma attr_at_ent rs a :
  is_Some (attr_at rs a) <-> exists i, (i < length rs)%nat /\ contains (ent rs i) a = true.
Proof.
  induction rs as [|r rs IH]; cbn [attr_at length].
  - split; [by intros []|]. intros (i & ? & _). lia.
  - destruct (contains r a) eqn:E.
    + split; [|eauto]. intros _. exists O. split; [lia|done].
    + rewrite IH. split; intros (i & Hi & Hc).
      * exists (S i). split; [lia|done].
      * destruct i as [|i]; [unfold ent in Hc; cbn in Hc; congruence|].
        exists i. split; [lia|done].
Qed.

(** ** The packed cursor *)

Lemma pack_idx_eq ia ib :
  0 <= ib < 2 ^ 31 -> pack_idx ia ib = u32 ia + ib * 2 ^ 32.
Proof.
  intros Hb. unfold pack_idx. rewrite (u64_id ib) by ulia.
  rewrite Z.shiftl_mul_pow2 by lia. rewrite (u64_id (ib * 2 ^ 32)) by ulia.
  pose proof (Z.add_lor_land (u32 ia) (ib * 2 ^ 32)) as H.
  assert (Z.land (u32 ia) (ib * 2 ^ 32) = 0) as Hl; [|lia].
  apply Z.bits_inj'. intros n Hn. rewrite Z.land_spec, Z.bits_0, <- Z.shiftl_mul_pow2 by lia.
  destruct (Z.lt_ge_cases n 32).
  - rewrite (Z.shiftl_spec_low ib) by lia. apply andb_false_r.
  - unfold u32, U32_MOD. rewrite Z.mod_pow2_bits_high by lia. done.
Qed.

Lemma idx_a_of_pack ia ib :
  -1 <= ia < 2 ^ 31 -> 0 <= ib < 2 ^ 31 -> idx_a_of (pack_idx ia ib) = ia.
Proof.
  intros Ha Hb. unfold idx_a_of. rewrite pack_idx_eq by done.
  change 0xffffffff with (Z.ones 32). rewrite Z.land_ones, Z.mod_add by lia.
  unfold u32, U32_MOD. rewrite Z.mod_mod by lia. unfold s32.
  destruct (Z.eq_dec ia (-1)) as [->|]; [done|].
  rewrite (Z.mod_small ia), Z.mod_small by lia. lia.
Qed.

Lemma idx_b_of_pack ia ib :
  0 <= ib < 2 ^ 31 -> idx_b_of (pack_idx ia ib) = ib.
Proof.
  intros Hb. unfold idx_b_of. rewrite pack_idx_eq by done.
  pose proof (u32_range ia). rewrite Z.shiftr_div_pow2, Z.div_add by lia.
  rewrite Z.div_small by ulia. apply s32_id. lia.
Qed.

Lemma pack_idx_not_end ia ib : 0 <= ib < 2 ^ 31 -> pack_idx ia ib <> ULLONG_MAX.
Proof.
  intros Hb. rewrite pack_idx_eq by done. pose proof (u32_range ia). unfold ULLONG_MAX. ulia.
Qed.

(** ** What is ahead of the cursors *)

Section Walk.
Context (A B : list memblock_region) (nid flags : Z).
Context (HA : regions_from 0 A) (HB : regions_from 0 B).

Definition gs (k : nat) : Z := gap_start B (Z.of_nat k).
Definition ge (k : nat) : Z := gap_end B (Z.of_nat k).

(** Address [a] is in memory entry [j], which the caller did not exclude. *)
Definition in_mem (j : nat) (a : Z) : Prop :=
  (j < length A)%nat /\ range_skips nid flags (ent A j) = false
  /\ r_base (ent A j) <= a < r_base (ent A j) + r_size (ent A j).

(** Address [a] is in the gap before reservation [k]. *)
Definition in_gap (k : nat) (a : Z) : Prop := (k <= length B)%nat /\ gs k <= a < ge k.

Lemma gs_0 : gs 0 = 0.
Proof. reflexivity. Qed.

Lemma gs_S k : (k < length B)%nat -> gs (S k) = r_base (ent B k) + r_size (ent B k).
Proof.
  intros Hk. unfold gs, gap_start. destruct (Z.eqb_spec (Z.of_nat (S k)) 0); [lia|].
  replace (Z.of_nat (S k) - 1) with (Z.of_nat k) by lia. rewrite region_at_ent.
  by apply ent_end.
Qed.

Lemma ge_lt k : (k < length B)%nat -> ge k = r_base (ent B k).
Proof.
  intros Hk. unfold ge, gap_end. destruct (Z.ltb_spec (Z.of_nat k) (Z.of_nat (length B))); [|lia].
  by rewrite region_at_ent.
Qed.

Lemma ge_last : ge (length B) = PHYS_ADDR_MAX.
Proof. unfold ge, gap_end. by rewrite Z.ltb_irrefl. Qed.

Lemma gaps_ordered k k' : (k < k')%nat -> (k' <= length B)%nat -> ge k <= gs k'.
Proof.
  intros Hk Hk'. destruct k' as [|k']; [lia|]. rewrite gs_S, ge_lt by lia.
  destruct (regions_from_ent 0 B k' HB ltac:(lia)).
  destruct (decide (k = k')) as [->|]; [lia|].
  pose proof (regions_from_order 0 B k k' HB ltac:(lia) ltac:(lia)).
  destruct (regions_from_ent 0 B k HB ltac:(lia)). lia.
Qed.

(** The gaps are exactly the complement of the reservations. *)
Lemma in_some_gap a :
  0 <= a < PHYS_ADDR_MAX -> (exists k, in_gap k a) <-> attr_at B a = None.
Proof.
  intros Ha. split.
  - intros (k & Hk & Hg). destruct (attr_at B a) eqn:E; [exfalso|done].
    assert (is_Some (attr_at B a)) as Hs by eauto. apply attr_at_ent in Hs as (i & Hi & Hc).
    unfold contains in Hc. apply andb_true_iff in Hc as [?%Z.leb_le ?%Z.ltb_lt].
    destruct (decide (i < k)%nat).
    + assert (r_base (ent B i) + r_size (ent B i) <= gs k); [|lia].
      rewrite <- gs_S by done. destruct (decide (S i = k)) as [->|]; [done|].
      pose proof (gaps_ordered (S i) k ltac:(lia) ltac:(lia)).
      rewrite gs_S by done. destruct (decide (S i < length B)%nat); [|lia].
      rewrite ge_lt in * by lia.
      pose proof (regions_from_order 0 B i (S i) HB ltac:(lia) ltac:(lia)). lia.
    + assert (ge k <= r_base (ent B i)); [|lia]. rewrite ge_lt by lia.
      destruct (decide (k = i)) as [->|]; [done|].
      pose proof (regions_from_order 0 B k i HB ltac:(lia) ltac:(lia)).
      destruct (regions_from_ent 0 B k HB ltac:(lia)). lia.
  - intros Hn.
    (* the first reservation that ends above [a] *)
    assert (Hind : forall n, (n <= length B)%nat ->
      (exists k, in_gap k a) \/ (n = O \/ gs n <= a)).
    { induction n as [|n IHn]; intros Hle; [auto|].
      destruct (IHn ltac:(lia)) as [?|Hlow]; [auto|].
      rewrite gs_S by lia. destruct (Z.lt_ge_cases a (r_base (ent B n))).
      - left. exists n. split; [lia|]. rewrite ge_lt by lia.
        destruct Hlow as [->|]; [|lia]. rewrite gs_0. lia.
      - right. right. destruct (Z.lt_ge_cases a (r_base (ent B n) + r_size (ent B n))); [|lia].
        exfalso. assert (is_Some (attr_at B a)) as [? ?]; [|congruence].
        apply attr_at_ent. exists n. split; [lia|]. unfold contains. bdestr; done || lia. }
    destruct (Hind (length B) ltac:(lia)) as [?|Hlast]; [done|].
    exists (length B). split; [lia|]. rewrite ge_last.
    destruct Hlast as [Hl|]; [|lia]. rewrite Hl, gs_0. lia.
Qed.

(** Forward cursors: entries from [ia] on, gaps from [ib] on. *)
Definition ahead (ia ib : nat) (a : Z) : Prop :=
  exists j k, (ia <= j)%nat /\ (ib <= k)%nat /\ in_mem j a /\ in_gap k a.

Lemma mem_ordered j j' a : (j < j')%nat -> in_mem j' a ->
  r_base (ent A j) + r_size (ent A j) <= a.
Proof.
  intros Hj (Hj' & _ & Ha). pose proof (regions_from_order 0 A j j' HA Hj Hj'). lia.
Qed.

Lemma gap_ordered k k' a : (k < k')%nat -> in_gap k' a -> ge k <= a.
Proof. intros Hk [Hk' Ha]. pose proof (gaps_ordered k k' Hk Hk'). lia. Qed.

Lemma ahead_drop_mem ia ib a :
  (forall k, (ib <= k)%nat -> in_mem ia a -> in_gap k a -> False) ->
  ahead ia ib a <-> ahead (S ia) ib a.
Proof.
  intros Hno. split; intros (j & k & Hj & Hk & Hm & Hg).
  - destruct (decide (j = ia)) as [->|]; [destruct (Hno k Hk Hm Hg)|].
    exists j, k. split_and!; try done; lia.
  - exists j, k. split_and!; try done; lia.
Qed.

(** Gaps that end at or below every entry ahead can be forgotten. *)
Lemma ahead_drop_gaps ia ib k0 a ms :
  (ib <= k0)%nat ->
  (forall k, (ib <= k < k0)%nat -> ge k <= ms) ->
  (forall j, (ia <= j)%nat -> in_mem j a -> ms <= a) ->
  ahead ia ib a <-> ahead ia k0 a.
Proof.
  intros Hle Hg Hm. split; intros (j & k & Hj & Hk & Hma & Hga).
  - exists j, k. split_and!; try done. destruct (decide (k < k0)%nat); [|lia].
    specialize (Hm j Hj Hma). specialize (Hg k ltac:(lia)). destruct Hga as [_ ?]. lia.
  - exists j, k. split_and!; try done; lia.
Qed.

(** The inner scan stops at the first gap that reaches past [ms]. *)
Lemma next_scan_b_spec ms me ia ib :
  (ib <= S (length B))%nat ->
  match next_scan_b (scan_b_fuel B (Z.of_nat ib)) B ms me (Z.of_nat ia) (Z.of_nat ib) with
  | ScanLeft z => exists k, z = Z.of_nat k /\ (ib <= k <= S (length B))%nat
      /\ (forall k', (ib <= k' < k)%nat -> ge k' <= ms)
      /\ ((k <= length B)%nat -> me <= gs k)
  | ScanFound st en ia' ib' => exists k, (ib <= k <= length B)%nat
      /\ (forall k', (ib <= k' < k)%nat -> ge k' <= ms)
      /\ gs k < me /\ ms < ge k /\ st = Z.max ms (gs k) /\ en = Z.min me (ge k)
      /\ ((me <= ge k /\ ia' = Z.of_nat (S ia) /\ ib' = Z.of_nat k)
          \/ (ge k < me /\ ia' = Z.of_nat ia /\ ib' = Z.of_nat (S k)))
  end.
Proof.
  intros Hib. unfold scan_b_fuel. destruct (Z.ltb_spec (Z.of_nat ib) 0); [lia|].
  remember (Z.to_nat (Z.of_nat (length B) + 1 - Z.of_nat ib)) as n eqn:En.
  revert ib Hib H En. induction n as [|n IHn]; intros ib Hib _ En; cbn [next_scan_b].
  { exists ib. split_and!; try done; lia. }
  fold (gs ib) (ge ib). rewrite Z.geb_leb.
  destruct (Z.leb_spec me (gs ib)).
  { exists ib. split_and!; try done; lia. }
  destruct (Z.ltb_spec ms (ge ib)).
  { destruct (Z.leb_spec me (ge ib)); exists ib; split_and!; try done; lia. }
  replace (Z.of_nat ib + 1) with (Z.of_nat (S ib)) by lia.
  specialize (IHn (S ib) ltac:(lia) ltac:(lia) ltac:(lia)).
  assert (Hext : forall k, (forall k', (S ib <= k' < k)%nat -> ge k' <= ms) ->
                           forall k', (ib <= k' < k)%nat -> ge k' <= ms).
  { intros k Hk k' ?. destruct (decide (k' = ib)) as [->|]; [lia|]. apply Hk. lia. }
  destruct next_scan_b as [st en ia' ib'|z].
  - destruct IHn as (k & ? & Hk & ?). exists k. split; [lia|]. split; [by apply Hext|done].
  - destruct IHn as (k & -> & ? & Hk & ?). exists k. split; [done|]. split; [lia|]. split; [by apply Hext|done].
Qed.

(** Range [r] is what entry [j] and gap [k] have in common. *)
Definition overlap_of (j k : nat) (r : mem_range) : Prop :=
  mr_start r = Z.max (r_base (ent A j)) (gs k)
  /\ mr_end r = Z.min (r_base (ent A j) + r_size (ent A j)) (ge k).

(** A range is all an entry and a gap have in common. *)
Definition maximal (r : mem_range) : Prop := exists j k, (j < length A)%nat /\ (k <= length B)%nat /\ overlap_of j k r.

Definition range_u64 (r : mem_range) : Prop :=
  0 <= mr_start r <= mr_end r /\ mr_end r <= PHYS_ADDR_MAX.

(** What one call of __next_mem_range() does to the set ahead. *)
Definition next_ok (ia ib : nat) (res : Z * option mem_range) : Prop :=
  match res with
  | (_, None) => forall a, ~ ahead ia ib a
  | (idx, Some r) => exists ia' ib',
      idx = pack_idx (Z.of_nat ia') (Z.of_nat ib')
      /\ (ia + ib < ia' + ib')%nat /\ (ia' <= length A)%nat /\ (ib' <= length B)%nat
      /\ range_u64 r /\ maximal r
      /\ (forall a, ahead ia ib a <-> mr_start r <= a < mr_end r \/ ahead ia' ib' a)
      /\ (forall a, ahead ia' ib' a -> mr_end r <= a)
  end.

Lemma next_ok_trans ia ib ia' ib' res :
  (ia + ib <= ia' + ib')%nat -> (forall a, ahead ia ib a <-> ahead ia' ib' a) ->
  next_ok ia' ib' res -> next_ok ia ib res.
Proof.
  intros Hle Heq. destruct res as [idx [r|]]; cbn.
  - intros (x & y & ? & ? & ? & ? & ? & ? & Hset & ?). exists x, y. split_and!; try done; [lia|].
    intros a. by rewrite Heq.
  - intros Hn a. rewrite Heq. apply Hn.
Qed.

Lemma gap_wf k : (k <= length B)%nat -> gs k <= ge k.
Proof.
  intros Hk. assert (0 <= ge k <= PHYS_ADDR_MAX) as Hge.
  { destruct (decide (k = length B)) as [->|]; [rewrite ge_last; unfold PHYS_ADDR_MAX; ulia|].
    rewrite ge_lt by lia. destruct (regions_from_ent 0 B k HB ltac:(lia)). lia. }
  destruct k as [|k]; [rewrite gs_0; lia|]. rewrite gs_S by lia.
  destruct (decide (S k = length B)) as [E|].
  - rewrite E, ge_last. destruct (regions_from_ent 0 B k HB ltac:(lia)). lia.
  - rewrite ge_lt by lia. apply (regions_from_order 0 B k (S k) HB); lia.
Qed.

Lemma last_gap_unbounded k m :
  (m < length A)%nat -> (k <= length B)%nat ->
  ge k < r_base (ent A m) + r_size (ent A m) -> (k < length B)%nat.
Proof.
  intros Hm Hk. destruct (decide (k = length B)) as [->|]; [|lia]. rewrite ge_last.
  destruct (regions_from_ent 0 A m HA Hm). lia.
Qed.

(** A range found in entry [ia] and gap [k]. *)
Lemma found_ok ia ib k ia' ib' nd :
  (ia < length A)%nat -> range_skips nid flags (ent A ia) = false ->
  let ms := r_base (ent A ia) in let me := r_base (ent A ia) + r_size (ent A ia) in
  (ib <= k <= length B)%nat ->
  (forall k', (ib <= k' < k)%nat -> ge k' <= ms) ->
  gs k < me -> ms < ge k ->
  (me <= ge k /\ ia' = S ia /\ ib' = k) \/ (ge k < me /\ ia' = ia /\ ib' = S k) ->
  next_ok ia ib (pack_idx (Z.of_nat ia') (Z.of_nat ib'),
                 Some (mk_range (Z.max ms (gs k)) (Z.min me (ge k)) nd)).
Proof.
  intros Hia Hskip ms me Hk Hprev Hgs Hge Hadv.
  destruct (regions_from_ent 0 A ia HA Hia) as (? & Hsz & ?).
  assert (Heq : forall a, ahead ia ib a <-> ahead ia k a).
  { intros a. apply (ahead_drop_gaps ia ib k a ms); [lia|done|].
    intros j Hj Hm. destruct (decide (j = ia)) as [->|]; [destruct Hm as (_ & _ & ?); lia|].
    pose proof (mem_ordered ia j a ltac:(lia) Hm). subst ms me. lia. }
  pose proof (gap_wf k ltac:(lia)).
  assert (Hboth : forall a, in_mem ia a /\ in_gap k a <-> Z.max ms (gs k) <= a < Z.min me (ge k)).
  { intros a. unfold in_mem, in_gap. subst ms me. split; [intros ((_ & _ & ?) & _ & ?); lia|].
    intros. split_and!; try done; lia. }
  assert (Hmax : maximal (mk_range (Z.max ms (gs k)) (Z.min me (ge k)) nd)) by (exists ia, k; split_and!; done || lia).
  cbn. exists ia', ib'. unfold range_u64. cbn [mr_start mr_end].
  destruct Hadv as [(Hme & -> & ->)|(Hme & -> & ->)].
  - split_and!; try done; try lia.
    + intros a. rewrite Heq, <- Hboth. split.
      * intros (j & k' & ? & ? & Hm & Hg). destruct (decide (j = ia)) as [->|].
        -- destruct (decide (k' = k)) as [->|]; [by left|].
           pose proof (gap_ordered k k' a ltac:(lia) Hg). destruct Hm as (_ & _ & ?). subst me. lia.
        -- right. exists j, k'. split_and!; try done; lia.
      * intros [[? ?]|(j & k' & ? & ? & ? & ?)]; [exists ia, k|exists j, k']; split_and!; try done; lia.
    + intros a (j & k' & ? & ? & Hm & _). pose proof (mem_ordered ia j a ltac:(lia) Hm). subst me. lia.
  - pose proof (last_gap_unbounded k ia Hia ltac:(lia) Hme).
    split_and!; try done; try lia.
    + intros a. rewrite Heq, <- Hboth. split.
      * intros (j & k' & ? & ? & Hm & Hg). destruct (decide (k' = k)) as [->|].
        -- destruct (decide (j = ia)) as [->|]; [by left|].
           pose proof (mem_ordered ia j a ltac:(lia) Hm). destruct Hg as [_ ?]. subst me. lia.
        -- right. exists j, k'. split_and!; try done; lia.
      * intros [[? ?]|(j & k' & ? & ? & ? & ?)]; [exists ia, k|exists j, k']; split_and!; try done; lia.
    + intros a (j & k' & ? & ? & _ & Hg). pose proof (gap_ordered k k' a ltac:(lia) Hg). lia.
Qed.

Lemma next_scan_a_spec todo ia ib :
  todo = drop ia A -> (ia <= length A)%nat -> (ib <= S (length B))%nat ->
  next_ok ia ib (next_scan_a todo (Some B) nid flags (Z.of_nat ia) (Z.of_nat ib)).
Proof.
  revert ia ib. induction todo as [|m todo IH]; intros ia ib Htodo Hia Hib; cbn [next_scan_a].
  { intros a (j & k & Hj & _ & (Hjl & _) & _). apply (f_equal length) in Htodo.
    rewrite length_drop in Htodo. cbn in Htodo. lia. }
  assert (Hlt : (ia < length A)%nat).
  { apply (f_equal length) in Htodo. rewrite length_drop in Htodo. cbn in Htodo. lia. }
  assert (Hm : m = ent A ia).
  { unfold ent. rewrite <- (Nat.add_0_r ia), <- nth_skipn. by rewrite <- Htodo. }
  assert (Htodo' : todo = drop (S ia) A).
  { rewrite <- Nat.add_1_r, <- drop_drop, <- Htodo. done. }
  replace (Z.of_nat ia + 1) with (Z.of_nat (S ia)) by lia.
  destruct (regions_from_ent 0 A ia HA Hlt) as (? & ? & ?).
  destruct (range_skips nid flags m) eqn:Eskip.
  { apply (next_ok_trans ia ib (S ia) ib); [lia| |by apply IH].
    intros a. apply ahead_drop_mem. intros k _ (_ & Hs & _) _. congruence. }
  subst m. rewrite (ent_end A ia HA Hlt).
  pose proof (next_scan_b_spec (r_base (ent A ia)) (r_base (ent A ia) + r_size (ent A ia)) ia ib Hib) as Hscan.
  destruct next_scan_b as [st en ia' ib'|z].
  - destruct Hscan as (k & Hk & Hprev & ? & ? & -> & -> & Hadv).
    destruct Hadv as [(? & -> & ->)|(? & -> & ->)]; eapply found_ok; eauto.
  - destruct Hscan as (k & -> & Hk & Hprev & Hstop).
    apply (next_ok_trans ia ib (S ia) k); [lia|intros a|apply IH; done || lia].
    rewrite (ahead_drop_gaps ia ib k a (r_base (ent A ia))); [|lia|done|].
    2:{ intros j Hj Hm. destruct (decide (j = ia)) as [->|]; [destruct Hm as (_ & _ & ?); lia|].
        pose proof (mem_ordered ia j a ltac:(lia) Hm). lia. }
    apply ahead_drop_mem. intros k' Hk' (_ & _ & Hm) Hg. pose proof Hg as [Hk'l Hga].
    specialize (Hstop ltac:(lia)).
    destruct (decide (k' = k)) as [->|]; [lia|].
    pose proof (gap_ordered k k' a ltac:(lia) Hg). pose proof (gap_wf k ltac:(lia)). lia.
Qed.

(** Reverse cursors: entries below [na], gaps below [nb]. *)
Definition behind (na nb j k : nat) (a : Z) : Prop :=
  (j < na)%nat /\ (k < nb)%nat /\ in_mem j a /\ in_gap k a.

Lemma mem_ordered_rev j j' a : (j < j')%nat -> (j' < length A)%nat -> in_mem j a ->
  a < r_base (ent A j').
Proof.
  intros Hj Hj' (_ & _ & Ha). pose proof (regions_from_order 0 A j j' HA Hj Hj'). lia.
Qed.

Lemma gap_ordered_rev k k' a : (k < k')%nat -> (k' <= length B)%nat -> in_gap k a -> a < gs k'.
Proof. intros Hk Hk' [_ Ha]. pose proof (gaps_ordered k k' Hk Hk'). lia. Qed.

Lemma behind_drop_mem na nb j k a :
  (forall k, (k < nb)%nat -> in_mem na a -> in_gap k a -> False) ->
  behind (S na) nb j k a <-> behind na nb j k a.
Proof.
  intros Hno. split; intros (Hj & Hk & Hm & Hg).
  - destruct (decide (j = na)) as [->|]; [destruct (Hno k Hk Hm Hg)|].
    split_and!; try done; lia.
  - split_and!; try done; lia.
Qed.

Lemma behind_drop_gaps na nb nb0 j k a me :
  (nb0 <= nb)%nat ->
  (forall k, (nb0 <= k < nb)%nat -> me <= gs k) ->
  (forall j, (j < na)%nat -> in_mem j a -> a < me) ->
  behind na nb j k a <-> behind na nb0 j k a.
Proof.
  intros Hle Hg Hm. split; intros (Hj & Hk & Hma & Hga).
  - split_and!; try done. destruct (decide (nb0 <= k)%nat); [|lia].
    specialize (Hm j Hj Hma). specialize (Hg k ltac:(lia)). destruct Hga as [_ ?]. lia.
  - split_and!; try done; lia.
Qed.

Lemma next_scan_b_rev_spec ms me ia nb :
  0 <= ms -> (nb <= S (length B))%nat ->
  match next_scan_b_rev nb B ms me (Z.of_nat ia) with
  | ScanLeft z => exists n, z = Z.of_nat n - 1 /\ (n <= nb)%nat
      /\ (forall k', (n <= k' < nb)%nat -> me <= gs k')
      /\ (forall k, n = S k -> ge k <= ms)
  | ScanFound st en ia' ib' => exists k, (k < nb)%nat
      /\ (forall k', (k < k' < nb)%nat -> me <= gs k')
      /\ gs k < me /\ ms < ge k /\ st = Z.max ms (gs k) /\ en = Z.min me (ge k)
      /\ ((gs k <= ms /\ ia' = Z.of_nat ia - 1 /\ ib' = Z.of_nat k)
          \/ (ms < gs k /\ ia' = Z.of_nat ia /\ ib' = Z.of_nat k - 1 /\ (0 < k)%nat))
  end.
Proof.
  intros Hms. induction nb as [|n IHn]; intros Hnb; cbn [next_scan_b_rev].
  { exists O. split_and!; done || lia. }
  fold (gs n) (ge n). rewrite Z.gtb_ltb, Z.geb_leb.
  destruct (Z.leb_spec (ge n) ms).
  { exists (S n). split_and!; try lia. intros k [= <-]. done. }
  destruct (Z.ltb_spec (gs n) me).
  { assert (ms < gs n -> (0 < n)%nat) by (destruct n; [rewrite gs_0; lia | lia]).
    destruct (Z.leb_spec (gs n) ms); exists n; split_and!; try done; lia. }
  specialize (IHn ltac:(lia)).
  assert (Hext : forall k, (forall k', (k <= k' < n)%nat -> me <= gs k') ->
                           forall k', (k <= k' < S n)%nat -> me <= gs k').
  { intros k Hk k' ?. destruct (decide (k' = n)) as [->|]; [lia|]. apply Hk. lia. }
  destruct next_scan_b_rev as [st en ia' ib'|z].
  - destruct IHn as (k & ? & Hk & ?). exists k. split; [lia|]. split; [|done]. intros. apply (Hext (S k)); [|lia].
    intros. apply Hk. lia.
  - destruct IHn as (k & -> & ? & Hk & ?). exists k. split; [done|]. split; [lia|]. split; [by apply Hext|done].
Qed.

Definition next_ok_rev (na nb : nat) (res : Z * option mem_range) : Prop :=
  match res with
  | (_, None) => forall j k a, ~ behind na nb j k a
  | (idx, Some r) => exists na' nb' j0 k0,
      idx = pack_idx (Z.of_nat na' - 1) (Z.of_nat nb' - 1)
      /\ (na' + nb' < na + nb)%nat /\ (na' <= length A)%nat /\ (1 <= nb' <= S (length B))%nat
      /\ range_u64 r /\ overlap_of j0 k0 r
      /\ (forall j k a, behind na nb j k a
           <-> (j = j0 /\ k = k0 /\ mr_start r <= a < mr_end r) \/ behind na' nb' j k a)
      /\ (forall j k a, behind na' nb' j k a -> a < mr_start r)
  end.

Lemma next_ok_rev_trans na nb na' nb' res :
  (na' + nb' <= na + nb)%nat -> (forall j k a, behind na nb j k a <-> behind na' nb' j k a) ->
  next_ok_rev na' nb' res -> next_ok_rev na nb res.
Proof.
  intros Hle Heq. destruct res as [idx [r|]]; cbn.
  - intros (x & y & j0 & k0 & ? & ? & ? & ? & ? & ? & Hset & ?).
    exists x, y, j0, k0. split_and!; try done; try lia.
    intros j k a. by rewrite Heq.
  - intros Hn j k a. rewrite Heq. apply Hn.
Qed.

(** A range found in entry [ia] and gap [k], walking down. *)
Lemma found_ok_rev ia nb k na' nb' nd :
  (ia < length A)%nat -> range_skips nid flags (ent A ia) = false ->
  let ms := r_base (ent A ia) in let me := r_base (ent A ia) + r_size (ent A ia) in
  (k < nb)%nat -> (nb <= S (length B))%nat ->
  (forall k', (k < k' < nb)%nat -> me <= gs k') ->
  gs k < me -> ms < ge k ->
  (gs k <= ms /\ na' = ia /\ nb' = S k) \/ (ms < gs k /\ na' = S ia /\ nb' = k /\ (0 < k)%nat) ->
  next_ok_rev (S ia) nb (pack_idx (Z.of_nat na' - 1) (Z.of_nat nb' - 1),
                         Some (mk_range (Z.max ms (gs k)) (Z.min me (ge k)) nd)).
Proof.
  intros Hia Hskip ms me Hk Hnb Hprev Hgs Hge Hadv.
  destruct (regions_from_ent 0 A ia HA Hia) as (? & Hsz & ?).
  assert (Heq : forall j k' a, behind (S ia) nb j k' a <-> behind (S ia) (S k) j k' a).
  { intros j k' a. apply (behind_drop_gaps (S ia) nb (S k) j k' a me); [lia|intros; apply Hprev; lia|].
    intros j' Hj Hm. destruct (decide (j' = ia)) as [->|]; [destruct Hm as (_ & _ & ?); subst me; lia|].
    pose proof (mem_ordered_rev j' ia a ltac:(lia) Hia Hm). subst ms me. lia. }
  pose proof (gap_wf k ltac:(lia)).
  assert (Hboth : forall a, in_mem ia a /\ in_gap k a <-> Z.max ms (gs k) <= a < Z.min me (ge k)).
  { intros a. unfold in_mem, in_gap. subst ms me. split; [intros ((_ & _ & ?) & _ & ?); lia|].
    intros. split_and!; try done; lia. }
  cbn. exists na', nb', ia, k. unfold range_u64. cbn [mr_start mr_end].
  destruct Hadv as [(Hme & -> & ->)|(Hme & -> & -> & Hk0)]; split_and!; try done; try lia.
  - intros j k' a. rewrite Heq, <- Hboth. split.
    + intros (? & ? & Hm & Hg). destruct (decide (j = ia)) as [->|].
      * destruct (decide (k' = k)) as [->|]; [by left|].
        pose proof (gap_ordered_rev k' k a ltac:(lia) ltac:(lia) Hg).
        destruct Hm as (_ & _ & ?). subst ms. lia.
      * right. split_and!; try done; lia.
    + intros [(-> & -> & ? & ?)|(? & ? & ? & ?)]; split_and!; try done; lia.
  - intros j k' a (? & ? & Hm & _). pose proof (mem_ordered_rev j ia a ltac:(lia) Hia Hm). subst ms. lia.
  - intros j k' a. rewrite Heq, <- Hboth. split.
    + intros (? & ? & Hm & Hg). destruct (decide (k' = k)) as [->|].
      * destruct (decide (j = ia)) as [->|]; [by left|].
        pose proof (mem_ordered_rev j ia a ltac:(lia) Hia Hm). destruct Hg as [_ ?]. subst ms. lia.
      * right. split_and!; try done; lia.
    + intros [(-> & -> & ? & ?)|(? & ? & ? & ?)]; split_and!; try done; lia.
  - intros j k' a (? & ? & _ & Hg). pose proof (gap_ordered_rev k' k a ltac:(lia) ltac:(lia) Hg). lia.
Qed.

Lemma next_scan_a_rev_spec na nb :
  (na <= length A)%nat -> (nb <= S (length B))%nat ->
  next_ok_rev na nb (next_scan_a_rev na A (Some B) nid flags (Z.of_nat nb - 1)).
Proof.
  revert nb. induction na as [|ia IH]; intros nb Hna Hnb; cbn [next_scan_a_rev].
  { intros j k a (Hj & _). lia. }
  rewrite region_at_ent. destruct (regions_from_ent 0 A ia HA Hna) as (? & ? & ?).
  destruct (range_skips nid flags (ent A ia)) eqn:Eskip.
  { apply (next_ok_rev_trans (S ia) nb ia nb); [lia| |apply IH; lia].
    intros j k a. apply behind_drop_mem. intros k' _ (_ & Hs & _) _. congruence. }
  rewrite (ent_end A ia HA Hna). replace (Z.to_nat (Z.of_nat nb - 1 + 1)) with nb by lia.
  pose proof (next_scan_b_rev_spec (r_base (ent A ia)) (r_base (ent A ia) + r_size (ent A ia)) ia nb
    ltac:(lia) Hnb) as Hscan.
  destruct next_scan_b_rev as [st en ia' ib'|z].
  - destruct Hscan as (k & Hk & Hprev & ? & ? & -> & -> & Hadv).
    destruct Hadv as [(? & -> & ->)|(? & -> & -> & ?)].
    + replace (Z.of_nat k) with (Z.of_nat (S k) - 1) by lia. eapply found_ok_rev; eauto.
    + replace (Z.of_nat ia) with (Z.of_nat (S ia) - 1) by lia. eapply found_ok_rev; eauto 10.
  - destruct Hscan as (n & -> & Hn & Hprev & Hstop).
    apply (next_ok_rev_trans (S ia) nb ia n); [lia|intros j k0 a|apply IH; lia].
    rewrite (behind_drop_gaps (S ia) nb n j k0 a (r_base (ent A ia) + r_size (ent A ia))); [|lia|done|].
    2:{ intros j' Hj Hm. destruct (decide (j' = ia)) as [->|]; [destruct Hm as (_ & _ & ?); lia|].
        pose proof (mem_ordered_rev j' ia a ltac:(lia) Hna Hm). lia. }
    apply behind_drop_mem. intros k' Hk' (_ & _ & Hm) Hg. pose proof Hg as [Hk'l Hga].
    destruct n as [|k]; [lia|]. specialize (Hstop k eq_refl).
    destruct (decide (k' = k)) as [->|]; [lia|].
    pose proof (gap_ordered_rev k' k a ltac:(lia) ltac:(lia) Hg). pose proof (gap_wf k ltac:(lia)). lia.
Qed.

End Walk.

(** ** Iterating *)

Definition in_mrange (r : mem_range) (a : Z) : Prop := mr_start r <= a < mr_end r.
Definition covered (l : list mem_range) (a : Z) : Prop := Exists (fun r => in_mrange r a) l.

(** Every address of a later range is at or above the end of an earlier one. *)
Fixpoint ascending (l : list mem_range) : Prop :=
  match l with
  | [] => True
  | r :: l' => (forall a, covered l' a -> mr_end r <= a) /\ ascending l'
  end.

(** Every address of a later range is below the start of an earlier one. *)
Fixpoint descending (l : list mem_range) : Prop :=
  match l with
  | [] => True
  | r :: l' => (forall a, covered l' a -> a < mr_start r) /\ descending l'
  end.

Definition ranges_wf (l : list mem_range) : Prop := Forall range_u64 l.

(** The addresses the walk is meant to visit: in a memory entry that the node
    and flag selectors admit, and not reserved. *)
Definition free_at (A B : list memblock_region) (nid flags a : Z) : Prop :=
  Exists (fun m => range_skips nid flags m = false /\ contains m a = true) A
  /\ attr_at B a = None.

Lemma ahead_all A B nid flags a :
  regions_from 0 A -> regions_from 0 B ->
  (exists j k, in_mem A nid flags j a /\ in_gap B k a) <-> free_at A B nid flags a.
Proof.
  intros HA HB. unfold free_at. rewrite List.Exists_exists.
  assert (Hent : forall j, (j < length A)%nat -> In (ent A j) A) by (intros; by apply nth_In).
  split.
  - intros (j & k & (Hj & Hs & Ha) & Hg). destruct (regions_from_ent 0 A j HA Hj) as (? & ? & ?).
    split.
    + exists (ent A j). split; [by apply Hent|]. split; [done|].
      unfold contains. bdestr; done || lia.
    + apply (in_some_gap B HB a); [lia|]. by exists k.
  - intros [(m & Hm & Hs & Hc) Hn].
    apply (In_nth _ _ dummy_region) in Hm as (j & Hj & Ej). fold (ent A j) in Ej. subst m.
    destruct (regions_from_ent 0 A j HA Hj) as (? & ? & ?).
    unfold contains in Hc. apply andb_true_iff in Hc as [?%Z.leb_le ?%Z.ltb_lt].
    destruct (proj2 (in_some_gap B HB a ltac:(lia)) Hn) as (k & Hk).
    exists j, k. split; [|done]. split_and!; done || lia.
Qed.

Section Iterate.
Context (A B : list memblock_region) (nid flags : Z).
Context (HA : regions_from 0 A) (HB : regions_from 0 B).
Context (HlenA : Z.of_nat (length A) < 2 ^ 31 - 1) (HlenB : Z.of_nat (length B) < 2 ^ 31 - 1).

Abbreviation next := (fun i => next_mem_range i nid flags A (Some B)).
Abbreviation Ahead := (ahead A B (fix_nid nid) flags).

Lemma next_mem_range_pack ia ib :
  (ia <= length A)%nat -> (ib <= length B)%nat ->
  next_ok A B (fix_nid nid) flags ia ib
    (next_mem_range (pack_idx (Z.of_nat ia) (Z.of_nat ib)) nid flags A (Some B)).
Proof.
  intros Hia Hib. unfold next_mem_range. rewrite idx_a_of_pack, idx_b_of_pack by lia.
  destruct (Z.ltb_spec (Z.of_nat ia) 0); [lia|]. rewrite Nat2Z.id.
  apply next_scan_a_spec; done || lia.
Qed.

Lemma iterate_forward fuel ia ib :
  (ia <= length A)%nat -> (ib <= length B)%nat ->
  (length A + length B - (ia + ib) < fuel)%nat ->
  exists l, iterate fuel next (pack_idx (Z.of_nat ia) (Z.of_nat ib)) = Ret l
    /\ ranges_wf l /\ ascending l /\ (forall a, covered l a <-> Ahead ia ib a) /\ Forall (maximal A B) l.
Proof.
  revert ia ib. induction fuel as [|fuel IH]; intros ia ib Hia Hib Hf; [lia|].
  cbn [iterate]. pose proof (next_mem_range_pack ia ib Hia Hib) as Hok.
  destruct next_mem_range as [idx [r|]]; cbn in Hok.
  - destruct Hok as (ia' & ib' & -> & Hlt & Hia' & Hib' & Hwf & Hmax & Hset & Hlow).
    destruct (Z.eqb_spec (pack_idx (Z.of_nat ia') (Z.of_nat ib')) ULLONG_MAX) as [E|_].
    { exfalso. revert E. apply pack_idx_not_end. lia. }
    destruct (IH ia' ib') as (l & Hrun & Hl & Hasc & Hcov & Hall); try done; try lia.
    rewrite Hrun. exists (r :: l). cbn [obind]. split; [done|]. split; [by constructor|].
    split_and!.
    + cbn. split; [|done]. intros a Ha. apply Hlow. by apply Hcov.
    + intros a. unfold covered. rewrite Exists_cons. fold (covered l a). rewrite Hcov.
      symmetry. apply Hset.
    + by constructor.
  - exists []. split; [done|]. split; [constructor|]. split; [done|]. split; [|constructor].
    intros a. unfold covered. rewrite Exists_nil. split; [done|]. apply Hok.
Qed.

Abbreviation next_rev := (fun i => next_mem_range_rev i nid flags A (Some B)).
Abbreviation Behind := (behind A B (fix_nid nid) flags).

Lemma next_mem_range_rev_pack na nb :
  (na <= length A)%nat -> (1 <= nb <= S (length B))%nat ->
  next_ok_rev A B (fix_nid nid) flags na nb
    (next_mem_range_rev (pack_idx (Z.of_nat na - 1) (Z.of_nat nb - 1)) nid flags A (Some B)).
Proof.
  intros Hna Hnb. unfold next_mem_range_rev.
  destruct (Z.eqb_spec (pack_idx (Z.of_nat na - 1) (Z.of_nat nb - 1)) ULLONG_MAX) as [E|_].
  { exfalso. revert E. apply pack_idx_not_end. lia. }
  rewrite idx_a_of_pack, idx_b_of_pack by lia.
  replace (Z.to_nat (Z.of_nat na - 1 + 1)) with na by lia. apply next_scan_a_rev_spec; done || lia.
Qed.

Lemma iterate_rev_step fuel na nb idx :
  (na <= length A)%nat -> (1 <= nb <= S (length B))%nat -> (na + nb <= fuel)%nat ->
  next_ok_rev A B (fix_nid nid) flags na nb (next_rev idx) ->
  exists l, iterate fuel next_rev idx = Ret l
    /\ ranges_wf l /\ descending l
    /\ (forall a, covered l a <-> exists j k, Behind na nb j k a)
    /\ (forall j k a, Behind na nb j k a -> Exists (overlap_of A B j k) l).
Proof.
  revert na nb idx. induction fuel as [|fuel IH]; intros na nb idx Hna Hnb Hf Hok; [lia|].
  cbn [iterate]. destruct next_mem_range_rev as [idx' [r|]]; cbn in Hok.
  - destruct Hok as (na' & nb' & j0 & k0 & -> & Hlt & Hna' & Hnb' & Hwf & Hov & Hset & Hhigh).
    destruct (Z.eqb_spec (pack_idx (Z.of_nat na' - 1) (Z.of_nat nb' - 1)) ULLONG_MAX) as [E|_].
    { exfalso. revert E. apply pack_idx_not_end. lia. }
    destruct (IH na' nb' (pack_idx (Z.of_nat na' - 1) (Z.of_nat nb' - 1)))
      as (l & Hrun & Hl & Hdesc & Hcov & Hall); try done; try lia.
    { by apply next_mem_range_rev_pack. }
    rewrite Hrun. exists (r :: l). cbn [obind]. split; [done|]. split; [by constructor|].
    split_and!.
    + cbn. split; [|done]. intros a Ha. apply Hcov in Ha as (j & k & Ha). by eapply Hhigh.
    + intros a. unfold covered. rewrite Exists_cons. fold (covered l a). rewrite Hcov.
      split.
      * intros [Hr|(j & k & Hb)]; [exists j0, k0|exists j, k]; apply Hset; auto.
      * intros (j & k & Hb). apply Hset in Hb as [(_ & _ & ?)|Hb]; eauto.
    + intros j k a Hb. apply Hset in Hb as [(-> & -> & _)|Hb]; [by left|right; by eapply Hall].
  - exists []. split; [done|]. split; [constructor|]. split; [done|]. split.
    + intros a. unfold covered. rewrite Exists_nil. split; [done|]. intros (j & k & Hb). by eapply Hok.
    + intros j k a Hb. by apply Hok in Hb.
Qed.

End Iterate.

(** ** The two loops *)

Definition counts_ok (s : memblock) : Prop :=
  t_max (memory s) < 2 ^ 31 - 1 /\ t_max (reserved s) < 2 ^ 31 - 1.

Record mb_wf (s : memblock) : Prop := {
  wf_memory : type_wf (memory s);
  wf_reserved : type_wf (reserved s);
  wf_counts : counts_ok s
}.

Lemma mb_wf_lengths s : mb_wf s ->
  Z.of_nat (length (regions (memory s))) < 2 ^ 31 - 1
  /\ Z.of_nat (length (regions (reserved s))) < 2 ^ 31 - 1.
Proof.
  intros [[_ _ _ Hm] [_ _ _ Hr] [? ?]]. unfold t_cnt in *. lia.
Qed.

Lemma free_ranges_forward s nid flags :
  mb_wf s ->
  exists l, for_each_free_mem_range s nid flags = Ret l
    /\ ranges_wf l /\ ascending l
    /\ (forall a, covered l a
         <-> free_at (regions (memory s)) (regions (reserved s)) (fix_nid nid) flags a)
    /\ Forall (maximal (regions (memory s)) (regions (reserved s))) l.
Proof.
  intros Hwf. destruct (mb_wf_lengths s Hwf) as [HlA HlB].
  destruct Hwf as [[HA _ _ _] [HB _ _ _] _].
  destruct (iterate_forward _ _ nid flags HA HB HlA HlB (iterate_fuel s) O O)
    as (l & Hrun & Hl & Hasc & Hcov & Hmax); [lia|lia|unfold iterate_fuel; lia|].
  exists l. split; [exact Hrun|]. split_and!; try done.
  intros a. rewrite Hcov, <- ahead_all by done. unfold ahead. split.
  - intros (j & k & _ & _ & ? & ?). eauto.
  - intros (j & k & ? & ?). exists j, k. split_and!; try done; lia.
Qed.

Lemma free_ranges_reverse s nid flags :
  mb_wf s ->
  exists l, for_each_free_mem_range_reverse s nid flags = Ret l
    /\ ranges_wf l /\ descending l
    /\ (forall a, covered l a
         <-> free_at (regions (memory s)) (regions (reserved s)) (fix_nid nid) flags a)
    /\ (forall j k a, in_mem (regions (memory s)) (fix_nid nid) flags j a ->
          in_gap (regions (reserved s)) k a ->
          Exists (overlap_of (regions (memory s)) (regions (reserved s)) j k) l).
Proof.
  intros Hwf. destruct (mb_wf_lengths s Hwf) as [HlA HlB].
  destruct Hwf as [[HA _ _ _] [HB _ _ _] _].
  destruct (iterate_rev_step _ _ nid flags HA HB HlA HlB (iterate_fuel s)
    (length (regions (memory s))) (S (length (regions (reserved s)))) ULLONG_MAX)
    as (l & Hrun & Hl & Hdesc & Hcov & Hall); [lia|lia|unfold iterate_fuel; lia| |].
  { unfold next_mem_range_rev. rewrite Z.eqb_refl.
    replace (Z.to_nat (Z.of_nat (length (regions (memory s))) - 1 + 1))
      with (length (regions (memory s))) by lia.
    replace (Z.of_nat (length (regions (reserved s))))
      with (Z.of_nat (S (length (regions (reserved s)))) - 1) by lia.
    apply next_scan_a_rev_spec; done || lia. }
  exists l. split; [exact Hrun|]. split_and!; try done.
  - intros a. rewrite Hcov, <- ahead_all by done. unfold behind. split.
    + intros (j & k & _ & _ & ? & ?). eauto.
    + intros (j & k & Hm & Hg). exists j, k. split_and!; try done; [apply Hm | destruct Hg; lia].
  - intros j k a Hm Hg. apply (Hall j k a). split_and!; try done; [apply Hm | destruct Hg; lia].
Qed.
