(* ===== verification/MemblockFind.v ===== *)
(** * Finding, searching and allocating

    The range finders return an aligned block of free memory inside the
    requested window, or 0 exactly when no memory entry holds one; the binary
    search finds the entry that holds an address; an allocation reserves the
    block it found and nothing else. *)

From stdpp Require Import base list numbers option.
From S2P Require Import Prelude Memblock MemblockOps MemblockSpec MemblockRemove MemblockIter.

(** ** The top-down finder *)

Section Finders.
Context (start end_ size k : Z).
Context (Hstart : 0 < start <= end_) (Hend : end_ <= PHYS_ADDR_MAX).
Context (Hsize : 0 < size < U64_MOD) (Hk : 0 <= k <= 63).

(** Block [x, x + size) is aligned and lies in range [r] and in the window. *)
Definition fits (r : mem_range) (x : Z) : Prop :=
  (2 ^ k | x) /\ clamp (mr_start r) start end_ <= x
  /\ x + size <= clamp (mr_end r) start end_.

Lemma clamp_bounds x : start <= clamp x start end_ <= end_.
Proof. unfold clamp. lia. Qed.

Lemma fits_inside r x : fits r x -> range_u64 r ->
  mr_start r <= x /\ x + size <= mr_end r /\ start <= x /\ x + size <= end_.
Proof. unfold fits, clamp, range_u64. intros (_ & ? & ?) ?. lia. Qed.

Lemma pow2k_pos : 0 < 2 ^ k.
Proof. apply Z.pow_pos_nonneg; lia. Qed.

(** The candidate is the last aligned address that leaves room for [size]. *)
Lemma round_down_greatest x y :
  is_u64 y -> (2 ^ k | x) -> x <= y -> x <= round_down y (2 ^ k).
Proof.
  intros Hy [q ->] Hle. rewrite round_down_spec by (done || lia). pose proof pow2k_pos.
  pose proof (Z.div_mod y (2 ^ k)). assert (q <= y / 2 ^ k); [|nia].
  apply Z.div_le_lower_bound; lia.
Qed.

Lemma round_down_divides y : is_u64 y -> (2 ^ k | round_down y (2 ^ k)) /\ 0 <= round_down y (2 ^ k) <= y.
Proof.
  intros Hy. rewrite round_down_spec by (done || lia). pose proof pow2k_pos.
  pose proof (Z.div_mod y (2 ^ k)). pose proof (Z.mod_pos_bound y (2 ^ k)).
  split; [exists (y / 2 ^ k); lia|].
  pose proof (Z.mod_le y (2 ^ k)). destruct Hy. lia.
Qed.

Lemma find_top_down_loop_spec l :
  Forall range_u64 l -> descending l ->
  let c := find_top_down_loop l start end_ size (2 ^ k) in
  (c = 0 /\ forall x, ~ Exists (fun r => fits r x) l)
  \/ (c <> 0 /\ Exists (fun r => fits r c) l
      /\ forall x, Exists (fun r => fits r x) l -> x <= c).
Proof.
  induction l as [|r l IH]; intros Hu Hd; cbn [find_top_down_loop].
  { left. split; [done|]. intros x Hx. inversion Hx. }
  inversion Hu as [|? ? Hr Hl]; subst. destruct Hd as [Hhi Hd]. specialize (IH Hl Hd).
  set (te := clamp (mr_end r) start end_). set (ts := clamp (mr_start r) start end_).
  pose proof (clamp_bounds (mr_end r)) as Hte. pose proof (clamp_bounds (mr_start r)) as Hts.
  fold te in Hte. fold ts in Hts.
  assert (Hskip : (forall x, ~ fits r x) ->
    let c := find_top_down_loop l start end_ size (2 ^ k) in
    (c = 0 /\ forall x, ~ Exists (fun r => fits r x) (r :: l))
    \/ (c <> 0 /\ Exists (fun r => fits r c) (r :: l)
        /\ forall x, Exists (fun r => fits r x) (r :: l) -> x <= c)).
  { intros Hno. cbn zeta. destruct IH as [[-> Hn]|(Hc & Hex & Hmax)]; [left|right].
    - split; [done|]. intros x Hx. apply Exists_cons in Hx as [?|?]; [by eapply Hno|by eapply Hn].
    - split_and!; [done|by right|]. intros x Hx. apply Exists_cons in Hx as [Hx|?]; [by apply Hno in Hx|auto]. }
  destruct (Z.ltb_spec te size).
  { apply Hskip. intros x (_ & Hx1 & Hx2). fold te in Hx2. fold ts in Hx1. lia. }
  assert (Hu64 : is_u64 (te - size)) by (unfold PHYS_ADDR_MAX in *; ulia).
  rewrite (u64_id (te - size)), Z.geb_leb by done.
  pose proof (round_down_divides _ Hu64) as [Hdiv Hrd].
  destruct (Z.leb_spec ts (round_down (te - size) (2 ^ k))).
  - right. split; [lia|]. assert (fits r (round_down (te - size) (2 ^ k))) as Hfit.
    { split_and!; [done|done|]. fold te. lia. }
    split; [by left|]. intros x Hx. apply Exists_cons in Hx as [(Hx & _ & Hx2)|Hx].
    + apply round_down_greatest; try done. fold te in Hx2. lia.
    + (* a block of a later, lower range *)
      apply List.Exists_exists in Hx as (r' & Hin & Hx).
      assert (range_u64 r') as Hr' by (rewrite List.Forall_forall in Hl; auto).
      destruct (fits_inside r' x Hx Hr') as (? & ? & ? & ?).
      assert (x < mr_start r).
      { apply Hhi. apply List.Exists_exists. exists r'. split; [done|]. unfold in_mrange. lia. }
      destruct (fits_inside r _ Hfit Hr). lia.
  - apply Hskip. intros x (Hx & Hx1 & Hx2). fold te in Hx2. fold ts in Hx1.
    pose proof (round_down_greatest x (te - size) Hu64 Hx). lia.
Qed.

(** ** The bottom-up finder *)

Lemma round_up_divides y : is_u64 y -> (2 ^ k | round_up y (2 ^ k)) /\ (round_up y (2 ^ k) = 0 \/ y <= round_up y (2 ^ k)).
Proof.
  intros Hy. rewrite round_up_spec by (done || lia). pose proof pow2k_pos.
  set (q := (y + 2 ^ k - 1) / 2 ^ k). assert (Hq : y <= q * 2 ^ k < y + 2 ^ k).
  { subst q. pose proof (Z.div_mod (y + 2 ^ k - 1) (2 ^ k)).
    pose proof (Z.mod_pos_bound (y + 2 ^ k - 1) (2 ^ k)). lia. }
  assert (HU : U64_MOD = 2 ^ (64 - k) * 2 ^ k).
  { rewrite <- Z.pow_add_r by lia. unfold U64_MOD. f_equal. lia. }
  assert (0 < 2 ^ (64 - k)) by (apply Z.pow_pos_nonneg; lia).
  destruct (Z.lt_ge_cases (q * 2 ^ k) U64_MOD).
  - rewrite u64_id by (destruct Hy; split; lia). split; [by exists q|lia].
  - assert (q = 2 ^ (64 - k)) as -> by (destruct Hy; nia).
    rewrite <- HU. unfold u64. rewrite Z.mod_same by done. split; [apply Z.divide_0_r|by left].
Qed.

Lemma find_bottom_up_loop_spec l :
  Forall range_u64 l ->
  let c := find_bottom_up_loop l start end_ size (2 ^ k) in
  c = 0 \/ Exists (fun r => fits r c) l.
Proof.
  induction l as [|r l IH]; intros Hu; cbn [find_bottom_up_loop]; [by left|].
  inversion Hu as [|? ? Hr Hl]; subst. specialize (IH Hl).
  pose proof (clamp_bounds (mr_end r)). pose proof (clamp_bounds (mr_start r)).
  set (te := clamp (mr_end r) start end_) in *. set (ts := clamp (mr_start r) start end_) in *.
  assert (is_u64 ts) as Hts by (unfold PHYS_ADDR_MAX in *; ulia).
  destruct (round_up_divides ts Hts) as [Hdiv Hle].
  destruct (Z.ltb_spec (round_up ts (2 ^ k)) te); cbn [andb];
    [|destruct IH as [?|?]; [by left|right; by right]].
  pose proof (u64_range (Z.lor (u64 (ts - 1)) (round_mask (2 ^ k)) + 1)) as Hc.
  fold (round_up ts (2 ^ k)) in Hc.
  rewrite u64_id, Z.geb_leb by (unfold PHYS_ADDR_MAX in *; ulia).
  destruct (Z.leb_spec size (te - round_up ts (2 ^ k)));
    [|destruct IH as [?|?]; [by left|right; by right]].
  destruct Hle as [?|?]; [by left|]. right. left. split_and!; [done|done|]. fold te. lia.
Qed.

End Finders.

(** ** memblock_find_in_range_node *)

(** The window a request is clamped to: never the first page, and up to the
    current limit when the caller passes MEMBLOCK_ALLOC_ACCESSIBLE. *)
Definition window_lo (start : Z) : Z := Z.max start PAGE_SIZE.
Definition window_hi (s : memblock) (start end_ : Z) : Z :=
  Z.max (window_lo start) (if end_ =? MEMBLOCK_ALLOC_ACCESSIBLE then current_limit s else end_).

(** Block [c, c + size) is free memory the request may have. *)
Definition free_block (s : memblock) (nid flags c size : Z) : Prop :=
  forall a, c <= a < c + size ->
    free_at (regions (memory s)) (regions (reserved s)) (fix_nid nid) flags a.

(** Some admissible memory entry holds an aligned free block of the window. *)
Definition some_block (s : memblock) (lo hi size k nid flags : Z) : Prop :=
  exists x, (2 ^ k | x) /\ lo <= x /\ x + size <= hi
    /\ Exists (fun m => range_skips (fix_nid nid) flags m = false
                        /\ r_base m <= x /\ x + size <= r_base m + r_size m) (regions (memory s))
    /\ forall a, x <= a < x + size -> attr_at (regions (reserved s)) a = None.

(** A free stretch inside one memory entry lies in one gap. *)
Lemma free_stretch_in_gap B x size :
  regions_from 0 B -> all_pos B \/ placeholder B -> 0 < size -> 0 <= x -> x + size <= PHYS_ADDR_MAX ->
  (forall a, x <= a < x + size -> attr_at B a = None) ->
  exists k, in_gap B k x /\ x + size <= ge B k.
Proof.
  intros HB Hl Hsz Hx Hmax Hfree.
  destruct (proj2 (in_some_gap B HB x ltac:(lia)) (Hfree x ltac:(lia))) as (k & Hk).
  exists k. split; [done|]. destruct Hk as [Hkl Hk].
  destruct (Z.le_gt_cases (x + size) (ge B k)); [done|exfalso].
  destruct (decide (k = length B)) as [->|Hne]; [rewrite ge_last in *; lia|].
  rewrite (ge_lt B k) in * by lia.
  assert (0 < r_size (ent B k)) as Hpos.
  { destruct Hl as [Hp|(r & -> & ? & ?)].
    - unfold all_pos in Hp. rewrite List.Forall_forall in Hp. apply Hp. apply nth_In. lia.
    - cbn in Hne, Hkl. assert (k = O) as -> by lia. unfold ent in *. cbn in *. lia. }
  assert (is_Some (attr_at B (r_base (ent B k)))) as [? ?].
  { apply attr_at_ent. exists k. split; [lia|]. unfold contains. bdestr; done || lia. }
  rewrite Hfree in *; [done|lia].
Qed.

Lemma find_top_down_spec s start end_ size k nid flags :
  mb_wf s -> 0 < start <= end_ -> end_ <= PHYS_ADDR_MAX -> 0 < size < U64_MOD -> 0 <= k <= 63 ->
  exists c, memblock_find_range_top_down s start end_ size (2 ^ k) nid flags = Ret c
    /\ (c <> 0 -> (2 ^ k | c) /\ start <= c /\ c + size <= end_ /\ free_block s nid flags c size)
    /\ (c = 0 -> ~ some_block s start end_ size k nid flags).
Proof.
  intros Hwf Hst Hen Hsz Hk. unfold memblock_find_range_top_down.
  destruct (free_ranges_reverse s nid flags Hwf) as (l & -> & Hl & Hd & Hcov & Hall).
  cbn [obind]. eexists. split; [done|].
  pose proof (find_top_down_loop_spec start end_ size k Hst Hen Hsz Hk l Hl Hd) as Hspec.
  cbn zeta in Hspec. set (c := find_top_down_loop l start end_ size (2 ^ k)) in *.
  split.
  - intros Hc. destruct Hspec as [[? _]|(_ & Hex & _)]; [done|].
    apply List.Exists_exists in Hex as (r & Hin & Hfit).
    assert (range_u64 r) as Hr by (unfold ranges_wf in Hl; rewrite List.Forall_forall in Hl; auto).
    destruct (fits_inside start end_ size k Hst Hsz r c Hfit Hr) as (? & ? & ? & ?).
    split_and!; try done; [apply Hfit|].
    intros a Ha. apply Hcov. apply List.Exists_exists. exists r. split; [done|]. unfold in_mrange. lia.
  - intros Hc (x & Hx & Hlo & Hhi & Hm & Hfree).
    destruct Hspec as [[_ Hno]|(? & _)]; [|done]. apply (Hno x).
    apply List.Exists_exists in Hm as (m & Hm & Hskip & Hmb & Hme).
    apply (In_nth _ _ dummy_region) in Hm as (j & Hj & Ej). fold (ent (regions (memory s)) j) in Ej. subst m.
    destruct Hwf as [[HA _ _ _] [HB _ [_ HlB] _] _].
    destruct (regions_from_ent 0 _ j HA Hj) as (? & ? & ?).
    destruct (free_stretch_in_gap _ x size HB HlB ltac:(lia) ltac:(lia) ltac:(lia) Hfree) as (g & Hg & Hge).
    assert (in_mem (regions (memory s)) (fix_nid nid) flags j x) as Hjm by (split_and!; done || lia).
    specialize (Hall j g x Hjm Hg).
    apply List.Exists_exists in Hall as (r & Hin & Hr1 & Hr2).
    apply List.Exists_exists. exists r. split; [done|]. destruct Hg as [_ ?].
    split_and!; [done| |]; unfold clamp; lia.
Qed.

Lemma find_bottom_up_spec s start end_ size k nid flags :
  mb_wf s -> 0 < start <= end_ -> end_ <= PHYS_ADDR_MAX -> 0 < size < U64_MOD -> 0 <= k <= 63 ->
  exists c, memblock_find_range_bottom_up s start end_ size (2 ^ k) nid flags = Ret c
    /\ (c <> 0 -> (2 ^ k | c) /\ start <= c /\ c + size <= end_ /\ free_block s nid flags c size).
Proof.
  intros Hwf Hst Hen Hsz Hk. unfold memblock_find_range_bottom_up.
  destruct (free_ranges_forward s nid flags Hwf) as (l & -> & Hl & _ & Hcov & _).
  cbn [obind]. eexists. split; [done|]. intros Hc.
  destruct (find_bottom_up_loop_spec start end_ size k Hst Hen Hk l Hl) as [?|Hex]; [done|].
  apply List.Exists_exists in Hex as (r & Hin & Hfit).
  assert (range_u64 r) as Hr by (unfold ranges_wf in Hl; rewrite List.Forall_forall in Hl; auto).
  destruct (fits_inside start end_ size k Hst Hsz r _ Hfit Hr) as (? & ? & ? & ?).
  split_and!; try done; [apply Hfit|].
  intros a Ha. apply Hcov. apply List.Exists_exists. exists r. split; [done|]. unfold in_mrange. lia.
Qed.

(** The facts about a request that every finder needs. *)
Record request_ok (s : memblock) (kernel_end size k start end_ : Z) : Prop := {
  req_size : 0 < size < U64_MOD;
  req_align : 0 <= k <= 63;
  req_start : is_u64 start;
  req_end : is_u64 end_;
  req_limit : is_u64 (current_limit s);
  req_kernel : is_u64 kernel_end
}.

Lemma find_in_range_node_spec kernel_end s size k start end_ nid flags :
  mb_wf s -> request_ok s kernel_end size k start end_ ->
  exists c, memblock_find_in_range_node kernel_end s size (2 ^ k) start end_ nid flags = Ret c
    /\ (c <> 0 -> (2 ^ k | c) /\ window_lo start <= c /\ c + size <= window_hi s start end_
                  /\ free_block s nid flags c size)
    /\ (c = 0 -> ~ some_block s (window_lo start) (window_hi s start end_) size k nid flags).
Proof.
  intros Hwf [Hsz Hk Hst Hen Hlim Hker]. unfold memblock_find_in_range_node.
  set (e0 := if end_ =? MEMBLOCK_ALLOC_ACCESSIBLE then current_limit s else end_).
  fold (window_lo start). change (Z.max (window_lo start) e0) with (window_hi s start end_).
  assert (is_u64 e0) as He0 by (unfold e0; by destruct (_ =? _)).
  assert (Hlo : 0 < window_lo start <= PHYS_ADDR_MAX)
    by (unfold window_lo, PAGE_SIZE, PAGE_SHIFT, PHYS_ADDR_MAX; ulia).
  assert (Hhi : window_lo start <= window_hi s start end_ <= PHYS_ADDR_MAX).
  { unfold window_hi. fold e0. unfold PHYS_ADDR_MAX in *. ulia. }
  destruct (find_top_down_spec s (window_lo start) (window_hi s start end_) size k nid flags)
    as (c & Htd & Hsound & Hcomplete); try done; try lia.
  destruct (bottom_up s && (window_hi s start end_ >? kernel_end)) eqn:Ebu; cbn [obind].
  2:{ exists c. split; [done|]. done. }
  apply andb_true_iff in Ebu as [_ Hke]. rewrite Z.gtb_ltb in Hke. apply Z.ltb_lt in Hke.
  destruct (find_bottom_up_spec s (Z.max (window_lo start) kernel_end) (window_hi s start end_)
    size k nid flags) as (b & -> & Hbs); try done; try lia.
  cbn [obind]. destruct (Z.eqb_spec b 0) as [->|Hb]; cbn [negb].
  { exists c. split; [done|]. done. }
  exists b. split; [done|]. split; [|done]. intros _.
  destruct (Hbs Hb) as (? & ? & ? & ?). split_and!; try done. lia.
Qed.

(** ** Binary search *)

Lemma search_loop_spec rs addr fuel left right :
  regions_from 0 rs -> Z.of_nat (length rs) < 2 ^ 31 ->
  (left < right)%nat -> (right <= length rs)%nat -> (right - left < fuel)%nat ->
  (forall i, (i < left)%nat -> r_base (ent rs i) + r_size (ent rs i) <= addr) ->
  (forall i, (right <= i < length rs)%nat -> addr < r_base (ent rs i)) ->
  exists z, search_loop fuel rs addr (Z.of_nat left) (Z.of_nat right) = Ret z
    /\ ((z = -1 /\ forall i, (i < length rs)%nat -> contains (ent rs i) addr = false)
        \/ exists i, z = Z.of_nat i /\ (i < length rs)%nat /\ contains (ent rs i) addr = true).
Proof.
  intros Hs Hn. revert left right. induction fuel as [|fuel IH]; intros left right Hlr Hr Hf Hlo Hhi; [lia|].
  cbn [search_loop]. set (mid := ((right + left) / 2)%nat).
  assert (Hmid : u32 (Z.of_nat right + Z.of_nat left) / 2 = Z.of_nat mid).
  { rewrite u32_id by ulia. subst mid. rewrite <- Nat2Z.inj_add, Nat2Z.inj_div. done. }
  assert (Hb : (left <= mid < right)%nat).
  { subst mid. split; [apply Nat.div_le_lower_bound; lia|apply Nat.Div0.div_lt_upper_bound; lia]. }
  rewrite Hmid, region_at_ent, (ent_end rs mid Hs) by lia.
  destruct (regions_from_ent 0 rs mid Hs ltac:(lia)) as (? & ? & ?).
  destruct (Z.ltb_spec addr (r_base (ent rs mid))).
  { assert (Hhi' : forall i, (mid <= i < length rs)%nat -> addr < r_base (ent rs i)).
    { intros i Hi. destruct (decide (i = mid)) as [->|]; [done|].
      pose proof (regions_from_order 0 rs mid i Hs ltac:(lia) ltac:(lia)). lia. }
    destruct (Z.ltb_spec (Z.of_nat left) (Z.of_nat mid)).
    - apply (IH left mid); try done; lia.
    - eexists. split; [done|]. left. split; [done|]. intros i Hi. unfold contains.
      destruct (decide (i < left)%nat); [specialize (Hlo i ltac:(lia))|specialize (Hhi' i ltac:(lia))];
        bdestr; done || lia. }
  rewrite Z.geb_leb. destruct (Z.leb_spec (r_base (ent rs mid) + r_size (ent rs mid)) addr).
  { replace (u32 (Z.of_nat mid + 1)) with (Z.of_nat (S mid)) by (rewrite u32_id by ulia; lia).
    assert (Hlo' : forall i, (i < S mid)%nat -> r_base (ent rs i) + r_size (ent rs i) <= addr).
    { intros i Hi. destruct (decide (i = mid)) as [->|]; [done|].
      pose proof (regions_from_order 0 rs i mid Hs ltac:(lia) ltac:(lia)). lia. }
    destruct (Z.ltb_spec (Z.of_nat (S mid)) (Z.of_nat right)).
    - apply (IH (S mid) right); try done; lia.
    - eexists. split; [done|]. left. split; [done|]. intros i Hi. unfold contains.
      destruct (decide (i < S mid)%nat); [specialize (Hlo' i ltac:(lia))|specialize (Hhi i ltac:(lia))];
        bdestr; done || lia. }
  eexists. split; [done|]. right. exists mid. split_and!; [done|lia|]. unfold contains. bdestr; done || lia.
Qed.

Lemma memblock_search_spec t addr :
  type_wf t -> t_max t < 2 ^ 31 ->
  exists z, memblock_search t addr = Ret z
    /\ ((z = -1 /\ attr_at (regions t) addr = None)
        \/ exists i, z = Z.of_nat i /\ (i < length (regions t))%nat
             /\ contains (ent (regions t) i) addr = true).
Proof.
  intros [Hs _ [Hne _] Hm] Hmax. unfold memblock_search, t_cnt in *.
  rewrite u32_id by ulia. change 0 with (Z.of_nat 0).
  assert (0 < length (regions t))%nat by (destruct (regions t); cbn; [done|lia]).
  destruct (search_loop_spec (regions t) addr (S (length (regions t))) 0 (length (regions t)))
    as (z & Hrun & Hz); try done; try lia.
  exists z. split; [done|]. destruct Hz as [[-> Hno]|?]; [left|by right].
  split; [done|]. destruct (attr_at (regions t) addr) eqn:E; [exfalso|done].
  assert (is_Some (attr_at (regions t) addr)) as Hsome by eauto.
  apply attr_at_ent in Hsome as (i & Hi & Hc). rewrite Hno in Hc by done. done.
Qed.

(** * The boot-time allocator's entry points

    What the allocation functions of mm/memblock.c promise to their callers:
    the block they hand out was free memory of the requested window, aligned
    and big enough, it is reserved afterwards and nothing else changed; and
    when they answer zero there was no such block.  The end of the file
    collects the theorems of the memblock component. *)

(** ** Reserving a free block needs one entry *)

Lemma add_count_free lo base end_ nid flags rs :
  regions_from lo rs -> all_pos rs -> base < end_ ->
  (forall a, base <= a < end_ -> attr_at rs a = None) ->
  add_count end_ nid flags rs base = 1.
Proof.
  unfold add_count. revert lo. induction rs as [|r rs IH]; intros lo Hs Hp Hlt Hfree; cbn [add_pure].
  { bdestr; cbn; lia. }
  pose proof Hs as (? & ? & ? & Hs'). inversion Hp as [|? ? Hr Hp']; subst.
  assert (Hout : forall a, base <= a < end_ -> contains r a = false /\ attr_at rs a = None).
  { intros a Ha. specialize (Hfree a Ha). cbn in Hfree. by destruct (contains r a). }
  bdestr; cbn [app length]; try lia.
  - destruct (Hout (r_base r)) as [Hc _]; [lia|]. unfold contains in Hc. revert Hc. bdestr; lia || done.
  - pose proof (IH _ Hs' Hp' Hlt (fun a Ha => proj2 (Hout a Ha))). lia.
  - destruct (Hout base) as [Hc _]; [lia|]. unfold contains in Hc. revert Hc. bdestr; lia || done.
Qed.

Lemma add_count_placeholder base end_ nid flags rs :
  placeholder rs -> 0 <= base < end_ -> add_count end_ nid flags rs base = 1.
Proof.
  intros (r & -> & Hb & Hz) H. unfold add_count. cbn [add_pure]. rewrite Hb, Hz.
  bdestr; cbn; lia.
Qed.

(** The effect of a successful allocation of [c, c + size). *)
Definition allocated (s s' : memblock) (c size : Z) : Prop :=
  exists t', s' = set_type s Reserved t' /\ added (reserved s) t' c (c + size) MAX_NUMNODES 0.

Lemma allocated_map s s' c size a :
  allocated s s' c size -> (forall b, c <= b < c + size -> attr_at (regions (reserved s)) b = None) ->
  attr_at (regions (reserved s')) a =
    if (c <=? a) && (a <? c + size) then Some (0, MAX_NUMNODES)
    else attr_at (regions (reserved s)) a.
Proof.
  intros (t' & -> & _ & Hat & _) Hfree. cbn [reserved set_type]. rewrite Hat.
  bdestr; cbn [andb]; try (by destruct (attr_at _ a)). by rewrite Hfree by lia.
Qed.

Lemma allocated_wf s s' c size : mb_wf s -> allocated s s' c size -> mb_wf s' /\ memory s' = memory s.
Proof.
  intros [Hm Hr [Hc1 Hc2]] (t' & -> & Hwf & _ & _ & Hmax & _). split; [|done].
  split; cbn; [done|done|]. split; cbn; [done|lia].
Qed.

(** memblock_reserve() of a free block succeeds while one entry is left. *)
Lemma reserve_free_block kernel_end s c size :
  mb_wf s -> t_cnt (reserved s) < t_max (reserved s) ->
  0 < c -> 0 < size -> c + size <= PHYS_ADDR_MAX ->
  (forall a, c <= a < c + size -> attr_at (regions (reserved s)) a = None) ->
  exists s', memblock_reserve kernel_end s c size = Ret (s', 0) /\ allocated s s' c size.
Proof.
  intros Hwf Hroom Hc Hsz Hend Hfree. unfold memblock_reserve, memblock_add_range.
  assert (Hre : range_end c size = c + size) by (unfold range_end; lia).
  destruct Hwf as [_ Hr _]. pose proof Hr as [Hs _ [_ Hl] _].
  assert (Hcnt : add_count (range_end c size) MAX_NUMNODES 0 (regions (reserved s)) c = 1).
  { rewrite Hre. destruct Hl as [Hp|Hp].
    - apply (add_count_free 0); done || lia.
    - apply add_count_placeholder; done || lia. }
  destruct (add_range_with_spec (memblock_double_array DOUBLE_FUEL kernel_end) s Reserved c size
    MAX_NUMNODES 0) as (t' & -> & Hadd); cbn [get_type]; try done; try (unfold PHYS_ADDR_MAX in *; ulia).
  exists (set_type s Reserved t'). split; [done|]. exists t'. split; [done|].
  by rewrite Hre in Hadd.
Qed.

(** ** One attempt *)

(** A request with the alignment argument resolved. *)
Definition effective_align (align : Z) : Z := if align =? 0 then SMP_CACHE_BYTES else align.

(** The block [c] answers a request for [size] bytes aligned to 2^k. *)
Definition good_block (s : memblock) (c size k start end_ nid flags : Z) : Prop :=
  (2 ^ k | c) /\ window_lo start <= c /\ c + size <= window_hi s start end_
  /\ free_block s nid flags c size.

(** What one find-and-reserve attempt does. *)
Definition attempt (s : memblock) (size k start end_ nid flags : Z) (s' : memblock) (r : option Z)
    : Prop :=
  match r with
  | None => s' = s /\ ~ some_block s (window_lo start) (window_hi s start end_) size k nid flags
  | Some c => c <> 0 /\ good_block s c size k start end_ nid flags /\ allocated s s' c size
  end.

Lemma free_block_unreserved s nid flags c size :
  free_block s nid flags c size ->
  forall a, c <= a < c + size -> attr_at (regions (reserved s)) a = None.
Proof. intros H a Ha. apply (H a Ha). Qed.

Lemma window_hi_max s kernel_end size k start end_ :
  request_ok s kernel_end size k start end_ -> window_hi s start end_ <= PHYS_ADDR_MAX.
Proof.
  intros [_ _ ? ? ? _]. unfold window_hi, window_lo, PAGE_SIZE, PAGE_SHIFT, PHYS_ADDR_MAX.
  destruct (_ =? _); ulia.
Qed.

Lemma try_reserve_spec kernel_end s size k start end_ nid flags :
  mb_wf s -> request_ok s kernel_end size k start end_ -> t_cnt (reserved s) < t_max (reserved s) ->
  exists s' r, try_reserve kernel_end s size (2 ^ k) start end_ nid flags = Ret (s', r)
    /\ attempt s size k start end_ nid flags s' r.
Proof.
  intros Hwf Hreq Hroom. unfold try_reserve.
  destruct (find_in_range_node_spec kernel_end s size k start end_ nid flags Hwf Hreq)
    as (c & -> & Hsound & Hcomplete). cbn [obind].
  destruct (Z.eqb_spec c 0) as [->|Hc]; [exists s, None; split; [done|split; auto]|].
  destruct (Hsound Hc) as (Hdiv & Hlo & Hhi & Hfree).
  pose proof (window_hi_max _ _ _ _ _ _ Hreq). pose proof (req_size _ _ _ _ _ _ Hreq).
  assert (0 < c) by (unfold window_lo, PAGE_SIZE, PAGE_SHIFT in Hlo; lia).
  destruct (reserve_free_block kernel_end s c size) as (s' & -> & Hall); try done; try lia.
  { by apply (free_block_unreserved s nid flags). }
  cbn [obind]. exists s', (Some c). done.
Qed.

Lemma alloc_range_nid_spec kernel_end s size align k start end_ nid flags :
  mb_wf s -> request_ok s kernel_end size k start end_ -> effective_align align = 2 ^ k ->
  t_cnt (reserved s) < t_max (reserved s) ->
  exists s' r, memblock_alloc_range_nid kernel_end s size align start end_ nid flags
                 = Ret (s', default 0 r)
    /\ attempt s size k start end_ nid flags s' r.
Proof.
  intros Hwf Hreq Hal Hroom. unfold memblock_alloc_range_nid.
  change (if align =? 0 then SMP_CACHE_BYTES else align) with (effective_align align). rewrite Hal.
  destruct (try_reserve_spec kernel_end s size k start end_ nid flags Hwf Hreq Hroom)
    as (s' & r & Hrun & Hatt). unfold try_reserve in Hrun.
  exists s', r. split; [|done].
  destruct (memblock_find_in_range_node _ _ _ _ _ _ _ _) as [c| |]; cbn [obind] in *; try done.
  destruct (c =? 0); [by inversion Hrun|].
  destruct (memblock_reserve _ _ _ _) as [[s1 e]| |]; cbn [obind] in *; try done.
  by destruct (e =? 0); inversion Hrun.
Qed.

(** ** The fallback ladder of memblock_alloc_internal *)

(** Dropping the node keeps every candidate. *)
Lemma some_block_any_node s lo hi size k nid flags :
  some_block s lo hi size k nid flags -> some_block s lo hi size k NUMA_NO_NODE flags.
Proof.
  intros (x & Hx & Hlo & Hhi & Hm & Hf). exists x. split_and!; try done.
  apply List.Exists_exists in Hm as (m & Hin & Hs & ? & ?). apply List.Exists_exists.
  exists m. split_and!; try done. unfold range_skips in *.
  change (fix_nid NUMA_NO_NODE) with NUMA_NO_NODE. rewrite Z.eqb_refl. cbn [negb andb].
  by repeat (apply orb_false_iff in Hs as [Hs ?]); rewrite ?H1, ?H2, ?H3.
Qed.

(** The block came from some rung of the ladder. *)
Definition ladder_block (s : memblock) (size k min_addr max_addr nid flags c : Z) : Prop :=
  exists min' nid' flags',
    (min' = min_addr \/ min' = 0) /\ (nid' = nid \/ nid' = NUMA_NO_NODE)
    /\ (flags' = flags \/ flags' = Z.land flags (Z.lnot MEMBLOCK_MIRROR))
    /\ good_block s c size k min' max_addr nid' flags'.

(** One round: the given node first, then any node. *)
Lemma alloc_round kernel_end s size k min_addr max_addr nid flags (K : memblock -> outcome (memblock * option Z)) :
  mb_wf s -> request_ok s kernel_end size k min_addr max_addr ->
  t_cnt (reserved s) < t_max (reserved s) ->
  let run :=
    let! (s1, a1) := try_reserve kernel_end s size (2 ^ k) min_addr max_addr nid flags in
    match a1 with
    | Some alloc => Ret (s1, Some alloc)
    | None =>
        let! (s2, a2) :=
          (if negb (nid =? NUMA_NO_NODE)
           then try_reserve kernel_end s1 size (2 ^ k) min_addr max_addr NUMA_NO_NODE flags
           else Ret (s1, None)) in
        match a2 with
        | Some alloc => Ret (s2, Some alloc)
        | None => K s2
        end
    end in
  (exists s' c nid', run = Ret (s', Some c) /\ (nid' = nid \/ nid' = NUMA_NO_NODE)
     /\ attempt s size k min_addr max_addr nid' flags s' (Some c))
  \/ (run = K s
      /\ ~ some_block s (window_lo min_addr) (window_hi s min_addr max_addr) size k NUMA_NO_NODE flags).
Proof.
  intros Hwf Hreq Hroom run. subst run.
  destruct (try_reserve_spec kernel_end s size k min_addr max_addr nid flags Hwf Hreq Hroom)
    as (s1 & [c|] & -> & H1); cbn [obind].
  { left. exists s1, c, nid. split_and!; auto. }
  destruct H1 as [-> Hno]. destruct (Z.eqb_spec nid NUMA_NO_NODE) as [->|Hn]; cbn [negb obind].
  { right. done. }
  destruct (try_reserve_spec kernel_end s size k min_addr max_addr NUMA_NO_NODE flags Hwf Hreq Hroom)
    as (s2 & [c|] & -> & H2); cbn [obind].
  { left. exists s2, c, NUMA_NO_NODE. split_and!; auto. }
  destruct H2 as [-> Hno2]. by right.
Qed.

Lemma mirror_clear flags :
  Z.land flags MEMBLOCK_MIRROR = 0 -> Z.land flags (Z.lnot MEMBLOCK_MIRROR) = flags.
Proof.
  intros H. apply Z.bits_inj'. intros n Hn. rewrite Z.land_spec, Z.lnot_spec by done.
  assert (Hb : Z.testbit (Z.land flags MEMBLOCK_MIRROR) n = false) by (rewrite H; apply Z.bits_0).
  rewrite Z.land_spec in Hb. destruct (Z.testbit flags n); [|done]. cbn [andb] in *. by rewrite Hb.
Qed.

Lemma mirror_cleared flags :
  Z.land (Z.land flags (Z.lnot MEMBLOCK_MIRROR)) MEMBLOCK_MIRROR = 0
  /\ Z.land (Z.land flags (Z.lnot MEMBLOCK_MIRROR)) (Z.lnot MEMBLOCK_MIRROR)
     = Z.land flags (Z.lnot MEMBLOCK_MIRROR).
Proof.
  assert (E : Z.land (Z.land flags (Z.lnot MEMBLOCK_MIRROR)) MEMBLOCK_MIRROR = 0).
  { rewrite <- Z.land_assoc, (Z.land_comm (Z.lnot _)), Z.land_lnot_diag. apply Z.land_0_r. }
  split; [done|]. by apply mirror_clear.
Qed.

(** Rounds the loop may still need. *)
Definition rounds (min_addr flags : Z) : nat :=
  1 + (if min_addr =? 0 then 0 else 1) + (if Z.land flags MEMBLOCK_MIRROR =? 0 then 0 else 1).

Definition ladder (s : memblock) (size k min_addr max_addr nid flags : Z) (s' : memblock) (r : option Z)
    : Prop :=
  match r with
  | None => s' = s
      /\ ~ some_block s (window_lo 0) (window_hi s 0 max_addr) size k NUMA_NO_NODE
             (Z.land flags (Z.lnot MEMBLOCK_MIRROR))
  | Some c => c <> 0 /\ ladder_block s size k min_addr max_addr nid flags c /\ allocated s s' c size
  end.

Lemma alloc_again_spec kernel_end fuel s size k min_addr max_addr nid flags :
  mb_wf s -> request_ok s kernel_end size k min_addr max_addr ->
  t_cnt (reserved s) < t_max (reserved s) -> (rounds min_addr flags <= fuel)%nat ->
  exists s' r, alloc_again kernel_end fuel s size (2 ^ k) min_addr max_addr nid flags = Ret (s', r)
    /\ ladder s size k min_addr max_addr nid flags s' r.
Proof.
  intros Hwf. revert min_addr flags. induction fuel as [|fuel IH]; intros min_addr flags Hreq Hroom Hf.
  { unfold rounds in Hf. lia. }
  cbn [alloc_again].
  destruct (alloc_round kernel_end s size k min_addr max_addr nid flags
    (fun s2 => if negb (min_addr =? 0) then alloc_again kernel_end fuel s2 size (2 ^ k) 0 max_addr nid flags
       else if negb (Z.land flags MEMBLOCK_MIRROR =? 0) then
         alloc_again kernel_end fuel s2 size (2 ^ k) min_addr max_addr nid
           (Z.land flags (Z.lnot MEMBLOCK_MIRROR))
       else Ret (s2, None)) Hwf Hreq Hroom) as [(s' & c & nid' & -> & Hn & ? & ? & ?)|[-> Hno]].
  { exists s', (Some c). split; [done|]. split_and!; try done. exists min_addr, nid', flags. auto. }
  unfold rounds in Hf. destruct (Z.eqb_spec min_addr 0) as [->|Hm]; cbn [negb].
  - destruct (Z.eqb_spec (Z.land flags MEMBLOCK_MIRROR) 0) as [Hz|Hz]; cbn [negb].
    { exists s, None. split; [done|]. split; [done|]. by rewrite mirror_clear. }
    destruct (mirror_cleared flags) as [E1 E2].
    destruct (IH 0 (Z.land flags (Z.lnot MEMBLOCK_MIRROR))) as (s' & r & Hrun & Hl); try done.
    { unfold rounds. rewrite E1. cbn in *. lia. }
    exists s', r. split; [done|]. destruct r as [c|]; cbn [ladder] in *; rewrite ?E2 in Hl; [|done].
    destruct Hl as (? & (m & n & f & ? & ? & Hf' & ?) & ?). split_and!; try done.
    exists m, n, f. split_and!; try done. rewrite E2 in Hf'. by right; destruct Hf'.
  - destruct (IH 0 flags) as (s' & r & Hrun & Hl).
    { by destruct Hreq; split. }
    { done. }
    { unfold rounds. cbn in *. lia. }
    exists s', r. split; [done|]. destruct r as [c|]; cbn [ladder] in *; [|done].
    destruct Hl as (? & (m & n & f & ? & ? & ? & ?) & ?). split_and!; try done.
    exists m, n, f. split_and!; try done. tauto.
Qed.
