(* ===== verification/MemblockRelease.v ===== *)
(** * Handing memory over to the page allocator

    The tail of mm/memblock.c: the page-frame iterator over the memory array
    and memblock_free_all(), which walks the reserved entries and the free
    ranges and calls into mm/page_alloc.c.  Those calls do not come back to
    memblock, so the model records them, in order, as [boot_event]s. *)

From stdpp Require Import base list numbers option.
From S2P Require Import Prelude Bitops Memblock MemblockOps MemblockSpec MemblockRemove MemblockIter.


(** ** Page-frame iteration *)

(** The [while (++*idx < type->cnt)] scan: [i] is the index after the
    increment, [todo] the entries from there on. *)
Fixpoint next_pfn_scan (todo : list memblock_region) (i nid : Z) : Z * option (Z * Z * Z) :=
  match todo with
  | [] => (-1, None)
  | r :: todo' =>
      if PFN_UP (r_base r) >=? PFN_DOWN (region_end r) then next_pfn_scan todo' (i + 1) nid
      else if (nid =? MAX_NUMNODES) || (nid =? r_nid r)
           then (i, Some (PFN_UP (r_base r), PFN_DOWN (region_end r), r_nid r))
           else next_pfn_scan todo' (i + 1) nid
  end.

Definition next_mem_pfn_range (s : memblock) (idx nid : Z) : Z * option (Z * Z * Z) :=
  next_pfn_scan (drop (Z.to_nat (idx + 1)) (regions (memory s))) (idx + 1) nid.

(** [for_each_mem_pfn_range(i, nid, ...)]: what the loop body sees. *)
Fixpoint pfn_ranges_loop (fuel : nat) (s : memblock) (idx nid : Z) : outcome (list (Z * Z * Z)) :=
  match fuel with
  | O => Stuck
  | S fuel' =>
      match next_mem_pfn_range s idx nid with
      | (i, Some r) => let! l := pfn_ranges_loop fuel' s i nid in Ret (r :: l)
      | (_, None) => Ret []
      end
  end.

Definition for_each_mem_pfn_range (s : memblock) (nid : Z) : outcome (list (Z * Z * Z)) :=
  pfn_ranges_loop (S (length (regions (memory s)))) s (-1) nid.

(** ** Calls into the page allocator *)

Inductive boot_event :=
  | ResetManaged                     (* reset_node_managed_pages() on every node *)
  | ReserveBootmem (start end_ : Z)  (* reserve_bootmem_region(start, end) *)
  | FreePages (pfn order : Z)        (* memblock_free_pages(page, pfn, order) *)
  | TotalramAdd (pages : Z).         (* totalram_pages_add(pages) *)

(** [while (start + (1UL << order) > end) order--;] *)
Fixpoint shrink_order (order : nat) (start end_ : Z) : outcome nat :=
  if start +64 2 ^ Z.of_nat order >? end_ then
    match order with
    | O => Stuck (* a negative shift count *)
    | S order' => shrink_order order' start end_
    end
  else Ret order.

(** The C expression [__ffs(0)] is undefined: the model is [Stuck] there. *)
Fixpoint free_pages_loop (fuel : nat) (start end_ : Z) : outcome (list boot_event) :=
  if start <? end_ then
    match fuel with
    | O => Stuck
    | S fuel' =>
        if start =? 0 then Stuck
        else
          let! order := shrink_order (Z.to_nat (Z.min (MAX_ORDER - 1) (__ffs start))) start end_ in
          let! l := free_pages_loop fuel' (start +64 2 ^ Z.of_nat order) end_ in
          Ret (FreePages start (Z.of_nat order) :: l)
    end
  else Ret [].

(** Every round frees at least one page. *)
Definition __free_pages_memory (start end_ : Z) : outcome (list boot_event) :=
  free_pages_loop (Z.to_nat (end_ - start)) start end_.

Definition __free_memory_core (s : memblock) (start end_ : Z) : outcome (list boot_event * Z) :=
  let max_low_pfn := PFN_DOWN (memblock_end_of_DRAM s) in
  let start_pfn := PFN_UP start in
  let end_pfn := Z.min (PFN_DOWN end_) max_low_pfn in
  if start_pfn >=? end_pfn then Ret ([], 0)
  else
    let! l := __free_pages_memory start_pfn end_pfn in
    Ret (l, end_pfn -64 start_pfn).

(** [for_each_reserved_mem_region(i, &start, &end)]. *)
Fixpoint reserved_loop (fuel : nat) (s : memblock) (idx : Z) : outcome (list (Z * Z)) :=
  match fuel with
  | O => Stuck
  | S fuel' =>
      match next_reserved_mem_region s idx with
      | (i, Some r) =>
          if i =? ULLONG_MAX then Ret []
          else let! l := reserved_loop fuel' s i in Ret (r :: l)
      | (_, None) => Ret []
      end
  end.

Definition for_each_reserved_mem_region (s : memblock) : outcome (list (Z * Z)) :=
  reserved_loop (S (length (regions (reserved s)))) s 0.

(** The body of the second loop, over the ranges it sees. *)
Fixpoint free_ranges_loop (s : memblock) (ranges : list mem_range) (count : Z)
    : outcome (list boot_event * Z) :=
  match ranges with
  | [] => Ret ([], count)
  | r :: ranges' =>
      let! (evs, n) := __free_memory_core s (mr_start r) (mr_end r) in
      let! (evs', count') := free_ranges_loop s ranges' (count +64 n) in
      Ret (evs ++ evs', count')
  end.

Definition free_low_memory_core_early (kernel_end : Z) (s : memblock)
    : outcome (memblock * list boot_event * Z) :=
  let! (s1, _) := memblock_clear_hotplug kernel_end s 0 ULLONG_MAX in
  let! res := for_each_reserved_mem_region s1 in
  let! ranges := for_each_free_mem_range s1 NUMA_NO_NODE MEMBLOCK_NONE in
  let! (frees, count) := free_ranges_loop s1 ranges 0 in
  Ret (s1, map (fun r => ReserveBootmem (fst r) (snd r)) res ++ frees, count).

(** [reset_managed_pages_done] is the static flag of
    reset_all_zones_managed_pages(). *)
Definition reset_all_zones_managed_pages (reset_managed_pages_done : bool) : list boot_event :=
  if reset_managed_pages_done then [] else [ResetManaged].

Definition memblock_free_all (kernel_end : Z) (reset_managed_pages_done : bool) (s : memblock)
    : outcome (memblock * list boot_event * Z) :=
  let! (s1, evs, pages) := free_low_memory_core_early kernel_end s in
  Ret (s1, reset_all_zones_managed_pages reset_managed_pages_done ++ evs ++ [TotalramAdd pages], pages).

(** [for (; cursor < end; cursor++)] with [n] pages left. *)
Fixpoint free_late_loop (n : nat) (cursor : Z) : list boot_event :=
  match n with
  | O => []
  | S n' => FreePages cursor 0 :: TotalramAdd 1 :: free_late_loop n' (cursor + 1)
  end.

Definition __memblock_free_late (base size : Z) : list boot_event :=
  let cursor := PFN_UP base in
  let end_ := PFN_DOWN (base +64 size) in
  free_late_loop (Z.to_nat (end_ - cursor)) cursor.

(** ** One range of page frames *)

(** A run of free calls tiles [start, end_): blocks are contiguous, aligned
    to their size, of an order the page allocator accepts, and each is the
    largest such block that fits. *)
Fixpoint tiles (start end_ : Z) (l : list boot_event) : Prop :=
  match l with
  | [] => start = end_
  | FreePages p o :: l' =>
      p = start /\ 0 <= o < MAX_ORDER /\ (2 ^ o | p) /\ p + 2 ^ o <= end_
      /\ (o + 1 < MAX_ORDER -> (2 ^ (o + 1) | p) -> end_ < p + 2 ^ (o + 1))
      /\ tiles (p + 2 ^ o) end_ l'
  | _ => False
  end.

Lemma pow2_divide_le i j x : 0 <= i <= j -> (2 ^ j | x) -> (2 ^ i | x).
Proof.
  intros Hij Hd. apply Z.divide_trans with (2 ^ j); [|done].
  exists (2 ^ (j - i)). rewrite <- Z.pow_add_r by lia. f_equal. lia.
Qed.

Lemma shrink_order_spec n start end_ :
  0 <= start < end_ -> end_ < 2 ^ 53 -> (n <= 10)%nat ->
  exists m, shrink_order n start end_ = Ret m /\ (m <= n)%nat
    /\ start + 2 ^ Z.of_nat m <= end_
    /\ ((m < n)%nat -> end_ < start + 2 ^ (Z.of_nat m + 1)).
Proof.
  intros Hs He. induction n as [|n IH]; intros Hn; unfold shrink_order; fold shrink_order.
  - change (2 ^ Z.of_nat 0) with 1. rewrite u64_id by ulia. rewrite Z.gtb_ltb.
    destruct (Z.ltb_spec end_ (start + 1)); [lia|]. exists O. split_and!; try done; lia.
  - assert (2 ^ Z.of_nat n <= 2 ^ 10) by (apply Z.pow_le_mono_r; lia).
    assert (0 < 2 ^ Z.of_nat n) by (apply Z.pow_pos_nonneg; lia).
    rewrite Nat2Z.inj_succ, Z.pow_succ_r in * by lia. rewrite u64_id by ulia. rewrite Z.gtb_ltb.
    destruct (Z.ltb_spec end_ (start + 2 * 2 ^ Z.of_nat n)).
    + destruct IH as (m & -> & ? & ? & Hmax); [lia|]. exists m. split_and!; try done; try lia.
      intros _. destruct (decide (m = n)) as [->|]; [|apply Hmax; lia].
      rewrite Z.pow_add_r by lia. lia.
    + exists (S n). rewrite Nat2Z.inj_succ, Z.pow_succ_r by lia. split_and!; try done; lia.
Qed.

Lemma free_pages_loop_spec fuel start end_ :
  0 < start <= end_ -> end_ < 2 ^ 53 -> end_ - start <= Z.of_nat fuel ->
  exists l, free_pages_loop fuel start end_ = Ret l /\ tiles start end_ l.
Proof.
  revert start. induction fuel as [|fuel IH]; intros start Hs He Hf;
    cbn [free_pages_loop]; destruct (Z.ltb_spec start end_); try lia;
    try (exists []; split; [done|cbn; lia]).
  destruct (Z.eqb_spec start 0); [lia|].
  destruct (__ffs_spec start) as (Ho & Hdiv & Hndiv); [lia|].
  destruct (shrink_order_spec (Z.to_nat (Z.min (MAX_ORDER - 1) (__ffs start))) start end_)
    as (m & -> & Hm & Hfit & Hmax); [lia|lia|unfold MAX_ORDER; lia|].
  unfold MAX_ORDER in *. cbn [obind].
  assert (0 < 2 ^ Z.of_nat m) by (apply Z.pow_pos_nonneg; lia).
  rewrite u64_id by ulia.
  destruct (IH (start + 2 ^ Z.of_nat m)) as (l & -> & Hl); [lia|lia|lia|].
  eexists. split; [done|]. cbn [tiles]. unfold MAX_ORDER. split_and!; try done; try lia.
  - apply (pow2_divide_le _ (__ffs start)); [lia|done].
  - intros Hm1 Hd. destruct (decide (m < Z.to_nat (Z.min (11 - 1) (__ffs start)))%nat); [auto|].
    exfalso. apply Hndiv. apply (pow2_divide_le _ (Z.of_nat m + 1)); [lia|done].
Qed.

(** The pages a run of events frees. *)
Definition frees_page (l : list boot_event) (p : Z) : Prop :=
  Exists (fun e => match e with FreePages q o => q <= p < q + 2 ^ o | _ => False end) l.

(** How many pages a run of events frees. *)
Fixpoint freed_count (l : list boot_event) : Z :=
  match l with
  | [] => 0
  | FreePages _ o :: l' => 2 ^ o + freed_count l'
  | _ :: l' => freed_count l'
  end.

Lemma tiles_pages start end_ l :
  tiles start end_ l -> forall p, frees_page l p <-> start <= p < end_.
Proof.
  revert start. induction l as [|[|rs re|q o|n] l IH]; intros start Ht p; try done.
  { cbn in Ht. split; [intros H; inversion H|lia]. }
  destruct Ht as (-> & Ho & _ & Hfit & _ & Ht).
  assert (0 < 2 ^ o) by (apply Z.pow_pos_nonneg; lia).
  unfold frees_page in *. rewrite Exists_cons, (IH _ Ht). lia.
Qed.

Lemma tiles_count start end_ l : tiles start end_ l -> freed_count l = end_ - start.
Proof.
  revert start. induction l as [|[|rs re|q o|n] l IH]; intros start Ht; try done; [cbn in *; lia|].
  destruct Ht as (-> & _ & _ & _ & _ & Ht). cbn [freed_count]. rewrite (IH _ Ht). lia.
Qed.

(** Free calls in ascending order of disjoint blocks, none below [lo]. *)
Fixpoint blocks_from (lo : Z) (l : list boot_event) : Prop :=
  match l with
  | [] => True
  | FreePages p o :: l' => lo <= p /\ 0 <= o < MAX_ORDER /\ (2 ^ o | p) /\ blocks_from (p + 2 ^ o) l'
  | _ => False
  end.

Lemma tiles_blocks lo start end_ l :
  lo <= start -> tiles start end_ l -> blocks_from lo l.
Proof.
  revert lo start. induction l as [|[|rs re|q o|n] l IH]; intros lo start Hlo Ht; try done.
  destruct Ht as (-> & Ho & Hd & _ & _ & Ht). cbn. split_and!; try done; try lia.
  by apply (IH _ (start + 2 ^ o)).
Qed.

Lemma blocks_from_tiles_app lo start end_ l1 l2 :
  lo <= start -> tiles start end_ l1 -> blocks_from end_ l2 -> blocks_from lo (l1 ++ l2).
Proof.
  revert lo start. induction l1 as [|[|rs re|q o|n] l1 IH]; intros lo start Hlo Ht Hb; try done.
  { cbn in *. subst. destruct l2 as [|[|rs re|q o|n] l2]; try done. cbn in *. split_and!; try tauto. lia. }
  destruct Ht as (-> & Ho & Hd & _ & _ & Ht). cbn. split_and!; try done; try lia.
  by apply (IH _ (start + 2 ^ o)).
Qed.

(** ** All free ranges *)

(** Physical addresses fit the 52 bits of the architecture, so adding a page
    to one cannot wrap. *)
Definition PHYS_LIMIT : Z := 2 ^ 52.

(** Page frame [p] lies wholly inside the range. *)
Definition page_in (r : mem_range) (p : Z) : Prop :=
  mr_start r <= p * PAGE_SIZE /\ (p + 1) * PAGE_SIZE <= mr_end r.

Lemma PFN_UP_le a p : 0 <= a <= PHYS_LIMIT -> PFN_UP a <= p <-> a <= p * PAGE_SIZE.
Proof.
  unfold PFN_UP, PAGE_SIZE, PAGE_SHIFT, PHYS_LIMIT. intros Ha.
  rewrite u64_id by ulia. rewrite Z.shiftr_div_pow2 by lia. change (2 ^ 12) with 4096.
  Z.to_euclidean_division_equations. lia.
Qed.

Lemma PFN_DOWN_gt e p : p < PFN_DOWN e <-> (p + 1) * PAGE_SIZE <= e.
Proof.
  unfold PFN_DOWN, PAGE_SIZE, PAGE_SHIFT. rewrite Z.shiftr_div_pow2 by lia.
  change (2 ^ 12) with 4096. Z.to_euclidean_division_equations. lia.
Qed.

(** A range the hand-over can process. *)
Record release_ok (s : memblock) (r : mem_range) : Prop := {
  rel_u64 : 0 <= mr_start r <= mr_end r;
  rel_limit : mr_end r <= PHYS_LIMIT;
  rel_dram : mr_start r < mr_end r -> mr_end r <= memblock_end_of_DRAM s;
  rel_first : mr_start r < mr_end r -> 0 < mr_start r
}.

Lemma free_memory_core_spec s r :
  release_ok s r ->
  exists l, __free_memory_core s (mr_start r) (mr_end r) = Ret (l, freed_count l)
    /\ (forall p, frees_page l p <-> page_in r p)
    /\ freed_count l * PAGE_SIZE <= mr_end r - mr_start r /\ 0 <= freed_count l
    /\ (l = [] \/ mr_start r < mr_end r /\ tiles (PFN_UP (mr_start r)) (PFN_DOWN (mr_end r)) l).
Proof.
  intros [Hu Hl Hd Hf]. unfold __free_memory_core.
  pose proof (PFN_UP_le (mr_start r) (PFN_UP (mr_start r)) ltac:(lia)) as HU.
  pose proof (PFN_DOWN_gt (mr_end r) (PFN_DOWN (mr_end r) - 1)) as HD.
  pose proof (PFN_DOWN_gt (mr_end r) (PFN_UP (mr_start r))) as HUD.
  set (sp := PFN_UP (mr_start r)) in *. set (ep := PFN_DOWN (mr_end r)) in *.
  assert (HP : PAGE_SIZE = 4096) by reflexivity. rewrite HP in *.
  assert (Hmin : sp < ep -> Z.min ep (PFN_DOWN (memblock_end_of_DRAM s)) = ep).
  { intros Hlt. apply Z.min_l. pose proof (PFN_DOWN_gt (memblock_end_of_DRAM s) (ep - 1)) as H.
    rewrite HP in H. lia. }
  rewrite Z.geb_leb. destruct (Z.ltb_spec sp ep) as [Hlt|Hge].
  - rewrite Hmin by done. destruct (Z.leb_spec ep sp); [lia|].
    assert (0 < sp). { pose proof (PFN_UP_le (mr_start r) 0 ltac:(lia)) as H0. fold sp in H0. lia. }
    unfold PHYS_LIMIT in *. destruct (free_pages_loop_spec (Z.to_nat (ep - sp)) sp ep) as (l & Hrun & Ht); [lia|lia|lia|].
    unfold __free_pages_memory. rewrite Hrun. cbn [obind].
    pose proof (tiles_count _ _ _ Ht) as Hc. rewrite u64_id by ulia. rewrite <- Hc.
    exists l. split; [done|]. split_and!; try lia.
    + intros p. rewrite (tiles_pages _ _ _ Ht). unfold page_in. rewrite HP.
      pose proof (PFN_UP_le (mr_start r) p ltac:(unfold PHYS_LIMIT; lia)) as H1.
      pose proof (PFN_DOWN_gt (mr_end r) p) as H2. rewrite HP in *. fold sp in H1. fold ep in H2. lia.
    + right. split; [lia|done].
  - destruct (Z.leb_spec (Z.min ep (PFN_DOWN (memblock_end_of_DRAM s))) sp); [|lia].
    exists []. split; [done|]. split_and!; cbn [freed_count]; try lia; [|by left].
    intros p. split; [intros H'; inversion H'|]. unfold page_in. rewrite HP. intros [H1 H2].
    pose proof (PFN_UP_le (mr_start r) p ltac:(lia)) as H3. pose proof (PFN_DOWN_gt (mr_end r) p) as H4.
    rewrite HP in *. fold sp in H3. fold ep in H4. lia.
Qed.

Lemma free_ranges_loop_spec s ranges : forall count,
  Forall (release_ok s) ranges -> ascending ranges -> 0 <= count * PAGE_SIZE <= PHYS_LIMIT ->
  (forall a, covered ranges a -> count * PAGE_SIZE <= a) ->
  exists l, free_ranges_loop s ranges count = Ret (l, count + freed_count l)
    /\ (forall p, frees_page l p <-> Exists (fun r => page_in r p) ranges)
    /\ (forall lo, (forall a, covered ranges a -> lo * PAGE_SIZE <= a) -> blocks_from lo l).
Proof.
  assert (HP : PAGE_SIZE = 4096) by reflexivity. unfold PHYS_LIMIT.
  induction ranges as [|r ranges IH]; intros count Hok Hasc Hc Hcov; cbn [free_ranges_loop].
  { exists []. split; [by rewrite Z.add_0_r|]. split; [|done]. intros p. split; intros H; inversion H. }
  inversion Hok as [|? ? Hr Hok']; subst. destruct Hasc as [Hnext Hasc'].
  destruct (free_memory_core_spec s r Hr) as (l & -> & Hpages & Hsz & Hnn & Hshape).
  destruct Hr as [Hu Hl _ _]. unfold PHYS_LIMIT in *. cbn [obind].
  assert (Hhead : mr_start r < mr_end r -> covered (r :: ranges) (mr_start r)).
  { intros Hlt. left. unfold in_mrange. lia. }
  assert (Htail : forall a, covered ranges a -> covered (r :: ranges) a) by (intros; by right).
  assert (Hn : 0 <= (count + freed_count l) * PAGE_SIZE <= 2 ^ 52).
  { destruct Hshape as [->|[Hlt _]]; [cbn [freed_count]; lia|].
    specialize (Hcov _ (Hhead Hlt)). lia. }
  rewrite u64_id by (rewrite HP in *; ulia).
  destruct (IH (count + freed_count l)) as (l' & -> & Hpages' & Hblk); try done.
  { intros a Ha. destruct Hshape as [->|[Hlt _]]; [cbn [freed_count]; rewrite Z.add_0_r; auto|].
    specialize (Hcov _ (Hhead Hlt)). specialize (Hnext a Ha). lia. }
  cbn [obind]. exists (l ++ l').
  assert (Hca : freed_count (l ++ l') = freed_count l + freed_count l').
  { clear. induction l as [|[|rs re|q o|n] l IH]; cbn; rewrite ?IH; lia. }
  split; [do 2 f_equal; lia|]. split.
  - intros p. unfold frees_page. rewrite Exists_app, Exists_cons. fold (frees_page l p) (frees_page l' p).
    by rewrite Hpages, Hpages'.
  - intros lo Hlo. destruct Hshape as [->|[Hlt Ht]]; [apply Hblk; auto|].
    apply (blocks_from_tiles_app lo (PFN_UP (mr_start r)) (PFN_DOWN (mr_end r))); [|done|].
    + pose proof (PFN_UP_le (mr_start r) (PFN_UP (mr_start r)) ltac:(unfold PHYS_LIMIT; lia)).
      specialize (Hlo _ (Hhead Hlt)). lia.
    + apply Hblk. intros a Ha. specialize (Hnext a Ha).
      pose proof (PFN_DOWN_gt (mr_end r) (PFN_DOWN (mr_end r) - 1)). lia.
Qed.

(** ** memblock_free_all *)

(** Address [a] is memory that the kernel may map and that nobody reserved. *)
Definition usable (s : memblock) (a : Z) : Prop :=
  (exists fl nid, attr_at (regions (memory s)) a = Some (fl, nid) /\ Z.land fl MEMBLOCK_NOMAP = 0)
  /\ attr_at (regions (reserved s)) a = None.

(** All of page [q] is usable memory. *)
Definition usable_page (s : memblock) (q : Z) : Prop :=
  forall a, q * PAGE_SIZE <= a < (q + 1) * PAGE_SIZE -> usable s a.
(** All of page [q] is memory of one node with one set of flags, apart from
    the hotplug flag, which is cleared before the walk. *)
Definition uniform_page (s : memblock) (q : Z) : Prop :=
  exists fl nid, forall a, q * PAGE_SIZE <= a < (q + 1) * PAGE_SIZE ->
    exists f, attr_at (regions (memory s)) a = Some (f, nid) /\ Z.land f (Z.lnot MEMBLOCK_HOTPLUG) = fl.

Lemma attr_at_region lo A a x :
  regions_from lo A ->
  attr_at A a = Some x <-> Exists (fun m => contains m a = true /\ (r_flags m, r_nid m) = x) A.
Proof.
  revert lo. induction A as [|m A IH]; intros lo HA; cbn [attr_at].
  { split; intros H; inversion H. }
  destruct HA as (? & ? & ? & HA). rewrite Exists_cons. destruct (contains m a) eqn:E.
  - split; [intros [=]; subst; auto|]. intros [[_ ->]|Hin]; [done|]. apply (IH _ HA) in Hin.
    exfalso. rewrite (attr_at_below _ _ _ HA) in Hin; [done|].
    unfold contains in E. apply andb_true_iff in E as [_ E%Z.ltb_lt]. done.
  - rewrite (IH _ HA). split; [auto|]. by intros [[? _]|?].
Qed.

Lemma free_at_usable s a :
  type_wf (memory s) ->
  free_at (regions (memory s)) (regions (reserved s)) (fix_nid NUMA_NO_NODE) MEMBLOCK_NONE a
  <-> usable s a.
Proof.
  intros [Hs _ _ _]. unfold free_at, usable.
  assert (Hskip : forall m, range_skips (fix_nid NUMA_NO_NODE) MEMBLOCK_NONE m = false
                            <-> Z.land (r_flags m) MEMBLOCK_NOMAP = 0).
  { intros m. unfold range_skips, memblock_is_nomap. cbn. destruct (Z.eqb_spec (Z.land (r_flags m) MEMBLOCK_NOMAP) 0);
      cbn; split; done. }
  rewrite List.Exists_exists. split.
  - intros [(m & Hin & Hm & Hc) Hr]. split; [|done]. exists (r_flags m), (r_nid m).
    split; [|by apply Hskip]. apply (attr_at_region 0 _ _ _ Hs). apply List.Exists_exists. eauto.
  - intros [(fl & nid & Hat & Hfl) Hr]. split; [|done].
    apply (attr_at_region 0 _ _ _ Hs) in Hat. apply List.Exists_exists in Hat as (m & Hin & Hc & [= <- <-]).
    exists m. rewrite Hskip. done.
Qed.

Lemma reserved_loop_S fuel s idx :
  reserved_loop (S fuel) s idx =
  match next_reserved_mem_region s idx with
  | (i, Some r) => if i =? ULLONG_MAX then Ret [] else let! l := reserved_loop fuel s i in Ret (r :: l)
  | (_, None) => Ret []
  end.
Proof. reflexivity. Qed.

Lemma reserved_loop_spec s : forall n i,
  (i + n = length (regions (reserved s)))%nat -> Z.of_nat (length (regions (reserved s))) < 2 ^ 31 ->
  reserved_loop (S n) s (Z.of_nat i) =
  Ret (map (fun r => (r_base r, u64 (r_base r + r_size r - 1))) (drop i (regions (reserved s)))).
Proof.
  induction n as [|n IH]; intros i Hi Hlen; rewrite reserved_loop_S;
    unfold next_reserved_mem_region, t_cnt; destruct (Z.ltb_spec (Z.of_nat i) (Z.of_nat (length (regions (reserved s))))); try lia.
  - rewrite drop_ge by lia. done.
  - rewrite region_at_ent, u64_id by ulia. unfold ULLONG_MAX.
    destruct (Z.eqb_spec (Z.of_nat i + 1) (U64_MOD - 1)); [ulia|].
    replace (Z.of_nat i + 1) with (Z.of_nat (S i)) by lia. rewrite IH by lia. cbn [obind]. f_equal.
    destruct (lookup_lt_is_Some_2 (regions (reserved s)) i ltac:(lia)) as [x Hx].
    rewrite (drop_S _ x i) by done. cbn [map]. unfold ent. by rewrite (nth_lookup_Some _ _ _ _ Hx).
Qed.

Lemma memblock_clear_hotplug_spec kernel_end s base size :
  mb_wf s -> is_u64 base -> 0 <= size -> t_cnt (memory s) + 2 <= t_max (memory s) ->
  exists t', memblock_clear_hotplug kernel_end s base size = Ret (set_type s Memory t', 0)
    /\ type_wf t' /\ minimal (regions t') /\ t_max t' = t_max (memory s)
    /\ (forall a, attr_at (regions t') a =
         if in_range base (range_end base size) a
         then (fun x => (Z.land (fst x) (Z.lnot MEMBLOCK_HOTPLUG), snd x)) <$> attr_at (regions (memory s)) a
         else attr_at (regions (memory s)) a).
Proof.
  intros [Hm _ _] Hb Hsz Hroom. unfold memblock_clear_hotplug, memblock_setclr_flag.
  destruct (update_range_spec (fun r => memblock_clear_region_flags r MEMBLOCK_HOTPLUG)
    (fun x => (Z.land (fst x) (Z.lnot MEMBLOCK_HOTPLUG), snd x))
    ltac:(done) ltac:(done) ltac:(done) kernel_end s Memory base size Hm Hb Hsz Hroom)
    as (t' & -> & Hwf & Hmin & Hat & Hmax & _).
  exists t'. by split_and!.
Qed.

(** Memory the hand-over can address: below the 52-bit limit. *)
Definition below_limit (s : memblock) : Prop :=
  forall a, is_Some (attr_at (regions (memory s)) a) -> a < PHYS_LIMIT.

(** Every memory entry ends at or below the end of DRAM. *)
Lemma ent_below_dram s i :
  type_wf (memory s) -> (i < length (regions (memory s)))%nat ->
  r_base (ent (regions (memory s)) i) + r_size (ent (regions (memory s)) i) <= memblock_end_of_DRAM s.
Proof.
  intros [Hs _ _ _] Hi. unfold memblock_end_of_DRAM, t_cnt. set (n := length (regions (memory s))) in *.
  replace (Z.of_nat n - 1) with (Z.of_nat (n - 1)) by lia. rewrite region_at_ent, ent_end by (done || lia).
  destruct (regions_from_ent 0 _ (n - 1) Hs ltac:(lia)) as (? & ? & ?).
  destruct (decide (i = (n - 1)%nat)) as [->|]; [lia|].
  pose proof (regions_from_order 0 _ i (n - 1) Hs ltac:(lia) ltac:(lia)). lia.
Qed.

Lemma clear_hotplug_nomap fl :
  Z.land (Z.land fl (Z.lnot MEMBLOCK_HOTPLUG)) MEMBLOCK_NOMAP = Z.land fl MEMBLOCK_NOMAP.
Proof. by rewrite <- Z.land_assoc. Qed.

Lemma usable_clear_hotplug s t' b e a :
  (forall a, attr_at (regions t') a =
     if in_range b e a
     then (fun x => (Z.land (fst x) (Z.lnot MEMBLOCK_HOTPLUG), snd x)) <$> attr_at (regions (memory s)) a
     else attr_at (regions (memory s)) a) ->
  usable (set_type s Memory t') a <-> usable s a.
Proof.
  intros Hat. unfold usable. cbn [set_type memory reserved]. rewrite Hat.
  destruct (in_range b e a); [|done].
  destruct (attr_at (regions (memory s)) a) as [[fl n]|] eqn:E; cbn; [|done].
  split; intros [(f & m & [= <- <-] & Hf) Hr]; (split; [|done]).
  - exists fl, n. split; [done|]. by rewrite <- clear_hotplug_nomap.
  - eexists _, _. split; [done|]. by rewrite clear_hotplug_nomap.
Qed.

(** Every range the walk reports lies inside one memory entry. *)
Lemma next_scan_b_inside fuel B ms me ia ib st en ia' ib' :
  next_scan_b fuel B ms me ia ib = ScanFound st en ia' ib' -> ms <= st /\ en <= me.
Proof.
  revert ib. induction fuel as [|fuel IH]; intros ib; cbn [next_scan_b]; [done|].
  destruct (_ >=? _); [done|]. destruct (_ <? _); [|apply IH].
  destruct (_ <=? _); intros [= <- <- _ _]; lia.
Qed.

Definition inside (A : list memblock_region) (r : mem_range) : Prop :=
  Exists (fun m => r_base m <= mr_start r /\ mr_end r <= region_end m) A.

Lemma next_scan_a_inside A B nid flags ia ib i r :
  next_scan_a A (Some B) nid flags ia ib = (i, Some r) -> inside A r.
Proof.
  revert ia ib. induction A as [|m A IH]; intros ia ib; cbn [next_scan_a]; [done|].
  destruct (range_skips nid flags m); [intros H; right; by eapply IH|].
  destruct (next_scan_b _ _ _ _ _ _) as [st en ia' ib'|ib'] eqn:E.
  - intros [= _ <-]. left. cbn. by eapply next_scan_b_inside.
  - intros H. right. by eapply IH.
Qed.

Lemma iterate_Forall (P : mem_range -> Prop) next :
  (forall i i' r, next i = (i', Some r) -> P r) ->
  forall fuel i l, iterate fuel next i = Ret l -> Forall P l.
Proof.
  intros HP. induction fuel as [|fuel IH]; intros i l; cbn [iterate]; [done|].
  destruct (next i) as [i' [r|]] eqn:E; [|intros [= <-]; constructor].
  destruct (i' =? ULLONG_MAX); [intros [= <-]; constructor|].
  intros H. run_inv H. injection H as <-. constructor; eauto.
Qed.

Lemma free_ranges_inside s nid flags l :
  for_each_free_mem_range s nid flags = Ret l -> Forall (inside (regions (memory s))) l.
Proof.
  apply iterate_Forall. intros i i' r. unfold next_mem_range. destruct (_ <? 0); [done|].
  intros H%next_scan_a_inside. unfold inside in *. apply List.Exists_exists in H as (m & Hin & Hm).
  apply List.Exists_exists. exists m. split; [|done].
  rewrite <- (take_drop (Z.to_nat (idx_a_of i)) (regions (memory s))). apply in_or_app. by right.
Qed.

(** Where memory ends. *)
Lemma region_end_limit s m :
  mb_wf s -> below_limit s -> In m (regions (memory s)) ->
  region_end m <= PHYS_LIMIT /\ region_end m <= memblock_end_of_DRAM s.
Proof.
  intros [Hm _ _] Hlim Hin. pose proof Hm as [Hs _ [Hne Hl] _].
  apply (In_nth _ _ dummy_region) in Hin as (i & Hi & Ei). fold (ent (regions (memory s)) i) in Ei. subst m.
  rewrite ent_end by done. destruct (regions_from_ent 0 _ i Hs Hi) as (? & ? & ?).
  split; [|by apply ent_below_dram].
  destruct (Z.eq_dec (r_size (ent (regions (memory s)) i)) 0) as [E|E].
  - destruct Hl as [Hp|(r & Er & Hb & Hz)].
    + unfold all_pos in Hp. rewrite List.Forall_forall in Hp.
      specialize (Hp (ent (regions (memory s)) i) (nth_In _ _ Hi)). lia.
    + rewrite Er in *. cbn in Hi. assert (i = O) as -> by lia. unfold ent in *. cbn in *.
      unfold PHYS_LIMIT. lia.
  - assert (r_base (ent (regions (memory s)) i) + r_size (ent (regions (memory s)) i) - 1 < PHYS_LIMIT); [|lia].
    apply Hlim. apply attr_at_ent. exists i. split; [done|]. unfold contains. bdestr; done || lia.
Qed.

Lemma ranges_release_ok s l :
  mb_wf s -> below_limit s -> ~ usable s 0 -> ranges_wf l -> Forall (inside (regions (memory s))) l ->
  (forall a, covered l a <-> usable s a) -> Forall (release_ok s) l.
Proof.
  intros Hwf Hlim H0 Hl Hin Hcov. unfold ranges_wf in Hl.
  rewrite List.Forall_forall in *. intros r Hr. destruct (Hl r Hr) as [Hu Hmax].
  destruct (proj1 (List.Exists_exists _ _) (Hin r Hr)) as (m & Hm & Hb & He).
  destruct (region_end_limit s m Hwf Hlim Hm) as [H1 H2].
  split; try lia. intros Hlt. destruct (Z.eq_dec (mr_start r) 0) as [E|]; [|lia].
  exfalso. apply H0. apply Hcov. apply List.Exists_exists. exists r. split; [done|]. unfold in_mrange. lia.
Qed.

(** ** Which pages the walk reaches *)

Lemma entry_at A a j : (j < length A)%nat -> contains (ent A j) a = true -> regions_from 0 A -> attr_at A a = Some (r_flags (ent A j), r_nid (ent A j)).
Proof. intros Hj Hc HA. apply (attr_at_region 0 _ _ _ HA), List.Exists_exists. exists (ent A j). split; [by apply nth_In|done]. Qed.
Lemma entry_unique A i j a : regions_from 0 A -> (i < length A)%nat -> (j < length A)%nat -> contains (ent A i) a = true -> contains (ent A j) a = true -> i = j.
Proof.
  intros HA Hi Hj. unfold contains. rewrite !andb_true_iff, !Z.leb_le, !Z.ltb_lt. intros ? ?. destruct (Nat.lt_trichotomy i j) as [L|[E|L]]; [|done|]; exfalso.
  - pose proof (regions_from_order 0 A i j HA L Hj). lia.
  - pose proof (regions_from_order 0 A j i HA L Hi). lia.
Qed.
Lemma minimal_neighbours rs i : minimal rs -> (S i < length rs)%nat -> ~ mergeable (ent rs i) (ent rs (S i)).
Proof.
  revert i. induction rs as [|r1 rs IH]; intros i Hm Hi; [cbn in Hi; lia|]. destruct rs as [|r2 rs]; [cbn in Hi; lia|]. destruct Hm as [Hn Hm].
  destruct i as [|i]; [done|]. apply (IH i Hm). cbn in *. lia.
Qed.

(** In a minimal array addresses with the same attributes are in one entry. *)
Lemma one_entry t x y v : type_wf t -> minimal (regions t) -> x < y -> (forall a, x <= a < y -> attr_at (regions t) a = Some v) ->
  exists j, (j < length (regions t))%nat /\ r_base (ent (regions t) j) <= x /\ y <= r_base (ent (regions t) j) + r_size (ent (regions t) j)
    /\ v = (r_flags (ent (regions t) j), r_nid (ent (regions t) j)).
Proof.
  intros [HA _ [_ Hlive] _] Hmin Hxy Hv. assert (Hfind : forall a, x <= a < y -> exists j, (j < length (regions t))%nat /\ contains (ent (regions t) j) a = true).
  { intros a Ha. apply attr_at_ent. rewrite Hv by done. eauto. }
  destruct (Hfind x ltac:(lia)) as (j & Hj & Hc). exists j. pose proof (entry_at _ _ _ Hj Hc HA) as Ej. rewrite Hv in Ej by lia. injection Ej as Ev.
  pose proof Hc as Hcx. unfold contains in Hcx. apply andb_true_iff in Hcx as [H1%Z.leb_le H2%Z.ltb_lt]. split_and!; try done.
  apply Z.nlt_ge. intros Hend. set (e := r_base (ent (regions t) j) + r_size (ent (regions t) j)) in *.
  destruct (Hfind e ltac:(lia)) as (i & Hi & Hce). pose proof (entry_at _ _ _ Hi Hce HA) as Ei. rewrite Hv in Ei by lia. injection Ei as Ei.
  unfold contains in Hce. apply andb_true_iff in Hce as [H3%Z.leb_le H4%Z.ltb_lt].
  assert (Hij : (j < i)%nat).
  { destruct (Nat.lt_trichotomy i j) as [L|[->|L]]; [|unfold e in *; lia|done]. pose proof (regions_from_order 0 _ i j HA L Hj). lia. }
  pose proof (regions_from_order 0 _ j i HA Hij Hi) as Hb. fold e in Hb. assert (Hpos : forall k, (k < length (regions t))%nat -> 0 < r_size (ent (regions t) k)).
  { intros k Hk. destruct Hlive as [Hp|(r & Er & _)]; [|rewrite Er in *; cbn in *; lia]. unfold all_pos in Hp. rewrite List.Forall_forall in Hp. apply Hp. by apply nth_In. }
  assert (i = S j) as ->.
  { destruct (decide (i = S j)) as [|Hne]; [done|]. exfalso. pose proof (regions_from_order 0 _ j (S j) HA ltac:(lia) ltac:(lia)). pose proof (regions_from_order 0 _ (S j) i HA ltac:(lia) Hi).
    pose proof (Hpos (S j) ltac:(lia)). fold e in H. lia. }
  apply (minimal_neighbours _ j Hmin Hi). destruct v as [f n]. injection Ev as ? ?. injection Ei as ? ?. unfold mergeable. fold e. split_and!; congruence || lia.
Qed.

(** A stretch of one entry that meets no reservation is inside one range. *)
Lemma range_of_page A B l nid flags x y j : regions_from 0 A -> regions_from 0 B -> (all_pos B \/ placeholder B) ->
  (forall a, covered l a <-> free_at A B nid flags a) -> Forall (maximal A B) l ->
  (j < length A)%nat -> range_skips nid flags (ent A j) = false -> r_base (ent A j) <= x -> x < y -> y <= r_base (ent A j) + r_size (ent A j) ->
  (forall a, x <= a < y -> attr_at B a = None) -> Exists (fun r => mr_start r <= x /\ y <= mr_end r) l.
Proof.
  intros HA HB Hlive Hcov Hmax Hj Hskip Hx Hxy Hy Hfree. pose proof (regions_from_ent 0 A j HA Hj) as (Hb0 & _ & Hb1).
  assert (Hcx : contains (ent A j) x = true) by (unfold contains; bdestr; done || lia).
  assert (Hc : covered l x).
  { apply Hcov. split; [|by apply Hfree; lia]. apply List.Exists_exists. exists (ent A j). split; [by apply nth_In|done]. }
  apply List.Exists_exists in Hc as (r & Hr & Hin). apply List.Exists_exists. exists r. split; [done|]. rewrite List.Forall_forall in Hmax.
  destruct (Hmax r Hr) as (i & k & Hi & Hk & Es & Ee). unfold in_mrange in Hin. rewrite Es, Ee in *.
  assert (i = j) as -> by (apply (entry_unique A i j x HA Hi Hj); [unfold contains; bdestr; done || lia|done]).
  split; [lia|]. apply Z.min_glb; [lia|]. apply Z.nlt_ge. intros Hge.
  destruct (decide (k = length B)) as [->|Hne]; [rewrite ge_last in Hge; lia|]. rewrite ge_lt in * by lia.
  destruct Hlive as [Hp|(q & -> & Hq0 & _)].
  - unfold all_pos in Hp. rewrite List.Forall_forall in Hp. specialize (Hp (ent B k) ltac:(apply nth_In; lia)).
    assert (Hs : is_Some (attr_at B (r_base (ent B k)))) by (apply attr_at_ent; exists k; split; [lia|unfold contains; bdestr; done || lia]).
    rewrite Hfree in Hs by lia. by destruct Hs.
  - cbn in Hk. assert (k = O) as -> by (cbn in Hne; lia). unfold ent in *. cbn in *. lia.
Qed.

Definition clear_hotplug (x : Z * Z) : Z * Z := (Z.land (fst x) (Z.lnot MEMBLOCK_HOTPLUG), snd x).
Lemma cleared_everywhere s rs : mb_wf s -> below_limit s ->
  (forall a, attr_at rs a = if in_range 0 (range_end 0 ULLONG_MAX) a then clear_hotplug <$> attr_at (regions (memory s)) a else attr_at (regions (memory s)) a) ->
  forall a, attr_at rs a = clear_hotplug <$> attr_at (regions (memory s)) a.
Proof.
  intros Hwf Hlim Hat a. rewrite Hat. destruct (in_range 0 _ a) eqn:E; [done|]. destruct (attr_at (regions (memory s)) a) eqn:Ea; [exfalso|done].
  assert (Hs : is_Some (attr_at (regions (memory s)) a)) by eauto. pose proof (Hlim a Hs) as Hl. pose proof Hs as (i & Hi & Hc)%attr_at_ent.
  pose proof (regions_from_ent 0 _ i (wf_sorted _ (wf_memory _ Hwf)) Hi). unfold contains in Hc. apply andb_true_iff in Hc as [H1%Z.leb_le H2%Z.ltb_lt].
  unfold in_range, range_end, PHYS_LIMIT, ULLONG_MAX, PHYS_ADDR_MAX, U64_MOD in *. apply andb_false_iff in E as [E%Z.leb_gt|E%Z.ltb_ge]; lia.
Qed.

Lemma walk_pages s s1 ranges p : mb_wf s1 -> minimal (regions (memory s1)) -> reserved s1 = reserved s ->
  (forall a, attr_at (regions (memory s1)) a = clear_hotplug <$> attr_at (regions (memory s)) a) -> (forall a, usable s1 a <-> usable s a) ->
  (forall a, covered ranges a <-> free_at (regions (memory s1)) (regions (reserved s1)) (fix_nid NUMA_NO_NODE) MEMBLOCK_NONE a) ->
  Forall (maximal (regions (memory s1)) (regions (reserved s1))) ranges -> Forall (inside (regions (memory s1))) ranges ->
  Exists (fun r => page_in r p) ranges <-> usable_page s p /\ uniform_page s p.
Proof.
  intros Hwf Hmin Er Hat Hus Hcov Hmax Hin. pose proof (wf_sorted _ (wf_memory _ Hwf)) as HA. pose proof (wf_sorted _ (wf_reserved _ Hwf)) as HB.
  assert (HP : 0 < PAGE_SIZE) by reflexivity. split.
  - intros (r & Hr & H1 & H2)%List.Exists_exists. split.
    + intros a Ha. apply Hus, (free_at_usable s1 a (wf_memory _ Hwf)), Hcov, List.Exists_exists. exists r. split; [done|]. unfold in_mrange. lia.
    + rewrite List.Forall_forall in Hin. destruct (proj1 (List.Exists_exists _ _) (Hin r Hr)) as (m & Hm & Hb & He).
      apply (In_nth _ _ dummy_region) in Hm as (j & Hj & Ej). fold (ent (regions (memory s1)) j) in Ej. subst m. rewrite ent_end in He by done.
      exists (r_flags (ent (regions (memory s1)) j)), (r_nid (ent (regions (memory s1)) j)). intros a Ha.
      assert (Hc : contains (ent (regions (memory s1)) j) a = true) by (unfold contains; bdestr; done || lia).
      pose proof (entry_at _ _ _ Hj Hc HA) as E. rewrite Hat in E. apply fmap_Some in E as ([f n] & Ea & E). injection E as E1 E2. exists f. subst n. done.
  - intros [Hu (fl & nid & Hun)]. set (x := p * PAGE_SIZE) in *. set (y := (p + 1) * PAGE_SIZE) in *. assert (Hxy : x < y) by (unfold x, y; lia).
    destruct (one_entry (memory s1) x y (fl, nid) (wf_memory _ Hwf) Hmin Hxy) as (j & Hj & Hbx & Hby & [= -> ->]).
    { intros a Ha. destruct (Hun a Ha) as (f & Ea & <-). by rewrite Hat, Ea. }
    apply (range_of_page (regions (memory s1)) (regions (reserved s1)) ranges (fix_nid NUMA_NO_NODE) MEMBLOCK_NONE x y j); try done.
    + apply (wf_live _ (wf_reserved _ Hwf)).
    + destruct (Hu x ltac:(lia)) as [(f & n & Ea & Hnm) _]. destruct (Hun x ltac:(lia)) as (f' & Ea' & Ef). rewrite Ea in Ea'. injection Ea' as <- _.
      unfold range_skips, memblock_is_nomap. cbn. rewrite <- Ef, <- Z.land_assoc, (Z.land_comm (Z.lnot _)), Z.land_assoc, Hnm. done.
    + intros a Ha. rewrite Er. by apply Hu.
Qed.

(** The free calls of the hand-over: a page is freed exactly when all of it is
    usable and of one kind. *)
Lemma free_all_spec kernel_end fl s :
  mb_wf s -> t_cnt (memory s) + 2 <= t_max (memory s) -> below_limit s -> ~ usable s 0 ->
  exists s1 frees,
    memblock_free_all kernel_end fl s
      = Ret (s1, reset_all_zones_managed_pages fl
                 ++ (map (fun r => ReserveBootmem (r_base r) (u64 (r_base r + r_size r - 1)))
                         (regions (reserved s)) ++ frees)
                 ++ [TotalramAdd (freed_count frees)], freed_count frees)
    /\ (forall p, frees_page frees p <-> usable_page s p /\ uniform_page s p)
    /\ blocks_from 0 frees.
Proof.
  intros Hwf Hroom Hlim H0. unfold memblock_free_all, free_low_memory_core_early.
  destruct (memblock_clear_hotplug_spec kernel_end s 0 ULLONG_MAX Hwf)
    as (t' & -> & Hwf' & Hmin & Hmax & Hat); [ulia|unfold ULLONG_MAX; ulia|done|].
  cbn [obind]. set (s1 := set_type s Memory t'). pose proof (fun a => usable_clear_hotplug s t' _ _ a Hat) as Hus.
  assert (Hwf1 : mb_wf s1).
  { destruct Hwf as [? ? [? ?]]. split; cbn; [done|done|]. split; cbn; lia. }
  assert (Hlim1 : below_limit s1).
  { intros a Ha. apply Hlim. cbn [s1 set_type memory] in Ha. rewrite Hat in Ha.
    destruct (in_range _ _ a); [|done]. by apply fmap_is_Some in Ha. }
  unfold for_each_reserved_mem_region. change (reserved s1) with (reserved s).
  destruct (mb_wf_lengths s Hwf) as [_ Hlr].
  pose proof (reserved_loop_spec s1 (length (regions (reserved s))) 0) as Hres.
  change (reserved s1) with (reserved s) in Hres. rewrite drop_0 in Hres.
  change (Z.of_nat 0) with 0 in Hres. rewrite Hres by (reflexivity || lia). cbn [obind].
  destruct (free_ranges_forward s1 NUMA_NO_NODE MEMBLOCK_NONE Hwf1) as (ranges & Hrun & Hl & Hasc & Hcov & Hall).
  assert (Hcov' : forall a, covered ranges a <-> usable s1 a).
  { intros a. rewrite Hcov. apply free_at_usable. done. }
  rewrite Hrun. cbn [obind].
  assert (H01 : ~ usable s1 0) by (intros Hu; apply H0; by apply Hus).
  pose proof (ranges_release_ok s1 ranges Hwf1 Hlim1 H01 Hl (free_ranges_inside _ _ _ _ Hrun) Hcov') as Hrel.
  assert (Hpos : forall a, covered ranges a -> 0 * PAGE_SIZE <= a).
  { intros a Ha. apply List.Exists_exists in Ha as (r & Hin & Hr1 & _). unfold ranges_wf in Hl.
    rewrite List.Forall_forall in Hl. destruct (Hl r Hin). lia. }
  destruct (free_ranges_loop_spec s1 ranges 0 Hrel Hasc) as (frees & -> & Hpages & Hblk);
    [unfold PHYS_LIMIT; lia|done|].
  cbn [obind]. rewrite Z.add_0_l. exists s1, frees. rewrite map_map. split_and!; try done; [|by apply Hblk].
  intros p. rewrite Hpages. apply (walk_pages s s1); try done; [by apply cleared_everywhere|by apply (free_ranges_inside s1 NUMA_NO_NODE MEMBLOCK_NONE)].
Qed.
