(* ===== verification/Board.v ===== *)
(** * A concrete machine

    The boot memory map on which the theorems of the memblock component and
    the hand-over are instantiated. *)

From stdpp Require Import base list numbers option.
From S2P Require Import Prelude Memblock MemblockOps MemblockSpec MemblockRemove MemblockIter MemblockFind MemblockRelease.

(** A machine with two banks of memory on two nodes and two reservations, one
    of them across the end of the first bank. *)
Definition memory_regions : list memblock_region :=
  [mk_region 0x1000 0xff000 0 0; mk_region 0x200000 0x200000 MEMBLOCK_HOTPLUG 1].
Definition reserved_regions : list memblock_region :=
  [mk_region 0x8000 0x1800 0 MAX_NUMNODES; mk_region 0xff000 0x3000 0 MAX_NUMNODES].
Definition board : memblock :=
  mk_memblock false 0x400000
    (mk_type 128 0x2ff000 memory_regions None)
    (mk_type 128 0x4800 reserved_regions None) false false.

Lemma board_wf : mb_wf board.
Proof.
  split; [split| split |split]; cbn; unfold PHYS_ADDR_MAX, U64_MOD; split_and?; try done; try lia.
  all: left; repeat constructor.
Qed.

Lemma board_request size k start end_ :
  0 < size < U64_MOD -> 0 <= k <= 63 -> is_u64 start -> is_u64 end_ ->
  request_ok board 0x80000 size k start end_.
Proof. intros. by split; cbn; [| | | |ulia|ulia]. Qed.

Lemma board_below : below_limit board.
Proof.
  intros a Ha. apply attr_at_ent in Ha as (i & Hi & Hc). cbn in Hi.
  assert (i = 0 \/ i = 1)%nat as [-> | ->] by lia; unfold contains, ent in Hc; cbn in Hc; unfold PHYS_LIMIT;
    apply andb_true_iff in Hc as [_ ?%Z.ltb_lt]; lia.
Qed.

