(* ===== verification/MemblockProps.v ===== *)
(** * The memblock component: theorems

    The promises of mm/memblock.c, stated on the operations the rest of the
    kernel calls, each with a concrete instance. *)

From stdpp Require Import base list numbers option.
From S2P Require Import Prelude Memblock MemblockOps MemblockSpec MemblockRemove MemblockIter MemblockFind.
From S2P Require Import MemblockFind MemblockRelease Board.


(** C10. Adding a range to an array that has room for the new entries always
    succeeds and refines the abstract map: every address that was mapped keeps
    its attributes, every other address of the (capped) range gets the given
    ones, nothing else appears; the array stays sorted, disjoint and minimal
    and its total size stays the sum of its entries. *)
Theorem memblock_add_range_refines (kernel_end : Z) (s : memblock) (w : which) (base size nid flags : Z) :
  type_wf (get_type s w) -> is_u64 base -> 0 <= size ->
  t_cnt (get_type s w)
    + add_count (range_end base size) nid flags (regions (get_type s w)) base <= t_max (get_type s w) ->
  exists t', memblock_add_range kernel_end s w base size nid flags = Ret (set_type s w t', 0)
    /\ added (get_type s w) t' base (range_end base size) nid flags.
Proof. apply add_range_with_spec. Qed.

Lemma memblock_add_range_refines_witness :
  exists t', memblock_add_range 0 board Memory 0x80000 0x200000 0 0 = Ret (set_type board Memory t', 0)
    /\ added (memory board) t' 0x80000 0x280000 0 0.
Proof.
  apply (memblock_add_range_refines 0 board Memory 0x80000 0x200000 0 0).
  - exact (wf_memory _ board_wf).
  - ulia.
  - lia.
  - vm_compute. discriminate.
Defined.

(** Removing a range from an array with two spare entries always succeeds:
    afterwards no address of the range is mapped, every other address keeps
    its attributes, and the array stays well formed (with the empty
    placeholder when nothing is left). *)
Theorem memblock_remove_range_refines (kernel_end : Z) (s : memblock) (w : which) (base size : Z) :
  type_wf (get_type s w) -> is_u64 base -> 0 <= size ->
  t_cnt (get_type s w) + 2 <= t_max (get_type s w) ->
  exists t', memblock_remove_range kernel_end s w base size = Ret (set_type s w t', 0)
    /\ removed (get_type s w) t' base (range_end base size).
Proof. apply remove_range_with_spec. Qed.

Lemma memblock_remove_range_refines_witness :
  exists t', memblock_remove_range 0 board Memory 0x2000 0x1000 = Ret (set_type board Memory t', 0)
    /\ removed (memory board) t' 0x2000 0x3000.
Proof.
  apply (memblock_remove_range_refines 0 board Memory 0x2000 0x1000).
  - exact (wf_memory _ board_wf).
  - ulia.
  - lia.
  - vm_compute. discriminate.
Defined.

(** The attribute map a flag update applies. *)
Definition setclr (set : bool) (flag : Z) (x : Z * Z) : Z * Z :=
  (if set then Z.lor (fst x) flag else Z.land (fst x) (Z.lnot flag), snd x).

(** Setting or clearing a flag on a range changes that flag on exactly the
    mapped addresses of the range, keeps every other attribute and address,
    and leaves the memory array merged to a minimal one. *)
Theorem memblock_setclr_flag_refines (kernel_end : Z) (s : memblock) (base size : Z) (set : bool) (flag : Z) :
  type_wf (memory s) -> is_u64 base -> 0 <= size -> t_cnt (memory s) + 2 <= t_max (memory s) ->
  exists t', memblock_setclr_flag kernel_end s base size set flag = Ret (set_type s Memory t', 0)
    /\ type_wf t' /\ minimal (regions t')
    /\ forall a, attr_at (regions t') a =
         if in_range base (range_end base size) a then setclr set flag <$> attr_at (regions (memory s)) a
         else attr_at (regions (memory s)) a.
Proof.
  intros Hwf Hb Hsz Hroom. unfold memblock_setclr_flag.
  destruct (update_range_spec (fun r => if set then memblock_set_region_flags r flag
       else memblock_clear_region_flags r flag) (setclr set flag)
       ltac:(by destruct set) ltac:(by destruct set) ltac:(by destruct set)
       kernel_end s Memory base size Hwf Hb Hsz Hroom) as (t' & Hrun & ? & ? & Hat & _).
  exists t'. split_and!; [exact Hrun|done|done|exact Hat].
Qed.

Lemma memblock_setclr_flag_refines_witness :
  exists t', memblock_setclr_flag 0 board 0x10000 0x300000 true MEMBLOCK_NOMAP
               = Ret (set_type board Memory t', 0)
    /\ type_wf t' /\ minimal (regions t')
    /\ forall a, attr_at (regions t') a =
         if in_range 0x10000 0x310000 a then setclr true MEMBLOCK_NOMAP <$> attr_at memory_regions a
         else attr_at memory_regions a.
Proof.
  apply (memblock_setclr_flag_refines 0 board 0x10000 0x300000 true MEMBLOCK_NOMAP).
  - exact (wf_memory _ board_wf).
  - ulia.
  - lia.
  - vm_compute. discriminate.
Defined.

(** Walking the free memory upwards terminates and reports, in ascending
    order and without overlap, exactly the addresses that lie in an admissible
    memory entry and in no reservation. *)
Theorem free_mem_range_walk (s : memblock) (nid flags : Z) :
  mb_wf s ->
  exists l, for_each_free_mem_range s nid flags = Ret l
    /\ ranges_wf l /\ ascending l
    /\ (forall a, covered l a
         <-> free_at (regions (memory s)) (regions (reserved s)) (fix_nid nid) flags a).
Proof. intros Hwf. destruct (free_ranges_forward s nid flags Hwf) as (l & ? & ? & ? & ? & _). by exists l. Qed.

Lemma free_mem_range_walk_witness :
  exists l, for_each_free_mem_range board NUMA_NO_NODE 0 = Ret l
    /\ ranges_wf l /\ ascending l
    /\ (forall a, covered l a <-> free_at memory_regions reserved_regions NUMA_NO_NODE 0 a).
Proof. exact (free_mem_range_walk board NUMA_NO_NODE 0 board_wf). Defined.

(** Walking the free memory downwards terminates and reports the same
    addresses in descending order. *)
Theorem free_mem_range_walk_reverse (s : memblock) (nid flags : Z) :
  mb_wf s ->
  exists l, for_each_free_mem_range_reverse s nid flags = Ret l
    /\ ranges_wf l /\ descending l
    /\ (forall a, covered l a
         <-> free_at (regions (memory s)) (regions (reserved s)) (fix_nid nid) flags a).
Proof.
  intros Hwf. destruct (free_ranges_reverse s nid flags Hwf) as (l & ? & ? & ? & ? & _). by exists l.
Qed.

Lemma free_mem_range_walk_reverse_witness :
  exists l, for_each_free_mem_range_reverse board 1 0 = Ret l
    /\ ranges_wf l /\ descending l
    /\ (forall a, covered l a <-> free_at memory_regions reserved_regions 1 0 a).
Proof. exact (free_mem_range_walk_reverse board 1 0 board_wf). Defined.

(** The range finder is sound and complete: a nonzero answer is an aligned
    block of free memory inside the clamped window, and zero means that no
    admissible memory entry holds such a block. *)
Theorem memblock_find_in_range_node_correct (kernel_end : Z) (s : memblock) (size k start end_ nid flags : Z) :
  mb_wf s -> request_ok s kernel_end size k start end_ ->
  exists c, memblock_find_in_range_node kernel_end s size (2 ^ k) start end_ nid flags = Ret c
    /\ (c <> 0 -> good_block s c size k start end_ nid flags)
    /\ (c = 0 -> ~ some_block s (window_lo start) (window_hi s start end_) size k nid flags).
Proof. apply find_in_range_node_spec. Qed.

Lemma memblock_find_in_range_node_correct_witness :
  exists c, memblock_find_in_range_node 0x80000 board 0x10000 0x1000 0 0 NUMA_NO_NODE 0 = Ret c
    /\ (c <> 0 -> good_block board c 0x10000 12 0 0 NUMA_NO_NODE 0)
    /\ (c = 0 -> ~ some_block board (window_lo 0) (window_hi board 0 0) 0x10000 12 NUMA_NO_NODE 0).
Proof.
  apply (memblock_find_in_range_node_correct 0x80000 board 0x10000 12 0 0 NUMA_NO_NODE 0).
  - exact board_wf.
  - apply board_request; ulia.
Defined.

(** The binary search terminates and finds the entry that contains the
    address, or answers -1 exactly when the address is not mapped. *)
Theorem memblock_search_correct (t : memblock_type) (addr : Z) :
  type_wf t -> t_max t < 2 ^ 31 ->
  exists z, memblock_search t addr = Ret z
    /\ ((z = -1 /\ attr_at (regions t) addr = None)
        \/ exists i, z = Z.of_nat i /\ (i < length (regions t))%nat
             /\ contains (ent (regions t) i) addr = true).
Proof. apply memblock_search_spec. Qed.

Lemma memblock_search_correct_witness :
  exists z, memblock_search (memory board) 0x300000 = Ret z
    /\ ((z = -1 /\ attr_at memory_regions 0x300000 = None)
        \/ exists i, z = Z.of_nat i /\ (i < length memory_regions)%nat
             /\ contains (ent memory_regions i) 0x300000 = true).
Proof.
  apply (memblock_search_correct (memory board) 0x300000).
  - exact (wf_memory _ board_wf).
  - vm_compute. reflexivity.
Defined.

(** C13. An allocation from a window, while the reserved array has a spare
    entry, either hands out an aligned block of the window that was free
    memory, which is afterwards reserved and is the only change to either
    array, or answers zero, changes nothing, and no such block existed. *)
Theorem memblock_alloc_range_nid_correct (kernel_end : Z) (s : memblock)
    (size align k start end_ nid flags : Z) :
  mb_wf s -> request_ok s kernel_end size k start end_ -> effective_align align = 2 ^ k ->
  t_cnt (reserved s) < t_max (reserved s) ->
  exists s' c, memblock_alloc_range_nid kernel_end s size align start end_ nid flags = Ret (s', c)
    /\ mb_wf s' /\ memory s' = memory s
    /\ ((c = 0 /\ s' = s
          /\ ~ some_block s (window_lo start) (window_hi s start end_) size k nid flags)
        \/ (c <> 0 /\ good_block s c size k start end_ nid flags
            /\ forall a, attr_at (regions (reserved s')) a =
                 if in_range c (c + size) a then Some (0, MAX_NUMNODES)
                 else attr_at (regions (reserved s)) a)).
Proof.
  intros Hwf Hreq Hal Hroom.
  destruct (alloc_range_nid_spec kernel_end s size align k start end_ nid flags Hwf Hreq Hal Hroom)
    as (s' & [c|] & Hrun & Hatt); exists s'; eexists; (split; [exact Hrun|]); cbn [default].
  - destruct Hatt as (Hc & Hgood & Hall). destruct (allocated_wf s s' c size Hwf Hall) as [? ?].
    split_and!; try done. right. split_and!; try done. intros a. apply (allocated_map s s' c size a Hall).
    destruct Hgood as (_ & _ & _ & Hf). by apply (free_block_unreserved s nid flags).
  - destruct Hatt as [-> Hno]. split_and!; try done. by left.
Qed.

Lemma memblock_alloc_range_nid_correct_witness :
  exists s' c, memblock_alloc_range_nid 0x80000 board 0x3000 0 0 0 NUMA_NO_NODE 0 = Ret (s', c)
    /\ mb_wf s' /\ memory s' = memory board
    /\ ((c = 0 /\ s' = board
          /\ ~ some_block board (window_lo 0) (window_hi board 0 0) 0x3000 6 NUMA_NO_NODE 0)
        \/ (c <> 0 /\ good_block board c 0x3000 6 0 0 NUMA_NO_NODE 0
            /\ forall a, attr_at (regions (reserved s')) a =
                 if in_range c (c + 0x3000) a then Some (0, MAX_NUMNODES)
                 else attr_at reserved_regions a)).
Proof.
  apply (memblock_alloc_range_nid_correct 0x80000 board 0x3000 0 6 0 0 NUMA_NO_NODE 0).
  - exact board_wf.
  - apply board_request; ulia.
  - reflexivity.
  - vm_compute. reflexivity.
Defined.

(** The fallback ladder of memblock_alloc_internal() (drop the node, then
    the lower bound, then the mirror requirement) ends after at most three
    rounds; a block it returns was free on some rung and is now reserved, and
    a failure means no rung had one and nothing changed. *)
Theorem memblock_alloc_internal_correct (kernel_end : Z) (s : memblock)
    (size align k min_addr max_addr nid : Z) :
  let limit := if max_addr >? current_limit s then current_limit s else max_addr in
  mb_wf s -> request_ok s kernel_end size k min_addr max_addr -> effective_align align = 2 ^ k ->
  t_cnt (reserved s) < t_max (reserved s) ->
  exists s' r, memblock_alloc_internal kernel_end s size align min_addr max_addr nid = Ret (s', r)
    /\ ladder s size k min_addr limit (fix_nid nid) (choose_memblock_flags s) s' r.
Proof.
  intros limit Hwf Hreq Hal Hroom. unfold memblock_alloc_internal.
  change (if align =? 0 then SMP_CACHE_BYTES else align) with (effective_align align). rewrite Hal.
  apply alloc_again_spec; try done.
  - destruct Hreq. split; try done. unfold limit. by destruct (_ >? _).
  - unfold rounds, choose_memblock_flags. destruct (min_addr =? 0), (system_has_some_mirror s); vm_compute; lia.
Qed.

Lemma memblock_alloc_internal_correct_witness :
  exists s' r, memblock_alloc_internal 0x80000 board 0x1000 0x1000 0x300000 0x900000 0 = Ret (s', r)
    /\ ladder board 0x1000 12 0x300000 0x400000 0 0 s' r.
Proof.
  apply (memblock_alloc_internal_correct 0x80000 board 0x1000 0x1000 12 0x300000 0x900000 0).
  - exact board_wf.
  - apply board_request; ulia.
  - reflexivity.
  - vm_compute. reflexivity.
Defined.

(** Freeing a block right after allocating it gives back the reservation
    map the allocation started from. *)
Theorem memblock_alloc_free_roundtrip (kernel_end : Z) (s s' : memblock)
    (size align k start end_ nid flags c : Z) :
  mb_wf s -> request_ok s kernel_end size k start end_ -> effective_align align = 2 ^ k ->
  t_cnt (reserved s) < t_max (reserved s) ->
  memblock_alloc_range_nid kernel_end s size align start end_ nid flags = Ret (s', c) -> c <> 0 ->
  t_cnt (reserved s') + 2 <= t_max (reserved s') ->
  exists s'', memblock_free kernel_end s' c size = Ret (s'', 0)
    /\ mb_wf s'' /\ memory s'' = memory s
    /\ forall a, attr_at (regions (reserved s'')) a = attr_at (regions (reserved s)) a.
Proof.
  intros Hwf Hreq Hal Hroom Hrun Hc Hroom'.
  destruct (alloc_range_nid_spec kernel_end s size align k start end_ nid flags Hwf Hreq Hal Hroom)
    as (s1 & r & Hrun' & Hatt). rewrite Hrun in Hrun'. injection Hrun' as <- ->.
  destruct r as [c|]; [|done]. change (default 0 (Some c)) with c in *. destruct Hatt as (_ & (Hd & Hlo & Hhi & Hf) & Hall).
  destruct (allocated_wf s s' c size Hwf Hall) as [Hwf' Hmem].
  pose proof (window_hi_max _ _ _ _ _ _ Hreq). pose proof (req_size _ _ _ _ _ _ Hreq).
  pose proof (free_block_unreserved s nid flags c size Hf) as Hun.
  assert (0 < c) by (unfold window_lo, PAGE_SIZE, PAGE_SHIFT in Hlo; lia).
  unfold memblock_free, memblock_remove_range.
  destruct (remove_range_with_spec (memblock_double_array DOUBLE_FUEL kernel_end) s' Reserved c size)
    as (t & -> & Hwt & Hat & Hmax & _); [apply Hwf'|unfold PHYS_ADDR_MAX in *; ulia|lia|done|].
  exists (set_type s' Reserved t). destruct Hwf' as [? ? [? ?]]. cbn [get_type] in *. split_and!; try done.
  - split; cbn; [done|done|]. split; cbn; lia.
  - intros a. cbn [set_type reserved]. rewrite Hat, (allocated_map s s' c size a Hall Hun).
    replace (range_end c size) with (c + size) by (unfold range_end; lia).
    unfold in_range. destruct ((c <=? a) && (a <? c + size)) eqn:E; [|done].
    symmetry. apply Hun. apply andb_true_iff in E as [?%Z.leb_le ?%Z.ltb_lt]. lia.
Qed.

(** The block the board's allocator hands out, and the state after. *)
Definition board_after : memblock :=
  set_type board Reserved
    (mk_type 128 0x7800 (reserved_regions ++ [mk_region 0x3fd000 0x3000 0 MAX_NUMNODES]) None).

Lemma memblock_alloc_free_roundtrip_witness :
  exists s'', memblock_free 0x80000 board_after 0x3fd000 0x3000 = Ret (s'', 0)
    /\ mb_wf s'' /\ memory s'' = memory board
    /\ forall a, attr_at (regions (reserved s'')) a = attr_at reserved_regions a.
Proof.
  apply (memblock_alloc_free_roundtrip 0x80000 board board_after 0x3000 0 6 0 0 NUMA_NO_NODE 0 0x3fd000).
  - exact board_wf.
  - apply board_request; ulia.
  - reflexivity.
  - vm_compute. reflexivity.
  - vm_compute. reflexivity.
  - done.
  - vm_compute. discriminate.
Defined.

(** When an addition needs more entries than the array has and arrays may
    not be resized yet, it fails with -ENOMEM and changes nothing. *)
Theorem memblock_add_range_enomem (kernel_end : Z) (s : memblock) (w : which) (base size nid flags : Z) :
  type_wf (get_type s w) -> ~ placeholder (regions (get_type s w)) -> is_u64 base -> 0 < size ->
  base < PHYS_ADDR_MAX -> memblock_can_resize s = false ->
  t_max (get_type s w)
    < t_cnt (get_type s w) + add_count (range_end base size) nid flags (regions (get_type s w)) base ->
  memblock_add_range kernel_end s w base size nid flags = Ret (s, - ENOMEM).
Proof.
  intros Hwf Hph Hb Hsz Hlt Hres Hfull. pose proof Hwf as [Hs _ _ Hroom].
  unfold memblock_add_range, memblock_add_range_with. rewrite cap_end_eq, cap_size_eq by (done || lia).
  destruct (Z.eqb_spec (Z.min size (PHYS_ADDR_MAX - base)) 0); [lia|].
  destruct (r_size (region_at (regions (get_type s w)) 0) =? 0) eqn:E.
  { by apply (live_first_zero _ Hwf) in E. }
  rewrite add_range_pass_unfold, (add_range_count 0) by (done || lia). cbn [obind]. rewrite Z.add_0_l.
  destruct (Z.eqb_spec (add_count (range_end base size) nid flags (regions (get_type s w)) base) 0); [lia|].
  unfold RESIZE_FUEL. cbn [resize_loop]. rewrite Z.gtb_ltb.
  destruct (Z.ltb_spec (t_max (get_type s w)) (t_cnt (get_type s w)
    + add_count (range_end base size) nid flags (regions (get_type s w)) base)); [|lia].
  unfold DOUBLE_FUEL. cbn [memblock_double_array]. unfold double_array_body. rewrite Hres. done.
Qed.

(** The board with its memory array full. *)
Definition board_full : memblock :=
  set_type board Memory (mk_type 2 0x2ff000 memory_regions None).

Lemma memblock_add_range_enomem_witness :
  memblock_add_range 0x80000 board_full Memory 0x800000 0x1000 0 0 = Ret (board_full, -12).
Proof.
  apply (memblock_add_range_enomem 0x80000 board_full Memory 0x800000 0x1000 0 0).
  - destruct (wf_memory _ board_wf) as [? ? ? ?]. by split.
  - by intros (r & [=] & _).
  - ulia.
  - lia.
  - unfold PHYS_ADDR_MAX. ulia.
  - reflexivity.
  - vm_compute. reflexivity.
Defined.

(** memblock_free_all() hands the free pages to the page allocator: the
    calls free pairwise disjoint, size-aligned blocks of a legal order in
    ascending order; a page is freed exactly when all of it is mapped,
    unreserved memory of one node with one set of flags; and the returned
    count, added to totalram, is the number of pages freed. *)
Theorem memblock_free_all_correct (kernel_end : Z) (reset_done : bool) (s : memblock) :
  mb_wf s -> t_cnt (memory s) + 2 <= t_max (memory s) -> below_limit s -> ~ usable s 0 ->
  exists s1 frees,
    memblock_free_all kernel_end reset_done s
      = Ret (s1, reset_all_zones_managed_pages reset_done
                 ++ (map (fun r => ReserveBootmem (r_base r) (u64 (r_base r + r_size r - 1)))
                         (regions (reserved s)) ++ frees)
                 ++ [TotalramAdd (freed_count frees)], freed_count frees)
    /\ blocks_from 0 frees
    /\ (forall p, frees_page frees p <-> usable_page s p /\ uniform_page s p).
Proof.
  intros Hwf Hroom Hlim H0. destruct (free_all_spec kernel_end reset_done s Hwf Hroom Hlim H0) as (s1 & frees & Hrun & Hpages & Hblk). by exists s1, frees.
Qed.

Lemma memblock_free_all_correct_witness :
  exists s1 frees,
    memblock_free_all 0x80000 false board
      = Ret (s1, [ResetManaged]
                 ++ ([ReserveBootmem 0x8000 0x97ff; ReserveBootmem 0xff000 0x101fff] ++ frees)
                 ++ [TotalramAdd (freed_count frees)], freed_count frees)
    /\ blocks_from 0 frees
    /\ (forall p, frees_page frees p <-> usable_page board p /\ uniform_page board p).
Proof.
  apply (memblock_free_all_correct 0x80000 false board).
  - exact board_wf.
  - vm_compute. discriminate.
  - exact board_below.
  - intros [(fl & nid & Hat & _) _]. vm_compute in Hat. discriminate.
Defined.

(** A nonempty range of page frames is cut into blocks that tile it from
    start to end, each aligned to its size, of order below MAX_ORDER, and each
    the largest block its position and the end of the range allow. *)
Theorem free_pages_memory_tiles (start end_ : Z) :
  0 < start <= end_ -> end_ < 2 ^ 53 ->
  exists l, __free_pages_memory start end_ = Ret l
    /\ tiles start end_ l /\ freed_count l = end_ - start
    /\ forall p, frees_page l p <-> start <= p < end_.
Proof.
  intros Hs He. destruct (free_pages_loop_spec (Z.to_nat (end_ - start)) start end_) as (l & Hrun & Ht);
    [done|done|lia|].
  exists l. split_and!; [done|done|by apply tiles_count|by apply tiles_pages].
Qed.

Lemma free_pages_memory_tiles_witness :
  exists l, __free_pages_memory 3 2053 = Ret l
    /\ tiles 3 2053 l /\ freed_count l = 2050 /\ forall p, frees_page l p <-> 3 <= p < 2053.
Proof. apply (free_pages_memory_tiles 3 2053); lia. Defined.

(** The blocks that the range [3, 2053) is cut into. *)
Example free_pages_memory_example :
  __free_pages_memory 3 2053 =
  Ret [FreePages 3 0; FreePages 4 2; FreePages 8 3; FreePages 16 4; FreePages 32 5; FreePages 64 6;
       FreePages 128 7; FreePages 256 8; FreePages 512 9; FreePages 1024 10; FreePages 2048 2;
       FreePages 2052 0].
Proof. vm_compute. reflexivity. Qed.

(** Assigning a node to a range changes the node of exactly the mapped
    addresses of the range in the chosen array and leaves it minimal. *)
Theorem memblock_set_node_refines (kernel_end : Z) (s : memblock) (w : which) (base size nid : Z) :
  type_wf (get_type s w) -> is_u64 base -> 0 <= size ->
  t_cnt (get_type s w) + 2 <= t_max (get_type s w) ->
  exists t', memblock_set_node kernel_end s base size w nid = Ret (set_type s w t', 0)
    /\ type_wf t' /\ minimal (regions t')
    /\ forall a, attr_at (regions t') a =
         if in_range base (range_end base size) a
         then (fun x => (fst x, nid)) <$> attr_at (regions (get_type s w)) a
         else attr_at (regions (get_type s w)) a.
Proof.
  intros Hwf Hb Hsz Hroom. unfold memblock_set_node.
  destruct (update_range_spec (fun r => memblock_set_region_node r nid) (fun x => (fst x, nid))
       ltac:(done) ltac:(done) ltac:(done)
       kernel_end s w base size Hwf Hb Hsz Hroom) as (t' & Hrun & ? & ? & Hat & _).
  by exists t'.
Qed.

Lemma memblock_set_node_refines_witness :
  exists t', memblock_set_node 0 board 0x250000 0x1000 Memory 0 = Ret (set_type board Memory t', 0)
    /\ type_wf t' /\ minimal (regions t')
    /\ forall a, attr_at (regions t') a =
         if in_range 0x250000 0x251000 a then (fun x => (fst x, 0)) <$> attr_at memory_regions a
         else attr_at memory_regions a.
Proof.
  apply (memblock_set_node_refines 0 board Memory 0x250000 0x1000 0).
  - exact (wf_memory _ board_wf).
  - ulia.
  - lia.
  - vm_compute. discriminate.
Defined.

(** memblock_trim_memory() shrinks an entry without adjusting total_size: from
    a well-formed state it reaches one whose total is not the sum. *)
Example memblock_trim_memory_stale_total :
  exists s', memblock_trim_memory board 0x10000 = Ret s'
    /\ total_size (memory s') = 0x2ff000 /\ sum_sizes (regions (memory s')) = 0x2f0000.
Proof. eexists. split; [vm_compute; reflexivity|]. split; vm_compute; reflexivity. Qed.
