(* ===== verification/Bitmap.v ===== *)
(** * Bitmaps

    lib/bitmap.c and the single-bit operations: setting and clearing ranges,
    Boolean operations on whole maps, shifts, counting, the search for an
    aligned zero area, and regions of a power of two.  A bitmap is the list of
    its words, [bit] of Bitops.v is its abstract view; writing past the end has
    no defined result ([Stuck]).  The operations on whole maps read the words of
    their sources before they write the word of the destination with the same
    index, so a destination that is also a source is passed twice. *)

From S2P Require Import Prelude Bitops.
From stdpp Require Import base list numbers option.
#[local] Open Scope Z_scope.
#[local] Open Scope kernel_scope.

Definition BITS_TO_LONGS (nr : Z) : Z := (nr + 63) / 64.
Definition BIT_WORD (nr : Z) : Z := nr / BITS_PER_LONG.
Definition BIT_MASK (nr : Z) : Z := Z.shiftl 1 (nr mod BITS_PER_LONG).

(** The word at [map + i] becomes [op] of itself and [mask]. *)
Definition word_op (op : Z -> Z -> Z) (map : list Z) (i mask : Z) : outcome (list Z) :=
  let! w := word map i in Ret (<[Z.to_nat i := op w mask]> map).

Definition or_mask (w mask : Z) : Z := Z.lor w mask.
Definition andnot_mask (w mask : Z) : Z := Z.land w (not64 mask).

Definition set_bit (nr : Z) (p : list Z) : outcome (list Z) := word_op or_mask p (BIT_WORD nr) (BIT_MASK nr).
Definition clear_bit (nr : Z) (p : list Z) : outcome (list Z) := word_op andnot_mask p (BIT_WORD nr) (BIT_MASK nr).
Definition test_bit (nr : Z) (addr : list Z) : outcome bool :=
  let! w := word addr (BIT_WORD nr) in
  Ret (negb (Z.land 1 (Z.shiftr w (Z.land nr (BITS_PER_LONG - 1))) =? 0)).

(** The loop that __bitmap_set() and __bitmap_clear() share, over their
    operation on a word. *)
Fixpoint range_loop (fuel : nat) (op : Z -> Z -> Z) (map : list Z) (p len bits mask size : Z)
  : outcome (list Z) :=
  if len - bits >=? 0 then
    match fuel with
    | O => Stuck
    | S fuel' =>
        let! map1 := word_op op map p mask in
        range_loop fuel' op map1 (p + 1) (len - bits) BITS_PER_LONG ULONG_MAX size
    end
  else if negb (len =? 0) then word_op op map p (Z.land mask (BITMAP_LAST_WORD_MASK size))
  else Ret map.

Definition range_op (op : Z -> Z -> Z) (map : list Z) (start len : Z) : outcome (list Z) :=
  range_loop (S (length map)) op map (BIT_WORD start) len (BITS_PER_LONG - start mod BITS_PER_LONG)
    (BITMAP_FIRST_WORD_MASK start) (u32 (start + len)).

Definition __bitmap_set (map : list Z) (start len : Z) : outcome (list Z) := range_op or_mask map start len.
Definition __bitmap_clear (map : list Z) (start len : Z) : outcome (list Z) := range_op andnot_mask map start len.

(** [memset(dst, byte, BITS_TO_LONGS(nbits) * sizeof(unsigned long))]. *)
Definition fill_words (w : Z) (dst : list Z) (nbits : Z) : outcome (list Z) :=
  let n := Z.to_nat (BITS_TO_LONGS nbits) in
  if decide (n <= length dst)%nat then Ret (replicate n w ++ drop n dst) else Stuck.
Definition bitmap_zero (dst : list Z) (nbits : Z) : outcome (list Z) := fill_words 0 dst nbits.
Definition bitmap_fill (dst : list Z) (nbits : Z) : outcome (list Z) := fill_words ULONG_MAX dst nbits.

(** [__ALIGN_MASK(x, mask)] on unsigned long. *)
Definition __ALIGN_MASK (x mask : Z) : Z := Z.land (u64 (x + mask)) (not64 mask).

(** [goto again] of bitmap_find_next_zero_area_off(). *)
Fixpoint zero_area_loop (fuel : nat) (map : list Z) (size start nr align_mask align_offset : Z) : outcome Z :=
  match fuel with
  | O => Stuck
  | S fuel' =>
      let! index0 := find_next_zero_bit map size start in
      let index := __ALIGN_MASK (index0 +64 align_offset) align_mask -64 align_offset in
      let e := index +64 nr in
      if e >? size then Ret e
      else
        let! i := find_next_bit map e index in
        if i <? e then zero_area_loop fuel' map size (i +64 1) nr align_mask align_offset
        else Ret index
  end.
Definition bitmap_find_next_zero_area_off (map : list Z) (size start nr align_mask align_offset : Z) : outcome Z :=
  zero_area_loop (S (64 * length map)) map size start nr align_mask align_offset.
Definition bitmap_find_next_zero_area (map : list Z) (size start nr align_mask : Z) : outcome Z :=
  bitmap_find_next_zero_area_off map size start nr align_mask 0.

(** lib/hweight.c, with CONFIG_ARCH_HAS_FAST_MULTIPLIER. *)
Definition __sw_hweight64 (w : Z) : Z :=
  let w1 := w -64 Z.land (Z.shiftr w 1) 0x5555555555555555 in
  let w2 := Z.land w1 0x3333333333333333 +64 Z.land (Z.shiftr w1 2) 0x3333333333333333 in
  let w3 := Z.land (w2 +64 Z.shiftr w2 4) 0x0f0f0f0f0f0f0f0f in
  Z.shiftr (w3 *64 0x0101010101010101) 56.
Definition hweight_long (w : Z) : Z := __sw_hweight64 w.

(** [for (k = 0; k < lim; k++) w += hweight_long(bitmap[k])], from [k] on for
    [n] words. *)
Fixpoint weight_loop (n : nat) (bitmap : list Z) (k w : Z) : outcome Z :=
  match n with
  | O => Ret w
  | S n' => let! x := word bitmap k in weight_loop n' bitmap (k + 1) (w + hweight_long x)
  end.
Definition __bitmap_weight (bitmap : list Z) (bits : Z) : outcome Z :=
  let lim := bits / BITS_PER_LONG in
  let! w := weight_loop (Z.to_nat lim) bitmap 0 0 in
  if negb (bits mod BITS_PER_LONG =? 0) then
    let! x := word bitmap lim in Ret (w + hweight_long (Z.land x (BITMAP_LAST_WORD_MASK bits)))
  else Ret w.

(** ** Boolean operations on whole maps *)

(** [for (k = 0; k < n; k++) dst[k] = op(bitmap1[k], bitmap2[k])]. *)
Fixpoint map2_loop (n : nat) (op : Z -> Z -> Z) (dst a b : list Z) (k : Z) : outcome (list Z) :=
  match n with
  | O => Ret dst
  | S n' =>
      let! x := word a k in
      let! y := word b k in
      let! _ := word dst k in
      map2_loop n' op (<[Z.to_nat k := op x y]> dst) a b (k + 1)
  end.

Definition __bitmap_or (dst a b : list Z) (bits : Z) : outcome (list Z) :=
  map2_loop (Z.to_nat (BITS_TO_LONGS bits)) Z.lor dst a b 0.
Definition __bitmap_xor (dst a b : list Z) (bits : Z) : outcome (list Z) :=
  map2_loop (Z.to_nat (BITS_TO_LONGS bits)) Z.lxor dst a b 0.
Definition __bitmap_complement (dst src : list Z) (bits : Z) : outcome (list Z) :=
  map2_loop (Z.to_nat (BITS_TO_LONGS bits)) (fun x _ => not64 x) dst src src 0.

(** [for (k = 0; k < lim; k++) result |= (dst[k] = op(bitmap1[k], bitmap2[k]))]. *)
Fixpoint any_loop (n : nat) (op : Z -> Z -> Z) (dst a b : list Z) (k result : Z) : outcome (list Z * Z) :=
  match n with
  | O => Ret (dst, result)
  | S n' =>
      let! x := word a k in
      let! y := word b k in
      let! _ := word dst k in
      any_loop n' op (<[Z.to_nat k := op x y]> dst) a b (k + 1) (Z.lor result (op x y))
  end.
Definition masked_op (op : Z -> Z -> Z) (dst a b : list Z) (bits : Z) : outcome (list Z * bool) :=
  let lim := bits / BITS_PER_LONG in
  let! (dst1, result) := any_loop (Z.to_nat lim) op dst a b 0 0 in
  if negb (bits mod BITS_PER_LONG =? 0) then
    let! x := word a lim in
    let! y := word b lim in
    let! _ := word dst1 lim in
    let v := Z.land (op x y) (BITMAP_LAST_WORD_MASK bits) in
    Ret (<[Z.to_nat lim := v]> dst1, negb (Z.lor result v =? 0))
  else Ret (dst1, negb (result =? 0)).
Definition __bitmap_and (dst a b : list Z) (bits : Z) : outcome (list Z * bool) := masked_op Z.land dst a b bits.
Definition __bitmap_andnot (dst a b : list Z) (bits : Z) : outcome (list Z * bool) := masked_op andnot_mask dst a b bits.

(** The comparisons: the first word on which [test] is nonzero decides. *)
Fixpoint test_loop (n : nat) (test : Z -> Z -> Z) (a b : list Z) (k : Z) : outcome bool :=
  match n with
  | O => Ret false
  | S n' =>
      let! x := word a k in
      let! y := word b k in
      if negb (test x y =? 0) then Ret true else test_loop n' test a b (k + 1)
  end.
Definition word_test (test : Z -> Z -> Z) (a b : list Z) (bits : Z) : outcome bool :=
  let lim := bits / BITS_PER_LONG in
  let! found := test_loop (Z.to_nat lim) test a b 0 in
  if found then Ret true
  else if negb (bits mod BITS_PER_LONG =? 0) then
    let! x := word a lim in
    let! y := word b lim in
    Ret (negb (Z.land (test x y) (BITMAP_LAST_WORD_MASK bits) =? 0))
  else Ret false.
Definition __bitmap_equal (a b : list Z) (bits : Z) : outcome bool :=
  let! d := word_test Z.lxor a b bits in Ret (negb d).
Definition __bitmap_intersects (a b : list Z) (bits : Z) : outcome bool := word_test Z.land a b bits.
Definition __bitmap_subset (a b : list Z) (bits : Z) : outcome bool :=
  let! d := word_test andnot_mask a b bits in Ret (negb d).

Definition bitmap_empty (src : list Z) (nbits : Z) : outcome bool :=
  let! r := find_first_bit src nbits in Ret (r =? nbits).
Definition bitmap_full (src : list Z) (nbits : Z) : outcome bool :=
  let! r := find_first_zero_bit src nbits in Ret (r =? nbits).

(** ** Shifts

    [src] is [None] when it is the array [dst] itself. *)

Definition src_word (dst : list Z) (src : option (list Z)) (i : Z) : outcome Z :=
  word (match src with Some s => s | None => dst end) i.

Definition set_word (dst : list Z) (i w : Z) : outcome (list Z) :=
  let! _ := word dst i in Ret (<[Z.to_nat i := w]> dst).

(** The words [i, i + n) become zero. *)
Fixpoint zero_words (n : nat) (dst : list Z) (i : Z) : outcome (list Z) :=
  match n with
  | O => Ret dst
  | S n' => let! dst1 := set_word dst i 0 in zero_words n' dst1 (i + 1)
  end.

(** [for (k = 0; off + k < lim; ++k)] of __bitmap_shift_right(), [n] rounds. *)
Fixpoint shift_right_loop (n : nat) (dst : list Z) (src : option (list Z)) (k off rem lim mask : Z)
  : outcome (list Z) :=
  match n with
  | O => Ret dst
  | S n' =>
      let! upper :=
        if (rem =? 0) || (off + k + 1 >=? lim) then Ret 0
        else
          let! u := src_word dst src (off + k + 1) in
          let u1 := if off + k + 1 =? lim - 1 then Z.land u mask else u in
          Ret (u64 (Z.shiftl u1 (BITS_PER_LONG - rem))) in
      let! l := src_word dst src (off + k) in
      let l1 := if off + k =? lim - 1 then Z.land l mask else l in
      let! dst1 := set_word dst k (Z.lor (Z.shiftr l1 rem) upper) in
      shift_right_loop n' dst1 src (k + 1) off rem lim mask
  end.
Definition __bitmap_shift_right (dst : list Z) (src : option (list Z)) (shift nbits : Z) : outcome (list Z) :=
  let lim := BITS_TO_LONGS nbits in
  let off := shift / BITS_PER_LONG in
  let! dst1 := shift_right_loop (Z.to_nat (lim - off)) dst src 0 off (shift mod BITS_PER_LONG) lim
                 (BITMAP_LAST_WORD_MASK nbits) in
  if negb (off =? 0) then
    if lim <? off then Stuck else zero_words (Z.to_nat off) dst1 (lim - off)
  else Ret dst1.

(** [for (k = lim - off - 1; k >= 0; --k)] of __bitmap_shift_left(): the
    round for [k] is made with [n = k + 1]. *)
Fixpoint shift_left_loop (n : nat) (dst : list Z) (src : option (list Z)) (off rem : Z) : outcome (list Z) :=
  match n with
  | O => Ret dst
  | S n' =>
      let k := Z.of_nat n' in
      let! lower :=
        if negb (rem =? 0) && (0 <? k) then
          let! l := src_word dst src (k - 1) in Ret (Z.shiftr l (BITS_PER_LONG - rem))
        else Ret 0 in
      let! u := src_word dst src k in
      let upper := u64 (Z.shiftl u rem) in
      let! dst1 := set_word dst (k + off) (Z.lor lower upper) in
      shift_left_loop n' dst1 src off rem
  end.
Definition __bitmap_shift_left (dst : list Z) (src : option (list Z)) (shift nbits : Z) : outcome (list Z) :=
  let lim := BITS_TO_LONGS nbits in
  let off := shift / BITS_PER_LONG in
  let! dst1 := shift_left_loop (Z.to_nat (lim - off)) dst src off (shift mod BITS_PER_LONG) in
  if negb (off =? 0) then zero_words (Z.to_nat off) dst1 0 else Ret dst1.

(** ** Regions of a power of two *)

Inductive reg_op : Type := REG_OP_ISFREE | REG_OP_ALLOC | REG_OP_RELEASE.

Fixpoint reg_isfree_loop (n : nat) (bitmap : list Z) (i mask : Z) : outcome bool :=
  match n with
  | O => Ret true
  | S n' =>
      let! w := word bitmap i in
      if negb (Z.land w mask =? 0) then Ret false else reg_isfree_loop n' bitmap (i + 1) mask
  end.
Fixpoint reg_update_loop (n : nat) (op : Z -> Z -> Z) (bitmap : list Z) (i mask : Z) : outcome (list Z) :=
  match n with
  | O => Ret bitmap
  | S n' => let! b1 := word_op op bitmap i mask in reg_update_loop n' op b1 (i + 1) mask
  end.

Definition __reg_op (bitmap : list Z) (pos order : Z) (op : reg_op) : outcome (list Z * bool) :=
  let nbits_reg := Z.shiftl 1 order in
  let index := pos / BITS_PER_LONG in
  let offset := pos - index * BITS_PER_LONG in
  let nlongs_reg := Z.to_nat (BITS_TO_LONGS nbits_reg) in
  let nbitsinlong := Z.min nbits_reg BITS_PER_LONG in
  let mask0 := Z.shiftl 1 (nbitsinlong - 1) in
  let mask := u64 (Z.shiftl (u64 (mask0 + (mask0 - 1))) offset) in
  match op with
  | REG_OP_ISFREE => let! f := reg_isfree_loop nlongs_reg bitmap index mask in Ret (bitmap, f)
  | REG_OP_ALLOC => let! b := reg_update_loop nlongs_reg or_mask bitmap index mask in Ret (b, false)
  | REG_OP_RELEASE => let! b := reg_update_loop nlongs_reg andnot_mask bitmap index mask in Ret (b, false)
  end.

Definition ENOMEM : Z := 12.
Definition EBUSY : Z := 16.

Fixpoint find_region_loop (fuel : nat) (bitmap : list Z) (pos bits order : Z) : outcome (list Z * Z) :=
  let e := u32 (pos + Z.shiftl 1 order) in
  if e <=? bits then
    match fuel with
    | O => Stuck
    | S fuel' =>
        let! (_, f) := __reg_op bitmap pos order REG_OP_ISFREE in
        if negb f then find_region_loop fuel' bitmap e bits order
        else let! (b, _) := __reg_op bitmap pos order REG_OP_ALLOC in Ret (b, pos)
    end
  else Ret (bitmap, - ENOMEM).
Definition bitmap_find_free_region (bitmap : list Z) (bits order : Z) : outcome (list Z * Z) :=
  find_region_loop (S (64 * length bitmap)) bitmap 0 bits order.
Definition bitmap_release_region (bitmap : list Z) (pos order : Z) : outcome (list Z) :=
  let! (b, _) := __reg_op bitmap pos order REG_OP_RELEASE in Ret b.
Definition bitmap_allocate_region (bitmap : list Z) (pos order : Z) : outcome (list Z * Z) :=
  let! (_, f) := __reg_op bitmap pos order REG_OP_ISFREE in
  if negb f then Ret (bitmap, - EBUSY)
  else let! (b, r) := __reg_op bitmap pos order REG_OP_ALLOC in Ret (b, 0).
