(* ===== verification/BitmapSpec.v ===== *)
(** * Bitmap operations against the bits they name

    Each operation of Bitmap.v is proved against the abstract view [bit] of a
    map: what every bit is afterwards, and that no word outside the map is
    touched. *)

From S2P Require Import Prelude Bitops Bitmap.
From stdpp Require Import base list numbers option.
#[local] Open Scope Z_scope.
#[local] Open Scope kernel_scope.

(** A map and its length in bits, all of whose words may be used. *)
Abbreviation bm_all map := (Forall is_u64 map).

Lemma word_ret map i : 0 <= i < Z.of_nat (length map) -> exists w, word map i = Ret w /\ map !! Z.to_nat i = Some w.
Proof.
  intros Hi. unfold word. destruct (lookup_lt_is_Some_2 map (Z.to_nat i)) as [w Hw]; [lia|].
  rewrite Hw. eauto.
Qed.

Lemma bm_word map i w : bm_all map -> map !! i = Some w -> is_u64 w.
Proof. intros H Hi. exact (Forall_lookup_1 _ _ _ _ H Hi). Qed.

(** Bit [i] after word [k] became [w]. *)
Lemma bit_insert map k w i : 0 <= k < Z.of_nat (length map) -> 0 <= i ->
  bit (<[Z.to_nat k := w]> map) i = if i / 64 =? k then Z.testbit w (i mod 64) else bit map i.
Proof.
  intros Hk Hi. unfold bit. pose proof (Z.div_pos i 64 Hi ltac:(lia)). destruct (Z.eqb_spec (i / 64) k) as [<-|Hne].
  - by rewrite list_lookup_insert_eq by lia.
  - rewrite list_lookup_insert_ne by lia. done.
Qed.

(** ** Word operations that set the bits of a mask to [v] *)

Record masks (op : Z -> Z -> Z) (v : bool) : Prop := {
  mk_u64 : forall w m, is_u64 w -> is_u64 m -> is_u64 (op w m);
  mk_bit : forall w m i, is_u64 w -> 0 <= i < 64 ->
    Z.testbit (op w m) i = if Z.testbit m i then v else Z.testbit w i
}.

Lemma is_u64_lor a b : is_u64 a -> is_u64 b -> is_u64 (Z.lor a b).
Proof.
  intros Ha Hb. apply is_u64_bits; [apply Z.lor_nonneg; split; [apply Ha|apply Hb]|].
  intros i Hi. by rewrite Z.lor_spec, (testbit_u64 a), (testbit_u64 b) by done.
Qed.

Lemma is_u64_not w : is_u64 w -> is_u64 (not64 w).
Proof. intros. by apply is_u64_lxor; [|apply is_u64_ones]. Qed.

Lemma or_masks : masks or_mask true.
Proof.
  split; [intros; by apply is_u64_lor|]. intros w m i _ _. unfold or_mask. rewrite Z.lor_spec.
  by destruct (Z.testbit m i), (Z.testbit w i).
Qed.

Lemma andnot_masks : masks andnot_mask false.
Proof.
  split; [intros; apply is_u64_land; [done|by apply is_u64_not]|]. intros w m i _ Hi. unfold andnot_mask.
  rewrite Z.land_spec, not64_bit by done. by destruct (Z.testbit m i), (Z.testbit w i).
Qed.

Lemma first_mask_u64 start : is_u64 (BITMAP_FIRST_WORD_MASK start).
Proof. apply u64_range. Qed.

Lemma last_mask_u64 nbits : is_u64 (BITMAP_LAST_WORD_MASK nbits).
Proof.
  unfold BITMAP_LAST_WORD_MASK. change (BITS_PER_LONG - 1) with 63. rewrite land63.
  pose proof (Z.mod_pos_bound (u64 (- nbits)) 64 ltac:(lia)). rewrite Z.shiftr_div_pow2 by lia.
  split; [apply Z.div_pos; [by vm_compute|lia]|]. apply Z.div_lt_upper_bound; [lia|].
  assert (1 <= 2 ^ (u64 (- nbits) mod 64)) by (apply (Z.pow_le_mono_r 2 0); lia). unfold ULONG_MAX, U64_MOD. nia.
Qed.

Section Range.
Context (op : Z -> Z -> Z) (v : bool) (Hop : masks op v).

(** The bits of [s, e) are [v], the others are those of [map]. *)
Definition range_set (map : list Z) (s e : Z) (map' : list Z) : Prop :=
  length map' = length map /\ bm_all map'
  /\ forall i, 0 <= i -> bit map' i = if (s <=? i) && (i <? e) then v else bit map i.

Lemma word_op_spec map p mask s e :
  bm_all map -> 0 <= p < Z.of_nat (length map) -> is_u64 mask ->
  (forall i, 0 <= i < 64 -> Z.testbit mask i = (s <=? 64 * p + i) && (64 * p + i <? e)) ->
  64 * p <= s -> e <= 64 * p + 64 ->
  exists map', word_op op map p mask = Ret map' /\ range_set map s e map'.
Proof.
  intros Hm Hp Hu Hbit Hs He. unfold word_op. destruct (word_ret map p Hp) as (w & -> & Hw). cbn [obind].
  pose proof (bm_word _ _ _ Hm Hw) as Huw.
  eexists. split; [done|]. split_and!.
  - by rewrite length_insert.
  - apply Forall_insert; [done|]. by apply (mk_u64 _ _ Hop).
  - intros i Hi. rewrite bit_insert by done. pose proof (Z.mod_pos_bound i 64 ltac:(lia)) as Hmod.
    destruct (Z.eqb_spec (i / 64) p) as [Ep|Hne].
    + rewrite (mk_bit _ _ Hop) by done. rewrite Hbit by done.
      replace (64 * p + i mod 64) with i by (Z.to_euclidean_division_equations; lia).
      unfold bit. by rewrite Ep, Hw.
    + destruct (Z.leb_spec s i), (Z.ltb_spec i e); cbn [andb]; try done.
      exfalso. Z.to_euclidean_division_equations. lia.
Qed.

Lemma range_set_join map s m e map1 map2 :
  s <= m <= e -> range_set map s m map1 -> range_set map1 m e map2 -> range_set map s e map2.
Proof.
  intros H (L1 & U1 & B1) (L2 & U2 & B2). split_and!; [congruence|done|]. intros i Hi. rewrite B2, B1 by done.
  destruct (Z.leb_spec m i), (Z.ltb_spec i e), (Z.leb_spec s i), (Z.ltb_spec i m); cbn [andb]; done || lia.
Qed.

Lemma range_loop_spec : forall fuel map s e p mask,
  bm_all map -> 0 <= s <= e -> e <= 64 * Z.of_nat (length map) -> e < 2 ^ 32 ->
  p = s / 64 -> mask = BITMAP_FIRST_WORD_MASK s ->
  e < 64 * (s / 64 + Z.of_nat fuel) ->
  exists map', range_loop fuel op map p (e - s) (64 - s mod 64) mask e = Ret map' /\ range_set map s e map'.
Proof.
  induction fuel as [|fuel IH]; intros map s e p mask Hm Hs He He' -> -> Hf; cbn [range_loop];
  pose proof (Z.mod_pos_bound s 64 ltac:(lia)) as Hmod; pose proof (Z.div_pos s 64 ltac:(lia) ltac:(lia)) as Hdiv;
  pose proof (Z.div_mod s 64 ltac:(lia)) as Hdm; [lia|]. set (q := s / 64) in *. set (r := s mod 64) in *.
  rewrite Z.geb_leb. destruct (Z.leb_spec 0 (e - s - (64 - r))) as [Hfull|Hpart].
  - destruct (word_op_spec map q (BITMAP_FIRST_WORD_MASK s) s (64 * q + 64)) as (map1 & -> & R1);
      [done|lia|apply first_mask_u64| |lia|lia|].
    { intros i Hi. rewrite first_mask_bit by done. fold r.
      destruct (Z.leb_spec r i), (Z.leb_spec s (64 * q + i)), (Z.ltb_spec (64 * q + i) (64 * q + 64)); done || lia. }
    cbn [obind]. pose proof R1 as (L1 & U1 & _).
    assert (Eq : (64 * q + 64) / 64 = q + 1 /\ (64 * q + 64) mod 64 = 0) by (Z.to_euclidean_division_equations; lia).
    destruct (IH map1 (64 * q + 64) e (q + 1) ULONG_MAX) as (map2 & E2 & R2); [done|lia|rewrite L1; lia|lia|symmetry; apply Eq| |rewrite (proj1 Eq); lia|].
    { unfold BITMAP_FIRST_WORD_MASK. change (BITS_PER_LONG - 1) with 63. rewrite land63, (proj2 Eq).
      reflexivity. }
    rewrite (proj2 Eq) in E2. replace (e - s - (64 - r)) with (e - (64 * q + 64)) by lia.
    change BITS_PER_LONG with (64 - 0). rewrite E2. exists map2. split; [done|].
    apply (range_set_join _ _ (64 * q + 64) _ map1); [lia|done|done].
  - destruct (Z.eqb_spec (e - s) 0); cbn [negb].
    + exists map. split; [done|]. split_and!; try done. intros i Hi.
      destruct (Z.leb_spec s i), (Z.ltb_spec i e); done || lia.
    + apply word_op_spec; [done|lia|by apply is_u64_land; [apply first_mask_u64|apply last_mask_u64]| |lia|lia].
      intros i Hi. rewrite Z.land_spec, first_mask_bit, last_mask_bit by lia. fold r.
      assert ((e - 1) mod 64 = e - 1 - 64 * q) as -> by (Z.to_euclidean_division_equations; lia).
      destruct (Z.leb_spec r i), (Z.leb_spec s (64 * q + i)), (Z.leb_spec i (e - 1 - 64 * q)), (Z.ltb_spec (64 * q + i) e);
        done || lia.
Qed.

Lemma range_op_spec map start len :
  bm_all map -> 0 <= start -> 0 <= len -> start + len <= 64 * Z.of_nat (length map) -> start + len < 2 ^ 32 ->
  exists map', range_op op map start len = Ret map' /\ range_set map start (start + len) map'.
Proof.
  intros Hm Hs Hl He Hn. unfold range_op. rewrite u32_id by ulia. change BITS_PER_LONG with 64.
  destruct (range_loop_spec (S (length map)) map start (start + len) (start / 64) (BITMAP_FIRST_WORD_MASK start))
    as (m' & E & R); try done; [lia|pose proof (Z.div_pos start 64); lia|].
  replace (start + len - start) with len in E by lia. eauto.
Qed.

Lemma bit_op_spec map nr :
  bm_all map -> 0 <= nr < 64 * Z.of_nat (length map) ->
  exists map', word_op op map (BIT_WORD nr) (BIT_MASK nr) = Ret map' /\ range_set map nr (nr + 1) map'.
Proof.
  intros Hm Hn. unfold BIT_WORD, BIT_MASK. change BITS_PER_LONG with 64.
  pose proof (Z.mod_pos_bound nr 64 ltac:(lia)) as Hmod. pose proof (Z.div_pos nr 64 ltac:(lia) ltac:(lia)).
  pose proof (Z.div_mod nr 64 ltac:(lia)).
  apply word_op_spec; [done|lia| | |lia|lia].
  - rewrite Z.shiftl_1_l. split; [apply Z.pow_nonneg; lia|]. apply Z.pow_lt_mono_r; lia.
  - intros i Hi. rewrite Z.shiftl_1_l, Z.pow2_bits_eqb by lia.
    destruct (Z.eqb_spec (nr mod 64) i), (Z.leb_spec nr (64 * (nr / 64) + i)), (Z.ltb_spec (64 * (nr / 64) + i) (nr + 1)); done || lia.
Qed.
End Range.

Lemma set_bit_spec map nr : bm_all map -> 0 <= nr < 64 * Z.of_nat (length map) ->
  exists map', set_bit nr map = Ret map' /\ range_set true map nr (nr + 1) map'.
Proof. apply bit_op_spec, or_masks. Qed.

Lemma clear_bit_spec map nr : bm_all map -> 0 <= nr < 64 * Z.of_nat (length map) ->
  exists map', clear_bit nr map = Ret map' /\ range_set false map nr (nr + 1) map'.
Proof. apply bit_op_spec, andnot_masks. Qed.

Lemma test_bit_spec map nr : 0 <= nr < 64 * Z.of_nat (length map) -> test_bit nr map = Ret (bit map nr).
Proof.
  intros Hn. unfold test_bit, BIT_WORD, bit. change BITS_PER_LONG with 64.
  destruct (word_ret map (nr / 64)) as (w & -> & ->); [Z.to_euclidean_division_equations; lia|]. cbn [obind default].
  change (64 - 1) with 63. rewrite land63. f_equal. pose proof (Z.mod_pos_bound nr 64 ltac:(lia)). set (m := nr mod 64) in *.
  rewrite Z.land_comm. change 1 with (Z.ones 1) at 1. rewrite Z.land_ones by lia.
  rewrite Z.testbit_odd. cbn [Z.pow Z.pow_pos Pos.iter]. cbn. rewrite Zmod_odd. cbn. by destruct (Z.odd _).
Qed.

Lemma bitmap_set_spec map start len :
  bm_all map -> 0 <= start -> 0 <= len -> start + len <= 64 * Z.of_nat (length map) -> start + len < 2 ^ 32 ->
  exists map', __bitmap_set map start len = Ret map' /\ range_set true map start (start + len) map'.
Proof. apply range_op_spec, or_masks. Qed.

Lemma bitmap_clear_spec map start len :
  bm_all map -> 0 <= start -> 0 <= len -> start + len <= 64 * Z.of_nat (length map) -> start + len < 2 ^ 32 ->
  exists map', __bitmap_clear map start len = Ret map' /\ range_set false map start (start + len) map'.
Proof. apply range_op_spec, andnot_masks. Qed.

(** A map whose first words are all [w]. *)
Lemma fill_words_spec w v dst nbits :
  bm_all dst -> is_u64 w -> (forall i, 0 <= i < 64 -> Z.testbit w i = v) ->
  0 <= nbits <= 64 * Z.of_nat (length dst) ->
  exists dst', fill_words w dst nbits = Ret dst' /\ range_set v dst 0 (64 * BITS_TO_LONGS nbits) dst'.
Proof.
  intros Hd Hw Hv Hn. unfold fill_words, BITS_TO_LONGS in *. set (n := Z.to_nat ((nbits + 63) / 64)).
  assert (Hz : (nbits + 63) / 64 = Z.of_nat n).
  { subst n. rewrite Z2Nat.id; [done|]. Z.to_euclidean_division_equations; lia. }
  assert (Hle : (n <= length dst)%nat) by (Z.to_euclidean_division_equations; lia).
  rewrite decide_True by done. eexists. split; [done|]. rewrite Hz. split_and!.
  - rewrite length_app, length_replicate, length_drop. lia.
  - apply Forall_app. split; [by apply Forall_replicate|by apply Forall_drop].
  - intros i Hi. unfold bit. pose proof (Z.div_pos i 64 Hi ltac:(lia)).
    pose proof (Z.mod_pos_bound i 64 ltac:(lia)) as Hmod. pose proof (Z.div_mod i 64 ltac:(lia)).
    destruct (Z.leb_spec 0 i); [|lia]. cbn [andb]. destruct (Z.ltb_spec i (64 * Z.of_nat n)).
    + rewrite lookup_app_l, lookup_replicate_2 by (rewrite ?length_replicate; lia). by apply Hv.
    + rewrite lookup_app_r by (rewrite length_replicate; lia). rewrite length_replicate, lookup_drop.
      by replace (n + (Z.to_nat (i / 64) - n))%nat with (Z.to_nat (i / 64)) by lia.
Qed.

(** ** Searches that may be given a size beyond the map *)

Lemma next_bit_loop_mono a1 a2 n0 n invert : n0 <= n -> forall fuel start w r,
  0 <= start -> n < 2 ^ 62 -> next_bit_loop fuel a1 a2 n0 start invert w = Ret r -> r < n0 ->
  next_bit_loop fuel a1 a2 n start invert w = Ret r.
Proof.
  intros Hn. induction fuel as [|fuel IH]; intros start w r Hs H62 H Hr; cbn [next_bit_loop] in *;
    (destruct (w =? 0); cbn [negb] in *; [|injection H as <-; f_equal; lia]); [done|].
  rewrite Z.geb_leb in *. destruct (Z.leb_spec n0 (start +64 BITS_PER_LONG)); [injection H as <-; lia|].
  destruct (Z.leb_spec n (start +64 BITS_PER_LONG)); [lia|].
  destruct (fetch _ _ _ _); cbn [obind] in *; [|done|done]. apply IH; try done. apply u64_range.
Qed.

Lemma find_next_mono a1 a2 n0 n start invert r :
  n0 <= n < 2 ^ 62 -> 0 <= start -> _find_next_bit a1 a2 n0 start invert = Ret r -> r < n0 ->
  _find_next_bit a1 a2 n start invert = Ret r.
Proof.
  unfold _find_next_bit. intros Hn Hs H Hr. rewrite Z.geb_leb in *.
  destruct (Z.leb_spec n0 start); [injection H as <-; lia|]. destruct (Z.leb_spec n start); [lia|].
  destruct (fetch _ _ _ _); cbn [obind] in *; [|done|done].
  apply (next_bit_loop_mono _ _ n0); try done; try lia. apply Z.land_nonneg. by left.
Qed.

Lemma find_next_zero_bit_spec addr size offset :
  bm_wf addr size -> 0 <= offset ->
  exists r, find_next_zero_bit addr size offset = Ret r /\ first_from (fun i => negb (bit addr i)) offset size r.
Proof.
  intros H1 Ho.
  destruct (find_next_spec addr None ULONG_MAX size H1) with offset as (r & Hr & Hf); [done|apply is_u64_ones|done|].
  exists r. split; [done|]. by apply (first_from_ext _ _ _ _ _ (bit_selected_inv addr)).
Qed.

(** When bit [s] is clear the search finds a clear bit at or before it, however
    large a size it is given. *)
Lemma find_next_zero_bit_upto map size s start :
  bm_all map -> 0 <= start <= s -> s < 64 * Z.of_nat (length map) < 2 ^ 62 -> s < size < 2 ^ 62 -> bit map s = false ->
  exists r, find_next_zero_bit map size start = Ret r /\ start <= r <= s /\ bit map r = false
    /\ forall i, start <= i < r -> bit map i = true.
Proof.
  intros Hm Hst Hs Hsz Hb.
  destruct (find_next_zero_bit_spec map (s + 1) start) as (r & E & [Hle Hf Hn]); [|lia|].
  { split; [done|lia|lia]. }
  assert (Hr : r < s + 1).
  { destruct (Z.eq_dec r (s + 1)) as [->|]; [|lia]. specialize (Hn s ltac:(lia)). by rewrite Hb in Hn. }
  exists r. destruct (Hf Hr) as [? Hbit]. split_and!; try lia.
  - apply (find_next_mono _ _ (s + 1)); [lia|lia|done|lia].
  - by apply negb_true_iff.
  - intros i Hi. apply negb_false_iff. auto.
Qed.

(** ** Aligned zero areas *)

(** All bits of [s, e) are clear. *)
Definition free_on (P : Z -> bool) (s e : Z) : Prop := forall i, s <= i < e -> P i = false.

Definition align_up (x k : Z) : Z := (x + 2 ^ k - 1) / 2 ^ k * 2 ^ k.

Lemma align_up_bounds x k : 0 <= k -> x <= align_up x k < x + 2 ^ k /\ (2 ^ k | align_up x k).
Proof.
  intros Hk. assert (0 < 2 ^ k) by (apply Z.pow_pos_nonneg; lia). unfold align_up.
  split; [|by apply Z.divide_factor_r]. set (P := 2 ^ k) in *. pose proof (Z.div_mod (x + P - 1) P).
  pose proof (Z.mod_pos_bound (x + P - 1) P). lia.
Qed.

Lemma align_up_least x k y : 0 <= k -> x <= y -> (2 ^ k | y) -> align_up x k <= y.
Proof.
  intros Hk Hxy [c ->]. assert (0 < 2 ^ k) by (apply Z.pow_pos_nonneg; lia). unfold align_up.
  apply Z.mul_le_mono_nonneg_r; [lia|]. enough ((x + 2 ^ k - 1) / 2 ^ k < c + 1) by lia.
  apply Z.div_lt_upper_bound; [lia|]. lia.
Qed.

Lemma __ALIGN_MASK_spec x k : is_u64 x -> 0 <= k -> x + 2 ^ k <= 2 ^ 64 -> __ALIGN_MASK x (2 ^ k - 1) = align_up x k.
Proof.
  intros Hx Hk Hs. assert (0 < 2 ^ k) by (apply Z.pow_pos_nonneg; lia). unfold __ALIGN_MASK, align_up.
  rewrite (u64_id (x + (2 ^ k - 1))) by ulia. replace (x + (2 ^ k - 1)) with (x + 2 ^ k - 1) by lia.
  set (y := x + 2 ^ k - 1). assert (Hy : is_u64 y) by ulia.
  rewrite <- Z.shiftr_div_pow2, <- Z.shiftl_mul_pow2, <- Z.ldiff_ones_r by lia.
  apply Z.bits_inj'. intros n Hn. rewrite Z.land_spec, Z.ldiff_spec.
  destruct (Z.lt_ge_cases n 64) as [H64|H64]; [|by rewrite (testbit_u64 y)].
  rewrite not64_bit by lia. by rewrite Z.ones_equiv, <- Z.sub_1_r.
Qed.

(** [r] is the first position at or after [start] that is a multiple of [2^k]
    and followed by [nr] clear bits. *)
Record first_area (P : Z -> bool) (start nr k r : Z) : Prop := {
  fa_ge : start <= r;
  fa_aligned : (2 ^ k | r);
  fa_free : free_on P r (r + nr);
  fa_first : forall s, start <= s < r -> (2 ^ k | s) -> free_on P s (s + nr) -> False
}.

Lemma zero_area_loop_spec map size nr k s : 
  bm_all map -> 64 * Z.of_nat (length map) < 2 ^ 62 -> 0 <= k <= 32 -> 0 < nr -> (2 ^ k | s) ->
  free_on (bit map) s (s + nr) -> s + nr <= 64 * Z.of_nat (length map) -> s + nr <= size < 2 ^ 61 ->
  forall fuel start, 0 <= start <= s -> s - start < Z.of_nat fuel ->
  exists r, zero_area_loop fuel map size start nr (2 ^ k - 1) 0 = Ret r /\ first_area (bit map) start nr k r /\ r <= s.
Proof.
  intros Hm Hlen Hk Hnr Hdiv Hfree Hin Hsz. induction fuel as [|fuel IH]; intros start Hst Hf; [lia|].
  cbn [zero_area_loop]. assert (Hp : 0 < 2 ^ k <= 2 ^ 32) by (split; [apply Z.pow_pos_nonneg|apply Z.pow_le_mono_r]; lia).
  destruct (find_next_zero_bit_upto map size s start) as (r0 & -> & Hr0 & Hb0 & Hbelow);
    [done|lia|lia|lia|apply Hfree; lia|]. cbn [obind].
  rewrite (u64_id (r0 + 0)), Z.add_0_r, Z.sub_0_r by ulia. rewrite __ALIGN_MASK_spec by ulia.
  destruct (align_up_bounds r0 k) as [Hal Hald]; [lia|]. pose proof (align_up_least r0 k s ltac:(lia) ltac:(lia) Hdiv) as Hals.
  set (x := align_up r0 k) in *. rewrite (u64_id x), (u64_id (x + nr)) by ulia. rewrite Z.gtb_ltb.
  destruct (Z.ltb_spec size (x + nr)); [lia|].
  destruct (find_next_bit_spec map (x + nr) x) as (i & -> & [Hle Hfd Hn]); [|lia|]. { split; [done|lia|lia]. }
  cbn [obind]. destruct (Z.ltb_spec i (x + nr)) as [Hi|Hi].
  - destruct (Hfd Hi) as [Hxi Hbi]. rewrite (u64_id (i + 1)) by ulia.
    assert (His : i < s).
    { destruct (Z.lt_ge_cases i s); [done|]. specialize (Hfree i). rewrite Hbi in Hfree.
      assert (true = false) by (apply Hfree; lia). done. }
    destruct (IH (i + 1)) as (r & E & [Hg Ha Hfr Hfst] & Hrs); [lia|lia|]. exists r. split; [done|].
    split; [|done]. split; [lia|done|done|]. intros s' Hs' Hd' Hf'.
    destruct (Z.lt_ge_cases s' (i + 1)) as [Hlt|]; [|apply (Hfst s'); [lia|done|done]].
    destruct (Z.lt_ge_cases s' r0) as [Hlow|Hhigh].
    + specialize (Hbelow s' ltac:(lia)). rewrite (Hf' s') in Hbelow by lia. done.
    + pose proof (align_up_least r0 k s' ltac:(lia) Hhigh Hd') as Hx. fold x in Hx.
      specialize (Hf' i ltac:(lia)). congruence.
  - exists x. split; [done|]. split; [|done]. split; [lia|done| |].
    + intros j Hj. apply Hn. lia.
    + intros s' Hs' Hd' Hf'. destruct (Z.lt_ge_cases s' r0) as [Hlow|Hhigh].
      * specialize (Hbelow s' ltac:(lia)). rewrite (Hf' s') in Hbelow by lia. done.
      * pose proof (align_up_least r0 k s' ltac:(lia) Hhigh Hd') as Hx. fold x in Hx. lia.
Qed.

(** Inside the map the search decides whether there is an area. *)
Lemma zero_area_loop_total map size nr k :
  bm_wf map size -> size < 2 ^ 61 -> 0 <= k <= 32 -> 0 < nr < 2 ^ 32 ->
  forall fuel start, 0 <= start < 2 ^ 61 -> size - start < Z.of_nat fuel -> fuel <> 0%nat ->
  exists r, zero_area_loop fuel map size start nr (2 ^ k - 1) 0 = Ret r
    /\ ((r + nr <= size /\ first_area (bit map) start nr k r)
        \/ (size < r /\ forall s, start <= s -> (2 ^ k | s) -> free_on (bit map) s (s + nr) -> size < s + nr)).
Proof.
  intros Hwf Hsz Hk Hnr. pose proof Hwf as [Hm Hlen _].
  induction fuel as [|fuel IH]; intros start Hst Hf Hne; [done|]. clear Hne. cbn [zero_area_loop].
  assert (Hp : 0 < 2 ^ k <= 2 ^ 32) by (split; [apply Z.pow_pos_nonneg|apply Z.pow_le_mono_r]; lia).
  destruct (find_next_zero_bit_spec map size start) as (r0 & -> & [Hle0 Hf0 Hn0]); [done|lia|]. cbn [obind].
  assert (Hr0 : 0 <= r0) by (destruct (Z.lt_ge_cases r0 size) as [Hlt|]; [destruct (Hf0 Hlt)|]; lia).
  assert (Hskip : forall s, start <= s < r0 -> free_on (bit map) s (s + nr) -> False).
  { intros s Hs Hfr. specialize (Hn0 s ltac:(lia)). rewrite (Hfr s) in Hn0 by lia. done. }
  rewrite (u64_id (r0 + 0)), Z.add_0_r, Z.sub_0_r by ulia. rewrite __ALIGN_MASK_spec by ulia.
  destruct (align_up_bounds r0 k) as [Hal Hald]; [lia|]. pose proof (align_up_least r0 k) as Hals.
  set (x := align_up r0 k) in *. rewrite (u64_id x), (u64_id (x + nr)) by ulia. rewrite Z.gtb_ltb.
  destruct (Z.ltb_spec size (x + nr)).
  { exists (x + nr). split; [done|]. right. split; [lia|]. intros s Hs Hd Hfr.
    destruct (Z.lt_ge_cases s r0); [exfalso; by apply (Hskip s); [lia|]|]. specialize (Hals s ltac:(lia) ltac:(lia) Hd). lia. }
  destruct (find_next_bit_spec map (x + nr) x) as (i & -> & [Hle Hfd Hn]); [|lia|]. { split; [done|lia|lia]. }
  cbn [obind]. destruct (Z.ltb_spec i (x + nr)) as [Hi|Hi].
  - destruct (Hfd Hi) as [Hxi Hbi]. rewrite (u64_id (i + 1)) by ulia.
    assert (Hmid : forall s, start <= s < i + 1 -> (2 ^ k | s) -> free_on (bit map) s (s + nr) -> False).
    { intros s Hs Hd Hfr. destruct (Z.lt_ge_cases s r0); [by apply (Hskip s); [lia|]|].
      specialize (Hals s ltac:(lia) ltac:(lia) Hd). specialize (Hfr i ltac:(lia)). congruence. }
    assert (start < i + 1) by (destruct (Z.lt_ge_cases r0 size) as [Hlt|]; [destruct (Hf0 Hlt)|]; lia).
    destruct (IH (i + 1)) as (r & E & [[Hr [Hg Ha Hfr Hfst]]|[Hr Hnone]]); [lia|lia|lia| |]; exists r; (split; [done|]).
    + left. split; [done|]. split; [lia|done|done|]. intros s Hs Hd Hf'.
      destruct (Z.lt_ge_cases s (i + 1)); [by apply (Hmid s); [lia| |]|]. by apply (Hfst s); [lia| |].
    + right. split; [done|]. intros s Hs Hd Hf'.
      destruct (Z.lt_ge_cases s (i + 1)); [exfalso; by apply (Hmid s); [lia| |]|]. by apply Hnone; [lia| |].
  - exists x. split; [done|]. left. split; [lia|].
    assert (start <= r0) by (destruct (Z.lt_ge_cases r0 size) as [Hlt|]; [destruct (Hf0 Hlt)|]; lia).
    split; [lia|done| |]; [intros j Hj; apply Hn; lia|]. intros s Hs Hd Hfr.
    destruct (Z.lt_ge_cases s r0); [by apply (Hskip s); [lia|]|]. specialize (Hals s ltac:(lia) ltac:(lia) Hd). lia.
Qed.

(** ** Counting bits *)

Fixpoint count (P : Z -> bool) (n : nat) : Z :=
  match n with
  | O => 0
  | S n' => count P n' + (if P (Z.of_nat n') then 1 else 0)
  end.

Lemma count_ext P Q n : (forall i, 0 <= i < Z.of_nat n -> P i = Q i) -> count P n = count Q n.
Proof.
  induction n as [|n IH]; intros H; cbn [count]; [done|]. rewrite H, IH by lia || (intros; apply H; lia). done.
Qed.

Lemma count_bounds P n : 0 <= count P n <= Z.of_nat n.
Proof. induction n as [|n IH]; cbn [count]; [lia|]. destruct (P (Z.of_nat n)); lia. Qed.

Lemma count_add P a b : count P (a + b) = count P a + count (fun i => P (Z.of_nat a + i)) b.
Proof.
  induction b as [|b IH]; cbn [count]; [rewrite Nat.add_0_r; lia|]. rewrite Nat.add_succ_r. cbn [count].
  rewrite IH, Nat2Z.inj_add. lia.
Qed.

Lemma count_const P n v : (forall i, 0 <= i < Z.of_nat n -> P i = v) -> count P n = if v then Z.of_nat n else 0.
Proof.
  induction n as [|n IH]; intros H; cbn [count]; [by destruct v|]. rewrite H, IH by lia || (intros; apply H; lia).
  destruct v; lia.
Qed.

(** Changing the value on a range where it is constant changes the count by
    the size of the range. *)
Lemma bits_count_range P Q s e n v :
  0 <= s <= e -> e <= Z.of_nat n -> (forall i, s <= i < e -> P i = negb v /\ Q i = v) ->
  (forall i, 0 <= i < Z.of_nat n -> ~ (s <= i < e) -> P i = Q i) ->
  count Q n = count P n + (if v then e - s else - (e - s)).
Proof.
  intros Hse Hen Hin Hout.
  replace n with (Z.to_nat s + (Z.to_nat (e - s) + (n - Z.to_nat e)))%nat by lia. rewrite !count_add.
  assert (E1 : count Q (Z.to_nat s) = count P (Z.to_nat s)).
  { apply count_ext. intros i Hi. symmetry. apply Hout; lia. }
  assert (E2 : count (fun i => P (Z.of_nat (Z.to_nat s) + i)) (Z.to_nat (e - s)) = if negb v then e - s else 0).
  { rewrite (count_const _ _ (negb v)); [destruct v; cbn; lia|]. intros i Hi. apply Hin. lia. }
  assert (E3 : count (fun i => Q (Z.of_nat (Z.to_nat s) + i)) (Z.to_nat (e - s)) = if v then e - s else 0).
  { rewrite (count_const _ _ v); [destruct v; lia|]. intros i Hi. apply Hin. lia. }
  rewrite E1, E2, E3.
  rewrite (count_ext (fun i => Q _) (fun i => P (Z.of_nat (Z.to_nat s) + (Z.of_nat (Z.to_nat (e - s)) + i)))).
  { destruct v; cbn; lia. }
  intros i Hi. symmetry. apply Hout; lia.
Qed.

(** ** hweight64 byte by byte *)

Lemma byte_bit x y i : 0 <= x < 256 -> 0 <= i ->
  Z.testbit (x + 256 * y) i = if i <? 8 then Z.testbit x i else Z.testbit y (i - 8).
Proof.
  intros Hx Hi. destruct (Z.ltb_spec i 8).
  - rewrite <- (Z.mod_pow2_bits_low (x + 256 * y) 8 i) by lia. f_equal. change (2 ^ 8) with 256. Z.to_euclidean_division_equations. lia.
  - replace i with (i - 8 + 8) at 1 by lia. rewrite <- Z.div_pow2_bits by lia. f_equal. change (2 ^ 8) with 256.
    Z.to_euclidean_division_equations. lia.
Qed.

Lemma land_lt x m n : 0 <= n -> 0 <= m < 2 ^ n -> 0 <= Z.land x m < 2 ^ n.
Proof.
  intros Hn Hm. replace (Z.land x m) with (Z.land x m mod 2 ^ n); [apply Z.mod_pos_bound; lia|].
  apply Z.bits_inj'. intros i Hi. destruct (Z.lt_ge_cases i n); [by rewrite Z.mod_pow2_bits_low|].
  rewrite Z.mod_pow2_bits_high, Z.land_spec by lia. rewrite <- (Z.mod_small m (2 ^ n)) by lia.
  by rewrite Z.mod_pow2_bits_high, andb_false_r by lia.
Qed.

Lemma land_bytes k x y m M : 0 <= k <= 8 -> 0 <= x < 256 -> 0 <= m < 2 ^ (8 - k) ->
  Z.land (Z.shiftr (x + 256 * y) k) (m + 256 * M) = Z.land (Z.shiftr x k) m + 256 * Z.land (Z.shiftr y k) M.
Proof.
  intros Hk Hx Hm. assert (H8 : 2 ^ (8 - k) <= 2 ^ 8) by (apply Z.pow_le_mono_r; lia). change (2 ^ 8) with 256 in H8.
  pose proof (land_lt (Z.shiftr x k) m 8 ltac:(lia)) as Hl. change (2 ^ 8) with 256 in Hl. specialize (Hl ltac:(lia)).
  apply Z.bits_inj'. intros i Hi. rewrite Z.land_spec, Z.shiftr_spec by lia.
  rewrite (byte_bit m M), (byte_bit (Z.land (Z.shiftr x k) m)) by lia. rewrite byte_bit by lia.
  destruct (Z.ltb_spec i 8).
  - rewrite Z.land_spec, Z.shiftr_spec by lia. destruct (Z.ltb_spec (i + k) 8); [done|].
    assert (Z.testbit m i = false) as ->; [|by rewrite !andb_false_r].
    rewrite <- (Z.mod_small m (2 ^ (8 - k))) by lia. apply Z.mod_pow2_bits_high. lia.
  - rewrite Z.land_spec, Z.shiftr_spec by lia. destruct (Z.ltb_spec (i + k) 8); [lia|]. do 2 f_equal. lia.
Qed.

Definition byte1 (a : Z) : Z := a - Z.land (Z.shiftr a 1) 0x55.
Definition byte2 (b : Z) : Z := Z.land b 0x33 + Z.land (Z.shiftr b 2) 0x33.
Definition byte3 (c : Z) : Z := (c + c / 16) mod 16.

Definition byte_ok (a : Z) : bool :=
  let b := byte1 a in let c := byte2 b in
  (0 <=? b) && (b <? 256) && (0 <=? c) && (c mod 16 <=? 4) && (c / 16 <=? 4) && (byte3 c =? count (Z.testbit a) 8).

Lemma byte_facts a : 0 <= a < 256 ->
  0 <= byte1 a < 256 /\ 0 <= byte2 (byte1 a) /\ byte2 (byte1 a) mod 16 <= 4 /\ byte2 (byte1 a) / 16 <= 4
  /\ byte3 (byte2 (byte1 a)) = count (Z.testbit a) 8.
Proof.
  intros Ha. assert (Hall : forallb byte_ok (seqZ 0 256) = true) by (vm_compute; reflexivity).
  rewrite forallb_forall in Hall. specialize (Hall a). assert (Hin : In a (seqZ 0 256)) by (apply list_elem_of_In, elem_of_seqZ; lia).
  specialize (Hall Hin). unfold byte_ok in Hall. rewrite !andb_true_iff in Hall.
  destruct Hall as (((((?%Z.leb_le & ?%Z.ltb_lt) & ?%Z.leb_le) & ?%Z.leb_le) & ?%Z.leb_le) & ?%Z.eqb_eq). done.
Qed.

Lemma pop_byte x y n : 0 <= x < 256 -> count (Z.testbit (x + 256 * y)) (8 + n) = count (Z.testbit x) 8 + count (Z.testbit y) n.
Proof.
  intros Hx. rewrite count_add. f_equal.
  - apply count_ext. intros i Hi. rewrite byte_bit by lia. by destruct (Z.ltb_spec i 8); [|lia].
  - apply count_ext. intros i Hi. rewrite byte_bit by lia. destruct (Z.ltb_spec (Z.of_nat 8 + i) 8); [lia|]. f_equal. lia.
Qed.

Definition of_bytes (l : list Z) : Z := foldr (fun a acc => a + 256 * acc) 0 l.
Definition is_byte (a : Z) : Prop := 0 <= a < 256.

Lemma of_bytes_cons a l : of_bytes (a :: l) = a + 256 * of_bytes l.
Proof. done. Qed.

Lemma of_bytes_bound l : Forall is_byte l -> 0 <= of_bytes l < 256 ^ Z.of_nat (length l).
Proof.
  induction 1 as [|a l Ha _ IH]; [done|]. rewrite of_bytes_cons. cbn [length].
  rewrite Nat2Z.inj_succ, Z.pow_succ_r by lia. unfold is_byte in Ha. lia.
Qed.

Lemma bytes_of n : forall w, 0 <= w < 256 ^ Z.of_nat n -> exists l, length l = n /\ Forall is_byte l /\ of_bytes l = w.
Proof.
  induction n as [|n IH]; intros w Hw; [exists []; cbn in *; split_and!; [done|constructor|lia]|].
  rewrite Nat2Z.inj_succ, Z.pow_succ_r in Hw by lia.
  destruct (IH (w / 256)) as (l & Hl & Hb & E).
  { split; [apply Z.div_pos; lia|apply Z.div_lt_upper_bound; lia]. }
  exists (w mod 256 :: l). split_and!; [cbn; lia|constructor; [apply Z.mod_pos_bound; lia|done]|].
  rewrite of_bytes_cons, E. pose proof (Z.div_mod w 256). lia.
Qed.

Lemma land_of_bytes k m l : 0 <= k <= 8 -> 0 <= m < 2 ^ (8 - k) -> Forall is_byte l ->
  Z.land (Z.shiftr (of_bytes l) k) (of_bytes (replicate (length l) m)) = of_bytes (map (fun a => Z.land (Z.shiftr a k) m) l).
Proof.
  intros Hk Hm. induction 1 as [|a l Ha _ IH]; [cbn; by rewrite Z.shiftr_0_l|].
  cbn [length replicate map]. rewrite !of_bytes_cons. rewrite land_bytes by done. by rewrite IH.
Qed.

Lemma of_bytes_lin (c : Z) (f g : Z -> Z) l :
  of_bytes (map f l) + c * of_bytes (map g l) = of_bytes (map (fun a => f a + c * g a) l).
Proof. induction l as [|a l IH]; cbn [map]; [cbn; lia|]. rewrite !of_bytes_cons. lia. Qed.

Lemma of_bytes_id l : of_bytes (map (fun a => a) l) = of_bytes l.
Proof. by rewrite map_id. Qed.

(** Bytes whose two halves are small. *)
Definition halves (c : Z) : Prop := 0 <= c /\ c mod 16 <= 4 /\ c / 16 <= 4.

Lemma fold_halves l : Forall halves l ->
  Z.land (of_bytes l + Z.shiftr (of_bytes l) 4) (of_bytes (replicate (length l) 0x0f)) = of_bytes (map byte3 l).
Proof.
  intros H. rewrite Z.shiftr_div_pow2 by lia. change (2 ^ 4) with 16.
  assert (Hd : exists d, length d = length l /\ Forall is_byte d /\ of_bytes d = of_bytes l + of_bytes l / 16
    /\ map (fun a => Z.land (Z.shiftr a 0) 0x0f) d = map byte3 l).
  { induction H as [|c l (Hc & Hlo & Hhi) Hl IH]; [exists []; by repeat constructor|].
    destruct IH as (d & Hlen & Hb & Hv & Hm). exists (c + c / 16 + 16 * (of_bytes l mod 16) :: d).
    assert (Hmod : 0 <= of_bytes l mod 16 <= 4).
    { destruct Hl as [|c' l (Hc' & Hlo' & Hhi')]; [by vm_compute|]. rewrite of_bytes_cons.
      replace ((c' + 256 * of_bytes l) mod 16) with (c' mod 16); [split; [apply Z.mod_pos_bound; lia|done]|].
      replace (c' + 256 * of_bytes l) with (c' + (16 * of_bytes l) * 16) by lia. by rewrite Z_mod_plus_full. }
    split_and!.
    - cbn. lia.
    - constructor; [|done]. unfold is_byte. pose proof (Z.div_mod c 16). pose proof (Z.div_pos c 16). lia.
    - rewrite !of_bytes_cons, Hv. pose proof (Z.div_mod (of_bytes l) 16).
      replace (c + 256 * of_bytes l) with (c + (16 * of_bytes l) * 16) by lia. rewrite Z.div_add by lia. lia.
    - cbn [map]. f_equal; [|done]. rewrite Z.shiftr_0_r. change 0x0f with (Z.ones 4). rewrite Z.land_ones by lia.
      unfold byte3. change (2 ^ 4) with 16. rewrite Z.mul_comm. by rewrite Z_mod_plus_full. }
  destruct Hd as (d & Hlen & Hb & Hv & Hm). rewrite <- Hv, <- Hm, <- Hlen, <- land_of_bytes by (done || lia).
  by rewrite Z.shiftr_0_r.
Qed.

Lemma count_of_bytes l : Forall is_byte l ->
  count (Z.testbit (of_bytes l)) (8 * length l) = foldr (fun a acc => count (Z.testbit a) 8 + acc) 0 l.
Proof.
  induction 1 as [|a l Ha _ IH]; [done|]. cbn [length foldr]. rewrite of_bytes_cons.
  replace (8 * S (length l))%nat with (8 + 8 * length l)%nat by lia. by rewrite pop_byte, IH.
Qed.

Lemma sum_bytes8 p0 p1 p2 p3 p4 p5 p6 p7 :
  Forall (fun p => 0 <= p <= 8) [p0; p1; p2; p3; p4; p5; p6; p7] ->
  Z.shiftr (of_bytes [p0; p1; p2; p3; p4; p5; p6; p7] *64 0x0101010101010101) 56
  = p0 + (p1 + (p2 + (p3 + (p4 + (p5 + (p6 + (p7 + 0))))))).
Proof.
  rewrite !Forall_cons_iff. intros (?&?&?&?&?&?&?&?&_). rewrite Z.shiftr_div_pow2 by lia.
  unfold u64, U64_MOD. cbn [of_bytes foldr].
  rewrite <- (Z.mod_unique _ _ (p1 + p2 + p3 + p4 + p5 + p6 + p7 + 256 * (p2 + p3 + p4 + p5 + p6 + p7)
    + 2 ^ 16 * (p3 + p4 + p5 + p6 + p7) + 2 ^ 24 * (p4 + p5 + p6 + p7) + 2 ^ 32 * (p5 + p6 + p7)
    + 2 ^ 40 * (p6 + p7) + 2 ^ 48 * p7)
    (p0 + 256 * (p0 + p1) + 2 ^ 16 * (p0 + p1 + p2) + 2 ^ 24 * (p0 + p1 + p2 + p3) + 2 ^ 32 * (p0 + p1 + p2 + p3 + p4)
    + 2 ^ 40 * (p0 + p1 + p2 + p3 + p4 + p5) + 2 ^ 48 * (p0 + p1 + p2 + p3 + p4 + p5 + p6)
    + 2 ^ 56 * (p0 + p1 + p2 + p3 + p4 + p5 + p6 + p7))); [|left; lia|lia].
  symmetry. apply Z.div_unique with (p0 + 256 * (p0 + p1) + 2 ^ 16 * (p0 + p1 + p2) + 2 ^ 24 * (p0 + p1 + p2 + p3)
    + 2 ^ 32 * (p0 + p1 + p2 + p3 + p4) + 2 ^ 40 * (p0 + p1 + p2 + p3 + p4 + p5) + 2 ^ 48 * (p0 + p1 + p2 + p3 + p4 + p5 + p6));
    [left; lia|lia].
Qed.

Lemma Forall_map_impl {A B} (P : A -> Prop) (Q : B -> Prop) (f : A -> B) l :
  (forall a, P a -> Q (f a)) -> Forall P l -> Forall Q (map f l).
Proof. intros H Hl. apply Forall_fmap. eapply Forall_impl; [|exact Hl]. exact H. Qed.

(** [__sw_hweight64] counts the bits of its argument. *)
Lemma hweight64_count w : is_u64 w -> __sw_hweight64 w = count (Z.testbit w) 64.
Proof.
  intros Hw. destruct (bytes_of 8 w) as (l & Hl & Hb & <-); [exact Hw|]. unfold __sw_hweight64.
  set (l1 := map byte1 l). set (l2 := map byte2 l1).
  assert (Hb1 : Forall is_byte l1) by (eapply Forall_map_impl, Hb; intros a Ha; by apply byte_facts).
  assert (Hh2 : Forall halves l2).
  { unfold l2, l1. rewrite map_map. eapply Forall_map_impl, Hb. intros a Ha. destruct (byte_facts a Ha) as (?&?&?&?&?). by split_and!. }
  assert (Hb2 : Forall is_byte l2).
  { eapply Forall_impl; [|exact Hh2]. intros c (?&?&?). unfold is_byte. pose proof (Z.div_mod c 16). lia. }
  assert (HL : length l1 = 8%nat /\ length l2 = 8%nat) by (unfold l2, l1; by rewrite !length_map).
  destruct HL as [HL1 HL2].
  assert (Hbound : forall l, length l = 8%nat -> Forall is_byte l -> is_u64 (of_bytes l)).
  { intros l' E H. pose proof (of_bytes_bound l' H) as Hx. rewrite E in Hx. exact Hx. }
  assert (E1 : of_bytes l -64 Z.land (Z.shiftr (of_bytes l) 1) 0x5555555555555555 = of_bytes l1).
  { change 0x5555555555555555 with (of_bytes (replicate 8 0x55)). rewrite <- Hl. rewrite land_of_bytes by (done || lia).
    rewrite <- (of_bytes_id l) at 1. replace (of_bytes (map (fun a => a) l) - _) with (of_bytes l1); [by apply u64_id, Hbound|].
    unfold l1. change byte1 with (fun a => a - Z.land (Z.shiftr a 1) 0x55).
    rewrite (map_ext (fun a => a - _) (fun a => a + (-1) * Z.land (Z.shiftr a 1) 0x55)) by (intros; lia).
    rewrite <- (of_bytes_lin (-1) (fun a => a)). lia. }
  rewrite E1.
  assert (E2 : Z.land (of_bytes l1) 0x3333333333333333 +64 Z.land (Z.shiftr (of_bytes l1) 2) 0x3333333333333333 = of_bytes l2).
  { change 0x3333333333333333 with (of_bytes (replicate 8 0x33)). rewrite <- HL1. rewrite land_of_bytes by (done || lia).
    rewrite <- (Z.shiftr_0_r (of_bytes l1)) at 1. rewrite land_of_bytes by (done || lia).
    pose proof (of_bytes_lin 1 (fun a => Z.land (Z.shiftr a 0) 0x33) (fun a => Z.land (Z.shiftr a 2) 0x33) l1) as Hlin.
    rewrite Z.mul_1_l in Hlin. rewrite Hlin.
    rewrite (map_ext _ byte2) by (intros a; unfold byte2; rewrite Z.shiftr_0_r; lia). by apply u64_id, Hbound. }
  rewrite E2.
  assert (E3 : Z.land (of_bytes l2 +64 Z.shiftr (of_bytes l2) 4) 0x0f0f0f0f0f0f0f0f = of_bytes (map byte3 l2)).
  { rewrite <- fold_halves by done. rewrite HL2. rewrite u64_id; [done|]. unfold is_u64.
    pose proof (of_bytes_bound l2 Hb2) as Hx. rewrite HL2 in Hx. clear -Hh2 Hx HL2.
    do 8 (destruct l2 as [|? l2]; [done|]). destruct l2; [|done]. clear HL2. rewrite !Forall_cons_iff in Hh2.
    destruct Hh2 as (?&?&?&?&?&?&?&(?&?&?)&_). rewrite Z.shiftr_div_pow2 by lia.
    assert (of_bytes [z; z0; z1; z2; z3; z4; z5; z6] < 2 ^ 63).
    { cbn [of_bytes foldr]. unfold halves in *. Z.to_euclidean_division_equations. lia. }
    unfold U64_MOD. pose proof (Z.div_pos (of_bytes [z; z0; z1; z2; z3; z4; z5; z6]) (2 ^ 4)).
    pose proof (Z.div_le_upper_bound (of_bytes [z; z0; z1; z2; z3; z4; z5; z6]) (2 ^ 4) (2 ^ 63)). lia. }
  rewrite E3. pose proof (count_of_bytes l Hb) as Hcb. rewrite Hl in Hcb. change (8 * 8)%nat with 64%nat in Hcb. rewrite Hcb.
  assert (Hc : map byte3 l2 = map (fun a => count (Z.testbit a) 8) l).
  { unfold l2, l1. rewrite !map_map. apply map_ext_Forall. eapply Forall_impl; [|exact Hb]. intros a Ha. by apply byte_facts. }
  rewrite Hc. clear -Hl. do 8 (destruct l as [|? l]; [done|]). destruct l; [|done]. cbn [map foldr].
  rewrite sum_bytes8; [done|]. repeat constructor; apply (count_bounds _ 8).
Qed.

(** The word of bits [64 k, 64 k + 64). *)
Lemma word_bits map k : bm_all map -> 0 <= k < Z.of_nat (length map) ->
  exists w, word map k = Ret w /\ is_u64 w /\ forall i, 0 <= i < 64 -> Z.testbit w i = bit map (64 * k + i).
Proof.
  intros Hm Hk. destruct (word_ret map k Hk) as (w & E & Hw). exists w. split_and!; [done|by eapply bm_word..|].
  intros i Hi. unfold bit. destruct (word_index (64 * k) i) as [E1 E2]; [by exists k; lia|done|].
  rewrite E1, E2. replace (64 * k / 64) with k by (Z.to_euclidean_division_equations; lia). by rewrite Hw.
Qed.

Lemma weight_loop_spec map : bm_all map -> forall n k acc,
  0 <= k -> k + Z.of_nat n <= Z.of_nat (length map) ->
  weight_loop n map k acc = Ret (acc + count (fun i => bit map (64 * k + i)) (64 * n)).
Proof.
  intros Hm. induction n as [|n IH]; intros k acc Hk Hn; [cbn; f_equal; lia|]. cbn [weight_loop].
  destruct (word_bits map k Hm) as (w & -> & Hu & Hb); [lia|]. cbn [obind]. rewrite IH by lia. f_equal.
  unfold hweight_long. rewrite hweight64_count by done.
  replace (64 * S n)%nat with (64 + 64 * n)%nat by lia. rewrite count_add.
  rewrite (count_ext (Z.testbit w) (fun i => bit map (64 * k + i))) by (intros; apply Hb; lia).
  rewrite (count_ext (fun i => bit map (64 * (k + 1) + i)) (fun i => bit map (64 * k + (Z.of_nat 64 + i))) (64 * n)); [lia|].
  intros i Hi. f_equal. lia.
Qed.

(** Counting agrees with the abstract count. *)
Lemma bitmap_weight_spec map bits : bm_all map -> 0 <= bits <= 64 * Z.of_nat (length map) ->
  __bitmap_weight map bits = Ret (count (bit map) (Z.to_nat bits)).
Proof.
  intros Hm Hb. unfold __bitmap_weight. change BITS_PER_LONG with 64.
  pose proof (Z.div_mod bits 64 ltac:(lia)) as Hdm. pose proof (Z.mod_pos_bound bits 64 ltac:(lia)) as Hmod.
  pose proof (Z.div_pos bits 64 ltac:(lia) ltac:(lia)) as Hd. set (q := bits / 64) in *. set (r := bits mod 64) in *.
  rewrite weight_loop_spec by (done || lia). cbn [obind].
  replace (Z.to_nat bits) with (64 * Z.to_nat q + Z.to_nat r)%nat by lia. rewrite count_add.
  rewrite (count_ext (fun i => bit map (64 * 0 + i)) (bit map)) by (intros; f_equal; lia).
  destruct (Z.eqb_spec r 0) as [E|Hr]; cbn [negb]; [rewrite E; change (Z.to_nat 0) with 0%nat; cbn [count]; f_equal; lia|].
  destruct (word_bits map q Hm) as (w & -> & Hu & Hbit); [lia|]. cbn [obind]. f_equal. rewrite Z.add_0_l. f_equal.
  unfold hweight_long. rewrite hweight64_count by (apply is_u64_land; [done|apply last_mask_u64]).
  replace 64%nat with (Z.to_nat r + (64 - Z.to_nat r))%nat at 1 by lia. rewrite count_add.
  assert (Hlow : forall i, 0 <= i < 64 -> Z.testbit (Z.land w (BITMAP_LAST_WORD_MASK bits)) i = bit map (64 * q + i) && (i <? r)).
  { intros i Hi. rewrite Z.land_spec, last_mask_bit, Hbit by lia. f_equal.
    assert ((bits - 1) mod 64 = r - 1) as -> by (Z.to_euclidean_division_equations; lia).
    destruct (Z.leb_spec i (r - 1)), (Z.ltb_spec i r); done || lia. }
  rewrite (count_const (fun i => Z.testbit _ (Z.of_nat (Z.to_nat r) + i)) _ false).
  - rewrite Z.add_0_r. apply count_ext. intros i Hi. rewrite Hlow by lia. destruct (Z.ltb_spec i r); [|lia].
    rewrite andb_true_r. f_equal. lia.
  - intros i Hi. rewrite Hlow by lia. destruct (Z.ltb_spec (Z.of_nat (Z.to_nat r) + i) r); [lia|]. by rewrite andb_false_r.
Qed.

(** ** Boolean operations *)

Record acts (op : Z -> Z -> Z) (f : bool -> bool -> bool) : Prop := {
  ac_u64 : forall x y, is_u64 x -> is_u64 y -> is_u64 (op x y);
  ac_bit : forall x y i, is_u64 x -> is_u64 y -> 0 <= i < 64 -> Z.testbit (op x y) i = f (Z.testbit x i) (Z.testbit y i)
}.

Lemma acts_lor : acts Z.lor orb.
Proof. split; [apply is_u64_lor|]. intros. apply Z.lor_spec. Qed.
Lemma acts_lxor : acts Z.lxor xorb.
Proof. split; [apply is_u64_lxor|]. intros. apply Z.lxor_spec. Qed.
Lemma acts_land : acts Z.land andb.
Proof. split; [apply is_u64_land|]. intros. apply Z.land_spec. Qed.
Lemma acts_andnot : acts andnot_mask (fun x y => x && negb y).
Proof.
  split; [intros; apply is_u64_land; [done|by apply is_u64_not]|]. intros. unfold andnot_mask.
  by rewrite Z.land_spec, not64_bit.
Qed.
Lemma acts_not : acts (fun x _ => not64 x) (fun x _ => negb x).
Proof. split; [intros; by apply is_u64_not|]. intros. by apply not64_bit. Qed.

(** [dst'] holds [f] of the sources on [s, e) and [dst] elsewhere. *)
Definition map2_on (f : bool -> bool -> bool) (dst a b : list Z) (s e : Z) (dst' : list Z) : Prop :=
  length dst' = length dst /\ bm_all dst'
  /\ forall i, 0 <= i -> bit dst' i = if (s <=? i) && (i <? e) then f (bit a i) (bit b i) else bit dst i.

Section Map2.
Context (op : Z -> Z -> Z) (f : bool -> bool -> bool) (Hop : acts op f).
Context (a b : list Z) (Ha : bm_all a) (Hb : bm_all b).

Lemma map2_word dst k v :
  bm_all dst -> 0 <= k < Z.of_nat (length dst) -> is_u64 v -> (forall i, 0 <= i < 64 -> Z.testbit v i = f (bit a (64 * k + i)) (bit b (64 * k + i))) ->
  map2_on f dst a b (64 * k) (64 * k + 64) (<[Z.to_nat k := v]> dst).
Proof.
  intros Hd Hk Hv Hbit. split_and!; [by rewrite length_insert|by apply Forall_insert|].
  intros i Hi. rewrite bit_insert by done. pose proof (Z.mod_pos_bound i 64 ltac:(lia)). pose proof (Z.div_mod i 64 ltac:(lia)).
  destruct (Z.eqb_spec (i / 64) k) as [E|E].
  - rewrite Hbit by done. replace (64 * k + i mod 64) with i by lia.
    by destruct (Z.leb_spec (64 * k) i), (Z.ltb_spec i (64 * k + 64)); cbn [andb]; try lia.
  - destruct (Z.leb_spec (64 * k) i), (Z.ltb_spec i (64 * k + 64)); cbn [andb]; try done. lia.
Qed.

Lemma map2_on_join dst s m e d1 d2 :
  s <= m <= e -> map2_on f dst a b s m d1 -> map2_on f d1 a b m e d2 -> map2_on f dst a b s e d2.
Proof.
  intros H (L1 & U1 & B1) (L2 & U2 & B2). split_and!; [congruence|done|]. intros i Hi. rewrite B2, B1 by done.
  destruct (Z.leb_spec m i), (Z.ltb_spec i e), (Z.leb_spec s i), (Z.ltb_spec i m); cbn [andb]; done || lia.
Qed.

Lemma map2_loop_spec : forall n dst k,
  bm_all dst -> 0 <= k -> k + Z.of_nat n <= Z.of_nat (length a) -> k + Z.of_nat n <= Z.of_nat (length b) ->
  k + Z.of_nat n <= Z.of_nat (length dst) ->
  exists dst', map2_loop n op dst a b k = Ret dst' /\ map2_on f dst a b (64 * k) (64 * (k + Z.of_nat n)) dst'.
Proof.
  induction n as [|n IH]; intros dst k Hd Hk La Lb Ld; cbn [map2_loop].
  { exists dst. split; [done|]. split_and!; try done. intros i Hi.
    destruct (Z.leb_spec (64 * k) i), (Z.ltb_spec i (64 * (k + Z.of_nat 0))); cbn [andb]; done || lia. }
  destruct (word_bits a k Ha) as (x & -> & Hx & Bx); [lia|]. destruct (word_bits b k Hb) as (y & -> & Hy & By); [lia|].
  destruct (word_ret dst k) as (? & -> & _); [lia|]. cbn [obind].
  pose proof (map2_word dst k (op x y) Hd ltac:(lia) (ac_u64 _ _ Hop _ _ Hx Hy)) as H1.
  assert (R1 : map2_on f dst a b (64 * k) (64 * k + 64) (<[Z.to_nat k := op x y]> dst)).
  { apply H1. intros i Hi. by rewrite (ac_bit _ _ Hop), Bx, By. }
  destruct (IH (<[Z.to_nat k := op x y]> dst) (k + 1)) as (d2 & E & R2); [apply R1|lia|lia|lia|rewrite length_insert; lia|].
  exists d2. split; [done|]. replace (k + Z.of_nat (S n)) with (k + 1 + Z.of_nat n) by lia.
  apply (map2_on_join _ _ (64 * k + 64) _ (<[Z.to_nat k := op x y]> dst)); [lia|done|].
  by replace (64 * k + 64) with (64 * (k + 1)) by lia.
Qed.

Lemma any_loop_spec : forall n dst k result,
  bm_all dst -> 0 <= k -> k + Z.of_nat n <= Z.of_nat (length a) -> k + Z.of_nat n <= Z.of_nat (length b) ->
  k + Z.of_nat n <= Z.of_nat (length dst) -> is_u64 result ->
  exists dst' result', any_loop n op dst a b k result = Ret (dst', result')
    /\ map2_on f dst a b (64 * k) (64 * (k + Z.of_nat n)) dst' /\ is_u64 result'
    /\ (result' <> 0 <-> result <> 0 \/ exists i, 64 * k <= i < 64 * (k + Z.of_nat n) /\ f (bit a i) (bit b i) = true).
Proof.
  induction n as [|n IH]; intros dst k result Hd Hk La Lb Ld Hr; cbn [any_loop].
  { exists dst, result. split; [done|]. split; [|split; [done|]].
    - split; [done|split; [done|]]. intros i Hi.
      destruct (Z.leb_spec (64 * k) i), (Z.ltb_spec i (64 * (k + Z.of_nat 0))); cbn [andb]; done || lia.
    - split; [tauto|]. intros [?|(i & ? & _)]; [done|lia]. }
  destruct (word_bits a k Ha) as (x & -> & Hx & Bx); [lia|]. destruct (word_bits b k Hb) as (y & -> & Hy & By); [lia|].
  destruct (word_ret dst k) as (? & -> & _); [lia|]. cbn [obind].
  pose proof (ac_u64 _ _ Hop _ _ Hx Hy) as Hu.
  assert (Hbit : forall i, 0 <= i < 64 -> Z.testbit (op x y) i = f (bit a (64 * k + i)) (bit b (64 * k + i))).
  { intros i Hi. by rewrite (ac_bit _ _ Hop), Bx, By. }
  pose proof (map2_word dst k (op x y) Hd ltac:(lia) Hu Hbit) as R1.
  destruct (IH (<[Z.to_nat k := op x y]> dst) (k + 1) (Z.lor result (op x y))) as (d2 & r2 & E & R2 & U2 & Hiff);
    [apply R1|lia|lia|lia|rewrite length_insert; lia|by apply is_u64_lor|].
  exists d2, r2. replace (k + Z.of_nat (S n)) with (k + 1 + Z.of_nat n) by lia. split; [done|split; [|split; [done|]]].
  { apply (map2_on_join _ _ (64 * k + 64) _ (<[Z.to_nat k := op x y]> dst)); [lia|done|].
    by replace (64 * k + 64) with (64 * (k + 1)) by lia. }
  rewrite Hiff, Z.lor_eq_0_iff. assert (Hz : op x y <> 0 <-> exists i, 64 * k <= i < 64 * k + 64 /\ f (bit a i) (bit b i) = true).
  { split.
    - intros Hne. destruct (u64_nonzero_bit _ Hu Hne) as (i & Hi & Ht). exists (64 * k + i). rewrite Hbit in Ht by done. split; [lia|done].
    - intros (i & Hi & Hfi) E0. specialize (Hbit (i - 64 * k) ltac:(lia)). rewrite E0, Z.bits_0 in Hbit.
      replace (64 * k + (i - 64 * k)) with i in Hbit by lia. congruence. }
  destruct (Z.eq_dec result 0), (Z.eq_dec (op x y) 0) as [E0|E0].
  - split; [intros [?|(i & ? & ?)]; [tauto|right; exists i; split; [lia|done]]|]. intros [?|(i & ? & ?)]; [done|].
    right. exists i. split; [|done]. destruct (Z.lt_ge_cases i (64 * k + 64)); [|lia].
    exfalso. apply Hz in E0; [done|]. exists i. split; [lia|done].
  - split; [|tauto]. intros _. right. apply Hz in E0 as (i & ? & ?). exists i. split; [lia|done].
  - split; [tauto|]. intros _. left. tauto.
  - split; [tauto|]. intros _. left. tauto.
Qed.
End Map2.
