(* ===== verification/BitmapProps.v ===== *)
(** * Theorems about bitmaps

    Boolean operations, shifts, counting, areas and regions of lib/bitmap.c
    against the bits of their arguments. *)

From S2P Require Import Prelude Bitops Bitmap BitmapSpec.
From stdpp Require Import base list numbers option.
#[local] Open Scope Z_scope.
#[local] Open Scope kernel_scope.

(** The map has room for [bits] bits. *)
Definition holds (map : list Z) (bits : Z) : Prop := bm_all map /\ 0 <= bits <= 64 * Z.of_nat (length map).

Lemma holds_words map bits : holds map bits -> 0 <= BITS_TO_LONGS bits <= Z.of_nat (length map) /\ bits <= 64 * BITS_TO_LONGS bits < bits + 64.
Proof. intros [_ H]. unfold BITS_TO_LONGS. Z.to_euclidean_division_equations. lia. Qed.

Lemma bits_split bits : 0 <= bits ->
  0 <= bits / 64 /\ 0 <= bits mod 64 < 64 /\ bits = 64 * (bits / 64) + bits mod 64.
Proof. intros. Z.to_euclidean_division_equations. lia. Qed.

(** Bit [i] of the last word under its mask. *)
Lemma last_word_bit bits i : 0 <= bits -> bits mod 64 <> 0 -> 0 <= i < 64 ->
  Z.testbit (BITMAP_LAST_WORD_MASK bits) i = (64 * (bits / 64) + i <? bits).
Proof.
  intros Hb Hr Hi. destruct (bits_split bits Hb) as (Hq & Hm & E). rewrite last_mask_bit by lia.
  assert ((bits - 1) mod 64 = bits mod 64 - 1) as -> by (symmetry; apply (Z.mod_unique _ _ (bits / 64)); [left|]; lia).
  destruct (Z.leb_spec i (bits mod 64 - 1)), (Z.ltb_spec (64 * (bits / 64) + i) bits); done || lia.
Qed.

Lemma masked_op_spec op f dst a b bits :
  acts op f -> holds a bits -> holds b bits -> holds dst bits ->
  exists dst' r, masked_op op dst a b bits = Ret (dst', r)
    /\ length dst' = length dst /\ bm_all dst'
    /\ (forall i, 0 <= i < 64 * BITS_TO_LONGS bits -> bit dst' i = (i <? bits) && f (bit a i) (bit b i))
    /\ (forall i, 64 * BITS_TO_LONGS bits <= i -> bit dst' i = bit dst i)
    /\ (r = true <-> exists i, 0 <= i < bits /\ f (bit a i) (bit b i) = true).
Proof.
  intros Hop Ha Hb Hd. pose proof (holds_words _ _ Hd) as [Hw1 Hw2]. destruct Ha as [Ua La], Hb as [Ub Lb], Hd as [Ud Ld].
  unfold masked_op. change BITS_PER_LONG with 64. destruct (bits_split bits) as (Hq & Hm & E); [lia|].
  set (q := bits / 64) in *. set (m := bits mod 64) in *.
  destruct (any_loop_spec op f Hop a b Ua Ub (Z.to_nat q) dst 0 0) as (d1 & r1 & -> & (L1 & U1 & B1) & Ur & Hiff);
    [done|lia|lia|lia|lia|by vm_compute|]. cbn [obind].
  replace (64 * (0 + Z.of_nat (Z.to_nat q))) with (64 * q) in * by lia.
  destruct (Z.eqb_spec m 0) as [Em|Hm0]; cbn [negb].
  - exists d1, (negb (r1 =? 0)). assert (EB : BITS_TO_LONGS bits = q) by lia. split; [done|]. rewrite EB.
    split; [done|split; [done|split; [|split]]].
    + intros i Hi. rewrite B1 by lia. destruct (Z.leb_spec (64 * 0) i), (Z.ltb_spec i (64 * q)), (Z.ltb_spec i bits); done || lia.
    + intros i Hi. rewrite B1 by lia. destruct (Z.leb_spec (64 * 0) i), (Z.ltb_spec i (64 * q)); done || lia.
    + rewrite negb_true_iff, Z.eqb_neq, Hiff. split; [intros [?|(i & ? & ?)]; [done|]|intros (i & ? & ?); right];
        (exists i; split; [lia|done]).
  - assert (EB : BITS_TO_LONGS bits = q + 1) by lia. rewrite EB in *.
    destruct (word_bits a q Ua) as (x & -> & Hx & Bx); [lia|]. destruct (word_bits b q Ub) as (y & -> & Hy & By); [lia|].
    destruct (word_ret d1 q) as (? & -> & _); [lia|]. cbn [obind].
    set (v := Z.land (op x y) (BITMAP_LAST_WORD_MASK bits)).
    assert (Hv : is_u64 v) by (apply is_u64_land; [by apply (ac_u64 _ _ Hop)|apply last_mask_u64]).
    assert (Bv : forall i, 0 <= i < 64 -> Z.testbit v i = f (bit a (64 * q + i)) (bit b (64 * q + i)) && (64 * q + i <? bits)).
    { intros i Hi. unfold v. rewrite Z.land_spec, (ac_bit _ _ Hop), Bx, By by done. f_equal. by apply last_word_bit; [lia| |]. }
    eexists _, _. split; [reflexivity|]. split; [by rewrite length_insert|split; [by apply Forall_insert|]].
    assert (Bd : forall i, 0 <= i -> bit (<[Z.to_nat q := v]> d1) i =
      if i / 64 =? q then f (bit a i) (bit b i) && (i <? bits) else bit d1 i).
    { intros i Hi. rewrite bit_insert by lia. pose proof (bits_split i Hi) as (? & ? & ?). destruct (Z.eqb_spec (i / 64) q) as [Eq|]; [|done].
      rewrite Bv by lia. by replace (64 * q + i mod 64) with i by lia. }
    split; [|split].
    + intros i Hi. rewrite Bd by lia. pose proof (bits_split i ltac:(lia)) as (? & ? & ?). destruct (Z.eqb_spec (i / 64) q); [by rewrite andb_comm|].
      rewrite B1 by lia. destruct (Z.leb_spec (64 * 0) i), (Z.ltb_spec i (64 * q)), (Z.ltb_spec i bits); done || lia.
    + intros i Hi. rewrite Bd by lia. pose proof (bits_split i ltac:(lia)) as (? & ? & ?). destruct (Z.eqb_spec (i / 64) q); [lia|].
      rewrite B1 by lia. destruct (Z.leb_spec (64 * 0) i), (Z.ltb_spec i (64 * q)); done || lia.
    + rewrite negb_true_iff, Z.eqb_neq, Z.lor_eq_0_iff. split.
      * intros Hne. destruct (Z.eq_dec r1 0) as [E1|E1].
        -- assert (Hv0 : v <> 0) by tauto. destruct (u64_nonzero_bit v Hv Hv0) as (i & Hi & Ht). rewrite Bv in Ht by done.
           apply andb_true_iff in Ht as [Hf Hlt%Z.ltb_lt]. exists (64 * q + i). split; [lia|done].
        -- apply Hiff in E1 as [?|(i & ? & ?)]; [done|]. exists i. split; [lia|done].
      * intros (i & Hi & Hf) [E1 E2]. destruct (Z.lt_ge_cases i (64 * q)).
        -- apply Hiff in E1; [done|]. right. exists i. split; [lia|done].
        -- specialize (Bv (i - 64 * q) ltac:(lia)). rewrite E2, Z.bits_0 in Bv. replace (64 * q + (i - 64 * q)) with i in Bv by lia.
           rewrite Hf in Bv. destruct (Z.ltb_spec i bits); [done|lia].
Qed.

Lemma test_loop_spec test f a b : acts test f -> bm_all a -> bm_all b -> forall n k,
  0 <= k -> k + Z.of_nat n <= Z.of_nat (length a) -> k + Z.of_nat n <= Z.of_nat (length b) ->
  exists r, test_loop n test a b k = Ret r
    /\ (r = true <-> exists i, 64 * k <= i < 64 * (k + Z.of_nat n) /\ f (bit a i) (bit b i) = true).
Proof.
  intros Hop Ha Hb. induction n as [|n IH]; intros k Hk La Lb; cbn [test_loop].
  { exists false. split; [done|]. split; [done|]. intros (i & ? & _). lia. }
  destruct (word_bits a k Ha) as (x & -> & Hx & Bx); [lia|]. destruct (word_bits b k Hb) as (y & -> & Hy & By); [lia|]. cbn [obind].
  pose proof (ac_u64 _ _ Hop _ _ Hx Hy) as Hu.
  assert (Hbit : forall i, 0 <= i < 64 -> Z.testbit (test x y) i = f (bit a (64 * k + i)) (bit b (64 * k + i))).
  { intros i Hi. by rewrite (ac_bit _ _ Hop), Bx, By. }
  destruct (Z.eqb_spec (test x y) 0) as [E|E]; cbn [negb].
  - destruct (IH (k + 1)) as (r & -> & Hiff); [lia..|]. exists r. split; [done|]. rewrite Hiff.
    split; intros (i & Hi & Hf); exists i; (split; [|done]); [lia|]. destruct (Z.lt_ge_cases i (64 * k + 64)); [|lia].
    specialize (Hbit (i - 64 * k) ltac:(lia)). rewrite E, Z.bits_0 in Hbit. replace (64 * k + (i - 64 * k)) with i in Hbit by lia. congruence.
  - exists true. split; [done|]. split; [intros _|done]. destruct (u64_nonzero_bit _ Hu E) as (i & Hi & Ht). rewrite Hbit in Ht by done.
    exists (64 * k + i). split; [lia|done].
Qed.

Lemma word_test_spec test f a b bits :
  acts test f -> holds a bits -> holds b bits ->
  exists r, word_test test a b bits = Ret r /\ (r = true <-> exists i, 0 <= i < bits /\ f (bit a i) (bit b i) = true).
Proof.
  intros Hop [Ua La] [Ub Lb]. unfold word_test. change BITS_PER_LONG with 64. destruct (bits_split bits) as (Hq & Hm & E); [lia|].
  set (q := bits / 64) in *. set (m := bits mod 64) in *.
  destruct (test_loop_spec test f a b Hop Ua Ub (Z.to_nat q) 0) as (r & -> & Hiff); [lia|lia|lia|]. cbn [obind].
  replace (64 * (0 + Z.of_nat (Z.to_nat q))) with (64 * q) in * by lia. destruct r.
  { exists true. split; [done|]. split; [intros _|done]. destruct (proj1 Hiff eq_refl) as (i & ? & ?). exists i. split; [lia|done]. }
  destruct (Z.eqb_spec m 0) as [Em|Hm0]; cbn [negb].
  { exists false. split; [done|]. rewrite Hiff. split; intros (i & ? & ?); exists i; (split; [lia|done]). }
  destruct (word_bits a q Ua) as (x & -> & Hx & Bx); [lia|]. destruct (word_bits b q Ub) as (y & -> & Hy & By); [lia|]. cbn [obind].
  eexists. split; [reflexivity|]. set (v := Z.land (test x y) (BITMAP_LAST_WORD_MASK bits)).
  assert (Hv : is_u64 v) by (apply is_u64_land; [by apply (ac_u64 _ _ Hop)|apply last_mask_u64]).
  assert (Bv : forall i, 0 <= i < 64 -> Z.testbit v i = f (bit a (64 * q + i)) (bit b (64 * q + i)) && (64 * q + i <? bits)).
  { intros i Hi. unfold v. rewrite Z.land_spec, (ac_bit _ _ Hop), Bx, By by done. f_equal. by apply last_word_bit; [lia| |]. }
  rewrite negb_true_iff, Z.eqb_neq. split.
  - intros Hv0. destruct (u64_nonzero_bit v Hv Hv0) as (i & Hi & Ht). rewrite Bv in Ht by done.
    apply andb_true_iff in Ht as [Hf Hlt%Z.ltb_lt]. exists (64 * q + i). split; [lia|done].
  - intros (i & Hi & Hf) E2. destruct (Z.lt_ge_cases i (64 * q)).
    + destruct Hiff as [_ Hr]. assert (false = true) by (apply Hr; exists i; split; [lia|done]). done.
    + specialize (Bv (i - 64 * q) ltac:(lia)). rewrite E2, Z.bits_0 in Bv. replace (64 * q + (i - 64 * q)) with i in Bv by lia.
      rewrite Hf in Bv. destruct (Z.ltb_spec i bits); [done|lia].
Qed.

(** ** Shifts *)

(** What a shift reads: the separate source, or [dst] itself as far as it still
    holds the words of [S] at the indices [P]. *)
Definition src_ok (P : Z -> Prop) (src : option (list Z)) (dst s : list Z) : Prop :=
  match src with
  | Some s' => s' = s
  | None => length dst = length s /\ forall i, 0 <= i -> P i -> dst !! Z.to_nat i = s !! Z.to_nat i
  end.

Lemma src_word_ok P src dst s i : src_ok P src dst s -> 0 <= i -> P i -> src_word dst src i = word s i.
Proof. unfold src_ok, src_word, word. destruct src as [s'|]; [by intros ->|]. intros [_ H] Hi HP. by rewrite H. Qed.

Lemma src_ok_insert (P Q : Z -> Prop) src dst s k w :
  src_ok P src dst s -> 0 <= k -> (forall i, Q i -> P i /\ i <> k) -> src_ok Q src (<[Z.to_nat k := w]> dst) s.
Proof.
  unfold src_ok. destruct src; [done|]. intros [L H] Hk HQ. rewrite length_insert. split; [done|]. intros i Hi HQi.
  destruct (HQ i HQi). rewrite list_lookup_insert_ne by lia. by apply H.
Qed.

(** The bits of [s, e) are given by [g], the others are those of [dst]. *)
Definition written (g : Z -> bool) (s e : Z) (dst dst' : list Z) : Prop :=
  length dst' = length dst /\ bm_all dst'
  /\ forall i, 0 <= i -> bit dst' i = if (s <=? i) && (i <? e) then g i else bit dst i.

Lemma set_word_spec g dst k w :
  bm_all dst -> 0 <= k < Z.of_nat (length dst) -> is_u64 w ->
  (forall i, 0 <= i < 64 -> Z.testbit w i = g (64 * k + i)) ->
  set_word dst k w = Ret (<[Z.to_nat k := w]> dst) /\ written g (64 * k) (64 * k + 64) dst (<[Z.to_nat k := w]> dst).
Proof.
  intros Hd Hk Hw Hb. unfold set_word. destruct (word_ret dst k Hk) as (? & -> & _). split; [done|].
  split; [by rewrite length_insert|split; [by apply Forall_insert|]]. intros i Hi. rewrite bit_insert by done.
  destruct (bits_split i Hi) as (? & ? & ?). destruct (Z.eqb_spec (i / 64) k) as [E|E].
  - rewrite Hb by done. replace (64 * k + i mod 64) with i by lia.
    by destruct (Z.leb_spec (64 * k) i), (Z.ltb_spec i (64 * k + 64)); try lia.
  - destruct (Z.leb_spec (64 * k) i), (Z.ltb_spec i (64 * k + 64)); cbn [andb]; try done. lia.
Qed.

Lemma written_join g dst d1 d2 s e s1 e1 s2 e2 :
  written g s1 e1 dst d1 -> written g s2 e2 d1 d2 ->
  (forall i, s <= i < e <-> (s1 <= i < e1 \/ s2 <= i < e2)) -> written g s e dst d2.
Proof.
  intros (L1 & U1 & B1) (L2 & U2 & B2) H. split; [congruence|split; [done|]]. intros i Hi. rewrite B2, B1 by done.
  specialize (H i). destruct (Z.leb_spec s2 i), (Z.ltb_spec i e2), (Z.leb_spec s1 i), (Z.ltb_spec i e1), (Z.leb_spec s i), (Z.ltb_spec i e);
    cbn [andb]; done || lia.
Qed.

Lemma zero_words_spec : forall n dst k,
  bm_all dst -> 0 <= k -> k + Z.of_nat n <= Z.of_nat (length dst) ->
  exists d, zero_words n dst k = Ret d /\ written (fun _ => false) (64 * k) (64 * (k + Z.of_nat n)) dst d.
Proof.
  induction n as [|n IH]; intros dst k Hd Hk Hn; cbn [zero_words].
  { exists dst. split; [done|]. split; [done|split; [done|]]. intros i Hi.
    destruct (Z.leb_spec (64 * k) i), (Z.ltb_spec i (64 * (k + Z.of_nat 0))); cbn [andb]; done || lia. }
  destruct (set_word_spec (fun _ => false) dst k 0) as [-> W1]; [done|lia|by vm_compute|intros; apply Z.bits_0|]. cbn [obind].
  destruct (IH (<[Z.to_nat k := 0]> dst) (k + 1)) as (d & -> & W2); [apply W1|lia|rewrite length_insert; lia|].
  exists d. split; [done|]. apply (written_join _ _ _ _ _ _ _ _ _ _ W1 W2). lia.
Qed.

(** Bit [i] of a map shifted left by [shift]. *)
Definition shl_bit (s : list Z) (shift i : Z) : bool := if i <? shift then false else bit s (i - shift).

Lemma shift_left_loop_spec s src off rem : bm_all s -> 0 <= off -> 0 <= rem < 64 -> forall n dst,
  bm_all dst -> Z.of_nat n <= Z.of_nat (length s) -> Z.of_nat n + off <= Z.of_nat (length dst) ->
  src_ok (fun i => i < Z.of_nat n) src dst s ->
  exists d, shift_left_loop n dst src off rem = Ret d
    /\ written (shl_bit s (64 * off + rem)) (64 * off) (64 * (off + Z.of_nat n)) dst d.
Proof.
  intros Hs Hoff Hrem. induction n as [|n IH]; intros dst Hd Ls Ld Hsrc; cbn [shift_left_loop].
  { exists dst. split; [done|]. split; [done|split; [done|]]. intros i Hi.
    destruct (Z.leb_spec (64 * off) i), (Z.ltb_spec i (64 * (off + Z.of_nat 0))); cbn [andb]; done || lia. }
  set (k := Z.of_nat n) in *.
  assert (Hlow : exists l, (if negb (rem =? 0) && (0 <? k)
      then let! l := src_word dst src (k - 1) in Ret (Z.shiftr l (BITS_PER_LONG - rem)) else Ret 0) = Ret l
    /\ is_u64 l /\ forall i, 0 <= i < 64 -> Z.testbit l i = (i <? rem) && (0 <? k) && bit s (64 * k + i - rem)).
  { destruct (Z.eqb_spec rem 0) as [->|Hr]; cbn [negb andb].
    { exists 0. split; [done|split; [done|]]. intros i Hi. rewrite Z.bits_0. by destruct (Z.ltb_spec i 0); [lia|]. }
    destruct (Z.ltb_spec 0 k) as [Hk|Hk]; [|exists 0; split; [done|split; [done|intros; by rewrite Z.bits_0, andb_false_r]]].
    rewrite (src_word_ok _ _ _ _ _ Hsrc) by lia. destruct (word_bits s (k - 1) Hs) as (w & -> & Hw & Bw); [lia|]. cbn [obind].
    change BITS_PER_LONG with 64. eexists. split; [reflexivity|]. rewrite Z.shiftr_div_pow2 by lia. split.
    - split; [apply Z.div_pos; [apply Hw|lia]|]. eapply Z.le_lt_trans; [|apply Hw]. apply Z.div_le_upper_bound; [lia|].
      assert (1 <= 2 ^ (64 - rem)) by (apply (Z.pow_le_mono_r 2 0); lia). destruct Hw. nia.
    - intros i Hi. rewrite Z.div_pow2_bits by lia. rewrite andb_true_r. destruct (Z.ltb_spec i rem); cbn [andb].
      + rewrite Bw by lia. f_equal. lia.
      + apply testbit_u64; [done|lia]. }
  destruct Hlow as (l & -> & Hl & Bl). cbn [obind]. rewrite (src_word_ok _ _ _ _ _ Hsrc) by lia.
  destruct (word_bits s k Hs) as (w & -> & Hw & Bw); [lia|]. cbn [obind].
  set (v := Z.lor l (u64 (Z.shiftl w rem))).
  assert (Bv : forall i, 0 <= i < 64 -> Z.testbit v i = shl_bit s (64 * off + rem) (64 * (k + off) + i)).
  { intros i Hi. unfold v, shl_bit. rewrite Z.lor_spec, Bl, u64_bits, Z.shiftl_spec by lia.
    destruct (Z.ltb_spec i 64); [|lia]. rewrite andb_true_r.
    replace (64 * (k + off) + i - (64 * off + rem)) with (64 * k + i - rem) by lia.
    destruct (Z.ltb_spec i rem) as [Hir|Hir]; cbn [andb].
    - rewrite (Z.testbit_neg_r w) by lia. rewrite orb_false_r. destruct (Z.ltb_spec 0 k), (Z.ltb_spec (64 * (k + off) + i) (64 * off + rem)); cbn [andb]; done || lia.
    - destruct (Z.ltb_spec (64 * (k + off) + i) (64 * off + rem)); [lia|]. rewrite Bw by lia. cbn [orb]. f_equal. lia. }
  destruct (set_word_spec (shl_bit s (64 * off + rem)) dst (k + off) v) as [-> W1];
    [done|lia|by apply is_u64_lor; [|apply u64_range]|done|]. cbn [obind].
  destruct (IH (<[Z.to_nat (k + off) := v]> dst)) as (d & -> & W2); [apply W1|lia|rewrite length_insert; lia| |].
  { apply (src_ok_insert _ _ _ _ _ _ _ Hsrc); [lia|]. intros i Hi. lia. }
  exists d. split; [done|]. apply (written_join _ _ _ _ _ _ _ _ _ _ W1 W2). lia.
Qed.

(** Bit [i] of a map of [nbits] bits shifted right by [shift]. *)
Definition shr_bit (s : list Z) (nbits shift i : Z) : bool := (i + shift <? nbits) && bit s (i + shift).

(** A word of the source as the right shift reads it: cut at [nbits]. *)
Lemma cut_word s nbits k : bm_all s -> 0 < nbits <= 64 * Z.of_nat (length s) -> 0 <= k < BITS_TO_LONGS nbits ->
  exists w, word s k = Ret w /\ is_u64 (if k =? BITS_TO_LONGS nbits - 1 then Z.land w (BITMAP_LAST_WORD_MASK nbits) else w)
    /\ forall i, 0 <= i < 64 ->
       Z.testbit (if k =? BITS_TO_LONGS nbits - 1 then Z.land w (BITMAP_LAST_WORD_MASK nbits) else w) i
       = (64 * k + i <? nbits) && bit s (64 * k + i).
Proof.
  intros Hs Hn Hk. destruct (holds_words s nbits) as [? ?]; [split; [done|lia]|].
  destruct (word_bits s k Hs) as (w & -> & Hw & Bw); [lia|]. exists w. split; [done|].
  set (lim := BITS_TO_LONGS nbits) in *. destruct (Z.eqb_spec k (lim - 1)) as [E|E].
  - split; [by apply is_u64_land; [|apply last_mask_u64]|]. intros i Hi. rewrite Z.land_spec, last_mask_bit, Bw by lia.
    rewrite andb_comm. f_equal. assert ((nbits - 1) mod 64 = nbits - 1 - 64 * k) as -> by (symmetry; apply (Z.mod_unique _ _ k); [left|]; lia).
    destruct (Z.leb_spec i (nbits - 1 - 64 * k)), (Z.ltb_spec (64 * k + i) nbits); done || lia.
  - split; [done|]. intros i Hi. rewrite Bw by lia. by destruct (Z.ltb_spec (64 * k + i) nbits); [|lia].
Qed.

Lemma shift_right_loop_spec s src off rem nbits :
  bm_all s -> 0 < nbits <= 64 * Z.of_nat (length s) -> 0 <= off -> 0 <= rem < 64 -> forall n dst k,
  bm_all dst -> 0 <= k -> off + k + Z.of_nat n = BITS_TO_LONGS nbits -> k + Z.of_nat n <= Z.of_nat (length dst) ->
  src_ok (fun i => k <= i) src dst s ->
  exists d, shift_right_loop n dst src k off rem (BITS_TO_LONGS nbits) (BITMAP_LAST_WORD_MASK nbits) = Ret d
    /\ written (shr_bit s nbits (64 * off + rem)) (64 * k) (64 * (k + Z.of_nat n)) dst d.
Proof.
  intros Hs Hn Hoff Hrem. set (lim := BITS_TO_LONGS nbits). induction n as [|n IH]; intros dst k Hd Hk Hlim Ld Hsrc; cbn [shift_right_loop].
  { exists dst. split; [done|]. split; [done|split; [done|]]. intros i Hi.
    destruct (Z.leb_spec (64 * k) i), (Z.ltb_spec i (64 * (k + Z.of_nat 0))); cbn [andb]; done || lia. }
  destruct (holds_words s nbits) as [_ Hw2]; [split; [done|lia]|]. fold lim in Hw2.
  assert (Hup : exists u, (if (rem =? 0) || (off + k + 1 >=? lim) then Ret 0
      else let! u := src_word dst src (off + k + 1) in
           Ret (u64 (Z.shiftl (if off + k + 1 =? lim - 1 then Z.land u (BITMAP_LAST_WORD_MASK nbits) else u) (BITS_PER_LONG - rem)))) = Ret u
    /\ is_u64 u /\ forall i, 0 <= i < 64 -> Z.testbit u i = (64 - rem <=? i) && shr_bit s nbits (64 * off + rem) (64 * k + i)).
  { rewrite Z.geb_leb. destruct (Z.eqb_spec rem 0) as [->|Hr]; cbn [orb].
    { exists 0. split; [done|split; [done|]]. intros i Hi. rewrite Z.bits_0. by destruct (Z.leb_spec (64 - 0) i); [lia|]. }
    destruct (Z.leb_spec lim (off + k + 1)) as [Hlast|Hnot].
    { exists 0. split; [done|split; [done|]]. intros i Hi. rewrite Z.bits_0. unfold shr_bit.
      destruct (Z.leb_spec (64 - rem) i), (Z.ltb_spec (64 * k + i + (64 * off + rem)) nbits); cbn [andb]; done || lia. }
    rewrite (src_word_ok _ _ _ _ _ Hsrc) by lia. destruct (cut_word s nbits (off + k + 1)) as (w & -> & Hw & Bw); [done|done|fold lim; lia|].
    fold lim in Hw, Bw. cbn [obind]. set (w' := if off + k + 1 =? lim - 1 then _ else w) in *. change BITS_PER_LONG with 64.
    eexists. split; [reflexivity|]. split; [apply u64_range|]. intros i Hi. rewrite u64_bits, Z.shiftl_spec by lia.
    destruct (Z.ltb_spec i 64); [|lia]. rewrite andb_true_r. destruct (Z.leb_spec (64 - rem) i); cbn [andb]; [|apply Z.testbit_neg_r; lia].
    rewrite Bw by lia. unfold shr_bit. by replace (64 * (off + k + 1) + (i - (64 - rem))) with (64 * k + i + (64 * off + rem)) by lia. }
  destruct Hup as (u & -> & Hu & Bu). cbn [obind]. rewrite (src_word_ok _ _ _ _ _ Hsrc) by lia.
  destruct (cut_word s nbits (off + k)) as (w & -> & Hw & Bw); [done|done|fold lim; lia|].
  fold lim in Hw, Bw. cbn [obind]. set (w' := if off + k =? lim - 1 then _ else w) in *.
  assert (Hsh : is_u64 (Z.shiftr w' rem)).
  { rewrite Z.shiftr_div_pow2 by lia. split; [apply Z.div_pos; [apply Hw|lia]|]. eapply Z.le_lt_trans; [|apply Hw]. apply Z.div_le_upper_bound; [lia|].
    assert (1 <= 2 ^ rem) by (apply (Z.pow_le_mono_r 2 0); lia). destruct Hw. nia. }
  destruct (set_word_spec (shr_bit s nbits (64 * off + rem)) dst k (Z.lor (Z.shiftr w' rem) u)) as [-> W1];
    [done|lia|by apply is_u64_lor| |].
  { intros i Hi. rewrite Z.lor_spec, Bu, Z.shiftr_spec by lia. destruct (Z.leb_spec (64 - rem) i); cbn [andb].
    - by rewrite (testbit_u64 w') by (done || lia).
    - rewrite orb_false_r, Bw by lia. unfold shr_bit. by replace (64 * (off + k) + (i + rem)) with (64 * k + i + (64 * off + rem)) by lia. }
  cbn [obind]. destruct (IH (<[Z.to_nat k := Z.lor (Z.shiftr w' rem) u]> dst) (k + 1)) as (d & -> & W2);
    [apply W1|lia|lia|rewrite length_insert; lia| |].
  { apply (src_ok_insert _ _ _ _ _ _ _ Hsrc); [lia|]. intros i Hi. lia. }
  exists d. split; [done|]. apply (written_join _ _ _ _ _ _ _ _ _ _ W1 W2). lia.
Qed.

(** ** Regions *)

(** A region of [2^order] bits at [pos], aligned to its size. *)
Record region (map : list Z) (pos order : Z) : Prop := {
  rg_words : bm_all map;
  rg_order : 0 <= order < 31;
  rg_pos : 0 <= pos;
  rg_aligned : (2 ^ order | pos);
  rg_end : pos + 2 ^ order <= 64 * Z.of_nat (length map)
}.

(** How __reg_op() cuts a region into words: one word and a mask, or whole words. *)
Lemma region_words map pos order : region map pos order ->
  let nlongs := Z.to_nat (BITS_TO_LONGS (Z.shiftl 1 order)) in
  let nbl := Z.min (Z.shiftl 1 order) 64 in
  let mask := u64 (Z.shiftl (u64 (Z.shiftl 1 (nbl - 1) + (Z.shiftl 1 (nbl - 1) - 1))) (pos - pos / 64 * 64)) in
  is_u64 mask /\
  ((nlongs = 1%nat /\ 64 * (pos / 64) <= pos /\ pos + 2 ^ order <= 64 * (pos / 64) + 64
    /\ forall i, 0 <= i < 64 -> Z.testbit mask i = (pos <=? 64 * (pos / 64) + i) && (64 * (pos / 64) + i <? pos + 2 ^ order))
   \/ (mask = ULONG_MAX /\ pos = 64 * (pos / 64) /\ 2 ^ order = 64 * Z.of_nat nlongs)).
Proof.
  intros [Hm Ho Hp Hal He] nlongs nbl mask. split; [apply u64_range|]. subst mask nbl nlongs. rewrite !Z.shiftl_1_l.
  destruct (bits_split pos Hp) as (Hq & Hr & Ep). set (q := pos / 64) in *. set (r := pos mod 64) in *.
  assert (Hpos : 0 < 2 ^ order) by (apply Z.pow_pos_nonneg; lia).
  assert (Hmask : forall n, 0 < n <= 64 -> u64 (2 ^ (n - 1) + (2 ^ (n - 1) - 1)) = Z.ones n).
  { intros n Hn. rewrite Z.ones_equiv. assert (2 ^ n = 2 * 2 ^ (n - 1)) by (rewrite <- Z.pow_succ_r by lia; f_equal; lia).
    assert (2 ^ n <= 2 ^ 64) by (apply Z.pow_le_mono_r; lia). assert (0 < 2 ^ (n - 1)) by (apply Z.pow_pos_nonneg; lia).
    rewrite u64_id by ulia. lia. }
  destruct (Z.le_gt_cases order 6) as [Hsmall|Hbig].
  - assert (H64 : 2 ^ order <= 2 ^ 6) by (apply Z.pow_le_mono_r; lia). change (2 ^ 6) with 64 in H64.
    rewrite Z.min_l by lia. rewrite Hmask by lia.
    assert (Hin : r + 2 ^ order <= 64).
    { assert (Hd : (2 ^ order | 64)) by (exists (2 ^ (6 - order)); rewrite <- Z.pow_add_r by lia; by replace (6 - order + order) with 6 by lia).
      assert (Hdr : (2 ^ order | r)) by (replace r with (pos - 64 * q) by lia; apply Z.divide_sub_r; [done|by apply Z.divide_mul_l]).
      destruct Hd as [c Hc], Hdr as [d Hd]. assert (d + 1 <= c) by nia. assert ((d + 1) * 2 ^ order <= c * 2 ^ order) by (apply Z.mul_le_mono_nonneg_r; lia). lia. }
    left. split_and!; [|lia|lia|].
    + unfold BITS_TO_LONGS. replace ((2 ^ order + 63) / 64) with 1; [done|]. apply (Z.div_unique _ _ _ (2 ^ order - 1)); lia.
    + intros i Hi. rewrite u64_bits, Z.shiftl_spec by lia. destruct (Z.ltb_spec i 64); [|lia]. rewrite andb_true_r.
      replace (pos - q * 64) with r by lia.
      destruct (Z.leb_spec pos (64 * q + i)); [|by apply Z.testbit_neg_r; lia]. cbn [andb].
      rewrite Z.testbit_ones_nonneg by lia. destruct (Z.ltb_spec (i - r) (2 ^ order)), (Z.ltb_spec (64 * q + i) (pos + 2 ^ order)); done || lia.
  - assert (E : 2 ^ order = 64 * 2 ^ (order - 6)) by (change 64 with (2 ^ 6); rewrite <- Z.pow_add_r by lia; f_equal; lia).
    assert (0 < 2 ^ (order - 6)) by (apply Z.pow_pos_nonneg; lia).
    rewrite Z.min_r by lia. rewrite Hmask by lia. right.
    assert (Hr0 : r = 0).
    { destruct Hal as [c Hc]. rewrite E in Hc. unfold r. rewrite Hc. replace (c * (64 * 2 ^ (order - 6))) with (c * 2 ^ (order - 6) * 64) by lia. apply Z.mod_mul. lia. }
    replace (pos - q * 64) with 0 by lia. split_and!; [by rewrite Z.shiftl_0_r|lia|].
    unfold BITS_TO_LONGS. rewrite E. replace ((64 * 2 ^ (order - 6) + 63) / 64) with (2 ^ (order - 6)); [lia|].
    apply (Z.div_unique _ _ _ 63); lia.
Qed.

Lemma reg_isfree_loop_spec map mask g : bm_all map -> (forall i, 0 <= i < 64 -> Z.testbit mask i = g i) -> forall n k,
  0 <= k -> k + Z.of_nat n <= Z.of_nat (length map) ->
  exists r, reg_isfree_loop n map k mask = Ret r
    /\ (r = true <-> forall i, 64 * k <= i < 64 * (k + Z.of_nat n) -> g (i mod 64) = true -> bit map i = false).
Proof.
  intros Hm Hg. induction n as [|n IH]; intros k Hk Hn; cbn [reg_isfree_loop].
  { exists true. split; [done|]. split; [intros _ i Hi; lia|done]. }
  destruct (word_bits map k Hm) as (w & -> & Hw & Bw); [lia|]. cbn [obind].
  assert (Hbit : forall i, 64 * k <= i < 64 * k + 64 -> Z.testbit (Z.land w mask) (i - 64 * k) = bit map i && g (i mod 64)).
  { intros i Hi. rewrite Z.land_spec, Bw, Hg by lia. f_equal; [f_equal; lia|]. f_equal. symmetry.
    symmetry. apply (Z.mod_unique _ _ k); [left|]; lia. }
  destruct (Z.eqb_spec (Z.land w mask) 0) as [E|E]; cbn [negb].
  - destruct (IH (k + 1)) as (r & -> & Hiff); [lia|lia|]. exists r. split; [done|]. rewrite Hiff.
    split; intros H i Hi Hgi; [|apply H; [lia|done]]. destruct (Z.lt_ge_cases i (64 * k + 64)); [|apply H; [lia|done]].
    specialize (Hbit i ltac:(lia)). rewrite E, Z.bits_0, Hgi in Hbit. by destruct (bit map i).
  - exists false. split; [done|]. split; [done|]. intros H. exfalso. apply E. apply Z.bits_inj'. intros i Hi. rewrite Z.bits_0.
    destruct (Z.lt_ge_cases i 64); [|rewrite Z.land_spec; by rewrite (testbit_u64 w) by done].
    specialize (Hbit (64 * k + i) ltac:(lia)). replace (64 * k + i - 64 * k) with i in Hbit by lia. rewrite Hbit.
    destruct (g ((64 * k + i) mod 64)) eqn:Eg; [|by rewrite andb_false_r]. rewrite H; [done|lia|done].
Qed.

Lemma reg_update_full op v : masks op v -> forall n map k,
  bm_all map -> 0 <= k -> k + Z.of_nat n <= Z.of_nat (length map) ->
  exists m, reg_update_loop n op map k ULONG_MAX = Ret m /\ range_set v map (64 * k) (64 * (k + Z.of_nat n)) m.
Proof.
  intros Hop. induction n as [|n IH]; intros map k Hm Hk Hn; cbn [reg_update_loop].
  { exists map. split; [done|]. split_and!; try done. intros i Hi.
    destruct (Z.leb_spec (64 * k) i), (Z.ltb_spec i (64 * (k + Z.of_nat 0))); cbn [andb]; done || lia. }
  destruct (word_op_spec op v Hop map k ULONG_MAX (64 * k) (64 * k + 64)) as (m1 & -> & R1); [done|lia|apply is_u64_ones| |lia|lia|].
  { intros i Hi. rewrite ones64_bit by lia. destruct (Z.ltb_spec i 64), (Z.leb_spec (64 * k) (64 * k + i)), (Z.ltb_spec (64 * k + i) (64 * k + 64)); done || lia. }
  cbn [obind]. destruct (IH m1 (k + 1)) as (m2 & -> & R2); [apply R1|lia|rewrite (proj1 R1); lia|].
  exists m2. split; [done|]. replace (k + Z.of_nat (S n)) with (k + 1 + Z.of_nat n) by lia.
  apply (range_set_join _ _ _ (64 * k + 64) _ m1); [lia|done|]. by replace (64 * k + 64) with (64 * (k + 1)) by lia.
Qed.

Lemma reg_update_spec op v map pos order : masks op v -> region map pos order ->
  exists m, reg_update_loop (Z.to_nat (BITS_TO_LONGS (Z.shiftl 1 order))) op map (pos / 64)
     (u64 (Z.shiftl (u64 (Z.shiftl 1 (Z.min (Z.shiftl 1 order) 64 - 1) + (Z.shiftl 1 (Z.min (Z.shiftl 1 order) 64 - 1) - 1))) (pos - pos / 64 * 64))) = Ret m
    /\ range_set v map pos (pos + 2 ^ order) m.
Proof.
  intros Hop Hr. destruct (region_words map pos order Hr) as [Hu [(-> & H1 & H2 & Hb)|(Em & Ep & En)]]; destruct Hr as [Hm Ho Hp Hal He];
    assert (0 < 2 ^ order) by (apply Z.pow_pos_nonneg; lia); destruct (bits_split pos Hp) as (Hq & Hr & _).
  - cbn [reg_update_loop]. destruct (word_op_spec op v Hop map (pos / 64) _ pos (pos + 2 ^ order) Hm ltac:(lia) Hu Hb H1 H2) as (m & -> & R).
    cbn [obind]. eauto.
  - rewrite Em. destruct (reg_update_full op v Hop (Z.to_nat (BITS_TO_LONGS (Z.shiftl 1 order))) map (pos / 64)) as (m & -> & R); [done|lia|lia|].
    exists m. split; [done|]. rewrite <- Ep in R. by replace (64 * (pos / 64 + Z.of_nat (Z.to_nat (BITS_TO_LONGS (Z.shiftl 1 order))))) with (pos + 2 ^ order) in R by lia.
Qed.

Lemma reg_isfree_spec map pos order : region map pos order ->
  exists r, __reg_op map pos order REG_OP_ISFREE = Ret (map, r) /\ (r = true <-> free_on (bit map) pos (pos + 2 ^ order)).
Proof.
  intros Hr. unfold __reg_op. change BITS_PER_LONG with 64. cbv zeta.
  destruct (region_words map pos order Hr) as [Hu [(-> & H1 & H2 & Hb)|(Em & Ep & En)]]; destruct Hr as [Hm Ho Hp Hal He];
    assert (Hpw : 0 < 2 ^ order) by (apply Z.pow_pos_nonneg; lia); destruct (bits_split pos Hp) as (Hq & Hr & _).
  - destruct (reg_isfree_loop_spec map _ _ Hm Hb 1 (pos / 64)) as (r & -> & Hiff); [lia|lia|]. exists r. split; [done|]. rewrite Hiff.
    unfold free_on. split.
    + intros H i Hi. apply H; [lia|]. replace (64 * (pos / 64) + i mod 64) with i.
      * apply andb_true_iff. split; [apply Z.leb_le|apply Z.ltb_lt]; lia.
      * destruct (bits_split i ltac:(lia)) as (? & ? & ?). lia.
    + intros H i Hi Hg. replace (64 * (pos / 64) + i mod 64) with i in Hg.
      * apply andb_true_iff in Hg as [?%Z.leb_le ?%Z.ltb_lt]. apply H. lia.
      * destruct (bits_split i ltac:(lia)) as (? & ? & ?). lia.
  - rewrite Em. destruct (reg_isfree_loop_spec map ULONG_MAX (fun _ => true) Hm) with (Z.to_nat (BITS_TO_LONGS (Z.shiftl 1 order))) (pos / 64) as (r & -> & Hiff);
      [|lia|lia|].
    { intros i Hi. rewrite ones64_bit by lia. apply Z.ltb_lt. lia. }
    exists r. split; [done|]. rewrite Hiff. unfold free_on. split; intros H i Hi; [apply H; [lia|done]|intros _; apply H; lia].
Qed.

Lemma reg_alloc_spec map pos order : region map pos order ->
  exists m, __reg_op map pos order REG_OP_ALLOC = Ret (m, false) /\ range_set true map pos (pos + 2 ^ order) m.
Proof.
  intros Hr. unfold __reg_op. change BITS_PER_LONG with 64. cbv zeta.
  destruct (reg_update_spec or_mask true map pos order or_masks Hr) as (m & -> & R). eauto.
Qed.

(** [bitmap_find_free_region] from [pos] on. *)
Lemma find_region_loop_spec map bits order : 
  holds map bits -> bits < 2 ^ 31 -> 0 <= order < 31 -> forall fuel pos,
  0 <= pos -> (2 ^ order | pos) -> pos <= bits -> bits - pos < Z.of_nat fuel ->
  exists m r, find_region_loop fuel map pos bits order = Ret (m, r)
    /\ ((r = - ENOMEM /\ m = map
         /\ forall q, pos <= q -> (2 ^ order | q) -> q + 2 ^ order <= bits -> ~ free_on (bit map) q (q + 2 ^ order))
        \/ (r + 2 ^ order <= bits /\ first_area (bit map) pos (2 ^ order) order r /\ range_set true map r (r + 2 ^ order) m)).
Proof.
  intros [Hm Hlen] Hbits Ho. assert (Hp : 0 < 2 ^ order < 2 ^ 31) by (split; [apply Z.pow_pos_nonneg|apply Z.pow_lt_mono_r]; lia).
  induction fuel as [|fuel IH]; intros pos Hpos Hd Hle Hf; [lia|]. cbn [find_region_loop].
  rewrite Z.shiftl_1_l, (u32_id (pos + 2 ^ order)) by ulia.
  destruct (Z.leb_spec (pos + 2 ^ order) bits) as [Hin|Hout].
  - assert (Hreg : region map pos order) by (split; done || lia).
    destruct (reg_isfree_spec map pos order Hreg) as (f & -> & Hf'). cbn [obind]. destruct f; cbn [negb].
    + destruct (reg_alloc_spec map pos order Hreg) as (m & -> & R). cbn [obind]. exists m, pos. split; [done|]. right.
      split; [done|]. split; [|done]. split; [lia|done|by apply Hf'|]. intros s Hs. lia.
    + assert (Hnot : ~ free_on (bit map) pos (pos + 2 ^ order)) by (intros Hx; apply Hf' in Hx; done).
      destruct (IH (pos + 2 ^ order)) as (m & r & -> & Hcase); [lia|by apply Z.divide_add_r|lia|lia|].
      exists m, r. split; [done|].
      assert (Hnext : forall q, pos <= q -> (2 ^ order | q) -> q = pos \/ pos + 2 ^ order <= q).
      { intros q Hq [c ->]. destruct Hd as [d ->]. destruct (Z.eq_dec c d) as [->|]; [by left|right]. nia. }
      destruct Hcase as [(-> & -> & Hnone)|(Hr & [Hg Ha Hfr Hfst] & R)]; [left|right].
      * split_and!; try done. intros q Hq Hdq Hqe. destruct (Hnext q Hq Hdq) as [->|]; [done|]. by apply Hnone.
      * split; [done|]. split; [|done]. split; [lia|done|done|]. intros s Hs Hds Hfs.
        destruct (Hnext s ltac:(lia) Hds) as [->|]; [done|]. by apply (Hfst s); [lia| |].
  - exists map, (- ENOMEM). split; [done|]. left. split_and!; try done. intros q Hq Hdq Hqe. exfalso. lia.
Qed.

(** ** Theorems *)

(** The bitmap operations on two maps compute, bit by bit below [bits], the
    operation they are named after, and never touch a word outside the
    destination; __bitmap_and() and __bitmap_andnot() also clear the bits of the
    last word beyond [bits] and report whether any bit of the result is set. *)
Theorem bitmap_bool_correct (dst a b : list Z) (bits : Z) :
  holds dst bits -> holds a bits -> holds b bits ->
  (exists d, __bitmap_or dst a b bits = Ret d /\ length d = length dst
     /\ forall i, 0 <= i < bits -> bit d i = bit a i || bit b i)
  /\ (exists d, __bitmap_xor dst a b bits = Ret d /\ length d = length dst
     /\ forall i, 0 <= i < bits -> bit d i = xorb (bit a i) (bit b i))
  /\ (exists d, __bitmap_complement dst a bits = Ret d /\ length d = length dst
     /\ forall i, 0 <= i < bits -> bit d i = negb (bit a i))
  /\ (exists d r, __bitmap_and dst a b bits = Ret (d, r) /\ length d = length dst
     /\ (forall i, 0 <= i < 64 * BITS_TO_LONGS bits -> bit d i = (i <? bits) && (bit a i && bit b i))
     /\ (r = true <-> exists i, 0 <= i < bits /\ bit a i && bit b i = true))
  /\ (exists d r, __bitmap_andnot dst a b bits = Ret (d, r) /\ length d = length dst
     /\ (forall i, 0 <= i < 64 * BITS_TO_LONGS bits -> bit d i = (i <? bits) && (bit a i && negb (bit b i)))
     /\ (r = true <-> exists i, 0 <= i < bits /\ bit a i && negb (bit b i) = true)).
Proof.
  intros Hd Ha Hb. pose proof (holds_words _ _ Hd) as [? ?]. pose proof (holds_words _ _ Ha) as [? ?]. pose proof (holds_words _ _ Hb) as [? ?].
  assert (Hloop : forall op f a' b', acts op f -> holds a' bits -> holds b' bits ->
    exists d, map2_loop (Z.to_nat (BITS_TO_LONGS bits)) op dst a' b' 0 = Ret d /\ length d = length dst
      /\ forall i, 0 <= i < bits -> bit d i = f (bit a' i) (bit b' i)).
  { intros op f a' b' Hop Ha' Hb'. pose proof (holds_words _ _ Ha') as [? ?]. pose proof (holds_words _ _ Hb') as [? ?].
    destruct (map2_loop_spec op f Hop a' b' (proj1 Ha') (proj1 Hb') (Z.to_nat (BITS_TO_LONGS bits)) dst 0) as (d & E & L & _ & B);
      [apply Hd|lia|lia|lia|lia|].
    exists d. split_and!; [done|done|]. intros i Hi. rewrite B by lia.
    by destruct (Z.leb_spec (64 * 0) i), (Z.ltb_spec i (64 * (0 + Z.of_nat (Z.to_nat (BITS_TO_LONGS bits))))); try lia. }
  split_and!.
  - exact (Hloop _ _ a b acts_lor Ha Hb).
  - exact (Hloop _ _ a b acts_lxor Ha Hb).
  - exact (Hloop _ _ a a acts_not Ha Ha).
  - destruct (masked_op_spec _ _ dst a b bits acts_land Ha Hb Hd) as (d & r & E & L & _ & B & _ & Hr). exists d, r. by split_and!.
  - destruct (masked_op_spec _ _ dst a b bits acts_andnot Ha Hb Hd) as (d & r & E & L & _ & B & _ & Hr). exists d, r. by split_and!.
Qed.

Lemma holds_small l n : forallb (fun w => (0 <=? w) && (w <? U64_MOD)) l = true -> 0 <= n <= 64 * Z.of_nat (length l) -> holds l n.
Proof.
  intros Hl Hn. split; [|done]. apply List.Forall_forall. intros w Hw. rewrite forallb_forall in Hl.
  specialize (Hl w Hw). apply andb_true_iff in Hl as [?%Z.leb_le ?%Z.ltb_lt]. done.
Qed.

Lemma bitmap_bool_correct_witness :
  let dst := [0; 0] in let a := [12; 1] in let b := [10; 3] in
  (exists d, __bitmap_or dst a b 70 = Ret d /\ length d = length dst
     /\ forall i, 0 <= i < 70 -> bit d i = bit a i || bit b i)
  /\ (exists d, __bitmap_xor dst a b 70 = Ret d /\ length d = length dst
     /\ forall i, 0 <= i < 70 -> bit d i = xorb (bit a i) (bit b i))
  /\ (exists d, __bitmap_complement dst a 70 = Ret d /\ length d = length dst
     /\ forall i, 0 <= i < 70 -> bit d i = negb (bit a i))
  /\ (exists d r, __bitmap_and dst a b 70 = Ret (d, r) /\ length d = length dst
     /\ (forall i, 0 <= i < 64 * BITS_TO_LONGS 70 -> bit d i = (i <? 70) && (bit a i && bit b i))
     /\ (r = true <-> exists i, 0 <= i < 70 /\ bit a i && bit b i = true))
  /\ (exists d r, __bitmap_andnot dst a b 70 = Ret (d, r) /\ length d = length dst
     /\ (forall i, 0 <= i < 64 * BITS_TO_LONGS 70 -> bit d i = (i <? 70) && (bit a i && negb (bit b i)))
     /\ (r = true <-> exists i, 0 <= i < 70 /\ bit a i && negb (bit b i) = true)).
Proof. intros dst a b. apply (bitmap_bool_correct dst a b 70); apply holds_small; done || (cbn; lia). Defined.

(** The comparisons of two maps: equality, intersection and inclusion of their
    first [bits] bits, emptiness and fullness. *)
Theorem bitmap_compare_correct (a b : list Z) (bits : Z) :
  holds a bits -> holds b bits -> bits < 2 ^ 62 ->
  (exists r, __bitmap_equal a b bits = Ret r /\ (r = true <-> forall i, 0 <= i < bits -> bit a i = bit b i))
  /\ (exists r, __bitmap_intersects a b bits = Ret r /\ (r = true <-> exists i, 0 <= i < bits /\ bit a i && bit b i = true))
  /\ (exists r, __bitmap_subset a b bits = Ret r /\ (r = true <-> forall i, 0 <= i < bits -> bit a i = true -> bit b i = true))
  /\ (exists r, bitmap_empty a bits = Ret r /\ (r = true <-> forall i, 0 <= i < bits -> bit a i = false))
  /\ (exists r, bitmap_full a bits = Ret r /\ (r = true <-> forall i, 0 <= i < bits -> bit a i = true)).
Proof.
  intros Ha Hb Hs.
  assert (Hneg : forall test f, acts test f -> forall Q : Z -> Prop, (forall i, f (bit a i) (bit b i) = false <-> Q i) ->
    exists r, (let! d := word_test test a b bits in Ret (negb d)) = Ret r /\ (r = true <-> forall i, 0 <= i < bits -> Q i)).
  { intros test f Hop Q HQ. destruct (word_test_spec test f a b bits Hop Ha Hb) as (d & -> & Hd). cbn [obind]. exists (negb d). split; [done|].
    rewrite negb_true_iff. split.
    - intros -> i Hi. apply HQ. destruct (f (bit a i) (bit b i)) eqn:E; [|done]. assert (false = true) by (apply Hd; eauto). done.
    - intros H. destruct d; [|done]. destruct (proj1 Hd eq_refl) as (i & Hi & Hf). apply H in Hi. apply HQ in Hi. congruence. }
  assert (Hfst : forall P r, first_from P 0 bits r -> (r =? bits) = true <-> forall i, 0 <= i < bits -> P i = false).
  { intros P r [Hle Hf Hn]. rewrite Z.eqb_eq. split; [intros -> i Hi; by apply Hn|]. intros H. destruct (Z.eq_dec r bits); [done|].
    destruct (Hf ltac:(lia)) as [? Hp]. rewrite H in Hp by lia. done. }
  assert (Hwf : bm_wf a bits) by (split; [apply Ha|apply Ha|done]).
  split_and!.
  - unfold __bitmap_equal. apply (Hneg _ _ acts_lxor). intros i. by destruct (bit a i), (bit b i).
  - exact (word_test_spec _ _ a b bits acts_land Ha Hb).
  - unfold __bitmap_subset. apply (Hneg _ _ acts_andnot). intros i. destruct (bit a i), (bit b i); cbn; intuition congruence.
  - unfold bitmap_empty. destruct (find_first_bit_spec a bits Hwf) as (r & -> & Hr). cbn [obind]. eexists. split; [done|]. by apply Hfst.
  - unfold bitmap_full. destruct (find_first_zero_bit_spec a bits Hwf) as (r & -> & Hr). cbn [obind]. eexists. split; [done|].
    rewrite (Hfst _ _ Hr). split; intros H i Hi; specialize (H i Hi); by destruct (bit a i).
Qed.

Lemma bitmap_compare_correct_witness :
  let a := [12; 1] in let b := [12; 3] in
  (exists r, __bitmap_equal a b 65 = Ret r /\ (r = true <-> forall i, 0 <= i < 65 -> bit a i = bit b i))
  /\ (exists r, __bitmap_intersects a b 65 = Ret r /\ (r = true <-> exists i, 0 <= i < 65 /\ bit a i && bit b i = true))
  /\ (exists r, __bitmap_subset a b 65 = Ret r /\ (r = true <-> forall i, 0 <= i < 65 -> bit a i = true -> bit b i = true))
  /\ (exists r, bitmap_empty a 65 = Ret r /\ (r = true <-> forall i, 0 <= i < 65 -> bit a i = false))
  /\ (exists r, bitmap_full a 65 = Ret r /\ (r = true <-> forall i, 0 <= i < 65 -> bit a i = true)).
Proof. intros a b. apply (bitmap_compare_correct a b 65); [apply holds_small; done || (cbn; lia)..|lia]. Defined.

(** Shifting by less than the map's size moves every bit and feeds in zeros,
    whether the source is another array or the destination itself; a right
    shift takes in nothing from beyond [nbits]. *)
Theorem bitmap_shift_correct (dst s : list Z) (src : option (list Z)) (shift nbits : Z) :
  holds dst nbits -> holds s nbits -> 0 < nbits -> 0 <= shift < nbits -> src_ok (fun _ => True) src dst s ->
  (exists d, __bitmap_shift_left dst src shift nbits = Ret d /\ length d = length dst
     /\ forall i, 0 <= i < nbits -> bit d i = shl_bit s shift i)
  /\ (exists d, __bitmap_shift_right dst src shift nbits = Ret d /\ length d = length dst
     /\ forall i, 0 <= i < nbits -> bit d i = shr_bit s nbits shift i).
Proof.
  intros Hd Hs Hn Hsh Hsrc. pose proof (holds_words _ _ Hd) as [Hw1 Hw2]. pose proof (holds_words _ _ Hs) as [Hs1 _].
  destruct Hd as [Ud Ld], Hs as [Us Ls]. destruct (bits_split shift) as (Hq & Hr & E); [lia|].
  set (off := shift / 64) in *. set (rem := shift mod 64) in *. set (lim := BITS_TO_LONGS nbits) in *.
  assert (Hweak : forall P, src_ok P src dst s) by (intros P; unfold src_ok in *; destruct src; [done|]; destruct Hsrc; eauto).
  split.
  - unfold __bitmap_shift_left. change BITS_PER_LONG with 64. fold off rem lim.
    destruct (shift_left_loop_spec s src off rem Us Hq Hr (Z.to_nat (lim - off)) dst Ud) as (d1 & -> & L1 & U1 & B1); [lia|lia|apply Hweak|].
    cbn [obind]. rewrite <- E in B1. replace (64 * (off + Z.of_nat (Z.to_nat (lim - off)))) with (64 * lim) in B1 by lia.
    destruct (Z.eqb_spec off 0) as [E0|E0]; cbn [negb].
    + exists d1. split_and!; [done|done|]. intros i Hi. rewrite B1 by lia.
      by destruct (Z.leb_spec (64 * off) i), (Z.ltb_spec i (64 * lim)); try lia.
    + destruct (zero_words_spec (Z.to_nat off) d1 0) as (d2 & -> & L2 & U2 & B2); [done|lia|lia|].
      exists d2. split_and!; [done|congruence|]. intros i Hi. rewrite B2, B1 by lia. unfold shl_bit.
      destruct (Z.leb_spec (64 * 0) i), (Z.ltb_spec i (64 * (0 + Z.of_nat (Z.to_nat off)))), (Z.leb_spec (64 * off) i), (Z.ltb_spec i (64 * lim)), (Z.ltb_spec i shift);
        cbn [andb]; done || lia.
  - unfold __bitmap_shift_right. change BITS_PER_LONG with 64. fold off rem lim.
    destruct (shift_right_loop_spec s src off rem nbits Us ltac:(lia) Hq Hr (Z.to_nat (lim - off)) dst 0 Ud) as (d1 & E1 & L1 & U1 & B1);
      [lia|fold lim; lia|lia|apply Hweak|].
    fold lim in E1. rewrite E1. clear E1. cbn [obind]. rewrite <- E in B1.
    destruct (Z.eqb_spec off 0) as [E0|E0]; cbn [negb].
    + exists d1. split_and!; [done|done|]. intros i Hi. rewrite B1 by lia.
      by destruct (Z.leb_spec (64 * 0) i), (Z.ltb_spec i (64 * (0 + Z.of_nat (Z.to_nat (lim - off))))); try lia.
    + destruct (Z.ltb_spec lim off); [lia|].
      destruct (zero_words_spec (Z.to_nat off) d1 (lim - off)) as (d2 & -> & L2 & U2 & B2); [done|lia|lia|].
      exists d2. split_and!; [done|congruence|]. intros i Hi. rewrite B2, B1 by lia. unfold shr_bit.
      destruct (Z.leb_spec (64 * (lim - off)) i), (Z.ltb_spec i (64 * (lim - off + Z.of_nat (Z.to_nat off)))), (Z.leb_spec (64 * 0) i),
        (Z.ltb_spec i (64 * (0 + Z.of_nat (Z.to_nat (lim - off))))), (Z.ltb_spec (i + shift) nbits); cbn [andb]; done || lia.
Qed.

Lemma bitmap_shift_correct_witness :
  let s := [12; 1] in
  (exists d, __bitmap_shift_left s None 67 100 = Ret d /\ length d = length s
     /\ forall i, 0 <= i < 100 -> bit d i = shl_bit s 67 i)
  /\ (exists d, __bitmap_shift_right s None 67 100 = Ret d /\ length d = length s
     /\ forall i, 0 <= i < 100 -> bit d i = shr_bit s 100 67 i).
Proof.
  intros s. apply (bitmap_shift_correct s s None 67 100); [apply holds_small; done || (cbn; lia)..|lia|lia|by split].
Defined.

(** bitmap_find_next_zero_area() terminates and finds the first aligned run of
    [nr] clear bits at or after [start], or answers with a position beyond the
    map when there is none; __bitmap_weight() counts the set bits. *)
Theorem bitmap_area_correct (map : list Z) (size start nr k : Z) :
  bm_wf map size -> size < 2 ^ 61 -> 0 <= start <= size -> 0 < nr < 2 ^ 32 -> 0 <= k <= 32 ->
  (exists r, bitmap_find_next_zero_area map size start nr (2 ^ k - 1) = Ret r
    /\ ((r + nr <= size /\ first_area (bit map) start nr k r)
        \/ (size < r /\ forall s, start <= s -> (2 ^ k | s) -> free_on (bit map) s (s + nr) -> size < s + nr)))
  /\ __bitmap_weight map size = Ret (count (bit map) (Z.to_nat size)).
Proof.
  intros Hwf Hsz Hst Hnr Hk. split; [|apply bitmap_weight_spec; apply Hwf].
  unfold bitmap_find_next_zero_area, bitmap_find_next_zero_area_off.
  pose proof (bm_size _ _ Hwf). apply zero_area_loop_total; try done; lia.
Qed.

Lemma bitmap_area_correct_witness :
  (exists r, bitmap_find_next_zero_area [0xf1] 64 1 4 (2 ^ 2 - 1) = Ret r
    /\ ((r + 4 <= 64 /\ first_area (bit [0xf1]) 1 4 2 r)
        \/ (64 < r /\ forall s, 1 <= s -> (2 ^ 2 | s) -> free_on (bit [0xf1]) s (s + 4) -> 64 < s + 4)))
  /\ __bitmap_weight [0xf1] 64 = Ret (count (bit [0xf1]) (Z.to_nat 64)).
Proof. apply (bitmap_area_correct [0xf1] 64 1 4 2); [apply mask_bm_wf; ulia|lia..]. Defined.

(** bitmap_find_free_region() takes the first free region of its size, aligned
    to its size, or answers -ENOMEM and changes nothing when there is none; and
    releasing the region gives back a map with the same bits. *)
Theorem bitmap_region_correct (map : list Z) (bits order : Z) :
  holds map bits -> bits < 2 ^ 31 -> 0 <= order < 31 ->
  exists m r, bitmap_find_free_region map bits order = Ret (m, r)
    /\ ((r = - ENOMEM /\ m = map
         /\ forall q, 0 <= q -> (2 ^ order | q) -> q + 2 ^ order <= bits -> ~ free_on (bit map) q (q + 2 ^ order))
        \/ (r + 2 ^ order <= bits /\ first_area (bit map) 0 (2 ^ order) order r
            /\ range_set true map r (r + 2 ^ order) m
            /\ exists m', bitmap_release_region m r order = Ret m'
                 /\ forall i, 0 <= i -> bit m' i = bit map i)).
Proof.
  intros Hh Hb Ho. unfold bitmap_find_free_region.
  destruct (find_region_loop_spec map bits order Hh Hb Ho (S (64 * length map)) 0) as (m & r & E & Hcase);
    [lia|apply Z.divide_0_r|apply Hh|destruct Hh; lia|].
  exists m, r. split; [done|]. destruct Hcase as [Hc|(Hr & Ha & R)]; [by left|right]. split_and!; [done..|].
  unfold bitmap_release_region, __reg_op. change BITS_PER_LONG with 64. cbv zeta.
  assert (Hreg : region m r order).
  { destruct R as (L & U & _), Ha, Hh. split; try done. rewrite L. lia. }
  destruct (reg_update_spec andnot_mask false m r order andnot_masks Hreg) as (m' & -> & R'). cbn [obind].
  exists m'. split; [done|]. intros i Hi. destruct R as (_ & _ & B), R' as (_ & _ & B'). rewrite B', B by done.
  destruct Ha as [_ _ Hfr _]. specialize (Hfr i).
  destruct (Z.leb_spec r i), (Z.ltb_spec i (r + 2 ^ order)); cbn [andb]; try done. symmetry. apply Hfr. lia.
Qed.

Lemma bitmap_region_correct_witness :
  exists m r, bitmap_find_free_region [0x11] 64 2 = Ret (m, r)
    /\ ((r = - ENOMEM /\ m = [0x11]
         /\ forall q, 0 <= q -> (2 ^ 2 | q) -> q + 2 ^ 2 <= 64 -> ~ free_on (bit [0x11]) q (q + 2 ^ 2))
        \/ (r + 2 ^ 2 <= 64 /\ first_area (bit [0x11]) 0 (2 ^ 2) 2 r
            /\ range_set true [0x11] r (r + 2 ^ 2) m
            /\ exists m', bitmap_release_region m r 2 = Ret m'
                 /\ forall i, 0 <= i -> bit m' i = bit [0x11] i)).
Proof. apply (bitmap_region_correct [0x11] 64 2); [apply holds_small; done || (cbn; lia)|lia..]. Defined.
