(* ===== verification/Buddy.v ===== *)
(** * The zoned buddy page allocator: data and operations

    Model of the allocation and freeing paths of mm/page_alloc.c with the page
    accessors of include/linux/page.h, page-flags.h, page_ref.h and mm.h.

    A [struct page] is named by its page frame number, and [mem_map] is the
    array of all of them.  A zone is named by its node and its index in the
    node.  A [struct list_head] of pages is the list of the frame numbers on
    it, first entry first; an [lru] link puts a page on at most one list, so
    list_del() takes the page off whichever list holds it.  [lru] and the
    compound-page words share storage in C; the code uses one or the other. *)

From S2P Require Import Prelude.
From stdpp Require Import base list numbers option functions.
#[local] Open Scope Z_scope.
#[local] Open Scope kernel_scope.

Definition pageblock_order : Z := MAX_ORDER - 1.

(** Page flag bits (enum pageflags) and the checked groups. *)
Definition PG_locked : Z := 0.
Definition PG_dirty : Z := 1.
Definition PG_active : Z := 2.
Definition PG_slab : Z := 3.
Definition PG_reserved : Z := 4.
Definition PG_private : Z := 5.
Definition PG_head : Z := 6.
Definition NR_PAGEFLAGS : Z := 7.
Definition PAGE_FLAGS_CHECK_AT_FREE : Z :=
  Z.lor (2 ^ PG_locked) (Z.lor (2 ^ PG_private) (Z.lor (2 ^ PG_reserved)
    (Z.lor (2 ^ PG_slab) (2 ^ PG_active)))).
Definition PAGE_FLAGS_CHECK_AT_PREP : Z := 2 ^ NR_PAGEFLAGS - 1.

Definition PAGE_TYPE_BASE : Z := 0xf0000000.
Definition PG_buddy : Z := 0x80.
Definition MAPCOUNT_NONE : Z := 0xffffffff. (* atomic -1 *)
Definition TAIL_MAPPING : Z := 0x400.
Definition PAGE_MAPPING_FLAGS : Z := 3.

(** The fields of [struct page] the allocator uses.  [pg_flags] holds the flag
    bits; the node and zone fields packed above them are [pg_node] and
    [pg_zonenum].  [pg_type] is the word shared by [page_type] and
    [_mapcount]; [pg_head] is the frame of the head page when bit 0 of
    [compound_head] is set. *)
Record page := mk_page {
  pg_flags : Z;
  pg_node : Z;
  pg_zonenum : Z;
  pg_type : Z;
  pg_count : Z;
  pg_private : Z;
  pg_mapping : Z;
  pg_head : option Z;
  pg_corder : Z;
  pg_cmapcount : Z
}.

Record free_area := mk_area { fa_list : list Z; fa_nr : Z }.

Record per_cpu_pages := mk_pcp {
  pcp_count : Z; pcp_high : Z; pcp_batch : Z; pcp_lists : list Z
}.

Record zone := mk_zone {
  z_area : Z -> free_area;
  z_pageset : Z -> per_cpu_pages;
  z_initialized : bool;
  z_managed : Z
}.

Definition zid : Type := Z * Z.

Record mm := mk_mm {
  mem_map : Z -> page;
  pfn_valid : Z -> bool;
  zones : zid -> zone
}.

(** ** Accessors *)

Definition page_at (s : mm) (p : Z) : page := mem_map s p.
Definition upd_page (s : mm) (p : Z) (f : page -> page) : mm :=
  mk_mm (<[p := f (mem_map s p)]> (mem_map s)) (pfn_valid s) (zones s).

Definition area (s : mm) (z : zid) (order : Z) : free_area := z_area (zones s z) order.
Definition upd_zone (s : mm) (z : zid) (f : zone -> zone) : mm :=
  mk_mm (mem_map s) (pfn_valid s) (<[z := f (zones s z)]> (zones s)).
Definition upd_area (s : mm) (z : zid) (order : Z) (f : free_area -> free_area) : mm :=
  upd_zone s z (fun zn => mk_zone (<[order := f (z_area zn order)]> (z_area zn))
                            (z_pageset zn) (z_initialized zn) (z_managed zn)).
Definition pcp_of (s : mm) (z : zid) (cpu : Z) : per_cpu_pages := z_pageset (zones s z) cpu.
Definition upd_pcp (s : mm) (z : zid) (cpu : Z) (f : per_cpu_pages -> per_cpu_pages) : mm :=
  upd_zone s z (fun zn => mk_zone (z_area zn) (<[cpu := f (z_pageset zn cpu)]> (z_pageset zn))
                            (z_initialized zn) (z_managed zn)).

Definition set_flags (v : Z) (g : page) : page :=
  mk_page v (pg_node g) (pg_zonenum g) (pg_type g) (pg_count g) (pg_private g) (pg_mapping g)
    (pg_head g) (pg_corder g) (pg_cmapcount g).
Definition set_type_word (v : Z) (g : page) : page :=
  mk_page (pg_flags g) (pg_node g) (pg_zonenum g) v (pg_count g) (pg_private g) (pg_mapping g)
    (pg_head g) (pg_corder g) (pg_cmapcount g).
Definition set_count (v : Z) (g : page) : page :=
  mk_page (pg_flags g) (pg_node g) (pg_zonenum g) (pg_type g) v (pg_private g) (pg_mapping g)
    (pg_head g) (pg_corder g) (pg_cmapcount g).
Definition set_private (v : Z) (g : page) : page :=
  mk_page (pg_flags g) (pg_node g) (pg_zonenum g) (pg_type g) (pg_count g) v (pg_mapping g)
    (pg_head g) (pg_corder g) (pg_cmapcount g).
Definition set_mapping (v : Z) (g : page) : page :=
  mk_page (pg_flags g) (pg_node g) (pg_zonenum g) (pg_type g) (pg_count g) (pg_private g) v
    (pg_head g) (pg_corder g) (pg_cmapcount g).
Definition set_head (v : option Z) (g : page) : page :=
  mk_page (pg_flags g) (pg_node g) (pg_zonenum g) (pg_type g) (pg_count g) (pg_private g) (pg_mapping g)
    v (pg_corder g) (pg_cmapcount g).
Definition set_corder (v : Z) (g : page) : page :=
  mk_page (pg_flags g) (pg_node g) (pg_zonenum g) (pg_type g) (pg_count g) (pg_private g) (pg_mapping g)
    (pg_head g) v (pg_cmapcount g).
Definition set_cmapcount (v : Z) (g : page) : page :=
  mk_page (pg_flags g) (pg_node g) (pg_zonenum g) (pg_type g) (pg_count g) (pg_private g) (pg_mapping g)
    (pg_head g) (pg_corder g) v.

(** VM_BUG_ON(cond). *)
Definition VM_BUG_ON (cond : bool) : outcome unit := if cond then Panic else Ret tt.

(** ** Page state (page.h, page-flags.h, page_ref.h) *)

Definition PageType (g : page) (flag : Z) : bool :=
  Z.land (pg_type g) (Z.lor PAGE_TYPE_BASE flag) =? PAGE_TYPE_BASE.
Definition PageBuddy (g : page) : bool := PageType g PG_buddy.

Definition __SetPageBuddy (s : mm) (p : Z) : outcome mm :=
  let! _ := VM_BUG_ON (negb (PageType (page_at s p) 0)) in
  Ret (upd_page s p (fun g => set_type_word (Z.land (pg_type g) (Z.lnot PG_buddy)) g)).
Definition __ClearPageBuddy (s : mm) (p : Z) : outcome mm :=
  let! _ := VM_BUG_ON (negb (PageBuddy (page_at s p))) in
  Ret (upd_page s p (fun g => set_type_word (Z.lor (pg_type g) PG_buddy) g)).

Definition page_order (g : page) : Z := pg_private g.

(** page_zone_id() reads the zone number only; page_zone() also the node. *)
Definition page_zone_id (g : page) : Z := pg_zonenum g.
Definition page_zone (g : page) : zid := (pg_node g, pg_zonenum g).

Definition PageTail (g : page) : bool := bool_decide (is_Some (pg_head g)).
Definition PageHead (g : page) : bool := Z.testbit (pg_flags g) PG_head.
Definition PageCompound (g : page) : bool := PageHead g || PageTail g.
Definition compound_head (p : Z) (g : page) : Z := default p (pg_head g).
Definition PageMappingFlags (g : page) : bool := negb (Z.land (pg_mapping g) PAGE_MAPPING_FLAGS =? 0).

Definition set_page_refcounted (s : mm) (p : Z) : outcome mm :=
  let! _ := VM_BUG_ON (PageTail (page_at s p)) in
  let! _ := VM_BUG_ON (negb (pg_count (page_at s p) =? 0)) in
  Ret (upd_page s p (set_count 1)).

(** ** Lists *)

Definition drop_page (p : Z) (l : list Z) : list Z := filter (fun q => q <> p) l.

(** list_del(&page->lru). *)
Definition list_del (s : mm) (p : Z) : mm :=
  mk_mm (mem_map s) (pfn_valid s)
    (fun z => let zn := zones s z in
       mk_zone (fun o => mk_area (drop_page p (fa_list (z_area zn o))) (fa_nr (z_area zn o)))
         (fun c => let q := z_pageset zn c in
            mk_pcp (pcp_count q) (pcp_high q) (pcp_batch q) (drop_page p (pcp_lists q)))
         (z_initialized zn) (z_managed zn)).

Definition area_add (p : Z) (a : free_area) : free_area := mk_area (p :: fa_list a) (fa_nr a).
Definition area_add_tail (p : Z) (a : free_area) : free_area := mk_area (fa_list a ++ [p]) (fa_nr a).
Definition area_inc (a : free_area) : free_area := mk_area (fa_list a) (u64 (fa_nr a + 1)).
Definition area_dec (a : free_area) : free_area := mk_area (fa_list a) (u64 (fa_nr a - 1)).

(** ** The free lists (mm/page_alloc.c) *)

Definition set_page_order (s : mm) (p order : Z) : outcome mm :=
  __SetPageBuddy (upd_page s p (set_private order)) p.

Definition rmv_page_order (s : mm) (p : Z) : outcome mm :=
  let! s1 := __ClearPageBuddy s p in
  Ret (upd_page s1 p (set_private 0)).

(** page_is_guard() is constantly false, so only the second test remains. *)
Definition page_is_buddy (s : mm) (page buddy order : Z) : outcome bool :=
  let b := page_at s buddy in
  if PageBuddy b && (page_order b =? order) then
    if negb (page_zone_id (page_at s page) =? page_zone_id b) then Ret false
    else
      let! _ := VM_BUG_ON (negb (pg_count b =? 0)) in
      Ret true
  else Ret false.

(** [while (high > low)] of expand(), with [n] = high - low rounds left. *)
Fixpoint expand (n : nat) (s : mm) (z : zid) (page low : Z) : outcome mm :=
  match n with
  | O => Ret s
  | S n' =>
      let high := low + Z.of_nat n' in
      let size := 2 ^ high in
      let s1 := upd_area s z high (area_add (page + size)) in
      let s2 := upd_area s1 z high area_inc in
      let! s3 := set_page_order s2 (page + size) high in
      expand n' s3 z page low
  end.

(** [for (current_order = order; current_order < MAX_ORDER; ++current_order)]
    with [n] orders left to look at. *)
Fixpoint rmqueue_scan (n : nat) (s : mm) (z : zid) (order current_order : Z)
    : outcome (mm * option Z) :=
  match n with
  | O => Ret (s, None)
  | S n' =>
      match fa_list (area s z current_order) with
      | [] => rmqueue_scan n' s z order (current_order + 1)
      | page :: _ =>
          let s1 := list_del s page in
          let! s2 := rmv_page_order s1 page in
          let s3 := upd_area s2 z current_order area_dec in
          let! s4 := expand (Z.to_nat (current_order - order)) s3 z page order in
          Ret (s4, Some page)
      end
  end.

Definition __rmqueue_smallest (s : mm) (z : zid) (order : Z) : outcome (mm * option Z) :=
  rmqueue_scan (Z.to_nat (MAX_ORDER - order)) s z order order.

Definition __rmqueue (s : mm) (z : zid) (order : Z) : outcome (mm * option Z) :=
  __rmqueue_smallest s z order. (* the WARN_ON(1) on failure only reports *)

Definition __find_buddy_pfn (page_pfn order : Z) : Z := Z.lxor page_pfn (2 ^ order).

(** The merging loop of __free_one_page(): [n] = max_order - 1 - order rounds
    left.  The result is the merged block and the last buddy looked at. *)
Fixpoint merge_buddies (n : nat) (s : mm) (z : zid) (pfn order : Z) (buddy : option Z)
    : outcome (mm * Z * Z * option Z) :=
  match n with
  | O => Ret (s, pfn, order, buddy)
  | S n' =>
      let buddy_pfn := __find_buddy_pfn pfn order in
      if negb (pfn_valid s buddy_pfn) then Ret (s, pfn, order, Some buddy_pfn)
      else
        let! b := page_is_buddy s pfn buddy_pfn order in
        if negb b then Ret (s, pfn, order, Some buddy_pfn)
        else
          let s1 := list_del s buddy_pfn in
          let s2 := upd_area s1 z order area_dec in
          let! s3 := rmv_page_order s2 buddy_pfn in
          merge_buddies n' s3 z (Z.land buddy_pfn pfn) (order + 1) (Some buddy_pfn)
  end.

(** Whether the next-higher buddy is free, so that the block goes to the tail
    of its list. *)
Definition higher_is_buddy (s : mm) (pfn order : Z) (buddy : option Z) : outcome bool :=
  match buddy with
  | Some buddy_pfn =>
      if (order <? MAX_ORDER - 2) && pfn_valid s buddy_pfn then
        let combined_pfn := Z.land buddy_pfn pfn in
        let higher_buddy := __find_buddy_pfn combined_pfn (order + 1) in
        if pfn_valid s higher_buddy then page_is_buddy s combined_pfn higher_buddy (order + 1)
        else Ret false
      else Ret false
  | None => if order <? MAX_ORDER - 2 then Stuck (* buddy_pfn uninitialised *) else Ret false
  end.

(** [max_order] is MAX_ORDER here (pageblock_order + 1), so the second round of
    merging is never entered. *)
Definition __free_one_page (s : mm) (pfn : Z) (z : zid) (order : Z) : outcome mm :=
  let max_order := Z.min MAX_ORDER (pageblock_order + 1) in
  let! _ := VM_BUG_ON (negb (z_initialized (zones s z))) in
  let! _ := VM_BUG_ON (negb (Z.land (pg_flags (page_at s pfn)) PAGE_FLAGS_CHECK_AT_PREP =? 0)) in
  let! _ := VM_BUG_ON (negb (Z.land pfn (2 ^ order - 1) =? 0)) in
  let! (s1, pfn1, order1, buddy) :=
    merge_buddies (Z.to_nat (max_order - 1 - order)) s z pfn order None in
  let! s2 := set_page_order s1 pfn1 order1 in
  let! tail := higher_is_buddy s2 pfn1 order1 buddy in
  let s3 := upd_area s2 z order1 (if tail then area_add_tail pfn1 else area_add pfn1) in
  Ret (upd_area s3 z order1 area_inc).

Definition free_one_page (s : mm) (z : zid) (pfn order : Z) : outcome mm :=
  __free_one_page s pfn z order.

(** ** Page checks *)

Definition page_expected_state (g : page) (check_flags : Z) : bool :=
  (pg_type g =? MAPCOUNT_NONE)
  && (Z.lor (pg_mapping g) (Z.lor (pg_count g) (Z.land (pg_flags g) check_flags)) =? 0).

(** bad_page() reports and resets the map count. *)
Definition bad_page (s : mm) (p : Z) : mm := upd_page s p (set_type_word MAPCOUNT_NONE).

Definition check_new_page (s : mm) (p : Z) : mm * bool :=
  if page_expected_state (page_at s p) PAGE_FLAGS_CHECK_AT_PREP then (s, false)
  else (bad_page s p, true).

Definition free_pages_check (s : mm) (p : Z) : mm * bool :=
  if page_expected_state (page_at s p) PAGE_FLAGS_CHECK_AT_FREE then (s, false)
  else (bad_page s p, true).

(** [for (i = ...; i < (1 << order); i++)] with [n] pages left. *)
Fixpoint check_new_pages_loop (n : nat) (s : mm) (p : Z) : mm * bool :=
  match n with
  | O => (s, false)
  | S n' =>
      let '(s1, bad) := check_new_page s p in
      if bad then (s1, true) else check_new_pages_loop n' s1 (p + 1)
  end.
Definition check_new_pages (s : mm) (page order : Z) : mm * bool :=
  check_new_pages_loop (Z.to_nat (2 ^ order)) s page.

(** ** Per-CPU lists *)

Definition pcp_add_tail (p : Z) (q : per_cpu_pages) : per_cpu_pages :=
  mk_pcp (pcp_count q) (pcp_high q) (pcp_batch q) (pcp_lists q ++ [p]).
Definition pcp_add (p : Z) (q : per_cpu_pages) : per_cpu_pages :=
  mk_pcp (pcp_count q) (pcp_high q) (pcp_batch q) (p :: pcp_lists q).
Definition pcp_count_add (n : Z) (q : per_cpu_pages) : per_cpu_pages :=
  mk_pcp (pcp_count q + n) (pcp_high q) (pcp_batch q) (pcp_lists q).

(** rmqueue_bulk(zone, order, count, &pcp->lists): [n] rounds left. *)
Fixpoint rmqueue_bulk (n : nat) (s : mm) (z : zid) (cpu order alloced : Z) : outcome (mm * Z) :=
  match n with
  | O => Ret (s, alloced)
  | S n' =>
      let! (s1, page) := __rmqueue s z order in
      match page with
      | None => Ret (s1, alloced)
      | Some p =>
          let '(s2, bad) := check_new_page s1 p in
          if bad then rmqueue_bulk n' s2 z cpu order alloced
          else rmqueue_bulk n' (upd_pcp s2 z cpu (pcp_add_tail p)) z cpu order (alloced + 1)
      end
  end.

(** check_new_pcp() is constantly false: one round. *)
Definition __rmqueue_pcplist (s : mm) (z : zid) (cpu : Z) : outcome (mm * option Z) :=
  let! s1 :=
    (match pcp_lists (pcp_of s z cpu) with
     | [] =>
         let! (s', n) := rmqueue_bulk (Z.to_nat (pcp_batch (pcp_of s z cpu))) s z cpu 0 0 in
         Ret (upd_pcp s' z cpu (pcp_count_add n))
     | _ => Ret s
     end) in
  match pcp_lists (pcp_of s1 z cpu) with
  | [] => Ret (s1, None)
  | p :: _ => Ret (upd_pcp (list_del s1 p) z cpu (pcp_count_add (-1)), Some p)
  end.

Definition rmqueue_pcplist (s : mm) (z : zid) (cpu : Z) : outcome (mm * option Z) :=
  __rmqueue_pcplist s z cpu.

(** ** Allocation *)

(** Free pages of a zone, the measure of the retry loop of rmqueue(). *)
Definition free_pages_of (s : mm) (z : zid) : Z :=
  foldr (fun o acc => Z.of_nat (length (fa_list (area s z o))) * 2 ^ o + acc) 0
    (map Z.of_nat (seq 0 (Z.to_nat MAX_ORDER))).

(** [do { ... } while (page && check_new_pages(page, order));] *)
Fixpoint rmqueue_retry (fuel : nat) (s : mm) (z : zid) (order : Z) : outcome (mm * option Z) :=
  match fuel with
  | O => Stuck
  | S fuel' =>
      let! (s1, p1) := __rmqueue_smallest s z order in
      let! (s2, p2) := (match p1 with
                        | None => __rmqueue s1 z order
                        | Some _ => Ret (s1, p1)
                        end) in
      match p2 with
      | None => Ret (s2, None)
      | Some p =>
          let '(s3, bad) := check_new_pages s2 p order in
          if bad then rmqueue_retry fuel' s3 z order else Ret (s3, Some p)
      end
  end.

(** Every retry discards a block, so the free pages bound the rounds. *)
Definition rmqueue (s : mm) (z : zid) (cpu order : Z) : outcome (mm * option Z) :=
  if order =? 0 then rmqueue_pcplist s z cpu
  else rmqueue_retry (S (Z.to_nat (free_pages_of s z))) s z order.

(** [for (i = 1; i < nr_pages; i++)] of prep_compound_page(), [n] tails left. *)
Fixpoint prep_tails (n : nat) (s : mm) (head p : Z) : mm :=
  match n with
  | O => s
  | S n' =>
      prep_tails n'
        (upd_page s p (fun g => set_head (Some head) (set_mapping TAIL_MAPPING (set_count 0 g))))
        head (p + 1)
  end.

Definition prep_compound_page (s : mm) (page order : Z) : mm :=
  let s1 := upd_page s (page + 1) (set_corder order) in
  let s2 := upd_page s1 page (fun g => set_flags (Z.lor (pg_flags g) (2 ^ PG_head)) g) in
  let s3 := prep_tails (Z.to_nat (2 ^ order - 1)) s2 page (page + 1) in
  upd_page s3 (page + 1) (set_cmapcount (-1)).

Definition post_alloc_hook (s : mm) (page : Z) : outcome mm :=
  set_page_refcounted (upd_page s page (set_private 0)) page.

(** clear_page() for __GFP_ZERO writes page contents, which the model does not
    carry. *)
Definition prep_new_page (s : mm) (page order : Z) : outcome mm :=
  let! s1 := post_alloc_hook s page in
  Ret (if order =? 0 then s1 else prep_compound_page s1 page order).

(** A zonelist: the zone and its index; the list's end is the NULL zone. *)
Record zoneref := mk_zoneref { zr_zone : zid; zr_idx : Z }.

(** __next_zones_zonelist(): skip the entries above [highidx] or, with a
    nodemask, those on other nodes. *)
Fixpoint next_zones_zonelist (l : list zoneref) (highidx : Z) (nodes : option (Z -> bool))
    : list zoneref :=
  match l with
  | [] => []
  | r :: l' =>
      if (zr_idx r >? highidx)
         || match nodes with Some m => negb (m (fst (zr_zone r))) | None => false end
      then next_zones_zonelist l' highidx nodes
      else l
  end.

Definition zone_to_nid (z : zid) : Z := fst z.

(** How the zone loop of get_page_from_freelist() ends. *)
Inductive loop_end := Found (page : Z) | Exhausted | Retry.

(** The zone loop; [cursor] is the zonelist from [z] on. *)
Fixpoint freelist_loop (fuel : nat) (s : mm) (nr_online_nodes : Z) (cursor : list zoneref)
    (preferred : zid) (highidx : Z) (nodes : option (Z -> bool)) (cpu order : Z)
    : outcome (mm * loop_end) :=
  match fuel with
  | O => Stuck
  | S fuel' =>
      match cursor with
      | [] => Ret (s, Exhausted)
      | r :: rest =>
          let z := zr_zone r in
          if (nr_online_nodes >? 1) && negb (bool_decide (z = preferred))
             && negb (zone_to_nid z =? zone_to_nid preferred)
          then Ret (s, Retry)
          else
            let! (s1, page) := rmqueue s z cpu order in
            match page with
            | Some p =>
                let! s2 := prep_new_page s1 p order in
                Ret (s2, Found p)
            | None =>
                freelist_loop fuel' s1 nr_online_nodes (next_zones_zonelist rest highidx nodes)
                  preferred highidx nodes cpu order
            end
      end
  end.

(** [zonelist] starts at the preferred zone; [fuel] bounds the number of
    [goto retry]. *)
Fixpoint get_page_from_freelist (fuel : nat) (s : mm) (nr_online_nodes : Z) (zonelist : list zoneref)
    (highidx : Z) (nodes : option (Z -> bool)) (cpu order : Z) : outcome (mm * option Z) :=
  match fuel with
  | O => Stuck
  | S fuel' =>
      match zonelist with
      | [] => Ret (s, None)
      | r :: _ =>
          let! (s1, e) := freelist_loop (S (length zonelist)) s nr_online_nodes zonelist
                            (zr_zone r) highidx nodes cpu order in
          match e with
          | Found p => Ret (s1, Some p)
          | Exhausted => Ret (s1, None)
          | Retry => get_page_from_freelist fuel' s1 nr_online_nodes zonelist highidx nodes cpu order
          end
      end
  end.

(** __alloc_pages_nodemask() with the zonelist of the preferred node; the slow
    path is BUG_ON(1). *)
Definition __alloc_pages_nodemask (fuel : nat) (s : mm) (nr_online_nodes : Z) (node_zonelist : list zoneref)
    (highidx : Z) (nodes : option (Z -> bool)) (cpu order : Z) : outcome (mm * option Z) :=
  if order >=? MAX_ORDER then Ret (s, None)
  else
    let! (s1, page) := get_page_from_freelist fuel s nr_online_nodes
                         (next_zones_zonelist node_zonelist highidx nodes) highidx nodes cpu order in
    match page with
    | Some p => Ret (s1, Some p)
    | None => Panic
    end.

(** ** Freeing *)

Definition compound_order (s : mm) (p : Z) : Z :=
  if PageHead (page_at s p) then pg_corder (page_at s (p + 1)) else 0.

Definition compound_mapcount (s : mm) (p : Z) : outcome Z :=
  let! _ := VM_BUG_ON (negb (PageCompound (page_at s p))) in
  Ret (pg_cmapcount (page_at s (compound_head p (page_at s p) + 1)) + 1).

(** free_tail_pages_check(): the flag is its nonzero result. *)
Definition free_tail_pages_check (s : mm) (head p : Z) : outcome (mm * bool) :=
  let fini (s : mm) (ret : bool) : outcome (mm * bool) :=
    Ret (upd_page s p (fun g => set_head None (set_mapping 0 g)), ret) in
  let! bad1 :=
    (if p - head =? 1 then let! m := compound_mapcount s p in Ret (negb (m =? 0))
     else if p - head =? 2 then Ret false
     else Ret (negb (pg_mapping (page_at s p) =? TAIL_MAPPING))) in
  if bad1 then fini (bad_page s p) true
  else if negb (PageTail (page_at s p)) then fini (bad_page s p) true
  else if negb (compound_head p (page_at s p) =? head) then fini (bad_page s p) true
  else fini s false.

Definition clear_prep_flags (g : page) : page :=
  set_flags (Z.land (pg_flags g) (Z.lnot PAGE_FLAGS_CHECK_AT_PREP)) g.

(** [for (i = 1; i < (1 << order); i++)] of free_pages_prepare(): [n] tails
    left from [p]; [bad] counts the bad pages. *)
Fixpoint prepare_tails (n : nat) (s : mm) (head p : Z) (compound : bool) (bad : Z) : outcome (mm * Z) :=
  match n with
  | O => Ret (s, bad)
  | S n' =>
      let! (s1, b1) := (if compound then free_tail_pages_check s head p else Ret (s, false)) in
      let bad1 := if b1 then bad + 1 else bad in
      let '(s2, b2) := free_pages_check s1 p in
      if b2 then prepare_tails n' s2 head (p + 1) compound (bad1 + 1)
      else prepare_tails n' (upd_page s2 p clear_prep_flags) head (p + 1) compound bad1
  end.

Definition free_pages_prepare (s : mm) (page order : Z) (check_free : bool) : outcome (mm * bool) :=
  let! _ := VM_BUG_ON (PageTail (page_at s page)) in
  let! (s1, bad1) :=
    (if order =? 0 then Ret (s, 0)
     else
       let compound := PageCompound (page_at s page) in
       let! _ := VM_BUG_ON (compound && negb (compound_order s page =? order)) in
       prepare_tails (Z.to_nat (2 ^ order - 1)) s page (page + 1) compound 0) in
  let s2 := if PageMappingFlags (page_at s1 page) then upd_page s1 page (set_mapping 0) else s1 in
  let '(s3, b) := if check_free then free_pages_check s2 page else (s2, false) in
  if negb ((if b then bad1 + 1 else bad1) =? 0) then Ret (s3, false)
  else Ret (upd_page s3 page clear_prep_flags, true).

Definition __free_pages_ok (s : mm) (page order : Z) : outcome mm :=
  let! (s1, ok) := free_pages_prepare s page order true in
  if negb ok then Ret s1
  else free_one_page s1 (page_zone (page_at s1 page)) page order.

(** The collecting loop of free_pcppages_bulk(): [count] pages left, [inner]
    tells whether control is inside the inner do-while.  The scan for a
    nonempty list spins forever on an empty one: [Stuck]. *)
Fixpoint pcp_collect (count : nat) (inner : bool) (batch_free : Z) (s : mm) (z : zid) (cpu : Z)
    (head : list Z) : outcome (mm * list Z) :=
  match count with
  | O => Ret (s, head)
  | S count' =>
      match list.last (pcp_lists (pcp_of s z cpu)) with
      | None => Stuck
      | Some p =>
          let batch_free := if inner then batch_free else batch_free + 1 in
          let s1 := upd_pcp (list_del s p) z cpu (pcp_count_add (-1)) in
          let '(s2, bad) := free_pages_check s1 p in
          let head' := if bad then head else head ++ [p] in
          match count' with
          | O => Ret (s2, head')
          | _ =>
              let more := negb (batch_free - 1 =? 0)
                          && negb (bool_decide (pcp_lists (pcp_of s2 z cpu) = [])) in
              pcp_collect count' more (batch_free - 1) s2 z cpu head'
          end
      end
  end.

Fixpoint free_collected (l : list Z) (s : mm) (z : zid) : outcome mm :=
  match l with
  | [] => Ret s
  | p :: l' => let! s1 := __free_one_page s p z 0 in free_collected l' s1 z
  end.

Definition free_pcppages_bulk (s : mm) (z : zid) (count cpu : Z) : outcome mm :=
  let! (s1, head) := pcp_collect (Z.to_nat count) false 0 s z cpu [] in
  free_collected head s1 z.

Definition free_unref_page_commit (s : mm) (page cpu : Z) : outcome mm :=
  let z := page_zone (page_at s page) in
  let s1 := upd_pcp (upd_pcp s z cpu (pcp_add page)) z cpu (pcp_count_add 1) in
  if pcp_count (pcp_of s1 z cpu) >=? pcp_high (pcp_of s1 z cpu)
  then free_pcppages_bulk s1 z (pcp_batch (pcp_of s1 z cpu)) cpu
  else Ret s1.

Definition free_unref_page (s : mm) (page cpu : Z) : outcome mm :=
  let! (s1, ok) := free_pages_prepare s page 0 false in
  if negb ok then Ret s1 else free_unref_page_commit s1 page cpu.

Definition free_the_page (s : mm) (page order cpu : Z) : outcome mm :=
  if order =? 0 then free_unref_page s page cpu else __free_pages_ok s page order.

(** put_page_testzero(page). *)
Definition put_page_testzero (s : mm) (page : Z) : outcome (mm * bool) :=
  let! _ := VM_BUG_ON (pg_count (page_at s page) =? 0) in
  let c := pg_count (page_at s page) - 1 in
  Ret (upd_page s page (set_count c), c =? 0).

Definition __free_pages (s : mm) (page order cpu : Z) : outcome mm :=
  let! (s1, zero) := put_page_testzero s page in
  if zero then free_the_page s1 page order cpu else Ret s1.

(** ** Boot-time release *)

Definition clear_reserved (g : page) : page :=
  set_count 0 (set_flags (Z.land (pg_flags g) (Z.lnot (2 ^ PG_reserved))) g).

Fixpoint boot_clear (n : nat) (s : mm) (p : Z) : mm :=
  match n with
  | O => s
  | S n' => boot_clear n' (upd_page s p clear_reserved) (p + 1)
  end.

Definition __free_pages_boot_core (s : mm) (page order cpu : Z) : outcome mm :=
  let nr_pages := 2 ^ order in
  let s1 := boot_clear (Z.to_nat nr_pages) s page in
  let s2 := upd_zone s1 (page_zone (page_at s1 page))
              (fun zn => mk_zone (z_area zn) (z_pageset zn) (z_initialized zn) (z_managed zn + nr_pages)) in
  let! s3 := set_page_refcounted s2 page in
  __free_pages s3 page order cpu.

Definition memblock_free_pages := __free_pages_boot_core.

(** reserve_bootmem_region(start, end): [n] frames left from [pfn]. *)
Fixpoint reserve_loop (n : nat) (s : mm) (pfn : Z) : mm :=
  match n with
  | O => s
  | S n' =>
      reserve_loop n'
        (if pfn_valid s pfn
         then upd_page s pfn (fun g => set_head None (set_flags (Z.lor (pg_flags g) (2 ^ PG_reserved)) g))
         else s) (pfn + 1)
  end.

Definition reserve_bootmem_region (s : mm) (start end_ : Z) : mm :=
  let start_pfn := Z.shiftr start 12 in
  let end_pfn := Z.shiftr (u64 (end_ + 4096 - 1)) 12 in
  reserve_loop (Z.to_nat (end_pfn - start_pfn)) s start_pfn.
