(* ===== verification/BuddyInv.v ===== *)
(** * The buddy allocator: invariant and block moves

    The invariant of a zone ([zone_wf]): every free list holds distinct,
    aligned, disjoint blocks whose head page is marked with the order, every
    marked page heads a listed block, the counters are the list lengths, and
    no two free buddies of the same order exist.  All code paths change the
    lists by taking one block off or putting one on; the two lemmas
    [del_block_wf] and [add_block_wf] carry the invariant through both. *)

From S2P Require Import Prelude Buddy.
From stdpp Require Import base list numbers option functions.
#[local] Open Scope Z_scope.
#[local] Open Scope kernel_scope.

(** ** Buddy arithmetic *)

Lemma lxor_one_even k : Z.lxor (2 * k) 1 = 2 * k + 1.
Proof.
  rewrite <- Z.add_nocarry_lxor; [done|]. change 1 with (Z.ones 1).
  rewrite Z.land_ones by lia. rewrite Z.mul_comm. apply Z.mod_mul. lia.
Qed.

Lemma lxor_one_odd k : Z.lxor (2 * k + 1) 1 = 2 * k.
Proof. by rewrite <- lxor_one_even, Z.lxor_assoc, Z.lxor_nilpotent, Z.lxor_0_r. Qed.

Lemma land_even_odd k : Z.land (2 * k) (2 * k + 1) = 2 * k.
Proof.
  apply Z.bits_inj'. intros n Hn. rewrite Z.land_spec.
  destruct (Z.eq_dec n 0) as [->|]; [by rewrite Z.testbit_even_0|].
  replace n with (Z.succ (n - 1)) by lia.
  rewrite Z.testbit_even_succ, Z.testbit_odd_succ by lia. by destruct (Z.testbit k (n - 1)).
Qed.

(** The lower of a block and its buddy, and where the buddy lies. *)
Lemma buddy_spec p o :
  0 <= o -> 0 <= p -> (2 ^ o | p) ->
  ((2 ^ (o + 1) | p) /\ __find_buddy_pfn p o = p + 2 ^ o /\ Z.land (__find_buddy_pfn p o) p = p)
  \/ ((2 ^ (o + 1) | p - 2 ^ o) /\ __find_buddy_pfn p o = p - 2 ^ o
      /\ Z.land (__find_buddy_pfn p o) p = p - 2 ^ o /\ 2 ^ o <= p).
Proof.
  intros Ho Hp [m ->]. unfold __find_buddy_pfn.
  assert (H2 : 0 < 2 ^ o) by (apply Z.pow_pos_nonneg; lia).
  assert (Hm : 0 <= m) by nia.
  assert (Hx : Z.lxor (m * 2 ^ o) (2 ^ o) = Z.lxor m 1 * 2 ^ o).
  { rewrite <- !Z.shiftl_mul_pow2, Z.shiftl_lxor by lia. by rewrite Z.shiftl_1_l. }
  assert (Hl : forall a, Z.land (a * 2 ^ o) (m * 2 ^ o) = Z.land a m * 2 ^ o).
  { intros a. by rewrite <- !Z.shiftl_mul_pow2, Z.shiftl_land by lia. }
  rewrite Hx, Hl, Z.pow_add_r, Z.pow_1_r by lia.
  destruct (Z.Even_or_Odd m) as [[k ->]|[k ->]]; [left|right].
  - rewrite lxor_one_even, Z.land_comm, land_even_odd. split_and!; [exists k; lia|lia|lia].
  - rewrite lxor_one_odd, land_even_odd. split_and!; [exists k; lia|lia|lia|nia].
Qed.

Lemma buddy_invol p o : __find_buddy_pfn (__find_buddy_pfn p o) o = p.
Proof. unfold __find_buddy_pfn. by rewrite Z.lxor_assoc, Z.lxor_nilpotent, Z.lxor_0_r. Qed.

(** ** The invariant *)

Definition in_blk (p o q : Z) : Prop := p <= q < p + 2 ^ o.

(** Block [p, p + 2^o) is on the free list of its order. *)
Definition blk (s : mm) (z : zid) (p o : Z) : Prop :=
  0 <= o < MAX_ORDER /\ p ∈ fa_list (area s z o).

Definition BUDDY_TYPE : Z := 0xffffff7f.

(** Nothing in the page contradicts its being free. *)
Definition quiet (g : page) : Prop :=
  pg_count g = 0 /\ pg_mapping g = 0 /\ Z.land (pg_flags g) PAGE_FLAGS_CHECK_AT_PREP = 0
  /\ pg_head g = None.

(** A page that is free to be used and heads no listed block. *)
Definition idle (g : page) : Prop := quiet g /\ pg_type g = MAPCOUNT_NONE.

Record zone_wf (s : mm) (z : zid) : Prop := {
  wf_init : z_initialized (zones s z) = true;
  wf_nodup : forall o, 0 <= o < MAX_ORDER -> NoDup (fa_list (area s z o));
  wf_nr : forall o, 0 <= o < MAX_ORDER ->
            fa_nr (area s z o) = u64 (Z.of_nat (length (fa_list (area s z o))));
  wf_head : forall p o, blk s z p o ->
            quiet (page_at s p) /\ pg_type (page_at s p) = BUDDY_TYPE /\ pg_private (page_at s p) = o;
  wf_align : forall p o, blk s z p o -> 0 <= p /\ (2 ^ o | p);
  wf_inside : forall p o q, blk s z p o -> in_blk p o q ->
            pfn_valid s q = true /\ page_zone (page_at s q) = z /\ (q <> p -> idle (page_at s q));
  wf_buddy : forall p, pfn_valid s p = true -> page_zone (page_at s p) = z ->
            PageBuddy (page_at s p) = true -> blk s z p (pg_private (page_at s p));
  wf_disj : forall p o q o' x, blk s z p o -> blk s z q o' -> in_blk p o x -> in_blk q o' x ->
            p = q /\ o = o';
  wf_coal : forall p o, blk s z p o -> o < MAX_ORDER - 1 -> ~ blk s z (__find_buddy_pfn p o) o
}.

(** The pages a zone's free lists stand for. *)
Definition free_page (s : mm) (z : zid) (q : Z) : Prop := exists p o, blk s z p o /\ in_blk p o q.

Lemma BUDDY_is_buddy g : pg_type g = BUDDY_TYPE -> PageBuddy g = true.
Proof. unfold PageBuddy, PageType. intros ->. reflexivity. Qed.

Lemma MAPCOUNT_not_buddy g : pg_type g = MAPCOUNT_NONE -> PageBuddy g = false.
Proof. unfold PageBuddy, PageType. intros ->. reflexivity. Qed.

Lemma in_blk_head p o : 0 <= o -> in_blk p o p.
Proof. intros. unfold in_blk. assert (0 < 2 ^ o) by (apply Z.pow_pos_nonneg; lia). lia. Qed.

(** A free page that is marked heads the block it lies in. *)
Lemma free_buddy_page s z q :
  zone_wf s z -> free_page s z q -> PageBuddy (page_at s q) = true -> blk s z q (pg_private (page_at s q)).
Proof.
  intros Hwf (p & o & Hb & Hin) Hq. destruct (wf_inside s z Hwf p o q Hb Hin) as (? & ? & _).
  by apply (wf_buddy s z Hwf).
Qed.

(** A page of a zone is on the lists of one order only. *)
Lemma blk_order s z p o o' : zone_wf s z -> blk s z p o -> blk s z p o' -> o = o'.
Proof.
  intros Hwf H1 H2. destruct (wf_head s z Hwf p o H1) as (_ & _ & <-).
  by destruct (wf_head s z Hwf p o' H2) as (_ & _ & <-).
Qed.

(** ** Taking a block off *)

Definition unlink_page (g : page) : page := set_private 0 (set_type_word (Z.lor (pg_type g) PG_buddy) g).

Record block_deleted (s s' : mm) (z : zid) (b o : Z) : Prop := {
  bd_page : forall q, page_at s' q = if decide (q = b) then unlink_page (page_at s b) else page_at s q;
  bd_valid : forall q, pfn_valid s' q = pfn_valid s q;
  bd_list : forall z' o', fa_list (area s' z' o') = drop_page b (fa_list (area s z' o'));
  bd_nr : forall z' o', fa_nr (area s' z' o') =
            if decide (z' = z /\ o' = o) then u64 (fa_nr (area s z' o') - 1) else fa_nr (area s z' o');
  bd_init : forall z', z_initialized (zones s' z') = z_initialized (zones s z');
  bd_pcp : forall z' c, pcp_of s' z' c =
            mk_pcp (pcp_count (pcp_of s z' c)) (pcp_high (pcp_of s z' c)) (pcp_batch (pcp_of s z' c))
              (drop_page b (pcp_lists (pcp_of s z' c)))
}.

(** ** Putting a block on *)

Definition link_page (o : Z) (g : page) : page :=
  set_type_word (Z.land (pg_type g) (Z.lnot PG_buddy)) (set_private o g).

Record block_added (s s' : mm) (z : zid) (b o : Z) : Prop := {
  ba_page : forall q, page_at s' q = if decide (q = b) then link_page o (page_at s b) else page_at s q;
  ba_valid : forall q, pfn_valid s' q = pfn_valid s q;
  ba_list : forall z' o', fa_list (area s' z' o') ≡ₚ
            if decide (z' = z /\ o' = o) then b :: fa_list (area s z' o') else fa_list (area s z' o');
  ba_nr : forall z' o', fa_nr (area s' z' o') =
            if decide (z' = z /\ o' = o) then u64 (fa_nr (area s z' o') + 1) else fa_nr (area s z' o');
  ba_init : forall z', z_initialized (zones s' z') = z_initialized (zones s z');
  ba_pcp : forall z' c, pcp_of s' z' c = pcp_of s z' c
}.

Lemma elem_of_drop_page p q l : q ∈ drop_page p l <-> q ∈ l /\ q <> p.
Proof. unfold drop_page. rewrite list_elem_of_filter. tauto. Qed.

Lemma drop_page_NoDup p l : NoDup l -> NoDup (drop_page p l).
Proof. apply list.NoDup_filter. Qed.

Lemma drop_page_out p l : p ∉ l -> drop_page p l = l.
Proof.
  intros H. unfold drop_page. induction l as [|q l IH]; [done|].
  rewrite not_elem_of_cons in H. destruct H. rewrite filter_cons_True by congruence. by rewrite IH.
Qed.

Lemma drop_page_length p l : NoDup l -> p ∈ l -> length l = S (length (drop_page p l)).
Proof.
  intros Hn Hin. induction l as [|q l IH]; [by apply not_elem_of_nil in Hin|].
  apply list.NoDup_cons in Hn as [Hq Hn]. unfold drop_page. destruct (decide (q = p)) as [->|Hne].
  - rewrite filter_cons_False by tauto. fold (drop_page p l). by rewrite drop_page_out.
  - rewrite filter_cons_True by done. fold (drop_page p l). cbn. f_equal. apply IH; [done|].
    apply elem_of_cons in Hin as [->|]; done.
Qed.

(** The blocks after a removal. *)
Lemma bd_blk s s' z b o : block_deleted s s' z b o ->
  forall z' q o', blk s' z' q o' <-> blk s z' q o' /\ q <> b.
Proof. intros H z' q o'. unfold blk. rewrite (bd_list _ _ _ _ _ H), elem_of_drop_page. tauto. Qed.

Lemma unlink_idle g : quiet g -> pg_type g = BUDDY_TYPE -> idle (unlink_page g).
Proof. intros Hq Ht. split; [done|]. cbn. rewrite Ht. reflexivity. Qed.

Lemma unlink_zone g : page_zone (unlink_page g) = page_zone g.
Proof. done. Qed.

Section Delete.
Context (s s' : mm) (z : zid) (b o : Z).
Context (Hwf : zone_wf s z) (Hb : blk s z b o) (H : block_deleted s s' z b o).

Lemma bd_page_other q : q <> b -> page_at s' q = page_at s q.
Proof. intros. rewrite (bd_page _ _ _ _ _ H). by rewrite decide_False. Qed.

Lemma bd_page_zone q : page_zone (page_at s' q) = page_zone (page_at s q).
Proof. rewrite (bd_page _ _ _ _ _ H). destruct (decide (q = b)) as [->|]; done. Qed.

Lemma bd_idle : idle (page_at s' b).
Proof.
  rewrite (bd_page _ _ _ _ _ H), decide_True by done.
  destruct (wf_head s z Hwf b o Hb) as (Hq & Ht & _). by apply unlink_idle.
Qed.

Lemma del_block_wf : zone_wf s' z.
Proof.
  pose proof (bd_blk _ _ _ _ _ H z) as Hblk. split.
  - rewrite (bd_init _ _ _ _ _ H). apply Hwf.
  - intros o' Ho. rewrite (bd_list _ _ _ _ _ H). apply drop_page_NoDup. by apply Hwf.
  - intros o' Ho. rewrite (bd_list _ _ _ _ _ H), (bd_nr _ _ _ _ _ H).
    pose proof (wf_nodup s z Hwf o' Ho). rewrite (wf_nr s z Hwf o' Ho).
    case_decide as E.
    + destruct E as [_ ->]. rewrite (drop_page_length b (fa_list (area s z o))) by (done || apply Hb).
      rewrite u64_sub_l. f_equal. lia.
    + rewrite drop_page_out; [done|]. intros Hin. apply E. split; [done|].
      by apply (blk_order s z b).
  - intros p o' Hp. apply Hblk in Hp as [Hp Hne]. rewrite bd_page_other by done. by apply Hwf.
  - intros p o' Hp. apply Hblk in Hp as [Hp Hne]. by apply Hwf.
  - intros p o' q Hp Hin. apply Hblk in Hp as [Hp Hne].
    destruct (wf_inside s z Hwf p o' q Hp Hin) as (Hv & Hz & Hi).
    rewrite (bd_valid _ _ _ _ _ H), bd_page_zone. split_and!; try done. intros Hqp.
    assert (q <> b). { intros ->. destruct (wf_disj s z Hwf p o' b o b Hp Hb Hin); [|done].
      apply in_blk_head. apply Hb. }
    rewrite bd_page_other by done. auto.
  - intros p Hv Hz Hbud. rewrite (bd_valid _ _ _ _ _ H) in Hv. rewrite bd_page_zone in Hz.
    destruct (decide (p = b)) as [->|Hne].
    { destruct bd_idle as [_ Ht]. rewrite MAPCOUNT_not_buddy in Hbud by done. done. }
    rewrite bd_page_other in * by done. apply Hblk. split; [|done]. by apply Hwf.
  - intros p o1 q o2 x Hp Hq. apply Hblk in Hp as [Hp _]. apply Hblk in Hq as [Hq _]. by apply Hwf.
  - intros p o' Hp Ho Hbud. apply Hblk in Hp as [Hp _]. apply Hblk in Hbud as [Hbud _].
    by apply (wf_coal s z Hwf p o').
Qed.

(** The pages the block gives up. *)
Lemma del_block_free q : free_page s' z q <-> free_page s z q /\ ~ in_blk b o q.
Proof.
  unfold free_page. setoid_rewrite (bd_blk _ _ _ _ _ H z). split.
  - intros (p & o' & [Hp Hne] & Hin). split; [eauto|]. intros Hb'.
    by destruct (wf_disj s z Hwf p o' b o q Hp Hb Hin Hb').
  - intros [(p & o' & Hp & Hin) Hno]. exists p, o'. split_and!; try done. intros ->.
    apply Hno. by rewrite (blk_order s z b o o' Hwf Hb Hp).
Qed.

(** What is left of the block: idle pages of the zone. *)
Lemma del_block_pages q : in_blk b o q ->
  pfn_valid s' q = true /\ page_zone (page_at s' q) = z /\ idle (page_at s' q).
Proof.
  intros Hin. destruct (wf_inside s z Hwf b o q Hb Hin) as (Hv & Hz & Hi).
  rewrite (bd_valid _ _ _ _ _ H), bd_page_zone. split_and!; try done.
  destruct (decide (q = b)) as [->|Hne]; [apply bd_idle|]. rewrite bd_page_other by done. auto.
Qed.

End Delete.

(** A block of idle pages of the zone that is on no list: what an operation
    holds between taking blocks off and putting them back. *)
Record loose (s : mm) (z : zid) (b o : Z) : Prop := {
  lo_order : 0 <= o < MAX_ORDER;
  lo_pos : 0 <= b;
  lo_align : (2 ^ o | b);
  lo_pages : forall q, in_blk b o q ->
    pfn_valid s q = true /\ page_zone (page_at s q) = z /\ idle (page_at s q);
  lo_free : forall q, in_blk b o q -> ~ free_page s z q
}.

Lemma del_block_loose s s' z b o :
  zone_wf s z -> blk s z b o -> block_deleted s s' z b o -> loose s' z b o.
Proof.
  intros Hwf Hb H. destruct (wf_align s z Hwf b o Hb) as [? ?]. split; try done.
  - apply Hb.
  - intros q Hq. by apply (del_block_pages s s' z b o).
  - intros q Hq Hf. apply (del_block_free s s' z b o Hwf Hb H) in Hf. tauto.
Qed.

Lemma link_type g o : pg_type g = MAPCOUNT_NONE -> pg_type (link_page o g) = BUDDY_TYPE.
Proof. intros Ht. cbn. rewrite Ht. reflexivity. Qed.

Section Add.
Context (s s' : mm) (z : zid) (b o : Z).
Context (Hwf : zone_wf s z) (Hl : loose s z b o) (H : block_added s s' z b o).
Context (Hno : o < MAX_ORDER - 1 -> ~ blk s z (__find_buddy_pfn b o) o).

Lemma ba_blk z' q o' : blk s' z' q o' <-> blk s z' q o' \/ (z' = z /\ q = b /\ o' = o).
Proof.
  unfold blk. rewrite (ba_list _ _ _ _ _ H). destruct Hl as [Ho _ _ _ _].
  case_decide as E; [destruct E as [-> ->]; rewrite elem_of_cons|]; [tauto|].
  split; [tauto|]. intros [?|(-> & -> & ->)]; [done|]. tauto.
Qed.

Lemma ba_page_other q : q <> b -> page_at s' q = page_at s q.
Proof. intros. rewrite (ba_page _ _ _ _ _ H). by rewrite decide_False. Qed.

Lemma ba_page_zone q : page_zone (page_at s' q) = page_zone (page_at s q).
Proof. rewrite (ba_page _ _ _ _ _ H). destruct (decide (q = b)) as [->|]; done. Qed.

Lemma loose_apart p o' x : blk s z p o' -> in_blk p o' x -> in_blk b o x -> False.
Proof. intros Hp Hin Hx. apply (lo_free s z b o Hl x Hx). by exists p, o'. Qed.

Lemma loose_not_listed o' : ~ blk s z b o'.
Proof.
  intros Hb. apply (loose_apart b o' b Hb); apply in_blk_head; [apply Hb|apply Hl].
Qed.

Lemma ba_head : quiet (page_at s' b) /\ pg_type (page_at s' b) = BUDDY_TYPE /\ pg_private (page_at s' b) = o.
Proof.
  rewrite (ba_page _ _ _ _ _ H), decide_True by done.
  destruct (lo_pages s z b o Hl b (in_blk_head b o (proj1 (lo_order s z b o Hl)))) as (_ & _ & Hq & Ht).
  split_and!; [done|by apply link_type|done].
Qed.

Lemma add_block_lists o' : 0 <= o' < MAX_ORDER ->
  NoDup (fa_list (area s' z o')) /\ fa_nr (area s' z o') = u64 (Z.of_nat (length (fa_list (area s' z o')))).
Proof.
  intros Ho. pose proof (wf_nodup s z Hwf o' Ho). pose proof (wf_nr s z Hwf o' Ho) as Hnr.
  rewrite (ba_list _ _ _ _ _ H), (ba_nr _ _ _ _ _ H), Hnr. case_decide as E; [|done].
  destruct E as [_ ->]. split.
  - apply list.NoDup_cons. split; [|done]. intros Hin. by apply (loose_not_listed o).
  - rewrite u64_add_l. cbn [length]. f_equal. lia.
Qed.

Lemma add_block_wf : zone_wf s' z.
Proof.
  pose proof (ba_blk z) as Hblk. split.
  - rewrite (ba_init _ _ _ _ _ H). apply Hwf.
  - intros o' Ho. by apply add_block_lists.
  - intros o' Ho. by apply add_block_lists.
  - intros p o' Hp. apply Hblk in Hp as [Hp|(_ & -> & ->)]; [|apply ba_head].
    rewrite ba_page_other by (intros ->; by apply loose_not_listed in Hp). by apply Hwf.
  - intros p o' Hp. apply Hblk in Hp as [Hp|(_ & -> & ->)]; [by apply Hwf|]. by destruct Hl.
  - intros p o' q Hp Hin. rewrite (ba_valid _ _ _ _ _ H), ba_page_zone.
    apply Hblk in Hp as [Hp|(_ & -> & ->)].
    + destruct (wf_inside s z Hwf p o' q Hp Hin) as (? & ? & ?). split_and!; try done. intros Hne.
      rewrite ba_page_other; [auto|]. intros ->. apply (loose_apart p o' b Hp Hin). apply in_blk_head. apply Hl.
    + destruct (lo_pages s z b o Hl q Hin) as (? & ? & ?). split_and!; try done. intros Hne.
      by rewrite ba_page_other.
  - intros p Hv Hz Hbud. rewrite (ba_valid _ _ _ _ _ H) in Hv. rewrite ba_page_zone in Hz.
    apply Hblk. destruct (decide (p = b)) as [->|Hne].
    + right. by destruct ba_head as (_ & _ & ->).
    + left. rewrite ba_page_other in * by done. by apply Hwf.
  - intros p o1 q o2 x Hp Hq Hx1 Hx2.
    apply Hblk in Hp as [Hp|(_ & -> & ->)]; apply Hblk in Hq as [Hq|(_ & -> & ->)].
    + by apply (wf_disj s z Hwf p o1 q o2 x).
    + by destruct (loose_apart p o1 x).
    + by destruct (loose_apart q o2 x).
    + done.
  - intros p o' Hp Ho Hbud. apply Hblk in Hp as [Hp|(_ & -> & ->)]; apply Hblk in Hbud as [Hbud|(_ & E & Eo)].
    + by apply (wf_coal s z Hwf p o').
    + subst o'. apply (Hno Ho). by rewrite <- E, buddy_invol.
    + by apply (Hno Ho).
    + destruct Hl as [? ? ? _ _]. assert (0 < 2 ^ o) by (apply Z.pow_pos_nonneg; lia).
      destruct (buddy_spec b o) as [(_ & ? & _)|(_ & ? & _)]; try done; lia.
Qed.

Lemma add_block_free q : free_page s' z q <-> free_page s z q \/ in_blk b o q.
Proof.
  unfold free_page. setoid_rewrite (ba_blk z). split.
  - intros (p & o' & [Hp|(_ & -> & ->)] & Hin); [left; eauto|by right].
  - intros [(p & o' & Hp & Hin)|Hin]; [exists p, o'; tauto|]. exists b, o. tauto.
Qed.

End Add.

(** ** Frames *)

(** A change that leaves a zone's lists and free pages alone, and marks none
    of its other pages, keeps the zone well formed. *)
Lemma zone_wf_frame s s' z :
  zone_wf s z ->
  (forall o, 0 <= o < MAX_ORDER -> fa_list (area s' z o) ≡ₚ fa_list (area s z o)) ->
  (forall o, 0 <= o < MAX_ORDER -> fa_nr (area s' z o) = fa_nr (area s z o)) ->
  z_initialized (zones s' z) = z_initialized (zones s z) ->
  (forall q, pfn_valid s' q = pfn_valid s q) ->
  (forall q, page_zone (page_at s' q) = page_zone (page_at s q)) ->
  (forall q, free_page s z q -> page_at s' q = page_at s q) ->
  (forall q, pfn_valid s q = true -> page_zone (page_at s q) = z -> ~ free_page s z q ->
     PageBuddy (page_at s' q) = false) ->
  zone_wf s' z /\ (forall q o, blk s' z q o <-> blk s z q o).
Proof.
  intros Hwf Hlist Hnr Hinit Hval Hzone Hfree Hmark.
  assert (Hblk : forall q o, blk s' z q o <-> blk s z q o).
  { intros q o. unfold blk. split; intros [Ho Hin]; (split; [done|]); by rewrite Hlist in * by done. }
  assert (Hf : forall p o q, blk s z p o -> in_blk p o q -> page_at s' q = page_at s q).
  { intros p o q Hp Hin. apply Hfree. by exists p, o. }
  split; [|done]. split.
  - rewrite Hinit. apply Hwf.
  - intros o Ho. rewrite Hlist by done. by apply Hwf.
  - intros o Ho. rewrite Hlist, Hnr by done. by apply Hwf.
  - intros p o Hp. apply Hblk in Hp. rewrite (Hf p o) by (done || apply in_blk_head, Hp). by apply Hwf.
  - intros p o Hp. apply Hblk in Hp. by apply Hwf.
  - intros p o q Hp Hin. apply Hblk in Hp. rewrite Hval, (Hf p o q) by done. by apply (wf_inside s z Hwf p o q).
  - intros p Hv Hz Hb. rewrite Hval in Hv. rewrite Hzone in Hz.
    destruct (PageBuddy (page_at s p)) eqn:E.
    + pose proof (wf_buddy s z Hwf p Hv Hz E) as Hp. apply Hblk.
      rewrite (Hf p _ p Hp) by (apply in_blk_head, Hp). done.
    + rewrite Hmark in Hb; [done|done|done|]. intros Hfp.
      rewrite (Hfree p Hfp) in Hb. congruence.
  - intros p o q o' x Hp Hq. apply Hblk in Hp, Hq. by apply Hwf.
  - intros p o Hp Ho Hb. apply Hblk in Hp, Hb. by apply (wf_coal s z Hwf p o).
Qed.

Lemma not_free_not_buddy s z q :
  zone_wf s z -> pfn_valid s q = true -> page_zone (page_at s q) = z -> ~ free_page s z q ->
  PageBuddy (page_at s q) = false.
Proof.
  intros Hwf Hv Hz Hf. destruct (PageBuddy (page_at s q)) eqn:E; [|done]. exfalso. apply Hf.
  pose proof (wf_buddy s z Hwf q Hv Hz E) as Hb. exists q, (pg_private (page_at s q)).
  split; [done|]. apply in_blk_head, Hb.
Qed.

Lemma free_page_valid s z q : zone_wf s z -> free_page s z q ->
  pfn_valid s q = true /\ page_zone (page_at s q) = z.
Proof. intros Hwf (p & o & Hp & Hin). by destruct (wf_inside s z Hwf p o q Hp Hin) as (? & ? & _). Qed.

(** Moving a block of one zone does not disturb another zone. *)
Lemma del_block_other s s' z z' b o :
  zone_wf s z' -> z' <> z -> page_zone (page_at s b) = z -> block_deleted s s' z b o ->
  zone_wf s' z' /\ (forall q o', blk s' z' q o' <-> blk s z' q o').
Proof.
  intros Hwf Hne Hz H.
  assert (Hp : forall q, page_zone (page_at s q) = z' -> page_at s' q = page_at s q).
  { intros q Hq. rewrite (bd_page _ _ _ _ _ H), decide_False by congruence. done. }
  apply zone_wf_frame; try done.
  - intros o' Ho. rewrite (bd_list _ _ _ _ _ H), drop_page_out; [done|]. intros Hin.
    destruct (wf_inside s z' Hwf b o' b) as (_ & ? & _); [done|apply in_blk_head; lia|congruence].
  - intros o' Ho. by rewrite (bd_nr _ _ _ _ _ H), decide_False by tauto.
  - apply (bd_init _ _ _ _ _ H).
  - apply (bd_valid _ _ _ _ _ H).
  - intros q. by apply (bd_page_zone s s' z b o).
  - intros q Hq. apply Hp. by apply (free_page_valid s z' q Hwf).
  - intros q Hv Hq Hf. rewrite Hp by done. by apply (not_free_not_buddy s z').
Qed.

Lemma add_block_other s s' z z' b o :
  zone_wf s z' -> z' <> z -> page_zone (page_at s b) = z -> block_added s s' z b o ->
  zone_wf s' z' /\ (forall q o', blk s' z' q o' <-> blk s z' q o').
Proof.
  intros Hwf Hne Hz H.
  assert (Hp : forall q, page_zone (page_at s q) = z' -> page_at s' q = page_at s q).
  { intros q Hq. rewrite (ba_page _ _ _ _ _ H), decide_False by congruence. done. }
  apply zone_wf_frame; try done.
  - intros o' Ho. by rewrite (ba_list _ _ _ _ _ H), decide_False by tauto.
  - intros o' Ho. by rewrite (ba_nr _ _ _ _ _ H), decide_False by tauto.
  - apply (ba_init _ _ _ _ _ H).
  - apply (ba_valid _ _ _ _ _ H).
  - intros q. by apply (ba_page_zone s s' z b o).
  - intros q Hq. apply Hp. by apply (free_page_valid s z' q Hwf).
  - intros q Hv Hq Hf. rewrite Hp by done. by apply (not_free_not_buddy s z').
Qed.

(** * The buddy allocator: allocation and freeing of blocks

    The code sequences of mm/page_alloc.c as block moves, and from them the
    specifications of expand(), __rmqueue_smallest() and __free_one_page():
    the invariant is kept and the set of free pages changes by exactly the
    block handed out or handed in. *)

(** What an operation on zone [z] that touches only the pages [R] leaves
    alone: the other pages, the other zones, and the per-CPU lists. *)
Record zone_frame (s s' : mm) (z : zid) (R : Z -> Prop) : Prop := {
  zf_valid : forall q, pfn_valid s' q = pfn_valid s q;
  zf_zone : forall q, page_zone (page_at s' q) = page_zone (page_at s q);
  zf_page : forall q, ~ R q -> page_at s' q = page_at s q;
  zf_zones : forall z', z' <> z -> zone_wf s z' ->
     zone_wf s' z' /\ (forall q o, blk s' z' q o <-> blk s z' q o);
  zf_init : forall z', z_initialized (zones s' z') = z_initialized (zones s z');
  zf_pcp : forall z' c, (forall q, q ∈ pcp_lists (pcp_of s z' c) -> ~ R q) ->
     pcp_of s' z' c = pcp_of s z' c
}.

Lemma zone_frame_refl s z R : zone_frame s s z R.
Proof. by split. Qed.

Lemma zone_frame_trans s1 s2 s3 z R :
  zone_frame s1 s2 z R -> zone_frame s2 s3 z R -> zone_frame s1 s3 z R.
Proof.
  intros [V1 Z1 P1 O1 I1 C1] [V2 Z2 P2 O2 I2 C2]. split.
  - intros q. by rewrite V2.
  - intros q. by rewrite Z2.
  - intros q Hq. by rewrite P2, P1.
  - intros z' Hne Hwf. destruct (O1 z' Hne Hwf) as [Hwf2 Hb1]. destruct (O2 z' Hne Hwf2) as [Hwf3 Hb2].
    split; [done|]. intros q o. by rewrite Hb2.
  - intros z'. by rewrite I2.
  - intros z' c Hq. rewrite C2; [by apply C1|]. by rewrite C1.
Qed.

Lemma zone_frame_mono s s' z (R R' : Z -> Prop) :
  (forall q, R q -> R' q) -> zone_frame s s' z R -> zone_frame s s' z R'.
Proof.
  intros HR [V Z0 P O I C]. split; try done.
  - intros q Hq. apply P. auto.
  - intros z' c Hq. apply C. intros q Hin HRq. by apply (Hq q Hin), HR.
Qed.

(** ** Code sequences *)

Lemma area_upd_area s z o f z' o' :
  area (upd_area s z o f) z' o' = if decide (z' = z /\ o' = o) then f (area s z o) else area s z' o'.
Proof.
  unfold area, upd_area, upd_zone. cbn. case_decide as E.
  - destruct E as [-> ->]. rewrite fn_lookup_insert. cbn. by rewrite fn_lookup_insert.
  - destruct (decide (z' = z)) as [->|]; [|by rewrite fn_lookup_insert_ne].
    rewrite fn_lookup_insert. cbn. rewrite fn_lookup_insert_ne; [done|]. intros <-. tauto.
Qed.

Lemma init_upd_area s z o f z' : z_initialized (zones (upd_area s z o f) z') = z_initialized (zones s z').
Proof.
  unfold upd_area, upd_zone. cbn. destruct (decide (z' = z)) as [->|];
    [by rewrite fn_lookup_insert|by rewrite fn_lookup_insert_ne].
Qed.

Lemma pcp_upd_area s z o f z' c : pcp_of (upd_area s z o f) z' c = pcp_of s z' c.
Proof.
  unfold pcp_of, upd_area, upd_zone. cbn. destruct (decide (z' = z)) as [->|];
    [by rewrite fn_lookup_insert|by rewrite fn_lookup_insert_ne].
Qed.

Lemma page_upd_page s p f q :
  page_at (upd_page s p f) q = if decide (q = p) then f (page_at s p) else page_at s q.
Proof.
  unfold page_at, upd_page. cbn. case_decide as E; [subst; by rewrite fn_lookup_insert|].
  by rewrite fn_lookup_insert_ne.
Qed.

(** rmv_page_order() on a marked page. *)
Lemma rmv_page_order_ret s p :
  PageBuddy (page_at s p) = true ->
  exists s', rmv_page_order s p = Ret s'
    /\ (forall q, page_at s' q = if decide (q = p) then unlink_page (page_at s p) else page_at s q)
    /\ pfn_valid s' = pfn_valid s /\ zones s' = zones s.
Proof.
  intros Hb. unfold rmv_page_order, __ClearPageBuddy, VM_BUG_ON. rewrite Hb. cbn [negb obind].
  eexists. split; [done|]. split; [|done]. intros q. rewrite !page_upd_page.
  case_decide; [|done]. by rewrite decide_True.
Qed.

(** set_page_order() on an unmarked page. *)
Lemma set_page_order_ret s p o :
  pg_type (page_at s p) = MAPCOUNT_NONE ->
  exists s', set_page_order s p o = Ret s'
    /\ (forall q, page_at s' q = if decide (q = p) then link_page o (page_at s p) else page_at s q)
    /\ pfn_valid s' = pfn_valid s /\ zones s' = zones s.
Proof.
  intros Ht. unfold set_page_order, __SetPageBuddy, VM_BUG_ON.
  rewrite page_upd_page, decide_True by done. unfold PageType. cbn [pg_type set_private]. rewrite Ht.
  cbn [obind]. eexists. split; [reflexivity|]. split; [|done]. intros q. rewrite !page_upd_page.
  case_decide; [|done]. by rewrite decide_True.
Qed.

Lemma area_zones s s' z o : zones s' = zones s -> area s' z o = area s z o.
Proof. unfold area. by intros ->. Qed.

(** list_del, rmv_page_order and the counter, in either order. *)
Lemma del_sequence s z b o :
  PageBuddy (page_at s b) = true ->
  (exists s2, rmv_page_order (list_del s b) b = Ret s2
     /\ block_deleted s (upd_area s2 z o area_dec) z b o)
  /\ (exists s3, rmv_page_order (upd_area (list_del s b) z o area_dec) b = Ret s3
     /\ block_deleted s s3 z b o).
Proof.
  intros Hb. split.
  - destruct (rmv_page_order_ret (list_del s b) b Hb) as (s2 & Hrun & Hp & Hv & Hz).
    exists s2. split; [done|]. split.
    + intros q. apply Hp.
    + intros q. cbn. by rewrite Hv.
    + intros z' o'. rewrite area_upd_area, !(area_zones _ _ _ _ Hz). case_decide as E; [|done].
      by destruct E as [-> ->].
    + intros z' o'. rewrite area_upd_area, !(area_zones _ _ _ _ Hz). case_decide as E; [|done].
      by destruct E as [-> ->].
    + intros z'. rewrite init_upd_area, Hz. done.
    + intros z' c. rewrite pcp_upd_area. unfold pcp_of. by rewrite Hz.
  - destruct (rmv_page_order_ret (upd_area (list_del s b) z o area_dec) b Hb) as (s3 & Hrun & Hp & Hv & Hz).
    exists s3. split; [done|]. split.
    + intros q. apply Hp.
    + intros q. by rewrite Hv.
    + intros z' o'. rewrite (area_zones _ _ _ _ Hz), area_upd_area. case_decide as E; [|done].
      by destruct E as [-> ->].
    + intros z' o'. rewrite (area_zones _ _ _ _ Hz), area_upd_area. case_decide as E; [|done].
      by destruct E as [-> ->].
    + intros z'. rewrite Hz, init_upd_area. done.
    + intros z' c. unfold pcp_of at 1. rewrite Hz. fold (pcp_of (upd_area (list_del s b) z o area_dec) z' c).
      by rewrite pcp_upd_area.
Qed.

Lemma add_sequence s z b o f :
  pg_type (page_at s b) = MAPCOUNT_NONE -> (f = area_add b \/ f = area_add_tail b) ->
  (exists s3, set_page_order (upd_area (upd_area s z o f) z o area_inc) b o = Ret s3
     /\ block_added s s3 z b o)
  /\ (exists s2, set_page_order s b o = Ret s2
     /\ block_added s (upd_area (upd_area s2 z o f) z o area_inc) z b o).
Proof.
  intros Ht Hf.
  assert (Hperm : fa_list (f (area s z o)) ≡ₚ b :: fa_list (area s z o)).
  { destruct Hf as [-> | ->]; cbn; [done|]. by rewrite Permutation_app_comm. }
  assert (Hnr : fa_nr (f (area s z o)) = fa_nr (area s z o)) by (by destruct Hf as [-> | ->]).
  assert (Harea : forall s2, zones s2 = zones s -> forall z' o',
     let a := area (upd_area (upd_area s2 z o f) z o area_inc) z' o' in
     fa_list a ≡ₚ (if decide (z' = z /\ o' = o) then b :: fa_list (area s z' o') else fa_list (area s z' o'))
     /\ fa_nr a = if decide (z' = z /\ o' = o) then u64 (fa_nr (area s z' o') + 1) else fa_nr (area s z' o')).
  { intros s2 Hz z' o'. cbn zeta. rewrite !area_upd_area, !(area_zones _ _ _ _ Hz).
    rewrite (decide_True (P := z = z /\ o = o)) by done. case_decide as E; [|done].
    destruct E as [-> ->]. cbn [area_inc fa_list fa_nr]. by rewrite Hnr. }
  split.
  - destruct (set_page_order_ret (upd_area (upd_area s z o f) z o area_inc) b o Ht) as (s3 & Hrun & Hp & Hv & Hz).
    exists s3. split; [done|]. split.
    + exact Hp.
    + intros q. by rewrite Hv.
    + intros z' o'. rewrite (area_zones _ _ _ _ Hz). by apply Harea.
    + intros z' o'. rewrite (area_zones _ _ _ _ Hz). by apply Harea.
    + intros z'. by rewrite Hz, !init_upd_area.
    + intros z' c. unfold pcp_of at 1. rewrite Hz.
      fold (pcp_of (upd_area (upd_area s z o f) z o area_inc) z' c). by rewrite !pcp_upd_area.
  - destruct (set_page_order_ret s b o Ht) as (s2 & Hrun & Hp & Hv & Hz).
    exists s2. split; [done|]. split.
    + exact Hp.
    + intros q. cbn. by rewrite Hv.
    + intros z' o'. by apply Harea.
    + intros z' o'. by apply Harea.
    + intros z'. by rewrite !init_upd_area, Hz.
    + intros z' c. rewrite !pcp_upd_area. unfold pcp_of. by rewrite Hz.
Qed.

(** ** Frames of the two moves *)

Lemma del_frame s s' z b o (R : Z -> Prop) :
  block_deleted s s' z b o -> page_zone (page_at s b) = z -> R b -> zone_frame s s' z R.
Proof.
  intros H Hz HR. split.
  - apply (bd_valid _ _ _ _ _ H).
  - intros q. by apply (bd_page_zone s s' z b o).
  - intros q Hq. apply (bd_page_other s s' z b o H). by intros ->.
  - intros z' Hne Hwf. by apply (del_block_other s s' z z' b o).
  - apply (bd_init _ _ _ _ _ H).
  - intros z' c Hq. rewrite (bd_pcp _ _ _ _ _ H), drop_page_out; [by destruct (pcp_of s z' c)|].
    intros Hin. by apply (Hq b).
Qed.

Lemma add_frame s s' z b o (R : Z -> Prop) :
  block_added s s' z b o -> page_zone (page_at s b) = z -> R b -> zone_frame s s' z R.
Proof.
  intros H Hz HR. split.
  - apply (ba_valid _ _ _ _ _ H).
  - intros q. by apply (ba_page_zone s s' z b o).
  - intros q Hq. apply (ba_page_other s s' z b o H). by intros ->.
  - intros z' Hne Hwf. by apply (add_block_other s s' z z' b o).
  - apply (ba_init _ _ _ _ _ H).
  - intros z' c Hq. apply (ba_pcp _ _ _ _ _ H).
Qed.

(** A loose block stays loose when a block elsewhere is put on. *)
Lemma loose_split s z b o :
  0 < o -> loose s z b o -> loose s z b (o - 1) /\ loose s z (b + 2 ^ (o - 1)) (o - 1).
Proof.
  intros Ho [Hor Hp Hd Hpg Hf].
  assert (H2 : 2 ^ o = 2 * 2 ^ (o - 1)) by (rewrite <- Z.pow_succ_r by lia; f_equal; lia).
  assert (0 < 2 ^ (o - 1)) by (apply Z.pow_pos_nonneg; lia).
  assert (Hd' : (2 ^ (o - 1) | b)) by (apply Z.divide_trans with (2 ^ o); [exists 2; lia|done]).
  split; split; try lia; try done; unfold in_blk in *.
  - intros q Hq. apply Hpg. lia.
  - intros q Hq. apply Hf. lia.
  - apply Z.divide_add_r; [done|apply Z.divide_refl].
  - intros q Hq. apply Hpg. lia.
  - intros q Hq. apply Hf. lia.
Qed.

Lemma loose_frame_add s s' z b o c k :
  zone_wf s z -> loose s z b o -> loose s z c k -> block_added s s' z c k ->
  (forall q, in_blk b o q -> ~ in_blk c k q) -> loose s' z b o.
Proof.
  intros Hwf Hb Hc H Hap. destruct Hb as [? ? ? Hpg Hf]. split; try done.
  - intros q Hq. rewrite (ba_valid _ _ _ _ _ H), (ba_page_other s s' z c k H); [auto|].
    intros ->. apply (Hap c Hq). apply in_blk_head. apply Hc.
  - intros q Hq Hfr. apply (add_block_free s s' z c k Hc H) in Hfr as [Hfr|Hin]; [by apply (Hf q)|].
    by apply (Hap q).
Qed.

(** ** expand *)

Lemma buddy_of_lower p o : 0 <= o -> 0 <= p -> (2 ^ (o + 1) | p) -> __find_buddy_pfn p o = p + 2 ^ o.
Proof.
  intros Ho Hp Hd. assert (0 < 2 ^ o) by (apply Z.pow_pos_nonneg; lia).
  assert (E : 2 ^ (o + 1) = 2 * 2 ^ o) by (rewrite Z.pow_add_r by lia; lia).
  destruct (buddy_spec p o Ho Hp) as [(_ & ? & _)|(Hd' & _ & _)]; [|done|exfalso].
  - apply Z.divide_trans with (2 ^ (o + 1)); [exists 2; lia|done].
  - destruct Hd as [a Ha], Hd' as [b Hb]. rewrite E in *. assert (2 * (a - b) = 1) by nia. lia.
Qed.

Lemma expand_spec n : forall s z p low,
  0 <= low -> zone_wf s z -> loose s z p (low + Z.of_nat n) ->
  exists s', expand n s z p low = Ret s'
    /\ zone_wf s' z /\ loose s' z p low
    /\ (forall q, free_page s' z q <->
          free_page s z q \/ (in_blk p (low + Z.of_nat n) q /\ ~ in_blk p low q))
    /\ zone_frame s s' z (in_blk p (low + Z.of_nat n)).
Proof.
  induction n as [|n IH]; intros s z p low Hlow Hwf Hl; cbn [expand].
  { rewrite Z.add_0_r in *. exists s. split_and!; try done; first [tauto|apply zone_frame_refl]. }
  replace (low + Z.of_nat (S n)) with (low + Z.of_nat n + 1) in * by lia.
  set (high := low + Z.of_nat n) in *. destruct (loose_split s z p (high + 1) ltac:(lia) Hl) as [Hl1 Hl2].
  replace (high + 1 - 1) with high in * by lia.
  assert (0 < 2 ^ high) by (apply Z.pow_pos_nonneg; lia).
  assert (E : 2 ^ (high + 1) = 2 * 2 ^ high) by (rewrite Z.pow_add_r by lia; lia).
  assert (Hc : in_blk (p + 2 ^ high) high (p + 2 ^ high)) by (apply in_blk_head; lia).
  destruct (lo_pages _ _ _ _ Hl2 _ Hc) as (_ & Hz & _ & Ht).
  destruct (add_sequence s z (p + 2 ^ high) high (area_add (p + 2 ^ high)) Ht ltac:(by left))
    as [(s3 & -> & Hadd) _]. cbn [obind].
  assert (Hno : ~ blk s z (__find_buddy_pfn (p + 2 ^ high) high) high).
  { rewrite <- (buddy_of_lower p high), buddy_invol by (try lia; apply Hl).
    apply (loose_not_listed s z p high Hl1). }
  destruct (IH s3 z p low Hlow) as (s' & -> & Hwf' & Hl' & Hfree & Hframe).
  { by apply (add_block_wf s s3 z (p + 2 ^ high) high). }
  { apply (loose_frame_add s s3 z p high (p + 2 ^ high) high); try done. unfold in_blk. lia. }
  exists s'. split_and!; try done.
  - intros q. rewrite Hfree, (add_block_free s s3 z _ _ Hl2 Hadd). unfold in_blk. fold high.
    assert (2 ^ low <= 2 ^ high) by (apply Z.pow_le_mono_r; lia). rewrite E.
    split; [intros [[?|?]|?]; [by left|right; lia|right; lia]|].
    intros [?|?]; [by left; left|]. destruct (Z.lt_ge_cases q (p + 2 ^ high)); [right; lia|left; right; lia].
  - apply zone_frame_trans with s3.
    + apply (add_frame s s3 z (p + 2 ^ high) high); try done. unfold in_blk. lia.
    + apply (zone_frame_mono s3 s' z (in_blk p high)); [|done]. unfold in_blk. lia.
Qed.

(** ** __rmqueue_smallest *)

(** Block [p] of order [o] was taken out of the zone. *)
Record taken (s s' : mm) (z : zid) (p o : Z) : Prop := {
  tk_wf : zone_wf s' z;
  tk_loose : loose s' z p o;
  tk_was_free : forall q, in_blk p o q -> free_page s z q;
  tk_free : forall q, free_page s' z q <-> free_page s z q /\ ~ in_blk p o q;
  tk_frame : zone_frame s s' z (free_page s z)
}.

(** The block was carved from a smallest sufficient free block. *)
Definition best_fit (s : mm) (z : zid) (p o : Z) : Prop :=
  exists k, blk s z p k /\ o <= k /\ forall p' k', blk s z p' k' -> o <= k' -> k <= k'.

Lemma in_blk_mono p o k q : 0 <= o <= k -> in_blk p o q -> in_blk p k q.
Proof. intros Ho. unfold in_blk. assert (2 ^ o <= 2 ^ k) by (apply Z.pow_le_mono_r; lia). lia. Qed.

Lemma rmqueue_take s z p o k l :
  zone_wf s z -> 0 <= o <= k -> k < MAX_ORDER -> fa_list (area s z k) = p :: l ->
  exists s', (let! s2 := rmv_page_order (list_del s p) p in
              let! s4 := expand (Z.to_nat (k - o)) (upd_area s2 z k area_dec) z p o in
              Ret (s4, Some p)) = Ret (s', Some p) /\ taken s s' z p o.
Proof.
  intros Hwf Ho Hk El.
  assert (Hb : blk s z p k) by (split; [lia|]; rewrite El; left).
  destruct (wf_head s z Hwf p k Hb) as (Hq & Ht & Hpr).
  destruct (wf_inside s z Hwf p k p Hb (in_blk_head p k ltac:(lia))) as (_ & Hz & _).
  destruct (del_sequence s z p k (BUDDY_is_buddy _ Ht)) as [(s2 & -> & Hdel) _]. cbn [obind].
  set (s3 := upd_area s2 z k area_dec) in *.
  pose proof (del_block_wf s s3 z p k Hwf Hb Hdel) as Hwf3.
  pose proof (del_block_loose s s3 z p k Hwf Hb Hdel) as Hl3.
  destruct (expand_spec (Z.to_nat (k - o)) s3 z p o) as (s' & -> & Hwf' & Hl' & Hfree & Hframe); try done; try lia.
  { by replace (o + Z.of_nat (Z.to_nat (k - o))) with k by lia. }
  replace (o + Z.of_nat (Z.to_nat (k - o))) with k in * by lia. cbn [obind].
  exists s'. split; [done|]. split; try done.
  - intros q Hin. exists p, k. split; [done|]. by apply (in_blk_mono p o k).
  - intros q. rewrite Hfree, (del_block_free s s3 z p k Hwf Hb Hdel).
    assert (Hsub : in_blk p o q -> in_blk p k q) by (by apply in_blk_mono).
    assert (in_blk p k q -> free_page s z q) by (intros; by exists p, k).
    unfold in_blk in *. tauto || (destruct (decide (p <= q < p + 2 ^ k)); tauto).
  - apply zone_frame_trans with s3.
    + apply (del_frame s s3 z p k); try done. exists p, k. split; [done|]. apply in_blk_head; lia.
    + apply (zone_frame_mono s3 s' z (in_blk p k)); [|done]. intros q Hin. by exists p, k.
Qed.

Lemma rmqueue_scan_spec n : forall s z o cur,
  zone_wf s z -> 0 <= o <= cur -> cur + Z.of_nat n = MAX_ORDER ->
  (forall p k, blk s z p k -> o <= k -> cur <= k) ->
  exists s' r, rmqueue_scan n s z o cur = Ret (s', r)
    /\ match r with
       | None => s' = s /\ forall p k, blk s z p k -> k < o
       | Some p => taken s s' z p o /\ best_fit s z p o
       end.
Proof.
  induction n as [|n IH]; intros s z o cur Hwf Ho Hn Hmin; cbn [rmqueue_scan].
  { exists s, None. split; [done|]. split; [done|]. intros p k Hb.
    destruct (Z.lt_ge_cases k o); [done|]. specialize (Hmin p k Hb ltac:(lia)).
    destruct Hb as [? _]. lia. }
  destruct (fa_list (area s z cur)) as [|p l] eqn:El.
  - apply IH; try done; try lia. intros p k Hb Hk. specialize (Hmin p k Hb Hk).
    destruct (Z.eq_dec k cur) as [->|]; [|lia]. destruct Hb as [_ Hin]. rewrite El in Hin.
    by apply not_elem_of_nil in Hin.
  - destruct (rmqueue_take s z p o cur l) as (s' & Hrun & Htk); try done; [lia|].
    exists s', (Some p). split; [exact Hrun|]. split; [done|]. exists cur. split_and!; try lia; [|done].
    split; [lia|]. rewrite El. left.
Qed.

Lemma rmqueue_smallest_spec s z o :
  zone_wf s z -> 0 <= o < MAX_ORDER ->
  exists s' r, __rmqueue_smallest s z o = Ret (s', r)
    /\ match r with
       | None => s' = s /\ forall p k, blk s z p k -> k < o
       | Some p => taken s s' z p o /\ best_fit s z p o
       end.
Proof.
  intros Hwf Ho. apply rmqueue_scan_spec; try done; try lia.
Qed.

(** ** The whole memory map *)

(** page_zone_id() cannot tell two nodes apart, so the code relies on a node
    boundary never falling inside a block of the largest order. *)
Definition nodes_aligned (s : mm) : Prop :=
  forall p q, pfn_valid s p = true -> pfn_valid s q = true ->
    p / 2 ^ (MAX_ORDER - 1) = q / 2 ^ (MAX_ORDER - 1) ->
    page_zone_id (page_at s p) = page_zone_id (page_at s q) ->
    pg_node (page_at s p) = pg_node (page_at s q).

Record all_wf (s : mm) : Prop := {
  aw_zones : forall z, z_initialized (zones s z) = true -> zone_wf s z;
  aw_pages : forall q, pfn_valid s q = true -> z_initialized (zones s (page_zone (page_at s q))) = true;
  aw_nodes : nodes_aligned s
}.

Lemma all_wf_step s s' z R :
  all_wf s -> zone_wf s' z -> zone_frame s s' z R -> all_wf s'.
Proof.
  intros [Hz Hp Hn] Hwf [V Zo P O I C]. split.
  - intros z' Hi. destruct (decide (z' = z)) as [->|Hne]; [done|]. rewrite I in Hi.
    by apply (O z' Hne), Hz.
  - intros q Hq. rewrite V in Hq. rewrite Zo, I. by apply Hp.
  - intros p q Hp' Hq' Hd Hid. rewrite V in Hp', Hq'.
    pose proof (Zo p) as E1. pose proof (Zo q) as E2. unfold page_zone, page_zone_id in *.
    injection E1 as E1 E1'. injection E2 as E2 E2'. rewrite E1, E2. apply Hn; try done.
    unfold page_zone_id. congruence.
Qed.

(** A buddy below the largest order lies in the same largest-order block. *)
Lemma buddy_same_block p o : 0 <= o < MAX_ORDER - 1 -> 0 <= p -> (2 ^ o | p) ->
  0 <= __find_buddy_pfn p o
  /\ __find_buddy_pfn p o / 2 ^ (MAX_ORDER - 1) = p / 2 ^ (MAX_ORDER - 1).
Proof.
  intros Ho Hp Hd. split.
  - destruct (buddy_spec p o) as [(_ & -> & _)|(_ & -> & _ & ?)]; try done; lia.
  - unfold __find_buddy_pfn. rewrite <- !Z.shiftr_div_pow2 by (unfold MAX_ORDER; lia).
    rewrite Z.shiftr_lxor. replace (Z.shiftr (2 ^ o) (MAX_ORDER - 1)) with 0; [apply Z.lxor_0_r|].
    symmetry. rewrite Z.shiftr_div_pow2 by (unfold MAX_ORDER; lia). apply Z.div_small.
    split; [apply Z.pow_nonneg; lia|apply Z.pow_lt_mono_r; lia].
Qed.

(** Every marked page has reference count zero. *)
Definition marked_unused (s : mm) : Prop :=
  forall b, pfn_valid s b = true -> PageBuddy (page_at s b) = true -> pg_count (page_at s b) = 0.

Lemma all_wf_marked s : all_wf s -> marked_unused s.
Proof.
  intros Hall b Hv Hb. pose proof (aw_zones s Hall _ (aw_pages s Hall b Hv)) as Hwf.
  pose proof (wf_buddy s _ Hwf b Hv eq_refl Hb) as Hblk.
  by destruct (wf_head s _ Hwf b _ Hblk) as ((Hc & _) & _ & _).
Qed.

(** page_is_buddy() never trips over its reference count check. *)
Lemma page_is_buddy_ret s p b o :
  marked_unused s -> pfn_valid s b = true ->
  exists r, page_is_buddy s p b o = Ret r
    /\ (r = true <-> PageBuddy (page_at s b) = true /\ page_order (page_at s b) = o
                     /\ page_zone_id (page_at s p) = page_zone_id (page_at s b)).
Proof.
  intros Hmu Hv. unfold page_is_buddy. destruct (PageBuddy (page_at s b)) eqn:Eb; cbn [andb].
  2:{ exists false. split; [done|]. split; [done|]. by intros [? _]. }
  destruct (Z.eqb_spec (page_order (page_at s b)) o) as [Eo|Eo].
  2:{ exists false. split; [done|]. split; [done|]. by intros (_ & ? & _). }
  destruct (Z.eqb_spec (page_zone_id (page_at s p)) (page_zone_id (page_at s b))) as [Ez|Ez]; cbn [negb].
  2:{ exists false. split; [done|]. split; [done|]. by intros (_ & _ & ?). }
  unfold VM_BUG_ON. rewrite Hmu by done. cbn [Z.eqb negb obind]. by exists true.
Qed.

(** For the block being freed the test is exact. *)
Lemma page_is_buddy_blk s z p o r :
  all_wf s -> zone_wf s z -> loose s z p o -> o < MAX_ORDER - 1 ->
  pfn_valid s (__find_buddy_pfn p o) = true ->
  page_is_buddy s p (__find_buddy_pfn p o) o = Ret r ->
  r = true <-> blk s z (__find_buddy_pfn p o) o.
Proof.
  intros Hall Hwf Hl Ho Hv Hrun.
  destruct (page_is_buddy_ret s p _ o (all_wf_marked s Hall) Hv) as (r' & Hrun' & Hr). rewrite Hrun in Hrun'.
  injection Hrun' as <-. rewrite Hr. clear Hr.
  destruct (lo_pages _ _ _ _ Hl p (in_blk_head p o (proj1 (lo_order _ _ _ _ Hl)))) as (Hvp & Hzp & _).
  split.
  - intros (Hb & Hpr & Hid).
    assert (Hn : pg_node (page_at s p) = pg_node (page_at s (__find_buddy_pfn p o))).
    { apply (aw_nodes s Hall); try done. destruct Hl. symmetry. apply buddy_same_block; done || lia. }
    assert (Hz : page_zone (page_at s (__find_buddy_pfn p o)) = z).
    { rewrite <- Hzp. unfold page_zone, page_zone_id in *. congruence. }
    pose proof (wf_buddy s z Hwf _ Hv Hz Hb) as Hblk. unfold page_order in Hpr. by rewrite Hpr in Hblk.
  - intros Hb. destruct (wf_head s z Hwf _ _ Hb) as (_ & Ht & Hpr).
    destruct (wf_inside s z Hwf _ _ _ Hb (in_blk_head _ o (proj1 (lo_order _ _ _ _ Hl)))) as (_ & Hz & _).
    split_and!; [by apply BUDDY_is_buddy|done|].
    unfold page_zone, page_zone_id in *. rewrite <- Hz in Hzp. by injection Hzp.
Qed.

(** ** __free_one_page *)

Lemma loose_join s z p o :
  o + 1 < MAX_ORDER -> (2 ^ (o + 1) | p) -> loose s z p o -> loose s z (p + 2 ^ o) o -> loose s z p (o + 1).
Proof.
  intros Ho Hd [? ? _ Hp1 Hf1] [_ _ _ Hp2 Hf2].
  assert (E : 2 ^ (o + 1) = 2 * 2 ^ o) by (rewrite Z.pow_add_r by lia; lia).
  unfold in_blk in *. split; try done; try lia; intros q Hq; unfold in_blk in Hq; rewrite E in Hq.
  - destruct (Z.lt_ge_cases q (p + 2 ^ o)); [apply Hp1|apply Hp2]; lia.
  - destruct (Z.lt_ge_cases q (p + 2 ^ o)); [apply Hf1|apply Hf2]; lia.
Qed.

(** A loose block stays loose when another block is taken off. *)
Lemma loose_frame_del s s' z p o b k :
  zone_wf s z -> loose s z p o -> blk s z b k -> block_deleted s s' z b k -> loose s' z p o.
Proof.
  intros Hwf Hl Hb H. destruct Hl as [? ? ? Hpg Hf]. split; try done.
  - intros q Hq. rewrite (bd_valid _ _ _ _ _ H), (bd_page_other s s' z b k H); [auto|].
    intros ->. apply (Hf b Hq). exists b, k. split; [done|]. apply in_blk_head. apply Hb.
  - intros q Hq Hfr. apply (del_block_free s s' z b k Hwf Hb H) in Hfr as [Hfr _]. by apply (Hf q).
Qed.

(** Joining a loose block with its buddy, just taken off. *)
Lemma loose_combine s z p o :
  o + 1 < MAX_ORDER -> loose s z p o -> loose s z (__find_buddy_pfn p o) o ->
  let c := Z.land (__find_buddy_pfn p o) p in
  loose s z c (o + 1)
  /\ forall q, in_blk c (o + 1) q <-> in_blk p o q \/ in_blk (__find_buddy_pfn p o) o q.
Proof.
  intros Ho Hp Hb c. subst c. pose proof Hp as [Hor Hpos Hd _ _].
  assert (E : 2 ^ (o + 1) = 2 * 2 ^ o) by (rewrite Z.pow_add_r by lia; lia).
  assert (0 < 2 ^ o) by (apply Z.pow_pos_nonneg; lia).
  destruct (buddy_spec p o) as [(Hd' & Eb & ->)|(Hd' & Eb & -> & _)]; try done; try lia; rewrite Eb in *.
  - split; [by apply loose_join|]. intros q. unfold in_blk. lia.
  - split; [|intros q; unfold in_blk; lia]. apply loose_join; try done.
    by replace (p - 2 ^ o + 2 ^ o) with p by lia.
Qed.

(** What the merging loop establishes. *)
Record merged (s s' : mm) (z : zid) (pfn o p' o' : Z) (bud : option Z) : Prop := {
  mg_wf : zone_wf s' z;
  mg_loose : loose s' z p' o';
  mg_pages : forall q, (free_page s' z q \/ in_blk p' o' q) <-> (free_page s z q \/ in_blk pfn o q);
  mg_done : o' < MAX_ORDER - 1 -> ~ blk s' z (__find_buddy_pfn p' o') o';
  mg_buddy : o' < MAX_ORDER - 1 -> bud = Some (__find_buddy_pfn p' o');
  mg_frame : zone_frame s s' z (fun q => free_page s z q \/ in_blk pfn o q)
}.

Lemma merged_refl s z p o bud :
  zone_wf s z -> loose s z p o -> (o < MAX_ORDER - 1 -> ~ blk s z (__find_buddy_pfn p o) o) ->
  (o < MAX_ORDER - 1 -> bud = Some (__find_buddy_pfn p o)) -> merged s s z p o p o bud.
Proof. intros. by split. Qed.

(** One merge, then the rest of the loop. *)
Lemma merged_step s s1 s' z p o p' o' bud :
  let b := __find_buddy_pfn p o in
  zone_wf s z -> loose s z p o -> o + 1 < MAX_ORDER -> blk s z b o -> block_deleted s s1 z b o ->
  merged s1 s' z (Z.land b p) (o + 1) p' o' bud -> merged s s' z p o p' o' bud.
Proof.
  intros b Hwf Hl Ho Hb Hdel [W L P D B F].
  pose proof (del_block_free s s1 z b o Hwf Hb Hdel) as Hfree.
  pose proof (del_block_loose s s1 z b o Hwf Hb Hdel) as Hlb.
  pose proof (loose_frame_del s s1 z p o b o Hwf Hl Hb Hdel) as Hlp.
  destruct (loose_combine s1 z p o Ho Hlp Hlb) as [_ Hin]. fold b in Hin.
  assert (Hbf : forall q, in_blk b o q -> free_page s z q) by (intros q Hq; by exists b, o).
  assert (Hsub : forall q, (free_page s1 z q \/ in_blk (Z.land b p) (o + 1) q)
                           <-> (free_page s z q \/ in_blk p o q)).
  { intros q. rewrite Hfree, Hin. specialize (Hbf q). unfold in_blk in *.
    destruct (decide (b <= q < b + 2 ^ o)); tauto. }
  split; try done.
  - intros q. by rewrite P.
  - apply zone_frame_trans with s1.
    + apply (del_frame s s1 z b o); [done| |].
      * by destruct (wf_inside s z Hwf b o b Hb (in_blk_head b o (proj1 (proj1 Hb)))) as (_ & ? & _).
      * left. apply Hbf, in_blk_head, Hb.
    + apply (zone_frame_mono s1 s' z _ _ (fun q => proj1 (Hsub q)) F).
Qed.

Lemma merge_buddies_spec n : forall s z p o bud,
  all_wf s -> zone_wf s z -> loose s z p o -> o + Z.of_nat n = MAX_ORDER - 1 ->
  exists s' p' o' bud', merge_buddies n s z p o bud = Ret (s', p', o', bud')
    /\ merged s s' z p o p' o' bud'.
Proof.
  induction n as [|n IH]; intros s z p o bud Hall Hwf Hl Hn; cbn [merge_buddies].
  { do 4 eexists. split; [done|]. apply merged_refl; try done; lia. }
  set (b := __find_buddy_pfn p o). destruct (pfn_valid s b) eqn:Hv; cbn [negb].
  2:{ do 4 eexists. split; [done|]. apply merged_refl; try done. fold b. intros _ Hb.
      destruct (wf_inside s z Hwf b o b Hb (in_blk_head b o (proj1 (proj1 Hb)))) as (? & _). congruence. }
  destruct (page_is_buddy_ret s p b o (all_wf_marked s Hall) Hv) as (r & Hrun & _).
  pose proof (page_is_buddy_blk s z p o r Hall Hwf Hl ltac:(lia) Hv Hrun) as Hr. fold b in Hr.
  rewrite Hrun. cbn [obind]. destruct r; cbn [negb].
  2:{ do 4 eexists. split; [done|]. apply merged_refl; try done. fold b. intros _ Hb. by apply Hr in Hb. }
  pose proof (proj1 Hr eq_refl) as Hb. destruct (wf_head s z Hwf b o Hb) as (_ & Ht & _).
  destruct (del_sequence s z b o (BUDDY_is_buddy _ Ht)) as [_ (s1 & -> & Hdel)]. cbn [obind].
  pose proof (del_block_wf s s1 z b o Hwf Hb Hdel) as Hwf1.
  pose proof (loose_combine s1 z p o ltac:(lia) (loose_frame_del s s1 z p o b o Hwf Hl Hb Hdel)
    (del_block_loose s s1 z b o Hwf Hb Hdel)) as [Hlc _].
  assert (Hall1 : all_wf s1).
  { apply (all_wf_step s s1 z (fun q => q = b)); try done. apply (del_frame s s1 z b o); try done.
    by destruct (wf_inside s z Hwf b o b Hb (in_blk_head b o (proj1 (proj1 Hb)))) as (_ & ? & _). }
  destruct (IH s1 z (Z.land b p) (o + 1) (Some b) Hall1 Hwf1 Hlc ltac:(lia))
    as (s' & p' & o' & bud' & Hrun' & Hm).
  exists s', p', o', bud'. split; [done|]. apply (merged_step s s1 s' z p o); done || lia.
Qed.

(** Looking at the next-higher buddy never fails. *)
Lemma higher_is_buddy_ret s p o bud :
  marked_unused s -> (o < MAX_ORDER - 1 -> exists b, bud = Some b) ->
  exists r, higher_is_buddy s p o bud = Ret r.
Proof.
  intros Hmu Hb. unfold higher_is_buddy. destruct bud as [b|].
  - destruct (_ && _); [|by exists false].
    destruct (pfn_valid s _) eqn:E; [|by exists false].
    destruct (page_is_buddy_ret s (Z.land b p) _ (o + 1) Hmu E) as (r & -> & _). by exists r.
  - destruct (Z.ltb_spec o (MAX_ORDER - 2)); [|by exists false].
    by destruct Hb as [? ?]; [lia|].
Qed.

(** Block [p] of order [o] was given to the zone. *)
Record given (s s' : mm) (z : zid) (p o : Z) : Prop := {
  gv_wf : zone_wf s' z;
  gv_free : forall q, free_page s' z q <-> free_page s z q \/ in_blk p o q;
  gv_frame : zone_frame s s' z (fun q => free_page s z q \/ in_blk p o q)
}.

Lemma aligned_mask p o : 0 <= o -> (2 ^ o | p) -> Z.land p (2 ^ o - 1) = 0.
Proof.
  intros Ho Hd. rewrite Z.sub_1_r, <- Z.ones_equiv, Z.land_ones by lia. by apply Z.mod_divide; [lia|].
Qed.

Lemma free_one_page_spec s z p o :
  all_wf s -> zone_wf s z -> loose s z p o ->
  exists s', __free_one_page s p z o = Ret s' /\ given s s' z p o.
Proof.
  intros Hall Hwf Hl. unfold __free_one_page, VM_BUG_ON.
  pose proof Hl as [Ho Hp Hd Hpg _].
  destruct (Hpg p (in_blk_head p o (proj1 Ho))) as (_ & _ & (_ & _ & Hfl & _) & _).
  rewrite (wf_init s z Hwf), Hfl, aligned_mask by (done || lia). cbn [negb Z.eqb obind].
  change (Z.min MAX_ORDER (pageblock_order + 1)) with MAX_ORDER.
  destruct (merge_buddies_spec (Z.to_nat (MAX_ORDER - 1 - o)) s z p o None Hall Hwf Hl ltac:(lia))
    as (s1 & p1 & o1 & bud & -> & [W L P D B F]). cbn [obind].
  pose proof (all_wf_step s s1 z _ Hall W F) as Hall1.
  destruct (lo_pages _ _ _ _ L p1 (in_blk_head p1 o1 (proj1 (lo_order _ _ _ _ L)))) as (_ & Hz1 & _ & Ht1).
  destruct (set_page_order_ret s1 p1 o1 Ht1) as (s2 & Hs2 & Hp2 & Hv2 & _).
  assert (Hmu : marked_unused s2).
  { intros b Hv Hb. rewrite Hv2 in Hv. rewrite Hp2 in *. case_decide as E.
    - subst b. by destruct (lo_pages _ _ _ _ L p1 (in_blk_head p1 o1 (proj1 (lo_order _ _ _ _ L))))
        as (_ & _ & (? & _) & _).
    - by apply (all_wf_marked s1 Hall1). }
  rewrite Hs2. cbn [obind].
  destruct (higher_is_buddy_ret s2 p1 o1 bud Hmu) as (tail & ->); [eauto|]. cbn [obind].
  destruct (add_sequence s1 z p1 o1 (if tail then area_add_tail p1 else area_add p1) Ht1)
    as [_ (s2' & Hs2' & Hadd)]; [destruct tail; auto|].
  rewrite Hs2 in Hs2'. injection Hs2' as <-. eexists. split; [done|]. split.
  - by apply (add_block_wf s1 _ z p1 o1).
  - intros q. rewrite (add_block_free s1 _ z p1 o1 L Hadd). apply P.
  - apply zone_frame_trans with s1; [done|]. apply (add_frame s1 _ z p1 o1); try done.
    apply P. right. apply in_blk_head. apply L.
Qed.
