(* ===== verification/BuddyPcp.v ===== *)
(** * The page allocator: per-CPU lists and the allocation entry

    The per-CPU lists in front of the free lists: rmqueue_bulk() fills one,
    free_pcppages_bulk() drains one.  The pages a zone can still hand out are
    those on its free lists and those on its per-CPU lists ([avail]); the
    operations here are specified by what they do to that set. *)

From S2P Require Import Prelude Buddy BuddyInv.
From stdpp Require Import base list numbers option functions.
#[local] Open Scope Z_scope.
#[local] Open Scope kernel_scope.

(** ** Changes that leave the free lists alone *)

Record core_same (s s' : mm) : Prop := {
  cs_page : forall q, page_at s' q = page_at s q;
  cs_valid : forall q, pfn_valid s' q = pfn_valid s q;
  cs_init : forall z, z_initialized (zones s' z) = z_initialized (zones s z);
  cs_list : forall z o, z_initialized (zones s z) = true -> 0 <= o < MAX_ORDER ->
     fa_list (area s' z o) = fa_list (area s z o);
  cs_nr : forall z o, fa_nr (area s' z o) = fa_nr (area s z o)
}.

Lemma core_same_trans s1 s2 s3 : core_same s1 s2 -> core_same s2 s3 -> core_same s1 s3.
Proof.
  intros [P1 V1 I1 L1 N1] [P2 V2 I2 L2 N2]. split; intros.
  - by rewrite P2.
  - by rewrite V2.
  - by rewrite I2.
  - rewrite L2, L1; try done. by rewrite I1.
  - by rewrite N2.
Qed.

Lemma core_same_zone s s' z :
  core_same s s' -> z_initialized (zones s z) = true -> zone_wf s z ->
  zone_wf s' z /\ (forall q o, blk s' z q o <-> blk s z q o).
Proof.
  intros [P V I L N] Hi Hwf. apply zone_wf_frame; try done.
  - intros o Ho. by rewrite L.
  - intros q. by rewrite P.
  - intros q Hv Hz Hf. rewrite P. by apply (not_free_not_buddy s z).
Qed.

Lemma core_same_free s s' z q :
  core_same s s' -> z_initialized (zones s z) = true -> zone_wf s z -> free_page s' z q <-> free_page s z q.
Proof.
  intros H Hi Hwf. destruct (core_same_zone s s' z H Hi Hwf) as [_ Hb]. unfold free_page. by setoid_rewrite Hb.
Qed.

Lemma core_same_all s s' : core_same s s' -> all_wf s -> all_wf s'.
Proof.
  intros H [Hz Hp Hn]. split.
  - intros z Hi. rewrite (cs_init _ _ H) in Hi. by apply (core_same_zone s s' z H Hi), Hz.
  - intros q Hq. rewrite (cs_valid _ _ H) in Hq. rewrite (cs_page _ _ H), (cs_init _ _ H). by apply Hp.
  - intros p q. rewrite !(cs_valid _ _ H), !(cs_page _ _ H). apply Hn.
Qed.

(** Updating a per-CPU structure. *)
Lemma pcp_upd_pcp s z c f z' c' :
  pcp_of (upd_pcp s z c f) z' c' = if decide (z' = z /\ c' = c) then f (pcp_of s z c) else pcp_of s z' c'.
Proof.
  unfold pcp_of, upd_pcp, upd_zone. cbn. case_decide as E.
  - destruct E as [-> ->]. rewrite fn_lookup_insert. cbn. by rewrite fn_lookup_insert.
  - destruct (decide (z' = z)) as [->|]; [|by rewrite fn_lookup_insert_ne].
    rewrite fn_lookup_insert. cbn. rewrite fn_lookup_insert_ne; [done|]. intros <-. tauto.
Qed.

Lemma area_upd_pcp s z c f z' o : area (upd_pcp s z c f) z' o = area s z' o.
Proof.
  unfold area, upd_pcp, upd_zone. cbn. destruct (decide (z' = z)) as [->|];
    [by rewrite fn_lookup_insert|by rewrite fn_lookup_insert_ne].
Qed.

Lemma upd_pcp_core s z c f : core_same s (upd_pcp s z c f).
Proof.
  split; try done; intros; rewrite ?area_upd_pcp; try done.
  unfold upd_pcp, upd_zone. cbn. destruct (decide (z0 = z)) as [->|];
    [by rewrite fn_lookup_insert|by rewrite fn_lookup_insert_ne].
Qed.

(** list_del() of a page that is on no free list. *)
Lemma list_del_core s p :
  all_wf s -> ~ free_page s (page_zone (page_at s p)) p -> core_same s (list_del s p).
Proof.
  intros Hall Hf. split; try done. intros z o Hi Ho. cbn. apply drop_page_out. intros Hin.
  pose proof (aw_zones s Hall z Hi) as Hwf. assert (Hb : blk s z p o) by done.
  assert (Hin' : in_blk p o p) by (apply in_blk_head; lia).
  destruct (wf_inside s z Hwf p o p Hb Hin') as (_ & Hz & _).
  apply Hf. rewrite Hz. by exists p, o.
Qed.

(** ** The invariant with per-CPU lists *)

Definition on_pcp (s : mm) (z : zid) (c q : Z) : Prop := q ∈ pcp_lists (pcp_of s z c).

Record pcp_wf (s : mm) : Prop := {
  pw_page : forall z c q, on_pcp s z c q ->
     z_initialized (zones s z) = true /\ 0 <= q /\ pfn_valid s q = true
     /\ page_zone (page_at s q) = z /\ idle (page_at s q) /\ ~ free_page s z q;
  pw_nodup : forall z c, NoDup (pcp_lists (pcp_of s z c));
  pw_apart : forall z c z' c' q, on_pcp s z c q -> on_pcp s z' c' q -> z = z' /\ c = c'
}.

(** The counters of the per-CPU lists, between operations. *)
Definition pcp_counts (s : mm) : Prop :=
  forall z c, pcp_count (pcp_of s z c) = Z.of_nat (length (pcp_lists (pcp_of s z c))).

Record mm_wf (s : mm) : Prop := { mw_all : all_wf s; mw_pcp : pcp_wf s }.

(** What the zone can still hand out. *)
Definition avail (s : mm) (z : zid) (q : Z) : Prop := free_page s z q \/ exists c, on_pcp s z c q.

(** A block somebody holds: idle, and not available. *)
Record held (s : mm) (z : zid) (p o : Z) : Prop := {
  hd_loose : loose s z p o;
  hd_pcp : forall q z' c, in_blk p o q -> ~ on_pcp s z' c q
}.

Lemma mm_wf_zone s z : mm_wf s -> z_initialized (zones s z) = true -> zone_wf s z.
Proof. intros [H _]. apply H. Qed.

(** Per-CPU lists survive an operation that touches only free pages. *)
Lemma pcp_frame s s' z R :
  mm_wf s -> zone_wf s' z -> zone_frame s s' z R ->
  (forall z' c q, on_pcp s z' c q -> ~ R q /\ ~ free_page s' z q) -> mm_wf s'
  /\ (forall z' c, pcp_of s' z' c = pcp_of s z' c).
Proof.
  intros [Hall Hp] Hwf Hf HR.
  assert (Hpcp : forall z' c, pcp_of s' z' c = pcp_of s z' c).
  { intros z' c. apply (zf_pcp _ _ _ _ Hf). intros q Hq. by apply (HR z' c). }
  split; [|done]. split; [by apply (all_wf_step s s' z R)|]. split.
  - intros z' c q Hq. unfold on_pcp in Hq. rewrite Hpcp in Hq.
    destruct (pw_page s Hp z' c q Hq) as (Hi & Hpos & Hv & Hz & Hid & Hnf).
    destruct (HR z' c q Hq) as [HnR Hnf'].
    rewrite (zf_init _ _ _ _ Hf), (zf_valid _ _ _ _ Hf), (zf_page _ _ _ _ Hf q HnR). split_and!; try done.
    destruct (decide (z' = z)) as [->|Hne]; [done|]. intros (p & o & Hb & Hin).
    apply (zf_zones _ _ _ _ Hf z' Hne (aw_zones s Hall z' Hi)) in Hb. apply Hnf. by exists p, o.
  - intros z' c. rewrite Hpcp. by apply Hp.
  - intros z1 c1 z2 c2 q. unfold on_pcp. rewrite !Hpcp. apply (pw_apart s Hp).
Qed.

(** Taking a block from the free lists. *)
Lemma taken_mm s s' z p o :
  mm_wf s -> z_initialized (zones s z) = true -> taken s s' z p o ->
  mm_wf s' /\ held s' z p o /\ (forall z' c, pcp_of s' z' c = pcp_of s z' c).
Proof.
  intros Hmm Hi [W L WF F Fr].
  assert (HR : forall z' c q, on_pcp s z' c q -> ~ free_page s z q).
  { intros z' c q Hq Hf. destruct (pw_page s (mw_pcp s Hmm) z' c q Hq) as (_ & _ & _ & Hz & _ & Hnf).
    destruct (free_page_valid s z q (mm_wf_zone s z Hmm Hi) Hf) as [_ Hz']. apply Hnf. congruence. }
  destruct (pcp_frame s s' z (free_page s z) Hmm W Fr) as [Hmm' Hpcp].
  { intros z' c q Hq. split; [by apply (HR z' c)|]. rewrite F. intros [? _]. by apply (HR z' c q). }
  split_and!; try done. split; [done|]. intros q z' c Hin Hq. unfold on_pcp in Hq. rewrite Hpcp in Hq.
  by apply (HR z' c q Hq), WF.
Qed.

(** What an operation on zone [z] that touches only the pages [R] leaves alone. *)
Record mm_frame (s s' : mm) (z : zid) (R : Z -> Prop) : Prop := {
  mf_valid : forall q, pfn_valid s' q = pfn_valid s q;
  mf_zone : forall q, page_zone (page_at s' q) = page_zone (page_at s q);
  mf_init : forall z', z_initialized (zones s' z') = z_initialized (zones s z');
  mf_page : forall q, ~ R q -> page_at s' q = page_at s q;
  mf_blk : forall z', z' <> z -> z_initialized (zones s z') = true ->
     forall q o, blk s' z' q o <-> blk s z' q o;
  mf_pcp : forall z' c, z' <> z -> pcp_of s' z' c = pcp_of s z' c;
  mf_params : forall z' c, pcp_high (pcp_of s' z' c) = pcp_high (pcp_of s z' c)
     /\ pcp_batch (pcp_of s' z' c) = pcp_batch (pcp_of s z' c)
}.

Lemma mm_frame_refl s z R : mm_frame s s z R.
Proof. by split. Qed.

Lemma mm_frame_trans s1 s2 s3 z R : mm_frame s1 s2 z R -> mm_frame s2 s3 z R -> mm_frame s1 s3 z R.
Proof.
  intros [V1 Z1 I1 P1 B1 C1 M1] [V2 Z2 I2 P2 B2 C2 M2]. split.
  - intros q. by rewrite V2.
  - intros q. by rewrite Z2.
  - intros z'. by rewrite I2.
  - intros q Hq. by rewrite P2, P1.
  - intros z' Hne Hi q o. rewrite B2, B1; try done. by rewrite I1.
  - intros z' c Hne. by rewrite C2, C1.
  - intros z' c. destruct (M2 z' c) as [-> ->]. apply M1.
Qed.

Lemma mm_frame_mono s s' z (R R' : Z -> Prop) :
  (forall q, R q -> R' q) -> mm_frame s s' z R -> mm_frame s s' z R'.
Proof. intros HR [V Zo I P B C M]. split; try done. intros q Hq. apply P. auto. Qed.

Lemma mm_frame_of_zone s s' z R :
  all_wf s -> zone_frame s s' z R -> (forall z' c, pcp_of s' z' c = pcp_of s z' c) -> mm_frame s s' z R.
Proof.
  intros Hall [V Zo P O I C] Hp. split; try done.
  - intros z' Hne Hi. by apply (O z' Hne (aw_zones s Hall z' Hi)).
  - intros z' c. by rewrite Hp.
Qed.

(** ** Page checks on idle pages *)

Lemma idle_expected g flags :
  idle g -> Z.land flags (Z.lnot PAGE_FLAGS_CHECK_AT_PREP) = 0 -> page_expected_state g flags = true.
Proof.
  intros [(Hc & Hm & Hf & _) Ht] Hsub. unfold page_expected_state. rewrite Ht, Hc, Hm.
  assert (E : Z.land (pg_flags g) flags = 0).
  { apply Z.bits_inj'. intros n Hn. rewrite Z.land_spec, Z.bits_0.
    assert (H1 : Z.testbit (Z.land (pg_flags g) PAGE_FLAGS_CHECK_AT_PREP) n = false) by (rewrite Hf; apply Z.bits_0).
    assert (H2 : Z.testbit (Z.land flags (Z.lnot PAGE_FLAGS_CHECK_AT_PREP)) n = false) by (rewrite Hsub; apply Z.bits_0).
    rewrite Z.land_spec in H1, H2. rewrite Z.lnot_spec in H2 by done.
    destruct (Z.testbit (pg_flags g) n), (Z.testbit flags n), (Z.testbit PAGE_FLAGS_CHECK_AT_PREP n); done. }
  by rewrite E.
Qed.

Lemma check_new_page_idle s p : idle (page_at s p) -> check_new_page s p = (s, false).
Proof. intros H. unfold check_new_page. by rewrite idle_expected. Qed.

Lemma free_pages_check_idle s p : idle (page_at s p) -> free_pages_check s p = (s, false).
Proof. intros H. unfold free_pages_check. by rewrite idle_expected. Qed.

Lemma check_new_pages_idle s p o :
  (forall q, in_blk p o q -> idle (page_at s q)) -> check_new_pages s p o = (s, false).
Proof.
  intros H. unfold check_new_pages.
  assert (Hgen : forall n p', (forall q, p' <= q < p' + Z.of_nat n -> idle (page_at s q)) ->
    check_new_pages_loop n s p' = (s, false)).
  { induction n as [|n IH]; intros p' Hq; cbn [check_new_pages_loop]; [done|].
    rewrite check_new_page_idle by (apply Hq; lia). apply IH. intros q Hq'. apply Hq. lia. }
  apply Hgen. intros q Hq. apply H. unfold in_blk. pose proof (Z.pow_nonneg 2 o). lia.
Qed.

(** ** rmqueue for orders above zero *)

Lemma rmqueue_high_spec s z cpu o :
  mm_wf s -> z_initialized (zones s z) = true -> 0 < o < MAX_ORDER ->
  exists s' r, rmqueue s z cpu o = Ret (s', r)
    /\ match r with
       | None => s' = s /\ forall p k, blk s z p k -> k < o
       | Some p => taken s s' z p o /\ best_fit s z p o
       end.
Proof.
  intros Hmm Hi Ho. unfold rmqueue. destruct (Z.eqb_spec o 0); [lia|]. cbn [rmqueue_retry].
  destruct (rmqueue_smallest_spec s z o (mm_wf_zone s z Hmm Hi) ltac:(lia)) as (s1 & [p|] & E1 & H1);
    rewrite E1; cbn [obind].
  - destruct H1 as [Htk Hbf]. rewrite check_new_pages_idle.
    + exists s1, (Some p). done.
    + intros q Hq. by apply (lo_pages _ _ _ _ (tk_loose _ _ _ _ _ Htk) q Hq).
  - destruct H1 as [-> Hno]. unfold __rmqueue. rewrite E1. cbn [obind]. exists s, None. done.
Qed.

(** ** Putting pages on and taking pages off a per-CPU list *)

Lemma upd_pcp_on s z c f p :
  (forall a, pcp_lists (f a) ≡ₚ p :: pcp_lists a) ->
  forall z' c' q, on_pcp (upd_pcp s z c f) z' c' q <-> on_pcp s z' c' q \/ (z' = z /\ c' = c /\ q = p).
Proof.
  intros Hf z' c' q. unfold on_pcp. rewrite pcp_upd_pcp. case_decide as E.
  - destruct E as [-> ->]. rewrite Hf, elem_of_cons. tauto.
  - split; [tauto|]. intros [?|(-> & -> & _)]; [done|]. tauto.
Qed.

Lemma pcp_facts_core s s' z c q :
  mm_wf s -> core_same s s' -> on_pcp s z c q ->
  z_initialized (zones s' z) = true /\ 0 <= q /\ pfn_valid s' q = true
  /\ page_zone (page_at s' q) = z /\ idle (page_at s' q) /\ ~ free_page s' z q.
Proof.
  intros Hmm Hc Hq. destruct (pw_page s (mw_pcp s Hmm) z c q Hq) as (Hi & ? & ? & ? & ? & Hnf).
  rewrite (cs_init _ _ Hc), (cs_valid _ _ Hc), (cs_page _ _ Hc). split_and!; try done.
  rewrite (core_same_free s s' z q Hc Hi (mm_wf_zone s z Hmm Hi)). done.
Qed.

Lemma pcp_put s z c f p :
  mm_wf s -> z_initialized (zones s z) = true -> held s z p 0 ->
  (forall a, pcp_lists (f a) ≡ₚ p :: pcp_lists a) -> mm_wf (upd_pcp s z c f).
Proof.
  intros Hmm Hi [Hl Hnp] Hf. pose proof (upd_pcp_core s z c f) as Hc.
  pose proof (upd_pcp_on s z c f p Hf) as Hon. set (s' := upd_pcp s z c f) in *.
  assert (Hp : in_blk p 0 p) by (by apply in_blk_head).
  split; [apply (core_same_all s s' Hc), Hmm|]. split.
  - intros z' c' q Hq. apply Hon in Hq as [Hq|(-> & -> & ->)]; [by apply (pcp_facts_core s s' z' c' q)|].
    destruct (lo_pages _ _ _ _ Hl p Hp) as (? & ? & ?).
    rewrite (cs_init _ _ Hc), (cs_valid _ _ Hc), (cs_page _ _ Hc). split_and!; try done; [apply Hl|].
    rewrite (core_same_free s s' z p Hc Hi (mm_wf_zone s z Hmm Hi)). by apply Hl.
  - intros z' c'. unfold s'. rewrite pcp_upd_pcp. case_decide as E; [|by apply Hmm].
    rewrite Hf. apply list.NoDup_cons. split; [|by apply Hmm]. by apply (Hnp p z c Hp).
  - intros z1 c1 z2 c2 q H1 H2. apply Hon in H1 as [H1|(-> & -> & ->)]; apply Hon in H2 as [H2|(-> & -> & E)].
    + by apply (pw_apart s (mw_pcp s Hmm) _ _ _ _ q).
    + subst q. by destruct (Hnp p z1 c1 Hp).
    + by destruct (Hnp p z2 c2 Hp).
    + done.
Qed.

(** list_del() of a page on a per-CPU list. *)
Lemma pcp_take s z c p :
  mm_wf s -> on_pcp s z c p ->
  mm_wf (list_del s p) /\ held (list_del s p) z p 0 /\ core_same s (list_del s p)
  /\ (forall z' c' q, on_pcp (list_del s p) z' c' q <-> on_pcp s z' c' q /\ q <> p).
Proof.
  intros Hmm Hp. destruct (pw_page s (mw_pcp s Hmm) z c p Hp) as (Hi & Hpos & Hv & Hz & Hid & Hnf).
  assert (Hc : core_same s (list_del s p)) by (apply list_del_core; [apply Hmm|by rewrite Hz]).
  assert (Hon : forall z' c' q, on_pcp (list_del s p) z' c' q <-> on_pcp s z' c' q /\ q <> p).
  { intros z' c' q. unfold on_pcp. cbn. apply elem_of_drop_page. }
  split_and!; try done.
  - split; [apply (core_same_all s _ Hc), Hmm|]. split.
    + intros z' c' q Hq. apply Hon in Hq as [Hq _]. by apply (pcp_facts_core s _ z' c' q).
    + intros z' c'. cbn. apply drop_page_NoDup. apply (mw_pcp s Hmm).
    + intros z1 c1 z2 c2 q H1 H2. apply Hon in H1 as [H1 _]. apply Hon in H2 as [H2 _].
      by apply (pw_apart s (mw_pcp s Hmm) _ _ _ _ q).
  - split.
    + split; [done|done|apply Z.divide_1_l| |].
      * intros q Hq. unfold in_blk in Hq. assert (q = p) as -> by (cbn in Hq; lia). done.
      * intros q Hq. unfold in_blk in Hq. assert (q = p) as -> by (cbn in Hq; lia).
        by rewrite (core_same_free s _ z p Hc Hi (mm_wf_zone s z Hmm Hi)).
    + intros q z' c' Hq Hq'. unfold in_blk in Hq. assert (q = p) as -> by (cbn in Hq; lia).
      apply Hon in Hq' as [_ Hq']. done.
Qed.

(** ** rmqueue_bulk *)

(** What a refill does: free pages move to the tail of one per-CPU list. *)
Record refilled (s s' : mm) (z : zid) (cpu : Z) (new : list Z) : Prop := {
  rf_wf : mm_wf s';
  rf_list : pcp_lists (pcp_of s' z cpu) = pcp_lists (pcp_of s z cpu) ++ new;
  rf_counts : forall c, pcp_count (pcp_of s' z c) = pcp_count (pcp_of s z c)
     /\ pcp_high (pcp_of s' z c) = pcp_high (pcp_of s z c)
     /\ pcp_batch (pcp_of s' z c) = pcp_batch (pcp_of s z c);
  rf_other : forall c, c <> cpu -> pcp_of s' z c = pcp_of s z c;
  rf_free : forall q, free_page s z q <-> free_page s' z q \/ q ∈ new;
  rf_frame : mm_frame s s' z (free_page s z)
}.

Lemma in_blk0 p q : in_blk p 0 q <-> q = p.
Proof. unfold in_blk. cbn. lia. Qed.

Lemma refilled_step s s1 s' z cpu p new :
  mm_wf s -> z_initialized (zones s z) = true -> taken s s1 z p 0 ->
  refilled (upd_pcp s1 z cpu (pcp_add_tail p)) s' z cpu new -> refilled s s' z cpu (p :: new).
Proof.
  intros Hmm Hi Htk [W L K O F Fr]. destruct (taken_mm s s1 z p 0 Hmm Hi Htk) as (Hmm1 & Hh & Hpcp).
  pose proof (zf_init _ _ _ _ (tk_frame _ _ _ _ _ Htk)) as Hinit.
  pose proof (upd_pcp_core s1 z cpu (pcp_add_tail p)) as Hc.
  assert (Hi1 : z_initialized (zones s1 z) = true) by (by rewrite Hinit).
  assert (Hfree : forall q, free_page (upd_pcp s1 z cpu (pcp_add_tail p)) z q <-> free_page s1 z q).
  { intros q. apply core_same_free; try done. by apply mm_wf_zone. }
  split; try done.
  - rewrite L, pcp_upd_pcp, decide_True by done. cbn. by rewrite Hpcp, <- app_assoc.
  - intros c. rewrite !(proj1 (K c)), !(proj1 (proj2 (K c))), !(proj2 (proj2 (K c))), pcp_upd_pcp.
    case_decide as E; [destruct E as [_ ->]|]; cbn; by rewrite Hpcp.
  - intros c Hne. rewrite O, pcp_upd_pcp, decide_False by tauto. by rewrite Hpcp.
  - intros q. rewrite elem_of_cons. pose proof (F q) as Fq. rewrite Hfree, (tk_free _ _ _ _ _ Htk), in_blk0 in Fq.
    pose proof (tk_was_free _ _ _ _ _ Htk p (proj2 (in_blk0 p p) eq_refl)).
    destruct (decide (q = p)) as [->|]; tauto.
  - apply mm_frame_trans with s1; [apply mm_frame_of_zone; [apply Hmm|apply Htk|done]|].
    apply mm_frame_trans with (upd_pcp s1 z cpu (pcp_add_tail p)).
    + split; try done; intros.
      * apply (cs_init _ _ Hc).
      * unfold blk. by rewrite area_upd_pcp.
      * rewrite pcp_upd_pcp, decide_False by tauto. done.
      * rewrite pcp_upd_pcp. case_decide as E; [|done]. by destruct E as [-> ->].
    + apply (mm_frame_mono _ _ _ (free_page (upd_pcp s1 z cpu (pcp_add_tail p)) z)); [|done].
      intros q Hq. apply Hfree, (tk_free _ _ _ _ _ Htk) in Hq. tauto.
Qed.

Lemma rmqueue_bulk_spec n : forall s z cpu a,
  mm_wf s -> z_initialized (zones s z) = true ->
  exists s' new, rmqueue_bulk n s z cpu 0 a = Ret (s', a + Z.of_nat (length new))
    /\ refilled s s' z cpu new
    /\ (length new <= n)%nat
    /\ ((length new < n)%nat -> forall q, ~ free_page s' z q).
Proof.
  induction n as [|n IH]; intros s z cpu a Hmm Hi; cbn [rmqueue_bulk].
  { exists s, []. rewrite Z.add_0_r. split_and!; try done; [|cbn; lia]. split; try done.
    - by rewrite app_nil_r.
    - intros q. rewrite elem_of_nil. tauto. }
  unfold __rmqueue.
  destruct (rmqueue_smallest_spec s z 0 (mm_wf_zone s z Hmm Hi) ltac:(done)) as (s1 & [p|] & -> & H1); cbn [obind].
  - destruct H1 as [Htk _]. destruct (taken_mm s s1 z p 0 Hmm Hi Htk) as (Hmm1 & Hh & _).
    rewrite check_new_page_idle.
    2:{ apply (lo_pages _ _ _ _ (hd_loose _ _ _ _ Hh) p). by apply in_blk0. }
    assert (Hi1 : z_initialized (zones s1 z) = true) by (by rewrite (zf_init _ _ _ _ (tk_frame _ _ _ _ _ Htk))).
    destruct (IH (upd_pcp s1 z cpu (pcp_add_tail p)) z cpu (a + 1)) as (s' & new & -> & Hr & Hlen & Hno).
    { apply (pcp_put s1 z cpu _ p); try done. intros b. cbn. by rewrite Permutation_app_comm. }
    { by rewrite (cs_init _ _ (upd_pcp_core s1 z cpu (pcp_add_tail p))). }
    exists s', (p :: new). split; [cbn; do 2 f_equal; lia|]. split_and!; [by apply (refilled_step s s1)|cbn; lia|].
    intros Hlt. apply Hno. cbn in Hlt. lia.
  - destruct H1 as [-> Hno]. exists s, []. rewrite Z.add_0_r. split_and!; try done; [|cbn; lia|].
    + split; try done; [by rewrite app_nil_r|]. intros q. rewrite elem_of_nil. tauto.
    + intros _ q (p & k & Hb & _). specialize (Hno p k Hb). destruct Hb. lia.
Qed.

(** ** Taking one page from a per-CPU list *)

Lemma mm_wf_lists s s' :
  mm_wf s -> core_same s s' -> (forall z c, pcp_lists (pcp_of s' z c) = pcp_lists (pcp_of s z c)) -> mm_wf s'.
Proof.
  intros Hmm Hc Hl. split; [apply (core_same_all s s' Hc), Hmm|]. split.
  - intros z c q Hq. unfold on_pcp in Hq. rewrite Hl in Hq. by apply (pcp_facts_core s s' z c q).
  - intros z c. rewrite Hl. apply (mw_pcp s Hmm).
  - intros z1 c1 z2 c2 q. unfold on_pcp. rewrite !Hl. apply (pw_apart s (mw_pcp s Hmm)).
Qed.

Lemma pcp_count_lists s z c n z' c' :
  pcp_lists (pcp_of (upd_pcp s z c (pcp_count_add n)) z' c') = pcp_lists (pcp_of s z' c').
Proof. rewrite pcp_upd_pcp. case_decide as E; [|done]. by destruct E as [-> ->]. Qed.

Lemma held_core s s' z p o :
  held s z p o -> core_same s s' -> z_initialized (zones s z) = true -> zone_wf s z ->
  (forall z' c q, on_pcp s' z' c q -> on_pcp s z' c q) -> held s' z p o.
Proof.
  intros [[Ho Hp Hd Hpg Hf] Hn] Hc Hi Hwf Hon. split; [split; try done|].
  - intros q Hq. rewrite (cs_valid _ _ Hc), (cs_page _ _ Hc). auto.
  - intros q Hq. rewrite (core_same_free s s' z q Hc Hi Hwf). auto.
  - intros q z' c Hq Hq'. by apply (Hn q z' c Hq), Hon.
Qed.

(** Block [p] of order [o] left the available pages of the zone. *)
Record alloced (s s' : mm) (z : zid) (p o : Z) : Prop := {
  al_wf : mm_wf s';
  al_counts : pcp_counts s -> pcp_counts s';
  al_held : held s' z p o;
  al_was : forall q, in_blk p o q -> avail s z q;
  al_avail : forall q, avail s' z q <-> avail s z q /\ ~ in_blk p o q;
  al_frame : mm_frame s s' z (avail s z)
}.

Lemma list_del_frame s z p R : all_wf s -> ~ free_page s (page_zone (page_at s p)) p ->
  (forall z' c, z' <> z -> ~ on_pcp s z' c p) -> mm_frame s (list_del s p) z R.
Proof.
  intros Hall Hf Hon. pose proof (list_del_core s p Hall Hf) as Hc. split; try done.
  - intros z' Hne Hi q o. unfold blk. split; intros [Ho Hin]; (split; [done|]); by rewrite (cs_list _ _ Hc) in *.
  - intros z' c Hne. unfold pcp_of. cbn. rewrite drop_page_out by (by apply Hon). by destruct (z_pageset _ _).
Qed.

Definition keeps_params (f : per_cpu_pages -> per_cpu_pages) : Prop :=
  forall a, pcp_high (f a) = pcp_high a /\ pcp_batch (f a) = pcp_batch a.

Lemma upd_pcp_frame s z c f R : keeps_params f -> mm_frame s (upd_pcp s z c f) z R.
Proof.
  intros Hf. split; try done.
  - apply (cs_init _ _ (upd_pcp_core s z c f)).
  - intros z' Hne Hi q o. unfold blk. by rewrite area_upd_pcp.
  - intros z' c' Hne. rewrite pcp_upd_pcp, decide_False by tauto. done.
  - intros z' c'. rewrite pcp_upd_pcp. case_decide as E; [|done]. destruct E as [-> ->]. apply Hf.
Qed.

(** The page popped from a per-CPU list, with the counter adjusted. *)
Definition pcp_pop (s : mm) (z : zid) (cpu p : Z) : mm :=
  upd_pcp (list_del s p) z cpu (pcp_count_add (-1)).

Lemma pcp_pop_facts s z cpu p :
  mm_wf s -> on_pcp s z cpu p ->
  core_same s (pcp_pop s z cpu p) /\ mm_wf (pcp_pop s z cpu p) /\ held (pcp_pop s z cpu p) z p 0
  /\ (forall z' c' q, on_pcp (pcp_pop s z cpu p) z' c' q <-> on_pcp s z' c' q /\ q <> p)
  /\ (pcp_counts s -> pcp_counts (pcp_pop s z cpu p))
  /\ mm_frame s (pcp_pop s z cpu p) z (fun _ => False)
  /\ (forall c, c <> cpu -> pcp_of (pcp_pop s z cpu p) z c = pcp_of s z c)
  /\ pcp_lists (pcp_of (pcp_pop s z cpu p) z cpu) = drop_page p (pcp_lists (pcp_of s z cpu)).
Proof.
  intros Hmm Hp. destruct (pcp_take s z cpu p Hmm Hp) as (Hmm1 & Hh1 & Hc1 & Hon1).
  destruct (pw_page s (mw_pcp s Hmm) z cpu p Hp) as (Hi & _ & _ & Hz & _ & Hnf).
  unfold pcp_pop. set (s1 := list_del s p) in *. pose proof (upd_pcp_core s1 z cpu (pcp_count_add (-1))) as Hc2.
  set (s2 := upd_pcp s1 z cpu (pcp_count_add (-1))) in *.
  assert (Hl2 : forall z' c', pcp_lists (pcp_of s2 z' c') = drop_page p (pcp_lists (pcp_of s z' c')))
    by (intros; unfold s2; by rewrite pcp_count_lists).
  assert (Hon2 : forall z' c' q, on_pcp s2 z' c' q <-> on_pcp s z' c' q /\ q <> p)
    by (intros; unfold on_pcp; rewrite Hl2; apply elem_of_drop_page).
  assert (Hi1 : z_initialized (zones s1 z) = true) by (by rewrite (cs_init _ _ Hc1)).
  split_and!; try done.
  - by apply core_same_trans with s1.
  - by apply (mm_wf_lists s1).
  - apply (held_core s1); try done; [by apply mm_wf_zone|]. intros z' c' q. by rewrite Hon1, Hon2.
  - intros Hcnt z' c'. rewrite Hl2. unfold s2. rewrite pcp_upd_pcp. case_decide as E.
    + destruct E as [-> ->]. cbn. change (z_pageset (zones s z) cpu) with (pcp_of s z cpu). rewrite Hcnt.
      rewrite (drop_page_length p (pcp_lists (pcp_of s z cpu))) by (done || apply (mw_pcp s Hmm)). lia.
    + change (pcp_count (pcp_of s1 z' c')) with (pcp_count (pcp_of s z' c')). rewrite Hcnt, drop_page_out; [done|].
      intros Hin. apply E. by destruct (pw_apart s (mw_pcp s Hmm) z cpu z' c' p).
  - apply mm_frame_trans with s1; [|by apply upd_pcp_frame]. apply list_del_frame; [apply Hmm|by rewrite Hz|].
    intros z' c Hne Hq. by destruct (pw_apart s (mw_pcp s Hmm) z cpu z' c p Hp Hq).
  - intros c Hne. unfold s2. rewrite pcp_upd_pcp, decide_False by tauto. unfold s1, pcp_of. cbn.
    rewrite drop_page_out; [by destruct (z_pageset _ _)|]. intros Hin.
    destruct (pw_apart s (mw_pcp s Hmm) z cpu z c p Hp Hin) as [_ E]. by apply Hne.
Qed.

Lemma pcp_pop_spec s z cpu p :
  mm_wf s -> on_pcp s z cpu p -> alloced s (pcp_pop s z cpu p) z p 0.
Proof.
  intros Hmm Hp. destruct (pcp_pop_facts s z cpu p Hmm Hp) as (Hc & Hmm2 & Hh & Hon & Hcnt & Hfr & _ & _).
  destruct (pw_page s (mw_pcp s Hmm) z cpu p Hp) as (Hi & _ & _ & Hz & _ & Hnf).
  assert (Hf2 : forall q, free_page (pcp_pop s z cpu p) z q <-> free_page s z q).
  { intros q. apply core_same_free; try done. by apply mm_wf_zone. }
  split; try done.
  - intros q Hq. apply in_blk0 in Hq as ->. right. by exists cpu.
  - intros q. rewrite in_blk0. unfold avail. rewrite Hf2. setoid_rewrite Hon. split.
    + intros [Hq|(c & Hq & Hne)]; [|split; [right; by exists c|done]]. split; [by left|]. by intros ->.
    + intros [[Hq|(c & Hq)] Hne]; [by left|right; by exists c].
  - by apply (mm_frame_mono _ _ _ (fun _ => False)).
Qed.

(** A refill with its counter update keeps what is available. *)
Lemma refill_avail s s1 z cpu new :
  mm_wf s -> z_initialized (zones s z) = true -> refilled s s1 z cpu new ->
  let s2 := upd_pcp s1 z cpu (pcp_count_add (Z.of_nat (length new))) in
  mm_wf s2 /\ (pcp_counts s -> pcp_counts s2) /\ (forall q, avail s2 z q <-> avail s z q)
  /\ mm_frame s s2 z (avail s z) /\ pcp_lists (pcp_of s2 z cpu) = pcp_lists (pcp_of s z cpu) ++ new
  /\ (forall q, free_page s2 z q <-> free_page s1 z q).
Proof.
  intros Hmm Hi [W L K O F Fr] s2.
  assert (Hl2 : forall z' c', pcp_lists (pcp_of s2 z' c') = pcp_lists (pcp_of s1 z' c')) by (intros; apply pcp_count_lists).
  pose proof (upd_pcp_core s1 z cpu (pcp_count_add (Z.of_nat (length new)))) as Hc. fold s2 in Hc.
  assert (Hi1 : z_initialized (zones s1 z) = true) by (by rewrite (mf_init _ _ _ _ Fr)).
  assert (Hf2 : forall q, free_page s2 z q <-> free_page s1 z q).
  { intros q. apply core_same_free; try done. by apply mm_wf_zone. }
  split_and!; try done.
  - by apply (mm_wf_lists s1).
  - intros Hcnt z' c'. rewrite Hl2. unfold s2. rewrite pcp_upd_pcp. case_decide as E.
    + destruct E as [-> ->]. cbn. rewrite (proj1 (K cpu)), L, length_app, Hcnt. lia.
    + destruct (decide (z' = z)) as [->|Hne]; [rewrite O by tauto|rewrite (mf_pcp _ _ _ _ Fr) by done]; apply Hcnt.
  - intros q. unfold avail, on_pcp. rewrite Hf2, F. setoid_rewrite Hl2. split.
    + intros [?|(c & Hq)]; [left; by left|]. destruct (decide (c = cpu)) as [->|Hne].
      * rewrite L in Hq. apply elem_of_app in Hq as [Hq|Hq]; [right; by exists cpu|left; by right].
      * rewrite O in Hq by done. right. by exists c.
    + intros [[?|Hq]|(c & Hq)]; [by left|right; exists cpu; rewrite L; apply elem_of_app; by right|].
      right. destruct (decide (c = cpu)) as [->|Hne]; [exists cpu; rewrite L; apply elem_of_app; by left|].
      exists c. by rewrite O.
  - apply mm_frame_trans with s1; [|by apply upd_pcp_frame].
    apply (mm_frame_mono _ _ _ (free_page s z)); [|done]. intros q Hq. by left.
  - by rewrite Hl2.
Qed.

Lemma alloced_after s s1 s2 z p o :
  (pcp_counts s -> pcp_counts s1) -> (forall q, avail s1 z q <-> avail s z q) -> mm_frame s s1 z (avail s z) ->
  alloced s1 s2 z p o -> alloced s s2 z p o.
Proof.
  intros Hc Ha Hf [W C H Wa A F]. split; try done; auto.
  - intros q Hq. by apply Ha, Wa.
  - intros q. by rewrite A, Ha.
  - apply mm_frame_trans with s1; [done|]. apply (mm_frame_mono _ _ _ (avail s1 z)); [|done]. intros q. apply Ha.
Qed.

Lemma rmqueue_pcplist_spec s z cpu :
  mm_wf s -> z_initialized (zones s z) = true ->
  exists s' r, rmqueue_pcplist s z cpu = Ret (s', r)
    /\ match r with
       | Some p => alloced s s' z p 0
       | None => mm_wf s' /\ (pcp_counts s -> pcp_counts s') /\ (forall q, avail s' z q <-> avail s z q)
                 /\ mm_frame s s' z (avail s z) /\ pcp_lists (pcp_of s z cpu) = []
                 /\ (0 < pcp_batch (pcp_of s z cpu) -> forall q, ~ free_page s z q)
       end.
Proof.
  intros Hmm Hi. unfold rmqueue_pcplist, __rmqueue_pcplist.
  destruct (pcp_lists (pcp_of s z cpu)) as [|p l] eqn:El; cbn [obind].
  2:{ rewrite El. do 2 eexists. split; [done|]. apply (pcp_pop_spec s z cpu p); [done|].
      unfold on_pcp. rewrite El. left. }
  destruct (rmqueue_bulk_spec (Z.to_nat (pcp_batch (pcp_of s z cpu))) s z cpu 0 Hmm Hi)
    as (s1 & new & -> & Hr & Hlen & Hno). cbn [obind]. rewrite Z.add_0_l.
  destruct (refill_avail s s1 z cpu new Hmm Hi Hr) as (Hmm2 & Hcnt & Hav & Hfr & El2 & Hf2).
  set (s2 := upd_pcp s1 z cpu (pcp_count_add (Z.of_nat (length new)))) in *.
  rewrite El2, El, app_nil_l in *. destruct new as [|p l].
  - do 2 eexists. split; [done|]. cbn beta iota. split_and!; try done. intros Hb q Hq.
    apply (rf_free _ _ _ _ _ Hr) in Hq as [Hq|Hq]; [|by apply not_elem_of_nil in Hq].
    apply (Hno ltac:(cbn; lia) q Hq).
  - do 2 eexists. split; [done|]. cbn beta iota. apply (alloced_after s s2); try done.
    apply (pcp_pop_spec s2 z cpu p); [done|]. unfold on_pcp. rewrite El2. left.
Qed.

Lemma taken_alloced s s' z p o :
  mm_wf s -> z_initialized (zones s z) = true -> taken s s' z p o -> alloced s s' z p o.
Proof.
  intros Hmm Hi Htk. destruct (taken_mm s s' z p o Hmm Hi Htk) as (Hmm' & Hh & Hpcp).
  pose proof Htk as [W L WF F Fr]. split; try done.
  - intros Hc z' c. rewrite Hpcp. apply Hc.
  - intros q Hq. left. by apply WF.
  - intros q. unfold avail, on_pcp. rewrite F. setoid_rewrite Hpcp. split.
    + intros [[? ?]|(c & Hq)]; [tauto|]. split; [right; by exists c|]. intros Hin.
      apply (hd_pcp _ _ _ _ Hh q z c Hin). unfold on_pcp. by rewrite Hpcp.
    + intros [[?|?] ?]; [by left|by right].
  - apply (mm_frame_mono _ _ _ (free_page s z)); [intros q Hq; by left|].
    apply mm_frame_of_zone; [apply Hmm|done|done].
Qed.

(** The zone cannot serve an order-[o] request: no free block is big enough
    (for single pages: no free page, and this CPU's list is empty). *)
Definition cannot_serve (s : mm) (z : zid) (cpu o : Z) : Prop :=
  (forall p k, blk s z p k -> k < o) /\ (o = 0 -> pcp_lists (pcp_of s z cpu) = []).

Lemma rmqueue_spec s z cpu o :
  mm_wf s -> z_initialized (zones s z) = true -> 0 <= o < MAX_ORDER -> 0 < pcp_batch (pcp_of s z cpu) ->
  exists s' r, rmqueue s z cpu o = Ret (s', r)
    /\ match r with
       | Some p => alloced s s' z p o
       | None => mm_wf s' /\ (pcp_counts s -> pcp_counts s') /\ (forall q, avail s' z q <-> avail s z q)
                 /\ mm_frame s s' z (avail s z) /\ cannot_serve s z cpu o
       end.
Proof.
  intros Hmm Hi Ho Hb. destruct (Z.eq_dec o 0) as [->|Hne].
  - destruct (rmqueue_pcplist_spec s z cpu Hmm Hi) as (s' & r & Hrun & Hr).
    exists s', r. split; [exact Hrun|]. destruct r as [p|]; [done|].
    destruct Hr as (? & ? & ? & ? & ? & Hno). split_and!; try done. split; [|done].
    intros p k Hblk. exfalso. apply (Hno Hb p). exists p, k. split; [done|]. apply in_blk_head, Hblk.
  - destruct (rmqueue_high_spec s z cpu o Hmm Hi ltac:(lia)) as (s' & r & Hrun & Hr).
    exists s', r. split; [exact Hrun|]. destruct r as [p|].
    + apply taken_alloced; try done. apply Hr.
    + destruct Hr as [-> Hno]. split_and!; try done.
Qed.

(** * The page allocator: freeing

    Draining per-CPU lists, freeing single pages and blocks, and the
    preparation and check of compound pages, so that a block handed out by
    the allocator and freed again is available again. *)

(** Block [p] of order [o] joined the available pages of the zone. *)
Record released (s s' : mm) (z : zid) (p o : Z) : Prop := {
  re_wf : mm_wf s';
  re_counts : pcp_counts s -> pcp_counts s';
  re_avail : forall q, avail s' z q <-> avail s z q \/ in_blk p o q;
  re_frame : mm_frame s s' z (fun q => avail s z q \/ in_blk p o q)
}.

(** ** Giving a held block to the free lists *)

Lemma given_mm s s' z p o :
  mm_wf s -> z_initialized (zones s z) = true -> held s z p o -> given s s' z p o ->
  mm_wf s' /\ (forall z' c, pcp_of s' z' c = pcp_of s z' c) /\ released s s' z p o.
Proof.
  intros Hmm Hi Hh [W F Fr].
  assert (HR : forall z' c q, on_pcp s z' c q -> ~ (free_page s z q \/ in_blk p o q)).
  { intros z' c q Hq [Hf|Hin]; [|by apply (hd_pcp _ _ _ _ Hh q z' c)].
    destruct (pw_page s (mw_pcp s Hmm) z' c q Hq) as (_ & _ & _ & Hz & _ & Hnf).
    destruct (free_page_valid s z q (mm_wf_zone s z Hmm Hi) Hf) as [_ Hz']. apply Hnf. congruence. }
  destruct (pcp_frame s s' z _ Hmm W Fr) as [Hmm' Hpcp].
  { intros z' c q Hq. split; [by apply (HR z' c)|]. rewrite F. by apply (HR z' c). }
  split_and!; try done. split; try done.
  - intros Hc z' c. rewrite Hpcp. apply Hc.
  - intros q. unfold avail, on_pcp. rewrite F. setoid_rewrite Hpcp. tauto.
  - apply (mm_frame_mono _ _ _ (fun q => free_page s z q \/ in_blk p o q)).
    + intros q [Hq|Hq]; [left; by left|by right].
    + apply mm_frame_of_zone; [apply Hmm|done|done].
Qed.

Lemma free_one_page_mm s z p o :
  mm_wf s -> z_initialized (zones s z) = true -> held s z p o ->
  exists s', free_one_page s z p o = Ret s' /\ given s s' z p o
    /\ (forall z' c, pcp_of s' z' c = pcp_of s z' c) /\ released s s' z p o.
Proof.
  intros Hmm Hi Hh. destruct (free_one_page_spec s z p o (mw_all s Hmm) (mm_wf_zone s z Hmm Hi)
    (hd_loose _ _ _ _ Hh)) as (s' & Hrun & Hg).
  destruct (given_mm s s' z p o Hmm Hi Hh Hg) as (_ & Hpcp & Hr). by exists s'.
Qed.

(** Another held page stays held. *)
Lemma held_given s s' z p o q :
  held s z q 0 -> given s s' z p o -> (forall z' c, pcp_of s' z' c = pcp_of s z' c) ->
  ~ in_blk p o q -> held s' z q 0.
Proof.
  intros [[Ho Hp Hd Hpg Hf] Hn] [W F Fr] Hpcp Hne. split; [split; try done|].
  - intros x Hx. rewrite (zf_valid _ _ _ _ Fr), (zf_zone _ _ _ _ Fr), (zf_page _ _ _ _ Fr); [auto|].
    intros [?|?]; [by apply (Hf x)|]. apply in_blk0 in Hx. by subst x.
  - intros x Hx. rewrite F. intros [?|?]; [by apply (Hf x)|]. apply in_blk0 in Hx. by subst x.
  - intros x z' c Hx. unfold on_pcp. rewrite Hpcp. by apply Hn.
Qed.

Lemma free_collected_spec l : forall s z,
  mm_wf s -> z_initialized (zones s z) = true -> NoDup l -> (forall p, p ∈ l -> held s z p 0) ->
  exists s', free_collected l s z = Ret s' /\ mm_wf s'
    /\ (forall z' c, pcp_of s' z' c = pcp_of s z' c)
    /\ (forall q, free_page s' z q <-> free_page s z q \/ q ∈ l)
    /\ mm_frame s s' z (fun q => free_page s z q \/ q ∈ l).
Proof.
  induction l as [|p l IH]; intros s z Hmm Hi Hnd Hh; cbn [free_collected].
  { exists s. split_and!; try done. intros q. rewrite elem_of_nil. tauto. }
  apply list.NoDup_cons in Hnd as [Hp Hnd].
  destruct (free_one_page_mm s z p 0 Hmm Hi (Hh p ltac:(left))) as (s1 & Hrun & Hg & Hpcp & Hr).
  unfold free_one_page in Hrun. rewrite Hrun. cbn [obind].
  pose proof Hg as [W F Fr].
  destruct (IH s1 z) as (s' & -> & Hmm' & Hpcp' & Hfree & Hframe); try done.
  { apply Hr. }
  { by rewrite (zf_init _ _ _ _ Fr). }
  { intros q Hq. apply (held_given s s1 z p 0); try done; [apply Hh; by right|].
    rewrite in_blk0. intros ->. done. }
  exists s'. split_and!; try done.
  - intros z' c. by rewrite Hpcp'.
  - intros q. rewrite Hfree, F, in_blk0, elem_of_cons. tauto.
  - apply mm_frame_trans with s1.
    + apply (mm_frame_mono _ _ _ (fun q => free_page s z q \/ in_blk p 0 q)).
      * intros q. rewrite in_blk0, elem_of_cons. tauto.
      * apply mm_frame_of_zone; [apply Hmm|done|done].
    + apply (mm_frame_mono _ _ _ (fun q => free_page s1 z q \/ q ∈ l)); [|done].
      intros q. rewrite F, in_blk0, elem_of_cons. tauto.
Qed.

(** ** Draining a per-CPU list *)

(** Pages moved off the list of [cpu] into [l]. *)
Record drained (s s' : mm) (z : zid) (cpu : Z) (head head' : list Z) : Prop := {
  dr_wf : mm_wf s';
  dr_core : core_same s s';
  dr_counts : pcp_counts s -> pcp_counts s';
  dr_nodup : NoDup head';
  dr_held : forall p, p ∈ head' -> held s' z p 0;
  dr_pages : forall q, (on_pcp s' z cpu q \/ q ∈ head') <-> (on_pcp s z cpu q \/ q ∈ head);
  dr_other : forall c, c <> cpu -> pcp_of s' z c = pcp_of s z c;
  dr_frame : mm_frame s s' z (fun _ => False)
}.

Lemma drained_trans s s1 s' z cpu h h1 h' :
  drained s s1 z cpu h h1 -> drained s1 s' z cpu h1 h' -> drained s s' z cpu h h'.
Proof.
  intros [W1 C1 N1 D1 H1 P1 O1 F1] [W2 C2 N2 D2 H2 P2 O2 F2]. split; try done; auto.
  - by apply core_same_trans with s1.
  - intros q. by rewrite P2.
  - intros c Hc. by rewrite O2, O1.
  - by apply mm_frame_trans with s1.
Qed.

Lemma drained_pop s z cpu p head :
  mm_wf s -> on_pcp s z cpu p -> NoDup head -> (forall q, q ∈ head -> held s z q 0) ->
  drained s (pcp_pop s z cpu p) z cpu head (head ++ [p]).
Proof.
  intros Hmm Hp Hnd Hh.
  destruct (pcp_pop_facts s z cpu p Hmm Hp) as (Hc & Hmm1 & Hh1 & Hon & Hcnt & Hfr & Hoth & _).
  destruct (pw_page s (mw_pcp s Hmm) z cpu p Hp) as (Hi & _).
  assert (Hnot : p ∉ head).
  { intros Hin. apply (hd_pcp _ _ _ _ (Hh p Hin) p z cpu); [by apply in_blk0|done]. }
  split; try done.
  - rewrite Permutation_app_comm. by apply list.NoDup_cons.
  - intros q Hq. apply elem_of_app in Hq as [Hq|Hq]; [|by apply list_elem_of_singleton in Hq as ->].
    apply (held_core s); try done; [by apply Hh|by apply mm_wf_zone|]. intros z' c x Hx. by apply Hon in Hx as [? _].
  - intros q. rewrite Hon, elem_of_app, list_elem_of_singleton. destruct (decide (q = p)) as [->|]; tauto.
Qed.

Lemma drop_last_length p l : NoDup (l ++ [p]) -> drop_page p (l ++ [p]) = l.
Proof.
  intros Hnd. rewrite Permutation_app_comm in Hnd. apply list.NoDup_cons in Hnd as [Hp _].
  unfold drop_page. rewrite list.filter_app, filter_cons_False, filter_nil, app_nil_r by tauto.
  by apply drop_page_out.
Qed.

Lemma pcp_collect_spec n : forall s z cpu inner bf head,
  mm_wf s -> z_initialized (zones s z) = true ->
  (n <= length (pcp_lists (pcp_of s z cpu)))%nat ->
  NoDup head -> (forall p, p ∈ head -> held s z p 0) ->
  exists s' head', pcp_collect n inner bf s z cpu head = Ret (s', head')
    /\ drained s s' z cpu head head' /\ (length head' = length head + n)%nat.
Proof.
  induction n as [|n IH]; intros s z cpu inner bf head Hmm Hi Hn Hnd Hh.
  { exists s, head. cbn. split; [done|]. split; [|lia]. by split. }
  cbn [pcp_collect]. destruct (list.last (pcp_lists (pcp_of s z cpu))) as [p|] eqn:El.
  2:{ apply last_None in El. rewrite El in Hn. cbn in Hn. lia. }
  apply last_Some in El as [l El].
  assert (Hp : on_pcp s z cpu p) by (unfold on_pcp; rewrite El; apply elem_of_app; right; left).
  fold (pcp_pop s z cpu p). pose proof (drained_pop s z cpu p head Hmm Hp Hnd Hh) as Hd.
  destruct (pcp_pop_facts s z cpu p Hmm Hp) as (Hc & Hmm1 & Hh1 & _ & _ & _ & _ & Hl1).
  set (s1 := pcp_pop s z cpu p) in *.
  rewrite free_pages_check_idle.
  2:{ apply (lo_pages _ _ _ _ (hd_loose _ _ _ _ Hh1) p). by apply in_blk0. }
  destruct n as [|n]; [exists s1, (head ++ [p]); split; [done|]; split; [done|]; rewrite length_app; cbn; lia|].
  destruct (IH s1 z cpu (negb ((if inner then bf else bf + 1) - 1 =? 0)
     && negb (bool_decide (pcp_lists (pcp_of s1 z cpu) = []))) ((if inner then bf else bf + 1) - 1) (head ++ [p]))
    as (s' & head' & Hrun & Hd' & Hlen).
  - done.
  - by rewrite (cs_init _ _ Hc).
  - rewrite Hl1, El, drop_last_length by (rewrite <- El; apply (mw_pcp s Hmm)).
    rewrite El, length_app in Hn. cbn in Hn. lia.
  - apply Hd.
  - apply Hd.
  - exists s', head'. split; [exact Hrun|]. split; [by apply drained_trans with s1 (head ++ [p])|].
    rewrite Hlen, length_app. cbn. lia.
Qed.

Lemma free_pcppages_bulk_spec s z count cpu :
  mm_wf s -> z_initialized (zones s z) = true ->
  0 <= count <= Z.of_nat (length (pcp_lists (pcp_of s z cpu))) ->
  exists s', free_pcppages_bulk s z count cpu = Ret s' /\ mm_wf s' /\ (pcp_counts s -> pcp_counts s')
    /\ (forall q, avail s' z q <-> avail s z q) /\ mm_frame s s' z (avail s z).
Proof.
  intros Hmm Hi Hc. unfold free_pcppages_bulk.
  destruct (pcp_collect_spec (Z.to_nat count) s z cpu false 0 []) as (s1 & head & -> & Hd & _); try done.
  { lia. }
  { constructor. }
  { intros p Hp. by apply not_elem_of_nil in Hp. }
  cbn [obind]. destruct Hd as [W C N D H P O F].
  assert (Hi1 : z_initialized (zones s1 z) = true) by (by rewrite (cs_init _ _ C)).
  destruct (free_collected_spec head s1 z W Hi1 D H) as (s' & -> & Hmm' & Hpcp & Hfree & Hframe).
  assert (Hf1 : forall q, free_page s1 z q <-> free_page s z q).
  { intros q. apply core_same_free; try done. by apply mm_wf_zone. }
  assert (P' : forall q, on_pcp s1 z cpu q \/ q ∈ head <-> on_pcp s z cpu q).
  { intros q. rewrite P, elem_of_nil. tauto. }
  exists s'. split_and!; try done.
  - intros Hcnt z' c. rewrite Hpcp. by apply N.
  - intros q. unfold avail. rewrite Hfree, Hf1.
    assert (Hon : forall c, on_pcp s' z c q <-> on_pcp s1 z c q) by (intros; unfold on_pcp; by rewrite Hpcp).
    setoid_rewrite Hon. pose proof (P' q) as Pq. split.
    + intros [[?|?]|(c & Hq)]; [by left|right; exists cpu; tauto|]. right.
      destruct (decide (c = cpu)) as [->|Hne]; [exists cpu; tauto|]. exists c. unfold on_pcp in *. by rewrite <- O.
    + intros [?|(c & Hq)]; [left; by left|]. destruct (decide (c = cpu)) as [->|Hne].
      * apply Pq in Hq as [Hq|Hq]; [right; by exists cpu|left; by right].
      * right. exists c. unfold on_pcp in *. by rewrite O.
  - apply mm_frame_trans with s1; [by apply (mm_frame_mono _ _ _ (fun _ => False))|].
    apply (mm_frame_mono _ _ _ (fun q => free_page s1 z q \/ q ∈ head)); [|done].
    intros q [Hq|Hq]; [left; by apply Hf1|right; exists cpu; apply P'; by right].
Qed.

(** The drain of a full list never asks for more pages than the list holds. *)
Definition pcp_sane (s : mm) (cpu : Z) : Prop :=
  forall z, 0 < pcp_batch (pcp_of s z cpu) <= Z.max 1 (pcp_high (pcp_of s z cpu)).

Lemma free_unref_page_commit_spec s z p cpu :
  mm_wf s -> pcp_counts s -> pcp_sane s cpu -> z_initialized (zones s z) = true -> held s z p 0 ->
  exists s', free_unref_page_commit s p cpu = Ret s' /\ released s s' z p 0.
Proof.
  intros Hmm Hcnt Hsane Hi Hh. unfold free_unref_page_commit.
  destruct (lo_pages _ _ _ _ (hd_loose _ _ _ _ Hh) p) as (_ & Hz & _); [by apply in_blk0|]. rewrite Hz.
  set (f := pcp_add p). set (s1 := upd_pcp s z cpu f). set (s2 := upd_pcp s1 z cpu (pcp_count_add 1)).
  assert (Hf : forall a, pcp_lists (f a) ≡ₚ p :: pcp_lists a) by done.
  pose proof (pcp_put s z cpu f p Hmm Hi Hh Hf) as Hmm1. fold s1 in Hmm1.
  assert (Hc : core_same s s2) by (apply core_same_trans with s1; apply upd_pcp_core).
  assert (Hmm2 : mm_wf s2).
  { apply (mm_wf_lists s1); [done|apply upd_pcp_core|]. intros; apply pcp_count_lists. }
  assert (Hp2 : forall z' c, pcp_of s2 z' c = if decide (z' = z /\ c = cpu)
     then pcp_count_add 1 (f (pcp_of s z cpu)) else pcp_of s z' c).
  { intros z' c. unfold s2, s1. rewrite !pcp_upd_pcp, (decide_True (P := z = z /\ cpu = cpu)) by done.
    by case_decide. }
  assert (Hcnt2 : pcp_counts s2).
  { intros z' c. rewrite Hp2. case_decide; [|apply Hcnt]. cbn. rewrite Hcnt. lia. }
  assert (Hi2 : z_initialized (zones s2 z) = true) by (by rewrite (cs_init _ _ Hc)).
  assert (Hav : forall q, avail s2 z q <-> avail s z q \/ in_blk p 0 q).
  { intros q. unfold avail. rewrite (core_same_free s s2 z q Hc Hi (mm_wf_zone s z Hmm Hi)), in_blk0.
    assert (Hon : forall c, on_pcp s2 z c q <-> on_pcp s z c q \/ (c = cpu /\ q = p)).
    { intros c. unfold on_pcp. rewrite Hp2. case_decide as E.
      - destruct E as [_ ->]. cbn. rewrite elem_of_cons. tauto.
      - split; [tauto|]. intros [?|[-> ->]]; [done|]. tauto. }
    setoid_rewrite Hon. split; [intros [?|(c & [?|[_ ?]])]|intros [[?|(c & ?)]|?]]; eauto 6. }
  assert (Hfr : mm_frame s s2 z (fun q => avail s z q \/ in_blk p 0 q)).
  { apply mm_frame_trans with s1; by apply upd_pcp_frame. }
  rewrite Z.geb_leb. destruct (Z.leb_spec (pcp_high (pcp_of s2 z cpu)) (pcp_count (pcp_of s2 z cpu))) as [Hhi|Hhi].
  2:{ exists s2. split; [done|]. by split. }
  destruct (free_pcppages_bulk_spec s2 z (pcp_batch (pcp_of s2 z cpu)) cpu Hmm2 Hi2)
    as (s' & -> & Hmm' & Hcnt' & Hav' & Hfr').
  { rewrite <- Hcnt2. specialize (Hsane z). rewrite Hp2, decide_True in * by done. cbn in *.
    rewrite Hcnt in *. lia. }
  exists s'. split; [done|]. split; try done; auto.
  - intros q. by rewrite Hav', Hav.
  - apply mm_frame_trans with s2; [done|]. apply (mm_frame_mono _ _ _ (avail s2 z)); [|done]. intros q. apply Hav.
Qed.
