(* ===== verification/BuddyUse.v ===== *)
(** * The page allocator: pages in use

    What prep_new_page() makes of a block the free lists gave up
    ([in_use]: a reference count, and for larger orders a compound page), that
    free_pages_prepare() accepts exactly such a block and makes it idle again,
    and from both the behaviour of the public entry points. *)

From S2P Require Import Prelude Buddy BuddyInv BuddyPcp.
From stdpp Require Import base list numbers option functions.
#[local] Open Scope Z_scope.
#[local] Open Scope kernel_scope.

(** ** Changing pages that nobody lists *)

(** A change to the pages [B], none of them available or marked, keeps the
    whole state well formed. *)
Record pages_changed (s s' : mm) (B : Z -> Prop) : Prop := {
  pc_zones : forall z, z_area (zones s' z) = z_area (zones s z)
               /\ z_pageset (zones s' z) = z_pageset (zones s z)
               /\ z_initialized (zones s' z) = z_initialized (zones s z);
  pc_valid : forall q, pfn_valid s' q = pfn_valid s q;
  pc_zone : forall q, page_zone (page_at s' q) = page_zone (page_at s q);
  pc_page : forall q, ~ B q -> page_at s' q = page_at s q
}.

Lemma pages_changed_trans s1 s2 s3 B :
  pages_changed s1 s2 B -> pages_changed s2 s3 B -> pages_changed s1 s3 B.
Proof.
  intros [Z1 V1 G1 P1] [Z2 V2 G2 P2]. split.
  - intros z. destruct (Z1 z) as (E1 & E2 & E3). destruct (Z2 z) as (-> & -> & ->). done.
  - intros q. by rewrite V2.
  - intros q. by rewrite G2.
  - intros q Hq. by rewrite P2, P1.
Qed.

Lemma pc_area s s' B z o : pages_changed s s' B -> area s' z o = area s z o.
Proof. intros H. unfold area. by destruct (pc_zones _ _ _ H z) as (-> & _). Qed.

Lemma pc_pcp s s' B z c : pages_changed s s' B -> pcp_of s' z c = pcp_of s z c.
Proof. intros H. unfold pcp_of. by destruct (pc_zones _ _ _ H z) as (_ & -> & _). Qed.

Lemma pc_blk s s' B z p o : pages_changed s s' B -> blk s' z p o <-> blk s z p o.
Proof. intros H. unfold blk. by rewrite (pc_area _ _ _ _ _ H). Qed.

Lemma pc_free s s' B z q : pages_changed s s' B -> free_page s' z q <-> free_page s z q.
Proof. intros H. unfold free_page. by setoid_rewrite (pc_blk _ _ _ _ _ _ H). Qed.

Lemma pc_avail s s' B z q : pages_changed s s' B -> avail s' z q <-> avail s z q.
Proof.
  intros H. unfold avail, on_pcp. rewrite (pc_free _ _ _ _ _ H). by setoid_rewrite (pc_pcp _ _ _ _ _ H).
Qed.

Lemma pages_changed_wf s s' B :
  mm_wf s -> pages_changed s s' B ->
  (forall q z, z_initialized (zones s z) = true -> B q -> ~ free_page s z q) ->
  (forall q z c, B q -> ~ on_pcp s z c q) ->
  (forall q, B q -> PageBuddy (page_at s' q) = false) ->
  (forall q, B q \/ ~ B q) -> mm_wf s'.
Proof.
  intros [[Hz Hp Hn] Hpw] H Hnf Hnp Hnb Hdec.
  assert (Hinit : forall z, z_initialized (zones s' z) = z_initialized (zones s z)) by (intros; by apply H).
  split.
  - split.
    + intros z Hi. rewrite Hinit in Hi. pose proof (Hz z Hi) as Hwf.
      apply zone_wf_frame with s; try done.
      * intros o _. by rewrite (pc_area _ _ _ _ _ H).
      * intros o _. by rewrite (pc_area _ _ _ _ _ H).
      * apply H.
      * apply H.
      * intros q Hq. apply H. intros HB. by apply (Hnf q z Hi HB).
      * intros q Hv Hq Hf. destruct (Hdec q) as [HB|HB]; [by apply Hnb|].
        rewrite (pc_page _ _ _ H) by done. by apply (not_free_not_buddy s z).
    + intros q Hq. rewrite (pc_valid _ _ _ H) in Hq. rewrite Hinit, (pc_zone _ _ _ H). by apply Hp.
    + intros p q Hvp Hvq Hd Hid. rewrite (pc_valid _ _ _ H) in Hvp, Hvq.
      pose proof (pc_zone _ _ _ H p) as E1. pose proof (pc_zone _ _ _ H q) as E2.
      unfold page_zone, page_zone_id in *. injection E1 as E1 E1'. injection E2 as E2 E2'.
      rewrite E1, E2. apply Hn; try done. unfold page_zone_id. congruence.
  - split.
    + intros z c q Hq. unfold on_pcp in Hq. rewrite (pc_pcp _ _ _ _ _ H) in Hq.
      destruct (pw_page s Hpw z c q Hq) as (? & ? & ? & ? & ? & ?).
      rewrite Hinit, (pc_valid _ _ _ H), (pc_free _ _ _ _ _ H), (pc_page _ _ _ H); [done|].
      intros HB. by apply (Hnp q z c HB).
    + intros z c. rewrite (pc_pcp _ _ _ _ _ H). apply Hpw.
    + intros z1 c1 z2 c2 q. unfold on_pcp. rewrite !(pc_pcp _ _ _ _ _ H). apply (pw_apart s Hpw).
Qed.

Lemma upd_page_changed s p f (B : Z -> Prop) :
  (forall g, page_zone (f g) = page_zone g) -> B p -> pages_changed s (upd_page s p f) B.
Proof.
  intros Hf HB. split; try done.
  - intros q. rewrite page_upd_page. case_decide as E; [by subst|done].
  - intros q Hq. rewrite page_upd_page, decide_False; [done|]. by intros ->.
Qed.

(** ** Blocks in use *)

Definition PREP : Z := PAGE_FLAGS_CHECK_AT_PREP.

(** A tail page of the compound page headed by [p]. *)
Definition tail_ok (p : Z) (g : page) : Prop :=
  pg_type g = MAPCOUNT_NONE /\ pg_count g = 0 /\ pg_mapping g = TAIL_MAPPING
  /\ pg_head g = Some p /\ Z.land (pg_flags g) PREP = 0.

(** The head page, with [c] references. *)
Definition head_ok (o c : Z) (g : page) : Prop :=
  pg_type g = MAPCOUNT_NONE /\ pg_count g = c /\ pg_mapping g = 0 /\ pg_head g = None
  /\ Z.land (pg_flags g) PREP = (if o =? 0 then 0 else 2 ^ PG_head).

(** A block that somebody uses: no list holds any of its pages. *)
Record in_use (s : mm) (z : zid) (p o c : Z) : Prop := {
  iu_order : 0 <= o < MAX_ORDER;
  iu_pos : 0 <= p;
  iu_align : (2 ^ o | p);
  iu_init : z_initialized (zones s z) = true;
  iu_zone : forall q, in_blk p o q -> pfn_valid s q = true /\ page_zone (page_at s q) = z;
  iu_head : head_ok o c (page_at s p);
  iu_tail : forall q, in_blk p o q -> q <> p -> tail_ok p (page_at s q);
  iu_compound : o <> 0 -> pg_corder (page_at s (p + 1)) = o /\ pg_cmapcount (page_at s (p + 1)) = -1;
  iu_unlisted : forall q z', z_initialized (zones s z') = true -> in_blk p o q -> ~ avail s z' q
}.

(** ** prep_new_page *)

Definition make_tail (h : Z) (g : page) : page :=
  set_head (Some h) (set_mapping TAIL_MAPPING (set_count 0 g)).

Lemma prep_tails_page n : forall s h p q,
  page_at (prep_tails n s h p) q =
  if decide (p <= q < p + Z.of_nat n) then make_tail h (page_at s q) else page_at s q.
Proof.
  induction n as [|n IH]; intros s h p q; cbn [prep_tails].
  { by rewrite decide_False by lia. }
  rewrite IH, !page_upd_page. destruct (decide (q = p)) as [->|Hne].
  - rewrite decide_False, decide_True by lia. done.
  - destruct (decide (p + 1 <= q < p + 1 + Z.of_nat n)), (decide (p <= q < p + Z.of_nat (S n))); done || lia.
Qed.

Lemma prep_tails_changed n : forall s h p (B : Z -> Prop),
  (forall q, p <= q < p + Z.of_nat n -> B q) -> pages_changed s (prep_tails n s h p) B.
Proof.
  induction n as [|n IH]; intros s h p B HB; cbn [prep_tails]; [by split|].
  apply pages_changed_trans with (upd_page s p (make_tail h)).
  - apply upd_page_changed; [done|]. apply HB. lia.
  - apply IH. intros q Hq. apply HB. lia.
Qed.

(** What prep_compound_page() leaves in each page of the block. *)
Lemma prep_compound_page_at s p o q :
  0 < o -> in_blk p o q ->
  page_at (prep_compound_page s p o) q =
  if decide (q = p) then set_flags (Z.lor (pg_flags (page_at s p)) (2 ^ PG_head)) (page_at s p)
  else if decide (q = p + 1) then set_cmapcount (-1) (make_tail p (set_corder o (page_at s q)))
  else make_tail p (page_at s q).
Proof.
  intros Ho Hq. unfold in_blk in Hq. unfold prep_compound_page.
  assert (1 < 2 ^ o) by (apply Z.pow_gt_1; lia).
  rewrite page_upd_page, !prep_tails_page, !page_upd_page.
  replace (Z.of_nat (Z.to_nat (2 ^ o - 1))) with (2 ^ o - 1) by lia.
  rewrite (decide_True (P := p + 1 <= p + 1 < p + 1 + (2 ^ o - 1))) by lia.
  rewrite (decide_False (P := p + 1 = p)) by lia.
  destruct (decide (q = p)) as [->|Hne].
  - rewrite !decide_False by lia. done.
  - destruct (decide (q = p + 1)) as [->|Hne1]; [by rewrite decide_True by done|].
    by rewrite decide_True by lia.
Qed.

Lemma prep_compound_changed s p o :
  0 < o -> pages_changed s (prep_compound_page s p o) (in_blk p o).
Proof.
  intros Ho. assert (1 < 2 ^ o) by (apply Z.pow_gt_1; lia). unfold prep_compound_page.
  set (s1 := upd_page s (p + 1) (set_corder o)).
  set (s2 := upd_page s1 p (fun g => set_flags (Z.lor (pg_flags g) (2 ^ PG_head)) g)).
  set (s3 := prep_tails (Z.to_nat (2 ^ o - 1)) s2 p (p + 1)).
  apply pages_changed_trans with s3; [|apply upd_page_changed; [done|unfold in_blk; lia]].
  apply pages_changed_trans with s2; [|apply prep_tails_changed; unfold in_blk; lia].
  apply pages_changed_trans with s1; apply upd_page_changed; done || (unfold in_blk; lia).
Qed.

Lemma in_blk_dec p o q : in_blk p o q \/ ~ in_blk p o q.
Proof. unfold in_blk. lia. Qed.

Lemma land_head_flag f : Z.land f PREP = 0 -> Z.land (Z.lor f (2 ^ PG_head)) PREP = 2 ^ PG_head.
Proof. intros H. rewrite Z.land_lor_distr_l, H. reflexivity. Qed.

(** The pages of a prepared block. *)
Lemma prep_new_page_run s z p o :
  held s z p o ->
  exists s', prep_new_page s p o = Ret s' /\ pages_changed s s' (in_blk p o)
    /\ head_ok o 1 (page_at s' p)
    /\ (forall q, in_blk p o q -> q <> p -> tail_ok p (page_at s' q))
    /\ (o <> 0 -> pg_corder (page_at s' (p + 1)) = o /\ pg_cmapcount (page_at s' (p + 1)) = -1).
Proof.
  intros [[Ho Hp Hd Hpg Hf] Hn]. assert (Hin : in_blk p o p) by (apply in_blk_head; lia).
  destruct (Hpg p Hin) as (_ & _ & (Hc & Hm & Hfl & Hh) & Ht).
  unfold prep_new_page, post_alloc_hook, set_page_refcounted, VM_BUG_ON, PageTail.
  rewrite page_upd_page, decide_True by done. cbn [pg_head pg_count set_private]. rewrite Hh, Hc.
  cbn [obind]. rewrite bool_decide_eq_false_2 by (by intros [? ?]). cbn [obind Z.eqb negb].
  set (s1 := upd_page (upd_page s p (set_private 0)) p (set_count 1)).
  assert (H1 : pages_changed s s1 (in_blk p o)).
  { eapply pages_changed_trans; apply upd_page_changed; done. }
  assert (E1 : page_at s1 p = set_count 1 (set_private 0 (page_at s p))).
  { unfold s1. rewrite !page_upd_page. by rewrite !decide_True by done. }
  destruct (Z.eqb_spec o 0) as [->|Hne].
  - exists s1. split; [done|]. split_and!; try done.
    + rewrite E1. by split_and!.
    + intros q Hq Hqp. by apply in_blk0 in Hq.
  - eexists. split; [done|]. split; [eapply pages_changed_trans; [exact H1|apply prep_compound_changed; lia]|].
    assert (1 < 2 ^ o) by (apply Z.pow_gt_1; lia). split_and!.
    + rewrite prep_compound_page_at, decide_True, E1 by (done || lia). unfold head_ok.
      destruct (Z.eqb_spec o 0); [done|]. split_and!; try done. by apply land_head_flag.
    + intros q Hq Hqp. rewrite prep_compound_page_at, decide_False by (done || lia).
      assert (Eq : page_at s1 q = page_at s q).
      { unfold s1. by rewrite !page_upd_page, !decide_False by done. }
      rewrite Eq. destruct (Hpg q Hq) as (_ & _ & (_ & _ & Hfl' & _) & Ht').
      destruct (decide (q = p + 1)); by split_and!.
    + intros _. rewrite prep_compound_page_at, decide_False, decide_True by (unfold in_blk; lia). done.
Qed.

Lemma prep_new_page_spec s z p o :
  mm_wf s -> z_initialized (zones s z) = true -> held s z p o ->
  exists s', prep_new_page s p o = Ret s' /\ pages_changed s s' (in_blk p o)
    /\ mm_wf s' /\ in_use s' z p o 1.
Proof.
  intros Hmm Hi Hh. destruct (prep_new_page_run s z p o Hh) as (s' & Hrun & Hch & Hhd & Htl & Hcp).
  pose proof Hh as [[Ho Hp Hd Hpg Hf] Hn].
  assert (Hnf : forall q z', z_initialized (zones s z') = true -> in_blk p o q -> ~ free_page s z' q).
  { intros q z' Hi' Hq Hf'. destruct (Hpg q Hq) as (_ & Hzq & _).
    destruct (free_page_valid s z' q (mm_wf_zone s z' Hmm Hi') Hf') as [_ Hz']. apply (Hf q Hq). congruence. }
  exists s'. split_and!; try done.
  - apply (pages_changed_wf s s' (in_blk p o)); try done.
    + intros q Hq. apply MAPCOUNT_not_buddy. destruct (decide (q = p)) as [->|Hne]; [apply Hhd|by apply Htl].
    + intros q. apply in_blk_dec.
  - split; try done.
    + by destruct (pc_zones _ _ _ Hch z) as (_ & _ & ->).
    + intros q Hq. rewrite (pc_valid _ _ _ Hch), (pc_zone _ _ _ Hch). by destruct (Hpg q Hq) as (? & ? & _).
    + intros q z' Hi' Hq. rewrite (pc_avail _ _ _ _ _ Hch).
      destruct (pc_zones _ _ _ Hch z') as (_ & _ & Ei). rewrite Ei in Hi'.
      intros [Hq'|(c & Hq')]; [by apply (Hnf q z')|by apply (Hn q z' c)].
Qed.

(** ** free_pages_prepare *)

Definition scrub_tail (g : page) : page := clear_prep_flags (set_head None (set_mapping 0 g)).

Lemma scrub_tail_idle p g : tail_ok p g -> idle (scrub_tail g).
Proof.
  intros (Ht & Hc & _ & _ & _). split; [|done]. split_and!; try done. cbn.
  by rewrite <- Z.land_assoc, (Z.land_comm (Z.lnot _)), Z.land_lnot_diag, Z.land_0_r.
Qed.

(** One tail page passes its checks. *)
Lemma free_tail_check_ok s h p :
  tail_ok h (page_at s p) -> h < p -> (p = h + 1 -> pg_cmapcount (page_at s p) = -1) ->
  exists s1, free_tail_pages_check s h p = Ret (s1, false)
    /\ s1 = upd_page s p (fun g => set_head None (set_mapping 0 g)).
Proof.
  intros (Ht & Hc & Hm & Hh & Hf) Hlt Hcm. unfold free_tail_pages_check, compound_mapcount, VM_BUG_ON, PageCompound, PageTail.
  rewrite Hh. rewrite bool_decide_eq_true_2 by eauto. rewrite orb_true_r. cbn [negb obind compound_head].
  unfold compound_head. rewrite Hh. cbn [default]. change (default p (Some h)) with h. rewrite Z.eqb_refl. cbn [negb].
  destruct (Z.eqb_spec (p - h) 1) as [E|E].
  - unfold id. replace (h + 1) with p by lia. rewrite Hcm by lia. cbn. eauto.
  - destruct (p - h =? 2); cbn [obind]; [eauto|]. rewrite Hm, Z.eqb_refl. cbn. eauto.
Qed.

Lemma prepare_tails_spec n : forall s h p,
  h < p -> (forall q, p <= q < p + Z.of_nat n -> tail_ok h (page_at s q)) ->
  (p = h + 1 -> (0 < n)%nat -> pg_cmapcount (page_at s p) = -1) ->
  exists s', prepare_tails n s h p true 0 = Ret (s', 0)
    /\ pages_changed s s' (fun q => p <= q < p + Z.of_nat n)
    /\ (forall q, p <= q < p + Z.of_nat n -> idle (page_at s' q)).
Proof.
  induction n as [|n IH]; intros s h p Hlt Htl Hcm; cbn [prepare_tails].
  { exists s. split_and!; try done. intros; lia. }
  assert (Hp : tail_ok h (page_at s p)) by (apply Htl; lia).
  destruct (free_tail_check_ok s h p Hp Hlt) as (s1 & -> & ->); [intros; apply Hcm; lia|]. cbn [obind].
  set (s1 := upd_page s p (fun g => set_head None (set_mapping 0 g))).
  assert (E1 : page_at s1 p = set_head None (set_mapping 0 (page_at s p))).
  { unfold s1. by rewrite page_upd_page, decide_True by done. }
  assert (Hck : free_pages_check s1 p = (s1, false)).
  { apply free_pages_check_idle. rewrite E1. destruct Hp as (? & ? & ? & ? & ?). by split. }
  rewrite Hck. set (s2 := upd_page s1 p clear_prep_flags).
  assert (Eo : forall q, q <> p -> page_at s2 q = page_at s q).
  { intros q Hq. unfold s2, s1. by rewrite !page_upd_page, !decide_False by done. }
  destruct (IH s2 h (p + 1)) as (s' & Hrun & Hch & Hid).
  - lia.
  - intros q Hq. rewrite Eo by lia. apply Htl. lia.
  - lia.
  - exists s'. split; [done|]. split.
    + apply pages_changed_trans with s2.
      * apply pages_changed_trans with s1; apply upd_page_changed; done || lia.
      * destruct Hch as [? ? ? Hpg]. split; try done. intros q Hq. apply Hpg. lia.
    + intros q Hq. destruct (decide (q = p)) as [->|Hne]; [|apply Hid; lia].
      rewrite (pc_page _ _ _ Hch) by lia. unfold s2. rewrite page_upd_page, decide_True, E1 by done.
      by apply (scrub_tail_idle h).
Qed.

Lemma head_flag_compound o g : o <> 0 -> head_ok o 0 g -> PageHead g = true.
Proof.
  intros Ho (_ & _ & _ & _ & Hf). unfold PageHead. destruct (Z.eqb_spec o 0); [done|].
  assert (E : Z.testbit (Z.land (pg_flags g) PREP) PG_head = true) by (by rewrite Hf).
  rewrite Z.land_spec in E. by apply andb_true_iff in E as [? _].
Qed.

(** A head page without references passes the free check and becomes idle. *)
Lemma head_check o g :
  head_ok o 0 g -> page_expected_state g PAGE_FLAGS_CHECK_AT_FREE = true /\ idle (clear_prep_flags g).
Proof.
  intros (Ht & Hc & Hm & Hh & Hf). split.
  - unfold page_expected_state. rewrite Ht, Hc, Hm. cbn [Z.lor].
    assert (E : Z.land (pg_flags g) PAGE_FLAGS_CHECK_AT_FREE
                = Z.land (Z.land (pg_flags g) PREP) PAGE_FLAGS_CHECK_AT_FREE) by (by rewrite <- Z.land_assoc).
    rewrite E, Hf. by destruct (o =? 0).
  - split; [|done]. split_and!; try done. cbn.
    by rewrite <- Z.land_assoc, (Z.land_comm (Z.lnot _)), Z.land_lnot_diag, Z.land_0_r.
Qed.

Lemma free_pages_prepare_spec s z p o (check : bool) :
  in_use s z p o 0 ->
  exists s', free_pages_prepare s p o check = Ret (s', true)
    /\ pages_changed s s' (in_blk p o) /\ (forall q, in_blk p o q -> idle (page_at s' q)).
Proof.
  intros [Ho Hp Hd Hi Hz Hhd Htl Hcp Hun]. unfold free_pages_prepare, VM_BUG_ON, PageTail.
  pose proof Hhd as (Ht & Hc & Hm & Hh & Hf). rewrite Hh, bool_decide_eq_false_2 by (by intros [? ?]). cbn [obind].
  assert (Htails : exists s1, (if o =? 0 then Ret (s, 0)
      else let! _ := (if PageCompound (page_at s p) && negb (compound_order s p =? o) then Panic else Ret tt) in
           prepare_tails (Z.to_nat (2 ^ o - 1)) s p (p + 1) (PageCompound (page_at s p)) 0) = Ret (s1, 0)
      /\ pages_changed s s1 (in_blk p o) /\ page_at s1 p = page_at s p
      /\ (forall q, in_blk p o q -> q <> p -> idle (page_at s1 q))).
  { destruct (Z.eqb_spec o 0) as [->|Hne].
    - exists s. split_and!; try done. intros q Hq Hqp. by apply in_blk0 in Hq.
    - assert (1 < 2 ^ o) by (apply Z.pow_gt_1; lia). destruct (Hcp Hne) as [Hco Hcm].
      unfold PageCompound, compound_order. rewrite (head_flag_compound o) by done. cbn [orb].
      rewrite Hco, Z.eqb_refl. cbn [negb andb obind].
      destruct (prepare_tails_spec (Z.to_nat (2 ^ o - 1)) s p (p + 1)) as (s1 & -> & Hch & Hid); try done; try lia.
      { intros q Hq. apply Htl; unfold in_blk; lia. }
      exists s1. split; [done|]. split_and!.
      + destruct Hch as [? ? ? Hpg]. split; try done. intros q Hq. apply Hpg. unfold in_blk in Hq. lia.
      + apply (pc_page _ _ _ Hch). lia.
      + intros q Hq Hqp. apply Hid. unfold in_blk in Hq. lia. }
  destruct Htails as (s1 & -> & Hch & E1 & Hid). cbn [obind].
  unfold PageMappingFlags. rewrite E1, Hm, Z.land_0_l. cbn [Z.eqb negb].
  destruct (head_check o (page_at s p) Hhd) as [Hexp Hidle].
  assert (Hck : (if check then free_pages_check s1 p else (s1, false)) = (s1, false)).
  { destruct check; [|done]. unfold free_pages_check. by rewrite E1, Hexp. }
  rewrite Hck. cbn [Z.eqb negb]. eexists. split; [done|].
  assert (Hin : in_blk p o p) by (apply in_blk_head; lia). split.
  - apply pages_changed_trans with s1; [done|]. by apply upd_page_changed.
  - intros q Hq. rewrite page_upd_page. case_decide as E; [subst; by rewrite E1|]. by apply Hid.
Qed.

(** ** __free_pages *)

(** A block of a zone that no list holds, whatever its pages look like. *)
Record own_block (s : mm) (z : zid) (p o : Z) : Prop := {
  ob_order : 0 <= o < MAX_ORDER;
  ob_pos : 0 <= p;
  ob_align : (2 ^ o | p);
  ob_init : z_initialized (zones s z) = true;
  ob_zone : forall q, in_blk p o q -> pfn_valid s q = true /\ page_zone (page_at s q) = z;
  ob_unlisted : forall q z', z_initialized (zones s z') = true -> in_blk p o q -> ~ avail s z' q
}.

Lemma in_use_own s z p o c : in_use s z p o c -> own_block s z p o.
Proof. by intros [? ? ? ? ? ? ? ? ?]. Qed.

Lemma own_block_changed s s' z p o :
  own_block s z p o -> pages_changed s s' (in_blk p o) -> own_block s' z p o.
Proof.
  intros [Ho Hp Hd Hi Hz Hun] Hch. split; try done.
  - by destruct (pc_zones _ _ _ Hch z) as (_ & _ & ->).
  - intros q Hq. rewrite (pc_valid _ _ _ Hch), (pc_zone _ _ _ Hch). by apply Hz.
  - intros q z' Hi' Hq. rewrite (pc_avail _ _ _ _ _ Hch). apply Hun; [|done].
    by destruct (pc_zones _ _ _ Hch z') as (_ & _ & <-).
Qed.

Lemma own_block_wf s s' z p o :
  mm_wf s -> own_block s z p o -> pages_changed s s' (in_blk p o) ->
  (forall q, in_blk p o q -> pg_type (page_at s' q) = MAPCOUNT_NONE) -> mm_wf s'.
Proof.
  intros Hmm [Ho Hp Hd Hi Hz Hun] Hch Ht.
  assert (Hun' : forall q z', z_initialized (zones s z') = true -> in_blk p o q -> ~ free_page s z' q).
  { intros q z' Hi' Hq Hf. apply (Hun q z' Hi' Hq). by left. }
  apply (pages_changed_wf s s' (in_blk p o)); try done.
  - intros q z' c0 Hq Hon. destruct (pw_page s (mw_pcp s Hmm) z' c0 q Hon) as (Hi' & _).
    apply (Hun q z' Hi' Hq). right. by exists c0.
  - intros q Hq. by apply MAPCOUNT_not_buddy, Ht.
  - intros q. apply in_blk_dec.
Qed.

Lemma own_block_held s z p o :
  mm_wf s -> own_block s z p o -> (forall q, in_blk p o q -> idle (page_at s q)) -> held s z p o.
Proof.
  intros Hmm [Ho Hp Hd Hi Hz Hun] Hid. split; [split; try done|].
  - intros q Hq. destruct (Hz q Hq). split_and!; try done. by apply Hid.
  - intros q Hq Hf. apply (Hun q z Hi Hq). by left.
  - intros q z' c Hq Hon. destruct (pw_page s (mw_pcp s Hmm) z' c q Hon) as (Hi' & _).
    apply (Hun q z' Hi' Hq). right. by exists c.
Qed.

Lemma pages_changed_frame s s' z B : pages_changed s s' B -> mm_frame s s' z B.
Proof.
  intros H. split; try apply H.
  - intros z' _ _ q o. apply (pc_blk _ _ _ _ _ _ H).
  - intros z' c _. apply (pc_pcp _ _ _ _ _ H).
  - intros z' c. by rewrite (pc_pcp _ _ _ _ _ H).
Qed.

(** Dropping a reference. *)
Lemma put_page_spec s z p o c :
  mm_wf s -> in_use s z p o c -> 0 < c ->
  exists s1, put_page_testzero s p = Ret (s1, c - 1 =? 0)
    /\ pages_changed s s1 (in_blk p o) /\ mm_wf s1 /\ in_use s1 z p o (c - 1).
Proof.
  intros Hmm Hu Hc. pose proof Hu as [Ho Hp Hd Hi Hz Hhd Htl Hcp Hun].
  unfold put_page_testzero, VM_BUG_ON. destruct Hhd as (Ht & Hcnt & Hm & Hh & Hf). rewrite Hcnt.
  destruct (Z.eqb_spec c 0); [lia|]. cbn [obind].
  set (s1 := upd_page s p (set_count (c - 1))).
  assert (Hin : in_blk p o p) by (apply in_blk_head; lia).
  assert (Hch : pages_changed s s1 (in_blk p o)) by (by apply upd_page_changed).
  assert (E1 : page_at s1 p = set_count (c - 1) (page_at s p)) by (unfold s1; by rewrite page_upd_page, decide_True).
  assert (Eo : forall q, q <> p -> page_at s1 q = page_at s q).
  { intros q Hq. unfold s1. by rewrite page_upd_page, decide_False. }
  exists s1. split; [done|]. split; [done|]. split.
  - apply (own_block_wf s s1 z p o); try done. intros q Hq.
    destruct (decide (q = p)) as [->|Hne]; [by rewrite E1|]. rewrite Eo by done. by apply Htl.
  - split; try done.
    + intros q Hq. rewrite (pc_zone _ _ _ Hch). by apply Hz.
    + rewrite E1. by split_and!.
    + intros q Hq Hqp. rewrite Eo by done. by apply Htl.
    + intros Hne. rewrite Eo by lia. by apply Hcp.
Qed.

(** Releases compose with changes to the block's own pages. *)
Lemma released_after s s2 s' z p o :
  pages_changed s s2 (in_blk p o) -> released s2 s' z p o -> released s s' z p o.
Proof.
  intros Hch [W C A F]. split; try done.
  - intros Hc. apply C. intros z' c. rewrite (pc_pcp _ _ _ _ _ Hch). apply Hc.
  - intros q. by rewrite A, (pc_avail _ _ _ _ _ Hch).
  - apply mm_frame_trans with s2.
    + apply (mm_frame_mono _ _ _ (in_blk p o)); [by right|]. by apply pages_changed_frame.
    + apply (mm_frame_mono _ _ _ (fun q => avail s2 z q \/ in_blk p o q)); [|done].
      intros q. by rewrite (pc_avail _ _ _ _ _ Hch).
Qed.

(** Once the checks accept the block, it is given back. *)
Lemma free_prepared s s2 z p o cpu :
  mm_wf s -> pcp_counts s -> pcp_sane s cpu -> own_block s z p o ->
  free_pages_prepare s p o (negb (o =? 0)) = Ret (s2, true) ->
  pages_changed s s2 (in_blk p o) -> (forall q, in_blk p o q -> idle (page_at s2 q)) ->
  exists s', free_the_page s p o cpu = Ret s' /\ released s s' z p o.
Proof.
  intros Hmm Hcnt Hsane Hob Hrun Hch Hid.
  assert (Hmm2 : mm_wf s2) by (apply (own_block_wf s s2 z p o); try done; intros q Hq; by apply Hid).
  pose proof (own_block_changed s s2 z p o Hob Hch) as Hob2.
  pose proof (own_block_held s2 z p o Hmm2 Hob2 Hid) as Hh. pose proof (ob_init _ _ _ _ Hob2) as Hi2.
  assert (Hcnt2 : pcp_counts s2) by (intros z' c; rewrite (pc_pcp _ _ _ _ _ Hch); apply Hcnt).
  assert (Hsane2 : pcp_sane s2 cpu) by (intros z'; rewrite (pc_pcp _ _ _ _ _ Hch); apply Hsane).
  pose proof (ob_order _ _ _ _ Hob) as Ho.
  unfold free_the_page. destruct (Z.eqb_spec o 0) as [->|Hne]; cbn [negb] in Hrun.
  - unfold free_unref_page. rewrite Hrun. cbn [obind negb].
    destruct (free_unref_page_commit_spec s2 z p cpu) as (s' & -> & Hr); try done.
    exists s'. split; [done|]. by apply (released_after s s2).
  - unfold __free_pages_ok. rewrite Hrun. cbn [obind negb].
    rewrite (proj2 (ob_zone _ _ _ _ Hob2 p (in_blk_head p o ltac:(lia)))).
    destruct (free_one_page_mm s2 z p o Hmm2 Hi2 Hh) as (s' & -> & _ & _ & Hr).
    exists s'. split; [done|]. by apply (released_after s s2).
Qed.

Lemma free_last_spec s z p o cpu :
  mm_wf s -> pcp_counts s -> pcp_sane s cpu -> in_use s z p o 0 ->
  exists s', free_the_page s p o cpu = Ret s' /\ released s s' z p o.
Proof.
  intros Hmm Hcnt Hsane Hu.
  destruct (free_pages_prepare_spec s z p o (negb (o =? 0)) Hu) as (s2 & Hrun & Hch & Hid).
  apply (free_prepared s s2); try done. by apply (in_use_own s z p o 0).
Qed.

Lemma free_pages_spec s z p o cpu :
  mm_wf s -> pcp_counts s -> pcp_sane s cpu -> in_use s z p o 1 ->
  exists s', __free_pages s p o cpu = Ret s' /\ released s s' z p o.
Proof.
  intros Hmm Hcnt Hsane Hu. unfold __free_pages.
  destruct (put_page_spec s z p o 1 Hmm Hu ltac:(lia)) as (s1 & -> & Hch & Hmm1 & Hu1). cbn [obind].
  change (1 - 1 =? 0) with true. cbn iota.
  destruct (free_last_spec s1 z p o cpu Hmm1) as (s' & -> & Hr); try done.
  { intros z' c; rewrite (pc_pcp _ _ _ _ _ Hch); apply Hcnt. }
  { intros z'; rewrite (pc_pcp _ _ _ _ _ Hch); apply Hsane. }
  exists s'. split; [done|]. by apply (released_after s s1).
Qed.

(** * The page allocator: zone lists

    The walk of get_page_from_freelist() over a zonelist and the entry point
    __alloc_pages_nodemask(). *)

Lemma next_zones_suffix l highidx nodes : exists k, next_zones_zonelist l highidx nodes = drop k l.
Proof.
  induction l as [|r l [k IH]]; cbn [next_zones_zonelist]; [by exists O|].
  destruct (_ || _); [by exists (S k)|by exists O].
Qed.

(** The zones a request admits. *)
Definition admits (highidx : Z) (nodes : option (Z -> bool)) (r : zoneref) : Prop :=
  zr_idx r <= highidx /\ match nodes with Some m => m (fst (zr_zone r)) = true | None => True end.

Lemma next_zones_admits l highidx nodes r :
  r ∈ l -> admits highidx nodes r -> r ∈ next_zones_zonelist l highidx nodes.
Proof.
  intros Hin [Hi Hn]. induction l as [|r' l IH]; [by apply not_elem_of_nil in Hin|]. cbn [next_zones_zonelist].
  destruct (_ || _) eqn:E; [|done]. apply elem_of_cons in Hin as [->|Hin]; [|by apply IH].
  exfalso. apply orb_true_iff in E as [E|E]; [apply Z.gtb_lt in E; lia|].
  destruct nodes as [m|]; [|done]. by rewrite Hn in E.
Qed.

(** A zone the walk can ask for pages. *)
Definition zone_ready (s : mm) (cpu : Z) (r : zoneref) : Prop :=
  z_initialized (zones s (zr_zone r)) = true /\ 0 < pcp_batch (pcp_of s (zr_zone r) cpu).

(** Nothing available was lost or gained, in any zone. *)
Definition avail_same (s s' : mm) : Prop :=
  forall z q, z_initialized (zones s z) = true -> avail s' z q <-> avail s z q.

(** Pages that no zone offers stay as they are; so do the extent of memory and
    the links from pages to zones. *)
Record outside_same (s s' : mm) : Prop := {
  os_valid : forall q, pfn_valid s' q = pfn_valid s q;
  os_zone : forall q, page_zone (page_at s' q) = page_zone (page_at s q);
  os_page : forall q, (forall z, z_initialized (zones s z) = true -> ~ avail s z q) -> page_at s' q = page_at s q
}.

(** The block [p] was allocated from [z] and is in use. *)
Record allocated (s s' : mm) (z : zid) (p o : Z) : Prop := {
  ac_wf : mm_wf s';
  ac_counts : pcp_counts s -> pcp_counts s';
  ac_sane : forall c, pcp_sane s c -> pcp_sane s' c;
  ac_init : forall z', z_initialized (zones s' z') = z_initialized (zones s z');
  ac_use : in_use s' z p o 1;
  ac_was : forall q, in_blk p o q -> avail s z q;
  ac_avail : forall q, avail s' z q <-> avail s z q /\ ~ in_blk p o q;
  ac_other : forall z' q, z' <> z -> z_initialized (zones s z') = true -> avail s' z' q <-> avail s z' q;
  ac_outside : outside_same s s'
}.

Lemma mm_frame_outside s s' z :
  z_initialized (zones s z) = true -> mm_frame s s' z (avail s z) -> outside_same s s'.
Proof. intros Hi H. split; [apply H|apply H|]. intros q Hq. apply H. by apply Hq. Qed.

Lemma mm_frame_avail s s' z R z' q :
  mm_frame s s' z R -> z' <> z -> z_initialized (zones s z') = true -> avail s' z' q <-> avail s z' q.
Proof.
  intros H Hne Hi. unfold avail, free_page, on_pcp. setoid_rewrite (mf_blk _ _ _ _ H z' Hne Hi).
  by setoid_rewrite (mf_pcp _ _ _ _ H z' _ Hne).
Qed.

Lemma mm_frame_sane s s' z R c : mm_frame s s' z R -> pcp_sane s c -> pcp_sane s' c.
Proof. intros H Hs z'. destruct (mf_params _ _ _ _ H z' c) as [-> ->]. apply Hs. Qed.

(** One zone serves the request. *)
Lemma zone_serves s s1 z p o :
  z_initialized (zones s z) = true -> alloced s s1 z p o ->
  exists s2, prep_new_page s1 p o = Ret s2 /\ allocated s s2 z p o.
Proof.
  intros Hi [W C H Wa A F].
  assert (Hi1 : z_initialized (zones s1 z) = true) by (by rewrite (mf_init _ _ _ _ F)).
  destruct (prep_new_page_spec s1 z p o W Hi1 H) as (s2 & -> & Hch & W2 & U2).
  exists s2. split; [done|]. split; try done.
  - intros Hc z' c. rewrite (pc_pcp _ _ _ _ _ Hch). by apply C.
  - intros c Hs z'. rewrite (pc_pcp _ _ _ _ _ Hch). by apply (mm_frame_sane s s1 z (avail s z)).
  - intros z'. destruct (pc_zones _ _ _ Hch z') as (_ & _ & ->). apply F.
  - intros q. by rewrite (pc_avail _ _ _ _ _ Hch).
  - intros z' q Hne Hi'. rewrite (pc_avail _ _ _ _ _ Hch). by apply (mm_frame_avail s s1 z (avail s z)).
  - destruct (mm_frame_outside s s1 z Hi F) as [V Zo P]. split.
    + intros q. by rewrite (pc_valid _ _ _ Hch).
    + intros q. by rewrite (pc_zone _ _ _ Hch).
    + intros q Hq. rewrite (pc_page _ _ _ Hch); [by apply P|]. intros Hin. by apply (Hq z Hi), Wa.
Qed.

Lemma allocated_after s s1 s2 z p o :
  avail_same s s1 -> (forall z, z_initialized (zones s1 z) = z_initialized (zones s z)) ->
  (pcp_counts s -> pcp_counts s1) -> (forall c, pcp_sane s c -> pcp_sane s1 c) -> outside_same s s1 ->
  z_initialized (zones s z) = true -> allocated s1 s2 z p o -> allocated s s2 z p o.
Proof.
  intros Ha Hinit Hc Hsn [V1 Z1 P1] Hi [W C Sn In U Wa A O [V2 Z2 P2]]. split; try done; auto.
  - intros z'. by rewrite In.
  - intros q Hq. by apply Ha, Wa.
  - intros q. by rewrite A, (Ha z q Hi).
  - intros z' q Hne Hi'. rewrite O; [by apply Ha|done|by rewrite Hinit].
  - split.
    + intros q. by rewrite V2.
    + intros q. by rewrite Z2.
    + intros q Hq. rewrite P2; [by apply P1|]. intros z' Hi'. rewrite Hinit in Hi'. rewrite (Ha z' q Hi'). by apply Hq.
Qed.

Section Walk.
Context (nr_online_nodes : Z) (preferred : zid) (highidx : Z) (nodes : option (Z -> bool)) (cpu o : Z).
Context (Ho : 0 <= o < MAX_ORDER).

(** The walk may enter the zone: it is the preferred one or on its node. *)
Definition local_zone (r : zoneref) : Prop :=
  nr_online_nodes <= 1 \/ zone_to_nid (zr_zone r) = zone_to_nid preferred.

(** How the walk ends, seen from its first state. *)
Definition walk_end (s s' : mm) (l : list zoneref) (e : loop_end) : Prop :=
  match e with
  | Found p => exists r, r ∈ l /\ allocated s s' (zr_zone r) p o
  | Exhausted => mm_wf s' /\ (pcp_counts s -> pcp_counts s') /\ avail_same s s'
      /\ (forall r, r ∈ l -> admits highidx nodes r -> cannot_serve s (zr_zone r) cpu o)
  | Retry => False
  end.

Lemma freelist_loop_spec fuel : forall s l,
  mm_wf s -> (length l < fuel)%nat -> NoDup (map zr_zone l) ->
  (forall r, r ∈ l -> zone_ready s cpu r /\ local_zone r) ->
  exists s' e, freelist_loop fuel s nr_online_nodes l preferred highidx nodes cpu o = Ret (s', e)
    /\ walk_end s s' l e.
Proof.
  induction fuel as [|fuel IH]; intros s l Hmm Hf Hnd Hr; [lia|]. cbn [freelist_loop].
  destruct l as [|r l].
  { exists s, Exhausted. split_and!; try done. split_and!; try done. intros r Hin. by apply not_elem_of_nil in Hin. }
  destruct (Hr r ltac:(left)) as [[Hi Hb] Hloc].
  assert (Hcond : (nr_online_nodes >? 1) && negb (bool_decide (zr_zone r = preferred))
     && negb (zone_to_nid (zr_zone r) =? zone_to_nid preferred) = false).
  { destruct Hloc as [Hl| -> ]; [|by rewrite Z.eqb_refl, andb_false_r].
    rewrite Z.gtb_ltb. by destruct (Z.ltb_spec 1 nr_online_nodes); [lia|]. }
  rewrite Hcond.
  destruct (rmqueue_spec s (zr_zone r) cpu o Hmm Hi Ho Hb) as (s1 & [p|] & -> & H1); cbn [obind].
  { destruct (zone_serves s s1 (zr_zone r) p o Hi H1) as (s2 & -> & H2). cbn [obind].
    exists s2, (Found p). split; [done|]. exists r. split; [left|done]. }
  destruct H1 as (Hmm1 & Hcnt1 & Hav1 & Hfr1 & Hcs).
  destruct (next_zones_suffix l highidx nodes) as [k Hk]. rewrite Hk.
  cbn [map] in Hnd. apply list.NoDup_cons in Hnd as [Hnin Hnd].
  assert (Hsub : forall r', r' ∈ drop k l -> r' ∈ l).
  { intros r' Hin. rewrite <- (take_drop k l). apply elem_of_app. by right. }
  assert (Hne' : forall r', r' ∈ l -> zr_zone r' <> zr_zone r).
  { intros r' Hin E. apply Hnin. rewrite <- E. by apply list_elem_of_fmap_2. }
  assert (Hsame : avail_same s s1).
  { intros z q Hiz. destruct (decide (z = zr_zone r)) as [->|Hne]; [done|].
    by apply (mm_frame_avail s s1 (zr_zone r) (avail s (zr_zone r))). }
  destruct (IH s1 (drop k l)) as (s' & e & Hrun & He).
  - done.
  - rewrite length_drop. cbn in Hf. lia.
  - rewrite <- (take_drop k l), map_app in Hnd. by apply list.NoDup_app in Hnd as (_ & _ & ?).
  - intros r' Hin. apply Hsub in Hin. destruct (Hr r' ltac:(by right)) as [[Hi' Hb'] Hl']. split; [|done].
    split; [by rewrite (mf_init _ _ _ _ Hfr1)|]. rewrite (mf_pcp _ _ _ _ Hfr1); [done|by apply Hne'].
  - exists s', e. split; [done|]. destruct e as [p| |]; cbn in *; [|split_and!|done].
    + destruct He as (r' & Hin & Hal). exists r'. split; [right; by apply Hsub|].
      apply (allocated_after s s1); try done; [apply Hfr1|intros c; apply (mm_frame_sane s s1 _ _ c Hfr1)|
        by apply (mm_frame_outside s s1 (zr_zone r))|]. by apply Hr; right; apply Hsub.
    + apply He.
    + intros Hc. by apply He, Hcnt1.
    + intros z q Hiz. destruct He as (_ & _ & Ha & _). rewrite (Ha z q); [by apply Hsame|]. by rewrite (mf_init _ _ _ _ Hfr1).
    + intros r' Hin Had. apply elem_of_cons in Hin as [->|Hin]; [done|].
      destruct He as (_ & _ & _ & He). pose proof (next_zones_admits l highidx nodes r' Hin Had) as Hin'.
      rewrite Hk in Hin'. destruct (He r' Hin' Had) as [H1 H2]. split.
      * intros p k' Hblk. apply (H1 p k'). apply (mf_blk _ _ _ _ Hfr1); try done; [by apply Hne'|].
        by apply Hr; right.
      * intros E. rewrite <- (H2 E). by rewrite (mf_pcp _ _ _ _ Hfr1) by (by apply Hne').
Qed.

End Walk.

(** ** The free lists are determined by the free pages *)

Lemma in_blk_div p o q : 0 <= o -> (2 ^ o | p) -> in_blk p o q <-> q / 2 ^ o = p / 2 ^ o.
Proof.
  intros Ho [a ->]. unfold in_blk. assert (0 < 2 ^ o) by (apply Z.pow_pos_nonneg; lia).
  rewrite Z.div_mul by lia. pose proof (Z.div_mod q (2 ^ o)). pose proof (Z.mod_pos_bound q (2 ^ o)). nia.
Qed.

(** Of two aligned blocks that share a page, the larger contains the other. *)
Lemma blocks_nest x i c j y w :
  0 <= i <= j -> (2 ^ i | x) -> (2 ^ j | c) -> in_blk x i y -> in_blk c j y -> in_blk x i w -> in_blk c j w.
Proof.
  intros Hij Hx Hc Hy Hcy Hw. rewrite in_blk_div in * by (done || lia).
  assert (E : forall v, v / 2 ^ j = v / 2 ^ i / 2 ^ (j - i)).
  { intros v. rewrite Z.div_div by (apply Z.pow_nonzero || apply Z.pow_pos_nonneg; lia).
    f_equal. rewrite <- Z.pow_add_r by lia. f_equal. lia. }
  rewrite E, Hw, <- Hy, <- E. done.
Qed.

Lemma in_blk_same x c m y : 0 <= m -> (2 ^ m | x) -> (2 ^ m | c) -> in_blk x m y -> in_blk c m y -> x = c.
Proof.
  intros Hm Hx Hc Hy Hcy.
  assert (H1 : in_blk c m x) by (apply (blocks_nest x m c m y x); try done; try lia; by apply in_blk_head).
  assert (H2 : in_blk x m c) by (apply (blocks_nest c m x m y c); try done; try lia; by apply in_blk_head).
  unfold in_blk in *. lia.
Qed.

(** A fully free aligned block contains no smaller listed block: the smallest
    one would have a free buddy. *)
Lemma no_smaller_block s z b k :
  zone_wf s z -> k < MAX_ORDER -> (2 ^ k | b) -> (forall q, in_blk b k q -> free_page s z q) ->
  forall n m x, (Z.to_nat m < n)%nat -> m < k -> blk s z x m -> in_blk b k x -> False.
Proof.
  intros Hwf Hk Hb Hfree. induction n as [|n IH]; intros m x Hn Hm Hx Hin; [lia|].
  pose proof (proj1 Hx) as Hmr. destruct (wf_align s z Hwf x m Hx) as [Hpos Hal].
  assert (H2 : 0 < 2 ^ m) by (apply Z.pow_pos_nonneg; lia).
  assert (E : 2 ^ (m + 1) = 2 * 2 ^ m) by (rewrite Z.pow_add_r by lia; lia).
  set (y := __find_buddy_pfn x m).
  assert (Hpair : exists l, (2 ^ (m + 1) | l) /\ in_blk l (m + 1) x /\ in_blk l (m + 1) y /\ (2 ^ m | y) /\ y <> x).
  { assert (2 ^ m | 2 ^ m) by apply Z.divide_refl.
    destruct (buddy_spec x m) as [(Hd & Ey & _)|(Hd & Ey & _ & _)]; try done; try lia; fold y in Ey.
    - exists x. unfold in_blk. rewrite Ey. split_and!; try done; try (rewrite E; lia); try lia. by apply Z.divide_add_r.
    - exists (x - 2 ^ m). unfold in_blk. rewrite Ey. split_and!; try done; try (rewrite E; lia); try lia. by apply Z.divide_sub_r. }
  destruct Hpair as (l & Hl & Hlx & Hly & Hyal & Hyx).
  assert (Hy : in_blk b k y) by (apply (blocks_nest l (m + 1) b k x y); try done; lia).
  destruct (Hfree y Hy) as (c & j & Hc & Hcy). pose proof (proj1 Hc) as Hjr.
  destruct (wf_align s z Hwf c j Hc) as [Hcpos Hcal].
  assert (Hyy : in_blk y m y) by (apply in_blk_head; lia).
  destruct (Z.lt_trichotomy j m) as [Hlt|[->|Hgt]].
  - apply (IH j c); try done; try lia.
    apply (blocks_nest c j b k y c); try done; try lia. apply in_blk_head; lia.
  - assert (c = y) as -> by (apply (in_blk_same c y m y); done || lia).
    by apply (wf_coal s z Hwf x m Hx ltac:(lia)).
  - assert (Hcx : in_blk c j x) by (apply (blocks_nest l (m + 1) c j y x); try done; lia).
    destruct (wf_disj s z Hwf x m c j x Hx Hc (in_blk_head x m ltac:(lia)) Hcx). lia.
Qed.

Lemma canonical_half s s' z p o :
  zone_wf s z -> zone_wf s' z -> (forall q, free_page s z q <-> free_page s' z q) ->
  blk s z p o -> blk s' z p o.
Proof.
  intros Hwf Hwf' Hfree Hb. pose proof (proj1 Hb) as Hor. destruct (wf_align s z Hwf p o Hb) as [Hpos Hal].
  assert (Hpp : in_blk p o p) by (apply in_blk_head; lia).
  destruct (proj1 (Hfree p)) as (b & k & Hb' & Hin); [by exists p, o|]. pose proof (proj1 Hb') as Hkr.
  destruct (wf_align s' z Hwf' b k Hb') as [Hbpos Hbal].
  destruct (Z.lt_trichotomy k o) as [Hlt|[->|Hgt]].
  - exfalso. apply (no_smaller_block s' z p o Hwf' ltac:(lia) Hal) with (n := S (Z.to_nat k)) (m := k) (x := b); try done; try lia.
    + intros q Hq. apply Hfree. by exists p, o.
    + apply (blocks_nest b k p o p b); try done; try lia. apply in_blk_head; lia.
  - by assert (b = p) as -> by (apply (in_blk_same b p o p); done || lia).
  - exfalso. apply (no_smaller_block s z b k Hwf ltac:(lia) Hbal) with (n := S (Z.to_nat o)) (m := o) (x := p); try done; try lia.
    intros q Hq. apply Hfree. by exists b, k.
Qed.

(** ** The entry point *)

Lemma get_page_spec s nr l highidx nodes cpu o fuel r0 l0 :
  l = r0 :: l0 -> 0 <= o < MAX_ORDER -> mm_wf s -> NoDup (map zr_zone l) ->
  (forall r, r ∈ l -> zone_ready s cpu r /\ local_zone nr (zr_zone r0) r) ->
  exists s' e, e <> Retry /\ walk_end highidx nodes cpu o s s' l e
    /\ get_page_from_freelist (S fuel) s nr l highidx nodes cpu o =
       Ret (s', match e with Found p => Some p | _ => None end).
Proof.
  intros -> Ho Hmm Hnd Hr. cbn [get_page_from_freelist].
  destruct (freelist_loop_spec nr (zr_zone r0) highidx nodes cpu o Ho (S (length (r0 :: l0))) s (r0 :: l0) Hmm
    ltac:(lia) Hnd Hr) as (s' & e & -> & He).
  exists s', e. destruct e; split_and!; done.
Qed.

(** The entry point on a zonelist whose zones are on one node. *)
Lemma alloc_entry_spec fuel s nr zonelist highidx nodes cpu o r0 l0 :
  next_zones_zonelist zonelist highidx nodes = r0 :: l0 ->
  0 <= o < MAX_ORDER -> mm_wf s -> NoDup (map zr_zone (r0 :: l0)) ->
  (forall r, r ∈ r0 :: l0 -> zone_ready s cpu r /\ local_zone nr (zr_zone r0) r) ->
  (exists s' p r, __alloc_pages_nodemask (S fuel) s nr zonelist highidx nodes cpu o = Ret (s', Some p)
     /\ r ∈ r0 :: l0 /\ allocated s s' (zr_zone r) p o)
  \/ (__alloc_pages_nodemask (S fuel) s nr zonelist highidx nodes cpu o = Panic
      /\ forall r, r ∈ r0 :: l0 -> admits highidx nodes r -> cannot_serve s (zr_zone r) cpu o).
Proof.
  intros Hl Ho Hmm Hnd Hr. unfold __alloc_pages_nodemask. rewrite Hl.
  destruct (Z.geb_spec o MAX_ORDER); [lia|].
  destruct (get_page_spec s nr (r0 :: l0) highidx nodes cpu o fuel r0 l0 eq_refl Ho Hmm Hnd Hr)
    as (s' & e & He & Hend & ->). cbn [obind].
  destruct e as [p| |]; [left|right|done].
  - destruct Hend as (r & Hin & Hal). by exists s', p, r.
  - destruct Hend as (_ & _ & _ & Hno). done.
Qed.
