(* ===== verification/BuddyProps.v ===== *)
(** * The page allocator: theorems

    The promises of the allocation and freeing paths of mm/page_alloc.c, with
    concrete instances on a small machine. *)

From S2P Require Import Prelude Buddy BuddyInv BuddyPcp BuddyUse.
From stdpp Require Import base list numbers option functions.
#[local] Open Scope Z_scope.
#[local] Open Scope kernel_scope.

(** A machine with one zone (node 0, ZONE_NORMAL) of 1024 pages.  Block 8 of
    order 3 is free; all other pages are held by somebody. *)
Module Demo.
Definition zn : zid := (0, 1).
Definition plain (n : Z) : page := mk_page 0 n 1 MAPCOUNT_NONE 0 0 0 None 0 0.
Definition demo_map (p : Z) : page :=
  if p =? 8 then mk_page 0 0 1 BUDDY_TYPE 0 3 0 None 0 0 else plain 0.
Definition demo_zone : zone :=
  mk_zone (fun o => if o =? 3 then mk_area [8] 1 else mk_area [] 0)
    (fun _ => mk_pcp 0 6 1 []) true 8.
Definition no_zone : zone := mk_zone (fun _ => mk_area [] 0) (fun _ => mk_pcp 0 6 1 []) false 0.
Definition demo : mm :=
  mk_mm demo_map (fun p => (0 <=? p) && (p <? 1024))
    (fun z => if bool_decide (z = zn) then demo_zone else no_zone).

Lemma demo_zones : zones demo zn = demo_zone.
Proof. reflexivity. Qed.

Lemma demo_blk p o : blk demo zn p o <-> p = 8 /\ o = 3.
Proof.
  assert (E : fa_list (area demo zn o) = if o =? 3 then [8] else []) by (unfold area; rewrite demo_zones; cbn; by destruct (o =? 3)).
  unfold blk. rewrite E. clear E. destruct (Z.eqb_spec o 3) as [->|Hne].
  - rewrite list_elem_of_singleton. unfold MAX_ORDER. lia.
  - rewrite elem_of_nil. lia.
Qed.

Lemma demo_page q : q <> 8 -> page_at demo q = plain 0.
Proof. intros Hq. unfold page_at. cbn. unfold demo_map. by destruct (Z.eqb_spec q 8). Qed.

Lemma demo_in q : in_blk 8 3 q <-> 8 <= q < 16.
Proof. unfold in_blk. change (2 ^ 3) with 8. lia. Qed.

Lemma demo_free q : free_page demo zn q <-> 8 <= q < 16.
Proof.
  unfold free_page. setoid_rewrite demo_blk. rewrite <- demo_in. split.
  - by intros (p & o & [-> ->] & H).
  - intros H. by exists 8, 3.
Qed.

Lemma demo_zone_wf : zone_wf demo zn.
Proof.
  split.
  - done.
  - intros o _. unfold area. rewrite demo_zones. cbn. destruct (o =? 3); cbn; [apply NoDup_singleton|constructor].
  - intros o _. unfold area. rewrite demo_zones. cbn. by destruct (o =? 3).
  - intros p o [-> ->]%demo_blk. by split_and!.
  - intros p o [-> ->]%demo_blk. split; [lia|]. by exists 1.
  - intros p o q [-> ->]%demo_blk Hq. rewrite demo_in in Hq. split_and!.
    + cbn. destruct (Z.leb_spec 0 q), (Z.ltb_spec q 1024); done || lia.
    + destruct (Z.eq_dec q 8) as [->|Hne]; [done|]. by rewrite demo_page.
    + intros Hne. rewrite demo_page by done. done.
  - intros p _ _ Hb. destruct (Z.eq_dec p 8) as [->|Hne]; [by apply demo_blk|]. by rewrite demo_page in Hb.
  - intros p o q o' x [-> ->]%demo_blk [-> ->]%demo_blk. done.
  - intros p o [-> ->]%demo_blk _ [H _]%demo_blk. vm_compute in H. discriminate.
Qed.

Lemma demo_zone_of q : page_zone (page_at demo q) = zn.
Proof. destruct (Z.eq_dec q 8) as [->|Hne]; [done|]. by rewrite demo_page. Qed.

Lemma demo_all_wf : all_wf demo.
Proof.
  split.
  - intros z. cbn. case_bool_decide as E; [subst; intros _; apply demo_zone_wf|done].
  - intros q _. by rewrite demo_zone_of.
  - intros p q _ _ _ _. pose proof (demo_zone_of p) as E1. pose proof (demo_zone_of q) as E2.
    unfold page_zone in *. congruence.
Qed.

Lemma demo_no_pcp z c q : ~ on_pcp demo z c q.
Proof. unfold on_pcp, pcp_of. cbn. case_bool_decide; apply not_elem_of_nil. Qed.

Lemma demo_wf : mm_wf demo.
Proof.
  split; [apply demo_all_wf|]. split.
  - intros z c q Hq. by apply demo_no_pcp in Hq.
  - intros z c. unfold pcp_of. cbn. case_bool_decide; constructor.
  - intros z c z' c' q Hq. by apply demo_no_pcp in Hq.
Qed.

Lemma demo_counts : pcp_counts demo.
Proof. intros z c. unfold pcp_of. cbn. by case_bool_decide. Qed.

Lemma demo_sane : pcp_sane demo 0.
Proof. intros z. unfold pcp_of. cbn. case_bool_decide; cbn; lia. Qed.

(** The pages [16, 24) are nobody's but the caller's. *)
Lemma demo_loose : loose demo zn 16 3.
Proof.
  split; try (unfold MAX_ORDER; lia).
  - by exists 2.
  - intros q Hq. unfold in_blk in Hq. change (2 ^ 3) with 8 in Hq. rewrite demo_zone_of, demo_page by lia.
    split_and!; try done. cbn. destruct (Z.leb_spec 0 q), (Z.ltb_spec q 1024); done || lia.
  - intros q Hq. rewrite demo_free. unfold in_blk in Hq. change (2 ^ 3) with 8 in Hq. lia.
Qed.
End Demo.
Import Demo.

(** Taking a block of order [o] from a well-formed zone: it succeeds
    exactly when some free block of order at least [o] exists; the block
    handed out is the head of a smallest such block, aligned to its size,
    entirely free before and idle after; the free pages shrink by exactly that
    block, and every invariant of the lists (marks, counters, disjointness,
    full coalescing) still holds.  Other zones and per-CPU lists are untouched. *)
Theorem rmqueue_smallest_correct (s : mm) (z : zid) (o : Z) :
  zone_wf s z -> 0 <= o < MAX_ORDER ->
  exists s' r, __rmqueue_smallest s z o = Ret (s', r)
    /\ match r with
       | None => s' = s /\ forall p k, blk s z p k -> k < o
       | Some p => taken s s' z p o /\ best_fit s z p o
       end.
Proof. apply rmqueue_smallest_spec. Qed.

Lemma rmqueue_smallest_correct_witness :
  exists s' r, __rmqueue_smallest demo zn 1 = Ret (s', r)
    /\ match r with
       | None => s' = demo /\ forall p k, blk demo zn p k -> k < 1
       | Some p => taken demo s' zn p 1 /\ best_fit demo zn p 1
       end.
Proof. apply (rmqueue_smallest_correct demo zn 1); [apply demo_zone_wf|unfold MAX_ORDER; lia]. Defined.

(** The split of block 8 of order 3 for a request of order 1. *)
Example rmqueue_smallest_example :
  match __rmqueue_smallest demo zn 1 with
  | Ret (s', Some 8) => map (fun o => fa_list (area s' zn o)) [0; 1; 2; 3] = [[]; [10]; [12]; []]
  | _ => False
  end.
Proof. vm_compute. reflexivity. Qed.

(** C3. Freeing a block: coalescing with free buddies up to the largest order
    never trips a VM_BUG_ON, keeps every invariant of the lists (in particular
    no two free buddies of equal order remain), and the free pages grow by
    exactly the freed block; other zones and per-CPU lists are untouched. *)
Theorem free_one_page_correct (s : mm) (z : zid) (p o : Z) :
  all_wf s -> zone_wf s z -> loose s z p o ->
  exists s', __free_one_page s p z o = Ret s' /\ given s s' z p o.
Proof. apply free_one_page_spec. Qed.

Lemma free_one_page_correct_witness :
  exists s', __free_one_page demo 16 zn 3 = Ret s' /\ given demo s' zn 16 3.
Proof.
  apply (free_one_page_correct demo zn 16 3);
    [apply demo_all_wf|apply demo_zone_wf|apply demo_loose].
Defined.

(** Freeing page block 0 of order 3 next to block 8 merges the two. *)
Example free_one_page_example :
  match __free_one_page demo 0 zn 3 with
  | Ret s' => map (fun o => (fa_list (area s' zn o), fa_nr (area s' zn o))) [3; 4]
              = [([], 0); ([0], 1)]
  | _ => False
  end.
Proof. vm_compute. reflexivity. Qed.

(** The free lists are canonical: two well-formed states of a zone with the
    same free pages list exactly the same blocks, whatever the history of
    allocations and frees that led to them. *)
Theorem free_lists_canonical (s s' : mm) (z : zid) :
  zone_wf s z -> zone_wf s' z -> (forall q, free_page s z q <-> free_page s' z q) ->
  forall p o, blk s z p o <-> blk s' z p o.
Proof.
  intros Hwf Hwf' Hfree p o. split; intros Hb.
  - by apply (canonical_half s s').
  - by apply (canonical_half s' s).
Qed.

(** The demo machine with its managed-page counter cleared. *)
Definition demo_reset : mm :=
  upd_zone demo zn (fun z => mk_zone (z_area z) (z_pageset z) (z_initialized z) 0).

Lemma demo_reset_blk p o : blk demo_reset zn p o <-> blk demo zn p o.
Proof. unfold blk, area, demo_reset, upd_zone. cbn. by rewrite fn_lookup_insert. Qed.

Lemma demo_reset_wf : zone_wf demo_reset zn.
Proof.
  apply (zone_wf_frame demo demo_reset zn demo_zone_wf); try done.
  intros q Hv Hz Hf. by apply (not_free_not_buddy demo zn q demo_zone_wf).
Qed.

Lemma free_lists_canonical_witness :
  blk demo zn 8 3 <-> blk demo_reset zn 8 3.
Proof.
  apply (free_lists_canonical demo demo_reset zn demo_zone_wf demo_reset_wf).
  intros q. unfold free_page. by setoid_rewrite demo_reset_blk.
Defined.

(** Allocating from one zone (single pages through the CPU's own list,
    which is refilled from the free lists when empty): the result is a block
    of available pages that leaves the available set and is on no list, or
    nothing when the zone cannot serve the request; the invariant of lists and
    counters is kept and nothing available is lost. *)
Theorem rmqueue_correct (s : mm) (z : zid) (cpu o : Z) :
  mm_wf s -> z_initialized (zones s z) = true -> 0 <= o < MAX_ORDER -> 0 < pcp_batch (pcp_of s z cpu) ->
  exists s' r, rmqueue s z cpu o = Ret (s', r)
    /\ match r with
       | Some p => alloced s s' z p o
       | None => mm_wf s' /\ (pcp_counts s -> pcp_counts s') /\ (forall q, avail s' z q <-> avail s z q)
                 /\ mm_frame s s' z (avail s z) /\ cannot_serve s z cpu o
       end.
Proof. apply rmqueue_spec. Qed.

Lemma rmqueue_correct_witness :
  exists s' r, rmqueue demo zn 0 0 = Ret (s', r)
    /\ match r with
       | Some p => alloced demo s' zn p 0
       | None => mm_wf s' /\ (pcp_counts demo -> pcp_counts s') /\ (forall q, avail s' zn q <-> avail demo zn q)
                 /\ mm_frame demo s' zn (avail demo zn) /\ cannot_serve demo zn 0 0
       end.
Proof.
  apply (rmqueue_correct demo zn 0 0);
    [apply demo_wf|reflexivity|unfold MAX_ORDER; lia|reflexivity].
Defined.

(** C11. The allocation entry point on a zonelist whose zones are on one node:
    either a block of one of its zones is handed out, in use (one reference,
    compound for orders above zero) and gone from the available pages of
    exactly that zone, or the walk ends in the BUG of the slow path, and then
    no admitted zone could serve the request. *)
Theorem alloc_pages_nodemask_correct (fuel : nat) (s : mm) (nr : Z) (zonelist : list zoneref)
    (highidx : Z) (nodes : option (Z -> bool)) (cpu o : Z) (r0 : zoneref) (l0 : list zoneref) :
  next_zones_zonelist zonelist highidx nodes = r0 :: l0 ->
  0 <= o < MAX_ORDER -> mm_wf s -> NoDup (map zr_zone (r0 :: l0)) ->
  (forall r, r ∈ r0 :: l0 -> zone_ready s cpu r /\ local_zone nr (zr_zone r0) r) ->
  (exists s' p r, __alloc_pages_nodemask (S fuel) s nr zonelist highidx nodes cpu o = Ret (s', Some p)
     /\ r ∈ r0 :: l0 /\ allocated s s' (zr_zone r) p o)
  \/ (__alloc_pages_nodemask (S fuel) s nr zonelist highidx nodes cpu o = Panic
      /\ forall r, r ∈ r0 :: l0 -> admits highidx nodes r -> cannot_serve s (zr_zone r) cpu o).
Proof. apply alloc_entry_spec. Qed.

Definition demo_zonelist : list zoneref := [mk_zoneref (0, 2) 2; mk_zoneref zn 1].

Lemma demo_ready r : r ∈ [mk_zoneref zn 1] -> zone_ready demo 0 r /\ local_zone 1 zn r.
Proof. intros ->%list_elem_of_singleton. by split; [split|left]. Qed.

Lemma alloc_pages_nodemask_correct_witness :
  (exists s' p r, __alloc_pages_nodemask 1 demo 1 demo_zonelist 1 None 0 2 = Ret (s', Some p)
     /\ r ∈ [mk_zoneref zn 1] /\ allocated demo s' (zr_zone r) p 2)
  \/ (__alloc_pages_nodemask 1 demo 1 demo_zonelist 1 None 0 2 = Panic
      /\ forall r, r ∈ [mk_zoneref zn 1] -> admits 1 None r -> cannot_serve demo (zr_zone r) 0 2).
Proof.
  apply (alloc_pages_nodemask_correct 0 demo 1 demo_zonelist 1 None 0 2 (mk_zoneref zn 1) []).
  - reflexivity.
  - unfold MAX_ORDER. lia.
  - apply demo_wf.
  - apply NoDup_singleton.
  - apply demo_ready.
Defined.

Lemma free_allocated s s1 z p o cpu : pcp_counts s -> pcp_sane s cpu -> allocated s s1 z p o ->
  exists s2, __free_pages s1 p o cpu = Ret s2 /\ mm_wf s2 /\ pcp_counts s2
    /\ forall z' q, z_initialized (zones s z') = true -> avail s2 z' q <-> avail s z' q.
Proof.
  intros Hcnt Hsane [W C Sn In U Wa A O _].
  destruct (free_pages_spec s1 z p o cpu W (C Hcnt) (Sn cpu Hsane) U) as (s2 & -> & [W2 C2 A2 F2]).
  exists s2. split_and!; try done; [auto|]. intros z' q Hi'.
  assert (Hi1 : z_initialized (zones s1 z') = true) by (by rewrite In).
  destruct (decide (z' = z)) as [->|Hne].
  - rewrite A2, A. specialize (Wa q). destruct (in_blk_dec p o q); tauto.
  - rewrite (mm_frame_avail s1 s2 z _ z' q F2 Hne Hi1). by apply O.
Qed.

(** C12. Allocation and freeing are inverse: __alloc_pages_nodemask() on a
    zonelist whose zones are on one node hands out a block, and __free_pages()
    of that block in the state the allocation left succeeds, restores every
    invariant, and makes exactly the pages available again that were available
    before the allocation, in every zone; or the allocation ends in the BUG of
    the slow path because no admitted zone can serve the request. *)
Theorem alloc_free_roundtrip (fuel : nat) (s : mm) (nr : Z) (zonelist : list zoneref)
    (highidx : Z) (nodes : option (Z -> bool)) (cpu o : Z) (r0 : zoneref) (l0 : list zoneref) :
  next_zones_zonelist zonelist highidx nodes = r0 :: l0 ->
  0 <= o < MAX_ORDER -> mm_wf s -> pcp_counts s -> pcp_sane s cpu -> NoDup (map zr_zone (r0 :: l0)) ->
  (forall r, r ∈ r0 :: l0 -> zone_ready s cpu r /\ local_zone nr (zr_zone r0) r) ->
  (exists s1 p s2, __alloc_pages_nodemask (S fuel) s nr zonelist highidx nodes cpu o = Ret (s1, Some p)
     /\ __free_pages s1 p o cpu = Ret s2 /\ mm_wf s2 /\ pcp_counts s2
     /\ forall z q, z_initialized (zones s z) = true -> avail s2 z q <-> avail s z q)
  \/ (__alloc_pages_nodemask (S fuel) s nr zonelist highidx nodes cpu o = Panic
      /\ forall r, r ∈ r0 :: l0 -> admits highidx nodes r -> cannot_serve s (zr_zone r) cpu o).
Proof.
  intros Hnext Ho Hmm Hcnt Hsane Hnd Hrd.
  destruct (alloc_entry_spec fuel s nr zonelist highidx nodes cpu o r0 l0 Hnext Ho Hmm Hnd Hrd) as [(s1 & p & r & E & _ & Ha)|Hp]; [left|by right].
  destruct (free_allocated s s1 _ p o cpu Hcnt Hsane Ha) as (s2 & E2 & H2). by exists s1, p, s2.
Qed.

Lemma alloc_free_roundtrip_witness :
  exists s1 p s2, __alloc_pages_nodemask 1 demo 1 demo_zonelist 1 None 0 2 = Ret (s1, Some p)
     /\ __free_pages s1 p 2 0 = Ret s2 /\ mm_wf s2 /\ pcp_counts s2
     /\ forall z q, z_initialized (zones demo z) = true -> avail s2 z q <-> avail demo z q.
Proof.
  destruct (alloc_free_roundtrip 0 demo 1 demo_zonelist 1 None 0 2 (mk_zoneref zn 1) []) as [H|[H _]].
  - reflexivity.
  - unfold MAX_ORDER. lia.
  - apply demo_wf.
  - apply demo_counts.
  - apply demo_sane.
  - apply NoDup_singleton.
  - apply demo_ready.
  - exact H.
  - exfalso. vm_compute in H. discriminate H.
Defined.

(** The state after the demo machine handed out block 8 of order 3. *)
Definition demo_alloc : mm :=
  match rmqueue demo zn 0 3 with
  | Ret (s1, Some p) => match prep_new_page s1 p 3 with Ret s2 => s2 | _ => demo end
  | _ => demo
  end.

Lemma demo_alloc_ok : allocated demo demo_alloc zn 8 3.
Proof.
  destruct (rmqueue_spec demo zn 0 3 demo_wf eq_refl ltac:(unfold MAX_ORDER; lia) eq_refl) as (s1 & r & E & Hr).
  unfold demo_alloc. rewrite E. assert (r = Some 8) as ->.
  { assert (Hp : exists t, rmqueue demo zn 0 3 = Ret (t, Some 8)) by (eexists; vm_compute; reflexivity).
    destruct Hp as [t Ht]. rewrite E in Ht. by injection Ht as _ ->. }
  by destruct (zone_serves demo s1 zn 8 3 eq_refl Hr) as (s2 & -> & H2).
Qed.


(** Dropping a reference to a block in use: with more than one reference
    only the count changes; the last one gives the whole block back, whatever
    its order, after the page checks accept every page of it. *)
Theorem free_pages_correct (s : mm) (z : zid) (p o c cpu : Z) :
  mm_wf s -> pcp_counts s -> pcp_sane s cpu -> in_use s z p o c -> 0 < c ->
  exists s', __free_pages s p o cpu = Ret s' /\ mm_wf s' /\ pcp_counts s'
    /\ (c = 1 -> released s s' z p o)
    /\ (1 < c -> in_use s' z p o (c - 1) /\ forall q, avail s' z q <-> avail s z q).
Proof.
  intros Hmm Hcnt Hsane Hu Hc. destruct (Z.eq_dec c 1) as [->|Hne].
  - destruct (free_pages_spec s z p o cpu Hmm Hcnt Hsane Hu) as (s' & -> & Hr).
    exists s'. split_and!; [done|apply Hr|by apply Hr|done|lia].
  - unfold __free_pages. destruct (put_page_spec s z p o c Hmm Hu Hc) as (s1 & -> & Hch & Hmm1 & Hu1).
    cbn [obind]. destruct (Z.eqb_spec (c - 1) 0); [lia|]. exists s1. split_and!; try done.
    + intros z' c'. rewrite (pc_pcp _ _ _ _ _ Hch). apply Hcnt.
    + intros _. split; [done|]. intros q. apply (pc_avail _ _ _ _ _ Hch).
Qed.

Lemma free_pages_correct_witness :
  exists s', __free_pages demo_alloc 8 3 0 = Ret s' /\ mm_wf s' /\ pcp_counts s'
    /\ (1 = 1 -> released demo_alloc s' zn 8 3)
    /\ (1 < 1 -> in_use s' zn 8 3 0 /\ forall q, avail s' zn q <-> avail demo_alloc zn q).
Proof.
  apply (free_pages_correct demo_alloc zn 8 3 1 0).
  - apply demo_alloc_ok.
  - apply (ac_counts _ _ _ _ _ demo_alloc_ok demo_counts).
  - apply (ac_sane _ _ _ _ _ demo_alloc_ok 0 demo_sane).
  - apply demo_alloc_ok.
  - lia.
Defined.

(** C40. The zonelist walk livelocks: with more than one node online, when the
    preferred zone cannot serve a request of order above zero and the next
    admitted zone is on another node, a pass over the zones ends in "goto
    retry" with the state it started from, so the next pass is the same one:
    one more pass never changes the outcome, and no number of passes returns
    a page, returns NULL or reaches the slow path. *)
Theorem get_page_from_freelist_livelock (s : mm) (nr : Z) (r0 r1 : zoneref) (l : list zoneref)
    (highidx : Z) (nodes : option (Z -> bool)) (cpu o : Z) :
  mm_wf s -> z_initialized (zones s (zr_zone r0)) = true -> 0 < o < MAX_ORDER -> 1 < nr ->
  (forall p k, blk s (zr_zone r0) p k -> k < o) ->
  next_zones_zonelist (r1 :: l) highidx nodes = r1 :: l ->
  zone_to_nid (zr_zone r1) <> zone_to_nid (zr_zone r0) ->
  freelist_loop (S (length (r0 :: r1 :: l))) s nr (r0 :: r1 :: l) (zr_zone r0) highidx nodes cpu o = Ret (s, Retry)
  /\ (forall passes, get_page_from_freelist (S passes) s nr (r0 :: r1 :: l) highidx nodes cpu o
                     = get_page_from_freelist passes s nr (r0 :: r1 :: l) highidx nodes cpu o)
  /\ (forall passes, (forall res, get_page_from_freelist passes s nr (r0 :: r1 :: l) highidx nodes cpu o <> Ret res)
       /\ get_page_from_freelist passes s nr (r0 :: r1 :: l) highidx nodes cpu o <> Panic).
Proof.
  intros Hmm Hi Ho Hnr Hno Hnext Hnid.
  assert (Hpass : freelist_loop (S (length (r0 :: r1 :: l))) s nr (r0 :: r1 :: l) (zr_zone r0) highidx nodes cpu o = Ret (s, Retry)).
  { cbn [freelist_loop length]. rewrite bool_decide_eq_true_2 by done. cbn [negb]. rewrite andb_false_r. cbn [andb].
    destruct (rmqueue_high_spec s (zr_zone r0) cpu o Hmm Hi Ho) as (s1 & [p|] & -> & H1); cbn [obind].
    { destruct H1 as [_ (k & Hb & Hk & _)]. specialize (Hno p k Hb). lia. }
    destruct H1 as [-> _]. rewrite Hnext, bool_decide_eq_false_2 by congruence. cbn [negb].
    destruct (Z.gtb_spec nr 1); [|lia]. by destruct (Z.eqb_spec (zone_to_nid (zr_zone r1)) (zone_to_nid (zr_zone r0))). }
  assert (Hstep : forall passes, get_page_from_freelist (S passes) s nr (r0 :: r1 :: l) highidx nodes cpu o
                     = get_page_from_freelist passes s nr (r0 :: r1 :: l) highidx nodes cpu o).
  { intros passes. cbn [get_page_from_freelist]. by rewrite Hpass. }
  split_and!; [done|done|]. intros passes. induction passes as [|n IH]; [done|]. by rewrite Hstep.
Qed.

Lemma get_page_from_freelist_livelock_witness :
  freelist_loop 3 demo 2 [mk_zoneref zn 1; mk_zoneref (1, 1) 1] zn 1 None 0 4 = Ret (demo, Retry)
  /\ (forall passes, (forall res, get_page_from_freelist passes demo 2 [mk_zoneref zn 1; mk_zoneref (1, 1) 1] 1 None 0 4 <> Ret res)
       /\ get_page_from_freelist passes demo 2 [mk_zoneref zn 1; mk_zoneref (1, 1) 1] 1 None 0 4 <> Panic).
Proof.
  destruct (get_page_from_freelist_livelock demo 2 (mk_zoneref zn 1) (mk_zoneref (1, 1) 1) [] 1 None 0 4) as (H1 & _ & H2).
  - apply demo_wf.
  - reflexivity.
  - unfold MAX_ORDER. lia.
  - lia.
  - intros p k [_ ->]%demo_blk. lia.
  - reflexivity.
  - discriminate.
  - split; [exact H1|exact H2].
Defined.

(** Two nodes whose boundary is not aligned: page 8 is node 0's, page 9 is on
    the order-0 free list of node 1. *)
Definition split_map (p : Z) : page :=
  if p =? 9 then mk_page 0 1 1 BUDDY_TYPE 0 0 0 None 0 0 else plain (if p <? 9 then 0 else 1).
Definition split_nodes : mm :=
  mk_mm split_map (fun p => (0 <=? p) && (p <? 1024))
    (fun z => mk_zone (fun o => if bool_decide (z = (1, 1)) && (o =? 0) then mk_area [9] 1 else mk_area [] 0)
                (fun _ => mk_pcp 0 6 1 []) true 0).

(** page_zone_id() compares zone numbers only.  Freeing page 8 of node 0 takes
    page 9 off node 1's list, decrements node 0's counter below zero, and puts
    a block that spans both nodes on node 0's list; node 1's counter still
    counts the page it lost. *)
Example cross_node_merge :
  match __free_one_page split_nodes 8 (0, 1) 0 with
  | Ret s' => (fa_nr (area s' (0, 1) 0), fa_list (area s' (0, 1) 1), fa_list (area s' (1, 1) 0), fa_nr (area s' (1, 1) 0))
              = (2 ^ 64 - 1, [8], [], 1)
  | _ => False
  end.
Proof. vm_compute. reflexivity. Qed.

(** reserve_bootmem_region() takes an inclusive end but rounds it up as an
    exclusive one: a reservation that ends on the first byte of page 2 leaves
    page 2 unmarked. *)
Example reserve_bootmem_last_page :
  let s' := reserve_bootmem_region demo 0x1000 0x2000 in
  (Z.testbit (pg_flags (page_at s' 1)) PG_reserved, Z.testbit (pg_flags (page_at s' 2)) PG_reserved)
  = (true, false).
Proof. vm_compute. reflexivity. Qed.
