(* ===== verification/Boot.v ===== *)
(** * From boot allocator to page allocator

    The calls memblock_free_all() makes ([boot_event], file MemblockRelease)
    executed on the page allocator's state: reserve_bootmem_region() marks the
    reserved pages and memblock_free_pages() gives every block to the buddy
    system.  The theorem at the end says what the whole hand-over achieves. *)

From S2P Require Import Prelude Memblock MemblockOps MemblockSpec MemblockRemove MemblockIter MemblockRelease Board.
From S2P Require Import Buddy BuddyInv BuddyPcp BuddyUse.
From stdpp Require Import base list numbers option functions.
#[local] Open Scope Z_scope.
#[local] Open Scope kernel_scope.

(** reset_node_managed_pages() on every zone of every node. *)
Definition reset_managed (s : mm) : mm :=
  mk_mm (mem_map s) (pfn_valid s)
    (fun z => let zn := zones s z in mk_zone (z_area zn) (z_pageset zn) (z_initialized zn) 0).

(** totalram_pages is a counter of its own and not part of [mm]. *)
Definition boot_step (cpu : Z) (s : mm) (e : boot_event) : outcome mm :=
  match e with
  | ResetManaged => Ret (reset_managed s)
  | ReserveBootmem start end_ => Ret (reserve_bootmem_region s start end_)
  | FreePages pfn order => memblock_free_pages s pfn order cpu
  | TotalramAdd _ => Ret s
  end.

Fixpoint run_boot (cpu : Z) (s : mm) (l : list boot_event) : outcome mm :=
  match l with
  | [] => Ret s
  | e :: l' => let! s1 := boot_step cpu s e in run_boot cpu s1 l'
  end.

(** ** Freeing one block at boot *)

(** A page as memory initialisation leaves it: unmapped and unmarked, with at
    most the reserved flag set. *)
Definition fresh (g : page) : Prop :=
  pg_type g = MAPCOUNT_NONE /\ pg_mapping g = 0 /\ pg_head g = None
  /\ Z.land (Z.land (pg_flags g) (Z.lnot (2 ^ PG_reserved))) PREP = 0.

Lemma boot_clear_page n : forall s p q,
  page_at (boot_clear n s p) q =
  if decide (p <= q < p + Z.of_nat n) then clear_reserved (page_at s q) else page_at s q.
Proof.
  induction n as [|n IH]; intros s p q; cbn [boot_clear].
  { by rewrite decide_False by lia. }
  rewrite IH, page_upd_page. destruct (decide (q = p)) as [->|Hne].
  - rewrite decide_False, decide_True by lia. done.
  - destruct (decide (p + 1 <= q < p + 1 + Z.of_nat n)), (decide (p <= q < p + Z.of_nat (S n))); done || lia.
Qed.

Lemma boot_clear_changed n : forall s p (B : Z -> Prop),
  (forall q, p <= q < p + Z.of_nat n -> B q) -> pages_changed s (boot_clear n s p) B.
Proof.
  induction n as [|n IH]; intros s p B HB; cbn [boot_clear]; [by split|].
  apply pages_changed_trans with (upd_page s p clear_reserved).
  - apply upd_page_changed; [done|]. apply HB. lia.
  - apply IH. intros q Hq. apply HB. lia.
Qed.

Lemma clear_reserved_idle g : fresh g -> idle (clear_reserved g).
Proof. intros (Ht & Hm & Hh & Hf). by split. Qed.

(** Adding to the managed pages leaves everything else alone. *)
Lemma managed_changed s z n (B : Z -> Prop) :
  pages_changed s (upd_zone s z (fun zn => mk_zone (z_area zn) (z_pageset zn) (z_initialized zn) (z_managed zn + n))) B.
Proof.
  split; try done. intros z'. cbn. destruct (decide (z' = z)) as [->|];
    [by rewrite fn_lookup_insert|by rewrite fn_lookup_insert_ne].
Qed.

(** free_pages_prepare() on a block of idle pages that is not compound. *)
Lemma prepare_tails_idle n : forall s h p,
  (forall q, p <= q < p + Z.of_nat n -> idle (page_at s q)) ->
  exists s', prepare_tails n s h p false 0 = Ret (s', 0)
    /\ pages_changed s s' (fun q => p <= q < p + Z.of_nat n)
    /\ (forall q, p <= q < p + Z.of_nat n -> idle (page_at s' q)).
Proof.
  induction n as [|n IH]; intros s h p Hid; cbn [prepare_tails].
  { exists s. split_and!; done || (intros; lia). }
  cbn [obind]. rewrite free_pages_check_idle by (apply Hid; lia).
  set (s2 := upd_page s p clear_prep_flags).
  assert (E2 : forall q, p <= q < p + Z.of_nat (S n) -> idle (page_at s2 q)).
  { intros q Hq. unfold s2. rewrite page_upd_page. case_decide as E; [|by apply Hid].
    destruct (Hid p ltac:(lia)) as [(? & ? & ? & ?) ?]. split; [|done]. split_and!; try done. cbn.
    by rewrite <- Z.land_assoc, (Z.land_comm (Z.lnot _)), Z.land_lnot_diag, Z.land_0_r. }
  destruct (IH s2 h (p + 1)) as (s' & Hrun & Hch & Hid'); [intros q Hq; apply E2; lia|].
  exists s'. split; [done|]. split.
  - apply pages_changed_trans with s2; [apply upd_page_changed; done || lia|].
    destruct Hch as [? ? ? Hpg]. split; try done. intros q Hq. apply Hpg. lia.
  - intros q Hq. destruct (decide (q = p)) as [->|Hne]; [|apply Hid'; lia].
    rewrite (pc_page _ _ _ Hch) by lia. apply E2. lia.
Qed.

Lemma idle_not_compound g : idle g -> PageCompound g = false /\ PageTail g = false.
Proof.
  intros [(_ & _ & Hf & Hh) _]. unfold PageCompound, PageTail, PageHead. rewrite Hh.
  rewrite bool_decide_eq_false_2 by (by intros [? ?]). split; [|done]. rewrite orb_false_r.
  assert (E : Z.testbit (Z.land (pg_flags g) PAGE_FLAGS_CHECK_AT_PREP) PG_head = false) by (rewrite Hf; apply Z.bits_0).
  rewrite Z.land_spec in E. by rewrite andb_true_r in E.
Qed.

Lemma free_pages_prepare_idle s p o (check : bool) :
  0 <= o -> (forall q, in_blk p o q -> idle (page_at s q)) ->
  exists s', free_pages_prepare s p o check = Ret (s', true)
    /\ pages_changed s s' (in_blk p o) /\ (forall q, in_blk p o q -> idle (page_at s' q)).
Proof.
  intros Ho Hid. assert (Hin : in_blk p o p) by (by apply in_blk_head).
  assert (H2 : 0 < 2 ^ o) by (apply Z.pow_pos_nonneg; lia).
  destruct (idle_not_compound _ (Hid p Hin)) as [Hnc Hnt].
  destruct (prepare_tails_idle (Z.to_nat (2 ^ o - 1)) s p (p + 1)) as (s1 & Hrun & Hch1 & Hid1).
  { intros q Hq. apply Hid. unfold in_blk. lia. }
  assert (Hch : pages_changed s s1 (in_blk p o)).
  { destruct Hch1 as [? ? ? Hpg]. split; try done. intros q Hq. apply Hpg. unfold in_blk in Hq. lia. }
  assert (Ep : page_at s1 p = page_at s p) by (apply (pc_page _ _ _ Hch1); lia).
  assert (Hall : forall q, in_blk p o q -> idle (page_at s1 q)).
  { intros q Hq. destruct (decide (q = p)) as [->|Hne]; [rewrite Ep; by apply Hid|]. apply Hid1. unfold in_blk in Hq. lia. }
  unfold free_pages_prepare, VM_BUG_ON. rewrite Hnt, Hnc. cbn [obind andb].
  assert (Hstep : (if o =? 0 then Ret (s, 0) else prepare_tails (Z.to_nat (2 ^ o - 1)) s p (p + 1) false 0) = Ret (s1, 0)).
  { destruct (Z.eqb_spec o 0) as [->|]; [|done].
    change (Z.to_nat (2 ^ 0 - 1)) with O in Hrun. cbn in Hrun. by injection Hrun as ->. }
  rewrite Hstep. cbn [obind]. destruct (Hall p Hin) as [(Hc & Hm & Hf & Hh) Ht].
  unfold PageMappingFlags. rewrite Hm, Z.land_0_l. cbn [Z.eqb negb].
  assert (Hck : (if check then free_pages_check s1 p else (s1, false)) = (s1, false)).
  { destruct check; [|done]. apply free_pages_check_idle. by apply Hall. }
  rewrite Hck. cbn [Z.eqb negb]. eexists. split; [done|]. split.
  - apply pages_changed_trans with s1; [done|]. by apply upd_page_changed.
  - intros q Hq. rewrite page_upd_page. case_decide as E; [|by apply Hall].
    split; [|done]. split_and!; try done. cbn.
    by rewrite <- Z.land_assoc, (Z.land_comm (Z.lnot _)), Z.land_lnot_diag, Z.land_0_r.
Qed.

(** A block that boot may free: fresh pages of one zone, on no list. *)
Record boot_block (s : mm) (z : zid) (p o : Z) : Prop := {
  bb_own : own_block s z p o;
  bb_fresh : forall q, in_blk p o q -> fresh (page_at s q)
}.

Record mm_ok (cpu : Z) (s : mm) : Prop := { ok_wf : mm_wf s; ok_counts : pcp_counts s; ok_sane : pcp_sane s cpu }.

Lemma mm_ok_changed cpu s s' z p o :
  mm_ok cpu s -> own_block s z p o -> pages_changed s s' (in_blk p o) ->
  (forall q, in_blk p o q -> pg_type (page_at s' q) = MAPCOUNT_NONE) -> mm_ok cpu s'.
Proof.
  intros [W C S] Hob Hch Ht. split.
  - by apply (own_block_wf s s' z p o).
  - intros z' c. rewrite (pc_pcp _ _ _ _ _ Hch). apply C.
  - intros z'. rewrite (pc_pcp _ _ _ _ _ Hch). apply S.
Qed.

(** The pages of a boot block before the final __free_pages(). *)
Lemma boot_core_pages s z p o :
  boot_block s z p o ->
  exists s1, boot_clear (Z.to_nat (2 ^ o)) s p = s1
    /\ pages_changed s s1 (in_blk p o) /\ (forall q, in_blk p o q -> idle (page_at s1 q)).
Proof.
  intros [[Ho _ _ _ _ _] Hf]. assert (0 < 2 ^ o) by (apply Z.pow_pos_nonneg; lia).
  eexists. split; [done|]. split.
  - apply boot_clear_changed. intros q Hq. unfold in_blk. lia.
  - intros q Hq. rewrite boot_clear_page, decide_True by (unfold in_blk in Hq; lia).
    by apply clear_reserved_idle, Hf.
Qed.

Lemma boot_core_spec s z p o cpu :
  mm_ok cpu s -> boot_block s z p o ->
  exists s', __free_pages_boot_core s p o cpu = Ret s' /\ released s s' z p o.
Proof.
  intros Hok Hbb. pose proof (bb_own _ _ _ _ Hbb) as Hob. pose proof (ob_order _ _ _ _ Hob) as Ho.
  unfold __free_pages_boot_core.
  destruct (boot_core_pages s z p o Hbb) as (s1 & -> & Hch1 & Hid1).
  set (s2 := upd_zone s1 _ _).
  assert (Hch2 : pages_changed s1 s2 (in_blk p o)) by apply managed_changed.
  assert (Hin : in_blk p o p) by (apply in_blk_head; lia).
  assert (Eq2 : forall q, page_at s2 q = page_at s1 q) by done.
  destruct (idle_not_compound _ (Hid1 p Hin)) as [_ Hnt]. destruct (Hid1 p Hin) as [(Hc & Hm & Hf & Hh) Ht].
  unfold set_page_refcounted, VM_BUG_ON. rewrite !Eq2, Hnt, Hc. cbn [obind Z.eqb negb].
  unfold __free_pages, put_page_testzero, VM_BUG_ON.
  rewrite page_upd_page, decide_True by done. cbn [pg_count set_count Z.eqb obind Z.sub].
  change (1 - 1) with 0. cbn [Z.eqb].
  set (s4 := upd_page (upd_page s2 p (set_count 1)) p (set_count 0)).
  assert (Hch4 : pages_changed s s4 (in_blk p o)).
  { apply pages_changed_trans with s1; [done|]. apply pages_changed_trans with s2; [done|].
    apply pages_changed_trans with (upd_page s2 p (set_count 1)); by apply upd_page_changed. }
  assert (Hid4 : forall q, in_blk p o q -> idle (page_at s4 q)).
  { intros q Hq. unfold s4. rewrite !page_upd_page. destruct (decide (q = p)) as [->|Hne].
    - rewrite decide_True, Eq2 by done. by split.
    - rewrite Eq2. by apply Hid1. }
  assert (Hok4 : mm_ok cpu s4) by (apply (mm_ok_changed cpu s s4 z p o); try done; intros q Hq; by apply Hid4).
  pose proof (own_block_changed s s4 z p o Hob Hch4) as Hob4.
  destruct (free_pages_prepare_idle s4 p o (negb (o =? 0)) ltac:(lia) Hid4) as (s5 & Hrun & Hch5 & Hid5).
  destruct Hok4 as [W4 C4 S4].
  destruct (free_prepared s4 s5 z p o cpu W4 C4 S4 Hob4 Hrun Hch5 Hid5) as (s' & Hfree & Hr).
  exists s'. split; [exact Hfree|]. by apply (released_after s s4).
Qed.

(** ** The whole list of calls *)

Lemma released_ok cpu s s' z p o : mm_ok cpu s -> released s s' z p o -> mm_ok cpu s'.
Proof.
  intros [W C S] [W' C' A F]. split; auto. by apply (mm_frame_sane s s' z _ cpu F).
Qed.

(** Another boot block is not disturbed by freeing a disjoint one. *)
Lemma boot_block_frame s s' z p o z2 p2 o2 :
  released s s' z p o -> boot_block s z2 p2 o2 -> z_initialized (zones s z) = true ->
  (forall q, in_blk p2 o2 q -> ~ in_blk p o q) -> boot_block s' z2 p2 o2.
Proof.
  intros [W C A F] [[Ho Hp Hd Hi Hz Hun] Hf] Hiz Hdis.
  assert (Epage : forall q, in_blk p2 o2 q -> page_at s' q = page_at s q).
  { intros q Hq. apply F. intros [Ha|Hin]; [by apply (Hun q z Hiz Hq)|by apply (Hdis q)]. }
  split; [split; try done|].
  - by rewrite (mf_init _ _ _ _ F).
  - intros q Hq. rewrite (mf_valid _ _ _ _ F), Epage by done. by apply Hz.
  - intros q z' Hi' Hq. rewrite (mf_init _ _ _ _ F) in Hi'.
    destruct (decide (z' = z)) as [->|Hne].
    + rewrite A. intros [Ha|Hin]; [by apply (Hun q z)|by apply (Hdis q)].
    + rewrite (mm_frame_avail s s' z _ z' q F Hne Hi'). by apply Hun.
  - intros q Hq. rewrite Epage by done. by apply Hf.
Qed.

(** Every block of the list is fresh in its zone. *)
Definition boot_blocks (s : mm) (zof : Z -> zid) (l : list boot_event) : Prop :=
  Forall (fun e => match e with FreePages p o => boot_block s (zof p) p o | _ => False end) l.

Lemma blocks_from_apart lo l : blocks_from lo l -> forall q, frees_page l q -> lo <= q.
Proof.
  revert lo. induction l as [|[|rs re|p o|n] l IH]; intros lo Hb q Hq; try done; [inversion Hq|].
  destruct Hb as (Hlo & Ho & _ & Hb). unfold frees_page in Hq. apply Exists_cons in Hq as [Hq|Hq]; [lia|].
  specialize (IH _ Hb q Hq). assert (0 < 2 ^ o) by (apply Z.pow_pos_nonneg; lia). lia.
Qed.

Lemma run_free_spec cpu zof l : forall s lo,
  mm_ok cpu s -> blocks_from lo l -> boot_blocks s zof l ->
  exists s', run_boot cpu s l = Ret s' /\ mm_ok cpu s'
    /\ (forall z, z_initialized (zones s' z) = z_initialized (zones s z))
    /\ (forall z q, z_initialized (zones s z) = true ->
         avail s' z q <-> avail s z q \/ (frees_page l q /\ page_zone (page_at s q) = z)).
Proof.
  induction l as [|e l IH]; intros s lo Hok Hb Hbb; cbn [run_boot].
  { exists s. split_and!; try done. intros z q _. split; [by left|]. intros [?|[H _]]; [done|inversion H]. }
  destruct e as [|rs re|p o|n]; try done. destruct Hb as (Hlo & Ho & Hd & Hb).
  apply list.Forall_cons in Hbb as [H1 Hbb]. cbn [boot_step]. unfold memblock_free_pages.
  destruct (boot_core_spec s (zof p) p o cpu Hok H1) as (s1 & -> & Hr). cbn [obind].
  pose proof (ob_init _ _ _ _ (bb_own _ _ _ _ H1)) as Hi1.
  assert (Hbb1 : boot_blocks s1 zof l).
  { unfold boot_blocks in *. rewrite List.Forall_forall in *. intros e He. specialize (Hbb e He).
    destruct e as [|rs re|p2 o2|n]; try done. apply (boot_block_frame s s1 (zof p) p o); try done.
    intros q Hq Hq'. assert (Hf : frees_page l q).
    { apply List.Exists_exists. by exists (FreePages p2 o2). }
    pose proof (blocks_from_apart _ _ Hb q Hf). unfold in_blk in Hq'. lia. }
  destruct (IH s1 (p + 2 ^ o) (released_ok cpu s s1 _ _ _ Hok Hr) Hb Hbb1) as (s' & -> & Hok' & Hin & Hav).
  pose proof (re_frame _ _ _ _ _ Hr) as F.
  exists s'. split_and!; try done.
  - intros z. by rewrite Hin, (mf_init _ _ _ _ F).
  - intros z q Hi. rewrite Hav by (by rewrite (mf_init _ _ _ _ F)). rewrite (mf_zone _ _ _ _ F).
    unfold frees_page. rewrite Exists_cons. fold (frees_page l q).
    destruct (decide (z = zof p)) as [->|Hne].
    + rewrite (re_avail _ _ _ _ _ Hr). fold (in_blk p o q).
      assert (in_blk p o q -> page_zone (page_at s q) = zof p).
      { intros Hq. by apply (ob_zone _ _ _ _ (bb_own _ _ _ _ H1)). }
      tauto.
    + rewrite (mm_frame_avail s s1 (zof p) _ z q F Hne Hi). fold (in_blk p o q).
      assert (in_blk p o q -> page_zone (page_at s q) <> z).
      { intros Hq. destruct (ob_zone _ _ _ _ (bb_own _ _ _ _ H1) q Hq) as [_ ->]. congruence. }
      tauto.
Qed.

(** ** Marking the reserved pages *)

Definition mark_reserved (g : page) : page :=
  set_head None (set_flags (Z.lor (pg_flags g) (2 ^ PG_reserved)) g).

Lemma mark_reserved_fresh g : fresh g -> fresh (mark_reserved g).
Proof.
  intros (Ht & Hm & Hh & Hf). split_and!; try done. cbn [pg_flags mark_reserved set_head set_flags].
  rewrite Z.land_lor_distr_l, Z.land_lnot_diag, Z.lor_0_r. done.
Qed.

Lemma reserve_loop_page n : forall s p q,
  page_at (reserve_loop n s p) q =
  if decide (p <= q < p + Z.of_nat n /\ pfn_valid s q = true) then mark_reserved (page_at s q) else page_at s q.
Proof.
  induction n as [|n IH]; intros s p q; cbn [reserve_loop].
  { by rewrite decide_False by lia. }
  set (s1 := if pfn_valid s p then _ else s).
  assert (Ev : pfn_valid s1 q = pfn_valid s q) by (unfold s1; by destruct (pfn_valid s p)).
  assert (Ep : page_at s1 q = if decide (q = p /\ pfn_valid s q = true) then mark_reserved (page_at s q) else page_at s q).
  { unfold s1. destruct (pfn_valid s p) eqn:E.
    - rewrite page_upd_page. destruct (decide (q = p)) as [->|Hne]; [by rewrite decide_True|by rewrite decide_False by tauto].
    - rewrite decide_False; [done|]. intros [-> ?]. congruence. }
  rewrite IH, Ev, Ep. destruct (decide (q = p)) as [->|Hne].
  - rewrite (decide_False (P := p + 1 <= p < p + 1 + Z.of_nat n /\ _)) by lia.
    destruct (pfn_valid s p); [by rewrite !decide_True by (split; done || lia)|by rewrite !decide_False by (by intros [_ ?])].
  - rewrite (decide_False (P := q = p /\ _)) by tauto.
    destruct (decide (p + 1 <= q < p + 1 + Z.of_nat n /\ pfn_valid s q = true)) as [[? ?]|n1],
      (decide (p <= q < p + Z.of_nat (S n) /\ pfn_valid s q = true)) as [[? ?]|n2]; try done; exfalso;
      [apply n2|apply n1]; split; done || lia.
Qed.

Lemma reserve_loop_changed n : forall s p,
  pages_changed s (reserve_loop n s p) (fun q => pfn_valid s q = true).
Proof.
  induction n as [|n IH]; intros s p; cbn [reserve_loop]; [by split|].
  destruct (pfn_valid s p) eqn:E; [|apply IH].
  set (s1 := upd_page s p _). apply pages_changed_trans with s1.
  - by apply upd_page_changed.
  - apply (IH s1).
Qed.

(** ** Before the hand-over *)

(** Nothing is available yet. *)
Definition none_avail (s : mm) : Prop := forall z q, z_initialized (zones s z) = true -> ~ avail s z q.

(** A change of flags of unlisted pages, while nothing is available. *)
Lemma none_avail_changed cpu s s' (B : Z -> Prop) :
  mm_ok cpu s -> none_avail s -> pages_changed s s' B ->
  (forall q, B q -> pfn_valid s q = true /\ pg_type (page_at s' q) = pg_type (page_at s q)) ->
  (forall q, B q \/ ~ B q) -> mm_ok cpu s' /\ none_avail s'.
Proof.
  intros [W C S] Hna Hch HB Hdec. split; [split|].
  - apply (pages_changed_wf s s' B W Hch); try done.
    + intros q z Hi Hq Hf. apply (Hna z q Hi). by left.
    + intros q z c Hq Hon. destruct (pw_page s (mw_pcp s W) z c q Hon) as (Hi & _).
      apply (Hna z q Hi). right. by exists c.
    + intros q Hq. destruct (HB q Hq) as [Hv Ht]. unfold PageBuddy, PageType. rewrite Ht.
      pose proof (aw_pages s (mw_all s W) q Hv) as Hi.
      apply (not_free_not_buddy s _ q (mm_wf_zone s _ W Hi) Hv eq_refl). intros Hf. apply (Hna _ q Hi). by left.
  - intros z c. rewrite (pc_pcp _ _ _ _ _ Hch). apply C.
  - intros z. rewrite (pc_pcp _ _ _ _ _ Hch). apply S.
  - intros z q Hi. rewrite (pc_avail _ _ _ _ _ Hch). apply Hna.
    by destruct (pc_zones _ _ _ Hch z) as (_ & _ & <-).
Qed.

(** What the events before the frees keep. *)
Record prepared (cpu : Z) (s s' : mm) : Prop := {
  pr_ok : mm_ok cpu s';
  pr_none : none_avail s';
  pr_init : forall z, z_initialized (zones s' z) = z_initialized (zones s z);
  pr_valid : forall q, pfn_valid s' q = pfn_valid s q;
  pr_zone : forall q, page_zone (page_at s' q) = page_zone (page_at s q);
  pr_fresh : forall q, fresh (page_at s q) -> fresh (page_at s' q)
}.

Lemma prepared_trans cpu s1 s2 s3 : prepared cpu s1 s2 -> prepared cpu s2 s3 -> prepared cpu s1 s3.
Proof.
  intros [O1 N1 I1 V1 Z1 F1] [O2 N2 I2 V2 Z2 F2]. split; auto.
  - intros z. by rewrite I2.
  - intros q. by rewrite V2.
  - intros q. by rewrite Z2.
Qed.

Lemma reset_managed_prepared cpu s : mm_ok cpu s -> none_avail s -> prepared cpu s (reset_managed s).
Proof.
  intros Hok Hna. assert (Hch : pages_changed s (reset_managed s) (fun _ => False)) by (by split).
  destruct (none_avail_changed cpu s (reset_managed s) (fun _ => False) Hok Hna Hch) as [? ?]; [done|intros q; right; tauto|by split].
Qed.

Lemma reserve_prepared cpu s a b : mm_ok cpu s -> none_avail s -> prepared cpu s (reserve_bootmem_region s a b).
Proof.
  intros Hok Hna. unfold reserve_bootmem_region. set (n := Z.to_nat _). set (p := Z.shiftr a 12).
  pose proof (reserve_loop_changed n s p) as Hch.
  destruct (none_avail_changed cpu s (reserve_loop n s p) _ Hok Hna Hch) as [? ?].
  - intros q Hq. split; [done|]. rewrite reserve_loop_page. by case_decide.
  - intros q. destruct (pfn_valid s q); auto.
  - split; try done; try apply Hch.
    intros q Hf. rewrite reserve_loop_page. case_decide; [by apply mark_reserved_fresh|done].
Qed.

Lemma run_boot_app cpu l1 l2 : forall s,
  run_boot cpu s (l1 ++ l2) = let! s1 := run_boot cpu s l1 in run_boot cpu s1 l2.
Proof.
  induction l1 as [|e l1 IH]; intros s; cbn [app run_boot]; [done|].
  destruct (boot_step cpu s e); cbn [obind]; [apply IH|done|done].
Qed.

(** The calls before the frees: resets and reservations. *)
Lemma run_prepare cpu l : forall s,
  Forall (fun e => match e with ResetManaged | ReserveBootmem _ _ => True | _ => False end) l ->
  mm_ok cpu s -> none_avail s -> exists s', run_boot cpu s l = Ret s' /\ prepared cpu s s'.
Proof.
  induction l as [|e l IH]; intros s Hl Hok Hna; cbn [run_boot]; [by exists s|].
  apply list.Forall_cons in Hl as [He Hl].
  assert (H1 : exists s1, boot_step cpu s e = Ret s1 /\ prepared cpu s s1).
  { destruct e as [|a b|p o|n]; try done; cbn [boot_step].
    - eexists. split; [done|]. by apply reset_managed_prepared.
    - eexists. split; [done|]. by apply reserve_prepared. }
  destruct H1 as (s1 & -> & Hp1). cbn [obind].
  destruct (IH s1 Hl (pr_ok _ _ _ Hp1) (pr_none _ _ _ Hp1)) as (s' & -> & Hp2).
  exists s'. split; [done|]. by apply prepared_trans with s1.
Qed.

(** ** The hand-over *)

(** The memory map is ready for the pages of the boot allocator: usable pages
    have a fresh struct page in an initialised zone, and no zone boundary falls
    inside a block of the largest order. *)
Record boot_ready (s : memblock) (m : mm) : Prop := {
  br_page : forall q, usable_page s q ->
     pfn_valid m q = true /\ fresh (page_at m q)
     /\ z_initialized (zones m (page_zone (page_at m q))) = true;
  br_zone : forall p q, pfn_valid m p = true -> pfn_valid m q = true ->
     p / 2 ^ (MAX_ORDER - 1) = q / 2 ^ (MAX_ORDER - 1) ->
     page_zone (page_at m p) = page_zone (page_at m q)
}.

(** Pages of an aligned block below the largest order share their zone. *)
Lemma block_same_top p o q :
  0 <= o < MAX_ORDER -> (2 ^ o | p) -> in_blk p o q -> q / 2 ^ (MAX_ORDER - 1) = p / 2 ^ (MAX_ORDER - 1).
Proof.
  intros Ho Hd Hq. set (t := MAX_ORDER - 1). set (c := p / 2 ^ t * 2 ^ t).
  assert (H2 : 0 < 2 ^ t) by (apply Z.pow_pos_nonneg; unfold t, MAX_ORDER; lia).
  assert (Hc : (2 ^ t | c)) by (by exists (p / 2 ^ t)).
  assert (Hcp : in_blk c t p).
  { unfold in_blk, c. pose proof (Z.div_mod p (2 ^ t)). pose proof (Z.mod_pos_bound p (2 ^ t)). nia. }
  assert (Hcq : in_blk c t q).
  { apply (blocks_nest p o c t p q); try done; [unfold t, MAX_ORDER in *; lia|]. apply in_blk_head; lia. }
  apply in_blk_div in Hcp, Hcq; try done; try (unfold t, MAX_ORDER; lia). congruence.
Qed.

Lemma blocks_from_in l : forall lo e, blocks_from lo l -> In e l ->
  exists p o, e = FreePages p o /\ lo <= p /\ 0 <= o < MAX_ORDER /\ (2 ^ o | p).
Proof.
  induction l as [|[|rs re|p o|n] l IH]; intros lo e Hb He; try done.
  destruct Hb as (Hlo & Ho & Hd & Hb). destruct He as [<-|He]; [by exists p, o|].
  assert (0 < 2 ^ o) by (apply Z.pow_pos_nonneg; lia).
  destruct (IH _ e Hb He) as (p' & o' & -> & ? & ?). exists p', o'. split_and!; try tauto. lia.
Qed.

Lemma boot_blocks_ready cpu s m m1 frees :
  boot_ready s m -> prepared cpu m m1 -> (forall q, frees_page frees q -> usable_page s q) ->
  blocks_from 0 frees -> boot_blocks m1 (fun p => page_zone (page_at m p)) frees.
Proof.
  intros [Hpage Hzone] [Hok Hna Hini Hval Hzo Hfr] Huse Hblk.
  unfold boot_blocks. apply List.Forall_forall. intros e He.
  destruct (blocks_from_in frees 0 e Hblk He) as (p & o & -> & Hp & Ho & Hd).
  assert (Hin : forall q, in_blk p o q -> usable_page s q).
  { intros q Hq. apply Huse. apply List.Exists_exists. by exists (FreePages p o). }
  assert (Hpp : in_blk p o p) by (apply in_blk_head; lia).
  destruct (Hpage p (Hin p Hpp)) as (Hvp & _ & Hip).
  split; [split; try done|].
  - by rewrite Hini.
  - intros q Hq. destruct (Hpage q (Hin q Hq)) as (Hvq & _ & _). rewrite Hval, Hzo. split; [done|].
    apply Hzone; try done. by apply (block_same_top p o q).
  - intros q z Hi Hq. by apply Hna.
  - intros q Hq. destruct (Hpage q (Hin q Hq)) as (_ & Hf & _). by apply Hfr.
Qed.

Lemma run_boot_totalram cpu s n : run_boot cpu s [TotalramAdd n] = Ret s.
Proof. done. Qed.

Lemma boot_handover_spec (kernel_end cpu : Z) (reset_done : bool) (s : memblock) (m : mm) :
  mb_wf s -> t_cnt (memory s) + 2 <= t_max (memory s) -> below_limit s -> ~ usable s 0 ->
  mm_ok cpu m -> none_avail m -> boot_ready s m ->
  exists s1 evs n m',
    memblock_free_all kernel_end reset_done s = Ret (s1, evs, n)
    /\ run_boot cpu m evs = Ret m' /\ mm_ok cpu m'
    /\ (forall z q, z_initialized (zones m z) = true ->
         avail m' z q <-> page_zone (page_at m q) = z /\ usable_page s q /\ uniform_page s q).
Proof.
  intros Hwf Hroom Hlim H0 Hok Hna Hready.
  destruct (free_all_spec kernel_end reset_done s Hwf Hroom Hlim H0)
    as (s1 & frees & Hrun & Hpages & Hblk).
  set (pre := reset_all_zones_managed_pages reset_done
    ++ map (fun r => ReserveBootmem (r_base r) (u64 (r_base r + r_size r - 1))) (regions (reserved s))).
  destruct (run_prepare cpu pre m) as (m1 & Hpre & Hp1); try done.
  { apply list.Forall_app. split; [by destruct reset_done; repeat constructor|].
    apply List.Forall_forall. intros e He. apply in_map_iff in He as (r & <- & _). done. }
  assert (Huse : forall q, frees_page frees q -> usable_page s q) by (intros q Hq; by apply Hpages).
  pose proof (boot_blocks_ready cpu s m m1 frees Hready Hp1 Huse Hblk) as Hbb.
  destruct (run_free_spec cpu _ frees m1 0 (pr_ok _ _ _ Hp1) Hblk Hbb) as (m' & Hfree & Hok' & Hin & Hav).
  eexists s1, _, _, m'. split; [exact Hrun|]. split_and!; try done.
  - rewrite <- !app_assoc, (app_assoc (reset_all_zones_managed_pages _)). fold pre.
    rewrite run_boot_app, Hpre. cbn [obind]. rewrite run_boot_app, Hfree. cbn [obind]. apply run_boot_totalram.
  - intros z q Hi. rewrite Hav by (by rewrite (pr_init _ _ _ Hp1)). rewrite (pr_zone _ _ _ Hp1), Hpages.
    assert (~ avail m1 z q) by (apply (pr_none _ _ _ Hp1); by rewrite (pr_init _ _ _ Hp1)). tauto.
Qed.

(** C2. The hand-over from the boot allocator to the page allocator: every call
    memblock_free_all() makes succeeds on a ready memory map, every invariant
    of the page allocator holds afterwards, and the pages available in a zone
    are exactly the zone's pages all of whose bytes are mapped, unreserved
    memory of one node with one set of flags (hotplug aside). *)
Theorem boot_handover (kernel_end cpu : Z) (reset_done : bool) (s : memblock) (m : mm) :
  mb_wf s -> t_cnt (memory s) + 2 <= t_max (memory s) -> below_limit s -> ~ usable s 0 ->
  mm_ok cpu m -> none_avail m -> boot_ready s m ->
  exists s1 evs n m',
    memblock_free_all kernel_end reset_done s = Ret (s1, evs, n)
    /\ run_boot cpu m evs = Ret m' /\ mm_ok cpu m'
    /\ (forall z q, z_initialized (zones m z) = true ->
         avail m' z q <-> page_zone (page_at m q) = z /\ usable_page s q /\ uniform_page s q).
Proof. apply boot_handover_spec. Qed.

(** The board's page frames before the hand-over: 1024 fresh pages of one zone,
    all counted once and marked reserved by memory initialisation. *)
Definition bare_page : page := mk_page (2 ^ PG_reserved) 0 1 MAPCOUNT_NONE 1 0 0 None 0 0.
Definition bare : mm :=
  mk_mm (fun _ => bare_page) (fun p => (0 <=? p) && (p <? 1024))
    (fun _ => mk_zone (fun _ => mk_area [] 0) (fun _ => mk_pcp 0 6 1 []) true 0).

Lemma bare_blk z p o : ~ blk bare z p o.
Proof. intros [_ H]. by apply not_elem_of_nil in H. Qed.

Lemma bare_wf : mm_wf bare.
Proof.
  assert (Hz : forall z, zone_wf bare z).
  { intros z. split; try done.
    - intros o _. constructor.
    - intros p o Hb. by apply bare_blk in Hb.
    - intros p o Hb. by apply bare_blk in Hb.
    - intros p o q Hb. by apply bare_blk in Hb.
    - intros p o q o' x Hb. by apply bare_blk in Hb.
    - intros p o Hb. by apply bare_blk in Hb. }
  split; split; try done.
  - intros z c q Hq. by apply not_elem_of_nil in Hq.
  - intros z c. constructor.
  - intros z c z' c' q Hq. by apply not_elem_of_nil in Hq.
Qed.

Lemma bare_ok : mm_ok 0 bare.
Proof. split; [apply bare_wf|done|]. intros z. cbn. lia. Qed.

Lemma bare_none : none_avail bare.
Proof.
  intros z q _ [(p & o & Hb & _)|(c & Hq)]; [by apply bare_blk in Hb|by apply not_elem_of_nil in Hq].
Qed.

Lemma bare_ready : boot_ready board bare.
Proof.
  split; [|done]. intros q Hq. split_and!; try done. cbn.
  assert (H1 : 0 <= q * PAGE_SIZE < 0x400000); [|unfold PAGE_SIZE, PAGE_SHIFT in H1; change (2 ^ 12) with 4096 in H1;
    destruct (Z.leb_spec 0 q), (Z.ltb_spec q 1024); done || lia].
  assert (Hu : usable board (q * PAGE_SIZE)) by (apply Hq; unfold PAGE_SIZE, PAGE_SHIFT; lia).
  destruct Hu as [(fl & nid & Hat & _) _].
  assert (Hs : is_Some (attr_at (regions (memory board)) (q * PAGE_SIZE))) by eauto.
  apply attr_at_ent in Hs as (i & Hi & Hc). cbn in Hi.
  assert (i = 0 \/ i = 1)%nat as [-> | ->] by lia; unfold contains, ent in Hc; cbn in Hc;
    apply andb_true_iff in Hc as [?%Z.leb_le ?%Z.ltb_lt]; lia.
Qed.

Lemma boot_handover_witness :
  exists s1 evs n m',
    memblock_free_all 0x80000 false board = Ret (s1, evs, n)
    /\ run_boot 0 bare evs = Ret m' /\ mm_ok 0 m'
    /\ (forall z q, z_initialized (zones bare z) = true ->
         avail m' z q <-> page_zone (page_at bare q) = z /\ usable_page board q /\ uniform_page board q).
Proof.
  apply (boot_handover 0x80000 0 false board bare).
  - exact board_wf.
  - vm_compute. discriminate.
  - exact board_below.
  - intros [(fl & nid & Hat & _) _]. vm_compute in Hat. discriminate.
  - exact bare_ok.
  - exact bare_none.
  - exact bare_ready.
Defined.
