(* ===== verification/PageOwner.v ===== *)
(** * Owning blocks of pages

    What the page allocator promises to a client that holds several blocks at
    once.  The interface is the class [PageAllocator] (the operations) with its
    laws [PageAllocatorLaws]; the buddy allocator is its instance.  A client
    (the slab allocator) is verified against the laws alone. *)

From S2P Require Import Prelude Memblock Buddy BuddyInv BuddyPcp BuddyUse.
From stdpp Require Import base list numbers option functions relations.
#[local] Open Scope Z_scope.
#[local] Open Scope kernel_scope.

(** ** The interface *)

Class PageAllocator (St : Type) := {
  pa_alloc : St -> Z -> Z -> outcome (St * option Z);
  pa_free : St -> Z -> Z -> outcome St;
  pa_page : St -> Z -> page;
  pa_upd : St -> Z -> (page -> page) -> St;
  pa_order : St -> Z -> Z
}.

(** The page flags a slab sets while it owns a page. *)
Definition SLAB_BITS : Z := Z.lor (2 ^ PG_slab) (2 ^ PG_active).

(** The writes an owner may make to the first page of its block: the words
    [mapping] and [private] and the flags of [SLAB_BITS]. *)
Definition owner_write (f : page -> page) : Prop :=
  forall g, pg_type (f g) = pg_type g /\ pg_count (f g) = pg_count g /\ pg_head (f g) = pg_head g
    /\ pg_corder (f g) = pg_corder g /\ pg_cmapcount (f g) = pg_cmapcount g
    /\ pg_node (f g) = pg_node g /\ pg_zonenum (f g) = pg_zonenum g
    /\ Z.ldiff (pg_flags (f g)) SLAB_BITS = Z.ldiff (pg_flags g) SLAB_BITS.

(** The first page of a block as the allocator hands it out and expects it. *)
Definition clean (g : page) : Prop := pg_mapping g = 0 /\ Z.land (pg_flags g) SLAB_BITS = 0.

Class PageAllocatorLaws (St : Type) `{PageAllocator St} := {
  pa_ok : St -> Prop;
  pa_node : Z -> Prop;
  pa_owned : St -> Z -> Z -> Prop;
  pa_lo : Z;
  pa_hi : Z;
  pa_owned_range st p o : pa_ok st -> pa_owned st p o -> pa_lo <= p /\ p + 2 ^ o <= pa_hi;
  pa_owned_block st p o : pa_owned st p o -> 0 <= o < MAX_ORDER /\ 0 <= p /\ (2 ^ o | p);
  pa_owned_node st p o : pa_ok st -> pa_owned st p o -> pa_node (pg_node (pa_page st p));
  pa_owned_head st p o q : pa_owned st p o -> in_blk p o q -> compound_head q (pa_page st q) = p;
  pa_owned_order st p o : pa_owned st p o -> pa_order st p = o;
  pa_owned_apart st p o p' o' q :
    pa_owned st p o -> pa_owned st p' o' -> in_blk p o q -> in_blk p' o' q -> p = p' /\ o = o';
  pa_alloc_spec st nid o : pa_ok st -> pa_node nid -> 0 <= o < MAX_ORDER ->
    (exists st' p, pa_alloc st nid o = Ret (st', Some p) /\ pa_ok st' /\ pa_owned st' p o
       /\ clean (pa_page st' p)
       /\ forall p' o', pa_owned st p' o' -> pa_owned st' p' o'
            /\ forall q, in_blk p' o' q -> pa_page st' q = pa_page st q /\ ~ in_blk p o q)
    \/ (exists st', pa_alloc st nid o = Ret (st', None) /\ pa_ok st'
       /\ forall p' o', pa_owned st p' o' -> pa_owned st' p' o'
            /\ forall q, in_blk p' o' q -> pa_page st' q = pa_page st q)
    \/ pa_alloc st nid o = Panic;
  pa_free_spec st p o : pa_ok st -> pa_owned st p o -> clean (pa_page st p) ->
    exists st', pa_free st p o = Ret st' /\ pa_ok st'
      /\ (forall p' o', pa_owned st' p' o' -> p' <> p /\ pa_owned st p' o')
      /\ forall p' o', pa_owned st p' o' -> p' <> p -> pa_owned st' p' o'
            /\ forall q, in_blk p' o' q -> pa_page st' q = pa_page st q;
  pa_upd_spec st p o f : pa_ok st -> pa_owned st p o -> owner_write f ->
    pa_ok (pa_upd st p f)
    /\ (forall p' o', pa_owned (pa_upd st p f) p' o' <-> pa_owned st p' o');
  pa_page_upd st p f q : pa_page (pa_upd st p f) q = if decide (q = p) then f (pa_page st q) else pa_page st q
}.

(** ** The buddy allocator: blocks in use under changes elsewhere *)

(** What [in_use] reads of a page. *)
Definition use_same (g g' : page) : Prop :=
  pg_type g' = pg_type g /\ pg_count g' = pg_count g /\ pg_mapping g' = pg_mapping g /\ pg_head g' = pg_head g
  /\ Z.land (pg_flags g') PREP = Z.land (pg_flags g) PREP
  /\ pg_corder g' = pg_corder g /\ pg_cmapcount g' = pg_cmapcount g /\ page_zone g' = page_zone g.

Lemma use_same_refl g : use_same g g.
Proof. by split_and!. Qed.

Lemma in_use_transfer s s' z p o c :
  in_use s z p o c ->
  (forall z', z_initialized (zones s' z') = z_initialized (zones s z')) ->
  (forall q, in_blk p o q -> pfn_valid s' q = pfn_valid s q /\ use_same (page_at s q) (page_at s' q)) ->
  (forall q z', z_initialized (zones s z') = true -> in_blk p o q -> avail s' z' q -> avail s z' q) ->
  in_use s' z p o c.
Proof.
  intros [Ho Hp Hd Hi Hz Hhd Htl Hcp Hun] Hinit Hpg Hav.
  assert (Hin : in_blk p o p) by (apply in_blk_head; lia).
  split; try done.
  - by rewrite Hinit.
  - intros q Hq. destruct (Hpg q Hq) as [-> (_ & _ & _ & _ & _ & _ & _ & ->)]. by apply Hz.
  - destruct (Hpg p Hin) as [_ (E1 & E2 & E3 & E4 & E5 & _)]. unfold head_ok. rewrite E1, E2, E3, E4, E5. apply Hhd.
  - intros q Hq Hqp. destruct (Hpg q Hq) as [_ (E1 & E2 & E3 & E4 & E5 & _)].
    unfold tail_ok. rewrite E1, E2, E3, E4, E5. by apply Htl.
  - intros Hne. assert (Hin1 : in_blk p o (p + 1)) by (unfold in_blk; pose proof (Z.pow_gt_1 2 o); lia).
    destruct (Hpg (p + 1) Hin1) as [_ (_ & _ & _ & _ & _ & -> & -> & _)]. by apply Hcp.
  - intros q z' Hi' Hq Ha. rewrite Hinit in Hi'. by apply (Hun q z' Hi' Hq), Hav.
Qed.

(** The owner's writes undone. *)
Definition scrub (g : page) : page := set_mapping 0 (set_flags (Z.ldiff (pg_flags g) SLAB_BITS) g).

Definition owned (s : mm) (p o : Z) : Prop := exists z, in_use (upd_page s p scrub) z p o 1.

Lemma scrub_changed s p : pages_changed s (upd_page s p scrub) (fun q => q = p).
Proof. by apply upd_page_changed. Qed.

Lemma scrub_at s p q : page_at (upd_page s p scrub) q = if decide (q = p) then scrub (page_at s q) else page_at s q.
Proof. rewrite page_upd_page. by case_decide as E; [subst|]. Qed.

Lemma scrub_use_same g g' :
  use_same (set_mapping 0 g) (set_mapping 0 g') -> Z.ldiff (pg_flags g') SLAB_BITS = Z.ldiff (pg_flags g) SLAB_BITS ->
  use_same (scrub g) (scrub g').
Proof. intros (? & ? & ? & ? & ? & ? & ? & ?) E. unfold scrub, use_same, page_zone in *. cbn in *. rewrite E. by split_and!. Qed.

(** Ownership survives a change that leaves the block's pages alone and makes
    none of them available. *)
Lemma owned_transfer s s' p o :
  owned s p o ->
  (forall z', z_initialized (zones s' z') = z_initialized (zones s z')) ->
  (forall q, in_blk p o q -> pfn_valid s' q = pfn_valid s q) ->
  (forall q, in_blk p o q -> q <> p -> page_at s' q = page_at s q) ->
  use_same (scrub (page_at s p)) (scrub (page_at s' p)) ->
  (forall q z', z_initialized (zones s z') = true -> in_blk p o q -> avail s' z' q -> avail s z' q) ->
  owned s' p o.
Proof.
  intros [z Hu] Hinit Hv Hpg Hp Hav. exists z. apply (in_use_transfer (upd_page s p scrub)); try done.
  intros q Hq. split; [by apply Hv|]. rewrite !scrub_at. case_decide as E; [by subst|].
  rewrite Hpg by done. apply use_same_refl.
Qed.

Lemma owned_unlisted s p o q z :
  owned s p o -> z_initialized (zones s z) = true -> in_blk p o q -> ~ avail s z q.
Proof.
  intros [z' Hu] Hi Hq Ha. apply (iu_unlisted _ _ _ _ _ Hu q z Hi Hq).
  by apply (pc_avail _ _ _ _ _ (scrub_changed _ _)).
Qed.

(** ** The laws, one by one *)

Lemma owned_block s p o : owned s p o -> 0 <= o < MAX_ORDER /\ 0 <= p /\ (2 ^ o | p).
Proof. intros [z []]. done. Qed.

Lemma owned_head s p o q : owned s p o -> in_blk p o q -> compound_head q (page_at s q) = p.
Proof.
  intros [z Hu] Hq. unfold compound_head. destruct (decide (q = p)) as [->|Hne].
  - pose proof (iu_head _ _ _ _ _ Hu) as (_ & _ & _ & Hh & _). rewrite scrub_at, decide_True in Hh by done.
    change (pg_head (page_at s p) = None) in Hh. by rewrite Hh.
  - pose proof (iu_tail _ _ _ _ _ Hu q Hq Hne) as (_ & _ & _ & Hh & _). rewrite scrub_at, decide_False in Hh by done.
    by rewrite Hh.
Qed.

Lemma prep_head_bit f v : Z.land (Z.ldiff f SLAB_BITS) PREP = v -> Z.testbit f PG_head = Z.testbit v PG_head.
Proof. intros <-. rewrite Z.land_spec, Z.ldiff_spec. change (Z.testbit SLAB_BITS PG_head) with false. change (Z.testbit PREP PG_head) with true. by rewrite andb_true_r, andb_true_r. Qed.

Lemma owned_page_head s p o : owned s p o -> PageHead (page_at s p) = negb (o =? 0).
Proof.
  intros [z Hu]. pose proof (iu_head _ _ _ _ _ Hu) as (_ & _ & _ & _ & Hf). rewrite scrub_at, decide_True in Hf by done.
  unfold PageHead. rewrite (prep_head_bit _ _ Hf). by destruct (o =? 0).
Qed.

Lemma owned_order s p o : owned s p o -> compound_order s p = o.
Proof.
  intros Hown. unfold compound_order. rewrite (owned_page_head s p o Hown). destruct Hown as [z Hu].
  destruct (Z.eqb_spec o 0) as [->|Hne]; cbn [negb]; [done|].
  pose proof (iu_compound _ _ _ _ _ Hu Hne) as [Hc _]. by rewrite scrub_at, decide_False in Hc by lia.
Qed.

(** Blocks in use never overlap. *)
Lemma owned_apart s p o p' o' q :
  owned s p o -> owned s p' o' -> in_blk p o q -> in_blk p' o' q -> p = p' /\ o = o'.
Proof.
  intros H1 H2 Hq1 Hq2. assert (p = p') as <-.
  { rewrite <- (owned_head s p o q H1 Hq1). by apply (owned_head s p' o' q). }
  split; [done|]. rewrite <- (owned_order s p o H1). by apply owned_order.
Qed.

(** How the pages of the machine are reached: the number of online nodes, the
    nodes with their zonelists, the highest zone index a request may use, the
    CPU the calls run on, and the page frames between which all memory lies. *)
Record alloc_env := mk_env {
  env_nr : Z;
  env_nodes : list Z;
  env_zonelist : Z -> list zoneref;
  env_high : Z;
  env_cpu : Z;
  env_lo : Z;
  env_hi : Z
}.

(** alloc_pages_node(), with NUMA_NO_NODE replaced by node 0. *)
Definition alloc_pages_node (env : alloc_env) (s : mm) (nid order : Z) : outcome (mm * option Z) :=
  let nid := if nid =? NUMA_NO_NODE then 0 else nid in
  let! _ := VM_BUG_ON ((nid <? 0) || (nid >=? MAX_NUMNODES)) in
  __alloc_pages_nodemask 1 s (env_nr env) (env_zonelist env nid) (env_high env) None (env_cpu env) order.

(** Every node's zonelist names initialised zones, each once, that the walk
    may enter. *)
Definition env_ok (env : alloc_env) (s : mm) : Prop :=
  (forall n, n ∈ env_nodes env -> 0 <= n < MAX_NUMNODES
     /\ exists r0 l0, next_zones_zonelist (env_zonelist env n) (env_high env) None = r0 :: l0
        /\ NoDup (map zr_zone (r0 :: l0))
        /\ forall r, r ∈ r0 :: l0 -> z_initialized (zones s (zr_zone r)) = true
             /\ local_zone (env_nr env) (zr_zone r0) r)
  /\ (forall z, z_initialized (zones s z) = true -> fst z ∈ env_nodes env).

Record buddy_ok (env : alloc_env) (s : mm) : Prop := {
  bo_wf : mm_wf s;
  bo_counts : pcp_counts s;
  bo_sane : pcp_sane s (env_cpu env);
  bo_env : env_ok env s;
  bo_range : forall q, pfn_valid s q = true -> env_lo env <= q < env_hi env
}.

Lemma env_ok_init env s s' :
  (forall z, z_initialized (zones s' z) = z_initialized (zones s z)) -> env_ok env s -> env_ok env s'.
Proof.
  intros Hi [H1 H2]. split.
  - intros n Hn. destruct (H1 n Hn) as (Hne & r0 & l0 & E & Hnd & Hr). split; [done|].
    exists r0, l0. split_and!; try done. intros r Hin. rewrite Hi. by apply Hr.
  - intros z. rewrite Hi. apply H2.
Qed.

Lemma in_use_clean s z p o : in_use s z p o 1 -> clean (page_at s p).
Proof.
  intros Hu. pose proof (iu_head _ _ _ _ _ Hu) as (_ & _ & Hm & _ & Hf). split; [done|].
  change SLAB_BITS with (Z.land PREP SLAB_BITS). rewrite Z.land_assoc, Hf. by destruct (o =? 0).
Qed.

Lemma ldiff_disjoint a b : Z.land a b = 0 -> Z.ldiff a b = a.
Proof. intros H. apply Z.bits_inj'. intros n Hn. rewrite Z.ldiff_spec.
  assert (E : Z.testbit (Z.land a b) n = false) by (by rewrite H, Z.bits_0). rewrite Z.land_spec in E.
  by destruct (Z.testbit a n), (Z.testbit b n). Qed.

Lemma clean_scrub g : clean g -> scrub g = g.
Proof. intros [Hm Hf]. unfold scrub. rewrite (ldiff_disjoint _ _ Hf). destruct g. cbn in *. by subst. Qed.

Lemma upd_page_id s p f : f (page_at s p) = page_at s p ->
  forall q, page_at (upd_page s p f) q = page_at s q.
Proof. intros E q. rewrite page_upd_page. case_decide; [by subst|done]. Qed.

Lemma owned_clean s p o : owned s p o -> clean (page_at s p) -> exists z, in_use s z p o 1.
Proof.
  intros [z Hu] Hc. exists z. apply (in_use_transfer (upd_page s p scrub)); try done.
  intros q Hq. split; [done|]. rewrite (upd_page_id s p scrub) by (by apply clean_scrub). apply use_same_refl.
Qed.

Lemma in_use_owned s z p o : in_use s z p o 1 -> owned s p o.
Proof.
  intros Hu. exists z. apply (in_use_transfer s); try done.
  intros q Hq. split; [done|]. rewrite (upd_page_id s p scrub) by (by apply clean_scrub, (in_use_clean s z p o)). apply use_same_refl.
Qed.

(** ** Allocation *)

Lemma alloc_run env s nid o :
  buddy_ok env s -> nid ∈ env_nodes env -> 0 <= o < MAX_ORDER ->
  (exists s' p z, alloc_pages_node env s nid o = Ret (s', Some p)
     /\ z_initialized (zones s z) = true /\ allocated s s' z p o)
  \/ alloc_pages_node env s nid o = Panic.
Proof.
  intros [W C S E _] Hn Ho. pose proof E as [En Ez]. destruct (En nid Hn) as (Hne & r0 & l0 & Hl & Hnd & Hr).
  unfold alloc_pages_node. destruct (Z.eqb_spec nid NUMA_NO_NODE); [unfold NUMA_NO_NODE in *; lia|].
  rewrite Z.geb_leb. destruct (Z.ltb_spec nid 0), (Z.leb_spec MAX_NUMNODES nid); try lia. cbn [orb VM_BUG_ON obind].
  destruct (alloc_entry_spec 0 s (env_nr env) (env_zonelist env nid) (env_high env) None (env_cpu env) o r0 l0)
    as [(s' & p & r & -> & Hin & Hal)|[-> _]]; [done|done|done|done| |left|by right].
  { intros r Hin. destruct (Hr r Hin) as [Hi Hloc]. split; [|done]. split; [done|]. apply S. }
  destruct (Hr r Hin) as [Hi _]. by exists s', p, (zr_zone r).
Qed.

Lemma allocated_ok env s s' z p o : buddy_ok env s -> allocated s s' z p o -> buddy_ok env s'.
Proof.
  intros [W C S E R] [W' C' S' In U Wa A O [V _ _]]. split; [done|by apply C'|by apply S'|by apply (env_ok_init env s)|].
  intros q. rewrite V. apply R.
Qed.

Lemma allocated_keeps s s' z p o p' o' :
  z_initialized (zones s z) = true -> allocated s s' z p o -> owned s p' o' ->
  owned s' p' o' /\ forall q, in_blk p' o' q -> page_at s' q = page_at s q /\ ~ in_blk p o q.
Proof.
  intros Hi [W' C' S' In U Wa A O [V Zo P]] Hown.
  assert (Hno : forall q z, z_initialized (zones s z) = true -> in_blk p' o' q -> ~ avail s z q).
  { intros q z' Hiz Hq. by apply (owned_unlisted s p' o'). }
  assert (Hpg : forall q, in_blk p' o' q -> page_at s' q = page_at s q).
  { intros q Hq. apply P. intros z' Hiz. by apply Hno. }
  split; [|intros q Hq; split; [by apply Hpg|]; intros Hq'; by apply (Hno q z), Wa].
  pose proof (owned_block s p' o' Hown) as (Ho' & _ & _).
  apply (owned_transfer s); try done; [intros; by apply Hpg|rewrite Hpg by (apply in_blk_head; lia); apply use_same_refl|].
  intros q z' Hiz Hq Ha. destruct (decide (z' = z)) as [->|Hz]; [by apply A|by apply O].
Qed.

Lemma buddy_alloc_spec env s nid o :
  buddy_ok env s -> nid ∈ env_nodes env -> 0 <= o < MAX_ORDER ->
  (exists s' p, alloc_pages_node env s nid o = Ret (s', Some p) /\ buddy_ok env s' /\ owned s' p o
     /\ clean (page_at s' p)
     /\ forall p' o', owned s p' o' -> owned s' p' o'
          /\ forall q, in_blk p' o' q -> page_at s' q = page_at s q /\ ~ in_blk p o q)
  \/ alloc_pages_node env s nid o = Panic.
Proof.
  intros Hok Hn Ho. destruct (alloc_run env s nid o Hok Hn Ho) as [(s' & p & z & -> & Hi & Hal)| -> ]; [left|by right].
  exists s', p. split; [done|]. pose proof (ac_use _ _ _ _ _ Hal) as Hu. split_and!.
  - by apply (allocated_ok env s s' z p o).
  - by apply (in_use_owned s' z).
  - by apply (in_use_clean s' z p o).
  - intros p' o'. by apply (allocated_keeps s s' z).
Qed.

(** ** Freeing *)

Lemma free_run env s p o :
  buddy_ok env s -> owned s p o -> clean (page_at s p) ->
  exists s' z, __free_pages s p o (env_cpu env) = Ret s' /\ in_use s z p o 1 /\ released s s' z p o.
Proof.
  intros [W C S E _] Hown Hcl. destruct (owned_clean s p o Hown Hcl) as [z Hu].
  destruct (free_pages_spec s z p o (env_cpu env) W C S Hu) as (s' & -> & Hr). by exists s', z.
Qed.

Lemma released_buddy_ok env s s' z p o : buddy_ok env s -> released s s' z p o -> buddy_ok env s'.
Proof.
  intros [W C S E R] [W' C' A F]. split; [done|by apply C'|by apply (mm_frame_sane s s' z _ _ F)| |].
  - apply (env_ok_init env s); [apply F|done].
  - intros q. rewrite (mf_valid _ _ _ _ F). apply R.
Qed.

Lemma released_keeps s s' z p o p' o' :
  in_use s z p o 1 -> released s s' z p o -> owned s p' o' -> p' <> p ->
  owned s' p' o' /\ forall q, in_blk p' o' q -> page_at s' q = page_at s q.
Proof.
  intros Hu [W' C' A F] Hown' Hne. pose proof (iu_init _ _ _ _ _ Hu) as Hi.
  assert (Hap : forall q, in_blk p' o' q -> ~ in_blk p o q).
  { intros q H1 H2. by destruct (owned_apart s p' o' p o q Hown' (in_use_owned s z p o Hu) H1 H2). }
  assert (Hpg : forall q, in_blk p' o' q -> page_at s' q = page_at s q).
  { intros q Hq. apply F. intros [Ha|Hb]; [by apply (owned_unlisted s p' o' q z)|by apply (Hap q)]. }
  split; [|done]. pose proof (owned_block s p' o' Hown') as (Ho' & _ & _).
  apply (owned_transfer s); try done; [apply F|intros; apply F|intros; by apply Hpg|rewrite Hpg by (apply in_blk_head; lia); apply use_same_refl|].
  intros q z' Hiz Hq Ha. destruct (decide (z' = z)) as [->|Hz].
  - apply A in Ha as [Ha|Ha]; [done|by destruct (Hap q)].
  - by apply (mm_frame_avail s s' z _ z' q F Hz Hiz).
Qed.

(** A block in use after the release was in use before, and is another one:
    its pages are on no list, so they are none of those that changed. *)
Lemma released_owned_back s s' z p o p' o' :
  in_use s z p o 1 -> released s s' z p o -> owned s' p' o' -> p' <> p /\ owned s p' o'.
Proof.
  intros Hu [W' C' A F] Hown. pose proof (iu_init _ _ _ _ _ Hu) as Hi. pose proof (iu_order _ _ _ _ _ Hu).
  assert (Hi' : z_initialized (zones s' z) = true) by (rewrite (mf_init _ _ _ _ F); done).
  assert (Hout : forall q, in_blk p' o' q -> ~ (avail s z q \/ in_blk p o q)).
  { intros q Hq Ha. apply (owned_unlisted s' p' o' q z Hown Hi' Hq). by apply A. }
  pose proof (owned_block s' p' o' Hown) as (Ho' & _ & _). assert (Hp : in_blk p' o' p') by (apply in_blk_head; lia).
  split; [intros ->; apply (Hout p Hp); right; apply in_blk_head; lia|].
  assert (Hpg : forall q, in_blk p' o' q -> page_at s q = page_at s' q) by (intros q Hq; symmetry; by apply F, Hout).
  apply (owned_transfer s'); try done; [intros; symmetry; apply F|intros; symmetry; apply F|intros; by apply Hpg|rewrite Hpg by done; apply use_same_refl|].
  intros q z' Hiz Hq Ha. destruct (decide (z' = z)) as [->|Hz]; [apply A; by left|].
  rewrite (mf_init _ _ _ _ F) in Hiz. by apply (mm_frame_avail s s' z _ z' q F Hz Hiz).
Qed.

Lemma buddy_free_spec env s p o :
  buddy_ok env s -> owned s p o -> clean (page_at s p) ->
  exists s', __free_pages s p o (env_cpu env) = Ret s' /\ buddy_ok env s'
    /\ (forall p' o', owned s' p' o' -> p' <> p /\ owned s p' o')
    /\ forall p' o', owned s p' o' -> p' <> p -> owned s' p' o'
         /\ forall q, in_blk p' o' q -> page_at s' q = page_at s q.
Proof.
  intros Hok Hown Hcl. destruct (free_run env s p o Hok Hown Hcl) as (s' & z & -> & Hu & Hr).
  exists s'. split; [done|]. split; [by apply (released_buddy_ok env s s' z p o)|].
  split; intros p' o'; [by apply (released_owned_back s s' z p o)|by apply (released_keeps s s' z p o)].
Qed.

(** ** The owner's own writes *)

Lemma owner_write_same f g : owner_write f -> use_same (scrub g) (scrub (f g)).
Proof.
  intros Hf. destruct (Hf g) as (E1 & E2 & E3 & E4 & E5 & E6 & E7 & E8).
  unfold scrub, use_same, page_zone. cbn. rewrite E1, E2, E3, E4, E5, E6, E7, E8. by split_and!.
Qed.

Lemma owner_write_changed s p f : owner_write f -> pages_changed s (upd_page s p f) (fun q => q = p).
Proof.
  intros Hf. apply upd_page_changed; [|done]. intros g. destruct (Hf g) as (_ & _ & _ & _ & _ & E6 & E7 & _).
  unfold page_zone. by rewrite E6, E7.
Qed.

Lemma owned_type s p o : owned s p o -> pg_type (page_at s p) = MAPCOUNT_NONE.
Proof.
  intros [z Hu]. pose proof (iu_head _ _ _ _ _ Hu) as (Ht & _). by rewrite scrub_at, decide_True in Ht by done.
Qed.

Lemma use_same_sym g g' : use_same g g' -> use_same g' g.
Proof. intros (? & ? & ? & ? & ? & ? & ? & ?). by split_and!. Qed.

(** Ownership does not depend on what the owner writes. *)
Lemma owned_upd s p o f :
  owned s p o -> owner_write f -> forall p' o', owned (upd_page s p f) p' o' <-> owned s p' o'.
Proof.
  intros Hown Hf. pose proof (owned_block s p o Hown) as (Ho & _ & _). assert (Hin : in_blk p o p) by (apply in_blk_head; lia).
  set (s1 := upd_page s p f).
  assert (Hfw : forall p' o', owned s p' o' -> owned s1 p' o').
  { intros p' o' Hown'. apply (owned_transfer s); try done.
    + intros q Hq Hqp. unfold s1. rewrite page_upd_page. case_decide as Eq; [|done]. subst q.
      exfalso. apply Hqp. by destruct (owned_apart s p' o' p o p Hown' Hown Hq Hin).
    + unfold s1. rewrite page_upd_page. case_decide as Eq; [subst; by apply owner_write_same|apply use_same_refl]. }
  intros p' o'. split; [|apply Hfw]. intros Hown'. apply (owned_transfer s1); try done.
  + intros q Hq Hqp. unfold s1. rewrite page_upd_page. case_decide as Eq; [|done]. subst q.
    exfalso. apply Hqp. by destruct (owned_apart s1 p' o' p o p Hown' (Hfw p o Hown) Hq Hin).
  + unfold s1. rewrite page_upd_page. case_decide as Eq; [subst; by apply use_same_sym, owner_write_same|apply use_same_refl].
Qed.

Lemma buddy_upd_spec env s p o f :
  buddy_ok env s -> owned s p o -> owner_write f ->
  buddy_ok env (upd_page s p f) /\ (forall p' o', owned (upd_page s p f) p' o' <-> owned s p' o').
Proof.
  intros [W C S E R] Hown Hf. pose proof (owner_write_changed s p f Hf) as Hch.
  pose proof (owned_block s p o Hown) as (Ho & _ & _). assert (Hin : in_blk p o p) by (apply in_blk_head; lia).
  split.
  - split; [|done|done|done|done].
    apply (pages_changed_wf s (upd_page s p f) (fun q => q = p)); try done.
    + intros q z Hi -> Hfr. apply (owned_unlisted s p o p z Hown Hi Hin). by left.
    + intros q z c -> Hon. destruct (pw_page s (mw_pcp s W) z c p Hon) as (Hi & _).
      apply (owned_unlisted s p o p z Hown Hi Hin). right. by exists c.
    + intros q ->. apply MAPCOUNT_not_buddy. rewrite page_upd_page, decide_True by done.
      destruct (Hf (page_at s p)) as (-> & _). by apply (owned_type s p o).
    + intros q. lia.
  - by apply (owned_upd s p o).
Qed.

(** ** The instance *)

Definition buddy_pages (env : alloc_env) : PageAllocator mm := {|
  pa_alloc := alloc_pages_node env;
  pa_free s p o := __free_pages s p o (env_cpu env);
  pa_page := page_at;
  pa_upd := upd_page;
  pa_order := compound_order
|}.

Lemma owned_node env s p o : buddy_ok env s -> owned s p o -> pg_node (page_at s p) ∈ env_nodes env.
Proof.
  intros [_ _ _ [_ Ez] _] Hown. pose proof (owned_block s p o Hown) as (Ho & _ & _). destruct Hown as [z Hu].
  destruct (iu_zone _ _ _ _ _ Hu p (in_blk_head p o ltac:(lia))) as [_ Hz]. rewrite scrub_at, decide_True in Hz by done.
  change (page_zone (page_at s p) = z) in Hz. change (pg_node (page_at s p)) with (fst (page_zone (page_at s p))).
  rewrite Hz. apply Ez. apply (iu_init _ _ _ _ _ Hu).
Qed.

Lemma owned_range env s p o : buddy_ok env s -> owned s p o -> env_lo env <= p /\ p + 2 ^ o <= env_hi env.
Proof.
  intros [_ _ _ _ R] Hown. pose proof (owned_block s p o Hown) as (Ho & _ & _). destruct Hown as [z Hu].
  assert (0 < 2 ^ o) by (apply Z.pow_pos_nonneg; lia).
  destruct (iu_zone _ _ _ _ _ Hu p) as [V1 _]; [unfold in_blk; lia|].
  destruct (iu_zone _ _ _ _ _ Hu (p + 2 ^ o - 1)) as [V2 _]; [unfold in_blk; lia|].
  pose proof (R p V1). pose proof (R _ V2). lia.
Qed.

Definition buddy_laws (env : alloc_env) : @PageAllocatorLaws mm (buddy_pages env).
Proof.
  refine (@Build_PageAllocatorLaws mm (buddy_pages env) (buddy_ok env) (fun n => n ∈ env_nodes env) owned
    (env_lo env) (env_hi env) (owned_range env) owned_block (owned_node env) owned_head owned_order owned_apart _ _ _ _).
  - intros st nid o Hok Hn Ho. destruct (buddy_alloc_spec env st nid o Hok Hn Ho) as [(s' & p & ? & ? & ? & ? & ?)|?];
      [left; by exists s', p|by right; right].
  - intros st p o Hok Hown Hc. destruct (buddy_free_spec env st p o Hok Hown Hc) as (s' & ? & ? & ? & ?). by exists s'.
  - intros st p o f Hok Hown Hf. destruct (buddy_upd_spec env st p o f Hok Hown Hf). done.
  - intros st p f q. change (page_at (upd_page st p f) q = if decide (q = p) then f (page_at st q) else page_at st q).
    rewrite page_upd_page. by case_decide as E; [subst|].
Defined.

(** ** Clients that hold many blocks

    The owners of pages as a transition system: the allocator's state with the
    list of the blocks handed out and not yet given back.  Owners allocate,
    write the words of [struct page] that are theirs, and free what they hold
    after restoring those words. *)

Section Owners.
Context (env : alloc_env).

Definition owners : Type := mm * list (Z * Z).

Inductive owner_step : owners -> owners -> Prop :=
  | owner_alloc s L nid o s' p :
      nid ∈ env_nodes env -> 0 <= o < MAX_ORDER ->
      alloc_pages_node env s nid o = Ret (s', Some p) ->
      owner_step (s, L) (s', (p, o) :: L)
  | owner_touch s L p o f :
      (p, o) ∈ L -> owner_write f -> owner_step (s, L) (upd_page s p f, L)
  | owner_free s L1 L2 p o s' :
      clean (page_at s p) -> __free_pages s p o (env_cpu env) = Ret s' ->
      owner_step (s, L1 ++ (p, o) :: L2) (s', L1 ++ L2).

(** A page lies in a live block of zone [z]. *)
Definition held_page (s : mm) (L : list (Z * Z)) (z : zid) (q : Z) : Prop :=
  exists p o, (p, o) ∈ L /\ in_blk p o q /\ page_zone (page_at s q) = z.

Record owners_ok (s0 : mm) (w : owners) : Prop := {
  ow_ok : buddy_ok env (fst w);
  ow_nodup : NoDup (map fst (snd w));
  ow_owned : forall p o, (p, o) ∈ snd w -> owned (fst w) p o;
  ow_init : forall z, z_initialized (zones (fst w) z) = z_initialized (zones s0 z);
  ow_zone : forall q, page_zone (page_at (fst w) q) = page_zone (page_at s0 q);
  ow_total : forall z q, z_initialized (zones s0 z) = true ->
     avail s0 z q <-> avail (fst w) z q \/ held_page (fst w) (snd w) z q
}.

Lemma owned_in_zone s p o q : owned s p o -> in_blk p o q -> page_zone (page_at s q) = page_zone (page_at s p).
Proof.
  intros Hown Hq. pose proof (owned_block s p o Hown) as (Ho & _ & _). destruct Hown as [z Hu].
  destruct (iu_zone _ _ _ _ _ Hu q Hq) as [_ Hz]. destruct (iu_zone _ _ _ _ _ Hu p (in_blk_head p o ltac:(lia))) as [_ Hz'].
  rewrite !scrub_at in *. rewrite decide_True in Hz' by done.
  change (page_zone (page_at s p) = z) in Hz'. case_decide; [by subst|]. congruence.
Qed.

Lemma owners_alloc s0 s L nid o s' p :
  owners_ok s0 (s, L) -> nid ∈ env_nodes env -> 0 <= o < MAX_ORDER ->
  alloc_pages_node env s nid o = Ret (s', Some p) -> owners_ok s0 (s', (p, o) :: L).
Proof.
  intros [Hok Hnd Hown Hini Hzn Htot] Hn Ho Hrun; cbn [fst snd] in *.
  destruct (alloc_run env s nid o Hok Hn Ho) as [(s1 & p1 & z & E & Hi & Hal)|E]; rewrite E in Hrun; [|done].
  injection Hrun as -> ->. pose proof Hal as [_ _ _ In U Wa A O [_ Zo _]].
  assert (Hin : in_blk p o p) by (apply in_blk_head; lia).
  split; cbn [fst snd].
  - by apply (allocated_ok env s s' z p o).
  - cbn [map]. apply list.NoDup_cons. split; [|done]. intros (b & Eb & Hb)%list_elem_of_fmap. destruct b as [p' o'].
    cbn in Eb. subst p'. destruct (allocated_keeps s s' z p o p o' Hi Hal (Hown _ _ Hb)) as [_ Hk].
    pose proof (owned_block s p o' (Hown _ _ Hb)) as (? & _ & _). by apply (Hk p (in_blk_head p o' ltac:(lia))).
  - intros p' o' [[= -> ->]|Hb]%elem_of_cons; [by apply (in_use_owned s' z)|].
    by apply (allocated_keeps s s' z p o p' o' Hi Hal), Hown.
  - intros z'. by rewrite In.
  - intros q. by rewrite Zo.
  - intros z' q Hi0. assert (Hi' : z_initialized (zones s z') = true) by (by rewrite Hini).
    rewrite (Htot z' q Hi0). unfold held_page. setoid_rewrite elem_of_cons. rewrite Zo. split.
    + intros [Ha|(p' & o' & Hb & Hq & Hz)]; [|right; exists p', o'; split_and!; try done; by right].
      destruct (decide (z' = z)) as [->|Hne]; [|left; by apply O].
      destruct (in_blk_dec p o q) as [Hq|Hq]; [|left; by apply A].
      right. exists p, o. split_and!; [by left|done|].
      destruct (iu_zone _ _ _ _ _ U q Hq) as [_ Hz]. by rewrite Zo in Hz.
    + intros [Ha|(p' & o' & [[= -> ->]|Hb] & Hq & Hz)].
      * left. destruct (decide (z' = z)) as [->|Hne]; [by apply A|by apply O].
      * left. destruct (iu_zone _ _ _ _ _ U q Hq) as [_ Hz']. rewrite Zo in Hz'. rewrite <- Hz, Hz'. by apply Wa.
      * right. by exists p', o'.
Qed.

Lemma owners_touch s0 s L p o f :
  owners_ok s0 (s, L) -> (p, o) ∈ L -> owner_write f -> owners_ok s0 (upd_page s p f, L).
Proof.
  intros [Hok Hnd Hown Hini Hzn Htot] Hin Hf; cbn [fst snd] in *.
  destruct (buddy_upd_spec env s p o f Hok (Hown _ _ Hin) Hf) as [Hok' Hk].
  pose proof (owner_write_changed s p f Hf) as Hch.
  split; cbn [fst snd]; try done.
  - intros p' o' Hb. by apply Hk, Hown.
  - intros q. by rewrite (pc_zone _ _ _ Hch).
  - intros z q Hi0. rewrite (Htot z q Hi0), (pc_avail _ _ _ _ _ Hch). unfold held_page. by setoid_rewrite (pc_zone _ _ _ Hch).
Qed.

Lemma owners_free s0 s L1 L2 p o s' :
  owners_ok s0 (s, L1 ++ (p, o) :: L2) -> clean (page_at s p) ->
  __free_pages s p o (env_cpu env) = Ret s' -> owners_ok s0 (s', L1 ++ L2).
Proof.
  intros [Hok Hnd Hown Hini Hzn Htot] Hcl Hrun; cbn [fst snd] in *.
  assert (Hb0 : (p, o) ∈ L1 ++ (p, o) :: L2) by (apply elem_of_app; right; left).
  destruct (free_run env s p o Hok (Hown _ _ Hb0) Hcl) as (s1 & z & E & Hu & Hr). rewrite E in Hrun. injection Hrun as ->.
  pose proof Hr as [_ _ A F].
  rewrite map_app in Hnd. cbn [map] in Hnd.
  assert (Hnd2 : NoDup (p :: map fst (L1 ++ L2))).
  { rewrite map_app. eapply NoDup_Permutation_proper; [|exact Hnd]. apply Permutation_middle. }
  apply list.NoDup_cons in Hnd2 as [Hnp Hnd2].
  assert (Hsub : forall b, b ∈ L1 ++ L2 <-> b ∈ L1 ++ (p, o) :: L2 /\ fst b <> p).
  { intros b. rewrite !elem_of_app, elem_of_cons. split.
    - intros Hb. split; [tauto|]. intros <-. apply Hnp. apply list_elem_of_fmap_2. by apply elem_of_app.
    - intros [[?|[->|?]] Hne]; tauto. }
  split; cbn [fst snd]; try done.
  - by apply (released_buddy_ok env s s' z p o).
  - intros p' o' Hb. apply Hsub in Hb as [Hb Hne]. by apply (released_keeps s s' z p o p' o' Hu Hr); [apply Hown|].
  - intros z'. by rewrite (mf_init _ _ _ _ F).
  - intros q. by rewrite (mf_zone _ _ _ _ F).
  - intros z' q Hi0. assert (Hi' : z_initialized (zones s z') = true) by (by rewrite Hini).
    rewrite (Htot z' q Hi0). unfold held_page. setoid_rewrite (mf_zone _ _ _ _ F).
    assert (Ha : avail s' z' q <-> avail s z' q \/ z' = z /\ in_blk p o q).
    { destruct (decide (z' = z)) as [->|Hne]; [rewrite A; tauto|]. rewrite (mm_frame_avail s s' z _ z' q F Hne Hi'). tauto. }
    rewrite Ha. setoid_rewrite Hsub. split.
    + intros [Hq|(p' & o' & Hb & Hq & Hz)]; [tauto|]. destruct (decide (p' = p)) as [->|Hne].
      * left. right. destruct (owned_apart s p o' p o p (Hown _ _ Hb) (Hown _ _ Hb0)) as [_ ->];
          [apply in_blk_head, (owned_block s p o' (Hown _ _ Hb))|apply in_blk_head, (owned_block s p o (Hown _ _ Hb0))|].
        split; [|done]. rewrite <- Hz. by apply (iu_zone _ _ _ _ _ Hu).
      * right. exists p', o'. split_and!; done.
    + intros [[Hq|[-> Hq]]|(p' & o' & [Hb _] & Hq & Hz)]; [tauto| |right; by exists p', o'].
      right. exists p, o. split_and!; try done. by apply (iu_zone _ _ _ _ _ Hu).
Qed.

Lemma owners_reachable s0 w : buddy_ok env s0 -> rtc owner_step (s0, []) w -> owners_ok s0 w.
Proof.
  intros Hok Hr. assert (H0 : owners_ok s0 (s0, [])).
  { split; cbn [fst snd]; try done.
    - constructor.
    - intros p o Hin. by apply not_elem_of_nil in Hin.
    - intros z q _. split; [by left|]. intros [?|(p & o & Hin & _)]; [done|by apply not_elem_of_nil in Hin]. }
  remember (s0, []) as w0 eqn:E0. clear E0. induction Hr as [w|w1 w2 w3 Hs Hr IH]; [done|]. apply IH.
  destruct Hs as [s L nid o s' p Hn Ho Hrun|s L p o f Hin Hf|s L1 L2 p o s' Hc Hrun].
  - by apply (owners_alloc s0 s L nid o).
  - by apply (owners_touch s0 s L p o).
  - by apply (owners_free s0 s L1 L2 p o).
Qed.

End Owners.
