(* ===== verification/OwnerProps.v ===== *)
(** * Owners of pages: theorem

    The safety of the page allocator for clients that hold many blocks. *)

From S2P Require Import Prelude Buddy BuddyInv BuddyPcp BuddyUse BuddyProps PageOwner.
From stdpp Require Import base list numbers option functions relations.
#[local] Open Scope Z_scope.
#[local] Open Scope kernel_scope.
Import Demo.

(** C4. Ownership of pages: however clients interleave allocations, writes to
    their own pages and frees, no page of a live block is available in any
    zone, two live blocks never share a page, every page available at the
    start is now available or in exactly a live block of its zone (nothing
    leaks and nothing appears), and a client that restored its page can
    always free its block. *)
Theorem page_owners_safe (env : alloc_env) (s0 s : mm) (L : list (Z * Z)) :
  buddy_ok env s0 -> rtc (owner_step env) (s0, []) (s, L) ->
  (forall p o q z, (p, o) ∈ L -> in_blk p o q -> z_initialized (zones s z) = true -> ~ avail s z q)
  /\ (forall i j p o p' o' q, L !! i = Some (p, o) -> L !! j = Some (p', o') ->
        in_blk p o q -> in_blk p' o' q -> i = j)
  /\ (forall z q, z_initialized (zones s0 z) = true ->
        avail s0 z q <-> avail s z q \/ held_page s L z q)
  /\ (forall p o, (p, o) ∈ L -> clean (page_at s p) -> exists s', __free_pages s p o (env_cpu env) = Ret s').
Proof.
  intros Hok Hr. destruct (owners_reachable env s0 (s, L) Hok Hr) as [Hok' Hnd Hown _ _ Htot]; cbn [fst snd] in *.
  split_and!; [| |exact Htot|].
  - intros p o q z Hin Hq Hi. by apply (owned_unlisted s p o q z (Hown _ _ Hin) Hi).
  - intros i j p o p' o' q Hi Hj Hq Hq'.
    destruct (owned_apart s p o p' o' q (Hown _ _ (list_elem_of_lookup_2 _ _ _ Hi)) (Hown _ _ (list_elem_of_lookup_2 _ _ _ Hj)) Hq Hq') as [<- _].
    apply (NoDup_lookup (map fst L) i j p); [done| |]; rewrite list_lookup_fmap; [by rewrite Hi|by rewrite Hj].
  - intros p o Hin Hc. destruct (free_run env s p o Hok' (Hown _ _ Hin) Hc) as (s' & _ & ? & _). by exists s'.
Qed.

Definition demo_env : alloc_env := mk_env 1 [0] (fun _ => demo_zonelist) 1 0 0 1024.

Lemma demo_env_ok : buddy_ok demo_env demo.
Proof.
  split; [apply demo_wf|apply demo_counts|apply demo_sane| |].
  2:{ intros q. cbn. destruct (Z.leb_spec 0 q), (Z.ltb_spec q 1024); done || lia. }
  split.
  - intros n ->%list_elem_of_singleton. split; [done|]. exists (mk_zoneref zn 1), []. split_and!.
    + reflexivity.
    + apply NoDup_singleton.
    + intros r Hr. destruct (demo_ready r Hr) as [[? _] ?]. done.
  - intros z. cbn. case_bool_decide as E; [subst; intros _; by apply list_elem_of_singleton|done].
Qed.

(** The state a call leaves. *)
Definition state_of {A} (d : mm) (r : outcome (mm * A)) : mm := match r with Ret (s, _) => s | _ => d end.
Definition demo_two : mm := state_of demo (alloc_pages_node demo_env demo 0 1).
Definition demo_three : mm := state_of demo_two (alloc_pages_node demo_env demo_two 0 0).
Definition demo_mark (g : page) : page := set_mapping 77 g.
Definition demo_left : mm :=
  match __free_pages (upd_page demo_three 10 demo_mark) 8 1 0 with Ret s => s | _ => demo end.

Lemma state_of_ret {A} d (r : outcome (mm * A)) a :
  match r with Ret (_, b) => b = a | _ => False end -> r = Ret (state_of d r, a).
Proof. destruct r as [[s b]| |]; [by intros ->|done..]. Qed.

Lemma demo_run : rtc (owner_step demo_env) (demo, []) (demo_left, [(10, 0)]).
Proof.
  apply (rtc_l _ _ (demo_two, [(8, 1)])).
  { apply (owner_alloc demo_env demo [] 0 1 demo_two 8); [by apply list_elem_of_singleton|done|].
    apply state_of_ret. vm_compute. reflexivity. }
  apply (rtc_l _ _ (demo_three, [(10, 0); (8, 1)])).
  { apply (owner_alloc demo_env demo_two [(8, 1)] 0 0 demo_three 10); [by apply list_elem_of_singleton|done|].
    apply state_of_ret. vm_compute. reflexivity. }
  apply (rtc_l _ _ (upd_page demo_three 10 demo_mark, [(10, 0); (8, 1)])).
  { apply (owner_touch demo_env demo_three _ 10 0 demo_mark); [left|done]. }
  apply rtc_once. apply (owner_free demo_env _ [(10, 0)] [] 8 1 demo_left).
  - split; vm_compute; reflexivity.
  - unfold demo_left, env_cpu, demo_env. 
    assert (E : match __free_pages (upd_page demo_three 10 demo_mark) 8 1 0 with Ret _ => True | _ => False end) by (vm_compute; exact I).
    by destruct (__free_pages _ 8 1 0).
Qed.

Lemma page_owners_safe_witness :
  (forall p o q z, (p, o) ∈ [(10, 0)] -> in_blk p o q -> z_initialized (zones demo_left z) = true -> ~ avail demo_left z q)
  /\ (forall i j p o p' o' q, [(10, 0)] !! i = Some (p, o) -> [(10, 0)] !! j = Some (p', o') ->
        in_blk p o q -> in_blk p' o' q -> i = j)
  /\ (forall z q, z_initialized (zones demo z) = true ->
        avail demo z q <-> avail demo_left z q \/ held_page demo_left [(10, 0)] z q)
  /\ (forall p o, (p, o) ∈ [(10, 0)] -> clean (page_at demo_left p) ->
        exists s', __free_pages demo_left p o 0 = Ret s').
Proof. apply (page_owners_safe demo_env demo demo_left [(10, 0)] demo_env_ok demo_run). Defined.
