(* ===== verification/Slub.v ===== *)
(** * The slab allocator: data and operations

    Model of mm/slub.c with include/linux/slub_def.h, mm/slab.h and the kmalloc
    entry points of mm/slab_common.c and include/linux/slab.h.

    A slab is a block of pages cut into objects of one size.  The free objects
    of a slab form a linked list threaded through the objects themselves, so
    the model carries the words of memory the allocator reads and writes:
    [sl_mem a] is the word at the virtual address [a], NULL is 0.

    struct page is shared with the page allocator: [slab_cache] is the word
    [mapping], [counters] (the bit-fields inuse:16, objects:15, frozen:1) is the
    word [private], and the slab flag is a page flag.  [page->freelist] is the
    word [index], which the page allocator does not use; it is [sl_freelist].

    Every call runs to its end before another one starts, so a compare and
    exchange compares with what was just read; the retry a failing one causes
    needs interference and is [Stuck] here. *)

From S2P Require Import Prelude Bitops Memblock Buddy PageOwner.
From stdpp Require Import base list numbers option functions.
#[local] Open Scope Z_scope.
#[local] Open Scope kernel_scope.

(** ** Constants *)

Definition VA_BITS : Z := 48.
Definition PAGE_OFFSET : Z := U64_MOD - 2 ^ (VA_BITS - 1).
Definition WORD : Z := 8.

Definition SLAB_CONSISTENCY_CHECKS : Z := 0x100.
Definition SLAB_POISON : Z := 0x800.
Definition SLAB_HWCACHE_ALIGN : Z := 0x2000.
Definition SLAB_CACHE_DMA : Z := 0x4000.
Definition SLAB_STORE_USER : Z := 0x10000.
Definition SLAB_TYPESAFE_BY_RCU : Z := 0x80000.

Definition MIN_PARTIAL : Z := 5.
Definition MAX_PARTIAL : Z := 10.
Definition OO_SHIFT : Z := 16.
Definition OO_MASK : Z := 2 ^ OO_SHIFT - 1.
Definition MAX_OBJS_PER_PAGE : Z := 32767.
Definition TID_STEP : Z := 8.

Definition ZERO_SIZE_PTR : Z := 16.
Definition ZERO_OR_NULL_PTR (x : Z) : bool := x <=? ZERO_SIZE_PTR.

Definition KMALLOC_SHIFT_LOW : Z := 3.
Definition KMALLOC_SHIFT_HIGH : Z := PAGE_SHIFT + 1.
Definition KMALLOC_MAX_CACHE_SIZE : Z := 2 ^ KMALLOC_SHIFT_HIGH.

(** ** Data *)

Record kmem_cache_cpu := mk_cpu { c_freelist : Z; c_tid : Z; c_page : option Z }.

Record kmem_cache_node := mk_node { nr_partial : Z; partial : list Z }.

(** struct kmem_cache; [node] holds the structures the pointers of [node[]]
    point to. *)
Record kmem_cache := mk_cache {
  cpu_slab : Z -> kmem_cache_cpu;
  kc_flags : Z;
  min_partial : Z;
  kc_size : Z;
  object_size : Z;
  kc_offset : Z;
  kc_oo : Z;
  kc_max : Z;
  kc_min : Z;
  kc_refcount : Z;
  kc_ctor : bool;
  kc_inuse : Z;
  kc_align : Z;
  kc_node : Z -> option kmem_cache_node
}.

(** The packed bit-fields of [page->counters]. *)
Definition ct_inuse (w : Z) : Z := w mod 2 ^ 16.
Definition ct_objects (w : Z) : Z := (w / 2 ^ 16) mod 2 ^ 15.
Definition ct_frozen (w : Z) : Z := (w / 2 ^ 31) mod 2.
Definition set_inuse (v w : Z) : Z := w - ct_inuse w + v mod 2 ^ 16.
Definition set_objects (v w : Z) : Z := w - 2 ^ 16 * ct_objects w + 2 ^ 16 * (v mod 2 ^ 15).
Definition set_frozen (v w : Z) : Z := w - 2 ^ 31 * ct_frozen w + 2 ^ 31 * (v mod 2).

Definition order_objects (order size : Z) : Z := u32 (Z.shiftl PAGE_SIZE order) / size.
Definition oo_make (order size : Z) : Z := u32 (Z.shiftl order OO_SHIFT + order_objects order size).
Definition oo_order (x : Z) : Z := Z.shiftr x OO_SHIFT.
Definition oo_objects (x : Z) : Z := Z.land x OO_MASK.

Definition next_tid (tid : Z) : Z := u64 (tid + TID_STEP).

(** ** Virtual addresses (arch/arm64/include/asm/memory.h)

    [memstart] is memstart_addr and [voffset] kimage_voffset, both set while
    booting. *)
Record layout := mk_layout { memstart_addr : Z; kimage_voffset : Z }.

Definition page_address (m : layout) (pfn : Z) : Z :=
  Z.lor (u64 (PFN_PHYS pfn - memstart_addr m)) PAGE_OFFSET.
Definition __is_lm_address (x : Z) : bool := Z.testbit x (VA_BITS - 1).
Definition __virt_to_phys (m : layout) (x : Z) : Z :=
  if __is_lm_address x then u64 (Z.ldiff x PAGE_OFFSET + memstart_addr m) else u64 (x - kimage_voffset m).
Definition virt_to_pfn (m : layout) (x : Z) : Z := Z.shiftr (__virt_to_phys m x) PAGE_SHIFT.

(** ** The state *)

Record slub (St : Type) := mk_slub {
  sl_pages : St;
  sl_mem : Z -> Z;
  sl_freelist : Z -> Z;
  sl_cache : Z -> kmem_cache
}.
Arguments mk_slub {St}.
Arguments sl_pages {St}.
Arguments sl_mem {St}.
Arguments sl_freelist {St}.
Arguments sl_cache {St}.

(** [m] is the address layout, [cpu_node] the node of each CPU. *)
Section Slub.
Context {St : Type} {PA : PageAllocator St} (m : layout) (cpu_node : Z -> Z).
Implicit Types st : slub St.

Definition set_pages st (a : St) : slub St := mk_slub a (sl_mem st) (sl_freelist st) (sl_cache st).
Definition set_word st (a v : Z) : slub St :=
  mk_slub (sl_pages st) (<[a := v]> (sl_mem st)) (sl_freelist st) (sl_cache st).
Definition set_page_freelist st (p v : Z) : slub St :=
  mk_slub (sl_pages st) (sl_mem st) (<[p := v]> (sl_freelist st)) (sl_cache st).
Definition upd_cache st (s : Z) (f : kmem_cache -> kmem_cache) : slub St :=
  mk_slub (sl_pages st) (sl_mem st) (sl_freelist st) (<[s := f (sl_cache st s)]> (sl_cache st)).
Definition upd_struct st (p : Z) (f : page -> page) : slub St := set_pages st (pa_upd (sl_pages st) p f).

Definition struct_page st (p : Z) : page := pa_page (sl_pages st) p.
Definition counters st (p : Z) : Z := pg_private (struct_page st p).
Definition set_counters st (p v : Z) : slub St := upd_struct st p (set_private v).
Definition page_to_nid st (p : Z) : Z := pg_node (struct_page st p).

Definition with_cpu (f : Z -> kmem_cache_cpu) (k : kmem_cache) : kmem_cache :=
  mk_cache f (kc_flags k) (min_partial k) (kc_size k) (object_size k) (kc_offset k) (kc_oo k) (kc_max k)
    (kc_min k) (kc_refcount k) (kc_ctor k) (kc_inuse k) (kc_align k) (kc_node k).
Definition with_node (f : Z -> option kmem_cache_node) (k : kmem_cache) : kmem_cache :=
  mk_cache (cpu_slab k) (kc_flags k) (min_partial k) (kc_size k) (object_size k) (kc_offset k) (kc_oo k)
    (kc_max k) (kc_min k) (kc_refcount k) (kc_ctor k) (kc_inuse k) (kc_align k) f.

Definition cpu_of st (s cpu : Z) : kmem_cache_cpu := cpu_slab (sl_cache st s) cpu.
Definition set_cpu st (s cpu : Z) (c : kmem_cache_cpu) : slub St :=
  upd_cache st s (fun k => with_cpu (<[cpu := c]> (cpu_slab k)) k).
Definition get_node st (s nid : Z) : option kmem_cache_node := kc_node (sl_cache st s) nid.
Definition set_node st (s nid : Z) (n : kmem_cache_node) : slub St :=
  upd_cache st s (fun k => with_node (<[nid := Some n]> (kc_node k)) k).

(** ** Free pointers *)

Definition get_freepointer st (s object : Z) : Z := sl_mem st (object + kc_offset (sl_cache st s)).
Definition set_freepointer st (s object fp : Z) : slub St :=
  set_word st (object + kc_offset (sl_cache st s)) fp.

(** ** Page flags *)

Definition PageSlab (g : page) : bool := Z.testbit (pg_flags g) PG_slab.
Definition __SetPageSlab st (p : Z) : slub St :=
  upd_struct st p (fun g => set_flags (Z.lor (pg_flags g) (2 ^ PG_slab)) g).
Definition __ClearPageSlab st (p : Z) : slub St :=
  upd_struct st p (fun g => set_flags (Z.ldiff (pg_flags g) (2 ^ PG_slab)) g).
Definition SetPageSlabPfmemalloc st (p : Z) : outcome (slub St) :=
  let! _ := VM_BUG_ON (negb (PageSlab (struct_page st p))) in
  Ret (upd_struct st p (fun g => set_flags (Z.lor (pg_flags g) (2 ^ PG_active)) g)).
Definition __ClearPageSlabPfmemalloc st (p : Z) : outcome (slub St) :=
  let! _ := VM_BUG_ON (negb (PageSlab (struct_page st p))) in
  Ret (upd_struct st p (fun g => set_flags (Z.ldiff (pg_flags g) (2 ^ PG_active)) g)).
Definition page_is_pfmemalloc st (p : Z) : bool := sl_freelist st p =? U64_MOD - 1.

(** The slab_lock() around the comparison is released before the return. *)
Definition __cmpxchg_double_slab st (p freelist_old counters_old freelist_new counters_new : Z)
    : slub St * bool :=
  if (sl_freelist st p =? freelist_old) && (counters st p =? counters_old)
  then (set_counters (set_page_freelist st p freelist_new) p counters_new, true)
  else (st, false).

(** A loop around the compare and exchange. *)
Definition exchange st (p freelist_old counters_old freelist_new counters_new : Z) : outcome (slub St) :=
  let '(st', ok) := __cmpxchg_double_slab st p freelist_old counters_old freelist_new counters_new in
  if ok then Ret st' else Stuck.

(** ** Slabs *)

Definition alloc_slab_page st (cpu node oo : Z) : outcome (slub St * option Z) :=
  let! (a, page) := pa_alloc (sl_pages st) (if node =? NUMA_NO_NODE then cpu_node cpu else node) (oo_order oo) in
  Ret (set_pages st a, page).

(** The loop that threads the free list through a new slab. *)
Fixpoint thread_loop (n : nat) st (s p : Z) : slub St :=
  match n with
  | O => set_freepointer st s p 0
  | S n' =>
      let next := p + kc_size (sl_cache st s) in
      thread_loop n' (set_freepointer st s p next) s next
  end.

(** The slab gets its fields, its flag and its free list. *)
Definition setup_slab st (s page oo : Z) : outcome (slub St) :=
  let st := set_counters st page (set_objects (oo_objects oo) (counters st page)) in
  let st := upd_struct st page (set_mapping s) in
  let st := __SetPageSlab st page in
  let! st := (if page_is_pfmemalloc st page then SetPageSlabPfmemalloc st page else Ret st) in
  let start := page_address m page in
  let st := set_page_freelist st page start in
  let objects := ct_objects (counters st page) in
  let st := thread_loop (Z.to_nat (objects - 1)) st s start in
  let st := set_counters st page (set_inuse objects (counters st page)) in
  Ret (set_counters st page (set_frozen 1 (counters st page))).

Definition allocate_slab st (s cpu node : Z) : outcome (slub St * option Z) :=
  let! (st1, page) := alloc_slab_page st cpu node (kc_oo (sl_cache st s)) in
  match page with
  | Some p => let! st2 := setup_slab st1 s p (kc_oo (sl_cache st s)) in Ret (st2, Some p)
  | None =>
      let! (st2, page) := alloc_slab_page st1 cpu node (kc_min (sl_cache st s)) in
      match page with
      | Some p => let! st3 := setup_slab st2 s p (kc_min (sl_cache st s)) in Ret (st3, Some p)
      | None => Ret (st2, None)
      end
  end.

Definition new_slab := allocate_slab.

Definition __free_slab st (page : Z) : outcome (slub St) :=
  let order := pa_order (sl_pages st) page in
  let! st := __ClearPageSlabPfmemalloc st page in
  let st := __ClearPageSlab st page in
  let st := upd_struct st page (set_mapping 0) in
  let! a := pa_free (sl_pages st) page order in
  Ret (set_pages st a).

Definition discard_slab := __free_slab.

(** ** Partial lists *)

Definition add_partial (n : kmem_cache_node) (page : Z) (tail : bool) : kmem_cache_node :=
  mk_node (u64 (nr_partial n + 1)) (if tail then partial n ++ [page] else page :: partial n).
Definition remove_partial (n : kmem_cache_node) (page : Z) : kmem_cache_node :=
  mk_node (u64 (nr_partial n - 1)) (drop_page page (partial n)).

(** acquire_slab() as get_partial_node() calls it, with [mode] true. *)
Definition acquire_slab st (s nid page : Z) (n : kmem_cache_node) : outcome (slub St * Z) :=
  let freelist := sl_freelist st page in
  let cnt := counters st page in
  let new := set_inuse (ct_objects cnt) cnt in
  let! _ := VM_BUG_ON (negb (ct_frozen new =? 0)) in
  let '(st1, ok) := __cmpxchg_double_slab st page freelist cnt 0 (set_frozen 1 new) in
  if ok then Ret (set_node st1 s nid (remove_partial n page), freelist) else Ret (st1, 0).

(** Without per-CPU partial lists the walk stops at its first slab. *)
Definition get_partial_node st (s nid cpu : Z) : outcome (slub St * Z) :=
  match get_node st s nid with
  | None => Ret (st, 0)
  | Some n =>
      if nr_partial n =? 0 then Ret (st, 0)
      else
        match partial n with
        | [] => Ret (st, 0)
        | page :: _ =>
            let! (st1, t) := acquire_slab st s nid page n in
            if t =? 0 then Ret (st1, 0)
            else
              let c := cpu_of st1 s cpu in
              Ret (set_cpu st1 s cpu (mk_cpu (c_freelist c) (c_tid c) (Some page)), t)
        end
  end.

(** get_any_partial() finds nothing. *)
Definition get_partial st (s node cpu : Z) : outcome (slub St * Z) :=
  get_partial_node st s (if node =? NUMA_NO_NODE then cpu_node cpu else node) cpu.

(** ** Taking a slab away from a CPU *)

(** Stage one of deactivate_slab(): all objects but the last go back to the
    slab's own list. *)
Fixpoint drain_loop (fuel : nat) st (s page freelist : Z) : outcome (slub St * Z) :=
  match fuel with
  | O => Stuck
  | S fuel' =>
      if freelist =? 0 then Ret (st, freelist)
      else
        let nextfree := get_freepointer st s freelist in
        if nextfree =? 0 then Ret (st, freelist)
        else
          let prior := sl_freelist st page in
          let cnt := counters st page in
          let st1 := set_freepointer st s freelist prior in
          let new := set_inuse (ct_inuse cnt - 1) cnt in
          let! _ := VM_BUG_ON (ct_frozen new =? 0) in
          let! st2 := exchange st1 page prior cnt freelist new in
          drain_loop fuel' st2 s page nextfree
  end.

Inductive slab_modes := M_PARTIAL | M_FULL | M_FREE.

Definition deactivate_slab st (s page freelist cpu : Z) : outcome (slub St) :=
  let nid := page_to_nid st page in
  let tail := negb (sl_freelist st page =? 0) in
  let! (st, freelist) := drain_loop (S (Z.to_nat (ct_objects (counters st page)))) st s page freelist in
  let old_freelist := sl_freelist st page in
  let old_counters := counters st page in
  let! _ := VM_BUG_ON (ct_frozen old_counters =? 0) in
  let '(st, new_freelist, new) :=
    if freelist =? 0 then (st, old_freelist, old_counters)
    else (set_freepointer st s freelist old_freelist, freelist,
          set_inuse (ct_inuse old_counters - 1) old_counters) in
  let new := set_frozen 0 new in
  let! mode :=
    (if ct_inuse new =? 0 then
       match get_node st s nid with
       | None => Panic
       | Some n => Ret (if nr_partial n >=? min_partial (sl_cache st s) then M_FREE
                        else if new_freelist =? 0 then M_FULL else M_PARTIAL)
       end
     else Ret (if new_freelist =? 0 then M_FULL else M_PARTIAL)) in
  let! st :=
    match mode with
    | M_PARTIAL => match get_node st s nid with
                   | None => Panic
                   | Some n => Ret (set_node st s nid (add_partial n page tail))
                   end
    | _ => Ret st
    end in
  let! st := exchange st page old_freelist old_counters new_freelist new in
  let! st := match mode with M_FREE => discard_slab st page | _ => Ret st end in
  let c := cpu_of st s cpu in
  Ret (set_cpu st s cpu (mk_cpu 0 (c_tid c) None)).

Definition flush_slab st (s cpu page : Z) : outcome (slub St) :=
  let! st := deactivate_slab st s page (c_freelist (cpu_of st s cpu)) cpu in
  let c := cpu_of st s cpu in
  Ret (set_cpu st s cpu (mk_cpu (c_freelist c) (next_tid (c_tid c)) (c_page c))).

Definition __flush_cpu_slab st (s cpu : Z) : outcome (slub St) :=
  match c_page (cpu_of st s cpu) with
  | Some page => flush_slab st s cpu page
  | None => Ret st
  end.

(** flush_all() relies on on_each_cpu_cond(), whose body in kernel/smp.c is
    empty. *)
Definition flush_all st (s : Z) : slub St := st.

(** ** Allocating objects *)

Definition node_match st (page node : Z) : bool :=
  (node =? NUMA_NO_NODE) || (page_to_nid st page =? node).

Definition new_slab_objects st (s node cpu : Z) : outcome (slub St * Z) :=
  let! (st, freelist) := get_partial st s node cpu in
  if negb (freelist =? 0) then Ret (st, freelist)
  else
    let! (st, page) := new_slab st s cpu node in
    match page with
    | None => Ret (st, 0)
    | Some p =>
        let! st := match c_page (cpu_of st s cpu) with Some q => flush_slab st s cpu q | None => Ret st end in
        let freelist := sl_freelist st p in
        let st := set_page_freelist st p 0 in
        let c := cpu_of st s cpu in
        Ret (set_cpu st s cpu (mk_cpu (c_freelist c) (c_tid c) (Some p)), freelist)
    end.

Definition get_freelist st (page : Z) : outcome (slub St * Z) :=
  let freelist := sl_freelist st page in
  let cnt := counters st page in
  let! _ := VM_BUG_ON (ct_frozen cnt =? 0) in
  let new := set_inuse (ct_objects cnt) cnt in
  let new := set_frozen (if freelist =? 0 then 0 else 1) new in
  let! st := exchange st page freelist cnt 0 new in
  Ret (st, freelist).

(** The end of ___slab_alloc(): the first object is handed out, the rest is
    the CPU's list. *)
Definition load_freelist st (s cpu freelist : Z) : outcome (slub St * Z) :=
  let c := cpu_of st s cpu in
  match c_page c with
  | None => Panic
  | Some page =>
      let! _ := VM_BUG_ON (ct_frozen (counters st page) =? 0) in
      Ret (set_cpu st s cpu (mk_cpu (get_freepointer st s freelist) (next_tid (c_tid c)) (c_page c)), freelist)
  end.

(** From the label new_slab on. *)
Definition alloc_new st (s node cpu : Z) : outcome (slub St * Z) :=
  let! (st, freelist) := new_slab_objects st s node cpu in
  if freelist =? 0 then Ret (st, 0) else load_freelist st s cpu freelist.

Definition ___slab_alloc st (s node cpu : Z) : outcome (slub St * Z) :=
  match c_page (cpu_of st s cpu) with
  | None => alloc_new st s node cpu
  | Some page =>
      if negb (node_match st page node) then
        let! st := deactivate_slab st s page (c_freelist (cpu_of st s cpu)) cpu in
        alloc_new st s node cpu
      else
        let freelist := c_freelist (cpu_of st s cpu) in
        if negb (freelist =? 0) then load_freelist st s cpu freelist
        else
          let! (st, freelist) := get_freelist st page in
          if freelist =? 0 then
            let c := cpu_of st s cpu in
            alloc_new (set_cpu st s cpu (mk_cpu (c_freelist c) (c_tid c) None)) s node cpu
          else load_freelist st s cpu freelist
  end.

(** memset() of an object: the words inside it, and the low bytes of a word
    that its end cuts. *)
Definition clear_object st (object size : Z) : slub St :=
  mk_slub (sl_pages st)
    (fun a => if (object <=? a) && (a + WORD <=? object + size) then 0
              else if (object <=? a) && (a <? object + size)
                then Z.shiftl (Z.shiftr (sl_mem st a) (8 * (object + size - a))) (8 * (object + size - a))
              else sl_mem st a)
    (sl_freelist st) (sl_cache st).

Definition slab_alloc_node st (s node cpu : Z) (zero : bool) : outcome (slub St * Z) :=
  let c := cpu_of st s cpu in
  let! slow := (if c_freelist c =? 0 then Ret true
                else match c_page c with
                     | Some page => Ret (negb (node_match st page node))
                     | None => if node =? NUMA_NO_NODE then Ret false else Panic
                     end) in
  let! (st, object) :=
    (if slow then ___slab_alloc st s node cpu
     else Ret (set_cpu st s cpu (mk_cpu (get_freepointer st s (c_freelist c)) (next_tid (c_tid c)) (c_page c)),
               c_freelist c)) in
  if zero && negb (object =? 0)
  then Ret (clear_object st object (object_size (sl_cache st s)), object)
  else Ret (st, object).

Definition kmem_cache_alloc st (s cpu : Z) (zero : bool) : outcome (slub St * Z) :=
  slab_alloc_node st s NUMA_NO_NODE cpu zero.
Definition kmem_cache_alloc_node st (s node cpu : Z) (zero : bool) : outcome (slub St * Z) :=
  slab_alloc_node st s node cpu zero.

(** ** Freeing objects *)

Definition __slab_free st (s page head tail cnt : Z) : outcome (slub St) :=
  let prior := sl_freelist st page in
  let ctr := counters st page in
  let st := set_freepointer st s tail prior in
  let was_frozen := negb (ct_frozen ctr =? 0) in
  let new := set_inuse (ct_inuse ctr - cnt) ctr in
  let listed := ((ct_inuse new =? 0) || (prior =? 0)) && negb was_frozen in
  let nid := page_to_nid st page in
  let! st := exchange st page prior ctr head new in
  if negb listed then Ret st
  else
    match get_node st s nid with
    | None => Panic
    | Some n =>
        if (ct_inuse new =? 0) && (nr_partial n >=? min_partial (sl_cache st s)) then
          discard_slab (if prior =? 0 then st else set_node st s nid (remove_partial n page)) page
        else if prior =? 0 then Ret (set_node st s nid (add_partial n page true))
        else Ret st
    end.

(** [tail] is 0 for a single object. *)
Definition do_slab_free st (s page head tail cnt cpu : Z) : outcome (slub St) :=
  let tail_obj := if tail =? 0 then head else tail in
  let c := cpu_of st s cpu in
  if bool_decide (c_page c = Some page) then
    let st := set_freepointer st s tail_obj (c_freelist c) in
    Ret (set_cpu st s cpu (mk_cpu head (next_tid (c_tid c)) (c_page c)))
  else __slab_free st s page head tail_obj cnt.

Definition slab_free := do_slab_free.

Definition virt_to_head_page st (x : Z) : Z :=
  let q := virt_to_pfn m x in compound_head q (struct_page st q).

(** The warning of a mismatch is not reached: slab_equal_or_root() is true. *)
Definition cache_from_obj st (s x : Z) : Z :=
  if Z.land (kc_flags (sl_cache st s)) SLAB_CONSISTENCY_CHECKS =? 0 then s
  else pg_mapping (struct_page st (virt_to_head_page st x)).

Definition kmem_cache_free st (s x cpu : Z) : outcome (slub St) :=
  let s := cache_from_obj st s x in
  if s =? 0 then Ret st else slab_free st s (virt_to_head_page st x) x 0 1 cpu.

Definition kfree st (x cpu : Z) : outcome (slub St) :=
  if ZERO_OR_NULL_PTR x then Ret st
  else
    let page := virt_to_head_page st x in
    let g := struct_page st page in
    if negb (PageSlab g) then
      if negb (PageCompound g) then Panic
      else
        let! a := pa_free (sl_pages st) page (pa_order (sl_pages st) page) in
        Ret (set_pages st a)
    else slab_free st (pg_mapping g) page x 0 1 cpu.

End Slub.
