(* ===== verification/SlubInv.v ===== *)
(** * The slab allocator: invariant

    The abstract view of the slab allocator is the finite map [A] from the
    addresses of live objects to their caches.  The invariant [rep] relates it
    to the concrete state through the ghost description [S] of every slab: the
    objects on its own free list and on its CPU's list, and where the slab is
    (on a CPU, on its node's partial list, or, full, on no list). *)

From S2P Require Import Prelude Bitops Memblock Buddy BuddyInv PageOwner Slub.
From stdpp Require Import base list numbers option functions gmap.
#[local] Open Scope Z_scope.
#[local] Open Scope kernel_scope.

(** ** Counters *)

Create Rewrite HintDb counters.

Ltac ct := intros; unfold set_inuse, set_objects, set_frozen, ct_inuse, ct_objects, ct_frozen;
  Z.to_euclidean_division_equations; lia.

Lemma inuse_set_inuse v w : ct_inuse (set_inuse v w) = v mod 2 ^ 16.
Proof. ct. Qed.
Lemma objects_set_inuse v w : ct_objects (set_inuse v w) = ct_objects w.
Proof. ct. Qed.
Lemma frozen_set_inuse v w : ct_frozen (set_inuse v w) = ct_frozen w.
Proof. ct. Qed.
Lemma inuse_set_objects v w : ct_inuse (set_objects v w) = ct_inuse w.
Proof. ct. Qed.
Lemma objects_set_objects v w : ct_objects (set_objects v w) = v mod 2 ^ 15.
Proof. ct. Qed.
Lemma frozen_set_objects v w : ct_frozen (set_objects v w) = ct_frozen w.
Proof. ct. Qed.
Lemma inuse_set_frozen v w : ct_inuse (set_frozen v w) = ct_inuse w.
Proof. ct. Qed.
Lemma objects_set_frozen v w : ct_objects (set_frozen v w) = ct_objects w.
Proof. ct. Qed.
Lemma frozen_set_frozen v w : ct_frozen (set_frozen v w) = v mod 2.
Proof. ct. Qed.

#[export] Hint Rewrite inuse_set_inuse objects_set_inuse frozen_set_inuse inuse_set_objects objects_set_objects
  frozen_set_objects inuse_set_frozen objects_set_frozen frozen_set_frozen : counters.

(** ** Addresses *)

(** The linear map covers all of memory. *)
Record layout_ok (m : layout) (lo hi : Z) : Prop := {
  ly_align : (PAGE_SIZE | memstart_addr m);
  ly_lo : 0 <= memstart_addr m <= PAGE_SIZE * lo;
  ly_hi : PAGE_SIZE * hi <= memstart_addr m + 2 ^ 47;
  ly_phys : memstart_addr m + 2 ^ 47 <= 2 ^ 52
}.

Definition linear_base (m : layout) : Z := PAGE_OFFSET - memstart_addr m.

Lemma page_offset_bit n : Z.testbit PAGE_OFFSET n = (47 <=? n) && (n <? 64).
Proof.
  destruct (Z.ltb_spec n 0); [rewrite Z.testbit_neg_r by lia; destruct (Z.leb_spec 47 n); [lia|done]|].
  change PAGE_OFFSET with (Z.shiftl (Z.ones 17) 47). rewrite Z.shiftl_spec by lia.
  destruct (Z.leb_spec 47 n); cbn [andb].
  - rewrite Z.testbit_ones by lia. destruct (Z.leb_spec 0 (n - 47)), (Z.ltb_spec (n - 47) 17), (Z.ltb_spec n 64); done || lia.
  - by rewrite Z.testbit_neg_r by lia.
Qed.

Lemma low_bit d n : 0 <= d < 2 ^ 47 -> 47 <= n -> Z.testbit d n = false.
Proof. intros Hd Hn. rewrite Z.bits_above_log2; [done|lia|]. destruct (Z.eq_dec d 0) as [->|]; [cbn; lia|]. apply Z.lt_le_trans with 47; [apply Z.log2_lt_pow2; lia|done]. Qed.

Lemma lor_offset d : 0 <= d < 2 ^ 47 -> Z.lor d PAGE_OFFSET = PAGE_OFFSET + d.
Proof.
  intros Hd. assert (E : Z.land d PAGE_OFFSET = 0).
  { apply Z.bits_inj'. intros n Hn. rewrite Z.land_spec, page_offset_bit, Z.bits_0.
    destruct (Z.leb_spec 47 n); [by rewrite low_bit|by rewrite andb_false_r]. }
  rewrite Z.add_comm, Z.add_nocarry_lxor by done. by rewrite Z.lxor_lor.
Qed.

Lemma offset_is_lm d : 0 <= d < 2 ^ 47 -> __is_lm_address (PAGE_OFFSET + d) = true.
Proof.
  intros Hd. unfold __is_lm_address. rewrite <- lor_offset by done. change (VA_BITS - 1) with 47.
  rewrite Z.lor_spec, page_offset_bit. by rewrite orb_true_r.
Qed.

Lemma ldiff_offset d : 0 <= d < 2 ^ 47 -> Z.ldiff (PAGE_OFFSET + d) PAGE_OFFSET = d.
Proof.
  intros Hd. rewrite <- lor_offset by done. apply Z.bits_inj'. intros n Hn.
  rewrite Z.ldiff_spec, Z.lor_spec, page_offset_bit.
  destruct (Z.leb_spec 47 n); cbn [andb]; [|by rewrite orb_false_r, andb_true_r].
  rewrite low_bit by done. cbn [orb]. by destruct (n <? 64).
Qed.

Section Addr.
Context (m : layout) (lo hi : Z) (Hlay : layout_ok m lo hi).

Lemma page_address_eq p : lo <= p < hi -> page_address m p = linear_base m + PAGE_SIZE * p.
Proof.
  intros Hp. destruct Hlay as [_ Hlo Hhi Hph]. unfold PAGE_SIZE, PAGE_SHIFT in *. change (2 ^ 12) with 4096 in *.
  unfold page_address, PFN_PHYS. rewrite Z.shiftl_mul_pow2 by (unfold PAGE_SHIFT; lia). unfold PAGE_SHIFT. change (2 ^ 12) with 4096.
  rewrite (u64_id (p * 4096)) by ulia. rewrite u64_id by ulia. rewrite lor_offset by lia. unfold linear_base. lia.
Qed.

Lemma virt_to_pfn_eq p d : lo <= p < hi -> 0 <= d < PAGE_SIZE -> virt_to_pfn m (linear_base m + PAGE_SIZE * p + d) = p.
Proof.
  intros Hp Hd. destruct Hlay as [_ Hlo Hhi Hph]. unfold PAGE_SIZE, PAGE_SHIFT in *. change (2 ^ 12) with 4096 in *.
  unfold virt_to_pfn, __virt_to_phys, linear_base.
  replace (PAGE_OFFSET - memstart_addr m + 4096 * p + d) with (PAGE_OFFSET + (4096 * p + d - memstart_addr m)) by lia.
  rewrite offset_is_lm, ldiff_offset by lia. rewrite u64_id by ulia.
  rewrite Z.shiftr_div_pow2 by (unfold PAGE_SHIFT; lia). unfold PAGE_SHIFT. change (2 ^ 12) with 4096.
  symmetry. apply (Z.div_unique _ _ p d); lia.
Qed.

Lemma linear_base_pos : 0 < linear_base m.
Proof. destruct Hlay as [_ Hlo Hhi Hph]. unfold linear_base. change PAGE_OFFSET with 0xffff800000000000. lia. Qed.
End Addr.

(** ** Linked lists of free objects *)

Fixpoint chain (mem : Z -> Z) (off p : Z) (l : list Z) : Prop :=
  match l with
  | [] => p = 0
  | x :: l' => p = x /\ x <> 0 /\ chain mem off (mem (x + off)) l'
  end.

Lemma chain_frame mem mem' off l : forall p,
  (forall x, x ∈ l -> mem' (x + off) = mem (x + off)) -> chain mem off p l -> chain mem' off p l.
Proof.
  induction l as [|x l IH]; intros p Hm; cbn [chain]; [done|]. intros (-> & Hx & Hc). split_and!; try done.
  rewrite Hm by left. apply IH; [|done]. intros y Hy. apply Hm. by right.
Qed.

Lemma chain_zero mem off l : chain mem off 0 l -> l = [].
Proof. destruct l as [|x l]; [done|]. by intros (<- & Hx & _). Qed.

Lemma chain_nonzero mem off p l : chain mem off p l -> p <> 0 -> exists l', l = p :: l' /\ chain mem off (mem (p + off)) l'.
Proof. destruct l as [|x l]; [done|]. intros (-> & Hx & Hc) _. by exists l. Qed.

(** ** Slabs *)

Inductive home := OnCpu (cpu : Z) | OnPartial | Nowhere.

Record slab := mk_slab {
  sb_cache : Z;
  sb_order : Z;
  sb_objs : Z;
  sb_free : list Z;
  sb_cpu : list Z;
  sb_home : home
}.

(** The sizes of a cache make sense. *)
Definition oo_fits (k : kmem_cache) (oo : Z) : Prop :=
  0 <= oo_order oo < MAX_ORDER /\ 1 <= oo_objects oo <= MAX_OBJS_PER_PAGE
  /\ oo_objects oo * kc_size k <= PAGE_SIZE * 2 ^ oo_order oo.

Record cache_ok (k : kmem_cache) : Prop := {
  co_size : 0 < kc_size k;
  co_word : (WORD | kc_size k);
  co_offset : 0 <= kc_offset k /\ kc_offset k + WORD <= kc_size k;
  co_offset_word : (WORD | kc_offset k);
  co_object : 0 <= object_size k <= kc_size k;
  co_oo : oo_fits k (kc_oo k);
  co_min : oo_fits k (kc_min k)
}.

(** What the operations never change of a cache. *)
Definition same_config (k k' : kmem_cache) : Prop :=
  kc_flags k' = kc_flags k /\ min_partial k' = min_partial k /\ kc_size k' = kc_size k
  /\ object_size k' = object_size k /\ kc_offset k' = kc_offset k /\ kc_oo k' = kc_oo k
  /\ kc_min k' = kc_min k.

Lemma same_config_ok k k' : same_config k k' -> cache_ok k -> cache_ok k'.
Proof.
  intros (E1 & E2 & E3 & E4 & E5 & E6 & E7) [? ? ? ? ? ? ?]. unfold oo_fits in *.
  split; unfold oo_fits; rewrite ?E3, ?E4, ?E5, ?E6, ?E7; done.
Qed.

Lemma same_config_refl k : same_config k k.
Proof. by split_and!. Qed.

Lemma same_config_trans k1 k2 k3 : same_config k1 k2 -> same_config k2 k3 -> same_config k1 k3.
Proof. intros (?&?&?&?&?&?&?) (?&?&?&?&?&?&?). split_and!; congruence. Qed.

Section Inv.
Context {St : Type} {PA : PageAllocator St} {PL : PageAllocatorLaws St} (m : layout).
Context (Hlay : layout_ok m pa_lo pa_hi).
Implicit Types st : slub St.

Definition obj_at (k : kmem_cache) (p i : Z) : Z := page_address m p + i * kc_size k.
Definition is_obj st (p : Z) (b : slab) (x : Z) : Prop :=
  exists i, 0 <= i < sb_objs b /\ x = obj_at (sl_cache st (sb_cache b)) p i.
Definition unused (b : slab) : list Z := sb_free b ++ sb_cpu b.

(** [hd s cpu] is the first object of the CPU's list: the field of
    [kmem_cache_cpu], or the local variable that holds it for a while. *)
Record slab_core st (hd : Z -> Z -> Z) (p : Z) (b : slab) : Prop := {
  sc_owned : pa_owned (sl_pages st) p (sb_order b);
  sc_flag : PageSlab (struct_page st p) = true;
  sc_mapping : pg_mapping (struct_page st p) = sb_cache b;
  sc_fits : 1 <= sb_objs b <= MAX_OBJS_PER_PAGE
     /\ sb_objs b * kc_size (sl_cache st (sb_cache b)) <= PAGE_SIZE * 2 ^ sb_order b;
  sc_objects : ct_objects (counters st p) = sb_objs b;
  sc_inuse : ct_inuse (counters st p) = sb_objs b - Z.of_nat (length (sb_free b));
  sc_frozen : ct_frozen (counters st p) = match sb_home b with OnCpu _ => 1 | _ => 0 end;
  sc_chain : chain (sl_mem st) (kc_offset (sl_cache st (sb_cache b))) (sl_freelist st p) (sb_free b);
  sc_nodup : NoDup (unused b);
  sc_objs : forall x, x ∈ unused b -> is_obj st p b x;
  sc_home : match sb_home b with
            | OnCpu cpu => chain (sl_mem st) (kc_offset (sl_cache st (sb_cache b))) (hd (sb_cache b) cpu) (sb_cpu b)
            | OnPartial => sb_cpu b = [] /\ sb_free b <> []
            | Nowhere => sb_cpu b = [] /\ sb_free b = []
            end
}.

Definition cache_ready st (s : Z) : Prop :=
  s <> 0 /\ cache_ok (sl_cache st s)
  /\ forall nid, pa_node nid -> is_Some (get_node st s nid).

Definition cpus_ok st (S : gmap Z slab) : Prop :=
  forall s cpu p, c_page (cpu_of st s cpu) = Some p <->
    exists b, S !! p = Some b /\ sb_cache b = s /\ sb_home b = OnCpu cpu.

Definition nodes_ok st (S : gmap Z slab) : Prop :=
  forall s nid n, get_node st s nid = Some n ->
    NoDup (partial n) /\ nr_partial n = u64 (Z.of_nat (length (partial n)))
    /\ forall p, p ∈ partial n <->
         exists b, S !! p = Some b /\ sb_cache b = s /\ sb_home b = OnPartial /\ page_to_nid st p = nid.

Definition live_ok st (S : gmap Z slab) (A : gmap Z Z) : Prop :=
  forall x s, A !! x = Some s <->
    exists p b, S !! p = Some b /\ sb_cache b = s /\ is_obj st p b x /\ x ∉ unused b.

Record rep st (hd : Z -> Z -> Z) (S : gmap Z slab) (A : gmap Z Z) : Prop := {
  rp_pages : pa_ok (sl_pages st);
  rp_slab : forall p b, S !! p = Some b -> slab_core st hd p b /\ cache_ready st (sb_cache b);
  rp_cpus : cpus_ok st S;
  rp_nodes : nodes_ok st S;
  rp_idle : forall s cpu, c_page (cpu_of st s cpu) = None -> hd s cpu = 0;
  rp_live : live_ok st S A
}.

(** ** Objects and areas *)

Definition in_area (p o a : Z) : Prop := page_address m p <= a < page_address m p + PAGE_SIZE * 2 ^ o.

Lemma owned_address a p o : pa_ok a -> pa_owned a p o -> page_address m p = linear_base m + PAGE_SIZE * p.
Proof.
  intros Hok Hown. destruct (pa_owned_range a p o Hok Hown). destruct (pa_owned_block a p o Hown) as (? & _ & _).
  assert (0 < 2 ^ o) by (apply Z.pow_pos_nonneg; lia). apply (page_address_eq m pa_lo pa_hi Hlay). lia.
Qed.

Lemma area_apart a p o p' o' x :
  pa_ok a -> pa_owned a p o -> pa_owned a p' o' -> in_area p o x -> in_area p' o' x -> p = p' /\ o = o'.
Proof.
  intros Hok H1 H2. unfold in_area. rewrite (owned_address a p o Hok H1), (owned_address a p' o' Hok H2).
  intros Hx Hx'. set (d := x - linear_base m). assert (Hd : x = linear_base m + d) by (unfold d; lia).
  assert (HS : 0 < PAGE_SIZE) by done.
  assert (H : forall r n, linear_base m + PAGE_SIZE * r <= x < linear_base m + PAGE_SIZE * r + PAGE_SIZE * n -> r <= d / PAGE_SIZE < r + n).
  { intros r n Hr. split; [apply Z.div_le_lower_bound; lia|apply Z.div_lt_upper_bound; lia]. }
  apply (pa_owned_apart a p o p' o' (d / PAGE_SIZE)); try done; unfold in_blk; by apply H.
Qed.

Lemma obj_word_area st hd p b x d :
  slab_core st hd p b -> is_obj st p b x -> 0 <= d < kc_size (sl_cache st (sb_cache b)) -> in_area p (sb_order b) (x + d).
Proof.
  intros Hc (i & Hi & ->) Hd. destruct (sc_fits _ _ _ _ Hc) as [_ Hf]. unfold in_area, obj_at. nia.
Qed.

(** Different objects of a slab do not overlap. *)
Lemma objs_spaced st p b x y :
  0 < kc_size (sl_cache st (sb_cache b)) -> is_obj st p b x -> is_obj st p b y -> x <> y ->
  x + kc_size (sl_cache st (sb_cache b)) <= y \/ y + kc_size (sl_cache st (sb_cache b)) <= x.
Proof.
  intros Hs (i & Hi & ->) (j & Hj & ->) Hne. unfold obj_at in *.
  destruct (Z.lt_trichotomy i j) as [H|[->|H]]; [left; nia|done|right; nia].
Qed.

(** ** Changes to one slab *)

Record slab_frame st st' (p o : Z) : Prop := {
  sf_ok : pa_ok (sl_pages st');
  sf_owned : forall p' o', p' <> p -> pa_owned (sl_pages st) p' o' ->
     pa_owned (sl_pages st') p' o' /\ struct_page st' p' = struct_page st p';
  sf_freelist : forall p', p' <> p -> sl_freelist st' p' = sl_freelist st p';
  sf_mem : forall a, ~ in_area p o a -> sl_mem st' a = sl_mem st a;
  sf_config : forall s, same_config (sl_cache st s) (sl_cache st' s);
  sf_node : forall s nid, is_Some (get_node st s nid) -> is_Some (get_node st' s nid)
}.

Lemma config_size st st' p o s : slab_frame st st' p o -> kc_size (sl_cache st' s) = kc_size (sl_cache st s).
Proof. intros H. apply (sf_config _ _ _ _ H). Qed.

Lemma config_offset st st' p o s : slab_frame st st' p o -> kc_offset (sl_cache st' s) = kc_offset (sl_cache st s).
Proof. intros H. apply (sf_config _ _ _ _ H). Qed.

Lemma is_obj_frame st st' p o p' b x : slab_frame st st' p o -> is_obj st' p' b x <-> is_obj st p' b x.
Proof. intros H. unfold is_obj, obj_at. by rewrite (config_size _ _ _ _ _ H). Qed.

Lemma cache_ready_frame st st' p o s : slab_frame st st' p o -> cache_ready st s -> cache_ready st' s.
Proof.
  intros H (Hs & Hk & Hn). split_and!; [done|apply (same_config_ok (sl_cache st s)); [apply H|done]|].
  intros nid Hnid. by apply H, Hn.
Qed.

Lemma core_frame st st' hd hd' p o p' b :
  slab_frame st st' p o -> p' <> p -> slab_core st hd p' b -> cache_ok (sl_cache st (sb_cache b)) ->
  (forall a, in_area p' (sb_order b) a -> ~ in_area p o a) ->
  (forall cpu, sb_home b = OnCpu cpu -> hd' (sb_cache b) cpu = hd (sb_cache b) cpu) ->
  slab_core st' hd' p' b.
Proof.
  intros Hf Hne Hc Hk Hap Hhd. pose proof Hc as [Ho Hfl Hm Hfi Hob Hin Hfr Hch Hnd Hobj Hh].
  destruct (sf_owned _ _ _ _ Hf p' (sb_order b) Hne Ho) as [Ho' Hpg].
  assert (Hmem : forall x, x ∈ unused b ->
    sl_mem st' (x + kc_offset (sl_cache st (sb_cache b))) = sl_mem st (x + kc_offset (sl_cache st (sb_cache b)))).
  { intros x Hx. apply (sf_mem _ _ _ _ Hf), Hap, (obj_word_area st hd); [done|by apply Hobj|].
    destruct (co_offset _ Hk). unfold WORD in *. lia. }
  assert (Hcnt : counters st' p' = counters st p') by (unfold counters; by rewrite Hpg).
  split; rewrite ?Hpg, ?Hcnt, ?(config_size _ _ _ _ _ Hf), ?(config_offset _ _ _ _ _ Hf); try done.
  - rewrite (sf_freelist _ _ _ _ Hf) by done. apply (chain_frame (sl_mem st)); [|done].
    intros x Hx. apply Hmem. apply elem_of_app. by left.
  - intros x Hx. apply (is_obj_frame st st' p o p' b x Hf). by apply Hobj.
  - destruct (sb_home b) as [cpu| |] eqn:Eh; try done. rewrite Hhd by done.
    apply (chain_frame (sl_mem st)); [|done]. intros x Hx. apply Hmem. apply elem_of_app. by right.
Qed.

Definition slab_apart (S : gmap Z slab) (p o : Z) : Prop :=
  forall p' b a, p' <> p -> S !! p' = Some b -> in_area p' (sb_order b) a -> ~ in_area p o a.

Lemma rep_apart st hd S A p o :
  rep st hd S A -> pa_owned (sl_pages st) p o -> slab_apart S p o.
Proof.
  intros Hr Ho p' b a Hne Hb Ha Ha'. destruct (rp_slab _ _ _ _ Hr p' b Hb) as [Hc _].
  destruct (area_apart (sl_pages st) p' (sb_order b) p o a (rp_pages _ _ _ _ Hr) (sc_owned _ _ _ _ Hc) Ho Ha Ha'). done.
Qed.

Lemma rep_step st st' hd hd' S S' A A' p o :
  rep st hd S A -> slab_frame st st' p o -> slab_apart S p o ->
  (forall p', p' <> p -> S' !! p' = S !! p') ->
  (forall b, S' !! p = Some b -> slab_core st' hd' p b /\ cache_ready st' (sb_cache b)) ->
  (forall p' b cpu, p' <> p -> S !! p' = Some b -> sb_home b = OnCpu cpu -> hd' (sb_cache b) cpu = hd (sb_cache b) cpu) ->
  cpus_ok st' S' -> nodes_ok st' S' -> (forall s cpu, c_page (cpu_of st' s cpu) = None -> hd' s cpu = 0) ->
  live_ok st' S' A' -> rep st' hd' S' A'.
Proof.
  intros Hr Hf Hap HS Hp Hhd Hcpus Hnodes Hidle Hlive. split; try done; [apply Hf|].
  intros p' b Hb. destruct (decide (p' = p)) as [->|Hne]; [by apply Hp|]. rewrite HS in Hb by done.
  destruct (rp_slab _ _ _ _ Hr p' b Hb) as [Hc Hrd]. split; [|by apply (cache_ready_frame st st' p o)].
  apply (core_frame st st' hd hd' p o); try done; [apply Hrd|intros a; by apply (Hap p' b)|].
  intros cpu. by apply (Hhd p' b).
Qed.

(** ** Who lists a slab *)

Definition at_home (ob : option slab) (s : Z) (h : home) : Prop :=
  exists b, ob = Some b /\ sb_cache b = s /\ sb_home b = h.

Lemma cpus_step st st' S S' p :
  cpus_ok st S -> (forall p', p' <> p -> S' !! p' = S !! p') ->
  (forall s cpu p', p' <> p -> c_page (cpu_of st' s cpu) = Some p' <-> c_page (cpu_of st s cpu) = Some p') ->
  (forall s cpu, c_page (cpu_of st' s cpu) = Some p <-> at_home (S' !! p) s (OnCpu cpu)) ->
  cpus_ok st' S'.
Proof.
  intros H HS Ho Hp s cpu p'. destruct (decide (p' = p)) as [->|Hne]; [apply Hp|].
  rewrite Ho by done. rewrite HS by done. apply H.
Qed.

Lemma nodes_step st st' S S' p :
  nodes_ok st S -> (forall p', p' <> p -> S' !! p' = S !! p') ->
  (forall p' b, p' <> p -> S !! p' = Some b -> page_to_nid st' p' = page_to_nid st p') ->
  (forall s nid n', get_node st' s nid = Some n' -> exists n, get_node st s nid = Some n
     /\ (NoDup (partial n) -> NoDup (partial n'))
     /\ (nr_partial n = u64 (Z.of_nat (length (partial n))) -> nr_partial n' = u64 (Z.of_nat (length (partial n'))))
     /\ (forall p', p' <> p -> p' ∈ partial n' <-> p' ∈ partial n)
     /\ (p ∈ partial n' <-> at_home (S' !! p) s OnPartial /\ page_to_nid st' p = nid)) ->
  nodes_ok st' S'.
Proof.
  intros H HS Hnid Hn s nid n' Hn'. destruct (Hn s nid n' Hn') as (n & E & Hnd & Hnr & Ho & Hp).
  destruct (H s nid n E) as (Hnd0 & Hnr0 & Hin). split_and!; [auto|auto|]. intros p'.
  destruct (decide (p' = p)) as [->|Hne].
  - rewrite Hp. split; [intros [(b & ? & ? & ?) ?]|intros (b & ? & ? & ? & ?); split; [|done]]; by exists b.
  - rewrite Ho, Hin, HS by done. split; intros (b & Hb & ? & ? & E'); exists b; split_and!; try done.
    + by rewrite (Hnid p' b).
    + by rewrite <- (Hnid p' b).
Qed.

(** ** Live objects *)

Lemma obj_unique st hd S A p b p' b' x :
  rep st hd S A -> S !! p = Some b -> S !! p' = Some b' -> is_obj st p b x -> is_obj st p' b' x -> p = p'.
Proof.
  intros Hr Hb Hb' Hx Hx'. destruct (rp_slab _ _ _ _ Hr p b Hb) as [Hc (_ & Hk & _)].
  destruct (rp_slab _ _ _ _ Hr p' b' Hb') as [Hc' (_ & Hk' & _)].
  destruct (area_apart (sl_pages st) p (sb_order b) p' (sb_order b') (x + 0) (rp_pages _ _ _ _ Hr)); try done;
    [apply Hc|apply Hc'|apply (obj_word_area st hd); try done|apply (obj_word_area st hd); try done];
    [pose proof (co_size _ Hk)|pose proof (co_size _ Hk')]; lia.
Qed.

Definition same_shape (b b' : slab) : Prop :=
  sb_cache b' = sb_cache b /\ sb_order b' = sb_order b /\ sb_objs b' = sb_objs b.

Lemma is_obj_shape st p b b' x : same_shape b b' -> is_obj st p b' x <-> is_obj st p b x.
Proof. intros (E1 & E2 & E3). unfold is_obj. by rewrite E1, E3. Qed.

Definition live_in st (ob : option slab) (p x s : Z) : Prop :=
  exists b, ob = Some b /\ sb_cache b = s /\ is_obj st p b x /\ x ∉ unused b.

Lemma live_step st st' hd S S' A A' p o :
  rep st hd S A -> slab_frame st st' p o -> (forall p', p' <> p -> S' !! p' = S !! p') ->
  (forall x s, A' !! x = Some s <-> live_in st' (S' !! p) p x s \/ A !! x = Some s /\ ~ live_in st (S !! p) p x s) ->
  live_ok st' S' A'.
Proof.
  intros Hr Hf HS HA x s. rewrite HA, (rp_live _ _ _ _ Hr x s). split.
  - intros [(b & ?)|[(p' & b & Hb & ? & ? & ?) Hn]]; [by exists p, b|].
    assert (p' <> p) by (intros ->; apply Hn; by exists b).
    exists p', b. rewrite HS by done. split_and!; try done. by apply (is_obj_frame st st' p o p' b x Hf).
  - intros (p' & b & Hb & Hs & Hx & Hu). destruct (decide (p' = p)) as [->|Hne]; [left; by exists b|right].
    rewrite HS in Hb by done. apply (is_obj_frame st st' p o p' b x Hf) in Hx. split; [by exists p', b|].
    intros (b0 & Hb0 & _ & Hx0 & _). by destruct Hne; apply (obj_unique st hd S A p' b p b0 x).
Qed.

Lemma live_in_insert st st' (S : gmap Z slab) p o b b' x s :
  slab_frame st st' p o -> same_shape b b' ->
  live_in st' (<[p := b']> S !! p) p x s <-> sb_cache b = s /\ is_obj st p b x /\ x ∉ unused b'.
Proof.
  intros Hf Hsh. rewrite lookup_insert_eq. pose proof Hsh as (E & _).
  assert (Hi : is_obj st' p b' x <-> is_obj st p b x) by (by rewrite (is_obj_frame st st' p o p b' x Hf), (is_obj_shape st p b b' x Hsh)).
  unfold live_in. split.
  - intros (c & [= <-] & ? & ? & ?). rewrite <- E, <- Hi. done.
  - intros (? & ? & ?). exists b'. rewrite E, Hi. done.
Qed.

Lemma live_in_some st (S : gmap Z slab) p b x s : S !! p = Some b -> live_in st (S !! p) p x s <-> sb_cache b = s /\ is_obj st p b x /\ x ∉ unused b.
Proof. intros ->. unfold live_in. split; [by intros (c & [= <-] & ?)|intros ?; by exists b]. Qed.

(** Membership of an address in the live map, seen from one slab. *)
Lemma live_here st hd S A p b x s :
  rep st hd S A -> S !! p = Some b -> is_obj st p b x -> A !! x = Some s <-> sb_cache b = s /\ x ∉ unused b.
Proof.
  intros Hr Hb Hx. rewrite (rp_live _ _ _ _ Hr x s). split.
  - intros (p' & c & Hc & Hs & Hx' & Hu). assert (p' = p) as -> by (by apply (obj_unique st hd S A p' c p b x)).
    rewrite Hb in Hc. by injection Hc as <-.
  - intros [? ?]. by exists p, b.
Qed.

Lemma live_split st hd S A p b x s :
  rep st hd S A -> S !! p = Some b -> A !! x = Some s ->
  (sb_cache b = s /\ is_obj st p b x /\ x ∉ unused b) \/ ~ is_obj st p b x.
Proof.
  intros Hr Hb HA. destruct (proj1 (rp_live _ _ _ _ Hr x s) HA) as (p' & c & Hc & Hs & Ho & Hn).
  destruct (decide (p' = p)) as [->|Hnp].
  - rewrite Hb in Hc. injection Hc as <-. by left.
  - right. intros Ho'. by apply Hnp, (obj_unique st hd S A p' c p b x).
Qed.

Lemma live_same st st' hd S A p o b b' :
  rep st hd S A -> slab_frame st st' p o -> S !! p = Some b -> same_shape b b' ->
  (forall x, x ∈ unused b' <-> x ∈ unused b) -> live_ok st' (<[p := b']> S) A.
Proof.
  intros Hr Hf Hb Hsh Hu. apply (live_step st st' hd S _ A A p o Hr Hf); [intros; by rewrite lookup_insert_ne|].
  intros x s. rewrite (live_in_insert st st' S p o b b' x s Hf Hsh), (live_in_some st S p b x s Hb), Hu. split.
  - intros HA. destruct (live_split st hd S A p b x s Hr Hb HA); tauto.
  - intros [(Hs & Ho & Hn)|[? _]]; [|done]. by apply (live_here st hd S A p b x s Hr Hb Ho).
Qed.

Lemma live_alloc st st' hd S A p o b b' x :
  rep st hd S A -> slab_frame st st' p o -> S !! p = Some b -> same_shape b b' -> is_obj st p b x -> x ∈ unused b ->
  (forall y, y ∈ unused b' <-> y ∈ unused b /\ y <> x) -> live_ok st' (<[p := b']> S) (<[x := sb_cache b]> A).
Proof.
  intros Hr Hf Hb Hsh Hx Hxu Hu. apply (live_step st st' hd S _ A _ p o Hr Hf); [intros; by rewrite lookup_insert_ne|].
  intros y s. rewrite (live_in_insert st st' S p o b b' y s Hf Hsh), (live_in_some st S p b y s Hb), Hu.
  destruct (decide (y = x)) as [->|Hne].
  - rewrite lookup_insert_eq, (live_here st hd S A p b x s Hr Hb Hx). split; [intros [= ->]; left; tauto|].
    intros [(-> & _)|[[_ ?] _]]; done.
  - rewrite lookup_insert_ne by done. split.
    + intros HA. destruct (live_split st hd S A p b y s Hr Hb HA); tauto.
    + intros [(Hs & Ho & Hn)|[? _]]; [|done]. apply (live_here st hd S A p b y s Hr Hb Ho). tauto.
Qed.

Lemma live_free st st' hd S A p o b b' x :
  rep st hd S A -> slab_frame st st' p o -> S !! p = Some b -> same_shape b b' -> is_obj st p b x ->
  (forall y, y ∈ unused b' <-> y ∈ unused b \/ y = x) -> live_ok st' (<[p := b']> S) (delete x A).
Proof.
  intros Hr Hf Hb Hsh Hx Hu. apply (live_step st st' hd S _ A _ p o Hr Hf); [intros; by rewrite lookup_insert_ne|].
  intros y s. rewrite (live_in_insert st st' S p o b b' y s Hf Hsh), (live_in_some st S p b y s Hb), Hu.
  destruct (decide (y = x)) as [->|Hne].
  - rewrite lookup_delete_eq. split; [done|]. intros [(_ & _ & H)|[H1 H2]]; [tauto|].
    exfalso. apply H2. pose proof (proj1 (live_here st hd S A p b x s Hr Hb Hx) H1). tauto.
  - rewrite lookup_delete_ne by done. split.
    + intros HA. destruct (live_split st hd S A p b y s Hr Hb HA); tauto.
    + intros [(Hs & Ho & Hn)|[? _]]; [|done]. apply (live_here st hd S A p b y s Hr Hb Ho). tauto.
Qed.

Definition heads st (s cpu : Z) : Z := c_freelist (cpu_of st s cpu).

(** ** The contents of live objects *)

Lemma objs_apart st hd S A p b p' b' x y a :
  rep st hd S A -> S !! p = Some b -> S !! p' = Some b' -> is_obj st p b x -> is_obj st p' b' y ->
  x <= a < x + kc_size (sl_cache st (sb_cache b)) -> y <= a < y + kc_size (sl_cache st (sb_cache b')) -> x = y.
Proof.
  intros Hr Hb Hb' Hx Hy Ha Ha'. destruct (rp_slab _ _ _ _ Hr p b Hb) as [Hc _], (rp_slab _ _ _ _ Hr p' b' Hb') as [Hc' _].
  destruct (area_apart (sl_pages st) p (sb_order b) p' (sb_order b') a (rp_pages _ _ _ _ Hr)) as [<- _]; [apply Hc|apply Hc'| | |].
  - replace a with (x + (a - x)) by lia. apply (obj_word_area st hd p b x); [done|done|lia].
  - replace a with (y + (a - y)) by lia. apply (obj_word_area st hd p' b' y); [done|done|lia].
  - rewrite Hb in Hb'. injection Hb' as <-. destruct (Z.eq_dec x y) as [|Hne]; [done|].
    destruct (objs_spaced st p b x y ltac:(lia) Hx Hy Hne); lia.
Qed.

Definition contents_kept st st' (A : gmap Z Z) : Prop :=
  forall x s a, A !! x = Some s -> x <= a < x + kc_size (sl_cache st s) -> sl_mem st' a = sl_mem st a.

Lemma contents_refl st A : contents_kept st st A.
Proof. done. Qed.

Lemma contents_mem st st' A : sl_mem st' = sl_mem st -> contents_kept st st' A.
Proof. intros E x s a _ _. by rewrite E. Qed.

Lemma contents_trans st1 st2 st3 A :
  (forall s, kc_size (sl_cache st2 s) = kc_size (sl_cache st1 s)) ->
  contents_kept st1 st2 A -> contents_kept st2 st3 A -> contents_kept st1 st3 A.
Proof. intros Hs H1 H2 x s a HA Ha. rewrite (H2 x s a HA) by (by rewrite Hs). by apply (H1 x s). Qed.

(** The words of unused objects lie in no live object. *)
Lemma unused_word st hd S A p b x y s d :
  rep st hd S A -> S !! p = Some b -> x ∈ unused b -> A !! y = Some s -> 0 <= d < kc_size (sl_cache st (sb_cache b)) ->
  ~ y <= x + d < y + kc_size (sl_cache st s).
Proof.
  intros Hr Hb Hx HA Hd Ha. destruct (rp_slab _ _ _ _ Hr p b Hb) as [Hc _].
  destruct (proj1 (rp_live _ _ _ _ Hr y s) HA) as (p' & b' & Hb' & <- & Hy & Hn).
  assert (Hox : is_obj st p b x) by (by apply Hc).
  assert (x = y) as <- by (by apply (objs_apart st hd S A p b p' b' x y (x + d)); try done; lia).
  assert (p = p') as <- by (by apply (obj_unique st hd S A p b p' b' x)). congruence.
Qed.

(** A block without live objects may change. *)
Lemma contents_frame st st' hd S A p o :
  rep st hd S A -> pa_owned (sl_pages st) p o -> S !! p = None -> slab_frame st st' p o -> contents_kept st st' A.
Proof.
  intros Hr Ho Hn Hf y s a HA Ha. destruct (proj1 (rp_live _ _ _ _ Hr y s) HA) as (p' & b' & Hb' & <- & Hy & _).
  destruct (rp_slab _ _ _ _ Hr p' b' Hb') as [Hc' _]. apply Hf.
  apply (rep_apart st hd S A p o Hr Ho p' b'); [congruence|done|].
  replace a with (y + (a - y)) by lia. apply (obj_word_area st hd p' b' y); [done|done|lia].
Qed.

(** Live objects may change. *)
Lemma rep_client st mem hd S A :
  rep st hd S A ->
  (forall a, mem a <> sl_mem st a -> exists x s, A !! x = Some s /\ x <= a < x + kc_size (sl_cache st s)) ->
  rep (mk_slub (sl_pages st) mem (sl_freelist st) (sl_cache st)) hd S A.
Proof.
  intros Hr Hw. split; try apply Hr. intros p b Hb. destruct (rp_slab _ _ _ _ Hr p b Hb) as [Hc Hrd]. split; [|done].
  assert (Hm : forall x, x ∈ unused b -> mem (x + kc_offset (sl_cache st (sb_cache b))) = sl_mem st (x + kc_offset (sl_cache st (sb_cache b)))).
  { intros x Hx. destruct (Z.eq_dec (mem (x + kc_offset (sl_cache st (sb_cache b)))) (sl_mem st (x + kc_offset (sl_cache st (sb_cache b)))))
      as [|Hne]; [done|]. destruct (Hw _ Hne) as (y & s & HA & Ha). exfalso. revert Ha.
    destruct Hrd as (_ & Hk & _). destruct (co_offset _ Hk). unfold WORD in *. apply (unused_word st hd S A p b); try done. lia. }
  destruct Hc. split; try done.
  - apply (chain_frame (sl_mem st)); [|done]. intros x Hx. apply Hm, elem_of_app. by left.
  - destruct (sb_home b); try done. apply (chain_frame (sl_mem st)); [|done]. intros x Hx. apply Hm, elem_of_app. by right.
Qed.

Lemma rep_hd st hd hd' S A : rep st hd S A -> (forall s cpu, hd' s cpu = hd s cpu) -> rep st hd' S A.
Proof.
  intros Hr He. split; try apply Hr.
  - intros p b Hb. destruct (rp_slab _ _ _ _ Hr p b Hb) as [[] Hrd]. split; [|done]. split; try done. by destruct (sb_home b); rewrite ?He.
  - intros s cpu Hn. rewrite He. by apply (rp_idle _ _ _ _ Hr).
Qed.

(** The abstraction of a state between calls. *)
Definition slub_rep st (A : gmap Z Z) : Prop := exists S, rep st (heads st) S A.
End Inv.

(** * The slab allocator: primitive state changes

    What each elementary write leaves alone ([slab_frame]) and what it makes
    of the fields it touches. *)

(** A head that is held in a local variable. *)
Definition hd_at (h : Z -> Z -> Z) (s cpu v : Z) (s' cpu' : Z) : Z :=
  if decide (s' = s /\ cpu' = cpu) then v else h s' cpu'.

Lemma hd_at_eq h s cpu v : hd_at h s cpu v s cpu = v.
Proof. unfold hd_at. by rewrite decide_True. Qed.

Lemma hd_at_ne h s cpu v s' cpu' : ~ (s' = s /\ cpu' = cpu) -> hd_at h s cpu v s' cpu' = h s' cpu'.
Proof. intros. unfold hd_at. by rewrite decide_False. Qed.

Section Moves.
Context {St : Type} {PA : PageAllocator St} {PL : PageAllocatorLaws St} (m : layout).
Context (Hlay : layout_ok m pa_lo pa_hi).
Implicit Types st : slub St.
#[local] Abbreviation slab_frame := (slab_frame m).
#[local] Abbreviation rep := (rep m).
#[local] Abbreviation slab_core := (slab_core m).
#[local] Abbreviation is_obj := (is_obj m).

(** ** Reading what was written *)

Lemma cpu_set_cpu st s cpu c s' cpu' :
  cpu_of (set_cpu st s cpu c) s' cpu' = if decide (s' = s /\ cpu' = cpu) then c else cpu_of st s' cpu'.
Proof.
  unfold cpu_of, set_cpu, upd_cache. cbn. case_decide as E.
  - destruct E as [-> ->]. rewrite fn_lookup_insert. cbn. by rewrite fn_lookup_insert.
  - destruct (decide (s' = s)) as [->|]; [|by rewrite fn_lookup_insert_ne].
    rewrite fn_lookup_insert. cbn. rewrite fn_lookup_insert_ne; [done|]. intros ->. tauto.
Qed.

Lemma cpu_set_node st s nid n s' cpu : cpu_of (set_node st s nid n) s' cpu = cpu_of st s' cpu.
Proof.
  unfold cpu_of, set_node, upd_cache. cbn. destruct (decide (s' = s)) as [->|];
    [by rewrite fn_lookup_insert|by rewrite fn_lookup_insert_ne].
Qed.

Lemma node_set_node st s nid n s' nid' :
  get_node (set_node st s nid n) s' nid' = if decide (s' = s /\ nid' = nid) then Some n else get_node st s' nid'.
Proof.
  unfold get_node, set_node, upd_cache. cbn. case_decide as E.
  - destruct E as [-> ->]. rewrite fn_lookup_insert. cbn. by rewrite fn_lookup_insert.
  - destruct (decide (s' = s)) as [->|]; [|by rewrite fn_lookup_insert_ne].
    rewrite fn_lookup_insert. cbn. rewrite fn_lookup_insert_ne; [done|]. intros ->. tauto.
Qed.

Lemma node_set_cpu st s cpu c s' nid : get_node (set_cpu st s cpu c) s' nid = get_node st s' nid.
Proof.
  unfold get_node, set_cpu, upd_cache. cbn. destruct (decide (s' = s)) as [->|];
    [by rewrite fn_lookup_insert|by rewrite fn_lookup_insert_ne].
Qed.

Lemma config_set_cpu st s cpu c s' : same_config (sl_cache st s') (sl_cache (set_cpu st s cpu c) s').
Proof.
  unfold set_cpu, upd_cache. cbn. destruct (decide (s' = s)) as [->|];
    [by rewrite fn_lookup_insert|by rewrite fn_lookup_insert_ne].
Qed.

Lemma config_set_node st s nid n s' : same_config (sl_cache st s') (sl_cache (set_node st s nid n) s').
Proof.
  unfold set_node, upd_cache. cbn. destruct (decide (s' = s)) as [->|];
    [by rewrite fn_lookup_insert|by rewrite fn_lookup_insert_ne].
Qed.

(** ** Frames *)

(** Nothing but the lists of CPUs and nodes and what belongs to other pages. *)
Definition config_kept st st' : Prop :=
  (forall s, same_config (sl_cache st s) (sl_cache st' s))
  /\ (forall s nid, is_Some (get_node st s nid) -> is_Some (get_node st' s nid)).

Lemma config_kept_trans st1 st2 st3 : config_kept st1 st2 -> config_kept st2 st3 -> config_kept st1 st3.
Proof. intros [A1 B1] [A2 B2]. split; [intros s; by eapply same_config_trans|auto]. Qed.

Lemma config_kept_refl st : config_kept st st.
Proof. split; [intros; apply same_config_refl|done]. Qed.

Lemma config_ready st st' s : config_kept st st' -> cache_ready st s -> cache_ready st' s.
Proof.
  intros [A B] (Hs & Hk & Hn). split_and!; [done|by apply (same_config_ok (sl_cache st s))|auto].
Qed.

Lemma frame_config st st' p o : slab_frame st st' p o -> config_kept st st'.
Proof. intros H. split; apply H. Qed.

Lemma frame_refl st p o : pa_ok (sl_pages st) -> slab_frame st st p o.
Proof. intros H. split; try done. Qed.

Lemma frame_trans st1 st2 st3 p o : slab_frame st1 st2 p o -> slab_frame st2 st3 p o -> slab_frame st1 st3 p o.
Proof.
  intros [A1 B1 C1 D1 E1 F1] [A2 B2 C2 D2 E2 F2]. split; try done.
  - intros p' o' Hne Ho. destruct (B1 p' o' Hne Ho) as [Ho1 E]. destruct (B2 p' o' Hne Ho1) as [Ho2 ->]. done.
  - intros p' Hne. by rewrite C2, C1.
  - intros a Ha. by rewrite D2, D1.
  - intros s. by eapply same_config_trans.
  - auto.
Qed.

Lemma frame_word st p o a v : pa_ok (sl_pages st) -> in_area m p o a -> slab_frame st (set_word st a v) p o.
Proof.
  intros H Ha. split; try done. intros a' Ha'. cbn. rewrite fn_lookup_insert_ne; [done|]. by intros <-.
Qed.

Lemma frame_freelist st p o v : pa_ok (sl_pages st) -> slab_frame st (set_page_freelist st p v) p o.
Proof. intros H. split; try done. intros p' Hne. cbn. by rewrite fn_lookup_insert_ne. Qed.

Lemma page_upd_struct st p f q : struct_page (upd_struct st p f) q = if decide (q = p) then f (struct_page st q) else struct_page st q.
Proof. apply pa_page_upd. Qed.

Lemma frame_struct st p o f :
  pa_ok (sl_pages st) -> pa_owned (sl_pages st) p o -> owner_write f -> slab_frame st (upd_struct st p f) p o.
Proof.
  intros H Ho Hf. destruct (pa_upd_spec (sl_pages st) p o f H Ho Hf) as [H1 H2]. split; try done.
  intros p' o' Hne Ho'. split; [by apply H2|]. by rewrite page_upd_struct, decide_False.
Qed.

Lemma owned_struct st p o f p' o' :
  pa_ok (sl_pages st) -> pa_owned (sl_pages st) p o -> owner_write f ->
  pa_owned (sl_pages st) p' o' -> pa_owned (sl_pages (upd_struct st p f)) p' o'.
Proof. intros H Ho Hf. by apply (pa_upd_spec (sl_pages st) p o f H Ho Hf). Qed.

Lemma frame_set_cpu st p o s cpu c : pa_ok (sl_pages st) -> slab_frame st (set_cpu st s cpu c) p o.
Proof.
  intros H. split; try done; [apply config_set_cpu|]. intros s' nid. by rewrite node_set_cpu.
Qed.

Lemma frame_set_node st p o s nid n : pa_ok (sl_pages st) -> slab_frame st (set_node st s nid n) p o.
Proof.
  intros H. split; try done; [apply config_set_node|]. intros s' nid'. rewrite node_set_node. by case_decide.
Qed.

(** Writes of the owner. *)
Lemma write_private v : owner_write (set_private v).
Proof. by intros g. Qed.

Lemma write_mapping v : owner_write (set_mapping v).
Proof. by intros g. Qed.

Lemma ldiff_lor_bit f b : Z.land (Z.lnot SLAB_BITS) b = 0 -> Z.ldiff (Z.lor f b) SLAB_BITS = Z.ldiff f SLAB_BITS.
Proof.
  intros H. apply Z.bits_inj'. intros n Hn. rewrite !Z.ldiff_spec, Z.lor_spec.
  assert (E : Z.testbit (Z.land (Z.lnot SLAB_BITS) b) n = false) by (by rewrite H, Z.bits_0).
  rewrite Z.land_spec, Z.lnot_spec in E by done. destruct (Z.testbit SLAB_BITS n); cbn in *; [by rewrite !andb_false_r|].
  by rewrite E, orb_false_r.
Qed.

Lemma ldiff_ldiff_bit f b : Z.land (Z.lnot SLAB_BITS) b = 0 -> Z.ldiff (Z.ldiff f b) SLAB_BITS = Z.ldiff f SLAB_BITS.
Proof.
  intros H. apply Z.bits_inj'. intros n Hn. rewrite !Z.ldiff_spec.
  assert (E : Z.testbit (Z.land (Z.lnot SLAB_BITS) b) n = false) by (by rewrite H, Z.bits_0).
  rewrite Z.land_spec, Z.lnot_spec in E by done. destruct (Z.testbit SLAB_BITS n); cbn in *; [by rewrite !andb_false_r|].
  by rewrite E, andb_true_r.
Qed.

Lemma write_set_flag b : Z.land (Z.lnot SLAB_BITS) b = 0 -> owner_write (fun g => set_flags (Z.lor (pg_flags g) b) g).
Proof. intros H g. split_and!; try done. by apply ldiff_lor_bit. Qed.

Lemma write_clear_flag b : Z.land (Z.lnot SLAB_BITS) b = 0 -> owner_write (fun g => set_flags (Z.ldiff (pg_flags g) b) g).
Proof. intros H g. split_and!; try done. by apply ldiff_ldiff_bit. Qed.

(** ** The compare and exchange of a slab's list and counters *)

Definition exchanged st (p fl ctr : Z) : slub St := set_counters (set_page_freelist st p fl) p ctr.

Lemma exchange_run st p fl ctr fl' ctr' :
  sl_freelist st p = fl -> counters st p = ctr -> exchange st p fl ctr fl' ctr' = Ret (exchanged st p fl' ctr').
Proof. intros <- <-. unfold exchange, __cmpxchg_double_slab. by rewrite !Z.eqb_refl. Qed.

Lemma exchanged_frame st p o fl ctr :
  pa_ok (sl_pages st) -> pa_owned (sl_pages st) p o -> slab_frame st (exchanged st p fl ctr) p o.
Proof.
  intros H Ho. apply frame_trans with (set_page_freelist st p fl); [by apply frame_freelist|].
  by apply frame_struct.
Qed.

Lemma exchanged_owned st p o fl ctr :
  pa_ok (sl_pages st) -> pa_owned (sl_pages st) p o -> pa_owned (sl_pages (exchanged st p fl ctr)) p o.
Proof. intros H Ho. by apply (owned_struct (set_page_freelist st p fl) p o). Qed.

Lemma exchanged_page st p fl ctr q :
  struct_page (exchanged st p fl ctr) q = if decide (q = p) then set_private ctr (struct_page st q) else struct_page st q.
Proof. apply (page_upd_struct (set_page_freelist st p fl)). Qed.

Lemma exchanged_counters st p fl ctr : counters (exchanged st p fl ctr) p = ctr.
Proof. unfold counters. by rewrite exchanged_page, decide_True. Qed.

Lemma exchanged_freelist st p fl ctr : sl_freelist (exchanged st p fl ctr) p = fl.
Proof. cbn. by rewrite fn_lookup_insert. Qed.

Lemma exchanged_nid st p fl ctr q : page_to_nid (exchanged st p fl ctr) q = page_to_nid st q.
Proof. unfold page_to_nid. rewrite exchanged_page. by case_decide. Qed.

End Moves.
