(* ===== verification/SlubLists.v ===== *)
(** * The slab allocator: rebuilding the invariant

    The parts of the invariant a change to one slab touches, the lists of CPUs
    and nodes, and the hand-out of the first object of a CPU's list. *)

From S2P Require Import Prelude Bitops Memblock Buddy BuddyInv PageOwner Slub SlubInv.
From stdpp Require Import base list numbers option functions gmap.
#[local] Open Scope Z_scope.
#[local] Open Scope kernel_scope.

Section Lists.
Context {St : Type} {PA : PageAllocator St} {PL : PageAllocatorLaws St} (m : layout).
Context (Hlay : layout_ok m pa_lo pa_hi).
Implicit Types st : slub St.
#[local] Abbreviation slab_frame := (slab_frame m).
#[local] Abbreviation rep := (rep m).
#[local] Abbreviation slab_core := (slab_core m).
#[local] Abbreviation is_obj := (is_obj m).
#[local] Abbreviation live_ok := (live_ok m).

(** The slab of a CPU. *)
Lemma cpu_slab_at st hd S A s cpu p :
  rep st hd S A -> c_page (cpu_of st s cpu) = Some p ->
  exists b, S !! p = Some b /\ sb_cache b = s /\ sb_home b = OnCpu cpu /\ slab_core st hd p b /\ cache_ready st s.
Proof.
  intros Hr Hp. destruct (proj1 (rp_cpus _ _ _ _ _ Hr s cpu p) Hp) as (b & Hb & Hs & Hh).
  destruct (rp_slab _ _ _ _ _ Hr p b Hb) as [Hc Hrd]. exists b. rewrite Hs in Hrd. done.
Qed.

(** Two CPUs never share a slab. *)
Lemma cpu_slab_unique st hd S A s cpu s' cpu' p :
  rep st hd S A -> c_page (cpu_of st s cpu) = Some p -> c_page (cpu_of st s' cpu') = Some p -> s = s' /\ cpu = cpu'.
Proof.
  intros Hr H1 H2. apply (rp_cpus _ _ _ _ _ Hr) in H1 as (b & Hb & ? & Hh). apply (rp_cpus _ _ _ _ _ Hr) in H2 as (b' & Hb' & ? & Hh').
  rewrite Hb in Hb'. injection Hb' as <-. rewrite Hh in Hh'. injection Hh' as <-. split; congruence.
Qed.

Lemma other_head st S p s cpu p' b cpu' (h : Z -> Z -> Z) v :
  cpus_ok st S -> c_page (cpu_of st s cpu) = Some p -> p' <> p -> S !! p' = Some b -> sb_home b = OnCpu cpu' ->
  hd_at h s cpu v (sb_cache b) cpu' = h (sb_cache b) cpu'.
Proof.
  intros Hc Hp Hne Hb Hh. apply hd_at_ne. intros [E ->]. apply Hne.
  assert (Hp' : c_page (cpu_of st s cpu) = Some p') by (apply Hc; by exists b). congruence.
Qed.

(** ** Handing out the first object of a CPU's list *)

Definition set_lists (b : slab) (free cpu : list Z) (h : home) : slab :=
  mk_slab (sb_cache b) (sb_order b) (sb_objs b) free cpu h.

Lemma set_lists_shape b free cpu h : same_shape b (set_lists b free cpu h).
Proof. done. Qed.

(** No CPU takes or leaves a slab. *)
Lemma cpus_same st st' S p b b' :
  cpus_ok st S -> S !! p = Some b -> same_shape b b' -> (forall cpu, sb_home b' = OnCpu cpu <-> sb_home b = OnCpu cpu) ->
  (forall s cpu, c_page (cpu_of st' s cpu) = c_page (cpu_of st s cpu)) -> cpus_ok st' (<[p := b']> S).
Proof.
  intros H Hb (Es & _ & _) Eh Hpg. apply (cpus_step st _ S _ p H).
  - intros p' Hne. by rewrite lookup_insert_ne.
  - intros s' cpu' p' _. by rewrite Hpg.
  - intros s' cpu'. rewrite Hpg, (H s' cpu' p), lookup_insert_eq. unfold at_home. rewrite Hb. split.
    + intros (b0 & [= <-] & ? & ?). exists b'. split_and!; [done|congruence|by apply Eh].
    + intros (b0 & [= <-] & ? & ?). exists b. split_and!; [done|congruence|by apply Eh].
Qed.

Lemma cpus_keep st S p b b' s cpu c :
  cpus_ok st S -> S !! p = Some b -> same_shape b b' -> sb_home b' = sb_home b ->
  c_page (cpu_of st s cpu) = c_page c -> cpus_ok (set_cpu st s cpu c) (<[p := b']> S).
Proof.
  intros H Hb Hsh Eh Hp. apply (cpus_same st _ S p b b'); try done; [by rewrite Eh|].
  intros s' cpu'. rewrite cpu_set_cpu. case_decide as E; [|done]. by destruct E as [-> ->].
Qed.

(** Node lists that nobody touches. *)
Lemma nodes_keep st st' S p b b' :
  nodes_ok st S -> S !! p = Some b -> same_shape b b' ->
  (sb_home b' = OnPartial <-> sb_home b = OnPartial) ->
  (forall s nid, get_node st' s nid = get_node st s nid) ->
  (forall p' c, <[p := b']> S !! p' = Some c -> page_to_nid st' p' = page_to_nid st p') ->
  nodes_ok st' (<[p := b']> S).
Proof.
  intros H Hb (Es & _ & _) Eh Hn Hnid. apply (nodes_step st st' S _ p H).
  - intros p' Hne. by rewrite lookup_insert_ne.
  - intros p' c Hne Hc. apply (Hnid p' c). by rewrite lookup_insert_ne.
  - intros s nid n Hget. rewrite Hn in Hget. exists n. split_and!; try done.
    destruct (H s nid n Hget) as (_ & _ & Hin). rewrite (Hin p), lookup_insert_eq, (Hnid p b') by apply lookup_insert_eq.
    unfold at_home. split.
    + intros (b0 & Hb0 & ? & ? & ?). rewrite Hb in Hb0. injection Hb0 as <-. split; [|done]. exists b'.
      split_and!; [done|congruence|by apply Eh].
    + intros [(b0 & [= <-] & ? & ?) ?]. exists b. split_and!; [done|congruence|by apply Eh|done].
Qed.

Lemma rep_insert st st' hd hd' S A A' p b b' :
  rep st hd S A -> S !! p = Some b -> slab_frame st st' p (sb_order b) -> same_shape b b' -> slab_core st' hd' p b' ->
  (forall p' c cpu, p' <> p -> S !! p' = Some c -> sb_home c = OnCpu cpu -> hd' (sb_cache c) cpu = hd (sb_cache c) cpu) ->
  cpus_ok st' (<[p := b']> S) -> nodes_ok st' (<[p := b']> S) ->
  (forall s cpu, c_page (cpu_of st' s cpu) = None -> hd' s cpu = 0) ->
  live_ok st' (<[p := b']> S) A' -> rep st' hd' (<[p := b']> S) A'.
Proof.
  intros Hr Hb Hf Hsh Hc Hhd Hcpus Hnodes Hidle Hlive. destruct (rp_slab _ _ _ _ _ Hr p b Hb) as [Hc0 Hrd].
  apply (rep_step m st st' hd hd' S _ A _ p (sb_order b) Hr Hf); try done.
  - apply (rep_apart m Hlay st hd S A p (sb_order b) Hr), Hc0.
  - intros p' Hne. by rewrite lookup_insert_ne.
  - intros c. rewrite lookup_insert_eq. intros [= <-]. split; [done|]. destruct Hsh as (-> & _).
    by apply (cache_ready_frame m st st' p (sb_order b)).
Qed.

Lemma load_freelist_spec st S A s cpu p fl :
  rep st (hd_at (heads st) s cpu fl) S A -> c_page (cpu_of st s cpu) = Some p -> fl <> 0 ->
  exists st' S', load_freelist st s cpu fl = Ret (st', fl) /\ A !! fl = None
    /\ rep st' (heads st') S' (<[fl := s]> A) /\ config_kept st st' /\ sl_mem st' = sl_mem st.
Proof.
  intros Hr Hp Hfl. destruct (cpu_slab_at _ _ _ _ s cpu p Hr Hp) as (b & Hb & Hs & Hh & Hc & Hrd).
  pose proof Hc as [Ho Hflg Hm Hfi Hob Hin Hfr Hch Hnd Hobj Hhm]. rewrite Hh, Hs, hd_at_eq in Hhm.
  apply chain_nonzero in Hhm as (l & El & Hl); [|done].
  unfold load_freelist. rewrite Hp, Hfr, Hh. cbn [Z.eqb VM_BUG_ON obind].
  set (c := mk_cpu _ _ _). set (b' := set_lists b (sb_free b) l (sb_home b)).
  assert (Hf : slab_frame st (set_cpu st s cpu c) p (sb_order b)) by (apply frame_set_cpu, Hr).
  assert (Hu : unused b ≡ₚ fl :: unused b').
  { unfold unused, b'. cbn. rewrite El. symmetry. apply Permutation_middle. }
  assert (Hnd' : NoDup (fl :: unused b')) by (by rewrite <- Hu). apply list.NoDup_cons in Hnd' as [Hnin Hnd'].
  assert (Hinb : forall y, y ∈ unused b <-> y = fl \/ y ∈ unused b') by (intros y; by rewrite Hu, elem_of_cons).
  assert (Hobf : is_obj st p b fl) by (apply Hobj, Hinb; by left).
  exists (set_cpu st s cpu c), (<[p := b']> S). split; [done|]. split_and!.
  - destruct (A !! fl) as [s'|] eqn:EA; [|done]. exfalso.
    apply (live_here m Hlay _ _ _ _ p b fl s' Hr Hb Hobf) in EA as [_ EA]. apply EA, Hinb. by left.
  - apply (rep_insert st _ (hd_at (heads st) s cpu fl) _ S A _ p b b' Hr Hb Hf); try done.
    + split; try done.
      * by rewrite (config_size m _ _ _ _ _ Hf).
      * by rewrite (config_offset m _ _ _ _ _ Hf).
      * intros x Hx. apply (is_obj_frame m st _ p (sb_order b) p b' x Hf). apply (is_obj_shape m st p b b' x); [done|].
        apply Hobj, Hinb. by right.
      * change (sb_home b') with (sb_home b). rewrite Hh, (config_offset m _ _ _ _ _ Hf). change (sb_cache b') with (sb_cache b).
        rewrite Hs. unfold heads. rewrite cpu_set_cpu, decide_True by done. exact Hl.
    + intros p' b0 cpu' Hne Hb0 Hh0. rewrite (other_head st S p s cpu p' b0 cpu' (heads st) fl); try done; [|apply Hr].
      unfold heads. rewrite cpu_set_cpu. case_decide as E; [|done]. destruct E as [E ->].
      destruct Hne. assert (Hp' : c_page (cpu_of st s cpu) = Some p') by (apply Hr; by exists b0). congruence.
    + by apply (cpus_keep st S p b b'); [apply Hr| | | |].
    + apply (nodes_keep st _ S p b b'); try done; [apply Hr|]. intros s' nid. apply node_set_cpu.
    + intros s' cpu'. unfold heads. rewrite !cpu_set_cpu. case_decide as E; [done|].
      intros Hn. pose proof (rp_idle _ _ _ _ _ Hr s' cpu' Hn) as Hi. by rewrite hd_at_ne in Hi.
    + replace (<[fl := s]> A) with (<[fl := sb_cache b]> A) by (by rewrite Hs).
      apply (live_alloc m Hlay st _ _ S A p (sb_order b) b b' fl Hr Hf Hb); try done; [apply Hinb; by left|].
      intros y. rewrite Hinb. split; [|tauto]. intros Hy. split; [by right|]. by intros ->.
  - apply (frame_config m st _ p (sb_order b) Hf).
  - done.
Qed.

(** ** Rebuilding a slab's part of the invariant *)

(** What the struct page of slab [p] must say for [f] on its list and home [h]. *)
Record slab_regs st (p : Z) (b : slab) (f : list Z) (h : home) : Prop := {
  sr_owned : pa_owned (sl_pages st) p (sb_order b);
  sr_flag : PageSlab (struct_page st p) = true;
  sr_mapping : pg_mapping (struct_page st p) = sb_cache b;
  sr_objects : ct_objects (counters st p) = sb_objs b;
  sr_inuse : ct_inuse (counters st p) = sb_objs b - Z.of_nat (length f);
  sr_frozen : ct_frozen (counters st p) = match h with OnCpu _ => 1 | _ => 0 end
}.

Lemma core_regs st hd p b : slab_core st hd p b -> slab_regs st p b (sb_free b) (sb_home b).
Proof. by intros []. Qed.

Lemma regs_exchanged st p b f h fl ctr f' h' :
  pa_ok (sl_pages st) -> slab_regs st p b f h ->
  ct_objects ctr = sb_objs b -> ct_inuse ctr = sb_objs b - Z.of_nat (length f') ->
  ct_frozen ctr = match h' with OnCpu _ => 1 | _ => 0 end ->
  slab_regs (exchanged st p fl ctr) p b f' h'.
Proof.
  intros Hok [Ho Hf Hm _ _ _] H1 H2 H3. split; rewrite ?exchanged_counters; try done.
  - by apply exchanged_owned.
  - by rewrite exchanged_page, decide_True.
  - by rewrite exchanged_page, decide_True.
Qed.

Lemma core_set st st' hd hd' p b f c h :
  slab_core st hd p b -> slab_frame st st' p (sb_order b) -> slab_regs st' p b f h ->
  NoDup (f ++ c) -> (forall x, x ∈ f ++ c -> is_obj st p b x) ->
  chain (sl_mem st') (kc_offset (sl_cache st (sb_cache b))) (sl_freelist st' p) f ->
  match h with
  | OnCpu cpu => chain (sl_mem st') (kc_offset (sl_cache st (sb_cache b))) (hd' (sb_cache b) cpu) c
  | OnPartial => c = [] /\ f <> []
  | Nowhere => c = [] /\ f = []
  end -> slab_core st' hd' p (set_lists b f c h).
Proof.
  intros Hc Hf [Ho Hfl Hm Hob Hin Hfr] Hnd Hobj Hch Hh. split; try done.
  - rewrite (config_size m _ _ _ _ _ Hf). apply Hc.
  - by rewrite (config_offset m _ _ _ _ _ Hf).
  - intros x Hx. apply (is_obj_frame m st st' p (sb_order b) p _ x Hf).
    apply (is_obj_shape m st p b _ x (set_lists_shape b f c h)). by apply Hobj.
  - cbn [sb_home set_lists]. rewrite (config_offset m _ _ _ _ _ Hf). by destruct h.
Qed.

(** ** Who lists the slab, when that changes *)

Lemma cpus_leave st st' S S' p s cpu :
  cpus_ok st S -> (forall p', p' <> p -> S' !! p' = S !! p') -> c_page (cpu_of st s cpu) = Some p ->
  (forall s' cpu', ~ at_home (S' !! p) s' (OnCpu cpu')) ->
  (forall s' cpu', c_page (cpu_of st' s' cpu') = if decide (s' = s /\ cpu' = cpu) then None else c_page (cpu_of st s' cpu')) ->
  cpus_ok st' S'.
Proof.
  intros H HS Hp Hno Hpg. apply (cpus_step st st' S S' p H HS).
  - intros s' cpu' p' Hne. rewrite Hpg. case_decide as E; [|done]. destruct E as [-> ->]. rewrite Hp. split; [done|congruence].
  - intros s' cpu'. split; [|intros Ha; by destruct (Hno s' cpu')]. rewrite Hpg. case_decide as E; [done|].
    intros Hp'. exfalso. apply E. apply (H s cpu p) in Hp as (b & Hb & <- & Hh). apply (H s' cpu' p) in Hp' as (b' & Hb' & <- & Hh').
    rewrite Hb in Hb'. injection Hb' as <-. split; congruence.
Qed.

Lemma cpus_enter st st' S p b s cpu :
  cpus_ok st S -> c_page (cpu_of st s cpu) = None -> (forall s' cpu', ~ at_home (S !! p) s' (OnCpu cpu')) ->
  sb_cache b = s -> sb_home b = OnCpu cpu ->
  (forall s' cpu', c_page (cpu_of st' s' cpu') = if decide (s' = s /\ cpu' = cpu) then Some p else c_page (cpu_of st s' cpu')) ->
  cpus_ok st' (<[p := b]> S).
Proof.
  intros H Hn Hno Hs Hh Hpg. apply (cpus_step st st' S _ p H).
  - intros p' Hne. by rewrite lookup_insert_ne.
  - intros s' cpu' p' Hne. rewrite Hpg. case_decide as E; [|done]. destruct E as [-> ->]. rewrite Hn. split; congruence.
  - intros s' cpu'. rewrite Hpg, lookup_insert_eq. unfold at_home. case_decide as E.
    + destruct E as [-> ->]. split; [|done]. intros _. by exists b.
    + split; [|intros (b0 & [= <-] & ? & ?); exfalso; apply E; split; congruence].
      intros Hp. destruct (Hno s' cpu'). by apply H in Hp.
Qed.

Lemma nodes_add st st' S p b b' s nid n tail :
  nodes_ok st S -> S !! p = Some b -> sb_home b <> OnPartial -> sb_cache b' = s -> sb_home b' = OnPartial ->
  page_to_nid st p = nid -> get_node st s nid = Some n ->
  (forall p', page_to_nid st' p' = page_to_nid st p') ->
  (forall s' nid', get_node st' s' nid' = if decide (s' = s /\ nid' = nid) then Some (add_partial n p tail) else get_node st s' nid') ->
  nodes_ok st' (<[p := b']> S).
Proof.
  intros H Hb Hnp Hs Hh Hpn Hn Hnid Hget. apply (nodes_step st st' S _ p H).
  { intros p' Hne. by rewrite lookup_insert_ne. }
  { intros; apply Hnid. }
  intros s' nid' n' Hn'. rewrite Hget in Hn'.
  assert (Hnotin : forall s0 nid0 n0, get_node st s0 nid0 = Some n0 -> p ∉ partial n0).
  { intros s0 nid0 n0 Hn0 Hin. destruct (H s0 nid0 n0 Hn0) as (_ & _ & Hiff). apply Hiff in Hin as (b0 & Hb0 & _ & Hh0 & _). congruence. }
  rewrite Hnid, lookup_insert_eq. case_decide as E.
  - destruct E as [-> ->]. injection Hn' as <-. exists n.
    assert (Hperm : partial (add_partial n p tail) ≡ₚ p :: partial n).
    { cbn. destruct tail; [|done]. rewrite (Permutation_app_comm _ [p]). done. }
    split_and!; try done.
    + intros Hnd. rewrite Hperm. apply list.NoDup_cons. split; [by apply (Hnotin s nid)|done].
    + intros Hnr. rewrite (Permutation_length Hperm). cbn [add_partial nr_partial length]. rewrite Hnr, u64_add_l. f_equal. lia.
    + intros p' Hne. rewrite Hperm, elem_of_cons. tauto.
    + rewrite Hperm. split; [|left]. intros _. split; [by exists b'|done].
  - exists n'. split_and!; try done. split; [intros Hin; by destruct (Hnotin s' nid' n')|].
    intros [(b0 & [= <-] & ? & _) ?]. destruct E. split; congruence.
Qed.

Lemma nodes_remove st st' S S' p b s nid n :
  nodes_ok st S -> S !! p = Some b -> (forall p', p' <> p -> S' !! p' = S !! p') ->
  sb_cache b = s -> sb_home b = OnPartial -> page_to_nid st p = nid -> (forall s', ~ at_home (S' !! p) s' OnPartial) ->
  get_node st s nid = Some n ->
  (forall p' c, p' <> p -> S !! p' = Some c -> page_to_nid st' p' = page_to_nid st p') ->
  (forall s' nid', get_node st' s' nid' = if decide (s' = s /\ nid' = nid) then Some (remove_partial n p) else get_node st s' nid') ->
  nodes_ok st' S'.
Proof.
  intros H Hb HS Hs Hh Hpn Hno Hn Hnid Hget. apply (nodes_step st st' S _ p H HS Hnid).
  assert (Hin : p ∈ partial n). { apply (H s nid n Hn). by exists b. }
  intros s' nid' n' Hn'. rewrite Hget in Hn'. case_decide as E.
  - destruct E as [-> ->]. injection Hn' as <-. exists n. split_and!; try done.
    + intros Hnd. by apply drop_page_NoDup.
    + intros Hnr. cbn [remove_partial nr_partial partial]. destruct (H s nid n Hn) as (Hnd & _ & _).
      rewrite Hnr, u64_sub_l, (drop_page_length p (partial n)) by done. f_equal. lia.
    + intros p' Hne. cbn. rewrite elem_of_drop_page. tauto.
    + cbn. rewrite elem_of_drop_page. split; [tauto|]. intros [Ha _]. by destruct (Hno s).
  - exists n'. split_and!; try done. split; [|intros [Ha _]; by destruct (Hno s')].
    intros Hin'. exfalso. apply E. destruct (H s' nid' n' Hn') as (_ & _ & Hiff). apply Hiff in Hin' as (b0 & Hb0 & ? & ? & ?).
    rewrite Hb in Hb0. injection Hb0 as <-. split; congruence.
Qed.

(** A slab that no node lists disappears. *)
Lemma nodes_gone st st' S p b hd A :
  rep st hd S A -> S !! p = Some b -> sb_home b <> OnPartial -> slab_frame st st' p (sb_order b) ->
  (forall s nid, get_node st' s nid = get_node st s nid) -> nodes_ok st' (delete p S).
Proof.
  intros Hr Hb Hh Hf Hn. apply (nodes_step st st' S _ p); [apply Hr|intros; by rewrite lookup_delete_ne| |].
  - intros p' c Hne Hc. destruct (rp_slab _ _ _ _ _ Hr p' c Hc) as [Hcc _].
    unfold page_to_nid. by destruct (sf_owned _ _ _ _ _ Hf p' _ Hne (sc_owned _ _ _ _ _ Hcc)) as [_ ->].
  - intros s' nid n En. rewrite Hn in En. exists n. split_and!; try done. rewrite lookup_delete_eq. split; [|by intros [(b0 & ? & _) _]].
    intros Hin. apply (rp_nodes _ _ _ _ _ Hr s' nid n En) in Hin as (b0 & Hb0 & _ & Hh0 & _). congruence.
Qed.

(** ** A slab leaves its CPU *)

Lemma heads_leave st st5 S A s cpu p tid p' c cpu' :
  rep st (heads st) S A -> c_page (cpu_of st s cpu) = Some p ->
  (forall s' cpu', cpu_of st5 s' cpu' = cpu_of st s' cpu') -> p' <> p -> S !! p' = Some c -> sb_home c = OnCpu cpu' ->
  heads (set_cpu st5 s cpu (mk_cpu 0 tid None)) (sb_cache c) cpu' = heads st (sb_cache c) cpu'.
Proof.
  intros Hr Hp Hcp Hne Hc Hh. unfold heads. rewrite cpu_set_cpu. case_decide as E; [|by rewrite Hcp]. destruct E as [E ->].
  destruct Hne. assert (c_page (cpu_of st s cpu) = Some p') by (apply Hr; by exists c). congruence.
Qed.

Lemma idle_leave st st5 S A s cpu tid :
  rep st (heads st) S A -> (forall s' cpu', cpu_of st5 s' cpu' = cpu_of st s' cpu') ->
  let st6 := set_cpu st5 s cpu (mk_cpu 0 tid None) in
  forall s' cpu', c_page (cpu_of st6 s' cpu') = None -> heads st6 s' cpu' = 0.
Proof.
  intros Hr Hcp st6 s' cpu'. unfold heads, st6. rewrite cpu_set_cpu. case_decide; [done|]. rewrite Hcp.
  apply (rp_idle _ _ _ _ _ Hr).
Qed.

Lemma cpus_left st st5 S S' A s cpu p tid :
  rep st (heads st) S A -> (forall s' cpu', cpu_of st5 s' cpu' = cpu_of st s' cpu') ->
  (forall p', p' <> p -> S' !! p' = S !! p') -> c_page (cpu_of st s cpu) = Some p ->
  (forall s' cpu', ~ at_home (S' !! p) s' (OnCpu cpu')) -> cpus_ok (set_cpu st5 s cpu (mk_cpu 0 tid None)) S'.
Proof.
  intros Hr Hcp HS Hp Hno. apply (cpus_leave st _ S S' p s cpu); try done; [apply Hr|].
  intros s' cpu'. rewrite cpu_set_cpu. case_decide; [done|]. by rewrite Hcp.
Qed.

Lemma nodes_set_cpu st S s cpu c : nodes_ok st S -> nodes_ok (set_cpu st s cpu c) S.
Proof. intros H s' nid n. rewrite node_set_cpu. apply H. Qed.

Lemma leave_insert st st5 S A s cpu p b f h tid :
  rep st (heads st) S A -> S !! p = Some b -> c_page (cpu_of st s cpu) = Some p ->
  slab_frame st st5 p (sb_order b) -> (forall s' cpu', cpu_of st5 s' cpu' = cpu_of st s' cpu') ->
  slab_regs st5 p b f h -> chain (sl_mem st5) (kc_offset (sl_cache st (sb_cache b))) (sl_freelist st5 p) f ->
  f ≡ₚ unused b -> (match h with OnCpu _ => False | OnPartial => f <> [] | Nowhere => f = [] end) ->
  nodes_ok st5 (<[p := set_lists b f [] h]> S) ->
  let st6 := set_cpu st5 s cpu (mk_cpu 0 tid None) in rep st6 (heads st6) (<[p := set_lists b f [] h]> S) A.
Proof.
  intros Hr Hb Hp Hf Hcp Hregs Hch Hperm Hh Hnodes st6. set (b' := set_lists b f [] h) in *.
  destruct (rp_slab _ _ _ _ _ Hr p b Hb) as [Hc _]. pose proof Hc as [_ _ _ _ _ _ _ _ Hnd Hobj _].
  assert (Hf6 : slab_frame st st6 p (sb_order b)) by (apply (frame_trans m st st5); [done|]; apply frame_set_cpu, Hf).
  apply (rep_insert st st6 (heads st) _ S A A p b b' Hr Hb Hf6); try done.
  - apply (core_set st st6 (heads st)); try done; rewrite ?app_nil_r.
    + by destruct Hregs.
    + by rewrite Hperm.
    + intros x. rewrite Hperm. apply Hobj.
    + by destruct h.
  - intros p' c cpu' Hne Hc' Hh'. by apply (heads_leave st st5 S A s cpu p tid p' c cpu').
  - apply (cpus_left st st5 S _ A s cpu p); try done; [intros; by rewrite lookup_insert_ne|].
    intros s' cpu'. rewrite lookup_insert_eq. intros (b0 & [= <-] & _ & E). cbn in E. by destruct h.
  - by apply nodes_set_cpu.
  - by apply (idle_leave st st5 S A).
  - apply (live_same m Hlay st st6 (heads st) S A p (sb_order b) b b' Hr Hf6 Hb); [done|].
    intros x. unfold unused at 1. cbn [b' set_lists sb_free sb_cpu]. by rewrite app_nil_r, Hperm.
Qed.

End Lists.

(** * The slab allocator: finding a slab to allocate from

    get_freelist() takes over the objects freed to the CPU's slab,
    get_partial() a slab of the node's partial list. *)

Section Get.
Context {St : Type} {PA : PageAllocator St} {PL : PageAllocatorLaws St} (m : layout).
Context (Hlay : layout_ok m pa_lo pa_hi).
Implicit Types st : slub St.
#[local] Abbreviation slab_frame := (slab_frame m).
#[local] Abbreviation rep := (rep m).
#[local] Abbreviation slab_core := (slab_core m).
#[local] Abbreviation is_obj := (is_obj m).
#[local] Abbreviation live_ok := (live_ok m).

Lemma objs_small b st hd p : slab_core st hd p b -> 1 <= sb_objs b < 2 ^ 15.
Proof. intros Hc. destruct (sc_fits _ _ _ _ _ Hc). unfold MAX_OBJS_PER_PAGE in *. lia. Qed.

(** The counters of a slab whose objects all moved to a CPU. *)
Definition taken_counters (ctr frozen : Z) : Z := set_frozen frozen (set_inuse (ct_objects ctr) ctr).

Lemma regs_taken st hd p b fl h :
  pa_ok (sl_pages st) -> slab_core st hd p b ->
  slab_regs (exchanged st p fl (taken_counters (counters st p) (match h with OnCpu _ => 1 | _ => 0 end))) p b [] h.
Proof.
  intros Hok Hc. pose proof (objs_small b st hd p Hc). pose proof (sc_objects _ _ _ _ _ Hc) as Ho.
  apply (regs_exchanged st p b (sb_free b) (sb_home b)); [done|by apply (core_regs m st hd)| | |];
    unfold taken_counters; autorewrite with counters; rewrite ?Ho.
  - done.
  - cbn [length]. rewrite Z.mod_small by lia. lia.
  - by destruct h.
Qed.

(** The objects of [p]'s own list become the CPU's, whatever listed the slab. *)
Lemma core_taken st st' hd hd' p b cpu fl :
  pa_ok (sl_pages st) -> slab_core st hd p b -> sb_cpu b = [] -> sl_freelist st p = fl ->
  slab_frame st st' p (sb_order b) -> slab_regs st' p b [] (OnCpu cpu) -> sl_mem st' = sl_mem st -> sl_freelist st' p = 0 ->
  hd' (sb_cache b) cpu = fl -> slab_core st' hd' p (set_lists b [] (sb_free b) (OnCpu cpu)).
Proof.
  intros Hok Hc Hcpu Hfl Hf Hregs Hmem Hfr Hhd. pose proof Hc as [_ _ _ _ _ _ _ Hch Hnd Hobj _].
  unfold unused in Hnd, Hobj. rewrite Hcpu, app_nil_r in Hnd, Hobj.
  apply (core_set m st st' hd); try done.
  by rewrite Hmem, Hhd, <- Hfl.
Qed.

Lemma unused_moved b cpu x : sb_cpu b = [] -> x ∈ unused (set_lists b [] (sb_free b) (OnCpu cpu)) <-> x ∈ unused b.
Proof. intros E. unfold unused. cbn. by rewrite E, app_nil_r. Qed.

Lemma get_freelist_spec st S A s cpu p :
  rep st (heads st) S A -> c_page (cpu_of st s cpu) = Some p -> c_freelist (cpu_of st s cpu) = 0 ->
  exists st1 fl, get_freelist st p = Ret (st1, fl) /\ config_kept st st1 /\ sl_mem st1 = sl_mem st
    /\ (forall s' cpu', cpu_of st1 s' cpu' = cpu_of st s' cpu')
    /\ (fl <> 0 -> exists S1, rep st1 (hd_at (heads st1) s cpu fl) S1 A)
    /\ (fl = 0 -> forall tid, exists S1, let st2 := set_cpu st1 s cpu (mk_cpu 0 tid None) in rep st2 (heads st2) S1 A).
Proof.
  intros Hr Hp Hz. destruct (cpu_slab_at m _ _ _ _ s cpu p Hr Hp) as (b & Hb & Hs & Hh & Hc & Hrd).
  pose proof Hc as [Ho _ _ _ Hob _ Hfz Hch Hnd Hobj Hhm]. rewrite Hh in Hhm, Hfz. unfold heads in Hhm. rewrite Hs, Hz in Hhm.
  apply chain_zero in Hhm. pose proof (rp_pages _ _ _ _ _ Hr) as Hok.
  unfold get_freelist. rewrite Hfz. cbn [Z.eqb VM_BUG_ON obind]. set (fl := sl_freelist st p) in *.
  rewrite exchange_run by done. cbn [obind].
  set (ctr := taken_counters (counters st p) (if fl =? 0 then 0 else 1)).
  change (set_frozen _ _) with ctr. set (st1 := exchanged st p 0 ctr).
  assert (Hf1 : slab_frame st st1 p (sb_order b)) by (apply exchanged_frame; [done|apply Hc]).
  exists st1, fl. split; [done|]. split; [apply (frame_config m st st1 p (sb_order b) Hf1)|]. split; [done|]. split; [done|].
  assert (Hnid : forall q, page_to_nid st1 q = page_to_nid st q) by (intros; apply exchanged_nid).
  split.
  - intros Hne. set (b' := set_lists b [] (sb_free b) (OnCpu cpu)). exists (<[p := b']> S).
    assert (Hregs : slab_regs st1 p b [] (OnCpu cpu)).
    { unfold st1, ctr. destruct (Z.eqb_spec fl 0); [done|]. by apply (regs_taken st (heads st) p b 0 (OnCpu cpu)). }
    apply (rep_insert m Hlay st st1 (heads st) _ S A A p b b' Hr Hb Hf1); try done.
    + apply (core_taken st st1 (heads st) _ p b cpu fl); try done.
      * apply exchanged_freelist.
      * rewrite Hs. apply hd_at_eq.
    + intros p' c cpu' Hne' Hc' Hh'. rewrite (other_head st S p s cpu p' c cpu'); try done. apply Hr.
    + apply (cpus_same st st1 S p b b'); try done; [apply Hr|by rewrite Hh].
    + apply (nodes_keep st st1 S p b b'); try done; [apply Hr|by rewrite Hh].
    + intros s' cpu' Hn. change (c_page (cpu_of st s' cpu') = None) in Hn.
      rewrite hd_at_ne; [by apply (rp_idle _ _ _ _ _ Hr)|]. intros [-> ->]. congruence.
    + apply (live_same m Hlay st st1 (heads st) S A p (sb_order b) b b' Hr Hf1 Hb); [done|]. intros x. by apply unused_moved.
  - intros He tid. set (b' := set_lists b [] [] Nowhere). exists (<[p := b']> S). cbn zeta.
    assert (Hfree : sb_free b = []) by (rewrite He in Hch; by apply chain_zero in Hch).
    apply (leave_insert m Hlay st st1 S A s cpu p b [] Nowhere); try done.
    + unfold st1, ctr. rewrite He. by apply (regs_taken st (heads st) p b 0 Nowhere).
    + exact (exchanged_freelist st p 0 ctr).
    + unfold unused. by rewrite Hfree, Hhm.
    + apply (nodes_keep st st1 S p b b'); try done; [apply Hr|by rewrite Hh].
Qed.

(** No slab with free objects is listed on node [nid]. *)
Definition no_partial st (s nid : Z) : Prop := forall n, get_node st s nid = Some n -> partial n = [].

(** A node lists fewer slabs than there are pages. *)
Lemma partial_few st S A s nid n : rep st (heads st) S A -> get_node st s nid = Some n -> Z.of_nat (length (partial n)) < 2 ^ 52.
Proof.
  intros Hr En. destruct (rp_nodes _ _ _ _ _ Hr s nid n En) as (Hnd & _ & Hiff).
  assert (Hsub : partial n ⊆+ seqZ pa_lo (pa_hi - pa_lo)).
  { apply NoDup_submseteq; [done|]. intros p Hp. apply Hiff in Hp as (b & Hb & _). destruct (rp_slab _ _ _ _ _ Hr p b Hb) as [Hc _].
    pose proof (sc_owned _ _ _ _ _ Hc) as Ho. destruct (pa_owned_range _ _ _ (rp_pages _ _ _ _ _ Hr) Ho). destruct (pa_owned_block _ _ _ Ho) as ((? & _) & _).
    apply elem_of_seqZ. pose proof (Z.pow_pos_nonneg 2 (sb_order b)). lia. }
  apply submseteq_length in Hsub. rewrite length_seqZ in Hsub. destruct Hlay as [_ H1 H2 H3]. change PAGE_SIZE with 4096 in *. lia.
Qed.

Lemma get_partial_node_spec st S A s nid cpu :
  rep st (heads st) S A -> c_page (cpu_of st s cpu) = None ->
  exists st1 fl, get_partial_node st s nid cpu = Ret (st1, fl) /\ config_kept st st1 /\ sl_mem st1 = sl_mem st
    /\ (fl = 0 -> st1 = st /\ no_partial st s nid)
    /\ (fl <> 0 -> exists p S1, c_page (cpu_of st1 s cpu) = Some p /\ rep st1 (hd_at (heads st1) s cpu fl) S1 A).
Proof.
  intros Hr Hno. unfold get_partial_node.
  assert (Hstop : no_partial st s nid -> exists st1 fl, Ret (st, 0) = Ret (st1, fl) /\ config_kept st st1 /\ sl_mem st1 = sl_mem st
     /\ (fl = 0 -> st1 = st /\ no_partial st s nid)
     /\ (fl <> 0 -> exists p S1, c_page (cpu_of st1 s cpu) = Some p /\ rep st1 (hd_at (heads st1) s cpu fl) S1 A)).
  { intros Hnp. exists st, 0. split_and!; try done. }
  unfold no_partial in Hstop at 1. destruct (get_node st s nid) as [n|] eqn:En; [|apply Hstop; by intros ? ?].
  destruct (rp_nodes _ _ _ _ _ Hr s nid n En) as (_ & Hlen & Hiff). rewrite u64_id in Hlen by (pose proof (partial_few st S A s nid n Hr En); uunfold; lia).
  destruct (Z.eqb_spec (nr_partial n) 0) as [E0|_]; [apply Hstop; intros n' [= <-]; destruct (partial n); [done|cbn [length] in Hlen; lia]|].
  destruct (partial n) as [|p rest] eqn:Ep; [apply Hstop; congruence|].
  destruct (proj1 (Hiff p)) as (b & Hb & Hs & Hh & Hpn); [left|].
  destruct (rp_slab _ _ _ _ _ Hr p b Hb) as [Hc Hrd]. pose proof (rp_pages _ _ _ _ _ Hr) as Hok.
  pose proof Hc as [Ho _ _ _ Hob _ Hfz Hch Hnd Hobj Hhm]. rewrite Hh in Hhm, Hfz. destruct Hhm as [Hcpu Hne].
  unfold acquire_slab. autorewrite with counters. rewrite Hfz. cbn [Z.eqb negb VM_BUG_ON obind].
  set (fl := sl_freelist st p) in *. assert (Hfl : fl <> 0) by (intros E; rewrite E in Hch; by apply chain_zero in Hch).
  unfold __cmpxchg_double_slab. fold fl. rewrite !Z.eqb_refl. cbn [andb obind].
  change (set_frozen 1 _) with (taken_counters (counters st p) 1).
  change (set_counters _ p _) with (exchanged st p 0 (taken_counters (counters st p) 1)).
  set (st0 := exchanged st p 0 (taken_counters (counters st p) 1)).
  set (st1 := set_node st0 s nid (remove_partial n p)). destruct (Z.eqb_spec fl 0); [done|].
  set (st2 := set_cpu st1 s cpu _). set (b' := set_lists b [] (sb_free b) (OnCpu cpu)).
  assert (Hf0 : slab_frame st st0 p (sb_order b)) by (by apply exchanged_frame).
  assert (Hf1 : slab_frame st0 st1 p (sb_order b)) by (apply frame_set_node, Hf0).
  assert (Hf2 : slab_frame st st2 p (sb_order b)).
  { apply (frame_trans m st st0); [done|]. apply (frame_trans m st0 st1); [done|]. apply frame_set_cpu, Hf1. }
  assert (Hnid : forall q, page_to_nid st2 q = page_to_nid st q) by (intros; apply (exchanged_nid st)).
  assert (Hcp : forall s' cpu', cpu_of st2 s' cpu' = if decide (s' = s /\ cpu' = cpu)
     then mk_cpu (c_freelist (cpu_of st1 s cpu)) (c_tid (cpu_of st1 s cpu)) (Some p) else cpu_of st s' cpu').
  { intros s' cpu'. unfold st2. rewrite cpu_set_cpu. case_decide; [done|]. exact (cpu_set_node st0 s nid (remove_partial n p) s' cpu'). }
  exists st2, fl. split; [done|]. split_and!; [apply (frame_config m st st2 p (sb_order b) Hf2)|done|done|].
  intros _. exists p, (<[p := b']> S). split; [by rewrite Hcp, decide_True|].
  assert (Hregs : slab_regs st2 p b [] (OnCpu cpu)).
  { enough (slab_regs st0 p b [] (OnCpu cpu)) as [] by done. by apply (regs_taken st (heads st) p b 0 (OnCpu cpu)). }
  apply (rep_insert m Hlay st st2 (heads st) _ S A A p b b' Hr Hb Hf2); try done.
  - apply (core_taken st st2 (heads st) _ p b cpu fl); try done; [apply (exchanged_freelist st)|]. rewrite Hs. apply hd_at_eq.
  - intros p' c cpu' Hne' Hc' Hh'. unfold hd_at, heads. rewrite Hcp. case_decide as E; [|done].
    destruct E as [E ->]. assert (c_page (cpu_of st s cpu) = Some p') by (apply Hr; by exists c). congruence.
  - apply (cpus_enter st st2 S p b' s cpu); try done; [apply Hr| |].
    + intros s' cpu' (b0 & Hb0 & _ & Hh0). congruence.
    + intros s' cpu'. rewrite Hcp. by case_decide.
  - apply (nodes_remove st st2 S _ p b s nid n); try done; [apply Hr|intros; by rewrite lookup_insert_ne| |].
    + intros s'. rewrite lookup_insert_eq. by intros (b0 & [= <-] & _ & ?).
    + intros s' nid'. unfold st2. rewrite node_set_cpu. apply (node_set_node st0).
  - intros s' cpu'. unfold hd_at, heads. rewrite Hcp. case_decide; [done|]. apply (rp_idle _ _ _ _ _ Hr).
  - apply (live_same m Hlay st st2 (heads st) S A p (sb_order b) b b' Hr Hf2 Hb); [done|]. intros x. by apply unused_moved.
Qed.

(** ** A new slab *)

Definition obj_list (size a : Z) (n : nat) : list Z := map (fun i => a + Z.of_nat i * size) (seq 0 n).

Lemma obj_list_cons size a n : obj_list size a (S n) = a :: obj_list size (a + size) n.
Proof.
  unfold obj_list. cbn [seq map]. f_equal; [lia|]. rewrite <- seq_shift, map_map. apply map_ext. intros i. lia.
Qed.

Lemma elem_of_obj_list size a n x : x ∈ obj_list size a n <-> exists i, 0 <= i < Z.of_nat n /\ x = a + i * size.
Proof.
  unfold obj_list. rewrite list_elem_of_fmap. split.
  - intros (i & -> & Hi). apply elem_of_seq in Hi. exists (Z.of_nat i). split; [lia|done].
  - intros (i & Hi & ->). exists (Z.to_nat i). split; [by rewrite Z2Nat.id by lia|]. apply elem_of_seq. lia.
Qed.

Lemma obj_list_nodup size a n : 0 < size -> NoDup (obj_list size a n).
Proof.
  intros Hs. unfold obj_list. apply NoDup_fmap_2_strong; [|apply NoDup_seq]. intros i j _ _ H. nia.
Qed.

Lemma thread_rest n : forall st s a,
  sl_pages (thread_loop n st s a) = sl_pages st /\ sl_freelist (thread_loop n st s a) = sl_freelist st
  /\ sl_cache (thread_loop n st s a) = sl_cache st.
Proof. induction n as [|n IH]; intros st s a; cbn [thread_loop]; [done|]. apply (IH (set_freepointer _ _ _ _)). Qed.

Section Thread.
Context (s : Z) (k : kmem_cache) (Hk : cache_ok k).

Lemma thread_outside n : forall st a x, sl_cache st s = k ->
  x < a \/ a + Z.of_nat (S n) * kc_size k <= x -> sl_mem (thread_loop n st s a) x = sl_mem st x.
Proof.
  destruct Hk as [Hs _ [Ho1 Ho2] _ _ _ _]. unfold WORD in *.
  induction n as [|n IH]; intros st a x Ek Hx; cbn [thread_loop].
  - cbn. rewrite Ek, fn_lookup_insert_ne; [done|]. nia.
  - rewrite Ek. rewrite (IH (set_freepointer st s a (a + kc_size k))) by (done || nia). cbn. rewrite Ek, fn_lookup_insert_ne; [done|]. nia.
Qed.

Lemma thread_chain n : forall st a, sl_cache st s = k -> 0 < a ->
  chain (sl_mem (thread_loop n st s a)) (kc_offset k) a (obj_list (kc_size k) a (S n)).
Proof.
  pose proof Hk as [Hs _ [Ho1 Ho2] _ _ _ _]. unfold WORD in *.
  induction n as [|n IH]; intros st a Ek Ha; cbn [thread_loop]; rewrite obj_list_cons; cbn [chain].
  - split_and!; [done|lia|]. cbn. by rewrite Ek, fn_lookup_insert.
  - rewrite Ek. set (st1 := set_freepointer st s a (a + kc_size k)). split_and!; [done|lia|].
    rewrite (thread_outside n st1) by (done || lia). unfold st1 at 2. cbn. rewrite Ek, fn_lookup_insert.
    apply IH; [done|lia].
Qed.
End Thread.

End Get.
