(* ===== verification/SlubNew.v ===== *)
(** * The slab allocator: new slabs

    allocate_slab() takes a block from the page allocator, initialises its
    struct page and threads the free list through its objects. *)

From S2P Require Import Prelude Bitops Memblock Buddy BuddyInv PageOwner Slub SlubInv SlubLists.
From stdpp Require Import base list numbers option functions gmap.
#[local] Open Scope Z_scope.
#[local] Open Scope kernel_scope.

Section New.
Context {St : Type} {PA : PageAllocator St} {PL : PageAllocatorLaws St} (m : layout).
Context (Hlay : layout_ok m pa_lo pa_hi).
Implicit Types st : slub St.
#[local] Abbreviation slab_frame := (slab_frame m).
#[local] Abbreviation rep := (rep m).
#[local] Abbreviation slab_core := (slab_core m).
#[local] Abbreviation is_obj := (is_obj m).
#[local] Abbreviation live_ok := (live_ok m).

Lemma thread_frame n st s p o :
  pa_ok (sl_pages st) -> cache_ok (sl_cache st s) -> Z.of_nat (S n) * kc_size (sl_cache st s) <= PAGE_SIZE * 2 ^ o ->
  slab_frame st (thread_loop n st s (page_address m p)) p o.
Proof.
  intros Hok Hk Hn. destruct (thread_rest n st s (page_address m p)) as (E1 & E2 & E3). split.
  - by rewrite E1.
  - intros p' o' _ Ho. unfold struct_page. by rewrite E1.
  - intros p' _. by rewrite E2.
  - intros a Ha. apply (thread_outside s _ Hk n st); [done|]. unfold in_area in Ha. lia.
  - intros s'. by rewrite E3.
  - intros s' nid. unfold get_node. by rewrite E3.
Qed.

(** A slab whose objects are all on its CPU's list. *)
Definition fresh_slab (k : kmem_cache) (s o n p cpu : Z) : slab :=
  mk_slab s o n [] (obj_list (kc_size k) (page_address m p) (Z.to_nat n)) (OnCpu cpu).

Record set_up st st' (s p o n : Z) : Prop := {
  su_frame : slab_frame st st' p o;
  su_owned : pa_owned (sl_pages st') p o;
  su_cache : sl_cache st' = sl_cache st;
  su_flag : PageSlab (struct_page st' p) = true;
  su_mapping : pg_mapping (struct_page st' p) = s;
  su_node : pg_node (struct_page st' p) = pg_node (struct_page st p);
  su_objects : ct_objects (counters st' p) = n;
  su_inuse : ct_inuse (counters st' p) = n;
  su_frozen : ct_frozen (counters st' p) = 1;
  su_list : sl_freelist st' p = page_address m p;
  su_chain : chain (sl_mem st') (kc_offset (sl_cache st s)) (page_address m p)
     (obj_list (kc_size (sl_cache st s)) (page_address m p) (Z.to_nat n))
}.

Lemma slab_flag_set v : Z.testbit (Z.lor v (2 ^ PG_slab)) PG_slab = true.
Proof. rewrite Z.lor_spec. by rewrite orb_true_r. Qed.

Lemma slab_flag_kept v : Z.testbit v PG_slab = true -> Z.testbit (Z.lor v (2 ^ PG_active)) PG_slab = true.
Proof. intros H. by rewrite Z.lor_spec, H. Qed.

(** The owner's writes to a slab's struct page, one after the other. *)
Lemma struct_run st p o f :
  pa_ok (sl_pages st) -> pa_owned (sl_pages st) p o -> owner_write f ->
  slab_frame st (upd_struct st p f) p o /\ pa_ok (sl_pages (upd_struct st p f))
  /\ pa_owned (sl_pages (upd_struct st p f)) p o
  /\ struct_page (upd_struct st p f) p = f (struct_page st p).
Proof.
  intros H Ho Hf. split_and!; [by apply frame_struct|by apply (pa_upd_spec _ p o f H Ho Hf)|by apply (owned_struct st p o)|].
  by rewrite page_upd_struct, decide_True.
Qed.

Lemma setup_slab_spec st s p o oo :
  pa_ok (sl_pages st) -> pa_owned (sl_pages st) p o -> cache_ok (sl_cache st s) ->
  oo_fits (sl_cache st s) oo -> oo_order oo = o -> page_address m p > 0 ->
  exists st', setup_slab m st s p oo = Ret st' /\ set_up st st' s p o (oo_objects oo).
Proof.
  intros Hok Hown Hk (_ & Hn & Hsz) Ho Hpos. rewrite Ho in Hsz. unfold MAX_OBJS_PER_PAGE in Hn.
  unfold setup_slab, set_counters, __SetPageSlab. set (n := oo_objects oo) in *.
  set (f1 := set_private _). destruct (struct_run st p o f1 Hok Hown (write_private _)) as (F1 & K1 & O1 & P1).
  set (st1 := upd_struct st p f1) in *.
  destruct (struct_run st1 p o (set_mapping s) K1 O1 (write_mapping _)) as (F2 & K2 & O2 & P2).
  set (st2 := upd_struct st1 p (set_mapping s)) in *. set (f3 := fun g : page => _).
  destruct (struct_run st2 p o f3 K2 O2 (write_set_flag (2 ^ PG_slab) eq_refl)) as (F3 & K3 & O3 & P3).
  set (st3 := upd_struct st2 p f3) in *.
  assert (Hsl : PageSlab (struct_page st3 p) = true) by (rewrite P3; apply slab_flag_set).
  assert (H4 : exists st4, (if page_is_pfmemalloc st3 p then SetPageSlabPfmemalloc st3 p else Ret st3) = Ret st4
    /\ slab_frame st3 st4 p o /\ pa_ok (sl_pages st4) /\ pa_owned (sl_pages st4) p o /\ sl_cache st4 = sl_cache st
    /\ PageSlab (struct_page st4 p) = true /\ pg_mapping (struct_page st4 p) = s
    /\ pg_node (struct_page st4 p) = pg_node (struct_page st p) /\ counters st4 p = set_objects n (counters st p)).
  { destruct (page_is_pfmemalloc st3 p).
    - unfold SetPageSlabPfmemalloc. rewrite Hsl. cbn [negb VM_BUG_ON obind]. set (f4 := fun g : page => _).
      destruct (struct_run st3 p o f4 K3 O3 (write_set_flag (2 ^ PG_active) eq_refl)) as (F4 & K4 & O4 & P4).
      exists (upd_struct st3 p f4). unfold counters. rewrite P4. split_and!; try done.
      + by apply slab_flag_kept.
      + by rewrite P3, P2.
      + by rewrite P3, P2, P1.
      + by rewrite P3, P2, P1.
    - exists st3. unfold counters. split_and!; try done; [by rewrite P3, P2|by rewrite P3, P2, P1|by rewrite P3, P2, P1]. }
  destruct H4 as (st4 & E4 & F4 & K4 & O4 & C4 & S4 & M4 & N4 & R4). rewrite E4. cbn [obind].
  set (st5 := set_page_freelist st4 p (page_address m p)).
  assert (R5 : ct_objects (counters st5 p) = n).
  { change (counters st5 p) with (counters st4 p). rewrite R4, objects_set_objects. apply Z.mod_small. lia. }
  rewrite R5. set (j := Z.to_nat (n - 1)). assert (Hj : Z.to_nat n = S j) by lia.
  assert (Ek : sl_cache st5 s = sl_cache st s) by (change (sl_cache st4 s = sl_cache st s); by rewrite C4).
  assert (F6 : slab_frame st5 (thread_loop j st5 s (page_address m p)) p o).
  { apply thread_frame; rewrite ?Ek; try done. rewrite <- Hj, Z2Nat.id by lia. done. }
  destruct (thread_rest j st5 s (page_address m p)) as (Q1 & Q2 & Q3).
  set (st6 := thread_loop j st5 s (page_address m p)) in *.
  assert (K6 : pa_ok (sl_pages st6)) by (by rewrite Q1). assert (O6 : pa_owned (sl_pages st6) p o) by (by rewrite Q1).
  assert (P6 : struct_page st6 p = struct_page st4 p) by (unfold struct_page; by rewrite Q1).
  destruct (struct_run st6 p o (set_private (set_inuse n (counters st6 p))) K6 O6 (write_private _)) as (F7 & K7 & O7 & P7).
  set (st7 := upd_struct st6 p _) in *.
  destruct (struct_run st7 p o (set_private (set_frozen 1 (counters st7 p))) K7 O7 (write_private _)) as (F8 & K8 & O8 & P8).
  set (st8 := upd_struct st7 p _) in *. exists st8. split; [done|].
  assert (R8 : counters st8 p = set_frozen 1 (set_inuse n (set_objects n (counters st p)))).
  { unfold counters at 1. rewrite P8. cbn [set_private pg_private]. unfold counters at 1. rewrite P7. cbn [set_private pg_private].
    unfold counters at 1. by rewrite P6, <- R4. }
  split; rewrite ?R8; autorewrite with counters; try done.
  - repeat (eapply (frame_trans m); [eassumption|]). apply (frame_trans m st4 st5); [by apply frame_freelist|].
    apply (frame_trans m st5 st6); [done|]. by apply (frame_trans m st6 st7).
  - change (sl_cache st6 = sl_cache st). rewrite Q3. apply C4.
  - rewrite P8, P7, P6. done.
  - rewrite P8, P7, P6. done.
  - rewrite P8, P7, P6. done.
  - apply Z.mod_small. lia.
  - apply Z.mod_small. lia.
  - change (sl_freelist st6 p = page_address m p). rewrite Q2. cbn. by rewrite fn_lookup_insert.
  - rewrite Hj. apply (thread_chain s _ Hk j st5); [done|lia].
Qed.

(** ** The page allocator's part *)

Definition blocks_kept (a a' : St) : Prop :=
  forall p o, pa_owned a p o -> pa_owned a' p o /\ pa_page a' p = pa_page a p.

Lemma rep_pages st hd S A a :
  rep st hd S A -> pa_ok a -> blocks_kept (sl_pages st) a -> rep (set_pages st a) hd S A.
Proof.
  intros Hr Hok Hk. set (st' := set_pages st a).
  assert (Hpg : forall p b, S !! p = Some b -> pa_owned a p (sb_order b) /\ struct_page st' p = struct_page st p).
  { intros p b Hb. apply Hk. apply (rp_slab _ _ _ _ _ Hr p b Hb). }
  split; try done; try apply Hr.
  - intros p b Hb. destruct (rp_slab _ _ _ _ _ Hr p b Hb) as [[] Hrd]. destruct (Hpg p b Hb) as [Ho E]. split; [|done].
    split; unfold counters; rewrite ?E; done.
  - intros s nid n Hn. destruct (rp_nodes _ _ _ _ _ Hr s nid n Hn) as (? & ? & Hiff). split_and!; try done.
    intros p. rewrite Hiff. unfold page_to_nid. split; intros (b & Hb & ? & ? & ?); exists b; destruct (Hpg p b Hb) as [_ E];
      split_and!; congruence.
Qed.

Lemma kept_block a a' p o : blocks_kept a a' -> pa_owned a p o -> pa_owned a' p o.
Proof. intros H Ho. by apply H. Qed.

(** A block that was just handed out is no slab yet. *)
Lemma alloc_slab_page_spec cpu_node st S A cpu node oo :
  rep st (heads st) S A -> 0 <= oo_order oo < MAX_ORDER ->
  pa_node (if node =? NUMA_NO_NODE then cpu_node cpu else node) ->
  let req := pa_alloc (sl_pages st) (if node =? NUMA_NO_NODE then cpu_node cpu else node) (oo_order oo) in
  (alloc_slab_page cpu_node st cpu node oo = Panic /\ req = Panic)
  \/ exists a op, alloc_slab_page cpu_node st cpu node oo = Ret (set_pages st a, op) /\ req = Ret (a, op)
     /\ rep (set_pages st a) (heads st) S A
     /\ match op with
        | Some p => pa_owned a p (oo_order oo) /\ S !! p = None
        | None => True
        end.
Proof.
  intros Hr Ho Hn. pose proof (rp_pages _ _ _ _ _ Hr) as Hok. unfold alloc_slab_page.
  assert (Hhead : forall p o, pa_owned (sl_pages st) p o -> in_blk p o p).
  { intros p o Hp. apply in_blk_head. by apply (pa_owned_block _ _ _ Hp). }
  destruct (pa_alloc_spec (sl_pages st) _ (oo_order oo) Hok Hn Ho) as [(a & p & -> & Ha & Hp & _ & Hk)|[(a & -> & Ha & Hk)| -> ]].
  - right. exists a, (Some p). split; [done|]. split; [done|]. split.
    + apply rep_pages; [done|done|]. intros p' o' Ho'. destruct (Hk p' o' Ho') as [? E]. split; [done|]. by apply E, Hhead.
    + split; [done|]. destruct (S !! p) as [b|] eqn:Eb; [|done]. exfalso.
      destruct (rp_slab _ _ _ _ _ Hr p b Eb) as [Hc _]. destruct (Hk p (sb_order b) (sc_owned _ _ _ _ _ Hc)) as [_ E].
      destruct (E p (Hhead _ _ (sc_owned _ _ _ _ _ Hc))) as [_ []]. apply in_blk_head. lia.
  - right. exists a, None. split; [done|]. split; [done|]. split; [|done]. apply rep_pages; [done|done|].
    intros p' o' Ho'. destruct (Hk p' o' Ho') as [? E]. split; [done|]. by apply E, Hhead.
  - by left.
Qed.

(** ** The new slab becomes the CPU's *)

Lemma fresh_unused st s p o n cpu x :
  is_obj st p (fresh_slab (sl_cache st s) s o n p cpu) x <-> x ∈ unused (fresh_slab (sl_cache st s) s o n p cpu).
Proof.
  unfold unused, fresh_slab. cbn [sb_free sb_cpu app]. rewrite elem_of_obj_list. unfold is_obj, obj_at. cbn [sb_objs sb_cache].
  split; intros (i & Hi & ->); exists i; (split; [lia|done]).
Qed.

Definition to_cpu st (s cpu p : Z) : slub St :=
  set_cpu (set_page_freelist st p 0) s cpu (mk_cpu (c_freelist (cpu_of st s cpu)) (c_tid (cpu_of st s cpu)) (Some p)).

Lemma cpu_to_cpu st s cpu p s' cpu' :
  cpu_of (to_cpu st s cpu p) s' cpu' = if decide (s' = s /\ cpu' = cpu)
     then mk_cpu (c_freelist (cpu_of st s cpu)) (c_tid (cpu_of st s cpu)) (Some p) else cpu_of st s' cpu'.
Proof. unfold to_cpu. by rewrite cpu_set_cpu. Qed.

Lemma fresh_core st st' hd s p o n cpu :
  set_up st st' s p o n -> 1 <= n <= MAX_OBJS_PER_PAGE -> n * kc_size (sl_cache st s) <= PAGE_SIZE * 2 ^ o ->
  cache_ok (sl_cache st s) -> hd s cpu = page_address m p ->
  slab_core (to_cpu st' s cpu p) hd p (fresh_slab (sl_cache st s) s o n p cpu).
Proof.
  intros [F O C S M N Ob I Fr L Ch] Hn Hsz Hk Hhd. set (st2 := to_cpu st' s cpu p). set (b := fresh_slab _ _ _ _ _ _).
  assert (Hcfg : same_config (sl_cache st s) (sl_cache st2 s)).
  { rewrite <- C. apply (config_set_cpu (set_page_freelist st' p 0)). }
  destruct Hcfg as (_ & _ & Es & _ & Eo & _).
  split; try done; cbn [sb_cache sb_order sb_objs sb_free sb_cpu sb_home b fresh_slab length].
  - by rewrite Es.
  - rewrite Z.sub_0_r. done.
  - cbn. by rewrite fn_lookup_insert.
  - unfold unused. cbn [sb_free sb_cpu app]. apply obj_list_nodup, Hk.
  - intros x Hx. apply fresh_unused in Hx as (i & Hi & ->). exists i. split; [done|]. unfold obj_at. change (sb_cache b) with s. by rewrite Es.
  - rewrite Eo, Hhd. exact Ch.
Qed.

Lemma rep_fresh st st' S A s p o n cpu :
  rep st (heads st) S A -> S !! p = None -> pa_owned (sl_pages st) p o -> set_up st st' s p o n ->
  1 <= n <= MAX_OBJS_PER_PAGE -> n * kc_size (sl_cache st s) <= PAGE_SIZE * 2 ^ o -> cache_ready st s ->
  c_page (cpu_of st s cpu) = None ->
  let st2 := to_cpu st' s cpu p in
  rep st2 (hd_at (heads st2) s cpu (page_address m p)) (<[p := fresh_slab (sl_cache st s) s o n p cpu]> S) A.
Proof.
  intros Hr Hnew Hown Hsu Hn Hsz Hrd Hno st2. pose proof Hsu as [F O C _ _ _ _ _ _ _ _]. set (b := fresh_slab _ _ _ _ _ _).
  assert (F2 : slab_frame st st2 p o).
  { apply (frame_trans m st st'); [done|]. apply (frame_trans m st' (set_page_freelist st' p 0)); [apply frame_freelist, F|].
    apply frame_set_cpu, F. }
  assert (Hcp : forall s' cpu', cpu_of st' s' cpu' = cpu_of st s' cpu') by (intros; unfold cpu_of; by rewrite C).
  assert (Hnd : forall s' nid, get_node st2 s' nid = get_node st s' nid).
  { intros s' nid. unfold st2, to_cpu. rewrite node_set_cpu. unfold get_node. cbn. by rewrite C. }
  assert (Hunlisted : forall s' nid n', get_node st s' nid = Some n' -> p ∉ partial n').
  { intros s' nid n' En Hin. apply (rp_nodes _ _ _ _ _ Hr s' nid n' En) in Hin as (b0 & Hb0 & _). congruence. }
  apply (rep_step m st st2 (heads st) _ S _ A A p o Hr F2 (rep_apart m Hlay st _ S A p o Hr Hown)).
  - intros p' Hne. by rewrite lookup_insert_ne.
  - intros b0. rewrite lookup_insert_eq. intros [= <-]. split; [|by apply (cache_ready_frame m st st2 p o)].
    apply (fresh_core st st'); try done; [apply Hrd|apply hd_at_eq].
  - intros p' b0 cpu' Hne Hb0 Hh0. assert (~ (sb_cache b0 = s /\ cpu' = cpu)).
    { intros [E ->]. assert (c_page (cpu_of st s cpu) = Some p') by (apply Hr; by exists b0). congruence. }
    rewrite hd_at_ne by done. unfold heads, st2. by rewrite cpu_to_cpu, decide_False, Hcp.
  - apply (cpus_enter st st2 S p b s cpu); try done; [apply Hr|intros s' cpu' (b0 & Hb0 & _); congruence|].
    intros s' cpu'. unfold st2. rewrite cpu_to_cpu. case_decide; [done|]. by rewrite Hcp.
  - apply (nodes_step st st2 S _ p); [apply Hr|intros; by rewrite lookup_insert_ne| |].
    + intros p' b0 Hne Hb0. unfold page_to_nid. destruct (rp_slab _ _ _ _ _ Hr p' b0 Hb0) as [Hc _].
      by destruct (sf_owned _ _ _ _ _ F2 p' (sb_order b0) Hne (sc_owned _ _ _ _ _ Hc)) as [_ ->].
    + intros s' nid n' En. rewrite Hnd in En. exists n'. split_and!; try done. rewrite lookup_insert_eq.
      split; [intros Hin; by destruct (Hunlisted s' nid n' En)|]. by intros [(b0 & [= <-] & _ & ?) _].
  - intros s' cpu'. unfold hd_at, heads, st2. rewrite cpu_to_cpu. case_decide; [done|]. rewrite Hcp. apply (rp_idle _ _ _ _ _ Hr).
  - apply (live_step m Hlay st st2 (heads st) S _ A A p o Hr F2); [intros; by rewrite lookup_insert_ne|].
    intros x s'. rewrite lookup_insert_eq, Hnew. split; [intros HA; right; split; [done|]; by intros (b0 & ? & _)|].
    intros [(b0 & [= <-] & _ & Hx & Hu)|[? _]]; [|done]. exfalso. apply Hu.
    apply fresh_unused. by apply (is_obj_frame m st st2 p o p b x F2).
Qed.

(** A slab was set up in a state that represents the same objects. *)
Definition prepared st (S : gmap Z slab) (A : gmap Z Z) (s : Z) st' (p : Z) : Prop :=
  exists st1 o n, sl_cache st1 = sl_cache st /\ rep st1 (heads st1) S A /\ S !! p = None
    /\ pa_owned (sl_pages st1) p o /\ set_up st1 st' s p o n
    /\ 1 <= n <= MAX_OBJS_PER_PAGE /\ n * kc_size (sl_cache st s) <= PAGE_SIZE * 2 ^ o
    /\ contents_kept st st' A.

Lemma setup_prepared st S A a s p oo :
  rep (set_pages st a) (heads st) S A -> S !! p = None -> pa_owned a p (oo_order oo) ->
  cache_ok (sl_cache st s) -> oo_fits (sl_cache st s) oo ->
  exists st', setup_slab m (set_pages st a) s p oo = Ret st' /\ prepared st S A s st' p.
Proof.
  intros Hr Hnew Hown Hk Hoo. pose proof (rp_pages _ _ _ _ _ Hr) as Hok.
  destruct (setup_slab_spec (set_pages st a) s p (oo_order oo) oo) as (st' & -> & Hsu); try done.
  { rewrite (owned_address m Hlay a p _ Hok Hown). pose proof (linear_base_pos m pa_lo pa_hi Hlay).
    destruct (pa_owned_block _ _ _ Hown) as (_ & ? & _). assert (0 < PAGE_SIZE) by done. nia. }
  exists st'. split; [done|]. exists (set_pages st a), (oo_order oo), (oo_objects oo). destruct Hoo as (_ & ? & ?). split_and!; try done; try tauto.
  apply (contents_frame m Hlay (set_pages st a) st' (heads st) S A p (oo_order oo)); try done. apply Hsu.
Qed.

(** What a new slab asks the page allocator for: a block of the cache's order
    and, if there is none, one of its least order. *)
Definition slab_request (a : St) (nid : Z) (k : kmem_cache) : outcome (St * option Z) :=
  let! (a1, p) := pa_alloc a nid (oo_order (kc_oo k)) in
  match p with Some _ => Ret (a1, p) | None => pa_alloc a1 nid (oo_order (kc_min k)) end.

Lemma allocate_slab_spec cpu_node st S A s cpu node :
  rep st (heads st) S A -> cache_ok (sl_cache st s) ->
  pa_node (if node =? NUMA_NO_NODE then cpu_node cpu else node) ->
  let req := slab_request (sl_pages st) (if node =? NUMA_NO_NODE then cpu_node cpu else node) (sl_cache st s) in
  (allocate_slab m cpu_node st s cpu node = Panic /\ req = Panic)
  \/ (exists a, allocate_slab m cpu_node st s cpu node = Ret (set_pages st a, None) /\ req = Ret (a, None) /\ rep (set_pages st a) (heads st) S A)
  \/ (exists st' p, allocate_slab m cpu_node st s cpu node = Ret (st', Some p) /\ prepared st S A s st' p).
Proof.
  intros Hr Hk Hn. pose proof (co_oo _ Hk) as Hoo. pose proof (co_min _ Hk) as Hmin. unfold allocate_slab, slab_request.
  destruct (alloc_slab_page_spec cpu_node st S A cpu node (kc_oo (sl_cache st s)) Hr (proj1 Hoo) Hn)
    as [[-> ->]|(a & [p|] & -> & -> & Hr1 & Hp)]; cbn [obind]; [by left| |].
  { destruct Hp as [Hp Hnew]. destruct (setup_prepared st S A a s p _ Hr1 Hnew Hp Hk Hoo) as (st' & -> & Hpr).
    right. right. by exists st', p. }
  destruct (alloc_slab_page_spec cpu_node (set_pages st a) S A cpu node (kc_min (sl_cache st s)) Hr1 (proj1 Hmin) Hn)
    as [[-> Eq]|(a' & [p|] & -> & Eq & Hr2 & Hp2)]; cbn [obind]; cbn [sl_pages set_pages] in Eq; rewrite Eq; [by left| |].
  - destruct Hp2 as [Hp2 Hnew]. destruct (setup_prepared st S A a' s p _ Hr2 Hnew Hp2 Hk Hmin) as (st' & E & Hpr).
    right. right. exists st', p. split; [|done]. change (set_pages (set_pages st a) a') with (set_pages st a'). by rewrite E.
  - right. left. by exists a'.
Qed.

(** What a search for a slab leaves: the first object of the CPU's new list. *)
Definition found st (A : gmap Z Z) (s cpu : Z) st' (fl : Z) : Prop :=
  config_kept st st' /\ contents_kept st st' A
  /\ (fl = 0 -> exists S, rep st' (heads st') S A)
  /\ (fl <> 0 -> exists p S, c_page (cpu_of st' s cpu) = Some p /\ rep st' (hd_at (heads st') s cpu fl) S A).

(** No slab with free objects is listed, and the page allocator answers [r] to
    the request for a new one. *)
Definition refused st (s nid : Z) (r : outcome (St * option Z)) : Prop :=
  no_partial st s nid /\ slab_request (sl_pages st) nid (sl_cache st s) = r.

Lemma new_slab_objects_spec cpu_node st S A s node cpu :
  rep st (heads st) S A -> cache_ready st s -> c_page (cpu_of st s cpu) = None ->
  pa_node (if node =? NUMA_NO_NODE then cpu_node cpu else node) ->
  let nid := if node =? NUMA_NO_NODE then cpu_node cpu else node in
  (new_slab_objects m cpu_node st s node cpu = Panic /\ refused st s nid Panic)
  \/ exists st' fl, new_slab_objects m cpu_node st s node cpu = Ret (st', fl) /\ found st A s cpu st' fl
       /\ (fl = 0 -> refused st s nid (Ret (sl_pages st', None))).
Proof.
  intros Hr Hrd Hno Hn. unfold new_slab_objects, get_partial.
  destruct (get_partial_node_spec m Hlay st S A s (if node =? NUMA_NO_NODE then cpu_node cpu else node) cpu Hr Hno)
    as (st1 & fl & -> & Hck & Hmem & Hz & Hnz). cbn [obind].
  destruct (Z.eqb_spec fl 0) as [->|Hne]; cbn [negb]; [|right; exists st1, fl; split; [done|]; split; [|done]; split_and!; try done; by apply contents_mem].
  destruct (Hz eq_refl) as [-> Hnp]. clear Hz Hnz Hck Hmem. unfold new_slab.
  destruct (allocate_slab_spec cpu_node st S A s cpu node Hr (proj1 (proj2 Hrd)) Hn)
    as [[-> Eq]|[(a & -> & Eq & Hr')|(st' & p & -> & Hpr)]]; cbn [obind]; [by left| |].
  - right. exists (set_pages st a), 0. split; [done|]. split; [split_and!; [done|done|intros _; by exists S|done]|done].
  - destruct Hpr as (st1 & o & n & Ec & Hr1 & Hnew & Hown & Hsu & Hn1 & Hsz & Hcon).
    assert (Hcp : forall s' cpu', cpu_of st1 s' cpu' = cpu_of st s' cpu') by (intros; unfold cpu_of; by rewrite Ec).
    assert (Hno' : c_page (cpu_of st' s cpu) = None).
    { unfold cpu_of. rewrite (su_cache _ _ _ _ _ _ Hsu), Ec. exact Hno. }
    rewrite Hno'. cbn [obind]. rewrite (su_list _ _ _ _ _ _ Hsu).
    change (set_cpu _ _ _ _) with (to_cpu st' s cpu p). right. exists (to_cpu st' s cpu p), (page_address m p). split; [done|].
    assert (Hrd1 : cache_ready st1 s) by (unfold cache_ready, get_node; rewrite Ec; exact Hrd).
    assert (Hrep := rep_fresh st1 st' S A s p o n cpu Hr1 Hnew Hown Hsu Hn1).
    rewrite Ec, Hcp in Hrep. specialize (Hrep Hsz Hrd1 Hno). cbn zeta in Hrep.
    assert (Hnz : page_address m p <> 0).
    { intros Ez. pose proof (su_chain _ _ _ _ _ _ Hsu) as Hch. rewrite Ez in Hch. apply chain_zero in Hch.
      apply (f_equal length) in Hch. unfold obj_list in Hch. rewrite length_map, length_seq in Hch. cbn in Hch. lia. }
    split; [|done]. split_and!.
    + apply (config_kept_trans st st'); [split; [|unfold get_node]; rewrite (su_cache _ _ _ _ _ _ Hsu), Ec; done|].
      split; [apply (config_set_cpu (set_page_freelist st' p 0))|].
      intros s' nid. unfold to_cpu. by rewrite node_set_cpu.
    + done.
    + done.
    + intros _. exists p, (<[p := fresh_slab (sl_cache st s) s o n p cpu]> S). split; [|done].
      by rewrite cpu_to_cpu, decide_True.
Qed.

End New.

(** * The slab allocator: taking a slab away from a CPU

    deactivate_slab() gives the CPU's objects back to the slab's own list and
    puts the slab on its node's partial list, forgets it when it is full, or
    returns it to the page allocator. *)

(** ** Free lists *)

(** An object in front of a free list. *)
Lemma chain_push mem off fl f x :
  chain mem off fl f -> x <> 0 -> x ∉ f -> chain (<[x + off := fl]> mem) off x (x :: f).
Proof.
  intros Hc Hx Hn. cbn [chain]. split_and!; [done|done|]. rewrite fn_lookup_insert.
  apply (chain_frame mem); [|done]. intros y Hy. rewrite fn_lookup_insert_ne; [done|]. intros E. apply Hn. by replace x with y by lia.
Qed.

Lemma chain_other mem off fl f x v : chain mem off fl f -> x ∉ f -> chain (<[x + off := v]> mem) off fl f.
Proof.
  intros Hc Hn. apply (chain_frame mem); [|done]. intros y Hy. rewrite fn_lookup_insert_ne; [done|].
  intros E. apply Hn. by replace x with y by lia.
Qed.

Section Put.
Context {St : Type} {PA : PageAllocator St} {PL : PageAllocatorLaws St} (m : layout).
Context (Hlay : layout_ok m pa_lo pa_hi).
Implicit Types st : slub St.
#[local] Abbreviation slab_frame := (slab_frame m).
#[local] Abbreviation rep := (rep m).
#[local] Abbreviation slab_core := (slab_core m).
#[local] Abbreviation is_obj := (is_obj m).
#[local] Abbreviation live_ok := (live_ok m).

(** ** Counting objects *)

Definition all_objs st (p : Z) (b : slab) : list Z :=
  obj_list (kc_size (sl_cache st (sb_cache b))) (page_address m p) (Z.to_nat (sb_objs b)).

Lemma elem_of_all st p b x : 0 <= sb_objs b -> x ∈ all_objs st p b <-> is_obj st p b x.
Proof.
  intros Hn. unfold all_objs. rewrite elem_of_obj_list, Z2Nat.id by done. unfold is_obj, obj_at. done.
Qed.

Lemma objs_count st p b l :
  0 <= sb_objs b -> NoDup l -> (forall x, x ∈ l -> is_obj st p b x) -> Z.of_nat (length l) <= sb_objs b.
Proof.
  intros Hn Hnd Hl. assert (Hs : l ⊆+ all_objs st p b).
  { apply NoDup_submseteq; [done|]. intros x Hx. by apply elem_of_all, Hl. }
  apply submseteq_length in Hs. unfold all_objs, obj_list in Hs. rewrite length_map, length_seq in Hs. lia.
Qed.

Lemma objs_all st p b l :
  0 <= sb_objs b -> NoDup l -> (forall x, x ∈ l -> is_obj st p b x) -> Z.of_nat (length l) = sb_objs b ->
  forall x, is_obj st p b x -> x ∈ l.
Proof.
  intros Hn Hnd Hl Hlen x Hx. assert (Hs : l ⊆+ all_objs st p b).
  { apply NoDup_submseteq; [done|]. intros y Hy. by apply elem_of_all, Hl. }
  rewrite (submseteq_length_Permutation _ _ Hs); [by apply elem_of_all|].
  unfold all_objs, obj_list. rewrite length_map, length_seq. lia.
Qed.

(** ** Giving the pages back *)

Lemma clear_bits v : Z.land (Z.ldiff (Z.ldiff v (2 ^ PG_active)) (2 ^ PG_slab)) SLAB_BITS = 0.
Proof.
  apply Z.bits_inj'. intros n Hn. rewrite Z.land_spec, !Z.ldiff_spec, Z.bits_0. unfold SLAB_BITS. rewrite Z.lor_spec.
  destruct (Z.testbit v n), (Z.testbit (2 ^ PG_active) n), (Z.testbit (2 ^ PG_slab) n); done.
Qed.

Lemma slab_flag_active v : Z.testbit (Z.ldiff v (2 ^ PG_active)) PG_slab = Z.testbit v PG_slab.
Proof. rewrite Z.ldiff_spec. change (Z.testbit (2 ^ PG_active) PG_slab) with false. by rewrite andb_true_r. Qed.

Lemma discard_slab_spec st p o :
  pa_ok (sl_pages st) -> pa_owned (sl_pages st) p o -> PageSlab (struct_page st p) = true ->
  exists st', discard_slab st p = Ret st' /\ slab_frame st st' p o
    /\ sl_cache st' = sl_cache st /\ sl_mem st' = sl_mem st
    /\ forall p' o', pa_owned (sl_pages st') p' o' -> p' <> p /\ pa_owned (sl_pages st) p' o'.
Proof.
  intros Hok Ho Hfl. unfold discard_slab, __free_slab, __ClearPageSlabPfmemalloc, __ClearPageSlab.
  rewrite Hfl. cbn [negb VM_BUG_ON obind]. rewrite (pa_owned_order _ _ _ Ho).
  set (f1 := fun g : page => _).
  destruct (struct_run m st p _ f1 Hok Ho (write_clear_flag (2 ^ PG_active) eq_refl)) as (F1 & K1 & O1 & P1).
  set (st1 := upd_struct st p f1) in *. set (f2 := fun g : page => _).
  destruct (struct_run m st1 p _ f2 K1 O1 (write_clear_flag (2 ^ PG_slab) eq_refl)) as (F2 & K2 & O2 & P2).
  set (st2 := upd_struct st1 p f2) in *.
  destruct (struct_run m st2 p _ (set_mapping 0) K2 O2 (write_mapping 0)) as (F3 & K3 & O3 & P3).
  set (st3 := upd_struct st2 p (set_mapping 0)) in *.
  destruct (pa_free_spec (sl_pages st3) p o K3 O3) as (a & -> & Ha & Hb & Hk).
  { change (pa_page (sl_pages st3) p) with (struct_page st3 p). rewrite P3. split; [done|].
    rewrite P2, P1. apply clear_bits. }
  cbn [obind]. exists (set_pages st3 a). split; [done|]. split; [|split_and!; [done|done|]].
  2:{ intros p' o' Hp. destruct (Hb p' o' Hp) as [? H3]. split; [done|].
      apply (pa_upd_spec _ p o _ K2 O2 (write_mapping 0)), (pa_upd_spec _ p o _ K1 O1 (write_clear_flag (2 ^ PG_slab) eq_refl)),
        (pa_upd_spec _ p o _ Hok Ho (write_clear_flag (2 ^ PG_active) eq_refl)) in H3. exact H3. }
  apply (frame_trans m st st1); [done|]. apply (frame_trans m st1 st2); [done|]. apply (frame_trans m st2 st3); [done|].
  split; try done. intros p' o' Hne Ho'. destruct (Hk p' o' Ho' Hne) as [? E]. split; [done|]. apply E, in_blk_head.
  by apply (pa_owned_block _ _ _ Ho').
Qed.

(** A slab disappears with its objects. *)
Lemma rep_delete st st' hd hd' S A A' p b :
  rep st hd S A -> S !! p = Some b -> slab_frame st st' p (sb_order b) ->
  (forall x s, A' !! x = Some s <-> A !! x = Some s /\ ~ is_obj st p b x) ->
  (forall p' c cpu, p' <> p -> S !! p' = Some c -> sb_home c = OnCpu cpu -> hd' (sb_cache c) cpu = hd (sb_cache c) cpu) ->
  cpus_ok st' (delete p S) -> nodes_ok st' (delete p S) ->
  (forall s cpu, c_page (cpu_of st' s cpu) = None -> hd' s cpu = 0) ->
  rep st' hd' (delete p S) A'.
Proof.
  intros Hr Hb Hf Hall Hhd Hcpus Hnodes Hidle. destruct (rp_slab _ _ _ _ _ Hr p b Hb) as [Hc Hrd].
  apply (rep_step m st st' hd hd' S _ A A' p (sb_order b) Hr Hf); try done.
  - apply (rep_apart m Hlay st hd S A p (sb_order b) Hr), Hc.
  - intros p' Hne. by rewrite lookup_delete_ne.
  - intros c. by rewrite lookup_delete_eq.
  - apply (live_step m Hlay st st' hd S _ A A' p (sb_order b) Hr Hf); [intros; by rewrite lookup_delete_ne|].
    intros x s. rewrite lookup_delete_eq, (live_in_some m st S p b x s Hb), Hall. split.
    + intros [HA Hno]. right. split; [done|]. by intros (_ & Hx & _).
    + intros [(c & ? & _)|[HA Hn]]; [done|]. split; [done|]. intros Hx.
      apply Hn. apply (live_here m Hlay st hd S A p b x s Hr Hb Hx) in HA as [? ?]. done.
Qed.

(** ** Draining the CPU's list *)

Record draining st0 st (p : Z) (b : slab) (f c : list Z) (fl cpu : Z) : Prop := {
  dr_frame : slab_frame st0 st p (sb_order b);
  dr_regs : slab_regs st p b f (OnCpu cpu);
  dr_cache : sl_cache st = sl_cache st0;
  dr_nid : forall q, page_to_nid st q = page_to_nid st0 q;
  dr_nodup : NoDup (f ++ c);
  dr_objs : forall x, x ∈ f ++ c -> is_obj st0 p b x;
  dr_free : chain (sl_mem st) (kc_offset (sl_cache st0 (sb_cache b))) (sl_freelist st p) f;
  dr_cpu : chain (sl_mem st) (kc_offset (sl_cache st0 (sb_cache b))) fl c;
  dr_mem : forall a, (forall x, x ∈ f ++ c -> a <> x + kc_offset (sl_cache st0 (sb_cache b))) -> sl_mem st a = sl_mem st0 a
}.

Section Drain.
Context (st0 : slub St) (p : Z) (b : slab) (cpu : Z).
Context (Hn : 1 <= sb_objs b < 2 ^ 15) (Hk : cache_ok (sl_cache st0 (sb_cache b)))
  (Hfits : sb_objs b * kc_size (sl_cache st0 (sb_cache b)) <= PAGE_SIZE * 2 ^ sb_order b).

Lemma word_frame st x v :
  slab_frame st0 st p (sb_order b) -> is_obj st0 p b x ->
  slab_frame st (set_word st (x + kc_offset (sl_cache st0 (sb_cache b))) v) p (sb_order b).
Proof.
  intros Hf (i & Hi & ->). apply frame_word; [apply Hf|]. destruct (co_offset _ Hk). unfold WORD in *. unfold in_area, obj_at. nia.
Qed.

(** Counters after one more object is on the slab's own list. *)
Lemma one_less st f x c h :
  slab_regs st p b f h -> NoDup (f ++ x :: c) -> (forall y, y ∈ f ++ x :: c -> is_obj st0 p b y) ->
  ct_inuse (set_inuse (ct_inuse (counters st p) - 1) (counters st p)) = sb_objs b - Z.of_nat (length (x :: f)).
Proof.
  intros [_ _ _ _ Hin _] Hnd Hobj. autorewrite with counters. rewrite Hin.
  pose proof (objs_count st0 p b (f ++ x :: c) ltac:(lia) Hnd Hobj) as Hl. rewrite length_app in Hl. cbn [length] in *.
  rewrite Z.mod_small by lia. lia.
Qed.

(** An object goes to the front of the slab's own list. *)
Lemma push_spec st f x c h :
  slab_frame st0 st p (sb_order b) -> slab_regs st p b f h -> NoDup (f ++ x :: c) ->
  (forall y, y ∈ f ++ x :: c -> is_obj st0 p b y) ->
  chain (sl_mem st) (kc_offset (sl_cache st0 (sb_cache b))) (sl_freelist st p) f -> x <> 0 ->
  let st' := exchanged (set_word st (x + kc_offset (sl_cache st0 (sb_cache b))) (sl_freelist st p)) p x
               (set_inuse (ct_inuse (counters st p) - 1) (counters st p)) in
  slab_frame st0 st' p (sb_order b) /\ slab_regs st' p b (x :: f) h
  /\ chain (sl_mem st') (kc_offset (sl_cache st0 (sb_cache b))) (sl_freelist st' p) (x :: f).
Proof.
  intros Hf Hr Hnd Hobj Hfr Hx. cbn zeta. set (off := kc_offset _). set (st1 := set_word _ _ _).
  assert (Hf1 : slab_frame st st1 p (sb_order b)) by (apply word_frame; [done|]; apply Hobj, elem_of_app; right; left).
  split_and!.
  - apply (frame_trans m st0 st); [done|]. apply (frame_trans m st st1); [done|].
    apply (exchanged_frame m st1); [apply Hf1|apply Hr].
  - apply (regs_exchanged st1 p b f h); [apply Hf1|by destruct Hr|autorewrite with counters; apply Hr| |autorewrite with counters; apply Hr].
    by apply (one_less st f x c h).
  - rewrite exchanged_freelist. apply chain_push; [done|done|]. intros Hin. apply NoDup_app in Hnd as (_ & H & _). apply (H x Hin). left.
Qed.

Lemma drain_push st f x c :
  draining st0 st p b f (x :: c) x cpu ->
  let ctr := counters st p in
  let off := kc_offset (sl_cache st0 (sb_cache b)) in
  draining st0 (exchanged (set_word st (x + off) (sl_freelist st p)) p x (set_inuse (ct_inuse ctr - 1) ctr)) p b
    (x :: f) c (sl_mem st (x + off)) cpu.
Proof.
  intros [Hf Hr Hc Hnid Hnd Hobj Hfr Hcp Hmem] ctr off. destruct Hcp as (_ & Hx & Hcp).
  destruct (push_spec st f x c (OnCpu cpu) Hf Hr Hnd Hobj Hfr Hx) as (Hf1 & Hr1 & Hfr1).
  assert (Hperm : f ++ x :: c ≡ₚ (x :: f) ++ c) by (symmetry; apply (Permutation_middle f c x)).
  pose proof Hnd as Hnd2. rewrite Hperm in Hnd2. cbn [app] in Hnd2. apply list.NoDup_cons in Hnd2 as [Hnin _].
  rewrite elem_of_app in Hnin.
  split; try done.
  - intros q. rewrite exchanged_nid. apply Hnid.
  - by rewrite <- Hperm.
  - intros y. rewrite <- Hperm. apply Hobj.
  - apply chain_other; [done|tauto].
  - intros a Ha. setoid_rewrite <- Hperm in Ha. cbn. rewrite fn_lookup_insert_ne; [by apply Hmem|].
    intros E. apply (Ha x); [apply elem_of_app; right; left|done].
Qed.

Lemma drain_loop_spec c : forall fuel st f fl,
  (length c < fuel)%nat -> draining st0 st p b f c fl cpu ->
  exists st' f' c' fl', drain_loop fuel st (sb_cache b) p fl = Ret (st', fl')
    /\ draining st0 st' p b f' c' fl' cpu /\ (length c' <= 1)%nat /\ f' ++ c' ≡ₚ f ++ c.
Proof.
  induction c as [|x c IH]; intros [|fuel] st f fl Hfu Hd; [lia| |cbn in Hfu; lia|]; cbn [drain_loop];
    pose proof Hd as [Hf Hr Hc Hnid Hnd Hobj Hfr Hcp Hmem].
  - cbn in Hcp. subst fl. cbn. exists st, f, [], 0. split_and!; try done. cbn; lia.
  - destruct Hcp as (-> & Hx & Hcp). destruct (Z.eqb_spec x 0); [done|].
    unfold get_freepointer. rewrite Hc. destruct (Z.eqb_spec (sl_mem st (x + kc_offset (sl_cache st0 (sb_cache b)))) 0) as [Ez|Ez].
    + exists st, f, (x :: c), x. rewrite Ez in Hcp. apply chain_zero in Hcp as ->. split_and!; try done.
    + autorewrite with counters. rewrite (sr_frozen _ _ _ _ _ Hr). cbn [Z.eqb VM_BUG_ON obind].
      unfold set_freepointer. rewrite Hc. rewrite exchange_run by done. cbn [obind].
      destruct (IH fuel _ (x :: f) _ ltac:(cbn in Hfu; lia) (drain_push st f x c Hd)) as (st' & f' & c' & fl' & -> & ? & ? & HP).
      exists st', f', c', fl'. split_and!; try done. rewrite HP. cbn [app]. apply Permutation_middle.
Qed.
End Drain.
(** The state before the final exchange of deactivate_slab(). *)
Record drained st0 st (p : Z) (b : slab) (f : list Z) (nfl new cpu : Z) : Prop := {
  dd_frame : slab_frame st0 st p (sb_order b);
  dd_regs : exists f1, slab_regs st p b f1 (OnCpu cpu);
  dd_cache : sl_cache st = sl_cache st0;
  dd_nid : forall q, page_to_nid st q = page_to_nid st0 q;
  dd_chain : chain (sl_mem st) (kc_offset (sl_cache st0 (sb_cache b))) nfl f;
  dd_objects : ct_objects new = sb_objs b;
  dd_inuse : ct_inuse new = sb_objs b - Z.of_nat (length f);
  dd_mem : forall a, (forall x, x ∈ f -> a <> x + kc_offset (sl_cache st0 (sb_cache b))) -> sl_mem st a = sl_mem st0 a
}.

Lemma drain_end st0 st p b f c fl cpu :
  1 <= sb_objs b < 2 ^ 15 -> cache_ok (sl_cache st0 (sb_cache b)) ->
  sb_objs b * kc_size (sl_cache st0 (sb_cache b)) <= PAGE_SIZE * 2 ^ sb_order b ->
  draining st0 st p b f c fl cpu -> (length c <= 1)%nat ->
  exists st' nfl new f',
    (if fl =? 0 then (st, sl_freelist st p, counters st p)
     else (set_freepointer st (sb_cache b) fl (sl_freelist st p), fl,
           set_inuse (ct_inuse (counters st p) - 1) (counters st p))) = (st', nfl, new)
    /\ drained st0 st' p b f' nfl new cpu /\ f' ≡ₚ f ++ c
    /\ sl_freelist st' p = sl_freelist st p /\ counters st' p = counters st p.
Proof.
  intros Hn Hk Hfits Hd Hl. pose proof Hd as [Hf Hr Hc Hnid Hnd Hobj Hfr Hcp Hmem].
  destruct c as [|x [|]]; cbn [chain] in Hcp; [| |cbn in Hl; lia].
  - subst fl. cbn [Z.eqb]. exists st, (sl_freelist st p), (counters st p), f. split; [done|]. split_and!; try done; [|by rewrite app_nil_r].
    split; try done; [by exists f|apply Hr|apply Hr|]. by rewrite app_nil_r in Hmem.
  - destruct Hcp as (-> & Hx & _). destruct (Z.eqb_spec x 0); [done|]. unfold set_freepointer. rewrite Hc.
    assert (Hox : is_obj st0 p b x) by (apply Hobj, elem_of_app; right; left).
    eexists _, _, _, (x :: f). split; [done|]. split_and!; try done; [|apply Permutation_cons_append].
    split; try done.
    + apply (frame_trans m st0 st); [done|]. by apply word_frame.
    + exists f. by destruct Hr.
    + apply chain_push; [done|done|]. intros Hin. apply NoDup_app in Hnd as (_ & H & _). apply (H x Hin). left.
    + autorewrite with counters. apply Hr.
    + by apply (one_less st0 p b Hn st f x [] (OnCpu cpu)).
    + intros a Ha. cbn. rewrite fn_lookup_insert_ne; [|intros E; apply (Ha x); [left|done]].
      apply Hmem. intros y Hy. apply Ha. by rewrite (Permutation_cons_append f x).
Qed.

Lemma cpu_drained st0 st s cpu : sl_cache st = sl_cache st0 -> cpu_of st s cpu = cpu_of st0 s cpu.
Proof. intros E. unfold cpu_of. by rewrite E. Qed.

Section Final.
Context (st : slub St) (S : gmap Z slab) (A : gmap Z Z) (s cpu p : Z) (b : slab) (tid : Z).
Context (Hr : rep st (heads st) S A) (Hb : S !! p = Some b) (Hs : sb_cache b = s) (Hh : sb_home b = OnCpu cpu)
  (Hp : c_page (cpu_of st s cpu) = Some p).
Context (st3 : slub St) (f : list Z) (nfl new : Z).
Context (Hd : drained st st3 p b f nfl new cpu) (Hperm : f ≡ₚ unused b).
#[local] Abbreviation new' := (set_frozen 0 new).

Definition emptied st' : slub St := set_cpu st' s cpu (mk_cpu 0 tid None).

Lemma regs_drained st4 h f1 :
  pa_ok (sl_pages st4) -> slab_regs st4 p b f1 (OnCpu cpu) -> (match h with OnCpu _ => False | _ => True end) ->
  slab_regs (exchanged st4 p nfl new') p b f h.
Proof.
  intros Hok Hregs Hhm. apply (regs_exchanged st4 p b f1 (OnCpu cpu)); try done; autorewrite with counters;
    [apply Hd|apply Hd|by destruct h].
Qed.

(** Full: on no list. *)
Lemma final_full : nfl = 0 -> exists S', rep (emptied (exchanged st3 p nfl new')) (heads (emptied (exchanged st3 p nfl new'))) S' A.
Proof.
  intros Hz. destruct Hd as [Hf [f1 Hregs] Hc Hnid Hch _ _ _]. set (b' := set_lists b f [] Nowhere). exists (<[p := b']> S).
  assert (Hok : pa_ok (sl_pages st3)) by apply Hf.
  apply (leave_insert m Hlay st _ S A s cpu p b f Nowhere); try done.
  - apply (frame_trans m st st3); [done|]. by apply exchanged_frame, Hregs.
  - intros s' cpu'. by apply (cpu_drained st).
  - by apply (regs_drained st3 Nowhere f1).
  - by rewrite exchanged_freelist.
  - rewrite Hz in Hch. by apply chain_zero in Hch.
  - apply (nodes_keep st _ S p b b'); try done; [apply Hr|by rewrite Hh| |].
    + intros s' nid. unfold get_node. cbn. by rewrite Hc.
    + intros q c _. by rewrite exchanged_nid.
Qed.

(** Partial: on its node's list. *)
Lemma final_partial n tail :
  nfl <> 0 -> get_node st s (page_to_nid st p) = Some n ->
  let st5 := exchanged (set_node st3 s (page_to_nid st p) (add_partial n p tail)) p nfl new' in
  exists S', rep (emptied st5) (heads (emptied st5)) S' A.
Proof.
  intros Hz Hn st5. destruct Hd as [Hf [f1 Hregs] Hc Hnid Hch _ _ _]. set (b' := set_lists b f [] OnPartial). exists (<[p := b']> S).
  set (st4 := set_node st3 _ _ _) in *. assert (Hok : pa_ok (sl_pages st3)) by apply Hf.
  assert (Hregs4 : slab_regs st4 p b f1 (OnCpu cpu)) by (by destruct Hregs).
  apply (leave_insert m Hlay st st5 S A s cpu p b f OnPartial); try done.
  - apply (frame_trans m st st3); [done|]. apply (frame_trans m st3 st4); [by apply frame_set_node|]. by apply exchanged_frame, Hregs4.
  - intros s' cpu'. change (cpu_of st4 s' cpu' = cpu_of st s' cpu'). unfold st4. rewrite cpu_set_node. by apply cpu_drained.
  - by apply (regs_drained st4 OnPartial f1).
  - unfold st5. by rewrite exchanged_freelist.
  - intros ->. by cbn in Hch.
  - apply (nodes_add st st5 S p b b' s (page_to_nid st p) n tail); try done; [apply Hr|by rewrite Hh| |].
    + intros q. unfold st5. rewrite exchanged_nid. apply Hnid.
    + intros s' nid'. change (get_node st4 s' nid' = if decide (s' = s /\ nid' = page_to_nid st p) then Some (add_partial n p tail) else get_node st s' nid').
      unfold st4. rewrite node_set_node. case_decide; [done|]. unfold get_node. by rewrite Hc.
Qed.

(** Empty: back to the page allocator. *)
Lemma final_free :
  Z.of_nat (length f) = sb_objs b ->
  exists st6 S', discard_slab (exchanged st3 p nfl new') p = Ret st6 /\ sl_cache st6 = sl_cache st /\ sl_mem st6 = sl_mem st3
    /\ rep (emptied st6) (heads (emptied st6)) S' A.
Proof.
  intros Hlen. destruct Hd as [Hf [f1 Hregs] Hc Hnid Hch _ _ _]. assert (Hok : pa_ok (sl_pages st3)) by apply Hf.
  set (st5 := exchanged st3 p nfl new').
  assert (Hf5 : slab_frame st st5 p (sb_order b)) by (apply (frame_trans m st st3); [done|]; by apply exchanged_frame, Hregs).
  pose proof (regs_drained st3 Nowhere f1 Hok Hregs I) as [Ho5 Hfl5 _ _ _ _].
  destruct (discard_slab_spec st5 p (sb_order b)) as (st6 & E & Hf6 & Hc6 & Hm6 & _); [apply Hf5|done|done|].
  assert (Hcache : sl_cache st6 = sl_cache st) by (rewrite Hc6; apply Hc).
  exists st6, (delete p S). split_and!; try done.
  assert (Hff : slab_frame st st6 p (sb_order b)) by (by apply (frame_trans m st st5)).
  destruct (rp_slab _ _ _ _ _ Hr p b Hb) as [Hcore _]. pose proof (sc_fits _ _ _ _ _ Hcore).
  apply (rep_delete st (emptied st6) (heads st) _ S A A p b Hr Hb).
  - apply (frame_trans m st st6); [done|]. apply frame_set_cpu, Hff.
  - intros x s'. split; [|by intros [? _]]. intros HA. split; [done|]. intros Hx.
    apply (live_here m Hlay st (heads st) S A p b x s' Hr Hb Hx) in HA as [_ HA]. apply HA.
    apply (objs_all st p b (unused b)); try done; [lia|apply Hcore|apply Hcore|]. by rewrite <- Hperm.
  - intros p' c cpu' Hne Hc' Hh'. apply (heads_leave m st st6 S A s cpu p tid p' c cpu'); try done. intros; by apply cpu_drained.
  - apply (cpus_left m st st6 S _ A s cpu p); try done; [intros; by apply cpu_drained|intros; by rewrite lookup_delete_ne|].
    intros s' cpu'. rewrite lookup_delete_eq. by intros (b0 & ? & _).
  - apply nodes_set_cpu. apply (nodes_gone m st st6 S p b (heads st) A); try done; [by rewrite Hh|].
    intros s' nid. unfold get_node. by rewrite Hcache.
  - apply (idle_leave m st st6 S A); [done|]. intros; by apply cpu_drained.
Qed.
End Final.

Lemma deactivate_slab_spec st S A s cpu p :
  rep st (heads st) S A -> c_page (cpu_of st s cpu) = Some p ->
  exists st' S', deactivate_slab st s p (heads st s cpu) cpu = Ret st' /\ config_kept st st' /\ contents_kept st st' A
    /\ c_page (cpu_of st' s cpu) = None /\ rep st' (heads st') S' A.
Proof.
  intros Hr Hp. destruct (cpu_slab_at m _ _ _ _ s cpu p Hr Hp) as (b & Hb & Hs & Hh & Hc & Hrd).
  pose proof Hc as [Ho _ _ [Hn Hfits] Hob _ _ Hch Hnd Hobj Hhm]. rewrite Hh, Hs in Hhm. rewrite Hs in Hch, Hfits.
  pose proof (rp_pages _ _ _ _ _ Hr) as Hok. pose proof (objs_small m b st _ p Hc) as Hn'.
  destruct Hrd as (Hs0 & Hk & Hnode).
  destruct (Hnode (page_to_nid st p)) as [n En]; [by apply (pa_owned_node _ p (sb_order b))|].
  assert (Hd0 : draining st st p b (sb_free b) (sb_cpu b) (heads st s cpu) cpu).
  { split; try done; rewrite ?Hs; try done. pose proof (core_regs m st _ p b Hc) as Hregs. by rewrite Hh in Hregs. }
  unfold deactivate_slab. rewrite Hob.
  assert (Hfuel : (length (sb_cpu b) < Datatypes.S (Z.to_nat (sb_objs b)))%nat).
  { pose proof (objs_count st p b (unused b) ltac:(lia) Hnd Hobj) as Hl. unfold unused in Hl. rewrite length_app in Hl. lia. }
  rewrite <- Hs in Hk, Hfits.
  destruct (drain_loop_spec st p b cpu Hn' Hk Hfits (sb_cpu b) _ st (sb_free b) (heads st s cpu) Hfuel Hd0)
    as (st1 & f1 & c1 & fl1 & E1 & Hd1 & Hl1 & HP1). rewrite Hs in E1. rewrite E1. cbn [obind].
  rewrite (sr_frozen _ _ _ _ _ (dr_regs _ _ _ _ _ _ _ _ Hd1)). cbn [Z.eqb VM_BUG_ON obind].
  destruct (drain_end st st1 p b f1 c1 fl1 cpu Hn' Hk Hfits Hd1 Hl1) as (st3 & nfl & new & f & E3 & Hd3 & HP3 & Efl & Ect).
  rewrite Hs in E3. rewrite E3. clear E1 E3.
  assert (HP : f ≡ₚ unused b) by (by rewrite HP3, HP1).
  assert (Hgn : get_node st3 s (page_to_nid st p) = Some n) by (unfold get_node; by rewrite (dd_cache _ _ _ _ _ _ _ _ Hd3)).
  rewrite Hgn. autorewrite with counters. rewrite (dd_inuse _ _ _ _ _ _ _ _ Hd3).
  assert (Hcon : contents_kept st st3 A).
  { intros y s0 a HA Ha. apply (dd_mem _ _ _ _ _ _ _ _ Hd3). intros x Hx ->. rewrite HP in Hx. revert Ha.
    apply (unused_word m Hlay st (heads st) S A p b x y s0); try done. destruct (co_offset _ Hk). unfold WORD in *. lia. }
  set (tail := negb (sl_freelist st p =? 0)).
  assert (Hfin : forall st5, config_kept st st5 -> sl_mem st5 = sl_mem st3 -> (exists S', rep (emptied s cpu (c_tid (cpu_of st5 s cpu)) st5) (heads (emptied s cpu (c_tid (cpu_of st5 s cpu)) st5)) S' A) ->
    exists st' S', Ret (set_cpu st5 s cpu (mk_cpu 0 (c_tid (cpu_of st5 s cpu)) None)) = Ret st' /\ config_kept st st' /\ contents_kept st st' A
      /\ c_page (cpu_of st' s cpu) = None /\ rep st' (heads st') S' A).
  { intros st5 Hck Hm5 (S' & Hr'). eexists _, S'. split; [done|]. split_and!; [|by intros x s0 a; cbn; rewrite Hm5; apply Hcon|by rewrite cpu_set_cpu, decide_True|done].
    apply (config_kept_trans st st5); [done|]. split; [apply config_set_cpu|]. intros s' nid. by rewrite node_set_cpu. }
  assert (Hck3 : config_kept st st3) by (apply (frame_config m st st3 p (sb_order b)), Hd3).
  assert (Hstay : exists st' S', (let! st := (let! st := (if nfl =? 0 then Ret st3 else Ret (set_node st3 s (page_to_nid st p) (add_partial n p tail))) in exchange st p (sl_freelist st1 p) (counters st1 p) nfl (set_frozen 0 new)) in Ret (set_cpu st s cpu (mk_cpu 0 (c_tid (cpu_of st s cpu)) None))) = Ret st'
      /\ config_kept st st' /\ contents_kept st st' A /\ c_page (cpu_of st' s cpu) = None /\ rep st' (heads st') S' A).
  { destruct (Z.eqb_spec nfl 0) as [Hz|Hz]; cbn [obind].
    - rewrite exchange_run by done. cbn [obind]. apply Hfin; [done|done|]. by eapply (final_full st S A s cpu p b).
    - rewrite exchange_run by done. cbn [obind]. apply Hfin; [|done|by eapply (final_partial st S A s cpu p b)].
      apply (config_kept_trans st st3); [done|]. split; [apply (config_set_node st3)|].
      intros s' nid'. intros Hn0. change (is_Some (get_node (set_node st3 s (page_to_nid st p) (add_partial n p tail)) s' nid')).
      rewrite node_set_node. by case_decide. }
  destruct (Z.eqb_spec (sb_objs b - Z.of_nat (length f)) 0) as [Hz|Hz]; cbn [obind].
  - destruct (nr_partial n >=? min_partial (sl_cache st3 s)); cbn [obind].
    + rewrite exchange_run by done. cbn [obind].
      destruct (final_free st S A s cpu p b (c_tid (cpu_of st s cpu)) Hr Hb Hh Hp st3 f nfl new Hd3 HP) as (st6 & S' & -> & Hc6 & Hm6 & Hr6); [lia|].
      cbn [obind]. apply Hfin; [split; [|unfold get_node]; by rewrite Hc6|done|]. exists S'. unfold cpu_of at 1 2. by rewrite Hc6.
    + destruct (nfl =? 0); exact Hstay.
  - destruct (nfl =? 0); exact Hstay.
Qed.

End Put.
