(* ===== verification/SlubAlloc.v ===== *)
(** * The slab allocator: allocation

    The slow path ___slab_alloc(), the fast path slab_alloc_node() and the
    clearing of the object. *)

From S2P Require Import Prelude Bitops Memblock Buddy BuddyInv PageOwner Slub SlubInv SlubLists SlubNew.
From stdpp Require Import base list numbers option functions gmap.
#[local] Open Scope Z_scope.
#[local] Open Scope kernel_scope.

Section Alloc.
Context {St : Type} {PA : PageAllocator St} {PL : PageAllocatorLaws St} (m : layout) (cpu_node : Z -> Z).
Context (Hlay : layout_ok m pa_lo pa_hi).
Implicit Types st : slub St.
#[local] Abbreviation rep := (rep m).

(** What an allocation from cache [s] makes of the live objects [A]. *)
Record handed_out st (A : gmap Z Z) (s : Z) st' (x : Z) : Prop := {
  ho_config : config_kept st st';
  ho_contents : contents_kept st st' A;
  ho_none : x = 0 -> exists S, rep st' (heads st') S A;
  ho_some : x <> 0 -> A !! x = None /\ exists S, rep st' (heads st') S (<[x := s]> A)
}.

Lemma config_size_kept st st' s : config_kept st st' -> kc_size (sl_cache st' s) = kc_size (sl_cache st s).
Proof. intros [H _]. apply (H s). Qed.

Lemma handed_trans st st1 A s st' x :
  config_kept st st1 -> contents_kept st st1 A -> handed_out st1 A s st' x -> handed_out st A s st' x.
Proof.
  intros Hc Hk [Hc' Hk' Hn Hs]. split; try done; [by apply (config_kept_trans st st1)|].
  apply (contents_trans st st1); try done. intros s'. by apply config_size_kept.
Qed.

Lemma load_handed st S A s cpu p fl :
  rep st (hd_at (heads st) s cpu fl) S A -> c_page (cpu_of st s cpu) = Some p -> fl <> 0 ->
  exists st', load_freelist st s cpu fl = Ret (st', fl) /\ handed_out st A s st' fl.
Proof.
  intros Hr Hp Hfl. destruct (load_freelist_spec m Hlay st S A s cpu p fl Hr Hp Hfl) as (st' & S' & E & HA & Hr' & Hc & Hm).
  exists st'. split; [done|]. split; [done|by apply contents_mem|done|]. intros _. split; [done|by exists S'].
Qed.

Definition alloc_node_ok (node cpu : Z) : Prop := pa_node (if node =? NUMA_NO_NODE then cpu_node cpu else node).

Definition search_node (node cpu : Z) : Z := if node =? NUMA_NO_NODE then cpu_node cpu else node.

Lemma alloc_new_spec st S A s node cpu :
  rep st (heads st) S A -> cache_ready st s -> c_page (cpu_of st s cpu) = None -> alloc_node_ok node cpu ->
  (alloc_new m cpu_node st s node cpu = Panic /\ refused st s (search_node node cpu) Panic)
  \/ exists st' x, alloc_new m cpu_node st s node cpu = Ret (st', x) /\ handed_out st A s st' x
       /\ (x = 0 -> refused st s (search_node node cpu) (Ret (sl_pages st', None))).
Proof.
  intros Hr Hrd Hno Hn. unfold alloc_new.
  destruct (new_slab_objects_spec m Hlay cpu_node st S A s node cpu Hr Hrd Hno Hn) as [[-> Hrf]|(st1 & fl & -> & (Hc & Hk & Hz & Hnz) & Hrf)];
    cbn [obind]; [by left|right]. destruct (Z.eqb_spec fl 0) as [->|Hne].
  - exists st1, 0. split; [done|]. split; [|done]. split; try done.
  - destruct (Hnz Hne) as (p & S1 & Hp & Hr1). destruct (load_handed st1 S1 A s cpu p fl Hr1 Hp Hne) as (st' & -> & Hh).
    exists st', fl. split; [done|]. split; [by apply (handed_trans st st1)|done].
Qed.

Lemma hd_at_self (h : Z -> Z -> Z) s cpu s' cpu' : hd_at h s cpu (h s cpu) s' cpu' = h s' cpu'.
Proof. unfold hd_at. case_decide as E; [|done]. by destruct E as [-> ->]. Qed.

(** The state [st0] in which a new slab is looked for: the CPU has no slab of
    the cache, or had one without a free object, or gave up one of another
    node. *)
Inductive without_slab st (s node cpu : Z) : slub St -> Prop :=
  | ws_none : c_page (cpu_of st s cpu) = None -> without_slab st s node cpu st
  | ws_full p st1 : c_page (cpu_of st s cpu) = Some p -> c_freelist (cpu_of st s cpu) = 0 -> sl_freelist st p = 0 -> get_freelist st p = Ret (st1, 0) ->
      without_slab st s node cpu (set_cpu st1 s cpu (mk_cpu 0 (c_tid (cpu_of st s cpu)) None))
  | ws_away p st1 : c_page (cpu_of st s cpu) = Some p -> node_match st p node = false ->
      deactivate_slab st s p (c_freelist (cpu_of st s cpu)) cpu = Ret st1 -> without_slab st s node cpu st1.

(** An allocation came to nothing: a new slab was needed and the page allocator
    answered [r]. *)
Definition starved st (s node cpu : Z) (r : outcome (St * option Z)) : Prop :=
  exists st0, without_slab st s node cpu st0 /\ refused st0 s (search_node node cpu) r.

Lemma get_freelist_is st p st1 fl : get_freelist st p = Ret (st1, fl) -> fl = sl_freelist st p.
Proof. unfold get_freelist. destruct (VM_BUG_ON _); try done. cbn [obind]. destruct (exchange _ _ _ _ _ _); cbn [obind]; congruence. Qed.

Lemma ___slab_alloc_spec st S A s node cpu :
  rep st (heads st) S A -> cache_ready st s -> alloc_node_ok node cpu ->
  (___slab_alloc m cpu_node st s node cpu = Panic /\ starved st s node cpu Panic)
  \/ exists st' x, ___slab_alloc m cpu_node st s node cpu = Ret (st', x) /\ handed_out st A s st' x
       /\ (x = 0 -> starved st s node cpu (Ret (sl_pages st', None))).
Proof.
  intros Hr Hrd Hn. unfold ___slab_alloc. destruct (c_page (cpu_of st s cpu)) as [p|] eqn:Ep.
  2:{ assert (Hws : without_slab st s node cpu st) by (by apply ws_none).
      destruct (alloc_new_spec st S A s node cpu Hr Hrd Ep Hn) as [[-> Hrf]|(st' & x & -> & Hh & Hrf)]; [left|right; exists st', x]; split_and!; try done; [by exists st|].
      intros Hx. exists st. auto. }
  destruct (node_match st p node) eqn:Enm; cbn [negb].
  - destruct (Z.eqb_spec (c_freelist (cpu_of st s cpu)) 0) as [Ez|Ez]; cbn [negb].
    + destruct (get_freelist_spec m Hlay st S A s cpu p Hr Ep Ez) as (st1 & fl & Eg & Hc & Hm & Hcp & Hnz & Hz).
      rewrite Eg. cbn [obind]. destruct (Z.eqb_spec fl 0) as [Hf|Hf].
      * rewrite Hcp, Ez. destruct (Hz Hf (c_tid (cpu_of st s cpu))) as (S1 & Hr1). set (st2 := set_cpu _ _ _ _) in *.
        assert (Hc2 : config_kept st st2).
        { apply (config_kept_trans st st1); [done|]. split; [apply config_set_cpu|]. intros s' nid. unfold st2. by rewrite node_set_cpu. }
        assert (Hws : without_slab st s node cpu st2) by (apply (ws_full st s node cpu p st1); [done|done|by rewrite <- (get_freelist_is _ _ _ _ Eg)|by rewrite Eg, Hf]).
        destruct (alloc_new_spec st2 S1 A s node cpu Hr1) as [[-> Hrf]|(st' & x & -> & Hh & Hrf)]; try done;
          [by apply (config_ready st)|unfold st2; by rewrite cpu_set_cpu, decide_True|left; split; [done|by exists st2]|].
        right. exists st', x. split; [done|]. split; [|intros Hx; exists st2; auto]. apply (handed_trans st st2); try done. by apply contents_mem.
      * destruct (Hnz Hf) as (S1 & Hr1). right.
        destruct (load_handed st1 S1 A s cpu p fl Hr1) as (st' & -> & Hh); [by rewrite Hcp|done|].
        exists st', fl. split; [done|]. split; [|done]. apply (handed_trans st st1); try done. by apply contents_mem.
    + right. destruct (load_handed st S A s cpu p (c_freelist (cpu_of st s cpu))) as (st' & -> & Hh); [|done|done|eexists _, _; split_and!; done].
      apply (rep_hd m st (heads st)); [done|]. intros. apply (hd_at_self (heads st)).
  - destruct (deactivate_slab_spec m Hlay st S A s cpu p Hr Ep) as (st1 & S1 & E & Hc & Hk & Hno & Hr1).
    unfold heads in E. rewrite E. cbn [obind].
    assert (Hws : without_slab st s node cpu st1) by (by apply (ws_away st s node cpu p)).
    destruct (alloc_new_spec st1 S1 A s node cpu Hr1) as [[-> Hrf]|(st' & x & -> & Hh & Hrf)]; try done;
      [by apply (config_ready st)|left; split; [done|by exists st1]|right]. exists st', x. split; [done|]. split; [by apply (handed_trans st st1)|intros Hx; exists st1; auto].
Qed.

(** The [n] bytes at [x] are zero: the words, and the low bytes of a word that
    the end cuts. *)
Definition cleared st (x n : Z) : Prop :=
  forall a, x <= a < x + n -> if a + WORD <=? x + n then sl_mem st a = 0 else sl_mem st a mod 2 ^ (8 * (x + n - a)) = 0.

(** Clearing an object that was just handed out. *)
Lemma clear_handed st A s st' x :
  cache_ready st s -> handed_out st A s st' x -> x <> 0 ->
  let st2 := clear_object st' x (object_size (sl_cache st' s)) in
  handed_out st A s st2 x /\ cleared st2 x (object_size (sl_cache st s)).
Proof.
  intros (_ & Hk & _) [Hc Hcon Hn Hs] Hx. cbn zeta. set (st2 := clear_object _ _ _).
  destruct (Hs Hx) as (HA & S & Hr).
  assert (Hcfg := proj1 Hc s). destruct Hcfg as (_ & _ & Es & Eo & _).
  pose proof (co_object _ Hk) as [Hos1 Hos].
  assert (Hin : forall a, sl_mem st2 a <> sl_mem st' a -> x <= a < x + kc_size (sl_cache st' s)).
  { intros a Hne. cbn in Hne. destruct (Z.leb_spec x a); [|done].
    cbn [andb] in Hne. destruct (Z.leb_spec (a + WORD) (x + object_size (sl_cache st' s))) as [Hw|]; [|destruct (Z.ltb_spec a (x + object_size (sl_cache st' s))); [|done]];
      rewrite Es, <- Eo in *; unfold WORD in *; lia. }
  split; [split|].
  - done.
  - intros y s' a Hy Ha. rewrite <- (Hcon y s' a Hy Ha).
    destruct (Z.eq_dec (sl_mem st2 a) (sl_mem st' a)) as [|Hne]; [done|]. specialize (Hin a Hne). exfalso.
    assert (Hy' : <[x := s]> A !! y = Some s') by (rewrite lookup_insert_ne; [done|congruence]).
    assert (Hx' : <[x := s]> A !! x = Some s) by apply lookup_insert_eq.
    apply (rp_live _ _ _ _ _ Hr) in Hy' as (p & b & Hb & <- & Hob & _). apply (rp_live _ _ _ _ _ Hr) in Hx' as (p' & b' & Hb' & <- & Hob' & _).
    assert (x = y) as ->; [|congruence].
    apply (objs_apart m Hlay st' (heads st') S _ p' b' p b x y a Hr); try done.
    by rewrite (config_size_kept st st' _ Hc).
  - done.
  - intros _. split; [done|]. exists S. apply (rep_client m Hlay st' (sl_mem st2) (heads st') S _ Hr).
    intros a Hne. exists x, s. split; [apply lookup_insert_eq|by apply Hin].
  - intros a Ha. cbn. rewrite Eo. destruct (Z.leb_spec x a); [|lia]. cbn [andb].
    destruct (Z.leb_spec (a + WORD) (x + object_size (sl_cache st s))); [done|]. destruct (Z.ltb_spec a (x + object_size (sl_cache st s))); [|lia].
    rewrite Z.shiftl_mul_pow2 by lia. apply Z.mod_mul. pose proof (Z.pow_pos_nonneg 2 (8 * (x + object_size (sl_cache st s) - a))). lia.
Qed.

(** The fast path is the hand-out of the first object of the CPU's list. *)
Lemma fast_handed st S A s cpu p :
  rep st (heads st) S A -> c_page (cpu_of st s cpu) = Some p -> c_freelist (cpu_of st s cpu) <> 0 ->
  let c := cpu_of st s cpu in
  exists st', set_cpu st s cpu (mk_cpu (get_freepointer st s (c_freelist c)) (next_tid (c_tid c)) (Some p)) = st'
    /\ handed_out st A s st' (c_freelist c).
Proof.
  intros Hr Ep Ez. cbn zeta. destruct (load_handed st S A s cpu p (c_freelist (cpu_of st s cpu))) as (st1 & E & Hh); [|done|done|].
  { apply (rep_hd m st (heads st)); [done|]. intros. apply (hd_at_self (heads st)). }
  exists st1. split; [|done]. unfold load_freelist in E. rewrite Ep in E. destruct (VM_BUG_ON _); try done. cbn [obind] in E. by injection E.
Qed.

Definition zeroed st (s : Z) (zero : bool) st' (x : Z) : Prop :=
  zero = true -> x <> 0 -> cleared st' x (object_size (sl_cache st s)).

Lemma slab_alloc_node_spec st S A s node cpu zero :
  rep st (heads st) S A -> cache_ready st s -> alloc_node_ok node cpu ->
  (slab_alloc_node m cpu_node st s node cpu zero = Panic /\ starved st s node cpu Panic)
  \/ exists st' x, slab_alloc_node m cpu_node st s node cpu zero = Ret (st', x) /\ handed_out st A s st' x
       /\ zeroed st s zero st' x /\ (x = 0 -> starved st s node cpu (Ret (sl_pages st', None))).
Proof.
  intros Hr Hrd Hn.
  assert (Hend : forall st1 x, handed_out st A s st1 x -> (x = 0 -> starved st s node cpu (Ret (sl_pages st1, None))) -> exists st' x',
    (if zero && negb (x =? 0) then Ret (clear_object st1 x (object_size (sl_cache st1 s)), x) else Ret (st1, x)) = Ret (st', x')
    /\ handed_out st A s st' x' /\ zeroed st s zero st' x' /\ (x' = 0 -> starved st s node cpu (Ret (sl_pages st', None)))).
  { intros st1 x Hh Hrf. unfold zeroed. destruct zero; cbn [andb]; [|by exists st1, x].
    destruct (Z.eqb_spec x 0) as [->|Hx]; cbn [negb]; [by exists st1, 0|].
    destruct (clear_handed st A s st1 x Hrd Hh Hx) as [H1 H2]. eexists _, x. split; [done|]. split; [done|]. split; [by intros _ _|done]. }
  assert (Hslow : ((let! (st1, x) := ___slab_alloc m cpu_node st s node cpu in
     if zero && negb (x =? 0) then Ret (clear_object st1 x (object_size (sl_cache st1 s)), x) else Ret (st1, x)) = Panic /\ starved st s node cpu Panic)
   \/ exists st' x, (let! (st1, x) := ___slab_alloc m cpu_node st s node cpu in
     if zero && negb (x =? 0) then Ret (clear_object st1 x (object_size (sl_cache st1 s)), x) else Ret (st1, x)) = Ret (st', x)
     /\ handed_out st A s st' x /\ zeroed st s zero st' x /\ (x = 0 -> starved st s node cpu (Ret (sl_pages st', None)))).
  { destruct (___slab_alloc_spec st S A s node cpu Hr Hrd Hn) as [[-> Hsv]|(st1 & x & -> & Hh & Hrf)]; [by left|right]. by apply Hend. }
  unfold slab_alloc_node. destruct (Z.eqb_spec (c_freelist (cpu_of st s cpu)) 0) as [Ez|Ez]; [exact Hslow|].
  destruct (c_page (cpu_of st s cpu)) as [p|] eqn:Ep; [|by destruct Ez; apply (rp_idle _ _ _ _ _ Hr)]. cbn [obind].
  destruct (node_match st p node); cbn [negb]; [right|exact Hslow].
  destruct (fast_handed st S A s cpu p Hr Ep Ez) as (st1 & E & Hh). cbn [obind]. rewrite E. by apply Hend.
Qed.

Lemma slab_alloc_node_fast st S A s cpu p :
  rep st (heads st) S A -> c_page (cpu_of st s cpu) = Some p -> heads st s cpu <> 0 ->
  exists st', slab_alloc_node m cpu_node st s NUMA_NO_NODE cpu false = Ret (st', heads st s cpu)
    /\ handed_out st A s st' (heads st s cpu).
Proof.
  intros Hr Hp Hne. destruct (fast_handed st S A s cpu p Hr Hp Hne) as (st1 & E & Hh). exists st1. split; [|done].
  unfold slab_alloc_node. unfold heads in Hne. destruct (Z.eqb_spec (c_freelist (cpu_of st s cpu)) 0); [done|].
  rewrite Hp in *. cbn [node_match Z.eqb orb negb obind andb]. cbn [negb]. rewrite E. done.
Qed.

End Alloc.

(** * The slab allocator: freeing

    The fast path of do_slab_free() puts an object on the CPU's list; the slow
    path __slab_free() puts it on its slab's own list and may list the slab or
    return it to the page allocator. *)

Section Free.
Context {St : Type} {PA : PageAllocator St} {PL : PageAllocatorLaws St} (m : layout).
Context (Hlay : layout_ok m pa_lo pa_hi).
Implicit Types st : slub St.
#[local] Abbreviation slab_frame := (slab_frame m).
#[local] Abbreviation rep := (rep m).
#[local] Abbreviation slab_core := (slab_core m).
#[local] Abbreviation is_obj := (is_obj m).

(** What freeing object [x] makes of the live objects [A]. *)
Record taken_back st (A : gmap Z Z) (x : Z) st' : Prop := {
  tb_config : config_kept st st';
  tb_contents : contents_kept st st' (delete x A);
  tb_rep : exists S, rep st' (heads st') S (delete x A)
}.

(** A write into [x] alone touches no other object. *)
Lemma contents_word st S A x s a st' :
  rep st (heads st) S A -> A !! x = Some s -> x <= a < x + kc_size (sl_cache st s) ->
  (forall a', a' <> a -> sl_mem st' a' = sl_mem st a') -> contents_kept st st' (delete x A).
Proof.
  intros Hr HA Ha Hm y s' a' Hy Ha'. apply lookup_delete_Some in Hy as [Hne Hy]. apply Hm. intros ->.
  apply (rp_live _ _ _ _ _ Hr) in Hy as (p & b & Hb & <- & Hob & _). apply (rp_live _ _ _ _ _ Hr) in HA as (p' & b' & Hb' & <- & Hob' & _).
  by apply Hne, (objs_apart m Hlay st (heads st) S A p' b' p b x y a Hr).
Qed.

Section Object.
Context (st : slub St) (S : gmap Z slab) (A : gmap Z Z) (s x p : Z) (b : slab).
Context (Hr : rep st (heads st) S A) (Hb : S !! p = Some b) (Hs : sb_cache b = s)
  (Hx : is_obj st p b x) (Hlive : x ∉ unused b).
#[local] Abbreviation off := (kc_offset (sl_cache st s)).

Lemma fr_core : slab_core st (heads st) p b /\ cache_ready st s.
Proof. rewrite <- Hs. by apply Hr. Qed.

Lemma fr_nonzero : x <> 0.
Proof.
  destruct fr_core as [Hc (_ & Hk & _)]. destruct Hx as (i & Hi & ->). unfold obj_at.
  rewrite (owned_address m Hlay _ p _ (rp_pages _ _ _ _ _ Hr) (sc_owned _ _ _ _ _ Hc)).
  pose proof (linear_base_pos m pa_lo pa_hi Hlay). destruct (pa_owned_block _ _ _ (sc_owned _ _ _ _ _ Hc)) as (_ & ? & _).
  rewrite Hs. pose proof (co_size _ Hk). assert (0 < PAGE_SIZE) by done. nia.
Qed.

Lemma fr_live : A !! x = Some s.
Proof. apply (live_here m Hlay st (heads st) S A p b x s Hr Hb Hx). done. Qed.

Lemma fr_nodup : NoDup (sb_free b ++ x :: sb_cpu b) /\ forall y, y ∈ sb_free b ++ x :: sb_cpu b -> is_obj st p b y.
Proof.
  destruct fr_core as [Hc _]. pose proof (Permutation_middle (sb_free b) (sb_cpu b) x) as HP. split.
  - rewrite <- HP. apply list.NoDup_cons. split; [done|apply Hc].
  - intros y. rewrite <- HP, elem_of_cons. intros [->|Hy]; [done|by apply Hc].
Qed.

(** The object joins the unused ones of a slab that stays. *)
Lemma fr_insert st' b' :
  slab_frame st st' p (sb_order b) -> same_shape b b' -> slab_core st' (heads st') p b' ->
  (forall y, y ∈ unused b' <-> y ∈ unused b \/ y = x) ->
  (forall p' c cpu, p' <> p -> S !! p' = Some c -> sb_home c = OnCpu cpu -> heads st' (sb_cache c) cpu = heads st (sb_cache c) cpu) ->
  (forall s' cpu, c_page (cpu_of st' s' cpu) = c_page (cpu_of st s' cpu)) ->
  (forall s' cpu, c_page (cpu_of st s' cpu) = None -> heads st' s' cpu = 0) ->
  (forall cpu, sb_home b' = OnCpu cpu <-> sb_home b = OnCpu cpu) -> nodes_ok st' (<[p := b']> S) ->
  contents_kept st st' (delete x A) -> taken_back st A x st'.
Proof.
  intros Hf Hsh Hc Hu Hhd Hpg Hidle Hh Hn Hk. split; [by apply (frame_config m st st' p (sb_order b))|done|].
  exists (<[p := b']> S). apply (rep_insert m Hlay st st' (heads st) _ S A _ p b b' Hr Hb Hf Hsh Hc Hhd); try done.
  - apply (cpus_same st st' S p b b'); try done. apply Hr.
  - intros s' cpu. rewrite Hpg. apply Hidle.
  - by apply (live_free m Hlay st st' (heads st) S A p (sb_order b) b b' x Hr Hf Hb Hsh Hx).
Qed.

(** ** The fast path *)

Lemma fast_free cpu tid :
  c_page (cpu_of st s cpu) = Some p ->
  taken_back st A x (set_cpu (set_word st (x + off) (heads st s cpu)) s cpu (mk_cpu x tid (Some p))).
Proof.
  intros Hp. destruct fr_core as [Hc Hrd]. destruct fr_nodup as [Hnd Hobj]. pose proof fr_nonzero as Hx0.
  pose proof (rp_pages _ _ _ _ _ Hr) as Hok. pose proof (objs_small m b st _ p Hc) as Hn.
  assert (Hh : sb_home b = OnCpu cpu).
  { destruct (proj1 (rp_cpus _ _ _ _ _ Hr s cpu p) Hp) as (b0 & Hb0 & _ & ?). congruence. }
  set (st1 := set_word st _ _). set (st2 := set_cpu st1 s cpu _). set (b' := set_lists b (sb_free b) (x :: sb_cpu b) (OnCpu cpu)).
  assert (Hf1 : slab_frame st st1 p (sb_order b)).
  { pose proof (word_frame m st p b) as Hw. rewrite Hs in Hw. apply Hw; [apply Hrd|rewrite <- Hs; apply Hc|by apply frame_refl|done]. }
  assert (Hf2 : slab_frame st st2 p (sb_order b)) by (apply (frame_trans m st st1); [done|]; by apply frame_set_cpu).
  assert (Hd : (x ∉ sb_free b) /\ (x ∉ sb_cpu b)) by (unfold unused in Hlive; rewrite elem_of_app in Hlive; tauto). destruct Hd as [Hd1 Hd2].
  pose proof Hc as [_ _ _ _ _ _ _ Hch _ _ Hhm]. rewrite Hh, Hs in Hhm. rewrite Hs in Hch.
  apply (fr_insert st2 b' Hf2); try done.
  - apply (core_set m st st2 (heads st) _ p b (sb_free b) (x :: sb_cpu b) (OnCpu cpu)); try done; rewrite ?Hs.
    + pose proof (core_regs m st _ p b Hc) as []. rewrite Hh in *. done.
    + by apply chain_other.
    + unfold heads, st2. rewrite cpu_set_cpu, decide_True by done. by apply chain_push.
  - intros y. unfold unused, b'. cbn. rewrite !elem_of_app, elem_of_cons. tauto.
  - intros p' c cpu' Hne Hc' Hh'. unfold heads, st2. rewrite cpu_set_cpu. case_decide as E; [|done]. destruct E as [E ->].
    destruct Hne. assert (c_page (cpu_of st s cpu) = Some p') by (apply Hr; by exists c). congruence.
  - intros s' cpu'. unfold st2. rewrite cpu_set_cpu. case_decide as E; [|done]. destruct E as [-> ->]. by rewrite Hp.
  - intros s' cpu' Hno. unfold heads, st2. rewrite cpu_set_cpu. case_decide as E; [destruct E as [-> ->]; congruence|].
    by apply (rp_idle _ _ _ _ _ Hr).
  - intros cpu'. by rewrite Hh.
  - apply nodes_set_cpu. apply (nodes_keep st st1 S p b b'); try done; [apply Hr|by rewrite Hh].
  - apply (contents_word st S A x s (x + off)); try done; [apply fr_live| |].
    + destruct Hrd as (_ & Hk & _). destruct (co_offset _ Hk). unfold WORD in *. lia.
    + intros a Ha. cbn. by rewrite fn_lookup_insert_ne.
Qed.

(** ** The slow path *)

Definition put_back : slub St :=
  exchanged (set_word st (x + off) (sl_freelist st p)) p x (set_inuse (ct_inuse (counters st p) - 1) (counters st p)).

Lemma put_back_spec :
  slab_frame st put_back p (sb_order b) /\ slab_regs put_back p b (x :: sb_free b) (sb_home b)
  /\ chain (sl_mem put_back) off (sl_freelist put_back p) (x :: sb_free b).
Proof.
  destruct fr_core as [Hc (_ & Hk & _)]. destruct fr_nodup as [Hnd Hobj].
  pose proof (push_spec m st p b (objs_small m b st _ p Hc)) as H. rewrite Hs in H.
  apply (H Hk ltac:(rewrite <- Hs; apply Hc) st (sb_free b) x (sb_cpu b) (sb_home b)); try done;
    [apply frame_refl, Hr|by apply (core_regs m st (heads st))|rewrite <- Hs; apply Hc|apply fr_nonzero].
Qed.

Lemma put_back_contents st' : (forall a, a <> x + off -> sl_mem st' a = sl_mem st a) -> contents_kept st st' (delete x A).
Proof.
  intros Hm. apply (contents_word st S A x s (x + off)); try done; [apply fr_live|].
  destruct fr_core as [_ (_ & Hk & _)]. destruct (co_offset _ Hk). unfold WORD in *. lia.
Qed.

Lemma put_back_mem a : a <> x + off -> sl_mem put_back a = sl_mem st a.
Proof. intros Ha. cbn. by rewrite fn_lookup_insert_ne. Qed.

(** The slab stays where it is, or goes from no list to the partial list. *)
Lemma put_back_stay h st' :
  h = sb_home b \/ (h = OnPartial /\ sb_home b = Nowhere) ->
  (h = Nowhere -> False) -> st' = put_back \/ (exists nid n, st' = set_node put_back s nid n) ->
  nodes_ok st' (<[p := set_lists b (x :: sb_free b) (sb_cpu b) h]> S) -> taken_back st A x st'.
Proof.
  intros Hh Hno Hst Hn. destruct put_back_spec as (Hf & Hregs & Hch). destruct fr_core as [Hc _]. destruct fr_nodup as [Hnd Hobj].
  pose proof (Permutation_middle (sb_free b) (sb_cpu b) x) as HP. pose proof (rp_pages _ _ _ _ _ Hr) as Hok.
  assert (Hcpu : forall s' cpu, cpu_of st' s' cpu = cpu_of st s' cpu).
  { intros s' cpu. destruct Hst as [->|(nid & n & ->)]; [done|]. by rewrite cpu_set_node. }
  assert (Hmem : sl_mem st' = sl_mem put_back) by (by destruct Hst as [->|(nid & n & ->)]).
  assert (Hfl : sl_freelist st' = sl_freelist put_back) by (by destruct Hst as [->|(nid & n & ->)]).
  assert (Hpgs : sl_pages st' = sl_pages put_back) by (by destruct Hst as [->|(nid & n & ->)]).
  assert (Hf' : slab_frame st st' p (sb_order b)).
  { destruct Hst as [->|(nid & n & ->)]; [done|]. apply (frame_trans m st put_back); [done|]. apply frame_set_node, Hf. }
  apply (fr_insert st' (set_lists b (x :: sb_free b) (sb_cpu b) h) Hf'); try done.
  - apply (core_set m st st' (heads st) _ p b (x :: sb_free b) (sb_cpu b) h); try done.
    + destruct Hregs as [R1 R2 R3 R4 R5 R6]. unfold struct_page, counters in *. split; unfold counters, struct_page; rewrite Hpgs; try done.
      unfold struct_page in R6. rewrite R6. destruct Hh as [->|[-> ->]]; done.
    + cbn [app]. by rewrite HP.
    + intros y. cbn [app]. rewrite HP. apply Hobj.
    + rewrite Hmem, Hfl, Hs. done.
    + pose proof (sc_home _ _ _ _ _ Hc) as Hhm. destruct h as [cpu| |]; [| |by destruct Hno].
      * destruct Hh as [Hh|[Hh _]]; [|done]. rewrite <- Hh in Hhm. unfold heads in *. rewrite Hcpu, Hmem.
        apply (chain_frame (sl_mem st)); [|done]. intros y Hy. apply put_back_mem. rewrite Hs. intros E.
        apply Hlive, elem_of_app. right. by replace x with y by lia.
      * split; [|done]. destruct Hh as [Hh|[_ Hh]]; rewrite <- ?Hh, ?Hh in Hhm; tauto.
  - intros y. unfold unused. cbn. rewrite elem_of_cons, !elem_of_app. tauto.
  - intros p' c cpu _ _ _. unfold heads. by rewrite Hcpu.
  - intros s' cpu. by rewrite Hcpu.
  - intros s' cpu Hnone. unfold heads. rewrite Hcpu. by apply (rp_idle _ _ _ _ _ Hr).
  - intros cpu. cbn. destruct Hh as [->|[-> ->]]; done.
  - apply put_back_contents. intros a Ha. rewrite Hmem. by apply put_back_mem.
Qed.

(** The slab goes back to the page allocator. *)
Lemma put_back_discard st3 :
  sb_cpu b = [] -> sb_objs b = Z.of_nat (length (sb_free b)) + 1 ->
  (st3 = put_back /\ sb_home b = Nowhere)
  \/ (exists n, sb_home b = OnPartial /\ get_node st s (page_to_nid st p) = Some n
       /\ st3 = set_node put_back s (page_to_nid st p) (remove_partial n p)) ->
  exists st', discard_slab st3 p = Ret st' /\ taken_back st A x st'.
Proof.
  intros Hcpu0 Hall Hst. destruct put_back_spec as (Hf & Hregs & _). destruct fr_core as [Hc _]. destruct fr_nodup as [Hnd Hobj].
  assert (Hnh : forall cpu, sb_home b <> OnCpu cpu) by (intros cpu E; destruct Hst as [[_ ?]|(n & ? & _)]; congruence).
  assert (Hf3 : slab_frame st st3 p (sb_order b)).
  { destruct Hst as [[-> _]|(n & _ & _ & ->)]; [done|]. apply (frame_trans m st put_back); [done|]. apply frame_set_node, Hf. }
  destruct (discard_slab_spec m st3 p (sb_order b)) as (st' & -> & Hfd & Hcd & Hmd & _); [apply Hf3| | |].
  { destruct Hst as [[-> _]|(n & _ & _ & ->)]; apply Hregs. }
  { destruct Hst as [[-> _]|(n & _ & _ & ->)]; apply Hregs. }
  exists st'. split; [done|]. assert (Hf' : slab_frame st st' p (sb_order b)) by (by apply (frame_trans m st st3)).
  assert (Hcpu : forall s' cpu, cpu_of st' s' cpu = cpu_of st s' cpu).
  { intros s' cpu. unfold cpu_of at 1. rewrite Hcd. destruct Hst as [[-> _]|(n & _ & _ & ->)]; [done|]. apply (cpu_set_node put_back). }
  split; [by apply (frame_config m st st' p (sb_order b))| |].
  { apply put_back_contents. intros a Ha. rewrite Hmd. destruct Hst as [[-> _]|(n & _ & _ & ->)]; by apply put_back_mem. }
  exists (delete p S). apply (rep_delete m Hlay st st' (heads st) _ S A _ p b Hr Hb Hf').
  - intros y s'. rewrite lookup_delete_Some. split; intros [H1 H2]; split; try done.
    + intros Hy. apply (live_here m Hlay st (heads st) S A p b y s' Hr Hb Hy) in H2 as [_ H2]. apply H2.
      assert (Hin : y ∈ sb_free b ++ x :: sb_cpu b); [|unfold unused; rewrite elem_of_app in *; rewrite elem_of_cons in Hin; destruct Hin as [?|[E|?]]; [tauto|by destruct H1|tauto]].
      apply (objs_all m st p b); try done; [lia|]. rewrite length_app, Hcpu0. cbn [length]. lia.
    + intros <-. done.
  - intros p' c cpu _ _ _. unfold heads. by rewrite Hcpu.
  - apply (cpus_step st st' S _ p); [apply Hr|intros; by rewrite lookup_delete_ne|intros; by rewrite Hcpu|].
    intros s' cpu. rewrite Hcpu, lookup_delete_eq, (rp_cpus _ _ _ _ _ Hr s' cpu p). split; [|by intros (? & ? & _)].
    intros (b0 & Hb0 & _ & Hh0). rewrite Hb in Hb0. injection Hb0 as <-. by destruct (Hnh cpu).
  - destruct Hst as [[-> Hh]|(n & Hh & Hn & ->)].
    + apply (nodes_gone m st st' S p b (heads st) A); try done; [by rewrite Hh|]. intros s' nid. unfold get_node. by rewrite Hcd.
    + apply (nodes_remove st st' S _ p b s (page_to_nid st p) n); try done; [apply Hr|intros; by rewrite lookup_delete_ne| | |].
      * intros s'. rewrite lookup_delete_eq. by intros (b0 & ? & _).
      * intros p' c Hne Hc'. destruct (rp_slab _ _ _ _ _ Hr p' c Hc') as [Hcc _].
        unfold page_to_nid. by destruct (sf_owned _ _ _ _ _ Hf' p' _ Hne (sc_owned _ _ _ _ _ Hcc)) as [_ ->].
      * intros s' nid'. unfold get_node at 1. rewrite Hcd. apply (node_set_node put_back).
  - intros s' cpu. unfold heads. rewrite Hcpu. apply (rp_idle _ _ _ _ _ Hr).
Qed.

Lemma put_back_inuse :
  ct_inuse (set_inuse (ct_inuse (counters st p) - 1) (counters st p)) = sb_objs b - (Z.of_nat (length (sb_free b)) + 1).
Proof.
  destruct put_back_spec as (_ & Hregs & _). pose proof (sr_inuse _ _ _ _ _ Hregs) as H. unfold put_back in H.
  rewrite exchanged_counters in H. rewrite H. cbn [length]. lia.
Qed.

Lemma __slab_free_spec : exists st', __slab_free st s p x x 1 = Ret st' /\ taken_back st A x st'.
Proof.
  destruct fr_core as [Hc Hrd]. pose proof Hc as [Ho _ _ _ _ Hin Hfr Hch _ _ Hhm]. pose proof (rp_pages _ _ _ _ _ Hr) as Hok.
  destruct Hrd as (_ & _ & Hnode). destruct (Hnode (page_to_nid st p)) as [n En]; [by apply (pa_owned_node _ p (sb_order b))|].
  unfold __slab_free, set_freepointer. rewrite exchange_run by done. cbn [obind]. change (exchanged _ _ _ _) with put_back.
  change (get_node put_back s _) with (get_node st s (page_to_nid st p)). rewrite En, put_back_inuse, Hfr.
  change (min_partial (sl_cache put_back s)) with (min_partial (sl_cache st s)).
  set (empty := sb_objs b - (Z.of_nat (length (sb_free b)) + 1) =? 0).
  assert (Hempty : empty = true -> sb_objs b = Z.of_nat (length (sb_free b)) + 1) by (intros E; apply Z.eqb_eq in E; lia).
  assert (Hkeep : forall h, (h = OnPartial <-> sb_home b = OnPartial) -> nodes_ok put_back (<[p := set_lists b (x :: sb_free b) (sb_cpu b) h]> S)).
  { intros h Hh. apply (nodes_keep st put_back S p b); try done; [apply Hr|]. intros q c _. apply (exchanged_nid (set_word st (x + off) (sl_freelist st p))). }
  destruct (sb_home b) as [cpu| |] eqn:Eh; cbn [Z.eqb negb andb].
  - rewrite andb_false_r. cbn [negb]. exists put_back. split; [done|].
    apply (put_back_stay (OnCpu cpu)); [by left|done|by left|]. apply Hkeep. done.
  - destruct Hhm as [Hc0 Hne]. destruct (Z.eqb_spec (sl_freelist st p) 0) as [Ez|Ez]; [rewrite Ez in Hch; by apply chain_zero in Hch|].
    rewrite orb_false_r, andb_true_r.
    assert (Hstay : exists st', Ret put_back = Ret st' /\ taken_back st A x st').
    { exists put_back. split; [done|]. apply (put_back_stay OnPartial); [by left|done|by left|]. by apply Hkeep. }
    destruct empty eqn:Ee; cbn [negb andb]; [|exact Hstay].
    destruct (nr_partial n >=? min_partial (sl_cache st s)); [|exact Hstay].
    apply put_back_discard; [done|by apply Hempty|]. right. by exists n.
  - destruct Hhm as [Hc0 Hne]. rewrite Hne in Hch. cbn in Hch. rewrite Hch. cbn [Z.eqb orb andb]. rewrite orb_true_r. cbn [andb negb].
    destruct (empty && (nr_partial n >=? min_partial (sl_cache st s))) eqn:Ee.
    + apply andb_true_iff in Ee as [Ee _]. apply put_back_discard; [done|by apply Hempty|]. by left.
    + eexists. split; [done|]. apply (put_back_stay OnPartial); [by right|done|right; by eexists _, _|].
      apply (nodes_add st _ S p b _ s (page_to_nid st p) n true); try done; [apply Hr|by rewrite Eh| |].
      * intros q. apply (exchanged_nid (set_word st (x + off) (sl_freelist st p))).
      * intros s' nid'. apply (node_set_node put_back).
Qed.

Lemma do_slab_free_spec cpu : exists st', do_slab_free st s p x 0 1 cpu = Ret st' /\ taken_back st A x st'.
Proof.
  unfold do_slab_free. cbn [Z.eqb]. case_bool_decide as Ep; [|apply __slab_free_spec].
  eexists. split; [done|]. rewrite Ep. by apply fast_free.
Qed.
End Object.

(** ** From an address to its slab *)

Lemma live_slab st S A x s :
  rep st (heads st) S A -> A !! x = Some s ->
  exists p b, S !! p = Some b /\ sb_cache b = s /\ is_obj st p b x /\ (x ∉ unused b) /\ virt_to_head_page m st x = p.
Proof.
  intros Hr HA. destruct (proj1 (rp_live _ _ _ _ _ Hr x s) HA) as (p & b & Hb & Hs & Hx & Hu). exists p, b. split_and!; try done.
  destruct (rp_slab _ _ _ _ _ Hr p b Hb) as [Hc (_ & Hk & _)]. pose proof (rp_pages _ _ _ _ _ Hr) as Hok.
  pose proof (sc_owned _ _ _ _ _ Hc) as Ho. destruct (pa_owned_range _ _ _ Hok Ho) as [Hlo Hhi]. 
  pose proof (obj_word_area m st _ p b x 0 Hc Hx) as Ha. unfold in_area in Ha.
  rewrite (owned_address m Hlay _ p _ Hok Ho) in Ha. pose proof (co_size _ Hk). specialize (Ha ltac:(lia)).
  set (d := x - linear_base m) in *. assert (HS : 0 < PAGE_SIZE) by done.
  assert (Hq : in_blk p (sb_order b) (d / PAGE_SIZE)).
  { unfold in_blk. split; [apply Z.div_le_lower_bound; lia|apply Z.div_lt_upper_bound; lia]. }
  unfold virt_to_head_page. replace x with (linear_base m + PAGE_SIZE * (d / PAGE_SIZE) + d mod PAGE_SIZE).
  2:{ pose proof (Z.div_mod d PAGE_SIZE ltac:(lia)). lia. }
  rewrite (virt_to_pfn_eq m pa_lo pa_hi Hlay); [by apply (pa_owned_head _ p (sb_order b))|unfold in_blk in Hq; lia|].
  apply Z.mod_pos_bound. lia.
Qed.

Lemma kmem_cache_free_spec st S A s x cpu :
  rep st (heads st) S A -> A !! x = Some s ->
  exists st', kmem_cache_free m st s x cpu = Ret st' /\ taken_back st A x st'.
Proof.
  intros Hr HA. destruct (live_slab st S A x s Hr HA) as (p & b & Hb & Hs & Hx & Hu & Hp).
  destruct (rp_slab _ _ _ _ _ Hr p b Hb) as [Hc (Hs0 & _)]. rewrite Hs in Hs0.
  assert (E : cache_from_obj m st s x = s).
  { unfold cache_from_obj. rewrite Hp. case_match; [done|]. rewrite <- Hs. apply Hc. }
  unfold kmem_cache_free. rewrite E, Hp. destruct (Z.eqb_spec s 0); [done|]. by apply (do_slab_free_spec st S A s x p b).
Qed.

(** Freeing to the CPU's own slab. *)
Lemma kmem_cache_free_fast st S A s x cpu :
  rep st (heads st) S A -> A !! x = Some s -> c_page (cpu_of st s cpu) = Some (virt_to_head_page m st x) ->
  exists st', kmem_cache_free m st s x cpu = Ret st' /\ taken_back st A x st'
    /\ c_page (cpu_of st' s cpu) = Some (virt_to_head_page m st x) /\ heads st' s cpu = x.
Proof.
  intros Hr HA Hp. destruct (kmem_cache_free_spec st S A s x cpu Hr HA) as (st' & E & Ht). exists st'. split_and!; try done;
    destruct (live_slab st S A x s Hr HA) as (p & b & Hb & Hs & Hx & Hu & Ep); destruct (rp_slab _ _ _ _ _ Hr p b Hb) as [Hc (Hs0 & _)];
    rewrite Hs in Hs0; revert E; unfold kmem_cache_free;
    replace (cache_from_obj m st s x) with s by (unfold cache_from_obj; rewrite Ep; case_match; [done|]; rewrite <- Hs; symmetry; apply Hc);
    (destruct (Z.eqb_spec s 0); [done|]); unfold slab_free, do_slab_free; rewrite bool_decide_true by done; intros [= <-];
    unfold heads; by rewrite cpu_set_cpu, decide_True.
Qed.

Lemma live_address st S A x s : rep st (heads st) S A -> A !! x = Some s -> ZERO_SIZE_PTR < x.
Proof.
  intros Hr HA. destruct (live_slab st S A x s Hr HA) as (p & b & Hb & Hs & (i & Hi & ->) & _).
  destruct (rp_slab _ _ _ _ _ Hr p b Hb) as [Hc (_ & Hk & _)]. pose proof (rp_pages _ _ _ _ _ Hr) as Hok.
  pose proof (sc_owned _ _ _ _ _ Hc) as Ho. destruct (pa_owned_range _ _ _ Hok Ho) as [Hlo Hhi].
  unfold obj_at. rewrite (owned_address m Hlay _ p _ Hok Ho). pose proof (co_size _ Hk).
  destruct Hlay as [_ Hl1 Hl2 Hl3]. unfold linear_base. change PAGE_OFFSET with 0xffff800000000000.
  destruct (pa_owned_block _ _ _ Ho) as (_ & ? & _). assert (0 < PAGE_SIZE) by done. unfold ZERO_SIZE_PTR. nia.
Qed.

Lemma kfree_spec st S A s x cpu :
  rep st (heads st) S A -> A !! x = Some s -> exists st', kfree m st x cpu = Ret st' /\ taken_back st A x st'.
Proof.
  intros Hr HA. destruct (live_slab st S A x s Hr HA) as (p & b & Hb & Hs & Hx & Hu & Hp).
  destruct (rp_slab _ _ _ _ _ Hr p b Hb) as [Hc _].
  unfold kfree, ZERO_OR_NULL_PTR. pose proof (live_address st S A x s Hr HA). destruct (Z.leb_spec x ZERO_SIZE_PTR); [lia|].
  rewrite Hp, (sc_flag _ _ _ _ _ Hc), (sc_mapping _ _ _ _ _ Hc), Hs. by apply (do_slab_free_spec st S A s x p b).
Qed.

End Free.
