(* ===== verification/SlubProps.v ===== *)
(** * The slab allocator: clients

    Caches, their clients and the page allocator as a transition system:
    clients allocate and free objects on any CPU, write into the objects they
    hold, and CPUs flush their slabs. *)

From S2P Require Import Prelude Bitops Memblock Buddy BuddyInv PageOwner Slub SlubInv SlubLists SlubNew SlubAlloc BuddyProps OwnerProps.
From stdpp Require Import base list numbers option functions gmap relations.
#[local] Open Scope Z_scope.
#[local] Open Scope kernel_scope.

Section Safe.
Context {St : Type} {PA : PageAllocator St} {PL : PageAllocatorLaws St} (m : layout) (cpu_node : Z -> Z).
Context (Hlay : layout_ok m pa_lo pa_hi).
Implicit Types st : slub St.
#[local] Abbreviation rep := (rep m).

(** No cache has a slab yet. *)
Record slub_fresh st : Prop := {
  sf_pages : pa_ok (sl_pages st);
  sf_cpu : forall s cpu, c_page (cpu_of st s cpu) = None /\ c_freelist (cpu_of st s cpu) = 0;
  sf_nodes : forall s nid n, get_node st s nid = Some n -> n = mk_node 0 []
}.

Lemma fresh_rep st : slub_fresh st -> slub_rep m st ∅.
Proof.
  intros [Hp Hc Hn]. exists ∅. split; try done.
  - intros s cpu p. destruct (Hc s cpu) as [-> _]. split; [done|]. intros (b & Hb & _). by rewrite lookup_empty in Hb.
  - intros s nid n E. rewrite (Hn s nid n E). split_and!; [constructor|done|]. intros p. split.
    + intros H. by apply not_elem_of_nil in H.
    + intros (b & Hb & _). by rewrite lookup_empty in Hb.
  - intros s cpu _. apply Hc.
  - intros x s. rewrite lookup_empty. split; [done|]. intros (p & b & Hb & _). by rewrite lookup_empty in Hb.
Qed.

(** ** Flushing a CPU *)

Lemma __flush_cpu_slab_spec st A s cpu :
  slub_rep m st A -> exists st', __flush_cpu_slab st s cpu = Ret st' /\ config_kept st st' /\ contents_kept st st' A
    /\ c_page (cpu_of st' s cpu) = None /\ slub_rep m st' A.
Proof.
  intros [S Hr]. unfold __flush_cpu_slab, flush_slab. destruct (c_page (cpu_of st s cpu)) as [p|] eqn:Ep.
  2:{ exists st. split; [done|]. split_and!; try done. by exists S. }
  destruct (deactivate_slab_spec m Hlay st S A s cpu p Hr Ep) as (st1 & S1 & E & Hc & Hk & Hno & Hr1).
  unfold heads in E. rewrite E. cbn [obind]. eexists. split; [done|].
  set (st2 := set_cpu _ _ _ _). assert (Hz : heads st1 s cpu = 0) by (by apply (rp_idle _ _ _ _ _ Hr1)).
  assert (Hpg : forall s' cpu', c_page (cpu_of st2 s' cpu') = c_page (cpu_of st1 s' cpu') /\ heads st2 s' cpu' = heads st1 s' cpu').
  { intros s' cpu'. unfold heads, st2. rewrite cpu_set_cpu. case_decide as E'; [|done]. by destruct E' as [-> ->]. }
  split_and!.
  - apply (config_kept_trans st st1); [done|]. split; [apply config_set_cpu|]. intros s' nid. unfold st2. by rewrite node_set_cpu.
  - done.
  - by rewrite (proj1 (Hpg s cpu)).
  - exists S1. assert (Hf : forall p o, slab_frame m st1 st2 p o) by (intros; apply frame_set_cpu, Hr1). split.
    + apply Hr1.
    + intros q b Hb. destruct (rp_slab _ _ _ _ _ Hr1 q b Hb) as [[] Hrd]. split; [|by apply (cache_ready_frame m st1 st2 0 0)].
      split; try done; rewrite ?(config_size m st1 st2 0 0), ?(config_offset m st1 st2 0 0) by apply Hf; try done.
      * intros x Hx. by apply (is_obj_frame m st1 st2 0 0 q b x (Hf _ _)), sc_objs.
      * destruct (sb_home b); try done. rewrite (proj2 (Hpg _ _)). done.
    + intros s' cpu' q. rewrite (proj1 (Hpg s' cpu')). apply (rp_cpus _ _ _ _ _ Hr1).
    + apply nodes_set_cpu, Hr1.
    + intros s' cpu'. destruct (Hpg s' cpu') as [-> ->]. apply (rp_idle _ _ _ _ _ Hr1).
    + intros x s'. rewrite (rp_live _ _ _ _ _ Hr1 x s'). split; intros (q & b & ? & ? & ? & ?); exists q, b; split_and!; try done;
        by apply (is_obj_frame m st1 st2 0 0 q b x (Hf _ _)).
Qed.

(** ** Allocation and freeing between calls *)

Lemma alloc_spec st A s node cpu zero :
  slub_rep m st A -> cache_ready st s -> alloc_node_ok cpu_node node cpu ->
  (slab_alloc_node m cpu_node st s node cpu zero = Panic /\ starved cpu_node st s node cpu Panic)
  \/ exists st' x, slab_alloc_node m cpu_node st s node cpu zero = Ret (st', x) /\ handed_out m st A s st' x
       /\ zeroed st s zero st' x /\ (x = 0 -> starved cpu_node st s node cpu (Ret (sl_pages st', None))).
Proof. intros [S Hr]. by apply (slab_alloc_node_spec m cpu_node Hlay st S). Qed.

Lemma alloc_ready st A s node cpu zero st' x s' :
  slub_rep m st A -> cache_ready st s -> alloc_node_ok cpu_node node cpu ->
  kmem_cache_alloc_node m cpu_node st s node cpu zero = Ret (st', x) -> cache_ready st s' -> cache_ready st' s'.
Proof.
  unfold kmem_cache_alloc_node. intros Hr Hrd Hn E Hrd'. destruct (alloc_spec st A s node cpu zero Hr Hrd Hn) as [[E' _]|(st1 & y & E' & Hh & _)]; rewrite E' in E; [done|].
  injection E as -> ->. apply (config_ready st); [apply Hh|done].
Qed.

Lemma free_spec st A s x cpu :
  slub_rep m st A -> A !! x = Some s ->
  (exists st', kmem_cache_free m st s x cpu = Ret st' /\ taken_back m st A x st')
  /\ (exists st', kfree m st x cpu = Ret st' /\ taken_back m st A x st').
Proof. intros [S Hr] HA. split; [by apply (kmem_cache_free_spec m Hlay st S)|by apply (kfree_spec m Hlay st S A s)]. Qed.

(** ** Steps *)

Definition world : Type := slub St * gmap Z Z.

Inductive slub_step : world -> world -> Prop :=
  | step_alloc st A s node cpu zero st' x :
      cache_ready st s -> alloc_node_ok cpu_node node cpu ->
      kmem_cache_alloc_node m cpu_node st s node cpu zero = Ret (st', x) ->
      slub_step (st, A) (st', if decide (x = 0) then A else <[x := s]> A)
  | step_free st A s x cpu st' :
      A !! x = Some s -> kmem_cache_free m st s x cpu = Ret st' -> slub_step (st, A) (st', delete x A)
  | step_kfree st A s x cpu st' :
      A !! x = Some s -> kfree m st x cpu = Ret st' -> slub_step (st, A) (st', delete x A)
  | step_write st A s x a v :
      A !! x = Some s -> x <= a -> a + WORD <= x + object_size (sl_cache st s) -> slub_step (st, A) (set_word st a v, A)
  | step_flush st A s cpu st' :
      __flush_cpu_slab st s cpu = Ret st' -> slub_step (st, A) (st', A).

Lemma alloc_step st A s node cpu zero st' x :
  cache_ready st s -> alloc_node_ok cpu_node node cpu -> x <> 0 ->
  kmem_cache_alloc_node m cpu_node st s node cpu zero = Ret (st', x) -> slub_step (st, A) (st', <[x := s]> A).
Proof. intros Hrd Hn Hx E. pose proof (step_alloc st A s node cpu zero st' x Hrd Hn E) as H. by rewrite decide_False in H. Qed.

(** The invariant of the transition system: the state represents the live
    objects, and each live object belongs to a cache that is ready. *)
Lemma live_ready st A x s : slub_rep m st A -> A !! x = Some s -> cache_ready st s.
Proof.
  intros [S Hr] HA. apply (rp_live _ _ _ _ _ Hr) in HA as (p & b & Hb & <- & _). apply (rp_slab _ _ _ _ _ Hr p b Hb).
Qed.

Lemma write_rep st A s x a v :
  slub_rep m st A -> A !! x = Some s -> x <= a -> a + WORD <= x + object_size (sl_cache st s) -> slub_rep m (set_word st a v) A.
Proof.
  intros Hrep HA H1 H2. destruct (live_ready st A x s Hrep HA) as (_ & Hk & _). destruct Hrep as [S Hr]. exists S.
  apply (rep_client m Hlay st _ (heads st) S A Hr). intros a' Hne. exists x, s. split; [done|].
  destruct (decide (a' = a)) as [->|]; [|by rewrite fn_lookup_insert_ne in Hne].
  pose proof (co_object _ Hk). unfold WORD in *. lia.
Qed.

Lemma step_rep w w' : slub_step w w' -> slub_rep m (fst w) (snd w) -> slub_rep m (fst w') (snd w').
Proof.
  intros Hs Hrep. destruct Hs as [st A s node cpu zero st' x Hrd Hn E|st A s x cpu st' HA E|st A s x cpu st' HA E|st A s x a v HA H1 H2|st A s cpu st' E];
    cbn [fst snd] in *.
  - unfold kmem_cache_alloc_node in E.
    destruct (alloc_spec st A s node cpu zero Hrep Hrd Hn) as [[E' _]|(st1 & y & E' & Hh & _)]; rewrite E' in E; [done|].
    injection E as -> ->. destruct Hh as [_ _ Hz Hnz]. unfold slub_rep. case_decide as Ex; [by apply Hz|by apply Hnz].
  - destruct (free_spec st A s x cpu Hrep HA) as [(st1 & E' & Hh) _]. rewrite E' in E. injection E as ->. apply Hh.
  - destruct (free_spec st A s x cpu Hrep HA) as [_ (st1 & E' & Hh)]. rewrite E' in E. injection E as ->. apply Hh.
  - by apply (write_rep st A s x).
  - destruct (__flush_cpu_slab_spec st A s cpu Hrep) as (st1 & E' & _ & _ & _ & Hr). rewrite E' in E. by injection E as ->.
Qed.

Lemma steps_rep w w' : rtc slub_step w w' -> slub_rep m (fst w) (snd w) -> slub_rep m (fst w') (snd w').
Proof. induction 1 as [w|w1 w2 w3 Hs Hr IH]; [done|]. intros H. by apply IH, (step_rep w1). Qed.

Lemma reachable_rep st A st' A' : rtc slub_step (st, A) (st', A') -> slub_rep m st A -> slub_rep m st' A'.
Proof. intros Hs. apply (steps_rep _ _ Hs). Qed.

(** ** What the invariant says of live objects *)

Lemma live_apart st A x s y s' a :
  slub_rep m st A -> A !! x = Some s -> A !! y = Some s' ->
  x <= a < x + kc_size (sl_cache st s) -> y <= a < y + kc_size (sl_cache st s') -> x = y.
Proof.
  intros [S Hr] HA HA' Ha Ha'. apply (rp_live _ _ _ _ _ Hr) in HA as (p & b & Hb & <- & Hx & _).
  apply (rp_live _ _ _ _ _ Hr) in HA' as (p' & b' & Hb' & <- & Hy & _).
  by apply (objs_apart m Hlay st (heads st) S A p b p' b' x y a Hr).
Qed.

Lemma live_inside st A x s :
  slub_rep m st A -> A !! x = Some s ->
  exists p o, pa_owned (sl_pages st) p o /\ page_address m p <= x
    /\ x + kc_size (sl_cache st s) <= page_address m p + PAGE_SIZE * 2 ^ o /\ virt_to_head_page m st x = p.
Proof.
  intros [S Hr] HA. destruct (live_slab m Hlay st S A x s Hr HA) as (p & b & Hb & <- & Hx & _ & Hp).
  destruct (rp_slab _ _ _ _ _ Hr p b Hb) as [Hc (_ & Hk & _)]. exists p, (sb_order b). split; [apply Hc|].
  destruct (sc_fits _ _ _ _ _ Hc) as [_ Hf]. pose proof (co_size _ Hk). destruct Hx as (i & Hi & ->). unfold obj_at in *. split_and!; [nia|nia|done].
Qed.

End Safe.

(** * The slab allocator: theorems

    Allocation, freeing and flushing against the map of live objects, the
    safety of the allocator for interleaved clients, and the order of reuse.
    Each theorem holds over any page allocator that obeys the laws of
    [PageAllocatorLaws]; the witnesses run on the buddy allocator. *)

(** ** A cache of 64-byte objects on the demonstration machine *)

Module SlubDemo.

Definition dl : layout := mk_layout 0 0.
Definition dcache : kmem_cache :=
  mk_cache (fun _ => mk_cpu 0 0 None) 0 5 64 60 0 (oo_make 1 64) (oo_make 1 64) (oo_make 0 64) 1 false 64 8
    (fun nid => if nid =? 0 then Some (mk_node 0 []) else None).
Definition dstate : slub mm := mk_slub Demo.demo (fun _ => 7) (fun _ => 0) (fun _ => dcache).
Definition dnode (cpu : Z) : Z := 0.
#[export] Instance dpages : PageAllocator mm := buddy_pages demo_env.
#[export] Instance dlaws : PageAllocatorLaws mm := buddy_laws demo_env.

Lemma dl_ok : layout_ok dl (pa_lo (St := mm)) (pa_hi (St := mm)).
Proof. split; [by exists 0|..]; vm_compute; split_and?; done. Qed.

Lemma dcache_ok : cache_ok dcache.
Proof.
  split; [done|by exists 8|done|by exists 0|done|..]; vm_compute; split_and!; done.
Qed.

Lemma dready s : s <> 0 -> cache_ready dstate s.
Proof.
  intros Hs. split_and!; [done|apply dcache_ok|]. intros nid Hn. apply list_elem_of_singleton in Hn as ->. by eexists.
Qed.

Lemma dfresh : slub_fresh dstate.
Proof.
  split; [apply demo_env_ok|done|]. intros s nid n. unfold get_node. cbn. destruct (nid =? 0); [|done]. by intros [= <-].
Qed.

Lemma drep : slub_rep dl dstate ∅.
Proof. by apply fresh_rep, dfresh. Qed.

Lemma dnode_ok cpu : alloc_node_ok dnode NUMA_NO_NODE cpu.
Proof. by apply list_elem_of_singleton. Qed.

(** What a call returns, and the state it leaves. *)
Definition got (d : slub mm) (r : outcome (slub mm * Z)) : slub mm := match r with Ret (st, _) => st | _ => d end.
Definition left (d : slub mm) (r : outcome (slub mm)) : slub mm := match r with Ret st => st | _ => d end.

Lemma got_ret d r x : match r with Ret (_, y) => y = x | _ => False end -> r = Ret (got d r, x).
Proof. destruct r as [[st y]| |]; [by intros ->|done..]. Qed.

Lemma left_ret d r : match r with Ret _ => True | _ => False end -> r = Ret (left d r).
Proof. by destruct r. Qed.

Definition x1 : Z := 0xffff800000008000.
Definition x2 : Z := 0xffff800000008040.
Definition st1 : slub mm := got dstate (kmem_cache_alloc_node dl dnode dstate 3 NUMA_NO_NODE 0 true).
Definition st2 : slub mm := got st1 (kmem_cache_alloc_node dl dnode st1 3 NUMA_NO_NODE 0 false).

Lemma run1 : kmem_cache_alloc_node dl dnode dstate 3 NUMA_NO_NODE 0 true = Ret (st1, x1).
Proof. apply got_ret. vm_compute. reflexivity. Qed.
Lemma run2 : kmem_cache_alloc_node dl dnode st1 3 NUMA_NO_NODE 0 false = Ret (st2, x2).
Proof. apply got_ret. vm_compute. reflexivity. Qed.

Lemma steps12 : rtc (slub_step dl dnode) (dstate, ∅) (st2, <[x2 := 3]> (<[x1 := 3]> ∅)).
Proof.
  apply (rtc_l _ _ (st1, <[x1 := 3]> ∅)).
  { apply (alloc_step dl dnode dstate ∅ 3 NUMA_NO_NODE 0 true st1 x1); [by apply dready|apply dnode_ok|done|apply run1]. }
  apply rtc_once. apply (alloc_step dl dnode st1 _ 3 NUMA_NO_NODE 0 false st2 x2); [|apply dnode_ok|done|apply run2].
  apply (alloc_ready dl dnode dl_ok dstate ∅ 3 NUMA_NO_NODE 0 true st1 x1 3); [apply drep|by apply dready|apply dnode_ok|apply run1|by apply dready].
Qed.
End SlubDemo.
Import SlubDemo.

(** ** Theorems *)

(** C6. Allocation: slab_alloc_node() returns an address that was not live and
    is live now, for that cache; the contents of all other live objects are
    untouched and with __GFP_ZERO every byte of the new object is zero.  It
    returns NULL, and then changes no object, only if the CPU had no slab of
    the cache and node with a free object, the node lists none, and the page
    allocator, asked in the state reached for a block of the cache's order and
    then of its least order, had neither; and it panics only if that request to
    the page allocator panics. *)
Theorem slab_alloc_node_correct {St : Type} `{PageAllocatorLaws St} (m : layout) (cpu_node : Z -> Z)
    (st : slub St) (A : gmap Z Z) (s node cpu : Z) (zero : bool) :
  layout_ok m pa_lo pa_hi -> slub_rep m st A -> cache_ready st s -> alloc_node_ok cpu_node node cpu ->
  (slab_alloc_node m cpu_node st s node cpu zero = Panic /\ starved cpu_node st s node cpu Panic)
  \/ exists st' x, slab_alloc_node m cpu_node st s node cpu zero = Ret (st', x)
     /\ (x = 0 -> slub_rep m st' A /\ starved cpu_node st s node cpu (Ret (sl_pages st', None)))
     /\ (x <> 0 -> A !! x = None /\ slub_rep m st' (<[x := s]> A))
     /\ (zero = true -> x <> 0 -> cleared st' x (object_size (sl_cache st s)))
     /\ (forall y s' a, A !! y = Some s' -> y <= a < y + kc_size (sl_cache st s') -> sl_mem st' a = sl_mem st a).
Proof.
  intros Hlay Hr Hrd Hn. destruct (alloc_spec m cpu_node Hlay st A s node cpu zero Hr Hrd Hn) as [E|(st' & x & E & [Hc Hk Hz Hnz] & Hzero & Hsv)];
    [by left|right]. exists st', x. split_and!; try done. intros Hx. split; [by apply Hz|by apply Hsv].
Qed.

Lemma ret_ret {A B : Type} (X : outcome (A * B)) a b : X = Ret (a, b) -> (X = Panic -> False) /\ forall a' b', X = Ret (a', b') -> b' = b.
Proof. intros ->. split; congruence. Qed.

Lemma slab_alloc_node_correct_witness :
  exists st', slab_alloc_node dl dnode dstate 3 NUMA_NO_NODE 0 true = Ret (st', x1)
     /\ slub_rep dl st' (<[x1 := 3]> ∅) /\ cleared st' x1 (object_size (sl_cache dstate 3)).
Proof.
  assert (H1 : x1 <> 0) by discriminate. destruct (ret_ret _ _ _ run1) as [Hnp Hx].
  destruct (slab_alloc_node_correct dl dnode dstate ∅ 3 NUMA_NO_NODE 0 true) as [[E _]|(st' & x & E & _ & Hs & Hc & _)];
    [apply dl_ok|apply drep|by apply dready|apply dnode_ok|destruct (Hnp E)|].
  pose proof (Hx st' x E) as ->. exists st'. split; [exact E|]. split; [apply (Hs H1)|apply (Hc eq_refl H1)].
Defined.

(** C7. Freeing: given a live object, kmem_cache_free() with its cache and
    kfree() both return, the object is live no more, and the contents of every
    other live object are untouched. *)
Theorem slab_free_correct {St : Type} `{PageAllocatorLaws St} (m : layout) (st : slub St) (A : gmap Z Z) (s x cpu : Z) :
  layout_ok m pa_lo pa_hi -> slub_rep m st A -> A !! x = Some s ->
  (exists st', kmem_cache_free m st s x cpu = Ret st' /\ slub_rep m st' (delete x A)
     /\ forall y s' a, y <> x -> A !! y = Some s' -> y <= a < y + kc_size (sl_cache st s') -> sl_mem st' a = sl_mem st a)
  /\ (exists st', kfree m st x cpu = Ret st' /\ slub_rep m st' (delete x A)
     /\ forall y s' a, y <> x -> A !! y = Some s' -> y <= a < y + kc_size (sl_cache st s') -> sl_mem st' a = sl_mem st a).
Proof.
  intros Hlay Hr HA. destruct (free_spec m Hlay st A s x cpu Hr HA) as [(st1 & E1 & [_ K1 R1]) (st2 & E2 & [_ K2 R2])].
  split; [exists st1|exists st2]; (split; [done|]; split; [done|]); intros y s' a Hne Hy; [apply (K1 y)|apply (K2 y)];
    by rewrite lookup_delete_ne.
Qed.

Lemma drep2 : slub_rep dl st2 (<[x2 := 3]> (<[x1 := 3]> ∅)).
Proof. apply (reachable_rep dl dnode dl_ok dstate ∅ st2 _ steps12 drep). Qed.

Lemma slab_free_correct_witness :
  (exists st', kmem_cache_free dl st2 3 x1 0 = Ret st' /\ slub_rep dl st' (delete x1 (<[x2 := 3]> (<[x1 := 3]> ∅)))
     /\ forall y s' a, y <> x1 -> (<[x2 := 3]> (<[x1 := 3]> ∅) : gmap Z Z) !! y = Some s' ->
          y <= a < y + kc_size (sl_cache st2 s') -> sl_mem st' a = sl_mem st2 a)
  /\ (exists st', kfree dl st2 x1 0 = Ret st' /\ slub_rep dl st' (delete x1 (<[x2 := 3]> (<[x1 := 3]> ∅)))
     /\ forall y s' a, y <> x1 -> (<[x2 := 3]> (<[x1 := 3]> ∅) : gmap Z Z) !! y = Some s' ->
          y <= a < y + kc_size (sl_cache st2 s') -> sl_mem st' a = sl_mem st2 a).
Proof. apply (slab_free_correct dl st2 _ 3 x1 0); [apply dl_ok|apply drep2|vm_compute; reflexivity]. Defined.

(** Flushing a CPU always succeeds, leaves the CPU without a slab, and
    changes neither the set of live objects nor their contents. *)
Theorem flush_cpu_slab_correct {St : Type} `{PageAllocatorLaws St} (m : layout) (st : slub St) (A : gmap Z Z) (s cpu : Z) :
  layout_ok m pa_lo pa_hi -> slub_rep m st A ->
  exists st', __flush_cpu_slab st s cpu = Ret st' /\ slub_rep m st' A /\ c_page (cpu_of st' s cpu) = None
    /\ forall y s' a, A !! y = Some s' -> y <= a < y + kc_size (sl_cache st s') -> sl_mem st' a = sl_mem st a.
Proof.
  intros Hlay Hr. destruct (__flush_cpu_slab_spec m Hlay st A s cpu Hr) as (st' & E & _ & Hk & Hno & Hr'). by exists st'.
Qed.

Lemma flush_cpu_slab_correct_witness :
  exists st', __flush_cpu_slab st2 3 0 = Ret st' /\ slub_rep dl st' (<[x2 := 3]> (<[x1 := 3]> ∅)) /\ c_page (cpu_of st' 3 0) = None
    /\ forall y s' a, (<[x2 := 3]> (<[x1 := 3]> ∅) : gmap Z Z) !! y = Some s' ->
         y <= a < y + kc_size (sl_cache st2 s') -> sl_mem st' a = sl_mem st2 a.
Proof. apply (flush_cpu_slab_correct dl st2 _ 3 0 dl_ok drep2). Defined.

(** C5. Safety of the slab allocator: however clients interleave allocations
    and frees on any CPUs and nodes, writes into the objects they hold, and
    flushes, two live objects never share a byte, every live object lies
    inside one block of pages the slab allocator owns and is found from its
    address, and it can be freed by either call. *)
Theorem slub_safe {St : Type} `{PageAllocatorLaws St} (m : layout) (cpu_node : Z -> Z) (st0 st : slub St) (A : gmap Z Z) :
  layout_ok m pa_lo pa_hi -> slub_fresh st0 -> rtc (slub_step m cpu_node) (st0, ∅) (st, A) ->
  (forall x s y s' a, A !! x = Some s -> A !! y = Some s' ->
     x <= a < x + kc_size (sl_cache st s) -> y <= a < y + kc_size (sl_cache st s') -> x = y)
  /\ (forall x s, A !! x = Some s -> exists p o, pa_owned (sl_pages st) p o /\ page_address m p <= x
        /\ x + kc_size (sl_cache st s) <= page_address m p + PAGE_SIZE * 2 ^ o /\ virt_to_head_page m st x = p)
  /\ (forall x s cpu, A !! x = Some s ->
        (exists st', kmem_cache_free m st s x cpu = Ret st') /\ (exists st', kfree m st x cpu = Ret st')).
Proof.
  intros Hlay Hf Hs. pose proof (reachable_rep m cpu_node Hlay _ _ _ _ Hs (fresh_rep m st0 Hf)) as Hr.
  split_and!.
  - intros x s y s' a. by apply (live_apart m Hlay st A).
  - intros x s HA. by apply (live_inside m Hlay st A).
  - intros x s cpu HA. destruct (free_spec m Hlay st A s x cpu Hr HA) as [(st1 & ? & _) (st3 & ? & _)]. split; [by exists st1|by exists st3].
Qed.

Lemma slub_safe_witness :
  (forall x s y s' a, (<[x2 := 3]> (<[x1 := 3]> ∅) : gmap Z Z) !! x = Some s -> (<[x2 := 3]> (<[x1 := 3]> ∅) : gmap Z Z) !! y = Some s' ->
     x <= a < x + kc_size (sl_cache st2 s) -> y <= a < y + kc_size (sl_cache st2 s') -> x = y)
  /\ (exists p o, pa_owned (sl_pages st2) p o /\ page_address dl p <= x1
        /\ x1 + kc_size (sl_cache st2 3) <= page_address dl p + PAGE_SIZE * 2 ^ o /\ virt_to_head_page dl st2 x1 = p)
  /\ (exists st', kmem_cache_free dl st2 3 x1 1 = Ret st') /\ (exists st', kfree dl st2 x1 1 = Ret st').
Proof.
  destruct (slub_safe dl dnode dstate st2 (<[x2 := 3]> (<[x1 := 3]> ∅)) dl_ok dfresh steps12) as (H1 & H2 & H3).
  split; [exact H1|]. split; [apply (H2 x1 3); vm_compute; reflexivity|]. apply (H3 x1 3 1). vm_compute. reflexivity.
Defined.

(** Reuse is last in, first out: an object freed on the CPU that owns its
    slab is the one the next allocation on that CPU returns, and the two calls
    together leave the same objects live. *)
Theorem slab_reuse_lifo {St : Type} `{PageAllocatorLaws St} (m : layout) (cpu_node : Z -> Z) (st : slub St) (A : gmap Z Z) (s x cpu : Z) :
  layout_ok m pa_lo pa_hi -> slub_rep m st A -> A !! x = Some s ->
  c_page (cpu_of st s cpu) = Some (virt_to_head_page m st x) ->
  exists st1 st2, kmem_cache_free m st s x cpu = Ret st1 /\ kmem_cache_alloc m cpu_node st1 s cpu false = Ret (st2, x)
    /\ slub_rep m st2 A.
Proof.
  intros Hlay [S Hr] HA Hp. destruct (kmem_cache_free_fast m Hlay st S A s x cpu Hr HA Hp) as (st1 & E & [_ _ [S1 Hr1]] & Hp1 & Hh1).
  assert (Hx : heads st1 s cpu <> 0) by (rewrite Hh1; pose proof (live_address m Hlay st S A x s Hr HA); unfold ZERO_SIZE_PTR in *; lia).
  destruct (slab_alloc_node_fast m cpu_node Hlay st1 S1 _ s cpu _ Hr1 Hp1 Hx) as (st2 & E2 & [_ _ _ Hs]). rewrite Hh1 in *.
  exists st1, st2. split_and!; try done. destruct (Hs Hx) as (_ & S2 & Hr2). exists S2. by rewrite insert_delete_id in Hr2.
Qed.

Lemma slab_reuse_lifo_witness :
  exists sta stb, kmem_cache_free dl st2 3 x1 0 = Ret sta /\ kmem_cache_alloc dl dnode sta 3 0 false = Ret (stb, x1)
    /\ slub_rep dl stb (<[x2 := 3]> (<[x1 := 3]> ∅)).
Proof. apply (slab_reuse_lifo dl dnode st2 _ 3 x1 0 dl_ok drep2); vm_compute; reflexivity. Defined.
