(* ===== verification/SlubShrink.v ===== *)
(** * The slab allocator: shrinking and shutting down a cache

    Model of __kmem_cache_shrink(), free_partial() and __kmem_cache_shutdown()
    of mm/slub.c, and what they keep.  Both take the empty slabs off the
    partial lists of every node and then give their pages back; shrinking also
    sorts the partial list by the number of free objects. *)

From S2P Require Import Prelude Bitops Memblock Buddy BuddyInv PageOwner Slub SlubInv SlubLists SlubNew SlubAlloc SlubProps.
From stdpp Require Import base list numbers option functions gmap sorting.
#[local] Open Scope Z_scope.
#[local] Open Scope kernel_scope.

Definition SHRINK_PROMOTE_MAX : Z := 32.

Section Model.
Context {St : Type} {PA : PageAllocator St}.
Implicit Types st : slub St.

Fixpoint discard_list st (l : list Z) : outcome (slub St) :=
  match l with
  | [] => Ret st
  | page :: l' => let! st := discard_slab st page in discard_list st l'
  end.

(** ** Shutting down *)

(** The walk of free_partial() over the list as it is at the start. *)
Fixpoint partial_walk st (l : list Z) (n : kmem_cache_node) (discard : list Z) : kmem_cache_node * list Z :=
  match l with
  | [] => (n, discard)
  | page :: l' =>
      if ct_inuse (counters st page) =? 0
      then partial_walk st l' (remove_partial n page) (page :: discard)
      else partial_walk st l' n discard
  end.

Definition free_partial st (s nid : Z) (n : kmem_cache_node) : outcome (slub St) :=
  let '(n', discard) := partial_walk st (partial n) n [] in
  discard_list (set_node st s nid n') discard.

(** for_each_kmem_cache_node with [cnt] nodes left; slabs_node() is 0. *)
Fixpoint shutdown_loop (cnt : nat) st (s node : Z) : outcome (slub St * Z) :=
  match cnt with
  | O => Ret (st, 0)
  | S cnt' =>
      match get_node st s node with
      | None => shutdown_loop cnt' st s (node + 1)
      | Some n =>
          let! st := free_partial st s node n in
          match get_node st s node with
          | None => Panic
          | Some n => if negb (nr_partial n =? 0) then Ret (st, 1) else shutdown_loop cnt' st s (node + 1)
          end
      end
  end.

Definition __kmem_cache_shutdown (nr_possible_nodes : Z) st (s : Z) : outcome (slub St * Z) :=
  shutdown_loop (Z.to_nat nr_possible_nodes) (flush_all st s) s 0.

(** ** Shrinking *)

(** The walk of __kmem_cache_shrink(); [promote i] is the list promote[i].
    list_move() takes the page off its list and puts it in front of another. *)
Fixpoint shrink_walk st (l : list Z) (n : kmem_cache_node) (discard : list Z) (promote : Z -> list Z)
    : outcome (kmem_cache_node * list Z * (Z -> list Z)) :=
  match l with
  | [] => Ret (n, discard, promote)
  | page :: l' =>
      let free := s32 (ct_objects (counters st page) - ct_inuse (counters st page)) in
      if free <=? 0 then Panic
      else if free =? ct_objects (counters st page) then
        shrink_walk st l' (mk_node (u64 (nr_partial n - 1)) (drop_page page (partial n))) (page :: discard) promote
      else if free <=? SHRINK_PROMOTE_MAX then
        shrink_walk st l' (mk_node (nr_partial n) (drop_page page (partial n))) discard
          (<[free - 1 := page :: promote (free - 1)]> promote)
      else shrink_walk st l' n discard promote
  end.

(** [for (i = SHRINK_PROMOTE_MAX - 1; i >= 0; i--)] with [k] rounds left. *)
Fixpoint splice_loop (k : nat) (promote : Z -> list Z) (l : list Z) : list Z :=
  match k with
  | O => l
  | S k' => splice_loop k' promote (promote (Z.of_nat k') ++ l)
  end.

Definition shrink_node st (s nid : Z) (n : kmem_cache_node) : outcome (slub St) :=
  let! (n1, discard, promote) := shrink_walk st (partial n) n [] (fun _ => []) in
  let n2 := mk_node (nr_partial n1) (splice_loop (Z.to_nat SHRINK_PROMOTE_MAX) promote (partial n1)) in
  discard_list (set_node st s nid n2) discard.

Fixpoint shrink_loop (cnt : nat) st (s node : Z) : outcome (slub St) :=
  match cnt with
  | O => Ret st
  | S cnt' =>
      match get_node st s node with
      | None => shrink_loop cnt' st s (node + 1)
      | Some n => let! st := shrink_node st s node n in shrink_loop cnt' st s (node + 1)
      end
  end.

Definition __kmem_cache_shrink (nr_possible_nodes : Z) st (s : Z) : outcome (slub St * Z) :=
  let! st := shrink_loop (Z.to_nat nr_possible_nodes) (flush_all st s) s 0 in
  Ret (st, 0).
End Model.

(** ** Filters and permutations *)

Lemma filter_same {T} (P Q : T -> Prop) `{forall x, Decision (P x), forall x, Decision (Q x)} (l : list T) :
  (forall x, x ∈ l -> P x <-> Q x) -> filter P l = filter Q l.
Proof.
  induction l as [|x l IH]; intros Hl; [done|]. rewrite !filter_cons, IH by (intros; apply Hl; by right).
  pose proof (Hl x (list_elem_of_here _ _)). do 2 case_decide; tauto.
Qed.

Lemma filter_split_perm {T} (P Q R : T -> Prop) `{forall x, Decision (P x), forall x, Decision (Q x), forall x, Decision (R x)} (l : list T) :
  (forall x, x ∈ l -> P x <-> Q x \/ R x) -> (forall x, Q x -> R x -> False) -> filter P l ≡ₚ filter Q l ++ filter R l.
Proof.
  intros Hl Hd. induction l as [|x l IH]; [done|]. rewrite !filter_cons.
  assert (IH' := IH (fun y Hy => Hl y (list_elem_of_further _ _ _ Hy))). pose proof (Hl x (list_elem_of_here _ _)). pose proof (Hd x).
  repeat case_decide; try tauto; cbn; rewrite IH'; [done|by rewrite Permutation_middle].
Qed.

Lemma filter_none {T} (P : T -> Prop) `{forall x, Decision (P x)} (l : list T) :
  (forall x, x ∈ l -> ~ P x) -> filter P l = [].
Proof. intros Hl. apply elem_of_nil_inv. intros x. rewrite list_elem_of_filter. intros [? ?]. by apply (Hl x). Qed.

(** ** Pages that leave the partial lists *)

Section Shrink.
Context {St : Type} {PA : PageAllocator St} {PL : PageAllocatorLaws St} (m : layout).
Context (Hlay : layout_ok m pa_lo pa_hi).
Implicit Types st : slub St.
#[local] Abbreviation slab_frame := (slab_frame m).
#[local] Abbreviation rep := (rep m).
#[local] Abbreviation slab_core := (slab_core m).
#[local] Abbreviation is_obj := (is_obj m).

Definition empty_slab st (p : Z) : Prop := ct_inuse (counters st p) = 0.
#[export] Instance empty_slab_dec st p : Decision (empty_slab st p) := Z.eq_dec _ _.

Definition node_wf (n : kmem_cache_node) : Prop :=
  NoDup (partial n) /\ nr_partial n = u64 (Z.of_nat (length (partial n))).

(** What the counters of a listed slab say. *)
Lemma partial_slab st S A s nid n p :
  rep st (heads st) S A -> get_node st s nid = Some n -> p ∈ partial n ->
  exists b, S !! p = Some b /\ sb_cache b = s /\ sb_home b = OnPartial /\ page_to_nid st p = nid
    /\ pa_owned (sl_pages st) p (sb_order b) /\ PageSlab (struct_page st p) = true
    /\ ct_objects (counters st p) = sb_objs b /\ 1 <= sb_objs b < 2 ^ 15
    /\ ct_inuse (counters st p) = sb_objs b - Z.of_nat (length (sb_free b)) /\ (1 <= length (sb_free b))%nat
    /\ 0 <= ct_inuse (counters st p).
Proof.
  intros Hr Hn Hp. apply (rp_nodes _ _ _ _ _ Hr s nid n Hn) in Hp as (b & Hb & Hs & Hh & Hnid).
  destruct (rp_slab _ _ _ _ _ Hr p b Hb) as [Hc _]. pose proof (objs_small m b st _ p Hc). exists b.
  pose proof (sc_home _ _ _ _ _ Hc) as Hhm. rewrite Hh in Hhm. destruct Hhm as [_ Hne].
  split_and!; try done; try apply Hc; try lia; [by destruct (sb_free b); [|cbn; lia]|].
  apply Z.mod_pos_bound. lia.
Qed.

(** The empty slabs [D] of a node leave its list. *)
Lemma rep_unlist st S A s nid n n' (D : list Z) :
  rep st (heads st) S A -> get_node st s nid = Some n ->
  (forall p, p ∈ D -> p ∈ partial n /\ empty_slab st p) -> node_wf n' ->
  (forall p, p ∈ partial n' <-> p ∈ partial n /\ (p ∉ D)) ->
  let st1 := set_node st s nid n' in rep st1 (heads st1) (filter (fun '(p, _) => p ∉ D) S) A.
Proof.
  intros Hr Hn HD [Hnd Hnr] Hin st1. set (S' := filter _ S).
  assert (HS : forall p b, S' !! p = Some b <-> S !! p = Some b /\ (p ∉ D)) by (intros p b; apply map_lookup_filter_Some).
  assert (Hf : forall p o, slab_frame st st1 p o) by (intros; apply frame_set_node, Hr).
  assert (Hcpu : forall s' cpu, cpu_of st1 s' cpu = cpu_of st s' cpu) by (intros; apply cpu_set_node).
  assert (HDh : forall p b, S !! p = Some b -> p ∈ D -> sb_home b = OnPartial /\ sb_cache b = s /\ page_to_nid st p = nid).
  { intros p b Hb Hp. destruct (HD p Hp) as [Hp' _]. destruct (partial_slab st S A s nid n p Hr Hn Hp') as (b0 & Hb0 & ? & ? & ? & _).
    rewrite Hb in Hb0. by injection Hb0 as ->. }
  split.
  - apply Hr.
  - intros p b Hb. apply HS in Hb as [Hb _]. destruct (rp_slab _ _ _ _ _ Hr p b Hb) as [Hc Hrd].
    split; [|by apply (cache_ready_frame m st st1 0 0)]. destruct Hc. split; try done;
      rewrite ?(config_size m st st1 0 0), ?(config_offset m st st1 0 0) by apply Hf; try done.
    + intros x Hx. by apply (is_obj_frame m st st1 0 0 p b x (Hf _ _)), sc_objs.
    + destruct (sb_home b); try done. unfold heads. by rewrite Hcpu.
  - intros s' cpu p. rewrite Hcpu, (rp_cpus _ _ _ _ _ Hr s' cpu p). split; intros (b & Hb & ? & Hh); exists b.
    + split_and!; try done. apply HS. split; [done|]. intros Hp. destruct (HDh p b Hb Hp). congruence.
    + apply HS in Hb as [? _]. done.
  - intros s' nid' n0 Hn0. unfold st1 in Hn0. rewrite node_set_node in Hn0. case_decide as E.
    + destruct E as [-> ->]. injection Hn0 as <-. split_and!; try done. intros p. rewrite Hin, (proj2 (proj2 (rp_nodes _ _ _ _ _ Hr s nid n Hn)) p).
      split; [intros [(b & ? & ?) ?]; exists b; split_and!; try apply HS; tauto|].
      intros (b & Hb & ? & ? & ?). apply HS in Hb as [? ?]. split; [by exists b|done].
    + destruct (rp_nodes _ _ _ _ _ Hr s' nid' n0 Hn0) as (? & ? & Hiff). split_and!; try done. intros p. rewrite Hiff.
      split; intros (b & Hb & ? & ? & ?); exists b.
      * split_and!; try done. apply HS. split; [done|]. intros Hp. apply E. destruct (HDh p b Hb Hp) as (_ & ? & ?). split; congruence.
      * apply HS in Hb as [? _]. done.
  - intros s' cpu. unfold heads. rewrite Hcpu. apply (rp_idle _ _ _ _ _ Hr).
  - intros x s'. rewrite (rp_live _ _ _ _ _ Hr x s'). split; intros (p & b & Hb & ? & Hx & Hu); exists p, b.
    + split_and!; try done; [|by apply (is_obj_frame m st st1 0 0 p b x (Hf _ _))]. apply HS. split; [done|]. intros Hp.
      destruct (HD p Hp) as [Hp' He]. destruct (partial_slab st S A s nid n p Hr Hn Hp') as (b0 & Hb0 & _ & Hh & _ & _ & _ & _ & ? & Hi & _).
      rewrite Hb in Hb0. injection Hb0 as <-. destruct (rp_slab _ _ _ _ _ Hr p b Hb) as [Hc _]. unfold empty_slab in He.
      pose proof (sc_home _ _ _ _ _ Hc) as Hhm. rewrite Hh in Hhm. destruct Hhm as [Hcp _].
      apply Hu, (objs_all m st p b); [lia|apply Hc|apply Hc| |done]. unfold unused. rewrite Hcp, app_nil_r. lia.
    + apply HS in Hb as [? _]. split_and!; try done. by apply (is_obj_frame m st st1 0 0 p b x (Hf _ _)).
Qed.

(** ** Giving back pages that are on no list *)

Definition to_discard st (S : gmap Z slab) (p : Z) : Prop :=
  S !! p = None /\ PageSlab (struct_page st p) = true /\ exists o, pa_owned (sl_pages st) p o.

Lemma rep_discard st S A p :
  rep st (heads st) S A -> to_discard st S p ->
  exists st', discard_slab st p = Ret st' /\ rep st' (heads st') S A /\ sl_cache st' = sl_cache st /\ sl_mem st' = sl_mem st
    /\ (forall q, q <> p -> to_discard st S q -> to_discard st' S q)
    /\ (forall q o, pa_owned (sl_pages st') q o -> q <> p /\ pa_owned (sl_pages st) q o)
    /\ (forall q b, S !! q = Some b -> counters st' q = counters st q).
Proof.
  intros Hr (Hno & Hfl & o & Ho). destruct (discard_slab_spec m st p o (rp_pages _ _ _ _ _ Hr) Ho Hfl) as (st' & E & Hf & Hc & Hm & Hback).
  exists st'. split; [done|]. split_and!; try done.
  - apply (rep_hd m st' (heads st)); [|intros; unfold heads, cpu_of; by rewrite Hc].
    apply (rep_step m st st' (heads st) _ S S A A p o Hr Hf); try done.
    + by apply (rep_apart m Hlay st (heads st) S A p o).
    + intros b Hb. congruence.
    + intros s cpu q. unfold cpu_of. rewrite Hc. apply (rp_cpus _ _ _ _ _ Hr s cpu q).
    + intros s nid n. unfold get_node. rewrite Hc. intros Hn. destruct (rp_nodes _ _ _ _ _ Hr s nid n Hn) as (? & ? & Hiff). split_and!; try done.
      assert (Hnid : forall q b, S !! q = Some b -> page_to_nid st' q = page_to_nid st q).
      { intros q b Hb. destruct (rp_slab _ _ _ _ _ Hr q b Hb) as [Hcc _]. unfold page_to_nid.
        by destruct (sf_owned _ _ _ _ _ Hf q _ ltac:(congruence) (sc_owned _ _ _ _ _ Hcc)) as [_ ->]. }
      intros q. rewrite Hiff. split; intros (b & Hb & ? & ? & ?); exists b; pose proof (Hnid q b Hb); split_and!; try done; congruence.
    + intros s cpu. unfold cpu_of. rewrite Hc. apply (rp_idle _ _ _ _ _ Hr).
    + apply (live_step m Hlay st st' (heads st) S S A A p o Hr Hf); [done|]. intros x s. rewrite Hno. split; [|by intros [(b & ? & _)|[? _]]].
      intros HA. right. split; [done|]. by intros (b & ? & _).
  - intros q Hne (Hq & Hfq & oq & Hoq). destruct (sf_owned _ _ _ _ _ Hf q oq Hne Hoq) as [Hoq' Eq]. split_and!; [done|by rewrite Eq|by exists oq].
  - intros q b Hb. destruct (rp_slab _ _ _ _ _ Hr q b Hb) as [Hcc _]. unfold counters.
    by destruct (sf_owned _ _ _ _ _ Hf q _ ltac:(congruence) (sc_owned _ _ _ _ _ Hcc)) as [_ ->].
Qed.

Lemma discard_list_spec l : forall st S A,
  rep st (heads st) S A -> NoDup l -> (forall p, p ∈ l -> to_discard st S p) ->
  exists st', discard_list st l = Ret st' /\ rep st' (heads st') S A /\ sl_cache st' = sl_cache st /\ sl_mem st' = sl_mem st
    /\ (forall q o, pa_owned (sl_pages st') q o -> (q ∉ l) /\ pa_owned (sl_pages st) q o)
    /\ (forall q b, S !! q = Some b -> counters st' q = counters st q).
Proof.
  induction l as [|p l IH]; intros st S A Hr Hnd Hl; cbn [discard_list].
  { exists st. split_and!; try done. intros q o Ho. split; [apply not_elem_of_nil|done]. }
  apply list.NoDup_cons in Hnd as [Hp Hnd]. destruct (rep_discard st S A p Hr) as (st1 & -> & Hr1 & Hc & Hm & Hk & Hb & Ht); [apply Hl; left|].
  cbn [obind]. destruct (IH st1 S A Hr1 Hnd) as (st' & -> & Hr' & Hc' & Hm' & Hb' & Ht').
  { intros q Hq. apply Hk; [congruence|]. apply Hl. by right. }
  exists st'. split_and!; try done; [congruence|congruence|..].
  - intros q o Ho. destruct (Hb' q o Ho) as [Hq Ho1]. destruct (Hb q o Ho1). split; [by apply not_elem_of_cons|done].
  - intros q b Hb0. rewrite (Ht' q b) by done. by apply (Ht q b).
Qed.

(** ** What sweeping some nodes of a cache keeps *)

Record kept st st' (s : Z) (R : Z -> Prop) : Prop := {
  kp_config : config_kept st st';
  kp_mem : sl_mem st' = sl_mem st;
  kp_node : forall s' nid, ~ (s' = s /\ R nid) -> get_node st' s' nid = get_node st s' nid;
  kp_sub : forall s' nid n', get_node st' s' nid = Some n' -> exists n, get_node st s' nid = Some n /\ partial n' ⊆ partial n;
  kp_back : forall q o, pa_owned (sl_pages st') q o -> pa_owned (sl_pages st) q o;
  kp_counters : forall s' nid n' q, get_node st' s' nid = Some n' -> q ∈ partial n' -> counters st' q = counters st q
}.

Lemma kept_refl st s R : kept st st s R.
Proof. split; try done. intros s' nid n' ?. by exists n'. Qed.

Lemma kept_trans st st1 st2 s (R1 R2 R : Z -> Prop) :
  kept st st1 s R1 -> kept st1 st2 s R2 -> (forall nid, R1 nid -> R nid) -> (forall nid, R2 nid -> R nid) -> kept st st2 s R.
Proof.
  intros [] [C2 M2 N2 S2 B2 T2] H1 H2. split; [by apply (config_kept_trans st st1)|congruence|..].
  - intros s' nid Hn. rewrite N2, kp_node0; [done|intros [? ?]; apply Hn; auto..].
  - intros s' nid n2 Hn2. destruct (S2 s' nid n2 Hn2) as (n1 & Hn1 & ?). destruct (kp_sub0 s' nid n1 Hn1) as (n & ? & ?).
    exists n. split; [done|]. by trans (partial n1).
  - auto.
  - intros s' nid n2 q Hn2 Hq. rewrite (T2 s' nid n2) by done. destruct (S2 s' nid n2 Hn2) as (n1 & Hn1 & Hs).
    by apply (kp_counters0 s' nid n1); [|apply Hs].
Qed.

(** The partial list of one node, before and after: the empty slabs have left
    it and their pages are no longer owned. *)
Definition swept st st' (n n' : kmem_cache_node) : Prop :=
  partial n' ≡ₚ filter (fun p => ~ empty_slab st p) (partial n)
  /\ forall p o, p ∈ partial n -> empty_slab st p -> ~ pa_owned (sl_pages st') p o.

Lemma empty_filter st st1 (l : list Z) :
  (forall q, q ∈ l -> counters st1 q = counters st q) ->
  filter (fun p => ~ empty_slab st1 p) l = filter (fun p => ~ empty_slab st p) l.
Proof. intros H. apply filter_same. intros q Hq. unfold empty_slab. by rewrite H. Qed.

Lemma swept_step st st1 st' n n' :
  (forall q, q ∈ partial n -> counters st1 q = counters st q) -> swept st1 st' n n' -> swept st st' n n'.
Proof.
  intros Hq [Hp Hno]. split; [by rewrite <- (empty_filter st st1)|]. intros p o Hp' He. apply Hno; [done|].
  unfold empty_slab. by rewrite Hq.
Qed.

(** A node's list becomes [n'] without its empty slabs, and these are given back. *)
Lemma node_clean st S A s nid n n' (D : list Z) :
  rep st (heads st) S A -> get_node st s nid = Some n -> D ≡ₚ filter (empty_slab st) (partial n) ->
  nr_partial n' = u64 (Z.of_nat (length (partial n'))) -> partial n' ≡ₚ filter (fun p => ~ empty_slab st p) (partial n) ->
  exists st' S', discard_list (set_node st s nid n') D = Ret st' /\ rep st' (heads st') S' A
    /\ kept st st' s (eq nid) /\ get_node st' s nid = Some n' /\ swept st st' n n'.
Proof.
  intros Hr Hn HD Hnr Hin. destruct (rp_nodes _ _ _ _ _ Hr s nid n Hn) as (Hnd & _ & _).
  assert (HDin : forall p, p ∈ D <-> p ∈ partial n /\ empty_slab st p) by (intros p; rewrite HD, list_elem_of_filter; tauto).
  assert (Hin' : forall p, p ∈ partial n' <-> p ∈ partial n /\ (p ∉ D)) by (intros p; rewrite Hin, list_elem_of_filter, HDin; tauto).
  assert (Hwf : node_wf n') by (split; [rewrite Hin; by apply NoDup_filter|done]).
  assert (HDnd : NoDup D) by (rewrite HD; by apply NoDup_filter).
  pose proof (rep_unlist st S A s nid n n' D Hr Hn (fun p => proj1 (HDin p)) Hwf Hin') as Hr1. cbn zeta in Hr1.
  set (st1 := set_node st s nid n') in *. set (S' := filter _ S) in *.
  destruct (discard_list_spec D st1 S' A Hr1 HDnd) as (st' & E & Hr' & Hc & Hm & Hb & Ht).
  { intros p Hp. apply HDin in Hp as [Hp' He]. destruct (partial_slab st S A s nid n p Hr Hn Hp') as (b & _ & _ & _ & _ & Ho & Hfl & _).
    split_and!; [|done|by exists (sb_order b)]. apply map_lookup_filter_None. right. intros b0 _. rewrite HDin. tauto. }
  assert (Hg : forall s' nid', get_node st' s' nid' = if decide (s' = s /\ nid' = nid) then Some n' else get_node st s' nid').
  { intros s' nid'. unfold get_node. rewrite Hc. apply node_set_node. }
  exists st', S'. split; [done|]. split; [done|]. split_and!; [split|..].
  - apply (config_kept_trans st st1); [split; [apply config_set_node|]|split; [|unfold get_node]; by rewrite Hc].
    intros s' nid'. unfold st1. rewrite node_set_node. by case_decide.
  - done.
  - intros s' nid' Hne. rewrite Hg, decide_False; [done|]. intros [? ?]. by apply Hne.
  - intros s' nid' n0. rewrite Hg. case_decide as E0; [destruct E0 as [-> ->]|by exists n0].
    intros [= <-]. exists n. split; [done|]. intros p Hp. by apply Hin' in Hp as [? _].
  - intros q o Ho. by apply Hb in Ho as [_ ?].
  - intros s' nid' n0 q Hn0 Hq. destruct (proj1 (proj2 (proj2 (rp_nodes _ _ _ _ _ Hr' s' nid' n0 Hn0)) q) Hq) as (b & Hb0 & _).
    by apply (Ht q b).
  - by rewrite Hg, decide_True.
  - split; [done|]. intros p o Hp He Ho. apply Hb in Ho as [Ho _]. by apply Ho, HDin.
Qed.

(** ** Shutting down *)

Lemma u64_pred k : u64 (u64 (Z.of_nat (S k)) - 1) = u64 (Z.of_nat k).
Proof. rewrite u64_sub_l. f_equal. lia. Qed.

Lemma filter_not_drop (x : Z) (l E : list Z) :
  filter (fun p => p ∉ E) (drop_page x l) = filter (fun p => p ∉ x :: E) l.
Proof.
  unfold drop_page. rewrite list_filter_filter. apply list_filter_iff. intros p. rewrite not_elem_of_cons. tauto.
Qed.
Lemma partial_walk_spec st (l : list Z) : forall n D,
  NoDup l -> l ⊆ partial n -> node_wf n ->
  exists n', partial_walk st l n D = (n', rev (filter (empty_slab st) l) ++ D) /\ node_wf n'
    /\ partial n' = filter (fun p => p ∉ filter (empty_slab st) l) (partial n).
Proof.
  induction l as [|p l IH]; intros n D Hnd Hl Hwf; cbn [partial_walk].
  { exists n. split_and!; [done..|]. symmetry. apply filter_every. intros; apply not_elem_of_nil. }
  apply list.NoDup_cons in Hnd as [Hp Hnd]. rewrite filter_cons. destruct (Z.eqb_spec (ct_inuse (counters st p)) 0) as [E|E].
  - rewrite decide_True by done. destruct Hwf as [Hn Hnr]. assert (Hpn : p ∈ partial n) by (apply Hl; left).
    destruct (IH (remove_partial n p) (p :: D) Hnd) as (n' & -> & Hwf' & Hp').
    + intros q Hq. apply elem_of_drop_page. split; [apply Hl; by right|]. by intros ->.
    + split; cbn; [by apply drop_page_NoDup|]. rewrite Hnr, (drop_page_length p (partial n) Hn Hpn). apply u64_pred.
    + exists n'. split_and!; [|done|by rewrite Hp', <- filter_not_drop]. cbn [rev]. by rewrite <- app_assoc.
  - rewrite decide_False by done. apply IH; [done| |done]. intros q Hq. apply Hl. by right.
Qed.

Lemma filter_out_empty st (l : list Z) :
  filter (fun p => p ∉ filter (empty_slab st) l) l = filter (fun p => ~ empty_slab st p) l.
Proof. apply filter_same. intros p Hp. rewrite list_elem_of_filter. tauto. Qed.

Lemma free_partial_spec st S A s nid n :
  rep st (heads st) S A -> get_node st s nid = Some n ->
  exists st' S' n', free_partial st s nid n = Ret st' /\ rep st' (heads st') S' A
    /\ kept st st' s (eq nid) /\ get_node st' s nid = Some n' /\ swept st st' n n'.
Proof.
  intros Hr Hn. destruct (rp_nodes _ _ _ _ _ Hr s nid n Hn) as (Hnd & Hnr & _).
  destruct (partial_walk_spec st (partial n) n [] Hnd ltac:(done) (conj Hnd Hnr)) as (n' & E & [_ Hnr'] & Hp').
  unfold free_partial. rewrite E, app_nil_r. rewrite filter_out_empty in Hp'.
  destruct (node_clean st S A s nid n n' (rev (filter (empty_slab st) (partial n))) Hr Hn) as (st' & S' & ? & ? & ? & ? & ?);
    [symmetry; apply Permutation_rev|done|by rewrite Hp'|]. by exists st', S', n'.
Qed.
(** A slab of a partial list with an object in use has a live object. *)
Lemma used_slab_live st S A s nid n p :
  rep st (heads st) S A -> get_node st s nid = Some n -> p ∈ partial n -> ~ empty_slab st p -> exists x, A !! x = Some s.
Proof.
  intros Hr Hn Hp He. destruct (partial_slab st S A s nid n p Hr Hn Hp) as (b & Hb & <- & Hh & _ & _ & _ & _ & ? & Hi & _ & Hi0).
  destruct (rp_slab _ _ _ _ _ Hr p b Hb) as [Hc (_ & Hok & _)]. pose proof (sc_home _ _ _ _ _ Hc) as Hhm. rewrite Hh in Hhm. destruct Hhm as [Hcp _].
  assert (Hu : unused b = sb_free b) by (unfold unused; by rewrite Hcp, app_nil_r).
  destruct (decide (Forall (fun x => x ∈ unused b) (all_objs m st p b))) as [Hall|Hall].
  - exfalso. apply He. unfold empty_slab. assert (Hs : all_objs m st p b ⊆+ unused b).
    { apply NoDup_submseteq; [apply obj_list_nodup, Hok|]. by apply Forall_forall. }
    apply submseteq_length in Hs. rewrite Hu in Hs. unfold all_objs, obj_list in Hs. rewrite length_map, length_seq in Hs. lia.
  - apply not_Forall_Exists, Exists_exists in Hall as (x & Hx & Hxu); [|apply _]. exists x.
    apply (rp_live _ _ _ _ _ Hr). exists p, b. split_and!; try done. apply elem_of_all; [lia|done].
Qed.

(** The counter of a partial list does not wrap. *)
Lemma nr_partial_zero st S A s nid n :
  rep st (heads st) S A -> get_node st s nid = Some n -> nr_partial n = 0 <-> partial n = [].
Proof.
  intros Hr Hn. destruct (rp_nodes _ _ _ _ _ Hr s nid n Hn) as (Hnd & -> & _). destruct Hlay as [_ [Hl1 Hl2] Hl3 _].
  assert (Hs : partial n ⊆+ seqZ pa_lo (pa_hi - pa_lo)).
  { apply NoDup_submseteq; [done|]. intros p Hp. destruct (partial_slab st S A s nid n p Hr Hn Hp) as (b & _ & _ & _ & _ & Ho & _).
    pose proof (pa_owned_block _ _ _ Ho) as (? & _ & _). pose proof (pa_owned_range _ _ _ (rp_pages _ _ _ _ _ Hr) Ho).
    apply elem_of_seqZ. pose proof (Z.pow_pos_nonneg 2 (sb_order b) ltac:(lia) ltac:(lia)). lia. }
  apply submseteq_length in Hs. rewrite length_seqZ in Hs. change PAGE_SIZE with 4096 in *.
  rewrite u64_id by (unfold is_u64, U64_MOD; lia). destruct (partial n); cbn; split; done || lia.
Qed.

Lemma shutdown_loop_spec (s : Z) cnt : forall st S A node,
  rep st (heads st) S A ->
  exists st' S' r, shutdown_loop cnt st s node = Ret (st', r) /\ rep st' (heads st') S' A
    /\ kept st st' s (fun nid => node <= nid < node + Z.of_nat cnt)
    /\ (r = 0 /\ (forall nid n, node <= nid < node + Z.of_nat cnt -> get_node st s nid = Some n ->
           exists n', get_node st' s nid = Some n' /\ partial n' = [] /\ swept st st' n n')
        \/ r = 1 /\ exists x, A !! x = Some s).
Proof.
  induction cnt as [|cnt IH]; intros st S A node Hr; cbn [shutdown_loop].
  { exists st, S, 0. split_and!; try done; [apply kept_refl|]. left. split; [done|]. lia. }
  destruct (get_node st s node) as [n|] eqn:En.
  - destruct (free_partial_spec st S A s node n Hr En) as (st1 & S1 & n1 & -> & Hr1 & Hk1 & Hn1 & Hsw). cbn [obind]. rewrite Hn1.
    destruct (Z.eqb_spec (nr_partial n1) 0) as [E|E]; cbn [negb].
    + apply (nr_partial_zero st1 S1 A s node n1 Hr1 Hn1) in E.
      destruct (IH st1 S1 A (node + 1) Hr1) as (st' & S' & r & -> & Hr' & Hk & Hcase).
      assert (Hkk : kept st st' s (fun nid => node <= nid < node + Z.of_nat (Datatypes.S cnt))).
      { apply (kept_trans st st1 st' s _ _ _ Hk1 Hk); intros nid; lia. }
      exists st', S', r. split_and!; try done. destruct Hcase as [[-> Hall]|Hlive]; [left|by right]. split; [done|].
      intros nid n0 Hnid Hn0. destruct (decide (nid = node)) as [->|Hne].
      * rewrite En in Hn0. injection Hn0 as <-. exists n1. rewrite (kp_node _ _ _ _ Hk) by lia. split; [done|]. split; [done|]. split; [apply Hsw|].
        intros p o Hp He Ho. apply (proj2 Hsw p o Hp He). by apply (kp_back _ _ _ _ Hk).
      * assert (Hn01 : get_node st1 s nid = Some n0) by (rewrite (kp_node _ _ _ _ Hk1) by (intros [_ ?]; congruence); done).
        destruct (Hall nid n0 ltac:(lia) Hn01) as (n' & ? & ? & Hsw0). exists n'. split; [done|]. split; [done|]. apply (swept_step st st1); [|done].
        intros q; by apply (kp_counters _ _ _ _ Hk1 s nid n0).
    + exists st1, S1, 1. split_and!; try done; [apply (kept_trans st st1 st1 s _ (fun _ => False) _ Hk1 (kept_refl _ _ _)); [lia|done]|].
      right. split; [done|]. destruct (partial n1) as [|p l] eqn:Ep; [by destruct E; apply (nr_partial_zero st1 S1 A s node n1)|].
      assert (Hp : p ∈ partial n1) by (rewrite Ep; left). apply (used_slab_live st1 S1 A s node n1 p); try done.
      unfold empty_slab. rewrite (kp_counters _ _ _ _ Hk1 s node n1) by done. rewrite (proj1 Hsw) in Hp.
      by apply list_elem_of_filter in Hp as [? _].
  - destruct (IH st S A (node + 1) Hr) as (st' & S' & r & -> & Hr' & Hk & Hcase).
    exists st', S', r. split_and!; try done; [apply (kept_trans st st st' s (fun _ => False) _ _ (kept_refl _ _ _) Hk); [done|lia]|].
    destruct Hcase as [[-> Hall]|Hlive]; [left|by right]. split; [done|]. intros nid n0 Hnid Hn0. apply Hall; [|done].
    destruct (decide (nid = node)); [congruence|lia].
Qed.
(** ** Shrinking *)

(** The free objects of a slab, and the position shrinking sorts by. *)
Definition slack st (p : Z) : Z := ct_objects (counters st p) - ct_inuse (counters st p).
Definition rank st (p : Z) : Z := Z.min (slack st p) (SHRINK_PROMOTE_MAX + 1).
Definition counted st (p : Z) : Prop :=
  0 <= ct_inuse (counters st p) < ct_objects (counters st p) /\ ct_objects (counters st p) < 2 ^ 15.
Definition bucket st (i p : Z) : Prop := ~ empty_slab st p /\ slack st p = i + 1.
Definition moved st (p : Z) : Prop := empty_slab st p \/ slack st p <= SHRINK_PROMOTE_MAX.
#[local] Instance bucket_dec st i p : Decision (bucket st i p) := and_dec _ _.
#[local] Instance moved_dec st p : Decision (moved st p) := or_dec _ _.

Lemma shrink_walk_spec st (l : list Z) : forall n k D promote,
  NoDup l -> (forall p, p ∈ l -> counted st p) -> nr_partial n = u64 k ->
  exists n' promote', shrink_walk st l n D promote = Ret (n', rev (filter (empty_slab st) l) ++ D, promote')
    /\ nr_partial n' = u64 (k - Z.of_nat (length (filter (empty_slab st) l)))
    /\ partial n' = filter (fun p => p ∉ filter (moved st) l) (partial n)
    /\ forall i, i < SHRINK_PROMOTE_MAX -> promote' i = rev (filter (bucket st i) l) ++ promote i.
Proof.
  induction l as [|p l IH]; intros n k D promote Hnd Hl Hk; cbn [shrink_walk].
  { exists n, promote. split_and!; try done; [rewrite Hk; f_equal; cbn; lia|].
    symmetry. apply filter_every. intros; apply not_elem_of_nil. }
  apply list.NoDup_cons in Hnd as [Hp Hnd]. destruct (Hl p (list_elem_of_here _ _)) as [? ?].
  assert (Hl' : forall q, q ∈ l -> counted st q) by (intros; apply Hl; by right).
  rewrite s32_id by lia. fold (slack st p). assert (Hs : 1 <= slack st p) by (unfold slack; lia).
  destruct (Z.leb_spec (slack st p) 0); [lia|]. rewrite !filter_cons. setoid_rewrite filter_cons.
  destruct (Z.eqb_spec (slack st p) (ct_objects (counters st p))) as [E|E].
  - assert (He : empty_slab st p) by (unfold empty_slab, slack in *; lia).
    rewrite decide_True, (decide_True (P := moved st p)) by (done || by left).
    destruct (IH (mk_node (u64 (nr_partial n - 1)) (drop_page p (partial n))) (k - 1) (p :: D) promote Hnd Hl') as (n' & pr & -> & Hk' & Hp' & Hpr).
    { cbn. by rewrite Hk, u64_sub_l. }
    exists n', pr. split_and!; [cbn [rev]; by rewrite <- app_assoc|rewrite Hk'; f_equal; cbn [length]; lia|by rewrite Hp', <- filter_not_drop|].
    intros i Hi. rewrite (decide_False (P := bucket st i p)) by (by intros [? _]). by apply Hpr.
  - assert (He : ~ empty_slab st p) by (unfold empty_slab, slack in *; lia). rewrite decide_False by done.
    destruct (Z.leb_spec (slack st p) SHRINK_PROMOTE_MAX).
    + rewrite (decide_True (P := moved st p)) by (by right).
      destruct (IH (mk_node (nr_partial n) (drop_page p (partial n))) k D (<[slack st p - 1 := p :: promote (slack st p - 1)]> promote) Hnd Hl' Hk)
        as (n' & pr & -> & Hk' & Hp' & Hpr).
      exists n', pr. split_and!; [done|done|by rewrite Hp', <- filter_not_drop|]. intros i Hi. rewrite Hpr by done.
      destruct (decide (slack st p = i + 1)) as [Ei|Ei].
      * rewrite (decide_True (P := bucket st i p)) by done. replace (slack st p - 1) with i by lia. rewrite fn_lookup_insert.
        cbn [rev]. by rewrite <- app_assoc.
      * rewrite (decide_False (P := bucket st i p)) by (by intros [_ ?]). by rewrite fn_lookup_insert_ne by lia.
    + rewrite (decide_False (P := moved st p)) by (intros [?|?]; [done|lia]).
      destruct (IH n k D promote Hnd Hl' Hk) as (n' & pr & -> & Hk' & Hp' & Hpr). exists n', pr. split_and!; try done.
      intros i Hi. rewrite (decide_False (P := bucket st i p)) by (intros [_ ?]; lia). by apply Hpr.
Qed.

Section Splice.
Context (st : slub St) (l : list Z) (promote : Z -> list Z).
Hypothesis Hcount : forall p, p ∈ l -> counted st p.
Hypothesis Hpromote : forall i, i < SHRINK_PROMOTE_MAX -> promote i = rev (filter (bucket st i) l).
#[local] Abbreviation below k := (fun p => ~ empty_slab st p /\ slack st p <= k).

Lemma splice_perm k : forall R, Z.of_nat k <= SHRINK_PROMOTE_MAX ->
  splice_loop k promote R ≡ₚ filter (below (Z.of_nat k)) l ++ R.
Proof.
  induction k as [|k IH]; intros R Hk; cbn [splice_loop].
  { rewrite filter_none; [done|]. intros p Hp [_ ?]. destruct (Hcount p Hp). unfold slack in *. lia. }
  rewrite IH, Hpromote, <- Permutation_rev, app_assoc by lia. apply Permutation_app; [|done]. symmetry.
  apply filter_split_perm; [|intros p [_ ?] [_ ?]; lia]. intros p _. unfold bucket.
  destruct (decide (empty_slab st p)); [tauto|]. split; [intros [_ ?]|intros [[_ ?]|[_ ?]]; (split; [done|lia])].
  destruct (decide (slack st p <= Z.of_nat k)); [left|right]; (split; [done|lia]).
Qed.

Lemma splice_sorted k : forall R, Z.of_nat k <= SHRINK_PROMOTE_MAX ->
  StronglySorted (fun p q => rank st p <= rank st q) R -> (forall q, q ∈ R -> Z.of_nat k < rank st q) ->
  StronglySorted (fun p q => rank st p <= rank st q) (splice_loop k promote R).
Proof.
  induction k as [|k IH]; intros R Hk HR Hq; cbn [splice_loop]; [done|].
  assert (Hb : forall q, q ∈ promote (Z.of_nat k) -> rank st q = Z.of_nat k + 1).
  { intros q. rewrite Hpromote by lia. rewrite <- Permutation_rev, list_elem_of_filter. intros [[_ E] _]. unfold rank. lia. }
  apply IH; [lia| |].
  - apply StronglySorted_app. split_and!; [|induction (promote (Z.of_nat k)) as [|x r IHr]; constructor|done].
    + intros x y Hx Hy. rewrite (Hb x Hx). specialize (Hq y Hy). lia.
    + apply IHr. intros; apply Hb; by right.
    + apply Forall_forall. intros y Hy. rewrite (Hb x), (Hb y); [done|by right|left].
  - intros q Hq'. apply elem_of_app in Hq' as [Hq'|Hq']; [rewrite (Hb q Hq'); lia|specialize (Hq q Hq'); lia].
Qed.
End Splice.

Definition by_slack st (l : list Z) : Prop := StronglySorted (fun p q => rank st p <= rank st q) l.

Lemma shrink_node_spec st S A s nid n :
  rep st (heads st) S A -> get_node st s nid = Some n ->
  exists st' S' n', shrink_node st s nid n = Ret st' /\ rep st' (heads st') S' A
    /\ kept st st' s (eq nid) /\ get_node st' s nid = Some n' /\ swept st st' n n' /\ by_slack st (partial n').
Proof.
  intros Hr Hn. destruct (rp_nodes _ _ _ _ _ Hr s nid n Hn) as (Hnd & Hnr & _). set (l := partial n) in *.
  assert (Hcount : forall p, p ∈ l -> counted st p).
  { intros p Hp. destruct (partial_slab st S A s nid n p Hr Hn Hp) as (b & _ & _ & _ & _ & _ & _ & Ho & ? & Hi & ? & ?).
    unfold counted. rewrite Ho. lia. }
  destruct (shrink_walk_spec st l n _ [] (fun _ => []) Hnd Hcount Hnr) as (n1 & pr & E & Hk & Hp & Hpr).
  unfold shrink_node. fold l. rewrite E. cbn [obind]. rewrite app_nil_r.
  assert (Hpr' : forall i, i < SHRINK_PROMOTE_MAX -> pr i = rev (filter (bucket st i) l)) by (intros i Hi; by rewrite Hpr, app_nil_r).
  assert (Hp1 : partial n1 = filter (fun p => ~ moved st p) l).
  { rewrite Hp. apply filter_same. intros p Hpl. rewrite list_elem_of_filter. tauto. }
  set (L := splice_loop (Z.to_nat SHRINK_PROMOTE_MAX) pr (partial n1)).
  assert (HL : L ≡ₚ filter (fun p => ~ empty_slab st p) l).
  { unfold L. rewrite (splice_perm st l pr Hcount Hpr') by done. rewrite Hp1. symmetry.
    apply filter_split_perm; [|intros p [? ?] Hm; apply Hm; by right]. intros p _. unfold moved.
    destruct (decide (empty_slab st p)), (decide (slack st p <= SHRINK_PROMOTE_MAX)); tauto. }
  destruct (node_clean st S A s nid n (mk_node (nr_partial n1) L) (rev (filter (empty_slab st) l)) Hr Hn)
    as (st' & S' & ? & ? & ? & ? & Hsw); cbn [nr_partial partial].
  - symmetry. apply Permutation_rev.
  - rewrite Hk, HL. f_equal. assert (Hlen : l ≡ₚ filter (empty_slab st) l ++ filter (fun p => ~ empty_slab st p) l).
    { rewrite <- (filter_every (fun _ => True) l) at 1 by done.
      apply filter_split_perm; [|done]. intros p _. destruct (decide (empty_slab st p)); tauto. }
    apply Permutation_length in Hlen. rewrite length_app in Hlen. lia.
  - done.
  - exists st', S', (mk_node (nr_partial n1) L). split; [done|]. split; [done|]. split; [done|]. split; [done|]. split; [done|].
    apply (splice_sorted st l pr Hpr'); [done| |]; cbn [partial]; rewrite Hp1.
    + assert (Hb : forall q, q ∈ filter (fun p => ~ moved st p) l -> rank st q = SHRINK_PROMOTE_MAX + 1).
      { intros q. rewrite list_elem_of_filter. intros [Hm _]. unfold moved in Hm. unfold rank. lia. }
      clear -Hb. induction (filter _ l) as [|x r IHr]; constructor; [apply IHr; intros; apply Hb; by right|].
      apply Forall_forall. intros y Hy. rewrite (Hb x), (Hb y); [done|by right|left].
    + intros q. rewrite list_elem_of_filter. intros [Hm _]. unfold moved in Hm. unfold rank. change (Z.of_nat _) with SHRINK_PROMOTE_MAX. lia.
Qed.

Lemma by_slack_step st st1 (l : list Z) :
  (forall q, q ∈ l -> counters st1 q = counters st q) -> by_slack st l -> by_slack st1 l.
Proof.
  intros Hq. induction 1 as [|x r Hs IH Hx]; constructor; [apply IH; intros; apply Hq; by right|].
  rewrite Forall_forall in *. intros y Hy. unfold rank, slack. rewrite !Hq by (by constructor). by apply Hx.
Qed.

Lemma shrink_loop_spec (s : Z) cnt : forall st S A node,
  rep st (heads st) S A ->
  exists st' S', shrink_loop cnt st s node = Ret st' /\ rep st' (heads st') S' A
    /\ kept st st' s (fun nid => node <= nid < node + Z.of_nat cnt)
    /\ (forall nid n, node <= nid < node + Z.of_nat cnt -> get_node st s nid = Some n ->
           exists n', get_node st' s nid = Some n' /\ by_slack st' (partial n') /\ swept st st' n n').
Proof.
  induction cnt as [|cnt IH]; intros st S A node Hr; cbn [shrink_loop].
  { exists st, S. split_and!; try done; [apply kept_refl|lia]. }
  destruct (get_node st s node) as [n|] eqn:En.
  - destruct (shrink_node_spec st S A s node n Hr En) as (st1 & S1 & n1 & -> & Hr1 & Hk1 & Hn1 & Hsw & Hby). cbn [obind].
    destruct (IH st1 S1 A (node + 1) Hr1) as (st' & S' & -> & Hr' & Hk & Hall).
    assert (Hkk : kept st st' s (fun nid => node <= nid < node + Z.of_nat (Datatypes.S cnt))).
    { apply (kept_trans st st1 st' s _ _ _ Hk1 Hk); intros nid; lia. }
    exists st', S'. split_and!; try done. intros nid n0 Hnid Hn0. destruct (decide (nid = node)) as [->|Hne].
    + rewrite En in Hn0. injection Hn0 as <-. assert (Hn' : get_node st' s node = Some n1) by (rewrite (kp_node _ _ _ _ Hk) by lia; done).
      exists n1. split; [done|]. split; [|split; [apply Hsw|]].
      * apply (by_slack_step st); [|done]. intros q Hq. by apply (kp_counters _ _ _ _ Hkk s node n1).
      * intros p o Hp He Ho. apply (proj2 Hsw p o Hp He). by apply (kp_back _ _ _ _ Hk).
    + assert (Hn01 : get_node st1 s nid = Some n0) by (rewrite (kp_node _ _ _ _ Hk1) by (intros [_ ?]; congruence); done).
      destruct (Hall nid n0 ltac:(lia) Hn01) as (n' & ? & ? & Hsw0). exists n'. split; [done|]. split; [done|].
      apply (swept_step st st1); [|done]. intros q; by apply (kp_counters _ _ _ _ Hk1 s nid n0).
  - destruct (IH st S A (node + 1) Hr) as (st' & S' & -> & Hr' & Hk & Hall).
    exists st', S'. split_and!; try done; [apply (kept_trans st st st' s (fun _ => False) _ _ (kept_refl _ _ _) Hk); [done|lia]|].
    intros nid n0 Hnid Hn0. apply Hall; [|done]. destruct (decide (nid = node)); [congruence|lia].
Qed.
End Shrink.

(** * The slab allocator: properties of shrinking and shutting down a cache *)

Import SlubDemo.

(** ** A machine with an empty and a used slab on the partial list *)

Module ShrinkDemo.
Definition y1 : Z := 0xffff80000000a000.
Definition e1 : slub mm := got st1 (kmem_cache_alloc_node dl dnode st1 3 NUMA_NO_NODE 1 false).
Definition e2 : slub mm := left e1 (__flush_cpu_slab e1 3 0).
Definition e3 : slub mm := left e2 (__flush_cpu_slab e2 3 1).
Definition e4 : slub mm := left e3 (kmem_cache_free dl e3 3 x1 0).
Definition live2 : gmap Z Z := <[y1 := 3]> (<[x1 := 3]> ∅).
Definition live1 : gmap Z Z := delete x1 live2.

Lemma ready_st1 : cache_ready st1 3.
Proof.
  apply (alloc_ready dl dnode dl_ok dstate ∅ 3 NUMA_NO_NODE 0 true st1 x1 3); [apply drep|by apply dready|apply dnode_ok|apply run1|by apply dready].
Qed.

Lemma steps_e4 : rtc (slub_step dl dnode) (dstate, ∅) (e4, live1).
Proof.
  apply (rtc_l _ _ (st1, <[x1 := 3]> ∅)).
  { apply (alloc_step dl dnode dstate ∅ 3 NUMA_NO_NODE 0 true st1 x1); [by apply dready|apply dnode_ok|done|apply run1]. }
  apply (rtc_l _ _ (e1, live2)).
  { apply (alloc_step dl dnode st1 _ 3 NUMA_NO_NODE 1 false e1 y1); [apply ready_st1|apply dnode_ok|done|].
    apply got_ret. vm_compute. reflexivity. }
  apply (rtc_l _ _ (e2, live2)); [apply (step_flush dl dnode e1 live2 3 0 e2); apply left_ret; vm_compute; exact I|].
  apply (rtc_l _ _ (e3, live2)); [apply (step_flush dl dnode e2 live2 3 1 e3); apply left_ret; vm_compute; exact I|].
  apply rtc_once. apply (step_free dl dnode e3 live2 3 x1 0 e4); [vm_compute; reflexivity|apply left_ret; vm_compute; exact I].
Qed.

Lemma rep_e4 : slub_rep dl e4 live1.
Proof. apply (reachable_rep dl dnode dl_ok dstate ∅ e4 _ steps_e4 drep). Qed.
End ShrinkDemo.
Import ShrinkDemo.

(** ** Theorems *)

(** Shrinking a cache always succeeds and changes no live object or its
    contents.  On every node the slabs without objects leave the partial list
    and their pages are owned no more, all the others stay, and the list ends
    up with the fullest slabs first: sorted by the number of free objects, all
    slabs with more than SHRINK_PROMOTE_MAX of them at the end. *)
Theorem kmem_cache_shrink_correct {St : Type} `{PageAllocatorLaws St} (m : layout) (st : slub St) (A : gmap Z Z) (s nr : Z) :
  layout_ok m pa_lo pa_hi -> slub_rep m st A ->
  exists st', __kmem_cache_shrink nr st s = Ret (st', 0) /\ slub_rep m st' A /\ sl_mem st' = sl_mem st
    /\ forall nid n, 0 <= nid < nr -> get_node st s nid = Some n ->
         exists n', get_node st' s nid = Some n'
           /\ partial n' ≡ₚ filter (fun p => ~ empty_slab st p) (partial n)
           /\ StronglySorted (fun p q => rank st' p <= rank st' q) (partial n')
           /\ forall p o, p ∈ partial n -> empty_slab st p -> ~ pa_owned (sl_pages st') p o.
Proof.
  intros Hlay [S Hr]. unfold __kmem_cache_shrink, flush_all.
  destruct (shrink_loop_spec m Hlay s (Z.to_nat nr) st S A 0 Hr) as (st' & S' & -> & Hr' & Hk & Hall). cbn [obind].
  exists st'. split; [done|]. split; [by exists S'|]. split; [apply Hk|]. intros nid n Hnid Hn.
  destruct (Hall nid n ltac:(lia) Hn) as (n' & ? & ? & ? & ?). by exists n'.
Qed.

Lemma kmem_cache_shrink_correct_witness :
  exists st', __kmem_cache_shrink 1 e4 3 = Ret (st', 0) /\ slub_rep dl st' live1 /\ sl_mem st' = sl_mem e4
    /\ forall nid n, 0 <= nid < 1 -> get_node e4 3 nid = Some n ->
         exists n', get_node st' 3 nid = Some n'
           /\ partial n' ≡ₚ filter (fun p => ~ empty_slab e4 p) (partial n)
           /\ StronglySorted (fun p q => rank st' p <= rank st' q) (partial n')
           /\ forall p o, p ∈ partial n -> empty_slab e4 p -> ~ pa_owned (sl_pages st') p o.
Proof. apply (kmem_cache_shrink_correct dl e4 live1 3 1 dl_ok rep_e4). Defined.

(** Shutting down a cache always returns and changes no live object.  The
    result 0 means that the partial list of every node is empty and that all
    pages that were on it have been given back; the result 1 means that an
    object of the cache is still live. *)
Theorem kmem_cache_shutdown_correct {St : Type} `{PageAllocatorLaws St} (m : layout) (st : slub St) (A : gmap Z Z) (s nr : Z) :
  layout_ok m pa_lo pa_hi -> slub_rep m st A ->
  exists st' r, __kmem_cache_shutdown nr st s = Ret (st', r) /\ slub_rep m st' A /\ sl_mem st' = sl_mem st
    /\ (r = 0 /\ (forall nid n, 0 <= nid < nr -> get_node st s nid = Some n ->
          (exists n', get_node st' s nid = Some n' /\ partial n' = [])
          /\ forall p o, p ∈ partial n -> ~ pa_owned (sl_pages st') p o)
        \/ r = 1 /\ exists x, A !! x = Some s).
Proof.
  intros Hlay [S Hr]. unfold __kmem_cache_shutdown, flush_all.
  destruct (shutdown_loop_spec m Hlay s (Z.to_nat nr) st S A 0 Hr) as (st' & S' & r & -> & Hr' & Hk & Hcase).
  exists st', r. split; [done|]. split; [by exists S'|]. split; [apply Hk|]. destruct Hcase as [[-> Hall]|?]; [left|by right].
  split; [done|]. intros nid n Hnid Hn. destruct (Hall nid n ltac:(lia) Hn) as (n' & Hn' & Hp & Hsub & Hno).
  split; [by exists n'|]. intros p o Hin. apply Hno; [done|]. rewrite Hp in Hsub. apply dec_stable. intros He.
  apply Permutation_nil_l in Hsub. apply (not_elem_of_nil p). rewrite Hsub. by apply list_elem_of_filter.
Qed.

Lemma kmem_cache_shutdown_correct_witness :
  exists st' r, __kmem_cache_shutdown 1 e4 3 = Ret (st', r) /\ slub_rep dl st' live1 /\ sl_mem st' = sl_mem e4
    /\ (r = 0 /\ (forall nid n, 0 <= nid < 1 -> get_node e4 3 nid = Some n ->
          (exists n', get_node st' 3 nid = Some n' /\ partial n' = [])
          /\ forall p o, p ∈ partial n -> ~ pa_owned (sl_pages st') p o)
        \/ r = 1 /\ exists x, live1 !! x = Some 3).
Proof. apply (kmem_cache_shutdown_correct dl e4 live1 3 1 dl_ok rep_e4). Defined.

(** The slab a CPU works on is not seen: flush_all() does nothing here, so a
    cache is shut down successfully while two of its objects are live. *)
Example shutdown_misses_cpu_slab :
  match __kmem_cache_shutdown 1 st2 3 with Ret (st', r) => r = 0 /\ c_page (cpu_of st' 3 0) = Some 8 | _ => False end.
Proof. vm_compute. split; reflexivity. Qed.
