(* ===== verification/SlubSizes.v ===== *)
(** * The slab allocator: sizes, orders and the kmalloc caches

    Model of the layout computations of mm/slub.c (calculate_sizes() and what
    it calls), of mm/slab_common.c (alignment, merging of caches, the kmalloc
    array) and of kmalloc_index() of include/linux/slab.h.  All quantities are
    unsigned 32-bit integers as in the source. *)

From S2P Require Import Prelude Bitops Memblock Buddy PageOwner Slub SlubInv.
From stdpp Require Import base list numbers option functions.
#[local] Open Scope Z_scope.
#[local] Open Scope kernel_scope.

(** ** Integers *)

(** ALIGN() at type unsigned int. *)
Definition ALIGN (x a : Z) : Z := let mask := u32 (a - 1) in Z.land (u32 (x + mask)) (u32 (Z.lnot mask)).

Definition __get_order (size : Z) : Z := fls64 (Z.shiftr (u64 (size - 1)) PAGE_SHIFT).
Definition get_order := __get_order.

(** ** The order of a slab (mm/slub.c) *)

Definition slub_min_order : Z := 0.
Definition slub_max_order : Z := 3.
Definition slub_min_objects : Z := 0.
Definition ENOSYS : Z := 38.

Fixpoint slab_order_loop (n : nat) (size max_order fract_leftover order : Z) : Z :=
  match n with
  | O => order
  | S n' =>
      if order <=? max_order then
        let slab_size := u32 (Z.shiftl PAGE_SIZE order) in
        let rem := slab_size mod size in
        if rem <=? slab_size / fract_leftover then order
        else slab_order_loop n' size max_order fract_leftover (order + 1)
      else order
  end.

Definition slab_order (size min_objects max_order fract_leftover : Z) : Z :=
  let min_order := slub_min_order in
  if order_objects min_order size >? MAX_OBJS_PER_PAGE
  then u32 (get_order (u32 (size * MAX_OBJS_PER_PAGE)) - 1)
  else slab_order_loop (Z.to_nat (max_order + 1)) size max_order fract_leftover
         (Z.max min_order (get_order (u32 (min_objects * size)))).

(** The inner loop over fractions 16, 8, 4. *)
Fixpoint fraction_loop (fractions : list Z) (size min_objects : Z) : option Z :=
  match fractions with
  | [] => None
  | fraction :: rest =>
      let order := slab_order size min_objects slub_max_order fraction in
      if order <=? slub_max_order then Some order else fraction_loop rest size min_objects
  end.

Fixpoint objects_loop (n : nat) (size min_objects : Z) : option Z :=
  match n with
  | O => None
  | S n' =>
      if min_objects >? 1 then
        match fraction_loop [16; 8; 4] size min_objects with
        | Some order => Some order
        | None => objects_loop n' size (min_objects - 1)
        end
      else None
  end.

Definition calculate_order (nr_possible_cpu_ids size : Z) : Z :=
  let min_objects := if slub_min_objects =? 0 then u32 (4 * (fls nr_possible_cpu_ids + 1)) else slub_min_objects in
  let max_objects := order_objects slub_max_order size in
  let min_objects := Z.min min_objects max_objects in
  match objects_loop (Z.to_nat min_objects) size min_objects with
  | Some order => order
  | None =>
      let order := slab_order size 1 slub_max_order 1 in
      if order <=? slub_max_order then order
      else
        let order := slab_order size 1 MAX_ORDER 1 in
        if order <? MAX_ORDER then order else - ENOSYS
  end.

(** ** The layout of an object *)

Definition with_layout (size offset oo max min inuse : Z) (k : kmem_cache) : kmem_cache :=
  mk_cache (cpu_slab k) (kc_flags k) (min_partial k) size (object_size k) offset oo max min
    (kc_refcount k) (kc_ctor k) inuse (kc_align k) (kc_node k).

(** The flag is the return value. *)
Definition calculate_sizes (nr_possible_cpu_ids : Z) (k : kmem_cache) (forced_order : Z) : kmem_cache * bool :=
  let size := ALIGN (object_size k) WORD in
  let inuse := size in
  let '(offset, size) :=
    if negb (Z.land (kc_flags k) (Z.lor SLAB_TYPESAFE_BY_RCU SLAB_POISON) =? 0) || kc_ctor k
    then (size, u32 (size + WORD)) else (kc_offset k, size) in
  let size := ALIGN size (kc_align k) in
  let order := if forced_order >=? 0 then forced_order else calculate_order nr_possible_cpu_ids size in
  if order <? 0 then (with_layout size offset (kc_oo k) (kc_max k) (kc_min k) inuse k, false)
  else
    let oo := oo_make order size in
    let min := oo_make (get_order size) size in
    let max := if oo_objects oo >? oo_objects (kc_max k) then oo else kc_max k in
    (with_layout size offset oo max min inuse k, negb (oo_objects oo =? 0)).

Definition set_min_partial (k : kmem_cache) (min : Z) : kmem_cache :=
  let min := if min <? MIN_PARTIAL then MIN_PARTIAL else if min >? MAX_PARTIAL then MAX_PARTIAL else min in
  mk_cache (cpu_slab k) (kc_flags k) min (kc_size k) (object_size k) (kc_offset k) (kc_oo k) (kc_max k)
    (kc_min k) (kc_refcount k) (kc_ctor k) (kc_inuse k) (kc_align k) (kc_node k).

(** ** Alignment (mm/slab_common.c) *)

Definition ARCH_SLAB_MINALIGN : Z := 8.

Fixpoint ralign_loop (fuel : nat) (size ralign : Z) : outcome Z :=
  match fuel with
  | O => Stuck
  | S fuel' => if size <=? ralign / 2 then ralign_loop fuel' size (ralign / 2) else Ret ralign
  end.

(** An unsigned int is halved to 0 within 32 steps. *)
Definition calculate_alignment (cache_line_size flags align size : Z) : outcome Z :=
  let! align :=
    (if negb (Z.land flags SLAB_HWCACHE_ALIGN =? 0)
     then let! ralign := ralign_loop 33 size cache_line_size in Ret (Z.max align ralign)
     else Ret align) in
  let align := if align <? ARCH_SLAB_MINALIGN then ARCH_SLAB_MINALIGN else align in
  Ret (ALIGN align WORD).

(** ** Merging caches *)

Definition slab_unmergeable (usersize : Z) (k : kmem_cache) : bool :=
  kc_ctor k || negb (usersize =? 0) || (kc_refcount k <? 0).

(** [caches] lists the caches in the order of the list [slab_caches], each
    with its usersize; the walk goes backwards. *)
Fixpoint merge_walk (caches : list (kmem_cache * Z)) (size align : Z) : option kmem_cache :=
  match caches with
  | [] => None
  | (k, usersize) :: rest =>
      if slab_unmergeable usersize k then merge_walk rest size align
      else if size >? kc_size k then merge_walk rest size align
      else if negb (Z.land (kc_size k) (u32 (Z.lnot (align - 1))) =? kc_size k) then merge_walk rest size align
      else if kc_size k - size >=? WORD then merge_walk rest size align
      else Some k
  end.

Definition find_mergeable (cache_line_size : Z) (caches : list (kmem_cache * Z)) (size align flags : Z) (ctor : bool)
    : outcome (option kmem_cache) :=
  if ctor then Ret None
  else
    let size := ALIGN size WORD in
    let! align := calculate_alignment cache_line_size flags align size in
    let size := ALIGN size align in
    Ret (merge_walk (rev caches) size align).

(** __kmem_cache_alias() on the cache it found. *)
Definition merged (k : kmem_cache) (size : Z) : kmem_cache :=
  mk_cache (cpu_slab k) (kc_flags k) (min_partial k) (kc_size k) (Z.max (object_size k) size) (kc_offset k)
    (kc_oo k) (kc_max k) (kc_min k) (kc_refcount k + 1) (kc_ctor k) (Z.max (kc_inuse k) (ALIGN size WORD))
    (kc_align k) (kc_node k).

Definition __kmem_cache_alias (cache_line_size : Z) (caches : list (kmem_cache * Z)) (size align flags : Z) (ctor : bool)
    : outcome (option kmem_cache) :=
  let! s := find_mergeable cache_line_size caches size align flags ctor in
  Ret (match s with Some k => Some (merged k size) | None => None end).

(** ** The kmalloc array *)

Definition KMALLOC_MIN_SIZE : Z := 2 ^ KMALLOC_SHIFT_LOW.

Definition size_index : list Z :=
  [3; 4; 5; 5; 6; 6; 6; 6; 1; 1; 1; 1; 7; 7; 7; 7; 2; 2; 2; 2; 2; 2; 2; 2].

Definition size_index_elem (bytes : Z) : Z := u32 (bytes - 1) / 8.

(** The sizes of kmalloc_info[]. *)
Definition kmalloc_info_size : list Z :=
  [0; 96; 192; 8; 16; 32; 64; 128; 256; 512; 1024; 2048; 4096; 8192; 16384; 32768; 65536; 131072; 262144;
   524288; 1048576; 2097152; 4194304; 8388608; 16777216; 33554432; 67108864].

(** setup_kmalloc_cache_index_table(): the first loop, whose body is
    [size_index[elem] = KMALLOC_SHIFT_LOW], and the two fixed ranges. *)
Fixpoint index_fill (n : nat) (i step v : Z) (t : list Z) : list Z :=
  match n with
  | O => t
  | S n' => index_fill n' (i + step) step v (<[Z.to_nat (size_index_elem i) := v]> t)
  end.

Definition setup_kmalloc_cache_index_table (min_size shift_low : Z) (t : list Z) : list Z :=
  let n := Z.to_nat ((min_size - 8 + 7) / 8) in
  let t := index_fill (Nat.min n (length t)) 8 8 shift_low t in
  let t := if min_size >=? 64 then index_fill 4 72 8 7 t else t in
  if min_size >=? 128 then index_fill 8 136 8 8 t else t.

(** Without CONFIG_ZONE_DMA there are two types and kmalloc_type() is the
    first. *)
Definition KMALLOC_NORMAL : Z := 0.
Definition KMALLOC_RECLAIM : Z := 1.
Definition kmalloc_type (flags : Z) : Z := KMALLOC_NORMAL.

(** The array, each cache known by its object size; None is NULL. *)
Abbreviation kmalloc_array := (Z * Z -> option Z).

Definition new_kmalloc_cache (t : kmalloc_array) (idx type : Z) : kmalloc_array :=
  <[(type, idx) := kmalloc_info_size !! Z.to_nat idx]> t.

Definition create_if_missing (t : kmalloc_array) (idx type : Z) : kmalloc_array :=
  match t (type, idx) with None => new_kmalloc_cache t idx type | Some _ => t end.

(** One round of the loop over [i]. *)
Definition create_round (type : Z) (t : kmalloc_array) (i : Z) : kmalloc_array :=
  let t := create_if_missing t i type in
  let t := if (KMALLOC_MIN_SIZE <=? 32) && (i =? 6) then create_if_missing t 1 type else t in
  if (KMALLOC_MIN_SIZE <=? 64) && (i =? 7) then create_if_missing t 2 type else t.

Definition kmalloc_indices : list Z := [3; 4; 5; 6; 7; 8; 9; 10; 11; 12; 13].

Definition create_kmalloc_caches (t : kmalloc_array) : kmalloc_array :=
  foldl (fun t type => foldl (create_round type) t kmalloc_indices) t [KMALLOC_NORMAL; KMALLOC_RECLAIM].

(** The index kmalloc_slab() looks up; [inl] is a value returned at once. *)
Definition kmalloc_slab_index (size : Z) : Z + Z :=
  if size <=? 192 then
    if size =? 0 then inl ZERO_SIZE_PTR
    else match size_index !! Z.to_nat (size_index_elem size) with Some i => inr i | None => inl 0 end
  else if size >? KMALLOC_MAX_CACHE_SIZE then inl 0
  else inr (fls (size - 1)).

Fixpoint first_fit (l : list (Z * Z)) (size : Z) : outcome Z :=
  match l with
  | [] => Panic
  | (bound, index) :: rest => if size <=? bound then Ret index else first_fit rest size
  end.

Definition kmalloc_index (size : Z) : outcome Z :=
  if size =? 0 then Ret 0
  else if size <=? KMALLOC_MIN_SIZE then Ret KMALLOC_SHIFT_LOW
  else if (KMALLOC_MIN_SIZE <=? 32) && (size >? 64) && (size <=? 96) then Ret 1
  else if (KMALLOC_MIN_SIZE <=? 64) && (size >? 128) && (size <=? 192) then Ret 2
  else first_fit
    [(8, 3); (16, 4); (32, 5); (64, 6); (128, 7); (256, 8); (512, 9); (1024, 10); (2 * 1024, 11); (4 * 1024, 12);
     (8 * 1024, 13); (16 * 1024, 14); (32 * 1024, 15); (64 * 1024, 16); (128 * 1024, 17); (256 * 1024, 18);
     (512 * 1024, 19); (1024 * 1024, 20); (2 * 1024 * 1024, 21); (4 * 1024 * 1024, 22); (8 * 1024 * 1024, 23);
     (16 * 1024 * 1024, 24); (32 * 1024 * 1024, 25); (64 * 1024 * 1024, 26)] size.

(** ** The kmalloc entry points (mm/slub.c)

    [caches type index] is the pointer the array holds. *)
Section Kmalloc.
Context {St : Type} {PA : PageAllocator St} (m : layout) (cpu_node : Z -> Z) (caches : Z -> Z -> Z).
Implicit Types st : slub St.

Definition kmalloc_slab (size flags : Z) : Z :=
  match kmalloc_slab_index size with inl v => v | inr index => caches (kmalloc_type flags) index end.

(** kmalloc_large(), kmalloc_large_node(): whole pages. *)
Definition kmalloc_large_node st (size node cpu : Z) : outcome (slub St * Z) :=
  let! (a, page) := pa_alloc (sl_pages st) node (get_order size) in
  Ret (set_pages st a, match page with Some p => page_address m p | None => 0 end).

Definition __kmalloc_node st (size flags node cpu : Z) (zero : bool) : outcome (slub St * Z) :=
  if size >? KMALLOC_MAX_CACHE_SIZE then kmalloc_large_node st size node cpu
  else
    let s := kmalloc_slab size flags in
    if ZERO_OR_NULL_PTR s then Ret (st, s) else slab_alloc_node m cpu_node st s node cpu zero.

Definition __kmalloc st (size flags cpu : Z) (zero : bool) : outcome (slub St * Z) :=
  if size >? KMALLOC_MAX_CACHE_SIZE then kmalloc_large_node st size (cpu_node cpu) cpu
  else
    let s := kmalloc_slab size flags in
    if ZERO_OR_NULL_PTR s then Ret (st, s) else slab_alloc_node m cpu_node st s NUMA_NO_NODE cpu zero.

Definition slab_ksize (k : kmem_cache) : Z :=
  if negb (Z.land (kc_flags k) (Z.lor SLAB_TYPESAFE_BY_RCU SLAB_STORE_USER) =? 0) then kc_inuse k else kc_size k.

Definition __ksize st (x : Z) : Z :=
  if x =? ZERO_SIZE_PTR then 0
  else
    let page := virt_to_head_page m st x in
    let g := struct_page st page in
    if negb (PageSlab g) then u64 (Z.shiftl PAGE_SIZE (pa_order (sl_pages st) page))
    else slab_ksize (sl_cache st (pg_mapping g)).
End Kmalloc.
