(* ===== verification/SizesProps.v ===== *)
(** * The slab allocator: sizes and orders, proofs and theorems

    calculate_sizes() produces exactly the layouts the allocator's invariant
    asks for, merging keeps them, and the kmalloc array serves every size with
    its smallest sufficient cache. *)

From S2P Require Import Prelude Bitops Memblock Buddy PageOwner Slub SlubInv SlubSizes.
From stdpp Require Import base list numbers option functions.
#[local] Open Scope Z_scope.
#[local] Open Scope kernel_scope.

(** ** Integers *)

(** The order of a size is the least one whose block holds it. *)
Lemma get_order_le n j : 1 <= n < 2 ^ 64 -> 0 <= j -> get_order n <= j <-> n <= PAGE_SIZE * 2 ^ j.
Proof.
  intros Hn Hj. unfold get_order, __get_order. rewrite u64_id by ulia. rewrite fls64_le by (done || apply Z.shiftr_nonneg; lia).
  rewrite Z.shiftr_div_pow2 by (unfold PAGE_SHIFT; lia). change (2 ^ PAGE_SHIFT) with PAGE_SIZE. assert (HS : PAGE_SIZE = 4096) by done.
  assert (Hpj : 0 < 2 ^ j) by (apply Z.pow_pos_nonneg; lia). split.
  - intros H. pose proof (Z.div_mod (n - 1) PAGE_SIZE ltac:(lia)). pose proof (Z.mod_pos_bound (n - 1) PAGE_SIZE ltac:(lia)). nia.
  - intros H. apply Z.div_lt_upper_bound; lia.
Qed.

Lemma get_order_nonneg n : 0 <= get_order n.
Proof. apply fls64_nonneg. Qed.

Lemma get_order_holds n : 1 <= n < 2 ^ 64 -> n <= PAGE_SIZE * 2 ^ get_order n.
Proof. intros Hn. apply get_order_le; [done|apply get_order_nonneg|lia]. Qed.

(** ALIGN() rounds up to a multiple of a power of two. *)
Lemma ALIGN_eq x k : 0 <= x -> 0 <= k < 32 -> x + 2 ^ k <= 2 ^ 32 -> ALIGN x (2 ^ k) = 2 ^ k * ((x + (2 ^ k - 1)) / 2 ^ k).
Proof.
  intros Hx Hk Hb. assert (Hp : 0 < 2 ^ k) by (apply Z.pow_pos_nonneg; lia). assert (Hp32 : 2 ^ k < 2 ^ 32) by (apply Z.pow_lt_mono_r; lia).
  unfold ALIGN. rewrite (u32_id (2 ^ k - 1)) by ulia. rewrite (u32_id (x + (2 ^ k - 1))) by ulia. set (y := x + (2 ^ k - 1)).
  replace (Z.land y (u32 (Z.lnot (2 ^ k - 1)))) with (Z.ldiff y (Z.ones k)).
  - rewrite Z.ldiff_ones_r by lia. rewrite Z.shiftl_mul_pow2, Z.shiftr_div_pow2 by lia. lia.
  - apply Z.bits_inj'. intros n Hn. rewrite Z.ldiff_spec, Z.land_spec, Z.ones_equiv. change (Z.pred (2 ^ k)) with (2 ^ k - 1).
    unfold u32. change U32_MOD with (2 ^ 32). destruct (Z.lt_ge_cases n 32).
    + rewrite Z.mod_pow2_bits_low, Z.lnot_spec by lia. done.
    + rewrite Z.mod_pow2_bits_high by lia. rewrite andb_false_r. rewrite Z.bits_above_log2; [done|unfold y; lia|].
      destruct (Z.eq_dec y 0) as [->|]; [cbn; lia|]. apply Z.lt_le_trans with 32; [|lia]. apply Z.log2_lt_pow2; unfold y in *; lia.
Qed.

Lemma ALIGN_spec x a : 0 <= x -> is_pow2 a -> x + a <= 2 ^ 32 -> a <= 2 ^ 31 ->
  x <= ALIGN x a < x + a /\ (a | ALIGN x a).
Proof.
  intros Hx (k & Hk & ->) Hb Ha. assert (k < 32).
  { destruct (Z.lt_ge_cases k 32); [done|]. assert (2 ^ 32 <= 2 ^ k) by (apply Z.pow_le_mono_r; lia). lia. }
  rewrite ALIGN_eq by lia. assert (Hp : 0 < 2 ^ k) by (apply Z.pow_pos_nonneg; lia). split; [|by eexists; rewrite Z.mul_comm].
  pose proof (Z.div_mod (x + (2 ^ k - 1)) (2 ^ k) ltac:(lia)). pose proof (Z.mod_pos_bound (x + (2 ^ k - 1)) (2 ^ k) ltac:(lia)). lia.
Qed.

Lemma ALIGN_id x a : 0 <= x -> is_pow2 a -> x + a <= 2 ^ 32 -> a <= 2 ^ 31 -> (a | x) -> ALIGN x a = x.
Proof.
  intros Hx Ha Hb Hle [c ->]. destruct (ALIGN_spec (c * a) a Hx Ha Hb Hle) as [H [d Hd]]. pose proof (is_pow2_pos a Ha). rewrite Hd in *. f_equal.
  assert (c <= d) by (apply (Z.mul_le_mono_pos_r _ _ a); lia). assert (d < c + 1) by (apply (Z.mul_lt_mono_pos_r a); lia). lia.
Qed.

(** ** Orders *)

Lemma order_objects_eq order size : 0 <= order <= MAX_ORDER -> order_objects order size = PAGE_SIZE * 2 ^ order / size.
Proof.
  intros Ho. unfold order_objects. rewrite Z.shiftl_mul_pow2 by lia. rewrite u32_id; [done|].
  assert (2 ^ order <= 2 ^ 11) by (apply Z.pow_le_mono_r; unfold MAX_ORDER in *; lia).
  assert (0 < 2 ^ order) by (apply Z.pow_pos_nonneg; lia). unfold PAGE_SIZE, PAGE_SHIFT in *. ulia.
Qed.

Lemma slab_order_loop_ge n size mx fr : forall order, order <= slab_order_loop n size mx fr order.
Proof.
  induction n as [|n IH]; intros order; cbn [slab_order_loop]; [lia|]. destruct (order <=? mx); [|lia].
  case_match; [lia|]. specialize (IH (order + 1)). lia.
Qed.

(** With the whole slab as acceptable waste the first order is taken. *)
Lemma slab_order_loop_any n size mx order : 0 < size -> 0 <= order -> slab_order_loop n size mx 1 order = order.
Proof.
  intros Hs Ho. destruct n as [|n]; [done|]. cbn [slab_order_loop]. destruct (order <=? mx); [|done].
  set (sz := u32 _). rewrite Z.div_1_r. assert (0 <= sz) by apply u32_range.
  destruct (Z.leb_spec (sz mod size) sz) as [|H']; [done|]. pose proof (Z.mod_le sz size ltac:(lia) Hs). lia.
Qed.

Section Order.
Context (size : Z) (Hsize : 8 <= size < 2 ^ 31).

Lemma few_objects : (order_objects slub_min_order size >? MAX_OBJS_PER_PAGE) = false.
Proof.
  rewrite order_objects_eq by (unfold slub_min_order, MAX_ORDER; lia). rewrite Z.gtb_ltb. apply Z.ltb_ge.
  unfold slub_min_order, MAX_OBJS_PER_PAGE. assert (PAGE_SIZE * 2 ^ 0 / size <= 512); [|lia].
  apply Z.div_le_upper_bound; [lia|]. change (PAGE_SIZE * 2 ^ 0) with 4096. lia.
Qed.

Lemma slab_order_eq n mx fr :
  slab_order size n mx fr = slab_order_loop (Z.to_nat (mx + 1)) size mx fr (Z.max 0 (get_order (u32 (n * size)))).
Proof. unfold slab_order. by rewrite few_objects. Qed.

Lemma slab_order_one mx : slab_order size 1 mx 1 = get_order size.
Proof.
  rewrite slab_order_eq, Z.mul_1_l, u32_id by ulia. pose proof (get_order_nonneg size). rewrite slab_order_loop_any by lia. lia.
Qed.

(** A slab of the order found holds the objects asked for. *)
Lemma slab_order_holds n mx fr :
  1 <= n -> n * size < 2 ^ 32 -> n * size <= PAGE_SIZE * 2 ^ slab_order size n mx fr.
Proof.
  intros Hn Hb. rewrite slab_order_eq, u32_id by ulia.
  pose proof (slab_order_loop_ge (Z.to_nat (mx + 1)) size mx fr (Z.max 0 (get_order (n * size)))) as Hge.
  pose proof (get_order_nonneg (n * size)). apply get_order_le; [nia|lia|lia].
Qed.

Lemma slab_order_nonneg n mx fr : 0 <= slab_order size n mx fr.
Proof. rewrite slab_order_eq. etransitivity; [|apply slab_order_loop_ge]. lia. Qed.

Lemma fraction_loop_spec l n o :
  1 <= n -> n * size < 2 ^ 32 -> fraction_loop l size n = Some o -> 0 <= o <= slub_max_order /\ n * size <= PAGE_SIZE * 2 ^ o.
Proof.
  intros Hn Hb. induction l as [|fr l IH]; cbn [fraction_loop]; [done|].
  destruct (Z.leb_spec (slab_order size n slub_max_order fr) slub_max_order) as [Hle|]; [|done].
  intros [= <-]. split; [split; [apply slab_order_nonneg|done]|by apply slab_order_holds].
Qed.

Lemma objects_loop_spec k : forall n o,
  n * size < 2 ^ 32 -> objects_loop k size n = Some o -> 0 <= o <= slub_max_order /\ size <= PAGE_SIZE * 2 ^ o.
Proof.
  induction k as [|k IH]; intros n o Hb; cbn [objects_loop]; [done|]. rewrite Z.gtb_ltb. destruct (Z.ltb_spec 1 n); [|done].
  destruct (fraction_loop _ size n) as [o'|] eqn:E.
  - intros [= <-]. apply fraction_loop_spec in E as [? ?]; [|lia|done]. split; [done|nia].
  - apply IH. nia.
Qed.

(** The whole search: a size that fits the largest block gets an order that
    holds it, at most slub_max_order unless a single object is larger; a
    larger size gets an error. *)
Lemma calculate_order_spec cpus :
  let o := calculate_order cpus size in
  if size <=? PAGE_SIZE * 2 ^ (MAX_ORDER - 1)
  then 0 <= o < MAX_ORDER /\ size <= PAGE_SIZE * 2 ^ o /\ (o <= slub_max_order \/ PAGE_SIZE * 2 ^ slub_max_order < size)
  else o = - ENOSYS.
Proof.
  cbn zeta. unfold calculate_order. set (mn := Z.min _ _).
  assert (Hmn : mn * size < 2 ^ 32).
  { assert (mn <= PAGE_SIZE * 2 ^ slub_max_order / size) by (rewrite <- order_objects_eq by (unfold slub_max_order, MAX_ORDER; lia); apply Z.le_min_r).
    pose proof (Z.mul_div_le (PAGE_SIZE * 2 ^ slub_max_order) size ltac:(lia)). change (PAGE_SIZE * 2 ^ slub_max_order) with 32768 in *. nia. }
  destruct (objects_loop (Z.to_nat mn) size mn) as [o|] eqn:E.
  - apply objects_loop_spec in E as [Ho Hs]; [|done].
    assert (2 ^ o <= 2 ^ 3) by (apply Z.pow_le_mono_r; unfold slub_max_order in *; lia).
    destruct (Z.leb_spec size (PAGE_SIZE * 2 ^ (MAX_ORDER - 1))) as [|Hbig].
    + unfold slub_max_order, MAX_ORDER in *. split_and!; try done; try lia.
    + change (PAGE_SIZE * 2 ^ (MAX_ORDER - 1)) with 4194304 in Hbig. unfold PAGE_SIZE, PAGE_SHIFT in Hs. lia.
  - rewrite !slab_order_one. pose proof (get_order_nonneg size) as H0. pose proof (get_order_holds size ltac:(lia)) as Hh.
    pose proof (get_order_le size slub_max_order ltac:(lia) ltac:(unfold slub_max_order; lia)) as H3.
    pose proof (get_order_le size (MAX_ORDER - 1) ltac:(lia) ltac:(unfold MAX_ORDER; lia)) as H10.
    destruct (Z.leb_spec size (PAGE_SIZE * 2 ^ (MAX_ORDER - 1))); destruct (Z.leb_spec (get_order size) slub_max_order);
      destruct (Z.ltb_spec (get_order size) MAX_ORDER); try done; unfold slub_max_order, MAX_ORDER in *; try (split_and!; try done; lia); lia.
Qed.
End Order.

(** ** Layouts *)

Lemma oo_make_parts order n : 0 <= order < 2 ^ 15 -> 0 <= n < 2 ^ 16 ->
  oo_order (u32 (Z.shiftl order OO_SHIFT + n)) = order /\ oo_objects (u32 (Z.shiftl order OO_SHIFT + n)) = n.
Proof.
  intros Ho Hn. unfold oo_order, oo_objects, OO_SHIFT, OO_MASK, OO_SHIFT. rewrite Z.shiftl_mul_pow2 by lia.
  rewrite u32_id by ulia. split.
  - rewrite Z.shiftr_div_pow2 by lia. symmetry. apply (Z.div_unique _ _ order n); lia.
  - replace (2 ^ 16 - 1) with (Z.ones 16) by done. rewrite Z.land_ones by lia. symmetry. apply (Z.mod_unique _ _ order n); lia.
Qed.

(** An order that holds an object makes a slab that fits. *)
Lemma oo_make_fits k order :
  8 <= kc_size k -> 0 <= order < MAX_ORDER -> kc_size k <= PAGE_SIZE * 2 ^ order ->
  (order <= slub_max_order \/ PAGE_SIZE * 2 ^ slub_max_order < kc_size k) -> oo_fits k (oo_make order (kc_size k))
  /\ oo_objects (oo_make order (kc_size k)) <> 0.
Proof.
  intros Hs Ho Hh Hcase. set (n := PAGE_SIZE * 2 ^ order / kc_size k).
  assert (Hn1 : 1 <= n) by (apply Z.div_le_lower_bound; lia).
  assert (Hn2 : n * kc_size k <= PAGE_SIZE * 2 ^ order) by (pose proof (Z.mul_div_le (PAGE_SIZE * 2 ^ order) (kc_size k) ltac:(lia)); unfold n; lia).
  assert (Hn3 : n <= 4096).
  { destruct Hcase as [Hc|Hc].
    - assert (2 ^ order <= 2 ^ 3) by (apply Z.pow_le_mono_r; unfold slub_max_order in *; lia). unfold PAGE_SIZE, PAGE_SHIFT in *. nia.
    - assert (2 ^ order <= 2 ^ 10) by (apply Z.pow_le_mono_r; unfold MAX_ORDER in *; lia).
      change (PAGE_SIZE * 2 ^ slub_max_order) with 32768 in Hc. unfold PAGE_SIZE, PAGE_SHIFT in *. nia. }
  unfold oo_make. rewrite order_objects_eq by lia. fold n.
  destruct (oo_make_parts order n ltac:(unfold MAX_ORDER in *; lia) ltac:(lia)) as [E1 E2].
  unfold oo_fits. rewrite E1, E2. unfold MAX_OBJS_PER_PAGE. split; [split_and!; try done; lia|lia].
Qed.

(** What the computation does before it chooses an order. *)
Definition relocated (k : kmem_cache) : bool :=
  negb (Z.land (kc_flags k) (Z.lor SLAB_TYPESAFE_BY_RCU SLAB_POISON) =? 0) || kc_ctor k.

Definition padded_size (k : kmem_cache) : Z :=
  let size := ALIGN (object_size k) WORD in
  ALIGN (if relocated k then u32 (size + WORD) else size) (kc_align k).

Definition free_offset (k : kmem_cache) : Z := if relocated k then ALIGN (object_size k) WORD else kc_offset k.

Lemma word_pow2 : is_pow2 WORD.
Proof. by exists 3. Qed.

Record sane_request (k : kmem_cache) : Prop := {
  rq_size : 1 <= object_size k <= 2 ^ 30;
  rq_align : is_pow2 (kc_align k);
  rq_min : WORD <= kc_align k <= 2 ^ 20;
  rq_offset : kc_offset k = 0
}.

Lemma pow2_word a : is_pow2 a -> WORD <= a -> (WORD | a).
Proof.
  intros (j & Hj & ->) Hle. assert (3 <= j) by (destruct (Z.lt_ge_cases j 3) as [Hlt|]; [|done]; assert (2 ^ j <= 2 ^ 2) by (apply Z.pow_le_mono_r; lia); unfold WORD in *; lia).
  exists (2 ^ (j - 3)). unfold WORD. change 8 with (2 ^ 3). rewrite <- Z.pow_add_r by lia. f_equal. lia.
Qed.

Lemma padded_spec k : sane_request k ->
  let size := ALIGN (object_size k) WORD in
  object_size k <= size < object_size k + WORD /\ (WORD | size)
  /\ (kc_align k | padded_size k) /\ (WORD | padded_size k)
  /\ (if relocated k then size + WORD else size) <= padded_size k < object_size k + 2 * WORD + kc_align k
  /\ (WORD | free_offset k) /\ 0 <= free_offset k /\ free_offset k + WORD <= padded_size k.
Proof.
  intros [Hs Ha Hm Ho]. cbn zeta. destruct (ALIGN_spec (object_size k) WORD ltac:(lia) word_pow2) as [H1 H2]; [unfold WORD; lia|done|].
  set (size := ALIGN (object_size k) WORD) in *. unfold padded_size. fold size.
  set (sz := if relocated k then u32 (size + WORD) else size).
  assert (Hsz : sz = if relocated k then size + WORD else size) by (unfold sz; destruct (relocated k); [rewrite u32_id by (unfold WORD in *; ulia)|]; done).
  assert (Hrange : 0 < sz <= 2 ^ 30 + 16) by (rewrite Hsz; unfold WORD in *; destruct (relocated k); lia).
  assert (Hup : sz < object_size k + 2 * WORD) by (rewrite Hsz; unfold WORD in *; destruct (relocated k); lia).
  assert (Hlow : WORD <= size) by (destruct H2 as [c Hc]; unfold WORD in *; lia).
  destruct (ALIGN_spec sz (kc_align k) ltac:(lia) Ha ltac:(lia) ltac:(lia)) as [H3 H4].
  assert (Hw : (WORD | ALIGN sz (kc_align k))) by (apply (Z.divide_trans _ (kc_align k)); [apply pow2_word; [done|lia]|done]).
  unfold free_offset. fold size. rewrite <- Hsz. split_and!; try done; try (unfold WORD in *; lia).
  - destruct (relocated k); [done|]. rewrite Ho. apply Z.divide_0_r.
  - destruct (relocated k); unfold WORD in *; lia.
  - destruct (relocated k); rewrite ?Ho; lia.
Qed.

Lemma calculate_sizes_eq cpus k :
  calculate_sizes cpus k (-1) =
    let order := calculate_order cpus (padded_size k) in
    if order <? 0 then (with_layout (padded_size k) (free_offset k) (kc_oo k) (kc_max k) (kc_min k) (ALIGN (object_size k) WORD) k, false)
    else
      let oo := oo_make order (padded_size k) in
      (with_layout (padded_size k) (free_offset k) oo (if oo_objects oo >? oo_objects (kc_max k) then oo else kc_max k)
         (oo_make (get_order (padded_size k)) (padded_size k)) (ALIGN (object_size k) WORD) k, negb (oo_objects oo =? 0)).
Proof. unfold calculate_sizes, padded_size, free_offset, relocated. by destruct (_ || _). Qed.

(** C37. Layout of a cache: for any sane object size and alignment
    calculate_sizes() succeeds exactly when an object with its padding fits
    the largest block of the page allocator; then the sizes, the offset of the
    free pointer, the order and the fallback order satisfy what every other
    operation relies on, objects are aligned as asked, and where the object
    may not be overwritten the free pointer lies behind it.  The padding is
    bounded. *)
Theorem calculate_sizes_correct (cpus : Z) (k : kmem_cache) :
  sane_request k ->
  let k' := fst (calculate_sizes cpus k (-1)) in
  (snd (calculate_sizes cpus k (-1)) = true <-> kc_size k' <= PAGE_SIZE * 2 ^ (MAX_ORDER - 1))
  /\ (snd (calculate_sizes cpus k (-1)) = true ->
        cache_ok k' /\ (kc_align k | kc_size k') /\ (relocated k = true -> object_size k <= kc_offset k'))
  /\ object_size k <= kc_size k' < object_size k + 2 * WORD + kc_align k.
Proof.
  intros Hq. destruct (padded_spec k Hq) as (H1 & H2 & H3 & H4 & H5 & H6 & H7 & H8). pose proof Hq as [Hs Ha Hm Ho].
  assert (Hr : 8 <= padded_size k < 2 ^ 31).
  { unfold WORD in *. destruct H4 as [c Hc]. destruct (relocated k); lia. }
  pose proof (calculate_order_spec (padded_size k) Hr cpus) as Hord. cbn zeta in Hord.
  rewrite calculate_sizes_eq. cbn zeta. set (o := calculate_order cpus (padded_size k)) in *.
  assert (Hbase : object_size k <= padded_size k < object_size k + 2 * WORD + kc_align k) by (unfold WORD in *; destruct (relocated k); lia).
  destruct (Z.leb_spec (padded_size k) (PAGE_SIZE * 2 ^ (MAX_ORDER - 1))) as [Hle|Hgt].
  - destruct Hord as (Ho1 & Ho2 & Ho3). destruct (Z.ltb_spec o 0); [lia|]. cbn [fst snd].
    set (k' := with_layout _ _ _ _ _ _ k).
    destruct (oo_make_fits k' o) as [Hf Hnz]; try done; [cbn; lia|].
    destruct (oo_make_fits k' (get_order (padded_size k))) as [Hfm _]; try done; [cbn; lia| | | |].
    { pose proof (get_order_nonneg (padded_size k)). pose proof (get_order_le (padded_size k) (MAX_ORDER - 1) ltac:(lia) ltac:(unfold MAX_ORDER; lia)). lia. }
    { cbn. apply get_order_holds. lia. }
    { cbn [kc_size k' with_layout]. pose proof (get_order_le (padded_size k) slub_max_order ltac:(lia) ltac:(unfold slub_max_order; lia)).
      destruct (Z.le_gt_cases (get_order (padded_size k)) slub_max_order); [by left|right; lia]. }
    cbn [kc_size k' with_layout] in Hnz. destruct (Z.eqb_spec (oo_objects (oo_make o (padded_size k))) 0); [done|]. cbn [negb].
    split_and!; try done; [|cbn; lia..]. intros _. split_and!; try done.
    + split; try done; cbn; lia.
    + intros Er. cbn. unfold free_offset. rewrite Er. lia.
  - rewrite Hord. change (- ENOSYS <? 0) with true. cbn [fst snd kc_size with_layout]. split_and!; try done; try lia.
Qed.

Definition demo_request : kmem_cache :=
  mk_cache (fun _ => mk_cpu 0 0 None) SLAB_TYPESAFE_BY_RCU 0 0 100 0 0 0 0 0 false 0 64 (fun _ => None).

Lemma calculate_sizes_correct_witness :
  let k' := fst (calculate_sizes 8 demo_request (-1)) in
  kc_size k' = 128 /\ kc_offset k' = 104
  /\ (snd (calculate_sizes 8 demo_request (-1)) = true <-> kc_size k' <= PAGE_SIZE * 2 ^ (MAX_ORDER - 1))
  /\ (snd (calculate_sizes 8 demo_request (-1)) = true ->
        cache_ok k' /\ (kc_align demo_request | kc_size k') /\ (relocated demo_request = true -> object_size demo_request <= kc_offset k'))
  /\ object_size demo_request <= kc_size k' < object_size demo_request + 2 * WORD + kc_align demo_request.
Proof.
  split; [vm_compute; reflexivity|]. split; [vm_compute; reflexivity|]. apply (calculate_sizes_correct 8 demo_request).
  split; [cbn; lia|by exists 6|cbn; unfold WORD; lia|done].
Defined.

(** ** The kmalloc array *)

Definition kmalloc_table : kmalloc_array := create_kmalloc_caches (fun _ => None).

Lemma missing_some t idx type c sz :
  create_if_missing t idx type c = Some sz -> t c = Some sz \/ (kmalloc_info_size !! Z.to_nat (snd c) = Some sz /\ snd c = idx).
Proof.
  unfold create_if_missing. destruct (t (type, idx)); [by left|]. unfold new_kmalloc_cache.
  destruct (decide (c = (type, idx))) as [->|Hne]; [|rewrite fn_lookup_insert_ne by congruence; by left].
  rewrite fn_lookup_insert. by right.
Qed.

Lemma round_some type t i c sz :
  create_round type t i c = Some sz ->
  t c = Some sz \/ (kmalloc_info_size !! Z.to_nat (snd c) = Some sz /\ (snd c = i \/ snd c = 1 \/ snd c = 2)).
Proof.
  unfold create_round. set (t1 := create_if_missing t i type). set (t2 := if _ && (i =? 6) then _ else _).
  assert (H1 : t1 c = Some sz -> t c = Some sz \/ (kmalloc_info_size !! Z.to_nat (snd c) = Some sz /\ (snd c = i \/ snd c = 1 \/ snd c = 2))).
  { intros H. apply missing_some in H as [?|[? ?]]; [by left|right; tauto]. }
  assert (H2 : t2 c = Some sz -> t c = Some sz \/ (kmalloc_info_size !! Z.to_nat (snd c) = Some sz /\ (snd c = i \/ snd c = 1 \/ snd c = 2))).
  { unfold t2. destruct (_ && _); [|exact H1]. intros H. apply missing_some in H as [?|[? ?]]; [by apply H1|right; tauto]. }
  clearbody t2. destruct (_ && _); [|exact H2]. intros H. apply missing_some in H as [?|[? ?]]; [by apply H2|right; tauto].
Qed.

Lemma rounds_some type l : forall t c sz,
  foldl (create_round type) t l c = Some sz ->
  t c = Some sz \/ (kmalloc_info_size !! Z.to_nat (snd c) = Some sz /\ snd c ∈ 1 :: 2 :: l).
Proof.
  induction l as [|i l IH]; intros t c sz; cbn [foldl]; [by left|]. intros H. apply IH in H as [H|[H1 H2]].
  - apply round_some in H as [?|[? H]]; [by left|right]. split; [done|]. rewrite !elem_of_cons. tauto.
  - right. split; [done|]. rewrite !elem_of_cons in *. tauto.
Qed.

Lemma table_some c sz :
  kmalloc_table c = Some sz -> kmalloc_info_size !! Z.to_nat (snd c) = Some sz /\ snd c ∈ 1 :: 2 :: kmalloc_indices.
Proof.
  unfold kmalloc_table, create_kmalloc_caches. cbn [foldl]. intros H.
  apply rounds_some in H as [H|?]; [|done]. by apply rounds_some in H as [?|?].
Qed.

(** What is to hold of one size, as a test. *)
Definition index_ok (size : Z) : bool :=
  match kmalloc_index size, kmalloc_slab_index size with
  | Ret i, inr j =>
      (i =? j) &&
      match kmalloc_table (KMALLOC_NORMAL, i) with
      | Some sz => (size <=? sz) && forallb (fun j => match kmalloc_info_size !! Z.to_nat j with
                                                     | Some sz' => (sz' <? size) || (sz <=? sz')
                                                     | None => false
                                                     end) (1 :: 2 :: kmalloc_indices)
      | None => false
      end
  | _, _ => false
  end.

Lemma all_indices_ok : forallb index_ok (seqZ 1 8192) = true.
Proof. vm_compute. reflexivity. Qed.

(** kmalloc: for every size a kmalloc cache can serve, the index computed
    by kmalloc_index() for a constant size and the one kmalloc_slab() looks up
    agree, create_kmalloc_caches() made a cache at that index, its objects are
    large enough, and no other kmalloc cache with large enough objects has
    smaller ones. *)
Theorem kmalloc_smallest (size : Z) :
  1 <= size <= KMALLOC_MAX_CACHE_SIZE ->
  exists i sz, kmalloc_index size = Ret i /\ kmalloc_slab_index size = inr i
    /\ create_kmalloc_caches (fun _ => None) (KMALLOC_NORMAL, i) = Some sz /\ size <= sz
    /\ forall type j sz', create_kmalloc_caches (fun _ => None) (type, j) = Some sz' -> size <= sz' -> sz <= sz'.
Proof.
  intros Hs. pose proof all_indices_ok as H. rewrite forallb_forall in H. specialize (H size).
  assert (Hin : In size (seqZ 1 8192)).
  { apply list_elem_of_In, elem_of_seqZ. change KMALLOC_MAX_CACHE_SIZE with 8192 in Hs. lia. }
  specialize (H Hin). unfold index_ok in H. destruct (kmalloc_index size) as [i| |]; try done.
  destruct (kmalloc_slab_index size) as [v|j]; [done|]. apply andb_true_iff in H as [E H]. apply Z.eqb_eq in E as <-.
  change (create_kmalloc_caches (fun _ => None)) with kmalloc_table.
  destruct (kmalloc_table (KMALLOC_NORMAL, i)) as [sz|] eqn:Et; [|done]. apply andb_true_iff in H as [Hle Hmin].
  exists i, sz. split; [done|]. split; [done|]. split; [done|]. split; [lia|]. intros type j sz' Hj Hsz. apply table_some in Hj as [Hi Hin']. cbn [snd] in *.
  rewrite forallb_forall in Hmin. specialize (Hmin j (proj1 (list_elem_of_In _ _) Hin')). rewrite Hi in Hmin.
  apply orb_true_iff in Hmin as [?|?]; lia.
Qed.

Lemma kmalloc_smallest_witness :
  exists i sz, kmalloc_index 130 = Ret i /\ kmalloc_slab_index 130 = inr i
    /\ create_kmalloc_caches (fun _ => None) (KMALLOC_NORMAL, i) = Some sz /\ 130 <= sz
    /\ forall type j sz', create_kmalloc_caches (fun _ => None) (type, j) = Some sz' -> 130 <= sz' -> sz <= sz'.
Proof. apply (kmalloc_smallest 130). vm_compute. split; discriminate. Defined.

(** The table needs no patching with the smallest size of this machine. *)
Lemma index_table_unchanged : setup_kmalloc_cache_index_table KMALLOC_MIN_SIZE KMALLOC_SHIFT_LOW size_index = size_index.
Proof. reflexivity. Qed.

(** ** Alignment and merging *)

Lemma ralign_spec fuel : forall size r, 1 <= size -> is_pow2 r -> r < 2 ^ (Z.of_nat fuel - 1) ->
  exists r', ralign_loop fuel size r = Ret r' /\ is_pow2 r' /\ r' <= r /\ r' / 2 < size /\ (r' = r \/ size <= r').
Proof.
  induction fuel as [|fuel IH]; intros size r Hs (k & Hk & ->) Hf; cbn [ralign_loop].
  { assert (0 < 2 ^ k) by (apply Z.pow_pos_nonneg; lia). rewrite Z.pow_neg_r in Hf by lia. lia. }
  assert (Hp : 0 < 2 ^ k) by (apply Z.pow_pos_nonneg; lia).
  destruct (Z.leb_spec size (2 ^ k / 2)) as [Hle|Hgt]; [|exists (2 ^ k); split_and!; [done|by exists k|lia|done|by left]].
  assert (Hk0 : k <> 0) by (intros ->; change (2 ^ 0 / 2) with 0 in Hle; lia).
  assert (E : 2 ^ k = 2 * 2 ^ (k - 1)) by (rewrite <- Z.pow_succ_r by lia; f_equal; lia).
  assert (E2 : 2 ^ k / 2 = 2 ^ (k - 1)) by (rewrite E, Z.mul_comm; apply Z.div_mul; lia). rewrite E2 in *.
  destruct (IH size (2 ^ (k - 1)) Hs) as (r' & -> & H1 & H2 & H3 & H4); [by exists (k - 1); lia| |].
  { apply Z.pow_lt_mono_r_iff in Hf; [|lia|lia]. apply Z.pow_lt_mono_r; lia. }
  exists r'. split_and!; try done; [lia|]. right. destruct H4 as [->|]; done.
Qed.

Lemma pow2_le_max a b : is_pow2 a -> is_pow2 b -> is_pow2 (Z.max a b).
Proof. intros Ha Hb. by destruct (Z.max_spec a b) as [[_ ->]|[_ ->]]. Qed.

Lemma calculate_alignment_spec cls flags align size :
  1 <= size -> is_pow2 cls -> cls < 2 ^ 32 -> cls <= 2 ^ 30 -> is_pow2 align -> align <= 2 ^ 30 ->
  exists a, calculate_alignment cls flags align size = Ret a /\ is_pow2 a /\ align <= a /\ WORD <= a /\ a <= 2 ^ 30
    /\ (Z.land flags SLAB_HWCACHE_ALIGN <> 0 -> cls <= a \/ size <= a).
Proof.
  intros Hs Hc Hc32 Hc30 Ha Ha30. unfold calculate_alignment.
  assert (Hend : forall a, is_pow2 a -> a <= 2 ^ 30 ->
    let b := if a <? ARCH_SLAB_MINALIGN then ARCH_SLAB_MINALIGN else a in
    ALIGN b WORD = b /\ is_pow2 b /\ a <= b /\ WORD <= b /\ b <= 2 ^ 30).
  { intros a Hpa Hle. cbn zeta. unfold ARCH_SLAB_MINALIGN. destruct (Z.ltb_spec a 8) as [Hlt|Hge].
    - split_and!; [done|by exists 3|unfold WORD; lia..].
    - split_and!; [|done|lia|unfold WORD; lia|done]. apply ALIGN_id; [pose proof (is_pow2_pos a Hpa); lia|apply word_pow2|unfold WORD; lia|done|].
      by apply pow2_word. }
  destruct (Z.eqb_spec (Z.land flags SLAB_HWCACHE_ALIGN) 0) as [Ez|Ez]; cbn [negb obind].
  - destruct (Hend align Ha Ha30) as (-> & H1 & H2 & H3 & H4). eexists. split; [done|]. split_and!; try done.
  - destruct (ralign_spec 33 size cls Hs Hc) as (r & -> & R1 & R2 & R3 & R4); [done|]. cbn [obind].
    destruct (Hend (Z.max align r) (pow2_le_max _ _ Ha R1)) as (-> & H1 & H2 & H3 & H4); [lia|].
    eexists. split; [done|]. split_and!; try done; [lia|]. intros _. destruct R4 as [->|R4]; [left|right]; lia.
Qed.

Lemma merge_walk_spec caches size align k :
  merge_walk caches size align = Some k ->
  (exists u, (k, u) ∈ caches /\ slab_unmergeable u k = false) /\ size <= kc_size k < size + WORD /\ kc_ctor k = false
  /\ Z.land (kc_size k) (u32 (Z.lnot (align - 1))) = kc_size k.
Proof.
  induction caches as [|[k0 u0] caches IH]; cbn [merge_walk]; [done|].
  assert (Hrest : merge_walk caches size align = Some k -> (exists u, (k, u) ∈ (k0, u0) :: caches /\ slab_unmergeable u k = false) /\ size <= kc_size k < size + WORD
    /\ kc_ctor k = false /\ Z.land (kc_size k) (u32 (Z.lnot (align - 1))) = kc_size k).
  { intros H. destruct (IH H) as ((u & Hu & Hm) & ?). split; [|done]. exists u. split; [by right|done]. }
  destruct (slab_unmergeable u0 k0) eqn:Eu; [done|]. rewrite Z.gtb_ltb, Z.geb_leb. destruct (Z.ltb_spec (kc_size k0) size); [done|].
  destruct (Z.eqb_spec (Z.land (kc_size k0) (u32 (Z.lnot (align - 1)))) (kc_size k0)); cbn [negb]; [|done].
  destruct (Z.leb_spec WORD (kc_size k0 - size)); [done|]. intros [= <-]. split; [exists u0; split; [left|done]|]. split_and!; try done; try lia.
  unfold slab_unmergeable in Eu. by destruct (kc_ctor k0).
Qed.

Lemma mask_divides x k : 0 <= x < 2 ^ 32 -> 0 <= k < 32 -> Z.land x (u32 (Z.lnot (2 ^ k - 1))) = x -> (2 ^ k | x).
Proof.
  intros Hx Hk H. exists (Z.shiftr x k). rewrite <- Z.shiftl_mul_pow2 by lia. apply Z.bits_inj'. intros n Hn.
  rewrite Z.shiftl_spec by lia. destruct (Z.lt_ge_cases n k) as [Hlt|Hge].
  - rewrite (Z.testbit_neg_r _ (n - k)) by lia. rewrite <- H, Z.land_spec. unfold u32. change U32_MOD with (2 ^ 32).
    rewrite Z.mod_pow2_bits_low, Z.lnot_spec, pow2_mask_bits by lia. destruct (Z.ltb_spec n k); [|lia]. by rewrite andb_false_r.
  - rewrite Z.shiftr_spec by lia. f_equal. lia.
Qed.

Lemma mask_multiple x k : 0 <= x < 2 ^ 32 -> 0 <= k < 32 -> (2 ^ k | x) -> Z.land x (u32 (Z.lnot (2 ^ k - 1))) = x.
Proof.
  intros Hx Hk [c Hc]. apply Z.bits_inj'. intros n Hn. rewrite Z.land_spec. destruct (Z.testbit x n) eqn:E; [|done]. cbn [andb].
  assert (Hn32 : n < 32). { destruct (Z.lt_ge_cases n 32); [done|]. rewrite <- (Z.mod_small x (2 ^ 32)), Z.mod_pow2_bits_high in E by lia. done. }
  unfold u32, U32_MOD. rewrite Z.mod_pow2_bits_low, Z.lnot_spec by lia. replace (2 ^ k - 1) with (Z.ones k) by (rewrite Z.ones_equiv; lia).
  destruct (Z.lt_ge_cases n k); [|by rewrite Z.ones_spec_high by lia]. exfalso. by rewrite Hc, Z.mul_pow2_bits_low in E by lia.
Qed.
Lemma merge_walk_none caches size k : 0 <= k < 32 -> 0 <= size < 2 ^ 32 -> (2 ^ k | size) -> merge_walk caches size (2 ^ k) = None ->
  forall c u, (c, u) ∈ caches -> slab_unmergeable u c = true \/ kc_size c <> size.
Proof.
  intros Hk Hs Hd. induction caches as [|[c0 u0] caches IH]; cbn [merge_walk]; [by intros _ ? ? ?%not_elem_of_nil|].
  intros Hn c u [[= -> ->]|Hc]%elem_of_cons.
  - destruct (slab_unmergeable u0 c0); [by left|right]. intros E. rewrite E, mask_multiple, Z.eqb_refl, Z.sub_diag in Hn by done. rewrite Z.gtb_ltb, Z.ltb_irrefl in Hn. done.
  - apply IH; [|done]. revert Hn. repeat case_match; done.
Qed.
(** Rounding to a word first does not change the rounding to a larger power. *)
Lemma ALIGN_word_spec size a : 1 <= size <= 2 ^ 29 -> is_pow2 a -> WORD <= a <= 2 ^ 30 -> let P := ALIGN (ALIGN size WORD) a in size <= P < size + a /\ (a | P).
Proof.
  intros Hs Ha Hle P. destruct (ALIGN_spec size WORD ltac:(lia) word_pow2 ltac:(unfold WORD; lia) ltac:(done)) as [H1 [c Hc]].
  destruct (ALIGN_spec (ALIGN size WORD) a ltac:(lia) Ha ltac:(unfold WORD in *; lia) ltac:(lia)) as [H2 [d Hd]]. fold P in H2, Hd. split; [split; [lia|]|by exists d].
  destruct (pow2_word a Ha ltac:(lia)) as [w Hw]. rewrite Hd, Hc, Hw in *. unfold WORD in *. assert (d * w * 8 < (c + w) * 8) by lia. assert (d * w < c + w) by lia. lia.
Qed.

Lemma pow2_le_divide a b : is_pow2 a -> is_pow2 b -> a <= b -> (a | b).
Proof.
  intros (i & Hi & ->) (j & Hj & ->) Hle. assert (i <= j) by (apply (Z.pow_le_mono_r_iff 2); lia). exists (2 ^ (j - i)). rewrite <- Z.pow_add_r by lia. f_equal. lia.
Qed.

(** C38. Merging caches: a request for a new cache is answered with an existing
    one that is mergeable and whose objects have exactly the size of the
    request rounded up to its alignment, so less than one step of the alignment
    is wasted, if there is such a cache, and with none otherwise; the cache
    comes from the list and keeps a valid layout, its objects are large enough
    for the request and aligned as it asked, and its cleared size covers both
    uses. *)
Theorem cache_alias_correct (cls : Z) (caches : list (kmem_cache * Z)) (size align flags : Z) (ctor : bool) :
  1 <= size <= 2 ^ 29 -> is_pow2 cls -> cls <= 2 ^ 20 -> is_pow2 align -> align <= 2 ^ 20 ->
  (forall k u, (k, u) ∈ caches -> cache_ok k /\ kc_size k < 2 ^ 31) ->
  exists a P r, calculate_alignment cls flags align (ALIGN size WORD) = Ret a /\ (align | a) /\ (a | P) /\ size <= P < size + a
    /\ __kmem_cache_alias cls caches size align flags ctor = Ret r
    /\ (forall k', r = Some k' -> exists k u, (k, u) ∈ caches /\ ctor = false /\ slab_unmergeable u k = false
         /\ k' = merged k size /\ cache_ok k' /\ kc_size k' = P /\ kc_size k = P /\ kc_offset k' = kc_offset k
         /\ size <= object_size k' <= kc_size k' /\ object_size k <= object_size k')
    /\ (r = None -> ctor = true \/ forall k u, (k, u) ∈ caches -> slab_unmergeable u k = true \/ kc_size k <> P).
Proof.
  intros Hs Hc Hcl Ha Hal Hok.
  destruct (ALIGN_spec size WORD ltac:(lia) word_pow2 ltac:(unfold WORD; lia) ltac:(done)) as [H1 _].
  destruct (calculate_alignment_spec cls flags align (ALIGN size WORD)) as (a & Ea & Hpa & Hlow & Hwa & Hup & _); try done; try lia.
  exists a, (ALIGN (ALIGN size WORD) a). destruct (ALIGN_word_spec size a Hs Hpa ltac:(lia)) as [HP Hd]. set (P := ALIGN (ALIGN size WORD) a) in *.
  assert (Hda : (align | a)) by (by apply pow2_le_divide).
  unfold __kmem_cache_alias, find_mergeable. destruct ctor; [exists None; split_and!; try done; try lia; intros _; by left|]. rewrite Ea. cbn [obind]. fold P.
  eexists. split_and!; try done; try lia.
  - intros k' Hk'. destruct (merge_walk _ _ _) as [k|] eqn:Em; [|done]. injection Hk' as <-.
    apply merge_walk_spec in Em as ((u & Hu & Hmg) & Hsz & Hct & Hmask). rewrite list_elem_of_In, <- in_rev, <- list_elem_of_In in Hu.
    destruct (Hok k u Hu) as [Hk Hk31]. exists k, u. cbn [merged kc_size kc_offset object_size].
    assert (Hfit : size <= kc_size k) by lia. pose proof (co_object _ Hk).
    assert (EP : kc_size k = P).
    { destruct Hpa as (j & Hj & ->). assert (j < 32) by (assert (2 ^ j < 2 ^ 32) by lia; apply (Z.pow_lt_mono_r_iff 2); lia).
      apply mask_divides in Hmask as [c Ec]; [|pose proof (co_size _ Hk); lia|lia]. destruct Hd as [d Ed]. rewrite Ec, Ed in *. unfold WORD in *.
      assert (d <= c) by (apply (Z.mul_le_mono_pos_r _ _ (2 ^ j)); lia). assert (c < d + 1) by (apply (Z.mul_lt_mono_pos_r (2 ^ j)); lia). assert (c = d) by lia. by subst c. }
    split_and!; try done; try lia. destruct Hk. split; try done. cbn. lia.
  - intros Hn. right. intros k u Hu. destruct (merge_walk _ _ _) as [k0|] eqn:Em; [done|]. destruct Hpa as (j & Hj & ->).
    apply (merge_walk_none (rev caches) P j) with (c := k) (u := u) in Em; [done|..].
    + split; [done|]. assert (2 ^ j < 2 ^ 32) by lia. apply (Z.pow_lt_mono_r_iff 2); lia.
    + lia.
    + done.
    + rewrite list_elem_of_In, <- in_rev, <- list_elem_of_In. done.
Qed.

Definition demo_plain : kmem_cache :=
  mk_cache (fun _ => mk_cpu 0 0 None) 0 5 64 60 0 (oo_make 0 64) (oo_make 0 64) (oo_make 0 64) 1 false 64 64 (fun _ => None).
Definition demo_caches : list (kmem_cache * Z) := [(demo_plain, 0)].

Lemma demo_caches_ok k u : (k, u) ∈ demo_caches -> cache_ok k /\ kc_size k < 2 ^ 31.
Proof.
  intros H. apply list_elem_of_singleton, pair_equal_spec in H as [-> _]. split; [|done].
  split; [done|by exists 8|done|by exists 0|done|..]; vm_compute; split_and!; done.
Qed.

Lemma cache_alias_correct_witness :
  exists k', __kmem_cache_alias 64 demo_caches 62 16 0 false = Ret (Some k') /\ kc_size k' = 64 /\ 62 <= object_size k'.
Proof.
  destruct (cache_alias_correct 64 demo_caches 62 16 0 false) as (a & P & r & Ea & _ & _ & HP & Er & Hr & _); [lia|by exists 6|lia|by exists 4|lia|apply demo_caches_ok|].
  vm_compute in Ea. injection Ea as <-. assert (Ex : exists k', __kmem_cache_alias 64 demo_caches 62 16 0 false = Ret (Some k')) by (eexists; vm_compute; reflexivity).
  destruct Ex as [k' Ek]. rewrite Ek in Er. injection Er as <-. destruct (Hr k' eq_refl) as (k & u & Hu & _ & _ & _ & _ & E1 & E2 & _ & H & _). exists k'. split; [exact Ek|].
  split; [|apply H]. rewrite E1, <- E2. apply list_elem_of_singleton in Hu. by injection Hu as -> ->.
Defined.

(** A cache that relies on type-safe reuse is merged with a plain one. *)
Lemma merge_ignores_flags :
  __kmem_cache_alias 64 demo_caches 60 64 SLAB_TYPESAFE_BY_RCU false = Ret (Some (merged demo_plain 60))
  /\ Z.land (kc_flags (merged demo_plain 60)) SLAB_TYPESAFE_BY_RCU = 0.
Proof. split; vm_compute; reflexivity. Qed.

(** Without a size the alignment loop of a hardware-aligned cache never ends. *)
Lemma ralign_zero fuel r : 0 <= r -> ralign_loop fuel 0 r = Stuck.
Proof.
  revert r. induction fuel as [|fuel IH]; intros r Hr; cbn [ralign_loop]; [done|].
  assert (0 <= r / 2) by (apply Z.div_pos; lia). destruct (Z.leb_spec 0 (r / 2)); [by apply IH|lia].
Qed.
