(* ===== verification/Numa.v ===== *)
(** * Node masks, node distances and the order of zonelists

    The node masks of include/linux/nodemask.h (one-word bitmaps searched with
    lib/find_bit.c), the distance table of arch/arm64/mm/numa.c, and the part
    of mm/page_alloc.c that builds every node's zonelists from them. *)

From S2P Require Import Prelude Bitops Memblock Buddy.
From stdpp Require Import base list numbers option functions.
#[local] Open Scope Z_scope.
#[local] Open Scope kernel_scope.

(** ** Node masks *)

Definition nodemask_t : Type := list Z.
Definition NODE_MASK_NONE : nodemask_t := [0].

Definition nodemask_first (m : nodemask_t) : outcome Z := find_first_bit m MAX_NUMNODES.
Definition nodemask_last (m : nodemask_t) : outcome Z := find_last_bit m MAX_NUMNODES.
Definition nodemask_next (n : Z) (m : nodemask_t) : outcome Z := find_next_bit m MAX_NUMNODES (n + 1).

(** test_bit(), set_bit() and clear_bit() on the word that holds the bit. *)
Definition nodemask_is_set (node : Z) (m : nodemask_t) : outcome bool :=
  let! w := word m (node / BITS_PER_LONG) in
  Ret (Z.land 1 (Z.shiftr w (Z.land node (BITS_PER_LONG - 1))) =? 1).
Definition nodemask_set_node (node : Z) (m : nodemask_t) : outcome nodemask_t :=
  let! w := word m (node / BITS_PER_LONG) in
  Ret (<[Z.to_nat (node / BITS_PER_LONG) := Z.lor w (Z.shiftl 1 (node mod BITS_PER_LONG))]> m).
Definition nodemask_clear_node (node : Z) (m : nodemask_t) : outcome nodemask_t :=
  let! w := word m (node / BITS_PER_LONG) in
  Ret (<[Z.to_nat (node / BITS_PER_LONG) := Z.land w (not64 (Z.shiftl 1 (node mod BITS_PER_LONG)))]> m).
Definition nodemask_empty (m : nodemask_t) : outcome bool :=
  let! w := word m 0 in Ret (Z.land w (BITMAP_LAST_WORD_MASK MAX_NUMNODES) =? 0).

(** [for_each_node_mask(node, mask)]: the nodes the loop body sees. *)
Fixpoint node_mask_loop (fuel : nat) (m : nodemask_t) (node : Z) : outcome (list Z) :=
  if negb (node <? MAX_NUMNODES) then Ret []
  else
    match fuel with
    | O => Stuck
    | S fuel' =>
        let! n := nodemask_next node m in
        let! l := node_mask_loop fuel' m n in
        Ret (node :: l)
    end.
Definition for_each_node_mask (m : nodemask_t) : outcome (list Z) :=
  let! n := nodemask_first m in
  node_mask_loop (Z.to_nat MAX_NUMNODES) m n.

(** ** Node distances (arch/arm64/mm/numa.c) *)

Definition LOCAL_DISTANCE : Z := 10.
Definition REMOTE_DISTANCE : Z := 20.

(** [numa_distance] is [None] while the table is not allocated. *)
Record distances := mk_distances {
  numa_distance_cnt : Z;
  numa_distance : option (list Z)
}.

Definition no_distances : distances := mk_distances 0 None.

Definition __node_distance (d : distances) (from to : Z) : outcome Z :=
  if (from >=? numa_distance_cnt d) || (to >=? numa_distance_cnt d) then
    Ret (if from =? to then LOCAL_DISTANCE else REMOTE_DISTANCE)
  else
    match numa_distance d with
    | None => Stuck
    | Some t => word t (s32 (from * numa_distance_cnt d + to))
    end.

(** The two nested loops of numa_alloc_distance() over row [i], column [j]. *)
Definition default_row (cnt i : Z) : list Z :=
  map (fun j => if i =? j then LOCAL_DISTANCE else REMOTE_DISTANCE) (seqZ 0 cnt).
Definition default_table (cnt : Z) : list Z := concat (map (default_row cnt) (seqZ 0 cnt)).

Definition numa_set_distance (d : distances) (from to distance : Z) : distances :=
  match numa_distance d with
  | None => d
  | Some t =>
      if (from >=? numa_distance_cnt d) || (to >=? numa_distance_cnt d) || (from <? 0) || (to <? 0) then d
      else if negb (distance mod 256 =? distance) || ((from =? to) && negb (distance =? LOCAL_DISTANCE)) then d
      else mk_distances (numa_distance_cnt d)
             (Some (<[Z.to_nat (from * numa_distance_cnt d + to) := distance]> t))
  end.

(** ** Zonelists (mm/page_alloc.c) *)

Definition MAX_NR_ZONES : Z := 3.
Definition ZONE_DMA : Z := 0.
Definition ZONE_NORMAL : Z := 1.
Definition ZONE_MOVABLE : Z := 2.
Definition PENALTY_FOR_NODE_WITH_CPUS : Z := 1.
Definition INT_MAX : Z := 2 ^ 31 - 1.
Definition MAX_ZONES_PER_ZONELIST : Z := MAX_NUMNODES * MAX_NR_ZONES.

(** What zonelist building reads of the machine: the online nodes and their
    number, the distances, and which nodes have CPUs. *)
Record topology := mk_topology {
  node_online_mask : nodemask_t;
  nr_online_nodes : Z;
  node_dist : distances;
  node_has_cpus : Z -> bool
}.

Definition managed_zone (zn : zone) : bool := negb (z_managed zn =? 0).

(** [do { zone_type--; ... } while (zone_type)] from [zone_type] = [n]. *)
Fixpoint build_zonerefs_loop (zs : zid -> zone) (nid : Z) (n : nat) : list zoneref :=
  match n with
  | O => []
  | S zone_type =>
      let z := (nid, Z.of_nat zone_type) in
      (if managed_zone (zs z) then [mk_zoneref z (Z.of_nat zone_type)] else [])
      ++ build_zonerefs_loop zs nid zone_type
  end.
Definition build_zonerefs_node (zs : zid -> zone) (nid : Z) : list zoneref :=
  build_zonerefs_loop zs nid (Z.to_nat MAX_NR_ZONES).

(** [for_each_online_node(n)] of find_next_best_node(). *)
Fixpoint best_node_loop (tp : topology) (node_load : Z -> Z) (node : Z) (used : nodemask_t)
    (todo : list Z) (min_val best_node : Z) : outcome Z :=
  match todo with
  | [] => Ret best_node
  | n :: todo' =>
      let! u := nodemask_is_set n used in
      if u then best_node_loop tp node_load node used todo' min_val best_node
      else
        let! dist := __node_distance (node_dist tp) node n in
        let val1 := s32 (dist + (if n <? node then 1 else 0)) in
        let val2 := if node_has_cpus tp n then s32 (val1 + PENALTY_FOR_NODE_WITH_CPUS) else val1 in
        let val3 := s32 (val2 * s32 (nr_online_nodes tp * MAX_NUMNODES)) in
        let val := s32 (val3 + node_load n) in
        if val <? min_val then best_node_loop tp node_load node used todo' val n
        else best_node_loop tp node_load node used todo' min_val best_node
  end.

Definition find_next_best_node (tp : topology) (node_load : Z -> Z) (node : Z) (used : nodemask_t)
  : outcome (nodemask_t * Z) :=
  let! u := nodemask_is_set node used in
  if negb u then
    let! used1 := nodemask_set_node node used in
    Ret (used1, node)
  else
    let! online := for_each_node_mask (node_online_mask tp) in
    let! best_node := best_node_loop tp node_load node used online INT_MAX NUMA_NO_NODE in
    if best_node >=? 0 then
      let! used1 := nodemask_set_node best_node used in
      Ret (used1, best_node)
    else Ret (used, best_node).

(** The while loop of build_zonelists(): [node_order] is the array filled so
    far; a write past its MAX_NUMNODES entries has no defined result. *)
Fixpoint node_order_loop (fuel : nat) (tp : topology) (local_node : Z) (node_load : Z -> Z)
    (used : nodemask_t) (prev_node load : Z) (node_order : list Z) : outcome ((Z -> Z) * list Z) :=
  match fuel with
  | O => Stuck
  | S fuel' =>
      let! (used1, node) := find_next_best_node tp node_load local_node used in
      if negb (node >=? 0) then Ret (node_load, node_order)
      else
        let! d1 := __node_distance (node_dist tp) local_node node in
        let! d2 := __node_distance (node_dist tp) local_node prev_node in
        let node_load1 := if negb (d1 =? d2) then <[node := load]> node_load else node_load in
        if Z.of_nat (length node_order) >=? MAX_NUMNODES then Stuck
        else node_order_loop fuel' tp local_node node_load1 used1 node (s32 (load - 1)) (node_order ++ [node])
  end.

Definition ORDER_FUEL : nat := Z.to_nat MAX_NUMNODES + 1.

Definition build_zonelists_in_node_order (zs : zid -> zone) (node_order : list Z) : list zoneref :=
  concat (map (build_zonerefs_node zs) node_order).
Definition build_thisnode_zonelists (zs : zid -> zone) (nid : Z) : list zoneref :=
  build_zonerefs_node zs nid.

(** The zonelists of a node: with fallback, and restricted to the node. *)
Record node_zonelists := mk_zonelists {
  ZONELIST_FALLBACK : list zoneref;
  ZONELIST_NOFALLBACK : list zoneref
}.

Definition build_zonelists (tp : topology) (zs : zid -> zone) (node_load : Z -> Z) (local_node : Z)
  : outcome ((Z -> Z) * node_zonelists) :=
  let! (node_load1, node_order) :=
    node_order_loop ORDER_FUEL tp local_node node_load NODE_MASK_NONE local_node (nr_online_nodes tp) [] in
  Ret (node_load1, mk_zonelists (build_zonelists_in_node_order zs node_order)
                                (build_thisnode_zonelists zs local_node)).

Fixpoint all_zonelists_loop (tp : topology) (zs : zid -> zone) (nodes : list Z) (node_load : Z -> Z)
    (zl : Z -> node_zonelists) : outcome (Z -> node_zonelists) :=
  match nodes with
  | [] => Ret zl
  | nid :: nodes' =>
      let! (node_load1, l) := build_zonelists tp zs node_load nid in
      all_zonelists_loop tp zs nodes' node_load1 (<[nid := l]> zl)
  end.

Definition __build_all_zonelists (tp : topology) (zs : zid -> zone) (zl : Z -> node_zonelists)
  : outcome (Z -> node_zonelists) :=
  let! online := for_each_node_mask (node_online_mask tp) in
  all_zonelists_loop tp zs online (fun _ => 0) zl.
