(* ===== verification/NumaSpec.v ===== *)
(** * Node masks and zonelists: lemmas

    What the mask operations, the distance table and the choice of the next
    best node compute, and the order in which a node's zonelist visits the
    other nodes. *)

From S2P Require Import Prelude Bitops Memblock Buddy Numa.
From stdpp Require Import base list numbers option functions sorting.
#[local] Open Scope Z_scope.
#[local] Open Scope kernel_scope.

(** ** Masks *)

Definition mask_wf (m : nodemask_t) : Prop := exists w, m = [w] /\ is_u64 w.

Lemma mask_wf_bm m : mask_wf m -> bm_wf m MAX_NUMNODES.
Proof. intros (w & -> & Hw). apply mask_bm_wf; [done|unfold MAX_NUMNODES; lia]. Qed.

Lemma mask_bit w i : 0 <= i < 64 -> bit [w] i = Z.testbit w i.
Proof. intros Hi. unfold bit. by rewrite Z.div_small, Z.mod_small by lia. Qed.

Definition node_ok (n : Z) : Prop := 0 <= n < MAX_NUMNODES.

Lemma word_mask w : word [w] 0 = Ret w.
Proof. reflexivity. Qed.

Lemma is_set_spec m n : mask_wf m -> node_ok n -> nodemask_is_set n m = Ret (bit m n).
Proof.
  unfold node_ok, MAX_NUMNODES. intros (w & -> & Hw) Hn. unfold nodemask_is_set. change BITS_PER_LONG with 64.
  rewrite Z.div_small, word_mask by lia. cbn [obind]. change (64 - 1) with 63.
  rewrite mask_bit, land63, Z.mod_small by lia. f_equal.
  rewrite Z.land_comm. change 1 with (Z.ones 1). rewrite Z.land_ones by lia.
  rewrite Z.testbit_eqb, Z.shiftr_div_pow2 by lia. change (2 ^ 1) with 2. done.
Qed.

Lemma set_node_spec m n : mask_wf m -> node_ok n ->
  exists m', nodemask_set_node n m = Ret m' /\ mask_wf m'
    /\ forall i, node_ok i -> bit m' i = bool_decide (i = n) || bit m i.
Proof.
  unfold node_ok, MAX_NUMNODES. intros (w & -> & Hw) Hn. unfold nodemask_set_node. change BITS_PER_LONG with 64.
  rewrite Z.div_small, Z.mod_small, word_mask by lia. cbn [obind]. change (Z.to_nat 0) with 0%nat. cbn [insert list_insert].
  assert (Hb : forall i, 0 <= i -> Z.testbit (Z.lor w (Z.shiftl 1 n)) i = bool_decide (i = n) || Z.testbit w i).
  { intros i Hi. rewrite Z.lor_spec, orb_comm, Z.shiftl_1_l, Z.pow2_bits_eqb by lia.
    destruct (Z.eqb_spec n i); case_bool_decide; done || lia. }
  eexists. split; [done|]. split.
  - eexists. split; [done|]. apply is_u64_bits.
    + apply Z.lor_nonneg. split; [apply Hw|]. rewrite Z.shiftl_1_l. apply Z.pow_nonneg. lia.
    + intros i Hi. rewrite Hb by lia. rewrite bool_decide_eq_false_2 by lia. by apply testbit_u64.
  - intros i Hi. rewrite !mask_bit by lia. apply Hb. lia.
Qed.

(** The nodes of a mask, in increasing order. *)
Definition nodes_from (m : nodemask_t) (lo : Z) : list Z :=
  filter (fun n => bit m n = true) (seqZ lo (MAX_NUMNODES - lo)).
Definition nodes_of (m : nodemask_t) : list Z := nodes_from m 0.

Lemma nodes_from_step m lo : lo < MAX_NUMNODES ->
  nodes_from m lo = if bit m lo then lo :: nodes_from m (lo + 1) else nodes_from m (lo + 1).
Proof.
  intros Hlo. unfold nodes_from. rewrite seqZ_cons by lia.
  replace (Z.pred (MAX_NUMNODES - lo)) with (MAX_NUMNODES - (lo + 1)) by lia. replace (Z.succ lo) with (lo + 1) by lia.
  rewrite filter_cons. by destruct (bit m lo); case_decide.
Qed.

Lemma nodes_from_skip m r : forall (n : nat) lo, r - lo = Z.of_nat n -> r <= MAX_NUMNODES ->
  (forall i, lo <= i < r -> bit m i = false) -> nodes_from m lo = nodes_from m r.
Proof.
  induction n as [|n IH]; intros lo Hn Hr Hno; [by replace lo with r by lia|].
  rewrite nodes_from_step by lia. rewrite Hno by lia. apply IH; [lia|done|]. intros i Hi. apply Hno. lia.
Qed.

Lemma nodes_from_first m lo r :
  0 <= lo <= MAX_NUMNODES -> first_from (bit m) lo MAX_NUMNODES r -> lo <= r /\ nodes_from m lo = nodes_from m r.
Proof.
  intros Hlo [Hle Hf Hno]. destruct (Z.lt_ge_cases r MAX_NUMNODES) as [Hr|Hr].
  - destruct (Hf Hr) as [Hge _]. split; [done|]. apply (nodes_from_skip m r (Z.to_nat (r - lo))); [lia|done..].
  - split; [lia|]. apply (nodes_from_skip m r (Z.to_nat (r - lo))); [lia|done..].
Qed.

Lemma node_mask_loop_spec m : mask_wf m -> forall fuel n,
  0 <= n -> (n < MAX_NUMNODES -> bit m n = true) -> MAX_NUMNODES <= n + Z.of_nat fuel ->
  node_mask_loop fuel m n = Ret (nodes_from m n).
Proof.
  intros Hm. induction fuel as [|fuel IH]; intros n Hn Hb Hf; cbn [node_mask_loop];
    (destruct (Z.ltb_spec n MAX_NUMNODES) as [Hlt|Hge]; cbn [negb];
      [|unfold nodes_from; by rewrite seqZ_nil by lia]); [lia|].
  unfold nodemask_next. destruct (find_next_bit_spec m MAX_NUMNODES (n + 1)) as (r & -> & Hr); [by apply mask_wf_bm|lia|].
  cbn [obind]. destruct (nodes_from_first m (n + 1) r) as [Hge Heq]; [lia|done|].
  rewrite (IH r); [|lia|apply Hr|lia]. cbn [obind]. rewrite (nodes_from_step m n), Hb, Heq by done. done.
Qed.

Lemma for_each_node_spec m : mask_wf m -> for_each_node_mask m = Ret (nodes_of m).
Proof.
  intros Hm. unfold for_each_node_mask, nodemask_first, nodes_of.
  destruct (find_first_bit_spec m MAX_NUMNODES (mask_wf_bm m Hm)) as (r & -> & Hr). cbn [obind].
  destruct (nodes_from_first m 0 r) as [Hge ->]; [unfold MAX_NUMNODES; lia|done|].
  apply node_mask_loop_spec; [done|lia|apply Hr|]. rewrite Z2Nat.id; [lia|unfold MAX_NUMNODES; lia].
Qed.

Lemma elem_of_nodes m n : n ∈ nodes_of m <-> node_ok n /\ bit m n = true.
Proof.
  unfold nodes_of, nodes_from, node_ok. rewrite list_elem_of_filter, elem_of_seqZ.
  split; intros [? ?]; split; done || lia.
Qed.

Lemma nodes_nodup m : NoDup (nodes_of m).
Proof. apply list.NoDup_filter, NoDup_seqZ. Qed.

(** ** Distances *)

(** The table, when allocated, is square and holds bytes. *)
Record dist_wf (d : distances) : Prop := {
  dw_cnt : 0 <= numa_distance_cnt d <= MAX_NUMNODES;
  dw_none : numa_distance d = None -> numa_distance_cnt d = 0;
  dw_len : forall t, numa_distance d = Some t ->
    Z.of_nat (length t) = numa_distance_cnt d * numa_distance_cnt d /\ Forall (fun x => 0 <= x < 256) t
}.

Lemma cell_index cnt from to : 0 <= from < cnt -> 0 <= to < cnt -> cnt <= MAX_NUMNODES ->
  0 <= from * cnt + to < cnt * cnt /\ s32 (from * cnt + to) = from * cnt + to.
Proof.
  unfold MAX_NUMNODES. intros Hf Ht Hc. assert (0 <= from * cnt + to < cnt * cnt) by nia. split; [done|].
  apply s32_id. nia.
Qed.

Lemma node_distance_spec d from to : dist_wf d -> node_ok from -> node_ok to ->
  exists v, __node_distance d from to = Ret v /\ 0 <= v < 256.
Proof.
  intros [Hc Hn Hl] Hf Ht. unfold __node_distance. rewrite !Z.geb_leb. unfold node_ok in *.
  destruct (Z.leb_spec (numa_distance_cnt d) from), (Z.leb_spec (numa_distance_cnt d) to); cbn [orb];
    try (eexists; split; [done|]; destruct (from =? to); unfold LOCAL_DISTANCE, REMOTE_DISTANCE; lia).
  destruct (numa_distance d) as [t|]; [|specialize (Hn eq_refl); lia].
  destruct (Hl t eq_refl) as [Hlen Hall]. destruct (cell_index (numa_distance_cnt d) from to) as [Hi ->]; [lia..|].
  unfold word. destruct (lookup_lt_is_Some_2 t (Z.to_nat (from * numa_distance_cnt d + to))) as [v Hv]; [lia|].
  rewrite Hv. exists v. split; [done|]. by apply (Forall_lookup_1 _ _ _ _ Hall Hv).
Qed.

(** ** The next best node *)

Record topo_wf (tp : topology) : Prop := {
  tw_mask : mask_wf (node_online_mask tp);
  tw_nr : nr_online_nodes tp = Z.of_nat (length (nodes_of (node_online_mask tp)));
  tw_dist : dist_wf (node_dist tp)
}.

Definition online (tp : topology) : list Z := nodes_of (node_online_mask tp).

Lemma online_ok tp n : n ∈ online tp -> node_ok n.
Proof. intros H. by apply elem_of_nodes in H as [? _]. Qed.

Lemma online_length tp : topo_wf tp -> 0 <= nr_online_nodes tp <= MAX_NUMNODES.
Proof.
  intros [_ -> _]. unfold nodes_of, nodes_from. split; [lia|].
  etransitivity; [apply inj_le, length_filter|]. rewrite length_seqZ. unfold MAX_NUMNODES. lia.
Qed.

(** The value of the distance, and the rank of a node seen from [node]: how
    far it is, with the penalties for lower nodes and nodes with CPUs. *)
Definition dist (tp : topology) (from to : Z) : Z :=
  match __node_distance (node_dist tp) from to with Ret v => v | _ => 0 end.
Definition rank (tp : topology) (node n : Z) : Z :=
  dist tp node n + (if n <? node then 1 else 0) + (if node_has_cpus tp n then 1 else 0).
Definition key (tp : topology) (node_load : Z -> Z) (node n : Z) : Z :=
  rank tp node n * (nr_online_nodes tp * MAX_NUMNODES) + node_load n.

Definition loads_ok (tp : topology) (node_load : Z -> Z) : Prop :=
  forall n, 0 <= node_load n <= nr_online_nodes tp.

Lemma dist_ret tp from to : topo_wf tp -> node_ok from -> node_ok to ->
  __node_distance (node_dist tp) from to = Ret (dist tp from to) /\ 0 <= dist tp from to < 256.
Proof.
  intros Htp Hf Ht. unfold dist. destruct (node_distance_spec _ from to (tw_dist _ Htp) Hf Ht) as (v & -> & Hv). done.
Qed.

Lemma rank_range tp node n : topo_wf tp -> node_ok node -> node_ok n -> 0 <= rank tp node n < 258.
Proof.
  intros Htp Hf Ht. destruct (dist_ret tp node n Htp Hf Ht) as [_ Hd]. unfold rank.
  destruct (n <? node), (node_has_cpus tp n); lia.
Qed.

Lemma key_range tp load node n : topo_wf tp -> loads_ok tp load -> node_ok node -> node_ok n ->
  0 <= key tp load node n < 2 ^ 15.
Proof.
  intros Htp Hl Hf Ht. pose proof (rank_range tp node n Htp Hf Ht). pose proof (online_length tp Htp).
  specialize (Hl n). unfold key, MAX_NUMNODES in *. nia.
Qed.

(** The key decides by rank first. *)
Lemma key_rank tp load node a b : topo_wf tp -> loads_ok tp load -> 0 < nr_online_nodes tp ->
  key tp load node a <= key tp load node b -> rank tp node a <= rank tp node b.
Proof.
  intros Htp Hl Hnr Hk. pose proof (Hl a). pose proof (Hl b). unfold key, MAX_NUMNODES in *. nia.
Qed.

(** The machine arithmetic of find_next_best_node() computes the key. *)
Lemma key_arith tp load node n : topo_wf tp -> loads_ok tp load -> node_ok node -> node_ok n ->
  let val1 := s32 (dist tp node n + (if n <? node then 1 else 0)) in
  let val2 := if node_has_cpus tp n then s32 (val1 + PENALTY_FOR_NODE_WITH_CPUS) else val1 in
  s32 (s32 (val2 * s32 (nr_online_nodes tp * MAX_NUMNODES)) + load n) = key tp load node n.
Proof.
  intros Htp Hl Hf Ht. cbn zeta. destruct (dist_ret tp node n Htp Hf Ht) as [_ Hd].
  pose proof (rank_range tp node n Htp Hf Ht) as Hr. pose proof (key_range tp load node n Htp Hl Hf Ht) as Hk.
  pose proof (online_length tp Htp) as Hnr. specialize (Hl n). unfold PENALTY_FOR_NODE_WITH_CPUS.
  assert (E : (if node_has_cpus tp n then s32 (s32 (dist tp node n + (if n <? node then 1 else 0)) + 1)
               else s32 (dist tp node n + (if n <? node then 1 else 0))) = rank tp node n).
  { unfold rank. destruct (n <? node), (node_has_cpus tp n); rewrite ?s32_id; rewrite ?s32_id; lia. }
  rewrite E. unfold MAX_NUMNODES in *. rewrite (s32_id (nr_online_nodes tp * 8)) by lia.
  unfold key in *. unfold MAX_NUMNODES in *. rewrite (s32_id (rank tp node n * _)) by nia. apply s32_id. lia.
Qed.

(** [b] is a candidate with the least key. *)
Record best_of (tp : topology) (load : Z -> Z) (node : Z) (cand : Z -> Prop) (b : Z) : Prop := {
  bo_cand : cand b;
  bo_least : forall n, cand n -> key tp load node b <= key tp load node n
}.

Lemma best_node_loop_spec tp load node used : topo_wf tp -> loads_ok tp load -> node_ok node -> mask_wf used ->
  forall todo min_val best, (forall n, n ∈ todo -> node_ok n) ->
  exists b, best_node_loop tp load node used todo min_val best = Ret b
    /\ ((b = best /\ forall n, n ∈ todo -> bit used n = false -> min_val <= key tp load node n)
        \/ (key tp load node b < min_val
            /\ best_of tp load node (fun n => n ∈ todo /\ bit used n = false) b)).
Proof.
  intros Htp Hl Hnode Hu. induction todo as [|n todo IH]; intros min_val best Hok; cbn [best_node_loop].
  { exists best. split; [done|]. left. split; [done|]. intros n Hn. by apply not_elem_of_nil in Hn. }
  assert (Hn : node_ok n) by (apply Hok; by left).
  assert (Hok' : forall k, k ∈ todo -> node_ok k) by (intros k Hk; apply Hok; by right).
  rewrite is_set_spec by done. cbn [obind]. destruct (bit used n) eqn:Eu.
  - destruct (IH min_val best Hok') as (b & -> & Hb). exists b. split; [done|].
    destruct Hb as [[-> Hb]|[Hlt [[Hin Hnu] Hb]]]; [left|right].
    + split; [done|]. intros k [->|Hk]%elem_of_cons Hku; [congruence|auto].
    + split; [done|]. split; [split; [by right|done]|]. intros k [[->|Hk]%elem_of_cons Hku]; [congruence|auto].
  - destruct (dist_ret tp node n Htp Hnode Hn) as [-> _]. cbn [obind].
    rewrite (key_arith tp load node n Htp Hl Hnode Hn). destruct (Z.ltb_spec (key tp load node n) min_val) as [Hlt|Hge].
    + destruct (IH (key tp load node n) n Hok') as (b & -> & Hb). exists b. split; [done|]. right.
      destruct Hb as [[-> Hb]|[Hlt' [[Hin Hnu] Hb]]].
      * split; [done|]. split; [split; [by left|done]|]. intros k [[->|Hk]%elem_of_cons Hku]; [lia|auto].
      * split; [lia|]. split; [split; [by right|done]|]. intros k [[->|Hk]%elem_of_cons Hku]; [lia|auto].
    + destruct (IH min_val best Hok') as (b & -> & Hb). exists b. split; [done|].
      destruct Hb as [[-> Hb]|[Hlt [[Hin Hnu] Hb]]]; [left|right].
      * split; [done|]. intros k [->|Hk]%elem_of_cons Hku; [done|auto].
      * split; [done|]. split; [split; [by right|done]|]. intros k [[->|Hk]%elem_of_cons Hku]; [lia|auto].
Qed.

(** The mask holds exactly the nodes of the list. *)
Definition mask_is (m : nodemask_t) (l : list Z) : Prop :=
  mask_wf m /\ forall n, node_ok n -> bit m n = true <-> n ∈ l.

Lemma mask_is_snoc m l n : mask_is m l -> node_ok n ->
  exists m', nodemask_set_node n m = Ret m' /\ mask_is m' (l ++ [n]).
Proof.
  intros [Hm Hb] Hn. destruct (set_node_spec m n Hm Hn) as (m' & -> & Hm' & Hb').
  exists m'. split; [done|]. split; [done|]. intros i Hi. rewrite Hb' by done.
  rewrite orb_true_iff, bool_decide_eq_true, Hb, elem_of_app, list_elem_of_singleton by done. tauto.
Qed.

Lemma mask_is_false m l n : mask_is m l -> node_ok n -> bit m n = false <-> n ∉ l.
Proof. intros [_ Hb] Hn. rewrite <- Hb by done. by destruct (bit m n). Qed.

Section Order.
Context (tp : topology) (node : Z) (Htp : topo_wf tp) (Hnode : node ∈ online tp).

Lemma nr_online_pos : 0 < nr_online_nodes tp.
Proof.
  rewrite (tw_nr _ Htp). fold (online tp). destruct (online tp); [by apply not_elem_of_nil in Hnode|cbn; lia].
Qed.

(** The local node comes first, then an unused online node of least key, and
    -1 once every online node is used. *)
Lemma find_next_best_spec load used acc : loads_ok tp load -> mask_is used acc ->
  exists used' b, find_next_best_node tp load node used = Ret (used', b)
    /\ (if decide (node ∈ acc) then
          (b = -1 /\ forall n, n ∈ online tp -> n ∈ acc)
          \/ (mask_is used' (acc ++ [b]) /\ best_of tp load node (fun n => n ∈ online tp /\ n ∉ acc) b)
        else b = node /\ mask_is used' (acc ++ [node])).
Proof.
  intros Hl Hu. pose proof (online_ok _ _ Hnode) as Hok. unfold find_next_best_node.
  rewrite is_set_spec by (done || apply Hu). cbn [obind].
  destruct (decide (node ∈ acc)) as [Hin|Hin].
  - rewrite (proj2 (proj2 Hu node Hok) Hin). cbn [negb].
    rewrite for_each_node_spec by apply Htp. cbn [obind]. fold (online tp).
    destruct (best_node_loop_spec tp load node used Htp Hl Hok (proj1 Hu) (online tp) INT_MAX NUMA_NO_NODE)
      as (b & -> & Hb); [apply online_ok|]. cbn [obind].
    destruct Hb as [[-> Hno]|[_ [[Hbin Hbu] Hleast]]].
    + exists used, NUMA_NO_NODE. split; [done|]. left. split; [done|]. intros n Hn.
      pose proof (online_ok _ _ Hn) as Hn'. destruct (decide (n ∈ acc)); [done|exfalso].
      specialize (Hno n Hn (proj2 (mask_is_false _ _ n Hu Hn') ltac:(done))).
      pose proof (key_range tp load node n Htp Hl Hok Hn'). unfold INT_MAX in Hno. lia.
    + pose proof (online_ok _ _ Hbin) as Hb'. rewrite Z.geb_leb.
      destruct (Z.leb_spec 0 b); [|unfold node_ok in Hb'; lia].
      destruct (mask_is_snoc used acc b Hu Hb') as (used' & -> & Hu'). cbn [obind].
      exists used', b. split; [done|]. right. split; [done|]. split.
      * split; [done|]. by apply (mask_is_false _ _ b Hu Hb').
      * intros n [Hn Hna]. apply Hleast. split; [done|]. apply (mask_is_false _ _ n Hu); [by apply online_ok in Hn|done].
  - rewrite (proj2 (mask_is_false _ _ node Hu Hok) Hin). cbn [negb].
    destruct (mask_is_snoc used acc node Hu Hok) as (used' & -> & Hu'). cbn [obind]. by exists used', node.
Qed.

Lemma used_length (l : list Z) : NoDup l -> (forall n, n ∈ l -> n ∈ online tp) -> Z.of_nat (length l) <= nr_online_nodes tp.
Proof.
  intros Hnd Hin. rewrite (tw_nr _ Htp). apply inj_le, submseteq_length. by apply NoDup_submseteq.
Qed.

Lemma loads_ok_insert load n v : loads_ok tp load -> 0 <= v <= nr_online_nodes tp -> loads_ok tp (<[n := v]> load).
Proof.
  intros Hl Hv k. destruct (decide (k = n)) as [->|]; [by rewrite fn_lookup_insert|by rewrite fn_lookup_insert_ne].
Qed.

Definition rank_le (a b : Z) : Prop := rank tp node a <= rank tp node b.

Record ordered (load : Z -> Z) (acc rest : list Z) : Prop := {
  od_nodup : NoDup (acc ++ rest);
  od_nodes : forall n, n ∈ acc ++ rest <-> n ∈ online tp;
  od_loads : loads_ok tp load;
  od_sorted : StronglySorted rank_le rest
}.

(** One more node is appended to the order. *)
Lemma order_step load used acc prev b :
  loads_ok tp load -> mask_is used (acc ++ [b]) -> b ∈ online tp -> node_ok prev ->
  NoDup (acc ++ [b]) -> (forall n, n ∈ acc -> n ∈ online tp) ->
  exists load', loads_ok tp load' /\ forall fuel used0,
    find_next_best_node tp load node used0 = Ret (used, b) ->
    node_order_loop (S fuel) tp node load used0 prev (nr_online_nodes tp - Z.of_nat (length acc)) acc
    = node_order_loop fuel tp node load' used b (nr_online_nodes tp - Z.of_nat (length (acc ++ [b]))) (acc ++ [b]).
Proof.
  intros Hl Hu Hb Hprev Hnd Hacc. pose proof (online_ok _ _ Hnode) as Hok. pose proof (online_ok _ _ Hb) as Hbok.
  pose proof (online_length tp Htp) as Hnr.
  assert (Hlen : Z.of_nat (length (acc ++ [b])) <= nr_online_nodes tp).
  { apply used_length; [done|]. intros n [Hn| ->%list_elem_of_singleton]%elem_of_app; auto. }
  rewrite length_app in *. cbn [length] in *.
  set (ld := nr_online_nodes tp - Z.of_nat (length acc)).
  exists (if negb (dist tp node b =? dist tp node prev) then <[b := ld]> load else load). split.
  { destruct (negb _); [|done]. apply loads_ok_insert; [done|]. unfold ld. lia. }
  intros fuel used0 Hf. cbn [node_order_loop]. rewrite Hf. cbn [obind]. rewrite !Z.geb_leb.
  destruct (Z.leb_spec 0 b); [|unfold node_ok in Hbok; lia]. cbn [negb].
  destruct (dist_ret tp node b Htp Hok Hbok) as [-> _], (dist_ret tp node prev Htp Hok Hprev) as [-> _]. cbn [obind].
  destruct (Z.leb_spec MAX_NUMNODES (Z.of_nat (length acc))); [lia|].
  f_equal. rewrite s32_id; unfold ld, MAX_NUMNODES in *; lia.
Qed.

Lemma order_tail : forall fuel load used prev acc,
  loads_ok tp load -> mask_is used acc -> NoDup acc -> (forall n, n ∈ acc -> n ∈ online tp) -> node ∈ acc ->
  node_ok prev -> (length (online tp) < fuel + length acc)%nat ->
  exists load' rest,
    node_order_loop fuel tp node load used prev (nr_online_nodes tp - Z.of_nat (length acc)) acc = Ret (load', acc ++ rest)
    /\ ordered load' acc rest.
Proof.
  induction fuel as [|fuel IH]; intros load used prev acc Hl Hu Hnd Hacc Hin Hprev Hf.
  { pose proof (used_length acc Hnd Hacc) as Hle. rewrite (tw_nr _ Htp) in Hle. fold (online tp) in Hle. lia. }
  destruct (find_next_best_spec load used acc Hl Hu) as (used' & b & Hrun & Hb). rewrite decide_True in Hb by done.
  destruct Hb as [[-> Hall]|[Hu' [[Hbo Hbn] Hleast]]].
  - exists load, []. cbn [node_order_loop]. rewrite Hrun. cbn. rewrite app_nil_r. split; [done|].
    split; rewrite ?app_nil_r; try done; [|constructor]. intros n. split; auto.
  - assert (Hnd' : NoDup (acc ++ [b])).
    { apply list.NoDup_app. split_and!; [done| |apply NoDup_singleton]. by intros x Hx ->%list_elem_of_singleton. }
    destruct (order_step load used' acc prev b Hl Hu' Hbo Hprev Hnd' Hacc) as (load1 & Hl1 & Hstep).
    rewrite (Hstep fuel used Hrun).
    destruct (IH load1 used' b (acc ++ [b]) Hl1 Hu' Hnd') as (load' & rest & -> & [Hn He Hlo Hs]).
    + intros n [Hn| ->%list_elem_of_singleton]%elem_of_app; auto.
    + apply elem_of_app. by left.
    + by apply online_ok in Hbo.
    + rewrite length_app. cbn. lia.
    + exists load', (b :: rest). rewrite <- app_assoc in Hn, He |- *. cbn [app] in *. split; [done|]. split; try done.
      constructor; [done|]. apply List.Forall_forall. intros n Hn'%list_elem_of_In.
      apply (key_rank tp load); try done; [apply nr_online_pos|]. apply Hleast. split.
      * apply He, elem_of_app. right. by right.
      * intros Hna. apply list.NoDup_app in Hn as (_ & Hd & _). apply (Hd n Hna). by right.
Qed.

(** The whole order of the nodes. *)
Lemma node_order_spec load : loads_ok tp load ->
  exists load' rest,
    node_order_loop ORDER_FUEL tp node load NODE_MASK_NONE node (nr_online_nodes tp) [] = Ret (load', node :: rest)
    /\ ordered load' [node] rest.
Proof.
  intros Hl. pose proof (online_ok _ _ Hnode) as Hok.
  assert (Hm : mask_is NODE_MASK_NONE []).
  { split; [by exists 0|]. intros n Hn. unfold NODE_MASK_NONE. rewrite mask_bit by (unfold node_ok, MAX_NUMNODES in *; lia).
    rewrite Z.bits_0. split; [done|]. intros H. by apply not_elem_of_nil in H. }
  destruct (find_next_best_spec load NODE_MASK_NONE [] Hl Hm) as (used' & b & Hrun & Hb).
  rewrite decide_False in Hb by apply not_elem_of_nil. destruct Hb as [-> Hu'].
  assert (Hn0 : forall n : Z, n ∈ [] -> n ∈ online tp) by (intros n H; by apply not_elem_of_nil in H).
  destruct (order_step load used' [] node node Hl Hu' Hnode Hok (NoDup_singleton node) Hn0) as (load1 & Hl1 & Hstep).
  specialize (Hstep (Z.to_nat MAX_NUMNODES) NODE_MASK_NONE Hrun). rewrite Z.sub_0_r in Hstep.
  unfold ORDER_FUEL. rewrite Nat.add_1_r, Hstep. cbn [app].
  destruct (order_tail (Z.to_nat MAX_NUMNODES) load1 used' node [node] Hl1 Hu' (NoDup_singleton node)) as (load' & rest & -> & Ho);
    try done.
  - by intros n ->%list_elem_of_singleton.
  - by left.
  - pose proof (online_length tp Htp) as Hle. rewrite (tw_nr _ Htp) in Hle. fold (online tp) in Hle. cbn [length]. lia.
  - by exists load', rest.
Qed.
End Order.

(** ** The zones of a zonelist *)

(** The zone is one of node [nid]'s and has managed pages. *)
Definition node_zone (zs : zid -> zone) (nid : Z) (z : zid) : Prop :=
  fst z = nid /\ 0 <= snd z < MAX_NR_ZONES /\ managed_zone (zs z) = true.

Lemma zonerefs_loop_spec zs nid n :
  (forall z, z ∈ map zr_zone (build_zonerefs_loop zs nid n)
     <-> fst z = nid /\ 0 <= snd z < Z.of_nat n /\ managed_zone (zs z) = true)
  /\ NoDup (map zr_zone (build_zonerefs_loop zs nid n))
  /\ (forall r, r ∈ build_zonerefs_loop zs nid n -> zr_idx r = snd (zr_zone r))
  /\ (length (build_zonerefs_loop zs nid n) <= n)%nat.
Proof.
  induction n as [|n (IHz & IHn & IHi & IHl)]; cbn [build_zonerefs_loop].
  { split_and!; [|constructor|intros r Hr; by apply not_elem_of_nil in Hr|done].
    intros z. cbn. rewrite elem_of_nil. lia. }
  destruct (managed_zone (zs (nid, Z.of_nat n))) eqn:E; cbn [app map length].
  - split_and!.
    + intros z. rewrite elem_of_cons, IHz. cbn [zr_zone]. split.
      * intros [->|?]; [cbn; split_and!; done || lia|]. split_and!; lia || tauto.
      * intros (Hf & Hs & Hm). destruct (Z.eq_dec (snd z) (Z.of_nat n)) as [Heq|]; [left|right; split_and!; done || lia].
        destruct z. cbn in *. congruence.
    + apply list.NoDup_cons. split; [|done]. rewrite IHz. cbn. lia.
    + intros r [->|Hr]%elem_of_cons; [done|by apply IHi].
    + lia.
  - split_and!; try done; [|lia]. intros z. rewrite IHz. split; intros (Hf & Hs & Hm); split_and!; try done; try lia.
    destruct (Z.eq_dec (snd z) (Z.of_nat n)) as [Heq|]; [|lia]. destruct z. cbn in *. congruence.
Qed.

(** What the zonelists of node [node] promise the page allocator: the fallback
    list visits the node itself and then every other online node in the order
    of rank, and lists every managed zone exactly once. *)
Record zonelists_ok (tp : topology) (zs : zid -> zone) (node : Z) (zl : node_zonelists) : Prop := {
  zo_order : exists rest, NoDup (node :: rest) /\ (forall n, n ∈ node :: rest <-> n ∈ online tp)
     /\ StronglySorted (rank_le tp node) rest
     /\ ZONELIST_FALLBACK zl = concat (map (build_zonerefs_node zs) (node :: rest));
  zo_zones : forall z, z ∈ map zr_zone (ZONELIST_FALLBACK zl) <-> exists nid, nid ∈ online tp /\ node_zone zs nid z;
  zo_nodup : NoDup (map zr_zone (ZONELIST_FALLBACK zl));
  zo_idx : forall r, r ∈ ZONELIST_FALLBACK zl -> zr_idx r = snd (zr_zone r);
  zo_fits : Z.of_nat (length (ZONELIST_FALLBACK zl)) <= MAX_ZONES_PER_ZONELIST;
  zo_this : forall z, z ∈ map zr_zone (ZONELIST_NOFALLBACK zl) <-> node_zone zs node z
}.

Lemma zonerefs_concat zs l : NoDup l ->
  (forall z, z ∈ map zr_zone (concat (map (build_zonerefs_node zs) l)) <-> exists nid, nid ∈ l /\ node_zone zs nid z)
  /\ NoDup (map zr_zone (concat (map (build_zonerefs_node zs) l)))
  /\ (forall r, r ∈ concat (map (build_zonerefs_node zs) l) -> zr_idx r = snd (zr_zone r))
  /\ Z.of_nat (length (concat (map (build_zonerefs_node zs) l))) <= Z.of_nat (length l) * MAX_NR_ZONES.
Proof.
  induction l as [|nid l IH]; intros Hnd; cbn [map concat length].
  { split_and!; [|constructor|intros r Hr; by apply not_elem_of_nil in Hr|done].
    intros z. rewrite elem_of_nil. split; [done|]. intros (n & Hn & _). by apply not_elem_of_nil in Hn. }
  apply list.NoDup_cons in Hnd as [Hnin Hnd]. destruct (IH Hnd) as (IHz & IHn & IHi & IHl).
  destruct (zonerefs_loop_spec zs nid (Z.to_nat MAX_NR_ZONES)) as (Hz & Hn & Hi & Hl).
  fold (build_zonerefs_node zs nid) in Hz, Hn, Hi, Hl. rewrite map_app, length_app. split_and!.
  - intros z. rewrite elem_of_app, IHz, Hz. unfold node_zone. setoid_rewrite elem_of_cons. split.
    + intros [?|(n & ? & ?)]; [exists nid; split; [by left|done]|exists n; split; [by right|done]].
    + intros (n & [->|?] & ?); [left; done|right; eauto].
  - apply list.NoDup_app. split_and!; [done| |done]. intros z Hz1 Hz2. apply Hz in Hz1 as [<- _].
    apply IHz in Hz2 as (n & Hn' & <- & _). done.
  - intros r [Hr|Hr]%elem_of_app; auto.
  - unfold MAX_NR_ZONES in *. lia.
Qed.

Lemma build_zonelists_spec tp zs load node :
  topo_wf tp -> node ∈ online tp -> loads_ok tp load ->
  exists load' zl, build_zonelists tp zs load node = Ret (load', zl) /\ loads_ok tp load' /\ zonelists_ok tp zs node zl.
Proof.
  intros Htp Hn Hl. unfold build_zonelists.
  destruct (node_order_spec tp node Htp Hn load Hl) as (load' & rest & -> & [Hnd Hin Hlo Hs]). cbn [obind app] in *.
  eexists _, _. split; [done|]. split; [done|].
  destruct (zonerefs_concat zs (node :: rest) Hnd) as (Hz & Hzn & Hi & Hlen).
  split; cbn [ZONELIST_FALLBACK ZONELIST_NOFALLBACK]; unfold build_zonelists_in_node_order, build_thisnode_zonelists; try done.
  - by exists rest.
  - intros z. rewrite Hz. by setoid_rewrite Hin.
  - assert (Hle : Z.of_nat (length (node :: rest)) <= nr_online_nodes tp) by (apply used_length; try done; intros n; apply Hin).
    pose proof (online_length tp Htp). unfold MAX_ZONES_PER_ZONELIST, MAX_NR_ZONES in *. lia.
  - apply (zonerefs_loop_spec zs node (Z.to_nat MAX_NR_ZONES)).
Qed.

Lemma all_zonelists_spec tp zs : topo_wf tp -> forall nodes load zl,
  (forall n, n ∈ nodes -> n ∈ online tp) -> loads_ok tp load -> 
  exists zl', all_zonelists_loop tp zs nodes load zl = Ret zl'
    /\ (forall n, n ∈ nodes -> zonelists_ok tp zs n (zl' n)) /\ (forall n, n ∉ nodes -> zl' n = zl n).
Proof.
  intros Htp. induction nodes as [|nid nodes IH]; intros load zl Hin Hl; cbn [all_zonelists_loop].
  { exists zl. split_and!; try done. intros n Hn. by apply not_elem_of_nil in Hn. }
  destruct (build_zonelists_spec tp zs load nid Htp) as (load1 & l & -> & Hl1 & Hok); [apply Hin; by left|done|].
  cbn [obind]. destruct (IH load1 (<[nid := l]> zl)) as (zl' & -> & Hz & Ho); [intros n Hn; apply Hin; by right|done|].
  exists zl'. split_and!; [done| |].
  - intros n Hn. destruct (decide (n ∈ nodes)) as [|Hnn]; [auto|]. rewrite Ho by done.
    apply elem_of_cons in Hn as [->|?]; [by rewrite fn_lookup_insert|done].
  - intros n Hn. apply not_elem_of_cons in Hn as [? ?]. rewrite Ho by done. by rewrite fn_lookup_insert_ne.
Qed.

Lemma build_all_spec tp zs zl : topo_wf tp ->
  exists zl', __build_all_zonelists tp zs zl = Ret zl'
    /\ (forall n, n ∈ online tp -> zonelists_ok tp zs n (zl' n))
    /\ (forall n, n ∉ online tp -> zl' n = zl n).
Proof.
  intros Htp. unfold __build_all_zonelists. rewrite for_each_node_spec by apply Htp. cbn [obind]. fold (online tp).
  apply all_zonelists_spec; [done..|]. intros n. pose proof (online_length tp Htp). lia.
Qed.

(** * Node masks, distances and zonelists: theorems *)

(** Building the zonelists of a machine ends, for every online node, in a
    fallback list that starts with the node's own zones, visits every other
    online node exactly once in the order of distance (with the penalties for
    lower-numbered nodes and nodes with CPUs), names every managed zone of
    every online node exactly once with its index, and fits the array; the
    restricted list names exactly the node's own managed zones.  No arithmetic
    of the node keys overflows and the order array is never overrun.  Lists of
    offline nodes are not touched. *)
Theorem build_all_zonelists_correct (tp : topology) (zs : zid -> zone) (zl : Z -> node_zonelists) :
  topo_wf tp ->
  exists zl', __build_all_zonelists tp zs zl = Ret zl'
    /\ (forall n, n ∈ online tp -> zonelists_ok tp zs n (zl' n))
    /\ (forall n, n ∉ online tp -> zl' n = zl n).
Proof. apply build_all_spec. Qed.

(** Three online nodes 0, 2 and 3; node 3 is closer to 0 than node 2 is. *)
Definition trio_dist : distances :=
  numa_set_distance (numa_set_distance (mk_distances 8 (Some (default_table 8))) 0 3 15) 3 0 15.
Definition trio : topology := mk_topology [13] 3 trio_dist (fun n => n =? 0).
Definition no_lists : Z -> node_zonelists := fun _ => mk_zonelists [] [].
Definition two_zones : zid -> zone :=
  fun z => mk_zone (fun _ => mk_area [] 0) (fun _ => mk_pcp 0 0 1 []) true (if snd z =? 2 then 0 else 100).

Lemma trio_wf : topo_wf trio.
Proof.
  split.
  - by exists 13.
  - vm_compute. reflexivity.
  - split; [by vm_compute|done|]. intros t Ht. vm_compute in Ht. injection Ht as <-.
    split; [reflexivity|]. repeat constructor; lia.
Qed.

Lemma build_all_zonelists_correct_witness :
  exists zl', __build_all_zonelists trio two_zones no_lists = Ret zl'
    /\ (forall n, n ∈ online trio -> zonelists_ok trio two_zones n (zl' n))
    /\ (forall n, n ∉ online trio -> zl' n = no_lists n).
Proof. apply (build_all_zonelists_correct trio two_zones no_lists). apply trio_wf. Defined.

(** The fallback list of node 0: its own zones, then node 3's, then node 2's. *)
Example trio_fallback :
  match __build_all_zonelists trio two_zones no_lists with
  | Ret zl => map zr_zone (ZONELIST_FALLBACK (zl 0)) = [(0, 1); (0, 0); (3, 1); (3, 0); (2, 1); (2, 0)]
  | _ => False
  end.
Proof. vm_compute. reflexivity. Qed.

(** The distance a caller may set: inside the table, a byte, and the local
    distance on the diagonal. *)
Definition settable (d : distances) (from to v : Z) : bool :=
  (0 <=? from) && (from <? numa_distance_cnt d) && (0 <=? to) && (to <? numa_distance_cnt d)
  && (0 <=? v) && (v <? 256) && (negb (from =? to) || (v =? LOCAL_DISTANCE)).

Lemma set_distance_cases d from to v :
  dist_wf d ->
  numa_set_distance d from to v =
    match numa_distance d with
    | Some t => if settable d from to v then
        mk_distances (numa_distance_cnt d) (Some (<[Z.to_nat (from * numa_distance_cnt d + to) := v]> t)) else d
    | None => d
    end.
Proof.
  intros Hd. unfold numa_set_distance, settable. destruct (numa_distance d) as [t|]; [|done].
  rewrite !Z.geb_leb. bdestr; try done; try lia; exfalso;
    match goal with H : v mod 256 <> v |- _ => apply H, Z.mod_small; lia | H : v mod 256 = v |- _ => pose proof (Z.mod_pos_bound v 256); lia end.
Qed.

(** The distance table: a set within the table that makes sense is read
    back by node_distance(), every other entry keeps its value, and a set the
    function rejects changes nothing; the table stays well formed. *)
Theorem numa_distance_roundtrip (d : distances) (from to v : Z) :
  dist_wf d ->
  dist_wf (numa_set_distance d from to v)
  /\ forall a b, node_ok a -> node_ok b ->
       __node_distance (numa_set_distance d from to v) a b =
       if settable d from to v && (a =? from) && (b =? to) then Ret v else __node_distance d a b.
Proof.
  intros Hd. rewrite set_distance_cases by done. pose proof Hd as [Hc Hn Hl].
  destruct (numa_distance d) as [t|] eqn:Et.
  2:{ split; [done|]. intros a b Ha Hb. specialize (Hn eq_refl). unfold settable. rewrite Hn.
      bdestr; try done; lia. }
  destruct (Hl t eq_refl) as [Hlen Hall].
  destruct (settable d from to v) eqn:Es; cbn [andb]; [|by split].
  unfold settable in Es. rewrite !andb_true_iff, !Z.leb_le, !Z.ltb_lt in Es. destruct Es as ((((((? & ?) & ?) & ?) & ?) & ?) & _).
  set (cnt := numa_distance_cnt d) in *. destruct (cell_index cnt from to) as [Hi _]; [lia..|].
  split.
  - split; cbn; [done|done|]. intros t' [= <-]. rewrite length_insert. split; [done|]. apply Forall_insert; [done|lia].
  - intros a b Ha Hb. unfold __node_distance, node_ok in *. cbn [numa_distance_cnt numa_distance]. rewrite Et, !Z.geb_leb. fold cnt.
    destruct (Z.leb_spec cnt a), (Z.leb_spec cnt b); cbn [orb];
      try (destruct (Z.eqb_spec a from), (Z.eqb_spec b to); done || lia).
    destruct (cell_index cnt a b) as [Hj ->]; [lia..|]. unfold word.
    destruct (Z.eqb_spec a from) as [->|], (Z.eqb_spec b to) as [->|]; cbn [andb];
      [by rewrite list_lookup_insert_eq by lia|by rewrite list_lookup_insert_ne by nia..].
Qed.

Lemma trio_table_wf : dist_wf (mk_distances 8 (Some (default_table 8))).
Proof.
  split; [by vm_compute|done|]. intros t Ht. vm_compute in Ht. injection Ht as <-.
  split; [reflexivity|]. repeat constructor; lia.
Qed.

Lemma numa_distance_roundtrip_witness :
  dist_wf (numa_set_distance (mk_distances 8 (Some (default_table 8))) 0 3 15)
  /\ forall a b, node_ok a -> node_ok b ->
       __node_distance (numa_set_distance (mk_distances 8 (Some (default_table 8))) 0 3 15) a b =
       if settable (mk_distances 8 (Some (default_table 8))) 0 3 15 && (a =? 0) && (b =? 3) then Ret 15
       else __node_distance (mk_distances 8 (Some (default_table 8))) a b.
Proof. apply (numa_distance_roundtrip (mk_distances 8 (Some (default_table 8))) 0 3 15 trio_table_wf). Defined.
