(* ===== verification/ZoneInit.v ===== *)
(** * Setting up nodes, zones, struct pages and pagesets

    The boot-time half of mm/page_alloc.c: the extent of nodes and zones is
    computed from the memory map of the boot allocator, the struct pages are
    initialised, and the per-CPU pagesets get their limits; with
    zone_sizes_init(), bootmem_init() and pfn_valid() of arch/arm64/mm/init.c.

    [mm] keeps what the page allocator uses of a zone.  The other fields of
    struct zone are [zone_hdr], those of pg_data_t are [pgdat].  The [pageset]
    pointer of a zone is a [pageset_ref]: all zones share [boot_pageset] until
    setup_per_cpu_pageset() gives each its own; [view] follows the pointer. *)

From S2P Require Import Prelude Bitops Memblock MemblockOps MemblockRelease Buddy Numa.
From stdpp Require Import base list numbers option functions.
#[local] Open Scope Z_scope.
#[local] Open Scope kernel_scope.

Inductive pageset_ref := NoPageset | BootPageset | PercpuPageset.

Record zone_hdr := mk_hdr {
  zone_start_pfn : Z;
  spanned_pages : Z;
  present_pages : Z;
  zone_pageset : pageset_ref
}.

Record pgdat := mk_pgdat {
  node_start_pfn : Z;
  node_spanned_pages : Z;
  node_present_pages : Z
}.

Record kstate := mk_kstate {
  k_mm : mm;
  k_hdr : zid -> zone_hdr;
  k_node : Z -> pgdat;
  boot_pageset : Z -> per_cpu_pages;
  arch_zone_lowest_possible_pfn : Z -> Z;
  arch_zone_highest_possible_pfn : Z -> Z
}.

Definition set_mm (m : mm) (k : kstate) : kstate :=
  mk_kstate m (k_hdr k) (k_node k) (boot_pageset k)
    (arch_zone_lowest_possible_pfn k) (arch_zone_highest_possible_pfn k).
Definition upd_hdr (z : zid) (f : zone_hdr -> zone_hdr) (k : kstate) : kstate :=
  mk_kstate (k_mm k) (<[z := f (k_hdr k z)]> (k_hdr k)) (k_node k) (boot_pageset k)
    (arch_zone_lowest_possible_pfn k) (arch_zone_highest_possible_pfn k).
Definition upd_node (nid : Z) (f : pgdat -> pgdat) (k : kstate) : kstate :=
  mk_kstate (k_mm k) (k_hdr k) (<[nid := f (k_node k nid)]> (k_node k)) (boot_pageset k)
    (arch_zone_lowest_possible_pfn k) (arch_zone_highest_possible_pfn k).
Definition set_boot (b : Z -> per_cpu_pages) (k : kstate) : kstate :=
  mk_kstate (k_mm k) (k_hdr k) (k_node k) b
    (arch_zone_lowest_possible_pfn k) (arch_zone_highest_possible_pfn k).

(** What the page allocator sees. *)
Definition view (k : kstate) : mm :=
  let m := k_mm k in
  mk_mm (mem_map m) (pfn_valid m)
    (fun z => let zn := zones m z in
       mk_zone (z_area zn)
         (match zone_pageset (k_hdr k z) with PercpuPageset => z_pageset zn | _ => boot_pageset k end)
         (z_initialized zn) (z_managed zn)).

(** pfn_valid() of arch/arm64/mm/init.c. *)
Definition arm64_pfn_valid (s : memblock) (pfn : Z) : outcome bool :=
  let addr := u64 (Z.shiftl pfn PAGE_SHIFT) in
  if negb (Z.shiftr addr PAGE_SHIFT =? pfn) then Ret false
  else memblock_is_map_memory s addr.

(** ** Extents of nodes and zones *)

Fixpoint pfn_range_loop (l : list (Z * Z * Z)) (start end_ : Z) : Z * Z :=
  match l with
  | [] => (start, end_)
  | (this_start, this_end, _) :: l' => pfn_range_loop l' (Z.min start this_start) (Z.max end_ this_end)
  end.

Definition get_pfn_range_for_nid (s : memblock) (nid : Z) : outcome (Z * Z) :=
  let! l := for_each_mem_pfn_range s nid in
  let '(start_pfn, end_pfn) := pfn_range_loop l ULONG_MAX 0 in
  Ret (if start_pfn =? ULONG_MAX then 0 else start_pfn, end_pfn).

Fixpoint min_pfn_loop (l : list (Z * Z * Z)) (min_pfn : Z) : Z :=
  match l with
  | [] => min_pfn
  | (start_pfn, _, _) :: l' => min_pfn_loop l' (Z.min min_pfn start_pfn)
  end.

Definition find_min_pfn_for_node (s : memblock) (nid : Z) : outcome Z :=
  let! l := for_each_mem_pfn_range s nid in
  let min_pfn := min_pfn_loop l ULONG_MAX in
  Ret (if min_pfn =? ULONG_MAX then 0 else min_pfn).

Definition find_min_pfn_with_active_regions (s : memblock) : outcome Z :=
  find_min_pfn_for_node s MAX_NUMNODES.

(** adjust_zone_range_for_zone_movable() does nothing yet.  The pair is what
    the function leaves in [*zone_start_pfn] and its result; the caller reads
    the former only when the result is nonzero. *)
Definition zone_spanned_pages_in_node (k : kstate) (zone_type node_start_pfn node_end_pfn : Z) : Z * Z :=
  if (node_start_pfn =? 0) && (node_end_pfn =? 0) then (0, 0)
  else
    let zone_start := arch_zone_lowest_possible_pfn k zone_type in
    let zone_end := arch_zone_highest_possible_pfn k zone_type in
    if (zone_end <? node_start_pfn) || (zone_start >? node_end_pfn) then (zone_start, 0)
    else
      let zone_end1 := Z.min zone_end node_end_pfn in
      let zone_start1 := Z.max zone_start node_start_pfn in
      (zone_start1, zone_end1 -64 zone_start1).

Fixpoint absent_loop (l : list (Z * Z * Z)) (range_start range_end nr_absent : Z) : Z :=
  match l with
  | [] => nr_absent
  | (start_pfn, end_pfn, _) :: l' =>
      let s1 := clamp start_pfn range_start range_end in
      let e1 := clamp end_pfn range_start range_end in
      absent_loop l' range_start range_end (nr_absent -64 (e1 -64 s1))
  end.

Definition __absent_pages_in_range (s : memblock) (nid range_start range_end : Z) : outcome Z :=
  let! l := for_each_mem_pfn_range s nid in
  Ret (absent_loop l range_start range_end (range_end -64 range_start)).

Definition zone_absent_pages_in_node (k : kstate) (s : memblock)
    (nid zone_type node_start_pfn node_end_pfn : Z) : outcome Z :=
  let zone_low := arch_zone_lowest_possible_pfn k zone_type in
  let zone_high := arch_zone_highest_possible_pfn k zone_type in
  if (node_start_pfn =? 0) && (node_end_pfn =? 0) then Ret 0
  else __absent_pages_in_range s nid (clamp node_start_pfn zone_low zone_high) (clamp node_end_pfn zone_low zone_high).

(** [for (i = 0; i < MAX_NR_ZONES; i++)] of calculate_node_totalpages(), with
    [n] zones left. *)
Fixpoint totalpages_loop (n : nat) (k : kstate) (s : memblock) (nid node_start node_end : Z)
    (totalpages realtotalpages : Z) : outcome (kstate * Z * Z) :=
  match n with
  | O => Ret (k, totalpages, realtotalpages)
  | S n' =>
      let i := MAX_NR_ZONES - Z.of_nat n in
      let '(zstart, size) := zone_spanned_pages_in_node k i node_start node_end in
      let! absent := zone_absent_pages_in_node k s nid i node_start node_end in
      let real_size := size -64 absent in
      let k1 := upd_hdr (nid, i) (fun h => mk_hdr (if size =? 0 then 0 else zstart) size real_size (zone_pageset h)) k in
      totalpages_loop n' k1 s nid node_start node_end (totalpages +64 size) (realtotalpages +64 real_size)
  end.

Definition calculate_node_totalpages (k : kstate) (s : memblock) (nid node_start node_end : Z) : outcome kstate :=
  let! (k1, totalpages, realtotalpages) := totalpages_loop (Z.to_nat MAX_NR_ZONES) k s nid node_start node_end 0 0 in
  Ret (upd_node nid (fun d => mk_pgdat (node_start_pfn d) totalpages realtotalpages) k1).

(** ** Pagesets *)

Definition pageset_init : per_cpu_pages := mk_pcp 0 0 0 [].

(** [high] and [batch] are ints. *)
Definition pageset_update (p : per_cpu_pages) (high batch : Z) : per_cpu_pages :=
  let p1 := mk_pcp (pcp_count p) (pcp_high p) 1 (pcp_lists p) in
  let p2 := mk_pcp (pcp_count p1) (s32 high) (pcp_batch p1) (pcp_lists p1) in
  mk_pcp (pcp_count p2) (pcp_high p2) (s32 batch) (pcp_lists p2).

Definition pageset_set_batch (p : per_cpu_pages) (batch : Z) : per_cpu_pages :=
  pageset_update p (6 *64 batch) (Z.max 1 (1 *64 batch)).

Definition setup_pageset (batch : Z) : per_cpu_pages := pageset_set_batch pageset_init batch.

Definition rounddown_pow_of_two (n : Z) : Z := u64 (Z.shiftl 1 (fls_long n - 1)).

Definition zone_batchsize (zn : zone) : Z :=
  let batch := s32 (u64 (z_managed zn) / 1024) in
  let batch1 := if u64 (batch * PAGE_SIZE) >? 1024 * 1024 then 1024 * 1024 / PAGE_SIZE else batch in
  let batch2 := Z.quot batch1 4 in
  let batch3 := if batch2 <? 1 then 1 else batch2 in
  s32 (rounddown_pow_of_two (batch3 + Z.quot batch3 2) - 1).

(** [pageset_set_batch()] takes an unsigned long. *)
Definition pageset_set_high_and_batch (zn : zone) (p : per_cpu_pages) : per_cpu_pages :=
  pageset_set_batch p (u64 (zone_batchsize zn)).

Definition zone_pageset_init (z : zid) (k : kstate) (cpu : Z) : kstate :=
  let zn := zones (k_mm k) z in
  set_mm (upd_pcp (k_mm k) z cpu (fun _ => pageset_set_high_and_batch zn pageset_init)) k.

(** alloc_percpu() returns zeroed areas, one for every CPU. *)
Definition setup_zone_pageset (possible_cpus : list Z) (z : zid) (k : kstate) : kstate :=
  let k1 := upd_hdr z (fun h => mk_hdr (zone_start_pfn h) (spanned_pages h) (present_pages h) PercpuPageset) k in
  let k2 := set_mm (upd_zone (k_mm k1) z (fun zn =>
              mk_zone (z_area zn) (fun _ => pageset_init) (z_initialized zn) (z_managed zn))) k1 in
  fold_left (zone_pageset_init z) possible_cpus k2.

(** ** Walking all zones (mm/mmzone.c, include/linux/mmzone.h) *)

Definition populated_zone (k : kstate) (z : zid) : bool := negb (present_pages (k_hdr k z) =? 0).

Definition next_zone (tp : topology) (z : zid) : outcome (option zid) :=
  let '(nid, i) := z in
  if i <? MAX_NR_ZONES - 1 then Ret (Some (nid, i + 1))
  else
    let! nid1 := nodemask_next nid (node_online_mask tp) in
    Ret (if nid1 =? MAX_NUMNODES then None else Some (nid1, 0)).

(** [for_each_populated_zone(zone)] from [zone] on. *)
Fixpoint populated_loop (fuel : nat) (tp : topology) (k : kstate) (z : zid) : outcome (list zid) :=
  match fuel with
  | O => Stuck
  | S fuel' =>
      let! nz := next_zone tp z in
      let! l := match nz with None => Ret [] | Some z1 => populated_loop fuel' tp k z1 end in
      Ret (if populated_zone k z then z :: l else l)
  end.
Definition for_each_populated_zone (tp : topology) (k : kstate) : outcome (list zid) :=
  let! nid := nodemask_first (node_online_mask tp) in
  populated_loop (Z.to_nat MAX_ZONES_PER_ZONELIST) tp k (nid, 0).

Definition setup_per_cpu_pageset (tp : topology) (possible_cpus : list Z) (k : kstate) : outcome kstate :=
  let! l := for_each_populated_zone tp k in
  Ret (fold_left (fun k z => setup_zone_pageset possible_cpus z k) l k).

Definition build_all_zonelists (tp : topology) (possible_cpus : list Z) (k : kstate) (zl : Z -> node_zonelists)
  : outcome (kstate * (Z -> node_zonelists)) :=
  let! zl1 := __build_all_zonelists tp (zones (k_mm k)) zl in
  Ret (set_boot (fold_left (fun b cpu => <[cpu := setup_pageset 0]> b) possible_cpus (boot_pageset k)) k, zl1).

(** ** Initialising zones and struct pages *)

Fixpoint init_free_lists_loop (n : nat) (areas : Z -> free_area) : Z -> free_area :=
  match n with
  | O => areas
  | S order => <[Z.of_nat order := mk_area [] 0]> (init_free_lists_loop order areas)
  end.
Definition zone_init_free_lists (zn : zone) : zone :=
  mk_zone (init_free_lists_loop (Z.to_nat MAX_ORDER) (z_area zn)) (z_pageset zn) (z_initialized zn) (z_managed zn).

Definition mm_zero_struct_page : page := mk_page 0 0 0 0 0 0 0 None 0 0.

Definition ZONES_MASK : Z := 3.
Definition NODES_MASK : Z := 7.
Definition set_page_links (g : page) (zone_ node : Z) : page :=
  mk_page (pg_flags g) (Z.land node NODES_MASK) (Z.land zone_ ZONES_MASK) (pg_type g) (pg_count g)
    (pg_private g) (pg_mapping g) (pg_head g) (pg_corder g) (pg_cmapcount g).

Definition __init_single_page (zone_ nid : Z) : page :=
  set_type_word MAPCOUNT_NONE (set_count 1 (set_page_links mm_zero_struct_page zone_ nid)).

(** [for (pfn = start_pfn; pfn < end_pfn; pfn++)], [n] iterations left. *)
Fixpoint memmap_init_loop (n : nat) (m : mm) (nid zone_ pfn : Z) : mm :=
  match n with
  | O => m
  | S n' => memmap_init_loop n' (upd_page m pfn (fun _ => __init_single_page zone_ nid)) nid zone_ (pfn + 1)
  end.
Definition memmap_init_zone (m : mm) (size nid zone_ start_pfn : Z) : mm :=
  let end_pfn := start_pfn +64 size in
  memmap_init_loop (Z.to_nat (end_pfn - start_pfn)) m nid zone_ start_pfn.

Definition init_currently_empty_zone (z : zid) (start : Z) (k : kstate) : kstate :=
  let k1 := upd_hdr z (fun h => mk_hdr start (spanned_pages h) (present_pages h) (zone_pageset h)) k in
  set_mm (upd_zone (k_mm k1) z (fun zn =>
    let zn1 := zone_init_free_lists zn in
    mk_zone (z_area zn1) (z_pageset zn1) true (z_managed zn1))) k1.

Definition zone_pcp_init (z : zid) (k : kstate) : kstate :=
  upd_hdr z (fun h => mk_hdr (zone_start_pfn h) (spanned_pages h) (present_pages h) BootPageset) k.

Definition zone_init_internals (z : zid) (remaining_pages : Z) (k : kstate) : kstate :=
  zone_pcp_init z
    (set_mm (upd_zone (k_mm k) z (fun zn =>
       mk_zone (z_area zn) (z_pageset zn) (z_initialized zn) remaining_pages)) k).

Definition init_core_zone (nid : Z) (k : kstate) (j : Z) : kstate :=
  let z := (nid, j) in
  let start := zone_start_pfn (k_hdr k z) in
  let size := spanned_pages (k_hdr k z) in
  let freesize := present_pages (k_hdr k z) in
  let k1 := zone_init_internals z freesize k in
  if size =? 0 then k1
  else
    let k2 := init_currently_empty_zone z start k1 in
    set_mm (memmap_init_zone (k_mm k2) size nid j start) k2.

Definition free_area_init_core (nid : Z) (k : kstate) : kstate :=
  fold_left (init_core_zone nid) (seqZ 0 MAX_NR_ZONES) k.

Definition free_area_init_node (s : memblock) (nid node_start : Z) (k : kstate) : outcome kstate :=
  let k1 := upd_node nid (fun d => mk_pgdat node_start (node_spanned_pages d) (node_present_pages d)) k in
  let! (start_pfn, end_pfn) := get_pfn_range_for_nid s nid in
  let! k2 := calculate_node_totalpages k1 s nid start_pfn end_pfn in
  Ret (free_area_init_core nid k2).

(** ** Struct pages without memory *)

Definition pageblock_nr_pages : Z := 2 ^ pageblock_order.
Definition ALIGN_DOWN_block (pfn : Z) : Z := round_down pfn pageblock_nr_pages.

(** [for (pfn = spfn; pfn < epfn; pfn++)]; an invalid block is skipped whole. *)
Fixpoint zero_pfn_loop (fuel : nat) (m : mm) (pfn epfn pgcnt : Z) : outcome (mm * Z) :=
  if negb (pfn <? epfn) then Ret (m, pgcnt)
  else
    match fuel with
    | O => Stuck
    | S fuel' =>
        if negb (pfn_valid m (ALIGN_DOWN_block pfn)) then
          let pfn1 := ALIGN_DOWN_block pfn + pageblock_nr_pages - 1 in
          zero_pfn_loop fuel' m (pfn1 + 1) epfn pgcnt
        else
          zero_pfn_loop fuel' (upd_page m pfn (fun _ => mm_zero_struct_page)) (pfn + 1) epfn (pgcnt +64 1)
    end.
Definition zero_pfn_range (m : mm) (spfn epfn : Z) : outcome (mm * Z) :=
  zero_pfn_loop (Z.to_nat (epfn - spfn)) m spfn epfn 0.

Definition for_each_mem_range (s : memblock) : outcome (list mem_range) :=
  iterate (iterate_fuel s)
    (fun i => next_mem_range i NUMA_NO_NODE MEMBLOCK_NONE (regions (memory s)) None) 0.

Fixpoint zero_unavail_loop (l : list mem_range) (m : mm) (next pgcnt : Z) : outcome (mm * Z * Z) :=
  match l with
  | [] => Ret (m, next, pgcnt)
  | r :: l' =>
      let! (m1, c) := if next <? mr_start r then zero_pfn_range m (PFN_DOWN next) (PFN_UP (mr_start r))
                      else Ret (m, 0) in
      zero_unavail_loop l' m1 (mr_end r) (pgcnt +64 c)
  end.

(** The count is only printed. *)
Definition zero_resv_unavail (s : memblock) (max_pfn : Z) (m : mm) : outcome (mm * Z) :=
  let! l := for_each_mem_range s in
  let! (m1, next, pgcnt) := zero_unavail_loop l m 0 0 in
  let! (m2, c) := zero_pfn_range m1 (PFN_DOWN next) max_pfn in
  Ret (m2, pgcnt +64 c).

(** ** All nodes *)

(** [for (i = 0; i < MAX_NR_ZONES; i++)] over the zone boundaries. *)
Fixpoint zone_bounds_loop (n : nat) (max_zone_pfn : Z -> Z) (start_pfn : Z) (low high : Z -> Z)
  : (Z -> Z) * (Z -> Z) :=
  match n with
  | O => (low, high)
  | S n' =>
      let i := MAX_NR_ZONES - Z.of_nat n in
      if i =? ZONE_MOVABLE then zone_bounds_loop n' max_zone_pfn start_pfn low high
      else
        let end_pfn := Z.max (max_zone_pfn i) start_pfn in
        zone_bounds_loop n' max_zone_pfn end_pfn (<[i := start_pfn]> low) (<[i := end_pfn]> high)
  end.

Fixpoint init_nodes_loop (s : memblock) (nodes : list Z) (k : kstate) : outcome kstate :=
  match nodes with
  | [] => Ret k
  | nid :: nodes' =>
      let! start := find_min_pfn_for_node s nid in
      let! k1 := free_area_init_node s nid start k in
      init_nodes_loop s nodes' k1
  end.

Definition free_area_init_nodes (s : memblock) (tp : topology) (max_pfn : Z) (max_zone_pfn : Z -> Z) (k : kstate)
  : outcome kstate :=
  let! start_pfn := find_min_pfn_with_active_regions s in
  let '(low, high) := zone_bounds_loop (Z.to_nat MAX_NR_ZONES) max_zone_pfn start_pfn (fun _ => 0) (fun _ => 0) in
  let k1 := mk_kstate (k_mm k) (k_hdr k) (k_node k) (boot_pageset k) low high in
  let! (m1, _) := zero_resv_unavail s max_pfn (k_mm k1) in
  let! online := for_each_node_mask (node_online_mask tp) in
  init_nodes_loop s online (set_mm m1 k1).

(** zone_sizes_init() of arch/arm64: all memory is in ZONE_NORMAL. *)
Definition zone_sizes_init (s : memblock) (tp : topology) (max_pfn : Z) (k : kstate) : outcome kstate :=
  free_area_init_nodes s tp max_pfn (<[ZONE_NORMAL := max_pfn]> (fun _ => 0)) k.

(** The memory part of bootmem_init(), after the nodes are known. *)
Definition bootmem_init (s : memblock) (tp : topology) (k : kstate) : outcome kstate :=
  zone_sizes_init s tp (PFN_DOWN (memblock_end_of_DRAM s)) k.
