(* ===== verification/ZoneInitSpec.v ===== *)
(** * Setting up zones and struct pages: lemmas

    The frame ranges the boot allocator reports, the pages a zone spans and
    those it really has, and the state free_area_init_nodes() leaves behind. *)

From S2P Require Import Prelude Bitops Memblock MemblockOps MemblockSpec MemblockIter MemblockFind MemblockRelease.
From S2P Require Import Buddy Numa NumaSpec ZoneInit.
From stdpp Require Import base list numbers option functions.
#[local] Open Scope Z_scope.
#[local] Open Scope kernel_scope.

(** ** Frame ranges of the memory map *)

Definition region_pfns (r : memblock_region) : Z * Z * Z := (PFN_UP (r_base r), PFN_DOWN (region_end r), r_nid r).

(** The entry has a whole page frame and belongs to the node asked for. *)
Definition reported (nid : Z) (r : memblock_region) : Prop :=
  PFN_UP (r_base r) < PFN_DOWN (region_end r) /\ (nid = MAX_NUMNODES \/ nid = r_nid r).
#[export] Instance reported_dec nid r : Decision (reported nid r).
Proof. unfold reported. apply _. Defined.

(** One step of the scan finds the first reported entry. *)
Lemma next_pfn_scan_spec nid todo : forall i,
  (next_pfn_scan todo i nid = (-1, None) /\ filter (reported nid) todo = [])
  \/ exists j r, next_pfn_scan todo i nid = (i + Z.of_nat j, Some (region_pfns r)) /\ (j < length todo)%nat
       /\ filter (reported nid) todo = r :: filter (reported nid) (drop (S j) todo).
Proof.
  induction todo as [|r todo IH]; intros i; cbn [next_pfn_scan]; [by left|].
  rewrite filter_cons, Z.geb_leb. destruct (decide (reported nid r)) as [Hr|Hr]; unfold reported in Hr.
  - destruct (Z.leb_spec (PFN_DOWN (region_end r)) (PFN_UP (r_base r))); [lia|]. right. exists O, r.
    replace ((nid =? MAX_NUMNODES) || (nid =? r_nid r)) with true; [|destruct Hr as [_ [->| ->]]; [done|by rewrite Z.eqb_refl, orb_true_r]].
    split_and!; [by rewrite Z.add_0_r|cbn; lia|done].
  - assert (E : (if PFN_DOWN (region_end r) <=? PFN_UP (r_base r) then next_pfn_scan todo (i + 1) nid
       else if (nid =? MAX_NUMNODES) || (nid =? r_nid r) then (i, Some (region_pfns r)) else next_pfn_scan todo (i + 1) nid)
      = next_pfn_scan todo (i + 1) nid).
    { destruct (Z.leb_spec (PFN_DOWN (region_end r)) (PFN_UP (r_base r))); [done|].
      destruct (Z.eqb_spec nid MAX_NUMNODES), (Z.eqb_spec nid (r_nid r)); cbn [orb]; done || (exfalso; tauto). }
    unfold region_pfns at 1 in E. rewrite E. destruct (IH (i + 1)) as [?|(j & r' & -> & Hj & Hf)]; [by left|right].
    exists (S j), r'. split_and!; [f_equal; lia|cbn; lia|done].
Qed.

Lemma pfn_ranges_loop_spec s nid : forall fuel i, (length (regions (memory s)) - i < fuel)%nat ->
  pfn_ranges_loop fuel s (Z.of_nat i - 1) nid
  = Ret (map region_pfns (filter (reported nid) (drop i (regions (memory s))))).
Proof.
  induction fuel as [|fuel IH]; intros i Hi; [lia|]. cbn [pfn_ranges_loop]. unfold next_mem_pfn_range.
  replace (Z.of_nat i - 1 + 1) with (Z.of_nat i) by lia. rewrite Nat2Z.id.
  destruct (next_pfn_scan_spec nid (drop i (regions (memory s))) (Z.of_nat i)) as [[-> ->]|(j & r & -> & Hj & ->)]; [done|].
  rewrite length_drop in Hj. replace (Z.of_nat i + Z.of_nat j) with (Z.of_nat (i + S j) - 1) by lia.
  rewrite IH by lia. cbn [obind map]. by rewrite drop_drop, Nat.add_comm || rewrite drop_drop.
Qed.

Lemma mem_pfn_ranges s nid :
  for_each_mem_pfn_range s nid = Ret (map region_pfns (filter (reported nid) (regions (memory s)))).
Proof. unfold for_each_mem_pfn_range. by apply (pfn_ranges_loop_spec s nid _ 0); lia. Qed.

(** Ranges sorted by frame, disjoint, at or above [lo] and far from wrapping. *)
Fixpoint pfns_from (lo : Z) (l : list (Z * Z * Z)) : Prop :=
  match l with
  | [] => True
  | (st, en, _) :: l' => lo <= st /\ st < en /\ en <= 2 ^ 40 /\ pfns_from en l'
  end.

Definition in_pfns (l : list (Z * Z * Z)) (q : Z) : Prop := Exists (fun r => r.1.1 <= q < r.1.2) l.
#[export] Instance in_pfns_dec l q : Decision (in_pfns l q).
Proof. unfold in_pfns. apply _. Defined.

Lemma pfns_from_weaken lo lo' l : lo' <= lo -> pfns_from lo l -> pfns_from lo' l.
Proof. destruct l as [|[[st en] nid] l]; cbn; [done|]. intros ? (? & ? & ? & ?). split_and!; done || lia. Qed.

Lemma in_pfns_ge lo l q : pfns_from lo l -> in_pfns l q -> lo <= q < 2 ^ 40.
Proof.
  revert lo. induction l as [|[[st en] nid] l IH]; intros lo H Hq; [inversion Hq|].
  cbn in H. destruct H as (? & ? & ? & H). inversion Hq as [? ? Hr|? ? Hr]; subst; cbn in *; [lia|].
  specialize (IH en H Hr). lia.
Qed.

(** A region whose addresses are below the limit. *)
Definition low_region (r : memblock_region) : Prop := r_base r + r_size r <= PHYS_LIMIT.

Lemma region_pfns_low r lo rs : 0 <= lo -> regions_from lo (r :: rs) -> low_region r ->
  region_pfns r = ((r_base r + (PAGE_SIZE - 1)) / PAGE_SIZE, (r_base r + r_size r) / PAGE_SIZE, r_nid r).
Proof.
  intros Hlo Hr Hlow. pose proof (region_end_eq lo r rs Hlo Hr) as He. destruct Hr as (? & ? & ? & _).
  unfold low_region, PHYS_LIMIT in Hlow. unfold region_pfns, PFN_UP, PFN_DOWN. rewrite He.
  rewrite u64_id by (unfold PAGE_SIZE, PAGE_SHIFT in *; ulia). rewrite !Z.shiftr_div_pow2 by (unfold PAGE_SHIFT; lia).
  fold PAGE_SIZE. do 2 f_equal. f_equal. lia.
Qed.

Lemma ranges_sorted nid lo rs : 0 <= lo -> regions_from lo rs -> Forall low_region rs ->
  pfns_from (lo / PAGE_SIZE) (map region_pfns (filter (reported nid) rs)).
Proof.
  revert lo. induction rs as [|r rs IH]; intros lo Hlo Hrs Hlow; [done|].
  pose proof Hrs as (H1 & H2 & H3 & Hrs'). apply list.Forall_cons in Hlow as [Hl Hlow].
  specialize (IH (r_base r + r_size r) ltac:(lia) Hrs' Hlow). rewrite filter_cons.
  destruct (decide (reported nid r)) as [[Hlt _]|].
  - cbn [map]. assert (E := region_pfns_low r lo rs Hlo Hrs Hl). unfold region_pfns in E. injection E as E1 E2.
    rewrite E1, E2 in Hlt. unfold region_pfns at 1. rewrite E1, E2. cbn. unfold low_region, PHYS_LIMIT in Hl. split_and!; [|done| |done].
    + unfold PAGE_SIZE, PAGE_SHIFT. Z.to_euclidean_division_equations. lia.
    + unfold PAGE_SIZE, PAGE_SHIFT. Z.to_euclidean_division_equations. lia.
  - eapply pfns_from_weaken; [|done]. apply Z.div_le_mono; [done|lia].
Qed.

(** ** Counting frames *)

(** The frames of [x, x + n) with property [P]. *)
Fixpoint count_pages (P : Z -> Prop) `{!forall q, Decision (P q)} (x : Z) (n : nat) : Z :=
  match n with
  | O => 0
  | S n' => count_pages P x n' + (if decide (P (x + Z.of_nat n')) then 1 else 0)
  end.

Lemma count_range st en x n : st <= en ->
  count_pages (fun q => st <= q < en) x n = clamp en x (x + Z.of_nat n) - clamp st x (x + Z.of_nat n).
Proof.
  intros He. induction n as [|n IH]; cbn [count_pages]; unfold clamp in *; [lia|].
  rewrite IH. case_decide; lia.
Qed.

Lemma count_split (P Q R : Z -> Prop) `{!forall q, Decision (P q), !forall q, Decision (Q q), !forall q, Decision (R q)} x n :
  (forall q, R q <-> P q \/ Q q) -> (forall q, P q -> ~ Q q) ->
  count_pages R x n = count_pages P x n + count_pages Q x n.
Proof.
  intros Hor Hd. induction n as [|n IH]; cbn [count_pages]; [done|]. rewrite IH.
  specialize (Hor (x + Z.of_nat n)). specialize (Hd (x + Z.of_nat n)). repeat case_decide; lia || tauto.
Qed.

Lemma count_none (P : Z -> Prop) `{!forall q, Decision (P q)} x n : (forall q, ~ P q) -> count_pages P x n = 0.
Proof. intros Hn. induction n as [|n IH]; cbn [count_pages]; [done|]. rewrite IH, decide_False by apply Hn. done. Qed.

Lemma count_bound (P : Z -> Prop) `{!forall q, Decision (P q)} x n : 0 <= count_pages P x n <= Z.of_nat n.
Proof. induction n as [|n IH]; cbn [count_pages]; [lia|]. case_decide; lia. Qed.

(** What __absent_pages_in_range() subtracts. *)
Fixpoint overlap (l : list (Z * Z * Z)) (x y : Z) : Z :=
  match l with
  | [] => 0
  | (st, en, _) :: l' => (clamp en x y - clamp st x y) + overlap l' x y
  end.

Lemma absent_loop_eq l x y : forall n, u64 (absent_loop l x y n) = u64 (n - overlap l x y).
Proof.
  induction l as [|[[st en] nid] l IH]; intros n; cbn [absent_loop overlap]; [f_equal; lia|].
  rewrite IH. rewrite u64_sub_l. unfold u64. rewrite <- (Zminus_mod_idemp_l (n - _)), Zminus_mod_idemp_r, Zminus_mod_idemp_l.
  f_equal. lia.
Qed.

Lemma overlap_count l lo x n : pfns_from lo l -> overlap l x (x + Z.of_nat n) = count_pages (in_pfns l) x n.
Proof.
  revert lo. induction l as [|[[st en] nid] l IH]; intros lo Hl; cbn [overlap].
  { rewrite count_none; [done|]. intros q Hq. inversion Hq. }
  cbn in Hl. destruct Hl as (? & ? & ? & Hl). rewrite (IH en Hl), <- count_range by lia. symmetry. apply count_split.
  - intros q. unfold in_pfns. by rewrite Exists_cons.
  - intros q Hq Hin. pose proof (in_pfns_ge en l q Hl Hin). lia.
Qed.

Lemma absent_loop_u64 l x y : forall n, is_u64 n -> is_u64 (absent_loop l x y n).
Proof. induction l as [|[[st en] nid] l IH]; intros n Hn; cbn [absent_loop]; [done|]. apply IH, u64_range. Qed.

(** The holes of a range. *)
Lemma absent_pages_spec s nid x n :
  regions_from 0 (regions (memory s)) -> Forall low_region (regions (memory s)) -> 0 <= x -> x + Z.of_nat n <= 2 ^ 40 ->
  __absent_pages_in_range s nid x (x + Z.of_nat n)
  = Ret (Z.of_nat n - count_pages (in_pfns (map region_pfns (filter (reported nid) (regions (memory s))))) x n).
Proof.
  intros Hrs Hlow Hx Hn. unfold __absent_pages_in_range. rewrite mem_pfn_ranges. cbn [obind]. f_equal.
  set (l := map _ _). pose proof (ranges_sorted nid 0 _ ltac:(lia) Hrs Hlow) as Hl. fold l in Hl.
  replace (x + Z.of_nat n - x) with (Z.of_nat n) by lia. rewrite (u64_id (Z.of_nat n)) by ulia.
  assert (Hu : is_u64 (Z.of_nat n)) by ulia. pose proof (absent_loop_u64 l x (x + Z.of_nat n) _ Hu) as Hr.
  pose proof (absent_loop_eq l x (x + Z.of_nat n) (Z.of_nat n)) as E. rewrite (u64_id _ Hr) in E. rewrite E.
  rewrite (overlap_count l _ x n Hl). pose proof (count_bound (in_pfns l) x n). apply u64_id. ulia.
Qed.

(** ** Extents *)

(** The memory map the extents are computed from. *)
Record map_ok (s : memblock) : Prop := {
  mo_sorted : regions_from 0 (regions (memory s));
  mo_low : Forall low_region (regions (memory s))
}.

Definition node_ranges (s : memblock) (nid : Z) : list (Z * Z * Z) :=
  map region_pfns (filter (reported nid) (regions (memory s))).

(** Frame [q] is a whole page of memory of node [nid] (of any node, for
    MAX_NUMNODES). *)
Definition node_page (s : memblock) (nid q : Z) : Prop := in_pfns (node_ranges s nid) q.
#[export] Instance node_page_dec s nid q : Decision (node_page s nid q).
Proof. unfold node_page. apply _. Defined.

Lemma node_ranges_sorted s nid : map_ok s -> pfns_from 0 (node_ranges s nid).
Proof. intros [Hs Hl]. by apply (ranges_sorted nid 0). Qed.

(** [lo, hi) is the extent of the ranges; an empty node has extent [0, 0). *)
Record extent (l : list (Z * Z * Z)) (lo hi : Z) : Prop := {
  ex_low : 0 <= lo <= hi;
  ex_high : hi <= 2 ^ 40;
  ex_in : forall q, in_pfns l q -> lo <= q < hi;
  ex_ends : l <> [] -> in_pfns l lo /\ in_pfns l (hi - 1);
  ex_empty : l = [] -> lo = 0 /\ hi = 0
}.

Lemma pfn_range_loop_spec l : forall x y,
  let (a, b) := pfn_range_loop l x y in
  a <= x /\ y <= b /\ (forall r, r ∈ l -> a <= r.1.1 /\ r.1.2 <= b)
  /\ (a = x \/ exists r, r ∈ l /\ a = r.1.1) /\ (b = y \/ exists r, r ∈ l /\ b = r.1.2).
Proof.
  induction l as [|[[st en] nid] l IH]; intros x y; cbn [pfn_range_loop].
  { split_and!; [lia|lia| |by left|by left]. intros r Hr. by apply not_elem_of_nil in Hr. }
  specialize (IH (Z.min x st) (Z.max y en)). destruct (pfn_range_loop l (Z.min x st) (Z.max y en)) as [a b].
  destruct IH as (Ha & Hb & Hall & Ea & Eb). split_and!; [lia|lia|..].
  - intros r [->|Hr]%elem_of_cons; [cbn; lia|auto].
  - destruct Ea as [->|(r & Hr & ->)]; [|right; exists r; split; [by right|done]].
    destruct (Z.le_gt_cases x st); [left; lia|right]. exists (st, en, nid). split; [by left|cbn; lia].
  - destruct Eb as [->|(r & Hr & ->)]; [|right; exists r; split; [by right|done]].
    destruct (Z.le_gt_cases en y); [left; lia|right]. exists (st, en, nid). split; [by left|cbn; lia].
Qed.

Lemma pfns_from_elem lo l r : pfns_from lo l -> r ∈ l -> lo <= r.1.1 /\ r.1.1 < r.1.2 /\ r.1.2 <= 2 ^ 40.
Proof.
  revert lo. induction l as [|[[st en] nid] l IH]; intros lo Hl Hr; [by apply not_elem_of_nil in Hr|].
  cbn in Hl. destruct Hl as (? & ? & ? & Hl). apply elem_of_cons in Hr as [->|Hr]; [done|].
  specialize (IH en Hl Hr). cbn. lia.
Qed.

Lemma in_pfns_elem l q : in_pfns l q <-> exists r, r ∈ l /\ r.1.1 <= q < r.1.2.
Proof. unfold in_pfns. rewrite List.Exists_exists. by setoid_rewrite list_elem_of_In. Qed.

Lemma node_extent s nid : map_ok s ->
  exists lo hi, get_pfn_range_for_nid s nid = Ret (lo, hi) /\ extent (node_ranges s nid) lo hi.
Proof.
  intros Hs. unfold get_pfn_range_for_nid. rewrite mem_pfn_ranges. cbn [obind]. fold (node_ranges s nid).
  pose proof (node_ranges_sorted s nid Hs) as Hl. set (l := node_ranges s nid) in *.
  pose proof (pfn_range_loop_spec l ULONG_MAX 0) as H. destruct (pfn_range_loop l ULONG_MAX 0) as [a b].
  destruct H as (Ha & Hb & Hall & Ea & Eb). destruct (decide (l = [])) as [->|Hne].
  - destruct Ea as [->|(r & Hr & _)]; [|by apply not_elem_of_nil in Hr].
    destruct Eb as [->|(r & Hr & _)]; [|by apply not_elem_of_nil in Hr].
    exists 0, 0. split; [done|]. split; try done. intros q Hq. inversion Hq.
  - destruct l as [|r0 l'] eqn:El; [done|]. rewrite <- El in *.
    assert (Hr0 : r0 ∈ l) by (rewrite El; by left). pose proof (pfns_from_elem 0 l r0 Hl Hr0) as (? & ? & ?).
    pose proof (Hall r0 Hr0). assert (HM : 2 ^ 40 < ULONG_MAX) by (by vm_compute).
    destruct Ea as [->|(ra & Hra & ->)]; [lia|]. destruct Eb as [->|(rb & Hrb & ->)]; [lia|].
    pose proof (pfns_from_elem 0 l ra Hl Hra) as (? & ? & ?). pose proof (pfns_from_elem 0 l rb Hl Hrb) as (? & ? & ?).
    pose proof (Hall ra Hra). destruct (Z.eqb_spec ra.1.1 ULONG_MAX); [lia|].
    exists ra.1.1, rb.1.2. split; [done|]. split; try lia.
    + intros q (r & Hr & Hq)%in_pfns_elem. specialize (Hall r Hr). lia.
    + intros _. split; apply in_pfns_elem; [exists ra|exists rb]; (split; [done|lia]).
    + by rewrite El.
Qed.

Lemma min_pfn_loop_fst l : forall x y, min_pfn_loop l x = (pfn_range_loop l x y).1.
Proof. induction l as [|[[st en] nid] l IH]; intros x y; cbn [min_pfn_loop pfn_range_loop]; [done|]. apply IH. Qed.

(** The lowest frame of a node is where its extent starts. *)
Lemma min_pfn_spec s nid lo hi : get_pfn_range_for_nid s nid = Ret (lo, hi) -> find_min_pfn_for_node s nid = Ret lo.
Proof.
  unfold get_pfn_range_for_nid, find_min_pfn_for_node. rewrite mem_pfn_ranges. cbn [obind].
  rewrite (min_pfn_loop_fst _ ULONG_MAX 0). destruct (pfn_range_loop _ ULONG_MAX 0) as [a b]. cbn. by intros [= <- _].
Qed.

(** The part of zone [i] on a node that spans [a, b). *)
Definition zone_from (k : kstate) (i a : Z) : Z := Z.max (arch_zone_lowest_possible_pfn k i) a.
Definition zone_upto (k : kstate) (i b : Z) : Z := Z.min (arch_zone_highest_possible_pfn k i) b.
Definition zone_size (k : kstate) (i a b : Z) : Z := Z.max 0 (zone_upto k i b - zone_from k i a).

(** The header of zone [i]: the part of the node it spans, and the number of
    frames of the node's memory in it. *)
Definition hdr_of (k : kstate) (s : memblock) (nid i a b : Z) (ps : pageset_ref) : zone_hdr :=
  let size := zone_size k i a b in
  let start := if size =? 0 then 0 else zone_from k i a in
  mk_hdr start size (count_pages (node_page s nid) start (Z.to_nat size)) ps.

(** The zone limits are ordered frame numbers. *)
Definition bounds_ok (k : kstate) : Prop := forall i,
  0 <= arch_zone_lowest_possible_pfn k i <= arch_zone_highest_possible_pfn k i
  /\ arch_zone_highest_possible_pfn k i <= 2 ^ 40.

Lemma spanned_spec k i a b : bounds_ok k -> 0 <= a <= b -> b <= 2 ^ 40 ->
  (zone_spanned_pages_in_node k i a b).2 = zone_size k i a b
  /\ (zone_size k i a b <> 0 -> (zone_spanned_pages_in_node k i a b).1 = zone_from k i a).
Proof.
  intros Hk Hab Hb. destruct (Hk i) as [Hlh Hh]. unfold zone_spanned_pages_in_node, zone_size, zone_from, zone_upto.
  set (lo := arch_zone_lowest_possible_pfn k i) in *. set (hi := arch_zone_highest_possible_pfn k i) in *.
  rewrite Z.gtb_ltb. bdestr; cbn [fst snd]; try (split; lia).
  all: rewrite u64_id by ulia; split; lia.
Qed.

Lemma absent_spec k s nid i a b : map_ok s -> bounds_ok k -> 0 <= a <= b -> b <= 2 ^ 40 ->
  exists n, zone_absent_pages_in_node k s nid i a b = Ret n
    /\ zone_size k i a b - n =
       count_pages (node_page s nid) (zone_start_pfn (hdr_of k s nid i a b NoPageset)) (Z.to_nat (zone_size k i a b)).
Proof.
  intros [Hs Hlow] Hk Hab Hb. destruct (Hk i) as [Hlh Hh]. unfold zone_absent_pages_in_node. cbn [hdr_of zone_start_pfn].
  set (lo := arch_zone_lowest_possible_pfn k i) in *. set (hi := arch_zone_highest_possible_pfn k i) in *.
  assert (Hz : zone_size k i a b = clamp b lo hi - clamp a lo hi).
  { unfold zone_size, zone_from, zone_upto, clamp. fold lo hi. lia. }
  destruct ((a =? 0) && (b =? 0)) eqn:E.
  - exists 0. split; [done|]. apply andb_true_iff in E as [->%Z.eqb_eq ->%Z.eqb_eq].
    rewrite Hz, Z.sub_diag. done.
  - assert (Hca : 0 <= clamp a lo hi <= clamp b lo hi /\ clamp b lo hi <= 2 ^ 40) by (unfold clamp; lia).
    set (sz := zone_size k i a b) in *. assert (Hsz : 0 <= sz) by lia.
    replace (clamp b lo hi) with (clamp a lo hi + Z.of_nat (Z.to_nat sz)) by lia.
    rewrite absent_pages_spec by (done || lia). eexists. split; [done|]. fold (node_ranges s nid).
    change (count_pages (in_pfns (node_ranges s nid))) with (count_pages (node_page s nid)).
    rewrite Z2Nat.id by done. destruct (Z.eqb_spec sz 0) as [Ez|Hne]; [rewrite Ez; change (Z.to_nat 0) with O; cbn [count_pages]; lia|].
    replace (zone_from k i a) with (clamp a lo hi); [lia|].
    unfold sz, zone_size, zone_from, zone_upto, clamp in *. fold lo hi in Hne |- *. lia.
Qed.

(** Everything but the zone headers and node records is as before. *)
Record same_but_sizes (k k' : kstate) : Prop := {
  sb_mm : k_mm k' = k_mm k;
  sb_boot : boot_pageset k' = boot_pageset k;
  sb_low : arch_zone_lowest_possible_pfn k' = arch_zone_lowest_possible_pfn k;
  sb_high : arch_zone_highest_possible_pfn k' = arch_zone_highest_possible_pfn k;
  sb_ps : forall z, zone_pageset (k_hdr k' z) = zone_pageset (k_hdr k z)
}.

Lemma totalpages_step n k s nid a b tot real :
  map_ok s -> bounds_ok k -> 0 <= a <= b -> b <= 2 ^ 40 ->
  let i := MAX_NR_ZONES - Z.of_nat (S n) in
  let h := hdr_of k s nid i a b (zone_pageset (k_hdr k (nid, i))) in
  totalpages_loop (S n) k s nid a b tot real
  = totalpages_loop n (upd_hdr (nid, i) (fun _ => h) k) s nid a b (tot +64 spanned_pages h) (real +64 present_pages h).
Proof.
  intros Hs Hk Hab Hb i h. cbn [totalpages_loop]. fold i.
  destruct (spanned_spec k i a b Hk Hab Hb) as [E1 E2]. destruct (zone_spanned_pages_in_node k i a b) as [st sz].
  cbn in E1, E2. subst sz. destruct (absent_spec k s nid i a b Hs Hk Hab Hb) as (m & -> & Hm). cbn [obind].
  assert (Hsz : 0 <= zone_size k i a b <= 2 ^ 40).
  { destruct (Hk i). unfold zone_size, zone_from, zone_upto. lia. }
  assert (Hreal : u64 (zone_size k i a b - m) = present_pages h).
  { rewrite Hm, u64_id; [reflexivity|].
    match goal with |- is_u64 (count_pages ?P ?x ?n) => pose proof (count_bound P x n) end. ulia. }
  rewrite Hreal. f_equal. unfold upd_hdr. f_equal. f_equal. unfold h, hdr_of. f_equal.
  destruct (Z.eqb_spec (zone_size k i a b) 0); [done|]. auto.
Qed.

Lemma hdr_upd k z f z' : k_hdr (upd_hdr z f k) z' = if decide (z' = z) then f (k_hdr k z) else k_hdr k z'.
Proof.
  cbn. destruct (decide (z' = z)) as [->|]; [by rewrite fn_lookup_insert|by rewrite fn_lookup_insert_ne].
Qed.

Lemma zone_size_upd z f k i a b : zone_size (upd_hdr z f k) i a b = zone_size k i a b.
Proof. reflexivity. Qed.
Lemma zone_from_upd z f k i a : zone_from (upd_hdr z f k) i a = zone_from k i a.
Proof. reflexivity. Qed.

(** [zsimp] evaluates header updates of zones of one node. *)
Ltac zsimp := repeat (rewrite hdr_upd; cbn beta);
  repeat first [rewrite decide_True by done | rewrite decide_False by congruence].

Lemma totalpages_spec k s nid a b :
  map_ok s -> bounds_ok k -> 0 <= a <= b -> b <= 2 ^ 40 ->
  exists k', calculate_node_totalpages k s nid a b = Ret k' /\ same_but_sizes k k'
    /\ (forall i, 0 <= i < MAX_NR_ZONES ->
          k_hdr k' (nid, i) = hdr_of k s nid i a b (zone_pageset (k_hdr k (nid, i))))
    /\ (forall z, fst z <> nid -> k_hdr k' z = k_hdr k z)
    /\ (forall n, n <> nid -> k_node k' n = k_node k n)
    /\ (let h i := hdr_of k s nid i a b NoPageset in
        k_node k' nid = mk_pgdat (node_start_pfn (k_node k nid))
          (spanned_pages (h 0) + spanned_pages (h 1) + spanned_pages (h 2))
          (present_pages (h 0) + present_pages (h 1) + present_pages (h 2))).
Proof.
  intros Hs Hk Hab Hb. unfold calculate_node_totalpages. change (Z.to_nat MAX_NR_ZONES) with 3%nat.
  rewrite !totalpages_step by done. cbn [totalpages_loop obind].
  change (MAX_NR_ZONES - Z.of_nat 3) with 0. change (MAX_NR_ZONES - Z.of_nat 2) with 1. change (MAX_NR_ZONES - Z.of_nat 1) with 2.
  assert (Hsz : forall i, 0 <= zone_size k i a b <= 2 ^ 40
    /\ 0 <= present_pages (hdr_of k s nid i a b NoPageset) <= 2 ^ 40).
  { intros i. assert (0 <= zone_size k i a b <= 2 ^ 40) by (destruct (Hk i); unfold zone_size, zone_from, zone_upto; lia).
    split; [done|]. cbn [hdr_of present_pages].
    match goal with |- 0 <= count_pages ?P ?x ?n <= _ => pose proof (count_bound P x n) end. lia. }
  eexists. split; [done|]. split_and!.
  - split; try done. intros z. cbn [k_hdr upd_node]. repeat (rewrite hdr_upd; cbn beta).
    repeat case_decide; subst; done.
  - intros i Hi. cbn [k_hdr upd_node]. unfold MAX_NR_ZONES in Hi.
    assert (i = 0 \/ i = 1 \/ i = 2) as [->|[->| ->]] by lia; zsimp; done.
  - intros z Hz. cbn [k_hdr upd_node]. rewrite !hdr_upd. by rewrite !decide_False by (intros ->; done).
  - intros n Hn. cbn. by rewrite fn_lookup_insert_ne.
  - cbn zeta. cbn [k_node upd_node upd_hdr]. rewrite fn_lookup_insert. destruct (Hsz 0) as [? ?], (Hsz 1) as [? ?], (Hsz 2) as [? ?].
    cbn [hdr_of spanned_pages present_pages] in *. rewrite !zone_size_upd, !zone_from_upd.
    f_equal; unwrap; lia.
Qed.

(** ** One zone, one node *)

(** The struct page of a frame of node [nid] in zone [j] after
    initialisation. *)
Lemma memmap_init_loop_page n : forall m nid j p q,
  page_at (memmap_init_loop n m nid j p) q =
  if decide (p <= q < p + Z.of_nat n) then __init_single_page j nid else page_at m q.
Proof.
  induction n as [|n IH]; intros m nid j p q; cbn [memmap_init_loop].
  { by rewrite decide_False by lia. }
  rewrite IH. unfold page_at, upd_page. cbn [mem_map]. destruct (decide (q = p)) as [->|Hne].
  - rewrite fn_lookup_insert, decide_False, decide_True by lia. done.
  - rewrite fn_lookup_insert_ne by done.
    destruct (decide (p + 1 <= q < p + 1 + Z.of_nat n)), (decide (p <= q < p + Z.of_nat (S n))); done || lia.
Qed.

Lemma memmap_init_loop_rest n : forall m nid j p,
  zones (memmap_init_loop n m nid j p) = zones m /\ pfn_valid (memmap_init_loop n m nid j p) = pfn_valid m.
Proof.
  induction n as [|n IH]; intros m nid j p; cbn [memmap_init_loop]; [done|].
  destruct (IH (upd_page m p (fun _ => __init_single_page j nid)) nid j (p + 1)) as [-> ->]. done.
Qed.

Lemma init_free_lists_spec n : forall areas o, 0 <= o < Z.of_nat n -> init_free_lists_loop n areas o = mk_area [] 0.
Proof.
  induction n as [|n IH]; intros areas o Ho; [lia|]. cbn [init_free_lists_loop].
  destruct (Z.eq_dec o (Z.of_nat n)) as [->|Hne]; [by rewrite fn_lookup_insert|].
  rewrite fn_lookup_insert_ne by done. apply IH. lia.
Qed.

(** A zone as initialisation leaves it. *)
Definition empty_zone (zn : zone) (managed : Z) : Prop :=
  (forall o, 0 <= o < MAX_ORDER -> z_area zn o = mk_area [] 0) /\ z_initialized zn = true /\ z_managed zn = managed.

(** Frame [q] lies in the span of the header. *)
Definition spans (h : zone_hdr) (q : Z) : Prop := zone_start_pfn h <= q < zone_start_pfn h + spanned_pages h.
#[export] Instance spans_dec h q : Decision (spans h q).
Proof. unfold spans. apply _. Defined.

Record zone_inited (k k' : kstate) (nid j : Z) : Prop := {
  zi_hdr : forall z, k_hdr k' z = if decide (z = (nid, j)) then
     let h := k_hdr k z in mk_hdr (zone_start_pfn h) (spanned_pages h) (present_pages h) BootPageset else k_hdr k z;
  zi_other : forall z, z <> (nid, j) -> zones (k_mm k') z = zones (k_mm k) z;
  zi_none : spanned_pages (k_hdr k (nid, j)) = 0 ->
     z_initialized (zones (k_mm k') (nid, j)) = z_initialized (zones (k_mm k) (nid, j));
  zi_zone : spanned_pages (k_hdr k (nid, j)) <> 0 ->
     empty_zone (zones (k_mm k') (nid, j)) (present_pages (k_hdr k (nid, j)));
  zi_page : forall q, page_at (k_mm k') q =
     if decide (spans (k_hdr k (nid, j)) q) then __init_single_page j nid else page_at (k_mm k) q;
  zi_valid : pfn_valid (k_mm k') = pfn_valid (k_mm k);
  zi_boot : boot_pageset k' = boot_pageset k;
  zi_low : arch_zone_lowest_possible_pfn k' = arch_zone_lowest_possible_pfn k;
  zi_high : arch_zone_highest_possible_pfn k' = arch_zone_highest_possible_pfn k
}.

Lemma init_core_zone_spec nid k j :
  let h := k_hdr k (nid, j) in
  0 <= zone_start_pfn h -> 0 <= spanned_pages h -> zone_start_pfn h + spanned_pages h <= 2 ^ 40 ->
  zone_inited k (init_core_zone nid k j) nid j.
Proof.
  intros h H1 H2 H3. unfold init_core_zone. fold h. unfold h in *. clear h.
  destruct (Z.eqb_spec (spanned_pages (k_hdr k (nid, j))) 0) as [E|E].
  - split; try done.
    + intros z. unfold zone_init_internals, zone_pcp_init. rewrite hdr_upd. cbn. case_decide; subst; done.
    + intros z Hz. cbn. by rewrite fn_lookup_insert_ne.
    + intros _. cbn. by rewrite fn_lookup_insert.
    + intros q. by rewrite decide_False by (unfold spans; lia).
  - set (k1 := zone_init_internals _ _ k). set (k2 := init_currently_empty_zone _ _ k1).
    unfold memmap_init_zone. rewrite u64_id by ulia.
    replace (zone_start_pfn (k_hdr k (nid, j)) + spanned_pages (k_hdr k (nid, j)) - zone_start_pfn (k_hdr k (nid, j)))
      with (spanned_pages (k_hdr k (nid, j))) by lia.
    set (n := Z.to_nat _). set (p := zone_start_pfn _).
    destruct (memmap_init_loop_rest n (k_mm k2) nid j p) as [Ez Ev].
    split; cbn [k_mm k_hdr boot_pageset set_mm]; try done.
    + intros z. unfold k2, init_currently_empty_zone. cbn [k_hdr set_mm]. rewrite hdr_upd.
      unfold k1, zone_init_internals, zone_pcp_init. rewrite !hdr_upd. cbn.
      repeat case_decide; subst; done.
    + intros z Hz. rewrite Ez. cbn. by rewrite !fn_lookup_insert_ne.
    + intros _. rewrite Ez. cbn. rewrite !fn_lookup_insert. split_and!; [|done|done].
      intros o Ho. cbn. apply (init_free_lists_spec (Z.to_nat MAX_ORDER)). rewrite Z2Nat.id; [done|unfold MAX_ORDER; lia].
    + intros q. rewrite memmap_init_loop_page. unfold n. rewrite Z2Nat.id by done.
      apply decide_ext. unfold spans. by fold p.
Qed.

(** On this architecture only ZONE_NORMAL is populated: the other zones'
    limits leave no frame of a node that spans [lo, hi). *)
Record only_normal (k : kstate) (lo hi : Z) : Prop := {
  on_dma : zone_size k ZONE_DMA lo hi = 0;
  on_normal : zone_size k ZONE_NORMAL lo hi = hi - lo;
  on_from : lo < hi -> zone_from k ZONE_NORMAL lo = lo;
  on_movable : zone_size k ZONE_MOVABLE lo hi = 0
}.

Record node_inited (k k' : kstate) (s : memblock) (nid lo hi : Z) : Prop := {
  ni_page : forall q, page_at (k_mm k') q =
     if decide (lo <= q < hi) then __init_single_page ZONE_NORMAL nid else page_at (k_mm k) q;
  ni_zone : lo < hi ->
     empty_zone (zones (k_mm k') (nid, ZONE_NORMAL)) (count_pages (node_page s nid) lo (Z.to_nat (hi - lo)));
  ni_init : forall z, z <> (nid, ZONE_NORMAL) \/ hi <= lo ->
     z_initialized (zones (k_mm k') z) = z_initialized (zones (k_mm k) z);
  ni_other : forall z, fst z <> nid -> zones (k_mm k') z = zones (k_mm k) z /\ k_hdr k' z = k_hdr k z;
  ni_ps : forall z, zone_pageset (k_hdr k z) <> PercpuPageset -> zone_pageset (k_hdr k' z) <> PercpuPageset;
  ni_hdr : spanned_pages (k_hdr k' (nid, ZONE_NORMAL)) = hi - lo
     /\ (lo < hi -> zone_start_pfn (k_hdr k' (nid, ZONE_NORMAL)) = lo)
     /\ present_pages (k_hdr k' (nid, ZONE_NORMAL)) = count_pages (node_page s nid) lo (Z.to_nat (hi - lo));
  ni_valid : pfn_valid (k_mm k') = pfn_valid (k_mm k);
  ni_boot : boot_pageset k' = boot_pageset k;
  ni_low : arch_zone_lowest_possible_pfn k' = arch_zone_lowest_possible_pfn k;
  ni_high : arch_zone_highest_possible_pfn k' = arch_zone_highest_possible_pfn k
}.

Lemma hdr_of_range k s nid i a b ps : bounds_ok k -> 0 <= a -> b <= 2 ^ 40 ->
  let h := hdr_of k s nid i a b ps in
  0 <= zone_start_pfn h /\ 0 <= spanned_pages h /\ zone_start_pfn h + spanned_pages h <= 2 ^ 40.
Proof.
  intros Hk Ha Hb. destruct (Hk i) as [? ?]. cbn. unfold zone_size, zone_from, zone_upto.
  destruct (Z.eqb_spec (Z.max 0 (Z.min (arch_zone_highest_possible_pfn k i) b - Z.max (arch_zone_lowest_possible_pfn k i) a)) 0); lia.
Qed.

Definition booted_hdr (h : zone_hdr) : zone_hdr :=
  mk_hdr (zone_start_pfn h) (spanned_pages h) (present_pages h) BootPageset.

(** The zones [js] of node [nid] are initialised one after the other. *)
Record core_inited (k k' : kstate) (nid : Z) (js : list Z) : Prop := {
  ci_hdr : forall z, k_hdr k' z = if decide (fst z = nid /\ snd z ∈ js) then booted_hdr (k_hdr k z) else k_hdr k z;
  ci_other : forall z, ~ (fst z = nid /\ snd z ∈ js) -> zones (k_mm k') z = zones (k_mm k) z;
  ci_none : forall j, j ∈ js -> spanned_pages (k_hdr k (nid, j)) = 0 ->
     z_initialized (zones (k_mm k') (nid, j)) = z_initialized (zones (k_mm k) (nid, j));
  ci_zone : forall j, j ∈ js -> spanned_pages (k_hdr k (nid, j)) <> 0 ->
     empty_zone (zones (k_mm k') (nid, j)) (present_pages (k_hdr k (nid, j)));
  ci_page : forall j q, j ∈ js -> spans (k_hdr k (nid, j)) q ->
     (forall j', j' ∈ js -> spans (k_hdr k (nid, j')) q -> j' = j) -> page_at (k_mm k') q = __init_single_page j nid;
  ci_same : forall q, (forall j, j ∈ js -> ~ spans (k_hdr k (nid, j)) q) -> page_at (k_mm k') q = page_at (k_mm k) q;
  ci_valid : pfn_valid (k_mm k') = pfn_valid (k_mm k);
  ci_boot : boot_pageset k' = boot_pageset k;
  ci_low : arch_zone_lowest_possible_pfn k' = arch_zone_lowest_possible_pfn k;
  ci_high : arch_zone_highest_possible_pfn k' = arch_zone_highest_possible_pfn k
}.

Lemma init_zones_spec nid js : NoDup js -> forall k,
  (forall j, j ∈ js -> let h := k_hdr k (nid, j) in
     0 <= zone_start_pfn h /\ 0 <= spanned_pages h /\ zone_start_pfn h + spanned_pages h <= 2 ^ 40) ->
  core_inited k (fold_left (init_core_zone nid) js k) nid js.
Proof.
  induction js as [|j js IH]; intros Hnd k Hr; cbn [fold_left].
  { split; try done; try (intros j Hj; by apply not_elem_of_nil in Hj); try (intros j q Hj; by apply not_elem_of_nil in Hj).
    intros z. rewrite decide_False; [done|]. intros [_ Hj]. by apply not_elem_of_nil in Hj. }
  apply list.NoDup_cons in Hnd as [Hnin Hnd]. destruct (Hr j ltac:(by left)) as (R1 & R2 & R3).
  pose proof (init_core_zone_spec nid k j R1 R2 R3) as Z1. set (k1 := init_core_zone nid k j) in *.
  assert (Hh : forall i, i ∈ js -> k_hdr k1 (nid, i) = k_hdr k (nid, i)).
  { intros i Hi. rewrite (zi_hdr _ _ _ _ Z1), decide_False; [done|]. intros [= ->]. done. }
  destruct (IH Hnd k1) as [Ch Co Cn Cz Cp Cs Cv Cb Cl Chi].
  { intros i Hi. rewrite Hh by done. apply Hr. by right. }
  set (k' := fold_left _ _ _) in *. clearbody k'.
  assert (Hj : zones (k_mm k') (nid, j) = zones (k_mm k1) (nid, j)) by (apply Co; cbn; tauto).
  split.
  - intros z. rewrite Ch, (zi_hdr _ _ _ _ Z1). cbn zeta. destruct z as [n i]. cbn [fst snd].
    case_decide as E1; case_decide as E2; case_decide as E3; rewrite elem_of_cons in E3; simplify_eq; try done; exfalso; intuition congruence.
  - intros z Hz. rewrite elem_of_cons in Hz. rewrite Co by tauto. apply Z1. intros ->. apply Hz. cbn. tauto.
  - intros i [->|Hi]%elem_of_cons Hs; [rewrite Hj; by apply Z1|].
    rewrite Cn by (done || by rewrite Hh). rewrite (zi_other _ _ _ _ Z1); [done|]. by intros [= ->].
  - intros i [->|Hi]%elem_of_cons Hs; [rewrite Hj; by apply Z1|].
    rewrite <- (Hh i Hi). apply Cz; [done|by rewrite Hh].
  - intros i q [->|Hi]%elem_of_cons Hs Hu.
    + rewrite Cs; [by rewrite (zi_page _ _ _ _ Z1), decide_True|].
      intros j' Hj'. rewrite Hh by done. intros Hs'. assert (j' = j) by (apply Hu; [by right|done]). by subst.
    + apply Cp; [done|by rewrite Hh|]. intros j' Hj'. rewrite Hh by done. apply Hu. by right.
  - intros q Hq. rewrite Cs; [rewrite (zi_page _ _ _ _ Z1), decide_False; [done|]; apply Hq; by left|].
    intros i Hi. rewrite Hh by done. apply Hq. by right.
  - by rewrite Cv, (zi_valid _ _ _ _ Z1).
  - by rewrite Cb, (zi_boot _ _ _ _ Z1).
  - by rewrite Cl, (zi_low _ _ _ _ Z1).
  - by rewrite Chi, (zi_high _ _ _ _ Z1).
Qed.

(** The headers of the node's zones on this architecture. *)
Lemma normal_hdr k s nid lo hi ps : only_normal k lo hi -> lo <= hi ->
  spanned_pages (hdr_of k s nid 0 lo hi ps) = 0 /\ spanned_pages (hdr_of k s nid 2 lo hi ps) = 0
  /\ (let h := hdr_of k s nid 1 lo hi ps in
      spanned_pages h = hi - lo /\ (lo < hi -> zone_start_pfn h = lo)
      /\ present_pages h = count_pages (node_page s nid) lo (Z.to_nat (hi - lo))).
Proof.
  intros [Hd Hn Hf Hm] Hle. split; [exact Hd|]. split; [exact Hm|]. cbn. unfold ZONE_NORMAL in *. rewrite Hn.
  split; [done|]. destruct (Z.eqb_spec (hi - lo) 0) as [E|Hne]; [rewrite E; split; [lia|done]|]. rewrite Hf by lia. done.
Qed.

Lemma init_core_spec k s nid lo hi (k2 : kstate) :
  bounds_ok k -> 0 <= lo <= hi -> hi <= 2 ^ 40 -> only_normal k lo hi -> same_but_sizes k k2 ->
  (forall i, 0 <= i < MAX_NR_ZONES -> k_hdr k2 (nid, i) = hdr_of k s nid i lo hi (zone_pageset (k_hdr k (nid, i)))) ->
  (forall z, fst z <> nid -> k_hdr k2 z = k_hdr k z) ->
  node_inited k (free_area_init_core nid k2) s nid lo hi.
Proof.
  intros Hk Hlo Hhi Hon [Sm Sb Sl Sh Sp] Hh Ho.
  assert (Hjs : forall j, j ∈ seqZ 0 MAX_NR_ZONES <-> j = 0 \/ j = 1 \/ j = 2)
    by (intros j; rewrite elem_of_seqZ; unfold MAX_NR_ZONES; lia).
  assert (Hr : forall j, j ∈ seqZ 0 MAX_NR_ZONES -> k_hdr k2 (nid, j) = hdr_of k s nid j lo hi (zone_pageset (k_hdr k (nid, j))))
    by (intros j Hj; apply Hh; apply elem_of_seqZ in Hj; lia).
  destruct (init_zones_spec nid (seqZ 0 MAX_NR_ZONES) (NoDup_seqZ 0 MAX_NR_ZONES) k2) as [Ch Co Cn Cz Cp Cs Cv Cb Cl Chi].
  { intros j Hj. rewrite Hr by done. apply hdr_of_range; done || lia. }
  fold (free_area_init_core nid k2) in *. set (k' := free_area_init_core nid k2) in *. clearbody k'.
  assert (P1 : 1 ∈ seqZ 0 MAX_NR_ZONES) by (apply Hjs; lia).
  destruct (normal_hdr k s nid lo hi (zone_pageset (k_hdr k (nid, 1))) Hon ltac:(lia)) as (_ & _ & S1 & St & Pr).
  rewrite <- (Hr 1 P1) in S1, St, Pr.
  assert (Hsp : forall j q, j ∈ seqZ 0 MAX_NR_ZONES -> spans (k_hdr k2 (nid, j)) q <-> j = 1 /\ lo <= q < hi).
  { intros j q Hj. unfold spans. pose proof Hj as Hj'. apply Hjs in Hj' as [->|[->| ->]].
    - rewrite (Hr 0 Hj). destruct (normal_hdr k s nid lo hi (zone_pageset (k_hdr k (nid, 0))) Hon ltac:(lia)) as (-> & _). lia.
    - rewrite S1. destruct (Z.lt_ge_cases lo hi) as [Hlt|]; [rewrite (St Hlt)|]; lia.
    - rewrite (Hr 2 Hj). destruct (normal_hdr k s nid lo hi (zone_pageset (k_hdr k (nid, 2))) Hon ltac:(lia)) as (_ & -> & _). lia. }
  split; unfold ZONE_NORMAL.
  - intros q. case_decide.
    + apply Cp; [done|by apply Hsp|]. intros j' Hj' Hs'. by apply Hsp in Hs' as [-> _].
    + rewrite Cs, Sm; [done|]. intros j Hj Hs'. apply Hsp in Hs' as [_ ?]; [lia|done].
  - intros Hlt. rewrite <- Pr. apply Cz; [done|]. lia.
  - intros [n i] Hz. destruct (decide (n = nid /\ i ∈ seqZ 0 MAX_NR_ZONES)) as [[-> Hi]|Hni]; [|by rewrite Co, Sm].
    rewrite Cn, Sm; [done|done|]. pose proof Hi as Hi'. apply Hjs in Hi' as [->|[->| ->]]; [| |].
    + rewrite (Hr 0 Hi). by destruct (normal_hdr k s nid lo hi (zone_pageset (k_hdr k (nid, 0))) Hon ltac:(lia)) as (-> & _).
    + rewrite S1. destruct Hz; [done|lia].
    + rewrite (Hr 2 Hi). by destruct (normal_hdr k s nid lo hi (zone_pageset (k_hdr k (nid, 2))) Hon ltac:(lia)) as (_ & -> & _).
  - intros z Hz. rewrite Co, Sm by tauto. split; [done|]. rewrite Ch, decide_False by tauto. by apply Ho.
  - intros z Hz. rewrite Ch. case_decide; [done|]. by rewrite Sp.
  - rewrite Ch, decide_True by done. done.
  - by rewrite Cv, Sm.
  - by rewrite Cb.
  - by rewrite Cl.
  - by rewrite Chi.
Qed.

(** The frames a node spans. *)
Definition node_span (s : memblock) (nid : Z) : Z * Z :=
  match get_pfn_range_for_nid s nid with Ret r => r | _ => (0, 0) end.
Definition node_lo (s : memblock) (nid : Z) : Z := (node_span s nid).1.
Definition node_hi (s : memblock) (nid : Z) : Z := (node_span s nid).2.

Lemma node_span_spec s nid : map_ok s ->
  get_pfn_range_for_nid s nid = Ret (node_lo s nid, node_hi s nid)
  /\ extent (node_ranges s nid) (node_lo s nid) (node_hi s nid).
Proof.
  intros Hs. destruct (node_extent s nid Hs) as (lo & hi & E & Hx). unfold node_lo, node_hi, node_span. by rewrite E.
Qed.

Lemma init_node_spec k s nid start :
  map_ok s -> bounds_ok k -> only_normal k (node_lo s nid) (node_hi s nid) ->
  exists k', free_area_init_node s nid start k = Ret k' /\ node_inited k k' s nid (node_lo s nid) (node_hi s nid).
Proof.
  intros Hs Hk Hon. unfold free_area_init_node. destruct (node_span_spec s nid Hs) as [-> [Hlo Hhi _ _ _]]. cbn [obind].
  set (k1 := upd_node nid _ k).
  destruct (totalpages_spec k1 s nid (node_lo s nid) (node_hi s nid) Hs Hk Hlo Hhi) as (k2 & -> & Hsb & Hh & Ho & _).
  cbn [obind]. eexists. split; [done|].
  assert (Hon1 : only_normal k1 (node_lo s nid) (node_hi s nid)) by (destruct Hon; by split).
  by destruct (init_core_spec k1 s nid (node_lo s nid) (node_hi s nid) k2 Hk Hlo Hhi Hon1 Hsb Hh Ho).
Qed.

Record nodes_inited (k k' : kstate) (s : memblock) (nodes : list Z) : Prop := {
  nd_page : forall nid q, nid ∈ nodes -> node_lo s nid <= q < node_hi s nid ->
     (forall n, n ∈ nodes -> node_lo s n <= q < node_hi s n -> n = nid) ->
     page_at (k_mm k') q = __init_single_page ZONE_NORMAL nid;
  nd_zone : forall nid, nid ∈ nodes -> node_lo s nid < node_hi s nid ->
     empty_zone (zones (k_mm k') (nid, ZONE_NORMAL))
       (count_pages (node_page s nid) (node_lo s nid) (Z.to_nat (node_hi s nid - node_lo s nid)));
  nd_init : forall z, z_initialized (zones (k_mm k') z) = true ->
     z_initialized (zones (k_mm k) z) = true
     \/ (fst z ∈ nodes /\ snd z = ZONE_NORMAL /\ node_lo s (fst z) < node_hi s (fst z));
  nd_hdr : forall nid, nid ∈ nodes -> let h := k_hdr k' (nid, ZONE_NORMAL) in
     spanned_pages h = node_hi s nid - node_lo s nid
     /\ (node_lo s nid < node_hi s nid -> zone_start_pfn h = node_lo s nid)
     /\ present_pages h = count_pages (node_page s nid) (node_lo s nid) (Z.to_nat (node_hi s nid - node_lo s nid));
  nd_same : forall q, (forall n, n ∈ nodes -> ~ node_lo s n <= q < node_hi s n) -> page_at (k_mm k') q = page_at (k_mm k) q;
  nd_other : forall z, fst z ∉ nodes -> zones (k_mm k') z = zones (k_mm k) z /\ k_hdr k' z = k_hdr k z;
  nd_ps : (forall z, zone_pageset (k_hdr k z) <> PercpuPageset) -> forall z, zone_pageset (k_hdr k' z) <> PercpuPageset;
  nd_valid : pfn_valid (k_mm k') = pfn_valid (k_mm k);
  nd_boot : boot_pageset k' = boot_pageset k
}.

Lemma init_nodes_spec s nodes : map_ok s -> NoDup nodes -> forall k,
  bounds_ok k -> (forall nid, nid ∈ nodes -> only_normal k (node_lo s nid) (node_hi s nid)) ->
  exists k', init_nodes_loop s nodes k = Ret k' /\ nodes_inited k k' s nodes.
Proof.
  intros Hs. induction nodes as [|nid nodes IH]; intros Hnd k Hk Hon; cbn [init_nodes_loop].
  { exists k. split; [done|]. split; try done; try (intros nid Hn; by apply not_elem_of_nil in Hn);
      try (intros nid q Hn; by apply not_elem_of_nil in Hn). intros z Hz. by left. }
  apply list.NoDup_cons in Hnd as [Hnin Hnd].
  rewrite (min_pfn_spec s nid _ _ (proj1 (node_span_spec s nid Hs))). cbn [obind].
  destruct (init_node_spec k s nid (node_lo s nid) Hs Hk) as (k1 & -> & [Np Nz Ni No Nps Nh Nv Nb Nl Nhi]); [apply Hon; by left|].
  cbn [obind].
  assert (Hsame : forall n, only_normal k (node_lo s n) (node_hi s n) -> only_normal k1 (node_lo s n) (node_hi s n)).
  { intros n [? ? ? ?]. unfold zone_size, zone_from, zone_upto in *. split; unfold zone_size, zone_from, zone_upto; by rewrite ?Nl, ?Nhi. }
  destruct (IH Hnd k1) as (k' & -> & [Dp Dz Di Dh Ds Do Dps Dv Db]).
  { intros i. rewrite Nl, Nhi. apply Hk. }
  { intros n Hn. apply Hsame, Hon. by right. }
  assert (Hz : zones (k_mm k') (nid, ZONE_NORMAL) = zones (k_mm k1) (nid, ZONE_NORMAL)
               /\ k_hdr k' (nid, ZONE_NORMAL) = k_hdr k1 (nid, ZONE_NORMAL)) by (by apply Do).
  exists k'. split; [done|]. split.
  - intros n q [->|Hn]%elem_of_cons Hq Hu.
    + rewrite Ds; [by rewrite Np, decide_True|]. intros n Hn Hq'. assert (n = nid) by (apply Hu; [by right|done]). by subst.
    + apply Dp; [done|done|]. intros n' Hn'. apply Hu. by right.
  - intros n [->|Hn]%elem_of_cons Hlt; [rewrite (proj1 Hz); by apply Nz|by apply Dz].
  - intros z Hi. destruct (Di z Hi) as [Hi1|(Hin & ? & ?)]; [|right; split; [by right|done]].
    destruct (decide (z = (nid, ZONE_NORMAL) /\ node_lo s nid < node_hi s nid)) as [[-> Hlt]|Hno].
    + right. cbn. split; [by left|done].
    + left. rewrite <- Ni; [done|]. destruct (decide (z = (nid, ZONE_NORMAL))); [right; apply Z.le_ngt; tauto|by left].
  - intros n [->|Hn]%elem_of_cons; [cbn zeta; by rewrite (proj2 Hz)|by apply Dh].
  - intros q Hq. rewrite Ds by (intros n Hn; apply Hq; by right). rewrite Np, decide_False; [done|]. apply Hq. by left.
  - intros z Hz'. apply not_elem_of_cons in Hz' as [Hne Hnn]. destruct (Do z Hnn) as [-> ->]. by apply No.
  - intros Hp. apply Dps. intros z. by apply Nps.
  - by rewrite Dv.
  - by rewrite Db.
Qed.

(** ** Zeroing the struct pages without memory *)

(** Only struct pages change. *)
Definition pages_only (m m' : mm) : Prop := zones m' = zones m /\ pfn_valid m' = pfn_valid m.

Lemma align_down_block p : 0 <= p < 2 ^ 52 ->
  ALIGN_DOWN_block p <= p < ALIGN_DOWN_block p + pageblock_nr_pages.
Proof.
  intros Hp. unfold ALIGN_DOWN_block, pageblock_nr_pages, pageblock_order. change (MAX_ORDER - 1) with 10.
  rewrite round_down_spec by ulia. pose proof (Z.mod_pos_bound p (2 ^ 10) ltac:(lia)). lia.
Qed.

Lemma zero_pfn_loop_spec : forall fuel m p e c, 0 <= p -> e <= 2 ^ 52 -> e <= p + Z.of_nat fuel ->
  exists m' c', zero_pfn_loop fuel m p e c = Ret (m', c') /\ pages_only m m'.
Proof.
  induction fuel as [|fuel IH]; intros m p e c Hp He Hf; cbn [zero_pfn_loop];
    (destruct (Z.ltb_spec p e); cbn [negb]; [|eexists _, _; split; [done|by split]]); [lia|].
  pose proof (align_down_block p ltac:(lia)). destruct (negb (pfn_valid m (ALIGN_DOWN_block p))).
  - apply IH; lia.
  - destruct (IH (upd_page m p (fun _ => mm_zero_struct_page)) (p + 1) e (c +64 1)) as (m' & c' & -> & [? ?]); [lia..|].
    by exists m', c'.
Qed.

Lemma zero_pfn_range_spec m p e : 0 <= p -> e <= 2 ^ 52 ->
  exists m' c, zero_pfn_range m p e = Ret (m', c) /\ pages_only m m'.
Proof. intros Hp He. apply zero_pfn_loop_spec; lia. Qed.

Lemma scan_a_none A nid flags : forall todo ia,
  (exists pre, A = pre ++ todo /\ ia = Z.of_nat (length pre)) ->
  next_scan_a todo None nid flags ia 0 = (ULLONG_MAX, None)
  \/ exists n r, next_scan_a todo None nid flags ia 0 = (pack_idx (Z.of_nat n + 1) 0, Some (mk_range (r_base r) (region_end r) (r_nid r)))
      /\ A !! n = Some r /\ ia <= Z.of_nat n.
Proof.
  induction todo as [|r todo IH]; intros ia (pre & HA & Hia); cbn [next_scan_a]; [by left|].
  destruct (range_skips nid flags r).
  - destruct (IH (ia + 1)) as [->|(n & r' & -> & Hl & Hn)]; [|by left|].
    { exists (pre ++ [r]). split; [by rewrite <- app_assoc|]. rewrite length_app. cbn. lia. }
    right. exists n, r'. split_and!; [done|done|lia].
  - right. exists (length pre), r. split_and!; [by rewrite Hia|by rewrite HA, lookup_app_r, Nat.sub_diag by lia|lia].
Qed.

Lemma iterate_none A nid flags : Z.of_nat (length A) < 2 ^ 31 - 1 -> forall fuel ia,
  (ia <= length A)%nat -> (length A - ia < fuel)%nat ->
  exists l, iterate fuel (fun i => next_mem_range i nid flags A None) (pack_idx (Z.of_nat ia) 0) = Ret l
    /\ Forall (fun x => exists r, r ∈ A /\ mr_start x = r_base r /\ mr_end x = region_end r) l.
Proof.
  intros HA. induction fuel as [|fuel IH]; intros ia Hle Hf; [lia|]. cbn [iterate]. unfold next_mem_range at 1.
  rewrite idx_a_of_pack, idx_b_of_pack by lia. destruct (Z.ltb_spec (Z.of_nat ia) 0); [lia|]. rewrite Nat2Z.id.
  destruct (scan_a_none A (fix_nid nid) flags (drop ia A) (Z.of_nat ia)) as [->|(n & r & -> & Hl & Hn)].
  - exists (take ia A). rewrite take_drop, length_take. split; [done|lia].
  - exists []. split; [done|constructor].
  - destruct (Z.eqb_spec (pack_idx (Z.of_nat n + 1) 0) ULLONG_MAX) as [E|_]; [exfalso; revert E; apply pack_idx_not_end; lia|].
    replace (Z.of_nat n + 1) with (Z.of_nat (S n)) by lia. apply lookup_lt_Some in Hl as Hlt.
    destruct (IH (S n)) as (l & -> & Hall); [lia..|]. cbn [obind]. eexists. split; [done|]. constructor; [|done].
    exists r. split; [by eapply list_elem_of_lookup_2|done].
Qed.

Lemma zero_unavail_loop_spec l : forall m next c, 0 <= next < 2 ^ 63 ->
  Forall (fun x => 0 <= mr_start x <= 2 ^ 52 /\ 0 <= mr_end x <= 2 ^ 52) l ->
  exists m' next' c', zero_unavail_loop l m next c = Ret (m', next', c') /\ pages_only m m' /\ 0 <= next' < 2 ^ 63.
Proof.
  induction l as [|r l IH]; intros m next c Hn Hl; cbn [zero_unavail_loop].
  { eexists _, _, _. split; [done|]. by split. }
  apply list.Forall_cons in Hl as [[Hs He] Hl].
  assert (H1 : exists m1 c1, (if next <? mr_start r then zero_pfn_range m (PFN_DOWN next) (PFN_UP (mr_start r)) else Ret (m, 0))
     = Ret (m1, c1) /\ pages_only m m1).
  { destruct (next <? mr_start r); [|eexists _, _; split; [done|by split]]. apply zero_pfn_range_spec.
    - apply Z.shiftr_nonneg. lia.
    - unfold PFN_UP. rewrite u64_id by (unfold PAGE_SIZE, PAGE_SHIFT; ulia).
      rewrite Z.shiftr_div_pow2 by (unfold PAGE_SHIFT; lia). unfold PAGE_SIZE, PAGE_SHIFT. Z.to_euclidean_division_equations. lia. }
  destruct H1 as (m1 & c1 & -> & [Z1 V1]). cbn [obind].
  destruct (IH m1 (mr_end r) (c +64 c1)) as (m' & next' & c' & -> & [Z2 V2] & Hn'); [lia|done|].
  exists m', next', c'. split; [done|]. split; [|done]. split; congruence.
Qed.

Lemma zero_resv_spec s max_pfn m : map_ok s -> Z.of_nat (length (regions (memory s))) < 2 ^ 31 - 1 -> max_pfn <= 2 ^ 52 ->
  exists m' c, zero_resv_unavail s max_pfn m = Ret (m', c) /\ pages_only m m'.
Proof.
  intros [Hs Hlow] Hlen Hmax. unfold zero_resv_unavail, for_each_mem_range.
  destruct (iterate_none (regions (memory s)) NUMA_NO_NODE MEMBLOCK_NONE Hlen (iterate_fuel s) 0) as (l & Hit & Hall);
    [lia|unfold iterate_fuel; lia|].
  change (pack_idx (Z.of_nat 0) 0) with 0 in Hit. rewrite Hit. cbn [obind].
  destruct (zero_unavail_loop_spec l m 0 0) as (m1 & next & c & -> & [Z1 V1] & Hn); [lia| |].
  { eapply Forall_impl; [|exact Hall]. cbn. intros x (r & Hr & -> & ->).
    apply list_elem_of_lookup_1 in Hr as (i & Hi). pose proof (regions_from_ent 0 _ i Hs (lookup_lt_Some _ _ _ Hi)) as (? & ? & ?).
    pose proof (ent_end _ i Hs (lookup_lt_Some _ _ _ Hi)) as He. unfold ent in *. rewrite (nth_lookup_Some _ _ _ _ Hi) in *.
    pose proof (Forall_lookup_1 _ _ _ _ Hlow Hi) as Hlr. unfold low_region, PHYS_LIMIT in Hlr. rewrite He. lia. }
  cbn [obind]. destruct (zero_pfn_range_spec m1 (PFN_DOWN next) max_pfn) as (m2 & c2 & -> & [Z2 V2]);
    [apply Z.shiftr_nonneg; lia|done|]. cbn [obind]. eexists _, _. split; [done|]. split; congruence.
Qed.

(** ** The whole initialisation *)

Lemma map_ok_of s : mb_wf s -> below_limit s -> map_ok s.
Proof.
  intros [Hm _ _] Hb. pose proof (wf_sorted _ Hm) as Hs. split; [done|]. apply Forall_lookup. intros i r Hi.
  pose proof (regions_from_ent 0 _ i Hs (lookup_lt_Some _ _ _ Hi)) as (? & ? & ?).
  unfold ent in *. rewrite (nth_lookup_Some _ _ _ _ Hi) in *. unfold low_region.
  destruct (wf_live _ Hm) as [_ [Hpos|(r0 & E & Hb0 & Hz0)]].
  - pose proof (Forall_lookup_1 _ _ _ _ Hpos Hi) as Hp. cbn in Hp.
    assert (Ha : r_base r + r_size r - 1 < PHYS_LIMIT); [|lia]. apply Hb, attr_at_ent. exists i.
    split; [by eapply lookup_lt_Some|]. unfold ent, contains. rewrite (nth_lookup_Some _ _ _ _ Hi).
    apply andb_true_iff. split; [apply Z.leb_le|apply Z.ltb_lt]; lia.
  - rewrite E in Hi. apply list_lookup_singleton_Some in Hi as [_ ->]. unfold PHYS_LIMIT. lia.
Qed.

Lemma node_page_elem s nid q :
  node_page s nid q <-> exists r, r ∈ regions (memory s) /\ reported nid r /\ PFN_UP (r_base r) <= q < PFN_DOWN (region_end r).
Proof.
  unfold node_page. rewrite in_pfns_elem. unfold node_ranges. split.
  - intros (x & Hx & Hq). apply list_elem_of_In, in_map_iff in Hx as (r & <- & Hr). apply list_elem_of_In, list_elem_of_filter in Hr as [? ?].
    by exists r.
  - intros (r & Hr & Hrep & Hq). exists (region_pfns r). split; [|done]. apply list_elem_of_In, in_map, list_elem_of_In.
    by apply list_elem_of_filter.
Qed.

Lemma node_page_any s nid q : node_page s nid q -> node_page s MAX_NUMNODES q.
Proof. rewrite !node_page_elem. intros (r & Hr & [Hlt _] & Hq). exists r. split; [done|]. split; [|done]. by split; [|left]. Qed.

Lemma node_page_dram s nid q : mb_wf s -> node_page s nid q -> q < PFN_DOWN (memblock_end_of_DRAM s).
Proof.
  intros Hwf (r & Hr & _ & Hq)%node_page_elem. apply list_elem_of_lookup_1 in Hr as (i & Hi).
  pose proof (ent_below_dram s i (wf_memory _ Hwf) (lookup_lt_Some _ _ _ Hi)) as Hle.
  pose proof (ent_end _ i (wf_sorted _ (wf_memory _ Hwf)) (lookup_lt_Some _ _ _ Hi)) as He.
  unfold ent in *. rewrite (nth_lookup_Some _ _ _ _ Hi) in *.
  assert (PFN_DOWN (region_end r) <= PFN_DOWN (memblock_end_of_DRAM s)); [|lia].
  unfold PFN_DOWN. rewrite !Z.shiftr_div_pow2 by (unfold PAGE_SHIFT; lia). apply Z.div_le_mono; [done|lia].
Qed.

(** A node's span lies inside the span of all memory. *)
Lemma node_span_in s nid : mb_wf s -> map_ok s -> node_lo s nid < node_hi s nid ->
  node_lo s MAX_NUMNODES <= node_lo s nid /\ node_hi s nid <= PFN_DOWN (memblock_end_of_DRAM s).
Proof.
  intros Hwf Hs Hlt. destruct (node_span_spec s nid Hs) as [_ [_ _ _ Hends Hemp]].
  destruct (decide (node_ranges s nid = [])) as [E|E]; [destruct (Hemp E); lia|]. destruct (Hends E) as [Hl Hh].
  split.
  - destruct (node_span_spec s MAX_NUMNODES Hs) as [_ [_ _ Hin _ _]]. apply Hin. by apply (node_page_any s nid).
  - pose proof (node_page_dram s nid _ Hwf Hh). lia.
Qed.

Lemma dram_low s : mb_wf s -> map_ok s -> 0 <= PFN_DOWN (memblock_end_of_DRAM s) <= 2 ^ 40.
Proof.
  intros Hwf [Hs Hlow]. unfold memblock_end_of_DRAM, t_cnt. destruct (wf_live _ (wf_memory _ Hwf)) as [Hne _].
  set (n := length (regions (memory s))). assert (Hn : (0 < n)%nat) by (unfold n; destruct (regions (memory s)); [done|cbn; lia]).
  replace (Z.of_nat n - 1) with (Z.of_nat (n - 1)) by lia. rewrite region_at_ent, ent_end by (done || lia).
  destruct (regions_from_ent 0 _ (n - 1) Hs ltac:(lia)) as (? & ? & ?).
  destruct (lookup_lt_is_Some_2 (regions (memory s)) (n - 1) ltac:(lia)) as [r Hr].
  pose proof (Forall_lookup_1 _ _ _ _ Hlow Hr) as Hl. unfold ent in *. rewrite (nth_lookup_Some _ _ _ _ Hr) in *.
  unfold low_region, PHYS_LIMIT in Hl. unfold PFN_DOWN. rewrite Z.shiftr_div_pow2 by (unfold PAGE_SHIFT; lia). unfold PAGE_SHIFT.
  Z.to_euclidean_division_equations. lia.
Qed.

Lemma arm64_bounds maxp start low high :
  zone_bounds_loop (Z.to_nat MAX_NR_ZONES) (<[ZONE_NORMAL := maxp]> (fun _ => 0)) start (fun _ => 0) (fun _ => 0) = (low, high) ->
  0 <= start ->
  low ZONE_DMA = start /\ high ZONE_DMA = start /\ low ZONE_NORMAL = start /\ high ZONE_NORMAL = Z.max maxp start
  /\ forall i, i <> ZONE_DMA -> i <> ZONE_NORMAL -> low i = 0 /\ high i = 0.
Proof.
  change (Z.to_nat MAX_NR_ZONES) with 3%nat. cbn [zone_bounds_loop].
  change (MAX_NR_ZONES - Z.of_nat 3) with ZONE_DMA. change (MAX_NR_ZONES - Z.of_nat 2) with ZONE_NORMAL.
  change (MAX_NR_ZONES - Z.of_nat 1) with ZONE_MOVABLE.
  change (ZONE_DMA =? ZONE_MOVABLE) with false. change (ZONE_NORMAL =? ZONE_MOVABLE) with false. rewrite Z.eqb_refl.
  cbn iota. intros [= <- <-] Hst. rewrite fn_lookup_insert. rewrite (fn_lookup_insert_ne _ ZONE_NORMAL ZONE_DMA) by done.
  replace (Z.max 0 start) with start by lia.
  rewrite !fn_lookup_insert, !(fn_lookup_insert_ne _ ZONE_NORMAL ZONE_DMA), !fn_lookup_insert by done. split_and!; try done; try lia.
  intros i H1 H2. by rewrite !fn_lookup_insert_ne.
Qed.

Lemma bootmem_init_spec s tp k :
  mb_wf s -> below_limit s -> mask_wf (node_online_mask tp) ->
  exists k0 k', bootmem_init s tp k = Ret k' /\ nodes_inited k0 k' s (online tp)
    /\ zones (k_mm k0) = zones (k_mm k) /\ pfn_valid (k_mm k0) = pfn_valid (k_mm k)
    /\ k_hdr k0 = k_hdr k /\ boot_pageset k0 = boot_pageset k.
Proof.
  intros Hwf Hlim Hmask. pose proof (map_ok_of s Hwf Hlim) as Hs. unfold bootmem_init, zone_sizes_init, free_area_init_nodes.
  unfold find_min_pfn_with_active_regions. set (maxp := PFN_DOWN (memblock_end_of_DRAM s)).
  destruct (node_span_spec s MAX_NUMNODES Hs) as [Hrun [Hlo Hhi _ _ _]].
  rewrite (min_pfn_spec s MAX_NUMNODES _ _ Hrun). cbn [obind]. set (start := node_lo s MAX_NUMNODES) in *.
  destruct (zone_bounds_loop _ _ start _ _) as [low high] eqn:Eb.
  destruct (arm64_bounds maxp start low high Eb ltac:(lia)) as (L0 & H0 & L1 & H1 & Lr).
  pose proof (dram_low s Hwf Hs) as Hmax. fold maxp in Hmax.
  destruct (zero_resv_spec s maxp (k_mm k) Hs) as (m1 & c & Hz & [Zz Zv]); [apply mb_wf_lengths; done|lia|].
  cbn [k_mm]. rewrite Hz. cbn [obind]. rewrite for_each_node_spec by done. cbn [obind]. fold (online tp).
  set (k1 := set_mm m1 _).
  destruct (init_nodes_spec s (online tp) Hs (nodes_nodup _) k1) as (k' & -> & Hn).
  - intros i. cbn. destruct (decide (i = ZONE_DMA)) as [->|]; [rewrite L0, H0; lia|].
    destruct (decide (i = ZONE_NORMAL)) as [->|]; [rewrite L1, H1; lia|]. destruct (Lr i) as [-> ->]; [done..|lia].
  - intros nid _. destruct (node_span_spec s nid Hs) as [_ [Nlo Nhi _ _ Nemp]].
    pose proof (node_span_in s nid Hwf Hs) as Hin. fold start maxp in Hin.
    destruct (Lr ZONE_MOVABLE ltac:(done) ltac:(done)) as [L2 H2].
    assert (He : node_hi s nid <= node_lo s nid -> node_lo s nid = 0 /\ node_hi s nid = 0).
    { intros Hle. destruct (decide (node_ranges s nid = [])) as [E|E]; [auto|]. exfalso.
      destruct (node_span_spec s nid Hs) as [_ [_ _ Hi Hends _]]. destruct (Hends E) as [Hl _]. specialize (Hi _ Hl). lia. }
    split; unfold zone_size, zone_from, zone_upto; cbn; rewrite ?L0, ?H0, ?L1, ?H1, ?L2, ?H2; lia.
  - exists k1, k'. split_and!; done.
Qed.
