(* ===== verification/BootMem.v ===== *)
(** * The memory side of booting

    bootmem_init(), build_all_zonelists(), memblock_free_all() and
    setup_per_cpu_pageset() in the order start_kernel() calls them: the state
    each leaves is the one the next one needs, and at the end the page
    allocator owns exactly the memory the boot allocator did not reserve. *)

From S2P Require Import Prelude Bitops Memblock MemblockOps MemblockSpec MemblockIter MemblockFind MemblockRelease.
From S2P Require Import Buddy BuddyInv BuddyPcp BuddyUse Boot.
From S2P Require Import Numa NumaSpec ZoneInit ZoneInitSpec.
From stdpp Require Import base list numbers option functions.
#[local] Open Scope Z_scope.
#[local] Open Scope kernel_scope.

(** ** Valid frames *)

(** The page starts in mapped memory. *)
Definition mapped_page (s : memblock) (q : Z) : Prop :=
  exists fl nid, attr_at (regions (memory s)) (q * PAGE_SIZE) = Some (fl, nid) /\ Z.land fl MEMBLOCK_NOMAP = 0.

Lemma map_memory_spec s a : mb_wf s ->
  exists b, memblock_is_map_memory s a = Ret b
    /\ (b = true <-> exists fl nid, attr_at (regions (memory s)) a = Some (fl, nid) /\ Z.land fl MEMBLOCK_NOMAP = 0).
Proof.
  intros Hwf. pose proof (wf_sorted _ (wf_memory _ Hwf)) as Hs. unfold memblock_is_map_memory.
  destruct (memblock_search_spec (memory s) a (wf_memory _ Hwf)) as (z & -> & Hz).
  { destruct (wf_counts _ Hwf) as [? ?]. lia. }
  cbn [obind]. destruct Hz as [[-> Hno]|(i & -> & Hi & Hc)].
  - exists false. split; [done|]. split; [done|]. intros (fl & nid & E & _). congruence.
  - destruct (Z.eqb_spec (Z.of_nat i) (-1)); [lia|]. rewrite region_at_ent. eexists. split; [done|].
    assert (E : attr_at (regions (memory s)) a = Some (r_flags (ent (regions (memory s)) i), r_nid (ent (regions (memory s)) i))).
    { apply (attr_at_region 0 _ _ _ Hs). apply List.Exists_exists. exists (ent (regions (memory s)) i).
      split; [by apply nth_In|done]. }
    rewrite E. unfold memblock_is_nomap. rewrite negb_involutive, Z.eqb_eq. split.
    + intros Hn. eauto.
    + by intros (fl & nid & [= <- <-] & Hn).
Qed.

Lemma pfn_valid_spec s q : mb_wf s -> below_limit s ->
  exists b, arm64_pfn_valid s q = Ret b /\ (b = true <-> mapped_page s q).
Proof.
  intros Hwf Hlim. unfold arm64_pfn_valid, mapped_page.
  assert (Hr : forall fl nid, attr_at (regions (memory s)) (q * PAGE_SIZE) = Some (fl, nid) -> 0 <= q < 2 ^ 40).
  { intros fl nid E. assert (Hs : is_Some (attr_at (regions (memory s)) (q * PAGE_SIZE))) by eauto.
    pose proof (Hlim _ Hs) as Hlt. unfold PHYS_LIMIT, PAGE_SIZE, PAGE_SHIFT in *.
    destruct (Z.lt_ge_cases (q * 2 ^ 12) 0) as [Hneg|]; [|lia].
    rewrite (attr_at_below 0) in E by (done || apply (wf_sorted _ (wf_memory _ Hwf))). done. }
  rewrite Z.shiftl_mul_pow2, Z.shiftr_div_pow2 by (unfold PAGE_SHIFT; lia). fold PAGE_SIZE.
  destruct (Z.eqb_spec (u64 (q * PAGE_SIZE) / PAGE_SIZE) q) as [E|E]; cbn [negb].
  - pose proof (u64_range (q * PAGE_SIZE)) as Hu. assert (Hq : 0 <= q < 2 ^ 52).
    { rewrite <- E. unfold PAGE_SIZE, PAGE_SHIFT in *. uunfold. Z.to_euclidean_division_equations. lia. }
    rewrite u64_id by (unfold PAGE_SIZE, PAGE_SHIFT in *; ulia). by apply map_memory_spec.
  - exists false. split; [done|]. split; [done|]. intros (fl & nid & Ha & _). exfalso. apply E.
    specialize (Hr _ _ Ha). rewrite u64_id by (unfold PAGE_SIZE, PAGE_SHIFT; ulia). by apply Z.div_mul.
Qed.

(** ** The state before the hand-over *)

(** The machine: page-aligned memory on online nodes whose spans are disjoint
    and do not share a block of the largest order. *)
Record machine_ok (s : memblock) (tp : topology) : Prop := {
  mk_wf : mb_wf s;
  mk_limit : below_limit s;
  mk_topo : topo_wf tp;
  mk_aligned : forall r, r ∈ regions (memory s) -> (PAGE_SIZE | r_base r) /\ (PAGE_SIZE | r_size r);
  mk_online : forall r, r ∈ regions (memory s) -> 0 < r_size r -> r_nid r ∈ online tp;
  mk_spans : forall n1 n2 q, n1 ∈ online tp -> n2 ∈ online tp ->
     node_lo s n1 <= q < node_hi s n1 -> node_lo s n2 <= q < node_hi s n2 -> n1 = n2;
  mk_blocks : forall n1 n2 p q, n1 ∈ online tp -> n2 ∈ online tp -> node_page s n1 p -> node_page s n2 q ->
     p / 2 ^ (MAX_ORDER - 1) = q / 2 ^ (MAX_ORDER - 1) -> n1 = n2
}.

(** The kernel's data before bootmem_init(): no zone is initialised, the boot
    pagesets are zero, and pfn_valid() is the architecture's. *)
Record pristine (s : memblock) (k : kstate) : Prop := {
  ps_zones : forall z, z_initialized (zones (k_mm k) z) = false;
  ps_refs : forall z, zone_pageset (k_hdr k z) <> PercpuPageset;
  ps_boot : forall c, boot_pageset k c = pageset_init;
  ps_valid : forall q, arm64_pfn_valid s q = Ret (pfn_valid (k_mm k) q)
}.

Section Ready.
Context (s : memblock) (tp : topology) (Hm : machine_ok s tp).

Lemma valid_node_page q : mapped_page s q -> exists nid, nid ∈ online tp /\ node_page s nid q.
Proof.
  destruct Hm as [Hwf Hlim _ Hal Hon _ _]. intros (fl & nid & Ha & _).
  pose proof (wf_sorted _ (wf_memory _ Hwf)) as Hs. pose proof (map_ok_of s Hwf Hlim) as [_ Hlow].
  apply (attr_at_region 0 _ _ _ Hs) in Ha. apply List.Exists_exists in Ha as (r & Hr & Hc & [= <- <-]).
  apply list_elem_of_In in Hr. unfold contains in Hc. apply andb_true_iff in Hc as [H1%Z.leb_le H2%Z.ltb_lt].
  exists (r_nid r). split; [apply Hon; [done|lia]|]. apply node_page_elem. exists r. split; [done|].
  destruct (Hal r Hr) as [[b Hb] [z Hz]]. apply list_elem_of_lookup_1 in Hr as (i & Hi).
  pose proof (regions_from_ent 0 _ i Hs (lookup_lt_Some _ _ _ Hi)) as (? & ? & ?).
  pose proof (ent_end _ i Hs (lookup_lt_Some _ _ _ Hi)) as He. pose proof (Forall_lookup_1 _ _ _ _ Hlow Hi) as Hl.
  unfold ent in *. rewrite (nth_lookup_Some _ _ _ _ Hi) in *. unfold low_region, PHYS_LIMIT in Hl.
  assert (Eu : PFN_UP (r_base r) = b /\ PFN_DOWN (region_end r) = b + z).
  { unfold PFN_UP, PFN_DOWN. rewrite He, !Z.shiftr_div_pow2 by (unfold PAGE_SHIFT; lia).
    rewrite u64_id by (unfold PAGE_SIZE, PAGE_SHIFT in *; ulia). fold PAGE_SIZE.
    unfold PAGE_SIZE, PAGE_SHIFT in *. Z.to_euclidean_division_equations. lia. }
  destruct Eu as [Eu Ed]. unfold reported. rewrite Eu, Ed. unfold PAGE_SIZE, PAGE_SHIFT in *. split; [split; [lia|by right]|lia].
Qed.

Lemma node_page_span nid q : node_page s nid q -> node_lo s nid <= q < node_hi s nid.
Proof.
  intros Hq. destruct (node_span_spec s nid (map_ok_of s (mk_wf _ _ Hm) (mk_limit _ _ Hm))) as [_ Hx].
  by apply (ex_in _ _ _ Hx).
Qed.

Lemma node_page_unique n1 n2 q : n1 ∈ online tp -> n2 ∈ online tp -> node_page s n1 q -> node_page s n2 q -> n1 = n2.
Proof. intros H1 H2 P1 P2. apply (mk_spans _ _ Hm n1 n2 q); try done; by apply node_page_span. Qed.

Context (k0 k1 k : kstate) (Hp : pristine s k0).
Context (Hz1 : zones (k_mm k1) = zones (k_mm k0)) (Hv1 : pfn_valid (k_mm k1) = pfn_valid (k_mm k0)).
Context (Hh1 : k_hdr k1 = k_hdr k0) (Hb1 : boot_pageset k1 = boot_pageset k0).
Context (Hn : nodes_inited k1 k s (online tp)).

Lemma ready_valid q : pfn_valid (k_mm k) q = true <-> mapped_page s q.
Proof.
  rewrite (nd_valid _ _ _ _ Hn), Hv1. destruct (pfn_valid_spec s q (mk_wf _ _ Hm) (mk_limit _ _ Hm)) as (b & E & Hb).
  rewrite (ps_valid _ _ Hp) in E. by injection E as ->.
Qed.

(** The struct page of every frame of memory. *)
Lemma ready_page nid q : nid ∈ online tp -> node_page s nid q ->
  page_at (k_mm k) q = mk_page 0 nid ZONE_NORMAL MAPCOUNT_NONE 1 0 0 None 0 0.
Proof.
  intros Hnid Hq. rewrite (nd_page _ _ _ _ Hn nid q Hnid); [|by apply node_page_span|].
  - unfold __init_single_page, set_page_links. cbn. f_equal. pose proof (online_ok _ _ Hnid) as Hok. unfold node_ok, MAX_NUMNODES in Hok.
    change NODES_MASK with (Z.ones 3). rewrite Z.land_ones, Z.mod_small by lia. done.
  - intros n Hn' Hs. apply (mk_spans _ _ Hm n nid q); try done. by apply node_page_span.
Qed.

Lemma ready_init z : z_initialized (zones (k_mm k) z) = true <->
  fst z ∈ online tp /\ snd z = ZONE_NORMAL /\ node_lo s (fst z) < node_hi s (fst z).
Proof.
  split.
  - intros Hi. destruct (nd_init _ _ _ _ Hn z Hi) as [Hi'|?]; [|done]. by rewrite Hz1, (ps_zones _ _ Hp) in Hi'.
  - intros (H1 & H2 & H3). destruct z as [n i]. cbn in *. subst i. by apply (nd_zone _ _ _ _ Hn n H1 H3).
Qed.

Lemma ready_area z o : z_initialized (zones (k_mm k) z) = true -> 0 <= o < MAX_ORDER ->
  z_area (zones (k_mm k) z) o = mk_area [] 0.
Proof.
  intros (H1 & H2 & H3)%ready_init Ho. destruct z as [n i]. cbn in *. subst i. by apply (nd_zone _ _ _ _ Hn n H1 H3).
Qed.

Lemma ready_page_zone q : mapped_page s q -> exists nid, nid ∈ online tp /\ node_page s nid q
  /\ page_at (k_mm k) q = mk_page 0 nid ZONE_NORMAL MAPCOUNT_NONE 1 0 0 None 0 0
  /\ z_initialized (zones (k_mm k) (nid, ZONE_NORMAL)) = true.
Proof.
  intros (nid & Hnid & Hq)%valid_node_page. exists nid. split_and!; try done; [by apply ready_page|].
  apply ready_init. split_and!; try done. cbn. pose proof (node_page_span nid q Hq). lia.
Qed.

(** With the boot pagesets set up. *)
Context (cpus : list Z) (cpu : Z) (Hcpu : cpu ∈ cpus).
Let b := fold_left (fun b c => <[c := setup_pageset 0]> b) cpus (boot_pageset k).
Let m := view (set_boot b k).

Lemma boot_fold_in c l : forall (f : Z -> per_cpu_pages), c ∈ l ->
  fold_left (fun b c => <[c := setup_pageset 0]> b) l f c = setup_pageset 0.
Proof.
  induction l as [|x l IH]; intros f Hc; [by apply not_elem_of_nil in Hc|]. cbn [fold_left].
  destruct (decide (c ∈ l)); [by apply IH|]. apply elem_of_cons in Hc as [->|?]; [|done].
  enough (E : forall g : Z -> per_cpu_pages, fold_left (fun b c => <[c := setup_pageset 0]> b) l g x = g x)
    by (rewrite E; by rewrite fn_lookup_insert).
  clear IH. induction l as [|y l IH]; intros g; cbn [fold_left]; [done|]. apply not_elem_of_cons in n as [? ?].
  rewrite IH by done. by rewrite fn_lookup_insert_ne.
Qed.

Lemma boot_empty c : pcp_count (b c) = 0 /\ pcp_lists (b c) = [].
Proof.
  assert (E : forall l (f : Z -> per_cpu_pages), (forall c, pcp_count (f c) = 0 /\ pcp_lists (f c) = []) ->
    forall c, pcp_count (fold_left (fun b c => <[c := setup_pageset 0]> b) l f c) = 0
      /\ pcp_lists (fold_left (fun b c => <[c := setup_pageset 0]> b) l f c) = []).
  { induction l as [|x l IH]; intros f Hf; cbn [fold_left]; [done|]. apply IH. intros c'.
    destruct (decide (c' = x)) as [->|]; [by rewrite fn_lookup_insert|by rewrite fn_lookup_insert_ne]. }
  apply E. intros c'. by rewrite (nd_boot _ _ _ _ Hn), Hb1, (ps_boot _ _ Hp).
Qed.

Lemma ready_pcp z c : pcp_of m z c = b c.
Proof.
  unfold pcp_of, m, view. cbn. assert (H : zone_pageset (k_hdr k z) <> PercpuPageset).
  { apply (nd_ps _ _ _ _ Hn). rewrite Hh1. apply Hp. }
  by destruct (zone_pageset (k_hdr k z)).
Qed.

Lemma ready_no_pcp z c q : ~ on_pcp m z c q.
Proof. unfold on_pcp. rewrite ready_pcp. destruct (boot_empty c) as [_ ->]. apply not_elem_of_nil. Qed.

Lemma ready_no_blk z p o : z_initialized (zones m z) = true -> ~ blk m z p o.
Proof. intros Hi [Ho Hq]. unfold area in Hq. cbn in Hi, Hq. rewrite ready_area in Hq by done. by apply not_elem_of_nil in Hq. Qed.

Lemma ready_zone_wf z : z_initialized (zones m z) = true -> zone_wf m z.
Proof.
  intros Hi. pose proof Hi as Hi'. cbn in Hi'. split; try done.
  - intros o Ho. unfold area. cbn. rewrite ready_area by done. constructor.
  - intros o Ho. unfold area. cbn. by rewrite ready_area by done.
  - intros p o Hb. by apply ready_no_blk in Hb.
  - intros p o Hb. by apply ready_no_blk in Hb.
  - intros p o q Hb. by apply ready_no_blk in Hb.
  - intros p Hv _ Hbud. exfalso. cbn in Hv. apply ready_valid, ready_page_zone in Hv as (nid & _ & _ & E & _).
    change (page_at m p) with (page_at (k_mm k) p) in Hbud. by rewrite E in Hbud.
  - intros p o q o' x Hb. by apply ready_no_blk in Hb.
  - intros p o Hb. by apply ready_no_blk in Hb.
Qed.

Lemma ready_same_node p q : pfn_valid m p = true -> pfn_valid m q = true ->
  p / 2 ^ (MAX_ORDER - 1) = q / 2 ^ (MAX_ORDER - 1) -> page_zone (page_at m p) = page_zone (page_at m q).
Proof.
  intros (n1 & H1 & P1 & E1 & _)%ready_valid%ready_page_zone (n2 & H2 & P2 & E2 & _)%ready_valid%ready_page_zone Hd.
  change (page_at m) with (page_at (k_mm k)). rewrite E1, E2. unfold page_zone. cbn.
  by rewrite (mk_blocks _ _ Hm n1 n2 p q H1 H2 P1 P2 Hd).
Qed.

Lemma ready_mm_ok : mm_ok cpu m.
Proof.
  split; [split; split| |].
  - apply ready_zone_wf.
  - intros q Hv. cbn in Hv. apply ready_valid, ready_page_zone in Hv as (nid & _ & _ & E & Hi).
    change (page_at m q) with (page_at (k_mm k) q). rewrite E. exact Hi.
  - intros p q Hp' Hq Hd _. pose proof (ready_same_node p q Hp' Hq Hd) as E. unfold page_zone in E. congruence.
  - intros z c q Hq. by apply ready_no_pcp in Hq.
  - intros z c. rewrite ready_pcp. destruct (boot_empty c) as [_ ->]. constructor.
  - intros z c z' c' q Hq. by apply ready_no_pcp in Hq.
  - intros z c. rewrite ready_pcp. by destruct (boot_empty c) as [-> ->].
  - intros z. rewrite ready_pcp. unfold b. rewrite boot_fold_in by done.
    change (setup_pageset 0) with (mk_pcp 0 0 1 []). cbn. lia.
Qed.

Lemma ready_none : none_avail m.
Proof.
  intros z q Hi [(p & o & Hb & _)|(c & Hq)]; [by apply ready_no_blk in Hb|by apply ready_no_pcp in Hq].
Qed.

Lemma ready_boot : boot_ready s m.
Proof.
  split; [|exact ready_same_node]. intros q Hq.
  assert (Hmp : mapped_page s q).
  { destruct (Hq (q * PAGE_SIZE)) as [(fl & nid & Ha & Hf) _]; [unfold PAGE_SIZE, PAGE_SHIFT; lia|]. by exists fl, nid. }
  split; [by apply ready_valid|]. destruct (ready_page_zone q Hmp) as (nid & _ & _ & E & Hi).
  change (page_at m q) with (page_at (k_mm k) q). rewrite E. by split.
Qed.
End Ready.

(** ** Booting *)

(** The calls of start_kernel() that set up memory, on the boot CPU. *)
Definition boot_memory (kernel_end : Z) (s : memblock) (tp : topology) (cpus : list Z) (cpu : Z)
    (k : kstate) (zl : Z -> node_zonelists) : outcome (kstate * (Z -> node_zonelists) * memblock * mm) :=
  let! k1 := bootmem_init s tp k in
  let! (k2, zl1) := build_all_zonelists tp cpus k1 zl in
  let! (s1, evs, _) := memblock_free_all kernel_end false s in
  let! m := run_boot cpu (view k2) evs in
  Ret (k2, zl1, s1, m).

(** Where the memory entries are made of pages, so is memory of one kind. *)
Lemma aligned_uniform s q : mb_wf s -> (forall r, r ∈ regions (memory s) -> (PAGE_SIZE | r_base r) /\ (PAGE_SIZE | r_size r)) ->
  usable_page s q -> uniform_page s q.
Proof.
  intros Hwf Hal Hu. pose proof (wf_sorted _ (wf_memory _ Hwf)) as HA. assert (HP : PAGE_SIZE = 4096) by reflexivity. destruct (Hu (q * PAGE_SIZE)) as [(fl & nid & E & _) _]; [lia|].
  assert (Hs : is_Some (attr_at (regions (memory s)) (q * PAGE_SIZE))) by eauto. apply attr_at_ent in Hs as (i & Hi & Hc).
  destruct (Hal (ent (regions (memory s)) i)) as [[b Hb] [n Hn]]; [apply list_elem_of_In; by apply nth_In|].
  unfold contains in Hc. apply andb_true_iff in Hc as [H1%Z.leb_le H2%Z.ltb_lt].
  exists (Z.land (r_flags (ent (regions (memory s)) i)) (Z.lnot MEMBLOCK_HOTPLUG)), (r_nid (ent (regions (memory s)) i)). intros a Ha.
  exists (r_flags (ent (regions (memory s)) i)). split; [|done]. apply entry_at; [done| |done]. unfold contains. rewrite Hb, Hn, HP in *. bdestr; done || lia.
Qed.


(** ** A machine with two nodes *)

Module TwoNodes.
Definition banks : list memblock_region := [mk_region 0x1000 0x1ff000 0 0; mk_region 0x400000 0x400000 0 1].
Definition held : list memblock_region := [mk_region 0x8000 0x1800 0 MAX_NUMNODES; mk_region 0x1ff000 0x3000 0 MAX_NUMNODES].
Definition plank : memblock :=
  mk_memblock false 0x800000 (mk_type 128 0x5ff000 banks None) (mk_type 128 0x4800 held None) false false.
Definition pair : topology := mk_topology [3] 2 no_distances (fun n => n =? 0).

Definition blank_zone : zone := mk_zone (fun _ => mk_area [] 0) (fun _ => pageset_init) false 0.
Definition blank : kstate :=
  mk_kstate
    (mk_mm (fun _ => mm_zero_struct_page)
       (fun q => match arm64_pfn_valid plank q with Ret b => b | _ => false end) (fun _ => blank_zone))
    (fun _ => mk_hdr 0 0 0 NoPageset) (fun _ => mk_pgdat 0 0 0) (fun _ => pageset_init) (fun _ => 0) (fun _ => 0).

Lemma plank_wf : mb_wf plank.
Proof.
  split; [split|split|split]; cbn; unfold PHYS_ADDR_MAX, U64_MOD; split_and?; try done; try lia.
  all: left; repeat constructor.
Qed.

Lemma plank_at a : is_Some (attr_at banks a) -> 0x1000 <= a < 0x800000.
Proof.
  intros (i & Hi & Hc)%attr_at_ent. cbn in Hi. unfold contains, ent in Hc.
  assert (i = 0 \/ i = 1)%nat as [-> | ->] by lia; cbn in Hc; apply andb_true_iff in Hc as [?%Z.leb_le ?%Z.ltb_lt]; lia.
Qed.

Lemma plank_below : below_limit plank.
Proof. intros a Ha. apply plank_at in Ha. unfold PHYS_LIMIT. lia. Qed.

Lemma pair_wf : topo_wf pair.
Proof. split; [by exists 3|reflexivity|]. split; [by vm_compute|done|done]. Qed.

Lemma pair_online n : n ∈ online pair -> n = 0 \/ n = 1.
Proof.
  change (online pair) with [0; 1]. intros [->|H]%elem_of_cons; [by left|]. apply list_elem_of_singleton in H. by right.
Qed.

Lemma plank_page0 q : node_page plank 0 q -> 1 <= q < 512.
Proof. intros (x & Hx & Hq)%in_pfns_elem. vm_compute in Hx. apply list_elem_of_singleton in Hx. subst x. exact Hq. Qed.
Lemma plank_page1 q : node_page plank 1 q -> 1024 <= q < 2048.
Proof. intros (x & Hx & Hq)%in_pfns_elem. vm_compute in Hx. apply list_elem_of_singleton in Hx. subst x. exact Hq. Qed.

Lemma plank_spans : node_span plank 0 = (1, 512) /\ node_span plank 1 = (1024, 2048).
Proof. split; vm_compute; reflexivity. Qed.

Lemma plank_machine : machine_ok plank pair.
Proof.
  split; [exact plank_wf|exact plank_below|exact pair_wf|..].
  - intros r Hr. cbn in Hr. apply elem_of_cons in Hr as [->|Hr]; [split; [by exists 1|by exists 511]|].
    apply list_elem_of_singleton in Hr as ->. split; [by exists 1024|by exists 1024].
  - intros r Hr _. change (online pair) with [0; 1]. cbn in Hr. apply elem_of_cons in Hr as [->|Hr]; [by left|].
    apply list_elem_of_singleton in Hr as ->. right. by left.
  - intros n1 n2 q [->| ->]%pair_online [->| ->]%pair_online; unfold node_lo, node_hi; destruct plank_spans as [E0 E1]; rewrite ?E0, ?E1; cbn; lia.
  - intros n1 n2 p q [->| ->]%pair_online [->| ->]%pair_online H1 H2 Hd; try done; exfalso;
      change (2 ^ (MAX_ORDER - 1)) with 1024 in Hd.
    + apply plank_page0 in H1. apply plank_page1 in H2. Z.to_euclidean_division_equations. lia.
    + apply plank_page1 in H1. apply plank_page0 in H2. Z.to_euclidean_division_equations. lia.
Qed.

Lemma blank_pristine : pristine plank blank.
Proof.
  split; try done. intros q. destruct (pfn_valid_spec plank q plank_wf plank_below) as (b & E & _). cbn. by rewrite E.
Qed.

Lemma plank_zero : ~ usable plank 0.
Proof. intros [(fl & nid & Hat & _) _]. vm_compute in Hat. discriminate. Qed.
End TwoNodes.
Import TwoNodes.

