(* ===== verification/InitProps.v ===== *)
(** * Setting up zones and pagesets: theorems *)

From S2P Require Import Prelude Bitops Memblock MemblockOps MemblockSpec MemblockIter MemblockRelease.
From S2P Require Import Buddy Numa NumaSpec ZoneInit ZoneInitSpec BootMem.
From stdpp Require Import base list numbers option functions.
#[local] Open Scope Z_scope.
#[local] Open Scope kernel_scope.
Import TwoNodes.

(** Sizing the zones of a node, for any zone limits: every zone gets the
    part of the node's span inside its limits, and its number of present pages
    is exactly the number of whole page frames of the node's memory in that
    part (no subtraction wraps); the node's totals are the sums over its zones. *)
Theorem node_totalpages_correct (k : kstate) (s : memblock) (nid : Z) :
  map_ok s -> bounds_ok k ->
  exists a b k', get_pfn_range_for_nid s nid = Ret (a, b) /\ extent (node_ranges s nid) a b
    /\ calculate_node_totalpages k s nid a b = Ret k'
    /\ (forall i, 0 <= i < MAX_NR_ZONES -> let h := k_hdr k' (nid, i) in
          spanned_pages h = zone_size k i a b
          /\ (spanned_pages h <> 0 -> zone_start_pfn h = zone_from k i a)
          /\ present_pages h = count_pages (node_page s nid) (zone_start_pfn h) (Z.to_nat (spanned_pages h)))
    /\ (let h i := k_hdr k' (nid, i) in
        node_spanned_pages (k_node k' nid) = spanned_pages (h 0) + spanned_pages (h 1) + spanned_pages (h 2)
        /\ node_present_pages (k_node k' nid) = present_pages (h 0) + present_pages (h 1) + present_pages (h 2))
    /\ k_mm k' = k_mm k.
Proof.
  intros Hs Hk. destruct (node_extent s nid Hs) as (a & b & Hr & Hx). exists a, b.
  destruct (totalpages_spec k s nid a b Hs Hk (ex_low _ _ _ Hx) (ex_high _ _ _ Hx)) as (k' & Hrun & Hsb & Hh & _ & _ & Hn).
  exists k'. split; [done|]. split; [done|]. split; [done|]. split; [|split; [|apply Hsb]].
  - intros i Hi. cbn zeta. rewrite (Hh i Hi). cbn. split_and!; try done. intros Hne.
    by destruct (Z.eqb_spec (zone_size k i a b) 0).
  - cbn beta zeta. rewrite !Hh by (unfold MAX_NR_ZONES; lia). by rewrite Hn.
Qed.

(** Zone limits that put the frames below 300 in the first zone. *)
Definition split_limits : kstate :=
  mk_kstate (k_mm blank) (k_hdr blank) (k_node blank) (boot_pageset blank)
    (fun i => if i =? 0 then 1 else if i =? 1 then 300 else 0)
    (fun i => if i =? 0 then 300 else if i =? 1 then 2048 else 0).

Lemma split_limits_ok : bounds_ok split_limits.
Proof. intros i. cbn. destruct (i =? 0), (i =? 1); lia. Qed.

Lemma node_totalpages_correct_witness :
  exists a b k', get_pfn_range_for_nid plank 0 = Ret (a, b) /\ extent (node_ranges plank 0) a b
    /\ calculate_node_totalpages split_limits plank 0 a b = Ret k'
    /\ (forall i, 0 <= i < MAX_NR_ZONES -> let h := k_hdr k' (0, i) in
          spanned_pages h = zone_size split_limits i a b
          /\ (spanned_pages h <> 0 -> zone_start_pfn h = zone_from split_limits i a)
          /\ present_pages h = count_pages (node_page plank 0) (zone_start_pfn h) (Z.to_nat (spanned_pages h)))
    /\ (let h i := k_hdr k' (0, i) in
        node_spanned_pages (k_node k' 0) = spanned_pages (h 0) + spanned_pages (h 1) + spanned_pages (h 2)
        /\ node_present_pages (k_node k' 0) = present_pages (h 0) + present_pages (h 1) + present_pages (h 2))
    /\ k_mm k' = k_mm split_limits.
Proof.
  apply (node_totalpages_correct split_limits plank 0);
    [exact (map_ok_of plank plank_wf plank_below)|exact split_limits_ok].
Defined.

(** After bootmem_init() the zone of every node with memory spans exactly
    from its first to its last memory page, counts the node's pages as present
    and managed, has empty free lists, and every one of the node's pages has a
    struct page that names the node and the zone, with one reference, no flag
    and no mapping. *)
Theorem bootmem_init_correct (s : memblock) (tp : topology) (k : kstate) :
  machine_ok s tp -> pristine s k ->
  exists k', bootmem_init s tp k = Ret k'
    /\ forall nid q0, nid ∈ online tp -> node_page s nid q0 ->
         let h := k_hdr k' (nid, ZONE_NORMAL) in
         let lo := zone_start_pfn h in let hi := lo + spanned_pages h in
         (forall q, node_page s nid q -> lo <= q < hi) /\ node_page s nid lo /\ node_page s nid (hi - 1)
         /\ present_pages h = count_pages (node_page s nid) lo (Z.to_nat (spanned_pages h))
         /\ empty_zone (zones (k_mm k') (nid, ZONE_NORMAL)) (present_pages h)
         /\ (forall q, node_page s nid q ->
               page_at (k_mm k') q = mk_page 0 nid ZONE_NORMAL MAPCOUNT_NONE 1 0 0 None 0 0).
Proof.
  intros Hm Hp. pose proof Hm as [Hwf Hlim Htp _ _ _ _].
  destruct (bootmem_init_spec s tp k Hwf Hlim (tw_mask _ Htp)) as (k1 & k2 & -> & Hn & Hz1 & Hv1 & Hh1 & Hb1).
  exists k2. split; [done|]. intros nid q0 Hnid Hq0. pose proof (node_page_span s tp Hm nid q0 Hq0) as Hsp.
  destruct (nd_hdr _ _ _ _ Hn nid Hnid) as (Hs & Hst & Hpr). cbn zeta. rewrite Hs, Hpr, (Hst ltac:(lia)).
  replace (node_lo s nid + (node_hi s nid - node_lo s nid)) with (node_hi s nid) by lia.
  destruct (node_span_spec s nid (map_ok_of s Hwf Hlim)) as [_ [_ _ Hin Hends _]].
  assert (Hne : node_ranges s nid <> []) by (intros E; unfold node_page in Hq0; rewrite E in Hq0; inversion Hq0).
  split_and!; try done; try apply Hends; try done.
  - apply (nd_zone _ _ _ _ Hn nid Hnid). lia.
  - intros q. by apply (ready_page s tp Hm k1 k2 Hn).
Qed.

Lemma bootmem_init_correct_witness :
  exists k', bootmem_init plank pair blank = Ret k'
    /\ forall nid q0, nid ∈ online pair -> node_page plank nid q0 ->
         let h := k_hdr k' (nid, ZONE_NORMAL) in
         let lo := zone_start_pfn h in let hi := lo + spanned_pages h in
         (forall q, node_page plank nid q -> lo <= q < hi) /\ node_page plank nid lo /\ node_page plank nid (hi - 1)
         /\ present_pages h = count_pages (node_page plank nid) lo (Z.to_nat (spanned_pages h))
         /\ empty_zone (zones (k_mm k') (nid, ZONE_NORMAL)) (present_pages h)
         /\ (forall q, node_page plank nid q ->
               page_at (k_mm k') q = mk_page 0 nid ZONE_NORMAL MAPCOUNT_NONE 1 0 0 None 0 0).
Proof. apply (bootmem_init_correct plank pair blank); [exact plank_machine|exact blank_pristine]. Defined.

(** Two nodes whose banks alternate: 0, 1, 0, 1.  Frame 1400 is memory of
    node 0, but the span of node 1 contains it and node 1 is initialised last:
    its struct page names node 1. *)
Definition alternating : memblock :=
  mk_memblock false 0x1000000
    (mk_type 128 0x400000 [mk_region 0x1000 0x100000 0 0; mk_region 0x400000 0x100000 0 1;
                           mk_region 0x500000 0x100000 0 0; mk_region 0x800000 0x100000 0 1] None)
    (mk_type 128 0 [mk_region 0 0 0 0] None) false false.

Example interleaved_nodes :
  memblock_search_pfn_nid alternating 1400 = Ret (Some (1280, 1536, 0))
  /\ match bootmem_init alternating pair blank with
     | Ret k => pg_node (page_at (k_mm k) 1400) = 1
     | _ => False
     end.
Proof. split; vm_compute; reflexivity. Qed.

(** ** Pagesets *)

Lemma rounddown_spec n : 0 < n < 2 ^ 63 ->
  rounddown_pow_of_two n = 2 ^ Z.log2 n /\ 2 ^ Z.log2 n <= n < 2 * 2 ^ Z.log2 n.
Proof.
  intros Hn. unfold rounddown_pow_of_two, fls_long, fls64, __fls. destruct (Z.eqb_spec n 0); [lia|].
  replace (Z.log2 n + 1 - 1) with (Z.log2 n) by lia. pose proof (Z.log2_spec n ltac:(lia)) as [H1 H2].
  rewrite Z.pow_succ_r in H2 by apply Z.log2_nonneg. rewrite Z.shiftl_1_l, u64_id by ulia. lia.
Qed.

(** The batch is one less than a power of two and at most 63. *)
Lemma zone_batchsize_spec zn : 0 <= z_managed zn < 2 ^ 41 ->
  exists j, 0 <= j <= 6 /\ zone_batchsize zn = 2 ^ j - 1.
Proof.
  intros Hm. unfold zone_batchsize. rewrite (u64_id (z_managed zn)) by ulia.
  set (q := z_managed zn / 1024). assert (Hq : 0 <= q < 2 ^ 31) by (unfold q; Z.to_euclidean_division_equations; lia).
  rewrite (s32_id q) by lia. unfold PAGE_SIZE, PAGE_SHIFT. rewrite (u64_id (q * 2 ^ 12)) by ulia. rewrite Z.gtb_ltb.
  set (b1 := if _ <? _ then _ else q).
  assert (H1 : 0 <= b1 <= 256).
  { unfold b1. destruct (Z.ltb_spec (1024 * 1024) (q * 2 ^ 12)); [|lia].
    change (1024 * 1024 / 2 ^ 12) with 256. lia. }
  set (b3 := if Z.quot b1 4 <? 1 then 1 else Z.quot b1 4).
  assert (H3 : 1 <= b3 <= 64).
  { unfold b3. destruct (Z.ltb_spec (Z.quot b1 4) 1); [lia|]. Z.to_euclidean_division_equations. lia. }
  assert (H4 : 1 <= b3 + Z.quot b3 2 <= 96) by (Z.to_euclidean_division_equations; lia).
  set (n := b3 + Z.quot b3 2) in *. destruct (rounddown_spec n ltac:(lia)) as [-> _].
  assert (Hl : Z.log2 n <= 6) by (transitivity (Z.log2 96); [apply Z.log2_le_mono; lia|by vm_compute]).
  pose proof (Z.log2_nonneg n). assert (1 <= 2 ^ Z.log2 n <= 2 ^ 6).
  { split; [pose proof (Z.pow_pos_nonneg 2 (Z.log2 n)); lia|]. apply Z.pow_le_mono_r; lia. }
  exists (Z.log2 n). split; [lia|]. apply s32_id. lia.
Qed.

(** The limits a CPU's list gets for a zone. *)
Definition limits_ok (p : per_cpu_pages) : Prop :=
  exists j, 0 <= j <= 6 /\ p = mk_pcp 0 (6 * (2 ^ j - 1)) (Z.max 1 (2 ^ j - 1)) [].

Lemma set_high_and_batch_spec zn : 0 <= z_managed zn < 2 ^ 41 ->
  limits_ok (pageset_set_high_and_batch zn pageset_init).
Proof.
  intros Hm. destruct (zone_batchsize_spec zn Hm) as (j & Hj & E). exists j. split; [done|].
  assert (1 <= 2 ^ j <= 2 ^ 6).
  { split; [pose proof (Z.pow_pos_nonneg 2 j); lia|]. apply Z.pow_le_mono_r; lia. }
  unfold pageset_set_high_and_batch, pageset_set_batch, pageset_update, pageset_init.
  cbn [pcp_count pcp_high pcp_batch pcp_lists]. rewrite E, (u64_id (2 ^ j - 1)) by ulia.
  rewrite (u64_id (6 * (2 ^ j - 1))), (u64_id (1 * (2 ^ j - 1))), !s32_id by ulia. f_equal. lia.
Qed.

(** All zones of a list of nodes, in the order of for_each_zone(). *)
Definition zones_of (nodes : list Z) : list zid := concat (map (fun n => [(n, 0); (n, 1); (n, 2)]) nodes).

Definition is_populated (k : kstate) (z : zid) : Prop := populated_zone k z = true.
#[export] Instance is_populated_dec k z : Decision (is_populated k z).
Proof. unfold is_populated. apply _. Defined.

Lemma populated_cons k z l :
  filter (is_populated k) (z :: l) = if populated_zone k z then z :: filter (is_populated k) l else filter (is_populated k) l.
Proof.
  rewrite filter_cons. case_decide as E; unfold is_populated in E.
  - by rewrite E.
  - by destruct (populated_zone k z).
Qed.

(** The zone after the last one of a node is the first of the next online node. *)
Lemma next_zone_last tp nid : mask_wf (node_online_mask tp) -> node_ok nid ->
  let m := node_online_mask tp in
  (next_zone tp (nid, 2) = Ret None /\ nodes_from m (nid + 1) = [])
  \/ exists r, next_zone tp (nid, 2) = Ret (Some (r, 0)) /\ node_ok r /\ bit m r = true
       /\ nodes_from m (nid + 1) = nodes_from m r.
Proof.
  intros Hm Hn m. unfold next_zone. change (2 <? MAX_NR_ZONES - 1) with false. cbn iota. unfold nodemask_next. fold m.
  destruct (find_next_bit_spec m MAX_NUMNODES (nid + 1)) as (r & -> & Hr);
    [by apply mask_wf_bm|unfold node_ok in Hn; lia|]. cbn [obind].
  destruct (nodes_from_first m (nid + 1) r) as [Hge E]; [unfold node_ok in Hn; lia|done|].
  destruct (Z.eqb_spec r MAX_NUMNODES) as [->|Hne]; [left|right].
  - split; [done|]. rewrite E. unfold nodes_from. by rewrite seqZ_nil by lia.
  - pose proof (ff_le _ _ _ _ Hr). destruct (ff_found _ _ _ _ Hr ltac:(lia)) as [_ Hb].
    exists r. split_and!; try done; unfold node_ok in *; lia.
Qed.

Lemma populated_loop_spec tp k : mask_wf (node_online_mask tp) -> forall n nid fuel,
  node_ok nid -> bit (node_online_mask tp) nid = true -> length (nodes_from (node_online_mask tp) nid) = n -> (3 * n <= fuel)%nat ->
  populated_loop fuel tp k (nid, 0) = Ret (filter (is_populated k) (zones_of (nodes_from (node_online_mask tp) nid))).
Proof.
  intros Hm. set (m := node_online_mask tp) in *. induction n as [|n IH]; intros nid fuel Hok Hb Hlen Hf;
    rewrite nodes_from_step, Hb in Hlen |- * by (unfold node_ok in Hok; lia); cbn [length] in Hlen; [done|].
  destruct fuel as [|[|[|fuel]]]; [lia..|]. cbn [populated_loop].
  change (next_zone tp (nid, 0)) with (@Ret (option zid) (Some (nid, 1))). cbn [obind populated_loop].
  change (next_zone tp (nid, 1)) with (@Ret (option zid) (Some (nid, 2))). cbn [obind populated_loop].
  assert (Hrest : exists nz, next_zone tp (nid, 2) = Ret nz
     /\ match nz with None => Ret [] | Some z1 => populated_loop fuel tp k z1 end
        = Ret (filter (is_populated k) (zones_of (nodes_from m (nid + 1))))).
  { destruct (next_zone_last tp nid Hm Hok) as [[-> E]|(r & -> & Hr & Hbr & E)]; fold m in E; eexists; (split; [done|]).
    - by rewrite E.
    - rewrite E in Hlen |- *. fold m in Hbr. apply (IH r fuel Hr Hbr); lia. }
  destruct Hrest as (nz & -> & Hnz). cbn [obind]. rewrite Hnz. cbn [obind]. f_equal.
  unfold zones_of. cbn [map concat app]. by rewrite !populated_cons.
Qed.

Lemma populated_zones_spec tp k : topo_wf tp -> online tp <> [] ->
  for_each_populated_zone tp k = Ret (filter (is_populated k) (zones_of (online tp))).
Proof.
  intros Htp Hne. pose proof (tw_mask _ Htp) as Hm. unfold for_each_populated_zone, nodemask_first.
  destruct (find_first_bit_spec (node_online_mask tp) MAX_NUMNODES (mask_wf_bm _ Hm)) as (r & -> & Hr). cbn [obind].
  destruct (nodes_from_first (node_online_mask tp) 0 r) as [Hge E]; [unfold MAX_NUMNODES; lia|done|].
  unfold online, nodes_of in *. rewrite E in *. destruct (Z.lt_ge_cases r MAX_NUMNODES) as [Hlt|Hge'].
  - destruct (ff_found _ _ _ _ Hr Hlt) as [_ Hb]. eapply populated_loop_spec; [done|unfold node_ok; lia|done|done|].
    assert (Hl : (length (nodes_from (node_online_mask tp) r) <= 8)%nat).
    { unfold nodes_from. etransitivity; [apply length_filter|]. rewrite length_seqZ. unfold MAX_NUMNODES in *. lia. }
    change (Z.to_nat MAX_ZONES_PER_ZONELIST) with 24%nat. lia.
  - exfalso. apply Hne. unfold nodes_from. by rewrite seqZ_nil by lia.
Qed.

Lemma batch_managed zn zn' p : z_managed zn = z_managed zn' ->
  pageset_set_high_and_batch zn p = pageset_set_high_and_batch zn' p.
Proof. unfold pageset_set_high_and_batch, zone_batchsize. by intros ->. Qed.

(** Only the pageset of [z] changes, and its pointer. *)
Record pageset_set (k k' : kstate) (z : zid) (f : Z -> per_cpu_pages) : Prop := {
  pt_other : forall z', z' <> z -> zones (k_mm k') z' = zones (k_mm k) z' /\ k_hdr k' z' = k_hdr k z';
  pt_pageset : forall c, z_pageset (zones (k_mm k') z) c = f c;
  pt_zone : z_area (zones (k_mm k') z) = z_area (zones (k_mm k) z)
     /\ z_initialized (zones (k_mm k') z) = z_initialized (zones (k_mm k) z)
     /\ z_managed (zones (k_mm k') z) = z_managed (zones (k_mm k) z);
  pt_ref : zone_pageset (k_hdr k' z) = PercpuPageset /\ present_pages (k_hdr k' z) = present_pages (k_hdr k z);
  pt_map : mem_map (k_mm k') = mem_map (k_mm k) /\ pfn_valid (k_mm k') = pfn_valid (k_mm k);
  pt_boot : boot_pageset k' = boot_pageset k
}.

Lemma setup_zone_spec cpus z k :
  pageset_set k (setup_zone_pageset cpus z k) z
    (fun c => if decide (c ∈ cpus) then pageset_set_high_and_batch (zones (k_mm k) z) pageset_init else pageset_init).
Proof.
  unfold setup_zone_pageset. set (k2 := set_mm _ _).
  assert (H2 : pageset_set k k2 z (fun _ => pageset_init)).
  { split; cbn; rewrite ?fn_lookup_insert; try done. intros z' Hz'. by rewrite !fn_lookup_insert_ne. }
  assert (H : forall l ka f, pageset_set k ka z f ->
    pageset_set k (fold_left (zone_pageset_init z) l ka) z
      (fun c => if decide (c ∈ l) then pageset_set_high_and_batch (zones (k_mm k) z) pageset_init else f c)).
  { induction l as [|c l IH]; intros ka f Hk; cbn [fold_left].
    { destruct Hk. split; try done. }
    assert (H1 : pageset_set k (zone_pageset_init z ka c) z (<[c := pageset_set_high_and_batch (zones (k_mm k) z) pageset_init]> f)).
    { destruct Hk as [Ho Hs (Ha & Hi & Hg) Hr Hm Hb]. unfold zone_pageset_init. split; cbn; rewrite ?fn_lookup_insert; try done.
      - intros z' Hz'. rewrite fn_lookup_insert_ne by done. by apply Ho.
      - intros c'. cbn. destruct (decide (c' = c)) as [->|]; [rewrite !fn_lookup_insert; by apply batch_managed|].
        by rewrite !fn_lookup_insert_ne. }
    destruct (IH _ _ H1) as [Ho Hs Ha Hr Hm Hb]. split; try done. intros c'. rewrite Hs.
    destruct (decide (c' ∈ l)), (decide (c' ∈ c :: l)) as [Hin|Hin]; try done.
    - exfalso. apply Hin. by right.
    - apply elem_of_cons in Hin as [->|?]; [by rewrite fn_lookup_insert|done].
    - apply not_elem_of_cons in Hin as [? _]. by rewrite fn_lookup_insert_ne. }
  exact (H cpus k2 _ H2).
Qed.

(** The CPU lists of zone [z], followed through the zone's pointer. *)
Lemma pcp_view k z c : pcp_of (view k) z c =
  match zone_pageset (k_hdr k z) with PercpuPageset => z_pageset (zones (k_mm k) z) c | _ => boot_pageset k c end.
Proof. unfold pcp_of, view. cbn. by destruct (zone_pageset (k_hdr k z)). Qed.

Lemma setup_zones_spec cpus l : NoDup l -> forall k,
  let k' := fold_left (fun k z => setup_zone_pageset cpus z k) l k in
  (forall z c, z ∈ l -> c ∈ cpus -> pcp_of (view k') z c = pageset_set_high_and_batch (zones (k_mm k) z) pageset_init)
  /\ (forall z c, z ∉ l -> pcp_of (view k') z c = pcp_of (view k) z c)
  /\ (forall z, z_area (zones (k_mm k') z) = z_area (zones (k_mm k) z)
       /\ z_initialized (zones (k_mm k') z) = z_initialized (zones (k_mm k) z)
       /\ z_managed (zones (k_mm k') z) = z_managed (zones (k_mm k) z))
  /\ mem_map (k_mm k') = mem_map (k_mm k) /\ pfn_valid (k_mm k') = pfn_valid (k_mm k)
  /\ (forall z, z ∉ l -> zones (k_mm k') z = zones (k_mm k) z /\ k_hdr k' z = k_hdr k z) /\ boot_pageset k' = boot_pageset k.
Proof.
  induction l as [|z l IH]; intros Hnd k; cbn [fold_left].
  { split_and!; try done. intros z c Hz. by apply not_elem_of_nil in Hz. }
  apply list.NoDup_cons in Hnd as [Hnin Hnd]. pose proof (setup_zone_spec cpus z k) as [Po Ps Pz Pr [Pm Pv] Pb].
  set (k1 := setup_zone_pageset cpus z k) in *.
  destruct (IH Hnd k1) as (Hi & Hn & Ha & Hm & Hv & Ho & Hb). set (k' := fold_left _ _ _) in *. clearbody k'.
  split_and!; try congruence.
  - intros z' c [->|Hz']%elem_of_cons Hc.
    + rewrite (Hn z c Hnin), pcp_view, (proj1 Pr), Ps. by rewrite decide_True.
    + rewrite (Hi z' c Hz' Hc). apply batch_managed. rewrite (proj1 (Po z' ltac:(by intros ->))). done.
  - intros z' c [Hne Hz']%not_elem_of_cons. rewrite (Hn z' c Hz'), !pcp_view. destruct (Po z' Hne) as [-> ->]. by rewrite Pb.
  - intros z'. destruct (Ha z') as (-> & -> & ->). destruct (decide (z' = z)) as [->|Hne]; [done|]. by rewrite (proj1 (Po z' Hne)).
  - intros z' [Hne Hz']%not_elem_of_cons. destruct (Ho z' Hz') as [-> ->]. by apply Po.
Qed.

Lemma elem_of_zones_of z nodes : z ∈ zones_of nodes <-> fst z ∈ nodes /\ 0 <= snd z < MAX_NR_ZONES.
Proof.
  unfold zones_of, MAX_NR_ZONES. induction nodes as [|n nodes IH]; cbn [map concat].
  { split; [intros H|intros [H _]]; by apply not_elem_of_nil in H. }
  rewrite elem_of_app, IH, !elem_of_cons, elem_of_nil. destruct z as [a i]. cbn [fst snd]. split.
  - intros [[H|[H|[H|[]]]]|[? ?]]; [simplify_eq; split; [by left|lia]..|split; [by right|done]].
  - intros [[->|?] Hi]; [|right; done]. left. assert (i = 0 \/ i = 1 \/ i = 2) as [->|[->| ->]] by lia; auto.
Qed.

Lemma zones_of_nodup nodes : NoDup nodes -> NoDup (zones_of nodes).
Proof.
  induction nodes as [|n nodes IH]; intros Hnd; unfold zones_of; cbn [map concat]; [constructor|].
  apply list.NoDup_cons in Hnd as [Hnin Hnd]. apply list.NoDup_app. split_and!; [|intros z H1 H2|by apply IH].
  - repeat (apply list.NoDup_cons; split; [rewrite ?elem_of_cons, elem_of_nil; intros H; destruct_or? H; congruence|]). constructor.
  - fold (zones_of nodes) in H2. apply elem_of_zones_of in H2 as [H2 _]. rewrite !elem_of_cons, elem_of_nil in H1.
    destruct H1 as [->|[->|[->|[]]]]; done.
Qed.

(** setup_per_cpu_pageset() gives every populated zone of every online
    node its own CPU lists: empty, with a batch of one less than a power of two
    (at least 1 and at most 63) and a limit of six batches; zones without
    memory keep theirs, and nothing else changes. *)
Theorem setup_per_cpu_pageset_correct (tp : topology) (cpus : list Z) (k : kstate) :
  topo_wf tp -> online tp <> [] -> (forall z, 0 <= z_managed (zones (k_mm k) z) < 2 ^ 41) ->
  exists k', setup_per_cpu_pageset tp cpus k = Ret k'
    /\ (forall z c, fst z ∈ online tp -> 0 <= snd z < MAX_NR_ZONES -> is_populated k z -> c ∈ cpus ->
          limits_ok (pcp_of (view k') z c))
    /\ (forall z c, ~ (fst z ∈ online tp /\ 0 <= snd z < MAX_NR_ZONES /\ is_populated k z) ->
          pcp_of (view k') z c = pcp_of (view k) z c)
    /\ mem_map (k_mm k') = mem_map (k_mm k)
    /\ (forall z, z_area (zones (k_mm k') z) = z_area (zones (k_mm k) z)).
Proof.
  intros Htp Hne Hmg. unfold setup_per_cpu_pageset. rewrite populated_zones_spec by done. cbn [obind].
  set (l := filter _ _). assert (Hnd : NoDup l) by (apply list.NoDup_filter, zones_of_nodup, nodes_nodup).
  assert (Hl : forall z, z ∈ l <-> fst z ∈ online tp /\ 0 <= snd z < MAX_NR_ZONES /\ is_populated k z).
  { intros z. unfold l. rewrite list_elem_of_filter, elem_of_zones_of. tauto. }
  destruct (setup_zones_spec cpus l Hnd k) as (Hi & Hn & Ha & Hm & _).
  eexists. split; [done|]. split_and!; try done.
  - intros z c Hz Hs Hp Hc. rewrite Hi; [by apply set_high_and_batch_spec|by apply Hl|done].
  - intros z c Hz. apply Hn. by rewrite Hl.
  - intros z. apply Ha.
Qed.

(** Two nodes of 4096 pages each in ZONE_NORMAL. *)
Definition sized : kstate :=
  mk_kstate (mk_mm (fun _ => mm_zero_struct_page) (fun _ => false)
               (fun _ => mk_zone (fun _ => mk_area [] 0) (fun _ => pageset_init) true 4096))
    (fun z => mk_hdr 0 4096 (if snd z =? 1 then 4096 else 0) BootPageset)
    (fun _ => mk_pgdat 0 0 0) (fun _ => setup_pageset 0) (fun _ => 0) (fun _ => 0).

Lemma setup_per_cpu_pageset_correct_witness :
  exists k', setup_per_cpu_pageset pair [0; 1] sized = Ret k'
    /\ (forall z c, fst z ∈ online pair -> 0 <= snd z < MAX_NR_ZONES -> is_populated sized z -> c ∈ [0; 1] ->
          limits_ok (pcp_of (view k') z c))
    /\ (forall z c, ~ (fst z ∈ online pair /\ 0 <= snd z < MAX_NR_ZONES /\ is_populated sized z) ->
          pcp_of (view k') z c = pcp_of (view sized) z c)
    /\ mem_map (k_mm k') = mem_map (k_mm sized)
    /\ (forall z, z_area (zones (k_mm k') z) = z_area (zones (k_mm sized) z)).
Proof.
  apply (setup_per_cpu_pageset_correct pair [0; 1] sized); [exact pair_wf|discriminate|cbn; lia].
Defined.

(** The smallest zones (and the boot pagesets) get a batch above the limit,
    although pageset_update() asks for the opposite. *)
Example batch_above_high :
  setup_pageset 0 = mk_pcp 0 0 1 [] /\ zone_batchsize (mk_zone (fun _ => mk_area [] 0) (fun _ => pageset_init) true 4096) = 0.
Proof. split; vm_compute; reflexivity. Qed.
