(* ===== verification/Arith.v ===== *)
(** * Integer arithmetic of the library

    Model of lib/gcd.c, lib/lcm.c and lib/int_sqrt.c on unsigned longs, with
    the proofs that they compute the mathematical functions. *)

From S2P Require Import Prelude Bitops.
From stdpp Require Import base numbers.
#[local] Open Scope Z_scope.
#[local] Open Scope kernel_scope.

(** The loop of gcd(); [r & -r] is the common power of two. *)
Fixpoint gcd_loop (fuel : nat) (r a b : Z) : outcome Z :=
  match fuel with
  | O => Stuck
  | S fuel' =>
      let a1 := Z.shiftr a (__ffs a) in
      if a1 =? 1 then Ret (Z.land r (u64 (- r)))
      else if a1 =? b then Ret (u64 (Z.shiftl a1 (__ffs r)))
      else
        let (a2, b2) := if a1 <? b then (b, a1) else (a1, b) in
        gcd_loop fuel' r (u64 (a2 - b2)) b2
  end.
Definition GCD_FUEL : nat := 130.
Definition gcd (a b : Z) : outcome Z :=
  let r := Z.lor a b in
  if (a =? 0) || (b =? 0) then Ret r
  else
    let b1 := Z.shiftr b (__ffs b) in
    if b1 =? 1 then Ret (Z.land r (u64 (- r)))
    else gcd_loop GCD_FUEL r a b1.

Definition lcm (a b : Z) : outcome Z :=
  if negb (a =? 0) && negb (b =? 0) then let! g := gcd a b in Ret (a / g *64 b) else Ret 0.
Definition lcm_not_zero (a b : Z) : outcome Z :=
  let! l := lcm a b in
  if negb (l =? 0) then Ret l else Ret (if negb (b =? 0) then b else a).

(** [n] rounds of the loop of int_sqrt(): the last one has m = 1. *)
Fixpoint sqrt_loop (n : nat) (x y m : Z) : Z :=
  match n with
  | O => y
  | S n' =>
      if m =? 0 then y
      else
        let b := y +64 m in
        let y1 := Z.shiftr y 1 in
        if x >=? b then sqrt_loop n' (x -64 b) (y1 +64 m) (Z.shiftr m 2)
        else sqrt_loop n' x y1 (Z.shiftr m 2)
  end.
Definition int_sqrt (x : Z) : Z := if x <=? 1 then x else sqrt_loop 33 x 0 (Z.shiftl 1 (BITS_PER_LONG - 2)).

(** ** gcd() *)

(** The odd part of a word. *)
Lemma odd_part a : is_u64 a -> a <> 0 -> let t := __ffs a in
  0 <= t < 64 /\ a = Z.shiftr a t * 2 ^ t /\ Z.odd (Z.shiftr a t) = true /\ 0 < Z.shiftr a t <= a.
Proof.
  intros Ha Hne t. destruct (ffs_least a Ha Hne) as (Ht & Hbit & Hlow). fold t in Ht, Hbit, Hlow.
  assert (H2 : 0 < 2 ^ t) by (apply Z.pow_pos_nonneg; lia).
  assert (E : a = Z.shiftr a t * 2 ^ t).
  { rewrite <- Z.shiftl_mul_pow2 by lia. apply Z.bits_inj'. intros n Hn. destruct (Z.lt_ge_cases n t).
    - rewrite Z.shiftl_spec_low by lia. apply Hlow. lia.
    - rewrite Z.shiftl_spec, Z.shiftr_spec by lia. f_equal. lia. }
  split; [done|]. split; [done|]. split.
  - rewrite <- Z.bit0_odd, Z.shiftr_spec by lia. exact Hbit.
  - uunfold. split; nia.
Qed.

Lemma gcd_odd_2 x b : Z.odd b = true -> Z.gcd (2 * x) b = Z.gcd x b.
Proof.
  intros Hb. apply Z.divide_antisym_nonneg; try apply Z.gcd_nonneg.
  - pose proof (Z.gcd_divide_l (2 * x) b) as H1. pose proof (Z.gcd_divide_r (2 * x) b) as H2. apply Z.gcd_greatest; [|done].
    apply (Z.gauss _ 2); [done|]. set (d := Z.gcd (2 * x) b) in *. clearbody d. assert (Hd : Z.odd d = true).
    { destruct H2 as [p Hp]. rewrite Hp, Z.odd_mul in Hb. by apply andb_true_iff in Hb as [_ ?]. }
    rewrite Z.gcd_comm, <- Z.gcd_mod, Zmod_odd, Hd by lia. done.
  - apply Z.gcd_greatest; [|apply Z.gcd_divide_r]. etransitivity; [apply Z.gcd_divide_l|]. apply Z.divide_factor_r.
Qed.

Lemma gcd_odd_pow t x b : 0 <= t -> Z.odd b = true -> Z.gcd (x * 2 ^ t) b = Z.gcd x b.
Proof.
  intros Ht Hb. pattern t. apply natlike_ind; [by rewrite Z.mul_1_r| |done].
  intros n Hn IH. rewrite Z.pow_succ_r by done. replace (x * (2 * 2 ^ n)) with (2 * (x * 2 ^ n)) by lia. by rewrite gcd_odd_2.
Qed.

Lemma lowest_set_bit r : is_u64 r -> r <> 0 -> Z.land r (u64 (- r)) = 2 ^ __ffs r.
Proof.
  intros Hr Hne. destruct (ffs_least r Hr Hne) as (Ht & Hbit & Hlow).
  destruct (odd_part r Hr Hne) as (_ & E & Hodd & _). set (t := __ffs r) in *. set (q := Z.shiftr r t) in *.
  apply Z.odd_spec in Hodd as [h Hh]. assert (H2 : 2 ^ (t + 1) = 2 * 2 ^ t) by (rewrite Z.pow_add_r by lia; lia).
  assert (Hp : 0 < 2 ^ t) by (apply Z.pow_pos_nonneg; lia).
  apply Z.bits_inj'. intros n Hn. rewrite Z.land_spec, u64_bits by lia.
  replace (- r) with (Z.lnot (r - 1)) by (unfold Z.lnot; lia). rewrite Z.lnot_spec, Z.pow2_bits_eqb by lia.
  destruct (Z.lt_trichotomy n t) as [Hlt|[En|Hgt]].
  - rewrite (Hlow n) by lia. cbn [andb]. by destruct (Z.eqb_spec t n); [lia|].
  - rewrite En. assert (Hf : Z.testbit (r - 1) t = false).
    { replace t with (0 + t) at 1 by lia. rewrite <- Z.div_pow2_bits by lia. replace ((r - 1) / 2 ^ t) with (2 * h).
      - apply Z.testbit_even_0.
      - apply Z.div_unique with (2 ^ t - 1); [lia|]. nia. }
    rewrite Hbit, Hf, Z.eqb_refl. by destruct (Z.ltb_spec t 64); [|lia].
  - assert (Hs : Z.testbit (r - 1) n = Z.testbit r n).
    { replace n with (n - (t + 1) + (t + 1)) by lia. rewrite <- !Z.div_pow2_bits by lia. f_equal.
      transitivity h; [symmetry|]; [apply Z.div_unique with (2 ^ t - 1)|apply Z.div_unique with (2 ^ t)]; nia. }
    rewrite Hs, andb_assoc, andb_negb_r. by destruct (Z.eqb_spec t n); [lia|].
Qed.

(** The power of two common to both operands. *)
Lemma ffs_lor a b : is_u64 a -> is_u64 b -> a <> 0 -> b <> 0 ->
  is_u64 (Z.lor a b) /\ Z.lor a b <> 0 /\ __ffs (Z.lor a b) = Z.min (__ffs a) (__ffs b).
Proof.
  intros Ha Hb Ha0 Hb0. assert (Hu : is_u64 (Z.lor a b)).
  { split; [apply Z.lor_nonneg; uunfold; lia|]. destruct (Z.eq_dec (Z.lor a b) 0) as [->|Hne]; [uunfold; lia|].
    rewrite pow2_64. apply Z.log2_lt_pow2; [uunfold; pose proof (proj2 (Z.lor_nonneg a b)); lia|]. rewrite Z.log2_lor by (uunfold; lia).
    apply Z.max_lub_lt; apply Z.log2_lt_pow2; uunfold; lia. }
  assert (Hne : Z.lor a b <> 0) by (intros E; apply Z.lor_eq_0_iff in E; lia). split; [done|]. split; [done|].
  destruct (ffs_least _ Hu Hne) as (Ht & Hbit & Hlow). destruct (ffs_least a Ha Ha0) as (Hta & Hba & Hla). destruct (ffs_least b Hb Hb0) as (Htb & Hbb & Hlb).
  set (t := __ffs (Z.lor a b)) in *. set (i := __ffs a) in *. set (j := __ffs b) in *.
  rewrite Z.lor_spec in Hbit. destruct (Z.lt_trichotomy t (Z.min i j)) as [Hlt|[?|Hgt]]; [|done|].
  - rewrite Hla, Hlb in Hbit by lia. done.
  - exfalso. destruct (Z.min_spec i j) as [[? Em]|[? Em]]; rewrite Em in Hgt.
    + specialize (Hlow i ltac:(lia)). rewrite Z.lor_spec, Hba in Hlow. done.
    + specialize (Hlow j ltac:(lia)). rewrite Z.lor_spec, Hbb, orb_true_r in Hlow. done.
Qed.

Lemma gcd_loop_spec r : is_u64 r -> r <> 0 -> forall fuel a b,
  is_u64 a -> is_u64 b -> a <> 0 -> Z.odd b = true -> b <> 1 -> Z.gcd a b * 2 ^ __ffs r < 2 ^ 64 ->
  Z.log2 (Z.shiftr a (__ffs a)) + Z.log2 b < Z.of_nat fuel -> gcd_loop fuel r a b = Ret (Z.gcd a b * 2 ^ __ffs r).
Proof.
  intros Hr Hr0. destruct (ffs_least r Hr Hr0) as (Ht & _).
  induction fuel as [|fuel IH]; intros a b Ha Hb Ha0 Hodd Hb1 Hfit Hf.
  { pose proof (Z.log2_nonneg (Z.shiftr a (__ffs a))). pose proof (Z.log2_nonneg b). lia. }
  cbn [gcd_loop]. destruct (odd_part a Ha Ha0) as (Hta & Ea & Hoa & Hra). set (a1 := Z.shiftr a (__ffs a)) in *.
  assert (Hg : Z.gcd a b = Z.gcd a1 b) by (rewrite Ea; apply gcd_odd_pow; [lia|done]). rewrite Hg in *.
  assert (Hb0 : 0 < b) by (destruct (Z.eq_dec b 0) as [->|]; [done|uunfold; lia]).
  destruct (Z.eqb_spec a1 1) as [->|Ha1]; [rewrite lowest_set_bit, Z.gcd_1_l by done; f_equal; lia|].
  destruct (Z.eqb_spec a1 b) as [->|Hab].
  { rewrite Z.gcd_diag, Z.abs_eq in * by lia. rewrite Z.shiftl_mul_pow2, u64_id by (uunfold; lia). done. }
  (* subtracting an odd number from a larger odd one *)
  assert (Hstep : forall x y, Z.odd x = true -> Z.odd y = true -> 1 < y < x -> x < 2 ^ 64 -> Z.gcd x y * 2 ^ __ffs r < 2 ^ 64 ->
    Z.log2 x + Z.log2 y <= Z.of_nat fuel -> gcd_loop fuel r (u64 (x - y)) y = Ret (Z.gcd x y * 2 ^ __ffs r)).
  { intros x y Hx Hy Hxy Hx64 Hfit' Hm. rewrite u64_id by (uunfold; lia).
    assert (Eg : Z.gcd x y = Z.gcd (x - y) y) by (rewrite (Z.gcd_comm x), (Z.gcd_comm (x - y)), Z.gcd_sub_diag_r; done). rewrite Eg in *.
    apply IH; try done; try (uunfold; lia).
    destruct (odd_part (x - y) ltac:(uunfold; lia) ltac:(lia)) as (Hs & E & Ho & Hsp). set (d := Z.shiftr (x - y) (__ffs (x - y))) in *. set (s := __ffs (x - y)) in *.
    assert (0 < s).
    { destruct (Z.eq_dec s 0) as [E0|]; [|lia]. rewrite E0, Z.mul_1_r in E. rewrite <- E, Z.odd_sub, Hx, Hy in Ho. done. }
    assert (2 <= 2 ^ s) by (change 2 with (2 ^ 1) at 1; apply Z.pow_le_mono_r; lia).
    assert (Z.log2 d < Z.log2 x); [|lia]. enough (Z.log2 (2 * d) <= Z.log2 x) by (rewrite Z.log2_double in * by lia; lia).
    apply Z.log2_le_mono. nia. }
  assert (a1 <> 0 /\ b <> 0 /\ a1 < 2 ^ 64) by (uunfold; lia).
  destruct (Z.ltb_spec a1 b); [rewrite (Z.gcd_comm a1 b) in *|]; apply Hstep; try done; uunfold; lia.
Qed.

Lemma gcd_spec a b : is_u64 a -> is_u64 b -> gcd a b = Ret (Z.gcd a b).
Proof.
  intros Ha Hb. unfold gcd. destruct (Z.eqb_spec a 0) as [->|Ha0]; [by rewrite Z.lor_0_l, Z.gcd_0_l, Z.abs_eq by (uunfold; lia)|].
  destruct (Z.eqb_spec b 0) as [->|Hb0]; cbn [orb]; [by rewrite Z.lor_0_r, Z.gcd_0_r, Z.abs_eq by (uunfold; lia)|].
  destruct (ffs_lor a b Ha Hb Ha0 Hb0) as (Hu & Hne & Emin). destruct (odd_part a Ha Ha0) as (Hta & Ea & Hoa & Hra).
  destruct (odd_part b Hb Hb0) as (Htb & Eb & Hob & Hrb). set (r := Z.lor a b) in *.
  set (i := __ffs a) in *. set (j := __ffs b) in *. set (a1 := Z.shiftr a i) in *. set (b1 := Z.shiftr b j) in *.
  assert (Hg : Z.gcd a b = Z.gcd a b1 * 2 ^ __ffs r).
  { assert (Hab : Z.gcd a b1 = Z.gcd a1 b1) by (transitivity (Z.gcd (a1 * 2 ^ i) b1); [by f_equal|apply gcd_odd_pow; [lia|done]]).
    rewrite Emin, Hab. transitivity (Z.gcd (a1 * 2 ^ i) (b1 * 2 ^ j)); [by f_equal|]. destruct (Z.le_ge_cases i j) as [Hij|Hij].
    - rewrite Z.min_l by lia. replace (b1 * 2 ^ j) with (b1 * 2 ^ (j - i) * 2 ^ i) by (rewrite <- Z.mul_assoc, <- Z.pow_add_r by lia; do 2 f_equal; lia).
      rewrite Z.gcd_mul_mono_r_nonneg by (apply Z.pow_nonneg; lia). f_equal. rewrite Z.gcd_comm, gcd_odd_pow, Z.gcd_comm by (done || lia). done.
    - rewrite Z.min_r by lia. replace (a1 * 2 ^ i) with (a1 * 2 ^ (i - j) * 2 ^ j) by (rewrite <- Z.mul_assoc, <- Z.pow_add_r by lia; do 2 f_equal; lia).
      rewrite Z.gcd_mul_mono_r_nonneg by (apply Z.pow_nonneg; lia). f_equal. by rewrite gcd_odd_pow by (done || lia). }
  destruct (Z.eqb_spec b1 1) as [E1|Hb1]; [rewrite lowest_set_bit, Hg, E1, Z.gcd_1_r by done; f_equal; lia|].
  rewrite Hg. apply gcd_loop_spec; try done; [uunfold; lia| |].
  - rewrite <- Hg. pose proof (Z.gcd_divide_l a b) as Hd. apply Z.divide_pos_le in Hd; uunfold; lia.
  - fold i a1. assert (Z.log2 a1 < 64) by (apply Z.log2_lt_pow2; uunfold; lia). assert (Z.log2 b1 < 64) by (apply Z.log2_lt_pow2; uunfold; lia). unfold GCD_FUEL. lia.
Qed.

Lemma lcm_spec a b : is_u64 a -> is_u64 b -> lcm a b = Ret (u64 (Z.lcm a b)).
Proof.
  intros Ha Hb. unfold lcm. destruct (Z.eqb_spec a 0) as [->|Ha0]; cbn [negb andb]; [by rewrite Z.lcm_0_l|].
  destruct (Z.eqb_spec b 0) as [->|Hb0]; cbn [negb]; [by rewrite Z.lcm_0_r|]. rewrite gcd_spec by done. cbn [obind].
  pose proof (Z.gcd_nonneg a b) as Hg. assert (Z.gcd a b <> 0) by (intros E; apply Z.gcd_eq_0_l in E; lia).
  do 2 f_equal. unfold Z.lcm. destruct (Z.gcd_divide_l a b) as [q Hq]. destruct (Z.gcd_divide_r a b) as [p Hp]. set (g := Z.gcd a b) in *. clearbody g.
  assert (Eq : a / g = q) by (rewrite Hq; by apply Z.div_mul). assert (Ep : b / g = p) by (rewrite Hp; by apply Z.div_mul).
  rewrite Eq, Ep, Z.abs_eq; uunfold; nia.
Qed.

(** ** int_sqrt() *)

(** [r] is the root so far: a multiple of [2 * 2 ^ k], and the root of [X]
    exceeds it by less than that. *)
Lemma sqrt_loop_spec X : is_u64 X -> forall k r, 0 <= X -> 0 <= r -> (2 ^ (Z.of_nat k) | r) -> r + 2 ^ Z.of_nat k <= 2 ^ 32 ->
  r * r <= X < (r + 2 ^ Z.of_nat k) * (r + 2 ^ Z.of_nat k) ->
  sqrt_loop (S k) (X - r * r) (r * 2 ^ Z.of_nat k) (2 ^ (2 * Z.of_nat k) / 4) = Z.sqrt X.
Proof.
  intros HX64. induction k as [|k IH]; intros r HX Hr Hd Hle Hb.
  - change (2 ^ Z.of_nat 0) with 1 in *. change (2 ^ (2 * Z.of_nat 0) / 4) with 0. cbn [sqrt_loop Z.eqb].
    rewrite Z.mul_1_r. symmetry. apply Z.sqrt_unique. unfold Z.succ. lia.
  - set (q := 2 ^ Z.of_nat k). assert (Hq : 0 < q) by (apply Z.pow_pos_nonneg; lia).
    assert (E2 : 2 ^ Z.of_nat (S k) = 2 * q) by (rewrite Nat2Z.inj_succ, Z.pow_succ_r by lia; done). rewrite E2 in *.
    assert (Em : 2 ^ (2 * Z.of_nat (S k)) / 4 = q * q).
    { replace (2 * Z.of_nat (S k)) with (Z.of_nat k + Z.of_nat k + 2) by lia. rewrite !Z.pow_add_r by lia. fold q. change (2 ^ 2) with 4. by rewrite Z.div_mul. }
    rewrite Em. cbn [sqrt_loop]. destruct (Z.eqb_spec (q * q) 0); [nia|].
    destruct Hd as [h Hh].
    assert (Hq32 : q <= 2 ^ 31) by lia. assert (Hy : r * (2 * q) + q * q < 2 ^ 64).
    { destruct (Z.eq_dec h 0) as [->|]; [nia|]. assert (q <= 2 ^ 30) by nia. nia. }
    assert (Hrq : 0 <= r * q) by nia. assert (Hqq : 0 < q * q) by nia. rewrite (u64_id (r * (2 * q) + q * q)) by (uunfold; lia). rewrite Z.geb_leb.
    replace (Z.shiftr (r * (2 * q)) 1) with (r * q) by (rewrite Z.shiftr_div_pow2 by lia; change (2 ^ 1) with 2; replace (r * (2 * q)) with (r * q * 2) by lia; by rewrite Z.div_mul).
    replace (Z.shiftr (q * q) 2) with (2 ^ (2 * Z.of_nat k) / 4).
    2:{ rewrite Z.shiftr_div_pow2 by lia. change (2 ^ 2) with 4. f_equal. unfold q. rewrite <- Z.pow_add_r by lia. f_equal. lia. }
    destruct (Z.leb_spec (r * (2 * q) + q * q) (X - r * r)).
    + rewrite (u64_id (X - r * r - _)), (u64_id (r * q + q * q)) by (uunfold; lia). replace (X - r * r - (r * (2 * q) + q * q)) with (X - (r + q) * (r + q)) by lia.
      replace (r * q + q * q) with ((r + q) * q) by lia. apply IH; fold q; try lia. exists (2 * h + 1). lia.
    + apply IH; fold q; try lia. exists (2 * h). lia.
Qed.

Lemma int_sqrt_spec x : is_u64 x -> int_sqrt x = Z.sqrt x.
Proof.
  intros Hx. unfold int_sqrt. destruct (Z.leb_spec x 1).
  - assert (x = 0 \/ x = 1) as [-> | ->] by (uunfold; lia); done.
  - pose proof (sqrt_loop_spec x Hx 32 0 ltac:(uunfold; lia) ltac:(lia) ltac:(apply Z.divide_0_r) ltac:(lia) ltac:(uunfold; lia)) as E.
    rewrite Z.mul_0_l, Z.sub_0_r in E. exact E.
Qed.

(** The arithmetic helpers compute the mathematical functions: gcd() (the
    binary algorithm, which always finishes) the greatest common divisor, lcm()
    the least common multiple modulo 2^64, int_sqrt() the integer square root,
    for all unsigned longs. *)
Theorem arith_correct (a b x : Z) : is_u64 a -> is_u64 b -> is_u64 x ->
  gcd a b = Ret (Z.gcd a b) /\ lcm a b = Ret (u64 (Z.lcm a b))
  /\ lcm_not_zero a b = Ret (if u64 (Z.lcm a b) =? 0 then if b =? 0 then a else b else u64 (Z.lcm a b)) /\ int_sqrt x = Z.sqrt x.
Proof.
  intros Ha Hb Hx. split; [by apply gcd_spec|]. split; [by apply lcm_spec|]. split; [|by apply int_sqrt_spec].
  unfold lcm_not_zero. rewrite lcm_spec by done. cbn [obind]. destruct (Z.eqb_spec (u64 (Z.lcm a b)) 0); [|done]. cbn [negb]. by destruct (b =? 0).
Qed.

Lemma arith_correct_witness :
  gcd 84 (2 ^ 63) = Ret (Z.gcd 84 (2 ^ 63)) /\ lcm 84 (2 ^ 63) = Ret (u64 (Z.lcm 84 (2 ^ 63)))
  /\ lcm_not_zero 84 (2 ^ 63) = Ret (if u64 (Z.lcm 84 (2 ^ 63)) =? 0 then if 2 ^ 63 =? 0 then 84 else 2 ^ 63 else u64 (Z.lcm 84 (2 ^ 63)))
  /\ int_sqrt (2 ^ 64 - 1) = Z.sqrt (2 ^ 64 - 1).
Proof. apply (arith_correct 84 (2 ^ 63) (2 ^ 64 - 1)); uunfold; lia. Defined.
