(* ===== verification/Objects.v ===== *)
(** * The object allocator as its clients see it

    The interface of kzalloc() and kfree() that the per-CPU allocator and the
    scheduler's CPU tables are built on, the law a client may rely on, and an
    instance that hands out fresh addresses and never runs out until told. *)

From S2P Require Import Prelude.
From stdpp Require Import base numbers option gmap sets.
#[local] Open Scope Z_scope.
#[local] Open Scope kernel_scope.

(** kzalloc(), kfree() and slab_is_available(); an address 0 is NULL. *)
Class ObjectAllocator (K : Type) := {
  oa_available : K -> bool;
  oa_kzalloc : K -> Z -> outcome (K * Z);
  oa_kfree : K -> Z -> outcome K
}.

(** [oa_live k]: the objects handed out and not yet given back. *)
Class ObjectAllocatorLaws (K : Type) `{ObjectAllocator K} := {
  oa_live : K -> gset Z;
  oa_kzalloc_law k size : 0 < size ->
    exists k' p, oa_kzalloc k size = Ret (k', p)
      /\ ((p = 0 /\ oa_live k' = oa_live k) \/ (p <> 0 /\ (p ∉ oa_live k) /\ oa_live k' = {[p]} ∪ oa_live k));
  oa_kfree_law k p : p ∈ oa_live k -> exists k', oa_kfree k p = Ret k' /\ oa_live k' = oa_live k ∖ {[p]};
}.

(** From state [k] on requests of these sizes, one after the other, are served. *)
Fixpoint oa_serves {K} `{ObjectAllocator K} (k : K) (sizes : list Z) : bool :=
  match sizes with
  | [] => true
  | size :: sizes' =>
      match oa_kzalloc k size with
      | Ret (k', p) => if p =? 0 then false else oa_serves k' sizes'
      | _ => false
      end
  end.

(** An allocator with room for a number of objects. *)
Record bump := mk_bump { b_room : nat; b_next : positive; b_live : gset Z; b_below : forall p, p ∈ b_live -> p < Zpos b_next }.

Lemma bump_new (b : bump) p : p ∈ {[Zpos (b_next b)]} ∪ b_live b -> p < Zpos (b_next b + 1).
Proof. rewrite elem_of_union, elem_of_singleton. intros [->|H%b_below]; lia. Qed.
Lemma bump_less (b : bump) q p : p ∈ b_live b ∖ {[q]} -> p < Zpos (b_next b).
Proof. rewrite elem_of_difference. intros [H%b_below _]. done. Qed.
Lemma bump_none (p : Z) : p ∈ (∅ : gset Z) -> p < 1.
Proof. by intros ?%elem_of_empty. Qed.

#[export] Instance bump_allocator : ObjectAllocator bump := {
  oa_available _ := true;
  oa_kzalloc b _ :=
    match b_room b with
    | O => Ret (b, 0)
    | S n => Ret (mk_bump n (b_next b + 1) ({[Zpos (b_next b)]} ∪ b_live b) (bump_new b), Zpos (b_next b))
    end;
  oa_kfree b p := Ret (mk_bump (S (b_room b)) (b_next b) (b_live b ∖ {[p]}) (bump_less b p));
}.

#[export] Instance bump_laws : ObjectAllocatorLaws bump.
Proof.
  refine {| oa_live := b_live |}.
  - intros b size _. cbn. destruct (b_room b); eexists _, _; (split; [reflexivity|]); [by left|right].
    cbn. split_and!; [done| |done]. intros H%b_below. lia.
  - intros b p _. eexists. by split.
Defined.

Definition empty_bump (n : nat) : bump := mk_bump n 1 ∅ bump_none.
