(* ===== verification/Cpumask.v ===== *)
(** * Sets of CPUs

    Model of src/include/linux/cpumask.h over the bitmap operations, for the
    configured NR_CPUS of 8, and what each operation does to the set.  With a
    constant number of bits that fits a word the inline functions of
    src/include/linux/bitmap.h work on the one word. *)

From S2P Require Import Prelude Bitops Bitmap BitmapSpec.
From stdpp Require Import base list numbers option.
#[local] Open Scope Z_scope.
#[local] Open Scope kernel_scope.

Definition NR_CPUS : Z := 8.
Definition nr_cpumask_bits : Z := NR_CPUS.

(** [struct cpumask]: its words. *)
Definition cpumask_t : Type := list Z.

Definition small_const_nbits (nbits : Z) : bool := (nbits <=? BITS_PER_LONG) && (nbits >? 0).

Definition bitmap_and (dst src1 src2 : list Z) (nbits : Z) : outcome (list Z * bool) :=
  if small_const_nbits nbits then
    let! a := word src1 0 in
    let! b := word src2 0 in
    let w := Z.land (Z.land a b) (BITMAP_LAST_WORD_MASK nbits) in
    let! dst' := set_word dst 0 w in
    Ret (dst', negb (w =? 0))
  else __bitmap_and dst src1 src2 nbits.

Definition bitmap_intersects (src1 src2 : list Z) (nbits : Z) : outcome bool :=
  if small_const_nbits nbits then
    let! a := word src1 0 in
    let! b := word src2 0 in
    Ret (negb (Z.land (Z.land a b) (BITMAP_LAST_WORD_MASK nbits) =? 0))
  else __bitmap_intersects src1 src2 nbits.

Definition cpumask_first (srcp : cpumask_t) : outcome Z := find_first_bit srcp nr_cpumask_bits.
Definition cpumask_next (cpu : Z) (srcp : cpumask_t) : outcome Z := find_next_bit srcp nr_cpumask_bits (cpu + 1).
Definition cpumask_next_and (cpu : Z) (src1p src2p : cpumask_t) : outcome Z :=
  find_next_and_bit src1p src2p nr_cpumask_bits (cpu + 1).
Definition cpumask_any (srcp : cpumask_t) : outcome Z := cpumask_first srcp.
Definition cpumask_first_and (src1p src2p : cpumask_t) : outcome Z := cpumask_next_and (-1) src1p src2p.
Definition cpumask_any_and (mask1 mask2 : cpumask_t) : outcome Z := cpumask_first_and mask1 mask2.
Definition cpumask_set_cpu (cpu : Z) (dstp : cpumask_t) : outcome cpumask_t := set_bit cpu dstp.
Definition cpumask_clear_cpu (cpu : Z) (dstp : cpumask_t) : outcome cpumask_t := clear_bit cpu dstp.
Definition cpumask_is_set (cpu : Z) (srcp : cpumask_t) : outcome bool := test_bit cpu srcp.
Definition cpumask_and (dstp src1p src2p : cpumask_t) : outcome (cpumask_t * bool) :=
  bitmap_and dstp src1p src2p nr_cpumask_bits.
Definition cpumask_intersects (src1p src2p : cpumask_t) : outcome bool :=
  bitmap_intersects src1p src2p nr_cpumask_bits.

(** ** What they do *)

Record mask_ok (m : cpumask_t) : Prop := {
  mo_len : length m = 1%nat;
  mo_u64 : bm_all m;
}.

Abbreviation is_cpu c := (0 <= c < NR_CPUS).

Lemma mask_ok_word m : mask_ok m -> exists w, m = [w] /\ is_u64 w.
Proof. intros [Hl Hu]. destruct m as [|w []]; try done. exists w. split; [done|]. by inversion Hu. Qed.

Lemma bit_word w c : 0 <= c < 64 -> bit [w] c = Z.testbit w c.
Proof. intros Hc. unfold bit. rewrite Z.div_small, Z.mod_small by done. done. Qed.

Lemma mask_ok_wf m : mask_ok m -> bm_wf m nr_cpumask_bits.
Proof. intros (w & -> & Hw)%mask_ok_word. apply mask_bm_wf; [done|by vm_compute]. Qed.

Lemma range_set_mask v m c m' : mask_ok m -> range_set v m c (c + 1) m' ->
  mask_ok m' /\ forall i, 0 <= i -> bit m' i = if i =? c then v else bit m i.
Proof.
  intros [Hl Hu] (H1 & H2 & H3). split; [split; congruence || done|].
  intros i Hi. rewrite H3 by done. destruct (Z.leb_spec c i), (Z.ltb_spec i (c + 1)), (Z.eqb_spec i c); done || lia.
Qed.

Lemma cpumask_set_cpu_spec m c : mask_ok m -> is_cpu c ->
  exists m', cpumask_set_cpu c m = Ret m' /\ mask_ok m' /\ forall i, 0 <= i -> bit m' i = if i =? c then true else bit m i.
Proof.
  intros Hm Hc. destruct (set_bit_spec m c (mo_u64 _ Hm)) as (m' & E & R); [rewrite (mo_len _ Hm); unfold NR_CPUS in Hc; lia|].
  exists m'. split; [done|]. by apply range_set_mask.
Qed.

Lemma cpumask_clear_cpu_spec m c : mask_ok m -> is_cpu c ->
  exists m', cpumask_clear_cpu c m = Ret m' /\ mask_ok m' /\ forall i, 0 <= i -> bit m' i = if i =? c then false else bit m i.
Proof.
  intros Hm Hc. destruct (clear_bit_spec m c (mo_u64 _ Hm)) as (m' & E & R); [rewrite (mo_len _ Hm); unfold NR_CPUS in Hc; lia|].
  exists m'. split; [done|]. by apply range_set_mask.
Qed.

Lemma cpumask_is_set_spec m c : mask_ok m -> is_cpu c -> cpumask_is_set c m = Ret (bit m c).
Proof. intros Hm Hc. apply test_bit_spec. rewrite (mo_len _ Hm). unfold NR_CPUS in Hc. lia. Qed.

(** The common CPUs of two masks, as a word. *)
Lemma common_word a b : is_u64 a -> is_u64 b ->
  let w := Z.land (Z.land a b) (BITMAP_LAST_WORD_MASK nr_cpumask_bits) in
  is_u64 w /\ (forall i, 0 <= i < 64 -> Z.testbit w i = (i <? NR_CPUS) && (Z.testbit a i && Z.testbit b i))
  /\ (w = 0 <-> forall i, is_cpu i -> Z.testbit a i && Z.testbit b i = false).
Proof.
  intros Ha Hb w. assert (Hw : is_u64 w) by (by apply is_u64_land; [apply is_u64_land|apply last_mask_u64]).
  assert (Hbit : forall i, 0 <= i < 64 -> Z.testbit w i = (i <? NR_CPUS) && (Z.testbit a i && Z.testbit b i)).
  { intros i Hi. unfold w. rewrite !Z.land_spec. change (BITMAP_LAST_WORD_MASK nr_cpumask_bits) with (Z.ones 8).
    rewrite Z.testbit_ones_nonneg by lia. unfold NR_CPUS. apply andb_comm. }
  split_and!; [done|done|]. split.
  - intros E i Hi. unfold NR_CPUS in Hi. pose proof (Hbit i ltac:(lia)) as Hb'. rewrite E, Z.bits_0 in Hb'.
    destruct (Z.ltb_spec i NR_CPUS) as [|C]; [done|unfold NR_CPUS in C; lia].
  - intros Hz. apply Z.bits_inj'. intros i Hi. rewrite Z.bits_0. destruct (Z.ltb_spec i 64).
    + rewrite Hbit by lia. destruct (Z.ltb_spec i NR_CPUS); [|done]. rewrite Hz by lia. done.
    + by apply testbit_u64.
Qed.

Lemma cpumask_and_spec d a b : mask_ok d -> mask_ok a -> mask_ok b ->
  exists d' r, cpumask_and d a b = Ret (d', r) /\ mask_ok d'
    /\ (forall i, 0 <= i < 64 -> bit d' i = (i <? NR_CPUS) && (bit a i && bit b i))
    /\ (r = true <-> exists i, is_cpu i /\ bit a i && bit b i = true).
Proof.
  intros (d0 & -> & _)%mask_ok_word (x & -> & Hx)%mask_ok_word (y & -> & Hy)%mask_ok_word.
  destruct (common_word x y Hx Hy) as (Hw & Hbit & Hz).
  set (w := Z.land (Z.land x y) (BITMAP_LAST_WORD_MASK nr_cpumask_bits)) in *.
  exists [w], (negb (w =? 0)). split; [reflexivity|]. split_and!.
  - split; [done|]. constructor; [exact Hw|constructor].
  - intros i Hi. rewrite !bit_word by done. by apply Hbit.
  - rewrite negb_true_iff, Z.eqb_neq. split.
    + intros Hne. destruct (u64_nonzero_bit w Hw Hne) as (i & Hi & Hb). exists i. rewrite Hbit in Hb by done.
      apply andb_true_iff in Hb as [Hl Hb]. apply Z.ltb_lt in Hl. split; [lia|]. by rewrite !bit_word by done.
    + intros (i & Hi & Hb) E. unfold NR_CPUS in Hi. rewrite !bit_word in Hb by lia. rewrite (proj1 Hz E i) in Hb; [done|unfold NR_CPUS; lia].
Qed.

(** The first CPU in both masks, or NR_CPUS. *)
Lemma cpumask_any_and_spec a b : mask_ok a -> mask_ok b ->
  exists r, cpumask_any_and a b = Ret r /\ first_from (fun i => bit a i && bit b i) 0 NR_CPUS r.
Proof.
  intros Ha Hb. apply mask_ok_wf in Ha, Hb.
  destruct (find_next_spec a (Some b) 0 nr_cpumask_bits Ha) with 0 as (r & Hr & Hf); [by intros ? [= <-]|by vm_compute|done|].
  exists r. split; [done|]. eapply first_from_ext; [|done]. intros i. unfold selected. cbn. by rewrite Z.bits_0, xorb_false_r.
Qed.

Lemma cpumask_any_spec a : mask_ok a -> exists r, cpumask_any a = Ret r /\ first_from (bit a) 0 NR_CPUS r.
Proof. intros Ha. apply find_first_bit_spec. by apply mask_ok_wf. Qed.
