(* ===== verification/Cpupri.v ===== *)
(** * Priorities of CPUs

    Model of src/kernel/sched/cpupri.c: for every priority the set of CPUs
    that run at it, used to find the CPUs a task may preempt.  The masks are
    objects of the slab allocator, reached through the interface
    [ObjectAllocator]; memory barriers have no effect on calls that run one
    after the other. *)

From S2P Require Import Prelude Bitops Bitmap BitmapSpec Objects Cpumask.
From stdpp Require Import base list numbers option gmap sets.
#[local] Open Scope Z_scope.
#[local] Open Scope kernel_scope.

Definition MAX_NICE : Z := 19.
Definition MIN_NICE : Z := -20.
Definition NICE_WIDTH : Z := MAX_NICE - MIN_NICE + 1.
Definition MAX_RT_PRIO : Z := 100.
Definition MAX_PRIO : Z := MAX_RT_PRIO + NICE_WIDTH.

Definition CPUPRI_NR_PRIORITIES : Z := MAX_RT_PRIO + 2.
Definition CPUPRI_INVALID : Z := -1.
Definition CPUPRI_IDLE : Z := 0.
Definition CPUPRI_NORMAL : Z := 1.

(** The mask is an object: its address and its words. *)
Record cpupri_vec := mk_vec { count_ : Z; mask_at : Z; vmask : cpumask_t }.
Record cpupri := mk_cpupri { pri_to_cpu : list cpupri_vec; cpu_to_pri_at : Z; cpu_to_pri : list Z }.

Definition convert_prio (prio : Z) : Z :=
  if prio =? CPUPRI_INVALID then CPUPRI_INVALID
  else if prio =? MAX_PRIO then CPUPRI_IDLE
  else if prio >=? MAX_RT_PRIO then CPUPRI_NORMAL
  else MAX_RT_PRIO - prio + 1.

Definition vec_at (cp : cpupri) (idx : Z) : outcome cpupri_vec :=
  if idx <? 0 then Stuck
  else match pri_to_cpu cp !! Z.to_nat idx with Some v => Ret v | None => Stuck end.
Definition put_vec (cp : cpupri) (idx : Z) (v : cpupri_vec) : cpupri :=
  mk_cpupri (<[Z.to_nat idx := v]> (pri_to_cpu cp)) (cpu_to_pri_at cp) (cpu_to_pri cp).

(** The loop of cpupri_find() from [idx] on, [n] rounds; [lowest_mask] is
    [None] for NULL, [nr] is nr_possible_cpu_ids. *)
Fixpoint find_loop (n : nat) (nr : Z) (cp : cpupri) (cpus_allowed : cpumask_t) (lowest_mask : option cpumask_t) (idx : Z)
  : outcome (option cpumask_t * Z) :=
  match n with
  | O => Ret (lowest_mask, 0)
  | S n' =>
      let! vec := vec_at cp idx in
      if count_ vec =? 0 then find_loop n' nr cp cpus_allowed lowest_mask (idx + 1)
      else
        let! a := cpumask_any_and cpus_allowed (vmask vec) in
        if a >=? nr then find_loop n' nr cp cpus_allowed lowest_mask (idx + 1)
        else
          match lowest_mask with
          | Some lm =>
              let! (lm', _) := cpumask_and lm cpus_allowed (vmask vec) in
              let! b := cpumask_any lm' in
              if b >=? nr then find_loop n' nr cp cpus_allowed (Some lm') (idx + 1)
              else Ret (Some lm', 1)
          | None => Ret (None, 1)
          end
  end.

Definition cpupri_find (nr : Z) (cp : cpupri) (prio : Z) (cpus_allowed : cpumask_t) (lowest_mask : option cpumask_t)
  : outcome (option cpumask_t * Z) :=
  let task_pri := convert_prio prio in
  if task_pri >=? CPUPRI_NR_PRIORITIES then Panic
  else find_loop (Z.to_nat task_pri) nr cp cpus_allowed lowest_mask 0.

Definition cpupri_set (cp : cpupri) (cpu newpri : Z) : outcome cpupri :=
  let! oldpri := if cpu <? 0 then Stuck else match cpu_to_pri cp !! Z.to_nat cpu with Some p => Ret p | None => Stuck end in
  let newpri := convert_prio newpri in
  if newpri >=? CPUPRI_NR_PRIORITIES then Panic
  else if newpri =? oldpri then Ret cp
  else
    let! cp1 :=
      if negb (newpri =? CPUPRI_INVALID) then
        let! vec := vec_at cp newpri in
        let! m := cpumask_set_cpu cpu (vmask vec) in
        Ret (put_vec cp newpri (mk_vec (s32 (count_ vec + 1)) (mask_at vec) m))
      else Ret cp in
    let! cp2 :=
      if negb (oldpri =? CPUPRI_INVALID) then
        let! vec := vec_at cp1 oldpri in
        let! m := cpumask_clear_cpu cpu (vmask vec) in
        Ret (put_vec cp1 oldpri (mk_vec (s32 (count_ vec - 1)) (mask_at vec) m))
      else Ret cp1 in
    Ret (mk_cpupri (pri_to_cpu cp2) (cpu_to_pri_at cp2) (<[Z.to_nat cpu := newpri]> (cpu_to_pri cp2))).

Section Init.
Context {K : Type} `{ObjectAllocator K}.

Definition cpumask_size : Z := BITS_TO_LONGS nr_cpumask_bits * 8.
(** zalloc_cpumask_var(): the mask's address, 0 when there is no memory. *)
Definition zalloc_cpumask_var (k : K) : outcome (K * Z) := oa_kzalloc k cpumask_size.
Definition free_cpumask_var (k : K) (m : Z) : outcome K := oa_kfree k m.

(** The first loop of cpupri_init(), [n] rounds: the vectors set up so far and
    whether all masks could be allocated. *)
Fixpoint alloc_vecs (n : nat) (k : K) (vecs : list cpupri_vec) : outcome (K * list cpupri_vec * bool) :=
  match n with
  | O => Ret (k, vecs, true)
  | S n' =>
      let! (k1, p) := zalloc_cpumask_var k in
      if p =? 0 then Ret (k1, vecs, false)
      else alloc_vecs n' k1 (vecs ++ [mk_vec 0 p [0]])
  end.

(** [for (i--; i >= 0; i--)] over the vectors below [i]. *)
Fixpoint free_down (i : nat) (k : K) (vecs : list cpupri_vec) : outcome K :=
  match i with
  | O => Ret k
  | S i' =>
      match vecs !! i' with
      | Some v => let! k1 := free_cpumask_var k (mask_at v) in free_down i' k1 vecs
      | None => Stuck
      end
  end.

(** [for_each_possible_cpu(i) cpu_to_pri[i] = CPUPRI_INVALID] *)
Fixpoint invalidate (possible : list Z) (a : list Z) : outcome (list Z) :=
  match possible with
  | [] => Ret a
  | i :: r => if (i <? 0) || (Z.of_nat (length a) <=? i) then Stuck else invalidate r (<[Z.to_nat i := CPUPRI_INVALID]> a)
  end.

Definition cpupri_init (possible : list Z) (nr : Z) (k : K) : outcome (K * (cpupri + Z)) :=
  let! (k1, vecs, ok) := alloc_vecs (Z.to_nat CPUPRI_NR_PRIORITIES) k [] in
  if negb ok then let! k2 := free_down (length vecs) k1 vecs in Ret (k2, inr (- ENOMEM))
  else
    let! (k2, p) := oa_kzalloc k1 (nr * 4) in
    if p =? 0 then let! k3 := free_down (length vecs) k2 vecs in Ret (k3, inr (- ENOMEM))
    else
      let! a := invalidate possible (replicate (Z.to_nat nr) 0) in
      Ret (k2, inl (mk_cpupri vecs p a)).

(** [for (i = 0; i < CPUPRI_NR_PRIORITIES; i++)] *)
Fixpoint free_up (vecs : list cpupri_vec) (k : K) : outcome K :=
  match vecs with
  | [] => Ret k
  | v :: r => let! k1 := free_cpumask_var k (mask_at v) in free_up r k1
  end.
Definition cpupri_cleanup (k : K) (cp : cpupri) : outcome K :=
  let! k1 := oa_kfree k (cpu_to_pri_at cp) in free_up (pri_to_cpu cp) k1.
End Init.
