(* ===== verification/CpupriProps.v ===== *)
(** * CPU priorities: the invariant and the theorem

    [cpupri_ok] relates the tables to the priority of every CPU; cpupri_set()
    changes one priority, cpupri_find() searches by them, and setting up and
    taking down give back every object. *)

From S2P Require Import Prelude Bitops Bitmap BitmapSpec Objects Cpumask Cpupri.
From stdpp Require Import base list numbers option gmap sets.
#[local] Open Scope Z_scope.
#[local] Open Scope kernel_scope.

(** [f cpu] is the priority of a CPU below [nr]. *)
Record vec_ok (nr : Z) (f : Z -> Z) (p : Z) (v : cpupri_vec) : Prop := {
  vo_mask : mask_ok (vmask v);
  vo_bits : forall i, 0 <= i < 64 -> bit (vmask v) i = (i <? nr) && (f i =? p);
  vo_count : count_ v = count (fun i => f i =? p) (Z.to_nat nr);
}.

Record cpupri_ok (nr : Z) (cp : cpupri) (f : Z -> Z) : Prop := {
  co_nr : 0 < nr <= NR_CPUS;
  co_vecs : forall p, 0 <= p < CPUPRI_NR_PRIORITIES -> exists v, pri_to_cpu cp !! Z.to_nat p = Some v /\ vec_ok nr f p v;
  co_len : Z.of_nat (length (pri_to_cpu cp)) = CPUPRI_NR_PRIORITIES;
  co_pris : forall c, 0 <= c < nr -> cpu_to_pri cp !! Z.to_nat c = Some (f c);
  co_range : forall c, 0 <= c < nr -> CPUPRI_INVALID <= f c < CPUPRI_NR_PRIORITIES;
}.

Lemma convert_prio_range prio : CPUPRI_INVALID <= prio -> CPUPRI_INVALID <= convert_prio prio < CPUPRI_NR_PRIORITIES.
Proof.
  intros Hp. change CPUPRI_INVALID with (-1) in *. unfold convert_prio. change CPUPRI_NR_PRIORITIES with 102. change CPUPRI_INVALID with (-1).
  change MAX_PRIO with 140. change MAX_RT_PRIO with 100. change CPUPRI_IDLE with 0. change CPUPRI_NORMAL with 1.
  destruct (Z.eqb_spec prio (-1)), (Z.eqb_spec prio 140), (Z.geb_spec prio 100); lia.
Qed.

Lemma vec_at_ok nr cp f p : cpupri_ok nr cp f -> 0 <= p < CPUPRI_NR_PRIORITIES -> exists v, vec_at cp p = Ret v /\ vec_ok nr f p v.
Proof.
  intros Hok Hp. destruct (co_vecs _ _ _ Hok p Hp) as (v & E & Hv). exists v. split; [|done]. unfold vec_at.
  destruct (Z.ltb_spec p 0); [lia|]. by rewrite E.
Qed.

(** ** Searching *)

Section Find.
Context (nr : Z) (cp : cpupri) (f : Z -> Z) (allowed : cpumask_t).
Hypotheses (Hok : cpupri_ok nr cp f) (Hallow : mask_ok allowed).

(** A CPU the task may run on, at priority [p]. *)
Definition candidate (p c : Z) : Prop := 0 <= c < nr /\ bit allowed c = true /\ f c = p.

(** What [find_loop] answers: the candidates of the lowest priority from [idx]
    up to [top] that has any. *)
Definition found (idx top : Z) (lm lm' : option cpumask_t) (r : Z) : Prop :=
  (r = 0 /\ lm' = lm /\ forall p c, idx <= p < top -> ~ candidate p c)
  \/ (r = 1 /\ exists p, idx <= p < top /\ (exists c, candidate p c)
        /\ (forall q c, idx <= q < p -> ~ candidate q c)
        /\ (lm = None <-> lm' = None)
        /\ forall m, lm' = Some m -> mask_ok m /\ forall c, is_cpu c -> (bit m c = true <-> candidate p c)).

Lemma found_skip idx top lm lm' r : (forall c, ~ candidate idx c) -> idx < top -> found (idx + 1) top lm lm' r -> found idx top lm lm' r.
Proof.
  intros Hno Hlt [(-> & -> & Hn)|(-> & p & Hp & Hc & Hn & Hl)].
  - left. split_and!; try done. intros p c Hp. destruct (decide (p = idx)) as [->|]; [apply Hno|apply Hn; lia].
  - right. split; [done|]. exists p. split_and!; [lia|lia|done| |apply Hl|apply Hl]. intros q c Hq. destruct (decide (q = idx)) as [->|]; [apply Hno|apply Hn; lia].
Qed.

Lemma count_zero_none P n : count P n = 0 -> forall i, 0 <= i < Z.of_nat n -> P i = false.
Proof.
  induction n as [|n IH]; intros E i Hi; [lia|]. cbn in E. pose proof (count_bounds P n).
  destruct (decide (i = Z.of_nat n)) as [->|]; destruct (P (Z.of_nat n)) eqn:Ep; try done; try lia. apply IH; lia.
Qed.

Lemma any_and_candidates v p : vec_ok nr f p v ->
  exists a, cpumask_any_and allowed (vmask v) = Ret a /\ if a >=? nr then forall c, ~ candidate p c else candidate p a.
Proof.
  intros Hv. destruct (cpumask_any_and_spec allowed (vmask v) Hallow (vo_mask _ _ _ _ Hv)) as (a & E & Hf).
  pose proof (co_nr _ _ _ Hok) as Hnr. exists a. split; [done|]. destruct (Z.geb_spec a nr).
  - intros c (Hc & Hb & Hp). pose proof (ff_none _ _ _ _ Hf c ltac:(lia)) as Hn. unfold NR_CPUS in Hnr. cbn beta in Hn.
    rewrite Hb, (vo_bits _ _ _ _ Hv) in Hn by lia. destruct (Z.ltb_spec c nr); [|lia]. rewrite (proj2 (Z.eqb_eq _ _) Hp) in Hn. done.
  - destruct (ff_found _ _ _ _ Hf ltac:(lia)) as [Ha Hb]. apply andb_true_iff in Hb as [H1 H2]. unfold NR_CPUS in Hnr.
    rewrite (vo_bits _ _ _ _ Hv) in H2 by lia. apply andb_true_iff in H2 as [_ H2%Z.eqb_eq]. split; [lia|done].
Qed.

Lemma and_candidates lm v p : mask_ok lm -> vec_ok nr f p v ->
  exists lm' b, cpumask_and lm allowed (vmask v) = Ret (lm', b) /\ mask_ok lm' /\ forall c, is_cpu c -> (bit lm' c = true <-> candidate p c).
Proof.
  intros Hl Hv. destruct (cpumask_and_spec lm allowed (vmask v) Hl Hallow (vo_mask _ _ _ _ Hv)) as (m & b & E & Hm & Hb & _).
  exists m, b. split_and!; [done|done|]. intros c Hc. pose proof (co_nr _ _ _ Hok) as Hnr. unfold NR_CPUS in *.
  rewrite Hb by lia. rewrite (vo_bits _ _ _ _ Hv) by lia. unfold candidate, NR_CPUS.
  rewrite !andb_true_iff, !Z.ltb_lt, Z.eqb_eq. intuition lia.
Qed.

Lemma cpupri_loop_spec : forall n lm idx,
  0 <= idx -> idx + Z.of_nat n <= CPUPRI_NR_PRIORITIES -> (forall m, lm = Some m -> mask_ok m) ->
  exists lm' r, find_loop n nr cp allowed lm idx = Ret (lm', r) /\ found idx (idx + Z.of_nat n) lm lm' r.
Proof.
  induction n as [|n IH]; intros lm idx Hi Hn Hlm.
  { exists lm, 0. split; [done|]. left. split_and!; try done. intros; lia. }
  cbn [find_loop]. destruct (vec_at_ok nr cp f idx Hok ltac:(lia)) as (v & -> & Hv). cbn [obind].
  assert (Hskip : forall lm, (forall m, lm = Some m -> mask_ok m) -> (forall c, ~ candidate idx c) ->
    exists lm' r, find_loop n nr cp allowed lm (idx + 1) = Ret (lm', r) /\ found idx (idx + Z.of_nat (S n)) lm lm' r).
  { intros lm0 Hlm0 Hno. destruct (IH lm0 (idx + 1)) as (lm' & r & E & Hf); [lia|lia|done|]. exists lm', r. split; [done|].
    apply found_skip; [done|lia|]. by replace (idx + Z.of_nat (S n)) with (idx + 1 + Z.of_nat n) by lia. }
  destruct (Z.eqb_spec (count_ v) 0) as [Ez|_].
  { apply (Hskip lm Hlm). intros c (Hc & _ & Hp). rewrite (vo_count _ _ _ _ Hv) in Ez.
    pose proof (count_zero_none _ _ Ez c ltac:(lia)) as Hf. cbn beta in Hf. by apply Z.eqb_neq in Hf. }
  destruct (any_and_candidates v idx Hv) as (a & -> & Ha). cbn [obind]. destruct (a >=? nr) eqn:Ea; [by apply (Hskip lm Hlm)|].
  destruct lm as [lm|].
  - destruct (and_candidates lm v idx (Hlm _ eq_refl) Hv) as (m & b0 & -> & Hm & Hc). cbn [obind].
    destruct (cpumask_any_spec m Hm) as (b & -> & Hf). cbn [obind].
    destruct (Z.geb_spec b nr) as [Hb|Hb].
    + exfalso. pose proof (co_nr _ _ _ Hok). destruct Ha as (Ha & Ha' & Ha'').
      pose proof (ff_none _ _ _ _ Hf a ltac:(lia)) as Hn'. rewrite (proj2 (Hc a ltac:(lia))) in Hn'; [done|done].
    + exists (Some m), 1. split; [done|]. right. split; [done|]. exists idx. split_and!; [lia|lia|by exists a|intros; lia|done|].
      intros m' [= <-]. done.
  - exists None, 1. split; [done|]. right. split; [done|]. exists idx. split_and!; [lia|lia|by exists a|intros; lia|done|done].
Qed.
End Find.

(** ** Setting the priority of a CPU *)

Definition upd_pri (f : Z -> Z) (cpu p : Z) : Z -> Z := fun c => if c =? cpu then p else f c.

Lemma vec_ok_other nr f cpu np p v : vec_ok nr f p v -> p <> np -> p <> f cpu -> vec_ok nr (upd_pri f cpu np) p v.
Proof.
  intros [Hm Hb Hc] Hnp Hop. assert (E : forall i, (upd_pri f cpu np i =? p) = (f i =? p)).
  { intros i. unfold upd_pri. destruct (Z.eqb_spec i cpu) as [->|]; [|done]. destruct (Z.eqb_spec np p), (Z.eqb_spec (f cpu) p); done || lia. }
  split; [done| |].
  - intros i Hi. rewrite Hb by done. by rewrite E.
  - rewrite Hc. apply count_ext. intros i _. by rewrite E.
Qed.

(** One vector gains or loses the CPU. *)
Lemma vec_ok_move nr f cpu np p v m (b : bool) :
  vec_ok nr f p v -> 0 <= cpu < nr -> nr <= NR_CPUS -> np <> f cpu -> p = (if b then np else f cpu) ->
  mask_ok m -> (forall i, 0 <= i -> bit m i = if i =? cpu then b else bit (vmask v) i) ->
  vec_ok nr (upd_pri f cpu np) p (mk_vec (s32 (count_ v + (if b then 1 else -1))) (mask_at v) m).
Proof.
  intros [Hm Hb Hc] Hcpu Hnr Hne -> Hmok Hbit. unfold NR_CPUS in Hnr.
  assert (Hat : (upd_pri f cpu np cpu =? (if b then np else f cpu)) = b /\ (f cpu =? (if b then np else f cpu)) = negb b).
  { unfold upd_pri. rewrite Z.eqb_refl. destruct b; rewrite ?Z.eqb_refl; split; try done; apply Z.eqb_neq; lia. }
  assert (Hoff : forall i, i <> cpu -> upd_pri f cpu np i = f i).
  { intros i Hi. unfold upd_pri. by destruct (Z.eqb_spec i cpu). }
  split; cbn [vmask count_]; [done| |].
  - intros i Hi. rewrite Hbit by lia. destruct (Z.eqb_spec i cpu) as [->|Hi'].
    + destruct (Z.ltb_spec cpu nr); [|lia]. by rewrite (proj1 Hat).
    + rewrite Hb by done. by rewrite Hoff.
  - rewrite (bits_count_range (fun i => f i =? (if b then np else f cpu)) _ cpu (cpu + 1) (Z.to_nat nr) b); [|lia|lia| |].
    + rewrite <- Hc. assert (0 <= count_ v <= nr). { rewrite Hc. pose proof (count_bounds (fun i => f i =? (if b then np else f cpu)) (Z.to_nat nr)). lia. }
      rewrite s32_id by (destruct b; lia). destruct b; lia.
    + intros i Hi. assert (i = cpu) as -> by lia. tauto.
    + intros i _ Hi. by rewrite Hoff by lia.
Qed.

Lemma put_vec_lookup cp p v q : 0 <= p < Z.of_nat (length (pri_to_cpu cp)) -> 0 <= q ->
  pri_to_cpu (put_vec cp p v) !! Z.to_nat q = if q =? p then Some v else pri_to_cpu cp !! Z.to_nat q.
Proof.
  intros Hp Hq. cbn. destruct (Z.eqb_spec q p) as [->|].
  - by rewrite list_lookup_insert_eq by lia.
  - by rewrite list_lookup_insert_ne by lia.
Qed.

Lemma cpupri_ok_ext nr cp f g : cpupri_ok nr cp f -> (forall c, f c = g c) -> cpupri_ok nr cp g.
Proof.
  intros [O1 O2 O3 O4 O5] Hf. split; [done| |done| |].
  - intros p Hp. destruct (O2 p Hp) as (v & Ev & [V1 V2 V3]). exists v. split; [done|]. split; [done| |].
    + intros i Hi. by rewrite V2, Hf.
    + rewrite V3. apply count_ext. intros i _. by rewrite Hf.
  - intros c Hc. by rewrite <- Hf, O4.
  - intros c Hc. rewrite <- Hf. by apply O5.
Qed.

(** What every vector of [cp'] satisfies, and that the rest is as in [cp]. *)
Record vecs_are (cp cp' : cpupri) (Q : Z -> cpupri_vec -> Prop) : Prop := {
  va_pris : cpu_to_pri cp' = cpu_to_pri cp;
  va_len : length (pri_to_cpu cp') = length (pri_to_cpu cp);
  va_vec : forall p, 0 <= p < CPUPRI_NR_PRIORITIES -> exists v, pri_to_cpu cp' !! Z.to_nat p = Some v /\ Q p v;
}.

Section Set_.
Context (nr : Z) (cp : cpupri) (f : Z -> Z) (cpu np : Z).
Hypotheses (Hok : cpupri_ok nr cp f) (Hcpu : 0 <= cpu < nr) (Hnp : -1 <= np < CPUPRI_NR_PRIORITIES) (Hne : np <> f cpu).

(** The CPU enters the mask of its new priority, *)
Lemma enter_new : exists cp1,
  (if negb (np =? CPUPRI_INVALID) then
     let! vec := vec_at cp np in
     let! m := cpumask_set_cpu cpu (vmask vec) in
     Ret (put_vec cp np (mk_vec (s32 (count_ vec + 1)) (mask_at vec) m))
   else Ret cp) = Ret cp1
  /\ vecs_are cp cp1 (fun p v => if p =? np then vec_ok nr (upd_pri f cpu np) p v else vec_ok nr f p v).
Proof.
  pose proof (co_nr _ _ _ Hok). change CPUPRI_INVALID with (-1). destruct (Z.eqb_spec np (-1)) as [E1|E1]; cbn [negb].
  - exists cp. split; [done|]. split; [done|done|]. intros p Hp. destruct (co_vecs _ _ _ Hok p Hp) as (v & Ev & Hv). exists v. split; [done|].
    destruct (Z.eqb_spec p np); [lia|done].
  - destruct (vec_at_ok nr cp f np Hok ltac:(lia)) as (v & -> & Hv). cbn [obind].
    destruct (cpumask_set_cpu_spec (vmask v) cpu (vo_mask _ _ _ _ Hv) ltac:(lia)) as (m & -> & Hm & Hbit). cbn [obind].
    eexists. split; [reflexivity|]. split; [done|cbn; by rewrite length_insert|]. intros p Hp.
    rewrite put_vec_lookup by (rewrite ?(co_len _ _ _ Hok); lia). destruct (Z.eqb_spec p np) as [->|].
    + eexists. split; [done|]. apply (vec_ok_move nr f cpu np np v m true); try done; lia.
    + apply (co_vecs _ _ _ Hok p Hp).
Qed.

(** and then leaves that of the old one. *)
Lemma leave_old cp1 :
  vecs_are cp cp1 (fun p v => if p =? np then vec_ok nr (upd_pri f cpu np) p v else vec_ok nr f p v) ->
  exists cp2,
  (if negb (f cpu =? CPUPRI_INVALID) then
     let! vec := vec_at cp1 (f cpu) in
     let! m := cpumask_clear_cpu cpu (vmask vec) in
     Ret (put_vec cp1 (f cpu) (mk_vec (s32 (count_ vec - 1)) (mask_at vec) m))
   else Ret cp1) = Ret cp2
  /\ vecs_are cp cp2 (vec_ok nr (upd_pri f cpu np)).
Proof.
  intros [Ep1 El1 Hv1]. pose proof (co_nr _ _ _ Hok). pose proof (co_range _ _ _ Hok cpu Hcpu) as Hop. change CPUPRI_INVALID with (-1) in *.
  assert (Hother : forall p, 0 <= p < CPUPRI_NR_PRIORITIES -> p <> f cpu ->
    exists v, pri_to_cpu cp1 !! Z.to_nat p = Some v /\ vec_ok nr (upd_pri f cpu np) p v).
  { intros p Hp Hpf. destruct (Hv1 p Hp) as (v & Ev & Hv). exists v. split; [done|].
    destruct (Z.eqb_spec p np); [done|]. by apply vec_ok_other. }
  destruct (Z.eqb_spec (f cpu) (-1)) as [E2|E2]; cbn [negb].
  - exists cp1. split; [done|]. split; [done|done|]. intros p Hp. apply Hother; lia.
  - destruct (Hv1 (f cpu) ltac:(lia)) as (v & Ev & Hv). destruct (Z.eqb_spec (f cpu) np); [lia|].
    unfold vec_at at 1. destruct (Z.ltb_spec (f cpu) 0); [lia|]. rewrite Ev. cbn [obind].
    destruct (cpumask_clear_cpu_spec (vmask v) cpu (vo_mask _ _ _ _ Hv) ltac:(lia)) as (m & -> & Hm & Hbit). cbn [obind].
    eexists. split; [reflexivity|]. split; [done|cbn; by rewrite length_insert|]. intros p Hp.
    rewrite put_vec_lookup by (rewrite ?El1, ?(co_len _ _ _ Hok); lia). destruct (Z.eqb_spec p (f cpu)) as [->|].
    + eexists. split; [done|]. apply (vec_ok_move nr f cpu np (f cpu) v m false); try done; lia.
    + by apply Hother.
Qed.
End Set_.

Lemma cpupri_set_spec nr cp f cpu newpri :
  cpupri_ok nr cp f -> 0 <= cpu < nr -> CPUPRI_INVALID <= newpri ->
  exists cp', cpupri_set cp cpu newpri = Ret cp' /\ cpupri_ok nr cp' (upd_pri f cpu (convert_prio newpri)).
Proof.
  intros Hok Hcpu Hpri. pose proof (convert_prio_range newpri Hpri) as Hnp. unfold cpupri_set. destruct (Z.ltb_spec cpu 0); [lia|].
  rewrite (co_pris _ _ _ Hok cpu Hcpu). cbn [obind]. set (np := convert_prio newpri) in *.
  destruct (Z.geb_spec np CPUPRI_NR_PRIORITIES); [lia|]. destruct (Z.eqb_spec np (f cpu)) as [E|Hne].
  { exists cp. split; [done|]. apply (cpupri_ok_ext nr cp f); [done|]. intros c. unfold upd_pri. by destruct (Z.eqb_spec c cpu) as [->|]. }
  destruct (enter_new nr cp f cpu np Hok Hcpu Hnp Hne) as (cp1 & -> & Hv1). cbn [obind].
  destruct (leave_old nr cp f cpu np Hok Hcpu Hne cp1 Hv1) as (cp2 & -> & [Ep2 El2 Hv2]). cbn [obind].
  eexists. split; [reflexivity|]. split; cbn [pri_to_cpu cpu_to_pri].
  - apply (co_nr _ _ _ Hok).
  - done.
  - by rewrite El2, (co_len _ _ _ Hok).
  - intros c Hc. rewrite Ep2. unfold upd_pri. pose proof (lookup_lt_Some _ _ _ (co_pris _ _ _ Hok cpu Hcpu)). destruct (Z.eqb_spec c cpu) as [->|].
    + by rewrite list_lookup_insert_eq.
    + rewrite list_lookup_insert_ne by lia. by apply (co_pris _ _ _ Hok).
  - intros c Hc. unfold upd_pri. destruct (Z.eqb_spec c cpu); [done|]. by apply (co_range _ _ _ Hok).
Qed.

(** ** Setting up and taking down *)

Section Setup.
Context {K : Type} `{ObjectAllocatorLaws K}.

(** [vecs] are fresh empty vectors whose masks are the objects of [k] beyond
    [live]. *)
Record vecs_live (live : gset Z) (k : K) (vecs : list cpupri_vec) : Prop := {
  vl_live : oa_live k = live ∪ list_to_set (mask_at <$> vecs);
  vl_disj : live ## list_to_set (mask_at <$> vecs);
  vl_nodup : NoDup (mask_at <$> vecs);
  vl_empty : Forall (fun v => count_ v = 0 /\ vmask v = [0]) vecs;
}.

Lemma alloc_vecs_spec live : forall n k vecs, vecs_live live k vecs ->
  exists k' vecs' ok, alloc_vecs n k vecs = Ret (k', vecs', ok) /\ vecs_live live k' vecs'
    /\ (ok = true -> length vecs' = (length vecs + n)%nat).
Proof.
  induction n as [|n IH]; intros k vecs Hv; cbn [alloc_vecs]; [by exists k, vecs, true|].
  unfold zalloc_cpumask_var. destruct (oa_kzalloc_law k cpumask_size ltac:(by vm_compute)) as (k1 & p & -> & Hp). cbn [obind].
  destruct Hv as [V1 V2 V3 V4]. destruct (Z.eqb_spec p 0) as [->|Hp0].
  - destruct Hp as [[_ E]|[? _]]; [|done]. exists k1, vecs, false. split; [done|]. split; [|done]. split; [by rewrite E|done..].
  - destruct Hp as [[? _]|(_ & Hfresh & E)]; [done|].
    destruct (IH k1 (vecs ++ [mk_vec 0 p [0]])) as (k' & vecs' & ok & E' & Hv' & Hl).
    + rewrite V1 in Hfresh. split; rewrite ?fmap_app; cbn [fmap list_fmap mask_at].
      * rewrite E, V1, list_to_set_app_L. set_solver.
      * rewrite list_to_set_app_L. set_solver.
      * apply NoDup_app. split_and!; [done| |apply NoDup_singleton]. intros x Hx ->%list_elem_of_singleton. set_solver.
      * apply Forall_app. split; [done|]. by repeat constructor.
    + exists k', vecs', ok. split_and!; [done|done|]. intros Hok. rewrite (Hl Hok), length_app. cbn. lia.
Qed.

Lemma free_down_spec live : forall i k vecs, (i <= length vecs)%nat -> vecs_live live k (take i vecs) ->
  exists k', free_down i k vecs = Ret k' /\ oa_live k' = live.
Proof.
  induction i as [|i IH]; intros k vecs Hi Hv; cbn [free_down].
  - exists k. split; [done|]. rewrite (vl_live _ _ _ Hv). cbn. set_solver.
  - destruct (lookup_lt_is_Some_2 vecs i ltac:(lia)) as [v Ev]. rewrite Ev. rewrite (take_S_r _ _ _ Ev) in Hv.
    destruct Hv as [V1 V2 V3 V4]. rewrite fmap_app, list_to_set_app_L in *. cbn [fmap list_fmap] in *.
    destruct (oa_kfree_law k (mask_at v)) as (k1 & E & E1); [set_solver|]. unfold free_cpumask_var. rewrite E. cbn [obind].
    apply NoDup_app in V3 as (N1 & N2 & _). apply Forall_app in V4 as [V4 _].
    apply (IH k1 vecs ltac:(lia)). split; [|set_solver|done|done].
    rewrite E1, V1. specialize (N2 (mask_at v)). set_solver.
Qed.

Lemma free_up_spec live : forall vecs k, vecs_live live k vecs -> exists k', free_up vecs k = Ret k' /\ oa_live k' = live.
Proof.
  induction vecs as [|v vecs IH]; intros k [V1 V2 V3 V4]; cbn [free_up].
  - exists k. split; [done|]. rewrite V1. cbn. set_solver.
  - cbn in V1, V2. destruct (oa_kfree_law k (mask_at v)) as (k1 & E & E1); [set_solver|]. unfold free_cpumask_var. rewrite E. cbn [obind].
    apply NoDup_cons in V3 as [N1 N2]. inversion V4; subst. apply IH. split; [|set_solver|done|done].
    rewrite E1, V1. set_solver.
Qed.

Lemma invalidate_spec : forall possible a, Forall (fun c => 0 <= c < Z.of_nat (length a)) possible ->
  exists a', invalidate possible a = Ret a' /\ length a' = length a
    /\ (forall c, c ∈ possible -> a' !! Z.to_nat c = Some CPUPRI_INVALID)
    /\ (forall i, a !! i = Some CPUPRI_INVALID -> a' !! i = Some CPUPRI_INVALID).
Proof.
  induction possible as [|c r IH]; intros a Hall; cbn [invalidate].
  - exists a. split_and!; try done. by intros ? ?%not_elem_of_nil.
  - inversion Hall as [|? ? Hc Hr]; subst. destruct (Z.ltb_spec c 0); [lia|]. destruct (Z.leb_spec (Z.of_nat (length a)) c); [lia|]. cbn [orb].
    destruct (IH (<[Z.to_nat c := CPUPRI_INVALID]> a)) as (a' & E & Hl & I1 & I2); [by rewrite length_insert|].
    exists a'. rewrite length_insert in Hl. split_and!; [done|done| |].
    + intros d [->|Hd]%elem_of_cons; [|by apply I1]. apply I2. by rewrite list_lookup_insert_eq by lia.
    + intros i Hi. apply I2. destruct (decide (i = Z.to_nat c)) as [->|]; [by rewrite list_lookup_insert_eq by lia|by rewrite list_lookup_insert_ne].
Qed.

(** What cpupri_init() asks for: a mask for each priority and the table of CPUs. *)
Definition cpupri_requests (nr : Z) : list Z := replicate (Z.to_nat CPUPRI_NR_PRIORITIES) cpumask_size ++ [nr * 4].
Lemma alloc_vecs_serves n : forall (k : K) vecs rest k1 vecs1 ok, alloc_vecs n k vecs = Ret (k1, vecs1, ok) ->
  oa_serves k (replicate n cpumask_size ++ rest) = ok && oa_serves k1 rest.
Proof.
  induction n as [|n IH]; intros k vecs rest k1 vecs1 ok; cbn [alloc_vecs replicate app oa_serves]; [by intros [= <- <- <-]|]. unfold zalloc_cpumask_var.
  destruct (oa_kzalloc k cpumask_size) as [[k2 p]| |]; try done. cbn [obind]. destruct (p =? 0); [by intros [= <- <- <-]|]. apply IH.
Qed.

(** All CPUs below [nr] are possible: cpupri_init() fails and gives back
    everything, or sets up tables in which no CPU has a priority. *)
Lemma cpupri_init_spec possible nr (k : K) : 0 < nr <= NR_CPUS -> (forall c, c ∈ possible <-> 0 <= c < nr) ->
  exists k' res, cpupri_init possible nr k = Ret (k', res)
    /\ match res with
       | inl cp => cpupri_ok nr cp (fun _ => CPUPRI_INVALID) /\ exists k2, cpupri_cleanup k' cp = Ret k2 /\ oa_live k2 = oa_live k
       | inr e => e = - ENOMEM /\ oa_live k' = oa_live k /\ oa_serves k (cpupri_requests nr) = false
       end.
Proof.
  intros Hnr Hpos. pose proof (alloc_vecs_serves 102 k [] [nr * 4]) as Hsv. change (replicate 102 cpumask_size ++ [nr * 4]) with (cpupri_requests nr) in Hsv. unfold cpupri_init. change (Z.to_nat CPUPRI_NR_PRIORITIES) with 102%nat.
  destruct (alloc_vecs_spec (oa_live k) 102 k []) as (k1 & vecs & ok & Eal & Hv & Hl).
  { split; cbn; [set_solver|set_solver|constructor|constructor]. }
  specialize (Hsv _ _ _ Eal). rewrite Eal.
  assert (Hfree : forall k2, oa_live k2 = oa_live k1 -> exists k3, free_down (length vecs) k2 vecs = Ret k3 /\ oa_live k3 = oa_live k).
  { intros k2 E. apply free_down_spec; [done|]. rewrite firstn_all. destruct Hv. split; [by rewrite E|done..]. }
  cbn [obind]. destruct ok; cbn [negb].
  2:{ destruct (Hfree k1 eq_refl) as (k2 & -> & E). cbn [obind]. by exists k2, (inr (- ENOMEM)). }
  cbn [oa_serves andb] in Hsv.
  specialize (Hl eq_refl). cbn in Hl.
  destruct (oa_kzalloc_law k1 (nr * 4) ltac:(lia)) as (k2 & p & Ek & Hp). rewrite Ek. rewrite Ek in Hsv. cbn [obind]. destruct (Z.eqb_spec p 0) as [E0|Hp0]; [subst p|].
  { destruct Hp as [[_ E]|[? _]]; [|done]. destruct (Hfree k2 E) as (k3 & -> & E3). cbn [obind]. by exists k3, (inr (- ENOMEM)). }
  destruct Hp as [[? _]|(_ & Hfresh & E)]; [done|].
  destruct (invalidate_spec possible (replicate (Z.to_nat nr) 0)) as (a & -> & Hla & Ha & _).
  { apply Forall_forall. intros c Hc. rewrite length_replicate. apply Hpos in Hc. lia. }
  cbn [obind]. eexists _, _. split; [reflexivity|]. cbn beta iota. split.
  - split; cbn [pri_to_cpu cpu_to_pri].
    + done.
    + intros q Hq. change CPUPRI_NR_PRIORITIES with 102 in Hq. destruct (lookup_lt_is_Some_2 vecs (Z.to_nat q) ltac:(lia)) as [v Ev].
      exists v. split; [done|]. destruct (Forall_lookup_1 _ _ _ _ (vl_empty _ _ _ Hv) Ev) as [Ec Em].
      assert (Hf : forall i : Z, (CPUPRI_INVALID =? q) = false) by (intros; apply Z.eqb_neq; change CPUPRI_INVALID with (-1); lia).
      split; rewrite ?Em; [split; [done|by repeat constructor]| |].
      * intros i Hi. rewrite Hf by done. rewrite bit_word, Z.bits_0, andb_false_r by done. done.
      * rewrite Ec. symmetry. apply (count_const _ _ false). intros i _. by apply Hf.
    + by rewrite Hl.
    + intros c Hc. apply Ha. by apply Hpos.
    + intros c _. by vm_compute.
  - unfold cpupri_cleanup. cbn [cpu_to_pri_at pri_to_cpu]. destruct (oa_kfree_law k2 p) as (k3 & -> & E3); [set_solver|]. cbn [obind].
    apply free_up_spec. destruct Hv as [V1 V2 V3 V4]. split; [|done|done|done]. rewrite E3, E. set_solver.
Qed.
End Setup.

(** ** The objects of the tables stay the same *)

Definition same_objects (cp cp' : cpupri) : Prop :=
  mask_at <$> pri_to_cpu cp' = mask_at <$> pri_to_cpu cp /\ cpu_to_pri_at cp' = cpu_to_pri_at cp.

Lemma put_vec_objects cp p v c m : vec_at cp p = Ret v -> same_objects cp (put_vec cp p (mk_vec c (mask_at v) m)).
Proof.
  unfold vec_at. destruct (p <? 0); [done|]. destruct (pri_to_cpu cp !! Z.to_nat p) as [v0|] eqn:E; [|done]. intros [= ->].
  split; [|done]. cbn. rewrite list_fmap_insert. cbn. apply list_insert_id. by rewrite list_lookup_fmap, E.
Qed.

Lemma cpupri_set_objects cp cpu p cp' : cpupri_set cp cpu p = Ret cp' -> same_objects cp cp'.
Proof.
  unfold cpupri_set. intros R. run_inv R. destruct (_ >=? _); [done|]. destruct (_ =? _); [by simplify_eq|].
  assert (Hstep : forall cp0 cp1 q (b : bool) op d, (if b then let! vec := vec_at cp0 q in let! m := op cpu (vmask vec) in
      Ret (put_vec cp0 q (mk_vec (s32 (count_ vec + d)) (mask_at vec) m)) else Ret cp0) = Ret cp1 -> same_objects cp0 cp1).
  { intros cp0 cp1 q [] op d R0; [|by simplify_eq]. destruct (vec_at cp0 q) eqn:Ev; try done. cbn in R0.
    destruct (op cpu (vmask _)); try done. cbn in R0. simplify_eq. by apply put_vec_objects. }
  destruct (if negb _ then _ else Ret cp) as [cp1| |] eqn:E1; try done. cbn [obind] in R.
  destruct (if negb _ then _ else Ret cp1) as [cp2| |] eqn:E2; try done. cbn [obind] in R. simplify_eq.
  apply (Hstep cp cp1 _ _ cpumask_set_cpu 1) in E1. apply (Hstep cp1 cp2 _ _ cpumask_clear_cpu (-1)) in E2.
  destruct E1 as [A1 A2], E2 as [B1 B2]. split; cbn; congruence.
Qed.

Section Whole.
Context {K : Type} `{ObjectAllocatorLaws K}.

Lemma free_up_objects : forall v1 v2 (k : K), mask_at <$> v1 = mask_at <$> v2 -> free_up v1 k = free_up v2 k.
Proof.
  induction v1 as [|a v1 IH]; intros [|b v2] k E; try done. cbn in E. injection E as Ea Er. cbn [free_up]. rewrite Ea.
  destruct (free_cpumask_var k (mask_at b)); [|done|done]. cbn. by apply IH.
Qed.

Lemma cleanup_objects cp cp' (k : K) : same_objects cp cp' -> cpupri_cleanup k cp' = cpupri_cleanup k cp.
Proof.
  intros [E1 E2]. unfold cpupri_cleanup. rewrite E2. destruct (oa_kfree k _); [|done|done]. cbn. by apply free_up_objects.
Qed.

(** A sequence of calls of cpupri_set() and the priorities after it. *)
Fixpoint set_all (cp : cpupri) (ops : list (Z * Z)) : outcome cpupri :=
  match ops with
  | [] => Ret cp
  | (cpu, p) :: r => let! cp' := cpupri_set cp cpu p in set_all cp' r
  end.
Definition pris_after (ops : list (Z * Z)) (f : Z -> Z) : Z -> Z :=
  fold_left (fun g '(cpu, p) => upd_pri g cpu (convert_prio p)) ops f.

Lemma set_all_spec nr : forall ops cp f, cpupri_ok nr cp f -> Forall (fun '(cpu, p) => 0 <= cpu < nr /\ CPUPRI_INVALID <= p) ops ->
  exists cp', set_all cp ops = Ret cp' /\ cpupri_ok nr cp' (pris_after ops f) /\ same_objects cp cp'.
Proof.
  induction ops as [|[cpu p] r IH]; intros cp f Hok Hall; cbn [set_all]; [by exists cp|].
  apply Forall_cons in Hall as [[Hc Hp] Hr]. destruct (cpupri_set_spec nr cp f cpu p Hok Hc Hp) as (cp1 & E & Hok1). rewrite E. cbn [obind].
  destruct (IH cp1 _ Hok1 Hr) as (cp' & E' & Hok' & Ho). exists cp'. split_and!; [done|done|].
  destruct Ho as [A1 A2], (cpupri_set_objects _ _ _ _ E) as [B1 B2]. split; congruence.
Qed.

(** C26. cpupri: setting up the tables fails with -ENOMEM and gives back every
    object, which it does only when the allocator cannot serve its requests, or
    after any sequence of cpupri_set() calls cpupri_find() answers by the last priority of each CPU: 0 and an untouched mask when no CPU the
    task may use runs at a lower priority, otherwise 1 and exactly those CPUs of
    the lowest priority; and cpupri_cleanup() gives back every object. *)
Theorem cpupri_correct possible nr (k : K) ops prio allowed lm :
  0 < nr <= NR_CPUS -> (forall c, c ∈ possible <-> 0 <= c < nr) ->
  Forall (fun '(cpu, p) => 0 <= cpu < nr /\ CPUPRI_INVALID <= p) ops ->
  CPUPRI_INVALID <= prio -> mask_ok allowed -> (forall m, lm = Some m -> mask_ok m) ->
  exists k' res, cpupri_init possible nr k = Ret (k', res) /\
    match res with
    | inr e => e = - ENOMEM /\ oa_live k' = oa_live k /\ oa_serves k (cpupri_requests nr) = false
    | inl cp0 => exists cp, set_all cp0 ops = Ret cp
        /\ (exists lm' r, cpupri_find nr cp prio allowed lm = Ret (lm', r)
             /\ found nr (pris_after ops (fun _ => CPUPRI_INVALID)) allowed 0 (convert_prio prio) lm lm' r)
        /\ exists k2, cpupri_cleanup k' cp = Ret k2 /\ oa_live k2 = oa_live k
    end.
Proof.
  intros Hnr Hpos Hops Hprio Hal Hlm. destruct (cpupri_init_spec possible nr k Hnr Hpos) as (k' & res & -> & Hres).
  exists k', res. split; [done|]. destruct res as [cp0|e]; [|done]. destruct Hres as [Hok0 (k2 & Ek & Hk2)].
  destruct (set_all_spec nr ops cp0 _ Hok0 Hops) as (cp & E & Hok & Hobj). exists cp. split_and!; [done| |].
  - pose proof (convert_prio_range prio Hprio) as Hr. unfold cpupri_find. destruct (Z.geb_spec (convert_prio prio) CPUPRI_NR_PRIORITIES); [lia|].
    change CPUPRI_INVALID with (-1) in *. destruct (decide (convert_prio prio = -1)) as [Em|].
    + rewrite Em. exists lm, 0. split; [done|]. left. split_and!; [done|done|]. intros; lia.
    + destruct (cpupri_loop_spec nr cp _ allowed Hok Hal (Z.to_nat (convert_prio prio)) lm 0) as (lm' & r & Ef & Hf); [lia|lia|done|].
      exists lm', r. split; [done|]. by replace (0 + Z.of_nat (Z.to_nat (convert_prio prio))) with (convert_prio prio) in Hf by lia.
  - exists k2. by rewrite (cleanup_objects cp0).
Qed.
End Whole.

Lemma cpupri_correct_witness :
  exists k' res, cpupri_init [0; 1; 2; 3] 4 (empty_bump 200) = Ret (k', res) /\
    match res with
    | inr e => e = - ENOMEM /\ oa_live k' = oa_live (empty_bump 200) /\ oa_serves (empty_bump 200) (cpupri_requests 4) = false
    | inl cp0 => exists cp, set_all cp0 [(0, 140); (1, 50); (2, 100); (3, 50); (1, 120)] = Ret cp
        /\ (exists lm' r, cpupri_find 4 cp 20 [14] (Some [0]) = Ret (lm', r)
             /\ found 4 (pris_after [(0, 140); (1, 50); (2, 100); (3, 50); (1, 120)] (fun _ => CPUPRI_INVALID)) [14] 0 (convert_prio 20) (Some [0]) lm' r)
        /\ exists k2, cpupri_cleanup k' cp = Ret k2 /\ oa_live k2 = oa_live (empty_bump 200)
    end.
Proof.
  apply (cpupri_correct [0; 1; 2; 3] 4 (empty_bump 200) [(0, 140); (1, 50); (2, 100); (3, 50); (1, 120)] 20 [14] (Some [0])).
  - by vm_compute.
  - intros c. rewrite !elem_of_cons, elem_of_nil. lia.
  - repeat constructor; by vm_compute.
  - by vm_compute.
  - split; [done|]. by repeat constructor.
  - intros m [= <-]. split; [done|]. by repeat constructor.
Defined.

(** CPUs 1 and 2 run at the normal priority, CPU 0 is idle but not allowed. *)
Example cpupri_example :
  match cpupri_init [0; 1; 2; 3] 4 (empty_bump 200) with
  | Ret (_, inl cp0) => let! cp := set_all cp0 [(0, 140); (1, 50); (2, 100); (3, 50); (1, 120)] in cpupri_find 4 cp 20 [14] (Some [0])
  | _ => Stuck
  end = Ret (Some [6], 1).
Proof. vm_compute. reflexivity. Qed.
