(* ===== verification/Cpudl.v ===== *)
(** * Deadlines of CPUs

    Model of src/kernel/sched/cpudeadline.c: a binary max-heap of the earliest
    deadline of every CPU with deadline tasks.  One array serves two purposes,
    as in the source: [dl] and [cpu] of entry i are the i-th element of the
    heap, [idx] of entry c is the place of CPU c in the heap.  The WARN_ON()s
    only print. *)

From S2P Require Import Prelude Bitops Bitmap BitmapSpec Objects Cpumask Cpupri.
From stdpp Require Import base list numbers option gmap sets.
#[local] Open Scope Z_scope.
#[local] Open Scope kernel_scope.

Definition IDX_INVALID : Z := -1.

Record cpudl_item := mk_item { dl : Z; cpu : Z; idx : Z }.
#[export] Instance cpudl_item_inhabited : Inhabited cpudl_item := populate (mk_item 0 0 0).

(** The mask and the array are objects: their address and their contents. *)
Record cpudl := mk_cpudl { hsize : Z; free_cpus_at : Z; free_cpus : cpumask_t; elements_at : Z; elems : list cpudl_item }.

Definition set_elements (e : list cpudl_item) (cp : cpudl) : cpudl :=
  mk_cpudl (hsize cp) (free_cpus_at cp) (free_cpus cp) (elements_at cp) e.
Definition set_hsize (n : Z) (cp : cpudl) : cpudl :=
  mk_cpudl n (free_cpus_at cp) (free_cpus cp) (elements_at cp) (elems cp).
Definition set_free_cpus (m : cpumask_t) (cp : cpudl) : cpudl :=
  mk_cpudl (hsize cp) (free_cpus_at cp) m (elements_at cp) (elems cp).

(** [cp->elements[i]], and stores to the two parts of it. *)
Definition item (cp : cpudl) (i : Z) : outcome cpudl_item :=
  if i <? 0 then Stuck else match elems cp !! Z.to_nat i with Some e => Ret e | None => Stuck end.
Definition put_slot (cp : cpudl) (i d c : Z) : outcome cpudl :=
  let! e := item cp i in Ret (set_elements (<[Z.to_nat i := mk_item d c (idx e)]> (elems cp)) cp).
Definition put_idx (cp : cpudl) (c i : Z) : outcome cpudl :=
  let! e := item cp c in Ret (set_elements (<[Z.to_nat c := mk_item (dl e) (cpu e) i]> (elems cp)) cp).

Definition dl_time_before (a b : Z) : bool := s64 (u64 (a - b)) <? 0.

Definition parent (i : Z) : Z := Z.shiftr (i - 1) 1.
Definition left_child (i : Z) : Z := Z.shiftl i 1 + 1.
Definition right_child (i : Z) : Z := Z.shiftl i 1 + 2.

(** [elements[i] = elements[from]] but for the index, which is updated for the
    CPU that moved. *)
Definition pull (cp : cpudl) (i from : Z) : outcome cpudl :=
  let! e := item cp from in
  let! cp1 := put_slot cp i (dl e) (cpu e) in
  put_idx cp1 (cpu e) i.
Definition push (cp : cpudl) (i orig_dl orig_cpu : Z) : outcome cpudl :=
  let! cp1 := put_slot cp i orig_dl orig_cpu in
  put_idx cp1 orig_cpu i.

(** The loop of cpudl_heapify_down(): the array and the final [idx]. *)
Fixpoint down_loop (fuel : nat) (cp : cpudl) (i orig_dl : Z) : outcome (cpudl * Z) :=
  match fuel with
  | O => Stuck
  | S fuel' =>
      let l := left_child i in
      let r := right_child i in
      let! (largest, largest_dl) :=
        if l <? hsize cp then
          let! e := item cp l in
          Ret (if dl_time_before orig_dl (dl e) then (l, dl e) else (i, orig_dl))
        else Ret (i, orig_dl) in
      let! largest :=
        if r <? hsize cp then
          let! e := item cp r in
          Ret (if dl_time_before largest_dl (dl e) then r else largest)
        else Ret largest in
      if largest =? i then Ret (cp, i)
      else
        let! cp1 := pull cp i largest in
        down_loop fuel' cp1 largest orig_dl
  end.
Definition cpudl_heapify_down (cp : cpudl) (i : Z) : outcome cpudl :=
  let! e := item cp i in
  if left_child i >=? hsize cp then Ret cp
  else
    let! (cp1, j) := down_loop (S (length (elems cp))) cp i (dl e) in
    push cp1 j (dl e) (cpu e).

(** The do-while loop of cpudl_heapify_up(). *)
Fixpoint up_loop (fuel : nat) (cp : cpudl) (i orig_dl : Z) : outcome (cpudl * Z) :=
  match fuel with
  | O => Stuck
  | S fuel' =>
      let p := parent i in
      let! e := item cp p in
      if dl_time_before orig_dl (dl e) then Ret (cp, i)
      else
        let! cp1 := pull cp i p in
        if negb (p =? 0) then up_loop fuel' cp1 p orig_dl else Ret (cp1, p)
  end.
Definition cpudl_heapify_up (cp : cpudl) (i : Z) : outcome cpudl :=
  let! e := item cp i in
  if i =? 0 then Ret cp
  else
    let! (cp1, j) := up_loop (S (length (elems cp))) cp i (dl e) in
    push cp1 j (dl e) (cpu e).

Definition cpudl_heapify (cp : cpudl) (i : Z) : outcome cpudl :=
  let! up :=
    if i >? 0 then
      let! p := item cp (parent i) in
      let! e := item cp i in
      Ret (dl_time_before (dl p) (dl e))
    else Ret false in
  if up then cpudl_heapify_up cp i else cpudl_heapify_down cp i.

Definition cpudl_maximum (cp : cpudl) : outcome Z :=
  let! e := item cp 0 in Ret (cpu e).

(** [deadline] and [cpus_allowed] are those of the task; [later_mask] is
    [None] for NULL. *)
Definition cpudl_find (cp : cpudl) (deadline : Z) (cpus_allowed : cpumask_t) (later_mask : option cpumask_t)
  : outcome (option cpumask_t * Z) :=
  let! (lm, some) :=
    match later_mask with
    | Some m => let! (m', b) := cpumask_and m (free_cpus cp) cpus_allowed in Ret (Some m', b)
    | None => Ret (None, false)
    end in
  if some then Ret (lm, 1)
  else
    let! best_cpu := cpudl_maximum cp in
    let! e := item cp 0 in
    let! allowed := cpumask_is_set best_cpu cpus_allowed in
    if allowed && dl_time_before deadline (dl e) then
      match lm with
      | Some m => let! m' := cpumask_set_cpu best_cpu m in Ret (Some m', 1)
      | None => Ret (None, 1)
      end
    else Ret (lm, 0).

Definition cpudl_clear (cp : cpudl) (c : Z) : outcome cpudl :=
  let! e := item cp c in
  let old_idx := idx e in
  if old_idx =? IDX_INVALID then Ret cp
  else
    let! last := item cp (hsize cp - 1) in
    let new_cpu := cpu last in
    let! cp1 := put_slot cp old_idx (dl last) new_cpu in
    let cp2 := set_hsize (hsize cp1 - 1) cp1 in
    let! cp3 := put_idx cp2 new_cpu old_idx in
    let! cp4 := put_idx cp3 c IDX_INVALID in
    let! cp5 := cpudl_heapify cp4 old_idx in
    let! m := cpumask_set_cpu c (free_cpus cp5) in
    Ret (set_free_cpus m cp5).

Definition cpudl_set (cp : cpudl) (c d : Z) : outcome cpudl :=
  let! e := item cp c in
  let old_idx := idx e in
  if old_idx =? IDX_INVALID then
    let new_idx := hsize cp in
    let cp1 := set_hsize (hsize cp + 1) cp in
    let! cp2 := put_slot cp1 new_idx d c in
    let! cp3 := put_idx cp2 c new_idx in
    let! cp4 := cpudl_heapify_up cp3 new_idx in
    let! m := cpumask_clear_cpu c (free_cpus cp4) in
    Ret (set_free_cpus m cp4)
  else
    let! o := item cp old_idx in
    let! cp1 := put_slot cp old_idx d (cpu o) in
    cpudl_heapify cp1 old_idx.

Definition cpudl_set_freecpu (cp : cpudl) (c : Z) : outcome cpudl :=
  let! m := cpumask_set_cpu c (free_cpus cp) in Ret (set_free_cpus m cp).
Definition cpudl_clear_freecpu (cp : cpudl) (c : Z) : outcome cpudl :=
  let! m := cpumask_clear_cpu c (free_cpus cp) in Ret (set_free_cpus m cp).

Section Init.
Context {K : Type} `{ObjectAllocator K}.

Definition SIZEOF_CPUDL_ITEM : Z := 16.

(** [for_each_possible_cpu(i) cp->elements[i].idx = IDX_INVALID] *)
Fixpoint invalidate_idx (possible : list Z) (cp : cpudl) : outcome cpudl :=
  match possible with
  | [] => Ret cp
  | i :: r => let! cp1 := put_idx cp i IDX_INVALID in invalidate_idx r cp1
  end.

Definition cpudl_init (possible : list Z) (nr : Z) (k : K) : outcome (K * (cpudl + Z)) :=
  let! (k1, p) := oa_kzalloc k (nr * SIZEOF_CPUDL_ITEM) in
  if p =? 0 then Ret (k1, inr (- ENOMEM))
  else
    let! (k2, q) := zalloc_cpumask_var k1 in
    if q =? 0 then let! k3 := oa_kfree k2 p in Ret (k3, inr (- ENOMEM))
    else
      let! cp := invalidate_idx possible (mk_cpudl 0 q [0] p (replicate (Z.to_nat nr) (mk_item 0 0 0))) in
      Ret (k2, inl cp).

Definition cpudl_cleanup (k : K) (cp : cpudl) : outcome K :=
  let! k1 := free_cpumask_var k (free_cpus_at cp) in
  oa_kfree k1 (elements_at cp).
End Init.
