(* ===== verification/CpudlProps.v ===== *)
(** * The heap of deadlines: invariant and moves

    [tracked]: the heap slots and the places of the CPUs are inverse to each
    other and hold the abstract map from CPUs to deadlines, but for one slot, the
    hole, which the loops of the source move up or down.  [ordered]: heap
    order away from the hole.  Deadlines are compared by their distance from a
    base, which is what dl_time_before() does for deadlines that lie less than
    2^63 apart. *)

From S2P Require Import Prelude Bitops Bitmap BitmapSpec Objects Cpumask Cpupri Cpudl.
From stdpp Require Import base list numbers option gmap sets.
#[local] Open Scope Z_scope.
#[local] Open Scope kernel_scope.

(** ** Reading and writing the array *)

Definition dl_at (cp : cpudl) (i : Z) : Z := dl (elems cp !!! Z.to_nat i).
Definition cpu_at (cp : cpudl) (i : Z) : Z := cpu (elems cp !!! Z.to_nat i).
Definition idx_at (cp : cpudl) (c : Z) : Z := idx (elems cp !!! Z.to_nat c).
Definition len (cp : cpudl) : Z := Z.of_nat (length (elems cp)).

Lemma item_at cp i : 0 <= i < len cp -> item cp i = Ret (mk_item (dl_at cp i) (cpu_at cp i) (idx_at cp i)).
Proof.
  intros Hi. unfold item, dl_at, cpu_at, idx_at, len in *. destruct (Z.ltb_spec i 0); [lia|].
  destruct (lookup_lt_is_Some_2 (elems cp) (Z.to_nat i) ltac:(lia)) as [e E]. rewrite E, (list_lookup_total_correct _ _ _ E).
  by destruct e.
Qed.

(** [cp'] differs from [cp] in the array only. *)
Record same_but (cp cp' : cpudl) : Prop := {
  sb_size : hsize cp' = hsize cp;
  sb_len : len cp' = len cp;
  sb_free : free_cpus cp' = free_cpus cp;
  sb_at : free_cpus_at cp' = free_cpus_at cp /\ elements_at cp' = elements_at cp;
}.
Lemma same_but_refl cp : same_but cp cp.
Proof. by split. Qed.
Lemma same_but_trans a b c : same_but a b -> same_but b c -> same_but a c.
Proof. intros [H1 H2 H3 [H4 H5]] [H6 H7 H8 [H9 H10]]. split; [congruence..|]. split; congruence. Qed.

Lemma put_slot_at cp i d c : 0 <= i < len cp ->
  exists cp', put_slot cp i d c = Ret cp' /\ same_but cp cp'
    /\ (forall j, 0 <= j -> dl_at cp' j = if j =? i then d else dl_at cp j)
    /\ (forall j, 0 <= j -> cpu_at cp' j = if j =? i then c else cpu_at cp j)
    /\ (forall j, 0 <= j -> idx_at cp' j = idx_at cp j).
Proof.
  intros Hi. unfold put_slot. rewrite item_at by done. cbn [obind idx]. eexists. split; [reflexivity|].
  unfold len, dl_at, cpu_at, idx_at in *. split; [split; try done; unfold len; cbn; by rewrite length_insert|]. cbn.
  assert (Hj : forall j e, 0 <= j -> <[Z.to_nat i := e]> (elems cp) !!! Z.to_nat j = if j =? i then e else elems cp !!! Z.to_nat j).
  { intros j e Hj. destruct (Z.eqb_spec j i) as [->|]; [by rewrite list_lookup_total_insert_eq by lia|by rewrite list_lookup_total_insert_ne by lia]. }
  split_and!; intros j H0; rewrite Hj by done; destruct (Z.eqb_spec j i) as [->|]; done.
Qed.

Lemma put_idx_at cp c v : 0 <= c < len cp ->
  exists cp', put_idx cp c v = Ret cp' /\ same_but cp cp'
    /\ (forall j, 0 <= j -> dl_at cp' j = dl_at cp j)
    /\ (forall j, 0 <= j -> cpu_at cp' j = cpu_at cp j)
    /\ (forall j, 0 <= j -> idx_at cp' j = if j =? c then v else idx_at cp j).
Proof.
  intros Hi. unfold put_idx. rewrite item_at by done. cbn [obind dl cpu]. eexists. split; [reflexivity|].
  unfold len, dl_at, cpu_at, idx_at in *. split; [split; try done; unfold len; cbn; by rewrite length_insert|]. cbn.
  assert (Hj : forall j e, 0 <= j -> <[Z.to_nat c := e]> (elems cp) !!! Z.to_nat j = if j =? c then e else elems cp !!! Z.to_nat j).
  { intros j e Hj. destruct (Z.eqb_spec j c) as [->|]; [by rewrite list_lookup_total_insert_eq by lia|by rewrite list_lookup_total_insert_ne by lia]. }
  split_and!; intros j H0; rewrite Hj by done; destruct (Z.eqb_spec j c) as [->|]; done.
Qed.

(** A heap slot is written and the place of its CPU with it. *)
Lemma push_at cp i d c : 0 <= i < len cp -> 0 <= c < len cp ->
  exists cp', push cp i d c = Ret cp' /\ same_but cp cp'
    /\ (forall j, 0 <= j -> dl_at cp' j = if j =? i then d else dl_at cp j)
    /\ (forall j, 0 <= j -> cpu_at cp' j = if j =? i then c else cpu_at cp j)
    /\ (forall j, 0 <= j -> idx_at cp' j = if j =? c then i else idx_at cp j).
Proof.
  intros Hi Hc. unfold push. destruct (put_slot_at cp i d c Hi) as (cp1 & -> & S1 & D1 & C1 & I1). cbn [obind].
  destruct (put_idx_at cp1 c i) as (cp2 & -> & S2 & D2 & C2 & I2); [by rewrite (sb_len _ _ S1)|].
  exists cp2. split; [done|]. split; [by eapply same_but_trans|]. split_and!; intros j Hj.
  - by rewrite D2, D1.
  - by rewrite C2, C1.
  - by rewrite I2, I1.
Qed.

Lemma pull_push cp i from : 0 <= from < len cp -> pull cp i from = push cp i (dl_at cp from) (cpu_at cp from).
Proof. intros Hf. unfold pull. rewrite item_at by done. done. Qed.

(** ** Which CPU is where *)

(** Slot [h] is the hole (none when [h] is -1): it stands for CPU [c0] with
    deadline [d0]. *)
Record tracked (cp : cpudl) (h d0 c0 : Z) (D : gmap Z Z) : Prop := {
  tr_size : 0 <= hsize cp <= len cp;
  tr_slot : forall i, 0 <= i < hsize cp -> i <> h ->
    0 <= cpu_at cp i < len cp /\ idx_at cp (cpu_at cp i) = i /\ D !! cpu_at cp i = Some (dl_at cp i) /\ (h <> -1 -> cpu_at cp i <> c0);
  tr_idx : forall c, 0 <= c < len cp -> (h <> -1 -> c <> c0) ->
    (D !! c = None /\ idx_at cp c = IDX_INVALID)
    \/ (0 <= idx_at cp c < hsize cp /\ idx_at cp c <> h /\ cpu_at cp (idx_at cp c) = c);
  tr_hole : h <> -1 -> 0 <= h < hsize cp /\ 0 <= c0 < len cp /\ D !! c0 = Some d0;
  tr_dom : forall c d, D !! c = Some d -> 0 <= c < len cp;
}.

Abbreviation full cp D := (tracked cp (-1) 0 0 D).

Lemma full_hole cp D h : full cp D -> 0 <= h < hsize cp -> tracked cp h (dl_at cp h) (cpu_at cp h) D.
Proof.
  intros [T1 T2 T3 T4 T5] Hh. destruct (T2 h Hh ltac:(lia)) as (A1 & A2 & A3 & _). split; [done| | | |done].
  - intros i Hi Hne. destruct (T2 i Hi ltac:(lia)) as (B1 & B2 & B3 & _). split_and!; try done; try lia. intros _ E. rewrite E in B2. lia.
  - intros c Hc Hne. specialize (Hne ltac:(lia)). destruct (T3 c Hc ltac:(lia)) as [?|(C1 & C2 & C3)]; [by left|right].
    split_and!; try done; try lia. intros E. rewrite E in C3. lia.
  - done.
Qed.

(** Filling the hole. *)
Lemma push_full cp h d0 c0 D : tracked cp h d0 c0 D -> h <> -1 ->
  exists cp', push cp h d0 c0 = Ret cp' /\ same_but cp cp' /\ full cp' D
    /\ forall j, 0 <= j -> dl_at cp' j = if j =? h then d0 else dl_at cp j.
Proof.
  intros [T1 T2 T3 T4 T5] Hh. destruct (T4 Hh) as (A1 & A2 & A3).
  destruct (push_at cp h d0 c0) as (cp' & E & S & HD & HC & HI); [lia|lia|]. exists cp'. split_and!; try done.
  assert (Hs := sb_size _ _ S). assert (Hl := sb_len _ _ S).
  split; rewrite ?Hs, ?Hl; [done| | |lia|done].
  - intros i Hi _. rewrite HC, HD by lia. destruct (Z.eqb_spec i h) as [->|Hne].
    + rewrite HI, Z.eqb_refl by lia. split_and!; try done; lia.
    + destruct (T2 i Hi Hne) as (B1 & B2 & B3 & B4). specialize (B4 Hh). rewrite HI by lia. destruct (Z.eqb_spec (cpu_at cp i) c0); [done|].
      split_and!; try done; lia.
  - intros c Hc _. rewrite HI by lia. destruct (Z.eqb_spec c c0) as [->|Hne].
    + right. rewrite HC, Z.eqb_refl by lia. split_and!; try done; lia.
    + destruct (T3 c Hc ltac:(done)) as [?|(C1 & C2 & C3)]; [by left|right]. rewrite HC by lia.
      destruct (Z.eqb_spec (idx_at cp c) h); [done|]. split_and!; try done; lia.
Qed.

(** The hole moves to slot [l], whose element fills it. *)
Lemma pull_tracked cp h d0 c0 D l : tracked cp h d0 c0 D -> h <> -1 -> 0 <= l < hsize cp -> l <> h ->
  exists cp', pull cp h l = Ret cp' /\ same_but cp cp' /\ tracked cp' l d0 c0 D
    /\ forall j, 0 <= j -> dl_at cp' j = if j =? h then dl_at cp l else dl_at cp j.
Proof.
  intros [T1 T2 T3 T4 T5] Hh Hl Hne. destruct (T4 Hh) as (A1 & A2 & A3). destruct (T2 l Hl Hne) as (L1 & L2 & L3 & L4). specialize (L4 Hh).
  rewrite pull_push by lia. destruct (push_at cp h (dl_at cp l) (cpu_at cp l)) as (cp' & E & S & HD & HC & HI); [lia|lia|].
  exists cp'. split_and!; try done. assert (Hs := sb_size _ _ S). assert (Hln := sb_len _ _ S).
  split; rewrite ?Hs, ?Hln; [done| | |done|done].
  - intros i Hi Hil. rewrite HC, HD by lia. destruct (Z.eqb_spec i h) as [->|Hih].
    + rewrite HI, Z.eqb_refl by lia. split_and!; try done; lia.
    + destruct (T2 i Hi Hih) as (B1 & B2 & B3 & B4). rewrite HI by lia.
      destruct (Z.eqb_spec (cpu_at cp i) (cpu_at cp l)) as [Ec|]; [rewrite Ec in B2; lia|]. split_and!; try done; try lia.
  - intros c Hc Hc0. rewrite HI by lia. destruct (Z.eqb_spec c (cpu_at cp l)) as [->|Hcl].
    + right. rewrite HC, Z.eqb_refl by lia. split_and!; try done; lia.
    + destruct (T3 c Hc ltac:(intros; apply Hc0; lia)) as [?|(C1 & C2 & C3)]; [by left|right]. rewrite HC by lia.
      destruct (Z.eqb_spec (idx_at cp c) h); [done|]. split_and!; try done; try lia. intros El. rewrite El in C3. done.
Qed.

(** ** Heap order *)

Section Order.
Context (base : Z).

Definition key (d : Z) : Z := u64 (d - base).
Definition near (d : Z) : Prop := key d < 2 ^ 63.

Lemma before_key a b : near a -> near b -> dl_time_before a b = (key a <? key b).
Proof.
  unfold near, key, dl_time_before. intros Ha Hb.
  assert (E : u64 (a - b) = u64 (u64 (a - base) - u64 (b - base))).
  { unfold u64. rewrite <- Zminus_mod. f_equal. lia. }
  rewrite E. pose proof (u64_range (a - base)) as Ra. pose proof (u64_range (b - base)) as Rb.
  set (x := u64 (a - base)) in *. set (y := u64 (b - base)) in *. unfold u64, s64, U64_MOD in *. uunfold.
  destruct (Z.ltb_spec x y).
  - rewrite (Z.ltb_lt _ _). assert ((x - y) mod 2 ^ 64 = x - y + 2 ^ 64) as -> by (symmetry; apply (Z.mod_unique _ _ (-1)); lia).
    rewrite <- (Z.mod_unique (x - y + 2 ^ 64 + 2 ^ 63) (2 ^ 64) 1 (x - y + 2 ^ 63)); lia.
  - apply Z.ltb_ge. rewrite (Z.mod_small (x - y)) by lia. rewrite Z.mod_small; lia.
Qed.

Definition is_child (i p : Z) : Prop := i = 2 * p + 1 \/ i = 2 * p + 2.

Lemma parent_child i : 0 < i -> 0 <= parent i < i /\ is_child i (parent i).
Proof. intros Hi. unfold parent, is_child. rewrite Z.shiftr_div_pow2 by lia. change (2 ^ 1) with 2. Z.div_mod_to_equations. lia. Qed.

Definition k_at (cp : cpudl) (i : Z) : Z := key (dl_at cp i).

(** Heap order among the slots other than [h], across [h] too. *)
Record ordered (cp : cpudl) (h : Z) : Prop := {
  od_near : forall i, 0 <= i < hsize cp -> i <> h -> near (dl_at cp i);
  od_heap : forall i p, 0 <= p -> is_child i p -> i < hsize cp -> i <> h -> p <> h -> k_at cp i <= k_at cp p;
  od_skip : forall i p, 0 <= p -> 0 <= h -> is_child i h -> is_child h p -> i < hsize cp -> k_at cp i <= k_at cp p;
}.

Definition above_children (cp : cpudl) (h d : Z) : Prop := forall i, is_child i h -> i < hsize cp -> k_at cp i <= key d.
Definition below_parent (cp : cpudl) (h d : Z) : Prop := forall p, 0 <= p -> is_child h p -> key d <= k_at cp p.

Lemma ordered_fill cp cp' h d0 : ordered cp h -> near d0 -> above_children cp h d0 -> below_parent cp h d0 ->
  same_but cp cp' -> (forall j, 0 <= j -> dl_at cp' j = if j =? h then d0 else dl_at cp j) -> 0 <= h -> ordered cp' (-1).
Proof.
  intros [O1 O2 O3] Hn Ha Hb S HD Hh. assert (Hs := sb_size _ _ S).
  assert (HK : forall j, 0 <= j -> k_at cp' j = if j =? h then key d0 else k_at cp j).
  { intros j Hj. unfold k_at. rewrite HD by done. by destruct (j =? h). }
  split; rewrite ?Hs; [| |lia].
  - intros i Hi _. rewrite HD by lia. destruct (Z.eqb_spec i h); [done|]. by apply O1.
  - intros i p Hp Hc Hi _ _. rewrite !HK by (unfold is_child in Hc; lia).
    destruct (Z.eqb_spec i h) as [->|], (Z.eqb_spec p h) as [->|]; [unfold is_child in Hc; lia|by apply Hb|by apply Ha|by apply O2].
Qed.

(** Moving the hole down to the largest child, *)
Lemma ordered_down cp cp' h l d0 : ordered cp h -> below_parent cp h d0 -> 0 <= h -> is_child l h -> l < hsize cp ->
  key d0 <= k_at cp l -> (forall i, is_child i h -> i < hsize cp -> k_at cp i <= k_at cp l) ->
  same_but cp cp' -> (forall j, 0 <= j -> dl_at cp' j = if j =? h then dl_at cp l else dl_at cp j) ->
  ordered cp' l /\ below_parent cp' l d0.
Proof.
  intros [O1 O2 O3] Hb Hh Hl Hls Hd Hmax S HD. assert (Hs := sb_size _ _ S).
  assert (HK : forall j, 0 <= j -> k_at cp' j = if j =? h then k_at cp l else k_at cp j).
  { intros j Hj. unfold k_at. rewrite HD by done. by destruct (j =? h). }
  split; [split; rewrite ?Hs|].
  - intros i Hi Hil. rewrite HD by lia. destruct (Z.eqb_spec i h); [apply O1; unfold is_child in Hl; lia|by apply O1].
  - intros i p Hp Hc Hi Hil Hpl. rewrite !HK by (unfold is_child in Hc; lia).
    destruct (Z.eqb_spec i h) as [->|], (Z.eqb_spec p h) as [->|]; [unfold is_child in Hc; lia| | |by apply O2].
    + by apply O3.
    + by apply Hmax.
  - intros i p Hp _ Hil Hlp His. assert (p = h) as -> by (unfold is_child in *; lia). rewrite !HK by (unfold is_child in *; lia). rewrite Z.eqb_refl.
    destruct (Z.eqb_spec i h); [unfold is_child in *; lia|]. apply O2; unfold is_child in *; lia.
  - intros p Hp Hlp. assert (p = h) as -> by (unfold is_child in *; lia). rewrite HK, Z.eqb_refl by lia. done.
Qed.

(** or up to the parent. *)
Lemma ordered_up cp cp' h p d0 : ordered cp h -> 0 <= p -> is_child h p -> h < hsize cp -> k_at cp p <= key d0 ->
  same_but cp cp' -> (forall j, 0 <= j -> dl_at cp' j = if j =? h then dl_at cp p else dl_at cp j) ->
  ordered cp' p /\ above_children cp' p d0.
Proof.
  intros [O1 O2 O3] Hp Hc Hhs Hd S HD. assert (Hs := sb_size _ _ S). assert (Hph : 0 <= p < h) by (unfold is_child in Hc; lia).
  assert (HK : forall j, 0 <= j -> k_at cp' j = if j =? h then k_at cp p else k_at cp j).
  { intros j Hj. unfold k_at. rewrite HD by done. by destruct (j =? h). }
  assert (Hsib : forall i, is_child i p -> i < hsize cp -> k_at cp' i <= k_at cp p).
  { intros i Hi His. rewrite HK by (unfold is_child in Hi; lia). destruct (Z.eqb_spec i h); [lia|]. apply O2; unfold is_child in *; lia. }
  split; [split; rewrite ?Hs|].
  - intros i Hi Hip. rewrite HD by lia. destruct (Z.eqb_spec i h); [apply O1; lia|by apply O1].
  - intros i q Hq Hiq Hi Hip Hqp. rewrite !HK by (unfold is_child in Hiq; lia).
    destruct (Z.eqb_spec i h) as [->|], (Z.eqb_spec q h) as [->|]; [unfold is_child in *; lia|unfold is_child in *; lia| |by apply O2].
    by apply O3.
  - intros i q Hq _ Hip Hpq His. etransitivity; [by apply Hsib|]. rewrite HK by lia. destruct (Z.eqb_spec q h); [unfold is_child in *; lia|].
    apply O2; unfold is_child in *; lia.
  - intros i Hi His. rewrite Hs in His. etransitivity; [by apply Hsib|done].
Qed.

(** ** The loops *)

(** The hole is where the saved element belongs. *)
Record settled (cp : cpudl) (h d0 c0 : Z) (D : gmap Z Z) : Prop := {
  st_tracked : tracked cp h d0 c0 D;
  st_hole : h <> -1;
  st_ordered : ordered cp h;
  st_above : above_children cp h d0;
  st_below : below_parent cp h d0;
}.

Lemma child_le i cp h : ordered cp h -> 0 <= i < hsize cp -> i <> h -> near (dl_at cp i).
Proof. intros [O1 _ _]. apply O1. Qed.

(** The largest of the saved element and the children of the hole. *)
Lemma largest_spec cp h d0 c0 D : tracked cp h d0 c0 D -> 0 <= h -> ordered cp h -> near d0 ->
  exists l, (let! (largest, largest_dl) :=
        if left_child h <? hsize cp then
          let! e := item cp (left_child h) in
          Ret (if dl_time_before d0 (dl e) then (left_child h, dl e) else (h, d0))
        else Ret (h, d0) in
      if right_child h <? hsize cp then
        let! e := item cp (right_child h) in
        Ret (if dl_time_before largest_dl (dl e) then right_child h else largest)
      else Ret largest) = Ret l
    /\ (l = h /\ above_children cp h d0
        \/ is_child l h /\ l < hsize cp /\ key d0 <= k_at cp l /\ forall i, is_child i h -> i < hsize cp -> k_at cp i <= k_at cp l).
Proof.
  intros T Hh O Hn. pose proof (tr_size _ _ _ _ _ T) as Hsz. unfold left_child, right_child. rewrite !Z.shiftl_mul_pow2 by lia. change (2 ^ 1) with 2.
  set (l := h * 2 + 1). set (r := h * 2 + 2). assert (Hch : forall i, is_child i h <-> i = l \/ i = r) by (unfold is_child; lia).
  assert (Hcmp : forall i d, near d -> i = l \/ i = r -> i < hsize cp -> item cp i = Ret (mk_item (dl_at cp i) (cpu_at cp i) (idx_at cp i))
    /\ dl_time_before d (dl_at cp i) = (key d <? k_at cp i) /\ near (dl_at cp i)).
  { intros i d Hd Hi Hs. assert (near (dl_at cp i)) by (apply (child_le i cp h); [done|lia|lia]).
    split_and!; [apply item_at; lia|by apply before_key|done]. }
  destruct (Z.ltb_spec l (hsize cp)) as [Hl|Hl]; cbn [obind].
  - destruct (Hcmp l d0 Hn ltac:(auto) Hl) as (-> & Eb & Hnl). cbn [obind dl]. rewrite Eb.
    destruct (Z.ltb_spec (key d0) (k_at cp l)) as [H1|H1]; cbn [obind].
    + destruct (Z.ltb_spec r (hsize cp)) as [Hr|Hr]; cbn [obind].
      * destruct (Hcmp r (dl_at cp l) Hnl ltac:(auto) Hr) as (-> & Eb' & Hnr). cbn [obind dl]. rewrite Eb'.
        fold (k_at cp l). destruct (Z.ltb_spec (k_at cp l) (k_at cp r)); eexists; (split; [reflexivity|]); right; rewrite Hch; split_and!; auto; try lia;
          intros i [-> | ->]%Hch _; lia.
      * eexists. split; [reflexivity|]. right. rewrite Hch. split_and!; auto; try lia. intros i [-> | ->]%Hch Hi; lia.
    + destruct (Z.ltb_spec r (hsize cp)) as [Hr|Hr]; cbn [obind].
      * destruct (Hcmp r d0 Hn ltac:(auto) Hr) as (-> & Eb' & Hnr). cbn [obind dl]. rewrite Eb'.
        destruct (Z.ltb_spec (key d0) (k_at cp r)); eexists; (split; [reflexivity|]).
        -- right. rewrite Hch. split_and!; auto; try lia. intros i [-> | ->]%Hch _; lia.
        -- left. split; [done|]. intros i [-> | ->]%Hch _; lia.
      * eexists. split; [reflexivity|]. left. split; [done|]. intros i [-> | ->]%Hch Hi; lia.
  - destruct (Z.ltb_spec r (hsize cp)) as [Hr|Hr]; [lia|]. cbn [obind]. eexists. split; [reflexivity|].
    left. split; [done|]. intros i [-> | ->]%Hch Hi; lia.
Qed.

Lemma down_loop_spec D d0 c0 : near d0 -> forall fuel cp h, (Z.to_nat (hsize cp - h) < fuel)%nat ->
  tracked cp h d0 c0 D -> h <> -1 -> ordered cp h -> below_parent cp h d0 ->
  exists cp' j, down_loop fuel cp h d0 = Ret (cp', j) /\ same_but cp cp' /\ settled cp' j d0 c0 D.
Proof.
  intros Hn. induction fuel as [|fuel IH]; intros cp h Hf T Hh O Hb; [lia|]. cbn [down_loop].
  destruct (tr_hole _ _ _ _ _ T Hh) as (Hh1 & _).
  destruct (largest_spec cp h d0 c0 D T ltac:(lia) O Hn) as (l & E & Hl).
  destruct (if left_child h <? hsize cp then _ else _) as [[lg ld]| |]; [|done|done]. cbn [obind] in *. rewrite E. cbn [obind].
  destruct Hl as [(-> & Ha)|(Hc & Hls & Hk & Hmax)].
  - rewrite Z.eqb_refl. exists cp, h. split; [done|]. split; [apply same_but_refl|]. by split.
  - assert (Hlh : l <> h /\ h < l) by (unfold is_child in Hc; lia). destruct (Z.eqb_spec l h); [lia|].
    destruct (pull_tracked cp h d0 c0 D l T Hh ltac:(lia) ltac:(lia)) as (cp1 & -> & S & T1 & HD). cbn [obind].
    destruct (ordered_down cp cp1 h l d0 O Hb ltac:(lia) Hc Hls Hk Hmax S HD) as [O1 Hb1].
    destruct (IH cp1 l) as (cp' & j & E' & S' & Hs); [rewrite (sb_size _ _ S); lia|done|lia|done|done|].
    exists cp', j. split; [done|]. split; [by apply (same_but_trans _ cp1)|done].
Qed.

Lemma up_loop_spec D d0 c0 : near d0 -> forall fuel cp h, (Z.to_nat h < fuel)%nat ->
  tracked cp h d0 c0 D -> 0 < h -> ordered cp h -> above_children cp h d0 ->
  exists cp' j, up_loop fuel cp h d0 = Ret (cp', j) /\ same_but cp cp' /\ settled cp' j d0 c0 D.
Proof.
  intros Hn. induction fuel as [|fuel IH]; intros cp h Hf T Hh O Ha; [lia|]. cbn [up_loop].
  destruct (tr_hole _ _ _ _ _ T ltac:(lia)) as (Hh1 & _). pose proof (tr_size _ _ _ _ _ T).
  destruct (parent_child h Hh) as [Hp Hc]. set (p := parent h) in *. rewrite item_at by lia. cbn [obind dl].
  rewrite before_key by (done || (apply (child_le p cp h); [done|lia|lia])). fold (k_at cp p).
  destruct (Z.ltb_spec (key d0) (k_at cp p)) as [Hlt|Hge].
  - exists cp, h. split; [done|]. split; [apply same_but_refl|]. split; try done; [lia|]. intros q Hq Hcq. assert (q = p) as -> by (unfold is_child in *; lia). lia.
  - destruct (pull_tracked cp h d0 c0 D p T ltac:(lia) ltac:(lia) ltac:(lia)) as (cp1 & -> & S & T1 & HD). cbn [obind].
    destruct (ordered_up cp cp1 h p d0 O ltac:(lia) Hc ltac:(lia) Hge S HD) as [O1 Ha1].
    destruct (Z.eqb_spec p 0) as [Ep|Ep]; cbn [negb].
    + exists cp1, p. split; [done|]. split; [done|]. split; try done; [lia|]. intros q Hq Hcq. unfold is_child in Hcq. lia.
    + destruct (IH cp1 p) as (cp' & j & E' & S' & Hs); [lia|done|lia|done|done|].
      exists cp', j. split; [done|]. split; [by apply (same_but_trans _ cp1)|done].
Qed.

(** ** Restoring the order of one element *)

Definition heap_ok (cp : cpudl) (D : gmap Z Z) : Prop := full cp D /\ ordered cp (-1).

Lemma settled_push cp h d0 c0 D : near d0 -> settled cp h d0 c0 D ->
  exists cp', push cp h d0 c0 = Ret cp' /\ same_but cp cp' /\ heap_ok cp' D.
Proof.
  intros Hn [T Hh O Ha Hb]. destruct (push_full cp h d0 c0 D T Hh) as (cp' & E & S & F & HD). exists cp'. split_and!; [done|done|]. split; [done|].
  destruct (tr_hole _ _ _ _ _ T Hh) as (? & _). apply (ordered_fill cp cp' h d0); done || lia.
Qed.

Lemma heapify_down_spec cp D i : full cp D -> 0 <= i < hsize cp -> ordered cp i -> near (dl_at cp i) -> below_parent cp i (dl_at cp i) ->
  exists cp', cpudl_heapify_down cp i = Ret cp' /\ same_but cp cp' /\ heap_ok cp' D.
Proof.
  intros F Hi O Hn Hb. pose proof (tr_size _ _ _ _ _ F). unfold cpudl_heapify_down. rewrite item_at by lia. cbn [obind dl cpu].
  destruct (Z.geb_spec (left_child i) (hsize cp)) as [Hc|Hc].
  - exists cp. split; [done|]. split; [apply same_but_refl|]. split; [done|].
    apply (ordered_fill cp cp i (dl_at cp i)); try done; [| |lia].
    + intros j Hj Hjs. unfold left_child in Hc. rewrite Z.shiftl_mul_pow2 in Hc by lia. unfold is_child in Hj. lia.
    + intros j _. by destruct (Z.eqb_spec j i) as [->|].
  - destruct (down_loop_spec D (dl_at cp i) (cpu_at cp i) Hn (S (length (elems cp))) cp i) as (cp1 & j & -> & S1 & Hs).
    + unfold len in *. lia.
    + by apply full_hole.
    + lia.
    + done.
    + done.
    + cbn [obind]. destruct (settled_push cp1 j _ _ D Hn Hs) as (cp' & E & S2 & Hok). exists cp'. split; [done|]. split; [by apply (same_but_trans _ cp1)|done].
Qed.

Lemma heapify_up_spec cp D i : full cp D -> 0 <= i < hsize cp -> ordered cp i -> near (dl_at cp i) -> above_children cp i (dl_at cp i) ->
  exists cp', cpudl_heapify_up cp i = Ret cp' /\ same_but cp cp' /\ heap_ok cp' D.
Proof.
  intros F Hi O Hn Ha. pose proof (tr_size _ _ _ _ _ F). unfold cpudl_heapify_up. rewrite item_at by lia. cbn [obind dl cpu].
  destruct (Z.eqb_spec i 0) as [->|Hi0].
  - exists cp. split; [done|]. split; [apply same_but_refl|]. split; [done|].
    apply (ordered_fill cp cp 0 (dl_at cp 0)); try done.
    + intros p Hp Hc. unfold is_child in Hc. lia.
    + intros j _. by destruct (Z.eqb_spec j 0) as [->|].
  - destruct (up_loop_spec D (dl_at cp i) (cpu_at cp i) Hn (S (length (elems cp))) cp i) as (cp1 & j & -> & S1 & Hs).
    + unfold len in *. lia.
    + by apply full_hole.
    + lia.
    + done.
    + done.
    + cbn [obind]. destruct (settled_push cp1 j _ _ D Hn Hs) as (cp' & E & S2 & Hok). exists cp'. split; [done|]. split; [by apply (same_but_trans _ cp1)|done].
Qed.

Lemma cpudl_heapify_spec cp D i : full cp D -> 0 <= i < hsize cp -> ordered cp i -> near (dl_at cp i) ->
  exists cp', cpudl_heapify cp i = Ret cp' /\ same_but cp cp' /\ heap_ok cp' D.
Proof.
  intros F Hi O Hn. pose proof (tr_size _ _ _ _ _ F). unfold cpudl_heapify. destruct (Z.gtb_spec i 0) as [Hi0|Hi0].
  - destruct (parent_child i Hi0) as [Hp Hc]. rewrite !item_at by lia. cbn [obind dl].
    rewrite before_key by (done || (apply (child_le (parent i) cp i); [done|lia|lia])). destruct (Z.ltb_spec (key (dl_at cp (parent i))) (key (dl_at cp i))) as [Hlt|Hge].
    + apply heapify_up_spec; try done. intros j Hj Hjs. etransitivity; [apply (od_skip _ _ O j (parent i)); done || lia|]. unfold k_at. lia.
    + apply heapify_down_spec; try done. intros q Hq Hqc. assert (q = parent i) as -> by (unfold is_child in *; lia). done.
  - cbn [obind]. apply heapify_down_spec; try done. intros q Hq Hqc. unfold is_child in Hqc. lia.
Qed.
End Order.

(** * The heap of deadlines: operations and theorem *)

(** ** Setting and clearing a deadline *)

Lemma full_index cp D c : full cp D -> 0 <= c < len cp ->
  match D !! c with
  | None => idx_at cp c = IDX_INVALID
  | Some d => 0 <= idx_at cp c < hsize cp /\ cpu_at cp (idx_at cp c) = c /\ dl_at cp (idx_at cp c) = d
  end.
Proof.
  intros F Hc. destruct (tr_idx _ _ _ _ _ F c Hc ltac:(done)) as [[-> ?]|(H1 & H2 & H3)]; [done|].
  destruct (tr_slot _ _ _ _ _ F _ H1 ltac:(lia)) as (_ & _ & HD & _). rewrite H3 in HD. by rewrite HD.
Qed.

(** A CPU outside the heap leaves room for one more. *)
Lemma full_room cp D c : full cp D -> 0 <= c < len cp -> D !! c = None -> hsize cp < len cp.
Proof.
  intros F Hc HN. pose proof (tr_size _ _ _ _ _ F) as Hs. pose proof (full_index cp D c F Hc) as Hi. rewrite HN in Hi.
  set (l := c :: (cpu_at cp <$> seqZ 0 (hsize cp))).
  assert (Hsub : l ⊆+ seqZ 0 (len cp)).
  { apply NoDup_submseteq.
    - apply NoDup_cons. split.
      + intros (i & -> & Hi')%list_elem_of_fmap. apply elem_of_seqZ in Hi'. destruct (tr_slot _ _ _ _ _ F i ltac:(lia) ltac:(lia)) as (_ & E & _).
        rewrite E in Hi. unfold IDX_INVALID in Hi. lia.
      + apply NoDup_fmap_2_strong; [|apply NoDup_seqZ]. intros i j Hi'%elem_of_seqZ Hj%elem_of_seqZ E.
        destruct (tr_slot _ _ _ _ _ F i ltac:(lia) ltac:(lia)) as (_ & E1 & _). destruct (tr_slot _ _ _ _ _ F j ltac:(lia) ltac:(lia)) as (_ & E2 & _). congruence.
    - intros x [->|(i & -> & Hi')%list_elem_of_fmap]%elem_of_cons; apply elem_of_seqZ; [lia|]. apply elem_of_seqZ in Hi'.
      destruct (tr_slot _ _ _ _ _ F i ltac:(lia) ltac:(lia)) as (? & _). lia. }
  apply submseteq_length in Hsub. cbn in Hsub. rewrite length_fmap, !length_seqZ in Hsub. lia.
Qed.

Section Ops.
Context (base : Z).
#[local] Abbreviation near := (near base).
#[local] Abbreviation ordered := (ordered base).
#[local] Abbreviation heap_ok := (heap_ok base).

(** After one deadline changed or one element was replaced, the order holds but
    for that slot. *)
Lemma ordered_replace cp cp' h : ordered cp (-1) -> 0 <= h -> hsize cp' <= hsize cp ->
  (forall j, 0 <= j -> j <> h -> dl_at cp' j = dl_at cp j) -> h < hsize cp -> ordered cp' h.
Proof.
  intros [O1 O2 _] Hh Hs HD Hhs. assert (HK : forall j, 0 <= j -> j <> h -> k_at base cp' j = k_at base cp j).
  { intros j Hj Hne. unfold k_at. by rewrite HD. }
  split.
  - intros i Hi Hne. rewrite HD by lia. apply O1; lia.
  - intros i p Hp Hc Hi Hih Hph. rewrite !HK by (unfold is_child in Hc; lia). apply O2; unfold is_child in *; lia.
  - intros i p Hp _ Hih Hhp Hi. rewrite !HK by (unfold is_child in *; lia).
    apply (Z.le_trans _ (k_at base cp h)); apply O2; unfold is_child in *; lia.
Qed.

Record cpudl_ok (nr : Z) (cp : cpudl) (D : gmap Z Z) : Prop := {
  ck_heap : heap_ok cp D;
  ck_len : len cp = nr;
  ck_nr : 0 < nr <= NR_CPUS;
  ck_free : mask_ok (free_cpus cp);
}.

(** The objects of the structure stay; its mask of free CPUs changes as told. *)
Definition only_free (cp cp' : cpudl) (c : Z) (v : option bool) : Prop :=
  free_cpus_at cp' = free_cpus_at cp /\ elements_at cp' = elements_at cp
  /\ forall i, 0 <= i -> bit (free_cpus cp') i = if i =? c then default (bit (free_cpus cp) i) v else bit (free_cpus cp) i.

Lemma set_new_tracked cp D c d : full cp D -> 0 <= c < len cp -> D !! c = None ->
  tracked (set_hsize (hsize cp + 1) cp) (hsize cp) d c (<[c := d]> D).
Proof.
  intros F Hc HN. pose proof (full_room cp D c F Hc HN) as Hroom. pose proof (full_index cp D c F Hc) as Hi. rewrite HN in Hi. unfold IDX_INVALID in Hi.
  pose proof (tr_size _ _ _ _ _ F) as Hs. destruct F as [T1 T2 T3 T4 T5]. split; unfold len, dl_at, cpu_at, idx_at in *; cbn [hsize elems set_hsize] in *.
  - lia.
  - intros i Hi' Hne. destruct (T2 i ltac:(lia) ltac:(lia)) as (B1 & B2 & B3 & _).
    assert (cpu (elems cp !!! Z.to_nat i) <> c) by (intros E; rewrite E in B2; lia).
    split_and!; try done; try lia. by rewrite lookup_insert_ne by done.
  - intros x Hx Hxc. specialize (Hxc ltac:(lia)). rewrite lookup_insert_ne by done.
    destruct (T3 x Hx ltac:(done)) as [?|(C1 & C2 & C3)]; [by left|right]. split_and!; try done; lia.
  - intros _. rewrite lookup_insert_eq. split_and!; try done; lia.
  - intros x y. destruct (decide (x = c)) as [->|]; [done|]. rewrite lookup_insert_ne by done. apply T5.
Qed.

(** The deadline of a CPU in the heap is replaced, *)
Lemma set_old_full cp cp1 D c d d0 : full cp D -> 0 <= c < len cp -> D !! c = Some d0 -> same_but cp cp1 ->
  (forall j, 0 <= j -> dl_at cp1 j = if j =? idx_at cp c then d else dl_at cp j) ->
  (forall j, 0 <= j -> cpu_at cp1 j = if j =? idx_at cp c then c else cpu_at cp j) ->
  (forall j, 0 <= j -> idx_at cp1 j = idx_at cp j) -> full cp1 (<[c := d]> D).
Proof.
  intros F Hc HD0 S1 D1 C1 X1. pose proof (full_index cp D c F Hc) as Hi. rewrite HD0 in Hi. destruct Hi as (I1 & I2 & I3). set (i := idx_at cp c) in *.
  assert (HC : forall j, 0 <= j -> cpu_at cp1 j = cpu_at cp j). { intros j Hj. rewrite C1 by done. by destruct (Z.eqb_spec j i) as [->|]. }
  destruct F as [T1 T2 T3 T4 T5]. assert (Hs := sb_size _ _ S1). assert (Hl := sb_len _ _ S1). split; rewrite ?Hs, ?Hl; [done| | |done|].
  - intros j Hj _. rewrite HC, D1, X1 by (rewrite ?HC by lia; destruct (T2 j Hj ltac:(lia)); lia). destruct (T2 j Hj ltac:(lia)) as (B1 & B2 & B3 & _).
    split_and!; try done; try lia. destruct (Z.eqb_spec j i) as [->|Hji]; [by rewrite I2, lookup_insert_eq|].
    rewrite lookup_insert_ne; [done|]. intros E. rewrite <- E in B2. lia.
  - intros x Hx _. rewrite X1 by lia. destruct (T3 x Hx ltac:(done)) as [[N1 N2]|(B1 & B2 & B3)].
    + left. rewrite lookup_insert_ne by (intros ->; congruence). done.
    + right. rewrite HC by lia. done.
  - intros x y. destruct (decide (x = c)) as [->|]; [intros _; lia|]. rewrite lookup_insert_ne by done. apply T5.
Qed.

Lemma cpudl_set_old nr cp D c d d0 : cpudl_ok nr cp D -> 0 <= c < nr -> near d -> D !! c = Some d0 ->
  exists cp', cpudl_set cp c d = Ret cp' /\ cpudl_ok nr cp' (<[c := d]> D) /\ only_free cp cp' c None.
Proof.
  intros [[F O] Hlen Hnr Hm] Hc Hn HD0. rewrite <- Hlen in Hc. unfold cpudl_set. rewrite item_at by done. cbn [obind idx].
  pose proof (full_index cp D c F Hc) as Hi. pose proof (tr_size _ _ _ _ _ F) as Hsz. rewrite HD0 in Hi. destruct Hi as (I1 & I2 & I3).
  destruct (Z.eqb_spec (idx_at cp c) IDX_INVALID) as [E|_]; [unfold IDX_INVALID in E; lia|].
  rewrite item_at by lia. cbn [obind cpu]. rewrite I2.
  destruct (put_slot_at cp (idx_at cp c) d c ltac:(lia)) as (cp1 & -> & S1 & D1 & C1 & X1). cbn [obind].
  pose proof (set_old_full cp cp1 D c d d0 F Hc HD0 S1 D1 C1 X1) as F1. set (i := idx_at cp c) in *.
  destruct (cpudl_heapify_spec base cp1 (<[c := d]> D) i F1) as (cp' & E & S2 & Hok).
  - rewrite (sb_size _ _ S1). lia.
  - apply (ordered_replace cp); [done|lia|rewrite (sb_size _ _ S1); lia| |lia]. intros j Hj Hne. rewrite D1 by done. by destruct (Z.eqb_spec j i).
  - rewrite D1, Z.eqb_refl by lia. done.
  - pose proof (same_but_trans _ _ _ S1 S2) as S. exists cp'. split_and!; [done| |].
    + split; [done|by rewrite (sb_len _ _ S)|done|by rewrite (sb_free _ _ S)].
    + destruct (sb_at _ _ S). unfold only_free. rewrite (sb_free _ _ S). split_and!; try done. intros j _. by destruct (j =? c).
Qed.

(** A step that ends with the mask of free CPUs. *)
Lemma cpudl_ok_free nr cp cp4 D c (b : bool) (f : Z -> cpumask_t -> outcome cpumask_t) :
  heap_ok cp4 D -> len cp4 = nr -> 0 < nr <= NR_CPUS -> mask_ok (free_cpus cp) -> free_cpus cp4 = free_cpus cp ->
  free_cpus_at cp4 = free_cpus_at cp /\ elements_at cp4 = elements_at cp ->
  (exists m, f c (free_cpus cp) = Ret m /\ mask_ok m /\ forall i, 0 <= i -> bit m i = if i =? c then b else bit (free_cpus cp) i) ->
  exists cp', (let! m := f c (free_cpus cp4) in Ret (set_free_cpus m cp4)) = Ret cp' /\ cpudl_ok nr cp' D /\ only_free cp cp' c (Some b).
Proof.
  intros Hok Hl Hnr Hm Ef [At1 At2] (m & E & Hm' & Hb). rewrite Ef, E. cbn [obind]. eexists. split; [reflexivity|]. split; [|done].
  split; [|done|done|done]. destruct Hok as [[A1 A2 A3 A4 A5] [B1 B2 B3]]. by split; split.
Qed.

(** or the CPU enters at the end and rises. *)
Lemma cpudl_set_new nr cp D c d : cpudl_ok nr cp D -> 0 <= c < nr -> near d -> D !! c = None ->
  exists cp', cpudl_set cp c d = Ret cp' /\ cpudl_ok nr cp' (<[c := d]> D) /\ only_free cp cp' c (Some false).
Proof.
  intros [[F O] Hlen Hnr Hm] Hc Hn HD0. rewrite <- Hlen in Hc. unfold cpudl_set. rewrite item_at by done. cbn [obind idx].
  pose proof (full_index cp D c F Hc) as Hi. pose proof (tr_size _ _ _ _ _ F) as Hsz. rewrite HD0 in Hi.
  rewrite Hi, Z.eqb_refl. pose proof (set_new_tracked cp D c d F Hc HD0) as T1. pose proof (full_room cp D c F Hc HD0) as Hroom.
  destruct (push_full _ _ _ _ _ T1 ltac:(lia)) as (cp3 & E3 & S3 & F3 & D3).
  unfold push in E3. destruct (put_slot _ _ _ _) as [cp2| |]; try done. cbn [obind] in *. rewrite E3. cbn [obind].
  assert (Hs3 : hsize cp3 = hsize cp + 1) by apply (sb_size _ _ S3).
  assert (Hvac : forall i, is_child i (hsize cp) -> ~ i < hsize cp3) by (unfold is_child; lia).
  assert (HD3 : forall j, 0 <= j -> j <> hsize cp -> dl_at cp3 j = dl_at cp j).
  { intros j Hj Hne. rewrite D3 by done. by destruct (Z.eqb_spec j (hsize cp)). }
  assert (Hnew : dl_at cp3 (hsize cp) = d) by (rewrite D3, Z.eqb_refl by lia; done).
  destruct (heapify_up_spec base cp3 (<[c := d]> D) (hsize cp) F3) as (cp4 & -> & S4 & Hok).
  - lia.
  - destruct O as [O1 O2 _]. split.
    + intros i Hi' Hne. rewrite HD3 by lia. apply O1; lia.
    + intros i p Hp Hch Hi' Hih Hph. unfold k_at. rewrite !HD3 by (unfold is_child in Hch; lia). apply O2; unfold is_child in *; lia.
    + intros i p _ _ Hih _ Hi'. by destruct (Hvac i Hih).
  - by rewrite Hnew.
  - intros i Hih Hi'. by destruct (Hvac i Hih).
  - pose proof (same_but_trans _ _ _ S3 S4) as S. apply (cpudl_ok_free nr cp cp4 _ c false cpumask_clear_cpu); try done.
    + rewrite <- Hlen. apply (sb_len _ _ S).
    + apply (sb_free _ _ S).
    + apply (sb_at _ _ S).
    + apply cpumask_clear_cpu_spec; [done|lia].
Qed.

(** ** Removing a CPU *)

(** The stores of cpudl_clear() before the order is restored: the last element
    takes the place [i] of the removed one. *)
Lemma clear_stores cp D c : full cp D -> 0 <= c < len cp -> is_Some (D !! c) ->
  let i := idx_at cp c in let n := hsize cp - 1 in
  exists cp4,
    (let! last := item cp n in
     let! cp1 := put_slot cp i (dl last) (cpu last) in
     let! cp3 := put_idx (set_hsize (hsize cp1 - 1) cp1) (cpu last) i in
     put_idx cp3 c IDX_INVALID) = Ret cp4
    /\ same_but (set_hsize n cp) cp4
    /\ (forall j, 0 <= j -> dl_at cp4 j = if j =? i then dl_at cp n else dl_at cp j)
    /\ (forall j, 0 <= j -> cpu_at cp4 j = if j =? i then cpu_at cp n else cpu_at cp j)
    /\ (forall x, 0 <= x -> idx_at cp4 x = if x =? c then IDX_INVALID else if x =? cpu_at cp n then i else idx_at cp x).
Proof.
  intros F Hc [d Hd] i n. pose proof (full_index cp D c F Hc) as Hi. rewrite Hd in Hi. destruct Hi as (I1 & _). fold i in I1.
  pose proof (tr_size _ _ _ _ _ F). destruct (tr_slot _ _ _ _ _ F n ltac:(lia) ltac:(lia)) as (N1 & _).
  rewrite item_at by lia. cbn [obind dl cpu].
  destruct (put_slot_at cp i (dl_at cp n) (cpu_at cp n) ltac:(lia)) as (cp1 & -> & S1 & D1 & C1 & X1). cbn [obind].
  assert (Hl1 := sb_len _ _ S1).
  destruct (put_idx_at (set_hsize (hsize cp1 - 1) cp1) (cpu_at cp n) i) as (cp3 & -> & S3 & D3 & C3 & X3); [unfold len in *; cbn; lia|]. cbn [obind].
  assert (Hl3 : len cp3 = len cp) by (rewrite (sb_len _ _ S3), <- Hl1; done).
  destruct (put_idx_at cp3 c IDX_INVALID) as (cp4 & -> & S4 & D4 & C4 & X4); [lia|].
  exists cp4. split; [done|]. split_and!.
  - destruct S1 as [P1 P2 P3 [P4 P5]]. apply (same_but_trans _ cp3); [|done]. destruct S3 as [Q1 Q2 Q3 [Q4 Q5]].
    split; [rewrite Q1; cbn; unfold n; lia|done|by rewrite Q3|]. split; [by rewrite Q4|by rewrite Q5].
  - intros j Hj. rewrite D4, D3 by done. apply D1. done.
  - intros j Hj. rewrite C4, C3 by done. apply C1. done.
  - intros x Hx. rewrite X4, X3 by done. destruct (x =? c); [done|]. destruct (x =? cpu_at cp n); [done|]. by apply X1.
Qed.

Lemma clear_full cp D c cp4 : full cp D -> 0 <= c < len cp -> is_Some (D !! c) ->
  let i := idx_at cp c in let n := hsize cp - 1 in
  same_but (set_hsize n cp) cp4 ->
  (forall j, 0 <= j -> dl_at cp4 j = if j =? i then dl_at cp n else dl_at cp j) ->
  (forall j, 0 <= j -> cpu_at cp4 j = if j =? i then cpu_at cp n else cpu_at cp j) ->
  (forall x, 0 <= x -> idx_at cp4 x = if x =? c then IDX_INVALID else if x =? cpu_at cp n then i else idx_at cp x) ->
  full cp4 (delete c D).
Proof.
  intros F Hc [d Hd] i n S D4 C4 X4. pose proof (full_index cp D c F Hc) as Hi. rewrite Hd in Hi. destruct Hi as (I1 & I2 & I3). fold i in I1, I2, I3.
  pose proof (tr_size _ _ _ _ _ F) as Hsz. destruct F as [T1 T2 T3 T4 T5].
  destruct (T2 n ltac:(lia) ltac:(lia)) as (N1 & N2 & N3 & _).
  assert (Hs : hsize cp4 = n) by apply (sb_size _ _ S). assert (Hl : len cp4 = len cp) by apply (sb_len _ _ S).
  split; rewrite ?Hs, ?Hl; [unfold n in *; lia| | |done|].
  - intros j Hj _. rewrite C4, D4 by lia. destruct (Z.eqb_spec j i) as [->|Hji].
    + assert (cpu_at cp n <> c) by (intros E; rewrite E in N2; fold i in N2; lia). rewrite X4 by lia.
      destruct (Z.eqb_spec (cpu_at cp n) c); [done|]. rewrite Z.eqb_refl. rewrite lookup_delete_ne by done. split_and!; try done; lia.
    + destruct (T2 j ltac:(lia) ltac:(lia)) as (B1 & B2 & B3 & _). rewrite X4 by lia.
      destruct (Z.eqb_spec (cpu_at cp j) c) as [E|]; [rewrite E in B2; fold i in B2; lia|].
      destruct (Z.eqb_spec (cpu_at cp j) (cpu_at cp n)) as [E|]; [rewrite E in B2; lia|]. rewrite lookup_delete_ne by done. split_and!; try done; lia.
  - intros x Hx _. rewrite X4 by lia. destruct (Z.eqb_spec x c) as [->|Hxc]; [left; by rewrite lookup_delete_eq|].
    rewrite lookup_delete_ne by done. destruct (Z.eqb_spec x (cpu_at cp n)) as [->|Hxn].
    + right. assert (i <> n) by (intros E; rewrite <- E in Hxc; congruence). rewrite C4, Z.eqb_refl by lia. split_and!; try done; lia.
    + destruct (T3 x Hx ltac:(done)) as [?|(B1 & B2 & B3)]; [by left|right].
      assert (idx_at cp x <> i) by (intros E; rewrite E in B3; congruence). assert (idx_at cp x <> n) by (intros E; rewrite E in B3; congruence).
      rewrite C4 by lia. destruct (Z.eqb_spec (idx_at cp x) i); [done|]. split_and!; try done; lia.
  - intros x y [_ Hy]%lookup_delete_Some. by apply (T5 x y).
Qed.

(** Restoring the order at the place of the removed element; when it was the
    last one nothing has to be done, and the code looks at the stale element to
    find that out. *)
Lemma clear_heapify cp D c cp4 : heap_ok cp D -> 0 <= c < len cp -> is_Some (D !! c) ->
  let i := idx_at cp c in let n := hsize cp - 1 in
  full cp4 (delete c D) -> hsize cp4 = n -> len cp4 = len cp ->
  (forall j, 0 <= j -> dl_at cp4 j = if j =? i then dl_at cp n else dl_at cp j) ->
  exists cp5, cpudl_heapify cp4 i = Ret cp5 /\ same_but cp4 cp5 /\ heap_ok cp5 (delete c D).
Proof.
  intros [F O] Hc [d Hd] i n F4 Hs Hl D4. pose proof (full_index cp D c F Hc) as Hi. rewrite Hd in Hi. destruct Hi as (I1 & _). fold i in I1.
  pose proof (tr_size _ _ _ _ _ F) as Hsz. destruct (decide (i = n)) as [Ein|Hne].
  - exists cp4. assert (HD : forall j, 0 <= j -> dl_at cp4 j = dl_at cp j).
    { intros j Hj. rewrite D4 by done. destruct (Z.eqb_spec j i) as [->|]; [by rewrite Ein|done]. }
    split_and!; [|apply same_but_refl|].
    + unfold cpudl_heapify, cpudl_heapify_down. rewrite (item_at cp4 i) by lia. cbn [obind dl].
      assert (Hleft : (left_child i >=? hsize cp4) = true) by (unfold left_child; rewrite Z.shiftl_mul_pow2 by lia; apply Z.geb_le; lia). rewrite Hleft.
      destruct (Z.gtb_spec i 0) as [Hi0|_]; [|done]. destruct (parent_child i Hi0) as [Hp Hch]. rewrite item_at by lia. cbn [obind dl]. rewrite !HD by lia.
      destruct O as [O1 O2 _]. rewrite (before_key base) by (apply O1; lia). pose proof (O2 i (parent i) ltac:(lia) Hch ltac:(lia) ltac:(lia) ltac:(lia)) as Hk.
      unfold k_at in Hk. destruct (Z.ltb_spec (key base (dl_at cp (parent i))) (key base (dl_at cp i))); [lia|done].
    + split; [done|]. destruct O as [O1 O2 O3]. split; rewrite ?Hs.
      * intros j Hj _. rewrite HD by lia. apply O1; lia.
      * intros j p Hp Hch Hj _ _. unfold k_at. rewrite !HD by (unfold is_child in Hch; lia). apply O2; unfold is_child in *; lia.
      * lia.
  - apply cpudl_heapify_spec; [done|lia| |].
    + apply (ordered_replace cp); [done|lia|lia| |lia]. intros j Hj Hji. rewrite D4 by done. by destruct (Z.eqb_spec j i).
    + rewrite D4, Z.eqb_refl by lia. apply (od_near _ _ _ O); lia.
Qed.

Lemma cpudl_clear_spec nr cp D c : cpudl_ok nr cp D -> 0 <= c < nr ->
  exists cp', cpudl_clear cp c = Ret cp' /\ cpudl_ok nr cp' (delete c D)
    /\ only_free cp cp' c (match D !! c with None => None | Some _ => Some true end).
Proof.
  intros [[F O] Hlen Hnr Hm] Hc. rewrite <- Hlen in Hc. unfold cpudl_clear. rewrite item_at by done. cbn [obind idx].
  pose proof (full_index cp D c F Hc) as Hi. destruct (D !! c) as [d|] eqn:HD.
  - destruct Hi as (I1 & I2 & I3). destruct (Z.eqb_spec (idx_at cp c) IDX_INVALID) as [E|_]; [unfold IDX_INVALID in E; lia|].
    assert (Hsome : is_Some (D !! c)) by (by rewrite HD).
    destruct (clear_stores cp D c F Hc Hsome) as (cp4 & E4 & S4 & D4 & C4 & X4).
    pose proof (clear_full cp D c cp4 F Hc Hsome S4 D4 C4 X4) as F4.
    destruct (clear_heapify cp D c cp4 (conj F O) Hc Hsome F4 (sb_size _ _ S4) (sb_len _ _ S4) D4) as (cp5 & E5 & S5 & Hok).
    destruct (item cp (hsize cp - 1)) as [last| |]; try done. cbn [obind] in *.
    destruct (put_slot cp _ _ _) as [cp1| |]; try done. cbn [obind] in *.
    destruct (put_idx _ _ _) as [cp3| |]; try done. cbn [obind] in *. rewrite E4. cbn [obind]. rewrite E5. cbn [obind].
    pose proof (same_but_trans _ _ _ S4 S5) as S. apply (cpudl_ok_free nr cp cp5 _ c true cpumask_set_cpu); try done.
    + rewrite <- Hlen. apply (sb_len _ _ S).
    + apply (sb_free _ _ S).
    + apply (sb_at _ _ S).
    + apply cpumask_set_cpu_spec; [done|lia].
  - rewrite Hi, Z.eqb_refl. exists cp. split_and!; [done| |].
    + rewrite delete_id by done. by split.
    + split_and!; try done. intros j _. by destruct (j =? c).
Qed.

(** ** Searching *)

Lemma heap_root cp : ordered cp (-1) -> forall i, 0 <= i < hsize cp -> k_at base cp i <= k_at base cp 0.
Proof.
  intros O.
  assert (H : forall n i, 0 <= i < Z.of_nat n -> i < hsize cp -> k_at base cp i <= k_at base cp 0).
  { induction n as [|n IH]; intros i Hi Hs; [lia|]. destruct (decide (i = 0)) as [->|]; [lia|].
    destruct (parent_child i ltac:(lia)) as [Hp Hc]. etransitivity; [by apply (od_heap _ _ _ O i (parent i)); lia || done|]. apply IH; lia. }
  intros i Hi. apply (H (Z.to_nat (i + 1))); lia.
Qed.

(** CPU [c] has the latest deadline [d]. *)
Definition latest (D : gmap Z Z) (c d : Z) : Prop :=
  D !! c = Some d /\ forall c' d', D !! c' = Some d' -> key base d' <= key base d.

Lemma cpudl_maximum_spec nr cp D : cpudl_ok nr cp D -> D <> ∅ ->
  exists c d, 0 <= c < nr /\ latest D c d /\ cpudl_maximum cp = Ret c /\ item cp 0 = Ret (mk_item d c (idx_at cp 0)).
Proof.
  intros [[F O] Hlen Hnr Hm] Hne. apply map_choose in Hne as (c0 & d0 & H0).
  pose proof (full_index cp D c0 F (tr_dom _ _ _ _ _ F _ _ H0)) as Hi. rewrite H0 in Hi. destruct Hi as (I1 & _).
  pose proof (tr_size _ _ _ _ _ F). destruct (tr_slot _ _ _ _ _ F 0 ltac:(lia) ltac:(lia)) as (B1 & B2 & B3 & _).
  exists (cpu_at cp 0), (dl_at cp 0). unfold cpudl_maximum. rewrite item_at by lia. split; [lia|]. split; [|done].
  split; [done|]. intros c' d' H'. pose proof (full_index cp D c' F (tr_dom _ _ _ _ _ F _ _ H')) as Hi'. rewrite H' in Hi'.
  destruct Hi' as (J1 & J2 & <-). by apply heap_root.
Qed.

(** The answer of cpudl_find(): the allowed free CPUs, if asked for and there
    are any; otherwise the CPU with the latest deadline, if it is allowed and
    that deadline is later than the task's. *)
Definition answers (D : gmap Z Z) (free allowed : Z -> bool) (deadline : Z) (lm lm' : option cpumask_t) (r : Z) : Prop :=
  (lm = None <-> lm' = None) /\ (forall m, lm' = Some m -> mask_ok m)
  /\ (((exists m, lm' = Some m /\ r = 1 /\ (exists c, is_cpu c /\ free c && allowed c = true)
          /\ forall c, is_cpu c -> bit m c = free c && allowed c))
      \/ ((lm <> None -> forall c, is_cpu c -> free c && allowed c = false)
          /\ exists c d, latest D c d /\ r = (if allowed c && (key base deadline <? key base d) then 1 else 0)
          /\ forall m, lm' = Some m -> forall i, is_cpu i -> bit m i = (r =? 1) && (i =? c))).

Lemma cpudl_find_spec nr cp D deadline allowed lm :
  cpudl_ok nr cp D -> D <> ∅ -> near deadline -> mask_ok allowed -> (forall m, lm = Some m -> mask_ok m) ->
  exists lm' r, cpudl_find cp deadline allowed lm = Ret (lm', r)
    /\ answers D (bit (free_cpus cp)) (bit allowed) deadline lm lm' r.
Proof.
  intros Hok Hne Hd Ha Hlm. pose proof (ck_nr _ _ _ Hok) as Hnr. destruct (cpudl_maximum_spec nr cp D Hok Hne) as (c & d & Hc & Hl & Em & Ei).
  assert (Hnd : near d). { destruct Hok as [[F O] _ _ _]. destruct Hl as [HD _]. pose proof (full_index cp D c F (tr_dom _ _ _ _ _ F _ _ HD)) as Hi.
    rewrite HD in Hi. destruct Hi as (I1 & _ & <-). apply (od_near _ _ _ O); lia. }
  unfold cpudl_find. destruct lm as [m|].
  - destruct (cpumask_and_spec m (free_cpus cp) allowed (Hlm _ eq_refl) (ck_free _ _ _ Hok) Ha) as (m1 & b & -> & Hm1 & Hb1 & Hb). cbn [obind].
    destruct b.
    + exists (Some m1), 1. split; [done|]. split_and!; [done|by intros ? [= <-]|left]. exists m1. split_and!; try done; [by apply Hb|].
      intros i Hi. rewrite Hb1 by (unfold NR_CPUS in Hi; lia). destruct (Z.ltb_spec i NR_CPUS); [done|lia].
    + assert (Hnone : forall i, is_cpu i -> bit (free_cpus cp) i && bit allowed i = false).
      { intros i Hi. apply not_true_is_false. intros E. assert (false = true) by (apply Hb; eauto). done. }
      rewrite Em, Ei. cbn [obind dl]. rewrite cpumask_is_set_spec by (done || lia). cbn [obind]. rewrite (before_key base) by done.
      destruct (bit allowed c && (key base deadline <? key base d)) eqn:Ec.
      * destruct (cpumask_set_cpu_spec m1 c Hm1 ltac:(lia)) as (m2 & -> & Hm2 & Hb2). cbn [obind].
        exists (Some m2), 1. split; [done|]. split_and!; [done|by intros ? [= <-]|right]. split; [done|]. exists c, d. split_and!; [done|by rewrite Ec|].
        intros ? [= <-] i Hi. rewrite Hb2 by lia. destruct (Z.eqb_spec i c); [done|]. rewrite Hb1 by (unfold NR_CPUS in Hi; lia). rewrite Hnone by done. apply andb_false_r.
      * exists (Some m1), 0. split; [done|]. split_and!; [done|by intros ? [= <-]|right]. split; [done|]. exists c, d. split_and!; [done|by rewrite Ec|].
        intros ? [= <-] i Hi. rewrite Hb1 by (unfold NR_CPUS in Hi; lia). rewrite Hnone by done. apply andb_false_r.
  - cbn [obind]. rewrite Em, Ei. cbn [obind dl]. rewrite cpumask_is_set_spec by (done || lia). cbn [obind]. rewrite (before_key base) by done.
    destruct (bit allowed c && (key base deadline <? key base d)) eqn:Ec; eexists _, _; (split; [reflexivity|]); (split_and!; [done|done|right]);
      (split; [done|]); exists c, d; rewrite Ec; done.
Qed.

(** Where an allowed CPU is free the heap does not matter. *)
Lemma cpudl_find_free nr cp D deadline allowed m :
  cpudl_ok nr cp D -> mask_ok allowed -> mask_ok m -> (exists c, is_cpu c /\ bit (free_cpus cp) c && bit allowed c = true) ->
  exists lm' r, cpudl_find cp deadline allowed (Some m) = Ret (lm', r) /\ answers D (bit (free_cpus cp)) (bit allowed) deadline (Some m) lm' r.
Proof.
  intros Hok Ha Hm Hex. unfold cpudl_find. destruct (cpumask_and_spec m (free_cpus cp) allowed Hm (ck_free _ _ _ Hok) Ha) as (m1 & b & -> & Hm1 & Hb1 & Hb). cbn [obind].
  assert (b = true) as -> by (by apply Hb). exists (Some m1), 1. split; [done|]. split_and!; [done|by intros ? [= <-]|left]. exists m1. split_and!; try done.
  intros i Hi. rewrite Hb1 by (unfold NR_CPUS in Hi; lia). destruct (Z.ltb_spec i NR_CPUS); [done|lia].
Qed.

(** ** Any sequence of operations *)

Variant cpudl_op := OpSet (c d : Z) | OpClear (c : Z) | OpSetFree (c : Z) | OpClearFree (c : Z).

Definition run_op (cp : cpudl) (o : cpudl_op) : outcome cpudl :=
  match o with
  | OpSet c d => cpudl_set cp c d
  | OpClear c => cpudl_clear cp c
  | OpSetFree c => cpudl_set_freecpu cp c
  | OpClearFree c => cpudl_clear_freecpu cp c
  end.
Fixpoint run_ops (cp : cpudl) (l : list cpudl_op) : outcome cpudl :=
  match l with
  | [] => Ret cp
  | o :: r => let! cp1 := run_op cp o in run_ops cp1 r
  end.

(** What they mean for the deadlines and the set of free CPUs. *)
Definition upd_free (f : Z -> bool) (c : Z) (v : bool) : Z -> bool := fun i => if i =? c then v else f i.
Definition abs_op (st : gmap Z Z * (Z -> bool)) (o : cpudl_op) : gmap Z Z * (Z -> bool) :=
  let (D, f) := st in
  match o with
  | OpSet c d => (<[c := d]> D, match D !! c with None => upd_free f c false | Some _ => f end)
  | OpClear c => (delete c D, match D !! c with None => f | Some _ => upd_free f c true end)
  | OpSetFree c => (D, upd_free f c true)
  | OpClearFree c => (D, upd_free f c false)
  end.
Definition op_ok (nr : Z) (o : cpudl_op) : Prop :=
  match o with
  | OpSet c d => 0 <= c < nr /\ near d
  | OpClear c | OpSetFree c | OpClearFree c => 0 <= c < nr
  end.

Record refines (nr : Z) (cp : cpudl) (st : gmap Z Z * (Z -> bool)) : Prop := {
  rf_ok : cpudl_ok nr cp (fst st);
  rf_free : forall i, 0 <= i -> bit (free_cpus cp) i = snd st i;
}.

Lemma run_op_spec nr cp st o : refines nr cp st -> op_ok nr o ->
  exists cp', run_op cp o = Ret cp' /\ refines nr cp' (abs_op st o)
    /\ free_cpus_at cp' = free_cpus_at cp /\ elements_at cp' = elements_at cp.
Proof.
  intros [Hok Hf] Ho. destruct st as [D f]. cbn [fst snd] in *. pose proof (ck_nr _ _ _ Hok) as Hnr. destruct o as [c d|c|c|c]; cbn [run_op abs_op op_ok] in *.
  - destruct Ho as [Hc Hd]. destruct (D !! c) as [d0|] eqn:HD.
    + destruct (cpudl_set_old nr cp D c d d0 Hok Hc Hd HD) as (cp' & E & Hok' & A1 & A2 & A3). exists cp'. split_and!; try done. split; [done|].
      intros i Hi. cbn. rewrite A3 by done. cbn. rewrite <- Hf by done. by destruct (i =? c).
    + destruct (cpudl_set_new nr cp D c d Hok Hc Hd HD) as (cp' & E & Hok' & A1 & A2 & A3). exists cp'. split_and!; try done. split; [done|].
      intros i Hi. cbn. rewrite A3 by done. unfold upd_free. cbn. by rewrite <- Hf.
  - destruct (cpudl_clear_spec nr cp D c Hok Ho) as (cp' & E & Hok' & A1 & A2 & A3). exists cp'. split_and!; try done. split; [done|].
    intros i Hi. cbn. rewrite A3 by done. destruct (D !! c); cbn; unfold upd_free; rewrite <- Hf by done; [done|by destruct (i =? c)].
  - destruct Hok as [Hh Hl _ Hm]. destruct (cpudl_ok_free nr cp cp D c true cpumask_set_cpu Hh Hl Hnr Hm eq_refl ltac:(done)
      ltac:(apply cpumask_set_cpu_spec; [done|lia])) as (cp' & E & Hok' & A1 & A2 & A3). exists cp'. split_and!; try done. split; [done|].
    intros i Hi. cbn. rewrite A3 by done. unfold upd_free. cbn. by rewrite <- Hf.
  - destruct Hok as [Hh Hl _ Hm]. destruct (cpudl_ok_free nr cp cp D c false cpumask_clear_cpu Hh Hl Hnr Hm eq_refl ltac:(done)
      ltac:(apply cpumask_clear_cpu_spec; [done|lia])) as (cp' & E & Hok' & A1 & A2 & A3). exists cp'. split_and!; try done. split; [done|].
    intros i Hi. cbn. rewrite A3 by done. unfold upd_free. cbn. by rewrite <- Hf.
Qed.

Lemma run_ops_spec nr : forall l cp st, refines nr cp st -> Forall (op_ok nr) l ->
  exists cp', run_ops cp l = Ret cp' /\ refines nr cp' (fold_left abs_op l st)
    /\ free_cpus_at cp' = free_cpus_at cp /\ elements_at cp' = elements_at cp.
Proof.
  induction l as [|o l IH]; intros cp st Hr Hall; cbn [run_ops]; [by exists cp|]. apply Forall_cons in Hall as [Ho Hl].
  destruct (run_op_spec nr cp st o Hr Ho) as (cp1 & -> & Hr1 & A1 & A2). cbn [obind].
  destruct (IH cp1 _ Hr1 Hl) as (cp' & E & Hr' & B1 & B2). exists cp'. split_and!; try done; congruence.
Qed.
End Ops.

(** ** Setting up and taking down *)

Lemma invalidate_idx_spec : forall possible cp, Forall (fun c => 0 <= c < len cp) possible ->
  exists cp', invalidate_idx possible cp = Ret cp' /\ same_but cp cp'
    /\ (forall c, c ∈ possible -> idx_at cp' c = IDX_INVALID)
    /\ (forall c, 0 <= c -> idx_at cp c = IDX_INVALID -> idx_at cp' c = IDX_INVALID).
Proof.
  induction possible as [|c r IH]; intros cp Hall; cbn [invalidate_idx].
  - exists cp. split_and!; try done. by intros ? ?%not_elem_of_nil.
  - apply Forall_cons in Hall as [Hc Hr]. destruct (put_idx_at cp c IDX_INVALID Hc) as (cp1 & -> & S1 & _ & _ & X1). cbn [obind].
    destruct (IH cp1) as (cp' & E & S2 & P1 & P2); [by rewrite (sb_len _ _ S1)|]. exists cp'.
    assert (H0 : forall x, 0 <= x -> idx_at cp x = IDX_INVALID -> idx_at cp' x = IDX_INVALID).
    { intros x Hx Ex. apply P2; [done|]. rewrite X1 by done. by destruct (x =? c). }
    split_and!; [done|by apply (same_but_trans _ cp1)| |done].
    intros x [->|Hx]%elem_of_cons; [|by apply P1]. apply P2; [lia|]. by rewrite X1, Z.eqb_refl by lia.
Qed.

Section Whole.
Context {K : Type} `{ObjectAllocatorLaws K} (base : Z).

Lemma cpudl_init_spec possible nr (k : K) : 0 < nr <= NR_CPUS -> (forall c, c ∈ possible <-> 0 <= c < nr) ->
  exists k' res, cpudl_init possible nr k = Ret (k', res)
    /\ match res with
       | inl cp => refines base nr cp (∅, fun _ => false)
           /\ elements_at cp ∈ oa_live k' /\ free_cpus_at cp ∈ oa_live k' /\ elements_at cp <> free_cpus_at cp
           /\ oa_live k' ∖ {[free_cpus_at cp; elements_at cp]} = oa_live k
       | inr e => e = - ENOMEM /\ oa_live k' = oa_live k
       end
    /\ (if res then true else false) = oa_serves k [nr * SIZEOF_CPUDL_ITEM; cpumask_size].
Proof.
  intros Hnr Hpos. unfold cpudl_init. cbn [oa_serves].
  destruct (oa_kzalloc_law k (nr * SIZEOF_CPUDL_ITEM) ltac:(unfold SIZEOF_CPUDL_ITEM; lia)) as (k1 & p & -> & Hp). cbn [obind].
  destruct (Z.eqb_spec p 0) as [->|Hp0]; [destruct Hp as [[_ E]|[? _]]; [|done]; by exists k1, (inr (- ENOMEM))|].
  destruct Hp as [[? _]|(_ & Hfresh & E)]; [done|]. unfold zalloc_cpumask_var.
  destruct (oa_kzalloc_law k1 cpumask_size ltac:(by vm_compute)) as (k2 & q & -> & Hq). cbn [obind].
  destruct (Z.eqb_spec q 0) as [->|Hq0].
  - destruct Hq as [[_ E2]|[? _]]; [|done]. destruct (oa_kfree_law k2 p) as (k3 & -> & E3); [set_solver|]. cbn [obind].
    exists k3, (inr (- ENOMEM)). split_and!; [done|done| |done]. rewrite E3, E2, E. set_solver.
  - destruct Hq as [[? _]|(_ & Hfresh2 & E2)]; [done|].
    set (cp0 := mk_cpudl 0 q [0] p (replicate (Z.to_nat nr) (mk_item 0 0 0))).
    assert (Hl : len cp0 = nr) by (unfold len; cbn; rewrite length_replicate; lia).
    destruct (invalidate_idx_spec possible cp0) as (cp & -> & S & Hi & _).
    { apply Forall_forall. intros c Hc. rewrite Hl. by apply Hpos. }
    cbn [obind]. exists k2, (inl cp). split; [done|]. split; [|done]. destruct S as [Es El Ef [Ea1 Ea2]]. cbn in Es, Ef, Ea1, Ea2. rewrite Hl in El.
    split_and!.
    + split; cbn [fst snd].
      * split; [|done|done|rewrite Ef; split; [done|by repeat constructor]].
        split; [|split; rewrite ?Es; unfold is_child; lia]. split; rewrite ?Es, ?El; [lia|lia| |done|intros c d Hc; by rewrite lookup_empty in Hc].
        intros c Hc _. left. split; [apply lookup_empty|]. apply Hi. by apply Hpos.
      * intros i Hi'. rewrite Ef. unfold bit. destruct (Z.to_nat (i / 64)) as [|[]]; cbn; by rewrite ?Z.bits_0.
    + rewrite Ea2. set_solver.
    + rewrite Ea1. set_solver.
    + rewrite Ea1, Ea2. set_solver.
    + rewrite Ea1, Ea2, E2, E. set_solver.
Qed.

(** C25. cpudl: setting up fails with -ENOMEM and gives back every object, which
    it does only when the allocator cannot serve its two requests, or after any
    sequence of cpudl_set(), cpudl_clear() and changes to the free CPUs the
    structure holds exactly the last deadlines and free CPUs: places and heap
    slots are inverse, the root has the latest deadline, and cpudl_find()
    answers accordingly, except where the heap is empty and it is asked for no
    mask or no allowed CPU is free: there it looks at a stale entry
    (cpudl_find_stale below).  cpudl_cleanup() gives back every object.  The
    deadlines, that of the task included, may be anywhere in the 64-bit range
    as long as they lie less than 2^63 behind a common base, as the wrapping
    comparison of deadlines requires. *)
Theorem cpudl_correct possible nr (k : K) l deadline allowed lm :
  0 < nr <= NR_CPUS -> (forall c, c ∈ possible <-> 0 <= c < nr) -> Forall (op_ok base nr) l ->
  near base deadline -> mask_ok allowed -> (forall m, lm = Some m -> mask_ok m) ->
  exists k' res, cpudl_init possible nr k = Ret (k', res) /\
    match res with
    | inr e => e = - ENOMEM /\ oa_live k' = oa_live k /\ oa_serves k [nr * SIZEOF_CPUDL_ITEM; cpumask_size] = false
    | inl cp0 => exists cp, run_ops cp0 l = Ret cp /\
        let (D, free) := fold_left abs_op l (∅, fun _ => false) in
        refines base nr cp (D, free)
        /\ (D <> ∅ \/ (lm <> None /\ exists c, is_cpu c /\ bit (free_cpus cp) c && bit allowed c = true) ->
            exists lm' r, cpudl_find cp deadline allowed lm = Ret (lm', r)
              /\ answers base D (bit (free_cpus cp)) (bit allowed) deadline lm lm' r)
        /\ exists k2, cpudl_cleanup k' cp = Ret k2 /\ oa_live k2 = oa_live k
    end.
Proof.
  intros Hnr Hpos Hops Hd Ha Hlm. destruct (cpudl_init_spec possible nr k Hnr Hpos) as (k' & res & -> & Hres & Hsv).
  exists k', res. split; [done|]. destruct res as [cp0|e]; [|destruct Hres; by split_and!]. destruct Hres as (Hr & L1 & L2 & L3 & L4).
  destruct (run_ops_spec base nr l cp0 _ Hr Hops) as (cp & E & Hr' & A1 & A2). exists cp. split; [done|].
  destruct (fold_left abs_op l (∅, fun _ => false)) as [D free]. split_and!; [done| |].
  - pose proof (rf_ok _ _ _ _ Hr') as Hok. intros [HD|[Hm Hex]]; [by apply (cpudl_find_spec base nr)|].
    destruct lm as [m|]; [|done]. by apply (cpudl_find_free base nr); auto.
  - unfold cpudl_cleanup, free_cpumask_var. rewrite A1, A2. destruct (oa_kfree_law k' _ L2) as (k1 & -> & E1). cbn [obind].
    destruct (oa_kfree_law k1 (elements_at cp0)) as (k2 & -> & E2); [set_solver|]. exists k2. split; [done|]. rewrite E2, E1, <- L4. set_solver.
Qed.
End Whole.

Definition sample_ops : list cpudl_op := [OpSet 0 500; OpSet 1 900; OpSet 2 700; OpSetFree 3; OpSet 1 600; OpClear 2].

Lemma cpudl_correct_witness :
  exists k' res, cpudl_init [0; 1; 2; 3] 4 (empty_bump 10) = Ret (k', res) /\
    match res with
    | inr e => e = - ENOMEM /\ oa_live k' = oa_live (empty_bump 10) /\ oa_serves (empty_bump 10) [4 * SIZEOF_CPUDL_ITEM; cpumask_size] = false
    | inl cp0 => exists cp, run_ops cp0 sample_ops = Ret cp /\
        let (D, free) := fold_left abs_op sample_ops (∅, fun _ => false) in
        refines 100 4 cp (D, free)
        /\ (D <> ∅ \/ (Some [0] <> None /\ exists c, is_cpu c /\ bit (free_cpus cp) c && bit [3] c = true) ->
            exists lm' r, cpudl_find cp 400 [3] (Some [0]) = Ret (lm', r)
              /\ answers 100 D (bit (free_cpus cp)) (bit [3]) 400 (Some [0]) lm' r)
        /\ exists k2, cpudl_cleanup k' cp = Ret k2 /\ oa_live k2 = oa_live (empty_bump 10)
    end.
Proof.
  apply (cpudl_correct 100 [0; 1; 2; 3] 4 (empty_bump 10) sample_ops 400 [3] (Some [0])).
  - by vm_compute.
  - intros c. rewrite !elem_of_cons, elem_of_nil. lia.
  - repeat constructor; by vm_compute.
  - by vm_compute.
  - split; [done|]. by repeat constructor.
  - intros m [= <-]. split; [done|]. by repeat constructor.
Defined.

Definition sample_run (l : list cpudl_op) (allowed : cpumask_t) (lm : option cpumask_t) : outcome (option cpumask_t * Z) :=
  match cpudl_init [0; 1; 2; 3] 4 (empty_bump 10) with
  | Ret (_, inl cp0) => let! cp := run_ops cp0 l in cpudl_find cp 400 allowed lm
  | _ => Stuck
  end.

(** CPU 1 has the latest deadline, 600; CPU 2 is free once its deadline is gone. *)
Example cpudl_sample : sample_run sample_ops [3] (Some [0]) = Ret (Some [2], 1) /\ sample_run sample_ops [15] (Some [0]) = Ret (Some [12], 1).
Proof. vm_compute. done. Qed.

(** With an empty heap cpudl_find() looks at the element that was removed last:
    CPU 0, not free and without a deadline, is reported as one to push to. *)
Example cpudl_find_stale : sample_run [OpSet 0 500; OpClear 0; OpClearFree 0] [1] (Some [0]) = Ret (Some [1], 1).
Proof. vm_compute. done. Qed.
