(* ===== verification/Sort.v ===== *)
(** * Sorting an array

    Model of src/lib/sort.c: heapsort of [num] elements of [size] bytes with a
    comparison function.  Positions are byte offsets in C ints, as in the
    source; the array is the list of its elements, so the element at offset
    [o] is entry [o / size].  The swap function of the caller, or the one that
    sort() chooses, exchanges two elements; the functions it chooses from and
    the choice are modelled on their own, over a memory of bytes, and proved to
    do that. *)

From S2P Require Import Prelude.
From stdpp Require Import base list numbers option sorting.
#[local] Open Scope Z_scope.
#[local] Open Scope kernel_scope.

(** ** generic_swap(): [size] bytes at [i] and at [j] of the memory [m]. *)
Fixpoint generic_swap_loop (fuel : nat) (m : Z -> Z) (i j size : Z) : outcome (Z -> Z) :=
  match fuel with
  | O => Stuck
  | S fuel' =>
      let t := m i in
      let m1 := fun k => if k =? i then m j else m k in
      let m2 := fun k => if k =? j then t else m1 k in
      if size - 1 >? 0 then generic_swap_loop fuel' m2 (i + 1) (j + 1) (size - 1) else Ret m2
  end.
Definition generic_swap (m : Z -> Z) (i j size : Z) : outcome (Z -> Z) :=
  generic_swap_loop (S (Z.to_nat size)) m i j size.

(** [n] bytes at [a] as a little-endian word. *)
Fixpoint load (n : nat) (m : Z -> Z) (a : Z) : Z :=
  match n with O => 0 | S n' => m a + 2 ^ 8 * load n' m (a + 1) end.
Definition store (n : nat) (m : Z -> Z) (a v : Z) : Z -> Z :=
  fun k => if (a <=? k) && (k <? a + Z.of_nat n) then Z.shiftr v (8 * (k - a)) mod 2 ^ 8 else m k.
Definition u32_swap (m : Z -> Z) (i j size : Z) : Z -> Z :=
  let t := load 4 m i in
  store 4 (store 4 m i (load 4 m j)) j t.
Definition u64_swap (m : Z -> Z) (i j size : Z) : Z -> Z :=
  let t := load 8 m i in
  store 8 (store 8 m i (load 8 m j)) j t.

(** [unaligned] is CONFIG_HAVE_EFFICIENT_UNALIGNED_ACCESS. *)
Definition alignment_ok (unaligned : bool) (base align : Z) : bool := unaligned || (Z.land base (align - 1) =? 0).
(** What sort() calls when it is given no swap function. *)
Definition default_swap (unaligned : bool) (base : Z) (m : Z -> Z) (i j size : Z) : outcome (Z -> Z) :=
  if (size =? 4) && alignment_ok unaligned base 4 then Ret (u32_swap m i j size)
  else if (size =? 8) && alignment_ok unaligned base 8 then Ret (u64_swap m i j size)
  else generic_swap m i j size.

Section Sort.
Context {A : Type} (cmp : A -> A -> Z).

Definition elem (size : Z) (a : list A) (o : Z) : outcome A :=
  match a !! Z.to_nat (o / size) with Some x => Ret x | None => Stuck end.
Definition swap_func (size : Z) (a : list A) (o p : Z) : outcome (list A) :=
  let! x := elem size a o in
  let! y := elem size a p in
  Ret (<[Z.to_nat (p / size) := x]> (<[Z.to_nat (o / size) := y]> a)).
(** [cmp_func(base + o, base + p)]. *)
Definition compare (size : Z) (a : list A) (o p : Z) : outcome Z :=
  let! x := elem size a o in
  let! y := elem size a p in
  Ret (cmp x y).

(** The inner loop: element [r] sinks in the heap of the first [n] bytes. *)
Fixpoint sift (fuel : nat) (size : Z) (a : list A) (r n : Z) : outcome (list A) :=
  if u64 (s32 (r * 2) + size) <? u64 n then
    match fuel with
    | O => Stuck
    | S fuel' =>
        let c := s32 (u64 (s32 (r * 2) + size)) in
        let! c' :=
          if u64 c <? u64 (n - size) then
            let! d := compare size a c (c + size) in Ret (if d <? 0 then s32 (u64 (c + size)) else c)
          else Ret c in
        let! d := compare size a r c' in
        if d >=? 0 then Ret a
        else
          let! a' := swap_func size a r c' in
          sift fuel' size a' c' n
    end
  else Ret a.

(** [for ( ; i >= 0; i -= size)] *)
Fixpoint heapify (fuel : nat) (size : Z) (a : list A) (i n : Z) : outcome (list A) :=
  if i >=? 0 then
    match fuel with
    | O => Stuck
    | S fuel' =>
        let! a' := sift (length a) size a i n in
        heapify fuel' size a' (s32 (u64 (i - size))) n
    end
  else Ret a.

(** [for (i = n - size; i > 0; i -= size)] *)
Fixpoint extract (fuel : nat) (size : Z) (a : list A) (i : Z) : outcome (list A) :=
  if i >? 0 then
    match fuel with
    | O => Stuck
    | S fuel' =>
        let! a1 := swap_func size a 0 i in
        let! a2 := sift (length a) size a1 0 i in
        extract fuel' size a2 (s32 (u64 (i - size)))
    end
  else Ret a.

Definition sort (size : Z) (a : list A) : outcome (list A) :=
  let num := Z.of_nat (length a) in
  let i := s32 (u64 (u64 (num / 2 - 1) * size)) in
  let n := s32 (u64 (num * size)) in
  let! a1 := heapify (length a) size a i n in
  extract (length a) size a1 (s32 (u64 (n - size))).
End Sort.

(** ** The exchange of bytes *)

#[local] Ltac in_ranges :=
  repeat (match goal with
    | |- context [?x =? ?y] => destruct (Z.eqb_spec x y)
    | |- context [?x <=? ?y] => destruct (Z.leb_spec x y)
    | |- context [?x <? ?y] => destruct (Z.ltb_spec x y) end; cbn [andb]; try (exfalso; lia)); reflexivity || (f_equal; lia).

Lemma generic_swap_loop_spec : forall fuel m i j size, 0 < size -> (Z.to_nat size < fuel)%nat -> i + size <= j \/ j + size <= i ->
  exists m', generic_swap_loop fuel m i j size = Ret m' /\
    forall k, m' k = if (i <=? k) && (k <? i + size) then m (k - i + j)
                     else if (j <=? k) && (k <? j + size) then m (k - j + i) else m k.
Proof.
  induction fuel as [|fuel IH]; intros m i j size Hs Hf Hd; [lia|]. cbn [generic_swap_loop].
  set (m2 := fun k => if k =? j then m i else if k =? i then m j else m k).
  assert (Hm2 : forall k, m2 k = if k =? i then m j else if k =? j then m i else m k).
  { intros k. unfold m2. destruct (Z.eqb_spec k j), (Z.eqb_spec k i); try done. lia. }
  destruct (Z.gtb_spec (size - 1) 0) as [H|H].
  - destruct (IH m2 (i + 1) (j + 1) (size - 1)) as (m' & E & Hm'); [lia..|]. exists m'. split; [exact E|].
    intros k. rewrite Hm', !Hm2.
    in_ranges.
  - exists m2. split; [done|]. intros k. rewrite Hm2. assert (size = 1) as -> by lia.
    in_ranges.
Qed.

Lemma load_byte m : (forall k, 0 <= m k < 2 ^ 8) -> forall n a d, 0 <= d < Z.of_nat n -> Z.shiftr (load n m a) (8 * d) mod 2 ^ 8 = m (a + d).
Proof.
  intros Hm. induction n as [|n IH]; intros a d Hd; [lia|]. cbn [load]. pose proof (Hm a) as Ha. destruct (Z.eq_dec d 0) as [->|Hd0].
  - rewrite Z.shiftr_0_r, Z.add_0_r, (Z.mul_comm (2 ^ 8)), Z.mod_add by lia. by apply Z.mod_small.
  - replace (8 * d) with (8 + 8 * (d - 1)) by lia. rewrite <- Z.shiftr_shiftr, (Z.shiftr_div_pow2 _ 8) by lia.
    rewrite (Z.mul_comm (2 ^ 8)), Z.div_add, Z.div_small by lia. rewrite Z.add_0_l, IH by lia. f_equal. lia.
Qed.

(** The words are exchanged as the bytes are. *)
Lemma word_swap_spec n m i j : (forall k, 0 <= m k < 2 ^ 8) -> i + Z.of_nat n <= j \/ j + Z.of_nat n <= i ->
  forall k, store n (store n m i (load n m j)) j (load n m i) k
    = if (i <=? k) && (k <? i + Z.of_nat n) then m (k - i + j) else if (j <=? k) && (k <? j + Z.of_nat n) then m (k - j + i) else m k.
Proof.
  intros Hm Hd k. unfold store.
  destruct (Z.leb_spec j k), (Z.ltb_spec k (j + Z.of_nat n)), (Z.leb_spec i k), (Z.ltb_spec k (i + Z.of_nat n)); cbn [andb]; try lia; try done;
    rewrite load_byte by (done || lia); f_equal; lia.
Qed.

Lemma default_swap_spec unaligned base m i j size : (forall k, 0 <= m k < 2 ^ 8) -> 0 < size -> i + size <= j \/ j + size <= i ->
  exists m', default_swap unaligned base m i j size = Ret m'
    /\ forall k, m' k = if (i <=? k) && (k <? i + size) then m (k - i + j) else if (j <=? k) && (k <? j + size) then m (k - j + i) else m k.
Proof.
  intros Hm Hs Hd. unfold default_swap.
  destruct (Z.eqb_spec size 4) as [->|_]; cbn [andb]; [destruct (alignment_ok unaligned base 4); [eexists; split; [reflexivity|by apply (word_swap_spec 4)]|]|];
    (destruct (Z.eqb_spec size 8) as [->|_] || change (4 =? 8) with false); cbn [andb]; try (apply generic_swap_loop_spec; lia).
  destruct (alignment_ok unaligned base 8); [eexists; split; [reflexivity|by apply (word_swap_spec 8)]|apply generic_swap_loop_spec; lia].
Qed.
