(* ===== verification/SortProps.v ===== *)
(** * Proof of the heapsort

    The heap order of a prefix of the array, what one sinking element keeps,
    and the theorem: sort() returns a sorted permutation of its input for
    every total preorder. *)

From S2P Require Import Prelude Sort.
From stdpp Require Import base list numbers option sorting.
#[local] Open Scope Z_scope.
#[local] Open Scope kernel_scope.

(** What sort() relies on in a comparison function. *)
Class Comparison {A : Type} (cmp : A -> A -> Z) : Prop := {
  cmp_flip x y : 0 <= cmp x y <-> cmp y x <= 0;
  cmp_trans x y z : cmp x y <= 0 -> cmp y z <= 0 -> cmp x z <= 0;
}.

(** ** Offsets and indices *)

Lemma u64_small x : 0 <= x < 2 ^ 32 -> u64 x = x.
Proof. intros. unfold u64. apply Z.mod_small. uunfold. lia. Qed.

Section Offsets.
Context (size : Z) (num : nat).
Hypotheses (Hsize : 0 < size < 2 ^ 31) (Hnum : Z.of_nat num * size < 2 ^ 31).

Definition at_ (k : nat) : Z := Z.of_nat k * size.

Lemma at_idx k : Z.to_nat (at_ k / size) = k.
Proof. clear Hnum. unfold at_. rewrite Z.div_mul; lia. Qed.

Lemma at_bound k : (k <= num)%nat -> 0 <= at_ k < 2 ^ 31.
Proof. unfold at_. nia. Qed.

Lemma child_bound r m : (r < m <= num)%nat ->
  (u64 (s32 (at_ r * 2) + size) <? u64 (at_ m)) = bool_decide (2 * r + 1 < m)%nat
  /\ ((2 * r + 1 < m)%nat -> s32 (u64 (s32 (at_ r * 2) + size)) = at_ (2 * r + 1)).
Proof.
  intros Hr. pose proof (at_bound r ltac:(lia)). pose proof (at_bound m ltac:(lia)).
  rewrite (u64_small (at_ m)) by lia.
  assert (E : at_ (2 * r + 1) = at_ r * 2 + size) by (unfold at_; lia).
  assert (Hc : (2 * r + 1 < m)%nat <-> at_ r * 2 + size < at_ m).
  { rewrite <- E. unfold at_. nia. }
  assert (Hrm : at_ r + size <= at_ m) by (unfold at_; nia).
  destruct (Z.ltb_spec (at_ r * 2) (2 ^ 31)) as [L|L].
  - rewrite s32_id by lia. rewrite u64_small by lia. split.
    + destruct (Z.ltb_spec (at_ r * 2 + size) (at_ m)); case_bool_decide; tauto || lia.
    + intros Hlt. rewrite s32_id; lia.
  - split; [|lia].
    assert (s32 (at_ r * 2) = at_ r * 2 - 2 ^ 32) as -> by (unfold s32; Z.div_mod_to_equations; lia).
    assert (Eu : u64 (at_ r * 2 - 2 ^ 32 + size) = at_ r * 2 - 2 ^ 32 + size + 2 ^ 64) by (unfold u64; uunfold; Z.div_mod_to_equations; lia).
    rewrite Eu. rewrite bool_decide_false by lia. lia.
Qed.

Lemma sibling_bound c m : (c < m <= num)%nat ->
  (u64 (at_ c) <? u64 (at_ m - size)) = bool_decide (S c < m)%nat /\ at_ c + size = at_ (S c)
  /\ s32 (u64 (at_ c + size)) = at_ (S c).
Proof.
  intros Hc. pose proof (at_bound c ltac:(lia)). pose proof (at_bound m ltac:(lia)). pose proof (at_bound (S c) ltac:(lia)).
  assert (E : at_ c + size = at_ (S c)) by (unfold at_; lia).
  assert (Hcm : at_ c + size <= at_ m) by (unfold at_; nia).
  rewrite !u64_small by lia. split_and!; [|done|rewrite s32_id; lia].
  assert ((S c < m)%nat <-> at_ c < at_ m - size) by (unfold at_; nia).
  destruct (Z.ltb_spec (at_ c) (at_ m - size)); case_bool_decide; tauto || lia.
Qed.

Lemma step_down k : (k <= num)%nat -> s32 (u64 (at_ k - size)) = at_ k - size.
Proof.
  intros Hk. pose proof (at_bound k Hk). destruct (decide (size <= at_ k)).
  - rewrite u64_small by lia. apply s32_id. lia.
  - assert (u64 (at_ k - size) = at_ k - size + 2 ^ 64) as -> by (unfold u64; uunfold; Z.div_mod_to_equations; lia). unfold s32. Z.div_mod_to_equations. lia.
Qed.
End Offsets.

(** ** Heap order *)

Section Heap.
Context {A : Type} (cmp : A -> A -> Z) `{!Comparison cmp}.

#[local] Notation "x ⪯ y" := (cmp x y <= 0) (at level 70).

Lemma cmp_total x y : x ⪯ y \/ y ⪯ x.
Proof. destruct (Z.le_ge_cases (cmp x y) 0); [by left|right]. by apply cmp_flip. Qed.

Lemma cmp_refl x : x ⪯ x.
Proof. by destruct (cmp_total x x). Qed.

Definition child (i c : nat) : Prop := c = (2 * i + 1)%nat \/ c = (2 * i + 2)%nat.

Definition heap (lo m : nat) (a : list A) : Prop :=
  forall i c x y, (lo <= i)%nat -> child i c -> (c < m)%nat -> a !! i = Some x -> a !! c = Some y -> y ⪯ x.

(** Heap order but for element [r], whose children still fit its parent. *)
Record sinking (lo m r : nat) (a : list A) : Prop := {
  sk_heap i c x y : (lo <= i)%nat -> i <> r -> child i c -> (c < m)%nat -> a !! i = Some x -> a !! c = Some y -> y ⪯ x;
  sk_skip p c x y : (lo <= p)%nat -> child p r -> child r c -> (c < m)%nat -> a !! p = Some x -> a !! c = Some y -> y ⪯ x;
}.

Definition exchange (a : list A) (i j : nat) (x y : A) : list A := <[j := x]> (<[i := y]> a).

Lemma exchange_perm a i j x y : a !! i = Some x -> a !! j = Some y -> Permutation (exchange a i j x y) a.
Proof. apply Permutation_insert_swap. Qed.

Lemma exchange_lookup a i j x y k : a !! i = Some x -> a !! j = Some y -> i <> j ->
  exchange a i j x y !! k = if decide (k = i) then Some y else if decide (k = j) then Some x else a !! k.
Proof.
  intros Hi Hj Hij. apply lookup_lt_Some in Hi, Hj. unfold exchange.
  destruct (decide (k = i)) as [->|].
  - rewrite list_lookup_insert_ne, list_lookup_insert_eq by done. done.
  - destruct (decide (k = j)) as [->|].
    + by rewrite list_lookup_insert_eq by (by rewrite length_insert).
    + by rewrite !list_lookup_insert_ne by done.
Qed.

(** Sinking the larger child's way keeps the order everywhere else. *)
Lemma sinking_exchange lo m r c a x y :
  sinking lo m r a -> (lo <= r)%nat -> child r c -> (c < m)%nat -> a !! r = Some x -> a !! c = Some y -> x ⪯ y ->
  (forall d z, child r d -> (d < m)%nat -> a !! d = Some z -> z ⪯ y) ->
  sinking lo m c (exchange a r c x y).
Proof.
  intros [Hh Hs] Hlo Hc Hcm Hx Hy Hxy Hmax.
  assert (Hrc : r <> c) by (unfold child in Hc; lia).
  assert (Hpar : forall i, child i c -> i = r) by (unfold child in *; lia).
  split.
  - intros i d u v Hi Hic Hd Hdm Hu Hv. rewrite exchange_lookup in Hu, Hv by done.
    destruct (decide (i = r)) as [->|Hir].
    + simplify_eq. destruct (decide (d = r)) as [->|]; [unfold child in Hd; lia|].
      destruct (decide (d = c)) as [->|]; [by simplify_eq|]. by apply (Hmax d).
    + rewrite decide_False in Hu by done. destruct (decide (d = r)) as [->|].
      * simplify_eq. by apply (Hs i c).
      * destruct (decide (d = c)) as [->|]; [by apply Hpar in Hd|]. by apply (Hh i d).
  - intros p d u v Hp Hpc Hd Hdm Hu Hv. pose proof (Hpar p Hpc) as ->. rewrite exchange_lookup in Hu, Hv by done.
    rewrite decide_True in Hu by done. simplify_eq.
    rewrite !decide_False in Hv by (unfold child in *; lia). apply (Hh c d); unfold child in *; lia || done.
Qed.

(** An element no smaller than its children is at its place. *)
Lemma sinking_done lo m r a :
  sinking lo m r a -> (forall d x y, child r d -> (d < m)%nat -> a !! r = Some x -> a !! d = Some y -> y ⪯ x) -> heap lo m a.
Proof.
  intros [Hh _] Hr i c x y Hi Hc Hcm Hx Hy. destruct (decide (i = r)) as [->|]; [by apply (Hr c)|by apply (Hh i c)].
Qed.

Context (size : Z) (num : nat).
Hypotheses (Hsize : 0 < size < 2 ^ 31) (Hnum : Z.of_nat num * size < 2 ^ 31).
#[local] Abbreviation off := (at_ size).

Lemma elem_at (a : list A) k : elem size a (off k) = match a !! k with Some x => Ret x | None => Stuck end.
Proof. unfold elem. by rewrite at_idx by lia. Qed.

Lemma compare_at a i j x y : a !! i = Some x -> a !! j = Some y -> compare cmp size a (off i) (off j) = Ret (cmp x y).
Proof. intros Hi Hj. unfold compare. by rewrite !elem_at, Hi, Hj. Qed.

Lemma swap_at (a : list A) i j x y : a !! i = Some x -> a !! j = Some y -> swap_func size a (off i) (off j) = Ret (exchange a i j x y).
Proof. intros Hi Hj. unfold swap_func. rewrite !elem_at, Hi, Hj. cbn. by rewrite !at_idx by lia. Qed.

(** What a pass over the first [m] elements may change. *)
Definition shuffled (m : nat) (a a' : list A) : Prop := Permutation a' a /\ drop m a' = drop m a.

Lemma shuffled_refl m a : shuffled m a a.
Proof. done. Qed.
Lemma shuffled_trans m a b c : shuffled m a b -> shuffled m b c -> shuffled m a c.
Proof. intros [H1 H2] [H3 H4]. split; [by rewrite H3|by rewrite H4]. Qed.
Lemma shuffled_length m a a' : shuffled m a a' -> length a' = length a.
Proof. intros [H _]. by rewrite H. Qed.
Lemma shuffled_take m a a' : shuffled m a a' -> Permutation (take m a') (take m a).
Proof. intros [H1 H2]. apply (Permutation_app_inv_r (drop m a)). rewrite <- H2 at 1. by rewrite !take_drop. Qed.
Lemma shuffled_exchange m a i j x y : a !! i = Some x -> a !! j = Some y -> (i < m)%nat -> (j < m)%nat -> shuffled m a (exchange a i j x y).
Proof.
  intros Hi Hj Him Hjm. split; [by apply exchange_perm|]. unfold exchange. by rewrite !drop_insert_lt by lia.
Qed.

Lemma sift_spec lo m : (m <= num)%nat -> forall fuel r a,
  (m - r <= fuel)%nat -> (m <= length a)%nat -> (lo <= r < m)%nat -> sinking lo m r a ->
  exists a', sift cmp fuel size a (off r) (off m) = Ret a' /\ heap lo m a' /\ shuffled m a a'.
Proof.
  intros Hm. induction fuel as [|fuel IH]; intros r a Hf Hl Hr Hsk; cbn [sift];
    destruct (child_bound size num Hsize Hnum r m ltac:(lia)) as [-> Hc]; [lia|].
  case_bool_decide as Hlt.
  2:{ exists a. split_and!; [done| |done]. apply (sinking_done lo m r a Hsk). intros d x y Hd Hdm. unfold child in Hd. lia. }
  rewrite (Hc Hlt). set (c := (2 * r + 1)%nat) in *.
  destruct (lookup_lt_is_Some_2 a r ltac:(lia)) as [x Hx]. destruct (lookup_lt_is_Some_2 a c ltac:(lia)) as [y Hy].
  destruct (sibling_bound size num Hsize Hnum c m ltac:(lia)) as (-> & E1 & E2). rewrite E2, E1.
  assert (Hbig : exists c' z, child r c' /\ (c' < m)%nat /\ a !! c' = Some z /\ (forall d w, child r d -> (d < m)%nat -> a !! d = Some w -> w ⪯ z)
     /\ (if bool_decide (S c < m)%nat then let! d := compare cmp size a (off c) (off (S c)) in Ret (if d <? 0 then off (S c) else off c) else Ret (off c))
        = Ret (off c')).
  { assert (Hch : forall d, child r d <-> d = c \/ d = S c) by (unfold child; lia).
    case_bool_decide as H2.
    - destruct (lookup_lt_is_Some_2 a (S c) ltac:(lia)) as [y2 Hy2]. rewrite (compare_at a c (S c) y y2 Hy Hy2). cbn.
      destruct (Z.ltb_spec (cmp y y2) 0).
      + exists (S c), y2. split_and!; [apply Hch; auto|lia|done| |done]. intros d w [-> | ->]%Hch _ Hw; simplify_eq; [lia|].
        apply cmp_refl.
      + exists c, y. split_and!; [apply Hch; auto|lia|done| |done]. intros d w [-> | ->]%Hch _ Hw; simplify_eq; [apply cmp_refl|].
        by apply cmp_flip.
    - exists c, y. split_and!; [apply Hch; auto|lia|done| |done]. intros d w [-> | ->]%Hch Hd Hw; simplify_eq; [apply cmp_refl|lia]. }
  destruct Hbig as (c' & z & Hc' & Hcm & Hz & Hmax & ->). cbn.
  rewrite (compare_at a r c' x z Hx Hz). cbn. rewrite Z.geb_leb. destruct (Z.leb_spec 0 (cmp x z)) as [Hge|Hlt'].
  - exists a. split_and!; [done| |done]. apply (sinking_done lo m r a Hsk). intros d x' w Hd Hdm Hx' Hw. simplify_eq.
    apply (cmp_trans w z); [by apply (Hmax d)|]. by apply cmp_flip.
  - rewrite (swap_at a r c' x z Hx Hz). cbn.
    pose proof (shuffled_exchange m a r c' x z Hx Hz ltac:(lia) Hcm) as Hsh.
    destruct (IH c' (exchange a r c' x z)) as (a' & Ea & Hh & Hs).
    + unfold child in Hc'; lia.
    + rewrite (shuffled_length m a _ Hsh). lia.
    + unfold child in Hc'; lia.
    + apply sinking_exchange; done || lia.
    + exists a'. split_and!; [done|done|]. by apply (shuffled_trans m a _ a' Hsh).
Qed.

Lemma heapify_spec m : (m <= num)%nat -> forall k fuel a,
  (k <= fuel)%nat -> (k < m)%nat \/ k = O -> m = length a -> heap k m a ->
  exists a', heapify cmp fuel size a (off k - size) (off m) = Ret a' /\ heap 0 m a' /\ shuffled m a a'.
Proof.
  intros Hm. induction k as [|k IH]; intros fuel a Hf Hk Hl Hh.
  - exists a. split_and!; [|done|done]. destruct fuel; cbn [heapify]; (destruct (Z.geb_spec (off 0 - size) 0); [unfold at_ in *; lia|done]).
  - destruct fuel as [|fuel]; [lia|]. cbn [heapify].
    assert (off (S k) - size = off k) as -> by (unfold at_; lia).
    destruct (Z.geb_spec (off k) 0); [|pose proof (at_bound size num Hsize Hnum k ltac:(lia)); lia].
    destruct (sift_spec k m Hm (length a) k a) as (a1 & E1 & H1 & S1); [lia..| |].
    + split; [|unfold child; lia]. intros i c x y Hi Hir Hc. apply Hh; lia || done.
    + rewrite E1. cbn. rewrite (step_down size num Hsize Hnum k) by lia.
      destruct (IH fuel a1) as (a' & E & H0 & S0); [lia|lia|by rewrite (shuffled_length m a a1 S1)|done|].
      exists a'. split_and!; [done|done|]. by apply (shuffled_trans m a a1).
Qed.

(** The root is the largest element. *)
Lemma heap_max m a x : heap 0 m a -> (m <= length a)%nat -> a !! 0%nat = Some x -> forall i y, (i < m)%nat -> a !! i = Some y -> y ⪯ x.
Proof.
  intros Hh Hl Hx. induction i as [i IH] using lt_wf_ind. intros y Hi Hy.
  destruct i as [|i]; [simplify_eq; apply cmp_refl|].
  destruct (lookup_lt_is_Some_2 a (i / 2)%nat) as [z Hz]. { pose proof (Nat.Div0.div_le_upper_bound i 2 i). lia. }
  pose proof (Nat.div_mod_eq i 2). pose proof (Nat.mod_upper_bound i 2 ltac:(lia)).
  apply (cmp_trans y z).
  - apply (Hh (i / 2)%nat (S i)); [lia|unfold child; lia|lia|done|done].
  - apply (IH (i / 2)%nat); [lia|lia|done].
Qed.

Abbreviation sorted := (StronglySorted (fun x y => x ⪯ y)).

(** The state between two rounds: a heap of [m] elements, none above the sorted
    rest. *)
Record half_sorted (m : nat) (a : list A) : Prop := {
  hs_heap : heap 0 m a;
  hs_len : (m <= length a)%nat;
  hs_sorted : sorted (drop m a);
  hs_below x y : x ∈ take m a -> y ∈ drop m a -> x ⪯ y;
}.

Lemma elem_of_take m (a : list A) x : x ∈ take m a <-> exists i, (i < m)%nat /\ a !! i = Some x.
Proof.
  rewrite list_elem_of_lookup. split.
  - intros [i Hi]. exists i. by apply lookup_take_Some in Hi as [? ?].
  - intros (i & Hi & E). exists i. by apply lookup_take_Some.
Qed.

Lemma extract_round k a : (0 < k)%nat -> half_sorted (S k) a ->
  exists x y, a !! 0%nat = Some x /\ a !! k = Some y /\ sinking 0 k 0 (exchange a 0 k x y)
    /\ forall a', heap 0 k a' -> shuffled k (exchange a 0 k x y) a' -> half_sorted k a' /\ Permutation a' a.
Proof.
  intros Hk [Hh Hl Hs Hb].
  destruct (lookup_lt_is_Some_2 a 0%nat ltac:(lia)) as [x Hx]. destruct (lookup_lt_is_Some_2 a k ltac:(lia)) as [y Hy].
  exists x, y. split_and!; [done|done| |].
  { split; [|unfold child; lia]. intros i c u v _ Hi Hc Hck Hu Hv. rewrite exchange_lookup in Hu, Hv by (done || lia).
    rewrite decide_False in Hu by done. rewrite decide_False in Hu by (unfold child in Hc; lia).
    rewrite !decide_False in Hv by (unfold child in Hc; lia). apply (Hh i c); lia || done. }
  intros a' Hh' Hsh. pose proof (shuffled_exchange (S k) a 0 k x y Hx Hy ltac:(lia) ltac:(lia)) as Hx1.
  assert (Hd : drop k a' = x :: drop (S k) a).
  { destruct Hsh as [_ ->]. destruct Hx1 as [Hp E]. rewrite <- E. apply drop_S.
    rewrite exchange_lookup by (done || lia). rewrite decide_False, decide_True by lia. done. }
  assert (Ht : forall u, u ∈ take k a' -> u ∈ take (S k) a).
  { intros u Hu. rewrite (shuffled_take k _ _ Hsh) in Hu. apply elem_of_take in Hu as (i & Hi & Eu).
    rewrite <- (shuffled_take (S k) _ _ Hx1). apply elem_of_take. exists i. split; [lia|done]. }
  assert (Hroot : forall u, u ∈ take (S k) a -> u ⪯ x).
  { intros u (i & Hi & Eu)%elem_of_take. by apply (heap_max (S k) a x Hh Hl Hx i). }
  split; [|destruct Hsh as [Hp _]; rewrite Hp; by apply exchange_perm]. split.
  - done.
  - rewrite (shuffled_length k _ _ Hsh), (shuffled_length (S k) _ _ Hx1). lia.
  - rewrite Hd. constructor; [done|]. apply Forall_forall. intros w Hw. apply Hb; [|done].
    apply elem_of_take. exists 0%nat. split; [lia|done].
  - rewrite Hd. intros u w Hu [-> |Hw]%elem_of_cons; [by apply Hroot, Ht|]. apply Hb; [by apply Ht|done].
Qed.

Lemma extract_spec : forall k fuel a, (k <= fuel)%nat -> (S k <= num)%nat -> half_sorted (S k) a ->
  exists a', extract cmp fuel size a (off k) = Ret a' /\ Permutation a' a /\ sorted a'.
Proof.
  induction k as [|k IH]; intros fuel a Hf Hk Hs.
  - exists a. split_and!; [destruct fuel; cbn [extract]; done|done|].
    destruct a as [|x a]; [pose proof (hs_len _ _ Hs) as Hl0; cbn in Hl0; lia|]. constructor; [apply (hs_sorted _ _ Hs)|].
    apply Forall_forall. intros w Hw. apply (hs_below _ _ Hs); [by left|done].
  - destruct fuel as [|fuel]; [lia|]. cbn [extract].
    pose proof (at_bound size num Hsize Hnum (S k) ltac:(lia)).
    destruct (Z.gtb_spec (off (S k)) 0); [|unfold at_ in *; lia].
    destruct (extract_round (S k) a ltac:(lia) Hs) as (x & y & Hx & Hy & Hsk & Hnext).
    pose proof (swap_at a 0 (S k) x y Hx Hy) as Esw. change (off 0) with 0 in Esw. rewrite Esw. cbn [obind].
    pose proof (shuffled_exchange (S (S k)) a 0 (S k) x y Hx Hy ltac:(lia) ltac:(lia)) as Hx1.
    pose proof (hs_len _ _ Hs). pose proof (shuffled_length _ _ _ Hx1).
    destruct (sift_spec 0 (S k) ltac:(lia) (length a) 0 (exchange a 0 (S k) x y) ltac:(lia) ltac:(lia) ltac:(lia) Hsk) as (a2 & E2 & Hh2 & S2).
    change (off 0) with 0 in E2. rewrite E2. cbn [obind]. destruct (Hnext a2 Hh2 S2) as [Hs2 Hp2].
    rewrite (step_down size num Hsize Hnum (S k)) by lia. assert (off (S k) - size = off k) as -> by (unfold at_; lia).
    destruct (IH fuel a2 ltac:(lia) ltac:(lia) Hs2) as (a' & E & Hp & Hso). exists a'. split_and!; [done|by rewrite Hp|done].
Qed.
End Heap.

(** C39. sort(): for every comparison that is a total preorder and every array
    whose byte size fits an int, heapsort returns, and what it returns is a
    permutation of the input in which no element compares above a later one.
    Its swaps are exact: generic_swap() exchanges two disjoint byte ranges and
    touches nothing else, and so does the function sort() chooses when it is
    given none, by words of 4 or 8 bytes or by bytes. *)
Theorem sort_correct {A : Type} (cmp : A -> A -> Z) `{!Comparison cmp} (size : Z) (a : list A) (m : Z -> Z) (i j : Z) :
  0 < size < 2 ^ 31 -> Z.of_nat (length a) * size < 2 ^ 31 -> i + size <= j \/ j + size <= i ->
  (exists a', Sort.sort cmp size a = Ret a' /\ Permutation a' a /\ StronglySorted (fun x y => cmp x y <= 0) a')
  /\ (exists m', generic_swap m i j size = Ret m'
       /\ forall k, m' k = if (i <=? k) && (k <? i + size) then m (k - i + j)
                           else if (j <=? k) && (k <? j + size) then m (k - j + i) else m k)
  /\ ((forall k, 0 <= m k < 2 ^ 8) -> forall unaligned base, exists m', default_swap unaligned base m i j size = Ret m'
       /\ forall k, m' k = if (i <=? k) && (k <? i + size) then m (k - i + j)
                           else if (j <=? k) && (k <? j + size) then m (k - j + i) else m k).
Proof.
  intros Hs Hn Hd. split; [|split; [apply generic_swap_loop_spec; lia|intros; apply default_swap_spec; (done || lia)]].
  unfold Sort.sort. set (n := length a) in *.
  assert (Eh : s32 (u64 (u64 (Z.of_nat n / 2 - 1) * size)) = at_ size (n / 2) - size).
  { pose proof (at_bound size n Hs Hn (n / 2)). rewrite <- (step_down size n Hs Hn (n / 2)) by (pose proof (Nat.Div0.div_le_upper_bound n 2 n); lia).
    f_equal. unfold u64. rewrite Z.mul_mod_idemp_l by (uunfold; lia). f_equal. unfold at_. rewrite Nat2Z.inj_div. lia. }
  assert (En : s32 (u64 (Z.of_nat n * size)) = at_ size n).
  { pose proof (at_bound size n Hs Hn n ltac:(lia)). unfold at_ in *. rewrite u64_small by lia. apply s32_id. lia. }
  pose proof (Nat.div_mod_eq n 2). pose proof (Nat.mod_upper_bound n 2 ltac:(lia)).
  rewrite Eh, En, (step_down size n Hs Hn n) by lia.
  destruct (heapify_spec cmp size n Hs Hn n ltac:(lia) (n / 2)%nat n a) as (a1 & E1 & H1 & S1); [lia|lia|done| |].
  { intros x c u v Hx Hc Hcn. unfold child in Hc. lia. }
  rewrite E1. cbn [obind].
  destruct n as [|k] eqn:Ek.
  - exists a1. split_and!; [by unfold extract, at_; destruct (Z.gtb_spec (Z.of_nat 0 * size - size) 0); [lia|]|by apply S1|].
    destruct a1; [constructor|]. pose proof (shuffled_length _ _ _ S1). cbn in *. lia.
  - assert (at_ size (S k) - size = at_ size k) as -> by (unfold at_; lia).
    destruct (extract_spec cmp size (S k) Hs Hn k (S k) a1) as (a' & E & Hp & Hso); [lia|lia| |].
    + pose proof (shuffled_length _ _ _ S1) as Hl. split; [done|lia| |]; rewrite drop_ge by lia; [constructor|by intros ?? _ ?%not_elem_of_nil].
    + exists a'. split_and!; [done| |done]. rewrite Hp. apply S1.
Qed.

#[export] Instance sub_comparison : Comparison Z.sub.
Proof. split; lia. Qed.

Lemma sort_correct_witness :
  (exists a', Sort.sort Z.sub 12 [3; 1; 2; 3; 0] = Ret a' /\ Permutation a' [3; 1; 2; 3; 0] /\ StronglySorted (fun x y => x - y <= 0) a')
  /\ exists m', default_swap true 100 (fun x => x mod 2 ^ 8) 100 112 8 = Ret m'
       /\ forall k, m' k = if (100 <=? k) && (k <? 100 + 8) then (k - 100 + 112) mod 2 ^ 8
                           else if (112 <=? k) && (k <? 112 + 8) then (k - 112 + 100) mod 2 ^ 8 else k mod 2 ^ 8.
Proof.
  split.
  - apply (sort_correct Z.sub 12 [3; 1; 2; 3; 0] (fun x => x) 100 112); cbn; lia.
  - destruct (sort_correct Z.sub 8 [] (fun x => x mod 2 ^ 8) 100 112) as (_ & _ & H); [lia|cbn; lia|lia|]. apply H. intros k. apply Z.mod_pos_bound. lia.
Defined.

Example sort_five : Sort.sort Z.sub 4 [3; 1; 2; 3; 0] = Ret [0; 1; 2; 3; 3].
Proof. reflexivity. Qed.
