(* ===== verification/Percpu.v ===== *)
(** * The per-CPU allocator: chunks

    Model of the chunk side of mm/percpu.c and of mm/percpu-internal.h.  A
    chunk serves [nr_pages] pages in units of 4 bytes: bit [i] of [alloc_map] is
    set when unit [i] is in use, [bound_map] marks where areas begin and end,
    and one [pcpu_block_md] per page summarises a block of 1024 bits so that a
    search rarely reads the bitmap.  All sizes of these structures are C ints
    and stay far below 2^31 (the invariant [chunk_ok] says so), so they are
    plain integers here; the bitmaps are those of Bitmap.v.  Functions that
    update a chunk also take the global count of empty populated pages; the
    flag [rsv] says whether the chunk is pcpu_reserved_chunk. *)

From S2P Require Import Prelude Bitops Memblock Bitmap.
From stdpp Require Import base list numbers option.
#[local] Open Scope Z_scope.
#[local] Open Scope kernel_scope.

Definition PCPU_MIN_UNIT_SIZE : Z := 32768.
Definition PCPU_MIN_ALLOC_SHIFT : Z := 2.
Definition PCPU_MIN_ALLOC_SIZE : Z := 4.
Definition PCPU_BITS_PER_PAGE : Z := 1024.
Definition PCPU_BITMAP_BLOCK_SIZE : Z := PAGE_SIZE.
Definition PCPU_BITMAP_BLOCK_BITS : Z := 1024.
Definition PCPU_SLOT_BASE_SHIFT : Z := 5.

Record pcpu_block_md := mk_md {
  contig_hint : Z;
  contig_hint_start : Z;
  left_free : Z;
  right_free : Z;
  first_free : Z
}.

Definition md_zero : pcpu_block_md := mk_md 0 0 0 0 0.

Record pcpu_chunk := mk_chunk {
  free_bytes : Z;
  contig_bits : Z;
  contig_bits_start : Z;
  base_addr : Z;
  alloc_map : list Z;
  bound_map : list Z;
  md_blocks : list pcpu_block_md;
  first_bit : Z;
  immutable : bool;
  start_offset : Z;
  end_offset : Z;
  nr_pages : Z;
  nr_populated : Z;
  nr_empty_pop_pages : Z;
  populated : list Z
}.

Definition set_free_bytes v c := mk_chunk v (contig_bits c) (contig_bits_start c) (base_addr c) (alloc_map c) (bound_map c) (md_blocks c) (first_bit c) (immutable c) (start_offset c) (end_offset c) (nr_pages c) (nr_populated c) (nr_empty_pop_pages c) (populated c).
Definition set_contig b s c := mk_chunk (free_bytes c) b s (base_addr c) (alloc_map c) (bound_map c) (md_blocks c) (first_bit c) (immutable c) (start_offset c) (end_offset c) (nr_pages c) (nr_populated c) (nr_empty_pop_pages c) (populated c).
Definition set_alloc_map v c := mk_chunk (free_bytes c) (contig_bits c) (contig_bits_start c) (base_addr c) v (bound_map c) (md_blocks c) (first_bit c) (immutable c) (start_offset c) (end_offset c) (nr_pages c) (nr_populated c) (nr_empty_pop_pages c) (populated c).
Definition set_bound_map v c := mk_chunk (free_bytes c) (contig_bits c) (contig_bits_start c) (base_addr c) (alloc_map c) v (md_blocks c) (first_bit c) (immutable c) (start_offset c) (end_offset c) (nr_pages c) (nr_populated c) (nr_empty_pop_pages c) (populated c).
Definition set_md_blocks v c := mk_chunk (free_bytes c) (contig_bits c) (contig_bits_start c) (base_addr c) (alloc_map c) (bound_map c) v (first_bit c) (immutable c) (start_offset c) (end_offset c) (nr_pages c) (nr_populated c) (nr_empty_pop_pages c) (populated c).
Definition set_first_bit v c := mk_chunk (free_bytes c) (contig_bits c) (contig_bits_start c) (base_addr c) (alloc_map c) (bound_map c) (md_blocks c) v (immutable c) (start_offset c) (end_offset c) (nr_pages c) (nr_populated c) (nr_empty_pop_pages c) (populated c).
Definition set_pop p n c := mk_chunk (free_bytes c) (contig_bits c) (contig_bits_start c) (base_addr c) (alloc_map c) (bound_map c) (md_blocks c) (first_bit c) (immutable c) (start_offset c) (end_offset c) (nr_pages c) n (nr_empty_pop_pages c) p.
Definition set_nr_empty v c := mk_chunk (free_bytes c) (contig_bits c) (contig_bits_start c) (base_addr c) (alloc_map c) (bound_map c) (md_blocks c) (first_bit c) (immutable c) (start_offset c) (end_offset c) (nr_pages c) (nr_populated c) v (populated c).

Definition pcpu_chunk_nr_blocks (c : pcpu_chunk) : Z := nr_pages c * PAGE_SIZE / PCPU_BITMAP_BLOCK_SIZE.
Definition pcpu_nr_pages_to_map_bits (pages : Z) : Z := pages * PAGE_SIZE / PCPU_MIN_ALLOC_SIZE.
Definition pcpu_chunk_map_bits (c : pcpu_chunk) : Z := pcpu_nr_pages_to_map_bits (nr_pages c).

(** [ALIGN(x, a)] for an int [x]. *)
Definition ALIGN (x a : Z) : Z := Z.land (x + (a - 1)) (Z.lnot (a - 1)).
(** [ALIGN_DOWN(x, a)] for an unsigned long [a]. *)
Definition ALIGN_DOWN (x a : Z) : Z := Z.land (u64 (u64 (x - (a - 1)) + (a - 1))) (not64 (a - 1)).

(** [block = chunk->md_blocks + i], and writing through it. *)
Definition md_block (c : pcpu_chunk) (i : Z) : outcome pcpu_block_md :=
  match md_blocks c !! Z.to_nat i with
  | Some b => Ret b
  | None => Stuck
  end.
Definition put_block (c : pcpu_chunk) (i : Z) (b : pcpu_block_md) : pcpu_chunk :=
  set_md_blocks (<[Z.to_nat i := b]> (md_blocks c)) c.

Definition pcpu_next_unpop (bitmap : list Z) (rs e : Z) : outcome (Z * Z) :=
  let! rs1 := find_next_zero_bit bitmap e rs in
  let! re := find_next_bit bitmap e (rs1 + 1) in
  Ret (rs1, re).

Definition pcpu_index_alloc_map (c : pcpu_chunk) (index : Z) : list Z :=
  drop (Z.to_nat (index * PCPU_BITMAP_BLOCK_BITS / BITS_PER_LONG)) (alloc_map c).
Definition pcpu_off_to_block_index (off : Z) : Z := off / PCPU_BITMAP_BLOCK_BITS.
Definition pcpu_off_to_block_off (off : Z) : Z := Z.land off (PCPU_BITMAP_BLOCK_BITS - 1).
Definition pcpu_block_off_to_off (index off : Z) : Z := index * PCPU_BITMAP_BLOCK_BITS + off.

(** The loop of pcpu_next_md_free_region(): [n] blocks from [i] on. *)
Fixpoint next_md_loop (n : nat) (c : pcpu_chunk) (i block_off bit_off bits : Z) : outcome (Z * Z) :=
  match n with
  | O => Ret (bit_off, bits)
  | S n' =>
      let! block := md_block c i in
      if negb (bits =? 0) then
        let bits1 := bits + left_free block in
        if left_free block =? PCPU_BITMAP_BLOCK_BITS then next_md_loop n' c (i + 1) block_off bit_off bits1
        else Ret (bit_off, bits1)
      else
        let bits1 := contig_hint block in
        if negb (bits1 =? 0) && (contig_hint_start block >=? block_off)
           && (bits1 + contig_hint_start block <? PCPU_BITMAP_BLOCK_BITS)
        then Ret (pcpu_block_off_to_off i (contig_hint_start block), bits1)
        else next_md_loop n' c (i + 1) 0 ((i + 1) * PCPU_BITMAP_BLOCK_BITS - right_free block) (right_free block)
  end.
Definition pcpu_next_md_free_region (c : pcpu_chunk) (bit_off : Z) : outcome (Z * Z) :=
  let i := pcpu_off_to_block_index bit_off in
  next_md_loop (Z.to_nat (pcpu_chunk_nr_blocks c - i)) c i (pcpu_off_to_block_off bit_off) bit_off 0.

(** The loop of pcpu_next_fit_region(). *)
Fixpoint next_fit_loop (n : nat) (c : pcpu_chunk) (alloc_bits align i block_off bit_off bits : Z) : outcome (Z * Z) :=
  match n with
  | O => Ret (pcpu_chunk_map_bits c, bits)
  | S n' =>
      let! block := md_block c i in
      let bits1 := if negb (bits =? 0) then bits + left_free block else bits in
      if negb (bits =? 0) && (bits1 >=? alloc_bits) then Ret (bit_off, bits1)
      else if negb (bits =? 0) && (left_free block =? PCPU_BITMAP_BLOCK_BITS)
      then next_fit_loop n' c alloc_bits align (i + 1) block_off bit_off bits1
      else
        let pad := ALIGN (contig_hint_start block) align - contig_hint_start block in
        if negb (contig_hint block =? 0) && (contig_hint_start block >=? block_off)
           && (contig_hint block >=? pad + alloc_bits)
        then Ret (pcpu_block_off_to_off i (first_free block),
                  pad + (alloc_bits + contig_hint_start block - first_free block))
        else
          let bo := ALIGN (PCPU_BITMAP_BLOCK_BITS - right_free block) align in
          let bits2 := PCPU_BITMAP_BLOCK_BITS - bo in
          let bit_off2 := pcpu_block_off_to_off i bo in
          if bits2 >=? alloc_bits then Ret (bit_off2, bits2)
          else next_fit_loop n' c alloc_bits align (i + 1) 0 bit_off2 bits2
  end.
Definition pcpu_next_fit_region (c : pcpu_chunk) (alloc_bits align bit_off : Z) : outcome (Z * Z) :=
  let i := pcpu_off_to_block_index bit_off in
  next_fit_loop (Z.to_nat (pcpu_chunk_nr_blocks c - i)) c alloc_bits align i (pcpu_off_to_block_off bit_off) bit_off 0.

Definition pcpu_cnt_pop_pages (c : pcpu_chunk) (bit_off bits : Z) : outcome Z :=
  let page_start := PFN_UP (bit_off * PCPU_MIN_ALLOC_SIZE) in
  let page_end := PFN_DOWN ((bit_off + bits) * PCPU_MIN_ALLOC_SIZE) in
  if page_start >=? page_end then Ret 0
  else
    let! a := __bitmap_weight (populated c) page_end in
    let! b := __bitmap_weight (populated c) page_start in
    Ret (a - b).

Definition pcpu_chunk_update (c : pcpu_chunk) (bit_off bits : Z) : pcpu_chunk :=
  if bits >? contig_bits c then set_contig bits bit_off c
  else if (bits =? contig_bits c) && negb (contig_bits_start c =? 0)
          && ((bit_off =? 0) || (__ffs bit_off >? __ffs (contig_bits_start c)))
  then set_contig (contig_bits c) bit_off c
  else c.

(** pcpu_for_each_md_free_region() of pcpu_chunk_refresh_hint(). *)
Fixpoint refresh_loop (fuel : nat) (c : pcpu_chunk) (bit_off nr : Z) : outcome (pcpu_chunk * Z) :=
  let! (bo, bits) := pcpu_next_md_free_region c bit_off in
  if bo <? pcpu_chunk_map_bits c then
    match fuel with
    | O => Stuck
    | S fuel' =>
        let c1 := pcpu_chunk_update c bo bits in
        let! k := pcpu_cnt_pop_pages c1 bo bits in
        refresh_loop fuel' c1 (bo + (bits + 1)) (nr + k)
    end
  else Ret (c, nr).
Definition pcpu_chunk_refresh_hint (rsv : bool) (c : pcpu_chunk) (total : Z) : outcome (pcpu_chunk * Z) :=
  let c0 := set_contig 0 (contig_bits_start c) c in
  let! (c1, nr) := refresh_loop (Z.to_nat (pcpu_chunk_map_bits c)) c0 (first_bit c) 0 in
  let total1 := if negb rsv then total + (nr - nr_empty_pop_pages c1) else total in
  Ret (set_nr_empty nr c1, total1).

Definition pcpu_block_update (b : pcpu_block_md) (start e : Z) : pcpu_block_md :=
  let contig := e - start in
  let ff := Z.min (first_free b) start in
  let lf := if start =? 0 then contig else left_free b in
  let rf := if e =? PCPU_BITMAP_BLOCK_BITS then contig else right_free b in
  if contig >? contig_hint b then mk_md contig start lf rf ff
  else if negb (contig_hint_start b =? 0) && (contig =? contig_hint b)
          && ((start =? 0) || (__ffs start >? __ffs (contig_hint_start b)))
  then mk_md (contig_hint b) start lf rf ff
  else mk_md (contig_hint b) (contig_hint_start b) lf rf ff.

(** pcpu_for_each_unpop_region() of pcpu_block_refresh_hint(). *)
Fixpoint block_refresh_loop (fuel : nat) (map : list Z) (rs : Z) (b : pcpu_block_md) : outcome pcpu_block_md :=
  let! (rs1, re) := pcpu_next_unpop map rs PCPU_BITMAP_BLOCK_BITS in
  if rs1 <? re then
    match fuel with
    | O => Stuck
    | S fuel' => block_refresh_loop fuel' map (re + 1) (pcpu_block_update b rs1 re)
    end
  else Ret b.
Definition pcpu_block_refresh_hint (c : pcpu_chunk) (index : Z) : outcome pcpu_chunk :=
  let! b := md_block c index in
  let b0 := mk_md 0 (contig_hint_start b) 0 0 (first_free b) in
  let! b1 := block_refresh_loop (Z.to_nat PCPU_BITMAP_BLOCK_BITS) (pcpu_index_alloc_map c index) (first_free b0) b0 in
  Ret (put_block c index b1).

(** [for (block = s_block + 1; block < e_block; block++)], [n] blocks. *)
Fixpoint blocks_loop (n : nat) (f : pcpu_block_md -> pcpu_block_md) (c : pcpu_chunk) (i : Z) : outcome pcpu_chunk :=
  match n with
  | O => Ret c
  | S n' => let! b := md_block c i in blocks_loop n' f (put_block c i (f b)) (i + 1)
  end.
Definition block_used (b : pcpu_block_md) : pcpu_block_md := mk_md 0 (contig_hint_start b) 0 0 (first_free b).
Definition block_unused (_ : pcpu_block_md) : pcpu_block_md :=
  mk_md PCPU_BITMAP_BLOCK_BITS 0 PCPU_BITMAP_BLOCK_BITS PCPU_BITMAP_BLOCK_BITS 0.

(** The update of the first block of an allocation. *)
Definition alloc_s_block (c : pcpu_chunk) (s_index e_index s_off e_off bits : Z) : outcome pcpu_chunk :=
  let! s_block := md_block c s_index in
  let! s_block1 :=
    if s_off =? first_free s_block then
      let! ff := find_next_zero_bit (pcpu_index_alloc_map c s_index) PCPU_BITMAP_BLOCK_BITS (s_off + bits) in
      Ret (mk_md (contig_hint s_block) (contig_hint_start s_block) (left_free s_block) (right_free s_block) ff)
    else Ret s_block in
  let c1 := put_block c s_index s_block1 in
  if (s_off >=? contig_hint_start s_block1) && (s_off <? contig_hint_start s_block1 + contig_hint s_block1)
  then pcpu_block_refresh_hint c1 s_index
  else
    let rf := if s_index =? e_index then Z.min (right_free s_block1) (PCPU_BITMAP_BLOCK_BITS - e_off) else 0 in
    Ret (put_block c1 s_index
      (mk_md (contig_hint s_block1) (contig_hint_start s_block1) (Z.min (left_free s_block1) s_off) rf (first_free s_block1))).

(** The update of the last block, when it is not the first: returns [e_block]
    as the index at which the blocks in between end. *)
Definition alloc_e_block (c : pcpu_chunk) (e_index e_off : Z) : outcome (pcpu_chunk * Z) :=
  let! e_block := md_block c e_index in
  let! ff := find_next_zero_bit (pcpu_index_alloc_map c e_index) PCPU_BITMAP_BLOCK_BITS e_off in
  let e_block1 := mk_md (contig_hint e_block) (contig_hint_start e_block) (left_free e_block) (right_free e_block) ff in
  let c1 := put_block c e_index e_block1 in
  if e_off =? PCPU_BITMAP_BLOCK_BITS then Ret (c1, e_index + 1)
  else if e_off >? contig_hint_start e_block1 then
    let! c2 := pcpu_block_refresh_hint c1 e_index in Ret (c2, e_index)
  else
    Ret (put_block c1 e_index
      (mk_md (contig_hint e_block1) (contig_hint_start e_block1) 0
             (Z.min (right_free e_block1) (PCPU_BITMAP_BLOCK_BITS - e_off)) (first_free e_block1)), e_index).

Definition pcpu_block_update_hint_alloc (rsv : bool) (c : pcpu_chunk) (total bit_off bits : Z) : outcome (pcpu_chunk * Z) :=
  let s_index := pcpu_off_to_block_index bit_off in
  let e_index := pcpu_off_to_block_index (bit_off + bits - 1) in
  let s_off := pcpu_off_to_block_off bit_off in
  let e_off := pcpu_off_to_block_off (bit_off + bits - 1) + 1 in
  let! c1 := alloc_s_block c s_index e_index s_off e_off bits in
  let! c2 :=
    if negb (s_index =? e_index) then
      let! (c', e) := alloc_e_block c1 e_index e_off in
      blocks_loop (Z.to_nat (e - (s_index + 1))) block_used c' (s_index + 1)
    else Ret c1 in
  if (bit_off >=? contig_bits_start c2) && (bit_off <? contig_bits_start c2 + contig_bits c2)
  then pcpu_chunk_refresh_hint rsv c2 total
  else Ret (c2, total).

Definition pcpu_block_update_hint_free (rsv : bool) (c : pcpu_chunk) (total bit_off bits : Z) : outcome (pcpu_chunk * Z) :=
  let s_index := pcpu_off_to_block_index bit_off in
  let e_index := pcpu_off_to_block_index (bit_off + bits - 1) in
  let s_off := pcpu_off_to_block_off bit_off in
  let e_off := pcpu_off_to_block_off (bit_off + bits - 1) + 1 in
  let! s_block := md_block c s_index in
  let! e_block := md_block c e_index in
  let! start :=
    if s_off =? contig_hint s_block + contig_hint_start s_block then Ret (contig_hint_start s_block)
    else
      let! l_bit := find_last_bit (pcpu_index_alloc_map c s_index) s_off in
      Ret (if s_off =? l_bit then 0 else l_bit + 1) in
  let! e :=
    if e_off =? contig_hint_start e_block then Ret (contig_hint_start e_block + contig_hint e_block)
    else find_next_bit (pcpu_index_alloc_map c e_index) PCPU_BITMAP_BLOCK_BITS e_off in
  let e_off1 := if s_index =? e_index then e else PCPU_BITMAP_BLOCK_BITS in
  let c1 := put_block c s_index (pcpu_block_update s_block start e_off1) in
  let! c2 :=
    if negb (s_index =? e_index) then
      let c' := put_block c1 e_index (pcpu_block_update e_block 0 e) in
      blocks_loop (Z.to_nat (e_index - (s_index + 1))) block_unused c' (s_index + 1)
    else Ret c1 in
  let g := Z.min PCPU_BITS_PER_PAGE PCPU_BITMAP_BLOCK_BITS in
  if (ALIGN_DOWN e g >? ALIGN start g) || negb (s_index =? e_index)
  then pcpu_chunk_refresh_hint rsv c2 total
  else
    let! s_block1 := md_block c2 s_index in
    Ret (pcpu_chunk_update c2 (pcpu_block_off_to_off s_index start) (contig_hint s_block1), total).

(** [None]: true; [Some next_off]: false. *)
Definition pcpu_is_populated (c : pcpu_chunk) (bit_off bits : Z) : outcome (option Z) :=
  let page_start := PFN_DOWN (bit_off * PCPU_MIN_ALLOC_SIZE) in
  let page_end := PFN_UP ((bit_off + bits) * PCPU_MIN_ALLOC_SIZE) in
  let! (rs, re) := pcpu_next_unpop (populated c) page_start page_end in
  if rs >=? page_end then Ret None else Ret (Some (re * PAGE_SIZE / PCPU_MIN_ALLOC_SIZE)).

(** pcpu_for_each_fit_region() of pcpu_find_block_fit(). *)
Fixpoint fit_loop (fuel : nat) (c : pcpu_chunk) (alloc_bits align : Z) (pop_only : bool) (bit_off : Z) : outcome Z :=
  let! (bo, bits) := pcpu_next_fit_region c alloc_bits align bit_off in
  if bo <? pcpu_chunk_map_bits c then
    if negb pop_only then Ret bo
    else
      let! p := pcpu_is_populated c bo bits in
      match p with
      | None => Ret bo
      | Some next_off =>
          match fuel with
          | O => Stuck
          | S fuel' => fit_loop fuel' c alloc_bits align pop_only (next_off + 0)
          end
      end
  else Ret bo.
Definition pcpu_find_block_fit (c : pcpu_chunk) (alloc_bits align : Z) (pop_only : bool) : outcome Z :=
  let bit_off := ALIGN (contig_bits_start c) align - contig_bits_start c in
  if bit_off + alloc_bits >? contig_bits c then Ret (-1)
  else
    let! bo := fit_loop (Z.to_nat (pcpu_chunk_nr_blocks c)) c alloc_bits align pop_only (first_bit c) in
    if bo =? pcpu_chunk_map_bits c then Ret (-1) else Ret bo.

(** pcpu_alloc_area() up to the move of the chunk to another slot: [None] is
    the return of -1. *)
Definition alloc_area (rsv : bool) (c : pcpu_chunk) (total alloc_bits align start : Z) : outcome (option (pcpu_chunk * Z * Z)) :=
  let align_mask := if negb (align =? 0) then align - 1 else 0 in
  let e := start + alloc_bits + PCPU_BITMAP_BLOCK_BITS in
  let! bit_off := bitmap_find_next_zero_area (alloc_map c) e start alloc_bits align_mask in
  if bit_off >=? e then Ret None
  else
    let! am := __bitmap_set (alloc_map c) bit_off alloc_bits in
    let! bm1 := set_bit bit_off (bound_map c) in
    let! bm2 := __bitmap_clear bm1 (bit_off + 1) (alloc_bits - 1) in
    let! bm3 := set_bit (bit_off + alloc_bits) bm2 in
    let c1 := set_free_bytes (free_bytes c - alloc_bits * PCPU_MIN_ALLOC_SIZE) (set_bound_map bm3 (set_alloc_map am c)) in
    let! c2 :=
      if bit_off =? first_bit c1 then
        let! fb := find_next_zero_bit (alloc_map c1) (pcpu_chunk_map_bits c1) (bit_off + alloc_bits) in
        Ret (set_first_bit fb c1)
      else Ret c1 in
    let! (c3, total1) := pcpu_block_update_hint_alloc rsv c2 total bit_off alloc_bits in
    Ret (Some (c3, total1, bit_off * PCPU_MIN_ALLOC_SIZE)).

(** pcpu_free_area() up to the move of the chunk to another slot. *)
Definition free_area (rsv : bool) (c : pcpu_chunk) (total off : Z) : outcome (pcpu_chunk * Z) :=
  let bit_off := off / PCPU_MIN_ALLOC_SIZE in
  let! e := find_next_bit (bound_map c) (pcpu_chunk_map_bits c) (bit_off + 1) in
  let bits := e - bit_off in
  let! am := __bitmap_clear (alloc_map c) bit_off bits in
  let c1 := set_free_bytes (free_bytes c + bits * PCPU_MIN_ALLOC_SIZE) (set_alloc_map am c) in
  let c2 := set_first_bit (Z.min (first_bit c1) bit_off) c1 in
  pcpu_block_update_hint_free rsv c2 total bit_off bits.
