(* ===== verification/PercpuBlock.v ===== *)
(** * The per-CPU allocator: metadata blocks

    What the hints of a block promise about the 1024 bits it summarises
    ([block_ok]), and that the updates of mm/percpu.c keep the promise: filling
    in a free area, scanning a block anew, and marking an area as used. *)

From S2P Require Import Prelude Bitops Memblock Bitmap BitmapSpec Percpu.
From stdpp Require Import base list numbers option.
#[local] Open Scope Z_scope.
#[local] Open Scope kernel_scope.

Abbreviation BB := PCPU_BITMAP_BLOCK_BITS (only parsing).

(** [P j] says that bit [j] of the block is in use. *)
Record block_ok (P : Z -> bool) (b : pcpu_block_md) : Prop := {
  bk_first : 0 <= first_free b <= 1024 /\ forall j, 0 <= j < first_free b -> P j = true;
  bk_left : 0 <= left_free b <= 1024 /\ free_on P 0 (left_free b) /\ (left_free b < 1024 -> P (left_free b) = true);
  bk_right : 0 <= right_free b <= 1024 /\ free_on P (1024 - right_free b) 1024
    /\ (right_free b < 1024 -> P (1024 - right_free b - 1) = true);
  bk_max : forall s e, 0 <= s <= e -> e <= 1024 -> free_on P s e -> e - s <= contig_hint b;
  bk_hint : 0 <= contig_hint b /\ 0 <= contig_hint_start b <= 1024
    /\ (0 < contig_hint b -> contig_hint_start b + contig_hint b <= 1024
        /\ free_on P (contig_hint_start b) (contig_hint_start b + contig_hint b))
}.

Lemma free_on_weaken P s e s' e' : free_on P s e -> s <= s' -> e' <= e -> free_on P s' e'.
Proof. intros H Hs He i Hi. apply H. lia. Qed.

Lemma free_on_join P a b c : free_on P a b -> free_on P b c -> free_on P a c.
Proof. intros H1 H2 i Hi. destruct (Z.lt_ge_cases i b); [apply H1|apply H2]; lia. Qed.

Lemma free_on_ext (P Q : Z -> bool) s e : (forall i, s <= i < e -> P i = Q i) -> free_on P s e -> free_on Q s e.
Proof. intros H HP i Hi. rewrite <- H by done. by apply HP. Qed.

Lemma block_ok_ext P Q b : (forall j, 0 <= j < 1024 -> P j = Q j) -> block_ok P b -> block_ok Q b.
Proof.
  intros H [[? Hf] (? & Hl1 & Hl2) (? & Hr1 & Hr2) Hm (? & ? & Hh)]. split.
  - split; [done|]. intros j Hj. rewrite <- H by lia. by apply Hf.
  - split_and!; [lia|lia| |].
    + eapply free_on_ext; [|exact Hl1]. intros; apply H; lia.
    + intros. rewrite <- H by lia. by apply Hl2.
  - split_and!; [lia|lia| |].
    + eapply free_on_ext; [|exact Hr1]. intros; apply H; lia.
    + intros. rewrite <- H by lia. by apply Hr2.
  - intros s e Hs He Hfree. apply Hm; [done|done|]. eapply free_on_ext; [|exact Hfree]. intros; symmetry; apply H; lia.
  - split_and!; [done|lia|lia|]. intros Hc. destruct (Hh Hc) as [? Hx]. split; [done|].
    eapply free_on_ext; [|exact Hx]. intros; apply H; lia.
Qed.

(** [s, e) is a whole free run of the block. *)
Record whole_run (P : Z -> bool) (s e : Z) : Prop := {
  wr_range : 0 <= s < e /\ e <= 1024;
  wr_free : free_on P s e;
  wr_before : 0 < s -> P (s - 1) = true;
  wr_after : e < 1024 -> P e = true
}.

(** A free run that meets a whole run lies inside it. *)
Lemma run_inside P s e a b : whole_run P s e -> 0 <= a -> b <= 1024 -> free_on P a b -> a < e -> s < b -> s <= a /\ b <= e.
Proof.
  intros [? Hf Hb Ha] Ha0 Hb0 Hab H1 H2. split.
  - destruct (Z.le_gt_cases s a); [done|]. specialize (Hb ltac:(lia)). rewrite (Hab (s - 1)) in Hb by lia. done.
  - destruct (Z.le_gt_cases b e); [done|]. specialize (Ha ltac:(lia)). rewrite (Hab e) in Ha by lia. done.
Qed.

(** pcpu_block_update() with a whole free run of the new bits. *)
Lemma block_update_ok P P' b s e :
  block_ok P b -> whole_run P' s e -> (forall j, 0 <= j < 1024 -> ~ (s <= j < e) -> P' j = P j) ->
  block_ok P' (pcpu_block_update b s e).
Proof.
  intros [[Hff Hf] (Hlf & Hl1 & Hl2) (Hrf & Hr1 & Hr2) Hm (Hc0 & Hc1 & Hh)] Hrun Hsame.
  pose proof Hrun as [Hse Hfree Hbef Haft].
  assert (Hmono : forall i, 0 <= i < 1024 -> P i = false -> P' i = false).
  { intros i Hi HP. destruct (Z.lt_ge_cases i s); [by rewrite Hsame by lia|]. destruct (Z.lt_ge_cases i e); [by apply Hfree; lia|by rewrite Hsame by lia]. }
  assert (Hfirst : 0 <= Z.min (first_free b) s <= 1024 /\ forall j, 0 <= j < Z.min (first_free b) s -> P' j = true).
  { split; [lia|]. intros j Hj. rewrite Hsame by lia. apply Hf. lia. }
  assert (Hleft : let l := if s =? 0 then e - s else left_free b in
    0 <= l <= 1024 /\ free_on P' 0 l /\ (l < 1024 -> P' l = true)).
  { destruct (Z.eqb_spec s 0) as [->|Hs]; cbn zeta.
    - rewrite Z.sub_0_r. split_and!; [lia|lia|done|done].
    - assert (left_free b < s).
      { destruct (Z.lt_ge_cases (left_free b) s); [done|]. specialize (Hbef ltac:(lia)). rewrite Hsame, (Hl1 (s - 1)) in Hbef by lia. done. }
      split_and!; [lia|lia| |].
      + intros i Hi. apply Hmono; [lia|]. by apply Hl1.
      + intros. rewrite Hsame by lia. apply Hl2. lia. }
  assert (Hright : let r := if e =? BB then e - s else right_free b in
    0 <= r <= 1024 /\ free_on P' (1024 - r) 1024 /\ (r < 1024 -> P' (1024 - r - 1) = true)).
  { unfold PCPU_BITMAP_BLOCK_BITS. destruct (Z.eqb_spec e 1024) as [->|He]; cbn zeta.
    - split_and!; [lia|lia| |].
      + eapply free_on_weaken; [exact Hfree|lia|lia].
      + intros. replace (1024 - (1024 - s) - 1) with (s - 1) by lia. apply Hbef. lia.
    - assert (e < 1024 - right_free b).
      { destruct (Z.lt_ge_cases e (1024 - right_free b)); [done|]. specialize (Haft ltac:(lia)). rewrite Hsame, (Hr1 e) in Haft by lia. done. }
      split_and!; [lia|lia| |].
      + intros i Hi. apply Hmono; [lia|]. by apply Hr1.
      + intros. rewrite Hsame by lia. apply Hr2. lia. }
  assert (Hruns : forall a c, 0 <= a <= c -> c <= 1024 -> free_on P' a c -> c - a <= Z.max (contig_hint b) (e - s)).
  { intros a c Hac Hc Hfac. destruct (Z.lt_ge_cases a e) as [H1|H1], (Z.lt_ge_cases s c) as [H2|H2].
    - destruct (run_inside P' s e a c Hrun) as [? ?]; [lia|lia|done|lia|lia|]. lia.
    - specialize (Hm a c). assert (c - a <= contig_hint b); [|lia]. apply Hm; [lia|lia|].
      intros i Hi. rewrite <- Hsame by lia. by apply Hfac.
    - specialize (Hm a c). assert (c - a <= contig_hint b); [|lia]. apply Hm; [lia|lia|].
      intros i Hi. rewrite <- Hsame by lia. by apply Hfac.
    - lia. }
  assert (Hold : 0 < contig_hint b -> contig_hint_start b + contig_hint b <= 1024 /\ free_on P' (contig_hint_start b) (contig_hint_start b + contig_hint b)).
  { intros Hc. destruct (Hh Hc) as [? Hx]. split; [done|]. intros i Hi. apply Hmono; [lia|]. by apply Hx. }
  unfold pcpu_block_update. rewrite Z.gtb_ltb. destruct (Z.ltb_spec (contig_hint b) (e - s)) as [Hgt|Hle].
  - split; cbn; try done; [intros a c Hac Hc Hfac; specialize (Hruns a c Hac Hc Hfac); lia|].
    split_and!; [lia|lia|lia|]. intros _. split; [lia|]. eapply free_on_weaken; [exact Hfree|lia|lia].
  - destruct (negb _ && _ && _) eqn:E.
    + rewrite !andb_true_iff, Z.eqb_eq in E. destruct E as [[_ E] _].
      split; cbn; try done; [intros a c Hac Hc Hfac; specialize (Hruns a c Hac Hc Hfac); lia|].
      split_and!; [lia|lia|lia|]. intros _. split; [lia|]. eapply free_on_weaken; [exact Hfree|lia|lia].
    + split; cbn; try done. intros a c Hac Hc Hfac. specialize (Hruns a c Hac Hc Hfac). lia.
Qed.

(** ** Scanning a block *)

(** The bits below [x] as they are, the others in use. *)
Definition upto (P : Z -> bool) (x j : Z) : bool := if j <? x then P j else true.

Lemma upto_all_used P x b :
  0 <= contig_hint_start b <= 1024 -> 0 <= x <= 1024 -> (forall j, 0 <= j < x -> P j = true) ->
  block_ok (upto P x) (mk_md 0 (contig_hint_start b) 0 0 x).
Proof.
  intros Hc Hx HP. assert (Hall : forall j, 0 <= j -> upto P x j = true).
  { intros j Hj. unfold upto. destruct (Z.ltb_spec j x); [|done]. by apply HP. }
  split; cbn.
  - split; [lia|]. intros j Hj. by apply Hall; lia.
  - split_and!; [lia|lia|intros i Hi; lia|]. intros _. by apply Hall.
  - split_and!; [lia|lia|intros i Hi; lia|]. intros _. by apply Hall.
  - intros s e Hs He Hf. destruct (Z.eq_dec s e); [lia|]. specialize (Hf s ltac:(lia)). by rewrite Hall in Hf by lia.
  - split_and!; [lia|lia|lia|]. lia.
Qed.

Section Scan.
Context (map : list Z) (Hm : bm_all map) (Hlen : 1024 <= 64 * Z.of_nat (length map) < 2 ^ 61).

Lemma scan_wf : bm_wf map 1024.
Proof. split; [done|lia|lia]. Qed.

Lemma next_unpop_spec rs :
  0 <= rs -> exists rs1 re, pcpu_next_unpop map rs 1024 = Ret (rs1, re)
    /\ first_from (fun i => negb (bit map i)) rs 1024 rs1 /\ first_from (bit map) (rs1 + 1) 1024 re /\ 0 <= rs1.
Proof.
  intros Hrs. unfold pcpu_next_unpop.
  destruct (find_next_zero_bit_spec map 1024 rs scan_wf Hrs) as (r1 & -> & F1). cbn [obind].
  assert (0 <= r1).
  { destruct F1 as [? Hf _]. destruct (Z.lt_ge_cases r1 1024) as [H|]; [destruct (Hf H)|]; lia. }
  destruct (find_next_bit_spec map 1024 (r1 + 1) scan_wf ltac:(lia)) as (r2 & -> & F2). cbn [obind]. eauto 6.
Qed.

Lemma block_refresh_loop_spec : forall fuel x b,
  0 <= x -> (0 < x <= 1024 -> bit map (x - 1) = true) -> block_ok (upto (bit map) x) b -> 1024 - x < 2 * Z.of_nat fuel ->
  exists b', block_refresh_loop fuel map x b = Ret b' /\ block_ok (bit map) b'.
Proof.
  induction fuel as [|fuel IH]; intros x b Hx Hprev Hok Hf; cbn [block_refresh_loop];
    destruct (next_unpop_spec x Hx) as (rs & re & E & [Hle1 Hf1 Hn1] & [Hle2 Hf2 Hn2] & Hrs0);
    unfold PCPU_BITMAP_BLOCK_BITS in *; rewrite E; cbn [obind].
  - destruct (Z.ltb_spec rs re); [destruct (Hf1 ltac:(lia)); lia|]. exists b. split; [done|].
    eapply block_ok_ext; [|exact Hok]. intros j Hj. unfold upto. destruct (Z.ltb_spec j x); [done|lia].
  - destruct (Z.ltb_spec rs re) as [Hlt|Hge].
    + destruct (Hf1 ltac:(lia)) as [Hxr Hbit%negb_true_iff].
      assert (Hrun : whole_run (upto (bit map) (re + 1)) rs re).
      { split; [lia| | |].
        - intros i Hi. unfold upto. destruct (Z.ltb_spec i (re + 1)); [|lia].
          destruct (Z.eq_dec i rs) as [->|]; [done|]. apply Hn2. lia.
        - intros Hs. unfold upto. destruct (Z.ltb_spec (rs - 1) (re + 1)); [|done].
          destruct (Z.eq_dec x rs) as [->|]; [apply Hprev; lia|]. apply negb_false_iff. apply Hn1. lia.
        - intros He. unfold upto. destruct (Z.ltb_spec re (re + 1)); [|done]. by apply Hf2. }
      apply (IH (re + 1)); [lia| | |lia].
      * intros H. replace (re + 1 - 1) with re by lia. apply Hf2. lia.
      * apply (block_update_ok _ _ _ _ _ Hok Hrun). intros j Hj Hout. unfold upto.
        destruct (Z.ltb_spec j (re + 1)), (Z.ltb_spec j x); try done; try lia.
        destruct (Z.eq_dec j re) as [->|]; [apply Hf2; lia|]. apply negb_false_iff. apply Hn1. lia.
    + assert (Hend : rs = 1024).
      { destruct (Z.eq_dec rs 1024); [done|]. destruct (Z.lt_ge_cases re 1024) as [H|]; [destruct (Hf2 H)|]; lia. }
      exists b. split; [done|]. eapply block_ok_ext; [|exact Hok]. intros j Hj. unfold upto.
      destruct (Z.ltb_spec j x); [done|]. symmetry. apply negb_false_iff. apply Hn1. lia.
Qed.
End Scan.

(** ** Taking an area out of a block *)

(** [P'] is [P] with [s, e) taken, which was free. *)
Record taken (P P' : Z -> bool) (s e : Z) : Prop := {
  tk_range : 0 <= s < e /\ e <= 1024;
  tk_free : free_on P s e;
  tk_bits : forall j, 0 <= j < 1024 -> P' j = if (s <=? j) && (j <? e) then true else P j
}.

Lemma taken_mono P P' s e a b : taken P P' s e -> 0 <= a -> b <= 1024 -> free_on P' a b -> free_on P a b.
Proof.
  intros [? ? Hb] Ha Hb' Hf i Hi. specialize (Hf i Hi). rewrite Hb in Hf by lia.
  by destruct ((s <=? i) && (i <? e)).
Qed.

Lemma taken_out P P' s e j : taken P P' s e -> 0 <= j < 1024 -> ~ (s <= j < e) -> P' j = P j.
Proof. intros [_ _ Hb] Hj Hout. rewrite Hb by done. destruct (Z.leb_spec s j), (Z.ltb_spec j e); cbn [andb]; done || lia. Qed.

Lemma taken_in P P' s e j : taken P P' s e -> s <= j < e -> P' j = true.
Proof. intros [? _ Hb] Hj. rewrite Hb by lia. by destruct (Z.leb_spec s j), (Z.ltb_spec j e); try lia. Qed.

(** When the area is not in the hinted run the hint stays right. *)
Lemma taken_ok P P' b s e ff :
  block_ok P b -> taken P P' s e ->
  ~ (contig_hint_start b <= s < contig_hint_start b + contig_hint b) ->
  0 <= ff <= 1024 -> (forall j, 0 <= j < ff -> P' j = true) ->
  block_ok P' (mk_md (contig_hint b) (contig_hint_start b) (Z.min (left_free b) s) (Z.min (right_free b) (1024 - e)) ff).
Proof.
  intros [_ (Hlf & Hl1 & Hl2) (Hrf & Hr1 & Hr2) Hm (Hc0 & Hc1 & Hh)] Ht Hout Hff Hf. pose proof Ht as [Hse Hfree _].
  assert (Hpos : 0 < contig_hint b) by (specialize (Hm s e ltac:(lia) ltac:(lia) Hfree); lia).
  destruct (Hh Hpos) as [Hce Hcf].
  assert (Hdis : e <= contig_hint_start b \/ contig_hint_start b + contig_hint b <= s).
  { destruct (Z.le_gt_cases (contig_hint_start b + contig_hint b) s); [by right|]. left.
    destruct (Z.le_gt_cases e (contig_hint_start b)); [done|exfalso].
    assert (Hlong : free_on P s (contig_hint_start b + contig_hint b)).
    { intros i Hi. destruct (Z.lt_ge_cases i e); [apply Hfree|apply Hcf]; lia. }
    specialize (Hm s (contig_hint_start b + contig_hint b) ltac:(lia) ltac:(lia) Hlong). lia. }
  split; cbn.
  - by split.
  - split_and!; [lia|lia| |].
    + intros i Hi. rewrite (taken_out _ _ _ _ _ Ht) by lia. apply Hl1. lia.
    + intros H. destruct (Z.le_gt_cases s (left_free b)).
      * rewrite Z.min_r by lia. apply (taken_in _ _ _ _ _ Ht). lia.
      * rewrite Z.min_l in * by lia. rewrite (taken_out _ _ _ _ _ Ht) by lia. by apply Hl2.
  - split_and!; [lia|lia| |].
    + intros i Hi. rewrite (taken_out _ _ _ _ _ Ht) by lia. apply Hr1. lia.
    + intros H. destruct (Z.le_gt_cases (1024 - e) (right_free b)).
      * rewrite Z.min_r by lia. apply (taken_in _ _ _ _ _ Ht). lia.
      * rewrite Z.min_l in * by lia. rewrite (taken_out _ _ _ _ _ Ht) by lia. by apply Hr2.
  - intros a c Hac Hc Hfac. apply Hm; [done|done|]. by apply (taken_mono _ _ _ _ _ _ Ht); [lia|lia|].
  - split_and!; [lia|lia|lia|]. intros _. split; [done|]. intros i Hi. rewrite (taken_out _ _ _ _ _ Ht) by lia. by apply Hcf.
Qed.

(** A block that is wholly in use. *)
Lemma used_ok P' b ff :
  0 <= contig_hint_start b <= 1024 -> 0 <= ff <= 1024 -> (forall j, 0 <= j < 1024 -> P' j = true) ->
  block_ok P' (mk_md 0 (contig_hint_start b) 0 0 ff).
Proof.
  intros Hc Hff Hall. split; cbn.
  - split; [lia|]. intros j Hj. apply Hall. lia.
  - split_and!; [lia|lia|intros i Hi; lia|]. intros _. by apply Hall.
  - split_and!; [lia|lia|intros i Hi; lia|]. intros _. by apply Hall.
  - intros s e Hs He Hf. destruct (Z.eq_dec s e); [lia|]. specialize (Hf s ltac:(lia)). by rewrite Hall in Hf by lia.
  - split_and!; [lia|lia|lia|]. lia.
Qed.

(** A block that is wholly free. *)
Lemma unused_ok P' b : (forall j, 0 <= j < 1024 -> P' j = false) -> block_ok P' (block_unused b).
Proof.
  intros Hall. split; cbn; unfold PCPU_BITMAP_BLOCK_BITS.
  - split; [lia|]. intros j Hj. lia.
  - split_and!; [lia|lia|intros i Hi; apply Hall; lia|lia].
  - split_and!; [lia|lia|intros i Hi; apply Hall; lia|lia].
  - intros s e Hs He Hf. lia.
  - split_and!; [lia|lia|lia|]. intros _. split; [lia|]. intros i Hi. apply Hall. lia.
Qed.

(** The first free bit of a block with a hint. *)
Lemma hint_first P b : block_ok P b -> 0 < contig_hint b -> first_free b <= contig_hint_start b.
Proof.
  intros [[? Hf] _ _ _ (? & ? & Hh)] Hc. destruct (Hh Hc) as [? Hx].
  destruct (Z.le_gt_cases (first_free b) (contig_hint_start b)); [done|].
  specialize (Hf (contig_hint_start b) ltac:(lia)). rewrite Hx in Hf by lia. done.
Qed.

(** The hinted run is a whole run. *)
Lemma hint_whole P b : block_ok P b -> 0 < contig_hint b ->
  whole_run P (contig_hint_start b) (contig_hint_start b + contig_hint b).
Proof.
  intros [_ _ _ Hm (? & ? & Hh)] Hc. destruct (Hh Hc) as [? Hx]. split; [lia|done| |].
  - intros Hs. destruct (P (contig_hint_start b - 1)) eqn:E; [done|].
    assert (free_on P (contig_hint_start b - 1) (contig_hint_start b + contig_hint b)) as Hl.
    { intros i Hi. destruct (Z.eq_dec i (contig_hint_start b - 1)) as [->|]; [done|]. apply Hx. lia. }
    specialize (Hm (contig_hint_start b - 1) (contig_hint_start b + contig_hint b) ltac:(lia) ltac:(lia) Hl). lia.
  - intros He. destruct (P (contig_hint_start b + contig_hint b)) eqn:E; [done|].
    assert (free_on P (contig_hint_start b) (contig_hint_start b + contig_hint b + 1)) as Hl.
    { intros i Hi. destruct (Z.eq_dec i (contig_hint_start b + contig_hint b)) as [->|]; [done|]. apply Hx. lia. }
    specialize (Hm (contig_hint_start b) (contig_hint_start b + contig_hint b + 1) ltac:(lia) ltac:(lia) Hl). lia.
Qed.

(** * The per-CPU allocator: chunks and their hints

    The shape of a chunk, the promise of all its blocks ([hints_ok]), and what
    the hint updates of mm/percpu.c do to them. *)

Lemma nr_blocks_eq c : pcpu_chunk_nr_blocks c = nr_pages c.
Proof. unfold pcpu_chunk_nr_blocks. apply Z.div_mul. done. Qed.

Lemma map_bits_eq c : pcpu_chunk_map_bits c = 1024 * nr_pages c.
Proof.
  unfold pcpu_chunk_map_bits, pcpu_nr_pages_to_map_bits, PCPU_MIN_ALLOC_SIZE. change PAGE_SIZE with (1024 * 4).
  rewrite Z.mul_assoc, Z.div_mul by done. lia.
Qed.

Lemma off_index off : pcpu_off_to_block_index off = off / 1024.
Proof. done. Qed.

Lemma off_off off : pcpu_off_to_block_off off = off mod 1024.
Proof. apply (Z.land_ones off 10). done. Qed.

Lemma off_split off : 0 <= off -> 0 <= off / 1024 /\ 0 <= off mod 1024 < 1024 /\ off = 1024 * (off / 1024) + off mod 1024.
Proof. intros. Z.to_euclidean_division_equations. lia. Qed.

(** Sizes of a chunk: 1 to 2^18 pages, maps and blocks for each. *)
Record chunk_shape (c : pcpu_chunk) : Prop := {
  cs_pages : 0 < nr_pages c < 2 ^ 18;
  cs_alloc : bm_all (alloc_map c) /\ Z.of_nat (length (alloc_map c)) = 16 * nr_pages c;
  cs_md : Z.of_nat (length (md_blocks c)) = nr_pages c;
  cs_bound : bm_all (bound_map c) /\ 1024 * nr_pages c < 64 * Z.of_nat (length (bound_map c)) < 2 ^ 61;
  cs_pop : bm_all (populated c) /\ nr_pages c <= 64 * Z.of_nat (length (populated c)) < 2 ^ 61
}.

(** Bit [i] of the chunk is in use. *)
Definition used (c : pcpu_chunk) : Z -> bool := bit (alloc_map c).

(** The bits of block [i]. *)
Definition blk (A : Z -> bool) (i j : Z) : bool := A (1024 * i + j).

(** Every block satisfies what [R] asks of it. *)
Definition blocks_all (R : Z -> pcpu_block_md -> Prop) (c : pcpu_chunk) : Prop :=
  forall i, 0 <= i < nr_pages c -> exists b, md_blocks c !! Z.to_nat i = Some b /\ R i b.
(** Every block keeps its promise about the bits [A]. *)
Definition hints_ok (A : Z -> bool) (c : pcpu_chunk) : Prop := blocks_all (fun i => block_ok (blk A i)) c.

Lemma blocks_all_md R c i : blocks_all R c -> 0 <= i < nr_pages c -> exists b, md_block c i = Ret b /\ R i b.
Proof. intros H Hi. destruct (H i Hi) as (b & Hb & Hok). unfold md_block. rewrite Hb. eauto. Qed.

Lemma md_block_put c i j b : 0 <= i < Z.of_nat (length (md_blocks c)) -> 0 <= j ->
  md_block (put_block c i b) j = if j =? i then Ret b else md_block c j.
Proof.
  intros Hi Hj. unfold md_block, put_block. cbn. destruct (Z.eqb_spec j i) as [->|Hne].
  - by rewrite list_lookup_insert_eq by lia.
  - by rewrite list_lookup_insert_ne by lia.
Qed.

Lemma put_block_put c i b b' : put_block (put_block c i b) i b' = put_block c i b'.
Proof. unfold put_block, set_md_blocks. cbn. by rewrite list_insert_insert_eq. Qed.

Lemma put_block_shape c i b : chunk_shape c -> chunk_shape (put_block c i b).
Proof. intros [? ? ? ? ?]. split; try done. cbn. by rewrite length_insert. Qed.

(** Replacing block [i]. *)
Lemma blocks_all_put (R R' : Z -> pcpu_block_md -> Prop) c i b :
  chunk_shape c -> blocks_all R c -> 0 <= i < nr_pages c -> R' i b -> (forall j b', j <> i -> R j b' -> R' j b') ->
  blocks_all R' (put_block c i b).
Proof.
  intros Hs H Hi Hb HR j Hj. cbn in *. destruct (Z.eq_dec j i) as [->|Hne].
  - exists b. split; [|done]. apply list_lookup_insert_eq. pose proof (cs_md _ Hs). lia.
  - destruct (H j Hj) as (b' & Hb' & Hok). exists b'. rewrite list_lookup_insert_ne by lia. split; [done|]. by apply HR.
Qed.

Lemma blocks_all_impl (R R' : Z -> pcpu_block_md -> Prop) c :
  blocks_all R c -> (forall i b, 0 <= i < nr_pages c -> R i b -> R' i b) -> blocks_all R' c.
Proof. intros H HR i Hi. destruct (H i Hi) as (b & Hb & Hok). exists b. split; [done|]. by apply HR. Qed.

(** The map of one block. *)
Lemma bit_drop n map j : 0 <= j -> bit (drop n map) j = bit map (64 * Z.of_nat n + j).
Proof.
  intros Hj. unfold bit. rewrite lookup_drop. destruct (word_index (64 * Z.of_nat n) (j mod 64)) as [_ _];
    [by exists (Z.of_nat n); lia|apply Z.mod_pos_bound; lia|].
  replace ((64 * Z.of_nat n + j) / 64) with (Z.of_nat n + j / 64) by (rewrite Z.mul_comm, Z.div_add_l by lia; done).
  replace ((64 * Z.of_nat n + j) mod 64) with (j mod 64) by (rewrite Z.mul_comm, Z.add_comm, Z_mod_plus_full; done).
  pose proof (Z.div_pos j 64 Hj ltac:(lia)). do 3 f_equal. lia.
Qed.

Lemma index_map c i : chunk_shape c -> 0 <= i < nr_pages c ->
  bm_all (pcpu_index_alloc_map c i)
  /\ 1024 <= 64 * Z.of_nat (length (pcpu_index_alloc_map c i)) < 2 ^ 61
  /\ forall j, 0 <= j -> bit (pcpu_index_alloc_map c i) j = blk (used c) i j.
Proof.
  intros [Hp [Ha Hl] _ _ _] Hi. unfold pcpu_index_alloc_map, PCPU_BITMAP_BLOCK_BITS, BITS_PER_LONG.
  replace (i * 1024 / 64) with (16 * i) by (Z.to_euclidean_division_equations; lia).
  split; [by apply Forall_drop|]. rewrite length_drop. split; [lia|]. intros j Hj. rewrite bit_drop by done.
  unfold blk, used. f_equal. lia.
Qed.

Lemma index_wf c i : chunk_shape c -> 0 <= i < nr_pages c -> bm_wf (pcpu_index_alloc_map c i) 1024.
Proof. intros Hs Hi. destruct (index_map c i Hs Hi) as (H & Hl & _). split; [done|lia|lia]. Qed.

(** Scanning block [i] anew. *)
Lemma block_refresh_hint_spec c i b :
  chunk_shape c -> 0 <= i < nr_pages c -> md_block c i = Ret b ->
  0 <= contig_hint_start b <= 1024 -> 0 <= first_free b <= 1024 ->
  (forall j, 0 <= j < first_free b -> blk (used c) i j = true) ->
  exists b', pcpu_block_refresh_hint c i = Ret (put_block c i b') /\ block_ok (blk (used c) i) b'.
Proof.
  intros Hs Hi Hb Hc Hff Hf. unfold pcpu_block_refresh_hint. rewrite Hb. cbn [obind first_free].
  destruct (index_map c i Hs Hi) as (Hm & Hl & Hbit).
  destruct (block_refresh_loop_spec (pcpu_index_alloc_map c i) Hm Hl (Z.to_nat PCPU_BITMAP_BLOCK_BITS) (first_free b)
    (mk_md 0 (contig_hint_start b) 0 0 (first_free b))) as (b' & -> & Hok).
  - lia.
  - intros H. rewrite Hbit by lia. apply Hf. lia.
  - apply upto_all_used; [done|done|]. intros j Hj. rewrite Hbit by lia. by apply Hf.
  - unfold PCPU_BITMAP_BLOCK_BITS. lia.
  - cbn [obind]. exists b'. split; [done|]. eapply block_ok_ext; [|exact Hok]. intros j Hj. apply Hbit. lia.
Qed.

(** The first free bit from [x] on in block [i]. *)
Lemma block_next_zero c i x : chunk_shape c -> 0 <= i < nr_pages c -> 0 <= x ->
  (forall j, 0 <= j < x -> j < 1024 -> blk (used c) i j = true) ->
  exists ff, find_next_zero_bit (pcpu_index_alloc_map c i) PCPU_BITMAP_BLOCK_BITS x = Ret ff
    /\ 0 <= ff <= 1024 /\ forall j, 0 <= j < ff -> blk (used c) i j = true.
Proof.
  intros Hs Hi Hx Hbelow. change PCPU_BITMAP_BLOCK_BITS with 1024. destruct (index_map c i Hs Hi) as (Hm & Hl & Hbit).
  destruct (find_next_zero_bit_spec _ 1024 x (index_wf c i Hs Hi) Hx) as (ff & -> & [Hle Hf Hn]).
  exists ff. split; [done|]. split; [destruct (Z.lt_ge_cases ff 1024) as [H|]; [destruct (Hf H)|]; lia|].
  intros j Hj. destruct (Z.lt_ge_cases j x); [apply Hbelow; lia|]. rewrite <- Hbit by lia. apply negb_false_iff. apply Hn. lia.
Qed.

(** ** The allocation path *)

Lemma alloc_s_block_spec c A s_index e_index s_off e_off bits b :
  chunk_shape c -> 0 <= s_index < nr_pages c -> md_block c s_index = Ret b -> block_ok (blk A s_index) b ->
  taken (blk A s_index) (blk (used c) s_index) s_off (if s_index =? e_index then e_off else 1024) ->
  (if s_index =? e_index then e_off else 1024) <= s_off + bits ->
  (forall j, s_off <= j < s_off + bits -> j < 1024 -> blk (used c) s_index j = true) ->
  exists b', alloc_s_block c s_index e_index s_off e_off bits = Ret (put_block c s_index b')
    /\ block_ok (blk (used c) s_index) b'.
Proof.
  intros Hs Hi Hb Hok Ht Hbits Hset. pose proof Ht as [Hr Hfree _]. unfold alloc_s_block. rewrite Hb. cbn [obind].
  pose proof Hok as [[Hff Hf] _ _ _ (Hc0 & Hc1 & _)].
  set (e := if s_index =? e_index then e_off else 1024) in *.
  assert (Hff' : exists ff, (if s_off =? first_free b then
        let! ff := find_next_zero_bit (pcpu_index_alloc_map c s_index) PCPU_BITMAP_BLOCK_BITS (s_off + bits) in
        Ret (mk_md (contig_hint b) (contig_hint_start b) (left_free b) (right_free b) ff)
      else Ret b) = Ret (mk_md (contig_hint b) (contig_hint_start b) (left_free b) (right_free b) ff)
    /\ 0 <= ff <= 1024 /\ forall j, 0 <= j < ff -> blk (used c) s_index j = true).
  { assert (Hbelow : forall j, 0 <= j < first_free b -> blk (used c) s_index j = true).
    { intros j Hj. pose proof (Hf j Hj) as HA. destruct (decide (s_off <= j < e)) as [Hin|Hout]; [by apply (taken_in _ _ _ _ _ Ht)|].
      by rewrite (taken_out _ _ _ _ _ Ht) by lia. }
    destruct (Z.eqb_spec s_off (first_free b)) as [E|E].
    - destruct (block_next_zero c s_index (s_off + bits)) as (ff & -> & Hff1 & Hff2); [done|done|lia| |eauto].
      intros j Hj Hj'. destruct (Z.lt_ge_cases j s_off); [apply Hbelow; lia|]. apply Hset; lia.
    - exists (first_free b). split; [by destruct b|done]. }
  destruct Hff' as (ff & -> & Hff1 & Hff2). cbn [obind contig_hint contig_hint_start left_free right_free first_free].
  assert (Hlen : 0 <= s_index < Z.of_nat (length (md_blocks c))) by (rewrite (cs_md _ Hs); lia).
  rewrite Z.geb_leb. destruct (Z.leb_spec (contig_hint_start b) s_off), (Z.ltb_spec s_off (contig_hint_start b + contig_hint b)); cbn [andb].
  1: { destruct (block_refresh_hint_spec (put_block c s_index (mk_md (contig_hint b) (contig_hint_start b) (left_free b) (right_free b) ff)) s_index
         (mk_md (contig_hint b) (contig_hint_start b) (left_free b) (right_free b) ff)) as (b' & -> & Hok'); try done.
       - by apply put_block_shape.
       - rewrite md_block_put by lia. by rewrite Z.eqb_refl.
       - exists b'. by rewrite put_block_put. }
  all: rewrite put_block_put; eexists; split; [reflexivity|].
  all: replace (if s_index =? e_index then Z.min (right_free b) (PCPU_BITMAP_BLOCK_BITS - e_off) else 0)
         with (Z.min (right_free b) (1024 - e))
         by (subst e; destruct (bk_right _ _ Hok); unfold PCPU_BITMAP_BLOCK_BITS; destruct (s_index =? e_index); lia).
  all: by apply (taken_ok _ _ _ _ _ _ Hok Ht); [lia| |].
Qed.

Lemma alloc_e_block_spec c A e_index e_off b :
  chunk_shape c -> 0 <= e_index < nr_pages c -> md_block c e_index = Ret b -> block_ok (blk A e_index) b ->
  taken (blk A e_index) (blk (used c) e_index) 0 e_off ->
  exists b', alloc_e_block c e_index e_off = Ret (put_block c e_index b', if e_off =? 1024 then e_index + 1 else e_index)
    /\ 0 <= contig_hint_start b' <= 1024 /\ 0 <= first_free b' <= 1024
    /\ (e_off < 1024 -> block_ok (blk (used c) e_index) b').
Proof.
  intros Hs Hi Hb Hok Ht. pose proof Ht as [Hr Hfree _]. unfold alloc_e_block. rewrite Hb. cbn [obind].
  pose proof Hok as [[Hff Hf] _ _ Hmax (Hc0 & Hc1 & Hh)].
  destruct (block_next_zero c e_index e_off) as (ff & -> & Hff1 & Hff2); [done|done|lia| |].
  { intros j Hj _. apply (taken_in _ _ _ _ _ Ht). lia. }
  cbn [obind contig_hint contig_hint_start left_free right_free first_free]. unfold PCPU_BITMAP_BLOCK_BITS.
  destruct (Z.eqb_spec e_off 1024) as [E|E].
  { eexists. split; [reflexivity|]. cbn. split_and!; lia. }
  assert (Hlen : 0 <= e_index < Z.of_nat (length (md_blocks c))) by (rewrite (cs_md _ Hs); lia).
  rewrite Z.gtb_ltb. destruct (Z.ltb_spec (contig_hint_start b) e_off).
  - destruct (block_refresh_hint_spec (put_block c e_index (mk_md (contig_hint b) (contig_hint_start b) (left_free b) (right_free b) ff)) e_index
         (mk_md (contig_hint b) (contig_hint_start b) (left_free b) (right_free b) ff)) as (b' & -> & Hok'); try done.
    + by apply put_block_shape.
    + rewrite md_block_put by lia. by rewrite Z.eqb_refl.
    + cbn [obind]. exists b'. rewrite put_block_put. split; [done|]. pose proof (bk_first _ _ Hok') as [? _]. pose proof (bk_hint _ _ Hok') as (? & ? & _). by split_and!; try lia.
  - rewrite put_block_put. eexists. split; [reflexivity|]. cbn. split_and!; [lia|lia|lia|lia|]. intros _.
    pose proof (taken_ok _ _ b 0 e_off ff Hok Ht ltac:(lia) Hff1 Hff2) as H'.
    by rewrite (Z.min_r (left_free b) 0) in H' by (destruct (bk_left _ _ Hok); lia).
Qed.

(** [n] blocks from [i] on are replaced by [f] of them. *)
Lemma blocks_loop_spec (R' : Z -> pcpu_block_md -> Prop) (f : pcpu_block_md -> pcpu_block_md) : forall n (R : Z -> pcpu_block_md -> Prop) c i,
  chunk_shape c -> blocks_all R c -> 0 <= i -> i + Z.of_nat n <= nr_pages c ->
  (forall j b, i <= j < i + Z.of_nat n -> R j b -> R' j (f b)) ->
  (forall j b, ~ (i <= j < i + Z.of_nat n) -> R j b -> R' j b) ->
  exists mds, blocks_loop n f c i = Ret (set_md_blocks mds c) /\ chunk_shape (set_md_blocks mds c) /\ blocks_all R' (set_md_blocks mds c).
Proof.
  induction n as [|n IH]; intros R c i Hs H Hi Hn Hin Hout; cbn [blocks_loop].
  { exists (md_blocks c). replace (set_md_blocks (md_blocks c) c) with c by (by destruct c). split_and!; [done..|].
    eapply blocks_all_impl; [exact H|]. intros j b Hj HR. apply Hout; [lia|done]. }
  destruct (blocks_all_md R c i H ltac:(lia)) as (b & -> & Hb). cbn [obind].
  set (Rm j b' := if j =? i then R' j b' else R j b').
  destruct (IH Rm (put_block c i (f b)) (i + 1)) as (mds & -> & Hs' & H').
  - by apply put_block_shape.
  - apply (blocks_all_put R Rm); [done|done|lia| |]; unfold Rm.
    + rewrite Z.eqb_refl. apply Hin; [lia|done].
    + intros j b' Hne. by destruct (Z.eqb_spec j i).
  - lia.
  - cbn. lia.
  - intros j b' Hj. unfold Rm. destruct (Z.eqb_spec j i); [lia|]. apply Hin. lia.
  - intros j b' Hj. unfold Rm. destruct (Z.eqb_spec j i); [done|]. apply Hout. lia.
  - exists mds. done.
Qed.
