(* ===== verification/PercpuRefresh.v ===== *)
(** * The per-CPU allocator: the free regions of a chunk

    pcpu_next_md_free_region() walks the hints of the blocks; here it is shown
    to meet every longest free run and every wholly free page, so that
    pcpu_chunk_refresh_hint() leaves the exact length of the longest run and the
    exact number of empty populated pages in the chunk. *)

From S2P Require Import Prelude Bitops Memblock Bitmap BitmapSpec Percpu PercpuBlock.
From stdpp Require Import base list numbers option.
#[local] Open Scope Z_scope.
#[local] Open Scope kernel_scope.

(** No free run that ends at or below [y] is longer than [m]. *)
Definition runs_below (A : Z -> bool) (y m : Z) : Prop :=
  forall s e, 0 <= s <= e -> e <= y -> free_on A s e -> e - s <= m.

(** No page of [x, y) is wholly free. *)
Definition no_free_page (A : Z -> bool) (x y : Z) : Prop :=
  forall p, x <= 1024 * p -> 1024 * p + 1024 <= y -> free_on A (1024 * p) (1024 * p + 1024) -> False.

Lemma blk_free A i s e : free_on (blk A i) s e <-> free_on A (1024 * i + s) (1024 * i + e).
Proof.
  unfold free_on, blk. split; intros H j Hj; [|apply H; lia]. replace j with (1024 * i + (j - 1024 * i)) by lia. apply H. lia.
Qed.

Lemma runs_below_weaken A y m m' : runs_below A y m -> m <= m' -> runs_below A y m'.
Proof. intros H Hm s e Hs He Hf. specialize (H s e Hs He Hf). lia. Qed.

(** A run cannot cross a used bit. *)
Lemma run_cut A s e u : free_on A s e -> A u = true -> e <= u \/ u < s.
Proof.
  intros H Hu. destruct (Z.le_gt_cases e u); [by left|]. destruct (Z.lt_ge_cases u s); [by right|].
  rewrite (H u) in Hu by lia. done.
Qed.

(** Runs that end inside block [i], which begins after a used bit. *)
Lemma runs_in_block A i b m y :
  block_ok (blk A i) b -> 0 <= i -> runs_below A (1024 * i) m -> (0 < i -> A (1024 * i - 1) = true) ->
  1024 * i <= y <= 1024 * i + 1024 -> runs_below A y (Z.max m (contig_hint b)).
Proof.
  intros Hok Hi Hm Hprev Hy s e Hs He Hf. destruct (Z.le_gt_cases e (1024 * i)); [specialize (Hm s e Hs ltac:(lia) Hf); lia|].
  destruct (Z.eq_dec s e); [pose proof (bk_hint _ _ Hok); lia|].
  assert (Hsi : 1024 * i <= s).
  { destruct (Z.eq_dec i 0) as [->|]; [lia|]. destruct (run_cut A s e (1024 * i - 1) Hf); [apply Hprev; lia|lia|lia]. }
  pose proof (bk_max _ _ Hok (s - 1024 * i) (e - 1024 * i) ltac:(lia) ltac:(lia)) as H'.
  assert (free_on (blk A i) (s - 1024 * i) (e - 1024 * i)) as Hfb.
  { apply blk_free. eapply free_on_weaken; [exact Hf|lia|lia]. }
  specialize (H' Hfb). lia.
Qed.

Section Regions.
Context (A : Z -> bool) (c : pcpu_chunk) (Hok : hints_ok A c) (Hpages : 0 < nr_pages c).
Abbreviation N := (nr_pages c).
Abbreviation M := (1024 * nr_pages c).

(** What is known before a search from [y]: nothing longer than [m] ends below
    it, and a hint that is passed over in its block is not longer either. *)
Record before (y m : Z) : Prop := {
  bf_pos : 0 <= y;
  bf_runs : runs_below A (Z.min y M) m;
  bf_used : 0 < y <= M -> A (y - 1) = true;
  bf_hint : forall b, y < M -> md_block c (y / 1024) = Ret b -> 0 < contig_hint b -> contig_hint_start b < y mod 1024 -> contig_hint b <= m
}.

(** What a search from [x] with bound [m] returns. *)
Definition region_result (x m bo bits : Z) : Prop :=
  (M <= bo /\ runs_below A M m /\ no_free_page A x M)
  \/ (bo < M /\ x <= bo /\ 0 < bits /\ bo + bits <= M /\ free_on A bo (bo + bits)
      /\ before (bo + bits + 1) (Z.max m bits) /\ no_free_page A x bo
      /\ (bo + bits < M -> A (bo + bits) = true) /\ (0 < bo -> A (bo - 1) = true)).

Lemma md_of i b : md_block c i = Ret b -> 0 <= i < N -> block_ok (blk A i) b.
Proof. intros E Hi. destruct (blocks_all_md _ _ _ Hok Hi) as (b' & E' & Hb). congruence. Qed.

Lemma left_used i b : block_ok (blk A i) b -> left_free b < 1024 -> A (1024 * i + left_free b) = true.
Proof. intros Hb. apply (bk_left _ _ Hb). Qed.

(** The state in which a run [bit_off, 1024 i) is being extended. *)
Lemma next_md_extend x m : forall n i block_off bit_off bits,
  i + Z.of_nat n = N -> 0 <= i -> 0 < bits -> bits = 1024 * i - bit_off -> 0 <= x <= bit_off -> free_on A bit_off (1024 * i) ->
  (0 < bit_off -> A (bit_off - 1) = true) ->
  runs_below A (1024 * i) (Z.max m bits) -> no_free_page A x bit_off ->
  exists bo bs, next_md_loop n c i block_off bit_off bits = Ret (bo, bs) /\ region_result x m bo bs.
Proof.
  induction n as [|n IH]; intros i block_off bit_off bits Hn Hi Hb Eb Hx Hfree Hprev Hruns Hnone; cbn [next_md_loop].
  - exists bit_off, bits. split; [done|]. right. assert (Ei : i = N) by lia.
    split_and!; try done; [lia|lia|lia| | |lia].
    + by replace (bit_off + bits) with (1024 * i) by lia.
    + split; [lia| |lia|lia]. rewrite Z.min_r by lia. by rewrite <- Ei.
  - destruct (blocks_all_md _ _ i Hok ltac:(lia)) as (b & E & Hbk). rewrite E. cbn [obind].
    destruct (Z.eqb_spec bits 0) as [|_]; [lia|]. cbn [negb]. unfold PCPU_BITMAP_BLOCK_BITS.
    pose proof (bk_left _ _ Hbk) as (Hl0 & Hl1 & Hl2). apply blk_free in Hl1. rewrite Z.add_0_r in Hl1.
    assert (Hjoin : free_on A bit_off (1024 * i + left_free b)) by (by eapply free_on_join).
    assert (Hlong : forall y, 1024 * i <= y <= 1024 * i + 1024 -> y <= 1024 * i + left_free b ->
      runs_below A y (Z.max m (bits + left_free b))).
    { intros y Hy Hyl s e Hs He Hf. destruct (Z.le_gt_cases e (1024 * i)); [specialize (Hruns s e Hs ltac:(lia) Hf); lia|].
      destruct (Z.eq_dec s e); [lia|]. assert (bit_off <= s); [|lia].
      destruct (Z.eq_dec bit_off 0); [lia|]. destruct (run_cut A s e (bit_off - 1) Hf); [apply Hprev; lia|lia|lia]. }
    destruct (Z.eqb_spec (left_free b) 1024) as [El|Nl].
    + apply (IH (i + 1)); [lia|lia|lia|lia|lia| |done| |done].
      * replace (1024 * (i + 1)) with (1024 * i + left_free b) by lia. done.
      * replace (1024 * (i + 1)) with (1024 * i + 1024) by lia. apply Hlong; lia.
    + exists bit_off, (bits + left_free b). split; [done|]. right.
      assert (Eu : A (bit_off + (bits + left_free b)) = true).
      { replace (bit_off + (bits + left_free b)) with (1024 * i + left_free b) by lia. apply (left_used i b); [done|lia]. }
      split_and!; try done; [lia|lia|lia|lia|by replace (bit_off + (bits + left_free b)) with (1024 * i + left_free b) by lia|].
      split.
      * lia.
      * intros s e Hs He Hf. destruct (Z.eq_dec s e); [lia|]. apply (Hlong (1024 * i + left_free b)); [lia|lia|done| |done].
        destruct (run_cut A s e _ Hf Eu) as [?|?]; lia.
      * intros _. by replace (bit_off + (bits + left_free b) + 1 - 1) with (bit_off + (bits + left_free b)) by lia.
      * intros b' Hy Eb' Hc Hcs. set (y := bit_off + (bits + left_free b) + 1) in *.
        destruct (Z.eq_dec (left_free b) 1023) as [E1|E1].
        { assert (Ey : y = 1024 * (i + 1)) by lia. rewrite Ey in Hcs. rewrite Z.mul_comm, Z.mod_mul in Hcs by lia.
          rewrite Ey, Z.mul_comm, Z.div_mul in Eb' by lia. pose proof (bk_hint _ _ (md_of _ _ Eb' ltac:(lia))). lia. }
        assert (Ey : y / 1024 = i /\ y mod 1024 = left_free b + 1) by (subst y; Z.to_euclidean_division_equations; lia).
        destruct Ey as [Ey1 Ey2]. rewrite Ey1 in Eb'. rewrite Ey2 in Hcs. assert (b' = b) by congruence. subst b'.
        pose proof (hint_whole _ _ Hbk Hc) as [? Hhf _ _].
        assert (contig_hint_start b + contig_hint b <= left_free b); [|lia].
        assert (Hul := left_used i b Hbk ltac:(lia)). apply blk_free in Hhf.
        destruct (run_cut A _ _ _ Hhf Hul); lia.
Qed.

Lemma next_md_search x m : forall n i y bit_off,
  i + Z.of_nat n = N -> 0 <= i -> 1024 * i <= y < 1024 * i + 1024 -> x <= y -> 0 <= x ->
  before y m -> no_free_page A x y -> (n = 0%nat -> M <= bit_off) ->
  exists bo bs, next_md_loop n c i (y - 1024 * i) bit_off 0 = Ret (bo, bs) /\ region_result x m bo bs.
Proof.
  induction n as [|n IH]; intros i y bit_off Hn Hi Hy Hxy Hx0 Hbef Hnone Hend; cbn [next_md_loop].
  - exists bit_off, 0. split; [done|]. left. assert (Ei : i = N) by lia. destruct Hbef as [_ Hr _ _]. rewrite Z.min_r in Hr by lia.
    split_and!; [by apply Hend|done|]. intros p Hp1 Hp2. apply Hnone; lia.
  - destruct (blocks_all_md _ _ i Hok ltac:(lia)) as (b & E & Hbk). rewrite E. cbn [obind Z.eqb negb].
    pose proof (bk_hint _ _ Hbk) as (Hc0 & Hcs & Hh). unfold PCPU_BITMAP_BLOCK_BITS.
    assert (Ey : y / 1024 = i /\ y mod 1024 = y - 1024 * i) by (Z.to_euclidean_division_equations; lia).
    pose proof Hbef as [_ Hruns Hused Hskip]. rewrite Z.min_l in Hruns by lia. rewrite (proj1 Ey), (proj2 Ey) in Hskip.
    (* runs that end in this block *)
    assert (Hblock : runs_below A (1024 * i + 1024) (Z.max m (contig_hint b))).
    { intros s e Hs He Hf. destruct (Z.eq_dec s e); [lia|]. destruct (Z.le_gt_cases e y); [specialize (Hruns s e Hs ltac:(lia) Hf); lia|].
      assert (y <= s).
      { destruct (Z.eq_dec y 0); [lia|]. destruct (run_cut A s e (y - 1) Hf); [apply Hused; lia|lia|lia]. }
      pose proof (bk_max _ _ Hbk (s - 1024 * i) (e - 1024 * i) ltac:(lia) ltac:(lia)) as H'.
      assert (free_on (blk A i) (s - 1024 * i) (e - 1024 * i)) as Hfb.
      { apply blk_free. eapply free_on_weaken; [exact Hf|lia|lia]. }
      specialize (H' Hfb). lia. }
    (* a wholly free page that is this block *)
    assert (Hpage : forall p, x <= 1024 * p -> 1024 * p + 1024 <= 1024 * i + 1024 ->
      free_on A (1024 * p) (1024 * p + 1024) -> p = i /\ y = 1024 * i).
    { intros p Hp1 Hp2 Hpf. destruct (Z.le_gt_cases (1024 * p + 1024) y) as [Hle|Hgt]; [exfalso; by apply (Hnone p)|].
      assert (p = i) as -> by lia. split; [done|]. destruct (Z.eq_dec y (1024 * i)); [done|].
      specialize (Hused ltac:(lia)). rewrite (Hpf (y - 1)) in Hused by lia. done. }
    pose proof (bk_right _ _ Hbk) as (Hr0 & Hrf & Hru).
    assert (Hru' : right_free b < 1024 -> A (1024 * i + 1024 - right_free b - 1) = true).
    { intros Hlt'. rewrite <- (Hru Hlt'). unfold blk. f_equal. lia. }
    (* the hint is passed over: the right end of the block *)
    assert (Hfall : runs_below A (1024 * i + 1024) (Z.max m (right_free b)) ->
      exists bo bs, next_md_loop n c (i + 1) 0 ((i + 1) * 1024 - right_free b) (right_free b) = Ret (bo, bs) /\ region_result x m bo bs).
    { intros Hm. destruct (Z.eq_dec (right_free b) 0) as [E0|N0].
      - rewrite E0 in *. pose proof (IH (i + 1) (1024 * (i + 1)) ((i + 1) * 1024 - 0)) as IH'. rewrite Z.sub_diag in IH'.
        apply IH'; [lia|lia|lia|lia|lia| | |lia].
        + assert (0 <= m) by (specialize (Hruns 0 0 ltac:(lia) ltac:(lia)); assert (free_on A 0 0) as H00 by (intros ? ?; lia); specialize (Hruns H00); lia).
          split; [lia| | |].
          * intros s e Hs He Hf. specialize (Hm s e Hs ltac:(lia) Hf). lia.
          * intros _. rewrite <- (Hru' ltac:(lia)). f_equal. lia.
          * intros b' Hy' Eb' Hc Hcs'. rewrite (Z.mul_comm 1024 (i + 1)), Z.mod_mul in Hcs' by lia.
            rewrite (Z.mul_comm 1024 (i + 1)), Z.div_mul in Eb' by lia. pose proof (bk_hint _ _ (md_of _ _ Eb' ltac:(lia))). lia.
        + intros p Hp1 Hp2 Hpf. destruct (Hpage p Hp1 ltac:(lia) Hpf) as [-> _]. specialize (Hru' ltac:(lia)).
          rewrite (Hpf (1024 * i + 1024 - 0 - 1)) in Hru' by lia. done.
      - apply blk_free in Hrf.
        assert (Hyr : y <= 1024 * i + 1024 - right_free b).
        { destruct (Z.eq_dec y 0); [lia|]. destruct (run_cut A _ _ (y - 1) Hrf); [apply Hused; lia|lia|lia]. }
        apply next_md_extend; [lia|lia|lia|lia|lia| | | |].
        + by replace (1024 * (i + 1)) with (1024 * i + 1024) by lia; replace ((i + 1) * 1024 - right_free b) with (1024 * i + (1024 - right_free b)) by lia.
        + intros Hpos. destruct (Z.eq_dec (right_free b) 1024) as [E1|E1].
          * replace ((i + 1) * 1024 - right_free b - 1) with (y - 1) by lia. apply Hused. lia.
          * rewrite <- (Hru' ltac:(lia)). f_equal. lia.
        + by replace (1024 * (i + 1)) with (1024 * i + 1024) by lia.
        + intros p Hp1 Hp2 Hpf. destruct (Hpage p Hp1 ltac:(lia) Hpf) as [-> _]. lia. }
    rewrite Z.geb_leb.
    destruct (Z.eqb_spec (contig_hint b) 0) as [Ec|Nc]; cbn [negb andb].
    { apply Hfall. eapply runs_below_weaken; [exact Hblock|]. lia. }
    destruct (Z.leb_spec (y - 1024 * i) (contig_hint_start b)) as [Hge|Hlt]; cbn [andb].
    2: { apply Hfall. eapply runs_below_weaken; [exact Hblock|]. specialize (Hskip b ltac:(lia) E ltac:(lia) ltac:(lia)). lia. }
    pose proof (hint_whole _ _ Hbk ltac:(lia)) as Hw. destruct (Hh ltac:(lia)) as [Hce Hhf].
    destruct (Z.ltb_spec (contig_hint b + contig_hint_start b) 1024) as [Hin|Hright].
    2: { apply Hfall. eapply runs_below_weaken; [exact Hblock|].
         assert (contig_hint b <= right_free b); [|lia].
         destruct (Z.le_gt_cases (contig_hint b) (right_free b)); [done|].
         specialize (Hru ltac:(lia)). rewrite (Hhf (1024 - right_free b - 1)) in Hru by lia. done. }
    (* the hint is the region *)
    apply blk_free in Hhf. destruct Hw as [_ _ Hbefore Haft].
    unfold pcpu_block_off_to_off, PCPU_BITMAP_BLOCK_BITS. eexists _, _. split; [reflexivity|]. right.
    set (bo := i * 1024 + contig_hint_start b). set (ch := contig_hint b) in *.
    assert (Eu : A (bo + ch) = true).
    { subst bo. specialize (Haft ltac:(lia)). unfold blk in Haft. rewrite <- Haft. f_equal. lia. }
    split_and!; try done; [lia|lia|lia|lia| | | |].
    + by replace bo with (1024 * i + contig_hint_start b) by lia; rewrite <- Z.add_assoc.
    + split; [lia| |intros _; by replace (bo + ch + 1 - 1) with (bo + ch) by lia|].
      * intros s e Hs He Hf. apply (Hblock s e); [done|lia|done].
      * intros b' Hy' Eb' Hc Hcs'. set (z := bo + ch + 1) in *. destruct (Z.eq_dec (contig_hint_start b + ch) 1023) as [E1|E1].
        { assert (Ez : z = 1024 * (i + 1)) by lia. rewrite Ez in Hcs'. rewrite Z.mul_comm, Z.mod_mul in Hcs' by lia.
          rewrite Ez, Z.mul_comm, Z.div_mul in Eb' by lia. pose proof (bk_hint _ _ (md_of _ _ Eb' ltac:(lia))). lia. }
        assert (Ez : z / 1024 = i) by (subst z bo; Z.to_euclidean_division_equations; lia).
        rewrite Ez in Eb'. assert (b' = b) by congruence. subst b' ch. lia.
    + intros p Hp1 Hp2 Hpf. destruct (Hpage p Hp1 ltac:(lia) Hpf) as [-> _]. lia.
    + intros Hpos. destruct (Z.eq_dec (contig_hint_start b) 0) as [E1|E1].
      * replace (bo - 1) with (y - 1) by lia. apply Hused. lia.
      * rewrite <- (Hbefore ltac:(lia)). unfold blk. f_equal. lia.
Qed.

Lemma next_md_region x m : 0 <= x -> before x m ->
  exists bo bs, pcpu_next_md_free_region c x = Ret (bo, bs) /\ region_result x m bo bs.
Proof.
  intros Hx Hbef. unfold pcpu_next_md_free_region. rewrite nr_blocks_eq, off_index, off_off.
  destruct (off_split x Hx) as (Hq & Hr & Ex). destruct (Z.lt_ge_cases (x / 1024) N) as [Hlt|Hge].
  - replace (x mod 1024) with (x - 1024 * (x / 1024)) by lia.
    apply next_md_search; try done; try lia. intros p Hp1 Hp2. lia.
  - replace (Z.to_nat (N - x / 1024)) with 0%nat by lia. cbn [next_md_loop]. exists x, 0. split; [done|]. left.
    destruct Hbef as [_ Hr' _ _]. rewrite Z.min_r in Hr' by lia. split_and!; [lia|done|]. intros p Hp1 Hp2. lia.
Qed.
End Regions.

(** ** Refreshing the hint of a chunk *)

(** Page [p] is wholly free. *)
Definition page_free (A : Z -> bool) (p : Z) : bool := count (fun j => A (1024 * p + j)) 1024 =? 0.

Lemma count_zero P n : count P n = 0 <-> forall i, 0 <= i < Z.of_nat n -> P i = false.
Proof.
  split; [|intros H; by rewrite (count_const P n false)]. induction n as [|n IH]; cbn [count]; intros H i Hi; [lia|].
  pose proof (count_bounds P n). destruct (P (Z.of_nat n)) eqn:E; [lia|]. destruct (Z.eq_dec i (Z.of_nat n)) as [->|]; [done|].
  apply IH; lia.
Qed.

Lemma page_free_spec A p : page_free A p = true <-> free_on A (1024 * p) (1024 * p + 1024).
Proof.
  unfold page_free. rewrite Z.eqb_eq, count_zero. unfold free_on. split; intros H i Hi; [|apply H; lia].
  replace i with (1024 * p + (i - 1024 * p)) by lia. apply H. lia.
Qed.

Lemma page_used A p u : A u = true -> 1024 * p <= u < 1024 * p + 1024 -> page_free A p = false.
Proof.
  intros Hu Hr. apply not_true_iff_false. intros H. apply page_free_spec in H. rewrite (H u Hr) in Hu. done.
Qed.

(** Counting up to a number in [Z]. *)
Definition countz (P : Z -> bool) (n : Z) : Z := count P (Z.to_nat n).

Lemma countz_same P Q a b : 0 <= a <= b -> (forall p, a <= p < b -> P p = Q p) -> countz P b - countz P a = countz Q b - countz Q a.
Proof.
  intros Hab H. unfold countz. replace (Z.to_nat b) with (Z.to_nat a + Z.to_nat (b - a))%nat by lia. rewrite !count_add.
  rewrite (count_ext (fun i => P (Z.of_nat (Z.to_nat a) + i)) (fun i => Q (Z.of_nat (Z.to_nat a) + i))); [lia|].
  intros i Hi. apply H. lia.
Qed.

Lemma countz_none P a b : 0 <= a <= b -> (forall p, a <= p < b -> P p = false) -> countz P b = countz P a.
Proof.
  intros Hab H. pose proof (countz_same P (fun _ => false) a b Hab H) as E.
  assert (forall n, countz (fun _ => false) n = 0) as Hz by (intros n; unfold countz; by apply count_zero). rewrite !Hz in E. lia.
Qed.

Lemma pfn_up_bits x : 0 <= x < 2 ^ 60 -> PFN_UP (x * PCPU_MIN_ALLOC_SIZE) = (x + 1023) / 1024.
Proof.
  intros Hx. unfold PFN_UP, PCPU_MIN_ALLOC_SIZE. change PAGE_SIZE with 4096. change PAGE_SHIFT with 12.
  rewrite u64_id by ulia. rewrite Z.shiftr_div_pow2 by lia. change (2 ^ 12) with 4096. Z.to_euclidean_division_equations. lia.
Qed.

Lemma pfn_down_bits x : PFN_DOWN (x * PCPU_MIN_ALLOC_SIZE) = x / 1024.
Proof.
  unfold PFN_DOWN, PCPU_MIN_ALLOC_SIZE. change PAGE_SHIFT with 12.
  rewrite Z.shiftr_div_pow2 by lia. change (2 ^ 12) with 4096. Z.to_euclidean_division_equations. lia.
Qed.

(** The number of populated pages wholly inside a region. *)
Lemma cnt_pop_pages_spec c bo bits : chunk_shape c -> 0 <= bo -> 0 < bits -> bo + bits <= 1024 * nr_pages c ->
  pcpu_cnt_pop_pages c bo bits = Ret (if (bo + 1023) / 1024 >=? (bo + bits) / 1024 then 0
    else countz (bit (populated c)) ((bo + bits) / 1024) - countz (bit (populated c)) ((bo + 1023) / 1024)).
Proof.
  intros [Hp _ _ _ [Hpm Hpl]] Hb Hbits Hle. unfold pcpu_cnt_pop_pages. rewrite pfn_up_bits, pfn_down_bits by lia.
  rewrite Z.geb_leb. destruct (Z.leb_spec ((bo + bits) / 1024) ((bo + 1023) / 1024)) as [|Hlt]; [done|].
  assert (0 <= (bo + 1023) / 1024 /\ (bo + bits) / 1024 <= nr_pages c) by (Z.to_euclidean_division_equations; lia).
  rewrite !bitmap_weight_spec by (done || lia). done.
Qed.

(** The hint of a chunk is a free run, and no run is longer. *)
Record contig_exact (A : Z -> bool) (c : pcpu_chunk) : Prop := {
  ce_nonneg : 0 <= contig_bits c;
  ce_run : 0 < contig_bits c -> 0 <= contig_bits_start c /\ contig_bits_start c + contig_bits c <= 1024 * nr_pages c
    /\ free_on A (contig_bits_start c) (contig_bits_start c + contig_bits c);
  ce_max : runs_below A (1024 * nr_pages c) (contig_bits c)
}.

Section Refresh.
Context (A : Z -> bool) (c : pcpu_chunk) (Hshape : chunk_shape c) (Hok : hints_ok A c).
Abbreviation N := (nr_pages c).
Abbreviation M := (1024 * nr_pages c).
Abbreviation with_contig cb cbs := (set_contig cb cbs c).

Definition emp (p : Z) : bool := bit (populated c) p && page_free A p.

(** One region more: the pages counted so far and those of the region. *)
Lemma emp_step x bo bits m :
  0 <= x -> region_result A c x m bo bits -> bo < M -> before A c x m ->
  countz emp (Z.min ((bo + bits + 1) / 1024) N) = countz emp (Z.min (x / 1024) N)
    + (if (bo + 1023) / 1024 >=? (bo + bits) / 1024 then 0
       else countz (bit (populated c)) ((bo + bits) / 1024) - countz (bit (populated c)) ((bo + 1023) / 1024)).
Proof.
  intros Hx Hres Hbo Hbef. destruct Hres as [(? & _)|(_ & Hxb & Hb & He & Hfree & _ & Hnone & Haft & Hprev)]; [lia|].
  assert (Hxq : 0 <= x / 1024 /\ 1024 * (x / 1024) <= x < 1024 * (x / 1024) + 1024) by (Z.to_euclidean_division_equations; lia).
  set (q := x / 1024) in *. set (a := (bo + 1023) / 1024) in *. set (b := (bo + bits) / 1024) in *. set (d := (bo + bits + 1) / 1024) in *.
  assert (Ha : 1024 * (a - 1) < bo <= 1024 * a) by (subst a; Z.to_euclidean_division_equations; lia).
  assert (Hbb : 1024 * b <= bo + bits < 1024 * b + 1024) by (subst b; Z.to_euclidean_division_equations; lia).
  assert (Hd : 1024 * d <= bo + bits + 1 < 1024 * d + 1024) by (subst d; Z.to_euclidean_division_equations; lia).
  assert (Hbefore : forall p, q <= p < a -> emp p = false).
  { intros p Hp. unfold emp. apply andb_false_iff. right. destruct (Z.lt_ge_cases (1024 * p) x) as [Hlt|Hge].
    - apply (page_used A p (x - 1)); [|lia]. apply (bf_used _ _ _ _ Hbef). lia.
    - destruct (Z.le_gt_cases (1024 * p + 1024) bo) as [Hin|Hout].
      + apply not_true_iff_false. rewrite page_free_spec. intros Hpf. by apply (Hnone p).
      + apply (page_used A p (bo - 1)); [apply Hprev; lia|lia]. }
  assert (Hafter : forall p, b <= p < Z.min d N -> emp p = false).
  { intros p Hp. unfold emp. apply andb_false_iff. right. apply (page_used A p (bo + bits)); [apply Haft|]; lia. }
  rewrite Z.geb_leb. destruct (Z.leb_spec b a) as [Hba|Hab].
  - rewrite Z.add_0_r. rewrite (Z.min_l q) by lia. apply countz_none; [lia|]. intros p Hp.
    destruct (Z.lt_ge_cases p a); [apply Hbefore|apply Hafter]; lia.
  - rewrite (countz_none emp b) by (done || lia). rewrite (Z.min_l q) by lia.
    pose proof (countz_same emp (bit (populated c)) a b ltac:(lia)) as E.
    rewrite (countz_none emp q a) in E by (done || lia). rewrite <- E; [lia|].
    intros p Hp. unfold emp. assert (page_free A p = true) as ->; [|by rewrite andb_true_r].
    apply page_free_spec. eapply free_on_weaken; [exact Hfree|lia|lia].
Qed.

Lemma before_contig cb cbs y m : before A (with_contig cb cbs) y m <-> before A c y m.
Proof. split; intros []; by split. Qed.

Lemma refresh_loop_spec : forall fuel cb cbs x,
  0 <= x -> before A c x cb -> 0 <= cb -> 0 <= cbs <= M ->
  (0 < cb -> cbs + cb <= M /\ free_on A cbs (cbs + cb)) -> M - x < 2 * Z.of_nat fuel ->
  exists cb' cbs', refresh_loop fuel (with_contig cb cbs) x (countz emp (Z.min (x / 1024) N))
      = Ret (with_contig cb' cbs', countz emp N)
    /\ contig_exact A (with_contig cb' cbs') /\ 0 <= cbs' <= M.
Proof.
  pose proof (cs_pages _ Hshape) as Hpages.
  assert (Hstep : forall cb cbs x, 0 <= x -> before A c x cb ->
    (exists bo bs, pcpu_next_md_free_region (with_contig cb cbs) x = Ret (bo, bs) /\ region_result A c x cb bo bs)).
  { intros cb cbs x Hx Hbef. rewrite <- (before_contig cb cbs) in Hbef.
    destruct (next_md_region A (with_contig cb cbs) Hok ltac:(cbn; lia) x cb Hx Hbef) as (bo & bs & E & Hres).
    exists bo, bs. split; [done|]. unfold region_result in *. by rewrite before_contig in Hres. }
  induction fuel as [|fuel IH]; intros cb cbs x Hx Hbef Hcb Hcbs Hrun Hf; cbn [refresh_loop];
    destruct (Hstep cb cbs x Hx Hbef) as (bo & bits & -> & Hres); cbn [obind];
    rewrite map_bits_eq; cbn [set_contig nr_pages];
    (destruct (Z.ltb_spec bo M) as [Hlt|Hge]; [|
      destruct Hres as [(_ & Hr & Hnone)|(? & _)]; [|lia];
      exists cb, cbs; split; [|split; [split; cbn; [lia|intros Hc; destruct (Hrun Hc); split_and!; done || lia|done]|lia]]; do 2 f_equal; symmetry;
      apply countz_none; [destruct (off_split x Hx); lia|]; intros p Hp; unfold emp; apply andb_false_iff; right;
      destruct (off_split x Hx) as (? & ? & ?);
      (destruct (Z.lt_ge_cases (1024 * p) x) as [Hl|Hg];
        [apply (page_used A p (x - 1)); [apply (bf_used _ _ _ _ Hbef)|]; lia
        |apply not_true_iff_false; rewrite page_free_spec; intros Hpf; apply (Hnone p); [lia|lia|done]])]).
  - destruct Hres as [(? & _)|(_ & ? & _)]; lia.
  - pose proof (emp_step x bo bits cb Hx Hres Hlt Hbef) as Hemp.
    destruct Hres as [(? & _)|(_ & Hxb & Hb & He & Hfree & Hbef' & Hnone & Haft & Hprev)]; [lia|].
    assert (Hu : exists cbs', pcpu_chunk_update (with_contig cb cbs) bo bits = with_contig (Z.max cb bits) cbs'
      /\ 0 <= cbs' <= M /\ cbs' + Z.max cb bits <= M /\ free_on A cbs' (cbs' + Z.max cb bits)).
    { unfold pcpu_chunk_update. cbn [set_contig contig_bits contig_bits_start]. rewrite Z.gtb_ltb.
      destruct (Z.ltb_spec cb bits); [exists bo; rewrite Z.max_r by lia; by split_and!; try lia|].
      rewrite Z.max_l by lia. destruct (Z.eqb_spec bits cb) as [->|]; cbn [andb].
      - destruct (Hrun ltac:(lia)) as [? ?]. destruct (negb _ && _); [exists bo|exists cbs]; by split_and!; try lia.
      - destruct (Hrun ltac:(lia)) as [? ?]. exists cbs. by split_and!; try lia. }
    destruct Hu as (cbs' & -> & Hc1 & Hc2 & Hc3).
    rewrite (cnt_pop_pages_spec (with_contig (Z.max cb bits) cbs')) by (done || lia || (destruct Hshape; by split)).
    cbn [obind set_contig populated]. rewrite <- Hemp. replace (bo + (bits + 1)) with (bo + bits + 1) by lia.
    apply IH; try done; try lia. 
Qed.

(** pcpu_chunk_refresh_hint() makes the hint exact and counts the empty
    populated pages. *)
Lemma chunk_refresh_hint_spec rsv total :
  0 <= first_bit c <= M -> (forall i, 0 <= i < first_bit c -> A i = true) -> 0 <= contig_bits_start c <= M ->
  exists cb cbs, pcpu_chunk_refresh_hint rsv c total
      = Ret (set_nr_empty (countz emp N) (with_contig cb cbs),
             if rsv then total else total + (countz emp N - nr_empty_pop_pages c))
    /\ contig_exact A (with_contig cb cbs) /\ 0 <= cbs <= M.
Proof.
  intros Hfb Hused Hcbs. pose proof (cs_pages _ Hshape) as Hpages. unfold pcpu_chunk_refresh_hint.
  assert (Hrun0 : forall s e, 0 <= s <= e -> e <= first_bit c -> free_on A s e -> e - s <= 0).
  { intros s e Hs He Hf. destruct (Z.eq_dec s e); [lia|]. specialize (Hf s ltac:(lia)). rewrite Hused in Hf by lia. done. }
  assert (Hz : countz emp (Z.min (first_bit c / 1024) N) = 0).
  { rewrite (countz_none emp 0); [done|destruct (off_split (first_bit c)); lia|]. intros p Hp. unfold emp. apply andb_false_iff. right.
    destruct (off_split (first_bit c) ltac:(lia)) as (? & ? & ?). apply (page_used A p (1024 * p)); [apply Hused|]; lia. }
  destruct (refresh_loop_spec (Z.to_nat (pcpu_chunk_map_bits c)) 0 (contig_bits_start c) (first_bit c)) as (cb & cbs & E & Hex & Hc);
    [lia| |lia|lia|lia|rewrite map_bits_eq; lia|].
  { split; [lia| |intros; apply Hused; lia|].
    - intros s e Hs He Hf. apply Hrun0; [done|lia|done].
    - intros b Hy Eb Hc Hcs. pose proof (md_of A c Hok (first_bit c / 1024) b Eb) as Hb.
      destruct (off_split (first_bit c) ltac:(lia)) as (Hq & Hr & Ex).
      specialize (Hb ltac:(lia)). destruct (hint_whole _ _ Hb Hc) as [? Hf _ _]. apply blk_free in Hf.
      specialize (Hf (1024 * (first_bit c / 1024) + contig_hint_start b) ltac:(lia)). rewrite Hused in Hf by lia. done. }
  rewrite Hz in E. rewrite E. cbn [obind]. exists cb, cbs. split; [|by split]. by destruct rsv.
Qed.
End Refresh.
