(* ===== verification/PercpuAlloc.v ===== *)
(** * The per-CPU allocator: allocating an area of a chunk

    The invariant of a chunk ([chunk_ok]) for a map of live areas, the search
    for a fitting region, and pcpu_alloc_area(). *)

From S2P Require Import Prelude Bitops Memblock Bitmap BitmapSpec Percpu PercpuBlock PercpuRefresh.
From stdpp Require Import base list numbers option gmap.
#[local] Open Scope Z_scope.
#[local] Open Scope kernel_scope.

(** Live areas of a chunk of [M] bits: first bit and length of each, against
    the allocation map [A] and the boundary map [B]. *)
Record areas_ok (A B : Z -> bool) (M : Z) (live : gmap Z Z) : Prop := {
  ar_range : forall o n, live !! o = Some n -> 0 <= o /\ 0 < n /\ o + n <= M;
  ar_used : forall o n i, live !! o = Some n -> o <= i < o + n -> A i = true;
  ar_cover : forall i, 0 <= i < M -> A i = true -> exists o n, live !! o = Some n /\ o <= i < o + n;
  ar_disjoint : forall o1 n1 o2 n2, live !! o1 = Some n1 -> live !! o2 = Some n2 -> o1 <> o2 -> o1 + n1 <= o2 \/ o2 + n2 <= o1;
  ar_bound : forall o n, live !! o = Some n -> (forall i, o < i < o + n -> B i = false) /\ B (o + n) = true
}.

Record chunk_ok (live : gmap Z Z) (c : pcpu_chunk) : Prop := {
  ck_shape : chunk_shape c;
  ck_hints : hints_ok (used c) c;
  ck_first : 0 <= first_bit c <= 1024 * nr_pages c /\ forall i, 0 <= i < first_bit c -> used c i = true;
  ck_contig : 0 <= contig_bits c <= 1024 * nr_pages c /\ 0 <= contig_bits_start c <= 1024 * nr_pages c;
  ck_free : free_bytes c = 4 * (1024 * nr_pages c - countz (used c) (1024 * nr_pages c));
  ck_areas : areas_ok (used c) (bit (bound_map c)) (1024 * nr_pages c) live
}.

(** What the hint updates may change of a chunk. *)
Definition rehinted (c c' : pcpu_chunk) : Prop :=
  exists mds cb cbs n, c' = set_nr_empty n (set_contig cb cbs (set_md_blocks mds c)).

(** The hints after an update: right for [A], and the hint of the chunk in range. *)
Record hinted (A : Z -> bool) (c c' : pcpu_chunk) : Prop := {
  hd_same : rehinted c c';
  hd_shape : chunk_shape c';
  hd_hints : hints_ok A c';
  hd_contig : 0 <= contig_bits c' <= 1024 * nr_pages c' /\ 0 <= contig_bits_start c' <= 1024 * nr_pages c'
}.

Lemma refresh_hinted A rsv c mds total :
  let c1 := set_md_blocks mds c in
  chunk_shape c1 -> hints_ok A c1 ->
  0 <= first_bit c <= 1024 * nr_pages c -> (forall i, 0 <= i < first_bit c -> A i = true) ->
  0 <= contig_bits_start c <= 1024 * nr_pages c ->
  exists c' t', pcpu_chunk_refresh_hint rsv c1 total = Ret (c', t') /\ hinted A c c' /\ contig_exact A c'.
Proof.
  intros c1 Hs Hok Hfb Hu Hcbs.
  destruct (chunk_refresh_hint_spec A c1 Hs Hok rsv total Hfb Hu Hcbs) as (cb & cbs & -> & Hex & Hc).
  eexists _, _. split; [reflexivity|]. assert (Hex' := Hex). destruct Hex' as [H0 _ Hmax]. cbn in *.
  split; [|destruct Hex as [? ? ?]; by split].
  split; [by eexists _, _, _, _|destruct Hs; by split|done|]. cbn. split; [split; [lia|]|lia].
  destruct Hex as [_ Hr _]. cbn in Hr. destruct (Z.eq_dec cb 0); [lia|]. specialize (Hr ltac:(lia)). lia.
Qed.

(** ** Hints on the allocation path *)

(** The bits [bo, bo + bits) were free and are taken now. *)
Definition bits_taken (A A' : Z -> bool) (bo bits : Z) : Prop :=
  free_on A bo (bo + bits) /\ forall i, 0 <= i -> A' i = if (bo <=? i) && (i <? bo + bits) then true else A i.

Lemma update_hint_alloc_spec A rsv c total bo bits :
  chunk_shape c -> hints_ok A c -> bits_taken A (used c) bo bits -> 0 <= bo -> 0 < bits -> bo + bits <= 1024 * nr_pages c ->
  0 <= first_bit c <= 1024 * nr_pages c -> (forall i, 0 <= i < first_bit c -> used c i = true) ->
  0 <= contig_bits c <= 1024 * nr_pages c -> 0 <= contig_bits_start c <= 1024 * nr_pages c ->
  exists c' t', pcpu_block_update_hint_alloc rsv c total bo bits = Ret (c', t') /\ hinted (used c) c c'
    /\ (contig_bits_start c <= bo < contig_bits_start c + contig_bits c /\ contig_exact (used c) c'
        \/ ~ (contig_bits_start c <= bo < contig_bits_start c + contig_bits c)
           /\ contig_bits c' = contig_bits c /\ contig_bits_start c' = contig_bits_start c).
Proof.
  intros Hs Hok [Hfree Hbits] Hbo Hb0 He Hfb Hfu Hcb Hcbs. unfold pcpu_block_update_hint_alloc. rewrite !off_index, !off_off.
  destruct (off_split bo Hbo) as (Hsi & Hso & Es). destruct (off_split (bo + bits - 1) ltac:(lia)) as (Hei & Heo & Ee).
  set (si := bo / 1024) in *. set (so := bo mod 1024) in *. set (ei := (bo + bits - 1) / 1024) in *. set (eo := (bo + bits - 1) mod 1024) in *.
  assert (Hse : si <= ei < nr_pages c) by lia.
  (* the part of a block that is taken *)
  assert (Htk : forall i s e, si <= i <= ei -> 0 <= s < e -> e <= 1024 ->
    (forall j, 0 <= j < 1024 -> (s <= j < e <-> bo <= 1024 * i + j < bo + bits)) -> taken (blk A i) (blk (used c) i) s e).
  { intros i s e Hi Hs1 Hs2 Hj. split; [lia| |].
    - intros j Hjr. unfold blk. apply Hfree. apply Hj; lia.
    - intros j Hj'. unfold blk. rewrite Hbits by lia. specialize (Hj j Hj').
      destruct (Z.leb_spec bo (1024 * i + j)), (Z.ltb_spec (1024 * i + j) (bo + bits)), (Z.leb_spec s j), (Z.ltb_spec j e); cbn [andb]; done || lia. }
  destruct (blocks_all_md _ c si Hok ltac:(lia)) as (bs & Ebs & Hbs).
  destruct (alloc_s_block_spec c A si ei so (eo + 1) bits bs) as (bs' & -> & Hbs'); try done; [lia| | | |].
  { destruct (Z.eqb_spec si ei) as [Eq|Nq]; apply Htk; try lia; intros j Hj; lia. }
  { destruct (Z.eqb_spec si ei) as [Eq|Nq]; lia. }
  { intros j Hj Hj'. unfold blk. rewrite Hbits by lia. by destruct (Z.leb_spec bo (1024 * si + j)), (Z.ltb_spec (1024 * si + j) (bo + bits)); try lia. }
  cbn [obind].
  (* blocks outside [si, ei] see no change *)
  assert (Hout : forall i b, ~ (si <= i <= ei) -> 0 <= i < nr_pages c -> block_ok (blk A i) b -> block_ok (blk (used c) i) b).
  { intros i b Hi Hin Hb. eapply block_ok_ext; [|exact Hb]. intros j Hj. unfold blk. rewrite Hbits by lia.
    by destruct (Z.leb_spec bo (1024 * i + j)), (Z.ltb_spec (1024 * i + j) (bo + bits)); try lia. }
  assert (Hmid : exists mds, (if negb (si =? ei)
      then let! (c', e) := alloc_e_block (put_block c si bs') ei (eo + 1) in
           blocks_loop (Z.to_nat (e - (si + 1))) block_used c' (si + 1)
      else Ret (put_block c si bs')) = Ret (set_md_blocks mds c)
    /\ chunk_shape (set_md_blocks mds c) /\ hints_ok (used c) (set_md_blocks mds c)).
  { destruct (Z.eqb_spec si ei) as [Eq|Nq]; cbn [negb].
    - exists (<[Z.to_nat si := bs']> (md_blocks c)). split_and!; [done|by apply put_block_shape|].
      refine (blocks_all_impl _ _ _ (blocks_all_put _ (fun i b => i = si /\ block_ok (blk (used c) i) b \/ i <> si /\ block_ok (blk A i) b) c si bs' Hs Hok ltac:(lia) _ _) _).
      + by left.
      + intros j b Hne Hb. by right.
      + intros i b Hi [[-> Hb]|[Hne Hb]]; [done|]. apply Hout; [lia|done|done].
    - destruct (blocks_all_md _ c ei Hok ltac:(lia)) as (be & Ebe & Hbe).
      destruct (alloc_e_block_spec (put_block c si bs') A ei (eo + 1) be) as (be' & -> & Hw1 & Hw2 & Hbe').
      { by apply put_block_shape. } { cbn. lia. }
      { rewrite md_block_put by (rewrite ?(cs_md _ Hs); lia). by destruct (Z.eqb_spec ei si); [lia|]. }
      { done. } { apply Htk; try lia; intros j Hj; lia. }
      cbn [obind].
      set (R i b := i = si /\ block_ok (blk (used c) i) b
        \/ i = ei /\ (0 <= contig_hint_start b <= 1024 /\ 0 <= first_free b <= 1024 /\ (eo + 1 < 1024 -> block_ok (blk (used c) i) b))
        \/ i <> si /\ i <> ei /\ block_ok (blk A i) b).
      destruct (blocks_loop_spec (fun i b => 0 <= i < nr_pages c -> block_ok (blk (used c) i) b) block_used
        (Z.to_nat ((if eo + 1 =? 1024 then ei + 1 else ei) - (si + 1))) R (put_block (put_block c si bs') ei be') (si + 1)) as (mds & -> & Hs' & H').
      + by apply put_block_shape, put_block_shape.
      + refine (blocks_all_put (fun i b => i = si /\ block_ok (blk (used c) i) b \/ i <> si /\ block_ok (blk A i) b) R _ _ _ _ _ _ _ _);
          [by apply put_block_shape| |cbn; lia|unfold R; tauto|unfold R; tauto].
        refine (blocks_all_put _ _ _ _ _ Hs Hok _ _ _); [lia|by left|]. intros j b Hne Hb. by right.
      + lia.
      + cbn. destruct (Z.eqb_spec (eo + 1) 1024); lia.
      + intros i b Hi HR Hin. unfold block_used.
        assert (Hall : forall j, 0 <= j < 1024 -> blk (used c) i j = true).
        { intros j Hj. unfold blk. rewrite Hbits by lia.
          destruct (Z.eqb_spec (eo + 1) 1024); by destruct (Z.leb_spec bo (1024 * i + j)), (Z.ltb_spec (1024 * i + j) (bo + bits)); try lia. }
        destruct HR as [[-> ?]|[(-> & ? & ? & _)|(_ & _ & Hb)]]; [lia|by apply used_ok|].
        destruct Hb as [[? _] _ _ _ (_ & ? & _)]. by apply used_ok.
      + intros i b Hi [[-> Hb]|[(-> & _ & _ & Hb)|(N1 & N2 & Hb)]] Hin; [done| |].
        * apply Hb. destruct (Z.eqb_spec (eo + 1) 1024); lia.
        * apply Hout; [|done|done]. destruct (Z.eqb_spec (eo + 1) 1024); lia.
      + exists mds. split_and!; [done|done|]. eapply blocks_all_impl; [exact H'|]. intros i b Hi Hb. by apply Hb. }
  destruct Hmid as (mds & -> & Hs' & Hok'). cbn [obind contig_bits contig_bits_start set_md_blocks]. rewrite Z.geb_leb.
  destruct (Z.leb_spec (contig_bits_start c) bo), (Z.ltb_spec bo (contig_bits_start c + contig_bits c)); cbn [andb].
  { destruct (refresh_hinted (used c) rsv c mds total Hs' Hok' Hfb Hfu Hcbs) as (c' & t' & -> & Hh & Hex). exists c', t'. split; [done|]. split; [done|]. by left. }
  all: eexists _, _; split; [reflexivity|]; split; [split; [|done|done|done]|right; split; [lia|done]].
  all: exists mds, (contig_bits c), (contig_bits_start c), (nr_empty_pop_pages c); by destruct c.
Qed.

(** Taking bits outside the exact hint leaves it exact. *)
Lemma contig_exact_taken A c c' bo bits :
  contig_exact A c -> bits_taken A (used c') bo bits -> 0 <= bo -> 0 < bits -> bo + bits <= 1024 * nr_pages c -> nr_pages c' = nr_pages c ->
  contig_bits_start c <= bo < contig_bits_start c + contig_bits c /\ contig_exact (used c') c'
  \/ ~ (contig_bits_start c <= bo < contig_bits_start c + contig_bits c)
     /\ contig_bits c' = contig_bits c /\ contig_bits_start c' = contig_bits_start c ->
  contig_exact (used c') c'.
Proof.
  intros [H0 Hrun Hmax] [Hfree HA] Hbo Hbits HM Hp [[_ ?]|(Hout & E1 & E2)]; [done|].
  assert (Hmono : forall i, 0 <= i -> used c' i = false -> A i = false) by (intros i Hi; rewrite HA by lia; by destruct (_ && _)).
  split; rewrite ?E1, ?E2, ?Hp; [done| |].
  - intros Hcb. destruct (Hrun Hcb) as (Hs & He & Hf). split; [done|]. split; [done|]. intros i Hi. rewrite HA by lia.
    destruct (Z.leb_spec bo i), (Z.ltb_spec i (bo + bits)); cbn [andb]; try (apply Hf; lia). exfalso.
    assert (Hlong : free_on A bo (contig_bits_start c + contig_bits c)).
    { intros j Hj. destruct (Z.lt_ge_cases j (bo + bits)); [apply Hfree|apply Hf]; lia. }
    specialize (Hmax bo (contig_bits_start c + contig_bits c) ltac:(lia) He Hlong). lia.
  - intros s e Hs He Hf. apply Hmax; [done|done|]. intros i Hi. apply Hmono; [lia|by apply Hf].
Qed.

(** ** The search for a fitting region *)

Lemma ALIGN_pow2_spec x k : 0 <= k -> ALIGN x (2 ^ k) = align_up x k.
Proof.
  intros Hk. unfold ALIGN, align_up. replace (x + (2 ^ k - 1)) with (x + 2 ^ k - 1) by lia. set (y := x + 2 ^ k - 1).
  rewrite <- Z.shiftr_div_pow2, <- Z.shiftl_mul_pow2, <- Z.ldiff_ones_r by lia.
  replace (2 ^ k - 1) with (Z.ones k) by (rewrite Z.ones_equiv; lia). by rewrite Z.ldiff_land.
Qed.

Lemma pow2_divide_block k i : 0 <= k <= 10 -> (2 ^ k | 1024 * i).
Proof.
  intros Hk. apply Z.divide_mul_l. exists (2 ^ (10 - k)). rewrite <- Z.pow_add_r by lia. by replace (10 - k + k) with 10 by lia.
Qed.

(** Aligning an offset inside a block stays inside it. *)
Lemma align_block x k : 0 <= k <= 10 -> 0 <= x <= 1024 -> x <= align_up x k <= 1024 /\ (2 ^ k | align_up x k).
Proof.
  intros Hk Hx. destruct (align_up_bounds x k) as [? ?]; [lia|]. split; [|done]. split; [lia|].
  apply align_up_least; [lia|lia|]. apply (pow2_divide_block k 1 Hk).
Qed.

Lemma align_up_0 k : 0 <= k -> align_up 0 k = 0.
Proof.
  intros Hk. destruct (align_up_bounds 0 k Hk) as [Hb _]. pose proof (align_up_least 0 k 0 Hk ltac:(lia) ltac:(apply Z.divide_0_r)). lia.
Qed.

(** A region [bo, bo + bs) holds an aligned free area of [n] bits that begins
    within a block of it. *)
Record fits (A : Z -> bool) (M n k bo bs : Z) : Prop := {
  ft_bo : 0 <= bo < M;
  ft_end : bo + bs <= M;
  ft_area : exists s, bo <= s <= bo + 1024 /\ (2 ^ k | s) /\ free_on A s (s + n) /\ s + n <= bo + bs
}.

Section Fit.
Context (A : Z -> bool) (c : pcpu_chunk) (Hok : hints_ok A c) (Hpages : 0 < nr_pages c).
Context (n k : Z) (Hn : 0 < n) (Hk : 0 <= k <= 10).
Abbreviation N := (nr_pages c).
Abbreviation M := (1024 * nr_pages c).

Lemma next_fit_loop_spec x : forall m i block_off bit_off bits,
  i + Z.of_nat m = N -> 0 <= x <= i ->
  (bits = 0 \/ (0 < bits /\ bits = 1024 * i - bit_off /\ free_on A bit_off (1024 * i) /\ (2 ^ k | bit_off) /\ 1024 * x <= bit_off)) ->
  exists bo bs, next_fit_loop m c n (2 ^ k) i block_off bit_off bits = Ret (bo, bs)
    /\ (bo = M \/ (1024 * x <= bo /\ fits A M n k bo bs)).
Proof.
  induction m as [|m IH]; intros i block_off bit_off bits Him Hx Hst; cbn [next_fit_loop].
  { rewrite map_bits_eq. eexists _, _. split; [reflexivity|]. by left. }
  destruct (blocks_all_md _ _ i Hok ltac:(lia)) as (b & E & Hbk). rewrite E. cbn [obind].
  pose proof (bk_left _ _ Hbk) as (Hl0 & Hl1 & _). pose proof (bk_right _ _ Hbk) as (Hr0 & Hr1 & _).
  pose proof (bk_hint _ _ Hbk) as (Hc0 & Hcs & Hh). apply blk_free in Hl1, Hr1. rewrite Z.add_0_r in Hl1.
  rewrite !Z.geb_leb. unfold PCPU_BITMAP_BLOCK_BITS, pcpu_block_off_to_off.
  (* the check of the block itself *)
  assert (Hcheck : exists bo bs,
    (if negb (contig_hint b =? 0) && (block_off <=? contig_hint_start b)
        && (ALIGN (contig_hint_start b) (2 ^ k) - contig_hint_start b + n <=? contig_hint b)
     then Ret (i * 1024 + first_free b, ALIGN (contig_hint_start b) (2 ^ k) - contig_hint_start b + (n + contig_hint_start b - first_free b))
     else if n <=? 1024 - ALIGN (1024 - right_free b) (2 ^ k)
       then Ret (i * 1024 + ALIGN (1024 - right_free b) (2 ^ k), 1024 - ALIGN (1024 - right_free b) (2 ^ k))
       else next_fit_loop m c n (2 ^ k) (i + 1) 0 (i * 1024 + ALIGN (1024 - right_free b) (2 ^ k)) (1024 - ALIGN (1024 - right_free b) (2 ^ k))) = Ret (bo, bs)
    /\ (bo = M \/ (1024 * x <= bo /\ fits A M n k bo bs))).
  { rewrite !ALIGN_pow2_spec by lia. destruct (align_block (1024 - right_free b) k Hk ltac:(lia)) as [Har Hard].
    set (ar := align_up (1024 - right_free b) k) in *.
    destruct (Z.eqb_spec (contig_hint b) 0) as [|Nc]; cbn [negb andb];
      [|destruct (Z.leb_spec block_off (contig_hint_start b)); cbn [andb]; [destruct (Z.leb_spec (align_up (contig_hint_start b) k - contig_hint_start b + n) (contig_hint b)) as [Hfit|]|]].
    2: { destruct (align_block (contig_hint_start b) k Hk Hcs) as [Hac Hacd]. set (ac := align_up (contig_hint_start b) k) in *.
         destruct (Hh ltac:(lia)) as [Hce Hcf]. apply blk_free in Hcf. pose proof (hint_first _ _ Hbk ltac:(lia)).
         pose proof (bk_first _ _ Hbk) as [? _].
         eexists _, _. split; [reflexivity|]. right. split; [lia|]. split; [lia|lia|].
         exists (1024 * i + ac). split_and!; [lia|lia| | |lia].
         - apply Z.divide_add_r; [by apply pow2_divide_block|done].
         - eapply free_on_weaken; [exact Hcf|lia|lia]. }
    all: destruct (Z.leb_spec n (1024 - ar)) as [Hfit'|].
    all: try (eexists _, _; split; [reflexivity|]; right; split; [lia|]; split; [lia|lia|];
              exists (1024 * i + ar); split_and!; [lia|lia|apply Z.divide_add_r; [by apply pow2_divide_block|done]
                |eapply free_on_weaken; [exact Hr1|lia|lia]|lia]).
    all: apply IH; [lia|lia|]; destruct (Z.eq_dec ar 1024); [left; lia|right]; split_and!; [lia|lia| | |lia];
      [eapply free_on_weaken; [exact Hr1|lia|lia]
      |replace (i * 1024) with (1024 * i) by lia; apply Z.divide_add_r; [by apply pow2_divide_block|done]]. }
  destruct Hst as [->|(Hb & Eb & Hfree & Hd & Hxb)]; cbn [Z.eqb negb andb]; [exact Hcheck|].
  destruct (Z.eqb_spec bits 0); [lia|]. cbn [negb andb].
  assert (Hjoin : free_on A bit_off (1024 * i + left_free b)) by (by eapply free_on_join).
  destruct (Z.leb_spec n (bits + left_free b)) as [Hfit|].
  - eexists _, _. split; [reflexivity|]. right. split; [lia|]. split; [lia|lia|]. exists bit_off.
    split_and!; [lia|lia|done| |lia]. eapply free_on_weaken; [exact Hjoin|lia|lia].
  - destruct (Z.eqb_spec (left_free b) 1024) as [El|]; [|exact Hcheck].
    apply IH; [lia|lia|]. right. split_and!; [lia|lia| |done|lia].
    replace (1024 * (i + 1)) with (1024 * i + left_free b) by lia. done.
Qed.

Lemma next_fit_region_spec x : 0 <= x ->
  exists bo bs, pcpu_next_fit_region c n (2 ^ k) x = Ret (bo, bs)
    /\ (bo = M \/ (1024 * (x / 1024) <= bo /\ fits A M n k bo bs)).
Proof.
  intros Hx. unfold pcpu_next_fit_region. rewrite nr_blocks_eq, off_index, off_off. destruct (off_split x Hx) as (Hq & _ & _).
  destruct (Z.lt_ge_cases (x / 1024) N) as [Hlt|Hge].
  - apply next_fit_loop_spec; [lia|lia|by left].
  - replace (Z.to_nat (N - x / 1024)) with 0%nat by lia. cbn [next_fit_loop]. rewrite map_bits_eq. eexists _, _. split; [reflexivity|]. by left.
Qed.

(** A run that exceeds the request by the alignment twice is found: up to
    [2 ^ k - 1] bits are lost before its aligned part, and as many again where
    a block offers another run than its first one. *)
Lemma next_fit_loop_complete : forall m i block_off bit_off bits,
  i + Z.of_nat m = N -> 0 <= i -> runs_below A (1024 * i) (n + 2 * (2 ^ k - 1) - 1) ->
  (bits = 0 \/ (0 < bits /\ bits = 1024 * i - bit_off /\ 0 <= bit_off)) ->
  (forall s, 0 <= s <= 1024 * i -> free_on A s (1024 * i) -> 1024 * i - bits - (2 ^ k - 1) <= s) -> (0 < bits -> block_off = 0) ->
  (i < N -> forall b, md_block c i = Ret b -> 0 < contig_hint b -> block_off <= contig_hint_start b) ->
  (exists bs, next_fit_loop m c n (2 ^ k) i block_off bit_off bits = Ret (M, bs)) -> runs_below A M (n + 2 * (2 ^ k - 1) - 1).
Proof.
  assert (Hw : 0 <= 2 ^ k - 1) by (pose proof (Z.pow_pos_nonneg 2 k); lia).
  induction m as [|m IH]; intros i block_off bit_off bits Him Hi Hruns Hst Hst0 Hz Hoff [bs' HR].
  { by replace N with i by lia. }
  cbn [next_fit_loop] in HR.
  destruct (blocks_all_md _ _ i Hok ltac:(lia)) as (b & E & Hbk). rewrite E in HR. cbn [obind] in HR.
  pose proof (bk_left _ _ Hbk) as (Hl0 & Hl1 & Hl2). pose proof (bk_right _ _ Hbk) as (Hr0 & Hr1 & Hr2).
  pose proof (bk_hint _ _ Hbk) as (Hc0 & Hcs & Hh). pose proof (bk_first _ _ Hbk) as [Hf0 _].
  pose proof (bk_max _ _ Hbk 0 (left_free b) ltac:(lia) ltac:(lia) Hl1) as Hlc.
  rewrite !Z.geb_leb in HR. unfold PCPU_BITMAP_BLOCK_BITS, pcpu_block_off_to_off in HR.
  (* a run that ends in this block and is too short everywhere *)
  assert (Hin : contig_hint b <= n + (2 ^ k - 1) - 1 -> (0 < bits -> bits + left_free b <= n - 1) -> runs_below A (1024 * (i + 1)) (n + 2 * (2 ^ k - 1) - 1)).
  { intros Hc Hspan s e Hs He Hf. destruct (Z.le_gt_cases e (1024 * i)); [by apply Hruns|]. destruct (Z.eq_dec s e); [lia|].
    destruct (Z.le_gt_cases (1024 * i) s) as [Hs1|Hs1].
    - pose proof (bk_max _ _ Hbk (s - 1024 * i) (e - 1024 * i) ltac:(lia) ltac:(lia)) as H'.
      assert (free_on (blk A i) (s - 1024 * i) (e - 1024 * i)) as Hfb by (apply blk_free; eapply free_on_weaken; [exact Hf|lia|lia]).
      specialize (H' Hfb). lia.
    - specialize (Hst0 s ltac:(lia) ltac:(eapply free_on_weaken; [exact Hf|lia|lia])).
      assert (e <= 1024 * i + left_free b); [|destruct Hst; lia].
      destruct (Z.eq_dec (left_free b) 1024); [lia|]. specialize (Hl2 ltac:(lia)). unfold blk in Hl2.
      destruct (run_cut A s e _ Hf Hl2); lia. }
  (* the check of the block itself *)
  assert (Hcheck : (0 < bits -> bits + left_free b <= n - 1 /\ left_free b < 1024) ->
    (if negb (contig_hint b =? 0) && (block_off <=? contig_hint_start b)
        && (ALIGN (contig_hint_start b) (2 ^ k) - contig_hint_start b + n <=? contig_hint b)
     then Ret (i * 1024 + first_free b, ALIGN (contig_hint_start b) (2 ^ k) - contig_hint_start b + (n + contig_hint_start b - first_free b))
     else if n <=? 1024 - ALIGN (1024 - right_free b) (2 ^ k)
       then Ret (i * 1024 + ALIGN (1024 - right_free b) (2 ^ k), 1024 - ALIGN (1024 - right_free b) (2 ^ k))
       else next_fit_loop m c n (2 ^ k) (i + 1) 0 (i * 1024 + ALIGN (1024 - right_free b) (2 ^ k)) (1024 - ALIGN (1024 - right_free b) (2 ^ k))) = Ret (M, bs')
    -> runs_below A M (n + 2 * (2 ^ k - 1) - 1)).
  { rewrite !ALIGN_pow2_spec by lia. intros Hspan HR'.
    destruct (align_up_bounds (contig_hint_start b) k ltac:(lia)) as [Hac _]. destruct (align_up_bounds (1024 - right_free b) k ltac:(lia)) as [Har _].
    destruct (align_block (1024 - right_free b) k Hk ltac:(lia)) as [Har' _].
    set (ac := align_up (contig_hint_start b) k) in *. set (ar := align_up (1024 - right_free b) k) in *.
    assert (Hc : contig_hint b <= n + (2 ^ k - 1) - 1).
    { destruct (Z.le_gt_cases (contig_hint b) (n + (2 ^ k - 1) - 1)); [done|exfalso].
      specialize (Hoff ltac:(lia) b E ltac:(lia)). pose proof (hint_first _ _ Hbk ltac:(lia)). destruct (Hh ltac:(lia)) as [? _].
      destruct (Z.eqb_spec (contig_hint b) 0), (Z.leb_spec block_off (contig_hint_start b)), (Z.leb_spec (ac - contig_hint_start b + n) (contig_hint b)); cbn [negb andb] in HR'; try lia.
      injection HR' as HR' _. lia. }
    assert (Hnext : (if n <=? 1024 - ar then Ret (i * 1024 + ar, 1024 - ar) else next_fit_loop m c n (2 ^ k) (i + 1) 0 (i * 1024 + ar) (1024 - ar)) = Ret (M, bs')).
    { destruct (negb _ && _ && _) eqn:Eg in HR'; [|done]. rewrite !andb_true_iff, negb_true_iff, Z.eqb_neq, !Z.leb_le in Eg. destruct Eg as [[Eg _] _].
      pose proof (hint_first _ _ Hbk ltac:(lia)). destruct (Hh ltac:(lia)) as [? _]. injection HR' as HR' _. lia. }
    clear HR'. destruct (Z.leb_spec n (1024 - ar)) as [Hx|Hx]; [injection Hnext as HR' _; lia|].
    refine (IH (i + 1) 0 (i * 1024 + ar) (1024 - ar) ltac:(lia) ltac:(lia) (Hin Hc ltac:(intros Hb'; apply (Hspan Hb'))) _ _ ltac:(done) _ (ex_intro _ bs' Hnext)).
    - destruct (Z.eq_dec ar 1024); [left; lia|right; lia].
    - intros s Hs Hfs. destruct (Z.eq_dec (right_free b) 1024) as [E1|E1].
      + destruct (Z.le_gt_cases (1024 * i) s); [lia|]. specialize (Hst0 s ltac:(lia) ltac:(eapply free_on_weaken; [exact Hfs|lia|lia])).
        assert (ar = 0) by (subst ar; rewrite E1, Z.sub_diag; apply align_up_0; lia).
        destruct (Z.eq_dec bits 0); [lia|]. destruct (Hspan ltac:(destruct Hst; lia)) as [_ Hlf]. specialize (Hl2 Hlf). rewrite (Hr1 (left_free b)) in Hl2 by lia. done.
      + specialize (Hr2 ltac:(lia)). unfold blk in Hr2. destruct (run_cut A s (1024 * (i + 1)) _ Hfs Hr2); lia.
    - intros Hlt b' Eb' _. apply (bk_hint _ _ (md_of A c Hok _ _ Eb' ltac:(lia))). }
  destruct Hst as [->|(Hb & Eb & Hb0)]; cbn [Z.eqb negb andb] in HR; [by apply Hcheck; [lia|]|].
  destruct (Z.eqb_spec bits 0); [lia|]. cbn [negb andb] in HR.
  destruct (Z.leb_spec n (bits + left_free b)) as [Hfit|Hno]; [injection HR as HR _; lia|].
  destruct (Z.eqb_spec (left_free b) 1024) as [El|]; [|by apply Hcheck; [lia|]].
  assert (Hcl : contig_hint b <= n + (2 ^ k - 1) - 1) by (destruct (Z.eq_dec (contig_hint b) 0); [lia|]; destruct (Hh ltac:(lia)); lia).
  refine (IH (i + 1) block_off bit_off (bits + left_free b) ltac:(lia) ltac:(lia) (Hin Hcl ltac:(lia)) ltac:(right; lia) _ ltac:(lia) _ (ex_intro _ bs' HR)).
  - intros s Hs Hfs. destruct (Z.le_gt_cases (1024 * i) s); [lia|]. specialize (Hst0 s ltac:(lia) ltac:(eapply free_on_weaken; [exact Hfs|lia|lia])). lia.
  - intros Hlt b' Eb' _. rewrite (Hz Hb). apply (bk_hint _ _ (md_of A c Hok _ _ Eb' ltac:(lia))).
Qed.

(** In a chunk without used bits the first blocks together are enough. *)
Lemma next_fit_whole : forall m i, i + Z.of_nat m = N -> 0 <= i -> n <= M -> 1024 * i < n ->
  (forall j, 0 <= j < M -> A j = false) -> exists bs, next_fit_loop m c n (2 ^ k) i 0 0 (1024 * i) = Ret (0, bs).
Proof.
  induction m as [|m IH]; intros i Him Hi HnM Hlt Hall; [lia|]. cbn [next_fit_loop].
  destruct (blocks_all_md _ _ i Hok ltac:(lia)) as (b & -> & Hbk). cbn [obind].
  assert (Hfree : forall s e, 0 <= s -> e <= 1024 -> free_on (blk A i) s e) by (intros s e Hs He j Hj; apply Hall; lia).
  destruct Hbk as [[Hf0 Hf] (Hl0 & _ & Hl) (Hr0 & _ & Hr) Hm (Hc0 & Hcs & Hc)].
  assert (Hll : left_free b = 1024) by (destruct (Z.eq_dec (left_free b) 1024); [done|]; rewrite (Hfree 0 1024) in Hl by lia; specialize (Hl ltac:(lia)); done).
  assert (Hrr : right_free b = 1024) by (destruct (Z.eq_dec (right_free b) 1024); [done|]; rewrite (Hfree 0 1024) in Hr by lia; specialize (Hr ltac:(lia)); done).
  assert (Hff : first_free b = 0) by (destruct (Z.eq_dec (first_free b) 0); [done|]; specialize (Hf 0 ltac:(lia)); rewrite (Hfree 0 1024) in Hf by lia; done).
  specialize (Hm 0 1024 ltac:(lia) ltac:(lia) (Hfree 0 1024 ltac:(lia) ltac:(lia))). destruct (Hc ltac:(lia)) as [Hc1 _].
  assert (Ehs : contig_hint_start b = 0) by lia. assert (Ehc : contig_hint b = 1024) by lia.
  rewrite Ehs, Ehc, Hll, Hrr, Hff, !Z.geb_leb. unfold PCPU_BITMAP_BLOCK_BITS, pcpu_block_off_to_off. rewrite Z.sub_diag, ALIGN_pow2_spec, align_up_0 by lia.
  destruct (Z.eqb_spec (1024 * i) 0) as [E0|E0]; cbn [negb andb].
  - assert (i = 0) by lia. subst i. rewrite Z.sub_0_r. destruct (Z.leb_spec n 1024) as [Hle|Hgt].
    + rewrite (proj2 (Z.leb_le (0 + n) 1024)) by lia. cbn. eauto.
    + rewrite (proj2 (Z.leb_gt (0 + n) 1024)) by lia. rewrite andb_false_r, (proj2 (Z.leb_gt n (1024 - 0))) by lia. apply (IH 1); (lia || done).
  - rewrite Z.eqb_refl. destruct (Z.leb_spec n (1024 * i + 1024)); cbn [andb]; [eauto|].
    destruct (IH (i + 1)) as [bs E]; [lia|lia|lia|lia|done|]. replace (1024 * (i + 1)) with (1024 * i + 1024) in E by lia. eauto.
Qed.
End Fit.

(** Every page that meets [s, e) is populated. *)
Definition pop_ok (c : pcpu_chunk) (s e : Z) : Prop :=
  forall p, 1024 * p < e -> s < 1024 * p + 1024 -> bit (populated c) p = true.

Definition all_populated (c : pcpu_chunk) : Prop := forall p, 0 <= p < nr_pages c -> bit (populated c) p = true.

Lemma is_populated_spec c bo bs : chunk_shape c -> 0 <= bo -> 0 < bs -> bo + bs <= 1024 * nr_pages c ->
  exists r, pcpu_is_populated c bo bs = Ret r
    /\ match r with
       | None => pop_ok c bo (bo + bs)
       | Some x => 1024 * (bo / 1024) + 1024 <= x /\ 1024 * (x / 1024) = x /\ exists p, 0 <= p < nr_pages c /\ bit (populated c) p = false
       end.
Proof.
  intros [Hp _ _ _ [Hpm Hpl]] Hb Hbs He. unfold pcpu_is_populated. rewrite pfn_up_bits, pfn_down_bits by lia.
  assert (Hpe : (bo + bs + 1023) / 1024 <= nr_pages c /\ 0 <= bo / 1024 < (bo + bs + 1023) / 1024
    /\ 1024 * ((bo + bs + 1023) / 1024) < bo + bs + 1024 /\ bo + bs <= 1024 * ((bo + bs + 1023) / 1024)
    /\ 1024 * (bo / 1024) <= bo < 1024 * (bo / 1024) + 1024) by (Z.to_euclidean_division_equations; lia).
  set (pe := (bo + bs + 1023) / 1024) in *. set (ps := bo / 1024) in *.
  assert (Hwf : bm_wf (populated c) pe) by (split; [done|lia|lia]). unfold pcpu_next_unpop.
  destruct (find_next_zero_bit_spec _ pe ps Hwf ltac:(lia)) as (rs & -> & [Hle1 Hf1 Hn1]). cbn [obind].
  assert (ps <= rs) by (destruct (Z.lt_ge_cases rs pe) as [H|]; [destruct (Hf1 H)|]; lia).
  destruct (find_next_bit_spec _ pe (rs + 1) Hwf ltac:(lia)) as (re & -> & [Hle2 Hf2 _]). cbn [obind].
  rewrite Z.geb_leb. destruct (Z.leb_spec pe rs) as [Hall|Hnot].
  - exists None. split; [done|]. intros p Hp1 Hp2. apply negb_false_iff. apply Hn1. lia.
  - eexists. split; [reflexivity|]. unfold PCPU_MIN_ALLOC_SIZE. change PAGE_SIZE with (1024 * 4).
    rewrite Z.mul_assoc, Z.div_mul, Z.div_mul by lia.
    assert (ps + 1 <= re) by (destruct (Z.lt_ge_cases re pe) as [H'|]; [destruct (Hf2 H')|]; lia). split; [lia|]. split; [lia|].
    exists rs. split; [lia|]. apply negb_true_iff. by apply Hf1.
Qed.

Section FindFit.
Context (A : Z -> bool) (c : pcpu_chunk) (Hshape : chunk_shape c) (Hok : hints_ok A c).
Context (n k : Z) (Hn : 0 < n) (Hk : 0 <= k <= 10) (pop_only : bool).
Abbreviation M := (1024 * nr_pages c).

Lemma fits_pos bo bs : fits A M n k bo bs -> 0 < bs.
Proof. intros [? ? (s & ? & _ & _ & ?)]. lia. Qed.

Lemma fit_loop_spec : forall fuel x, 0 <= x -> nr_pages c - x / 1024 <= Z.of_nat fuel ->
  exists bo, fit_loop fuel c n (2 ^ k) pop_only x = Ret bo
    /\ (bo = M \/ exists bs, fits A M n k bo bs /\ (pop_only = true -> pop_ok c bo (bo + bs))).
Proof.
  pose proof (cs_pages _ Hshape) as Hp.
  induction fuel as [|fuel IH]; intros x Hx Hf; cbn [fit_loop];
    destruct (next_fit_region_spec A c Hok n k Hn Hk x Hx) as (bo & bs & -> & Hres); cbn [obind];
    rewrite map_bits_eq.
  - destruct Hres as [->|[Hge Hfit]]; [rewrite Z.ltb_irrefl; eauto|]. exfalso. pose proof (ft_bo _ _ _ _ _ _ Hfit). lia.
  - destruct Hres as [->|[Hge Hfit]]; [rewrite Z.ltb_irrefl; eauto|]. pose proof Hfit as [Hb He _]. pose proof (fits_pos _ _ Hfit) as Hbs.
    destruct (Z.ltb_spec bo M); [|lia]. destruct pop_only; cbn [negb]; [|exists bo; split; [done|right; exists bs; by split]].
    destruct (is_populated_spec c bo bs Hshape ltac:(lia) Hbs He) as ([x'|] & -> & Hr); cbn [obind]; [|eauto 10].
    rewrite Z.add_0_r. destruct (off_split x Hx) as (? & ? & ?). destruct (off_split bo ltac:(lia)) as (? & ? & ?). apply IH; lia.
Qed.

Lemma find_block_fit_spec : 0 <= first_bit c <= M ->
  exists r, pcpu_find_block_fit c n (2 ^ k) pop_only = Ret r
    /\ (r = -1 \/ exists bs, fits A M n k r bs /\ (pop_only = true -> pop_ok c r (r + bs))).
Proof.
  intros Hfb. unfold pcpu_find_block_fit. destruct (_ >? _); [eauto|]. rewrite nr_blocks_eq.
  destruct (fit_loop_spec (Z.to_nat (nr_pages c)) (first_bit c)) as (bo & -> & Hres); [lia|destruct (off_split (first_bit c)); lia|].
  cbn [obind]. rewrite map_bits_eq. destruct (Z.eqb_spec bo M); [eauto|]. destruct Hres as [?|H]; [done|]. eauto.
Qed.

Lemma fit_found (next : Z -> outcome Z) bo bs : (pop_only = true -> all_populated c) -> fits A M n k bo bs ->
  (let! bo' :=
     if bo <? M then
       if negb pop_only then Ret bo
       else
         let! p := pcpu_is_populated c bo bs in
         match p with
         | None => Ret bo
         | Some next_off => next next_off
         end
     else Ret bo in
   if bo' =? M then Ret (-1) else Ret bo') = Ret (-1) -> False.
Proof.
  intros Hpop Hfit E. pose proof Hfit as [Hb He _]. pose proof (fits_pos _ _ Hfit). destruct (Z.ltb_spec bo M); [|lia].
  destruct pop_only; cbn [negb] in E.
  - destruct (is_populated_spec c bo bs Hshape ltac:(lia) ltac:(lia) He) as ([x|] & Ex & Hx); rewrite Ex in E; cbn [obind] in E.
    + destruct Hx as (_ & _ & p & Hp & Hbit). rewrite (Hpop eq_refl p Hp) in Hbit. done.
    + destruct (Z.eqb_spec bo M); [lia|]. injection E as E. lia.
  - cbn [obind] in E. destruct (Z.eqb_spec bo M); [lia|]. injection E as E. lia.
Qed.

(** A chunk whose hint is exact serves every request that the hint exceeds by
    the alignment twice; an unaligned one if it fits. *)
Lemma find_block_fit_complete : contig_exact A c -> (pop_only = true -> all_populated c) -> n + 2 * (2 ^ k - 1) <= contig_bits c ->
  0 <= first_bit c <= M -> (forall i, 0 <= i < first_bit c -> A i = true) ->
  exists r bs, pcpu_find_block_fit c n (2 ^ k) pop_only = Ret r /\ fits A M n k r bs.
Proof.
  intros [H0 Hrun Hmax] Ep Hle Hfb Hfu. destruct (find_block_fit_spec Hfb) as (r & E & [->|(bs & Hfit & _)]); [exfalso|eauto].
  pose proof (cs_pages _ Hshape) as Hp. unfold pcpu_find_block_fit in E. rewrite ALIGN_pow2_spec in E by lia.
  assert (Hw : 0 <= 2 ^ k - 1) by (pose proof (Z.pow_pos_nonneg 2 k); lia).
  destruct (Hrun ltac:(lia)) as (Hs0 & Hs1 & Hs2). destruct (align_up_bounds (contig_bits_start c) k ltac:(lia)) as [Hal _].
  rewrite Z.gtb_ltb in E. destruct (Z.ltb_spec (contig_bits c) (align_up (contig_bits_start c) k - contig_bits_start c + n)); [lia|].
  rewrite nr_blocks_eq in E. destruct (Z.to_nat (nr_pages c)) as [|fuel] eqn:Ef; [lia|]. cbn [fit_loop] in E.
  destruct (next_fit_region_spec A c Hok n k Hn Hk (first_bit c) ltac:(lia)) as (bo & bs & Er & Hres). rewrite Er in E. cbn [obind] in E.
  rewrite map_bits_eq in E. destruct Hres as [->|[_ Hfit]].
  - assert (Hno : runs_below A M (n + 2 * (2 ^ k - 1) - 1)).
    { unfold pcpu_next_fit_region in Er. rewrite nr_blocks_eq, off_index, off_off in Er. destruct (off_split (first_bit c) ltac:(lia)) as (Hq & Hr & Ex).
      assert (Hbelow : runs_below A (first_bit c) 0).
      { intros s e Hs He Hf. destruct (Z.eq_dec s e); [lia|]. specialize (Hf s ltac:(lia)). rewrite Hfu in Hf by lia. done. }
      destruct (Z.lt_ge_cases (first_bit c / 1024) (nr_pages c)) as [Hlt|Hge].
      - refine (next_fit_loop_complete A c Hok n k Hn Hk _ _ _ _ _ _ _ _ _ _ _ _ (ex_intro _ bs Er)); [lia|lia| |by left| |lia|].
        + intros s e Hs He Hf. specialize (Hbelow s e Hs ltac:(lia) Hf). lia.
        + intros s Hs Hf. destruct (Z.eq_dec s (1024 * (first_bit c / 1024))); [lia|]. specialize (Hf s ltac:(lia)). rewrite Hfu in Hf by lia. done.
        + intros _ b Eb Hc. pose proof (md_of A c Hok _ _ Eb ltac:(lia)) as Hbk. destruct (hint_whole _ _ Hbk Hc) as [? Hf _ _]. apply blk_free in Hf.
          destruct (Z.le_gt_cases (first_bit c mod 1024) (contig_hint_start b)); [done|].
          specialize (Hf (1024 * (first_bit c / 1024) + contig_hint_start b) ltac:(lia)). rewrite Hfu in Hf by lia. done.
      - intros s e Hs He Hf. specialize (Hbelow s e Hs ltac:(lia) Hf). lia. }
    specialize (Hno (contig_bits_start c) (contig_bits_start c + contig_bits c) ltac:(lia) ltac:(lia) Hs2). lia.
  - by apply (fit_found (fun x => fit_loop fuel c n (2 ^ k) pop_only (x + 0)) bo bs) in E.
Qed.

(** A chunk that is wholly free, with its hint exact, serves every request. *)
Lemma find_block_fit_whole : contig_exact A c -> (forall i, 0 <= i < M -> A i = false) -> (pop_only = true -> all_populated c) ->
  n <= M -> first_bit c = 0 -> exists r bs, pcpu_find_block_fit c n (2 ^ k) pop_only = Ret r /\ fits A M n k r bs.
Proof.
  intros [H0 Hrun Hmax] Hall Ep Hle Hfb. pose proof (cs_pages _ Hshape) as Hp.
  destruct (find_block_fit_spec ltac:(lia)) as (r & E & [->|(bs & Hfit & _)]); [exfalso|eauto].
  assert (Hcb : M <= contig_bits c) by (specialize (Hmax 0 M ltac:(lia) ltac:(lia) Hall); lia).
  destruct (Hrun ltac:(lia)) as (Hs0 & Hs1 & _).
  unfold pcpu_find_block_fit in E. rewrite ALIGN_pow2_spec in E by lia. replace (contig_bits_start c) with 0 in E by lia.
  rewrite align_up_0, Z.sub_diag, Z.gtb_ltb in E by lia. destruct (Z.ltb_spec (contig_bits c) (0 + n)); [lia|].
  rewrite nr_blocks_eq, Hfb in E. destruct (Z.to_nat (nr_pages c)) as [|fuel] eqn:Ef; [lia|]. cbn [fit_loop] in E.
  destruct (next_fit_region_spec A c Hok n k Hn Hk 0 ltac:(lia)) as (bo & bs & Er & Hres). rewrite Er in E. cbn [obind] in E.
  rewrite map_bits_eq in E. destruct Hres as [->|[_ Hfit]]; [|by apply (fit_found (fun x => fit_loop fuel c n (2 ^ k) pop_only (x + 0)) bo bs) in E].
  unfold pcpu_next_fit_region in Er. rewrite nr_blocks_eq in Er.
  destruct (next_fit_whole A c Hok n k Hk (Z.to_nat (nr_pages c)) 0 ltac:(lia) ltac:(lia) Hle ltac:(lia) Hall) as [bs' Ew].
  rewrite off_index, off_off, Z.sub_0_r in Er. change (0 / 1024) with 0 in Er. change (0 mod 1024) with 0 in Er.
  rewrite Z.mul_0_r in Ew. rewrite Ew in Er. injection Er as Er _. lia.
Qed.
End FindFit.

(** ** pcpu_alloc_area() *)

(** What no operation on areas changes. *)
Definition same_geom (c c' : pcpu_chunk) : Prop :=
  base_addr c' = base_addr c /\ immutable c' = immutable c /\ start_offset c' = start_offset c /\ end_offset c' = end_offset c
  /\ nr_pages c' = nr_pages c /\ nr_populated c' = nr_populated c /\ populated c' = populated c.

Lemma rehinted_geom c c' : rehinted c c' -> same_geom c c'.
Proof. intros (mds & cb & cbs & m & ->). done. Qed.

(** After the maps are right, an update of the hints leaves the chunk right. *)
Lemma hinted_ok live c c' :
  hinted (used c) c c' -> 0 <= first_bit c <= 1024 * nr_pages c -> (forall i, 0 <= i < first_bit c -> used c i = true) ->
  free_bytes c = 4 * (1024 * nr_pages c - countz (used c) (1024 * nr_pages c)) ->
  areas_ok (used c) (bit (bound_map c)) (1024 * nr_pages c) live ->
  chunk_ok live c' /\ used c' = used c.
Proof.
  intros [(mds & cb & cbs & m & ->) Hs Hh Hc] Hf Hu Hb Ha. split; [|done]. by split.
Qed.

(** A new area among the live ones. *)
Lemma areas_insert A A' B B' M live o n :
  areas_ok A B M live -> 0 <= o -> 0 < n -> o + n <= M -> bits_taken A A' o n ->
  (forall i, 0 <= i -> B' i = if (i =? o) || (i =? o + n) then true else if (o <? i) && (i <? o + n) then false else B i) ->
  areas_ok A' B' M (<[o := n]> live) /\ live !! o = None.
Proof.
  intros [Hr Hu Hc Hd Hb] Ho Hn HM [Hfree HA] HB.
  assert (Hsep : forall o2 n2, live !! o2 = Some n2 -> o2 + n2 <= o \/ o + n <= o2).
  { intros o2 n2 H2. destruct (Hr _ _ H2) as (? & ? & ?). destruct (Z.le_gt_cases (o2 + n2) o); [by left|]. destruct (Z.le_gt_cases (o + n) o2); [by right|].
    assert (Hx : A (Z.max o o2) = true) by (apply (Hu o2 n2); [done|lia]). rewrite Hfree in Hx by lia. done. }
  assert (Hnone : live !! o = None).
  { destruct (live !! o) as [n2|] eqn:E; [|done]. destruct (Hr _ _ E) as (? & ? & ?). destruct (Hsep _ _ E); lia. }
  assert (Hin : forall i, o <= i < o + n -> A' i = true).
  { intros i Hi. rewrite HA by lia. by destruct (Z.leb_spec o i), (Z.ltb_spec i (o + n)); try lia. }
  split; [|done]. split.
  - intros o' n' [[-> ->]|[Hne H']]%lookup_insert_Some; [lia|]. by apply Hr.
  - intros o' n' i [[<- <-]|[Hne H']]%lookup_insert_Some Hi; [by apply Hin|]. destruct (Hr _ _ H') as (? & ? & ?). rewrite HA by lia.
    destruct (_ && _); [done|]. by apply (Hu o' n').
  - intros i Hi HAi. destruct (decide (o <= i < o + n)) as [Hx|Hx].
    + exists o, n. by rewrite lookup_insert_eq.
    + rewrite HA in HAi by lia. destruct (Z.leb_spec o i), (Z.ltb_spec i (o + n)); cbn [andb] in HAi; try lia;
        (destruct (Hc i Hi HAi) as (o' & n' & H' & Hi'); exists o', n'; split; [|done]; rewrite lookup_insert_ne; [done|congruence]).
  - intros o1 n1 o2 n2 [[<- <-]|[Hne1 H1]]%lookup_insert_Some [[<- <-]|[Hne2 H2]]%lookup_insert_Some Hne; [done| | |].
    + destruct (Hsep _ _ H2); lia.
    + destruct (Hsep _ _ H1); lia.
    + by apply Hd.
  - intros o' n' [[<- <-]|[Hne H']]%lookup_insert_Some.
    + split; [intros i Hi|]; rewrite HB by lia.
      * destruct (Z.eqb_spec i o), (Z.eqb_spec i (o + n)); try lia. cbn [orb]. by destruct (Z.ltb_spec o i), (Z.ltb_spec i (o + n)); try lia.
      * by rewrite Z.eqb_refl, orb_true_r.
    + destruct (Hr _ _ H') as (? & ? & ?). destruct (Hb _ _ H') as [Hb1 Hb2]. destruct (Hsep _ _ H') as [?|?]; split; [intros i Hi| |intros i Hi|]; rewrite HB by lia.
      all: repeat (match goal with |- context [?a =? ?b] => destruct (Z.eqb_spec a b) | |- context [?a <? ?b] => destruct (Z.ltb_spec a b) end; cbn [orb andb]); try done; try lia; by apply Hb1.
Qed.

Theorem alloc_area_spec live rsv c total n k r bs :
  chunk_ok live c -> 0 < n < 2 ^ 20 -> 0 <= k <= 10 -> fits (used c) (1024 * nr_pages c) n k r bs ->
  exists c' t' o, alloc_area rsv c total n (2 ^ k) r = Ret (Some (c', t', o * PCPU_MIN_ALLOC_SIZE))
    /\ first_area (used c) r n k o /\ o + n <= r + bs /\ live !! o = None
    /\ chunk_ok (<[o := n]> live) c' /\ bits_taken (used c) (used c') o n /\ same_geom c c'
    /\ (contig_exact (used c) c -> contig_exact (used c') c').
Proof.
  intros [Hs Hh [Hfb Hfu] [Hcb Hcbs] Hfree Har] Hn Hk [Hr Hre (s & Hsr & Hsd & Hsf & Hse)].
  destruct Hs as [Hp [Ham Hal] Hmd [Hbm Hbl] Hpop]. set (M := 1024 * nr_pages c) in *.
  assert (H2k : 0 < 2 ^ k) by (apply Z.pow_pos_nonneg; lia).
  unfold alloc_area. destruct (Z.eqb_spec (2 ^ k) 0); [lia|]. cbn [negb]. unfold PCPU_BITMAP_BLOCK_BITS.
  unfold bitmap_find_next_zero_area, bitmap_find_next_zero_area_off.
  destruct (zero_area_loop_spec (alloc_map c) (r + n + 1024) n k s Ham ltac:(lia) ltac:(lia) ltac:(lia) Hsd Hsf ltac:(lia) ltac:(lia)
    (S (64 * length (alloc_map c))) r ltac:(lia) ltac:(lia)) as (o & -> & Hfa & Hos). cbn [obind].
  pose proof Hfa as [Hor Hod Hof _]. rewrite Z.geb_leb. destruct (Z.leb_spec (r + n + 1024) o); [lia|].
  destruct (bitmap_set_spec (alloc_map c) o n) as (am & -> & Lam & Uam & Bam); [done|lia|lia|lia|lia|]. cbn [obind].
  destruct (set_bit_spec (bound_map c) o) as (b1 & -> & L1 & U1 & B1); [done|lia|]. cbn [obind].
  destruct (bitmap_clear_spec b1 (o + 1) (n - 1)) as (b2 & -> & L2 & U2 & B2); [done|lia|lia|rewrite L1; lia|lia|]. cbn [obind].
  destruct (set_bit_spec b2 (o + n)) as (b3 & -> & L3 & U3 & B3); [done|rewrite L2, L1; lia|]. cbn [obind].
  set (c1 := set_free_bytes (free_bytes c - n * PCPU_MIN_ALLOC_SIZE) (set_bound_map b3 (set_alloc_map am c))).
  assert (Htk : bits_taken (used c) (used c1) o n).
  { split; [done|]. intros i Hi. unfold used at 1. cbn. rewrite Bam by lia. done. }
  assert (Hs1 : chunk_shape c1).
  { split; cbn; [done|split; [done|rewrite Lam; lia]|done|split; [done|rewrite L3, L2, L1; fold M; lia]|done]. }
  destruct Htk as [_ HA'].
  assert (Hmono : forall i, 0 <= i -> used c i = true -> used c1 i = true) by (intros i Hi Hu; rewrite HA' by lia; by destruct (_ && _)).
  assert (Hfirst : exists fb, (if o =? first_bit c1 then
      let! fb := find_next_zero_bit (alloc_map c1) (pcpu_chunk_map_bits c1) (o + n) in Ret (set_first_bit fb c1) else Ret c1) = Ret (set_first_bit fb c1)
    /\ 0 <= fb <= M /\ forall i, 0 <= i < fb -> used c1 i = true).
  { cbn [first_bit c1 set_free_bytes set_bound_map set_alloc_map]. destruct (Z.eqb_spec o (first_bit c)) as [Eo|No].
    - rewrite map_bits_eq. cbn [nr_pages c1 set_free_bytes set_bound_map set_alloc_map]. fold M.
      destruct (find_next_zero_bit_spec (alloc_map c1) M (o + n)) as (fb & -> & [Hle Hf Hnn]); [split; [done|cbn; rewrite Lam; lia|lia]|lia|].
      exists fb. split; [done|]. split; [destruct (Z.lt_ge_cases fb M) as [H'|]; [destruct (Hf H')|]; lia|].
      intros i Hi. destruct (Z.lt_ge_cases i o); [apply Hmono; [lia|apply Hfu; lia]|].
      destruct (Z.lt_ge_cases i (o + n)); [|apply negb_false_iff; apply Hnn; lia].
      rewrite HA' by lia. by destruct (Z.leb_spec o i), (Z.ltb_spec i (o + n)); try lia.
    - exists (first_bit c). split; [by destruct c|]. split; [done|]. intros i Hi. apply Hmono; [lia|by apply Hfu]. }
  destruct Hfirst as (fb & -> & Hfb1 & Hfb2). cbn [obind].
  destruct (update_hint_alloc_spec (used c) rsv (set_first_bit fb c1) total o n) as (c' & t' & -> & Hhd & Hctg);
    [destruct Hs1; by split|done|by split|lia|lia|cbn; lia|done|done|done|done|]. cbn [obind].
  destruct (areas_insert (used c) (used c1) (bit (bound_map c)) (bit b3) M live o n Har ltac:(lia) ltac:(lia) ltac:(lia) ltac:(by split)) as [Har' Hnone].
  { intros i Hi. rewrite B3, B2, B1 by lia.
    repeat (match goal with |- context [?a =? ?b] => destruct (Z.eqb_spec a b) | |- context [?a <? ?b] => destruct (Z.ltb_spec a b) | |- context [?a <=? ?b] => destruct (Z.leb_spec a b) end; cbn [orb andb]); done || lia. }
  destruct (hinted_ok (<[o := n]> live) (set_first_bit fb c1) c' Hhd) as [Hck Hus]; [done|done| |done|].
  { change (free_bytes c - n * 4 = 4 * (M - countz (used c1) M)). rewrite Hfree. fold M. unfold countz.
    rewrite (bits_count_range (used c) (used c1) o (o + n) (Z.to_nat M) true); [lia|lia|lia| |].
    - intros i Hi. split; [by apply Hof|]. rewrite HA' by lia. by destruct (Z.leb_spec o i), (Z.ltb_spec i (o + n)); try lia.
    - intros i Hi Hout. rewrite HA' by lia. by destruct (Z.leb_spec o i), (Z.ltb_spec i (o + n)); try lia. }
  exists c', t', o. split; [done|]. split; [done|]. split; [lia|]. split; [done|]. split; [done|]. split; [by rewrite Hus|].
  destruct Hhd as [Hre' _ _ _]. apply rehinted_geom in Hre'. destruct Hre' as (?&?&?&?&Hnp&?&?). split; [by split_and!|].
  intros Hex. apply (contig_exact_taken (used c) c c' o n Hex); [by rewrite Hus; split|lia|lia|fold M; lia|done|]. by rewrite Hus.
Qed.

(** * The per-CPU allocator: freeing an area of a chunk *)

(** The bits [bo, bo + bits) were used and are free now. *)
Definition bits_freed (A A' : Z -> bool) (bo bits : Z) : Prop :=
  forall i, 0 <= i -> A' i = if (bo <=? i) && (i <? bo + bits) then false else A i.

(** Where the run that ends at [so] begins. *)
Lemma free_start P P' b map so :
  block_ok P b -> bm_wf map so -> (forall j, 0 <= j < so -> bit map j = P' j) -> (forall j, 0 <= j < so -> P' j = P j) -> 0 <= so <= 1024 ->
  exists st, (if so =? contig_hint b + contig_hint_start b then Ret (contig_hint_start b)
      else let! l_bit := find_last_bit map so in Ret (if so =? l_bit then 0 else l_bit + 1)) = Ret st
    /\ 0 <= st <= so /\ free_on P' st so /\ (0 < st -> P' (st - 1) = true).
Proof.
  intros Hb Hwf Hbit Hsame Hso. pose proof (bk_hint _ _ Hb) as (Hc0 & Hcs & Hh).
  destruct (Z.eqb_spec so (contig_hint b + contig_hint_start b)) as [E|E].
  - exists (contig_hint_start b). split; [done|]. split; [lia|]. destruct (Z.eq_dec (contig_hint b) 0) as [Ec|Nc].
    + split; [intros i Hi; lia|]. intros Hpos. rewrite Hsame by lia. destruct (P (contig_hint_start b - 1)) eqn:EP; [done|].
      pose proof (bk_max _ _ Hb (contig_hint_start b - 1) (contig_hint_start b) ltac:(lia) ltac:(lia)) as Hm.
      assert (free_on P (contig_hint_start b - 1) (contig_hint_start b)) as Hf by (intros i Hi; by replace i with (contig_hint_start b - 1) by lia).
      specialize (Hm Hf). lia.
    + destruct (hint_whole _ _ Hb ltac:(lia)) as [_ Hf Hbef _]. split; [|intros Hpos; rewrite Hsame by lia; by apply Hbef].
      intros i Hi. rewrite Hsame by lia. apply Hf. lia.
  - destruct (find_last_bit_spec map so Hwf) as (l & -> & Hl). cbn [obind]. destruct (Z.eqb_spec so l) as [El|Nl].
    + exists 0. split; [done|]. split; [lia|]. split; [|lia]. destruct Hl as [(? & _)|[_ Hl]]; [lia|].
      intros i Hi. rewrite <- Hbit by lia. by apply Hl.
    + destruct Hl as [(Hl0 & Hl1 & Hl2)|[? _]]; [|lia]. exists (l + 1). split; [done|]. split; [lia|]. split.
      * intros i Hi. rewrite <- Hbit by lia. apply Hl2. lia.
      * intros _. replace (l + 1 - 1) with l by lia. by rewrite <- Hbit by lia.
Qed.

(** Where the run that begins at [eo] ends. *)
Lemma free_end P P' b map eo :
  block_ok P b -> bm_wf map 1024 -> (forall j, 0 <= j < 1024 -> bit map j = P' j) -> (forall j, eo <= j < 1024 -> P' j = P j) -> 0 < eo <= 1024 ->
  exists en, (if eo =? contig_hint_start b then Ret (contig_hint_start b + contig_hint b) else find_next_bit map 1024 eo) = Ret en
    /\ eo <= en <= 1024 /\ free_on P' eo en /\ (en < 1024 -> P' en = true).
Proof.
  intros Hb Hwf Hbit Hsame Heo. pose proof (bk_hint _ _ Hb) as (Hc0 & Hcs & Hh).
  destruct (Z.eqb_spec eo (contig_hint_start b)) as [E|E].
  - eexists. split; [reflexivity|]. destruct (Z.eq_dec (contig_hint b) 0) as [Ec|Nc].
    + rewrite Ec, Z.add_0_r, <- E. split; [lia|]. split; [intros i Hi; lia|]. intros Hlt. rewrite Hsame by lia. destruct (P eo) eqn:EP; [done|].
      pose proof (bk_max _ _ Hb eo (eo + 1) ltac:(lia) ltac:(lia)) as Hm.
      assert (free_on P eo (eo + 1)) as Hf by (intros i Hi; by replace i with eo by lia). specialize (Hm Hf). lia.
    + destruct (hint_whole _ _ Hb ltac:(lia)) as [Hr Hf _ Haft]. split; [lia|]. split; [|intros Hlt; rewrite Hsame by lia; by apply Haft].
      intros i Hi. rewrite Hsame by lia. apply Hf. lia.
  - destruct (find_next_bit_spec map 1024 eo Hwf ltac:(lia)) as (en & -> & [Hle Hf Hn]). exists en. split; [done|].
    assert (eo <= en) by (destruct (Z.lt_ge_cases en 1024) as [H|]; [destruct (Hf H)|]; lia).
    split; [lia|]. split; [intros i Hi; rewrite <- Hbit by lia; apply Hn; lia|]. intros Hlt. rewrite <- Hbit by lia. by apply Hf.
Qed.

Lemma chunk_update_hinted A c mds bo bits :
  chunk_shape (set_md_blocks mds c) -> hints_ok A (set_md_blocks mds c) ->
  0 <= contig_bits c <= 1024 * nr_pages c -> 0 <= contig_bits_start c <= 1024 * nr_pages c ->
  0 <= bo <= 1024 * nr_pages c -> 0 <= bits <= 1024 * nr_pages c ->
  hinted A c (pcpu_chunk_update (set_md_blocks mds c) bo bits).
Proof.
  intros Hs Hok Hcb Hcbs Hbo Hbits. unfold pcpu_chunk_update. cbn [set_md_blocks contig_bits contig_bits_start].
  assert (Hall : forall a b, 0 <= a <= 1024 * nr_pages c -> 0 <= b <= 1024 * nr_pages c -> hinted A c (set_contig a b (set_md_blocks mds c))).
  { intros a b Ha Hb. split; [|destruct Hs; by split|done|done]. exists mds, a, b, (nr_empty_pop_pages c). by destruct c. }
  destruct (_ >? _); [by apply Hall|]. destruct (_ && _); [by apply Hall|].
  split; [|done|done|done]. exists mds, (contig_bits c), (contig_bits_start c), (nr_empty_pop_pages c). by destruct c.
Qed.

Lemma update_hint_free_spec A rsv c total bo bits :
  chunk_shape c -> hints_ok A c -> bits_freed A (used c) bo bits -> 0 <= bo -> 0 < bits -> bo + bits <= 1024 * nr_pages c ->
  0 <= first_bit c <= 1024 * nr_pages c -> (forall i, 0 <= i < first_bit c -> used c i = true) ->
  0 <= contig_bits c <= 1024 * nr_pages c -> 0 <= contig_bits_start c <= 1024 * nr_pages c ->
  exists c' t', pcpu_block_update_hint_free rsv c total bo bits = Ret (c', t') /\ hinted (used c) c c'
    /\ ((forall i, 0 <= i < 1024 * nr_pages c -> used c i = false) -> contig_exact (used c) c').
Proof.
  intros Hs Hok Hbits Hbo Hb0 He Hfb Hfu Hcb Hcbs. pose proof (cs_pages _ Hs) as Hp. unfold pcpu_block_update_hint_free. rewrite !off_index, !off_off.
  destruct (off_split bo Hbo) as (Hsi & Hso & Es). destruct (off_split (bo + bits - 1) ltac:(lia)) as (Hei & Heo & Ee).
  set (si := bo / 1024) in *. set (so := bo mod 1024) in *. set (ei := (bo + bits - 1) / 1024) in *. set (eo := (bo + bits - 1) mod 1024) in *.
  assert (Hse : si <= ei < nr_pages c) by lia.
  destruct (blocks_all_md _ c si Hok ltac:(lia)) as (bs & Ebs & Hbs). destruct (blocks_all_md _ c ei Hok ltac:(lia)) as (be & Ebe & Hbe).
  rewrite Ebs, Ebe. cbn [obind].
  assert (Hin : forall i j, 0 <= i -> 0 <= j < 1024 -> bo <= 1024 * i + j < bo + bits -> blk (used c) i j = false).
  { intros i j Hi Hj Hr. unfold blk. rewrite Hbits by lia. by destruct (Z.leb_spec bo (1024 * i + j)), (Z.ltb_spec (1024 * i + j) (bo + bits)); try lia. }
  assert (Hout : forall i j, 0 <= i -> 0 <= j < 1024 -> ~ (bo <= 1024 * i + j < bo + bits) -> blk (used c) i j = blk A i j).
  { intros i j Hi Hj Hr. unfold blk. rewrite Hbits by lia. by destruct (Z.leb_spec bo (1024 * i + j)), (Z.ltb_spec (1024 * i + j) (bo + bits)); try lia. }
  destruct (index_map c si Hs ltac:(lia)) as (Ms & Ls & Bs). destruct (index_map c ei Hs ltac:(lia)) as (Me & Le & Be).
  destruct (free_start (blk A si) (blk (used c) si) bs (pcpu_index_alloc_map c si) so Hbs) as (st & -> & Hst & Hstf & Hstp).
  { split; [done|lia|lia]. } { intros j Hj. apply Bs. lia. } { intros j Hj. apply Hout; lia. } { lia. }
  destruct (free_end (blk A ei) (blk (used c) ei) be (pcpu_index_alloc_map c ei) (eo + 1) Hbe) as (en & Een & Hen & Henf & Henp).
  { by apply index_wf; [|lia]. } { intros j Hj. apply Be. lia. } { intros j Hj. apply Hout; lia. } { lia. }
  unfold PCPU_BITMAP_BLOCK_BITS. cbn [obind]. rewrite Een. cbn [obind].
  assert (Hlen : forall i, 0 <= i < nr_pages c -> 0 <= i < Z.of_nat (length (md_blocks c))) by (intros i Hi; rewrite (cs_md _ Hs); lia).
  assert (Hbs' : block_ok (blk (used c) si) (pcpu_block_update bs st (if si =? ei then en else 1024))).
  { apply (block_update_ok _ _ _ _ _ Hbs).
    - split.
      + destruct (Z.eqb_spec si ei); lia.
      + intros j Hj. destruct (Z.lt_ge_cases j so); [apply Hstf; lia|]. destruct (Z.eqb_spec si ei) as [Eq|Nq]; [|apply Hin; lia].
        destruct (Z.lt_ge_cases j (eo + 1)); [apply Hin; lia|]. rewrite Eq. apply Henf. lia.
      + done.
      + destruct (Z.eqb_spec si ei) as [Eq|Nq]; [rewrite Eq; exact Henp|lia].
    - intros j Hj Hjo. apply Hout; [lia|done|]. destruct (Z.eqb_spec si ei); lia. }
  assert (Hmid : exists mds, (if negb (si =? ei)
      then blocks_loop (Z.to_nat (ei - (si + 1))) block_unused
             (put_block (put_block c si (pcpu_block_update bs st (if si =? ei then en else 1024))) ei (pcpu_block_update be 0 en)) (si + 1)
      else Ret (put_block c si (pcpu_block_update bs st (if si =? ei then en else 1024)))) = Ret (set_md_blocks mds c)
    /\ chunk_shape (set_md_blocks mds c) /\ hints_ok (used c) (set_md_blocks mds c)).
  { set (R i b := i = si /\ block_ok (blk (used c) i) b \/ i <> si /\ block_ok (blk A i) b).
    assert (H1 : blocks_all R (put_block c si (pcpu_block_update bs st (if si =? ei then en else 1024)))).
    { refine (blocks_all_put _ _ _ _ _ Hs Hok _ _ _); [lia|by left|]. intros j b Hne Hb. by right. }
    destruct (Z.eqb_spec si ei) as [Eq|Nq]; cbn [negb].
    - exists (<[Z.to_nat si := pcpu_block_update bs st en]> (md_blocks c)). split_and!; [done|by apply put_block_shape|].
      eapply blocks_all_impl; [exact H1|]. intros i b Hi [[-> Hb]|[Hne Hb]]; [done|].
      eapply block_ok_ext; [|exact Hb]. intros j Hj. symmetry. apply Hout; lia.
    - assert (Hbe' : block_ok (blk (used c) ei) (pcpu_block_update be 0 en)).
      { apply (block_update_ok _ _ _ _ _ Hbe).
        - split; [lia| |lia|done]. intros j Hj. destruct (Z.lt_ge_cases j (eo + 1)); [apply Hin; lia|apply Henf; lia].
        - intros j Hj Hjo. apply Hout; lia. }
      set (R2 i b := (i = si \/ i = ei) /\ block_ok (blk (used c) i) b \/ i <> si /\ i <> ei /\ block_ok (blk A i) b).
      destruct (blocks_loop_spec (fun i b => 0 <= i < nr_pages c -> block_ok (blk (used c) i) b) block_unused (Z.to_nat (ei - (si + 1))) R2
        (put_block (put_block c si (pcpu_block_update bs st 1024)) ei (pcpu_block_update be 0 en)) (si + 1)) as (mds & -> & Hs' & H').
      + by apply put_block_shape, put_block_shape.
      + refine (blocks_all_put R R2 _ _ _ _ H1 _ _ _); [by apply put_block_shape|cbn; lia|left; tauto|].
        intros j b Hne [[-> Hb]|[Hne' Hb]]; [left; tauto|right; tauto].
      + lia.
      + cbn. lia.
      + intros i b Hi _ Hr. apply unused_ok. intros j Hj. apply Hin; lia.
      + intros i b Hi [[[->| ->] Hb]|(N1 & N2 & Hb)] Hr; [done|done|].
        eapply block_ok_ext; [|exact Hb]. intros j Hj. symmetry. apply Hout; lia.
      + exists mds. split_and!; [done|done|]. eapply blocks_all_impl; [exact H'|]. intros i b Hi Hb. by apply Hb. }
  destruct Hmid as (mds & -> & Hs' & Hok'). cbn [obind].
  change (Z.min PCPU_BITS_PER_PAGE 1024) with 1024.
  destruct (_ || _) eqn:Er.
  - destruct (refresh_hinted (used c) rsv c mds total Hs' Hok' Hfb Hfu Hcbs) as (c' & t' & -> & Hh & Hex). eauto 6.
  - destruct (blocks_all_md _ (set_md_blocks mds c) si Hok' ltac:(cbn; lia)) as (b1 & -> & Hb1). cbn [obind].
    eexists _, _. split; [reflexivity|]. split; [apply chunk_update_hinted; try done|].
    3: { intros Hall. exfalso. apply orb_false_iff in Er as [Er Eq%negb_false_iff%Z.eqb_eq].
         assert (st = 0) as ->.
         { destruct (Z.eq_dec st 0); [done|]. specialize (Hstp ltac:(lia)). unfold blk in Hstp. by rewrite Hall in Hstp by lia. }
         assert (en = 1024) as ->.
         { destruct (Z.eq_dec en 1024); [done|]. specialize (Henp ltac:(lia)). unfold blk in Henp. by rewrite Hall in Henp by lia. }
         vm_compute in Er. done. }
    + unfold pcpu_block_off_to_off, PCPU_BITMAP_BLOCK_BITS. lia.
    + pose proof (bk_hint _ _ Hb1) as (? & ? & Hh1). destruct (Z.eq_dec (contig_hint b1) 0); [lia|]. destruct (Hh1 ltac:(lia)). lia.
Qed.

Lemma areas_delete A A' B M live o n :
  areas_ok A B M live -> live !! o = Some n -> bits_freed A A' o n -> areas_ok A' B M (delete o live).
Proof.
  intros [Hr Hu Hc Hd Hb] Ho HA. destruct (Hr _ _ Ho) as (Ho0 & Hn & HM). split.
  - intros o' n' [Hne H']%lookup_delete_Some. by apply Hr.
  - intros o' n' i [Hne H']%lookup_delete_Some Hi. destruct (Hr _ _ H') as (? & ? & ?). rewrite HA by lia.
    destruct (Hd o n o' n' Ho H' Hne); (destruct (Z.leb_spec o i), (Z.ltb_spec i (o + n)); cbn [andb]; try lia; by apply (Hu o' n')).
  - intros i Hi HAi. rewrite HA in HAi by lia. destruct ((o <=? i) && (i <? o + n)) eqn:Ei; [done|].
    destruct (Hc i Hi HAi) as (o' & n' & H' & Hi'). exists o', n'. split; [|done]. rewrite lookup_delete_ne; [done|]. intros ->.
    assert (n' = n) by congruence. subst n'. destruct (Z.leb_spec o' i), (Z.ltb_spec i (o' + n)); cbn [andb] in Ei; try done; lia.
  - intros o1 n1 o2 n2 [_ H1]%lookup_delete_Some [_ H2]%lookup_delete_Some. by apply Hd.
  - intros o' n' [_ H']%lookup_delete_Some. by apply Hb.
Qed.

Theorem free_area_spec live rsv c total o n :
  chunk_ok live c -> live !! o = Some n ->
  exists c' t', free_area rsv c total (o * PCPU_MIN_ALLOC_SIZE) = Ret (c', t')
    /\ chunk_ok (delete o live) c' /\ bits_freed (used c) (used c') o n /\ same_geom c c'
    /\ ((forall i, 0 <= i < 1024 * nr_pages c -> used c' i = false) -> contig_exact (used c') c').
Proof.
  intros [Hs Hh [Hfb Hfu] [Hcb Hcbs] Hfree Har] Ho. pose proof Har as [Hr Hu _ _ Hb].
  destruct (Hr _ _ Ho) as (Ho0 & Hn & HM). destruct (Hb _ _ Ho) as [Hb1 Hb2].
  destruct Hs as [Hp [Ham Hal] Hmd [Hbm Hbl] Hpop]. set (M := 1024 * nr_pages c) in *.
  unfold free_area. cbv zeta. change (o * PCPU_MIN_ALLOC_SIZE / PCPU_MIN_ALLOC_SIZE) with (o * 4 / 4). rewrite Z.div_mul by lia. rewrite map_bits_eq. fold M.
  destruct (find_next_bit_spec (bound_map c) M (o + 1)) as (e & -> & [Hle Hf Hnn]); [split; [done|lia|lia]|lia|]. cbn [obind].
  assert (Ee : e = o + n).
  { destruct (Z.lt_ge_cases e (o + n)) as [Hlt|Hge].
    - destruct (Hf ltac:(lia)) as [? Hbe]. rewrite Hb1 in Hbe by lia. done.
    - destruct (Z.eq_dec e (o + n)); [done|]. rewrite Hnn in Hb2 by lia. done. }
  subst e. replace (o + n - o) with n by lia.
  destruct (bitmap_clear_spec (alloc_map c) o n) as (am & -> & Lam & Uam & Bam); [done|lia|lia|lia|lia|]. cbn [obind].
  set (c1 := set_free_bytes (free_bytes c + n * PCPU_MIN_ALLOC_SIZE) (set_alloc_map am c)). set (c2 := set_first_bit (Z.min (first_bit c1) o) c1).
  assert (HA : bits_freed (used c) (used c2) o n).
  { intros i Hi. unfold used at 1. cbn. by rewrite Bam by lia. }
  assert (Hs2 : chunk_shape c2) by (split; cbn; try done; split; [done|rewrite Lam; lia]).
  assert (Hfu2 : forall i, 0 <= i < first_bit c2 -> used c2 i = true).
  { cbn. intros i Hi. rewrite HA by lia. destruct (Z.leb_spec o i); [lia|]. cbn [andb]. apply Hfu. lia. }
  destruct (update_hint_free_spec (used c) rsv c2 total o n) as (c' & t' & -> & Hhd & Hex); try done; [cbn; fold M; lia|].
  destruct (hinted_ok (delete o live) c2 c' Hhd) as [Hck Hus]; [cbn; fold M; lia|done| |by apply (areas_delete (used c) _ _ _ _ _ n)|].
  { change (free_bytes c + n * 4 = 4 * (M - countz (used c2) M)). rewrite Hfree. fold M. unfold countz.
    rewrite (bits_count_range (used c) (used c2) o (o + n) (Z.to_nat M) false); [lia|lia|lia| |].
    - intros i Hi. split; [by apply (Hu o n)|]. rewrite HA by lia. by destruct (Z.leb_spec o i), (Z.ltb_spec i (o + n)); try lia.
    - intros i Hi Hout. rewrite HA by lia. by destruct (Z.leb_spec o i), (Z.ltb_spec i (o + n)); try lia. }
  exists c', t'. split; [done|]. split; [done|]. split; [by rewrite Hus|]. split.
  - destruct Hhd as [Hre _ _ _]. apply rehinted_geom in Hre. destruct Hre as (?&?&?&?&?&?&?). by split_and!.
  - intros Hall. rewrite Hus in Hall |- *. by apply Hex.
Qed.
