(* ===== verification/PercpuCore.v ===== *)
(** * The per-CPU allocator: slots, allocation and freeing

    Model of the part of mm/percpu.c above chunks and of mm/percpu-vm.c: the
    slot lists, pcpu_alloc() and free_percpu(), the creation of chunks and the
    population of their pages.  Chunks live at addresses; the lists of
    [pcpu_slot] hold those addresses.  Variables that are only written while
    booting are the record [pcpu_conf].  The backing allocators are seen
    through two classes: [PageAllocator] of PageOwner.v for single pages and
    [ObjectAllocator] for kzalloc().  Bytes of memory are a function [mem], of
    which only the areas handed out are written. *)

From S2P Require Import Prelude Objects Bitops Memblock Buddy PageOwner Bitmap Percpu.
From stdpp Require Import base list numbers option gmap.
#[local] Open Scope Z_scope.
#[local] Open Scope kernel_scope.

Definition PCPU_EMPTY_POP_PAGES_LOW : Z := 2.
Definition GFP_KERNEL : Z := 2.

(** sizeof(struct pcpu_chunk) and sizeof(struct pcpu_block_md) on arm64. *)
Definition SIZEOF_PCPU_CHUNK : Z := 104.
Definition SIZEOF_PCPU_BLOCK_MD : Z := 20.

(** ** What boot fixes *)

Record pcpu_conf := mk_conf {
  pcpu_unit_pages : Z;
  pcpu_unit_size : Z;
  pcpu_nr_units : Z;
  pcpu_nr_slots : Z;
  pcpu_chunk_struct_size : Z;
  pcpu_base_addr : Z;
  pcpu_unit_map : list Z;
  pcpu_unit_offsets : list Z;
  pcpu_atom_size : Z;
  pcpu_low_unit_cpu : Z;
  pcpu_high_unit_cpu : Z;
  pcpu_group_offsets : list Z;
  pcpu_group_sizes : list Z;
  per_cpu_start : Z;
  possible_cpus : list Z;
  cpu_to_node : Z -> Z
}.

Section Core.
Context {K P : Type} `{ObjectAllocator K} `{PageAllocator P}.

(** [pages_array] is the static array of pcpu_get_pages(), [None] for NULL. *)
Record pcpu := mk_pcpu {
  chunks : gmap Z pcpu_chunk;
  pcpu_slot : list (list Z);
  pcpu_first_chunk : Z;
  pcpu_reserved_chunk : Z;
  pcpu_nr_empty_pop_pages : Z;
  pcpu_nr_populated : Z;
  pcpu_atomic_alloc_failed : bool;
  pages_array : option (list Z);
  mem : Z -> Z;
  heap : K;
  page_alloc : P
}.

Definition set_chunk x c t s := mk_pcpu (<[x := c]> (chunks s)) (pcpu_slot s) (pcpu_first_chunk s) (pcpu_reserved_chunk s) t (pcpu_nr_populated s) (pcpu_atomic_alloc_failed s) (pages_array s) (mem s) (heap s) (page_alloc s).
Definition set_slot v s := mk_pcpu (chunks s) v (pcpu_first_chunk s) (pcpu_reserved_chunk s) (pcpu_nr_empty_pop_pages s) (pcpu_nr_populated s) (pcpu_atomic_alloc_failed s) (pages_array s) (mem s) (heap s) (page_alloc s).
Definition set_populated v s := mk_pcpu (chunks s) (pcpu_slot s) (pcpu_first_chunk s) (pcpu_reserved_chunk s) (pcpu_nr_empty_pop_pages s) v (pcpu_atomic_alloc_failed s) (pages_array s) (mem s) (heap s) (page_alloc s).
Definition set_failed v s := mk_pcpu (chunks s) (pcpu_slot s) (pcpu_first_chunk s) (pcpu_reserved_chunk s) (pcpu_nr_empty_pop_pages s) (pcpu_nr_populated s) v (pages_array s) (mem s) (heap s) (page_alloc s).
Definition set_pages v s := mk_pcpu (chunks s) (pcpu_slot s) (pcpu_first_chunk s) (pcpu_reserved_chunk s) (pcpu_nr_empty_pop_pages s) (pcpu_nr_populated s) (pcpu_atomic_alloc_failed s) v (mem s) (heap s) (page_alloc s).
Definition set_mem v s := mk_pcpu (chunks s) (pcpu_slot s) (pcpu_first_chunk s) (pcpu_reserved_chunk s) (pcpu_nr_empty_pop_pages s) (pcpu_nr_populated s) (pcpu_atomic_alloc_failed s) (pages_array s) v (heap s) (page_alloc s).
Definition set_heap v s := mk_pcpu (chunks s) (pcpu_slot s) (pcpu_first_chunk s) (pcpu_reserved_chunk s) (pcpu_nr_empty_pop_pages s) (pcpu_nr_populated s) (pcpu_atomic_alloc_failed s) (pages_array s) (mem s) v (page_alloc s).
Definition set_page_alloc v s := mk_pcpu (chunks s) (pcpu_slot s) (pcpu_first_chunk s) (pcpu_reserved_chunk s) (pcpu_nr_empty_pop_pages s) (pcpu_nr_populated s) (pcpu_atomic_alloc_failed s) (pages_array s) (mem s) (heap s) v.

(** Dereference of a pointer to a chunk. *)
Definition chunk_at (s : pcpu) (x : Z) : outcome pcpu_chunk :=
  match chunks s !! x with Some c => Ret c | None => Panic end.

Context (cf : pcpu_conf).

(** ** Slots *)

Definition pcpu_addr_in_chunk (s : pcpu) (x addr : Z) : outcome bool :=
  if x =? 0 then Ret false
  else
    let! c := chunk_at s x in
    let start_addr := base_addr c +64 start_offset c in
    let end_addr := base_addr c +64 nr_pages c * PAGE_SIZE -64 end_offset c in
    Ret ((addr >=? start_addr) && (addr <? end_addr)).

Definition __pcpu_size_to_slot (size : Z) : Z := Z.max (fls size - PCPU_SLOT_BASE_SHIFT + 2) 1.
Definition pcpu_size_to_slot (size : Z) : Z :=
  if size =? pcpu_unit_size cf then pcpu_nr_slots cf - 1 else __pcpu_size_to_slot size.
Definition pcpu_chunk_slot (c : pcpu_chunk) : Z :=
  if (free_bytes c <? PCPU_MIN_ALLOC_SIZE) || (contig_bits c =? 0) then 0 else pcpu_size_to_slot (free_bytes c).

(** list_del() of [x], wherever it is linked. *)
Definition unlink (x : Z) (l : list (list Z)) : list (list Z) := map (filter (fun y => y <> x)) l.
Definition list_move (x n : Z) (l : list (list Z)) : list (list Z) :=
  alter (fun q => x :: q) (Z.to_nat n) (unlink x l).
Definition list_move_tail (x n : Z) (l : list (list Z)) : list (list Z) :=
  alter (fun q => q ++ [x]) (Z.to_nat n) (unlink x l).

Definition pcpu_chunk_relocate (s : pcpu) (x oslot : Z) : outcome pcpu :=
  let! c := chunk_at s x in
  let nslot := pcpu_chunk_slot c in
  if negb (x =? pcpu_reserved_chunk s) && negb (oslot =? nslot) then
    if oslot <? nslot then Ret (set_slot (list_move x nslot (pcpu_slot s)) s)
    else Ret (set_slot (list_move_tail x nslot (pcpu_slot s)) s)
  else Ret s.

(** -1 for no area. *)
Definition pcpu_alloc_area (s : pcpu) (x alloc_bits align start : Z) : outcome (pcpu * Z) :=
  let! c := chunk_at s x in
  let oslot := pcpu_chunk_slot c in
  let! r := alloc_area (x =? pcpu_reserved_chunk s) c (pcpu_nr_empty_pop_pages s) alloc_bits align start in
  match r with
  | None => Ret (s, -1)
  | Some (c', t, off) => let! s' := pcpu_chunk_relocate (set_chunk x c' t s) x oslot in Ret (s', off)
  end.

Definition pcpu_free_area (s : pcpu) (x off : Z) : outcome pcpu :=
  let! c := chunk_at s x in
  let oslot := pcpu_chunk_slot c in
  let! (c', t) := free_area (x =? pcpu_reserved_chunk s) c (pcpu_nr_empty_pop_pages s) off in
  pcpu_chunk_relocate (set_chunk x c' t s) x oslot.

(** ** Creating a chunk *)

Definition pcpu_mem_zalloc (k : K) (size : Z) : outcome (K * Z) :=
  if negb (oa_available k) then Ret (k, 0)
  else if size <=? PAGE_SIZE then oa_kzalloc k size
  else Panic.
Definition pcpu_mem_free (k : K) (ptr : Z) : outcome K := oa_kfree k ptr.

Definition init_md (b : pcpu_block_md) : pcpu_block_md :=
  mk_md PCPU_BITMAP_BLOCK_BITS (contig_hint_start b) PCPU_BITMAP_BLOCK_BITS PCPU_BITMAP_BLOCK_BITS (first_free b).
Definition pcpu_init_md_blocks (c : pcpu_chunk) : pcpu_chunk := set_md_blocks (map init_md (md_blocks c)) c.

(** [n] zeroed words. *)
Definition zeros (n : Z) : list Z := replicate (Z.to_nat n) 0.

Definition pcpu_alloc_chunk (k : K) : outcome (K * option (Z * pcpu_chunk)) :=
  let! (k1, chunk) := pcpu_mem_zalloc k (pcpu_chunk_struct_size cf) in
  if chunk =? 0 then Ret (k1, None)
  else
    let pages := pcpu_unit_pages cf in
    let region_bits := pcpu_nr_pages_to_map_bits pages in
    let! (k2, am) := pcpu_mem_zalloc k1 (BITS_TO_LONGS region_bits * 8) in
    if am =? 0 then let! k' := pcpu_mem_free k2 chunk in Ret (k', None)
    else
      let! (k3, bm) := pcpu_mem_zalloc k2 (BITS_TO_LONGS (region_bits + 1) * 8) in
      if bm =? 0 then let! k' := pcpu_mem_free k3 am in let! k'' := pcpu_mem_free k' chunk in Ret (k'', None)
      else
        let! (k4, mb) := pcpu_mem_zalloc k3 (pages * PAGE_SIZE / PCPU_BITMAP_BLOCK_SIZE * SIZEOF_PCPU_BLOCK_MD) in
        if mb =? 0 then
          let! k' := pcpu_mem_free k4 bm in let! k'' := pcpu_mem_free k' am in
          let! k''' := pcpu_mem_free k'' chunk in Ret (k''', None)
        else
          let c := mk_chunk (pages * PAGE_SIZE) region_bits 0 0 (zeros (BITS_TO_LONGS region_bits)) (zeros (BITS_TO_LONGS (region_bits + 1)))
                     (replicate (Z.to_nat (pages * PAGE_SIZE / PCPU_BITMAP_BLOCK_SIZE)) md_zero) 0 false 0 0 pages 0 0 (zeros (BITS_TO_LONGS pages)) in
          Ret (k4, Some (chunk, pcpu_init_md_blocks c)).

(** The call of pcpu_get_vm_areas() is commented out and BUG() put in its place. *)
Definition pcpu_create_chunk (k : K) : outcome (K * option (Z * pcpu_chunk)) :=
  let! (k1, r) := pcpu_alloc_chunk k in
  match r with
  | None => Ret (k1, None)
  | Some _ => Panic
  end.

(** ** Populating pages (mm/percpu-vm.c) *)

Definition pcpu_page_idx (cpu page_idx : Z) : outcome Z :=
  match pcpu_unit_map cf !! Z.to_nat cpu with
  | Some u => Ret (u * pcpu_unit_pages cf + page_idx)
  | None => Stuck
  end.
Definition pcpu_unit_page_offset (cpu page_idx : Z) : outcome Z :=
  match pcpu_unit_offsets cf !! Z.to_nat cpu with
  | Some o => Ret (o +64 page_idx * PAGE_SIZE)
  | None => Stuck
  end.
Definition pcpu_chunk_addr (c : pcpu_chunk) (cpu page_idx : Z) : outcome Z :=
  let! o := pcpu_unit_page_offset cpu page_idx in Ret (base_addr c +64 o).

Definition pcpu_get_pages (s : pcpu) : outcome pcpu :=
  match pages_array s with
  | Some _ => Ret s
  | None =>
      let n := pcpu_nr_units cf * pcpu_unit_pages cf in
      let! (k, p) := pcpu_mem_zalloc (heap s) (n * 8) in
      Ret (set_pages (if p =? 0 then None else Some (zeros n)) (set_heap k s))
  end.

(** [__free_page(pages[pcpu_page_idx(cpu, i)])], behind [if (page)] when
    [check] is set. *)
Definition free_idx (check : bool) (pages : list Z) (cpu i : Z) (a : P) : outcome P :=
  let! idx := pcpu_page_idx cpu i in
  match pages !! Z.to_nat idx with
  | Some p => if check && (p =? 0) then Ret a else pa_free a p 0
  | None => Stuck
  end.
(** The pages [i], [i + 1], ... ([n] of them) of a CPU, and the pages [i - 1],
    [i - 2], ... of [while (--i >= page_start)]. *)
Fixpoint free_up (check : bool) (n : nat) (pages : list Z) (cpu i : Z) (a : P) : outcome P :=
  match n with
  | O => Ret a
  | S n' => let! a1 := free_idx check pages cpu i a in free_up check n' pages cpu (i + 1) a1
  end.
Fixpoint free_down (n : nat) (pages : list Z) (cpu i : Z) (a : P) : outcome P :=
  match n with
  | O => Ret a
  | S n' => let! a1 := free_idx false pages cpu (i - 1) a in free_down n' pages cpu (i - 1) a1
  end.
Fixpoint free_cpus (check : bool) (cpus : list Z) (pages : list Z) (page_start page_end : Z) (a : P) : outcome P :=
  match cpus with
  | [] => Ret a
  | cpu :: r => let! a1 := free_up check (Z.to_nat (page_end - page_start)) pages cpu page_start a in free_cpus check r pages page_start page_end a1
  end.

Definition pcpu_free_pages (pages : list Z) (page_start page_end : Z) (a : P) : outcome P :=
  free_cpus true (possible_cpus cf) pages page_start page_end a.

(** The inner loop of pcpu_alloc_pages(): [Some i] when the allocation for
    page [i] fails. *)
Fixpoint alloc_up (n : nat) (cpu i : Z) (a : P) (pages : list Z) : outcome (P * list Z * option Z) :=
  match n with
  | O => Ret (a, pages, None)
  | S n' =>
      let! idx := pcpu_page_idx cpu i in
      if negb (bool_decide (Z.to_nat idx < length pages)%nat) then Stuck
      else
        let! (a1, r) := pa_alloc a (cpu_to_node cf cpu) 0 in
        match r with
        | None => Ret (a1, <[Z.to_nat idx := 0]> pages, Some i)
        | Some p => alloc_up n' cpu (i + 1) a1 (<[Z.to_nat idx := p]> pages)
        end
  end.
(** [prev] are the CPUs before those left, in the order of the mask. *)
Fixpoint alloc_cpus (prev cpus : list Z) (page_start page_end : Z) (a : P) (pages : list Z) : outcome (P * list Z * Z) :=
  match cpus with
  | [] => Ret (a, pages, 0)
  | cpu :: r =>
      let! (a1, pages1, failed) := alloc_up (Z.to_nat (page_end - page_start)) cpu page_start a pages in
      match failed with
      | None => alloc_cpus (prev ++ [cpu]) r page_start page_end a1 pages1
      | Some i =>
          let! a2 := free_down (Z.to_nat (i - page_start)) pages1 cpu i a1 in
          let! a3 := free_cpus false prev pages1 page_start page_end a2 in
          Ret (a3, pages1, -ENOMEM)
      end
  end.
Definition pcpu_alloc_pages (page_start page_end : Z) (a : P) (pages : list Z) : outcome (P * list Z * Z) :=
  alloc_cpus [] (possible_cpus cf) page_start page_end a pages.

Definition __pcpu_map_pages : outcome Z := Panic.
(** pcpu_map_pages(): what follows the first call for a CPU is never reached. *)
Fixpoint pcpu_map_pages (cpus : list Z) : outcome Z :=
  match cpus with
  | [] => Ret 0
  | cpu :: r => let! err := __pcpu_map_pages in if err <? 0 then Panic else pcpu_map_pages r
  end.

Definition pcpu_populate_chunk (s : pcpu) (page_start page_end : Z) : outcome (pcpu * Z) :=
  let! s1 := pcpu_get_pages s in
  match pages_array s1 with
  | None => Ret (s1, -ENOMEM)
  | Some pages =>
      let! (a, pages1, r) := pcpu_alloc_pages page_start page_end (page_alloc s1) pages in
      let s2 := set_pages (Some pages1) (set_page_alloc a s1) in
      if negb (r =? 0) then Ret (s2, -ENOMEM)
      else
        let! m := pcpu_map_pages (possible_cpus cf) in
        if negb (m =? 0) then
          let! a' := pcpu_free_pages pages1 page_start page_end a in
          Ret (set_page_alloc a' s2, -ENOMEM)
        else Ret (s2, 0)
  end.

Definition pcpu_chunk_populated (s : pcpu) (x page_start page_end : Z) (for_alloc : bool) : outcome pcpu :=
  let! c := chunk_at s x in
  let nr := page_end - page_start in
  let! p := __bitmap_set (populated c) page_start nr in
  let c1 := set_pop p (nr_populated c + nr) c in
  let s1 := set_populated (u64 (pcpu_nr_populated s + nr)) s in
  if negb for_alloc
  then Ret (set_chunk x (set_nr_empty (nr_empty_pop_pages c1 + nr) c1) (pcpu_nr_empty_pop_pages s + nr) s1)
  else Ret (set_chunk x c1 (pcpu_nr_empty_pop_pages s) s1).

(** ** Allocation *)

(** What an inner search of pcpu_alloc() ends with: [area_found], or not. *)
Definition try_chunk (s : pcpu) (x bits bit_align : Z) (is_atomic : bool) : outcome (option (pcpu * Z * Z)) :=
  let! c := chunk_at s x in
  let! off := pcpu_find_block_fit c bits bit_align is_atomic in
  if off <? 0 then Ret None
  else
    let! (s', off') := pcpu_alloc_area s x bits bit_align off in
    if off' >=? 0 then Ret (Some (s', x, off')) else Ret None.

Fixpoint search_list (s : pcpu) (l : list Z) (bits bit_align : Z) (is_atomic : bool) : outcome (option (pcpu * Z * Z)) :=
  match l with
  | [] => Ret None
  | x :: l' =>
      let! r := try_chunk s x bits bit_align is_atomic in
      match r with
      | Some f => Ret (Some f)
      | None => search_list s l' bits bit_align is_atomic
      end
  end.
(** [n] slots from [slot] on. *)
Fixpoint search_slots (n : nat) (s : pcpu) (slot bits bit_align : Z) (is_atomic : bool) : outcome (option (pcpu * Z * Z)) :=
  match n with
  | O => Ret None
  | S n' =>
      match pcpu_slot s !! Z.to_nat slot with
      | None => Stuck
      | Some l =>
          let! r := search_list s l bits bit_align is_atomic in
          match r with
          | Some f => Ret (Some f)
          | None => search_slots n' s (slot + 1) bits bit_align is_atomic
          end
      end
  end.

(** [restart:]: the state with an area of a chunk, or the state that failed.
    Fuel bounds the number of restarts. *)
Fixpoint alloc_restart (fuel : nat) (s : pcpu) (size bits bit_align : Z) (is_atomic : bool) : outcome (pcpu * option (Z * Z)) :=
  match fuel with
  | O => Stuck
  | S fuel' =>
      let slot := pcpu_size_to_slot size in
      let! r := search_slots (Z.to_nat (pcpu_nr_slots cf - slot)) s slot bits bit_align is_atomic in
      match r with
      | Some (s', x, off) => Ret (s', Some (x, off))
      | None =>
          if is_atomic then Ret (s, None)
          else
            match pcpu_slot s !! Z.to_nat (pcpu_nr_slots cf - 1) with
            | None => Stuck
            | Some [] =>
                let! (k, r) := pcpu_create_chunk (heap s) in
                match r with
                | None => Ret (set_heap k s, None)
                | Some (x, c) =>
                    let! s1 := pcpu_chunk_relocate (set_chunk x c (pcpu_nr_empty_pop_pages s) (set_heap k s)) x (-1) in
                    alloc_restart fuel' s1 size bits bit_align is_atomic
                end
            | Some (_ :: _) => alloc_restart fuel' s size bits bit_align is_atomic
            end
      end
  end.

(** pcpu_for_each_unpop_region() of pcpu_alloc(): [false] when a population
    fails, after the area is given back. *)
Fixpoint populate_loop (fuel : nat) (s : pcpu) (x off rs page_end : Z) : outcome (pcpu * bool) :=
  let! c := chunk_at s x in
  let! (rs1, re) := pcpu_next_unpop (populated c) rs page_end in
  if rs1 <? re then
    match fuel with
    | O => Stuck
    | S fuel' =>
        let! (s1, ret) := pcpu_populate_chunk s rs1 re in
        if negb (ret =? 0) then
          let! s2 := pcpu_free_area s1 x off in Ret (s2, false)
        else
          let! s2 := pcpu_chunk_populated s1 x rs1 re true in
          populate_loop fuel' s2 x off (re + 1) page_end
    end
  else Ret (s, true).

Definition memset0 (m : Z -> Z) (a size : Z) : Z -> Z :=
  fun b => if (a <=? b) && (b <? a + size) then 0 else m b.
Fixpoint clear_areas (cpus : list Z) (c : pcpu_chunk) (off size : Z) (m : Z -> Z) : outcome (Z -> Z) :=
  match cpus with
  | [] => Ret m
  | cpu :: r => let! a := pcpu_chunk_addr c cpu 0 in clear_areas r c off size (memset0 m (a +64 off) size)
  end.

Definition __addr_to_pcpu_ptr (addr : Z) : Z := addr -64 pcpu_base_addr cf +64 per_cpu_start cf.
Definition __pcpu_ptr_to_addr (ptr : Z) : Z := ptr +64 pcpu_base_addr cf -64 per_cpu_start cf.

Definition is_power_of_2 (n : Z) : bool := negb (n =? 0) && (Z.land n (u64 (n - 1)) =? 0).

(** [fail:]. *)
Definition alloc_fail (s : pcpu) (is_atomic : bool) : pcpu * Z :=
  (if is_atomic then set_failed true s else s, 0).

(** From [area_found:] on. *)
Definition area_found (s : pcpu) (x off size : Z) (is_atomic : bool) : outcome (pcpu * Z) :=
  let! (s1, ok) :=
    if negb is_atomic then
      let page_start := PFN_DOWN off in
      let page_end := PFN_UP (off + size) in
      populate_loop (Z.to_nat (page_end - page_start)) s x off page_start page_end
    else Ret (s, true) in
  if negb ok then Ret (alloc_fail s1 is_atomic)
  else
    let! c := chunk_at s1 x in
    let! m := clear_areas (possible_cpus cf) c off size (mem s1) in
    Ret (set_mem m s1, __addr_to_pcpu_ptr (base_addr c +64 off)).

Definition RESTART_FUEL : nat := 3.

Definition pcpu_alloc (s : pcpu) (size align : Z) (reserved : bool) (gfp : Z) : outcome (pcpu * Z) :=
  let is_atomic := negb (Z.land gfp GFP_KERNEL =? GFP_KERNEL) in
  let align := if align <? PCPU_MIN_ALLOC_SIZE then PCPU_MIN_ALLOC_SIZE else align in
  let size := u64 (ALIGN size PCPU_MIN_ALLOC_SIZE) in
  let bits := Z.shiftr size PCPU_MIN_ALLOC_SHIFT in
  let bit_align := Z.shiftr align PCPU_MIN_ALLOC_SHIFT in
  if (size =? 0) || (size >? PCPU_MIN_UNIT_SIZE) || (align >? PAGE_SIZE) || negb (is_power_of_2 align)
  then Ret (s, 0)
  else if reserved && negb (pcpu_reserved_chunk s =? 0) then
    let! r := try_chunk s (pcpu_reserved_chunk s) bits bit_align is_atomic in
    match r with
    | Some (s', x, off) => area_found s' x off size is_atomic
    | None => Ret (alloc_fail s is_atomic)
    end
  else
    let! (s', r) := alloc_restart RESTART_FUEL s size bits bit_align is_atomic in
    match r with
    | Some (x, off) => area_found s' x off size is_atomic
    | None => Ret (alloc_fail s' is_atomic)
    end.

Definition __alloc_percpu_gfp (s : pcpu) (size align gfp : Z) := pcpu_alloc s size align false gfp.
Definition __alloc_percpu (s : pcpu) (size align : Z) := pcpu_alloc s size align false GFP_KERNEL.
Definition __alloc_reserved_percpu (s : pcpu) (size align : Z) := pcpu_alloc s size align true GFP_KERNEL.

(** ** Freeing *)

(** pcpu_addr_to_page() is BUG(). *)
Definition pcpu_chunk_addr_search (s : pcpu) (addr : Z) : outcome Z :=
  let! b1 := pcpu_addr_in_chunk s (pcpu_first_chunk s) addr in
  if b1 then Ret (pcpu_first_chunk s)
  else
    let! b2 := pcpu_addr_in_chunk s (pcpu_reserved_chunk s) addr in
    if b2 then Ret (pcpu_reserved_chunk s) else Panic.

Definition free_percpu (s : pcpu) (ptr : Z) : outcome pcpu :=
  if ptr =? 0 then Ret s
  else
    let addr := __pcpu_ptr_to_addr ptr in
    let! x := pcpu_chunk_addr_search s addr in
    let! c := chunk_at s x in
    pcpu_free_area s x (s32 (u64 (addr - base_addr c))).

(** pcpu_nr_pages() *)
Definition pcpu_nr_pages (s : pcpu) : Z := pcpu_nr_populated s *64 pcpu_nr_units cf.

End Core.
Arguments pcpu : clear implicits.
