(* ===== verification/PercpuCoreSpec.v ===== *)
(** * The per-CPU allocator: the invariant of the whole

    [pcpu_ok] relates a state to the map [lv] of live areas of every chunk.
    As pcpu_create_chunk() never returns a chunk, the chunks are those set up
    while booting: the first one and perhaps the reserved one, both populated
    in full. *)

From S2P Require Import Prelude Objects Bitops Memblock Buddy PageOwner Bitmap BitmapSpec Percpu PercpuBlock PercpuRefresh PercpuAlloc PercpuCore.
From stdpp Require Import base list numbers option gmap.
#[local] Open Scope Z_scope.
#[local] Open Scope kernel_scope.

(** What boot establishes: sizes, and a unit for each CPU, apart from the others. *)
Record conf_ok (cf : pcpu_conf) : Prop := {
  co_pages : 8 <= pcpu_unit_pages cf < 2 ^ 18;
  co_size : pcpu_unit_size cf = 4096 * pcpu_unit_pages cf;
  co_slots : pcpu_nr_slots cf = __pcpu_size_to_slot (pcpu_unit_size cf) + 2;
  co_start : 0 < per_cpu_start cf /\ per_cpu_start cf + pcpu_unit_size cf < 2 ^ 64;
  co_base : 0 <= pcpu_base_addr cf;
  co_unit : forall cpu, cpu ∈ possible_cpus cf -> exists o, pcpu_unit_offsets cf !! Z.to_nat cpu = Some o
    /\ 0 <= o /\ pcpu_base_addr cf + o + pcpu_unit_size cf < 2 ^ 64;
  co_room : pcpu_base_addr cf + pcpu_unit_size cf < 2 ^ 64;
  co_apart : forall cpu1 cpu2 o1 o2, cpu1 ∈ possible_cpus cf -> cpu2 ∈ possible_cpus cf -> cpu1 <> cpu2 ->
    pcpu_unit_offsets cf !! Z.to_nat cpu1 = Some o1 -> pcpu_unit_offsets cf !! Z.to_nat cpu2 = Some o2 ->
    o1 + pcpu_unit_size cf <= o2 \/ o2 + pcpu_unit_size cf <= o1
}.

(** A chunk of the first unit: the ends outside the region it serves are
    hidden as live areas. *)
Record chunk_in (cf : pcpu_conf) (live : gmap Z Z) (c : pcpu_chunk) : Prop := {
  ci_ok : chunk_ok live c;
  ci_unit : pcpu_base_addr cf <= base_addr c /\ base_addr c + 4096 * nr_pages c <= pcpu_base_addr cf + pcpu_unit_size cf;
  ci_aligned : (4096 | base_addr c);
  ci_pop : all_populated c;
  ci_off : 0 <= start_offset c /\ 0 <= end_offset c /\ (4 | start_offset c) /\ (4 | end_offset c)
    /\ start_offset c + end_offset c < 4096 * nr_pages c;
  ci_start : 0 < start_offset c -> live !! 0 = Some (start_offset c / 4);
  ci_end : 0 < end_offset c -> live !! (1024 * nr_pages c - end_offset c / 4) = Some (end_offset c / 4);
  ci_whole : (forall i, 0 <= i < 1024 * nr_pages c -> used c i = false) -> contig_exact (used c) c
}.

(** The addresses a chunk serves. *)
Definition lo_addr (c : pcpu_chunk) : Z := base_addr c + start_offset c.
Definition hi_addr (c : pcpu_chunk) : Z := base_addr c + 4096 * nr_pages c - end_offset c.

(** An area that was handed out, not a hidden end. *)
Definition served (c : pcpu_chunk) (o n : Z) : Prop :=
  start_offset c <= 4 * o /\ 4 * (o + n) <= 4096 * nr_pages c - end_offset c.

Section Spec.
Context {K P : Type}.

(** The only chunk in the lists is [x], in slot [k]. *)
Definition slots_at (x k : Z) (L : list (list Z)) : Prop :=
  forall i l, L !! i = Some l -> l = if decide (Z.of_nat i = k) then [x] else [].

Record pcpu_ok (cf : pcpu_conf) (s : pcpu K P) (lv : gmap Z (gmap Z Z)) : Prop := {
  po_conf : conf_ok cf;
  po_dom : forall x, is_Some (chunks s !! x) <-> x = pcpu_first_chunk s \/ (x = pcpu_reserved_chunk s /\ x <> 0);
  po_first : pcpu_first_chunk s <> 0 /\ pcpu_first_chunk s <> pcpu_reserved_chunk s;
  po_chunk : forall x c, chunks s !! x = Some c -> exists live, lv !! x = Some live /\ chunk_in cf live c;
  po_apart : forall x y c d, chunks s !! x = Some c -> chunks s !! y = Some d -> x <> y -> hi_addr c <= lo_addr d \/ hi_addr d <= lo_addr c;
  po_slots : Z.of_nat (length (pcpu_slot s)) = pcpu_nr_slots cf
    /\ forall c, chunks s !! pcpu_first_chunk s = Some c -> slots_at (pcpu_first_chunk s) (pcpu_chunk_slot cf c) (pcpu_slot s)
}.

(** ** Slots *)

Lemma fls_mono a b : 0 <= a <= b -> b < 2 ^ 32 -> fls a <= fls b.
Proof.
  intros Hab Hb. unfold fls. unwrap. apply fls64_le; [lia|apply fls64_nonneg|].
  pose proof (fls64_le b (fls64 b) ltac:(lia) (fls64_nonneg b)) as [H _]. specialize (H ltac:(lia)). lia.
Qed.

Lemma size_to_slot_mono a b : 0 <= a <= b -> b < 2 ^ 32 -> 1 <= __pcpu_size_to_slot a <= __pcpu_size_to_slot b.
Proof. intros Hab Hb. pose proof (fls_mono a b Hab Hb). unfold __pcpu_size_to_slot. lia. Qed.

Lemma unlink_lookup x k L : slots_at x k L -> forall i l, unlink x L !! i = Some l -> l = [].
Proof.
  intros HL i l. unfold unlink. rewrite list_lookup_fmap. destruct (L !! i) as [l0|] eqn:E; cbn; [|done].
  intros [= <-]. rewrite (HL _ _ E). destruct (decide _); [|done]. by rewrite filter_cons_False, filter_nil by auto.
Qed.

Lemma unlink_length x L : length (unlink x L) = length L.
Proof. apply length_fmap. Qed.

Lemma move_slots x k n L f : slots_at x k L -> 0 <= n -> f [] = [x] -> slots_at x n (alter f (Z.to_nat n) (unlink x L)).
Proof.
  intros HL Hn Hf i l. rewrite list_lookup_alter. destruct (decide (Z.to_nat n = i)) as [Ei|Ei].
  - subst i. destruct (unlink x L !! Z.to_nat n) as [l0|] eqn:E; cbn; [|done]. intros [= <-]. rewrite (unlink_lookup x k L HL _ _ E), Hf.
    by rewrite decide_True by lia.
  - intros E. rewrite decide_False by lia. by apply (unlink_lookup x k L HL _ _ E).
Qed.

Section Inv.
Context (cf : pcpu_conf) (Hcf : conf_ok cf).

Lemma free_range live c : chunk_ok live c -> 0 <= free_bytes c <= 4096 * nr_pages c.
Proof.
  intros Hc. rewrite (ck_free _ _ Hc). pose proof (cs_pages _ (ck_shape _ _ Hc)) as Hp. unfold countz.
  pose proof (count_bounds (used c) (Z.to_nat (1024 * nr_pages c))). lia.
Qed.

Lemma unit_range live c : chunk_in cf live c -> 0 < nr_pages c <= pcpu_unit_pages cf.
Proof. intros [Hok [? ?] _ _ _ _ _]. pose proof (cs_pages _ (ck_shape _ _ Hok)). rewrite (co_size _ Hcf) in *. lia. Qed.

(** Slots of chunks exist, and the last one holds only wholly free chunks. *)
Lemma chunk_slot_range live c : chunk_in cf live c ->
  0 <= pcpu_chunk_slot cf c < pcpu_nr_slots cf
  /\ (pcpu_chunk_slot cf c = pcpu_nr_slots cf - 1 <-> free_bytes c = pcpu_unit_size cf /\ contig_bits c <> 0).
Proof.
  intros Hc. pose proof (unit_range _ _ Hc) as Hu. pose proof (free_range _ _ (ci_ok _ _ _ Hc)) as Hf.
  pose proof (co_pages _ Hcf) as Hp. pose proof (co_size _ Hcf) as Hs.
  pose proof (size_to_slot_mono (free_bytes c) (pcpu_unit_size cf) ltac:(lia) ltac:(lia)) as Hm. rewrite (co_slots _ Hcf).
  unfold pcpu_chunk_slot, pcpu_size_to_slot, PCPU_MIN_ALLOC_SIZE. rewrite (co_slots _ Hcf).
  destruct (Z.ltb_spec (free_bytes c) 4), (Z.eqb_spec (contig_bits c) 0); cbn [orb]; try (split; lia).
  destruct (Z.eqb_spec (free_bytes c) (pcpu_unit_size cf)); split; lia.
Qed.

(** pcpu_chunk_relocate() after a chunk changed. *)
Lemma relocate_spec (s : pcpu K P) x c c' t live' :
  chunks s !! x = Some c -> chunk_in cf live' c' -> (x <> pcpu_reserved_chunk s -> slots_at x (pcpu_chunk_slot cf c) (pcpu_slot s)) ->
  exists L, pcpu_chunk_relocate cf (set_chunk x c' t s) x (pcpu_chunk_slot cf c) = Ret (set_slot L (set_chunk x c' t s))
    /\ length L = length (pcpu_slot s)
    /\ (if decide (x = pcpu_reserved_chunk s) then L = pcpu_slot s else slots_at x (pcpu_chunk_slot cf c') L).
Proof.
  intros Hx Hc' HL. unfold pcpu_chunk_relocate, chunk_at. cbn [chunks set_chunk]. rewrite lookup_insert_eq. cbn [obind].
  cbn [pcpu_reserved_chunk set_chunk pcpu_slot]. destruct (chunk_slot_range _ _ Hc') as [Hr _].
  destruct (Z.eqb_spec x (pcpu_reserved_chunk s)) as [E|E]; cbn [negb andb].
  - exists (pcpu_slot s). split; [by destruct s|]. by rewrite decide_True.
  - specialize (HL E). destruct (Z.eqb_spec (pcpu_chunk_slot cf c) (pcpu_chunk_slot cf c')) as [Es|Es]; cbn [negb].
    + exists (pcpu_slot s). split; [by destruct s|]. rewrite decide_False by done. split; [done|]. by rewrite <- Es.
    + destruct (_ <? _); eexists; (split; [reflexivity|]); rewrite decide_False by done; unfold list_move, list_move_tail;
        rewrite length_alter, unlink_length; (split; [done|]); apply (move_slots x (pcpu_chunk_slot cf c)); (done || lia).
Qed.

(** A changed chunk, in its new slot. *)
Lemma pcpu_ok_update (s : pcpu K P) lv x c c' live' t L :
  pcpu_ok cf s lv -> chunks s !! x = Some c -> chunk_in cf live' c' -> same_geom c c' -> length L = length (pcpu_slot s) ->
  (if decide (x = pcpu_reserved_chunk s) then L = pcpu_slot s else slots_at x (pcpu_chunk_slot cf c') L) ->
  pcpu_ok cf (set_slot L (set_chunk x c' t s)) (<[x := live']> lv).
Proof.
  intros [_ Hd Hf Hc Ha [Hl Hs]] Hx Hin (G1 & _ & G3 & G4 & G5 & _) HlL HL.
  assert (Hlo : lo_addr c' = lo_addr c /\ hi_addr c' = hi_addr c) by (unfold lo_addr, hi_addr; rewrite G1, G3, G4, G5; done).
  split; cbn [set_slot set_chunk chunks pcpu_slot pcpu_first_chunk pcpu_reserved_chunk]; [done| |done| | |].
  - intros y. rewrite <- Hd. destruct (decide (x = y)) as [<-|Hne]; [|by rewrite lookup_insert_ne]. rewrite lookup_insert_eq, Hx. split; eauto.
  - intros y d [[<- <-]|[Hne Hy]]%lookup_insert_Some; [exists live'; by rewrite lookup_insert_eq|]. rewrite lookup_insert_ne by done. by apply Hc.
  - intros y z d e [[<- <-]|[Hny Hy]]%lookup_insert_Some [[<- <-]|[Hnz Hz]]%lookup_insert_Some Hyz; [done| | |by apply (Ha y z)].
    + destruct Hlo as [-> ->]. by apply (Ha x z).
    + destruct Hlo as [-> ->]. by apply (Ha y x).
  - split; [lia|]. intros d Hd'. destruct (decide (x = pcpu_first_chunk s)) as [->|Hne].
    + rewrite lookup_insert_eq in Hd'. injection Hd' as <-. rewrite decide_False in HL by apply Hf. done.
    + rewrite lookup_insert_ne in Hd' by done. assert (x = pcpu_reserved_chunk s) as E by (destruct (proj1 (Hd x)) as [?|[? _]]; eauto; done).
      rewrite decide_True in HL by done. subst L. by apply Hs.
Qed.

(** Slots as relocation wants them. *)
Lemma ok_slots (s : pcpu K P) lv x c : pcpu_ok cf s lv -> chunks s !! x = Some c -> x <> pcpu_reserved_chunk s ->
  slots_at x (pcpu_chunk_slot cf c) (pcpu_slot s).
Proof.
  intros [_ Hd _ _ _ [_ Hs]] Hx Hr. destruct (proj1 (Hd x)) as [->|[? _]]; [eauto|by apply Hs|done].
Qed.

(** ** Areas within the served region *)

Lemma served_of live c o n : chunk_in cf live c -> live !! o = Some n ->
  (start_offset c = 0 \/ o <> 0) -> (end_offset c = 0 \/ o <> 1024 * nr_pages c - end_offset c / 4) -> served c o n.
Proof.
  intros [Hok _ _ _ (Hs0 & He0 & [a Ha] & [b Hb] & Hsum) Hst Hen _] Ho Hns Hne.
  destruct (ck_areas _ _ Hok) as [Hr _ _ Hd _]. destruct (Hr _ _ Ho) as (Ho0 & Hn & HM). split.
  - destruct Hns as [->|Hns]; [lia|]. destruct (Z.eq_dec (start_offset c) 0); [lia|]. specialize (Hst ltac:(lia)).
    rewrite Ha, Z.div_mul in Hst by lia. destruct (Hd _ _ _ _ Hst Ho ltac:(lia)); lia.
  - destruct Hne as [->|Hne]; [lia|]. destruct (Z.eq_dec (end_offset c) 0); [lia|]. specialize (Hen ltac:(lia)).
    rewrite Hb, Z.div_mul in Hen, Hne by lia. destruct (Hd _ _ _ _ Hen Ho ltac:(lia)); lia.
Qed.

Lemma served_not_hidden c o n : 0 < n -> served c o n -> (4 | end_offset c) ->
  (start_offset c <= 0 \/ o <> 0) /\ (end_offset c <= 0 \/ o <> 1024 * nr_pages c - end_offset c / 4).
Proof. intros Hn [Hs He] [b Hb]. rewrite Hb, Z.div_mul in * by lia. lia. Qed.

Lemma chunk_in_alloc live c c' o n :
  chunk_in cf live c -> 0 < n -> live !! o = None -> chunk_ok (<[o := n]> live) c' -> bits_taken (used c) (used c') o n -> same_geom c c' ->
  chunk_in cf (<[o := n]> live) c' /\ served c' o n.
Proof.
  intros Hin Hn Hnone Hok [_ Ht] (G1 & G2 & G3 & G4 & G5 & G6 & G7). destruct (ar_range _ _ _ _ (ck_areas _ _ Hok) o n) as (Ho & _ & HM); [by rewrite lookup_insert_eq|].
  assert (Hin' : chunk_in cf (<[o := n]> live) c').
  { destruct Hin as [_ Hu Hal Hpop Hoff Hst Hen _]. split; rewrite ?G1, ?G3, ?G4, ?G5; try done.
    - intros p. rewrite G5, G7. apply Hpop.
    - intros H0. rewrite lookup_insert_ne; [by apply Hst|]. intros ->. by rewrite Hst in Hnone.
    - intros H0. rewrite lookup_insert_ne; [by apply Hen|]. intros ->. by rewrite Hen in Hnone.
    - intros Hall. rewrite G5 in HM. specialize (Hall o ltac:(lia)). rewrite Ht in Hall by lia.
      destruct (Z.leb_spec o o), (Z.ltb_spec o (o + n)); cbn in Hall; try done; lia. }
  split; [done|]. pose proof Hin as [_ _ _ _ (? & ? & _) Hst Hen _].
  apply (served_of (<[o := n]> live)); [done|by rewrite lookup_insert_eq| |]; rewrite ?G3, ?G4, ?G5.
  - destruct (Z.eq_dec (start_offset c) 0); [by left|]. right. intros ->. rewrite Hst in Hnone by lia. done.
  - destruct (Z.eq_dec (end_offset c) 0); [by left|]. right. intros ->. rewrite Hen in Hnone by lia. done.
Qed.

Lemma chunk_in_free live c c' o n :
  chunk_in cf live c -> live !! o = Some n -> served c o n -> chunk_ok (delete o live) c' -> same_geom c c' ->
  ((forall i, 0 <= i < 1024 * nr_pages c -> used c' i = false) -> contig_exact (used c') c') -> chunk_in cf (delete o live) c'.
Proof.
  intros [Hok0 Hu Hal Hpop (Hs0 & He0 & H4 & H4e & Hsum) Hst Hen _] Ho Hsv Hok (G1 & G2 & G3 & G4 & G5 & G6 & G7) Hw.
  destruct (ar_range _ _ _ _ (ck_areas _ _ Hok0) _ _ Ho) as (_ & Hn & _). destruct (served_not_hidden c o n Hn Hsv H4e) as [Hh1 Hh2].
  split; rewrite ?G1, ?G3, ?G4, ?G5; try done.
  - intros p. rewrite G5, G7. apply Hpop.
  - intros H0. rewrite lookup_delete_ne; [by apply Hst|lia].
  - intros H0. rewrite lookup_delete_ne; [by apply Hen|lia].
Qed.

(** ** One chunk *)

(** The state after an area [o, o + n) of chunk [x] was taken. *)
Record area_taken (s : pcpu K P) (lv : gmap Z (gmap Z Z)) (x o n : Z) (s' : pcpu K P) : Prop := {
  at_state : exists c c' t L, chunks s !! x = Some c /\ s' = set_slot L (set_chunk x c' t s) /\ same_geom c c' /\ served c' o n
    /\ (contig_exact (used c) c -> contig_exact (used c') c');
  at_live : exists live, lv !! x = Some live /\ live !! o = None /\ pcpu_ok cf s' (<[x := <[o := n]> live]> lv)
}.

Lemma try_chunk_spec s lv x n k atomic :
  pcpu_ok cf s lv -> is_Some (chunks s !! x) -> 0 < n < 2 ^ 20 -> 0 <= k <= 10 ->
  exists r, try_chunk cf s x n (2 ^ k) atomic = Ret r
    /\ match r with
       | None => True
       | Some (s', x', off) => x' = x /\ exists o, off = 4 * o /\ (2 ^ k | o) /\ area_taken s lv x o n s'
       end
    /\ forall c, chunks s !! x = Some c ->
         (exists r0 bs, pcpu_find_block_fit c n (2 ^ k) atomic = Ret r0 /\ fits (used c) (1024 * nr_pages c) n k r0 bs) -> r <> None.
Proof.
  intros Hok [c Hx] Hn Hk. destruct (po_chunk _ _ _ Hok x c Hx) as (live & Hlv & Hin). pose proof (ci_ok _ _ _ Hin) as Hck.
  unfold try_chunk, pcpu_alloc_area, chunk_at. rewrite Hx. cbn [obind].
  destruct (find_block_fit_spec (used c) c (ck_shape _ _ Hck) (ck_hints _ _ Hck) n k ltac:(lia) Hk atomic (proj1 (ck_first _ _ Hck))) as (r0 & E0 & Hr0).
  rewrite E0. cbn [obind]. destruct (Z.ltb_spec r0 0) as [Hneg|Hpos].
  { exists None. split; [done|]. split; [done|]. intros c1 Hc1 (r1 & bs & E1 & [Hb _ _]). replace c1 with c in * by congruence. rewrite E0 in E1. injection E1 as <-. lia. }
  destruct Hr0 as [->|(bs & Hfit & _)]; [lia|].
  destruct (alloc_area_spec live (x =? pcpu_reserved_chunk s) c (pcpu_nr_empty_pop_pages s) n k r0 bs Hck Hn Hk Hfit) as (c' & t' & o & -> & Hfa & _ & Hnone & Hck' & Ht & Hg & Hexact).
  cbn [obind]. destruct (chunk_in_alloc live c c' o n Hin ltac:(lia) Hnone Hck' Ht Hg) as [Hin' Hsv].
  destruct (relocate_spec s x c c' t' _ Hx Hin' (ok_slots s lv x c Hok Hx)) as (L & -> & HlL & HL). cbn [obind].
  destruct (ar_range _ _ _ _ (ck_areas _ _ Hck') o n) as (Ho & _ & _); [by rewrite lookup_insert_eq|].
  rewrite Z.geb_leb. unfold PCPU_MIN_ALLOC_SIZE. destruct (Z.leb_spec 0 (o * 4)); [|lia].
  eexists. split; [reflexivity|]. split; [|done]. split; [done|]. exists o. split; [lia|]. split; [apply Hfa|]. split.
  - exists c, c', t', L. done.
  - exists live. split; [done|]. split; [done|]. by apply (pcpu_ok_update s lv x c c').
Qed.

(** ** The search of all slots *)

Lemma search_list_one (s : pcpu K P) x n a atomic : search_list cf s [x] n a atomic = try_chunk cf s x n a atomic.
Proof. cbn [search_list]. by destruct (try_chunk cf s x n a atomic) as [[[[??]?]|]| |]. Qed.

Lemma search_slots_eq s lv c n a atomic : pcpu_ok cf s lv -> chunks s !! pcpu_first_chunk s = Some c ->
  forall m slot, 0 <= slot -> slot + Z.of_nat m = pcpu_nr_slots cf ->
  search_slots cf m s slot n a atomic = if slot <=? pcpu_chunk_slot cf c then try_chunk cf s (pcpu_first_chunk s) n a atomic else Ret None.
Proof.
  intros Hok Hx. destruct (po_slots _ _ _ Hok) as [Hl HS]. specialize (HS c Hx).
  destruct (po_chunk _ _ _ Hok _ _ Hx) as (live & _ & Hin). destruct (chunk_slot_range live c Hin) as [Hr _].
  induction m as [|m IH]; intros slot H0 Hm; cbn [search_slots].
  - destruct (Z.leb_spec slot (pcpu_chunk_slot cf c)); [lia|done].
  - destruct (lookup_lt_is_Some_2 (pcpu_slot s) (Z.to_nat slot) ltac:(lia)) as [l El]. rewrite El, (HS _ _ El), IH by lia.
    destruct (decide (Z.of_nat (Z.to_nat slot) = pcpu_chunk_slot cf c)) as [E|E].
    + rewrite search_list_one. destruct (Z.leb_spec slot (pcpu_chunk_slot cf c)); [|lia].
      destruct (Z.leb_spec (slot + 1) (pcpu_chunk_slot cf c)); [lia|]. by destruct (try_chunk _ _ _ _ _ _) as [[[[??]?]|]| |].
    + cbn [search_list obind]. destruct (Z.leb_spec (slot + 1) (pcpu_chunk_slot cf c)), (Z.leb_spec slot (pcpu_chunk_slot cf c)); done || lia.
Qed.

Lemma countz_span Q a b : 0 <= a <= b -> countz Q b - countz Q a <= b - a.
Proof.
  intros Hab. unfold countz. replace (Z.to_nat b) with (Z.to_nat a + Z.to_nat (b - a))%nat by lia. rewrite count_add.
  pose proof (count_bounds (fun i => Q (Z.of_nat (Z.to_nat a) + i)) (Z.to_nat (b - a))). lia.
Qed.

(** A free run of a chunk is covered by its free bytes. *)
Lemma run_free_bytes live c x y : chunk_ok live c -> 0 <= x <= y -> y <= 1024 * nr_pages c -> free_on (used c) x y -> 4 * (y - x) <= free_bytes c.
Proof.
  intros Hc Hxy Hy Hf. rewrite (ck_free _ _ Hc). pose proof (countz_none (used c) x y Hxy Hf).
  pose proof (countz_span (used c) 0 x ltac:(lia)). pose proof (countz_span (used c) y (1024 * nr_pages c) ltac:(lia)).
  change (countz (used c) 0) with 0 in *. lia.
Qed.

(** A chunk with room for a size is in a slot that the search for it visits. *)
Lemma slot_visited live c size : chunk_in cf live c -> 0 < size <= free_bytes c -> contig_bits c <> 0 -> 4 <= free_bytes c ->
  0 <= pcpu_size_to_slot cf size <= pcpu_chunk_slot cf c.
Proof.
  intros Hin Hs Hcb H4. destruct (chunk_slot_range live c Hin) as [Hr [_ Hlast]]. pose proof (unit_range _ _ Hin). pose proof (free_range _ _ (ci_ok _ _ _ Hin)) as Hf.
  pose proof (co_pages _ Hcf). pose proof (co_size _ Hcf). pose proof (co_slots _ Hcf).
  pose proof (size_to_slot_mono size (free_bytes c) ltac:(lia) ltac:(lia)). pose proof (size_to_slot_mono (free_bytes c) (pcpu_unit_size cf) ltac:(lia) ltac:(lia)).
  unfold pcpu_chunk_slot, pcpu_size_to_slot, PCPU_MIN_ALLOC_SIZE in *.
  destruct (Z.ltb_spec (free_bytes c) 4); [lia|]. destruct (Z.eqb_spec (contig_bits c) 0); [done|]. cbn [orb] in *.
  destruct (Z.eqb_spec size (pcpu_unit_size cf)), (Z.eqb_spec (free_bytes c) (pcpu_unit_size cf)); lia.
Qed.

(** A request for [n] bits at a multiple of [2 ^ k] that a chunk surely serves:
    its hint is exact and exceeds the request by the alignment twice, or the
    chunk is wholly free. *)
Definition roomy (c : pcpu_chunk) (n k : Z) : Prop :=
  contig_exact (used c) c /\ n <= contig_bits c
  /\ (n + 2 * (2 ^ k - 1) <= contig_bits c \/ forall i, 0 <= i < 1024 * nr_pages c -> used c i = false).

Lemma roomy_fits live c n k atomic : chunk_in cf live c -> 0 < n < 2 ^ 20 -> 0 <= k <= 10 -> roomy c n k ->
  exists r0 bs, pcpu_find_block_fit c n (2 ^ k) atomic = Ret r0 /\ fits (used c) (1024 * nr_pages c) n k r0 bs.
Proof.
  intros Hin Hn Hk (Hex & Hle & Hor). pose proof (ci_ok _ _ _ Hin) as Hck. destruct (ck_first _ _ Hck) as [Hf0 Hf1]. destruct (ck_contig _ _ Hck) as [? ?].
  destruct Hor as [Hw|Hall].
  - apply find_block_fit_complete; try done; [apply Hck|apply Hck|lia|]. intros _. apply Hin.
  - apply find_block_fit_whole; try done; [apply Hck|apply Hck|lia| |lia|].
    + intros _. apply Hin.
    + destruct (Z.eq_dec (first_bit c) 0); [done|]. specialize (Hf1 0 ltac:(lia)). rewrite Hall in Hf1 by lia. done.
Qed.

Lemma roomy_slot live c n k : chunk_in cf live c -> 0 < n -> roomy c n k ->
  0 <= pcpu_size_to_slot cf (4 * n) <= pcpu_chunk_slot cf c.
Proof.
  intros Hin Hn ([_ Hrun _] & Hle & _). destruct (Hrun ltac:(lia)) as (Hs & He & Hf).
  pose proof (run_free_bytes live c (contig_bits_start c) (contig_bits_start c + contig_bits c) (ci_ok _ _ _ Hin) ltac:(lia) He Hf). apply (slot_visited live); [done|lia|lia|lia].
Qed.

(** ** Restarts *)

Section Restart.
Context `{ObjectAllocator K}.

(** What an allocation without room comes to: pcpu_create_chunk(), which
    answers NULL or runs into BUG(). *)
Definition grow (s : pcpu K P) : outcome (pcpu K P * option (Z * Z)) :=
  let! (k, _) := pcpu_create_chunk cf (heap s) in Ret (set_heap k s, None).

Lemma create_chunk_none k : match pcpu_create_chunk cf k with Ret (_, Some _) => False | _ => True end.
Proof. unfold pcpu_create_chunk. by destruct (pcpu_alloc_chunk cf k) as [[? [?|]]| |]. Qed.

Lemma restart_spec fuel s lv n k atomic :
  pcpu_ok cf s lv -> 0 < n <= 8192 -> 0 <= k <= 10 ->
  (exists s' o, alloc_restart cf (S fuel) s (4 * n) n (2 ^ k) atomic = Ret (s', Some (pcpu_first_chunk s, 4 * o))
     /\ (2 ^ k | o) /\ area_taken s lv (pcpu_first_chunk s) o n s')
  \/ ((forall c, chunks s !! pcpu_first_chunk s = Some c -> ~ roomy c n k)
      /\ alloc_restart cf (S fuel) s (4 * n) n (2 ^ k) atomic = if atomic then Ret (s, None) else grow s).
Proof.
  intros Hok Hn Hk. set (x := pcpu_first_chunk s). assert (Hx : is_Some (chunks s !! x)) by (apply (po_dom _ _ _ Hok); by left).
  destruct (try_chunk_spec s lv x n k atomic Hok Hx ltac:(lia) Hk) as (r & Er & Hr & Hroom). destruct Hx as [c Hx]. specialize (Hroom c Hx).
  destruct (po_chunk _ _ _ Hok _ _ Hx) as (live & _ & Hin). cbn [alloc_restart].
  assert (Hslot : 0 <= pcpu_size_to_slot cf (4 * n) <= pcpu_nr_slots cf - 1).
  { unfold pcpu_size_to_slot. pose proof (co_pages _ Hcf). pose proof (co_size _ Hcf). pose proof (co_slots _ Hcf).
    pose proof (size_to_slot_mono (4 * n) (pcpu_unit_size cf) ltac:(lia) ltac:(lia)). destruct (_ =? _); lia. }
  rewrite (search_slots_eq s lv c n (2 ^ k) atomic Hok Hx) by lia. fold x. rewrite Er.
  assert (Hno : forall r', (if pcpu_size_to_slot cf (4 * n) <=? pcpu_chunk_slot cf c then Ret r else Ret None) = Ret r' -> r' = None ->
    forall c', chunks s !! x = Some c' -> ~ roomy c' n k).
  { intros r' E -> c' Hc' Hroomy. replace c' with c in * by congruence. pose proof (roomy_slot live c n k Hin ltac:(lia) Hroomy).
    destruct (Z.leb_spec (pcpu_size_to_slot cf (4 * n)) (pcpu_chunk_slot cf c)); [|lia]. injection E as ->.
    by apply (Hroom (roomy_fits live c n k atomic Hin ltac:(lia) Hk Hroomy)). }
  destruct (if _ <=? _ then Ret r else Ret None) as [r'| |] eqn:Er'; [|by destruct (_ <=? _)..]. cbn [obind]. specialize (Hno r' eq_refl).
  destruct r' as [[[s' x'] off]|].
  { left. assert (r = Some (s', x', off)) by (destruct (_ <=? _); congruence). subst r. destruct Hr as (-> & o & -> & Hd & Ht). by exists s', o. }
  right. specialize (Hno eq_refl). split; [done|]. destruct atomic; [done|].
  destruct (po_slots _ _ _ Hok) as [Hl HS]. specialize (HS c Hx).
  destruct (lookup_lt_is_Some_2 (pcpu_slot s) (Z.to_nat (pcpu_nr_slots cf - 1)) ltac:(lia)) as [l El]. rewrite El, (HS _ _ El).
  rewrite decide_False.
  - unfold grow. pose proof (create_chunk_none (heap s)). by destruct (pcpu_create_chunk cf (heap s)) as [[h [?|]]| |].
  - intros E. destruct (chunk_slot_range live c Hin) as [_ [Hlast _]]. destruct (Hlast ltac:(lia)) as [Hfb Hcb].
    pose proof (unit_range _ _ Hin). pose proof (ck_free _ _ (ci_ok _ _ _ Hin)) as Hf. pose proof (co_size _ Hcf). pose proof (co_pages _ Hcf).
    assert (Hz : countz (used c) (1024 * nr_pages c) = 0 /\ nr_pages c = pcpu_unit_pages cf) by (pose proof (count_bounds (used c) (Z.to_nat (1024 * nr_pages c))); unfold countz in *; lia).
    assert (Hall : forall i, 0 <= i < 1024 * nr_pages c -> used c i = false) by (intros i Hi; apply (proj1 (count_zero _ _) (proj1 Hz)); lia).
    apply (Hno c Hx). split; [by apply Hin|]. split; [|by right]. destruct (ci_whole _ _ _ Hin Hall) as [_ _ Hmax].
    specialize (Hmax 0 (1024 * nr_pages c) ltac:(lia) ltac:(lia) Hall). lia.
Qed.
End Restart.

(** ** From an area to a pointer *)

Lemma next_unpop_full c ps pe : chunk_shape c -> all_populated c -> 0 <= ps <= pe -> pe <= nr_pages c ->
  pcpu_next_unpop (populated c) ps pe = Ret (pe, pe).
Proof.
  intros [Hp _ _ _ [Hpm Hpl]] Hall Hps Hpe. unfold pcpu_next_unpop. assert (Hwf : bm_wf (populated c) pe) by (split; [done|lia|lia]).
  destruct (find_next_zero_bit_spec _ pe ps Hwf ltac:(lia)) as (rs & -> & [Hle1 Hf1 Hn1]). cbn [obind].
  assert (rs = pe) as ->.
  { destruct (Z.lt_ge_cases rs pe) as [Hlt|]; [|lia]. destruct (Hf1 Hlt) as [Hge Hb]. rewrite Hall in Hb by lia. done. }
  destruct (find_next_bit_spec _ pe (pe + 1) Hwf ltac:(lia)) as (re & -> & [Hle2 Hf2 _]). cbn [obind].
  destruct (Z.lt_ge_cases re pe) as [Hlt|]; [destruct (Hf2 Hlt); lia|]. by replace re with pe by lia.
Qed.

(** Byte [b] belongs to the area at [a] of the unit of some CPU. *)
Definition in_units (cpus : list Z) (a size b : Z) : bool :=
  existsb (fun cpu => match pcpu_unit_offsets cf !! Z.to_nat cpu with
                      | Some u => (a + u <=? b) && (b <? a + u + size)
                      | None => false
                      end) cpus.

Lemma clear_areas_spec c off size : 0 <= off -> 0 < size ->
  pcpu_base_addr cf <= base_addr c -> base_addr c + off + size <= pcpu_base_addr cf + pcpu_unit_size cf ->
  forall cpus m, (forall cpu, cpu ∈ cpus -> cpu ∈ possible_cpus cf) ->
  exists m', clear_areas cf cpus c off size m = Ret m'
    /\ forall b, m' b = if in_units cpus (base_addr c + off) size b then 0 else m b.
Proof.
  intros Hoff Hsize Hb1 Hb2. pose proof (co_base _ Hcf). pose proof (co_size _ Hcf). pose proof (co_pages _ Hcf).
  induction cpus as [|cpu r IH]; intros m Hin; cbn [clear_areas]; [by exists m|].
  destruct (co_unit _ Hcf cpu (Hin cpu ltac:(by left))) as (u & Eu & Hu0 & Hu1).
  unfold pcpu_chunk_addr, pcpu_unit_page_offset. rewrite Eu. cbn [obind]. unwrap.
  match goal with |- context [clear_areas cf r c off size ?m1] => destruct (IH m1) as (m' & -> & Hm') end; [intros; apply Hin; by right|].
  exists m'. split; [done|]. intros b. rewrite Hm'. unfold memset0. cbn [in_units existsb]. rewrite Eu. fold (in_units r (base_addr c + off) size b).
  replace (base_addr c + (u + 0 * PAGE_SIZE) + off) with (base_addr c + off + u) by lia.
  destruct (in_units r _ _ _); [by rewrite orb_true_r|]. by rewrite orb_false_r.
Qed.

Section Found.
Context `{ObjectAllocator K} `{PageAllocator P}.

(** The pointer for an area, and memory once the area is cleared. *)
Definition area_ptr (c : pcpu_chunk) (o : Z) : Z := base_addr c + 4 * o - pcpu_base_addr cf + per_cpu_start cf.

Lemma area_found_spec s lv x c live o n atomic :
  pcpu_ok cf s lv -> chunks s !! x = Some c -> lv !! x = Some live -> live !! o = Some n ->
  exists m, area_found cf s x (4 * o) (4 * n) atomic = Ret (set_mem m s, area_ptr c o)
    /\ forall b, m b = if in_units (possible_cpus cf) (base_addr c + 4 * o) (4 * n) b then 0 else mem s b.
Proof.
  intros Hok Hx Hlv Ho. destruct (po_chunk _ _ _ Hok x c Hx) as (live' & Hlv' & Hin). replace live' with live in * by congruence.
  pose proof (ci_ok _ _ _ Hin) as Hck. pose proof (cs_pages _ (ck_shape _ _ Hck)) as Hp.
  destruct (ar_range _ _ _ _ (ck_areas _ _ Hck) _ _ Ho) as (Ho0 & Hn & HM). destruct (ci_unit _ _ _ Hin) as [Hu1 Hu2].
  pose proof (co_size _ Hcf). pose proof (co_pages _ Hcf). pose proof (co_base _ Hcf). pose proof (co_start _ Hcf). pose proof (co_room _ Hcf).
  assert (Hpl : forall fuel, populate_loop cf fuel s x (4 * o) (PFN_DOWN (4 * o)) (PFN_UP (4 * o + 4 * n)) = Ret (s, true)).
  { intros fuel. replace (4 * o + 4 * n) with ((o + n) * PCPU_MIN_ALLOC_SIZE) by (unfold PCPU_MIN_ALLOC_SIZE; lia).
    replace (4 * o) with (o * PCPU_MIN_ALLOC_SIZE) by (unfold PCPU_MIN_ALLOC_SIZE; lia). rewrite pfn_up_bits, pfn_down_bits by lia.
    assert (E : chunk_at s x = Ret c) by (unfold chunk_at; by rewrite Hx).
    destruct fuel; cbn [populate_loop]; rewrite E; cbn [obind]; (rewrite next_unpop_full; [|apply Hck|apply Hin|Z.to_euclidean_division_equations; lia..]); cbn [obind]; by rewrite Z.ltb_irrefl. }
  destruct (clear_areas_spec c (4 * o) (4 * n) ltac:(lia) ltac:(lia) Hu1 ltac:(lia) (possible_cpus cf) (mem s) ltac:(done)) as (m & Em & Hm).
  exists m. split; [|done]. unfold area_found. rewrite Hpl.
  assert (E : (if negb atomic then Ret (s, true) else Ret (s, true)) = Ret (s, true)) by (by destruct atomic). rewrite E. cbn [obind negb].
  unfold chunk_at. rewrite Hx. cbn [obind]. rewrite Em. cbn [obind]. unfold __addr_to_pcpu_ptr, area_ptr. unwrap. done.
Qed.
End Found.

(** ** Requests *)

Lemma power_of_2_spec n : is_u64 n -> is_power_of_2 n = true <-> is_pow2 n.
Proof.
  intros Hn. unfold is_power_of_2. destruct (Z.eqb_spec n 0) as [->|Hne]; cbn [negb andb].
  { split; [done|]. intros Hp%is_pow2_pos. lia. }
  unwrap. rewrite Z.eqb_eq. split.
  - intros Hl. exists (Z.log2 n). split; [apply Z.log2_nonneg|]. destruct (Z.log2_spec n ltac:(ulia)) as [Hlo Hhi].
    destruct (Z.eq_dec (2 ^ Z.log2 n) n); [done|exfalso].
    assert (Hb : Z.testbit (Z.land n (n - 1)) (Z.log2 n) = true); [|by rewrite Hl, Z.bits_0 in Hb].
    rewrite Z.land_spec, Z.bit_log2 by ulia. replace (Z.log2 n) with (Z.log2 (n - 1)); [rewrite Z.bit_log2; [done|]|].
    + assert (0 < 2 ^ Z.log2 n) by (apply Z.pow_pos_nonneg; [lia|apply Z.log2_nonneg]). lia.
    + apply Z.log2_unique; [apply Z.log2_nonneg|lia].
  - intros (k & Hk & ->). rewrite Z.sub_1_r, <- Z.ones_equiv, Z.land_ones, Z.mod_same by (try apply Z.pow_nonzero; lia). done.
Qed.

(** The requests pcpu_alloc() accepts: [n] bits at a multiple of [2 ^ k]. *)
Record request (size align n k : Z) : Prop := {
  rq_size : 0 < size <= 32768;
  rq_bits : n = (size + 3) / 4;
  rq_align : Z.max 4 align = 2 ^ (k + 2);
  rq_k : 0 <= k <= 10
}.

Lemma request_cases size align : is_u64 size -> is_u64 align ->
  (0 < size <= 32768 /\ align <= 4096 /\ is_pow2 (Z.max 4 align)) <-> exists n k, request size align n k.
Proof.
  intros Hs Ha. split.
  - intros (Hsz & Hal & k & Hk & E). exists ((size + 3) / 4), (k - 2).
    assert (2 <= k <= 12).
    { split; [|apply (Z.pow_le_mono_r_iff 2); lia]. destruct (Z.le_gt_cases 2 k); [done|]. pose proof (Z.pow_lt_mono_r 2 k 2). lia. }
    split; [done|done| |lia]. rewrite E. f_equal. lia.
  - intros (n & k & [Hsz _ Hal Hk]). split; [done|]. pose proof (Z.pow_le_mono_r 2 (k + 2) 12 ltac:(lia) ltac:(lia)). split; [lia|].
    exists (k + 2). split; [lia|done].
Qed.

Section Request.
Context `{ObjectAllocator K} `{PageAllocator P}.

Definition is_atomic (gfp : Z) : bool := negb (Z.land gfp GFP_KERNEL =? GFP_KERNEL).
Definition from_reserved (s : pcpu K P) (reserved : bool) : bool := reserved && negb (pcpu_reserved_chunk s =? 0).

Lemma align_size size : is_u64 size -> u64 (ALIGN size PCPU_MIN_ALLOC_SIZE) = u64 (4 * ((size + 3) / 4)).
Proof.
  intros Hs. unfold PCPU_MIN_ALLOC_SIZE. change 4 with (2 ^ 2) at 1. rewrite ALIGN_pow2_spec by lia. unfold align_up. f_equal.
  change (2 ^ 2) with 4. replace (size + 4 - 1) with (size + 3) by lia. lia.
Qed.

Lemma pcpu_alloc_bad s size align reserved gfp : is_u64 size -> is_u64 align ->
  (forall n k, ~ request size align n k) -> pcpu_alloc cf s size align reserved gfp = Ret (s, 0).
Proof.
  intros Hs Ha Hno. unfold pcpu_alloc. rewrite align_size by done.
  set (a := if align <? PCPU_MIN_ALLOC_SIZE then PCPU_MIN_ALLOC_SIZE else align).
  assert (Ea : a = Z.max 4 align) by (unfold a, PCPU_MIN_ALLOC_SIZE; destruct (Z.ltb_spec align 4); lia).
  destruct (_ || _ || _ || _) eqn:E; [done|exfalso].
  rewrite !orb_false_iff, negb_false_iff, power_of_2_spec in E by (rewrite Ea; ulia). rewrite !Z.gtb_ltb, !Z.ltb_ge, Z.eqb_neq in E. destruct E as [[[E1 E2] E3] E4].
  destruct (proj1 (request_cases size align Hs Ha)) as (n & k & Hr); [|by apply (Hno n k)].
  unfold PCPU_MIN_UNIT_SIZE in E2. change PAGE_SIZE with 4096 in E3. rewrite Ea in *.
  assert (Hd : 4 * ((size + 3) / 4) <= size + 3 < 4 * ((size + 3) / 4) + 4) by (Z.to_euclidean_division_equations; lia).
  destruct (Z.eq_dec size 0) as [->|]; [done|]. destruct (Z.lt_ge_cases (4 * ((size + 3) / 4)) (2 ^ 64)) as [Hlt|Hge].
  - rewrite u64_id in E1, E2 by ulia. split; [ulia|]. split; [ulia|done].
  - assert (4 * ((size + 3) / 4) = 2 ^ 64) as E' by (uunfold; Z.to_euclidean_division_equations; lia). rewrite E' in E1. done.
Qed.

Lemma pcpu_alloc_good s size align reserved gfp n k : is_u64 align -> request size align n k ->
  pcpu_alloc cf s size align reserved gfp =
    (if from_reserved s reserved then
       let! r := try_chunk cf s (pcpu_reserved_chunk s) n (2 ^ k) (is_atomic gfp) in
       match r with
       | Some (s', x, off) => area_found cf s' x off (4 * n) (is_atomic gfp)
       | None => Ret (alloc_fail s (is_atomic gfp))
       end
     else
       let! (s', r) := alloc_restart cf RESTART_FUEL s (4 * n) n (2 ^ k) (is_atomic gfp) in
       match r with
       | Some (x, off) => area_found cf s' x off (4 * n) (is_atomic gfp)
       | None => Ret (alloc_fail s' (is_atomic gfp))
       end)
  /\ 0 < n <= 8192.
Proof.
  intros Ha [Hs -> Hal Hk]. unfold pcpu_alloc. rewrite align_size by ulia.
  set (a := if align <? PCPU_MIN_ALLOC_SIZE then PCPU_MIN_ALLOC_SIZE else align).
  assert (Ea : a = 2 ^ (k + 2)) by (unfold a, PCPU_MIN_ALLOC_SIZE; rewrite <- Hal; destruct (Z.ltb_spec align 4); lia).
  set (n := (size + 3) / 4). assert (Hn : 0 < n <= 8192) by (subst n; Z.to_euclidean_division_equations; lia). split; [|done].
  pose proof (Z.pow_le_mono_r 2 (k + 2) 12 ltac:(lia) ltac:(lia)) as H12. change (2 ^ 12) with 4096 in H12. pose proof (Z.pow_pos_nonneg 2 (k + 2)).
  rewrite (u64_id (4 * n)) by ulia. rewrite Ea.
  rewrite (proj2 (power_of_2_spec (2 ^ (k + 2)) ltac:(ulia))) by (exists (k + 2); split; [lia|done]).
  destruct (Z.eqb_spec (4 * n) 0); [lia|]. unfold PCPU_MIN_UNIT_SIZE. change PAGE_SIZE with 4096. rewrite !Z.gtb_ltb.
  destruct (Z.ltb_spec 32768 (4 * n)); [lia|]. destruct (Z.ltb_spec 4096 (2 ^ (k + 2))); [lia|]. cbn [orb negb].
  unfold PCPU_MIN_ALLOC_SHIFT. rewrite !Z.shiftr_div_pow2 by lia. replace (2 ^ (k + 2)) with (2 ^ k * 2 ^ 2) by (rewrite <- Z.pow_add_r; (done || lia)).
  rewrite Z.div_mul by done. replace (4 * n / 2 ^ 2) with n by (change (2 ^ 2) with 4; rewrite (Z.mul_comm 4), Z.div_mul; lia). done.
Qed.
End Request.

(** ** Allocation as a whole *)

Lemma pcpu_ok_mem (s : pcpu K P) lv m : pcpu_ok cf s lv -> pcpu_ok cf (set_mem m s) lv.
Proof. intros [????? ?]. by split. Qed.

(** An area of [n] bits of chunk [x] became live at [o], is cleared for every
    CPU and is what [ptr] names; no other byte changed. *)
Record handed_out (s : pcpu K P) (lv : gmap Z (gmap Z Z)) (x o n : Z) (s' : pcpu K P) (ptr : Z) : Prop := {
  ho_live : exists live, lv !! x = Some live /\ live !! o = None /\ pcpu_ok cf s' (<[x := <[o := n]> live]> lv);
  ho_other : forall y, y <> x -> chunks s' !! y = chunks s !! y;
  ho_area : exists c, chunks s' !! x = Some c /\ served c o n /\ ptr = area_ptr c o
    /\ (forall b, mem s' b = if in_units (possible_cpus cf) (base_addr c + 4 * o) (4 * n) b then 0 else mem s b)
    /\ forall c0, chunks s !! x = Some c0 -> same_geom c0 c /\ (contig_exact (used c0) c0 -> contig_exact (used c) c)
}.

Section Alloc.
Context `{ObjectAllocator K} `{PageAllocator P}.

Lemma found_handed_out s lv x o n atomic s1 : 0 < n ->
  area_taken s lv x o n s1 -> exists s' ptr, area_found cf s1 x (4 * o) (4 * n) atomic = Ret (s', ptr) /\ handed_out s lv x o n s' ptr.
Proof.
  intros Hn [(c & c' & t & L & Hx & -> & Hg & Hsv & Hexact) (live & Hlv & Hnone & Hok')].
  destruct (area_found_spec (set_slot L (set_chunk x c' t s)) (<[x := <[o := n]> live]> lv) x c' (<[o := n]> live) o n atomic) as (m & E & Hm);
    [done|cbn; by rewrite lookup_insert_eq|by rewrite lookup_insert_eq|by rewrite lookup_insert_eq|].
  eexists _, _. split; [exact E|]. split.
  - exists live. split_and!; [done|done|]. by apply pcpu_ok_mem.
  - intros y Hy. cbn. by rewrite lookup_insert_ne.
  - exists c'. split; [cbn; by rewrite lookup_insert_eq|]. split; [done|]. split; [done|]. split; [apply Hm|].
    intros c0 Hc0. by replace c0 with c by congruence.
Qed.

(** The chunk a request is served from. *)
Definition source (s : pcpu K P) (reserved : bool) : Z :=
  if from_reserved s reserved then pcpu_reserved_chunk s else pcpu_first_chunk s.

Lemma pcpu_alloc_spec s lv size align reserved gfp n k :
  pcpu_ok cf s lv -> is_u64 align -> request size align n k ->
  (exists s' o ptr, pcpu_alloc cf s size align reserved gfp = Ret (s', ptr) /\ (2 ^ k | o) /\ handed_out s lv (source s reserved) o n s' ptr)
  \/ ((forall c, chunks s !! source s reserved = Some c -> ~ roomy c n k)
      /\ pcpu_alloc cf s size align reserved gfp =
           if is_atomic gfp then Ret (set_failed true s, 0)
           else if from_reserved s reserved then Ret (s, 0)
           else let! (h, _) := pcpu_create_chunk cf (heap s) in Ret (set_heap h s, 0)).
Proof.
  intros Hok Ha Hrq. pose proof (rq_k _ _ _ _ Hrq) as Hk. destruct (pcpu_alloc_good s size align reserved gfp n k Ha Hrq) as [-> Hn].
  unfold source. destruct (from_reserved s reserved) eqn:Er.
  - apply andb_true_iff in Er as [_ Er]. apply negb_true_iff, Z.eqb_neq in Er. set (x := pcpu_reserved_chunk s) in *.
    assert (Hx : is_Some (chunks s !! x)) by (apply (po_dom _ _ _ Hok); by right).
    destruct (try_chunk_spec s lv x n k (is_atomic gfp) Hok Hx ltac:(lia) Hk) as (r & -> & Hr & Hroom). cbn [obind].
    destruct r as [[[s1 x'] off]|].
    + destruct Hr as (-> & o & -> & Hd & Ht). left. destruct (found_handed_out s lv x o n (is_atomic gfp) s1 ltac:(lia) Ht) as (s' & ptr & -> & Hh). by exists s', o, ptr.
    + right. split; [|by destruct (is_atomic gfp)]. intros c Hc Hro. destruct (po_chunk _ _ _ Hok _ _ Hc) as (live & _ & Hin).
      by apply (Hroom c Hc (roomy_fits live c n k (is_atomic gfp) Hin ltac:(lia) Hk Hro)).
  - set (x := pcpu_first_chunk s) in *. unfold RESTART_FUEL.
    destruct (restart_spec 2 s lv n k (is_atomic gfp) Hok Hn Hk) as [(s1 & o & -> & Hd & Ht)|[Hno ->]].
    + left. cbn [obind]. fold x in Ht |- *. destruct (found_handed_out s lv x o n (is_atomic gfp) s1 ltac:(lia) Ht) as (s' & ptr & -> & Hh). by exists s', o, ptr.
    + right. split; [done|]. destruct (is_atomic gfp) eqn:Eat; [done|]. unfold grow. by destruct (pcpu_create_chunk cf (heap s)) as [[h r]| |].
Qed.
End Alloc.

(** ** Freeing *)

Lemma area_ptr_addr live c o n : chunk_in cf live c -> live !! o = Some n -> served c o n ->
  area_ptr c o <> 0 /\ __pcpu_ptr_to_addr cf (area_ptr c o) = base_addr c + 4 * o /\ 0 <= base_addr c
  /\ lo_addr c <= base_addr c + 4 * o < hi_addr c /\ hi_addr c < 2 ^ 64 /\ 0 <= 4 * o < 2 ^ 31.
Proof.
  intros Hin Ho [Hs He]. destruct (ar_range _ _ _ _ (ck_areas _ _ (ci_ok _ _ _ Hin)) _ _ Ho) as (Ho0 & Hn & HM).
  destruct (ci_unit _ _ _ Hin) as [Hu1 Hu2]. pose proof (unit_range _ _ Hin). destruct (ci_off _ _ _ Hin) as (? & ? & _ & _ & ?).
  pose proof (co_size _ Hcf). pose proof (co_pages _ Hcf). pose proof (co_base _ Hcf). pose proof (co_start _ Hcf). pose proof (co_room _ Hcf).
  unfold __pcpu_ptr_to_addr, area_ptr, lo_addr, hi_addr. split; [lia|]. split_and!; try lia.
  rewrite u64_sub_l. unwrap. lia.
Qed.

Lemma addr_in_chunk_spec s lv x c addr : pcpu_ok cf s lv -> x <> 0 -> chunks s !! x = Some c ->
  pcpu_addr_in_chunk s x addr = Ret ((lo_addr c <=? addr) && (addr <? hi_addr c)).
Proof.
  intros Hok Hx0 Hx. destruct (po_chunk _ _ _ Hok _ _ Hx) as (live & _ & Hin). destruct (ci_unit _ _ _ Hin) as [Hu1 Hu2].
  pose proof (unit_range _ _ Hin). destruct (ci_off _ _ _ Hin) as (? & ? & _ & _ & ?).
  pose proof (co_size _ Hcf). pose proof (co_pages _ Hcf). pose proof (co_base _ Hcf). pose proof (co_room _ Hcf).
  unfold pcpu_addr_in_chunk, chunk_at. destruct (Z.eqb_spec x 0); [done|]. rewrite Hx. cbn [obind]. change PAGE_SIZE with 4096. unwrap.
  rewrite Z.geb_leb. unfold lo_addr, hi_addr. by replace (nr_pages c * 4096) with (4096 * nr_pages c) by lia.
Qed.

Lemma addr_search_spec s lv x c addr : pcpu_ok cf s lv -> chunks s !! x = Some c -> lo_addr c <= addr < hi_addr c ->
  pcpu_chunk_addr_search s addr = Ret x.
Proof.
  intros Hok Hx Ha. set (f := pcpu_first_chunk s). assert (Hf : is_Some (chunks s !! f)) by (apply (po_dom _ _ _ Hok); by left). destruct Hf as [cf0 Hf].
  destruct (po_first _ _ _ Hok) as [Hf0 Hfr]. unfold pcpu_chunk_addr_search. rewrite (addr_in_chunk_spec s lv f cf0) by done. cbn [obind].
  destruct (decide (x = f)) as [->|Hne].
  - replace cf0 with c by congruence. by rewrite (proj2 (Z.leb_le _ _)), (proj2 (Z.ltb_lt _ _)) by lia.
  - destruct (proj1 (po_dom _ _ _ Hok x)) as [?|[Er Hr]]; [eauto|done|]. destruct (po_apart _ _ _ Hok x f c cf0 Hx Hf Hne) as [Hd|Hd].
    all: replace ((lo_addr cf0 <=? addr) && (addr <? hi_addr cf0)) with false by (destruct (Z.leb_spec (lo_addr cf0) addr), (Z.ltb_spec addr (hi_addr cf0)); done || lia).
    all: rewrite <- Er, (addr_in_chunk_spec s lv x c) by done; cbn [obind]; by rewrite (proj2 (Z.leb_le _ _)), (proj2 (Z.ltb_lt _ _)) by lia.
Qed.

Lemma free_percpu_spec s lv x c live o n :
  pcpu_ok cf s lv -> chunks s !! x = Some c -> lv !! x = Some live -> live !! o = Some n -> served c o n ->
  exists c' t L, free_percpu cf s (area_ptr c o) = Ret (set_slot L (set_chunk x c' t s))
    /\ same_geom c c' /\ bits_freed (used c) (used c') o n /\ pcpu_ok cf (set_slot L (set_chunk x c' t s)) (<[x := delete o live]> lv).
Proof.
  intros Hok Hx Hlv Ho Hsv. destruct (po_chunk _ _ _ Hok x c Hx) as (live' & Hlv' & Hin). replace live' with live in * by congruence.
  destruct (area_ptr_addr live c o n Hin Ho Hsv) as (Hp0 & Ep & Hb0 & Hr & Hhi & Ho31). unfold free_percpu.
  destruct (Z.eqb_spec (area_ptr c o) 0); [done|]. rewrite Ep, (addr_search_spec s lv x c) by done. cbn [obind].
  unfold pcpu_free_area, chunk_at. rewrite Hx. cbn [obind]. replace (base_addr c + 4 * o - base_addr c) with (4 * o) by lia.
  rewrite u64_id, s32_id by ulia. replace (4 * o) with (o * PCPU_MIN_ALLOC_SIZE) by (unfold PCPU_MIN_ALLOC_SIZE; lia).
  destruct (free_area_spec live (x =? pcpu_reserved_chunk s) c (pcpu_nr_empty_pop_pages s) o n (ci_ok _ _ _ Hin) Ho) as (c' & t & -> & Hck' & Hfr & Hg & Hw).
  cbn [obind]. pose proof (chunk_in_free live c c' o n Hin Ho Hsv Hck' Hg Hw) as Hin'.
  destruct (relocate_spec s x c c' t _ Hx Hin' (ok_slots s lv x c Hok Hx)) as (L & -> & HlL & HL).
  exists c', t, L. split; [done|]. split; [done|]. split; [done|]. by apply (pcpu_ok_update s lv x c c').
Qed.
End Inv.
End Spec.
