(* ===== verification/PercpuSetup.v ===== *)
(** * The per-CPU allocator: setting up the first chunk

    Model of pcpu_alloc_first_chunk() and pcpu_setup_first_chunk() of
    mm/percpu.c.  Memory comes from memblock_alloc(), seen through the class
    [BootAllocator]; it is zeroed and its address is only used to tell chunks
    apart.  The array [populated] at the end of a chunk has as many words as it
    needs, but the source asks memblock for as many bytes, not words: the writes
    behind the object stay in the cache line that its alignment leaves unused
    (for up to 192 pages), or the run is [Stuck]. *)

From S2P Require Import Prelude Objects Bitops Arith Memblock Buddy PageOwner Bitmap Percpu PercpuCore.
From stdpp Require Import base list numbers option gmap.
#[local] Open Scope Z_scope.
#[local] Open Scope kernel_scope.

Definition PERCPU_DYNAMIC_EARLY_SIZE : Z := 12 * 1024.
Definition NR_CPUS : Z := 8.
Definition SMP_CACHE_BYTES : Z := 64.

Class BootAllocator (B : Type) := { ba_alloc : B -> Z -> outcome (B * Z) }.

(** Requests one after the other; [None] if one of them is not served. *)
Fixpoint ba_run {B : Type} `{BootAllocator B} (b : B) (sizes : list Z) : option B :=
  match sizes with
  | [] => Some b
  | size :: r => match ba_alloc b size with Ret (b', _) => ba_run b' r | _ => None end
  end.

Record pcpu_group_info := mk_group {
  gi_nr_units : Z;
  gi_base_offset : Z;
  gi_cpu_map : list Z
}.

Record pcpu_alloc_info := mk_ai {
  ai_static_size : Z;
  ai_reserved_size : Z;
  ai_dyn_size : Z;
  ai_unit_size : Z;
  ai_atom_size : Z;
  ai_alloc_size : Z;
  ai_groups : list pcpu_group_info
}.

Section Setup.
Context {B K P : Type} `{BootAllocator B}.

(** Hiding [bits] bits at [bo] from a new chunk. *)
Definition hide (c : pcpu_chunk) (total bo bits lo hi : Z) : outcome (pcpu_chunk * Z) :=
  let! am := __bitmap_set (alloc_map c) bo bits in
  let! bm := set_bit lo (bound_map c) in
  let! bm' := set_bit hi bm in
  Ret (set_bound_map bm' (set_alloc_map am c), total).

(** [total] is pcpu_nr_empty_pop_pages, which the hint updates change. *)
Definition pcpu_alloc_first_chunk (b : B) (total tmp_addr map_size : Z) : outcome (B * Z * pcpu_chunk * Z) :=
  let aligned_addr := Z.land tmp_addr (not64 (PAGE_SIZE - 1)) in
  let start := tmp_addr - aligned_addr in
  let! lcm_align := Arith.lcm PAGE_SIZE PCPU_BITMAP_BLOCK_SIZE in
  let region_size := ALIGN (start + map_size) lcm_align in
  let pages := Z.shiftr region_size PAGE_SHIFT in
  let! (b1, chunk) := ba_alloc b (SIZEOF_PCPU_CHUNK + BITS_TO_LONGS pages) in
  let end_off := region_size - start - map_size in
  let region_bits := pcpu_nr_pages_to_map_bits pages in
  let! (b2, _) := ba_alloc b1 (BITS_TO_LONGS region_bits * 8) in
  let! (b3, _) := ba_alloc b2 (BITS_TO_LONGS (region_bits + 1) * 8) in
  let! (b4, _) := ba_alloc b3 (pages * PAGE_SIZE / PCPU_BITMAP_BLOCK_SIZE * SIZEOF_PCPU_BLOCK_MD) in
  let c0 := mk_chunk 0 0 0 aligned_addr (zeros (BITS_TO_LONGS region_bits)) (zeros (BITS_TO_LONGS (region_bits + 1)))
              (replicate (Z.to_nat (pages * PAGE_SIZE / PCPU_BITMAP_BLOCK_SIZE)) md_zero) 0 true start end_off pages 0 0 (zeros (BITS_TO_LONGS pages)) in
  let c1 := pcpu_init_md_blocks c0 in
  if SIZEOF_PCPU_CHUNK + BITS_TO_LONGS pages * 8 >? ALIGN (SIZEOF_PCPU_CHUNK + BITS_TO_LONGS pages) SMP_CACHE_BYTES then Stuck else
  let! pop := bitmap_fill (populated c1) pages in
  let c2 := set_pop pop pages c1 in
  let! nr := pcpu_cnt_pop_pages c2 (start / PCPU_MIN_ALLOC_SIZE) (map_size / PCPU_MIN_ALLOC_SIZE) in
  let c3 := set_free_bytes map_size (set_contig (map_size / PCPU_MIN_ALLOC_SIZE) (contig_bits_start c2) (set_nr_empty nr c2)) in
  let! (c4, t4) :=
    if negb (start =? 0) then
      let offset_bits := start / PCPU_MIN_ALLOC_SIZE in
      let! (c', t) := hide c3 total 0 offset_bits 0 offset_bits in
      pcpu_block_update_hint_alloc false (set_first_bit offset_bits c') t 0 offset_bits
    else Ret (c3, total) in
  let! (c5, t5) :=
    if negb (end_off =? 0) then
      let offset_bits := end_off / PCPU_MIN_ALLOC_SIZE in
      let bo := pcpu_chunk_map_bits c4 - offset_bits in
      let! (c', t) := hide c4 t4 bo offset_bits ((start + map_size) / PCPU_MIN_ALLOC_SIZE) region_bits in
      pcpu_block_update_hint_alloc false c' t bo offset_bits
    else Ret (c4, t4) in
  Ret (b4, chunk, c5, t5).

(** The tables of the loop over groups: unit_map, unit_off, low and high CPU.
    An entry UINT_MAX of unit_map is [-1]. *)
Record tables := mk_tables { tb_map : list Z; tb_off : list Z; tb_low : Z; tb_high : Z }.

Definition off_at (t : tables) (cpu : Z) : Z := default 0 (tb_off t !! Z.to_nat cpu).

Context (possible : list Z) (nr_possible_cpu_ids : Z).

(** Units [i], [i + 1], ... of a group, for the CPUs [cpus]. *)
Fixpoint unit_loop (cpus : list Z) (unit_size base_offset unit i : Z) (t : tables) : outcome tables :=
  match cpus with
  | [] => Ret t
  | cpu :: r =>
      if cpu =? NR_CPUS then unit_loop r unit_size base_offset unit (i + 1) t
      else if cpu >=? nr_possible_cpu_ids then Panic
      else if negb (bool_decide (cpu ∈ possible)) then Panic
      else if negb (default 0 (tb_map t !! Z.to_nat cpu) =? -1) then Panic
      else
        let off := base_offset +64 i * unit_size in
        let t1 := mk_tables (<[Z.to_nat cpu := unit + i]> (tb_map t)) (<[Z.to_nat cpu := off]> (tb_off t)) (tb_low t) (tb_high t) in
        let low := if (tb_low t1 =? NR_CPUS) || (off <? off_at t1 (tb_low t1)) then cpu else tb_low t1 in
        let high := if (tb_high t1 =? NR_CPUS) || (off >? off_at t1 (tb_high t1)) then cpu else tb_high t1 in
        unit_loop r unit_size base_offset unit (i + 1) (mk_tables (tb_map t1) (tb_off t1) low high)
  end.
Fixpoint group_loop (gs : list pcpu_group_info) (unit_size unit : Z) (t : tables) : outcome (tables * Z) :=
  match gs with
  | [] => Ret (t, unit)
  | g :: r =>
      let! t1 := unit_loop (take (Z.to_nat (gi_nr_units g)) (gi_cpu_map g)) unit_size (gi_base_offset g) unit 0 t in
      group_loop r unit_size (unit + gi_nr_units g) t1
  end.

Definition offset_in_page (x : Z) : Z := Z.land x (PAGE_SIZE - 1).

(** The conditions of PCPU_SETUP_BUG_ON() before the tables are built. *)
Definition setup_checks (ai : pcpu_alloc_info) (per_cpu_start base_addr : Z) : bool :=
  let size_sum := ai_static_size ai +64 ai_reserved_size ai +64 ai_dyn_size ai in
  (0 <? Z.of_nat (length (ai_groups ai))) && negb (ai_static_size ai =? 0) && (offset_in_page per_cpu_start =? 0)
  && negb (base_addr =? 0) && (offset_in_page base_addr =? 0) && (ai_unit_size ai >=? size_sum)
  && (offset_in_page (ai_unit_size ai) =? 0) && (ai_unit_size ai >=? PCPU_MIN_UNIT_SIZE)
  && (Z.land (ai_unit_size ai) (PCPU_BITMAP_BLOCK_SIZE - 1) =? 0)
  && (ai_dyn_size ai >=? PERCPU_DYNAMIC_EARLY_SIZE) && negb (ai_dyn_size ai =? 0)
  && (Z.land (ai_reserved_size ai) (PCPU_MIN_ALLOC_SIZE - 1) =? 0).

(** [m], [k] and [p] are memory and the allocators, which are not touched. *)
Definition pcpu_setup_first_chunk (b : B) (ai : pcpu_alloc_info) (per_cpu_start base_addr : Z) (cpu_to_node : Z -> Z)
    (m : Z -> Z) (k : K) (p : P) : outcome (B * pcpu_conf * pcpu K P) :=
  if negb (setup_checks ai per_cpu_start base_addr) then Panic
  else
    let ng := Z.of_nat (length (ai_groups ai)) in
    let! (b1, _) := ba_alloc b (ng * 8) in
    let! (b2, _) := ba_alloc b1 (ng * 8) in
    let! (b3, _) := ba_alloc b2 (nr_possible_cpu_ids * 4) in
    let! (b4, _) := ba_alloc b3 (nr_possible_cpu_ids * 8) in
    let nr := Z.to_nat nr_possible_cpu_ids in
    let! (t, units) := group_loop (ai_groups ai) (ai_unit_size ai) 0 (mk_tables (replicate nr (-1)) (replicate nr 0) NR_CPUS NR_CPUS) in
    if existsb (fun cpu => default 0 (tb_map t !! Z.to_nat cpu) =? -1) possible then Panic
    else
      let unit_pages := s32 (Z.shiftr (ai_unit_size ai) PAGE_SHIFT) in
      let unit_size := Z.shiftl unit_pages PAGE_SHIFT in
      let nr_slots := __pcpu_size_to_slot unit_size + 2 in
      let cf := mk_conf unit_pages unit_size units nr_slots (SIZEOF_PCPU_CHUNK + BITS_TO_LONGS unit_pages * 8) base_addr
                  (tb_map t) (tb_off t) (ai_atom_size ai) (tb_low t) (tb_high t)
                  (map gi_base_offset (ai_groups ai)) (map (fun g => gi_nr_units g * ai_unit_size ai) (ai_groups ai))
                  per_cpu_start possible cpu_to_node in
      let! (b5, _) := ba_alloc b4 (nr_slots * 16) in
      let static_size := u64 (ALIGN (ai_static_size ai) PCPU_MIN_ALLOC_SIZE) in
      let dyn_size := ai_dyn_size ai -64 (static_size -64 ai_static_size ai) in
      let tmp_addr := base_addr +64 static_size in
      let map_size := s32 (if negb (ai_reserved_size ai =? 0) then ai_reserved_size ai else dyn_size) in
      let! (b6, chunk, c, t6) := pcpu_alloc_first_chunk b5 0 tmp_addr map_size in
      let! (b7, first, fc, reserved, cs) :=
        if negb (ai_reserved_size ai =? 0) then
          let! (b', chunk', c', t') := pcpu_alloc_first_chunk b6 t6 (base_addr +64 static_size +64 ai_reserved_size ai) (s32 dyn_size) in
          Ret (b', chunk', c', chunk, <[chunk := c]> (∅ : gmap Z pcpu_chunk))
        else Ret (b6, chunk, c, 0, ∅) in
      let s0 := mk_pcpu cs (replicate (Z.to_nat nr_slots) []) first reserved 0 0 false None m k p in
      let! s1 := pcpu_chunk_relocate cf (set_chunk first fc (nr_empty_pop_pages fc) s0) first (-1) in
      let size_sum := ai_static_size ai +64 ai_reserved_size ai +64 ai_dyn_size ai in
      Ret (b7, cf, set_populated (PFN_DOWN size_sum) s1).
End Setup.
