(* ===== verification/PercpuSetupSpec.v ===== *)
(** * The per-CPU allocator: what the setup establishes *)

From S2P Require Import Prelude Objects Bitops Arith Memblock Buddy PageOwner Bitmap BitmapSpec Percpu PercpuBlock PercpuRefresh PercpuAlloc PercpuCore PercpuCoreSpec PercpuSetup.
From stdpp Require Import base list numbers option gmap.
#[local] Open Scope Z_scope.
#[local] Open Scope kernel_scope.

(** What the setup relies on: memblock_alloc() panics or returns the address,
    not NULL, of memory that nobody else was given. *)
Class BootAllocatorLaws (B : Type) `{BootAllocator B} := {
  ba_taken : B -> Z -> Prop;
  ba_alloc_spec b size : 0 < size -> ba_alloc b size = Panic
    \/ exists b' p, ba_alloc b size = Ret (b', p) /\ p <> 0 /\ ~ ba_taken b p /\ ba_taken b' p /\ forall q, ba_taken b q -> ba_taken b' q
}.

(** A chunk before its free bytes are accounted for. *)
Record chunk_pre (live : gmap Z Z) (c : pcpu_chunk) : Prop := {
  cp_shape : chunk_shape c;
  cp_hints : hints_ok (used c) c;
  cp_first : 0 <= first_bit c <= 1024 * nr_pages c /\ forall i, 0 <= i < first_bit c -> used c i = true;
  cp_contig : 0 <= contig_bits c <= 1024 * nr_pages c /\ 0 <= contig_bits_start c <= 1024 * nr_pages c;
  cp_areas : areas_ok (used c) (bit (bound_map c)) (1024 * nr_pages c) live
}.

Lemma chunk_pre_ok live c : chunk_pre live c -> free_bytes c = 4 * (1024 * nr_pages c - countz (used c) (1024 * nr_pages c)) -> chunk_ok live c.
Proof. intros [????]. by split. Qed.

(** Hiding an end of the bitmap: the maps, then the hints. *)
Lemma hide_spec live c total o n fb :
  chunk_pre live c -> 0 <= o -> 0 < n -> o + n <= 1024 * nr_pages c -> free_on (used c) o (o + n) ->
  (forall i, o < i < o + n -> bit (bound_map c) i = false) ->
  0 <= fb <= 1024 * nr_pages c -> (forall i, 0 <= i < fb -> used c i = true \/ o <= i < o + n) ->
  exists c1 c' t', hide c total o n o (o + n) = Ret (c1, total) /\ first_bit c1 = first_bit c
    /\ pcpu_block_update_hint_alloc false (set_first_bit fb c1) total o n = Ret (c', t')
    /\ chunk_pre (<[o := n]> live) c' /\ bits_taken (used c) (used c') o n /\ same_geom c c' /\ free_bytes c' = free_bytes c /\ first_bit c' = fb
    /\ (forall i, 0 <= i -> bit (bound_map c') i = if (i =? o) || (i =? o + n) then true else bit (bound_map c) i)
    /\ (contig_bits_start c <= o < contig_bits_start c + contig_bits c /\ contig_exact (used c') c'
        \/ ~ (contig_bits_start c <= o < contig_bits_start c + contig_bits c)
           /\ contig_bits c' = contig_bits c /\ contig_bits_start c' = contig_bits_start c).
Proof.
  intros [Hs Hh _ [Hcb Hcbs] Har] Ho Hn HM Hfree Hbf Hfb Hfu. pose proof Hs as [Hp [Ham Hal] Hmd [Hbm Hbl] Hpop].
  set (M := 1024 * nr_pages c) in *. unfold hide.
  destruct (bitmap_set_spec (alloc_map c) o n) as (am & -> & Lam & Uam & Bam); [done|lia|lia|lia|lia|]. cbn [obind].
  destruct (set_bit_spec (bound_map c) o) as (b1 & -> & L1 & U1 & B1); [done|lia|]. cbn [obind].
  destruct (set_bit_spec b1 (o + n)) as (b2 & -> & L2 & U2 & B2); [done|rewrite L1; lia|]. cbn [obind].
  set (c1 := set_bound_map b2 (set_alloc_map am c)).
  assert (Htk : bits_taken (used c) (used c1) o n).
  { split; [done|]. intros i Hi. unfold used at 1. cbn. by rewrite Bam by lia. }
  assert (Hs1 : chunk_shape c1) by (split; cbn; [done|split; [done|rewrite Lam; lia]|done|split; [done|rewrite L2, L1; fold M; lia]|done]).
  assert (HB : forall i, 0 <= i -> bit b2 i = if (i =? o) || (i =? o + n) then true else bit (bound_map c) i).
  { intros i Hi. rewrite B2, B1 by lia.
    repeat (match goal with |- context [?a =? ?b] => destruct (Z.eqb_spec a b) | |- context [?a <? ?b] => destruct (Z.ltb_spec a b) | |- context [?a <=? ?b] => destruct (Z.leb_spec a b) end; cbn [orb andb]); done || lia. }
  assert (Hfu1 : forall i, 0 <= i < fb -> used c1 i = true).
  { intros i Hi. destruct Htk as [_ ->]; [|lia]. destruct (Hfu i Hi) as [->|[? ?]]; [by destruct (_ && _)|]. by rewrite (proj2 (Z.leb_le o i)), (proj2 (Z.ltb_lt i (o + n))) by lia. }
  destruct (update_hint_alloc_spec (used c) false (set_first_bit fb c1) total o n) as (c' & t' & E & Hhd & Hctg);
    [destruct Hs1; by split|done|done|lia|lia|cbn; lia|done|done|done|done|].
  assert (Hus : used c' = used c1 /\ bound_map c' = b2 /\ free_bytes c' = free_bytes c /\ first_bit c' = fb) by (destruct Hhd as [(mds & cb & cbs & m & ->) _ _ _]; done).
  destruct Hus as (Hus & Hbnd & Hfrb & Hfbt).
  destruct (areas_insert (used c) (used c1) (bit (bound_map c)) (bit b2) M live o n Har ltac:(lia) ltac:(lia) ltac:(lia) Htk) as [Har' _].
  { intros i Hi. rewrite HB by lia. destruct (_ || _) eqn:Eo; [done|]. destruct (Z.ltb_spec o i), (Z.ltb_spec i (o + n)); cbn [andb]; try done. apply Hbf. lia. }
  exists c1, c', t'. split; [done|]. split; [done|]. split; [done|]. split; [|split; [by rewrite Hus|split; [|split; [done|split; [done|split]]]]].
  - destruct Hhd as [(mds & cb & cbs & m & ->) Hs' Hh' Hc']. split; try done.
  - destruct Hhd as [Hre _ _ _]. apply rehinted_geom in Hre. destruct Hre as (?&?&?&?&?&?&?). by split_and!.
  - by rewrite Hbnd.
  - by rewrite Hus.
Qed.

(** ** A new chunk *)

Lemma bit_zeros n i : bit (zeros n) i = false.
Proof.
  unfold bit, zeros. destruct (replicate _ 0 !! _) as [w|] eqn:E; cbn; [|apply Z.bits_0]. apply lookup_replicate in E as [-> _]. apply Z.bits_0.
Qed.

Lemma zeros_all n : bm_all (zeros n).
Proof. apply Forall_replicate. uunfold. lia. Qed.

Lemma zeros_length n : 0 <= n -> Z.of_nat (length (zeros n)) = n.
Proof. intros. unfold zeros. rewrite length_replicate. lia. Qed.

Lemma map_bits_pages pages : pcpu_nr_pages_to_map_bits pages = 1024 * pages.
Proof. unfold pcpu_nr_pages_to_map_bits, PCPU_MIN_ALLOC_SIZE. change PAGE_SIZE with (1024 * 4). rewrite Z.mul_assoc, Z.div_mul; lia. Qed.

(** A chunk of [pages] free pages, as zeroed memory and
    pcpu_init_md_blocks() leave it. *)
Definition blank_chunk (fb cb base pages so eo nrp nre : Z) (imm : bool) (pop : list Z) : pcpu_chunk :=
  pcpu_init_md_blocks (mk_chunk fb cb 0 base (zeros (BITS_TO_LONGS (pcpu_nr_pages_to_map_bits pages)))
    (zeros (BITS_TO_LONGS (pcpu_nr_pages_to_map_bits pages + 1)))
    (replicate (Z.to_nat (pages * PAGE_SIZE / PCPU_BITMAP_BLOCK_SIZE)) md_zero) 0 imm so eo pages nrp nre pop).

Lemma blank_pre fb cb base pages so eo nrp nre imm pop :
  0 < pages < 2 ^ 18 -> 0 <= cb <= 1024 * pages -> bm_all pop -> pages <= 64 * Z.of_nat (length pop) < 2 ^ 61 ->
  chunk_pre ∅ (blank_chunk fb cb base pages so eo nrp nre imm pop)
  /\ forall i, used (blank_chunk fb cb base pages so eo nrp nre imm pop) i = false.
Proof.
  intros Hp Hcb Hpop Hpl. set (c := blank_chunk _ _ _ _ _ _ _ _ _ _).
  pose proof (map_bits_pages pages) as Hmb.
  assert (Hnb : pages * PAGE_SIZE / PCPU_BITMAP_BLOCK_SIZE = pages) by (unfold PCPU_BITMAP_BLOCK_SIZE; rewrite Z.div_mul; done).
  assert (Hu : forall i, used c i = false) by (intros i; apply bit_zeros). split; [|done].
  assert (Hlb : BITS_TO_LONGS (1024 * pages) = 16 * pages /\ BITS_TO_LONGS (1024 * pages + 1) = 16 * pages + 1) by (unfold BITS_TO_LONGS; Z.to_euclidean_division_equations; lia).
  split.
  - split; cbn -[zeros]; [lia| | | |by split].
    + split; [apply zeros_all|]. rewrite Hmb, zeros_length by (destruct Hlb; lia). apply Hlb.
    + rewrite length_map, length_replicate, Hnb. lia.
    + split; [apply zeros_all|]. rewrite Hmb, zeros_length by (destruct Hlb; lia). destruct Hlb as [_ ->]. lia.
  - intros i Hi. cbn [md_blocks c blank_chunk pcpu_init_md_blocks set_md_blocks nr_pages] in Hi |- *.
    rewrite list_lookup_fmap, lookup_replicate_2 by lia. eexists. split; [reflexivity|]. change (init_md md_zero) with (block_unused md_zero).
    apply unused_ok. intros j Hj. apply Hu.
  - cbn. split; [lia|]. intros i Hi. lia.
  - cbn. lia.
  - split; try (intros o n; by rewrite lookup_empty).
    intros i _. by rewrite Hu.
Qed.

(** ** The first chunk *)

(** The chunk serves exactly [map_size] bytes from [addr] on. *)
Record first_chunk (addr map_size : Z) (live : gmap Z Z) (c : pcpu_chunk) : Prop := {
  fc_ok : chunk_ok live c;
  fc_base : base_addr c = addr - addr mod 4096;
  fc_lo : lo_addr c = addr;
  fc_hi : hi_addr c = addr + map_size;
  fc_end : 0 <= end_offset c < 4096;
  fc_pop : all_populated c;
  fc_free : free_bytes c = map_size;
  fc_start_hidden : 0 < start_offset c -> live !! 0 = Some (start_offset c / 4);
  fc_end_hidden : 0 < end_offset c -> live !! (1024 * nr_pages c - end_offset c / 4) = Some (end_offset c / 4);
  fc_exact : contig_exact (used c) c
}.

Lemma page_down addr : is_u64 addr -> Z.land addr (not64 (PAGE_SIZE - 1)) = addr - addr mod 4096.
Proof. intros Ha. exact (round_down_spec addr 12 Ha ltac:(lia)). Qed.

Section First.
Context {B : Type} `{BootAllocatorLaws B}.

(** [run] returns, with a result that satisfies [Q], if boot memory serves the
    requests [sizes]; otherwise it panics. *)
Definition serves_or {A} (b : B) (sizes : list Z) (run : outcome A) (Q : B -> A -> Prop) : Prop :=
  match ba_run b sizes with Some b' => exists a, run = Ret a /\ Q b' a | None => run = Panic end.

Lemma alloc_then {A} b size sizes (k : B * Z -> outcome A) Q : 0 < size ->
  (forall b' p, p <> 0 -> ~ ba_taken b p -> ba_taken b' p -> (forall q, ba_taken b q -> ba_taken b' q) -> serves_or b' sizes (k (b', p)) Q) ->
  serves_or b (size :: sizes) (let! r := ba_alloc b size in k r) Q.
Proof.
  intros Hs Hk. unfold serves_or. cbn [ba_run]. destruct (ba_alloc_spec b size Hs) as [->|(b' & p & -> & Hp & Hnt & Ht & Hk')]; [done|]. cbn [obind]. by apply Hk.
Qed.

Lemma ba_run_app b l1 l2 : ba_run b (l1 ++ l2) = match ba_run b l1 with Some b' => ba_run b' l2 | None => None end.
Proof. revert b. induction l1 as [|x l1 IH]; intros b; cbn [ba_run app]; [done|]. destruct (ba_alloc b x) as [[b' a]| |]; [apply IH|done..]. Qed.

Lemma serves_then {A C} b l1 l2 (run : outcome A) (k : A -> outcome C) Q1 Q2 : serves_or b l1 run Q1 ->
  (forall b' a, Q1 b' a -> serves_or b' l2 (k a) Q2) -> serves_or b (l1 ++ l2) (let! a := run in k a) Q2.
Proof.
  unfold serves_or. rewrite ba_run_app. destruct (ba_run b l1) as [b'|]; [|by intros ->]. intros (a & -> & Ha) Hk. cbn [obind]. by apply Hk.
Qed.

Lemma serves_ret {A} b (a : A) (Q : B -> A -> Prop) : Q b a -> serves_or b [] (Ret a) Q.
Proof. intros. exists a. done. Qed.

(** What one chunk asks boot memory for: the chunk, its two bitmaps and its
    blocks. *)
Definition chunk_requests (addr map_size : Z) : list Z :=
  let pages := (addr mod 4096 + map_size + 4095) / 4096 in
  [SIZEOF_PCPU_CHUNK + BITS_TO_LONGS pages; BITS_TO_LONGS (1024 * pages) * 8; BITS_TO_LONGS (1024 * pages + 1) * 8; pages * SIZEOF_PCPU_BLOCK_MD].

Lemma used_count c so mid M : 0 <= so -> 0 <= mid -> so + mid <= M ->
  (forall i, 0 <= i < M -> used c i = negb ((so <=? i) && (i <? so + mid))) -> countz (used c) M = M - mid.
Proof.
  intros Hso Hmid HM Hu. unfold countz. rewrite (bits_count_range (fun _ => true) (used c) so (so + mid) (Z.to_nat M) false); [|lia|lia| |].
  - rewrite (count_const _ _ true) by done. lia.
  - intros i Hi. split; [done|]. rewrite Hu by lia. by rewrite (proj2 (Z.leb_le so i)), (proj2 (Z.ltb_lt i (so + mid))) by lia.
  - intros i Hi Hout. rewrite Hu by lia. destruct (Z.leb_spec so i), (Z.ltb_spec i (so + mid)); cbn; done || lia.
Qed.
(** The steps after the memory is there, on a blank chunk. *)
Lemma first_chunk_hides addr map_size total c : let so := addr mod 4096 in
  is_u64 addr -> (4 | addr) -> (4 | map_size) -> 0 < map_size -> chunk_pre ∅ c -> (forall i, used c i = false) ->
  (forall i, 0 <= i -> bit (bound_map c) i = false) -> base_addr c = addr - so -> start_offset c = so ->
  4096 * nr_pages c = so + map_size + end_offset c -> 0 <= end_offset c < 4096 -> all_populated c ->
  free_bytes c = map_size -> contig_bits c = map_size / 4 -> contig_bits_start c = 0 -> first_bit c = 0 ->
  exists c' t', (let! (c4, t4) :=
      if negb (so =? 0) then
        let! (c', t) := hide c total 0 (so / PCPU_MIN_ALLOC_SIZE) 0 (so / PCPU_MIN_ALLOC_SIZE) in
        pcpu_block_update_hint_alloc false (set_first_bit (so / PCPU_MIN_ALLOC_SIZE) c') t 0 (so / PCPU_MIN_ALLOC_SIZE)
      else Ret (c, total) in
    if negb (end_offset c =? 0) then
      let! (c', t) := hide c4 t4 (pcpu_chunk_map_bits c4 - end_offset c / PCPU_MIN_ALLOC_SIZE) (end_offset c / PCPU_MIN_ALLOC_SIZE)
                        ((so + map_size) / PCPU_MIN_ALLOC_SIZE) (pcpu_nr_pages_to_map_bits (nr_pages c)) in
      pcpu_block_update_hint_alloc false c' t (pcpu_chunk_map_bits c4 - end_offset c / PCPU_MIN_ALLOC_SIZE) (end_offset c / PCPU_MIN_ALLOC_SIZE)
    else Ret (c4, t4)) = Ret (c', t') /\ exists live, first_chunk addr map_size live c'.
Proof.
  intros so Ha H4a [mb Hmb] Hm0 Hpre Hu Hbnd Hbase Hst Hsize Hend Hpop Hfb Hcb Hcbs Hfst.
  assert (Hso : 0 <= so < 4096) by (apply Z.mod_pos_bound; lia).
  assert (Hs4 : exists sb, so = 4 * sb).
  { destruct H4a as [q ->]. exists (q mod 1024). subst so. change 4096 with (1024 * 4). rewrite Z.mul_mod_distr_r by lia. lia. }
  destruct Hs4 as [sb Esb]. assert (exists eb, end_offset c = 4 * eb) as [eb Eeb] by (exists (1024 * nr_pages c - sb - mb); lia).
  set (M := 1024 * nr_pages c) in *. assert (HM : M = sb + mb + eb) by lia.
  unfold PCPU_MIN_ALLOC_SIZE. rewrite Eeb, !(Z.mul_comm 4 eb), Z.div_mul by lia. rewrite Esb, !(Z.mul_comm 4 sb), !Z.div_mul by lia.
  (* the beginning *)
  assert (Hone : exists c4 t4 live4, (if negb (sb * 4 =? 0) then
        let! (c', t) := hide c total 0 sb 0 sb in pcpu_block_update_hint_alloc false (set_first_bit sb c') t 0 sb
      else Ret (c, total)) = Ret (c4, t4)
    /\ chunk_pre live4 c4 /\ same_geom c c4 /\ free_bytes c4 = map_size /\ first_bit c4 = sb
    /\ (forall i, 0 <= i -> used c4 i = (i <? sb)) /\ (forall i, sb < i -> bit (bound_map c4) i = false)
    /\ (0 < sb -> live4 !! 0 = Some sb)
    /\ contig_bits_start c4 = sb /\ (if Z.eq_dec sb 0 then contig_bits c4 = mb else contig_bits c4 = M - sb)).
  { destruct (Z.eqb_spec (sb * 4) 0) as [E0|N0]; cbn [negb].
    - exists c, total, ∅. replace sb with 0 by lia. split; [done|]. split; [done|]. split; [by split_and!|]. split; [done|]. split; [done|].
      split; [intros i Hi; rewrite Hu; by destruct (Z.ltb_spec i 0); [lia|]|]. split; [intros i Hi; apply Hbnd; lia|]. split; [lia|]. split; [done|].
      cbn. rewrite Hcb, Hmb. by apply Z.div_mul.
    - destruct (hide_spec ∅ c total 0 sb sb Hpre) as (c1 & c' & t' & E1 & Ef1 & E2 & Hp' & [_ Htk] & Hg & Hf' & Hfb' & Hb' & Hctg);
        [lia|lia|lia|intros i _; apply Hu|intros i Hi; apply Hbnd; lia|lia|intros i Hi; right; lia|].
      rewrite Z.add_0_l in E1. rewrite E1. cbn [obind]. exists c', t', (<[0 := sb]> ∅).
      assert (Hu' : forall i, 0 <= i -> used c' i = (i <? sb)).
      { intros i Hi. rewrite Htk, Hu by lia. destruct (Z.leb_spec 0 i), (Z.ltb_spec i (0 + sb)), (Z.ltb_spec i sb); cbn; done || lia. }
      assert (Hcs : contig_bits_start c' = sb /\ contig_bits c' = M - sb).
      { destruct Hg as (_ & _ & _ & _ & Hnp & _). destruct Hctg as [[_ [Hc0 Hrun Hmax]]|[Hno _]].
        - rewrite Hnp in Hmax, Hrun. fold M in Hmax, Hrun. specialize (Hmax sb M ltac:(lia) ltac:(lia)).
          assert (M - sb <= contig_bits c'). { apply Hmax. intros i Hi. rewrite Hu' by lia. by destruct (Z.ltb_spec i sb); [lia|]. }
          destruct (Hrun ltac:(lia)) as (Hr0 & Hr1 & Hr2). specialize (Hr2 (contig_bits_start c') ltac:(lia)). rewrite Hu' in Hr2 by lia.
          destruct (Z.ltb_spec (contig_bits_start c') sb); [done|]. lia.
        - exfalso. apply Hno. rewrite Hcbs, Hcb, Hmb, Z.div_mul by lia. lia. }
      split; [done|]. split; [done|]. split; [done|]. split; [lia|]. split; [done|]. split; [done|].
      split; [|split; [intros _; by rewrite lookup_insert_eq|split; [apply Hcs|destruct (Z.eq_dec sb 0); [lia|apply Hcs]]]].
      intros i Hi. rewrite Hb', Hbnd by lia. by destruct (Z.eqb_spec i 0), (Z.eqb_spec i (0 + sb)); try lia. }
  destruct Hone as (c4 & t4 & live4 & -> & Hp4 & Hg4 & Hf4 & Hfb4 & Hu4 & Hb4 & Hl4 & Hcs4 & Hcb4). cbn [obind].
  pose proof Hg4 as (G1 & G2 & G3 & G4 & G5 & G6 & G7).
  (* the hint once the end is hidden too *)
  assert (Hfin : forall c' live (t : Z), chunk_pre live c' -> same_geom c c' -> free_bytes c' = map_size ->
    (forall i, 0 <= i < M -> used c' i = negb ((sb <=? i) && (i <? sb + mb))) ->
    (0 < sb -> live !! 0 = Some sb) -> (0 < eb -> live !! (M - eb) = Some eb) ->
    contig_exact (used c') c' \/ (contig_bits_start c' = sb /\ contig_bits c' = mb) -> 
    exists c'' t'', Ret (c', t) = Ret (c'', t'') /\ exists live, first_chunk addr map_size live c'').
  { intros c' live t Hp' (J1 & J2 & J3 & J4 & J5 & J6 & J7) Hf' Hu' Hl1 Hl2 Hex. exists c', t. split; [done|]. exists live.
    unfold lo_addr, hi_addr. split; unfold lo_addr, hi_addr; rewrite ?J1, ?J3, ?J4, ?J5; try lia.
    - apply chunk_pre_ok; [done|]. rewrite Hf', J5. fold M. rewrite (used_count c' sb mb M) by (done || lia). lia.
    - intros p. rewrite J5, J7. apply Hpop.
    - rewrite Hst. fold so. rewrite Esb, (Z.mul_comm 4), Z.div_mul by lia. intros. apply Hl1. lia.
    - rewrite Eeb, (Z.mul_comm 4), Z.div_mul by lia. fold M. intros. apply Hl2. lia.
    - destruct Hex as [?|[X1 X2]]; [done|]. split; rewrite ?X1, ?X2, ?J5; fold M; [lia| |].
      + intros _. split; [lia|]. split; [lia|]. intros i Hi. rewrite Hu' by lia. by rewrite (proj2 (Z.leb_le sb i)), (proj2 (Z.ltb_lt i (sb + mb))) by lia.
      + intros s e Hs He Hf. destruct (Z.eq_dec s e); [lia|].
        assert (H1 : used c' s = false) by (apply Hf; lia). assert (H2 : used c' (e - 1) = false) by (apply Hf; lia). rewrite Hu' in H1, H2 by lia.
        destruct (Z.leb_spec sb s), (Z.ltb_spec s (sb + mb)); cbn in H1; try done. destruct (Z.leb_spec sb (e - 1)), (Z.ltb_spec (e - 1) (sb + mb)); cbn in H2; try done. lia. }
  destruct (Z.eqb_spec (eb * 4) 0) as [E0|N0]; cbn [negb].
  { apply (Hfin c4 live4); try done; [|lia|].
    - intros i Hi. rewrite Hu4 by lia. destruct (Z.ltb_spec i sb), (Z.leb_spec sb i), (Z.ltb_spec i (sb + mb)); cbn; done || lia.
    - right. split; [done|]. destruct (Z.eq_dec sb 0); lia. }
  rewrite map_bits_eq, G5. fold M. rewrite Z.mul_comm in Hmb. replace ((sb * 4 + map_size) / 4) with (M - eb) by (replace (sb * 4 + map_size) with ((M - eb) * 4) by lia; by rewrite Z.div_mul).
  replace (pcpu_nr_pages_to_map_bits (nr_pages c)) with (M - eb + eb) by (rewrite map_bits_pages; lia).
  destruct (hide_spec live4 c4 t4 (M - eb) eb (first_bit c4) Hp4) as (c1 & c' & t' & E1 & Ef1 & E2 & Hp' & [_ Htk] & Hg & Hf' & Hfb' & Hb' & Hctg);
    [lia|lia|rewrite G5; lia|intros i Hi; rewrite Hu4 by lia; by destruct (Z.ltb_spec i sb); [lia|]|intros i Hi; apply Hb4; lia|rewrite G5; lia|intros i Hi; left; rewrite Hu4 by lia; by apply Z.ltb_lt; lia|].
  rewrite E1. cbn [obind]. rewrite <- Ef1 in E2. replace (set_first_bit (first_bit c1) c1) with c1 in E2 by (by destruct c1). rewrite E2.
  destruct Hg as (J1 & J2 & J3 & J4 & J5 & J6 & J7). apply (Hfin c' (<[M - eb := eb]> live4)).
  - done.
  - split_and!; congruence.
  - congruence.
  - intros i Hi. rewrite Htk, Hu4 by lia. destruct (Z.ltb_spec i sb), (Z.leb_spec sb i), (Z.leb_spec (M - eb) i), (Z.ltb_spec i (sb + mb)), (Z.ltb_spec i (M - eb + eb)); cbn; done || lia.
  - intros Hs. rewrite lookup_insert_ne by lia. by apply Hl4.
  - intros _. by rewrite lookup_insert_eq.
  - destruct Hctg as [[_ ?]|(Hno & X1 & X2)]; [by left|]. right. rewrite X1, X2. split; [done|]. destruct (Z.eq_dec sb 0); [done|lia].
Qed.
Lemma alloc_first_chunk_spec b total addr map_size :
  is_u64 addr -> (4 | addr) -> (4 | map_size) -> 0 < map_size < 2 ^ 29 ->
  addr mod 4096 + map_size <= 192 * 4096 ->
  serves_or b (chunk_requests addr map_size) (pcpu_alloc_first_chunk b total addr map_size) (fun b1 '(b', x, c, t) =>
    b1 = b' /\ x <> 0 /\ ~ ba_taken b x /\ ba_taken b' x /\ (forall q, ba_taken b q -> ba_taken b' q) /\ exists live, first_chunk addr map_size live c).
Proof.
  intros Ha H4a H4m Hm H192. unfold pcpu_alloc_first_chunk, chunk_requests. rewrite page_down by done.
  assert (El : Arith.lcm PAGE_SIZE PCPU_BITMAP_BLOCK_SIZE = Ret 4096) by (vm_compute; reflexivity). rewrite El. cbn [obind].
  replace (addr - (addr - addr mod 4096)) with (addr mod 4096) by lia. set (so := addr mod 4096).
  assert (Hso : 0 <= so < 4096) by (apply Z.mod_pos_bound; lia). assert (Ers : ALIGN (so + map_size) 4096 = align_up (so + map_size) 12) by exact (ALIGN_pow2_spec _ 12 ltac:(lia)). rewrite Ers.
  destruct (align_up_bounds (so + map_size) 12 ltac:(lia)) as [Hr [pages Hpages]]. change (2 ^ 12) with 4096 in Hr, Hpages.
  set (rs := align_up (so + map_size) 12) in *. assert (Hp : 0 < pages < 2 ^ 18) by lia.
  replace ((so + map_size + 4095) / 4096) with pages by (Z.to_euclidean_division_equations; lia). rewrite <- map_bits_pages.
  replace (Z.shiftr rs PAGE_SHIFT) with pages by (rewrite Hpages; unfold PAGE_SHIFT; rewrite Z.shiftr_div_pow2 by lia; change (2 ^ 12) with 4096; by rewrite Z.div_mul).
  assert (Hnb : pages * PAGE_SIZE / PCPU_BITMAP_BLOCK_SIZE = pages) by (unfold PCPU_BITMAP_BLOCK_SIZE; rewrite Z.div_mul; done).
  replace (pages * SIZEOF_PCPU_BLOCK_MD) with (pages * PAGE_SIZE / PCPU_BITMAP_BLOCK_SIZE * SIZEOF_PCPU_BLOCK_MD) by (by rewrite Hnb).
  assert (Hl : 0 < BITS_TO_LONGS pages /\ pages <= 64 * BITS_TO_LONGS pages < pages + 64) by (unfold BITS_TO_LONGS; Z.to_euclidean_division_equations; lia).
  assert (Hl2 : 0 < BITS_TO_LONGS (pcpu_nr_pages_to_map_bits pages) /\ 0 < BITS_TO_LONGS (pcpu_nr_pages_to_map_bits pages + 1))
    by (rewrite map_bits_pages; unfold BITS_TO_LONGS; Z.to_euclidean_division_equations; lia).
  apply alloc_then; [unfold SIZEOF_PCPU_CHUNK; lia|]. intros b1 x Hx Hnt Ht1 Hk1.
  apply alloc_then; [lia|]. intros b2 x2 _ _ _ Hk2. apply alloc_then; [lia|]. intros b3 x3 _ _ _ Hk3.
  apply alloc_then; [rewrite Hnb; unfold SIZEOF_PCPU_BLOCK_MD; lia|]. intros b4 x4 _ _ _ Hk4. cbv beta iota zeta.
  assert (Hfit : SIZEOF_PCPU_CHUNK + BITS_TO_LONGS pages * 8 <= ALIGN (SIZEOF_PCPU_CHUNK + BITS_TO_LONGS pages) SMP_CACHE_BYTES).
  { assert (Hw : BITS_TO_LONGS pages = 1 \/ BITS_TO_LONGS pages = 2 \/ BITS_TO_LONGS pages = 3) by lia. destruct Hw as [->|[->| ->]]; vm_compute; discriminate. }
  rewrite Z.gtb_ltb. destruct (Z.ltb_spec (ALIGN (SIZEOF_PCPU_CHUNK + BITS_TO_LONGS pages) SMP_CACHE_BYTES) (SIZEOF_PCPU_CHUNK + BITS_TO_LONGS pages * 8)) as [Hw|_]; [lia|].
  cbn [populated pcpu_init_md_blocks set_md_blocks]. unfold bitmap_fill.
  destruct (fill_words_spec ULONG_MAX true (zeros (BITS_TO_LONGS pages)) pages) as (pop & -> & Lp & Up & Bp);
    [apply zeros_all|unfold ULONG_MAX; ulia|intros i Hi; change ULONG_MAX with (Z.ones 64); apply Z.ones_spec_low; lia|rewrite zeros_length; lia|]. cbn [obind].
  assert (Hlen : Z.of_nat (length pop) = BITS_TO_LONGS pages) by (rewrite Lp, zeros_length; lia).
  assert (Hall : forall p, 0 <= p < pages -> bit pop p = true).
  { intros p Hpp. rewrite Bp by lia. by rewrite (proj2 (Z.leb_le 0 p)), (proj2 (Z.ltb_lt p _)) by lia. }
  destruct H4m as [mb Hmb]. assert (Hmd : map_size / PCPU_MIN_ALLOC_SIZE = mb) by (unfold PCPU_MIN_ALLOC_SIZE; rewrite Hmb; apply Z.div_mul; lia).
  set (eo := rs - so - map_size).
  destruct (blank_pre 0 0 (addr - so) pages so eo pages 0 true pop ltac:(lia) ltac:(lia) Up ltac:(lia)) as [Hpre0 _].
  match goal with |- context [pcpu_cnt_pop_pages ?c2 _ _] => change c2 with (blank_chunk 0 0 (addr - so) pages so eo pages 0 true pop) end.
  rewrite cnt_pop_pages_spec; [|apply Hpre0|unfold PCPU_MIN_ALLOC_SIZE; Z.to_euclidean_division_equations; lia|rewrite Hmd; lia
    |cbn; rewrite Hmd; unfold PCPU_MIN_ALLOC_SIZE; Z.to_euclidean_division_equations; lia].
  match goal with |- context [let! nr := Ret ?v in _] => set (nr := v) end. cbn [obind].
  rewrite Hmd. destruct (blank_pre map_size mb (addr - so) pages so eo pages nr true pop ltac:(lia) ltac:(lia) Up ltac:(lia)) as [Hpre Hu].
  destruct (first_chunk_hides addr map_size total (blank_chunk map_size mb (addr - so) pages so eo pages nr true pop)) as (c' & t' & E & live & Hfc); try done; cbn [nr_pages end_offset blank_chunk pcpu_init_md_blocks set_md_blocks contig_bits]; try lia.
  - by exists mb.
  - intros i _. apply bit_zeros.
  - exists (b4, x, c', t'). split; [|split_and!; eauto]. apply obind_ret in E as ([c4 t4] & E1 & E2). fold so in E1, E2.
    set (cb := blank_chunk map_size mb (addr - so) pages so eo pages nr true pop) in *.
    change (set_free_bytes map_size _) with cb. rewrite E1. cbn [obind].
    change (end_offset cb) with eo in E2. change (nr_pages cb) with pages in E2. by rewrite E2.
Qed.
End First.

(** ** The tables *)

Section Tables.
Context (possible : list Z) (nr : Z).

(** The CPUs of the units that a loop still has to enter. *)
Record enterable (cpus : list Z) (t : tables) : Prop := {
  en_cpu : forall cpu, cpu ∈ cpus -> cpu <> NR_CPUS -> cpu ∈ possible /\ 0 <= cpu < nr /\ tb_map t !! Z.to_nat cpu = Some (-1);
  en_once : forall j1 j2 cpu, cpus !! j1 = Some cpu -> cpus !! j2 = Some cpu -> cpu <> NR_CPUS -> j1 = j2;
  en_len : length (tb_map t) = Z.to_nat nr /\ length (tb_off t) = Z.to_nat nr
}.

(** The CPUs [cpus] have units at [bo + i * us], [bo + (i + 1) * us], ... *)
Record entered (cpus : list Z) (us bo i : Z) (t t' : tables) : Prop := {
  ed_off : forall j cpu, cpus !! j = Some cpu -> cpu <> NR_CPUS ->
    tb_off t' !! Z.to_nat cpu = Some (bo + (i + Z.of_nat j) * us) /\ exists u, tb_map t' !! Z.to_nat cpu = Some u /\ 0 <= u;
  ed_keep : forall cpu, 0 <= cpu -> cpu ∉ cpus -> tb_off t' !! Z.to_nat cpu = tb_off t !! Z.to_nat cpu /\ tb_map t' !! Z.to_nat cpu = tb_map t !! Z.to_nat cpu;
  ed_len : length (tb_map t') = Z.to_nat nr /\ length (tb_off t') = Z.to_nat nr
}.

Lemma unit_loop_spec us bo unit : 0 < us -> 0 <= bo -> 0 <= unit -> forall cpus i t,
  0 <= i -> bo + (i + Z.of_nat (length cpus)) * us < 2 ^ 64 -> enterable cpus t ->
  exists t', unit_loop possible nr cpus us bo unit i t = Ret t' /\ entered cpus us bo i t t'.
Proof.
  intros Hus Hbo Hunit. induction cpus as [|cpu r IH]; intros i t Hi Hfit [Hcpu Honce Hlen]; cbn [unit_loop].
  { exists t. split; [done|]. split; [done|done|done]. }
  cbn [length] in Hfit. assert (Honce' : forall j1 j2 c, r !! j1 = Some c -> r !! j2 = Some c -> c <> NR_CPUS -> j1 = j2).
  { intros j1 j2 c H1 H2 H3. pose proof (Honce (S j1) (S j2) c H1 H2 H3). lia. }
  destruct (Z.eqb_spec cpu NR_CPUS) as [En|Hn].
  - destruct (IH (i + 1) t) as (t' & -> & [Ho Hk Hl]); [lia|lia|split; [|done|done]|].
    { intros c Hc. apply Hcpu. by right. }
    exists t'. split; [done|]. split; [| |done].
    + intros [|j] c Hj Hc; cbn in Hj; [injection Hj as <-; done|]. destruct (Ho j c Hj Hc) as [-> Hm]. split; [f_equal; lia|done].
    + intros c Hc0 Hc. apply Hk; [done|]. intros ?. apply Hc. by right.
  - destruct (Hcpu cpu ltac:(by left) Hn) as (Hp & Hr & Hm). rewrite Z.geb_leb. destruct (Z.leb_spec nr cpu); [lia|].
    rewrite bool_decide_true by done. cbn [negb]. rewrite Hm. cbn [default Z.eqb negb].
    rewrite (u64_id (bo + i * us)) by (uunfold; nia). cbn [tb_map tb_off tb_low tb_high].
    assert (Hcr : cpu ∉ r). { intros [j Hj]%list_elem_of_lookup. specialize (Honce 0%nat (S j) cpu eq_refl Hj Hn). lia. }
    match goal with |- context [unit_loop possible nr r us bo unit (i + 1) ?t1] => destruct (IH (i + 1) t1) as (t' & -> & [Ho Hk Hl]); [lia|lia|split| ] end; cbn [tb_map tb_off].
    + intros c Hc Hcn. destruct (Hcpu c ltac:(by right) Hcn) as (? & ? & Hmc). split; [done|]. split; [done|].
      rewrite list_lookup_insert_ne; [done|]. intros E. apply Hcr. by replace cpu with c by lia.
    + done.
    + by rewrite !length_insert.
    + exists t'. split; [done|]. split; [| |done].
      * intros [|j] c Hj Hc; cbn in Hj.
        -- injection Hj as <-. destruct (Hk cpu ltac:(lia) Hcr) as [-> ->]. cbn [tb_map tb_off]. rewrite !list_lookup_insert_eq by lia.
           split; [f_equal; lia|]. exists (unit + i). split; [done|lia].
        -- destruct (Ho j c Hj Hc) as [-> Hm']. split; [f_equal; lia|done].
      * intros c Hc0 Hc. destruct (Hk c Hc0 ltac:(intros ?; apply Hc; by right)) as [-> ->]. cbn [tb_map tb_off].
        rewrite !list_lookup_insert_ne; [done|intros E; apply Hc; replace cpu with c by lia; by left..].
Qed.

Definition cpus_of (g : pcpu_group_info) : list Z := take (Z.to_nat (gi_nr_units g)) (gi_cpu_map g).

(** Groups whose CPUs can all be entered, each once. *)
Record groups_ok (gs : list pcpu_group_info) (us : Z) (t : tables) : Prop := {
  go_cpu : forall g cpu, g ∈ gs -> cpu ∈ cpus_of g -> cpu <> NR_CPUS -> cpu ∈ possible /\ 0 <= cpu < nr /\ tb_map t !! Z.to_nat cpu = Some (-1);
  go_once : forall a b g h i j cpu, gs !! a = Some g -> gs !! b = Some h -> cpus_of g !! i = Some cpu -> cpus_of h !! j = Some cpu ->
    cpu <> NR_CPUS -> a = b /\ i = j;
  go_fit : forall g, g ∈ gs -> 0 <= gi_base_offset g /\ 0 <= gi_nr_units g /\ gi_base_offset g + gi_nr_units g * us < 2 ^ 64;
  go_len : length (tb_map t) = Z.to_nat nr /\ length (tb_off t) = Z.to_nat nr
}.

Lemma group_loop_spec us : 0 < us -> forall gs unit t, 0 <= unit -> groups_ok gs us t ->
  exists t' u', group_loop possible nr gs us unit t = Ret (t', u')
    /\ (forall g i cpu, g ∈ gs -> cpus_of g !! i = Some cpu -> cpu <> NR_CPUS ->
          tb_off t' !! Z.to_nat cpu = Some (gi_base_offset g + Z.of_nat i * us) /\ exists u, tb_map t' !! Z.to_nat cpu = Some u /\ 0 <= u)
    /\ (forall cpu, 0 <= cpu -> (forall g, g ∈ gs -> cpu ∉ cpus_of g) -> tb_off t' !! Z.to_nat cpu = tb_off t !! Z.to_nat cpu /\ tb_map t' !! Z.to_nat cpu = tb_map t !! Z.to_nat cpu).
Proof.
  intros Hus. induction gs as [|g gs IH]; intros unit t Hunit [Hcpu Honce Hfit Hlen]; cbn [group_loop].
  { exists t, unit. split; [done|]. split; [intros g i cpu Hg; by apply not_elem_of_nil in Hg|done]. }
  destruct (Hfit g ltac:(by left)) as (Hb & Hn & Hbn). fold (cpus_of g).
  assert (Hlg : Z.of_nat (length (cpus_of g)) <= gi_nr_units g) by (unfold cpus_of; rewrite length_take; lia).
  destruct (unit_loop_spec us (gi_base_offset g) unit Hus Hb Hunit (cpus_of g) 0 t) as (t1 & -> & [Ho1 Hk1 Hl1]); [lia|nia|split; [|intros j1 j2 c H1 H2 H3; apply (Honce 0%nat 0%nat g g j1 j2 c); done|done]|].
  { intros c Hc. apply (Hcpu g); [by left|done]. }
  cbn [obind].
  (* the other groups hold other CPUs *)
  assert (Hother : forall h c, h ∈ gs -> c ∈ cpus_of h -> c <> NR_CPUS -> c ∉ cpus_of g).
  { intros h c [b Hh]%list_elem_of_lookup [j Hj]%list_elem_of_lookup Hc [i Hi]%list_elem_of_lookup.
    destruct (Honce 0%nat (S b) g h i j c eq_refl Hh Hi Hj Hc) as [? _]. lia. }
  destruct (IH (unit + gi_nr_units g) t1) as (t' & u' & -> & Ho & Hk); [lia|split| ].
  { intros h c Hh Hc Hcn. destruct (Hcpu h c ltac:(by right) Hc Hcn) as (Hp & Hr & Hm). split; [done|]. split; [done|].
    destruct (Hk1 c ltac:(lia) (Hother h c Hh Hc Hcn)) as [_ ->]. done. }
  { intros a b h1 h2 i j c H1 H2 Hi Hj Hc. destruct (Honce (S a) (S b) h1 h2 i j c H1 H2 Hi Hj Hc). split; [lia|done]. }
  { intros h Hh. apply Hfit. by right. }
  { done. }
  exists t', u'. split; [done|]. split.
  - intros h i c [->|Hh]%elem_of_cons Hi Hc.
    + assert (Hin : c ∈ cpus_of g) by (apply list_elem_of_lookup; eauto). destruct (Hcpu g c ltac:(by left) Hin Hc) as (_ & Hr & _).
      destruct (Hk c ltac:(lia)) as [-> ->]; [intros h Hh Hc'; by apply (Hother h c Hh Hc' Hc)|]. destruct (Ho1 i c Hi Hc) as [-> Hu]. split; [f_equal; lia|done].
    + by apply (Ho h i c).
  - intros c Hc0 Hc. destruct (Hk c Hc0) as [-> ->]; [intros h Hh; apply Hc; by right|]. apply Hk1; [done|]. apply Hc. by left.
Qed.
End Tables.

(** ** The whole setup *)

(** A description of the first chunk that the setup accepts. *)
Record ai_ok (possible : list Z) (nr : Z) (ai : pcpu_alloc_info) (start base : Z) : Prop := {
  ao_checks : setup_checks ai start base = true;
  ao_sizes : 0 <= ai_static_size ai < 2 ^ 28 /\ 0 <= ai_reserved_size ai < 2 ^ 28 /\ 0 <= ai_dyn_size ai < 2 ^ 28
    /\ (4 | ai_static_size ai + ai_dyn_size ai) /\ 0 <= ai_unit_size ai < 2 ^ 30;
  ao_start : 0 < start /\ start + ai_unit_size ai < 2 ^ 64;
  ao_base : 0 <= base /\ base + ai_unit_size ai < 2 ^ 64
    /\ forall g, g ∈ ai_groups ai -> base + gi_base_offset g + gi_nr_units g * ai_unit_size ai < 2 ^ 64;
  ao_pages : ai_unit_size ai <= 192 * 4096;
  ao_nr : 0 < nr <= NR_CPUS;
  ao_groups : groups_ok possible nr (ai_groups ai) (ai_unit_size ai) (mk_tables (replicate (Z.to_nat nr) (-1)) (replicate (Z.to_nat nr) 0) NR_CPUS NR_CPUS);
  ao_all : forall cpu, cpu ∈ possible -> 0 <= cpu < nr /\ exists g, g ∈ ai_groups ai /\ cpu ∈ cpus_of g;
  ao_apart : forall a b g h, ai_groups ai !! a = Some g -> ai_groups ai !! b = Some h -> a <> b ->
    gi_base_offset g + gi_nr_units g * ai_unit_size ai <= gi_base_offset h \/ gi_base_offset h + gi_nr_units h * ai_unit_size ai <= gi_base_offset g
}.

(** What the checks of pcpu_setup_first_chunk() say. *)
Lemma checks_spec possible nr ai start base : ai_ok possible nr ai start base ->
  0 < ai_static_size ai /\ base <> 0 /\ (4096 | base) /\ (4096 | ai_unit_size ai) /\ 32768 <= ai_unit_size ai
  /\ ai_static_size ai + ai_reserved_size ai + ai_dyn_size ai <= ai_unit_size ai /\ 12288 <= ai_dyn_size ai /\ (4 | ai_reserved_size ai)
  /\ 0 < Z.of_nat (length (ai_groups ai)).
Proof.
  intros [Hc (Hs & Hr & Hd & _ & Hu) _ _ _ _ _ _ _]. unfold setup_checks in Hc. rewrite !andb_true_iff, !negb_true_iff, !Z.geb_leb, !Z.leb_le, !Z.eqb_neq, !Z.eqb_eq, !Z.ltb_lt in Hc.
  destruct Hc as (((((((((((C1 & C2) & C3) & C4) & C5) & C6) & C7) & C8) & C9) & C10) & C11) & C12).
  unfold offset_in_page, PCPU_MIN_ALLOC_SIZE in *. change (PAGE_SIZE - 1) with (Z.ones 12) in *. change (4 - 1) with (Z.ones 2) in *. rewrite !Z.land_ones in * by lia.
  rewrite !u64_id in C6 by (uunfold; rewrite ?u64_id; uunfold; lia).
  unfold PCPU_MIN_UNIT_SIZE, PERCPU_DYNAMIC_EARLY_SIZE in *.
  split_and!; try lia; apply Z.mod_divide; done || lia.
Qed.

Lemma page_end_le e u hi : (4096 | e) -> (4096 | u) -> hi <= u -> e < hi + 4096 -> e <= u.
Proof. intros [p ->] [q ->] H1 H2. nia. Qed.

Lemma first_chunk_in cf addr map_size live c :
  conf_ok cf -> (4096 | pcpu_base_addr cf) -> (4 | addr) -> (4 | map_size) -> 0 < map_size ->
  pcpu_base_addr cf <= addr -> addr + map_size <= pcpu_base_addr cf + pcpu_unit_size cf ->
  first_chunk addr map_size live c -> chunk_in cf live c.
Proof.
  intros Hcf Hb4 H4a H4m Hm Hlo Hhi [Hok Hbase Hl Hh He Hpop _ Hhs Hhe Hex]. pose proof (Z.mod_pos_bound addr 4096 ltac:(lia)) as Hmod.
  assert (Hal : (4096 | base_addr c)). { rewrite Hbase. exists (addr / 4096). pose proof (Z.div_mod addr 4096). lia. }
  unfold lo_addr, hi_addr in *. assert (Hso : start_offset c = addr mod 4096) by lia. pose proof (cs_pages _ (ck_shape _ _ Hok)) as Hp.
  assert (H4s : (4 | start_offset c)).
  { rewrite Hso. destruct H4a as [q ->]. exists (q mod 1024). change 4096 with (1024 * 4). rewrite Z.mul_mod_distr_r by lia. lia. }
  split; try done.
  - split.
    + destruct Hb4 as [q Hq]. destruct Hal as [p Hp']. nia.
    + apply (page_end_le _ _ (addr + map_size)); [|destruct Hb4 as [q ->]; rewrite (co_size _ Hcf); exists (q + pcpu_unit_pages cf); lia|lia|lia].
      destruct Hal as [p ->]. exists (p + nr_pages c). lia.
  - split; [lia|]. split; [lia|]. split; [done|]. split; [|lia].
    destruct H4s as [p Hp']. destruct H4m as [q ->]. destruct Hal as [z Hz]. destruct H4a as [y ->]. exists (1024 * nr_pages c - p - q). lia.
Qed.

Section Whole.
Context {B K P : Type} `{BootAllocatorLaws B} (possible : list Z) (nr : Z) (cpu_to_node : Z -> Z).

Lemma relocate_first cf (s : pcpu K P) x c live : conf_ok cf -> chunk_in cf live c -> chunks s !! x = Some c -> x <> pcpu_reserved_chunk s ->
  (forall i l, pcpu_slot s !! i = Some l -> l = []) ->
  exists L, pcpu_chunk_relocate cf s x (-1) = Ret (set_slot L s) /\ length L = length (pcpu_slot s) /\ slots_at x (pcpu_chunk_slot cf c) L.
Proof.
  intros Hcf Hin Hx Hr HL. unfold pcpu_chunk_relocate, chunk_at. rewrite Hx. cbn [obind]. destruct (chunk_slot_range cf Hcf live c Hin) as [Hs _].
  destruct (Z.eqb_spec x (pcpu_reserved_chunk s)); [done|]. destruct (Z.eqb_spec (-1) (pcpu_chunk_slot cf c)); [lia|]. cbn [negb andb].
  destruct (Z.ltb_spec (-1) (pcpu_chunk_slot cf c)); [|lia]. eexists. split; [reflexivity|]. unfold list_move. rewrite length_alter, unlink_length. split; [done|].
  apply (move_slots x (-1)); [|lia|done]. intros i l Hi. rewrite (HL i l Hi). by rewrite decide_False by lia.
Qed.

(** The state with the first chunk and perhaps the reserved one. *)
Lemma setup_ok cf x c live (cs : gmap Z pcpu_chunk) rsv (lv : gmap Z (gmap Z Z)) m k p :
  conf_ok cf -> chunk_in cf live c -> x <> 0 -> x <> rsv ->
  (rsv = 0 /\ cs = ∅ \/ rsv <> 0 /\ exists rc rlive, cs = {[ rsv := rc ]} /\ lv !! rsv = Some rlive /\ chunk_in cf rlive rc
     /\ (hi_addr c <= lo_addr rc \/ hi_addr rc <= lo_addr c)) ->
  exists s, pcpu_chunk_relocate cf (set_chunk x c (nr_empty_pop_pages c) (mk_pcpu cs (replicate (Z.to_nat (pcpu_nr_slots cf)) []) x rsv 0 0 false None m k p : pcpu K P)) x (-1) = Ret s
    /\ pcpu_ok cf s (<[x := live]> lv) /\ chunks s = <[x := c]> cs /\ pcpu_first_chunk s = x /\ pcpu_reserved_chunk s = rsv.
Proof.
  intros Hcf Hin Hx0 Hxr Hcs.
  edestruct (relocate_first cf (set_chunk x c (nr_empty_pop_pages c) (mk_pcpu cs (replicate (Z.to_nat (pcpu_nr_slots cf)) []) x rsv 0 0 false None m k p : pcpu K P)) x c live) as (L & -> & HlL & HL);
    [done|done|cbn; by rewrite lookup_insert_eq|done|cbn; intros i l Hi; by apply lookup_replicate in Hi as [-> _]|].
  eexists. split; [reflexivity|]. split; [|done]. cbn in HlL. rewrite length_replicate in HlL.
  assert (Hlk : forall y d, <[x := c]> cs !! y = Some d -> (y = x /\ d = c) \/ (y = rsv /\ rsv <> 0 /\ cs !! y = Some d)).
  { intros y d [[<- <-]|[Hne Hy]]%lookup_insert_Some; [by left|]. right. destruct Hcs as [[_ ->]|(Hr & rc & rl & -> & _)]; [by rewrite lookup_empty in Hy|].
    apply lookup_singleton_Some in Hy as Hy'. destruct Hy' as [<- _]. done. }
  split; cbn [set_slot set_chunk chunks pcpu_slot pcpu_first_chunk pcpu_reserved_chunk]; [done| |done| | |].
  - intros y. split.
    + intros [d Hd]. destruct (Hlk y d Hd) as [[-> _]|(-> & Hr & _)]; [by left|by right].
    + intros [->|[-> Hr]]; [rewrite lookup_insert_eq; eauto|]. destruct Hcs as [[? _]|(_ & rc & rl & -> & _)]; [done|].
      rewrite lookup_insert_ne by done. rewrite lookup_singleton_eq. eauto.
  - intros y d Hd. destruct (Hlk y d Hd) as [[-> ->]|(-> & Hr & Hcd)]; [exists live; by rewrite lookup_insert_eq|].
    destruct Hcs as [[? _]|(_ & rc & rl & -> & Hlv & Hrc & _)]; [done|]. apply lookup_singleton_Some in Hcd as [_ <-]. exists rl. by rewrite lookup_insert_ne.
  - intros y z d e Hd He Hyz. destruct Hcs as [[-> ->]|(Hr & rc & rl & -> & Hlv & Hrc & Hap)].
    + destruct (Hlk y d Hd) as [[-> ->]|(? & ? & _)], (Hlk z e He) as [[-> ->]|(? & ? & _)]; done.
    + destruct (Hlk y d Hd) as [[-> ->]|(-> & _ & Hcd)], (Hlk z e He) as [[-> ->]|(-> & _ & Hce)]; try done.
      * apply lookup_singleton_Some in Hce as [_ <-]. done.
      * apply lookup_singleton_Some in Hcd as [_ <-]. tauto.
  - split; [destruct (chunk_slot_range cf Hcf live c Hin); lia|]. intros d Hd. rewrite lookup_insert_eq in Hd. by injection Hd as <-.
Qed.

(** The sizes of the two regions: the static area is rounded up to 4 bytes at
    the cost of the dynamic one. *)
Definition static_end (ai : pcpu_alloc_info) : Z := 4 * ((ai_static_size ai + 3) / 4).
Definition dyn_bytes (ai : pcpu_alloc_info) : Z := ai_dyn_size ai - (static_end ai - ai_static_size ai).

(** What the setup asks boot memory for, in this order. *)
Definition setup_requests (ai : pcpu_alloc_info) (base : Z) : list Z :=
  let ng := Z.of_nat (length (ai_groups ai)) in
  [ng * 8; ng * 8; nr * 4; nr * 8; (__pcpu_size_to_slot (ai_unit_size ai) + 2) * 16]
  ++ if ai_reserved_size ai =? 0 then chunk_requests (base + static_end ai) (dyn_bytes ai)
     else chunk_requests (base + static_end ai) (ai_reserved_size ai)
          ++ chunk_requests (base + static_end ai + ai_reserved_size ai) (dyn_bytes ai).

(** What the setup leaves: the invariant, one chunk for the dynamic region and
    one for the reserved region if there is one, with every byte of them free
    and exact hints. *)
Record set_up (ai : pcpu_alloc_info) (base : Z) (cf : pcpu_conf) (s : pcpu K P) : Prop := {
  su_base : pcpu_base_addr cf = base /\ pcpu_unit_size cf = ai_unit_size ai;
  su_first : exists lv c, pcpu_ok cf s lv /\ chunks s !! pcpu_first_chunk s = Some c
    /\ lo_addr c = base + static_end ai + ai_reserved_size ai /\ hi_addr c = lo_addr c + dyn_bytes ai
    /\ free_bytes c = dyn_bytes ai /\ contig_exact (used c) c;
  su_reserved : if Z.eq_dec (ai_reserved_size ai) 0 then pcpu_reserved_chunk s = 0 else
    exists c, chunks s !! pcpu_reserved_chunk s = Some c /\ lo_addr c = base + static_end ai
      /\ hi_addr c = lo_addr c + ai_reserved_size ai /\ free_bytes c = ai_reserved_size ai /\ contig_exact (used c) c
}.

Lemma setup_conf ai start base t units : ai_ok possible nr ai start base ->
  (forall g i cpu, g ∈ ai_groups ai -> cpus_of g !! i = Some cpu -> cpu <> NR_CPUS ->
     tb_off t !! Z.to_nat cpu = Some (gi_base_offset g + Z.of_nat i * ai_unit_size ai) /\ exists u, tb_map t !! Z.to_nat cpu = Some u /\ 0 <= u) ->
  let unit_pages := s32 (Z.shiftr (ai_unit_size ai) PAGE_SHIFT) in
  let unit_size := Z.shiftl unit_pages PAGE_SHIFT in
  conf_ok (mk_conf unit_pages unit_size units (__pcpu_size_to_slot unit_size + 2) (SIZEOF_PCPU_CHUNK + BITS_TO_LONGS unit_pages * 8) base
    (tb_map t) (tb_off t) (ai_atom_size ai) (tb_low t) (tb_high t) (map gi_base_offset (ai_groups ai))
    (map (fun g => gi_nr_units g * ai_unit_size ai) (ai_groups ai)) start possible cpu_to_node)
  /\ unit_size = ai_unit_size ai.
Proof.
  intros Hai Ht unit_pages unit_size. destruct (checks_spec _ _ _ _ _ Hai) as (_ & _ & Hb4 & [q Hq] & Hmin & _).
  pose proof Hai as [_ (_ & _ & _ & _ & Hu) Hst (Hb0 & Hb1 & Hbg) _ Hnr Hgr Hall Hap].
  assert (Ep : unit_pages = q). { unfold unit_pages. rewrite Hq. unfold PAGE_SHIFT. rewrite Z.shiftr_div_pow2 by lia. change (2 ^ 12) with 4096. rewrite Z.div_mul by lia. apply s32_id. lia. }
  assert (Es : unit_size = ai_unit_size ai) by (unfold unit_size; rewrite Ep, Hq; unfold PAGE_SHIFT; rewrite Z.shiftl_mul_pow2 by lia; done).
  split; [|done].
  (* the unit of a CPU *)
  assert (Hof : forall cpu, cpu ∈ possible -> exists a g i, ai_groups ai !! a = Some g /\ cpus_of g !! i = Some cpu /\ Z.of_nat i < gi_nr_units g
    /\ tb_off t !! Z.to_nat cpu = Some (gi_base_offset g + Z.of_nat i * ai_unit_size ai)).
  { intros cpu Hcpu. destruct (Hall cpu Hcpu) as (Hr & g & Hg & Hc). pose proof Hg as Hg'. apply list_elem_of_lookup in Hg as [a Ha]. apply list_elem_of_lookup in Hc as [i Hi].
    exists a, g, i. split; [done|]. split; [done|]. split; [|apply (Ht g i cpu); [done|done|unfold NR_CPUS in *; lia]].
    apply lookup_lt_Some in Hi. unfold cpus_of in Hi. rewrite length_take in Hi. destruct (go_fit _ _ _ _ _ Hgr g Hg'). lia. }
  split; cbn [pcpu_unit_pages pcpu_unit_size pcpu_nr_slots per_cpu_start pcpu_base_addr possible_cpus pcpu_unit_offsets]; rewrite ?Es, ?Ep; try done; try lia.
  - intros cpu Hcpu. destruct (Hof cpu Hcpu) as (a & g & i & Ha & Hi & Hin & ->). eexists. split; [reflexivity|].
    assert (Hg : g ∈ ai_groups ai) by (apply list_elem_of_lookup; eauto). destruct (go_fit _ _ _ _ _ Hgr g Hg) as (? & ? & ?). specialize (Hbg g Hg). split; nia.
  - intros cpu1 cpu2 o1 o2 H1 H2 Hne E1 E2. destruct (Hof cpu1 H1) as (a & g & i & Ha & Hi & Hin & E1'). destruct (Hof cpu2 H2) as (b & h & j & Hb & Hj & Hjn & E2').
    rewrite E1 in E1'. rewrite E2 in E2'. injection E1' as ->. injection E2' as ->.
    destruct (decide (a = b)) as [->|Hab].
    + replace h with g in * by congruence. assert (i <> j) by (intros ->; congruence). nia.
    + destruct (Hap a b g h Ha Hb Hab); nia.
Qed.

Theorem setup_first_chunk_spec b ai start base m k p : ai_ok possible nr ai start base ->
  serves_or b (setup_requests ai base) (pcpu_setup_first_chunk possible nr b ai start base cpu_to_node m k p) (fun b1 '(b', cf, s) => b1 = b' /\ set_up ai base cf s).
Proof.
  intros Hai. destruct (checks_spec _ _ _ _ _ Hai) as (Hs0 & Hb0 & Hb4 & H4u & Hmin & Hsum & Hdyn & H4r & Hng).
  pose proof Hai as [Hck (Hs & Hr & Hd & H4sd & Hu) Hst (Hbp & Hbu & Hbg) H192 Hnr Hgr Hall Hap].
  unfold pcpu_setup_first_chunk, setup_requests. rewrite Hck. cbn [negb app].
  do 4 (apply alloc_then; [lia|]; intros ? ? _ _ _ _; cbv beta iota zeta).
  destruct (group_loop_spec possible nr (ai_unit_size ai) ltac:(lia) (ai_groups ai) 0 _ ltac:(lia) Hgr) as (t & units & -> & Hoff & _). cbn [obind].
  replace (existsb _ possible) with false.
  2:{ symmetry. apply not_true_iff_false. rewrite existsb_exists. intros (cpu & Hc & E). apply list_elem_of_In in Hc. destruct (Hall cpu Hc) as (Hcr & g & Hg & Hcg).
      apply list_elem_of_lookup in Hcg as [i Hi]. destruct (Hoff g i cpu Hg Hi ltac:(unfold NR_CPUS in *; lia)) as [_ (u & Eu & Hu0)]. rewrite Eu in E. cbn in E. apply Z.eqb_eq in E. lia. }
  destruct (setup_conf ai start base t units Hai Hoff) as [Hcf Eus]. cbv zeta in Hcf.
  match type of Hcf with conf_ok ?c => set (cf := c) in * end.
  rewrite <- Eus at 1. apply alloc_then; [change (0 < pcpu_nr_slots cf * 16); rewrite (co_slots _ Hcf); unfold __pcpu_size_to_slot; lia|]. intros b5 x5 _ _ _ _. cbv beta iota zeta.
  (* sizes *)
  rewrite align_size by (uunfold; lia). fold (static_end ai).
  assert (Hse : ai_static_size ai <= static_end ai < ai_static_size ai + 4 /\ (4 | static_end ai)) by (unfold static_end; split; [Z.to_euclidean_division_equations; lia|apply Z.divide_factor_l]).
  destruct Hse as [Hse H4s]. rewrite (u64_id (static_end ai)) by (uunfold; lia). rewrite (u64_id (static_end ai - _)) by (uunfold; lia).
  rewrite (u64_id (ai_dyn_size ai - _)) by (uunfold; lia). fold (dyn_bytes ai). rewrite (u64_id (base + static_end ai)) by (uunfold; lia).
  assert (Hdb : 0 < dyn_bytes ai <= ai_dyn_size ai /\ (4 | dyn_bytes ai)).
  { unfold dyn_bytes. split; [lia|]. destruct H4s as [u Hu']. destruct H4sd as [v Hv]. exists (v - u). lia. }
  assert (H4b : (4 | base)) by (destruct Hb4 as [q ->]; exists (q * 1024); lia).
  assert (Hcf_b : pcpu_base_addr cf = base /\ pcpu_unit_size cf = ai_unit_size ai) by done. destruct Hcf_b as [Hcb Hcu].
  assert (Hdb2 : static_end ai + dyn_bytes ai = ai_static_size ai + ai_dyn_size ai) by (unfold dyn_bytes; lia).
  assert (Hpg : forall o n, 0 <= o -> 0 <= n -> o + n <= ai_unit_size ai -> (base + o) mod 4096 + n <= 192 * 4096).
  { intros o n ? ? ?. destruct Hb4 as [q ->]. replace (q * 4096 + o) with (o + q * 4096) by lia. rewrite Z.mod_add by lia. pose proof (Z.mod_le o 4096). lia. }
  destruct (Z.eqb_spec (ai_reserved_size ai) 0) as [Er|Nr]; cbn [negb].
  - rewrite (s32_id (dyn_bytes ai)) by lia.
    rewrite <- (app_nil_r (chunk_requests _ _)).
    eapply serves_then; [apply alloc_first_chunk_spec; [uunfold; lia|by apply Z.divide_add_r|apply Hdb|lia|apply Hpg; lia]|].
    intros b6' [[[b6 x] c] t6] (-> & Hx & _ & _ & _ & live & Hfc). cbn [obind].
    assert (Hin : chunk_in cf live c) by (apply (first_chunk_in cf (base + static_end ai) (dyn_bytes ai)); [done|done|by apply Z.divide_add_r|apply Hdb|lia|rewrite Hcb; lia|rewrite Hcb, Hcu; lia|done]).
    destruct (setup_ok cf x c live ∅ 0 ∅ m k p Hcf Hin Hx Hx ltac:(by left)) as (s & E & Hok & Hcs & Hfst & Hrsv).
    change (pcpu_nr_slots cf) with (__pcpu_size_to_slot (Z.shiftl (s32 (Z.shiftr (ai_unit_size ai) PAGE_SHIFT)) PAGE_SHIFT) + 2) in E. rewrite E. cbn [obind].
    apply serves_ret. split; [done|]. destruct Hfc as [_ _ Hlo Hhi _ _ Hfr _ _ Hex]. split.
    + done.
    + exists (<[x := live]> ∅), c. cbn [chunks pcpu_first_chunk set_populated]. rewrite Hcs, Hfst, lookup_insert_eq.
      split; [by destruct Hok as [????? ?]|]. split; [done|]. split; [lia|]. split; [lia|]. by split.
    + by destruct (Z.eq_dec (ai_reserved_size ai) 0).
  - rewrite (s32_id (ai_reserved_size ai)), (s32_id (dyn_bytes ai)) by lia. rewrite (u64_id (base + static_end ai + _)) by (uunfold; lia).
    eapply serves_then; [apply alloc_first_chunk_spec; [uunfold; lia|by apply Z.divide_add_r|done|lia|apply Hpg; lia]|].
    intros b6' [[[b6 x] c] t6] (-> & Hx & _ & Htk & _ & rlive & Hrc). cbn [obind]. rewrite obind_assoc, <- (app_nil_r (chunk_requests _ _)).
    eapply serves_then; [apply alloc_first_chunk_spec; [uunfold; lia|apply Z.divide_add_r; [by apply Z.divide_add_r|done]|apply Hdb|lia|rewrite <- Z.add_assoc; apply Hpg; lia]|].
    intros b7' [[[b7 y] d] t7] (-> & Hy & Hny & _ & _ & live & Hfc). cbn [obind].
    assert (Hrin : chunk_in cf rlive c) by (apply (first_chunk_in cf (base + static_end ai) (ai_reserved_size ai)); [done|done|by apply Z.divide_add_r|done|lia|rewrite Hcb; lia|rewrite Hcb, Hcu; lia|done]).
    assert (Hin : chunk_in cf live d) by (apply (first_chunk_in cf (base + static_end ai + ai_reserved_size ai) (dyn_bytes ai)); [done|done|apply Z.divide_add_r; [by apply Z.divide_add_r|done]|apply Hdb|lia|rewrite Hcb; lia|rewrite Hcb, Hcu; lia|done]).
    assert (Hyx : y <> x) by (intros ->; done).
    pose proof Hfc as [_ _ Hlo Hhi _ _ Hfr _ _ Hex]. pose proof Hrc as [_ _ Hlo' Hhi' _ _ Hfr' _ _ Hex'].
    destruct (setup_ok cf y d live {[ x := c ]} x {[ x := rlive ]} m k p Hcf Hin Hy Hyx) as (s & E & Hok & Hcs & Hfst & Hrsv).
    { right. split; [done|]. exists c, rlive. split; [done|]. split; [by rewrite lookup_singleton_eq|]. split; [done|]. right. lia. }
    change (pcpu_nr_slots cf) with (__pcpu_size_to_slot (Z.shiftl (s32 (Z.shiftr (ai_unit_size ai) PAGE_SHIFT)) PAGE_SHIFT) + 2) in E.
    rewrite insert_empty. rewrite E. cbn [obind]. apply serves_ret. split; [done|]. split.
    + done.
    + exists (<[y := live]> {[ x := rlive ]}), d. cbn [chunks pcpu_first_chunk set_populated]. rewrite Hcs, Hfst, lookup_insert_eq.
      split; [by destruct Hok as [????? ?]|]. split; [done|]. split; [lia|]. split; [lia|]. by split.
    + destruct (Z.eq_dec (ai_reserved_size ai) 0); [done|]. exists c. cbn [chunks pcpu_reserved_chunk set_populated]. rewrite Hcs, Hrsv.
      rewrite lookup_insert_ne, lookup_singleton_eq by done. split; [done|]. split; [lia|]. split; [lia|]. by split.
Qed.
End Whole.
