(* ===== verification/PercpuProps.v ===== *)
(** * The per-CPU allocator: clients

    Clients that allocate, store to their areas and free them, in any order, as
    a transition system; a client knows the pointers it holds and their sizes. *)

From S2P Require Import Prelude Objects Bitops Memblock Buddy PageOwner Bitmap BitmapSpec Percpu PercpuBlock PercpuRefresh PercpuAlloc PercpuCore PercpuCoreSpec Arith PercpuSetup PercpuSetupSpec.
From stdpp Require Import base list numbers option gmap relations.
#[local] Open Scope Z_scope.
#[local] Open Scope kernel_scope.

Section Safe.
Context {K P : Type} `{ObjectAllocator K} `{PageAllocator P} (cf : pcpu_conf).

(** Byte [b] belongs to the area of [n] units of 4 bytes that [ptr] names, for some CPU. *)
Definition in_area (ptr n b : Z) : bool := in_units cf (possible_cpus cf) (__pcpu_ptr_to_addr cf ptr) (4 * n) b.

Inductive pstep : pcpu K P * gmap Z Z -> pcpu K P * gmap Z Z -> Prop :=
  | ps_alloc s held size align reserved gfp s' ptr :
      is_u64 size -> is_u64 align -> pcpu_alloc cf s size align reserved gfp = Ret (s', ptr) -> ptr <> 0 ->
      pstep (s, held) (s', <[ptr := (size + 3) / 4]> held)
  | ps_fail s held size align reserved gfp s' :
      is_u64 size -> is_u64 align -> pcpu_alloc cf s size align reserved gfp = Ret (s', 0) -> pstep (s, held) (s', held)
  | ps_store s held ptr n b v :
      held !! ptr = Some n -> in_area ptr n b = true ->
      pstep (s, held) (set_mem (fun a => if a =? b then v else mem s a) s, held)
  | ps_free s held ptr n s' :
      held !! ptr = Some n -> free_percpu cf s ptr = Ret s' -> pstep (s, held) (s', delete ptr held).

Definition alike (s s' : pcpu K P) : Prop :=
  chunks s' = chunks s /\ pcpu_slot s' = pcpu_slot s /\ pcpu_first_chunk s' = pcpu_first_chunk s /\ pcpu_reserved_chunk s' = pcpu_reserved_chunk s /\ mem s' = mem s.

(** A pointer names a live area. *)
Definition names (s : pcpu K P) (lv : gmap Z (gmap Z Z)) (ptr n : Z) : Prop :=
  exists x c live o, chunks s !! x = Some c /\ lv !! x = Some live /\ live !! o = Some n /\ served c o n /\ ptr = area_ptr cf c o.

(** The invariant of the system. *)
Definition psafe (st : pcpu K P * gmap Z Z) : Prop :=
  exists lv, pcpu_ok cf st.1 lv /\ forall ptr n, st.2 !! ptr = Some n -> names st.1 lv ptr n.

(** An address belongs to one live area at most. *)
Lemma addr_apart (s : pcpu K P) lv x1 c1 l1 o1 n1 x2 c2 l2 o2 n2 a :
  pcpu_ok cf s lv -> chunks s !! x1 = Some c1 -> lv !! x1 = Some l1 -> l1 !! o1 = Some n1 -> served c1 o1 n1 ->
  chunks s !! x2 = Some c2 -> lv !! x2 = Some l2 -> l2 !! o2 = Some n2 -> served c2 o2 n2 ->
  base_addr c1 + 4 * o1 <= a < base_addr c1 + 4 * o1 + 4 * n1 -> base_addr c2 + 4 * o2 <= a < base_addr c2 + 4 * o2 + 4 * n2 -> x1 = x2 /\ o1 = o2.
Proof.
  intros Hok Hc1 Hl1 Ho1 [Hs1 He1] Hc2 Hl2 Ho2 [Hs2 He2] Ha1 Ha2.
  destruct (decide (x1 = x2)) as [<-|Hx].
  - split; [done|]. replace c2 with c1 in * by congruence. replace l2 with l1 in * by congruence. destruct (decide (o1 = o2)); [done|exfalso].
    destruct (po_chunk _ _ _ Hok _ _ Hc1) as (l1' & E1 & Hin1). replace l1' with l1 in * by congruence.
    destruct (ar_disjoint _ _ _ _ (ck_areas _ _ (ci_ok _ _ _ Hin1)) _ _ _ _ Ho1 Ho2); [done|lia|lia].
  - exfalso. destruct (po_apart _ _ _ Hok _ _ _ _ Hc1 Hc2 Hx); unfold lo_addr, hi_addr in *; lia.
Qed.

Lemma live_range (s : pcpu K P) lv x c live o n : pcpu_ok cf s lv -> chunks s !! x = Some c -> lv !! x = Some live -> live !! o = Some n ->
  0 <= o /\ 0 < n /\ o + n <= 1024 * nr_pages c /\ chunk_in cf live c.
Proof.
  intros Hok Hx Hlv Ho. destruct (po_chunk _ _ _ Hok _ _ Hx) as (l' & E & Hin). replace l' with live in * by congruence.
  destruct (ar_range _ _ _ _ (ck_areas _ _ (ci_ok _ _ _ Hin)) _ _ Ho) as (? & ? & ?). done.
Qed.

(** Areas of different names lie apart in the units of all CPUs. *)
Lemma areas_apart (s : pcpu K P) lv x1 c1 l1 o1 n1 x2 c2 l2 o2 n2 b :
  pcpu_ok cf s lv -> chunks s !! x1 = Some c1 -> lv !! x1 = Some l1 -> l1 !! o1 = Some n1 -> served c1 o1 n1 ->
  chunks s !! x2 = Some c2 -> lv !! x2 = Some l2 -> l2 !! o2 = Some n2 -> served c2 o2 n2 ->
  in_units cf (possible_cpus cf) (base_addr c1 + 4 * o1) (4 * n1) b = true ->
  in_units cf (possible_cpus cf) (base_addr c2 + 4 * o2) (4 * n2) b = true -> x1 = x2 /\ o1 = o2.
Proof.
  intros Hok Hc1 Hl1 Ho1 Hs1 Hc2 Hl2 Ho2 Hs2 Hb1 Hb2. pose proof (po_conf _ _ _ Hok) as Hcf.
  destruct (live_range s lv x1 c1 l1 o1 n1) as (? & ? & ? & Hin1); try done. destruct (live_range s lv x2 c2 l2 o2 n2) as (? & ? & ? & Hin2); try done.
  destruct (ci_unit _ _ _ Hin1) as [? ?]. destruct (ci_unit _ _ _ Hin2) as [? ?].
  unfold in_units in Hb1, Hb2. apply existsb_exists in Hb1 as (cpu1 & Hp1 & Hb1). apply existsb_exists in Hb2 as (cpu2 & Hp2 & Hb2).
  apply list_elem_of_In in Hp1, Hp2. destruct (co_unit _ Hcf cpu1 Hp1) as (u1 & Eu1 & _). destruct (co_unit _ Hcf cpu2 Hp2) as (u2 & Eu2 & _).
  rewrite Eu1 in Hb1. rewrite Eu2 in Hb2. rewrite andb_true_iff, Z.leb_le, Z.ltb_lt in Hb1, Hb2.
  assert (u1 = u2) as ->.
  { destruct (decide (cpu1 = cpu2)) as [->|Hne]; [congruence|]. destruct (co_apart _ Hcf cpu1 cpu2 u1 u2 Hp1 Hp2 Hne Eu1 Eu2); lia. }
  apply (addr_apart s lv x1 c1 l1 o1 n1 x2 c2 l2 o2 n2 (b - u2)); try done; lia.
Qed.

(** A pointer names one area only. *)
Lemma ptr_apart (s : pcpu K P) lv x1 c1 l1 o1 n1 x2 c2 l2 o2 n2 :
  pcpu_ok cf s lv -> chunks s !! x1 = Some c1 -> lv !! x1 = Some l1 -> l1 !! o1 = Some n1 -> served c1 o1 n1 ->
  chunks s !! x2 = Some c2 -> lv !! x2 = Some l2 -> l2 !! o2 = Some n2 -> served c2 o2 n2 ->
  area_ptr cf c1 o1 = area_ptr cf c2 o2 -> x1 = x2 /\ o1 = o2.
Proof.
  intros Hok Hc1 Hl1 Ho1 Hs1 Hc2 Hl2 Ho2 Hs2 E. unfold area_ptr in E.
  destruct (live_range s lv x1 c1 l1 o1 n1) as (? & ? & _); try done. destruct (live_range s lv x2 c2 l2 o2 n2) as (? & ? & _); try done.
  apply (addr_apart s lv x1 c1 l1 o1 n1 x2 c2 l2 o2 n2 (base_addr c1 + 4 * o1)); try done; lia.
Qed.

Lemma names_addr (s : pcpu K P) lv ptr n : pcpu_ok cf s lv -> names s lv ptr n ->
  exists x c live o, chunks s !! x = Some c /\ lv !! x = Some live /\ live !! o = Some n /\ served c o n
    /\ ptr = area_ptr cf c o /\ __pcpu_ptr_to_addr cf ptr = base_addr c + 4 * o.
Proof.
  intros Hok (x & c & live & o & Hx & Hlv & Ho & Hsv & ->). exists x, c, live, o.
  destruct (po_chunk _ _ _ Hok _ _ Hx) as (live' & E & Hin). replace live' with live in * by congruence.
  destruct (area_ptr_addr cf (po_conf _ _ _ Hok) live c o n Hin Ho Hsv) as (_ & Ep & _). split_and!; done.
Qed.

Lemma names_apart (s : pcpu K P) lv p q n m b : pcpu_ok cf s lv -> names s lv p n -> names s lv q m ->
  in_area p n b = true -> in_area q m b = true -> p = q.
Proof.
  intros Hok Hp Hq Hbp Hbq. destruct (names_addr s lv p n Hok Hp) as (x1 & c1 & l1 & o1 & Hc1 & Hl1 & Ho1 & Hs1 & -> & E1).
  destruct (names_addr s lv q m Hok Hq) as (x2 & c2 & l2 & o2 & Hc2 & Hl2 & Ho2 & Hs2 & -> & E2). unfold in_area in *. rewrite E1 in Hbp. rewrite E2 in Hbq.
  destruct (areas_apart s lv x1 c1 l1 o1 n x2 c2 l2 o2 m b) as [<- <-]; try done. by replace c2 with c1 by congruence.
Qed.

(** Names survive the allocation of another area. *)
Lemma names_alloc (s s' : pcpu K P) lv x o n ptr p m : handed_out cf s lv x o n s' ptr -> names s lv p m ->
  exists live, lv !! x = Some live /\ names s' (<[x := <[o := n]> live]> lv) p m.
Proof.
  intros [(live & Hlv & Hnone & Hok') Hother (c & Hx & _ & _ & _ & Hg)] (y & d & ly & oy & Hd & Hly & Hoy & Hsy & ->). exists live. split; [done|].
  destruct (decide (y = x)) as [->|Hne].
  - destruct (Hg d Hd) as [(G1 & _ & G3 & G4 & G5 & _) _]. exists x, c, (<[o := n]> live), oy. rewrite lookup_insert_eq. split; [done|]. split; [done|].
    replace ly with live in * by congruence. rewrite lookup_insert_ne by congruence. split; [done|]. unfold served, area_ptr in *. by rewrite G1, G3, G4, G5.
  - exists y, d, ly, oy. rewrite lookup_insert_ne by done. split; [|done]. by rewrite Hother.
Qed.

(** States that agree on chunks and slots. *)
Lemma pcpu_ok_like (s s' : pcpu K P) lv : pcpu_ok cf s lv -> alike s s' -> pcpu_ok cf s' lv.
Proof. intros [????? ?] (E1 & E2 & E3 & E4 & _). split; rewrite ?E1, ?E2, ?E3, ?E4; done. Qed.

(** A request is accepted or not. *)
Lemma classic_request size align : is_u64 size -> is_u64 align ->
  (exists n k, request size align n k) \/ forall n k, ~ request size align n k.
Proof.
  intros Hs Ha. pose proof (request_cases size align Hs Ha) as Hr. destruct (is_power_of_2 (Z.max 4 align)) eqn:E.
  - destruct (decide (0 < size <= 32768 /\ align <= 4096)) as [[? ?]|Hno].
    + left. apply Hr. split; [done|]. split; [done|]. apply power_of_2_spec; [uunfold; lia|done].
    + right. intros n k Hrq. apply Hno. destruct (proj2 Hr (ex_intro _ n (ex_intro _ k Hrq))) as (? & ? & _). done.
  - right. intros n k Hrq. destruct (proj2 Hr (ex_intro _ n (ex_intro _ k Hrq))) as (_ & _ & Hp).
    apply power_of_2_spec in Hp; [congruence|uunfold; lia].
Qed.

(** What a completed allocation did. *)
Lemma pcpu_alloc_cases s lv size align rsv gfp s' ptr : pcpu_ok cf s lv -> is_u64 size -> is_u64 align ->
  pcpu_alloc cf s size align rsv gfp = Ret (s', ptr) ->
  (exists x o k, request size align ((size + 3) / 4) k /\ handed_out cf s lv x o ((size + 3) / 4) s' ptr) \/ (ptr = 0 /\ alike s s').
Proof.
  intros Hok Hs Ha E. destruct (classic_request size align Hs Ha) as [(n & k & Hrq)|Hno].
  - pose proof (rq_bits _ _ _ _ Hrq) as ->. destruct (pcpu_alloc_spec cf (po_conf _ _ _ Hok) s lv size align rsv gfp _ k Hok Ha Hrq) as [(s1 & o & p & E1 & _ & Hho)|[_ E1]].
    + rewrite E in E1. injection E1 as <- <-. left. by exists (source s rsv), o, k.
    + right. rewrite E in E1. destruct (is_atomic gfp); [injection E1 as -> ->; done|]. destruct (from_reserved s rsv); [injection E1 as -> ->; done|].
      destruct (pcpu_create_chunk cf (heap s)) as [[h r]| |]; [|done..]. cbn in E1. injection E1 as -> ->. done.
  - right. rewrite pcpu_alloc_bad in E by done. injection E as <- <-. done.
Qed.

Lemma psafe_step st st' : psafe st -> pstep st st' -> psafe st'.
Proof.
  intros (lv & Hok & Hnames) Hstep. destruct Hstep as [s held size align rsv gfp s' ptr Hs Ha E Hp|s held size align rsv gfp s' Hs Ha E|s held ptr n b v Hh Hb|s held ptr n s' Hh E]; cbn [fst snd] in *.
  - destruct (pcpu_alloc_cases s lv size align rsv gfp s' ptr Hok Hs Ha E) as [(x & o & k & Hrq & Hho)|[-> _]]; [|done].
    pose proof Hho as [(live & Hlv & Hnone & Hok') _ (c & Hx & Hsv & -> & _)]. exists (<[x := <[o := (size + 3) / 4]> live]> lv). split; [done|]. cbn [snd].
    intros p m [[<- <-]|[Hne Hm]]%lookup_insert_Some.
    + exists x, c, (<[o := (size + 3) / 4]> live), o. by rewrite !lookup_insert_eq.
    + destruct (names_alloc _ _ _ _ _ _ _ _ _ Hho (Hnames p m Hm)) as (live' & Hlv' & Hn). by replace live' with live in * by congruence.
  - destruct (pcpu_alloc_cases s lv size align rsv gfp s' 0 Hok Hs Ha E) as [(x & o & k & Hrq & Hho)|[_ Hs']].
    + exfalso. destruct Hho as [(live & Hlv & Hnone & Hok') _ (c & Hx & Hsv & E0 & _)].
      destruct (po_chunk _ _ _ Hok' x c Hx) as (live' & Hl' & Hin). rewrite lookup_insert_eq in Hl'. injection Hl' as <-.
      destruct (area_ptr_addr cf (po_conf _ _ _ Hok') _ c o ((size + 3) / 4) Hin ltac:(by rewrite lookup_insert_eq) Hsv) as [? _]. done.
    + exists lv. cbn [fst snd]. split; [by apply (pcpu_ok_like s)|]. destruct Hs' as (E1 & _). intros p m Hm. destruct (Hnames p m Hm) as (x & c & live & o & Hx & ?). exists x, c, live, o. by rewrite E1.
  - exists lv. cbn [fst snd]. split; [by apply pcpu_ok_mem|]. intros p m Hm. apply (Hnames p m Hm).
  - destruct (Hnames ptr n Hh) as (x & c & live & o & Hx & Hlv & Ho & Hsv & ->).
    destruct (free_percpu_spec cf (po_conf _ _ _ Hok) s lv x c live o n Hok Hx Hlv Ho Hsv) as (c' & t & L & E' & Hg & _ & Hok'). rewrite E in E'. injection E' as ->.
    exists (<[x := delete o live]> lv). split; [done|]. cbn [snd fst]. intros p m [Hne Hm]%lookup_delete_Some.
    destruct (Hnames p m Hm) as (y & d & ly & oy & Hd & Hly & Hoy & Hsy & ->). destruct Hg as (G1 & _ & G3 & G4 & G5 & _).
    destruct (decide (y = x)) as [->|Hyx].
    + replace d with c in * by congruence. replace ly with live in * by congruence. exists x, c', (delete o live), oy. cbn. rewrite !lookup_insert_eq.
      split; [done|]. split; [done|]. rewrite lookup_delete_ne by congruence. split; [done|]. unfold served, area_ptr in *. by rewrite G1, G3, G4, G5.
    + exists y, d, ly, oy. cbn. by rewrite !lookup_insert_ne.
Qed.

Lemma psafe_run st st' : psafe st -> rtc pstep st st' -> psafe st'.
Proof. intros Hs Hr. induction Hr as [|st st1 st2 H1 _ IH]; [done|]. apply IH. by apply (psafe_step st). Qed.
End Safe.

(** * The per-CPU allocator: theorems *)

(** ** A machine with two CPUs *)

(** Boot memory handed out upwards; no slab allocator and no pages yet. *)
#[export] Instance bump_boot : BootAllocator positive :=
  { ba_alloc b size := Ret ((b + Z.to_pos size)%positive, Zpos b) }.
#[export, refine] Instance bump_boot_laws : BootAllocatorLaws positive :=
  { ba_taken b q := 0 < q < Zpos b }.
Proof.
  intros b size Hs. right. exists (b + Z.to_pos size)%positive, (Zpos b). split; [done|]. split; [done|].
  rewrite Pos2Z.inj_add, Z2Pos.id by done. split; [lia|]. split; [lia|]. lia.
Defined.
#[export] Instance no_heap : ObjectAllocator bool :=
  { oa_available b := b; oa_kzalloc b _ := Ret (b, 64); oa_kfree b _ := Ret b }.
#[export] Instance no_pages : PageAllocator unit :=
  { pa_alloc u _ _ := Ret (u, None); pa_free u _ _ := Ret u; pa_page _ _ := mk_page 0 0 0 0 0 0 0 None 0 0; pa_upd u _ _ := u; pa_order _ _ := 0 }.

Definition duo_ai : pcpu_alloc_info :=
  mk_ai 4102 8192 36858 65536 4096 131072 [mk_group 2 0 [0; 1]].
Definition duo_start : Z := 0xffff000008e00000.
Definition duo_base : Z := 0x80000000.

Lemma duo_ai_ok : ai_ok [0; 1] 2 duo_ai duo_start duo_base.
Proof.
  split; try (unfold NR_CPUS, duo_start, duo_base; cbn; lia).
  - vm_compute. reflexivity.
  - cbn. split_and!; try lia. by exists 10240.
  - split; [done|]. split; [done|]. intros g ->%list_elem_of_singleton. done.
  - split; try done.
    + intros g cpu ->%list_elem_of_singleton Hc Hn. cbn in Hc. apply elem_of_cons in Hc as [->| ->%list_elem_of_singleton]; (split; [set_solver|]; split; [lia|done]).
    + intros a b g h i j cpu Hg Hh Hi Hj Hn. destruct a as [|a], b as [|b]; try (cbn in *; done). cbn in Hg, Hh. injection Hg as <-. injection Hh as <-.
      split; [done|]. change (cpus_of _) with [0; 1] in Hi, Hj. destruct i as [|[|i]], j as [|[|j]]; cbn in *; rewrite ?lookup_nil in *; by simplify_eq.
    + intros g ->%list_elem_of_singleton. cbn. lia.
  - intros cpu Hc. split; [apply elem_of_cons in Hc as [->| ->%list_elem_of_singleton]; lia|]. exists (mk_group 2 0 [0; 1]). split; [by apply list_elem_of_singleton|]. done.
  - intros a b g h Hg Hh Hne. destruct a as [|a], b as [|b]; cbn in *; done.
Qed.

Definition duo_run (available : bool) : outcome (positive * pcpu_conf * pcpu bool unit) :=
  pcpu_setup_first_chunk [0; 1] 2 4096%positive duo_ai duo_start duo_base (fun _ => 0) (fun _ => 7) available tt.
Definition duo_cf : pcpu_conf := match duo_run false with Ret (_, cf, _) => cf | _ => mk_conf 0 0 0 0 0 0 [] [] 0 0 0 [] [] 0 [] (fun _ => 0) end.
Definition duo (available : bool) : pcpu bool unit :=
  match duo_run available with Ret (_, _, s) => s | _ => mk_pcpu ∅ [] 0 0 0 0 false None (fun _ => 0) available tt end.
Definition status {A} (r : outcome A) : Z := match r with Ret _ => 0 | Panic => 1 | Stuck => 2 end.

(** ** Theorems *)

(** C34. The setup of the first per-CPU chunk, for every description of units
    and sizes that passes its checks, with units of at most 192 pages: if boot
    memory serves the requests of [setup_requests] one after the other, and
    exactly then, it returns, having made these requests and no others, and
    leaves a well-formed allocator in which the dynamic region and, if asked
    for, the reserved region are served by one chunk each, at their places
    behind the static area, wholly free and with exact hints; if one of the
    requests is refused it ends in the panic of memblock_alloc(). *)
Theorem percpu_setup_correct {B K P : Type} `{BootAllocatorLaws B} (possible : list Z) (nr : Z) (cpu_to_node : Z -> Z)
    (b : B) (ai : pcpu_alloc_info) (start base : Z) (m : Z -> Z) (k : K) (p : P) :
  ai_ok possible nr ai start base ->
  match ba_run b (setup_requests nr ai base) with
  | Some b' => exists cf s, pcpu_setup_first_chunk possible nr b ai start base cpu_to_node m k p = Ret (b', cf, s) /\ set_up ai base cf s
  | None => pcpu_setup_first_chunk possible nr b ai start base cpu_to_node m k p = Panic
  end.
Proof.
  intros Hai. pose proof (setup_first_chunk_spec possible nr cpu_to_node b ai start base m k p Hai) as Hs. unfold serves_or in Hs.
  destruct (ba_run b _) as [b1|]; [|done]. destruct Hs as ([[b' cf] s] & E & -> & Hsu). by exists cf, s.
Qed.

Lemma percpu_setup_correct_witness :
  setup_requests 2 duo_ai duo_base = [8; 8; 8; 16; 256; 105; 384; 392; 60; 105; 1152; 1160; 180]
  /\ exists cf s, duo_run false = Ret (7930%positive, cf, s) /\ set_up duo_ai duo_base cf s.
Proof.
  split; [reflexivity|]. exact (percpu_setup_correct [0; 1] 2 (fun _ => 0) 4096%positive duo_ai duo_start duo_base (fun _ => 7) false tt duo_ai_ok).
Defined.

(** The demo machine is well formed. *)
Lemma duo_ok : exists lv, pcpu_ok duo_cf (duo false) lv.
Proof.
  destruct (setup_first_chunk_spec (K := bool) (P := unit) [0; 1] 2 (fun _ => 0) 4096%positive duo_ai duo_start duo_base (fun _ => 7) false tt duo_ai_ok) as ([[b cf] s] & E & _ & [_ (lv & c & Hok & _) _]).
  exists lv. unfold duo_cf, duo, duo_run. rewrite E. exact Hok.
Qed.

(** C9. pcpu_alloc(), on every request: an illegal size or alignment is refused
    and changes nothing; a legal one hands out an area that was not live, in
    the served region of the chunk it was to come from, at an address with the
    alignment, clears it for every possible CPU, changes no other byte of
    memory and keeps the allocator well formed; or it finds no room, which it
    never does while the hint of the chunk is exact and the free run it names
    is as long as the request and twice the difference between the alignment
    and 4 bytes (for an alignment of 4 bytes: the request fits), or the request
    fits and the chunk is wholly free.  Without room an atomic request and one
    for the reserved chunk return NULL, any other one comes to
    pcpu_create_chunk(): the search is never restarted. *)
Theorem percpu_alloc_correct {K P : Type} `{ObjectAllocator K} `{PageAllocator P} (cf : pcpu_conf) (s : pcpu K P) lv size align reserved gfp :
  pcpu_ok cf s lv -> is_u64 size -> is_u64 align ->
  ((forall n k, ~ request size align n k) /\ pcpu_alloc cf s size align reserved gfp = Ret (s, 0))
  \/ exists n k, request size align n k /\
     ((exists s' o ptr, pcpu_alloc cf s size align reserved gfp = Ret (s', ptr) /\ ptr <> 0
         /\ (Z.max 4 align | __pcpu_ptr_to_addr cf ptr) /\ handed_out cf s lv (source s reserved) o n s' ptr)
      \/ ((forall c, chunks s !! source s reserved = Some c -> ~ roomy c n k)
          /\ pcpu_alloc cf s size align reserved gfp =
               if is_atomic gfp then Ret (set_failed true s, 0)
               else if from_reserved s reserved then Ret (s, 0)
               else let! (h, _) := pcpu_create_chunk cf (heap s) in Ret (set_heap h s, 0))).
Proof.
  intros Hok Hs Ha. destruct (classic_request size align Hs Ha) as [(n & k & Hrq)|Hno]; [right|left; split; [done|by apply pcpu_alloc_bad]].
  exists n, k. split; [done|]. destruct (pcpu_alloc_spec cf (po_conf _ _ _ Hok) s lv size align reserved gfp n k Hok Ha Hrq) as [(s' & o & ptr & E & Hd & Hho)|Hfail]; [left|by right].
  exists s', o, ptr. split; [done|]. pose proof Hho as [(live & _ & _ & Hok') _ (c & Hx & Hsv & -> & _)].
  destruct (po_chunk _ _ _ Hok' _ c Hx) as (live' & Hl' & Hin). rewrite lookup_insert_eq in Hl'. injection Hl' as <-.
  destruct (area_ptr_addr cf (po_conf _ _ _ Hok) _ c o n Hin ltac:(by rewrite lookup_insert_eq) Hsv) as (Hp0 & -> & _). split; [done|]. split; [|done].
  pose proof (rq_k _ _ _ _ Hrq). rewrite (rq_align _ _ _ _ Hrq), Z.pow_add_r by lia. apply Z.divide_add_r.
  - etransitivity; [|apply (ci_aligned _ _ _ Hin)]. exists (2 ^ (10 - k)). rewrite (Z.mul_comm (2 ^ k)), Z.mul_assoc, (Z.mul_comm _ (2 ^ 2)), <- Z.mul_assoc, <- Z.pow_add_r by lia. by replace (10 - k + k) with 10 by lia.
  - destruct Hd as [q ->]. exists q. change (2 ^ 2) with 4. lia.
Qed.

Definition duo_got : pcpu bool unit := match pcpu_alloc duo_cf (duo false) 24 8 false GFP_KERNEL with Ret (s, _) => s | _ => duo false end.
Definition duo_ptr : Z := Eval vm_compute in match pcpu_alloc duo_cf (duo false) 24 8 false GFP_KERNEL with Ret (_, p) => p | _ => 0 end.
Lemma duo_alloc_ret : pcpu_alloc duo_cf (duo false) 24 8 false GFP_KERNEL = Ret (duo_got, duo_ptr).
Proof.
  assert (E : match pcpu_alloc duo_cf (duo false) 24 8 false GFP_KERNEL with Ret (_, p) => p = duo_ptr | _ => False end) by (vm_compute; reflexivity).
  unfold duo_got. destruct (pcpu_alloc duo_cf (duo false) 24 8 false GFP_KERNEL) as [[s p]| |]; [by rewrite E|done..].
Qed.

Lemma got_nonzero {A} (X : outcome (A * Z)) s s' p : X = Ret (s, p) -> p <> 0 -> X = Ret (s', 0) -> False.
Proof. congruence. Qed.

Lemma not_full {A H R} (X : outcome (A * Z)) s p (b1 b2 : bool) s1 s2 (g : outcome (H * R)) (f : H -> A) : X = Ret (s, p) -> p <> 0 ->
  X = (if b1 then Ret (s1, 0) else if b2 then Ret (s2, 0) else let! (h, _) := g in Ret (f h, 0)) -> False.
Proof. destruct b1, b2, g as [[h r]| |]; cbn [obind]; congruence. Qed.

Lemma percpu_alloc_correct_witness :
  exists lv, pcpu_ok duo_cf (duo false) lv /\ exists n k, request 24 8 n k
    /\ exists s' o ptr, pcpu_alloc duo_cf (duo false) 24 8 false GFP_KERNEL = Ret (s', ptr) /\ ptr <> 0
         /\ (Z.max 4 8 | __pcpu_ptr_to_addr duo_cf ptr) /\ handed_out duo_cf (duo false) lv (source (duo false) false) o n s' ptr.
Proof.
  destruct duo_ok as [lv Hok]. exists lv. split; [exact Hok|].
  destruct (percpu_alloc_correct duo_cf (duo false) lv 24 8 false GFP_KERNEL Hok) as [[_ E]|(n & k & Hrq & [Hs|[_ E]])]; [uunfold; lia|uunfold; lia| | |].
  - destruct (got_nonzero _ _ _ _ duo_alloc_ret ltac:(discriminate) E).
  - exists n, k. split; [exact Hrq|exact Hs].
  - destruct (not_full _ _ _ (is_atomic GFP_KERNEL) (from_reserved (duo false) false) (set_failed true (duo false)) (duo false)
      (pcpu_create_chunk duo_cf (heap (duo false))) (fun h => set_heap h (duo false)) duo_alloc_ret ltac:(discriminate) E).
Defined.

(** An area by its offset in the unit, with the outcome. *)
Definition offset_of {A} (r : outcome (A * Z)) : Z := match r with Ret (_, p) => if p =? 0 then 0 else p - duo_start | _ => -1 end.

(** The first areas of the demo machine lie behind the static and the reserved
    region; a request for the reserved region right behind the static one. *)
Example duo_allocs :
  offset_of (pcpu_alloc duo_cf (duo false) 24 8 false GFP_KERNEL) = 12296
  /\ offset_of (pcpu_alloc duo_cf (duo false) 24 8 true GFP_KERNEL) = 4104
  /\ offset_of (pcpu_alloc duo_cf (duo false) 24 4096 false 0) = 16384
  /\ offset_of (pcpu_alloc duo_cf (duo false) 32768 4096 false GFP_KERNEL) = 16384
  /\ offset_of (pcpu_alloc duo_cf (duo false) 8192 4096 true 0) = 0
  /\ offset_of (pcpu_alloc duo_cf (duo false) 24 12 false GFP_KERNEL) = 0.
Proof. vm_compute. repeat split; reflexivity. Qed.

(** Live areas determine which bits are used, hence the free bytes. *)
Lemma used_by_live live c c' : chunk_ok live c -> chunk_ok live c' -> nr_pages c' = nr_pages c ->
  (forall i, 0 <= i < 1024 * nr_pages c -> used c' i = used c i) /\ free_bytes c' = free_bytes c.
Proof.
  intros H1 H2 Hp. pose proof (ck_areas _ _ H1) as [_ U1 C1 _ _]. pose proof (ck_areas _ _ H2) as [_ U2 C2 _ _]. rewrite Hp in C2.
  assert (Hu : forall i, 0 <= i < 1024 * nr_pages c -> used c' i = used c i).
  { intros i Hi. destruct (used c i) eqn:E.
    - destruct (C1 i Hi E) as (o & n & Ho & Hr). by apply (U2 o n).
    - apply not_true_is_false. intros E'. destruct (C2 i Hi E') as (o & n & Ho & Hr). rewrite (U1 o n i Ho Hr) in E. done. }
  split; [done|]. rewrite (ck_free _ _ H1), (ck_free _ _ H2), Hp. unfold countz. do 2 f_equal. apply count_ext. intros i Hi. apply Hu.
  pose proof (cs_pages _ (ck_shape _ _ H1)). lia.
Qed.

(** C35. Freeing what pcpu_alloc() returned gives back exactly that area: after
    the two calls the same areas are live as before, each chunk has the same
    bits in use and the same number of free bytes, and outside the area
    memory is as it was. *)
Theorem percpu_roundtrip {K P : Type} `{ObjectAllocator K} `{PageAllocator P} (cf : pcpu_conf) (s : pcpu K P) lv size align reserved gfp s' ptr :
  pcpu_ok cf s lv -> is_u64 size -> is_u64 align -> pcpu_alloc cf s size align reserved gfp = Ret (s', ptr) -> ptr <> 0 ->
  exists s'', free_percpu cf s' ptr = Ret s'' /\ pcpu_ok cf s'' lv
    /\ (forall x c, chunks s !! x = Some c -> exists c'', chunks s'' !! x = Some c'' /\ same_geom c c'' /\ free_bytes c'' = free_bytes c
          /\ forall i, 0 <= i < 1024 * nr_pages c -> used c'' i = used c i)
    /\ forall b, in_area cf ptr ((size + 3) / 4) b = false -> mem s'' b = mem s b.
Proof.
  intros Hok Hs Ha E Hp. destruct (pcpu_alloc_cases cf s lv size align reserved gfp s' ptr Hok Hs Ha E) as [(x & o & k & Hrq & Hho)|[-> _]]; [|done].
  set (n := (size + 3) / 4) in *. destruct Hho as [(live & Hlv & Hnone & Hok') Hother (c & Hx & Hsv & -> & Hm & Hg)].
  destruct (free_percpu_spec cf (po_conf _ _ _ Hok) s' _ x c (<[o := n]> live) o n Hok' Hx ltac:(by rewrite lookup_insert_eq) ltac:(by rewrite lookup_insert_eq) Hsv) as (c2 & t & L & E2 & Hg2 & _ & Hok2).
  rewrite insert_insert_eq, delete_insert_id, (insert_id lv x live) in Hok2 by done.
  eexists. split; [exact E2|]. split; [done|]. split.
  - intros y d Hd. destruct (po_chunk _ _ _ Hok y d Hd) as (ly & Hly & Hind). destruct (decide (y = x)) as [->|Hne].
    + destruct (Hg d Hd) as [Hgd _]. exists c2. cbn. rewrite lookup_insert_eq. split; [done|].
      assert (Hgg : same_geom d c2) by (destruct Hgd as (?&?&?&?&?&?&?), Hg2 as (?&?&?&?&?&?&?); split_and!; congruence). split; [done|].
      destruct (po_chunk _ _ _ Hok2 x c2) as (l2 & Hl2 & Hin2); [cbn; by rewrite lookup_insert_eq|]. replace l2 with ly in * by congruence.
      destruct (used_by_live ly d c2 (ci_ok _ _ _ Hind) (ci_ok _ _ _ Hin2)) as [? ?]; [apply Hgg|done].
    + exists d. cbn. rewrite lookup_insert_ne, Hother by done. split; [done|]. split; [by split_and!|done].
  - intros b Hb. cbn. rewrite Hm. unfold in_area in Hb.
    destruct (po_chunk _ _ _ Hok' x c Hx) as (l' & Hl' & Hin). rewrite lookup_insert_eq in Hl'. injection Hl' as <-.
    destruct (area_ptr_addr cf (po_conf _ _ _ Hok) _ c o n Hin ltac:(by rewrite lookup_insert_eq) Hsv) as (_ & Ea & _). rewrite Ea in Hb. by rewrite Hb.
Qed.

Lemma small_u64 x : (0 <=? x) && (x <? 4096) = true -> is_u64 x.
Proof. rewrite andb_true_iff, Z.leb_le, Z.ltb_lt. uunfold. lia. Qed.

Lemma percpu_roundtrip_witness :
  exists lv, pcpu_ok duo_cf (duo false) lv /\
  exists s'', free_percpu duo_cf duo_got duo_ptr = Ret s'' /\ pcpu_ok duo_cf s'' lv
    /\ (forall x c, chunks (duo false) !! x = Some c -> exists c'', chunks s'' !! x = Some c'' /\ same_geom c c'' /\ free_bytes c'' = free_bytes c
          /\ forall i, 0 <= i < 1024 * nr_pages c -> used c'' i = used c i)
    /\ forall b, in_area duo_cf duo_ptr ((24 + 3) / 4) b = false -> mem s'' b = mem (duo false) b.
Proof.
  destruct duo_ok as [lv Hok]. exists lv. split; [exact Hok|].
  exact (percpu_roundtrip duo_cf (duo false) lv 24 8 false GFP_KERNEL duo_got duo_ptr Hok (small_u64 24 eq_refl) (small_u64 8 eq_refl) duo_alloc_ret ltac:(discriminate)).
Defined.

(** C8. However clients interleave allocations, stores to their own areas and
    frees: areas of different pointers share no byte of any CPU's unit, freeing
    a held pointer succeeds, and no allocation and no free changes a byte of an
    area that is held before and after it. *)
Theorem percpu_clients_safe {K P : Type} `{ObjectAllocator K} `{PageAllocator P} (cf : pcpu_conf) (s0 : pcpu K P) lv (s : pcpu K P) held :
  pcpu_ok cf s0 lv -> rtc (pstep cf) (s0, ∅) (s, held) ->
  (forall p q n m b, held !! p = Some n -> held !! q = Some m -> in_area cf p n b = true -> in_area cf q m b = true -> p = q)
  /\ (forall p n, held !! p = Some n -> exists s', free_percpu cf s p = Ret s' /\ forall b, mem s' b = mem s b)
  /\ (forall size align reserved gfp s' ptr p n b, is_u64 size -> is_u64 align -> pcpu_alloc cf s size align reserved gfp = Ret (s', ptr) ->
        held !! p = Some n -> in_area cf p n b = true -> mem s' b = mem s b /\ p <> ptr).
Proof.
  intros Hok0 Hrun. destruct (psafe_run cf (s0, ∅) (s, held)) as (lv' & Hok & Hn); [|done|].
  { exists lv. split; [done|]. cbn [fst snd]. intros p n. by rewrite lookup_empty. }
  cbn [fst snd] in Hok, Hn. split; [|split].
  - intros p q n m b Hp Hq. apply (names_apart cf s lv'); auto.
  - intros p n Hp. destruct (Hn p n Hp) as (x & c & live & o & Hx & Hlv & Ho & Hsv & ->).
    destruct (free_percpu_spec cf (po_conf _ _ _ Hok) s lv' x c live o n Hok Hx Hlv Ho Hsv) as (c' & t & L & -> & _). by eexists.
  - intros size align rsv gfp s' ptr p n b Hs Ha E Hp Hb.
    assert (Hp0 : p <> 0).
    { destruct (Hn p n Hp) as (x & c & live & o & Hx & Hlv & Ho & Hsv & ->). destruct (po_chunk _ _ _ Hok x c Hx) as (l & El & Hin). replace l with live in * by congruence.
      by apply (area_ptr_addr cf (po_conf _ _ _ Hok) live c o n Hin). }
    destruct (pcpu_alloc_cases cf s lv' size align rsv gfp s' ptr Hok Hs Ha E) as [(x & o & k & Hrq & Hho)|[-> (_ & _ & _ & _ & Em)]]; [|by rewrite Em].
    destruct (names_alloc cf _ _ _ _ _ _ _ _ _ Hho (Hn p n Hp)) as (live & Hlv & Hn'). set (m := (size + 3) / 4) in *.
    destruct Hho as [(live' & Hlv' & Hnone & Hok') Hother (c & Hx & Hsv & -> & Hm & Hg)]. replace live' with live in * by congruence. clear Hlv'.
    assert (Hnew : names cf s' (<[x := <[o := m]> live]> lv') (area_ptr cf c o) m) by (exists x, c, (<[o := m]> live), o; by rewrite !lookup_insert_eq).
    assert (Hne : p <> area_ptr cf c o).
    { intros Ep. destruct (Hn p n Hp) as (y & d & ly & oy & Hd & Hly & Hoy & Hsy & Ed).
      assert (Hd' : exists d', chunks s' !! y = Some d' /\ served d' oy n /\ area_ptr cf d' oy = area_ptr cf d oy).
      { destruct (decide (y = x)) as [->|Hyx]; [|exists d; by rewrite Hother]. exists c. destruct (Hg d Hd) as [(G1 & _ & G3 & G4 & G5 & _) _]. unfold served, area_ptr in *. by rewrite G1, G3, G4, G5. }
      destruct Hd' as (d' & Hd' & Hsd & Ead).
      assert (Hly' : exists ly', <[x := <[o := m]> live]> lv' !! y = Some ly' /\ ly' !! oy = Some n).
      { destruct (decide (y = x)) as [->|Hyx]; [|exists ly; by rewrite lookup_insert_ne]. replace ly with live in * by congruence.
        exists (<[o := m]> live). rewrite lookup_insert_eq. split; [done|]. rewrite lookup_insert_ne; [done|congruence]. }
      destruct Hly' as (ly' & Hly' & Hoy').
      destruct (ptr_apart cf s' _ y d' ly' oy n x c (<[o := m]> live) o m Hok') as [-> ->]; try done; [by rewrite lookup_insert_eq|by rewrite lookup_insert_eq|congruence|]. congruence. }
    split; [|done]. rewrite Hm. destruct (in_units _ _ _ _ b) eqn:Eb; [|done]. exfalso. apply Hne. apply (names_apart cf s' _ p (area_ptr cf c o) n m b Hok' Hn' Hnew Hb).
    unfold in_area. destruct (live_range cf s' _ x c _ o m Hok' Hx ltac:(by rewrite lookup_insert_eq) ltac:(by rewrite lookup_insert_eq)) as (_ & _ & _ & Hin).
    destruct (area_ptr_addr cf (po_conf _ _ _ Hok) _ c o m Hin ltac:(by rewrite lookup_insert_eq) Hsv) as (_ & -> & _). done.
Qed.

Lemma percpu_clients_safe_witness :
  (forall p q n m b, ({[ duo_ptr := 6 ]} : gmap Z Z) !! p = Some n -> ({[ duo_ptr := 6 ]} : gmap Z Z) !! q = Some m ->
     in_area duo_cf p n b = true -> in_area duo_cf q m b = true -> p = q)
  /\ (forall p n, ({[ duo_ptr := 6 ]} : gmap Z Z) !! p = Some n -> exists s', free_percpu duo_cf duo_got p = Ret s' /\ forall b, mem s' b = mem duo_got b)
  /\ (forall size align reserved gfp s' ptr p n b, is_u64 size -> is_u64 align -> pcpu_alloc duo_cf duo_got size align reserved gfp = Ret (s', ptr) ->
        ({[ duo_ptr := 6 ]} : gmap Z Z) !! p = Some n -> in_area duo_cf p n b = true -> mem s' b = mem duo_got b /\ p <> ptr).
Proof.
  destruct duo_ok as [lv Hok]. apply (percpu_clients_safe duo_cf (duo false) lv duo_got {[ duo_ptr := 6 ]} Hok).
  apply rtc_once. rewrite <- insert_empty.
  exact (ps_alloc duo_cf (duo false) ∅ 24 8 false GFP_KERNEL duo_got duo_ptr (small_u64 24 eq_refl) (small_u64 8 eq_refl) duo_alloc_ret ltac:(discriminate)).
Defined.

(** C36. pcpu_chunk_refresh_hint() computes, from the hints of the blocks alone,
    what a scan of the whole bitmap would: the length and place of a longest
    free run, and the number of populated pages without any used bit. *)
Theorem refresh_hint_exact (c : pcpu_chunk) (rsv : bool) (total : Z) :
  chunk_shape c -> hints_ok (used c) c -> 0 <= first_bit c <= 1024 * nr_pages c ->
  (forall i, 0 <= i < first_bit c -> used c i = true) -> 0 <= contig_bits_start c <= 1024 * nr_pages c ->
  exists c' total', pcpu_chunk_refresh_hint rsv c total = Ret (c', total')
    /\ alloc_map c' = alloc_map c /\ contig_exact (used c) c'
    /\ nr_empty_pop_pages c' = countz (fun p => bit (populated c) p && page_free (used c) p) (nr_pages c)
    /\ total' = if rsv then total else total + (nr_empty_pop_pages c' - nr_empty_pop_pages c).
Proof.
  intros Hs Hh Hf Hu Hc. destruct (chunk_refresh_hint_spec (used c) c Hs Hh rsv total Hf Hu Hc) as (cb & cbs & -> & Hex & _).
  eexists _, _. split; [reflexivity|]. split; [done|]. split; [|split; done]. destruct Hex as [? ? ?]. by split.
Qed.

(** A chunk of one page, with four areas cut from it in order; the third one
    is freed again, and another area taken behind it. *)
Definition one_page : pcpu_chunk := blank_chunk 4096 1024 0 1 0 0 1 0 true [1].
Definition chunk_of (r : outcome (option (pcpu_chunk * Z * Z))) : pcpu_chunk := match r with Ret (Some (c, _, _)) => c | _ => one_page end.
Definition cut (n : Z) (c : pcpu_chunk) : pcpu_chunk :=
  match pcpu_find_block_fit c n 1 false with Ret r => chunk_of (alloc_area false c 0 n 1 r) | _ => one_page end.
Definition give (off : Z) (c : pcpu_chunk) : pcpu_chunk := match free_area false c 0 off with Ret (c', _) => c' | _ => one_page end.
Definition cut_page : pcpu_chunk := cut 436 (cut 8 (cut 256 one_page)).

Lemma refresh_hint_exact_witness :
  exists c' total', pcpu_chunk_refresh_hint false one_page 5 = Ret (c', total')
    /\ alloc_map c' = alloc_map one_page /\ contig_exact (used one_page) c'
    /\ nr_empty_pop_pages c' = countz (fun p => bit (populated one_page) p && page_free (used one_page) p) (nr_pages one_page)
    /\ total' = if false then 5 else 5 + (nr_empty_pop_pages c' - nr_empty_pop_pages one_page).
Proof.
  destruct (blank_pre 4096 1024 0 1 0 0 1 0 true [1]) as [[Hs Hh [Hf1 Hf2] [_ Hc] _] _];
    [lia|lia|repeat constructor; uunfold; lia|cbn; lia|].
  exact (refresh_hint_exact one_page false 5 Hs Hh Hf1 Hf2 Hc).
Defined.

(** The hint of a chunk after a free can be a start and a length that belong to
    different runs; a later allocation inside the longest run then leaves the
    length larger than every free run. *)
Example stale_contig_hint :
  (contig_bits cut_page, contig_bits_start cut_page) = (324, 700)
  /\ (contig_bits (give 1024 cut_page), contig_bits_start (give 1024 cut_page)) = (324, 256)
  /\ used (give 1024 cut_page) 264 = true
  /\ (contig_bits (cut 100 (give 1024 cut_page)), contig_bits_start (cut 100 (give 1024 cut_page))) = (324, 256)
  /\ pcpu_find_block_fit (cut 100 (give 1024 cut_page)) 225 1 false = Ret (-1).
Proof. vm_compute. repeat split; reflexivity. Qed.

(** The margin is needed: with a free run of 600 bits, 400 of them in the second
    block, the search for 395 bits at a multiple of 256 passes the second block
    by, as its longest run begins at a worse place. *)
Definition two_pages : pcpu_chunk := blank_chunk 8192 2048 0 2 0 0 2 0 true [3].
Definition cut_two : pcpu_chunk := give (4 * 1525) (give (4 * 824) (cut 122 (cut 401 (cut 101 (cut 600 (cut 824 two_pages)))))).
Example aligned_fit_missed :
  (contig_bits cut_two, contig_bits_start cut_two) = (600, 824)
  /\ forallb (fun i => negb (used cut_two (1024 + Z.of_nat i))) (seq 0 395) = true
  /\ pcpu_find_block_fit cut_two 395 256 false = Ret (-1).
Proof. vm_compute. repeat split; reflexivity. Qed.

(** Once the dynamic region is used up and the slab allocator is available,
    the next allocation that may sleep runs into the BUG() of
    pcpu_create_chunk(). *)
Example growth_panics :
  status (let! (s1, _) := pcpu_alloc duo_cf (duo true) 32768 4 false GFP_KERNEL in pcpu_alloc duo_cf s1 32768 4 false GFP_KERNEL) = 1
  /\ status (let! (s1, _) := pcpu_alloc duo_cf (duo true) 32768 4 false GFP_KERNEL in pcpu_alloc duo_cf s1 32768 4 false 0) = 0.
Proof. vm_compute. split; reflexivity. Qed.
