(* ===== verification/Resource.v ===== *)
(** * The resource tree

    Model of kernel/resource.c and of the helpers of include/linux/ioport.h.
    Memory is a finite map from addresses to [struct resource]; NULL is 0 and is
    never an address of the map, so following a wild pointer panics.  A
    [struct resource **] is a [slot].  Loops along a list of siblings or down
    the tree get one unit of fuel more than there are resources.  Locks and
    printing are left out. *)

From S2P Require Import Prelude Memblock.
From stdpp Require Import base list numbers option gmap.
#[local] Open Scope Z_scope.
#[local] Open Scope kernel_scope.

Record resource := mk_res {
  r_start : Z;
  r_end : Z;
  r_name : Z;
  r_flags : Z;
  r_desc : Z;
  r_parent : Z;
  r_sibling : Z;
  r_child : Z
}.

Definition set_start v r := mk_res v (r_end r) (r_name r) (r_flags r) (r_desc r) (r_parent r) (r_sibling r) (r_child r).
Definition set_end v r := mk_res (r_start r) v (r_name r) (r_flags r) (r_desc r) (r_parent r) (r_sibling r) (r_child r).
Definition set_parent v r := mk_res (r_start r) (r_end r) (r_name r) (r_flags r) (r_desc r) v (r_sibling r) (r_child r).
Definition set_sibling v r := mk_res (r_start r) (r_end r) (r_name r) (r_flags r) (r_desc r) (r_parent r) v (r_child r).
Definition set_child v r := mk_res (r_start r) (r_end r) (r_name r) (r_flags r) (r_desc r) (r_parent r) (r_sibling r) v.
Definition set_range s e r := set_end e (set_start s r).

Abbreviation mem := (gmap Z resource).

Definition IORESOURCE_TYPE_BITS : Z := 0x1f00.
Definition IORESOURCE_IO : Z := 0x100.
Definition IORESOURCE_MEM : Z := 0x200.
Definition IORESOURCE_SIZEALIGN : Z := 0x40000.
Definition IORESOURCE_STARTALIGN : Z := 0x80000.
Definition IORESOURCE_MUXED : Z := 0x400000.
Definition IORESOURCE_EXT_TYPE_BITS : Z := 0x1000000.
Definition IORESOURCE_SYSRAM : Z := 0x1000000.
Definition IORESOURCE_EXCLUSIVE : Z := 0x8000000.
Definition IORESOURCE_UNSET : Z := 0x20000000.
Definition IORESOURCE_BUSY : Z := 0x80000000.
Definition IORESOURCE_SYSTEM_RAM : Z := Z.lor IORESOURCE_MEM IORESOURCE_SYSRAM.
Definition IORES_DESC_NONE : Z := 0.

Definition EINVAL : Z := 22.
Definition EBUSY : Z := 16.

Definition resource_size (r : resource) : Z := u64 (r_end r - r_start r + 1).
Definition resource_type (r : resource) : Z := Z.land (r_flags r) IORESOURCE_TYPE_BITS.
Definition resource_ext_type (r : resource) : Z := Z.land (r_flags r) IORESOURCE_EXT_TYPE_BITS.

Definition resource_contains (r1 r2 : resource) : bool :=
  if negb (resource_type r1 =? resource_type r2) then false
  else if negb (Z.land (r_flags r1) IORESOURCE_UNSET =? 0) || negb (Z.land (r_flags r2) IORESOURCE_UNSET =? 0) then false
  else (r_start r1 <=? r_start r2) && (r_end r2 <=? r_end r1).

(** ** Memory *)

Definition rd (h : mem) (p : Z) : outcome resource :=
  match h !! p with Some r => Ret r | None => Panic end.

Definition upd (h : mem) (p : Z) (f : resource -> resource) : outcome mem :=
  let! r := rd h p in Ret (<[p := f r]> h).

Variant slot := child_of (p : Z) | sibling_of (p : Z).

Definition get_slot (h : mem) (s : slot) : outcome Z :=
  match s with
  | child_of p => let! r := rd h p in Ret (r_child r)
  | sibling_of p => let! r := rd h p in Ret (r_sibling r)
  end.

Definition set_slot (h : mem) (s : slot) (v : Z) : outcome mem :=
  match s with
  | child_of p => upd h p (set_child v)
  | sibling_of p => upd h p (set_sibling v)
  end.

Definition fuel_of (h : mem) : nat := S (size h).

(** ** Walking the tree *)

Fixpoint climb (fuel : nat) (h : mem) (p : Z) : outcome Z :=
  match fuel with
  | O => Stuck
  | S fuel' =>
      let! r := rd h p in
      if (r_sibling r =? 0) && negb (r_parent r =? 0) then climb fuel' h (r_parent r) else Ret (r_sibling r)
  end.

Definition next_resource (h : mem) (p : Z) (sibling_only : bool) : outcome Z :=
  let! r := rd h p in
  if sibling_only then Ret (r_sibling r)
  else if negb (r_child r =? 0) then Ret (r_child r)
  else climb (fuel_of h) h p.

Fixpoint lookup_loop (fuel : nat) (h : mem) (res start : Z) : outcome Z :=
  match fuel with
  | O => Stuck
  | S fuel' =>
      if res =? 0 then Ret 0
      else let! r := rd h res in if r_start r =? start then Ret res else lookup_loop fuel' h (r_sibling r) start
  end.

Definition lookup_resource (h : mem) (root start : Z) : outcome Z :=
  let! r := rd h root in lookup_loop (fuel_of h) h (r_child r) start.

(** ** Requesting *)

Definition link (h : mem) (root new : Z) (p : slot) (tmp : Z) : outcome (mem * Z) :=
  let! h := upd h new (set_sibling tmp) in
  let! h := set_slot h p new in
  let! h := upd h new (set_parent root) in
  Ret (h, 0).

Fixpoint request_loop (fuel : nat) (h : mem) (root new : Z) (p : slot) (start end_ : Z) : outcome (mem * Z) :=
  match fuel with
  | O => Stuck
  | S fuel' =>
      let! tmp := get_slot h p in
      if tmp =? 0 then link h root new p tmp
      else
        let! t := rd h tmp in
        if end_ <? r_start t then link h root new p tmp
        else if r_end t <? start then request_loop fuel' h root new (sibling_of tmp) start end_
        else Ret (h, tmp)
  end.

(** The second component is the conflicting resource, or 0. *)
Definition __request_resource (h : mem) (root new : Z) : outcome (mem * Z) :=
  let! n := rd h new in
  let! r := rd h root in
  if r_end n <? r_start n then Ret (h, root)
  else if r_start n <? r_start r then Ret (h, root)
  else if r_end r <? r_end n then Ret (h, root)
  else request_loop (fuel_of h) h root new (child_of root) (r_start n) (r_end n).

Definition request_resource_conflict (h : mem) (root new : Z) : outcome (mem * Z) := __request_resource h root new.

Definition request_resource (h : mem) (root new : Z) : outcome (mem * Z) :=
  let! (h, conflict) := request_resource_conflict h root new in
  Ret (h, if negb (conflict =? 0) then - EBUSY else 0).

(** ** Releasing *)

(** The loop over the children of [tmp]; the second component is the last one. *)
Fixpoint adopt_loop (fuel : nat) (h : mem) (tmp chd : Z) : outcome (mem * Z) :=
  match fuel with
  | O => Stuck
  | S fuel' =>
      let! t := rd h tmp in
      let! h := upd h chd (set_parent (r_parent t)) in
      let! c := rd h chd in
      if r_sibling c =? 0 then Ret (h, chd) else adopt_loop fuel' h tmp (r_sibling c)
  end.

Definition unlink (h : mem) (old : Z) (release_child : bool) (p : slot) : outcome mem :=
  let! t := rd h old in
  if release_child || (r_child t =? 0) then set_slot h p (r_sibling t)
  else
    let! (h, chd) := adopt_loop (fuel_of h) h old (r_child t) in
    let! h := set_slot h p (r_child t) in
    let! t := rd h old in
    upd h chd (set_sibling (r_sibling t)).

Fixpoint release_loop (fuel : nat) (h : mem) (old : Z) (release_child : bool) (p : slot) : outcome (mem * Z) :=
  match fuel with
  | O => Stuck
  | S fuel' =>
      let! tmp := get_slot h p in
      if tmp =? 0 then Ret (h, - EINVAL)
      else if tmp =? old then
        let! h := unlink h old release_child p in
        let! h := upd h old (set_parent 0) in
        Ret (h, 0)
      else release_loop fuel' h old release_child (sibling_of tmp)
  end.

Definition __release_resource (h : mem) (old : Z) (release_child : bool) : outcome (mem * Z) :=
  let! o := rd h old in
  release_loop (fuel_of h) h old release_child (child_of (r_parent o)).

Definition release_resource (h : mem) (old : Z) : outcome (mem * Z) := __release_resource h old true.
Definition remove_resource (h : mem) (old : Z) : outcome (mem * Z) := __release_resource h old false.

(** The while loop of __release_child_resources(), with its recursive call. *)
Fixpoint release_kids (fuel : nat) (h : mem) (p : Z) : outcome mem :=
  match fuel with
  | O => Stuck
  | S fuel' =>
      if p =? 0 then Ret h
      else
        let! t := rd h p in
        let! h := upd h p (fun r => set_sibling 0 (set_parent 0 r)) in
        let! c := rd h p in
        let! h := upd h p (set_child 0) in
        let! h := release_kids fuel' h (r_child c) in
        let! c := rd h p in
        let size := resource_size c in
        let! h := upd h p (set_range 0 (u64 (size - 1))) in
        release_kids fuel' h (r_sibling t)
  end.

Definition __release_child_resources (h : mem) (r : Z) : outcome mem :=
  let! c := rd h r in
  let! h := upd h r (set_child 0) in
  release_kids (fuel_of h) h (r_child c).

Definition release_child_resources (h : mem) (r : Z) : outcome mem := __release_child_resources h r.

(** ** Inserting *)

Variant descent := settled (h : mem) (conflict : Z) | overlap (h : mem) (parent first : Z).

(** The first loop of __insert_resource(). *)
Fixpoint descend (fuel : nat) (h : mem) (parent new : Z) : outcome descent :=
  match fuel with
  | O => Stuck
  | S fuel' =>
      let! (h, first) := __request_resource h parent new in
      if first =? 0 then Ret (settled h first)
      else if first =? parent then Ret (settled h first)
      else if first =? new then Ret (settled h first)
      else
        let! f := rd h first in
        let! n := rd h new in
        if (r_start n <? r_start f) || (r_end f <? r_end n) then Ret (overlap h parent first)
        else if (r_start f =? r_start n) && (r_end f =? r_end n) then Ret (overlap h parent first)
        else descend fuel' h first new
  end.

(** The second loop: the last sibling inside the new range, or a partial overlap. *)
Fixpoint cover_loop (fuel : nat) (h : mem) (new next : Z) : outcome (Z + Z) :=
  match fuel with
  | O => Stuck
  | S fuel' =>
      let! x := rd h next in
      let! n := rd h new in
      if (r_start x <? r_start n) || (r_end n <? r_end x) then Ret (inr next)
      else if r_sibling x =? 0 then Ret (inl next)
      else
        let! y := rd h (r_sibling x) in
        if r_end n <? r_start y then Ret (inl next) else cover_loop fuel' h new (r_sibling x)
  end.

(** The third loop: every resource from [next] on gets the parent [new]. *)
Fixpoint reparent (fuel : nat) (h : mem) (next new : Z) : outcome mem :=
  match fuel with
  | O => Stuck
  | S fuel' =>
      if next =? 0 then Ret h
      else
        let! h := upd h next (set_parent new) in
        let! x := rd h next in
        reparent fuel' h (r_sibling x) new
  end.

(** [while (next->sibling != first) next = next->sibling]. *)
Fixpoint find_prev (fuel : nat) (h : mem) (next first : Z) : outcome Z :=
  match fuel with
  | O => Stuck
  | S fuel' =>
      let! x := rd h next in
      if r_sibling x =? first then Ret next else find_prev fuel' h (r_sibling x) first
  end.

(** The end of __insert_resource(): the children from [first] to [next] go
    below [new]. *)
Definition put_above (h : mem) (parent new first next : Z) : outcome (mem * Z) :=
  let! h := upd h new (set_parent parent) in
  let! x := rd h next in
  let! h := upd h new (set_sibling (r_sibling x)) in
  let! h := upd h new (set_child first) in
  let! h := upd h next (set_sibling 0) in
  let! h := reparent (fuel_of h) h first new in
  let! q := rd h parent in
  if r_child q =? first then
    let! h := upd h parent (set_child new) in Ret (h, 0)
  else
    let! next := find_prev (fuel_of h) h (r_child q) first in
    let! h := upd h next (set_sibling new) in Ret (h, 0).

Definition __insert_resource (h : mem) (parent new : Z) : outcome (mem * Z) :=
  let! d := descend (fuel_of h) h parent new in
  match d with
  | settled h conflict => Ret (h, conflict)
  | overlap h parent first =>
      let! c := cover_loop (fuel_of h) h new first in
      match c with
      | inr next => Ret (h, next)
      | inl next => put_above h parent new first next
      end
  end.

Definition insert_resource_conflict (h : mem) (parent new : Z) : outcome (mem * Z) := __insert_resource h parent new.

Definition insert_resource (h : mem) (parent new : Z) : outcome (mem * Z) :=
  let! (h, conflict) := insert_resource_conflict h parent new in
  Ret (h, if negb (conflict =? 0) then - EBUSY else 0).

Fixpoint expand_loop (fuel : nat) (h : mem) (root new : Z) : outcome mem :=
  match fuel with
  | O => Stuck
  | S fuel' =>
      let! (h, conflict) := __insert_resource h root new in
      if conflict =? 0 then Ret h
      else if conflict =? root then Ret h
      else
        let! c := rd h conflict in
        let! n := rd h new in
        let! h := (if r_start c <? r_start n then upd h new (set_start (r_start c)) else Ret h) in
        let! n := rd h new in
        let! h := (if r_end n <? r_end c then upd h new (set_end (r_end c)) else Ret h) in
        expand_loop fuel' h root new
  end.

(** Every round but the last makes [new] cover one more resource. *)
Definition insert_resource_expand_to_fit (h : mem) (root new : Z) : outcome mem :=
  let! n := rd h new in
  if negb (r_parent n =? 0) then Ret h else expand_loop (fuel_of h) h root new.

(** ** Changing a range *)

Fixpoint kids_inside (fuel : nat) (h : mem) (tmp start end_ : Z) : outcome bool :=
  match fuel with
  | O => Stuck
  | S fuel' =>
      if tmp =? 0 then Ret true
      else
        let! t := rd h tmp in
        if (r_start t <? start) || (end_ <? r_end t) then Ret false else kids_inside fuel' h (r_sibling t) start end_
  end.

Definition adjust_skip (h : mem) (res start end_ : Z) : outcome (mem * Z) :=
  let! r := rd h res in
  let! ok := kids_inside (fuel_of h) h (r_child r) start end_ in
  if ok then let! h := upd h res (set_range start end_) in Ret (h, 0) else Ret (h, - EBUSY).

Definition __adjust_resource (h : mem) (res start size : Z) : outcome (mem * Z) :=
  let! r := rd h res in
  let parent := r_parent r in
  let end_ := u64 (start + size - 1) in
  if parent =? 0 then adjust_skip h res start end_
  else
    let! q := rd h parent in
    if (start <? r_start q) || (r_end q <? end_) then Ret (h, - EBUSY)
    else
      let! blocked := (if r_sibling r =? 0 then Ret false
                       else let! y := rd h (r_sibling r) in Ret (r_start y <=? end_)) in
      if blocked : bool then Ret (h, - EBUSY)
      else if negb (r_child q =? res) then
        let! tmp := find_prev (fuel_of h) h (r_child q) res in
        let! t := rd h tmp in
        if start <=? r_end t then Ret (h, - EBUSY) else adjust_skip h res start end_
      else adjust_skip h res start end_.

Definition adjust_resource (h : mem) (res start size : Z) : outcome (mem * Z) := __adjust_resource h res start size.

(** ** Finding room *)

Definition ALIGN64 (x a : Z) : Z := Z.land (u64 (x + u64 (a - 1))) (u64 (Z.lnot (u64 (a - 1)))).

Record resource_constraint := mk_rc {
  rc_min : Z;
  rc_max : Z;
  rc_align : Z;
  rc_alignf : resource -> Z -> Z -> Z
}.

Definition simple_align_resource (avail : resource) (size align : Z) : Z := r_start avail.

(** The pair of bounds of [res]. *)
Definition resource_clip (res : Z * Z) (min max : Z) : Z * Z :=
  let res := if res.1 <? min then (min, res.2) else res in
  if max <? res.2 then (res.1, max) else res.

(** A resource of which only the range and the flags are set. *)
Definition bare (start end_ flags : Z) : resource := mk_res start end_ 0 flags 0 0 0 0.

(** The body of the search for one gap; arch_remove_reservations() is empty. *)
Definition try_gap (flags tstart tend size : Z) (c : resource_constraint) : Z * option (Z * Z) :=
  if tend <? tstart then (tstart, None)
  else
    let '(tstart, tend) := resource_clip (tstart, tend) (rc_min c) (rc_max c) in
    let avail := bare (ALIGN64 tstart (rc_align c)) tend (Z.land flags (u64 (Z.lnot IORESOURCE_UNSET))) in
    if tstart <=? r_start avail then
      let astart := rc_alignf c avail size (rc_align c) in
      let alloc := bare astart (u64 (astart + size - 1)) (r_flags avail) in
      if (r_start alloc <=? r_end alloc) && resource_contains avail alloc then (tstart, Some (r_start alloc, r_end alloc))
      else (tstart, None)
    else (tstart, None).

Fixpoint find_loop (fuel : nat) (h : mem) (root old flags this tstart size : Z) (c : resource_constraint) : outcome (option (Z * Z)) :=
  match fuel with
  | O => Stuck
  | S fuel' =>
      let! r := rd h root in
      if this =? 0 then Ret (try_gap flags tstart (r_end r) size c).2
      else
        let! t := rd h this in
        let tend := if this =? old then r_end t else u64 (r_start t - 1) in
        match try_gap flags tstart tend size c with
        | (_, Some range) => Ret (Some range)
        | (tstart, None) =>
            if r_end t =? r_end r then Ret None
            else find_loop fuel' h root old flags (r_sibling t) (if negb (this =? old) then u64 (r_end t + 1) else tstart) size c
        end
  end.

(** The range for [new], or nothing for -EBUSY; [flags] are those of [new]. *)
Definition __find_resource (h : mem) (root old flags size : Z) (c : resource_constraint) : outcome (option (Z * Z)) :=
  let! r := rd h root in
  let this := r_child r in
  if this =? 0 then find_loop (fuel_of h) h root old flags this (r_start r) size c
  else
    let! t := rd h this in
    if r_start t =? r_start r then
      find_loop (fuel_of h) h root old flags (r_sibling t) (if this =? old then r_start t else u64 (r_end t + 1)) size c
    else find_loop (fuel_of h) h root old flags this (r_start r) size c.

Definition find_resource (h : mem) (root flags size : Z) (c : resource_constraint) : outcome (option (Z * Z)) :=
  __find_resource h root 0 flags size c.

Definition reallocate_resource (h : mem) (root old newsize : Z) (c : resource_constraint) : outcome (mem * Z) :=
  let! o := rd h old in
  let! found := __find_resource h root old (r_flags o) newsize c in
  match found with
  | None => Ret (h, - EBUSY)
  | Some (s, e) =>
      let new := set_range s e o in
      if resource_contains new o then let! h := upd h old (set_range s e) in Ret (h, 0)
      else if negb (r_child o =? 0) then Ret (h, - EBUSY)
      else if resource_contains o new then let! h := upd h old (set_range s e) in Ret (h, 0)
      else
        let! (h, _) := __release_resource h old true in
        let! h := upd h old (fun _ => new) in
        let! (h, conflict) := __request_resource h root old in
        if negb (conflict =? 0) then Panic else Ret (h, 0)
  end.

Definition allocate_resource (h : mem) (root new size min max align : Z) (alignf : option (resource -> Z -> Z -> Z))
    : outcome (mem * Z) :=
  let c := mk_rc min max align (default simple_align_resource alignf) in
  let! n := rd h new in
  if negb (r_parent n =? 0) then reallocate_resource h root new size c
  else
    let! found := find_resource h root (r_flags n) size c in
    match found with
    | None => Ret (h, - EBUSY)
    | Some (s, e) =>
        let! h := upd h new (set_range s e) in
        let! (h, conflict) := __request_resource h root new in
        Ret (h, if negb (conflict =? 0) then - EBUSY else 0)
    end.

(** ** Searching iomem_resource *)

Section Iomem.
Context (iomem_resource : Z).

Definition matches (p : resource) (flags desc : Z) : bool :=
  (Z.land (r_flags p) flags =? flags) && ((desc =? IORES_DESC_NONE) || (desc =? r_desc p)).

Fixpoint iomem_loop (fuel : nat) (h : mem) (p start end_ flags desc : Z) (first_lvl : bool) : outcome (option resource) :=
  match fuel with
  | O => Stuck
  | S fuel' =>
      if p =? 0 then Ret None
      else
        let! r := rd h p in
        if matches r flags desc && (end_ <? r_start r) then Ret None
        else if matches r flags desc && (start <=? r_end r) && (r_start r <=? end_) then Ret (Some r)
        else
          let! p := next_resource h p first_lvl in
          iomem_loop fuel' h p start end_ flags desc first_lvl
  end.

(** The part of the resource inside the range, or the error code. *)
Definition find_next_iomem_res (h : mem) (start end_ flags desc : Z) (first_lvl : bool) : outcome (resource + Z) :=
  if end_ <=? start then Ret (inr (- EINVAL))
  else
    let! root := rd h iomem_resource in
    let! found := iomem_loop (fuel_of h) h (r_child root) start end_ flags desc first_lvl in
    match found with
    | None => Ret (inr (-1))
    | Some p => Ret (inl (mk_res (Z.max start (r_start p)) (Z.min end_ (r_end p)) 0 (r_flags p) (r_desc p) 0 0 0))
    end.

(** Callbacks take the resource (or page frames) and the state behind [arg]. *)
Fixpoint walk_loop {A : Type} (fuel : nat) (h : mem) (func : resource -> A -> Z * A) (start end_ flags desc : Z)
    (first_lvl : bool) (arg : A) (ret : Z) : outcome (Z * A) :=
  match fuel with
  | O => Stuck
  | S fuel' =>
      if start <? end_ then
        let! found := find_next_iomem_res h start end_ flags desc first_lvl in
        match found with
        | inr _ => Ret (ret, arg)
        | inl res =>
            let '(ret, arg) := func res arg in
            if negb (ret =? 0) then Ret (ret, arg)
            else walk_loop fuel' h func (u64 (r_end res + 1)) end_ flags desc first_lvl arg ret
        end
      else Ret (ret, arg)
  end.

Definition __walk_iomem_res_desc {A : Type} (h : mem) (start end_ flags desc : Z) (first_lvl : bool) (arg : A)
    (func : resource -> A -> Z * A) : outcome (Z * A) :=
  walk_loop (fuel_of h) h func start end_ flags desc first_lvl arg (-1).

Definition walk_iomem_res_desc {A : Type} (h : mem) (desc flags start end_ : Z) (arg : A) (func : resource -> A -> Z * A) :=
  __walk_iomem_res_desc h start end_ flags desc false arg func.

Definition walk_system_ram_res {A : Type} (h : mem) (start end_ : Z) (arg : A) (func : resource -> A -> Z * A) :=
  __walk_iomem_res_desc h start end_ (Z.lor IORESOURCE_SYSTEM_RAM IORESOURCE_BUSY) IORES_DESC_NONE true arg func.

Fixpoint ram_loop {A : Type} (fuel : nat) (h : mem) (func : Z -> Z -> A -> Z * A) (start end_ : Z) (arg : A) (ret : Z) : outcome (Z * A) :=
  match fuel with
  | O => Stuck
  | S fuel' =>
      if start <? end_ then
        let! found := find_next_iomem_res h start end_ (Z.lor IORESOURCE_SYSTEM_RAM IORESOURCE_BUSY) IORES_DESC_NONE true in
        match found with
        | inr _ => Ret (ret, arg)
        | inl res =>
            let pfn := Z.shiftr (u64 (r_start res + PAGE_SIZE - 1)) PAGE_SHIFT in
            let end_pfn := Z.shiftr (u64 (r_end res + 1)) PAGE_SHIFT in
            let '(ret, arg) := if pfn <? end_pfn then func pfn (u64 (end_pfn - pfn)) arg else (ret, arg) in
            if negb (ret =? 0) then Ret (ret, arg)
            else ram_loop fuel' h func (u64 (r_end res + 1)) end_ arg ret
        end
      else Ret (ret, arg)
  end.

Definition walk_system_ram_range {A : Type} (h : mem) (start_pfn nr_pages : Z) (arg : A) (func : Z -> Z -> A -> Z * A) : outcome (Z * A) :=
  let start := u64 (Z.shiftl start_pfn PAGE_SHIFT) in
  let end_ := u64 (u64 (Z.shiftl (u64 (start_pfn + nr_pages)) PAGE_SHIFT) - 1) in
  ram_loop (fuel_of h) h func start end_ arg (-1).

Definition __is_ram (pfn nr_pages : Z) (arg : unit) : Z * unit := (1, arg).

Definition page_is_ram (h : mem) (pfn : Z) : outcome bool :=
  let! (ret, _) := walk_system_ram_range h pfn 1 tt __is_ram in Ret (ret =? 1).

Variant region_kind := REGION_INTERSECTS | REGION_DISJOINT | REGION_MIXED.

Fixpoint intersects_loop (fuel : nat) (h : mem) (p start end_ flags desc type other : Z) : outcome (Z * Z) :=
  match fuel with
  | O => Stuck
  | S fuel' =>
      if p =? 0 then Ret (type, other)
      else
        let! r := rd h p in
        let hits := Z.b2z ((r_start r <=? start) && (start <=? r_end r))
                    + Z.b2z ((r_start r <=? end_) && (end_ <=? r_end r))
                    + Z.b2z ((start <=? r_start r) && (r_end r <=? end_)) in
        if matches r flags desc then intersects_loop fuel' h (r_sibling r) start end_ flags desc (s32 (type + hits)) other
        else intersects_loop fuel' h (r_sibling r) start end_ flags desc type (s32 (other + hits))
  end.

Definition region_intersects (h : mem) (start size flags desc : Z) : outcome region_kind :=
  let end_ := u64 (start + size - 1) in
  let! root := rd h iomem_resource in
  let! (type, other) := intersects_loop (fuel_of h) h (r_child root) start end_ flags desc 0 0 in
  Ret (if other =? 0 then (if negb (type =? 0) then REGION_INTERSECTS else REGION_DISJOINT)
       else if negb (type =? 0) then REGION_MIXED else REGION_DISJOINT).

(** -1 when a resource sticks out of the request, else 0. *)
Fixpoint sanity_loop (fuel : nat) (h : mem) (p addr size : Z) : outcome Z :=
  match fuel with
  | O => Stuck
  | S fuel' =>
      if p =? 0 then Ret 0
      else
        let! r := rd h p in
        let skip := (u64 (addr + size) <=? r_start r) || (r_end r <? addr)
                    || ((PFN_DOWN (r_start r) <=? PFN_DOWN addr) && (PFN_DOWN (u64 (addr + size - 1)) <=? PFN_DOWN (r_end r)))
                    || negb (Z.land (r_flags r) IORESOURCE_BUSY =? 0) in
        if skip then let! p := next_resource h p false in sanity_loop fuel' h p addr size else Ret (-1)
  end.

Definition iomem_map_sanity_check (h : mem) (addr size : Z) : outcome Z :=
  let! root := rd h iomem_resource in sanity_loop (fuel_of h) h (r_child root) addr size.
End Iomem.

Definition resource_alignment (res : resource) : Z :=
  let f := Z.land (r_flags res) (Z.lor IORESOURCE_SIZEALIGN IORESOURCE_STARTALIGN) in
  if f =? IORESOURCE_SIZEALIGN then resource_size res
  else if f =? IORESOURCE_STARTALIGN then r_start res
  else 0.

(** ** Regions with resources of their own

    [kzalloc] is the address kzalloc() returns for a new resource, 0 for NULL;
    [is_slab] tells whether a resource lies in a slab page.  Entries from boot
    memory go to the list [bootmem_resource_free]. *)

Record res_state := mk_rs { rs_mem : mem; bootmem_resource_free : Z }.

Section Regions.
Context (kzalloc : res_state -> Z) (is_slab : Z -> bool).

Definition zeroed : resource := mk_res 0 0 0 0 0 0 0 0.

Definition alloc_resource (st : res_state) : outcome (res_state * Z) :=
  let res := bootmem_resource_free st in
  if negb (res =? 0) then
    let! r := rd (rs_mem st) res in
    Ret (mk_rs (<[res := zeroed]> (rs_mem st)) (r_sibling r), res)
  else
    let res := kzalloc st in
    if res =? 0 then Ret (st, 0) else Ret (mk_rs (<[res := zeroed]> (rs_mem st)) 0, res).

Definition free_resource (st : res_state) (res : Z) : outcome res_state :=
  if res =? 0 then Ret st
  else if negb (is_slab res) then
    let! h := upd (rs_mem st) res (set_sibling (bootmem_resource_free st)) in Ret (mk_rs h res)
  else Ret (mk_rs (delete res (rs_mem st)) (bootmem_resource_free st)).

Definition with_mem (st : res_state) (h : mem) : res_state := mk_rs h (bootmem_resource_free st).

Definition fill (name start end_ flags : Z) (r : resource) : resource :=
  mk_res start end_ name flags IORES_DESC_NONE (r_parent r) (r_sibling r) (r_child r).

Fixpoint split_loop (fuel : nat) (st : res_state) (parent res next_res name flags : Z) : outcome res_state :=
  match fuel with
  | O => Stuck
  | S fuel' =>
      let! (h, conflict) := __request_resource (rs_mem st) parent res in
      let st := with_mem st h in
      if conflict =? 0 then
        if next_res =? 0 then Ret st else split_loop fuel' st parent next_res 0 name flags
      else
        let! c := rd h conflict in
        let! r := rd h res in
        if (r_start c <=? r_start r) && (r_end r <=? r_end c) then free_resource st res
        else if r_start r <? r_start c then
          let end_ := r_end r in
          let! h := upd h res (set_end (u64 (r_start c - 1))) in
          let st := with_mem st h in
          if r_end c <? end_ then
            let! (st, next_res) := alloc_resource st in
            if next_res =? 0 then free_resource st res
            else
              let! h := upd (rs_mem st) next_res (fill name (u64 (r_end c + 1)) end_ flags) in
              split_loop fuel' (with_mem st h) parent res next_res name flags
          else split_loop fuel' st parent res next_res name flags
        else
          let! h := upd h res (set_start (u64 (r_end c + 1))) in
          split_loop fuel' (with_mem st h) parent res next_res name flags
  end.

(** Two rounds at most per resource that is there before. *)
Definition split_fuel (h : mem) : nat := 2 * fuel_of h.

Definition __reserve_region_with_split (st : res_state) (root start end_ name : Z) : outcome res_state :=
  let! (st, res) := alloc_resource st in
  let! rt := rd (rs_mem st) root in
  if res =? 0 then Ret st
  else
    let flags := Z.lor (s32 (resource_type rt)) IORESOURCE_BUSY in
    let! h := upd (rs_mem st) res (fill name start end_ flags) in
    split_loop (split_fuel h) (with_mem st h) root res 0 name flags.

Definition reserve_region_with_split (st : res_state) (root start end_ name : Z) : outcome res_state :=
  let! r := rd (rs_mem st) root in
  if (start <? r_start r) || (r_end r <? end_) then
    if (r_end r <? start) || (end_ <? r_start r) then Ret st
    else __reserve_region_with_split st root (if start <? r_start r then r_start r else start)
           (if r_end r <? end_ then r_end r else end_) name
  else __reserve_region_with_split st root start end_ name.

(** A conflict with a multiplexed region waits for another task: [Stuck]. *)
Fixpoint region_loop (fuel : nat) (st : res_state) (parent res flags : Z) : outcome (res_state * Z) :=
  match fuel with
  | O => Stuck
  | S fuel' =>
      let! p := rd (rs_mem st) parent in
      let f := Z.lor (Z.lor (resource_type p) (resource_ext_type p)) (Z.lor IORESOURCE_BUSY flags) in
      let! h := upd (rs_mem st) res (fun r =>
        mk_res (r_start r) (r_end r) (r_name r) f (r_desc p) (r_parent r) (r_sibling r) (r_child r)) in
      let! (h, conflict) := __request_resource h parent res in
      let st := with_mem st h in
      if conflict =? 0 then Ret (st, res)
      else
        let! c := rd h conflict in
        if negb (conflict =? parent) && (Z.land (r_flags c) IORESOURCE_BUSY =? 0) then region_loop fuel' st conflict res flags
        else if negb (Z.land (Z.land (r_flags c) flags) IORESOURCE_MUXED =? 0) then Stuck
        else let! st := free_resource st res in Ret (st, 0)
  end.

Definition __request_region (st : res_state) (parent start n name flags : Z) : outcome (res_state * Z) :=
  let! (st, res) := alloc_resource st in
  if res =? 0 then Ret (st, 0)
  else
    let! h := upd (rs_mem st) res (fun r =>
      mk_res start (u64 (start + n - 1)) name (r_flags r) (r_desc r) (r_parent r) (r_sibling r) (r_child r)) in
    region_loop (fuel_of h) (with_mem st h) parent res flags.

Fixpoint release_region_loop (fuel : nat) (st : res_state) (p : slot) (start end_ : Z) : outcome res_state :=
  match fuel with
  | O => Stuck
  | S fuel' =>
      let! res := get_slot (rs_mem st) p in
      if res =? 0 then Ret st
      else
        let! r := rd (rs_mem st) res in
        if (r_start r <=? start) && (end_ <=? r_end r) then
          if Z.land (r_flags r) IORESOURCE_BUSY =? 0 then release_region_loop fuel' st (child_of res) start end_
          else if negb (r_start r =? start) || negb (r_end r =? end_) then Ret st
          else
            let! h := set_slot (rs_mem st) p (r_sibling r) in
            free_resource (with_mem st h) res
        else release_region_loop fuel' st (sibling_of res) start end_
  end.

Definition __release_region (st : res_state) (parent start n : Z) : outcome res_state :=
  release_region_loop (fuel_of (rs_mem st)) st (child_of parent) start (u64 (start + n - 1)).
End Regions.
