(* ===== verification/ResourceSpec.v ===== *)
(** * The resource tree: invariant

    The links of the resources represent a forest: a finite map [K] from
    resources to the list of their children.  Children are disjoint, in
    ascending order and inside their parent. *)

From S2P Require Import Prelude Memblock Resource.
From stdpp Require Import base list numbers option gmap sorting.
#[local] Open Scope Z_scope.
#[local] Open Scope kernel_scope.

(** ** Reading fields *)

Implicit Types h : mem.

Definition fld (g : resource -> Z) (h : mem) (x : Z) : Z := from_option g 0 (h !! x).
Abbreviation rstart := (fld r_start).
Abbreviation rend := (fld r_end).
Abbreviation rflags := (fld r_flags).
Abbreviation rdesc := (fld r_desc).
Abbreviation rparent := (fld r_parent).
Abbreviation rsib := (fld r_sibling).
Abbreviation rkid := (fld r_child).

Definition at_ (h : mem) (p : Z) : resource := default zeroed (h !! p).

Lemma fld_at g h p : p ∈ dom h -> g (at_ h p) = fld g h p.
Proof. intros [r E]%elem_of_dom. unfold at_, fld. by rewrite E. Qed.

Lemma rd_dom h p : p ∈ dom h -> rd h p = Ret (at_ h p).
Proof. intros [r E]%elem_of_dom. unfold rd, at_. by rewrite E. Qed.

Lemma upd_dom h p f : p ∈ dom h -> upd h p f = Ret (alter f p h).
Proof.
  intros Hp. unfold upd. rewrite (rd_dom h p Hp). cbn [obind]. f_equal. apply elem_of_dom in Hp as [r E].
  unfold at_. rewrite E. apply map_eq. intros x. destruct (decide (x = p)) as [->|Hne].
  - by rewrite lookup_insert_eq, lookup_alter_eq, E.
  - by rewrite lookup_insert_ne, lookup_alter_ne.
Qed.

Lemma fld_alter g f p h x :
  fld g (alter f p h) x = if decide (x = p) then from_option (fun r => g (f r)) 0 (h !! x) else fld g h x.
Proof.
  unfold fld. case_decide as E; [subst|by rewrite lookup_alter_ne].
  rewrite lookup_alter_eq. by destruct (h !! p).
Qed.

(** A write that leaves the field alone. *)
Lemma fld_alter_other g f p h x : (forall r, g (f r) = g r) -> fld g (alter f p h) x = fld g h x.
Proof. intros H. rewrite fld_alter. case_decide; [subst|done]. unfold fld. destruct (h !! p); cbn; auto. Qed.

(** A write that sets the field. *)
Lemma fld_alter_set g f p h x v : (forall r, g (f r) = v) -> p ∈ dom h ->
  fld g (alter f p h) x = if decide (x = p) then v else fld g h x.
Proof. intros H [r E]%elem_of_dom. rewrite fld_alter. case_decide; [subst|done]. rewrite E. apply H. Qed.

Lemma dom_alter_same f p h : dom (alter f p h) = dom h.
Proof. apply dom_alter_L. Qed.

(** ** What linking keeps *)

Definition data (r : resource) : Z * Z * Z * Z * Z := (r_start r, r_end r, r_name r, r_flags r, r_desc r).
Definition same_data (h h' : mem) : Prop := forall x, data <$> (h' !! x) = data <$> (h !! x).

Lemma same_data_refl h : same_data h h.
Proof. done. Qed.

Lemma same_data_trans h1 h2 h3 : same_data h1 h2 -> same_data h2 h3 -> same_data h1 h3.
Proof. intros A B x. by rewrite B, A. Qed.

Lemma same_data_alter f p h : (forall r, data (f r) = data r) -> same_data h (alter f p h).
Proof.
  intros H x. destruct (decide (x = p)) as [->|Hne]; [|by rewrite lookup_alter_ne].
  rewrite lookup_alter_eq. destruct (h !! p); cbn; [by rewrite H|done].
Qed.

Lemma same_data_dom h h' : same_data h h' -> dom h' = dom h.
Proof.
  intros H. apply set_eq. intros x. rewrite !elem_of_dom. specialize (H x).
  destruct (h !! x), (h' !! x); try done; split; intros [? ?]; done || by eexists.
Qed.

Lemma same_data_fld h h' : same_data h h' ->
  forall x, rstart h' x = rstart h x /\ rend h' x = rend h x /\ rflags h' x = rflags h x /\ rdesc h' x = rdesc h x.
Proof.
  intros H x. specialize (H x). unfold fld. destruct (h !! x), (h' !! x); try done. cbn in *. unfold data in H. by injection H as -> -> _ -> ->.
Qed.

(** ** Lists of siblings *)

Fixpoint lseg (h : mem) (a b : Z) (l : list Z) : Prop :=
  match l with
  | [] => a = b
  | x :: l' => a = x /\ x ∈ dom h /\ lseg h (rsib h x) b l'
  end.

Lemma lseg_app h l1 l2 : forall a b, lseg h a b (l1 ++ l2) <-> exists c, lseg h a c l1 /\ lseg h c b l2.
Proof.
  induction l1 as [|x l1 IH]; intros a b; cbn; [split; [by exists a|by intros (c & -> & ?)]|].
  rewrite IH. split; [intros (-> & ? & c & ? & ?)|intros (c & (-> & ? & ?) & ?)]; eauto 6.
Qed.

Lemma lseg_dom h l : forall a b x, lseg h a b l -> x ∈ l -> x ∈ dom h.
Proof.
  induction l as [|y l IH]; cbn; intros a b x Hl Hx; [by apply not_elem_of_nil in Hx|].
  destruct Hl as (_ & ? & Hl). apply elem_of_cons in Hx as [->|Hx]; [done|by apply (IH _ _ x Hl)].
Qed.

Lemma lseg_frame h h' l : forall a b,
  lseg h a b l -> dom h' = dom h -> (forall x, x ∈ l -> rsib h' x = rsib h x) -> lseg h' a b l.
Proof.
  induction l as [|y l IH]; cbn; intros a b Hl Hd Hs; [done|]. destruct Hl as (-> & ? & Hl).
  split_and!; [done|by rewrite Hd|]. rewrite Hs by left. apply IH; [done..|]. intros x Hx. apply Hs. by right.
Qed.

(** The place of an element in a list without repetitions. *)
Lemma nodup_split (x : Z) (l1 l2 : list Z) : forall la lb, NoDup (l1 ++ x :: l2) -> l1 ++ x :: l2 = la ++ x :: lb -> la = l1 /\ lb = l2.
Proof.
  induction l1 as [|y l1 IH]; intros [|z la] lb Hn E; cbn in E, Hn; apply list.NoDup_cons in Hn as [Hy Hn].
  - by injection E as ->.
  - exfalso. injection E as _ E. apply Hy. rewrite E, elem_of_app. right. left.
  - exfalso. injection E as -> E. apply Hy. rewrite elem_of_app. right. left.
  - injection E as -> E. destruct (IH la lb Hn E) as [-> ->]. done.
Qed.

(** ** The invariant *)

Abbreviation shape := (gmap Z (list Z)).

Definition before (h : mem) (a b : Z) : Prop := rend h a < rstart h b.
Definition overlaps (h : mem) (a b : Z) : Prop := rstart h a <= rend h b /\ rstart h b <= rend h a.
Definition inside (h : mem) (a b : Z) : Prop := rstart h b <= rstart h a /\ rend h a <= rend h b.

Record forest (h : mem) (K : shape) : Prop := {
  fo_null : 0 ∉ dom h;
  fo_dom : forall p, p ∈ dom K -> p ∈ dom h;
  fo_list : forall p l, K !! p = Some l -> lseg h (rkid h p) 0 l;
  fo_parent : forall p l c, K !! p = Some l -> c ∈ l -> rparent h c = p /\ c ∈ dom K;
  fo_inside : forall p l c, K !! p = Some l -> c ∈ l -> inside h c p;
  fo_sorted : forall p l, K !! p = Some l -> StronglySorted (before h) l;
  fo_range : forall p, p ∈ dom K -> 0 <= rstart h p <= rend h p /\ rend h p < U64_MOD;
  fo_up : forall c, c ∈ dom K -> rparent h c <> 0 -> exists l, K !! rparent h c = Some l /\ c ∈ l;
  fo_depth : exists d : Z -> nat, forall p l c, K !! p = Some l -> c ∈ l -> (d c < d p)%nat
}.

(** A resource outside the forest that nothing hangs from. *)
Record loose (h : mem) (K : shape) (new : Z) : Prop := {
  lo_dom : new ∈ dom h;
  lo_out : K !! new = None;
  lo_kid : rkid h new = 0;
  lo_range : 0 <= rstart h new < U64_MOD /\ 0 <= rend h new < U64_MOD
}.

Section Facts.
Context (h : mem) (K : shape) (F : forest h K).

Lemma in_dom p l : K !! p = Some l -> p ∈ dom h.
Proof. intros E. apply (fo_dom _ _ F), elem_of_dom. by rewrite E. Qed.

Lemma not_null p : p ∈ dom h -> p <> 0.
Proof. intros Hp ->. by apply (fo_null _ _ F). Qed.

Lemma kid_dom p l c : K !! p = Some l -> c ∈ l -> c ∈ dom h.
Proof. intros Hp Hc. by apply (fo_dom _ _ F), (fo_parent _ _ F p l c). Qed.

Lemma before_irrefl x : x ∈ dom K -> ~ before h x x.
Proof. intros Hx. destruct (fo_range _ _ F x Hx). unfold before. lia. Qed.

Lemma kids_nodup p l : K !! p = Some l -> NoDup l.
Proof.
  intros Hp. assert (Hd : forall c, c ∈ l -> c ∈ dom K) by (intros c Hc; by apply (fo_parent _ _ F p l)).
  pose proof (fo_sorted _ _ F p l Hp) as Hs. clear Hp. induction Hs as [|x l Hs IH Hx]; [constructor|].
  constructor; [|apply IH; intros; apply Hd; by right]. intros Hin. rewrite Forall_forall in Hx.
  apply (before_irrefl x); [apply Hd; left|by apply Hx].
Qed.

Lemma kid_not_self p l : K !! p = Some l -> p ∉ l.
Proof. intros Hp Hin. destruct (fo_depth _ _ F) as [d Hd]. specialize (Hd p l p Hp Hin). lia. Qed.

(** A list of children, and any list of resources, is no longer than memory. *)
Lemma nodup_fuel (l : list Z) : NoDup l -> (forall x, x ∈ l -> x ∈ dom h) -> (length l <= size h)%nat.
Proof.
  intros Hn Hd. rewrite <- size_dom, <- (size_list_to_set (C := gset Z) l Hn). apply subseteq_size. intros x Hx. apply Hd. by apply elem_of_list_to_set in Hx.
Qed.

Lemma kids_fuel p l : K !! p = Some l -> (length l <= size h)%nat.
Proof. intros Hp. apply nodup_fuel; [by apply (kids_nodup p)|]. intros x. by apply (kid_dom p). Qed.

Lemma kid_unique p p' l l' c : K !! p = Some l -> K !! p' = Some l' -> c ∈ l -> c ∈ l' -> p = p'.
Proof. intros Hp Hp' H1 H2. destruct (fo_parent _ _ F p l c Hp H1) as [<- _]. by destruct (fo_parent _ _ F p' l' c Hp' H2) as [<- _]. Qed.
End Facts.

(** * The resource tree: requesting and releasing *)



(** ** Slots *)

(** The slot behind the children [l1] of [root]. *)
Definition slot_of (root : Z) (l1 : list Z) : slot :=
  match last l1 with None => child_of root | Some x => sibling_of x end.

Definition write_slot (h : mem) (s : slot) (v : Z) : mem :=
  match s with child_of p => alter (set_child v) p h | sibling_of p => alter (set_sibling v) p h end.

Lemma slot_of_snoc root l1 x : slot_of root (l1 ++ [x]) = sibling_of x.
Proof. unfold slot_of. by rewrite last_snoc. Qed.

Lemma slot_sibling_in root l1 x : slot_of root l1 = sibling_of x -> x ∈ l1.
Proof.
  destruct l1 as [|y l0 _] using rev_ind; [done|]. rewrite slot_of_snoc. intros [= ->]. rewrite elem_of_app. right. left.
Qed.

Lemma slot_child_root root l1 x : slot_of root l1 = child_of x -> x = root.
Proof. destruct l1 as [|y l0 _] using rev_ind; [by intros [= ->]|by rewrite slot_of_snoc]. Qed.

Lemma lseg_head h a b l : lseg h a b l -> a = hd b l.
Proof. destruct l; cbn; [done|]. by intros [-> _]. Qed.

Lemma lseg_snoc h a b l x : lseg h a b (l ++ [x]) -> rsib h x = b.
Proof. rewrite lseg_app. intros (c & _ & Hl). cbn in Hl. by destruct Hl as (-> & _ & ?). Qed.

Lemma slot_dom h K root l1 l2 :
  forest h K -> K !! root = Some (l1 ++ l2) ->
  match slot_of root l1 with child_of p => p ∈ dom h | sibling_of p => p ∈ dom h end.
Proof.
  intros F Hk. destruct l1 as [|x l1 _] using rev_ind; [by apply (in_dom h K F root (([] : list Z) ++ l2))|].
  rewrite slot_of_snoc. apply (kid_dom h K F root ((l1 ++ [x]) ++ l2) x Hk). rewrite !elem_of_app. left; right. apply list_elem_of_here.
Qed.

Lemma get_slot_spec h K root l1 l2 :
  forest h K -> K !! root = Some (l1 ++ l2) -> get_slot h (slot_of root l1) = Ret (hd 0 l2).
Proof.
  intros F Hk. pose proof (slot_dom h K root l1 l2 F Hk) as Hd. pose proof (fo_list _ _ F root _ Hk) as Hl.
  apply lseg_app in Hl as (c & H1 & H2). apply lseg_head in H2 as <-.
  destruct l1 as [|x l1 _] using rev_ind.
  - cbn in *. rewrite (rd_dom h root Hd). cbn [obind]. rewrite fld_at by done. by rewrite H1.
  - rewrite slot_of_snoc in *. cbn [get_slot]. rewrite (rd_dom h x Hd). cbn [obind]. rewrite fld_at by done. by rewrite (lseg_snoc _ _ _ _ _ H1).
Qed.

Lemma set_slot_spec h K root l1 l2 v :
  forest h K -> K !! root = Some (l1 ++ l2) -> set_slot h (slot_of root l1) v = Ret (write_slot h (slot_of root l1) v).
Proof.
  intros F Hk. pose proof (slot_dom h K root l1 l2 F Hk) as Hd. destruct (slot_of root l1); by apply upd_dom.
Qed.

(** Writing the slot, as seen by each field. *)
Lemma slot_sib h s v x : rsib (write_slot h s v) x =
  match s with sibling_of p => if decide (x = p /\ p ∈ dom h) then v else rsib h x | child_of _ => rsib h x end.
Proof.
  destruct s as [p|p]; cbn; [by apply fld_alter_other|]. destruct (decide (p ∈ dom h)) as [Hp|Hp].
  - rewrite (fld_alter_set _ _ _ _ _ v) by done. do 2 case_decide; tauto.
  - rewrite decide_False by tauto. rewrite fld_alter. case_decide; [subst|done]. unfold fld. by rewrite (not_elem_of_dom_1 h p Hp).
Qed.

Lemma slot_kid h s v x : rkid (write_slot h s v) x =
  match s with child_of p => if decide (x = p /\ p ∈ dom h) then v else rkid h x | sibling_of _ => rkid h x end.
Proof.
  destruct s as [p|p]; cbn; [|by apply fld_alter_other]. destruct (decide (p ∈ dom h)) as [Hp|Hp].
  - rewrite (fld_alter_set _ _ _ _ _ v) by done. do 2 case_decide; tauto.
  - rewrite decide_False by tauto. rewrite fld_alter. case_decide; [subst|done]. unfold fld. by rewrite (not_elem_of_dom_1 h p Hp).
Qed.

Lemma slot_parent h s v x : rparent (write_slot h s v) x = rparent h x.
Proof. destruct s; by apply fld_alter_other. Qed.

Lemma slot_data h s v : same_data h (write_slot h s v).
Proof. destruct s; by apply same_data_alter. Qed.

#[export] Instance slot_eq_dec : EqDecision slot.
Proof. solve_decision. Defined.

(** The lists after the part [m] of the children of [root] has been replaced
    by [m'], a segment that starts at [v]; the links between siblings of [X]
    are free. *)
Section Splice.
Context (h h' : mem) (K : shape) (root v : Z) (l1 m l2 m' : list Z) (X : Z -> Prop).
Hypothesis F : forest h K.
Hypothesis Hk : K !! root = Some (l1 ++ m ++ l2).
Hypothesis Hdom : dom h' = dom h.
Hypothesis Hsib : forall x, ~ X x -> rsib h' x = if decide (slot_of root l1 = sibling_of x) then v else rsib h x.
Hypothesis Hkid : forall x, x ∈ dom K -> rkid h' x = if decide (slot_of root l1 = child_of x) then v else rkid h x.
Hypothesis Hm : lseg h' v (hd 0 l2) m'.
Hypothesis HX : forall x, x ∈ l1 ++ l2 -> ~ X x.

Lemma splice_here : lseg h' (rkid h' root) 0 (l1 ++ m' ++ l2).
Proof.
  pose proof (fo_list _ _ F root _ Hk) as Hl. pose proof (kids_nodup h K F root _ Hk) as Hn.
  assert (Hroot : root ∈ dom K) by (apply elem_of_dom; by rewrite Hk).
  apply lseg_app in Hl as (c & Hl1 & Hl). apply lseg_app in Hl as (c2 & _ & Hl2).
  apply NoDup_app in Hn as (Hn1 & Hn12 & Hn2).
  apply lseg_app. exists v. split; [|apply lseg_app; exists (hd 0 l2); split; [done|]].
  - destruct l1 as [|x l0 _] using rev_ind.
    + cbn. rewrite Hkid by done. by rewrite decide_True.
    + rewrite slot_of_snoc in *. rewrite Hkid, decide_False by done. apply lseg_app in Hl1 as (d & Hl0 & Hx).
      cbn in Hx. destruct Hx as (-> & Hxd & _). apply NoDup_app in Hn1 as (_ & Hn0 & _).
      apply lseg_app. exists x. split.
      * apply (lseg_frame h); [done..|]. intros y Hy. rewrite Hsib, decide_False; [done| |apply HX; rewrite !elem_of_app; tauto].
        intros [= ->]. by apply (Hn0 y Hy), list_elem_of_here.
      * cbn. split_and!; [done|by rewrite Hdom|]. rewrite Hsib; [by rewrite decide_True|]. apply HX. rewrite !elem_of_app. left; right; left.
  - pose proof (lseg_head _ _ _ _ Hl2) as <-. apply (lseg_frame h); [done..|]. intros y Hy.
    rewrite Hsib by (apply HX; rewrite elem_of_app; tauto). rewrite decide_False; [done|].
    intros Hin%slot_sibling_in. apply (Hn12 y); [done|rewrite elem_of_app; tauto].
Qed.

Lemma splice_there p l : K !! p = Some l -> p <> root -> (forall x, x ∈ l -> ~ X x) -> lseg h' (rkid h' p) 0 l.
Proof.
  intros Hp Hne HXl. rewrite Hkid by (apply elem_of_dom; by rewrite Hp). rewrite decide_False.
  2:{ by intros ?%slot_child_root. }
  apply (lseg_frame h); [by apply (fo_list _ _ F)|done|]. intros y Hy. rewrite Hsib by auto. rewrite decide_False; [done|].
  intros Hin%slot_sibling_in. apply Hne, (kid_unique h K F p root l _ y Hp Hk Hy). rewrite elem_of_app. by left.
Qed.
End Splice.

(** ** What the order says under the same data *)

Section SameData.
Context (h h' : mem) (Hs : same_data h h').

Lemma before_data a b : before h' a b <-> before h a b.
Proof. unfold before. destruct (same_data_fld h h' Hs a) as (_ & -> & _), (same_data_fld h h' Hs b) as (-> & _). done. Qed.

Lemma inside_data a b : inside h' a b <-> inside h a b.
Proof. unfold inside. destruct (same_data_fld h h' Hs a) as (-> & -> & _), (same_data_fld h h' Hs b) as (-> & -> & _). done. Qed.

Lemma sorted_data (l : list Z) : StronglySorted (before h) l -> StronglySorted (before h') l.
Proof.
  induction 1 as [|x l Hl IH Hx]; constructor; [done|]. apply (Forall_impl _ _ _ Hx). intros y. by apply before_data.
Qed.

Lemma range_data x : 0 <= rstart h x <= rend h x /\ rend h x < U64_MOD -> 0 <= rstart h' x <= rend h' x /\ rend h' x < U64_MOD.
Proof. destruct (same_data_fld h h' Hs x) as (-> & -> & _). done. Qed.
End SameData.

Lemma sorted_insert h new (l1 l2 : list Z) :
  StronglySorted (before h) (l1 ++ l2) -> (forall x, x ∈ l1 -> before h x new) -> (forall x, x ∈ l2 -> before h new x) ->
  StronglySorted (before h) (l1 ++ new :: l2).
Proof.
  rewrite !StronglySorted_app. intros (H12 & H1 & H2) Hb Ha. split_and!; [|done|constructor; [done|by apply Forall_forall]].
  intros x y Hx Hy. apply elem_of_cons in Hy as [->|Hy]; [by apply Hb|by apply H12].
Qed.

(** ** Linking a new child *)

Definition linked (h h' : mem) (root new : Z) (s : slot) (tmp : Z) : Prop :=
  same_data h h'
  /\ (forall x, rsib h' x = if decide (x = new) then tmp else if decide (s = sibling_of x) then new else rsib h x)
  /\ (forall x, rkid h' x = if decide (s = child_of x) then new else rkid h x)
  /\ (forall x, rparent h' x = if decide (x = new) then root else rparent h x)
  /\ (forall x, x <> new -> s <> sibling_of x -> s <> child_of x -> h' !! x = h !! x).

Lemma write_slot_other h s v x : s <> sibling_of x -> s <> child_of x -> write_slot h s v !! x = h !! x.
Proof. destruct s; intros ? ?; cbn; apply lookup_alter_ne; congruence. Qed.

Lemma link_run h K root new l1 l2 tmp :
  forest h K -> K !! root = Some (l1 ++ l2) -> loose h K new ->
  exists h', link h root new (slot_of root l1) tmp = Ret (h', 0) /\ linked h h' root new (slot_of root l1) tmp.
Proof.
  intros F Hk L. pose proof (lo_dom _ _ _ L) as Hd. pose proof (slot_dom h K root l1 l2 F Hk) as Hsd.
  assert (Hns : slot_of root l1 <> sibling_of new).
  { intros Hin%slot_sibling_in. destruct (fo_parent _ _ F root _ new Hk) as [_ [? E]%elem_of_dom]; [rewrite elem_of_app; by left|].
    by rewrite (lo_out _ _ _ L) in E. }
  unfold link. rewrite (upd_dom h new _ Hd). cbn [obind]. set (h1 := alter (set_sibling tmp) new h).
  assert (Hd1 : dom h1 = dom h) by apply dom_alter_same.
  assert (Hset : set_slot h1 (slot_of root l1) new = Ret (write_slot h1 (slot_of root l1) new)).
  { destruct (slot_of root l1); apply upd_dom; by rewrite Hd1. }
  rewrite Hset. cbn [obind]. set (h2 := write_slot h1 _ new).
  assert (Hd2 : dom h2 = dom h) by (rewrite (same_data_dom h1 h2 (slot_data _ _ _)); done).
  rewrite (upd_dom h2 new) by (by rewrite Hd2). cbn [obind]. eexists. split; [done|]. split_and!.
  - apply (same_data_trans h h1); [by apply same_data_alter|]. apply (same_data_trans h1 h2); [apply slot_data|by apply same_data_alter].
  - intros x. rewrite fld_alter_other by done. unfold h2. rewrite slot_sib. unfold h1. rewrite (fld_alter_set _ _ _ _ _ tmp) by done. fold h1. rewrite Hd1.
    destruct (slot_of root l1) as [p|p] eqn:E; [by rewrite (decide_False (P := child_of p = sibling_of x))|].
    destruct (decide (x = new)) as [->|]; [rewrite decide_False; [done|]; intros [<- _]; done|].
    destruct (decide (x = p)) as [->|]; [by rewrite !decide_True|]. rewrite !decide_False by (congruence || (intros [? _]; congruence)). done.
  - intros x. rewrite fld_alter_other by done. unfold h2. rewrite slot_kid. unfold h1. rewrite fld_alter_other by done. fold h1. rewrite Hd1.
    destruct (slot_of root l1) as [p|p] eqn:E; [|by rewrite decide_False].
    destruct (decide (x = p)) as [->|]; [by rewrite !decide_True|]. rewrite !decide_False by (congruence || (intros [? _]; congruence)). done.
  - intros x. rewrite (fld_alter_set _ _ _ _ _ root) by (done || by rewrite Hd2). case_decide; [done|].
    unfold h2. rewrite slot_parent. unfold h1. by rewrite fld_alter_other.
  - intros x Hx H1 H2. rewrite lookup_alter_ne by done. unfold h2. rewrite write_slot_other by done. by apply lookup_alter_ne.
Qed.

Definition add_child (K : shape) (root new : Z) (l1 l2 : list Z) : shape := <[new := []]> (<[root := l1 ++ new :: l2]> K).

Lemma linked_forest h h' K root new l1 l2 :
  forest h K -> K !! root = Some (l1 ++ l2) -> loose h K new -> linked h h' root new (slot_of root l1) (hd 0 l2) ->
  rstart h new <= rend h new -> inside h new root ->
  (forall x, x ∈ l1 -> before h x new) -> (forall x, x ∈ l2 -> before h new x) ->
  forest h' (add_child K root new l1 l2).
Proof.
  intros F Hk L (Hs & Hsib & Hkid & Hpar & _) Hrg Hin Hb Ha. pose proof (lo_out _ _ _ L) as Hout.
  pose proof (same_data_dom h h' Hs) as Hdom.
  assert (Hne : root <> new) by congruence.
  assert (Hnew : forall p l, K !! p = Some l -> new ∉ l).
  { intros p l Hp Hin'. destruct (fo_parent _ _ F p l new Hp Hin') as [_ [? E]%elem_of_dom]. congruence. }
  assert (HKd : forall x, x ∈ dom (add_child K root new l1 l2) <-> x = new \/ x ∈ dom K).
  { intros x. unfold add_child. rewrite !dom_insert_L, !elem_of_union, !elem_of_singleton. split; [|tauto].
    intros [?|[->|?]]; [by left|right; apply elem_of_dom; by rewrite Hk|by right]. }
  assert (HK : forall p l, add_child K root new l1 l2 !! p = Some l ->
    p = new /\ l = [] \/ p = root /\ l = l1 ++ new :: l2 \/ p <> new /\ p <> root /\ K !! p = Some l).
  { intros p l. unfold add_child. rewrite !lookup_insert. repeat case_decide; subst; intros E; try (injection E as <-); auto. }
  assert (Hold : forall p l c, add_child K root new l1 l2 !! p = Some l -> c ∈ l ->
    c = new /\ p = root \/ c <> new /\ exists l0, K !! p = Some l0 /\ c ∈ l0).
  { intros p l c Hp Hc. destruct (HK p l Hp) as [[_ ->]|[[-> ->]|(_ & _ & Hp')]]; [by apply not_elem_of_nil in Hc| |].
    - rewrite elem_of_app, elem_of_cons in Hc. destruct (decide (c = new)) as [->|]; [by left|right]. split; [done|].
      exists (l1 ++ l2). split; [done|]. rewrite elem_of_app. tauto.
    - right. split; [intros ->; by apply (Hnew p l)|by exists l]. }
  destruct (lo_range _ _ _ L) as [? ?].
  split.
  - rewrite Hdom. apply F.
  - intros p. rewrite Hdom, HKd. intros [->|Hp]; [apply L|by apply (fo_dom _ _ F)].
  - intros p l Hp. destruct (HK p l Hp) as [[-> ->]|[[-> ->]|(Hpn & Hpr & Hp')]].
    + cbn. rewrite Hkid, decide_False; [apply L|]. intros E. by apply Hne, eq_sym, (slot_child_root root l1).
    + apply (splice_here h h' K root new l1 [] l2 [new] (eq new)); try done.
      * intros x Hx. rewrite Hsib, decide_False by congruence. done.
      * cbn. split_and!; [done|rewrite Hdom; apply L|]. by rewrite Hsib, decide_True.
      * intros x Hx <-. by apply (Hnew root (l1 ++ l2)).
    + apply (splice_there h h' K root new l1 [] l2 (eq new)); try done.
      * intros x Hx. rewrite Hsib, decide_False by congruence. done.
      * intros x Hx <-. by apply (Hnew p l).
  - intros p l c Hp Hc. rewrite Hpar, HKd. destruct (Hold p l c Hp Hc) as [[-> ->]|(Hcn & l0 & Hp0 & Hc0)].
    + rewrite decide_True by done. auto.
    + rewrite decide_False by done. destruct (fo_parent _ _ F p l0 c Hp0 Hc0). auto.
  - intros p l c Hp Hc. apply (inside_data h h' Hs). destruct (Hold p l c Hp Hc) as [[-> ->]|(_ & l0 & Hp0 & Hc0)]; [done|by apply (fo_inside _ _ F p l0)].
  - intros p l Hp. apply (sorted_data h h' Hs). destruct (HK p l Hp) as [[-> ->]|[[-> ->]|(_ & _ & Hp')]];
      [constructor|apply sorted_insert; [by apply (fo_sorted _ _ F root)|done..]|by apply (fo_sorted _ _ F p)].
  - intros p Hp. apply (range_data h h' Hs). apply HKd in Hp as [->|Hp]; [lia|by apply (fo_range _ _ F)].
  - intros c Hc. rewrite Hpar. apply HKd in Hc as [->|Hc].
    + rewrite decide_True by done. intros _. exists (l1 ++ new :: l2). unfold add_child. rewrite lookup_insert_ne, lookup_insert_eq by done.
      split; [done|]. rewrite elem_of_app. right. left.
    + rewrite decide_False by (intros ->; apply elem_of_dom in Hc as [? ?]; congruence). intros Hp.
      destruct (fo_up _ _ F c Hc Hp) as (l & Hl & Hcl). unfold add_child.
      rewrite lookup_insert_ne by congruence. destruct (decide (rparent h c = root)) as [E|E].
      * rewrite E, lookup_insert_eq. eexists. split; [done|]. rewrite E, Hk in Hl. injection Hl as <-.
        rewrite elem_of_app in *. rewrite elem_of_cons. tauto.
      * rewrite lookup_insert_ne by done. by exists l.
  - destruct (fo_depth _ _ F) as [d Hd]. exists (fun x => if decide (x = new) then 0%nat else S (d x)).
    intros p l c Hp Hc. destruct (Hold p l c Hp Hc) as [[-> ->]|(Hcn & l0 & Hp0 & Hc0)].
    + rewrite decide_True, decide_False by done. lia.
    + rewrite !decide_False by congruence. specialize (Hd p l0 c Hp0 Hc0). lia.
Qed.

(** ** __request_resource *)

Lemma linked_out h h' K root new l1 l2 x :
  forest h K -> K !! root = Some (l1 ++ l2) -> linked h h' root new (slot_of root l1) (hd 0 l2) ->
  x ∉ dom K -> x <> new -> h' !! x = h !! x.
Proof.
  intros F Hk (_ & _ & _ & _ & Ho) Hx Hne. apply Ho; [done|intros Hin%slot_sibling_in|intros ->%slot_child_root].
  - apply Hx, (fo_parent _ _ F root _ x Hk). rewrite elem_of_app. by left.
  - apply Hx, elem_of_dom. by rewrite Hk.
Qed.

(** What a request leaves: the new child in its place, or a reason. *)
Definition placed (h h' : mem) (K : shape) (root new : Z) (l1 l2 : list Z) : Prop :=
  same_data h h' /\ forest h' (add_child K root new l1 l2)
  /\ (forall x, rparent h' x = if decide (x = new) then root else rparent h x)
  /\ (forall x, x ∉ dom K -> x <> new -> h' !! x = h !! x).

Lemma sorted_head_before h new x (l : list Z) :
  StronglySorted (before h) (x :: l) -> before h new x -> rstart h x <= rend h x -> forall y, y ∈ x :: l -> before h new y.
Proof.
  intros Hs Hx Hr y Hy. apply elem_of_cons in Hy as [->|Hy]; [done|]. apply StronglySorted_inv in Hs as [_ Hf].
  rewrite Forall_forall in Hf. specialize (Hf y Hy). unfold before in *. lia.
Qed.

Section Request.
Context (h : mem) (K : shape) (root new : Z) (l : list Z).
Hypothesis F : forest h K.
Hypothesis Hk : K !! root = Some l.
Hypothesis L : loose h K new.
Hypothesis Hrange : rstart h new <= rend h new.
Hypothesis Hinside : inside h new root.

Lemma link_placed l1 l2 :
  l = l1 ++ l2 -> (forall x, x ∈ l1 -> before h x new) -> (forall x, x ∈ l2 -> before h new x) ->
  exists h', link h root new (slot_of root l1) (hd 0 l2) = Ret (h', 0) /\ placed h h' K root new l1 l2.
Proof using F Hk L Hrange Hinside.
  intros -> Hb Ha. destruct (link_run h K root new l1 l2 (hd 0 l2) F Hk L) as (h' & E & Hl). exists h'. split; [done|].
  split; [apply Hl|]. split; [by apply (linked_forest h)|]. split; [apply Hl|].
  intros x Hx Hne. by apply (linked_out h h' K root new l1 l2 x).
Qed.

Lemma request_loop_spec l2 : forall l1 fuel,
  l = l1 ++ l2 -> (length l2 < fuel)%nat -> (forall x, x ∈ l1 -> before h x new) ->
  (exists h' l3 l4, request_loop fuel h root new (slot_of root l1) (rstart h new) (rend h new) = Ret (h', 0)
     /\ l = l3 ++ l4 /\ (forall x, x ∈ l3 -> before h x new) /\ (forall x, x ∈ l4 -> before h new x) /\ placed h h' K root new l3 l4)
  \/ (exists c l3 l4, request_loop fuel h root new (slot_of root l1) (rstart h new) (rend h new) = Ret (h, c)
     /\ l = l3 ++ c :: l4 /\ (forall x, x ∈ l3 -> before h x new) /\ overlaps h c new).
Proof using F Hk L Hrange Hinside.
  induction l2 as [|t l2 IH]; intros l1 fuel El Hf Hb; (destruct fuel as [|fuel]; [cbn in Hf; lia|]); cbn [request_loop];
    rewrite (get_slot_spec h K root l1 _ F (eq_trans Hk (f_equal Some El))); cbn [obind hd].
  - left. rewrite Z.eqb_refl. destruct (link_placed l1 [] El Hb) as (h' & E & Hp); [by intros x ?%not_elem_of_nil|].
    exists h', l1, []. split_and!; try done. by intros x ?%not_elem_of_nil.
  - assert (Ht : t ∈ l) by (rewrite El, elem_of_app; right; left). pose proof (kid_dom h K F root l t Hk Ht) as Htd.
    destruct (Z.eqb_spec t 0) as [->|_]; [by destruct (fo_null _ _ F)|].
    rewrite (rd_dom h t Htd). cbn [obind]. rewrite !fld_at by done.
    pose proof (fo_sorted _ _ F root l Hk) as Hs. rewrite El, StronglySorted_app in Hs. destruct Hs as (_ & _ & Hs).
    destruct (fo_range _ _ F t) as [Htr _]; [by apply (fo_parent _ _ F root l)|].
    destruct (Z.ltb_spec (rend h new) (rstart h t)) as [Hlt|Hge].
    + left. destruct (link_placed l1 (t :: l2) El Hb) as (h' & E & Hp); [apply sorted_head_before; [done|done|lia]|].
      exists h', l1, (t :: l2). split_and!; try done. apply sorted_head_before; [done|done|lia].
    + destruct (Z.ltb_spec (rend h t) (rstart h new)) as [Hlt'|Hge'].
      * rewrite <- (slot_of_snoc root l1 t). apply IH; [rewrite El; by rewrite <- app_assoc|cbn in Hf; lia|].
        intros x. rewrite elem_of_app, list_elem_of_singleton. intros [Hx| ->]; [by apply Hb|done].
      * right. exists t, l1, l2. split_and!; try done; unfold overlaps; lia.
Qed.
End Request.

Lemma request_spec h K root new l :
  forest h K -> K !! root = Some l -> loose h K new ->
  (exists h' l1 l2, __request_resource h root new = Ret (h', 0) /\ rstart h new <= rend h new /\ inside h new root
     /\ l = l1 ++ l2 /\ (forall x, x ∈ l1 -> before h x new) /\ (forall x, x ∈ l2 -> before h new x) /\ placed h h' K root new l1 l2)
  \/ (__request_resource h root new = Ret (h, root) /\ ~ (rstart h new <= rend h new /\ inside h new root))
  \/ (exists c l1 l2, __request_resource h root new = Ret (h, c) /\ rstart h new <= rend h new /\ inside h new root
     /\ l = l1 ++ c :: l2 /\ (forall x, x ∈ l1 -> before h x new) /\ overlaps h c new).
Proof.
  intros F Hk L. pose proof (lo_dom _ _ _ L) as Hd. pose proof (in_dom h K F root l Hk) as Hrd.
  unfold __request_resource. rewrite (rd_dom h new Hd), (rd_dom h root Hrd). cbn [obind]. rewrite !fld_at by done.
  destruct (Z.ltb_spec (rend h new) (rstart h new)); [right; left; split; [done|lia]|].
  destruct (Z.ltb_spec (rstart h new) (rstart h root)); [right; left; split; [done|unfold inside; lia]|].
  destruct (Z.ltb_spec (rend h root) (rend h new)); [right; left; split; [done|unfold inside; lia]|].
  destruct (request_loop_spec h K root new l F Hk L ltac:(lia) ltac:(split; lia) l [] (fuel_of h) eq_refl) as [(h' & l3 & l4 & ? & ?)|(c & l3 & l4 & ? & ?)].
  - unfold fuel_of. pose proof (kids_fuel h K F root l Hk). lia.
  - by intros x ?%not_elem_of_nil.
  - left. exists h', l3, l4. unfold inside. split; [done|]. split; [lia|]. split; [lia|]. tauto.
  - right; right. exists c, l3, l4. unfold inside. split; [done|]. split; [lia|]. split; [lia|]. tauto.
Qed.

(** ** The forest does not depend on what is outside *)

Lemma lseg_frame_sub h h' l : forall a b, lseg h a b l -> (forall x, x ∈ l -> h' !! x = h !! x) -> lseg h' a b l.
Proof.
  induction l as [|y l IH]; cbn; intros a b Hl Hs; [done|]. destruct Hl as (-> & Hy & Hl).
  pose proof (Hs y ltac:(left)) as E. split_and!; [done|apply elem_of_dom; rewrite E; by apply elem_of_dom|].
  unfold fld. rewrite E. apply IH; [done|]. intros x Hx. apply Hs. by right.
Qed.

Lemma forest_frame h h' K :
  forest h K -> 0 ∉ dom h' -> (forall x, x ∈ dom K -> h' !! x = h !! x) -> forest h' K.
Proof.
  intros F H0 Hx. assert (Hf : forall g x, x ∈ dom K -> fld g h' x = fld g h x) by (intros; unfold fld; by rewrite Hx).
  assert (HK : forall p l, K !! p = Some l -> p ∈ dom K) by (intros p l E; apply elem_of_dom; by rewrite E).
  assert (HKl : forall p l c, K !! p = Some l -> c ∈ l -> c ∈ dom K) by (intros p l c Hp Hc; by apply (fo_parent _ _ F p l)).
  split.
  - done.
  - intros p Hp. pose proof (fo_dom _ _ F p Hp) as Hd. apply elem_of_dom. rewrite Hx by done. by apply elem_of_dom.
  - intros p l Hp. rewrite Hf by eauto. apply (lseg_frame_sub h); [by apply (fo_list _ _ F)|]. eauto.
  - intros p l c Hp Hc. rewrite Hf by eauto. by apply (fo_parent _ _ F p l).
  - intros p l c Hp Hc. unfold inside. rewrite !Hf by eauto. by apply (fo_inside _ _ F p l).
  - intros p l Hp. assert (Hl : forall c, c ∈ l -> c ∈ dom K) by eauto. pose proof (fo_sorted _ _ F p l Hp) as Hs. clear Hp.
    induction Hs as [|x l Hs IH Hb]; constructor; [apply IH; intros; apply Hl; by right|]. rewrite Forall_forall in *.
    intros y Hy. unfold before. rewrite !Hf by (apply Hl; by constructor). by apply Hb.
  - intros p Hp. rewrite !Hf by done. by apply (fo_range _ _ F).
  - intros c Hc. rewrite Hf by done. by apply (fo_up _ _ F).
  - apply F.
Qed.
