(* ===== verification/ResourceRelease.v ===== *)
(** * The resource tree: releasing and removing *)

From S2P Require Import Prelude Memblock Resource ResourceSpec.
From stdpp Require Import base list numbers option gmap sorting.
#[local] Open Scope Z_scope.
#[local] Open Scope kernel_scope.

Implicit Types h : mem.

(** ** Giving a list of resources another parent *)

Definition reparented (h h' : mem) (ks : list Z) (q : Z) : Prop :=
  same_data h h'
  /\ (forall x, rsib h' x = rsib h x) /\ (forall x, rkid h' x = rkid h x)
  /\ (forall x, rparent h' x = if decide (x ∈ ks) then q else rparent h x).

Lemma reparented_nil h q : reparented h h [] q.
Proof. by split_and!. Qed.

Lemma reparented_cons h h' x ks q :
  x ∈ dom h -> reparented (alter (set_parent q) x h) h' ks q -> reparented h h' (x :: ks) q.
Proof.
  intros Hx (Hs & Hsib & Hkid & Hpar). split_and!.
  - apply (same_data_trans h (alter (set_parent q) x h)); [by apply same_data_alter|done].
  - intros y. rewrite Hsib. by apply fld_alter_other.
  - intros y. rewrite Hkid. by apply fld_alter_other.
  - intros y. rewrite Hpar, (fld_alter_set _ _ _ _ _ q) by done.
    destruct (decide (y ∈ ks)), (decide (y = x)); [by rewrite decide_True by (by right)..|by rewrite decide_True by (subst; left)|].
    rewrite decide_False; [done|]. by apply not_elem_of_cons.
Qed.

Lemma adopt_loop_spec tmp q ks : forall h a fuel,
  ks <> [] -> lseg h a 0 ks -> 0 ∉ dom h -> tmp ∈ dom h -> tmp ∉ ks -> rparent h tmp = q -> (length ks < fuel)%nat ->
  exists h', adopt_loop fuel h tmp a = Ret (h', default 0 (last ks)) /\ reparented h h' ks q.
Proof.
  induction ks as [|x ks IH]; intros h a fuel Hne Hl H0 Ht Hnt Hq Hf; [done|]. destruct fuel as [|fuel]; [cbn in Hf; lia|].
  cbn in Hl. destruct Hl as (-> & Hx & Hl). apply not_elem_of_cons in Hnt as [Htx Hnt].
  cbn [adopt_loop]. rewrite (rd_dom h tmp Ht). cbn [obind]. rewrite fld_at, Hq, (upd_dom h x) by done. cbn [obind].
  set (h1 := alter (set_parent q) x h). assert (Hd1 : dom h1 = dom h) by apply dom_alter_same.
  rewrite (rd_dom h1 x) by (by rewrite Hd1). cbn [obind]. rewrite fld_at by (by rewrite Hd1).
  assert (Hsib : forall y, rsib h1 y = rsib h y) by (intros; by apply fld_alter_other). rewrite Hsib.
  destruct ks as [|y ks].
  - cbn in Hl. rewrite Hl. cbn [Z.eqb]. exists h1. split; [done|]. apply reparented_cons; [done|apply reparented_nil].
  - cbn in Hl. destruct Hl as (Ey & Hy & Hl). destruct (Z.eqb_spec (rsib h x) 0) as [E|_]; [congruence|].
    destruct (IH h1 (rsib h x) fuel) as (h' & E & Hr); try done.
    + cbn. rewrite Hsib, Hd1. split_and!; try done. by apply (lseg_frame h).
    + by rewrite Hd1.
    + by rewrite Hd1.
    + unfold h1. rewrite (fld_alter_set _ _ _ _ _ q) by done. by rewrite decide_False.
    + cbn in *. lia.
    + exists h'. split; [done|]. by apply reparented_cons.
Qed.

(** ** What taking a resource out leaves *)

Definition cut (h h' : mem) (q old v : Z) (s : slot) (ks : list Z) : Prop :=
  same_data h h'
  /\ (forall x, x ∉ ks -> rsib h' x = if decide (s = sibling_of x) then v else rsib h x)
  /\ (forall x, rkid h' x = if decide (s = child_of x) then v else rkid h x)
  /\ (forall x, rparent h' x = if decide (x = old) then 0 else if decide (x ∈ ks) then q else rparent h x).

Section Release.
Context (h : mem) (K : shape) (q old : Z) (l1 l2 ks : list Z).
Hypothesis F : forest h K.
Hypothesis Hq : K !! q = Some (l1 ++ old :: l2).
Hypothesis Hks : K !! old = Some ks.

Lemma old_in : old ∈ l1 ++ old :: l2.
Proof. rewrite elem_of_app. right. left. Qed.

Lemma old_sib : rsib h old = hd 0 l2.
Proof.
  pose proof (fo_list _ _ F q _ Hq) as Hl. apply lseg_app in Hl as (c & _ & Hl). cbn in Hl.
  destruct Hl as (_ & _ & Hl). by apply lseg_head in Hl.
Qed.

Lemma old_dom : old ∈ dom h.
Proof. apply (kid_dom h K F q _ old Hq old_in). Qed.

Lemma old_not_parent : old <> q.
Proof. intros E. apply (kid_not_self h K F q _ Hq). rewrite <- E at 1. apply old_in. Qed.

Lemma slot_not_old : slot_of q l1 <> sibling_of old /\ slot_of q l1 <> child_of old.
Proof.
  split; [intros Hin%slot_sibling_in|by intros ?%slot_child_root%old_not_parent].
  pose proof (kids_nodup h K F q _ Hq) as Hn. apply NoDup_app in Hn as (_ & Hn & _). apply (Hn old); [done|left].
Qed.

(** Only [old] leaves, with its own children. *)
Lemma unlink_only (rc : bool) : rc = true \/ ks = [] ->
  exists h1, unlink h old rc (slot_of q l1) = Ret h1 /\ cut h (alter (set_parent 0) old h1) q old (hd 0 l2) (slot_of q l1) [] /\ old ∈ dom h1.
Proof.
  intros Hrc. unfold unlink. rewrite (rd_dom h old old_dom). cbn [obind]. rewrite !fld_at by apply old_dom. rewrite old_sib.
  assert (E : rc || (rkid h old =? 0) = true).
  { destruct Hrc as [->| ->]; [done|]. pose proof (fo_list _ _ F old _ Hks) as E. cbn in E. rewrite E. by rewrite orb_true_r. }
  rewrite E, (set_slot_spec h K q l1 (old :: l2) _ F Hq). set (h1 := write_slot h _ _).
  assert (Hd1 : dom h1 = dom h) by apply (same_data_dom h h1), slot_data. pose proof (slot_dom h K q l1 _ F Hq) as Hsd.
  exists h1. split; [done|]. split; [|rewrite Hd1; apply old_dom]. split_and!.
  - apply (same_data_trans h h1); [apply slot_data|by apply same_data_alter].
  - intros x _. rewrite fld_alter_other by done. unfold h1. rewrite slot_sib. destruct (slot_of q l1) as [p|p]; [by rewrite decide_False|].
    destruct (decide (x = p)) as [->|]; [by rewrite !decide_True|]. by rewrite !decide_False by (congruence || (intros [? _]; congruence)).
  - intros x. rewrite fld_alter_other by done. unfold h1. rewrite slot_kid. destruct (slot_of q l1) as [p|p]; [|by rewrite decide_False].
    destruct (decide (x = p)) as [->|]; [by rewrite !decide_True|]. by rewrite !decide_False by (congruence || (intros [? _]; congruence)).
  - intros x. rewrite (fld_alter_set _ _ _ _ _ 0) by (done || rewrite Hd1; apply old_dom). case_decide; [done|].
    unfold h1. rewrite slot_parent, decide_False; [done|apply not_elem_of_nil].
Qed.

Lemma kids_apart x : x ∈ ks -> x <> old /\ x <> q /\ (x ∉ l1 ++ old :: l2).
Proof.
  intros Hx. destruct (fo_depth _ _ F) as [d Hd]. pose proof (Hd old ks x Hks Hx). pose proof (Hd q _ old Hq old_in).
  split_and!; [intros E; subst x; lia|intros E; subst x; lia|]. intros Hin.
  apply old_not_parent. by apply (kid_unique h K F old q ks _ x Hks Hq).
Qed.

(** [old] leaves and its children take its place. *)
Lemma unlink_up : ks <> [] ->
  exists h1, unlink h old false (slot_of q l1) = Ret h1 /\ old ∈ dom h1
    /\ let h' := alter (set_parent 0) old h1 in cut h h' q old (rkid h old) (slot_of q l1) ks /\ lseg h' (rkid h old) (hd 0 l2) ks.
Proof.
  intros Hne. pose proof (fo_list _ _ F old _ Hks) as Hl. pose proof (kids_nodup h K F old _ Hks) as Hnd.
  pose proof (slot_dom h K q l1 _ F Hq) as Hsd. destruct slot_not_old as [Hso _].
  unfold unlink. rewrite (rd_dom h old old_dom). cbn [obind orb]. rewrite !fld_at by apply old_dom.
  destruct (Z.eqb_spec (rkid h old) 0) as [E|_].
  { destruct ks as [|x k]; [done|]. cbn in Hl. destruct Hl as (Ex & Hx & _). exfalso. apply (fo_null _ _ F). by rewrite <- E, Ex. }
  destruct (adopt_loop_spec old q ks h (rkid h old) (fuel_of h)) as (h1 & E1 & Hs1 & Hsib1 & Hkid1 & Hpar1); try done; [apply F|apply old_dom| | | |].
  { intros Hin. by destruct (kids_apart old Hin). }
  { apply (fo_parent _ _ F q _ old Hq old_in). }
  { unfold fuel_of. pose proof (kids_fuel h K F old ks Hks). lia. }
  rewrite E1. cbn [obind]. pose proof (same_data_dom h h1 Hs1) as Hd1.
  assert (Hset : set_slot h1 (slot_of q l1) (rkid h old) = Ret (write_slot h1 (slot_of q l1) (rkid h old))).
  { destruct (slot_of q l1); apply upd_dom; by rewrite Hd1. }
  rewrite Hset. cbn [obind]. set (h2 := write_slot h1 _ _).
  assert (Hd2 : dom h2 = dom h) by (rewrite (same_data_dom h1 h2 (slot_data _ _ _)); done).
  rewrite (rd_dom h2 old) by (rewrite Hd2; apply old_dom). cbn [obind]. rewrite fld_at by (rewrite Hd2; apply old_dom).
  assert (Hs2 : forall x, rsib h2 x = if decide (slot_of q l1 = sibling_of x) then rkid h old else rsib h x).
  { intros x. unfold h2. rewrite slot_sib, Hd1. destruct (slot_of q l1) as [p|p]; [by rewrite decide_False|].
    destruct (decide (x = p)) as [->|]; [by rewrite !decide_True|]. by rewrite !decide_False by (congruence || (intros [? _]; congruence)). }
  rewrite Hs2, decide_False, old_sib by done. assert (Hlast : default 0 (last ks) ∈ ks).
  { destruct (last ks) as [z|] eqn:Ez; cbn; [by apply last_Some_elem_of|by apply last_None in Ez]. }
  set (z := default 0 (last ks)) in *. assert (Hzd : z ∈ dom h2) by (rewrite Hd2; by apply (kid_dom h K F old ks)).
  rewrite (upd_dom h2 z _ Hzd). set (h3 := alter _ z h2). assert (Hd3 : dom h3 = dom h) by (by rewrite <- Hd2; apply dom_alter_same).
  exists h3. split; [done|]. split; [rewrite Hd3; apply old_dom|]. cbn zeta.
  assert (Hs4 : forall x, rsib (alter (set_parent 0) old h3) x = if decide (x = z) then hd 0 l2 else rsib h2 x).
  { intros x. rewrite fld_alter_other by done. unfold h3. by rewrite (fld_alter_set _ _ _ _ _ (hd 0 l2)). }
  split; [split_and!|].
  - apply (same_data_trans h h1); [done|]. apply (same_data_trans h1 h2); [apply slot_data|].
    apply (same_data_trans h2 h3); by apply same_data_alter.
  - intros x Hx. rewrite Hs4, decide_False by congruence. apply Hs2.
  - intros x. rewrite fld_alter_other by done. unfold h3. rewrite fld_alter_other by done. unfold h2. rewrite slot_kid, Hd1, Hkid1.
    destruct (slot_of q l1) as [p|p]; [|by rewrite decide_False].
    destruct (decide (x = p)) as [->|]; [by rewrite !decide_True|]. by rewrite !decide_False by (congruence || (intros [? _]; congruence)).
  - intros x. rewrite (fld_alter_set _ _ _ _ _ 0) by (done || rewrite Hd3; apply old_dom). case_decide; [done|].
    unfold h3. rewrite fld_alter_other by done. unfold h2. rewrite slot_parent. apply Hpar1.
  - clearbody h3 h2. clear E1 Hsib1 Hkid1 Hpar1 Hset. assert (Ez : exists k, ks = k ++ [z]).
    { destruct (last ks) as [z0|] eqn:Ez; [|by apply last_None in Ez]. apply last_Some in Ez. exact Ez. }
    destruct Ez as [k Ek]. rewrite Ek in Hl, Hnd. rewrite Ek. apply lseg_app in Hl as (c & Hk & Hz). cbn in Hz. destruct Hz as (-> & Hzd' & _).
    apply NoDup_app in Hnd as (_ & Hnd & _). apply lseg_app. exists z. split.
    + apply (lseg_frame h); [done|rewrite dom_alter_same; done|]. intros y Hy. assert (Hyk : y ∈ ks) by (rewrite Ek, elem_of_app; by left).
      rewrite Hs4, decide_False, Hs2, decide_False; [done| |intros ->; apply (Hnd z Hy); left].
      intros Hin%slot_sibling_in. apply (kids_apart y); [done|]. rewrite elem_of_app. by left.
    + cbn. rewrite dom_alter_same, Hd3. split_and!; [done|done|]. by rewrite Hs4, decide_True.
Qed.
Lemma rest_not_old x : x ∈ l1 ++ l2 -> x <> old.
Proof.
  intros Hx E. subst x. pose proof (kids_nodup h K F q _ Hq) as Hn. apply NoDup_app in Hn as (_ & Hn & Hn2).
  apply elem_of_app in Hx as [Hx|Hx]; [apply (Hn old Hx); left|]. by apply list.NoDup_cons in Hn2 as [? _].
Qed.

Lemma rest_in x : x ∈ l1 ++ l2 -> x ∈ l1 ++ old :: l2.
Proof. rewrite !elem_of_app, elem_of_cons. tauto. Qed.

Lemma old_elsewhere p l : K !! p = Some l -> p <> q -> old ∉ l.
Proof. intros Hp Hne Hin. by apply Hne, (kid_unique h K F p q l _ old Hp Hq Hin), old_in. Qed.

Lemma rest_sorted : StronglySorted (before h) (l1 ++ l2) /\ (forall x, x ∈ l1 -> before h x old) /\ (forall x, x ∈ l2 -> before h old x).
Proof.
  pose proof (fo_sorted _ _ F q _ Hq) as Hs. apply StronglySorted_app in Hs as (H12 & H1 & H2).
  apply StronglySorted_inv in H2 as [H2 Hf]. rewrite Forall_forall in Hf. split_and!; [|intros x Hx; apply H12; [done|left]|done].
  apply StronglySorted_app. split_and!; [|done|done]. intros x y Hx Hy. apply H12; [done|by right].
Qed.

Lemma q_in : q ∈ dom K.
Proof. apply elem_of_dom. by rewrite Hq. Qed.

(** Released with its children, [old] is the root of its own tree. *)
Lemma cut_forest_keep h' : cut h h' q old (hd 0 l2) (slot_of q l1) [] -> forest h' (<[q := l1 ++ l2]> K).
Proof.
  intros (Hs & Hsib & Hkid & Hpar). pose proof (same_data_dom h h' Hs) as Hdom. pose proof q_in as Hqin.
  assert (HKd : dom (<[q := l1 ++ l2]> K) = dom K) by (rewrite dom_insert_L; apply subseteq_union_1_L, singleton_subseteq_l, Hqin).
  assert (Hpar' : forall x, rparent h' x = if decide (x = old) then 0 else rparent h x).
  { intros x. rewrite Hpar. case_decide; [done|]. rewrite decide_False; [done|apply not_elem_of_nil]. }
  assert (Hin : forall p l c, <[q := l1 ++ l2]> K !! p = Some l -> c ∈ l -> c <> old /\ exists l0, K !! p = Some l0 /\ c ∈ l0).
  { intros p l c Hp Hc. rewrite lookup_insert in Hp. case_decide as E; [subst p; injection Hp as <-|].
    - split; [by apply rest_not_old|]. exists (l1 ++ old :: l2). split; [done|by apply rest_in].
    - split; [|by exists l]. intros ->. by apply (old_elsewhere p l). }
  split.
  - rewrite Hdom. apply F.
  - intros p. rewrite Hdom, HKd. apply F.
  - intros p l Hp. rewrite lookup_insert in Hp. case_decide as E; [subst p; injection Hp as <-|].
    + apply (splice_here h h' K q (hd 0 l2) l1 [old] l2 [] (fun _ => False)); try done; [intros x _; apply Hsib, not_elem_of_nil|by intros ? ? []].
    + apply (splice_there h h' K q (hd 0 l2) l1 [old] l2 (fun _ => False)); try done; [intros x _; apply Hsib, not_elem_of_nil|first [congruence|by intros ? ? []]].
  - intros p l c Hp Hc. destruct (Hin p l c Hp Hc) as (Hne & l0 & Hp0 & Hc0). rewrite Hpar', decide_False, HKd by done.
    by apply (fo_parent _ _ F p l0).
  - intros p l c Hp Hc. destruct (Hin p l c Hp Hc) as (_ & l0 & Hp0 & Hc0). apply (inside_data h h' Hs). by apply (fo_inside _ _ F p l0).
  - intros p l Hp. apply (sorted_data h h' Hs). rewrite lookup_insert in Hp. case_decide; [injection Hp as <-; apply rest_sorted|by apply (fo_sorted _ _ F p)].
  - intros p. rewrite HKd. intros Hp. by apply (range_data h h' Hs), (fo_range _ _ F).
  - intros c. rewrite HKd, Hpar'. case_decide; [done|]. intros Hc Hp. destruct (fo_up _ _ F c Hc Hp) as (l & Hl & Hcl).
    destruct (decide (rparent h c = q)) as [E|E]; [|rewrite lookup_insert_ne by done; by exists l].
    rewrite E, lookup_insert_eq. eexists. split; [done|]. rewrite E, Hq in Hl. injection Hl as <-.
    rewrite elem_of_app, elem_of_cons in Hcl. rewrite elem_of_app. tauto.
  - destruct (fo_depth _ _ F) as [d Hd]. exists d. intros p l c Hp Hc. destruct (Hin p l c Hp Hc) as (_ & l0 & Hp0 & Hc0). by apply (Hd p l0).
Qed.

(** Removed, it is outside and its children take its place. *)
Lemma cut_forest_up h' v :
  cut h h' q old v (slot_of q l1) ks -> lseg h' v (hd 0 l2) ks -> forest h' (delete old (<[q := l1 ++ ks ++ l2]> K)).
Proof.
  intros (Hs & Hsib & Hkid & Hpar) Hm. pose proof (same_data_dom h h' Hs) as Hdom. pose proof q_in as Hqin.
  set (K' := delete old _).
  assert (HKd : forall x, x ∈ dom K' <-> x <> old /\ x ∈ dom K).
  { intros x. unfold K'. rewrite dom_delete_L, dom_insert_L, elem_of_difference, elem_of_union, !elem_of_singleton.
    split; [intros [[->|?] ?]; auto|tauto]. }
  assert (HK : forall p l, K' !! p = Some l -> p <> old /\ (p = q /\ l = l1 ++ ks ++ l2 \/ p <> q /\ K !! p = Some l)).
  { intros p l. unfold K'. rewrite lookup_delete, lookup_insert. repeat case_decide; subst; intros E; try done;
      (split; [congruence|]); [injection E as <-; by left|by right]. }
  assert (Hin : forall p l c, K' !! p = Some l -> c ∈ l ->
    c <> old /\ (p = q /\ c ∈ ks \/ (c ∉ ks) /\ exists l0, K !! p = Some l0 /\ c ∈ l0)).
  { intros p l c Hp Hc. destruct (HK p l Hp) as [Hpo [[-> ->]|[Hpq Hp']]].
    - rewrite !elem_of_app in Hc. destruct (decide (c ∈ ks)) as [Hk|Hk]; [split; [by apply kids_apart|by left]|].
      assert (Hr : c ∈ l1 ++ l2) by (rewrite elem_of_app; tauto). split; [by apply rest_not_old|right]. split; [done|].
      exists (l1 ++ old :: l2). split; [done|by apply rest_in].
    - split; [intros ->; by apply (old_elsewhere p l)|right]. split; [|by exists l]. intros Hk.
      by apply Hpo, (kid_unique h K F p old l ks c). }
  assert (HX : forall p l x, K !! p = Some l -> p <> old -> x ∈ l -> x ∉ ks).
  { intros p l x Hp Hpo Hx Hk. by apply Hpo, (kid_unique h K F p old l ks x). }
  destruct rest_sorted as (Hsr & Hs1 & Hs2).
  split.
  - rewrite Hdom. apply F.
  - intros p. rewrite Hdom, HKd. intros [_ Hp]. by apply F.
  - intros p l Hp. destruct (HK p l Hp) as [Hpo [[-> ->]|[Hpq Hp']]].
    + apply (splice_here h h' K q v l1 [old] l2 ks (fun x => x ∈ ks)); try done.
      intros x Hx. apply (HX q _ x Hq); [by apply not_eq_sym, old_not_parent|by apply rest_in].
    + apply (splice_there h h' K q v l1 [old] l2 (fun x => x ∈ ks)); try done. intros x Hx. by apply (HX p l).
  - intros p l c Hp Hc. destruct (Hin p l c Hp Hc) as (Hco & Hcase). rewrite Hpar, decide_False, HKd by done.
    destruct Hcase as [[-> Hk]|(Hk & l0 & Hp0 & Hc0)].
    + rewrite decide_True by done. split; [done|]. split; [done|]. by apply (fo_parent _ _ F old ks).
    + rewrite decide_False by done. destruct (fo_parent _ _ F p l0 c Hp0 Hc0). auto.
  - intros p l c Hp Hc. apply (inside_data h h' Hs). destruct (Hin p l c Hp Hc) as (_ & [[-> Hk]|(_ & l0 & Hp0 & Hc0)]);
      [|by apply (fo_inside _ _ F p l0)].
    pose proof (fo_inside _ _ F old ks c Hks Hk). pose proof (fo_inside _ _ F q _ old Hq old_in). unfold inside in *. lia.
  - intros p l Hp. apply (sorted_data h h' Hs). destruct (HK p l Hp) as [_ [[-> ->]|[_ Hp']]]; [|by apply (fo_sorted _ _ F p)].
    apply StronglySorted_app in Hsr as (Hr12 & Hr1 & Hr2).
    assert (Hki : forall x, x ∈ ks -> inside h x old) by (intros; by apply (fo_inside _ _ F old ks)).
    apply StronglySorted_app. split_and!; [|done|]; [|apply StronglySorted_app; split_and!; [|by apply (fo_sorted _ _ F old)|done]].
    + intros x y Hx [Hy|Hy]%elem_of_app; [|by apply Hr12]. specialize (Hs1 x Hx). specialize (Hki y Hy). unfold before, inside in *. lia.
    + intros x y Hx Hy. specialize (Hs2 y Hy). specialize (Hki x Hx). unfold before, inside in *. lia.
  - intros p [_ Hp]%HKd. by apply (range_data h h' Hs), (fo_range _ _ F).
  - intros c [Hco Hc]%HKd. rewrite Hpar, decide_False by done.
    assert (HKq : K' !! q = Some (l1 ++ ks ++ l2)) by (unfold K'; rewrite lookup_delete_ne, lookup_insert_eq by apply old_not_parent; done).
    case_decide as Hk.
    + intros _. eexists. split; [exact HKq|]. rewrite !elem_of_app. tauto.
    + intros Hp. destruct (fo_up _ _ F c Hc Hp) as (l & Hl & Hcl).
      destruct (decide (rparent h c = q)) as [E|E].
      * rewrite E. eexists. split; [exact HKq|]. rewrite E, Hq in Hl. injection Hl as <-.
        rewrite elem_of_app, elem_of_cons in Hcl. rewrite !elem_of_app. tauto.
      * exists l. split; [|done]. unfold K'. rewrite lookup_delete_ne; [by rewrite lookup_insert_ne|].
        intros Eo. apply Hk. rewrite <- Eo, Hks in Hl. by injection Hl as ->.
  - destruct (fo_depth _ _ F) as [d Hd]. exists d. intros p l c Hp Hc.
    destruct (Hin p l c Hp Hc) as (_ & [[-> Hk]|(_ & l0 & Hp0 & Hc0)]); [|by apply (Hd p l0)].
    pose proof (Hd old ks c Hks Hk). pose proof (Hd q _ old Hq old_in). lia.
Qed.
End Release.

(** ** The search for [old] *)

Lemma release_walk h K q old rc (lb : list Z) : forall la lc fuel,
  forest h K -> K !! q = Some (la ++ lb ++ lc) -> old ∉ lb ->
  release_loop (length lb + fuel) h old rc (slot_of q la) = release_loop fuel h old rc (slot_of q (la ++ lb)).
Proof.
  induction lb as [|x lb IH]; intros la lc fuel F Hq Hno; [by rewrite app_nil_r|].
  apply not_elem_of_cons in Hno as [Hx Hno]. cbn [length plus release_loop].
  rewrite (get_slot_spec h K q la _ F Hq). cbn [obind hd app].
  assert (Hxd : x ∈ dom h) by (apply (kid_dom h K F q _ x Hq); rewrite elem_of_app; right; left).
  destruct (Z.eqb_spec x 0) as [->|_]; [by destruct (fo_null _ _ F)|]. destruct (Z.eqb_spec x old) as [->|_]; [done|].
  rewrite <- (slot_of_snoc q la x), (IH (la ++ [x]) lc); [by rewrite <- app_assoc|done|by rewrite <- app_assoc|done].
Qed.

Lemma fuel_past (l1 l2 : list Z) h : (length (l1 ++ l2) <= size h)%nat -> exists f, fuel_of h = (length l1 + S f)%nat.
Proof. intros H. rewrite length_app in H. exists (size h - length l1)%nat. unfold fuel_of. lia. Qed.

Lemma release_found h K old :
  forest h K -> old ∈ dom K -> rparent h old <> 0 ->
  exists l1 l2 ks fuel, K !! rparent h old = Some (l1 ++ old :: l2) /\ K !! old = Some ks
    /\ forall rc, __release_resource h old rc = release_loop (S fuel) h old rc (slot_of (rparent h old) l1).
Proof.
  intros F Ho Hp. destruct (fo_up _ _ F old Ho Hp) as (l & Hl & Hin). apply elem_of_dom in Ho as [ks Hks].
  pose proof (kids_nodup h K F _ l Hl) as Hn. apply list_elem_of_split in Hin as (l1 & l2 & ->).
  pose proof (kids_fuel h K F _ _ Hl) as Hf. destruct (fuel_past l1 (old :: l2) h Hf) as [f Ef].
  exists l1, l2, ks, f. split; [done|]. split; [done|]. intros rc. unfold __release_resource.
  rewrite (rd_dom h old) by (by apply (in_dom h K F old ks)). cbn [obind]. rewrite fld_at by (by apply (in_dom h K F old ks)).
  rewrite Ef. change (child_of (rparent h old)) with (slot_of (rparent h old) []).
  rewrite (release_walk h K (rparent h old) old rc l1 [] (old :: l2) (S f) F Hl); [done|].
  apply NoDup_app in Hn as (_ & Hn & _). intros Hin. apply (Hn old Hin). left.
Qed.

Lemma release_here h K q old rc l1 l2 fuel :
  forest h K -> K !! q = Some (l1 ++ old :: l2) ->
  release_loop (S fuel) h old rc (slot_of q l1)
  = let! h := unlink h old rc (slot_of q l1) in let! h := upd h old (set_parent 0) in Ret (h, 0).
Proof.
  intros F Hq. cbn [release_loop]. rewrite (get_slot_spec h K q l1 _ F Hq). cbn [obind hd].
  destruct (Z.eqb_spec old 0) as [->|_].
  { destruct (fo_null _ _ F). apply (kid_dom h K F q _ 0 Hq). rewrite elem_of_app. right. left. }
  by rewrite Z.eqb_refl.
Qed.

Lemma release_spec h K old :
  forest h K -> old ∈ dom K -> rparent h old <> 0 ->
  exists l1 l2 h', K !! rparent h old = Some (l1 ++ old :: l2) /\ release_resource h old = Ret (h', 0) /\ same_data h h'
    /\ forest h' (<[rparent h old := l1 ++ l2]> K)
    /\ (forall x, rparent h' x = if decide (x = old) then 0 else rparent h x)
    /\ (forall x, x ∉ dom K -> rkid h' x = rkid h x).
Proof.
  intros F Ho Hp. destruct (release_found h K old F Ho Hp) as (l1 & l2 & ks & fuel & Hq & Hks & E). set (q := rparent h old) in *.
  unfold release_resource. rewrite E, (release_here h K q old true l1 l2 fuel F Hq).
  destruct (unlink_only h K q old l1 l2 ks F Hq Hks true) as (h1 & -> & Hcut & Hd); [by left|]. cbn [obind].
  rewrite (upd_dom h1 old _ Hd). cbn [obind]. set (h' := alter _ old h1) in *. exists l1, l2, h'. split; [done|]. split; [done|].
  pose proof (cut_forest_keep h K q old l1 l2 F Hq h' Hcut) as F'. destruct Hcut as (Hs & _ & Hkid & Hpar). split_and!; try done.
  - intros x Hx. rewrite Hkid, decide_False; [done|]. intros ->%slot_child_root. apply Hx, elem_of_dom. by rewrite Hq.
Qed.

Lemma remove_spec h K old :
  forest h K -> old ∈ dom K -> rparent h old <> 0 ->
  exists l1 l2 ks h', K !! rparent h old = Some (l1 ++ old :: l2) /\ K !! old = Some ks /\ remove_resource h old = Ret (h', 0)
    /\ same_data h h' /\ forest h' (delete old (<[rparent h old := l1 ++ ks ++ l2]> K))
    /\ (forall x, rparent h' x = if decide (x = old) then 0 else if decide (x ∈ ks) then rparent h old else rparent h x).
Proof.
  intros F Ho Hp. destruct (release_found h K old F Ho Hp) as (l1 & l2 & ks & fuel & Hq & Hks & E). set (q := rparent h old) in *.
  unfold remove_resource. rewrite E, (release_here h K q old false l1 l2 fuel F Hq). destruct (decide (ks = [])) as [Hnil|Hne].
  - destruct (unlink_only h K q old l1 l2 ks F Hq Hks false) as (h1 & -> & Hcut & Hd); [by right|]. cbn [obind].
    rewrite (upd_dom h1 old _ Hd). cbn [obind]. set (h' := alter _ old h1) in *. exists l1, l2, ks, h'.
    rewrite <- Hnil in Hcut. split; [done|]. split; [done|]. split; [done|]. split; [apply Hcut|]. split; [|apply Hcut].
    apply (cut_forest_up h K q old l1 l2 ks F Hq Hks h' _ Hcut). by rewrite Hnil.
  - destruct (unlink_up h K q old l1 l2 ks F Hq Hks Hne) as (h1 & -> & Hd & Hcut & Hl). cbn [obind].
    rewrite (upd_dom h1 old _ Hd). cbn [obind]. set (h' := alter _ old h1) in *. exists l1, l2, ks, h'.
    split; [done|]. split; [done|]. split; [done|]. split; [apply Hcut|]. split; [|apply Hcut].
    by apply (cut_forest_up h K q old l1 l2 ks F Hq Hks h' _ Hcut).
Qed.

(** A resource whose parent does not list it is refused. *)
Lemma release_unlisted h K old rc l :
  forest h K -> old ∈ dom h -> K !! rparent h old = Some l -> old ∉ l -> __release_resource h old rc = Ret (h, - EINVAL).
Proof.
  intros F Ho Hl Hno. pose proof (kids_fuel h K F _ _ Hl) as Hf. unfold __release_resource.
  rewrite (rd_dom h old Ho). cbn [obind]. rewrite fld_at by done.
  rewrite <- (app_nil_r l) in Hl, Hf. destruct (fuel_past l [] h Hf) as [f Ef]. rewrite Ef.
  change (child_of (rparent h old)) with (slot_of (rparent h old) []).
  rewrite (release_walk h K _ old rc l [] [] (S f) F Hl Hno). rewrite app_nil_l. cbn [release_loop]. rewrite (get_slot_spec h K _ _ [] F Hl). done.
Qed.

(** * The resource tree: inserting *)



(** ** The way down *)

Definition covers (h : mem) (a b : Z) : Prop := inside h b a /\ ~ inside h a b.

Section Descend.
Context (h : mem) (K : shape) (new : Z) (F : forest h K) (L : loose h K new).

(** Where the descent ends: a place, the refusal of the top, or a child that
    overlaps without covering. *)
Definition ends_at (top : Z) (r : descent) : Prop :=
  (exists h' p l1 l2, r = settled h' 0 /\ K !! p = Some (l1 ++ l2) /\ rstart h new <= rend h new /\ inside h new p
     /\ (forall x, x ∈ l1 -> before h x new) /\ (forall x, x ∈ l2 -> before h new x) /\ placed h h' K p new l1 l2)
  \/ (r = settled h top /\ ~ (rstart h new <= rend h new /\ inside h new top))
  \/ (exists p l1 first l2, r = overlap h p first /\ K !! p = Some (l1 ++ first :: l2) /\ rstart h new <= rend h new /\ inside h new p
     /\ (forall x, x ∈ l1 -> before h x new) /\ overlaps h first new /\ ~ covers h first new).

Lemma descend_spec (d : Z -> nat) :
  (forall p l c, K !! p = Some l -> c ∈ l -> (d c < d p)%nat) ->
  forall fuel parent vis, parent ∈ dom K -> NoDup vis -> (forall v, v ∈ vis -> v ∈ dom h /\ (d parent < d v)%nat) ->
  (size h < fuel + length vis)%nat ->
  exists r, descend fuel h parent new = Ret r /\ ends_at parent r.
Proof using F L.
  intros Hd. induction fuel as [|fuel IH]; intros parent vis Hp Hnd Hvis Hf.
  { pose proof (nodup_fuel h vis Hnd (fun v Hv => proj1 (Hvis v Hv))). lia. }
  apply elem_of_dom in Hp as [l Hp]. cbn [descend].
  destruct (request_spec h K parent new l F Hp L) as
    [(h' & l1 & l2 & E & Hr & Hi & -> & Hb & Ha & Hpl)|[[E Hbad]|(c & l1 & l2 & E & Hr & Hi & -> & Hb & Ho)]]; rewrite E; cbn [obind].
  - rewrite Z.eqb_refl. eexists. split; [done|]. left. by exists h', parent, l1, l2.
  - pose proof (not_null h K F parent (in_dom h K F parent l Hp)). destruct (Z.eqb_spec parent 0); [done|]. rewrite Z.eqb_refl.
    eexists. split; [done|]. right; left. done.
  - assert (Hc : c ∈ l1 ++ c :: l2) by (rewrite elem_of_app; right; left).
    pose proof (kid_dom h K F parent _ c Hp Hc) as Hcd. pose proof (not_null h K F c Hcd) as Hc0.
    destruct (Z.eqb_spec c 0); [done|]. destruct (Z.eqb_spec c parent) as [->|_]; [by destruct (kid_not_self h K F parent _ Hp)|].
    destruct (fo_parent _ _ F parent _ c Hp Hc) as [_ HcK].
    destruct (Z.eqb_spec c new) as [->|_]; [apply elem_of_dom in HcK as [? ?]; by rewrite (lo_out _ _ _ L) in *|].
    rewrite (rd_dom h c Hcd), (rd_dom h new (lo_dom _ _ _ L)). cbn [obind]. rewrite !fld_at by (done || apply L).
    assert (Hnd' : NoDup (parent :: vis)) by (constructor; [intros Hin; pose proof (proj2 (Hvis parent Hin)); lia|done]).
    assert (Hvis' : forall v, v ∈ parent :: vis -> v ∈ dom h /\ (d c < d v)%nat).
    { pose proof (Hd parent _ c Hp Hc). intros v [->|Hv]%elem_of_cons; [split; [by apply (in_dom h K F parent _ Hp)|done]|].
      split; [by apply Hvis|]. pose proof (proj2 (Hvis v Hv)). lia. }
    assert (Hover : ~ covers h c new -> exists r, Ret (overlap h parent c) = Ret r /\ ends_at parent r).
    { intros Hcv. eexists. split; [done|]. right; right. by exists parent, l1, c, l2. }
    unfold covers, inside in Hover.
    destruct (Z.ltb_spec (rstart h new) (rstart h c)); cbn [orb]; [apply Hover; lia|].
    destruct (Z.ltb_spec (rend h c) (rend h new)); cbn [orb]; [apply Hover; lia|].
    destruct (Z.eqb_spec (rstart h c) (rstart h new)), (Z.eqb_spec (rend h c) (rend h new)); cbn [andb]; [apply Hover; lia| | |];
      (destruct (IH c (parent :: vis) HcK Hnd' Hvis') as (r & Er & Hend); [cbn; lia|
        exists r; split; [done|]; destruct Hend as [Hend|[[_ Hbad]|Hend]]; [by left| |by right; right]; unfold inside in Hbad; lia]).
Qed.
End Descend.

(** ** The children the new resource covers *)

Lemma cover_loop_spec h K new p l3 : forall l1 m fuel next,
  forest h K -> new ∈ dom h -> K !! p = Some (l1 ++ m ++ next :: l3) -> (length l3 < fuel)%nat ->
  rstart h next <= rend h new -> rstart h new <= rend h next -> rstart h new <= rend h new -> (forall x, x ∈ m -> inside h x new) ->
  (exists m' l4 last, cover_loop fuel h new next = Ret (inl last) /\ m ++ next :: l3 = (m' ++ [last]) ++ l4
     /\ (forall x, x ∈ m' ++ [last] -> inside h x new) /\ (forall x, x ∈ l4 -> before h new x))
  \/ (exists c, cover_loop fuel h new next = Ret (inr c) /\ c ∈ next :: l3 /\ overlaps h c new /\ ~ inside h c new).
Proof.
  induction l3 as [|y l3 IH]; intros l1 m fuel next F Hn Hp Hf Ho1 Ho2 Hr Hm; (destruct fuel as [|fuel]; [cbn in Hf; lia|]); cbn [cover_loop].
  all: assert (Hx : next ∈ dom h) by (apply (kid_dom h K F p _ next Hp); rewrite !elem_of_app; right; right; left).
  all: rewrite (rd_dom h next Hx), (rd_dom h new Hn); cbn [obind]; rewrite !fld_at by done.
  all: assert (Hover : (rstart h next < rstart h new \/ rend h new < rend h next) -> overlaps h next new /\ ~ inside h next new)
    by (unfold overlaps, inside; lia).
  all: destruct (Z.ltb_spec (rstart h next) (rstart h new)); cbn [orb]; [right; exists next; split; [done|]; split; [left|]; apply Hover; lia|].
  all: destruct (Z.ltb_spec (rend h new) (rend h next)); cbn [orb]; [right; exists next; split; [done|]; split; [left|]; apply Hover; lia|].
  all: assert (Hm' : forall x, x ∈ m ++ [next] -> inside h x new)
    by (intros x [Hxm|Hxn]%elem_of_app; [by apply Hm|apply list_elem_of_singleton in Hxn as ->; split; lia]).
  all: pose proof (fo_list _ _ F p _ Hp) as Hl; rewrite app_assoc in Hl; apply lseg_app in Hl as (c & _ & Hl); cbn in Hl; destruct Hl as (_ & _ & Hl).
  - rewrite Hl. cbn [Z.eqb]. left. exists m, [], next. split_and!; [done|by rewrite app_nil_r|done|by intros x ?%not_elem_of_nil].
  - cbn in Hl. destruct Hl as (Ey & Hy & _). rewrite Ey. destruct (Z.eqb_spec y 0) as [->|_]; [by destruct (fo_null _ _ F)|].
    rewrite (rd_dom h y Hy). cbn [obind]. rewrite fld_at by done.
    assert (Hp' : K !! p = Some (l1 ++ (m ++ [next]) ++ y :: l3)) by (by rewrite <- (app_assoc m)).
    assert (Hyk : y ∈ l1 ++ (m ++ [next]) ++ y :: l3) by (rewrite !elem_of_app; right; right; left).
    destruct (fo_range _ _ F y) as [Hyr _]; [by apply (fo_parent _ _ F p _ y Hp')|].
    pose proof (fo_sorted _ _ F p _ Hp') as Hs. rewrite app_assoc, StronglySorted_app in Hs. destruct Hs as (Hs12 & _ & Hs).
    destruct (Z.ltb_spec (rend h new) (rstart h y)) as [Hlt|Hge].
    + left. exists m, (y :: l3), next. split_and!; [done|by rewrite <- app_assoc|done|].
      apply sorted_head_before; [done|done|lia].
    + assert (Hny : before h next y) by (apply Hs12; [rewrite !elem_of_app; right; right; left|left]). unfold before in Hny.
      destruct (IH l1 (m ++ [next]) fuel y) as [(m' & l4 & last & ? & Heq & ?)|(c' & ? & Hin & ?)];
        try done; [cbn in Hf; lia|lia| |].
      * left. exists m', l4, last. rewrite <- app_assoc in Heq. cbn [app] in Heq. done.
      * right. exists c'. split_and!; try done; [by right|tauto|tauto].
Qed.

(** ** Putting the new resource above them *)

Lemma reparent_spec new ks : forall h a fuel,
  lseg h a 0 ks -> 0 ∉ dom h -> (length ks < fuel)%nat -> exists h', reparent fuel h a new = Ret h' /\ reparented h h' ks new.
Proof.
  induction ks as [|x ks IH]; intros h a fuel Hl H0 Hf; (destruct fuel as [|fuel]; [cbn in Hf; lia|]); cbn [reparent].
  - cbn in Hl. rewrite Hl. exists h. split; [done|apply reparented_nil].
  - cbn in Hl. destruct Hl as (-> & Hx & Hl). destruct (Z.eqb_spec x 0) as [->|_]; [done|].
    rewrite (upd_dom h x _ Hx). cbn [obind]. set (h1 := alter _ x h). assert (Hd1 : dom h1 = dom h) by apply dom_alter_same.
    rewrite (rd_dom h1 x) by (by rewrite Hd1). cbn [obind]. rewrite fld_at by (by rewrite Hd1).
    assert (Hsib : forall y, rsib h1 y = rsib h y) by (intros; by apply fld_alter_other).
    destruct (IH h1 (rsib h1 x) fuel) as (h' & E & Hr); [|by rewrite Hd1|cbn in Hf; lia|].
    + rewrite Hsib. by apply (lseg_frame h).
    + exists h'. split; [done|]. by apply reparented_cons.
Qed.

Lemma find_prev_spec h first x l0 : forall a fuel,
  lseg h a first (l0 ++ [x]) -> first ∉ l0 ++ [x] -> (length l0 < fuel)%nat -> find_prev fuel h a first = Ret x.
Proof.
  induction l0 as [|y l0 IH]; intros a fuel Hl Hno Hf; (destruct fuel as [|fuel]; [cbn in Hf; lia|]); cbn [app lseg] in Hl;
    destruct Hl as (-> & Hd & Hl); cbn [find_prev]; rewrite (rd_dom h _ Hd); cbn [obind]; rewrite fld_at by done.
  - cbn in Hl. by rewrite Hl, Z.eqb_refl.
  - pose proof (lseg_head _ _ _ _ Hl) as Hh. cbn [app] in Hno. apply not_elem_of_cons in Hno as [_ Hno].
    destruct (Z.eqb_spec (rsib h y) first) as [E|_]; [|apply IH; [done|done|cbn in Hf; lia]].
    exfalso. apply Hno. rewrite <- E, Hh. destruct l0; left.
Qed.

(** What is written, field by field. *)
Definition adopted (h h' : mem) (p new first z : Z) (s : slot) (M : list Z) (rest : Z) : Prop :=
  same_data h h'
  /\ (forall x, rsib h' x = if decide (x = new) then rest else if decide (x = z) then 0
                            else if decide (s = sibling_of x) then new else rsib h x)
  /\ (forall x, rkid h' x = if decide (x = new) then first else if decide (s = child_of x) then new else rkid h x)
  /\ (forall x, rparent h' x = if decide (x = new) then p else if decide (x ∈ M) then new else rparent h x).

Section Adopt.
Context (h : mem) (K : shape) (p new z : Z) (l1 m l3 : list Z).
#[local] Abbreviation M := (m ++ [z]).
#[local] Abbreviation first := (hd z m).
Hypothesis F : forest h K.
Hypothesis L : loose h K new.
Hypothesis Hp : K !! p = Some (l1 ++ M ++ l3).

Lemma new_not_kid q l : K !! q = Some l -> new ∉ l.
Proof using F L.
  intros Hq Hin. destruct (fo_parent _ _ F q l new Hq Hin) as [_ [? E]%elem_of_dom]. by rewrite (lo_out _ _ _ L) in E.
Qed.

Lemma new_not_p : new <> p.
Proof using L Hp. intros E. rewrite <- E, (lo_out _ _ _ L) in Hp. done. Qed.

Lemma M_in x : x ∈ M -> x ∈ l1 ++ M ++ l3.
Proof. rewrite !elem_of_app. tauto. Qed.

Lemma M_apart : NoDup M /\ (forall x, x ∈ M -> (x ∉ l1) /\ (x ∉ l3)) /\ first ∈ M /\ z ∈ M /\ (new ∉ M).
Proof using F L Hp.
  pose proof (kids_nodup h K F p _ Hp) as Hn. apply NoDup_app in Hn as (_ & Hn1 & Hn). apply NoDup_app in Hn as (Hn & Hn2 & _).
  split_and!; [done| |destruct m; left|rewrite elem_of_app; right; left|intros Hin; by apply (new_not_kid p _ Hp), M_in].
  intros x Hx. split; [intros H1; apply (Hn1 x H1); rewrite elem_of_app; by left|by apply Hn2].
Qed.

Lemma segs : lseg h (rkid h p) first l1 /\ lseg h first z m /\ z ∈ dom h /\ rsib h z = hd 0 l3.
Proof using F Hp.
  pose proof (fo_list _ _ F p _ Hp) as Hl. apply lseg_app in Hl as (c & H1 & Hl). apply lseg_app in Hl as (c2 & Hl & H3).
  apply lseg_app in Hl as (c3 & Hm & Hz). cbn in Hz. destruct Hz as (-> & Hz & E).
  pose proof (lseg_head _ _ _ _ Hm) as E0. rewrite E0 in H1, Hm. by rewrite E, (lseg_head _ _ _ _ H3).
Qed.

Lemma put_above_run : exists h', put_above h p new first z = Ret (h', 0) /\ adopted h h' p new first z (slot_of p l1) M (hd 0 l3).
Proof using F L Hp.
  destruct segs as (S1 & Sm & Hz & Ez). destruct M_apart as (HnM & Hap & Hf & HzM & HnewM).
  pose proof (lo_dom _ _ _ L) as Hn. pose proof new_not_p as Hnp. pose proof (in_dom h K F p _ Hp) as Hpd.
  assert (Hzn : z <> new) by congruence.
  unfold put_above. rewrite (upd_dom h new _ Hn). cbn [obind]. set (h1 := alter _ new h).
  assert (D1 : dom h1 = dom h) by apply dom_alter_same.
  rewrite (rd_dom h1 z) by (by rewrite D1). cbn [obind]. rewrite fld_at by (by rewrite D1).
  replace (rsib h1 z) with (hd 0 l3) by (rewrite <- Ez; symmetry; by apply fld_alter_other).
  rewrite (upd_dom h1 new) by (by rewrite D1). cbn [obind]. set (h2 := alter _ new h1). assert (D2 : dom h2 = dom h) by (by rewrite <- D1; apply dom_alter_same).
  rewrite (upd_dom h2 new) by (by rewrite D2). cbn [obind]. set (h3 := alter _ new h2). assert (D3 : dom h3 = dom h) by (by rewrite <- D2; apply dom_alter_same).
  rewrite (upd_dom h3 z) by (by rewrite D3). cbn [obind]. set (h4 := alter _ z h3). assert (D4 : dom h4 = dom h) by (by rewrite <- D3; apply dom_alter_same).
  assert (Hsib4 : forall x, rsib h4 x = if decide (x = z) then 0 else if decide (x = new) then hd 0 l3 else rsib h x).
  { intros x. unfold h4. rewrite (fld_alter_set _ _ _ _ _ 0) by (done || by rewrite D3). case_decide; [done|].
    unfold h3. rewrite fld_alter_other by done. unfold h2. rewrite (fld_alter_set _ _ _ _ _ (hd 0 l3)) by (done || by rewrite D1).
    case_decide; [done|]. by apply fld_alter_other. }
  assert (Hkid4 : forall x, rkid h4 x = if decide (x = new) then first else rkid h x).
  { intros x. unfold h4. rewrite fld_alter_other by done. unfold h3. rewrite (fld_alter_set _ _ _ _ _ first) by (done || by rewrite D2).
    case_decide; [done|]. unfold h2. rewrite fld_alter_other by done. by apply fld_alter_other. }
  assert (Hpar4 : forall x, rparent h4 x = if decide (x = new) then p else rparent h x).
  { intros x. unfold h4. rewrite fld_alter_other by done. unfold h3. rewrite fld_alter_other by done. unfold h2. rewrite fld_alter_other by done.
    unfold h1. by rewrite (fld_alter_set _ _ _ _ _ p). }
  assert (Hs4 : same_data h h4).
  { apply (same_data_trans h h1); [by apply same_data_alter|]. apply (same_data_trans h1 h2); [by apply same_data_alter|].
    apply (same_data_trans h2 h3); by apply same_data_alter. }
  clearbody h4. clear h1 h2 h3 D1 D2 D3.
  apply NoDup_app in HnM as (Hnm & Hmz & _).
  destruct (reparent_spec new M h4 first (fuel_of h4)) as (h5 & E5 & Hs5 & Hsib5 & Hkid5 & Hpar5).
  { apply lseg_app. exists z. split; [apply (lseg_frame h); [done..|]|cbn; rewrite D4, Hsib4, decide_True; done].
    intros x Hx. assert (x ∈ M) by (rewrite elem_of_app; by left). rewrite Hsib4, !decide_False by (congruence || intros ->; apply (Hmz z Hx); left). done. }
  { rewrite D4. apply F. }
  { pose proof (kids_fuel h K F p _ Hp) as Hfu. rewrite !length_app in Hfu. unfold fuel_of.
    replace (size h4) with (size h) by (rewrite <- !size_dom; by rewrite D4). rewrite length_app. lia. }
  rewrite E5. cbn [obind]. assert (D5 : dom h5 = dom h) by (rewrite (same_data_dom h4 h5 Hs5); done).
  rewrite (rd_dom h5 p) by (by rewrite D5). cbn [obind]. rewrite fld_at by (by rewrite D5).
  rewrite Hkid5, Hkid4, decide_False by done.
  assert (Hw : (if rkid h p =? first then let! h := upd h5 p (set_child new) in Ret (h, 0)
      else let! next := find_prev (fuel_of h5) h5 (rkid h p) first in let! h := upd h5 next (set_sibling new) in Ret (h, 0))
      = Ret (write_slot h5 (slot_of p l1) new, 0) /\ match slot_of p l1 with child_of q => q ∈ dom h | sibling_of q => q ∈ dom h end).
  { split; [|by apply (slot_dom h K p l1 (M ++ l3))]. destruct l1 as [|x l0 _] eqn:El using rev_ind.
    - cbn in S1. rewrite S1, Z.eqb_refl, (upd_dom h5 p) by (by rewrite D5). done.
    - assert (Hfno : first ∉ l0 ++ [x]) by (by apply Hap). rewrite slot_of_snoc.
      destruct (Z.eqb_spec (rkid h p) first) as [E|_].
      { exfalso. apply Hfno. rewrite <- E, (lseg_head _ _ _ _ S1). destruct l0; left. }
      rewrite (find_prev_spec h5 first x l0); [|apply (lseg_frame h); [done..|]|done|].
      + cbn [obind]. rewrite (upd_dom h5 x); [done|]. rewrite D5. apply (lseg_dom h _ _ _ x S1). rewrite elem_of_app. right. left.
      + intros y Hy. rewrite Hsib5, Hsib4, !decide_False; [done|intros ->; apply (new_not_kid p _ Hp); rewrite elem_of_app; by left|intros ->; by destruct (Hap z HzM)].
      + pose proof (kids_fuel h K F p _ Hp) as Hfu. rewrite !length_app in Hfu. unfold fuel_of.
        replace (size h5) with (size h) by (rewrite <- !size_dom; by rewrite D5). lia. }
  destruct Hw as [-> Hsd]. eexists. split; [done|]. rewrite <- D5 in Hsd. split_and!.
  - apply (same_data_trans h h4); [done|]. apply (same_data_trans h4 h5); [done|apply slot_data].
  - intros x. rewrite slot_sib, Hsib5, Hsib4. assert (Hsx : forall y, slot_of p l1 = sibling_of y -> y <> new /\ y <> z).
    { intros y Hy%slot_sibling_in. split; intros ->; [apply (new_not_kid p _ Hp); rewrite elem_of_app; by left|by destruct (Hap z HzM)]. }
    destruct (slot_of p l1) as [q|q]; [rewrite (decide_False (P := child_of q = sibling_of x)) by done; repeat case_decide; congruence|].
    destruct (Hsx q eq_refl). destruct (decide (x = q)) as [->|]; [repeat case_decide; tauto || congruence|].
    rewrite (decide_False (P := x = q /\ _)) by tauto. rewrite (decide_False (P := sibling_of q = sibling_of x)) by congruence. repeat case_decide; congruence.
  - intros x. rewrite slot_kid, Hkid5, Hkid4. pose proof (slot_child_root p l1) as Hsx.
    destruct (slot_of p l1) as [q|q]; [|by rewrite (decide_False (P := sibling_of q = child_of x)) by done].
    rewrite (Hsx q eq_refl) in *. destruct (decide (x = p)) as [->|]; [repeat case_decide; tauto || congruence|].
    rewrite (decide_False (P := x = p /\ _)) by tauto. rewrite (decide_False (P := child_of p = child_of x)) by congruence. done.
  - intros x. rewrite slot_parent, Hpar5, Hpar4. destruct (decide (x = new)) as [->|]; [by rewrite decide_False|done].
Qed.
Definition put_over (K : shape) (p new : Z) (l1 M l3 : list Z) : shape := <[new := M]> (<[p := l1 ++ new :: l3]> K).

Lemma adopted_forest h' :
  adopted h h' p new first z (slot_of p l1) M (hd 0 l3) ->
  rstart h new <= rend h new -> inside h new p ->
  (forall x, x ∈ l1 -> before h x new) -> (forall x, x ∈ M -> inside h x new) -> (forall x, x ∈ l3 -> before h new x) ->
  forest h' (put_over K p new l1 M l3).
Proof using F L Hp.
  intros (Hs & Hsib & Hkid & Hpar) Hrg Hin Hb Hcov Ha. pose proof (lo_out _ _ _ L) as Hout. pose proof new_not_p as Hnp.
  pose proof (same_data_dom h h' Hs) as Hdom. destruct segs as (S1 & Sm & Hz & Ez). destruct M_apart as (HnM & Hap & Hf & HzM & HnewM).
  assert (HKd : forall x, x ∈ dom (put_over K p new l1 M l3) <-> x = new \/ x ∈ dom K).
  { intros x. unfold put_over. rewrite !dom_insert_L, !elem_of_union, !elem_of_singleton. split; [|tauto].
    intros [?|[->|?]]; [by left|right; apply elem_of_dom; by rewrite Hp|by right]. }
  assert (HK : forall q l, put_over K p new l1 M l3 !! q = Some l ->
    q = new /\ l = M \/ q = p /\ l = l1 ++ new :: l3 \/ q <> new /\ q <> p /\ K !! q = Some l).
  { intros q l. unfold put_over. rewrite !lookup_insert. repeat case_decide; subst; intros E; try (injection E as <-); auto. }
  assert (Hcase : forall q l c, put_over K p new l1 M l3 !! q = Some l -> c ∈ l ->
    c = new /\ q = p \/ c <> new /\ c ∈ M /\ q = new \/ c <> new /\ (c ∉ M) /\ q <> new /\ exists l0, K !! q = Some l0 /\ c ∈ l0).
  { intros q l c Hq Hc. destruct (HK q l Hq) as [[-> ->]|[[-> ->]|(Hqn & Hqp & Hq')]].
    - right; left. split_and!; [congruence|done|done].
    - rewrite elem_of_app, elem_of_cons in Hc. destruct (decide (c = new)) as [->|]; [by left|right; right].
      split_and!; [done| |done|].
      + intros HcM. destruct (Hap c HcM). tauto.
      + eexists. split; [exact Hp|]. rewrite !elem_of_app. tauto.
    - right; right. split_and!; [intros ->; by apply (new_not_kid q l)| |done|by exists l].
      intros HcM. apply Hqp. apply (kid_unique h K F q p l _ c Hq' Hp Hc). by apply M_in. }
  pose proof (fo_sorted _ _ F p _ Hp) as Hsort. apply StronglySorted_app in Hsort as (Ho1 & Hs1 & Hsort).
  apply StronglySorted_app in Hsort as (Ho2 & HsM & Hs3).
  destruct (lo_range _ _ _ L) as [? ?].
  split.
  - rewrite Hdom. apply F.
  - intros q. rewrite Hdom, HKd. intros [->|Hq]; [apply L|by apply (fo_dom _ _ F)].
  - intros q l Hq. destruct (HK q l Hq) as [[-> ->]|[[-> ->]|(Hqn & Hqp & Hq')]].
    + rewrite Hkid, decide_True by done. apply NoDup_app in HnM as (_ & Hmz & _). apply lseg_app. exists z. split.
      * apply (lseg_frame h); [done..|]. intros x Hx. assert (HxM : x ∈ M) by (rewrite elem_of_app; by left).
        rewrite Hsib, !decide_False; [done| |intros ->; apply (Hmz z Hx); left|congruence].
        intros Hsl%slot_sibling_in. by destruct (Hap x HxM).
      * cbn. rewrite Hdom. split_and!; [done|done|]. by rewrite Hsib, decide_False, decide_True by congruence.
    + apply (splice_here h h' K p new l1 M l3 [new] (fun x => x = new \/ x = z)); try done.
      * intros x Hx. rewrite Hsib, !decide_False by tauto. done.
      * intros x Hx. rewrite Hkid, decide_False; [done|]. intros ->. apply elem_of_dom in Hx as [? ?]. congruence.
      * cbn. split_and!; [done|rewrite Hdom; apply L|]. by rewrite Hsib, decide_True.
      * intros x Hx [->| ->]; [apply (new_not_kid p _ Hp); rewrite !elem_of_app in *; tauto|]. destruct (Hap z HzM). rewrite elem_of_app in Hx. tauto.
    + apply (splice_there h h' K p new l1 M l3 (fun x => x = new \/ x = z)); try done.
      * intros x Hx. rewrite Hsib, !decide_False by tauto. done.
      * intros x Hx. rewrite Hkid, decide_False; [done|]. intros ->. apply elem_of_dom in Hx as [? ?]. congruence.
      * intros x Hx [->| ->]; [by apply (new_not_kid q l)|]. apply Hqp. apply (kid_unique h K F q p l _ z Hq' Hp Hx). by apply M_in.
  - intros q l c Hq Hc. rewrite Hpar, HKd. destruct (Hcase q l c Hq Hc) as [[-> ->]|[(Hcn & HcM & ->)|(Hcn & HcM & _ & l0 & Hq0 & Hc0)]].
    + rewrite decide_True by done. split; [done|by left].
    + rewrite decide_False, decide_True by done. split; [done|right]. by apply (fo_parent _ _ F p _ c Hp), M_in.
    + rewrite !decide_False by done. destruct (fo_parent _ _ F q l0 c Hq0 Hc0). auto.
  - intros q l c Hq Hc. apply (inside_data h h' Hs).
    destruct (Hcase q l c Hq Hc) as [[-> ->]|[(Hcn & HcM & ->)|(_ & _ & _ & l0 & Hq0 & Hc0)]]; [done|by apply Hcov|by apply (fo_inside _ _ F q l0)].
  - intros q l Hq. apply (sorted_data h h' Hs). destruct (HK q l Hq) as [[-> ->]|[[-> ->]|(_ & _ & Hq')]];
      [done| |by apply (fo_sorted _ _ F q)].
    apply sorted_insert; [|done|done]. apply StronglySorted_app. split_and!; [|done|done].
    intros x y Hx Hy. apply Ho1; [done|]. rewrite elem_of_app. by right.
  - intros q Hq. apply (range_data h h' Hs). apply HKd in Hq as [->|Hq]; [lia|by apply (fo_range _ _ F)].
  - assert (HKp : put_over K p new l1 M l3 !! p = Some (l1 ++ new :: l3)) by (unfold put_over; rewrite lookup_insert_ne, lookup_insert_eq by done; done).
    intros c Hc. rewrite Hpar. apply HKd in Hc as [->|Hc].
    + rewrite decide_True by done. intros _. eexists. split; [exact HKp|]. rewrite elem_of_app. right. left.
    + rewrite decide_False by (intros ->; apply elem_of_dom in Hc as [? ?]; congruence). case_decide as HcM.
      * intros _. exists M. split; [|done]. apply lookup_insert_eq.
      * intros Hpc. destruct (fo_up _ _ F c Hc Hpc) as (l & Hl & Hcl). destruct (decide (rparent h c = p)) as [E|E].
        -- rewrite E. eexists. split; [exact HKp|]. rewrite E, Hp in Hl. injection Hl as <-.
           rewrite !elem_of_app in Hcl. rewrite elem_of_app, elem_of_cons. rewrite elem_of_app in HcM. tauto.
        -- exists l. unfold put_over. by rewrite !lookup_insert_ne by congruence.
  - destruct (fo_depth _ _ F) as [d Hd]. exists (fun x => if decide (x = new) then (2 * d p - 1)%nat else (2 * d x)%nat).
    pose proof (Hd p _ z Hp (M_in z HzM)).
    intros q l c Hq Hc. destruct (Hcase q l c Hq Hc) as [[-> ->]|[(Hcn & HcM & ->)|(Hcn & HcM & Hqn & l0 & Hq0 & Hc0)]].
    + rewrite decide_True, decide_False by done. lia.
    + rewrite decide_False, decide_True by done. pose proof (Hd p _ c Hp (M_in c HcM)). lia.
    + rewrite !decide_False by done. specialize (Hd q l0 c Hq0 Hc0). lia.
Qed.
End Adopt.

(** ** __insert_resource *)

Lemma insert_spec h K root new :
  forest h K -> root ∈ dom K -> loose h K new ->
  (exists h' p l1 M l3, __insert_resource h root new = Ret (h', 0) /\ K !! p = Some (l1 ++ M ++ l3) /\ same_data h h'
     /\ rstart h new <= rend h new /\ inside h new p /\ (forall x, x ∈ l1 -> before h x new)
     /\ (forall x, x ∈ M -> inside h x new) /\ (forall x, x ∈ l3 -> before h new x)
     /\ forest h' (put_over K p new l1 M l3) /\ rparent h' new = p)
  \/ (__insert_resource h root new = Ret (h, root) /\ ~ (rstart h new <= rend h new /\ inside h new root))
  \/ (exists c, __insert_resource h root new = Ret (h, c) /\ c ∈ dom K /\ overlaps h c new /\ ~ inside h c new /\ ~ inside h new c).
Proof.
  intros F Hroot L. destruct (fo_depth _ _ F) as [d Hd]. unfold __insert_resource.
  destruct (descend_spec h K new F L d Hd (fuel_of h) root [] Hroot) as (r & -> & Hend);
    [constructor|by intros v ?%not_elem_of_nil|unfold fuel_of; cbn; lia|]. cbn [obind].
  destruct Hend as [(h' & p & l1 & l2 & -> & Hp & Hr & Hi & Hb & Ha & Hpl)|[[-> Hbad]|(p & l1 & first & l2 & -> & Hp & Hr & Hi & Hb & Ho & Hcv)]].
  - left. exists h', p, l1, [], l2. destruct Hpl as (Hs & F' & Hpar & _).
    split_and!; try done; [by intros x ?%not_elem_of_nil|]. by rewrite Hpar, decide_True.
  - right; left. done.
  - pose proof (kids_fuel h K F p _ Hp) as Hfu. rewrite length_app in Hfu. cbn [length] in Hfu.
    assert (HfK : first ∈ l1 ++ first :: l2) by (rewrite elem_of_app; right; left).
    destruct (cover_loop_spec h K new p l2 l1 [] (fuel_of h) first F (lo_dom _ _ _ L) Hp) as
      [(m' & l4 & last & -> & Heq & Hin & Haft)|(c & -> & Hc & Hoc & Hni)]; [unfold fuel_of; lia|apply Ho|apply Ho|done|by intros x ?%not_elem_of_nil|..].
    + left. cbn [obind]. rewrite app_nil_l in Heq. rewrite Heq in Hp. replace first with (hd last m') by (destruct m'; by injection Heq).
      destruct (put_above_run h K p new last l1 m' l4 F L Hp) as (h' & -> & Had). exists h', p, l1, (m' ++ [last]), l4.
      split_and!; try done; [apply Had| |].
      * by apply (adopted_forest h K p new last l1 m' l4 F L Hp h' Had).
      * destruct Had as (_ & _ & _ & ->). by rewrite decide_True.
    + right; right. assert (HcK : c ∈ l1 ++ first :: l2) by (rewrite elem_of_app; by right).
      exists c. split_and!; try done; [by apply (fo_parent _ _ F p _ c Hp)|]. intros Hnc.
      apply elem_of_cons in Hc as [->|Hc]; [by apply Hcv|]. pose proof (fo_sorted _ _ F p _ Hp) as Hs.
      apply StronglySorted_app in Hs as (_ & _ & Hs). apply StronglySorted_inv in Hs as [_ Hf]. rewrite Forall_forall in Hf.
      specialize (Hf c Hc). unfold before, overlaps, inside in *. lia.
Qed.

(** Inserting and removing again, on the shape. *)
Lemma put_over_undo (K : shape) p new l1 M l3 :
  K !! p = Some (l1 ++ M ++ l3) -> K !! new = None -> delete new (<[p := l1 ++ M ++ l3]> (put_over K p new l1 M l3)) = K.
Proof.
  intros Hp Hn. apply map_eq. intros x. unfold put_over. rewrite lookup_delete, !lookup_insert. repeat case_decide; subst; congruence.
Qed.
