(* ===== verification/ResourceFind.v ===== *)
(** * The resource tree: finding room and allocating *)

From S2P Require Import Prelude Memblock Resource ResourceSpec ResourceRelease.
From stdpp Require Import base list numbers option gmap sorting.
#[local] Open Scope Z_scope.
#[local] Open Scope kernel_scope.

Implicit Types h : mem.

(** ** Alignment on 64 bits *)

(** Rounding up either wraps to something smaller, and then no aligned
    address follows, or yields the first aligned address. *)
Lemma ALIGN64_spec x k : is_u64 x -> 0 <= k < 64 ->
  (ALIGN64 x (2 ^ k) < x /\ forall s, x <= s < U64_MOD -> ~ (2 ^ k | s))
  \/ (x <= ALIGN64 x (2 ^ k) < U64_MOD /\ (2 ^ k | ALIGN64 x (2 ^ k)) /\ forall s, x <= s -> (2 ^ k | s) -> ALIGN64 x (2 ^ k) <= s).
Proof.
  intros Hx Hk. assert (H2 : 0 < 2 ^ k) by (apply Z.pow_pos_nonneg; lia).
  assert (Hd : (2 ^ k | U64_MOD)) by (exists (2 ^ (64 - k)); rewrite <- Z.pow_add_r, pow2_64 by lia; f_equal; lia).
  assert (H64 : 2 ^ k < U64_MOD) by (rewrite pow2_64; apply Z.pow_lt_mono_r; lia).
  change (ALIGN64 x (2 ^ k)) with (round_down (u64 (x + u64 (2 ^ k - 1))) (2 ^ k)).
  rewrite round_down_spec by (apply u64_range || lia). rewrite (u64_id (2 ^ k - 1)) by ulia.
  set (P := 2 ^ k) in *. set (y := x + (P - 1)). unfold is_u64 in Hx.
  pose proof (Z.div_mod y P ltac:(lia)). pose proof (Z.mod_pos_bound y P ltac:(lia)).
  assert (Hfirst : forall s, x <= s -> (P | s) -> y - y mod P <= s).
  { intros s Hs [c ->]. assert (y / P <= c); [|nia]. apply Z.lt_succ_r, Z.div_lt_upper_bound; [lia|]. unfold y. nia. }
  destruct Hd as [e He]. destruct (Z.lt_ge_cases y U64_MOD) as [Hlt|Hge].
  - right. rewrite (u64_id y) by (unfold is_u64, y in *; lia). split_and!; [unfold y in *; lia|unfold y in *; lia| |done].
    exists (y / P). lia.
  - left. assert (Hu : u64 y = y - U64_MOD).
    { unfold u64. symmetry. apply Z.mod_unique_pos with 1; unfold y in *; lia. }
    rewrite Hu, (Z.mod_small (y - U64_MOD) P) by (unfold y in *; lia). split; [unfold y in *; lia|].
    intros s Hs Hdiv. specialize (Hfirst s ltac:(lia) Hdiv).
    assert (U64_MOD <= y - y mod P); [|lia]. assert (e <= y / P); [|nia].
    apply Z.div_le_lower_bound; lia.
Qed.

(** ** One gap *)

Definition simple_rc (min max align : Z) : resource_constraint := mk_rc min max align simple_align_resource.

Lemma unset_cleared f : Z.land (Z.land f (u64 (Z.lnot IORESOURCE_UNSET))) IORESOURCE_UNSET = 0.
Proof.
  apply Z.bits_inj'. intros n Hn. rewrite !Z.land_spec, Z.bits_0, u64_bits, Z.lnot_spec by lia.
  by destruct (Z.testbit f n), (Z.testbit IORESOURCE_UNSET n), (n <? 64).
Qed.

Lemma bare_contains f a b s e : let g := Z.land f (u64 (Z.lnot IORESOURCE_UNSET)) in
  resource_contains (bare a b g) (bare s e g) = (a <=? s) && (e <=? b).
Proof. cbn zeta. unfold resource_contains. cbn -[Z.land u64 IORESOURCE_UNSET]. by rewrite Z.eqb_refl, unset_cleared. Qed.

Lemma resource_clip_eq a b min max : resource_clip (a, b) min max = (Z.max a min, Z.min b max).
Proof. unfold resource_clip. cbn. bdestr; cbn in *; bdestr; f_equal; lia. Qed.

(** A place for [size] bytes in the gap. *)
Definition fits (a b min max size align s : Z) : Prop :=
  (align | s) /\ Z.max a min <= s /\ s + size - 1 <= Z.min b max.

Lemma try_gap_spec flags a b size min max k :
  is_u64 a -> is_u64 b -> is_u64 min -> is_u64 max -> 1 <= size < U64_MOD -> 0 <= k < 64 ->
  match (try_gap flags a b size (simple_rc min max (2 ^ k))).2 with
  | Some (s, e) => e = s + size - 1 /\ fits a b min max size (2 ^ k) s
  | None => forall s, ~ fits a b min max size (2 ^ k) s
  end.
Proof.
  intros Ha Hb Hmin Hmax Hs Hk. unfold try_gap, fits. destruct (Z.ltb_spec b a); [cbn; lia|].
  rewrite resource_clip_eq. cbn [rc_min rc_max rc_align rc_alignf simple_rc simple_align_resource r_start r_end r_flags bare].
  set (a' := Z.max a min). set (b' := Z.min b max). assert (Ha' : is_u64 a') by (unfold is_u64, a' in *; lia).
  assert (Hb' : is_u64 b') by (unfold is_u64, b' in *; lia). unfold is_u64 in *.
  destruct (ALIGN64_spec a' k Ha' Hk) as [[Hlt Hno]|(Hge & Hdiv & Hfirst)]; unfold simple_align_resource; cbn [r_start bare].
  - destruct (Z.leb_spec a' (ALIGN64 a' (2 ^ k))); [lia|]. cbn. intros s (Hd & ? & ?). apply (Hno s); [lia|done].
  - set (s0 := ALIGN64 a' (2 ^ k)) in *. destruct (Z.leb_spec a' s0); [|lia]. rewrite bare_contains.
    destruct (Z.lt_ge_cases (s0 + size - 1) U64_MOD) as [Hlt|Hov].
    + rewrite (u64_id (s0 + size - 1)) by ulia. destruct (Z.leb_spec s0 (s0 + size - 1)); [|lia].
      destruct (Z.leb_spec s0 s0); [|lia]. destruct (Z.leb_spec (s0 + size - 1) b'); cbn; [split_and!; done || lia|].
      intros s (Hd & ? & ?). specialize (Hfirst s ltac:(lia) Hd). lia.
    + assert (Hu : u64 (s0 + size - 1) = s0 + size - 1 - U64_MOD) by (unfold u64; symmetry; apply Z.mod_unique_pos with 1; lia).
      rewrite Hu. destruct (Z.leb_spec s0 (s0 + size - 1 - U64_MOD)); [lia|]. cbn. intros s (Hd & ? & ?).
      specialize (Hfirst s ltac:(lia) Hd). lia.
Qed.

(** ** The search over all gaps *)

(** [s] is an aligned place for [size] bytes inside [root] and the limits that
    no child touches. *)
Definition room (h : mem) (root : Z) (l : list Z) (min max size align s : Z) : Prop :=
  fits (rstart h root) (rend h root) min max size align s
  /\ forall x, x ∈ l -> s + size - 1 < rstart h x \/ rend h x < s.

Section Find.
Context (h : mem) (K : shape) (root : Z) (l : list Z) (flags min max size k : Z).
Hypothesis F : forest h K.
Hypothesis Hk : K !! root = Some l.
Hypothesis Hmin : is_u64 min.
Hypothesis Hmax : is_u64 max.
Hypothesis Hsize : 1 <= size < U64_MOD.
Hypothesis Hal : 0 <= k < 64.
#[local] Abbreviation c := (simple_rc min max (2 ^ k)).
#[local] Abbreviation has_room := (room h root l min max size (2 ^ k)).

Definition answers (o : option (Z * Z)) : Prop :=
  match o with Some (s, e) => e = s + size - 1 /\ has_room s | None => forall s, ~ has_room s end.

Lemma find_loop_spec l2 : forall l1 t0 fuel,
  l = l1 ++ l2 -> is_u64 t0 -> rstart h root <= t0 -> (forall x, x ∈ l1 -> rend h x < t0) -> (forall x, x ∈ l2 -> 1 <= rstart h x) ->
  (forall s, has_room s -> t0 <= s) -> (length l2 < fuel)%nat ->
  exists o, find_loop fuel h root 0 flags (hd 0 l2) t0 size c = Ret o /\ answers o.
Proof using F Hk Hmin Hmax Hsize Hal.
  pose proof (in_dom h K F root l Hk) as Hrd. destruct (fo_range _ _ F root) as [Hrr Hrr2]; [apply elem_of_dom; by rewrite Hk|].
  induction l2 as [|t l2 IH]; intros l1 t0 fuel El Ht0 Hroot Hl1 Hl2 Hlow Hf; (destruct fuel as [|fuel]; [cbn in Hf; lia|]);
    cbn [find_loop hd]; rewrite (rd_dom h root Hrd); cbn [obind]; rewrite fld_at by done.
  - rewrite Z.eqb_refl. eexists. split; [done|].
    pose proof (try_gap_spec flags t0 (rend h root) size min max k Ht0 ltac:(ulia) Hmin Hmax Hsize Hal) as Ht.
    destruct ((try_gap _ _ _ _ _).2) as [[s e]|]; cbn in *.
    + destruct Ht as [-> (Hd & ? & ?)]. split; [done|]. split; [split_and!; [done|lia|lia]|].
      intros x Hx. rewrite El, app_nil_r in Hx. specialize (Hl1 x Hx). lia.
    + intros s Hs. apply (Ht s). pose proof (Hlow s Hs). destruct Hs as [(? & ? & ?) _]. split_and!; [done|lia|lia].
  - assert (Htl : t ∈ l) by (rewrite El, elem_of_app; right; left).
    pose proof (kid_dom h K F root l t Hk Htl) as Htd. pose proof (not_null h K F t Htd).
    destruct (Z.eqb_spec t 0); [done|]. rewrite (rd_dom h t Htd). cbn [obind]. rewrite !fld_at by done.
    destruct (fo_range _ _ F t) as [Htr Htr2]; [by apply (fo_parent _ _ F root l)|]. pose proof (fo_inside _ _ F root l t Hk Htl) as [Hi1 Hi2].
    pose proof (fo_sorted _ _ F root l Hk) as Hs. rewrite El, StronglySorted_app in Hs. destruct Hs as (_ & _ & Hs).
    apply StronglySorted_inv in Hs as [_ Hs]. rewrite Forall_forall in Hs. unfold before in Hs.
    assert (Hts : 1 <= rstart h t) by (apply Hl2; left). rewrite (u64_id (rstart h t - 1)) by ulia.
    pose proof (try_gap_spec flags t0 (rstart h t - 1) size min max k Ht0 ltac:(ulia) Hmin Hmax Hsize Hal) as Ht.
    destruct (try_gap _ _ _ _ _) as [t0' [[s e]|]]; cbn [snd] in Ht.
    + eexists. split; [done|]. destruct Ht as [-> (Hd & ? & ?)]. split; [done|]. split; [split_and!; [done|lia|lia]|].
      intros x Hx. rewrite El, elem_of_app, elem_of_cons in Hx. destruct Hx as [Hx|[->|Hx]];
        [specialize (Hl1 x Hx); lia|lia|specialize (Hs x Hx); lia].
    + assert (Hpast : forall s, has_room s -> rend h t + 1 <= s).
      { intros s Hr. pose proof (Hlow s Hr). destruct Hr as [(? & ? & ?) Hdis]. destruct (Hdis t Htl) as [?|?]; [|lia].
        exfalso. apply (Ht s). split_and!; [done|lia|lia]. }
      destruct (Z.eqb_spec (rend h t) (rend h root)) as [E|E].
      * eexists. split; [done|]. intros s Hr. pose proof (Hpast s Hr). destruct Hr as [(? & ? & ?) _]. lia.
      * cbn [negb]. rewrite (u64_id (rend h t + 1)) by ulia.
        assert (Hhd : rsib h t = hd 0 l2).
        { pose proof (fo_list _ _ F root l Hk) as Hl. rewrite El in Hl. apply lseg_app in Hl as (? & _ & Hl). cbn in Hl.
          destruct Hl as (_ & _ & Hl). by apply lseg_head in Hl. }
        rewrite Hhd. apply (IH (l1 ++ [t])); [by rewrite <- app_assoc|ulia|lia| | |done|cbn in Hf; lia].
        -- intros x [Hx|Hx]%elem_of_app; [specialize (Hl1 x Hx)|apply list_elem_of_singleton in Hx as ->]; [|lia].
           assert (before h x t); [|unfold before in *; lia]. pose proof (fo_sorted _ _ F root l Hk) as Hs'.
           rewrite El, StronglySorted_app in Hs'. apply Hs'; [done|left].
        -- intros x Hx. apply Hl2. by right.
Qed.

End Find.

(** Without a child that starts with [root] and ends with the address space
    the search is exact; with one it answers something. *)
Lemma find_spec h K root l flags min max size k :
  forest h K -> K !! root = Some l -> is_u64 min -> is_u64 max -> 1 <= size < U64_MOD -> 0 <= k < 64 ->
  exists o, find_resource h root flags size (simple_rc min max (2 ^ k)) = Ret o
    /\ (answers h root l min max size k o \/ exists t, l = [t] /\ rstart h t = rstart h root /\ rend h t = U64_MOD - 1 /\ rend h root = U64_MOD - 1
                     /\ match o with Some (s, e) => is_u64 s /\ is_u64 e | None => True end).
Proof.
  intros F Hk Hmin Hmax Hsize Hal.
  pose proof (in_dom h K F root l Hk) as Hrd. destruct (fo_range _ _ F root) as [Hrr Hrr2]; [apply elem_of_dom; by rewrite Hk|].
  pose proof (kids_fuel h K F root l Hk) as Hfu. pose proof (fo_list _ _ F root l Hk) as Hl.
  unfold find_resource, __find_resource. rewrite (rd_dom h root Hrd). cbn [obind]. rewrite !fld_at by done.
  assert (Hplain : (forall x, x ∈ l -> 1 <= rstart h x) ->
    exists o, find_loop (fuel_of h) h root 0 flags (rkid h root) (rstart h root) size (simple_rc min max (2 ^ k)) = Ret o
      /\ (answers h root l min max size k o \/ exists t, l = [t] /\ rstart h t = rstart h root /\ rend h t = U64_MOD - 1 /\ rend h root = U64_MOD - 1
                     /\ match o with Some (s, e) => is_u64 s /\ is_u64 e | None => True end)).
  { intros Hst. rewrite (lseg_head _ _ _ _ Hl). destruct (find_loop_spec h K root l flags min max size k F Hk Hmin Hmax Hsize Hal l [] (rstart h root) (fuel_of h)) as (o & E & Ho); try done.
    - ulia.
    - by intros x ?%not_elem_of_nil.
    - intros s [(_ & ? & _) _]. lia.
    - unfold fuel_of. lia.
    - exists o. split; [done|by left]. }
  destruct l as [|t l'].
  { cbn in Hl. rewrite Hl in *. apply Hplain. by intros x ?%not_elem_of_nil. }
  cbn in Hl. destruct Hl as (Et & Htd & Hl). rewrite Et in *. pose proof (not_null h K F t Htd). destruct (Z.eqb_spec t 0); [done|].
  assert (Htl : t ∈ t :: l') by left. destruct (fo_range _ _ F t) as [Htr Htr2]; [by apply (fo_parent _ _ F root _ t Hk)|].
  pose proof (fo_inside _ _ F root _ t Hk Htl) as [Hi1 Hi2]. pose proof (fo_sorted _ _ F root _ Hk) as Hs.
  apply StronglySorted_inv in Hs as [_ Hs]. rewrite Forall_forall in Hs. unfold before in Hs.
  rewrite (rd_dom h t Htd). cbn [obind]. rewrite !fld_at by done. destruct (Z.eqb_spec (rstart h t) (rstart h root)) as [E|E].
  - destruct (decide (rend h t = U64_MOD - 1)) as [Em|Em].
    + assert (Hl' : l' = []).
      { destruct l' as [|y l']; [done|]. specialize (Hs y ltac:(left)). destruct (fo_range _ _ F y); [|lia].
        apply (fo_parent _ _ F root _ y Hk). right; left. }
      subst l'. cbn in Hl. rewrite Hl. unfold fuel_of. cbn [find_loop]. rewrite (rd_dom h root Hrd). cbn [obind]. rewrite fld_at by done.
      eexists. split; [done|]. right. exists t. split_and!; try done; [lia|].
      pose proof (try_gap_spec flags (u64 (rend h t + 1)) (rend h root) size min max k (u64_range _) ltac:(ulia) Hmin Hmax Hsize Hal) as Ht.
      pose proof (u64_range (rend h t + 1)) as Hu. unfold is_u64 in *.
      destruct ((try_gap _ _ _ _ _).2) as [[s e]|]; [|done]. destruct Ht as [-> (? & ? & ?)]. lia.
    + rewrite (u64_id (rend h t + 1)) by ulia. rewrite (lseg_head _ _ _ _ Hl).
      destruct (find_loop_spec h K root _ flags min max size k F Hk Hmin Hmax Hsize Hal l' [t] (rend h t + 1) (fuel_of h)) as (o & Eo & Ho); [done|ulia|lia| | | |cbn in Hfu; unfold fuel_of; lia|].
      * intros x ->%list_elem_of_singleton. lia.
      * intros x Hx. specialize (Hs x Hx). lia.
      * intros s [(_ & ? & ?) Hdis]. destruct (Hdis t Htl); lia.
      * exists o. split; [done|by left].
  - apply Hplain. intros x [->|Hx]%elem_of_cons; [lia|]. specialize (Hs x Hx). lia.
Qed.

(** ** Allocating *)

Lemma alter_loose h K new f :
  forest h K -> loose h K new -> (forall r, r_child (f r) = r_child r) ->
  0 <= rstart (alter f new h) new < U64_MOD /\ 0 <= rend (alter f new h) new < U64_MOD ->
  forest (alter f new h) K /\ loose (alter f new h) K new.
Proof.
  intros F L Hc Hr. split.
  - apply (forest_frame h); [done|rewrite dom_alter_same; apply F|]. intros x Hx. rewrite lookup_alter_ne; [done|].
    intros <-. apply elem_of_dom in Hx as [? ?]. by rewrite (lo_out _ _ _ L) in *.
  - split; [rewrite dom_alter_same; apply L|apply L| |done]. rewrite fld_alter_other by done. apply L.
Qed.

Lemma range_after h new s e : new ∈ dom h ->
  rstart (alter (set_range s e) new h) new = s /\ rend (alter (set_range s e) new h) new = e.
Proof.
  intros Hd. rewrite (fld_alter_set r_start _ _ _ _ s), (fld_alter_set r_end _ _ _ _ e) by done. by rewrite !decide_True.
Qed.

Lemma allocate_spec h K root l new size min max k :
  forest h K -> K !! root = Some l -> loose h K new -> rparent h new = 0 ->
  is_u64 min -> is_u64 max -> 1 <= size < U64_MOD -> 0 <= k < 64 ->
  (exists h' s l1 l2, allocate_resource h root new size min max (2 ^ k) None = Ret (h', 0) /\ room h root l min max size (2 ^ k) s
     /\ l = l1 ++ l2 /\ rstart h' new = s /\ rend h' new = s + size - 1
     /\ same_data (alter (set_range s (s + size - 1)) new h) h' /\ forest h' (add_child K root new l1 l2))
  \/ (exists h', allocate_resource h root new size min max (2 ^ k) None = Ret (h', - EBUSY)
     /\ (forall s, ~ room h root l min max size (2 ^ k) s)
     /\ forest h' K /\ forall x, x <> new -> h' !! x = h !! x).
Proof.
  intros F Hk L Hp0 Hmin Hmax Hsize Hal. pose proof (lo_dom _ _ _ L) as Hn.
  unfold allocate_resource. rewrite (rd_dom h new Hn). cbn [obind]. rewrite !fld_at, Hp0 by done. cbn [Z.eqb negb].
  change (mk_rc min max (2 ^ k) (default simple_align_resource None)) with (simple_rc min max (2 ^ k)).
  destruct (find_spec h K root l (rflags h new) min max size k F Hk Hmin Hmax Hsize Hal) as (o & -> & Ho). cbn [obind].
  destruct o as [[s e]|].
  2:{ right. exists h. split; [done|]. split; [|by split]. destruct Ho as [Ho|(t & -> & Hs & He & Hre & _)]; [exact Ho|].
      intros s [(_ & ? & ?) Hdis]. destruct (Hdis t); [left|lia|lia]. }
  rewrite (upd_dom h new _ Hn). cbn [obind]. set (h1 := alter (set_range s e) new h).
  destruct (range_after h new s e Hn) as [Es Ee]. fold h1 in Es, Ee.
  assert (Hother : forall x, x <> new -> h1 !! x = h !! x) by (intros; by apply lookup_alter_ne).
  assert (Hne : forall x, x ∈ dom K -> x <> new) by (intros x Hx ->; apply elem_of_dom in Hx as [? ?]; by rewrite (lo_out _ _ _ L) in *).
  assert (Hf1 : forall g x, x ∈ dom K -> fld g h1 x = fld g h x) by (intros g x Hx; unfold fld; rewrite Hother; auto).
  assert (Hrk : root ∈ dom K) by (apply elem_of_dom; by rewrite Hk). destruct (fo_range _ _ F root Hrk) as [Hrr Hrr2].
  assert (Hu : is_u64 s /\ is_u64 e).
  { destruct Ho as [[-> [(_ & ? & ?) _]]|(t & _ & _ & _ & _ & ?)]; [|done]. unfold is_u64 in *. lia. }
  destruct (alter_loose h K new (set_range s e) F L) as [F1 L1]; [done|fold h1; rewrite Es, Ee; apply Hu|]. fold h1 in F1, L1.
  destruct (request_spec h1 K root new l F1 Hk L1) as
    [(h' & l1 & l2 & E & Hr & Hi & Hl & Hb & Ha & Hs & F' & _)|[[E Hbad]|(c & l1 & l2 & E & Hr & Hi & Hl & Hb & Hov)]]; rewrite E; cbn [obind].
  - destruct Ho as [[-> Hroom]|(t & -> & Hst & Het & Hre & _)].
    + left. exists h', s, l1, l2. destruct (same_data_fld h1 h' Hs new) as (E1 & E2 & _). rewrite E1, E2. split_and!; try done; apply Hroom.
    + exfalso. unfold inside in Hi. rewrite !(Hf1 _ root Hrk), Es, Ee in Hi. rewrite Es, Ee in Hr.
      assert (Ht : t ∈ l1 \/ t ∈ l2) by (apply elem_of_app; rewrite <- Hl; left).
      assert (HtK : t ∈ dom K) by (apply (fo_parent _ _ F root [t] t Hk); left). unfold is_u64 in Hu.
      destruct Ht as [Ht|Ht]; [specialize (Hb t Ht)|specialize (Ha t Ht)]; unfold before in *; rewrite !(Hf1 _ t HtK), ?Es, ?Ee in *; lia.
  - right. pose proof (not_null h K F root (in_dom h K F root l Hk)). destruct (Z.eqb_spec root 0); [done|]. cbn [negb].
    exists h1. split; [done|]. split; [|done]. destruct Ho as [[-> Hroom]|(t & -> & Hst & Het & Hre & _)].
    + exfalso. apply Hbad. unfold inside. rewrite !(Hf1 _ root Hrk), Es, Ee. destruct Hroom as [(_ & ? & ?) _]. lia.
    + intros s' [(_ & ? & ?) Hdis]. destruct (Hdis t); [left|lia|lia].
  - right. assert (HcK : c ∈ dom K) by (apply (fo_parent _ _ F root l c Hk); rewrite Hl, elem_of_app; right; left).
    pose proof (not_null h K F c (fo_dom _ _ F c HcK)). destruct (Z.eqb_spec c 0); [done|]. cbn [negb].
    exists h1. split; [done|]. split; [|done]. destruct Ho as [[-> Hroom]|(t & -> & Hst & Het & Hre & _)].
    + exfalso. unfold overlaps in Hov. rewrite !(Hf1 _ c HcK), Es, Ee in Hov. destruct Hroom as [_ Hdis].
      destruct (Hdis c); [rewrite Hl, elem_of_app; right; left|lia|lia].
    + intros s' [(_ & ? & ?) Hdis]. destruct (Hdis t); [left|lia|lia].
Qed.

(** * The resource tree: changing a range *)

Lemma kids_inside_spec h start end_ (ks : list Z) : forall a fuel,
  lseg h a 0 ks -> 0 ∉ dom h -> (length ks < fuel)%nat ->
  exists b, kids_inside fuel h a start end_ = Ret b
    /\ (b = true <-> forall c, c ∈ ks -> start <= rstart h c /\ rend h c <= end_).
Proof.
  induction ks as [|x ks IH]; intros a fuel Hl H0 Hf; (destruct fuel as [|fuel]; [cbn in Hf; lia|]); cbn [kids_inside].
  - cbn in Hl. rewrite Hl. exists true. split; [done|]. split; [by intros _ c ?%not_elem_of_nil|done].
  - cbn in Hl. destruct Hl as (-> & Hx & Hl). destruct (Z.eqb_spec x 0) as [->|_]; [done|].
    rewrite (rd_dom h x Hx). cbn [obind]. rewrite !fld_at by done.
    assert (Hno : (rstart h x < start \/ end_ < rend h x) ->
      exists b, Ret false = Ret b /\ (b = true <-> forall c, c ∈ x :: ks -> start <= rstart h c /\ rend h c <= end_)).
    { intros Hbad. exists false. split; [done|]. split; [done|]. intros Hall. specialize (Hall x ltac:(left)). lia. }
    destruct (Z.ltb_spec (rstart h x) start); cbn [orb]; [apply Hno; lia|].
    destruct (Z.ltb_spec end_ (rend h x)); cbn [orb]; [apply Hno; lia|].
    destruct (IH (rsib h x) fuel Hl H0 ltac:(cbn in Hf; lia)) as (b & -> & Hb). exists b. split; [done|]. rewrite Hb.
    split; [intros Hall c [->|Hc]%elem_of_cons; [lia|by apply Hall]|intros Hall c Hc; apply Hall; by right].
Qed.

(** The conditions of __adjust_resource(). *)
Definition adjustable (h : mem) (K : shape) (res start end_ : Z) : Prop :=
  (rparent h res <> 0 -> rstart h (rparent h res) <= start /\ end_ <= rend h (rparent h res)
     /\ forall l1 l2, K !! rparent h res = Some (l1 ++ res :: l2) ->
          (forall x, x ∈ l1 -> rend h x < start) /\ (forall x, x ∈ l2 -> end_ < rstart h x))
  /\ forall ks c, K !! res = Some ks -> c ∈ ks -> start <= rstart h c /\ rend h c <= end_.

Section Adjust.
Context (h : mem) (K : shape) (res start size : Z).
Hypothesis F : forest h K.
Hypothesis Hres : res ∈ dom K.
Hypothesis Hstart : 0 <= start.
Hypothesis Hsize : 1 <= size.
Hypothesis Hend : start + size <= U64_MOD.
#[local] Abbreviation end_ := (start + size - 1).
#[local] Abbreviation h' := (alter (set_range start end_) res h).

Lemma res_dom : res ∈ dom h.
Proof using F Hres. by apply (fo_dom _ _ F). Qed.

Lemma adj_start x : rstart h' x = if decide (x = res) then start else rstart h x.
Proof using F Hres. apply fld_alter_set; [done|apply res_dom]. Qed.

Lemma adj_end x : rend h' x = if decide (x = res) then end_ else rend h x.
Proof using F Hres. apply fld_alter_set; [done|apply res_dom]. Qed.

Lemma adjust_forest : adjustable h K res start end_ -> forest h' K.
Proof using F Hres Hstart Hsize Hend.
  intros [Hup Hdown].
  assert (Hsib : forall x, rsib h' x = rsib h x) by (intros; by apply fld_alter_other).
  assert (Hkid : forall x, rkid h' x = rkid h x) by (intros; by apply fld_alter_other).
  assert (Hpar : forall x, rparent h' x = rparent h x) by (intros; by apply fld_alter_other).
  assert (Hdom : dom h' = dom h) by apply dom_alter_same.
  split.
  - rewrite Hdom. apply F.
  - rewrite Hdom. apply F.
  - intros p l Hp. rewrite Hkid. apply (lseg_frame h); [by apply (fo_list _ _ F)|done|done].
  - intros p l c. rewrite Hpar. apply F.
  - intros p l c Hp Hc. unfold inside. rewrite !adj_start, !adj_end. pose proof (fo_inside _ _ F p l c Hp Hc) as Hi. unfold inside in Hi.
    destruct (decide (c = res)) as [->|Hcr], (decide (p = res)) as [->|Hpr]; [lia| |specialize (Hdown l c Hp Hc); lia|done].
    destruct (fo_parent _ _ F p l res Hp Hc) as [Ep _]. rewrite Ep in Hup.
    pose proof (not_null h K F p (in_dom h K F p l Hp)). destruct Hup as (? & ? & _); [done|]. lia.
  - intros p l Hp. pose proof (fo_sorted _ _ F p l Hp) as Hs. destruct (decide (res ∈ l)) as [Hin|Hno].
    + destruct (fo_parent _ _ F p l res Hp Hin) as [Ep _]. rewrite Ep in Hup. pose proof (not_null h K F p (in_dom h K F p l Hp)) as Hp0.
      destruct (Hup Hp0) as (_ & _ & Hsb). pose proof (kids_nodup h K F p l Hp) as Hnd. apply list_elem_of_split in Hin as (l1 & l2 & ->).
      destruct (Hsb l1 l2 Hp) as [H1 H2]. apply NoDup_app in Hnd as (_ & Hn1 & Hn2). apply list.NoDup_cons in Hn2 as [Hn2 _].
      assert (Hr1 : forall x, x ∈ l1 -> x <> res) by (intros x Hx ->; apply (Hn1 res Hx); left).
      assert (Hr2 : forall x, x ∈ l2 -> x <> res) by (intros x Hx ->; done).
      assert (Hold : forall l0 : list Z, (forall x, x ∈ l0 -> x <> res) -> StronglySorted (before h) l0 -> StronglySorted (before h') l0).
      { clear -F Hres. intros l0 Hne Hl. induction Hl as [|x l0 Hl IH Hx]; constructor; [apply IH; intros; apply Hne; by right|].
        rewrite Forall_forall in *. intros y Hy. unfold before. rewrite adj_start, adj_end, !decide_False; [by apply Hx|apply Hne; first [left|by right]..]. }
      apply StronglySorted_app in Hs as (H12 & Hs1 & Hs2). apply StronglySorted_inv in Hs2 as [Hs2 _].
      apply sorted_insert; [apply StronglySorted_app; split_and!; [|by apply Hold..]| |].
      * intros x y Hx Hy. unfold before. rewrite adj_start, adj_end, !decide_False by auto. apply H12; [done|by right].
      * intros x Hx. unfold before. rewrite adj_start, adj_end, (decide_True (P := res = res)), (decide_False (P := x = res)) by auto. by apply H1.
      * intros x Hx. unfold before. rewrite adj_start, adj_end, (decide_True (P := res = res)), (decide_False (P := x = res)) by auto. by apply H2.
    + clear Hp. induction Hs as [|x l Hl IH Hx]; constructor; [apply IH; intros ?; apply Hno; by right|].
      rewrite Forall_forall in *. intros y Hy. unfold before. rewrite adj_start, adj_end, !decide_False; [by apply Hx|intros ->; apply Hno; first [left|by right]..].
  - intros p Hp. rewrite adj_start, adj_end. case_decide; [lia|by apply (fo_range _ _ F)].
  - intros c. rewrite Hpar. apply F.
  - apply F.
Qed.

(** The last part, once the neighbours leave room. *)
Lemma adjust_skip_spec (up : Prop) ks :
  K !! res = Some ks -> up ->
  (up -> (forall c, c ∈ ks -> start <= rstart h c /\ rend h c <= end_) -> adjustable h K res start end_) ->
  (adjust_skip h res start end_ = Ret (h', 0) /\ adjustable h K res start end_)
  \/ (adjust_skip h res start end_ = Ret (h, - EBUSY) /\ ~ adjustable h K res start end_).
Proof using F Hres.
  intros Hks Hu Hadj. unfold adjust_skip. rewrite (rd_dom h res res_dom). cbn [obind]. rewrite fld_at by apply res_dom.
  destruct (kids_inside_spec h start end_ ks (rkid h res) (fuel_of h)) as (b & -> & Hb);
    [by apply (fo_list _ _ F)|apply F|pose proof (kids_fuel h K F res ks Hks); unfold fuel_of; lia|]. cbn [obind].
  destruct b.
  - left. rewrite (upd_dom h res _ res_dom). cbn [obind]. split; [done|]. apply Hadj; [done|]. by apply Hb.
  - right. split; [done|]. intros [_ Hd]. assert (false = true); [|done]. apply Hb. intros c Hc. by apply (Hd ks).
Qed.

Lemma adjust_spec :
  (adjust_resource h res start size = Ret (h', 0) /\ adjustable h K res start end_)
  \/ (adjust_resource h res start size = Ret (h, - EBUSY) /\ ~ adjustable h K res start end_).
Proof using F Hres Hstart Hsize Hend.
  pose proof Hres as [ks Hks]%elem_of_dom. unfold adjust_resource, __adjust_resource. rewrite (rd_dom h res res_dom). cbn [obind].
  rewrite !fld_at by apply res_dom. rewrite (u64_id end_) by ulia. destruct (Z.eqb_spec (rparent h res) 0) as [Ep|Hp].
  { apply (adjust_skip_spec True ks); [done|done|]. intros _ Hall. split; [done|]. intros ks' c Hks' Hc.
    rewrite Hks in Hks'. injection Hks' as <-. by apply Hall. }
  destruct (fo_up _ _ F res Hres Hp) as (l & Hl & Hin). set (q := rparent h res) in *.
  rewrite (rd_dom h q) by (by apply (in_dom h K F q l)). cbn [obind]. rewrite !fld_at by (by apply (in_dom h K F q l)).
  assert (Hno : ~ adjustable h K res start end_ ->
    (Ret (h, - EBUSY) = Ret (h', 0) /\ adjustable h K res start end_) \/ (Ret (h, - EBUSY) = Ret (h, - EBUSY) /\ ~ adjustable h K res start end_)) by (by right).
  destruct (Z.ltb_spec start (rstart h q)); cbn [orb]; [apply Hno; intros [Hu _]; destruct (Hu Hp) as (? & _); unfold q in *; lia|].
  destruct (Z.ltb_spec (rend h q) end_); cbn [orb]; [apply Hno; intros [Hu _]; destruct (Hu Hp) as (_ & ? & _); unfold q in *; lia|].
  pose proof (kids_nodup h K F q l Hl) as Hnd. apply list_elem_of_split in Hin as (l1 & l2 & ->).
  pose proof (fo_list _ _ F q _ Hl) as Hseg. apply lseg_app in Hseg as (c & Hseg1 & Hseg2). cbn in Hseg2. destruct Hseg2 as (-> & _ & Hseg2).
  pose proof (fo_sorted _ _ F q _ Hl) as Hs. apply StronglySorted_app in Hs as (_ & Hs1 & Hs2). apply StronglySorted_inv in Hs2 as [Hs2 _].
  assert (Hrange : forall x, x ∈ l1 ++ res :: l2 -> rstart h x <= rend h x).
  { intros x Hx. destruct (fo_range _ _ F x); [by apply (fo_parent _ _ F q _ x Hl)|lia]. }
  assert (Huniq : forall la lb, K !! q = Some (la ++ res :: lb) -> la = l1 /\ lb = l2).
  { intros la lb E. rewrite Hl in E. injection E as E. by apply (nodup_split res). }
  assert (Hl2 : (l2 = [] \/ end_ < rstart h (hd 0 l2)) <-> forall x, x ∈ l2 -> end_ < rstart h x).
  { destruct l2 as [|y l2]; [split; [by intros _ x ?%not_elem_of_nil|by left]|]. cbn [hd]. split; [|intros Hall; right; apply Hall; left].
    intros [?|Hy]; [done|]. intros x [->|Hx]%elem_of_cons; [done|]. apply StronglySorted_inv in Hs2 as [_ Hf]. rewrite Forall_forall in Hf.
    specialize (Hf x Hx). unfold before in Hf. pose proof (Hrange y). rewrite elem_of_app, !elem_of_cons in *. specialize (H1 ltac:(tauto)). lia. }
  assert (Hl1 : (l1 = [] \/ exists l0 x, l1 = l0 ++ [x] /\ rend h x < start) <-> forall x, x ∈ l1 -> rend h x < start).
  { split; [|intros Hall; destruct l1 as [|x l0 _] using rev_ind; [by left|right]; exists l0, x; split; [done|]; apply Hall; rewrite elem_of_app; right; left].
    intros [->|(l0 & x & -> & Hx)]; [by intros x ?%not_elem_of_nil|]. intros y [Hy|Hy]%elem_of_app; [|by apply list_elem_of_singleton in Hy as ->].
    apply StronglySorted_app in Hs1 as (Hs1 & _ & _). specialize (Hs1 y x Hy ltac:(left)). unfold before in Hs1.
    pose proof (Hrange x) as Hr. rewrite !elem_of_app, list_elem_of_singleton in Hr. specialize (Hr ltac:(tauto)). lia. }
  assert (Hiff : adjustable h K res start end_ <-> (forall x, x ∈ l1 -> rend h x < start) /\ (forall x, x ∈ l2 -> end_ < rstart h x)
     /\ forall c, c ∈ ks -> start <= rstart h c /\ rend h c <= end_).
  { split.
    - intros [Hu Hd]. destruct (Hu Hp) as (_ & _ & Hu'). destruct (Hu' l1 l2 Hl). split_and!; [done..|]. intros c. by apply (Hd ks).
    - intros (H1 & H2 & H3). split; [|intros ks' c Hks'; rewrite Hks in Hks'; injection Hks' as <-; apply H3].
      intros _. fold q. split_and!; [lia|lia|]. intros la lb E. destruct (Huniq la lb E) as [-> ->]. done. }
  apply lseg_head in Hseg2. rewrite Hseg2.
  assert (Hnext : (if hd 0 l2 =? 0 then Ret false else let! y := rd h (hd 0 l2) in Ret (r_start y <=? end_))
    = Ret (if decide (l2 = [] \/ end_ < rstart h (hd 0 l2)) then false else true)).
  { destruct l2 as [|y l2]; [done|]. cbn [hd]. assert (Hyd : y ∈ dom h) by (apply (kid_dom h K F q _ y Hl); rewrite elem_of_app; right; right; left).
    destruct (Z.eqb_spec y 0) as [->|_]; [by destruct (fo_null _ _ F)|]. rewrite (rd_dom h y Hyd). cbn [obind]. rewrite fld_at by done.
    f_equal. case_decide as E; destruct (Z.leb_spec (rstart h y) end_); try done; [destruct E; [done|lia]|exfalso; apply E; right; lia]. }
  rewrite Hnext. cbn [obind]. case_decide as E2; [|apply Hno; rewrite Hiff, <- Hl2; tauto]. pose proof (proj1 Hl2 E2) as E2'.
  assert (Hskip : (forall x, x ∈ l1 -> rend h x < start) -> (adjust_skip h res start end_ = Ret (h', 0) /\ adjustable h K res start end_)
    \/ (adjust_skip h res start end_ = Ret (h, - EBUSY) /\ ~ adjustable h K res start end_)).
  { intros E1. apply (adjust_skip_spec True ks); [done|done|]. intros _ Hall. by apply Hiff. }
  destruct l1 as [|x l0 _] using rev_ind.
  - cbn in Hseg1. rewrite Hseg1, Z.eqb_refl. cbn [negb]. apply Hskip. by intros x ?%not_elem_of_nil.
  - assert (Hxd : x ∈ dom h) by (apply (kid_dom h K F q _ x Hl); rewrite !elem_of_app; left; right; left).
    apply NoDup_app in Hnd as (_ & Hnd & _). assert (Hrn : res ∉ l0 ++ [x]) by (intros Hr; apply (Hnd res Hr); left).
    destruct (Z.eqb_spec (rkid h q) res) as [E|_]; cbn [negb].
    { exfalso. apply Hrn. rewrite <- E, (lseg_head _ _ _ _ Hseg1). destruct l0; left. }
    rewrite (find_prev_spec h res x l0 (rkid h q) (fuel_of h) Hseg1 Hrn).
    2:{ pose proof (kids_fuel h K F q _ Hl) as Hf. rewrite !length_app in Hf. unfold fuel_of. lia. }
    cbn [obind]. rewrite (rd_dom h x Hxd). cbn [obind]. rewrite fld_at by done. destruct (Z.leb_spec start (rend h x)).
    + apply Hno. rewrite Hiff. intros [H1' _]. specialize (H1' x). rewrite elem_of_app, list_elem_of_singleton in H1'. specialize (H1' ltac:(tauto)). lia.
    + apply Hskip, Hl1. right. by exists l0, x.
Qed.
End Adjust.
