(* ===== verification/ResourceRegion.v ===== *)
(** * The resource tree: regions with resources of their own

    reserve_region_with_split() over alloc_resource() and free_resource(). *)

From S2P Require Import Prelude Memblock Resource ResourceSpec ResourceFind.
From stdpp Require Import base list numbers option gmap sorting.
#[local] Open Scope Z_scope.
#[local] Open Scope kernel_scope.

Implicit Types h : mem.
Implicit Types st : res_state.

(** What the resource tree relies on: kzalloc() returns NULL or an address
    that holds no resource. *)
Definition kzalloc_fresh (kzalloc : res_state -> Z) : Prop :=
  forall st, kzalloc st = 0 \/ (kzalloc st <> 0 /\ kzalloc st ∉ dom (rs_mem st)).

(** The forest, the free entries from boot memory and the resources [O] being
    worked on do not meet. *)
Record res_ok st (K : shape) (O : list Z) : Prop := {
  ro_forest : forest (rs_mem st) K;
  ro_loose : forall x, x ∈ O -> loose (rs_mem st) K x;
  ro_pool : exists bl, lseg (rs_mem st) (bootmem_resource_free st) 0 bl /\ NoDup bl
              /\ forall x, x ∈ bl -> (x ∉ dom K) /\ (x ∉ O)
}.

Lemma loose_zero h K r : h !! r = Some zeroed -> K !! r = None -> loose h K r.
Proof.
  intros E Hk. split; [apply elem_of_dom; by rewrite E|done|unfold fld; by rewrite E|]. unfold fld. rewrite E. by cbn.
Qed.

Lemma loose_frame h h' K K' r : loose h K r -> h' !! r = h !! r -> K' !! r = None -> loose h' K' r.
Proof.
  intros L E Hk. destruct L as [Hd _ Hkid Hr]. unfold fld in *. split; unfold fld; rewrite ?E; try done.
  apply elem_of_dom. rewrite E. by apply elem_of_dom.
Qed.

Section Pool.
Context (kzalloc : res_state -> Z) (is_slab : Z -> bool).
Hypothesis Hfresh : kzalloc_fresh kzalloc.

(** Writing at an address outside the forest and the pool. *)
Lemma write_ok st K O r f (h' : mem) b' :
  res_ok st K O -> K !! r = None -> 0 ∉ dom h' -> (forall x, x <> r -> h' !! x = rs_mem st !! x) ->
  (exists bl, lseg h' b' 0 bl /\ NoDup bl /\ forall x, x ∈ bl -> (x ∉ dom K) /\ (x ∉ f)) ->
  (forall x, x ∈ f -> x = r /\ loose h' K r \/ x ∈ O /\ x <> r) ->
  res_ok (mk_rs h' b') K f.
Proof.
  intros [F L P] Hr H0 Hx Hp Hf. split; [|intros x Hin; cbn|done].
  - apply (forest_frame (rs_mem st)); [done..|]. intros x Hin. apply Hx. intros ->. apply elem_of_dom in Hin as [? ?]. congruence.
  - destruct (Hf x Hin) as [[-> ?]|[HO Hne]]; [done|]. apply (loose_frame (rs_mem st) h' K); [by apply L|by apply Hx|by apply L].
Qed.

Lemma alloc_resource_spec st K O :
  res_ok st K O ->
  exists st' r, alloc_resource kzalloc st = Ret (st', r)
    /\ (r = 0 /\ st' = st /\ kzalloc st = 0
        \/ r <> 0 /\ res_ok st' K (r :: O) /\ (r ∉ O) /\ (r ∉ dom K) /\ (forall x, x <> r -> rs_mem st' !! x = rs_mem st !! x)).
Proof using Hfresh.
  intros Hok. pose proof Hok as [F L (bl & Hl & Hn & Hb)]. unfold alloc_resource. set (h := rs_mem st) in *.
  assert (Hins : forall r, r <> 0 -> 0 ∉ dom (<[r := zeroed]> h)).
  { intros r Hr. rewrite dom_insert_L, elem_of_union, elem_of_singleton. intros [?|?]; [done|]. by apply (fo_null _ _ F). }
  assert (Hoth : forall r x, x <> r -> <[r := zeroed]> h !! x = h !! x) by (intros; by apply lookup_insert_ne).
  destruct bl as [|r bl].
  - cbn in Hl. rewrite Hl. cbn [Z.eqb negb]. destruct (Z.eqb_spec (kzalloc st) 0) as [E|E].
    { exists st, 0. split; [done|]. by left. }
    destruct (Hfresh st) as [?|[_ Hd]]; [done|]. set (r := kzalloc st) in *.
    assert (HrK : r ∉ dom K) by (intros Hin; by apply Hd, (fo_dom _ _ F)).
    assert (HrO : r ∉ O) by (intros Hin; by apply Hd, L).
    eexists _, r. split; [done|]. right. split_and!; try done; [|by apply Hoth].
    apply (write_ok st K O r (r :: O) _ _ Hok); [by apply not_elem_of_dom|by apply Hins|by apply Hoth| |].
    + exists []. split_and!; [done|constructor|by intros x ?%not_elem_of_nil].
    + intros x [->|Hx]%elem_of_cons; [left; split; [done|]; apply loose_zero; [apply lookup_insert_eq|by apply not_elem_of_dom]|right].
      split; [done|]. by intros ->.
  - cbn in Hl. destruct Hl as (Er & Hd & Hl). rewrite Er. apply list.NoDup_cons in Hn as [Hnr Hn]. destruct (Hb r) as [HrK HrO]; [left|].
    assert (Hr0 : r <> 0) by (intros ->; by apply (fo_null _ _ F)). destruct (Z.eqb_spec r 0); [done|]. cbn [negb].
    rewrite (rd_dom h r Hd). cbn [obind]. rewrite fld_at by done. eexists _, r. split; [done|]. right. split_and!; try done; [|by apply Hoth].
    apply (write_ok st K O r (r :: O) _ _ Hok); [by apply not_elem_of_dom|by apply Hins|by apply Hoth| |].
    + exists bl. split_and!; [|done|].
      * apply (lseg_frame_sub h); [done|]. intros x Hx. apply Hoth. by intros ->.
      * intros x Hx. destruct (Hb x) as [? HxO]; [by right|]. split; [done|]. apply not_elem_of_cons. split; [by intros ->|done].
    + intros x [->|Hx]%elem_of_cons; [left; split; [done|]; apply loose_zero; [apply lookup_insert_eq|by apply not_elem_of_dom]|right].
      split; [done|]. by intros ->.
Qed.

Lemma free_resource_spec st K O r :
  res_ok st K (r :: O) -> r ∉ O ->
  exists st', free_resource is_slab st r = Ret st' /\ res_ok st' K O /\ (forall x, x <> r -> rs_mem st' !! x = rs_mem st !! x).
Proof.
  intros Hok HrO. pose proof Hok as [F L (bl & Hl & Hn & Hb)]. unfold free_resource. set (h := rs_mem st) in *.
  assert (Lr : loose h K r) by (apply L; left). pose proof (lo_dom _ _ _ Lr) as Hd. pose proof (not_null h K F r Hd) as Hr0.
  destruct (Z.eqb_spec r 0); [done|].
  assert (Hbl : forall x, x ∈ bl -> x <> r) by (intros x Hx ->; destruct (Hb r Hx) as [_ HH]; apply HH; left).
  assert (HO : forall x, x ∈ O -> x = r /\ loose h K r \/ x ∈ r :: O /\ x <> r).
  { intros x Hx. right. split; [by right|]. by intros ->. }
  destruct (is_slab r); cbn [negb].
  - eexists. split; [done|]. split; [|intros x Hx; by apply lookup_delete_ne].
    apply (write_ok st K (r :: O) r O _ _ Hok); [apply Lr| |intros x Hx; by apply lookup_delete_ne| |].
    + rewrite dom_delete_L. intros Hin. apply elem_of_difference in Hin as [? _]. by apply (fo_null _ _ F).
    + exists bl. split_and!; [apply (lseg_frame_sub h); [done|]; intros x Hx; apply lookup_delete_ne, not_eq_sym; auto|done|].
      intros x Hx. destruct (Hb x Hx) as [? HH]. split; [done|]. intros ?. apply HH. by right.
    + intros x Hx. destruct (HO x Hx) as [[-> _]|?]; [done|by right].
  - rewrite (upd_dom h r _ Hd). cbn [obind]. set (h1 := alter _ r h). eexists. split; [done|].
    assert (Hoth : forall x, x <> r -> h1 !! x = h !! x) by (intros; by apply lookup_alter_ne). split; [|done].
    assert (HrK : r ∉ dom K) by (apply not_elem_of_dom, Lr).
    apply (write_ok st K (r :: O) r O _ _ Hok); [apply Lr|unfold h1; rewrite dom_alter_same; apply F|done| |].
    + exists (r :: bl). split_and!.
      * cbn. unfold h1. rewrite dom_alter_same, (fld_alter_set _ _ _ _ _ (bootmem_resource_free st)), decide_True by done.
        split_and!; [done|done|]. apply (lseg_frame_sub h); [done|]. intros x Hx. apply Hoth. auto.
      * constructor; [intros Hx; by apply (Hbl r Hx)|done].
      * intros x [->|Hx]%elem_of_cons; [done|]. destruct (Hb x Hx) as [? HH]. split; [done|]. intros ?. apply HH. by right.
    + intros x Hx. destruct (HO x Hx) as [[-> _]|?]; [done|by right].
Qed.

(** Setting fields of a resource being worked on. *)
Lemma edit_ok st K O r f :
  res_ok st K O -> r ∈ O -> (forall r, r_child (f r) = r_child r) ->
  (let h' := alter f r (rs_mem st) in 0 <= rstart h' r < U64_MOD /\ 0 <= rend h' r < U64_MOD) ->
  res_ok (with_mem st (alter f r (rs_mem st))) K O.
Proof.
  intros Hok Hr Hc Hrg. pose proof Hok as [F L (bl & Hl & Hn & Hb)]. pose proof (L r Hr) as Lr. destruct (alter_loose _ K r f F Lr Hc Hrg) as [_ L'].
  apply (write_ok st K O r O _ _ Hok); [apply Lr|rewrite dom_alter_same; apply F|intros x Hx; by apply lookup_alter_ne| |].
  - exists bl. split_and!; try done. apply (lseg_frame_sub (rs_mem st)); [done|]. intros x Hx. apply lookup_alter_ne. intros <-. by destruct (Hb r Hx).
  - intros x Hx. destruct (decide (x = r)) as [->|]; [by left|by right].
Qed.

(** A request that succeeds takes the resource into the forest. *)
Lemma placed_ok st K O r root l1 l2 (h' : mem) :
  res_ok st K (r :: O) -> r ∉ O -> K !! root = Some (l1 ++ l2) -> placed (rs_mem st) h' K root r l1 l2 ->
  res_ok (with_mem st h') (add_child K root r l1 l2) O.
Proof.
  intros [F L (bl & Hl & Hn & Hb)] HrO Hk (Hs & F' & _ & Hout).
  assert (Hx : forall x, x ∉ dom K -> x <> r -> add_child K root r l1 l2 !! x = None).
  { intros x Hx Hne. unfold add_child. rewrite lookup_insert_ne, lookup_insert_ne; [by apply not_elem_of_dom| |done].
    intros ->. apply Hx, elem_of_dom. by rewrite Hk. }
  split; [done| |].
  - intros x HxO. assert (Lx : loose (rs_mem st) K x) by (apply L; by right). assert (Hxr : x <> r) by (by intros ->).
    assert (HxK : x ∉ dom K) by (apply not_elem_of_dom, Lx).
    apply (loose_frame (rs_mem st) h' K); [done|by apply Hout|by apply Hx].
  - exists bl. assert (Hbl : forall x, x ∈ bl -> x <> r) by (intros x Hin ->; destruct (Hb r Hin) as [_ HH]; apply HH; left).
    split_and!; [|done|].
    + apply (lseg_frame_sub (rs_mem st)); [done|]. intros x Hin. apply Hout; [by apply Hb|by apply Hbl].
    + intros x Hin. destruct (Hb x Hin) as [HxK HH]. split; [|intros ?; apply HH; by right].
      apply not_elem_of_dom, Hx; [done|by apply Hbl].
Qed.
End Pool.

(** ** reserve_region_with_split *)

Lemma filter_length_lt (P Q : Z -> Prop) `{forall x, Decision (P x), forall x, Decision (Q x)} (l : list Z) c :
  (forall x, Q x -> P x) -> c ∈ l -> P c -> ~ Q c -> (length (filter Q l) < length (filter P l))%nat.
Proof.
  intros HQP Hc Hp Hq. assert (Hle : forall l0 : list Z, (length (filter Q l0) <= length (filter P l0))%nat).
  { induction l0 as [|x l0 IH]; [done|]. rewrite !filter_cons. repeat case_decide; cbn; lia || (exfalso; auto). }
  induction l as [|x l IH]; [by apply not_elem_of_nil in Hc|]. rewrite !filter_cons. apply elem_of_cons in Hc as [->|Hc].
  - rewrite decide_False, decide_True by done. cbn. specialize (Hle l). lia.
  - specialize (IH Hc). repeat case_decide; cbn; lia || (exfalso; auto).
Qed.

(** The children that end at [a] or later. *)
Definition ahead (h : mem) (l : list Z) (a : Z) : nat := length (filter (fun x => a <= rend h x) l).

Lemma ahead_lt h (l : list Z) a a' c : c ∈ l -> a <= rend h c < a' -> (ahead h l a' < ahead h l a)%nat.
Proof. intros Hc Hr. apply (filter_length_lt (fun x => a <= rend h x) (fun x => a' <= rend h x) l c); [intros; lia|done|lia|lia]. Qed.

Lemma ahead_le h (l : list Z) a : (ahead h l a <= length l)%nat.
Proof. apply length_filter. Qed.

Lemma ahead_placed h h' (l1 l2 : list Z) r a :
  same_data h h' -> rend h r < a -> ahead h' (l1 ++ r :: l2) a = ahead h (l1 ++ l2) a.
Proof.
  intros Hs Hr. unfold ahead. rewrite (list_filter_iff (fun x => a <= rend h' x) (fun x => a <= rend h x)).
  - by rewrite !list.filter_app, filter_cons_False by lia.
  - intros x. by destruct (same_data_fld h h' Hs x) as (_ & -> & _).
Qed.

(** What the loop makes of the children [l] of [root]: it keeps them, and adds
    children inside the range [a .. b]. *)
Record extended (h : mem) (K : shape) (l : list Z) (a b : Z) (h' : mem) (l' : list Z) : Prop := {
  ex_old : forall x, x ∈ l -> x ∈ l';
  ex_data : forall x, x ∈ dom K -> rstart h' x = rstart h x /\ rend h' x = rend h x;
  ex_new : forall x, x ∈ l' -> x ∈ l \/ a <= rstart h' x /\ rend h' x <= b
}.
Definition covered (h : mem) (l : list Z) (a b : Z) : Prop := forall y, a <= y <= b -> exists x, x ∈ l /\ rstart h x <= y <= rend h x.

Section Split.
Context (kzalloc : res_state -> Z) (is_slab : Z -> bool) (root name flags : Z).
Hypothesis Hfresh : kzalloc_fresh kzalloc.

Definition done_with st K l a b (o : outcome res_state) : Prop :=
  exists st' K' l', o = Ret st' /\ res_ok st' K' [] /\ K' !! root = Some l' /\ (forall x, x ∈ dom K -> x ∈ dom K')
    /\ extended (rs_mem st) K l a b (rs_mem st') l'
    /\ ((forall st, kzalloc st <> 0) -> covered (rs_mem st') l' a b).

(** One round that is sure to find its place. *)
Lemma request_free st K O l res :
  res_ok st K (res :: O) -> K !! root = Some l ->
  let h := rs_mem st in
  rstart h res <= rend h res -> inside h res root -> (forall x, x ∈ l -> ~ overlaps h x res) ->
  exists h' l1 l2, __request_resource h root res = Ret (h', 0) /\ l = l1 ++ l2 /\ placed h h' K root res l1 l2.
Proof.
  intros [F L _] Hk h Hr Hi Hno. destruct (request_spec h K root res l F Hk) as
    [(h' & l1 & l2 & E & _ & _ & El & _ & _ & Hp)|[[_ Hbad]|(c & l1 & l2 & _ & _ & _ & El & _ & Ho)]]; [apply L; left|..].
  - by exists h', l1, l2.
  - by destruct Hbad.
  - exfalso. apply (Hno c); [rewrite El, elem_of_app; right; left|done].
Qed.

(** The new child fills its range. *)
Lemma extended_placed h K l a b r l1 l2 h' :
  l = l1 ++ l2 -> same_data h h' -> a <= rstart h r -> rend h r <= b -> extended h K l a b h' (l1 ++ r :: l2).
Proof.
  intros -> Hs Ha Hb. split.
  - intros x. rewrite !elem_of_app, elem_of_cons. tauto.
  - intros x _. by destruct (same_data_fld h h' Hs x) as (-> & -> & _).
  - intros x. rewrite !elem_of_app, elem_of_cons. destruct (same_data_fld h h' Hs x) as (-> & -> & _).
    intros [?|[->|?]]; [tauto|by right|tauto].
Qed.

Lemma extended_trans h K l a b h1 K1 l1 a1 h2 l2 :
  extended h K l a b h1 l1 -> extended h1 K1 l1 a1 b h2 l2 -> a <= a1 -> (forall x, x ∈ dom K -> x ∈ dom K1) ->
  (forall x, x ∈ l1 -> x ∈ dom K1) -> extended h K l a b h2 l2.
Proof.
  intros [O1 D1 N1] [O2 D2 N2] Ha HK Hl. split; [auto| |].
  - intros x Hx. destruct (D2 x (HK x Hx)) as [-> ->]. by apply D1.
  - intros x Hx. destruct (N2 x Hx) as [H1|[? ?]]; [|right; lia]. destruct (D2 x (Hl x H1)) as [E1 E2].
    destruct (N1 x H1) as [?|[? ?]]; [by left|right; lia].
Qed.
Lemma extended_refl h K l a b h' : (forall x, x ∈ dom K -> h' !! x = h !! x) -> extended h K l a b h' l.
Proof. intros Hx. split; [done| |by left]. intros x Hd. unfold fld. by rewrite Hx. Qed.

Lemma extended_base h h3 K l a b h' l' :
  (forall x, x ∈ dom K -> h3 !! x = h !! x) -> extended h3 K l a b h' l' -> extended h K l a b h' l'.
Proof. intros Hx [O D N]. split; [done| |done]. intros x Hd. destruct (D x Hd) as [-> ->]. unfold fld. by rewrite Hx. Qed.

(** Going on from a state that has dealt with [a .. a1 - 1]. *)
Lemma done_later st K l a b st1 K1 l1 a1 o :
  done_with st1 K1 l1 a1 b o -> extended (rs_mem st) K l a b (rs_mem st1) l1 -> a <= a1 ->
  (forall x, x ∈ dom K -> x ∈ dom K1) -> (forall x, x ∈ l1 -> x ∈ dom K1) -> covered (rs_mem st1) l1 a (a1 - 1) -> done_with st K l a b o.
Proof.
  intros (st' & K' & l' & -> & Hok & Hk & HK' & Hex & Hcov) Hex1 Ha HK Hl Hc1. exists st', K', l'. split_and!; auto.
  - by apply (extended_trans _ _ _ _ _ (rs_mem st1) K1 l1 a1).
  - intros Hz y Hy. destruct (Z.lt_ge_cases y a1) as [Hlt|Hge].
    + destruct (Hc1 y ltac:(lia)) as (x & Hx & Hxy). exists x. destruct Hex as [O D _]. split; [by apply O|].
      by destruct (D x (Hl x Hx)) as [-> ->].
    + apply (Hcov Hz). lia.
Qed.

Lemma with_mem_id st : with_mem st (rs_mem st) = st.
Proof. by destruct st. Qed.

Lemma res_ok_swap st K x y : res_ok st K [x; y] -> res_ok st K [y; x].
Proof.
  intros [F L (bl & ? & ? & Hb)]. assert (Hxy : forall z, z ∈ [y; x] <-> z ∈ [x; y]) by (intros z; rewrite !elem_of_cons; tauto).
  split; [done|intros z Hz; apply L; by apply Hxy|]. exists bl. split_and!; try done. intros z Hz. rewrite Hxy. by apply Hb.
Qed.

Lemma kids_in_dom h K l x : forest h K -> K !! root = Some l -> x ∈ l -> x ∈ dom K.
Proof. intros F Hk Hx. by apply (fo_parent _ _ F root l). Qed.

(** The round that places [res], when nothing is in its way. *)
Lemma split_place st K O l res next fuel :
  res_ok st K (res :: O) -> res ∉ O -> K !! root = Some l ->
  rstart (rs_mem st) res <= rend (rs_mem st) res -> inside (rs_mem st) res root -> (forall x, x ∈ l -> ~ overlaps (rs_mem st) x res) ->
  exists st' l1 l2, l = l1 ++ l2 /\ res_ok st' (add_child K root res l1 l2) O /\ same_data (rs_mem st) (rs_mem st')
    /\ (forall x, x ∉ dom K -> x <> res -> rs_mem st' !! x = rs_mem st !! x)
    /\ split_loop kzalloc is_slab (S fuel) st root res next name flags
       = if next =? 0 then Ret st' else split_loop kzalloc is_slab fuel st' root next 0 name flags.
Proof.
  intros Hok Hno Hk Hr Hi Hfree. destruct (request_free st K O l res Hok Hk Hr Hi Hfree) as (h' & l1 & l2 & E & -> & Hp).
  exists (with_mem st h'), l1, l2. split; [done|]. split; [by apply placed_ok|]. split; [apply Hp|]. split; [apply Hp|].
  cbn [split_loop]. rewrite E. done.
Qed.

Lemma add_child_dom K res l1 l2 x : x ∈ dom K -> x ∈ dom (add_child K root res l1 l2).
Proof. unfold add_child. rewrite !dom_insert_L, !elem_of_union. tauto. Qed.

Lemma add_child_root h K res l1 l2 : forest h K -> K !! root = Some (l1 ++ l2) -> K !! res = None ->
  add_child K root res l1 l2 !! root = Some (l1 ++ res :: l2).
Proof. intros F Hk Hn. unfold add_child. rewrite lookup_insert_ne by congruence. apply lookup_insert_eq. Qed.

Lemma ahead_same h h' (l : list Z) a : (forall x, x ∈ l -> rend h' x = rend h x) -> ahead h' l a = ahead h l a.
Proof.
  intros Hl. unfold ahead. induction l as [|x l IH]; [done|]. rewrite !filter_cons. pose proof (Hl x ltac:(left)) as Ex.
  specialize (IH (fun y Hy => Hl y (list_elem_of_further _ _ _ Hy))). repeat case_decide; cbn; lia.
Qed.

(** One range starts where no child does, the other at its end. *)
Lemma range_edit h r f s e : r ∈ dom h -> (forall x, r_start (f x) = s) -> (forall x, r_end (f x) = e) ->
  rstart (alter f r h) r = s /\ rend (alter f r h) r = e.
Proof. intros Hr Hs He. rewrite (fld_alter_set r_start _ _ _ _ s), (fld_alter_set r_end _ _ _ _ e) by done. by rewrite !decide_True. Qed.

(** Cutting [res] off in front of the conflict [c]. *)
Lemma split_cut st K l res c :
  res_ok st K [res] -> K !! root = Some l -> c ∈ l ->
  let h := rs_mem st in let st1 := with_mem st (alter (set_end (rstart h c - 1)) res h) in
  rstart h res < rstart h c -> rstart h c <= rend h res -> inside h res root -> (forall x, x ∈ l -> rend h x < rstart h res \/ rstart h c <= rstart h x) ->
  res_ok st1 K [res] /\ rstart (rs_mem st1) res = rstart h res /\ rend (rs_mem st1) res = rstart h c - 1
  /\ (forall x, x ∈ dom K -> rs_mem st1 !! x = h !! x)
  /\ (forall x, x ∈ l -> ~ overlaps (rs_mem st1) x res) /\ inside (rs_mem st1) res root.
Proof.
  intros Hok Hk Hc h st1 Hlt Hle Hi Hl. pose proof Hok as [F L _]. fold h in F, L. assert (Lr : loose h K res) by (apply L; left).
  pose proof (lo_dom _ _ _ Lr) as Hrd. destruct (lo_range _ _ _ Lr) as [Hra Hrb]. assert (HlK : forall x, x ∈ l -> x ∈ dom K) by (intros x; by apply (kids_in_dom h)).
  destruct (fo_range _ _ F c) as [Hcr Hcr2]; [auto|].
  assert (Es : rstart (rs_mem st1) res = rstart h res) by (cbn; by apply fld_alter_other).
  assert (Ee : rend (rs_mem st1) res = rstart h c - 1) by (cbn; rewrite (fld_alter_set _ _ _ _ _ (rstart h c - 1)) by done; by rewrite decide_True).
  assert (HxK : forall x, x ∈ dom K -> rs_mem st1 !! x = h !! x).
  { intros x HxK. apply lookup_alter_ne. intros ->. apply elem_of_dom in HxK as [? ?]. by rewrite (lo_out _ _ _ Lr) in *. }
  assert (HfK : forall g x, x ∈ dom K -> fld g (rs_mem st1) x = fld g h x) by (intros g x Hx; unfold fld; by rewrite HxK).
  assert (HrootK : root ∈ dom K) by (apply elem_of_dom; by rewrite Hk).
  split_and!; try done.
  - apply edit_ok; [done|left|done|]. cbn zeta. change (alter _ _ _) with (rs_mem st1). rewrite Es, Ee. lia.
  - intros x Hx. unfold overlaps. rewrite Es, Ee, !HfK by auto.
    destruct (fo_range _ _ F x); [auto|]. destruct (Hl x Hx); lia.
  - unfold inside in *. rewrite Es, Ee, !HfK by done. lia.
Qed.

Lemma split_main n : forall st K l res fuel,
  res_ok st K [res] -> K !! root = Some l -> rstart (rs_mem st) res <= rend (rs_mem st) res -> inside (rs_mem st) res root ->
  (ahead (rs_mem st) l (rstart (rs_mem st) res) <= n)%nat -> (2 * n + 1 < fuel)%nat ->
  done_with st K l (rstart (rs_mem st) res) (rend (rs_mem st) res) (split_loop kzalloc is_slab fuel st root res 0 name flags).
Proof using Hfresh.
  induction n as [n IH] using lt_wf_ind. intros st K l res fuel Hok Hk Hr Hi Hn Hf. destruct fuel as [|fuel]; [lia|].
  set (h := rs_mem st) in *. set (a := rstart h res) in *. set (b := rend h res) in *.
  pose proof Hok as [F L _]. fold h in F, L. assert (Lr : loose h K res) by (apply L; left). pose proof (lo_dom _ _ _ Lr) as Hrd.
  assert (HrK : res ∉ dom K) by (apply not_elem_of_dom, Lr). destruct (lo_range _ _ _ Lr) as [Hra Hrb]. fold a b in Hra, Hrb.
  assert (HlK : forall x, x ∈ l -> x ∈ dom K) by (intros x; by apply (kids_in_dom h)).
  assert (Hnores : res ∉ ([] : list Z)) by apply not_elem_of_nil.
  destruct (request_spec h K root res l F Hk Lr) as
    [(h' & l1 & l2 & E & _ & _ & El & _ & _ & Hp)|[[E Hbad]|(c & l1 & l2 & E & _ & _ & El & Hbef & Hov)]]; [|by destruct Hbad|].
  { cbn [split_loop]. fold h. rewrite E. cbn [obind Z.eqb]. rewrite El in Hk. exists (with_mem st h'), (add_child K root res l1 l2), (l1 ++ res :: l2).
    split_and!; [done|by apply placed_ok|by apply (add_child_root h); [|apply Hk|apply Lr]|by apply add_child_dom|apply extended_placed; [done|apply Hp|done|done]|].
    intros _ y Hy. exists res. destruct (same_data_fld h h' (proj1 Hp) res) as (E1 & E2 & _). cbn [rs_mem with_mem]. rewrite E1, E2.
    split; [rewrite elem_of_app; right; left|done]. }
  assert (Hc : c ∈ l) by (rewrite El, elem_of_app; right; left). assert (HcK : c ∈ dom K) by auto. pose proof (fo_dom _ _ F c HcK) as Hcd.
  destruct (fo_range _ _ F c HcK) as [Hcr Hcr2]. unfold overlaps in Hov. fold a b in Hov. pose proof (fo_inside _ _ F root l c Hk Hc) as [Hci1 Hci2].
  assert (Hsides : forall x, x ∈ l -> rend h x < a \/ rstart h c <= rstart h x).
  { intros x Hx. rewrite El, elem_of_app, elem_of_cons in Hx. destruct Hx as [Hx|[->|Hx]]; [left; by apply Hbef|right; lia|right].
    pose proof (fo_sorted _ _ F root l Hk) as Hs. rewrite El, StronglySorted_app in Hs. destruct Hs as (_ & _ & Hs).
    apply StronglySorted_inv in Hs as [_ Hs]. rewrite Forall_forall in Hs. specialize (Hs x Hx). unfold before in Hs. lia. }
  set (cs := rstart h c) in *. set (ce := rend h c) in *.
  assert (Hround : split_loop kzalloc is_slab (S fuel) st root res 0 name flags =
    (if (cs <=? a) && (b <=? ce) then free_resource is_slab st res
     else if a <? cs then
       let st := with_mem st (alter (set_end (u64 (cs - 1))) res h) in
       if ce <? b then
         let! (st, next_res) := alloc_resource kzalloc st in
         if next_res =? 0 then free_resource is_slab st res
         else
           let! h := upd (rs_mem st) next_res (fill name (u64 (ce + 1)) b flags) in
           split_loop kzalloc is_slab fuel (with_mem st h) root res next_res name flags
       else split_loop kzalloc is_slab fuel st root res 0 name flags
     else split_loop kzalloc is_slab fuel (with_mem st (alter (set_start (u64 (ce + 1))) res h)) root res 0 name flags)).
  { cbn [split_loop]. fold h. rewrite E. cbn [obind]. replace (with_mem st h) with st by (symmetry; apply with_mem_id).
    pose proof (not_null h K F c Hcd). destruct (Z.eqb_spec c 0); [done|].
    rewrite (rd_dom h c Hcd), (rd_dom h res Hrd). cbn [obind]. rewrite !fld_at by done. fold a b cs ce. by rewrite !(upd_dom h res) by done. }
  rewrite Hround. clear Hround E.
  assert (Hlt : (ahead h l (ce + 1) < ahead h l a)%nat) by (apply (ahead_lt h l a (ce + 1) c Hc); fold ce; lia).
  destruct (Z.leb_spec cs a) as [Hcs|Hcs], (Z.leb_spec b ce) as [Hce|Hce]; cbn [andb].
  - destruct (free_resource_spec is_slab st K [] res Hok Hnores) as (st' & -> & Hok' & Hx).
    assert (HxK : forall x, x ∈ dom K -> rs_mem st' !! x = h !! x) by (intros x HxK; apply Hx; by intros ->).
    exists st', K, l. split_and!; try done; [by apply extended_refl|]. intros _ y Hy. exists c. split; [done|].
    unfold fld. rewrite HxK by done. fold (rstart h c) (rend h c). fold cs ce. lia.
  - destruct (Z.ltb_spec a cs); [lia|]. rewrite (u64_id (ce + 1)) by ulia. set (st1 := with_mem st _).
    assert (Hs1 : rstart (rs_mem st1) res = ce + 1 /\ rend (rs_mem st1) res = b).
    { cbn. rewrite (fld_alter_set r_start _ _ _ _ (ce + 1)), fld_alter_other by done. by rewrite decide_True. }
    assert (HxK : forall x, x ∈ dom K -> rs_mem st1 !! x = h !! x) by (intros x HxK; apply lookup_alter_ne; by intros ->).
    assert (Hok1 : res_ok st1 K [res]) by (apply edit_ok; [done|left|done|cbn zeta; change (alter _ _ _) with (rs_mem st1); destruct Hs1 as [-> ->]; lia]).
    destruct Hs1 as [Es1 Ee1]. rewrite <- Ee1. apply (done_later st K l a _ st1 K l (ce + 1)); rewrite ?Ee1; try done.
    + rewrite <- Es1, <- Ee1. apply (IH (n - 1)%nat); try done; rewrite ?Es1, ?Ee1; [|lia| | |].
      * lia.
      * unfold inside in *. rewrite Es1, Ee1. unfold fld. rewrite HxK by (apply elem_of_dom; by rewrite Hk).
        fold (rstart h root) (rend h root). lia.
      * rewrite (ahead_same h) by (intros x Hx; unfold fld; by rewrite HxK by auto). lia.
      * lia.
    + by apply extended_refl.
    + lia.
    + intros y Hy. exists c. split; [done|]. unfold fld. rewrite HxK by done. fold (rstart h c) (rend h c). fold cs ce. lia.
  - destruct (Z.ltb_spec a cs); [|lia]. cbn zeta. destruct (Z.ltb_spec ce b); [lia|]. rewrite (u64_id (cs - 1)) by ulia.
    destruct (split_cut st K l res c Hok Hk Hc) as (Hok1 & Es1 & Ee1 & HxK & Hfree1 & Hi1); [exact Hcs|exact (proj1 Hov)|exact Hi|exact Hsides|]. fold h in Hok1, Es1, Ee1, HxK, Hfree1, Hi1.
    fold a cs in Es1, Ee1, Hok1, HxK, Hfree1, Hi1. set (st1 := with_mem st _) in *. destruct fuel as [|fuel]; [lia|].
    destruct (split_place st1 K [] l res 0 fuel Hok1 Hnores Hk) as (st' & la & lb & El' & Hok' & Hs & _ & ->); [lia|done|done|]. rewrite Z.eqb_refl.
    subst l. rewrite El' in *.
    exists st', (add_child K root res la lb), (la ++ res :: lb). assert (HK' := add_child_root h K res la lb F Hk (lo_out _ _ _ Lr)).
    split_and!; [done|done|done|by apply add_child_dom| |].
    + apply (extended_base h (rs_mem st1)); [done|]. apply extended_placed; [done|done|lia|lia].
    + intros _ y Hy. destruct (Z.lt_ge_cases y cs).
      * exists res. destruct (same_data_fld _ _ Hs res) as (-> & -> & _). split; [rewrite elem_of_app; right; left|lia].
      * exists c. destruct (same_data_fld _ _ Hs c) as (-> & -> & _). split; [rewrite elem_of_app in *; rewrite elem_of_cons; tauto|].
        unfold fld. rewrite HxK by done. fold (rstart h c) (rend h c). fold cs ce. lia.
  - destruct (Z.ltb_spec a cs); [|lia]. cbn zeta. destruct (Z.ltb_spec ce b); [|lia]. rewrite (u64_id (cs - 1)), (u64_id (ce + 1)) by ulia.
    destruct (split_cut st K l res c Hok Hk Hc) as (Hok1 & Es1 & Ee1 & HxK & Hfree1 & Hi1); [exact Hcs|exact (proj1 Hov)|exact Hi|exact Hsides|].
    fold h in Hok1, Es1, Ee1, HxK, Hfree1, Hi1. fold a cs in Es1, Ee1, Hok1, HxK, Hfree1, Hi1. set (st1 := with_mem st _) in *. destruct fuel as [|fuel]; [lia|].
    destruct (alloc_resource_spec kzalloc Hfresh st1 K [res] Hok1) as (st2 & r & -> & [(-> & -> & Hz)|(Hr0 & Hok2 & HrO & HrK' & Hx2)]); cbn [obind].
    { rewrite Z.eqb_refl. destruct (free_resource_spec is_slab st1 K [] res Hok1 Hnores) as (st' & -> & Hok' & Hx).
      exists st', K, l. split_and!; try done.
      - apply extended_refl. intros x HxK'. rewrite Hx; [by apply HxK|by intros ->].
      - intros Hnz. by destruct (Hnz st1). }
    destruct (Z.eqb_spec r 0); [done|]. assert (Hrres : r <> res) by (intros ->; apply HrO; left).
    pose proof (ro_loose _ _ _ Hok2 r ltac:(left)) as Lr2. rewrite (upd_dom _ r _ (lo_dom _ _ _ Lr2)). cbn [obind].
    set (f := fill name (ce + 1) b flags). set (st3 := with_mem st2 _).
    assert (Hr3 : rstart (rs_mem st3) r = ce + 1 /\ rend (rs_mem st3) r = b) by (apply range_edit; [apply Lr2|done..]).
    assert (Hx3 : forall x, x <> r -> rs_mem st3 !! x = rs_mem st1 !! x) by (intros x Hx; cbn; rewrite lookup_alter_ne by done; by apply Hx2).
    assert (Hok3 : res_ok st3 K [r; res]).
    { apply edit_ok; [done|left|done|]. cbn zeta. change (alter f r (rs_mem st2)) with (rs_mem st3). destruct Hr3 as [-> ->]. lia. }
    apply res_ok_swap in Hok3. assert (Hf3 : forall g x, x <> r -> fld g (rs_mem st3) x = fld g (rs_mem st1) x) by (intros g x Hx; unfold fld; by rewrite Hx3).
    assert (HKr : forall x, x ∈ dom K -> x <> r) by (by intros x Hx ->). assert (HrootK : root ∈ dom K) by (apply elem_of_dom; by rewrite Hk).
    destruct (split_place st3 K [r] l res r fuel Hok3) as (st4 & la & lb & El' & Hok4 & Hs4 & _ & ->).
    { intros ->%list_elem_of_singleton. done. }
    { done. }
    { rewrite !Hf3 by done. lia. }
    { unfold inside in *. rewrite !Hf3 by auto. done. }
    { intros x Hx. unfold overlaps. rewrite !Hf3 by auto. by apply Hfree1. }
    destruct (Z.eqb_spec r 0); [done|]. rewrite El' in Hk. pose proof (add_child_root h K res la lb F Hk (lo_out _ _ _ Lr)) as HK1.
    set (K1 := add_child K root res la lb) in *. destruct Hr3 as [Es3 Ee3]. destruct (same_data_fld _ _ Hs4 r) as (Es4 & Ee4 & _). rewrite Es3 in Es4. rewrite Ee3 in Ee4.
    assert (HdK : forall x, x ∈ dom K -> rs_mem st3 !! x = h !! x) by (intros x Hx; rewrite Hx3 by auto; by apply HxK).
    assert (Hf4 : forall x, x ∈ dom K -> rstart (rs_mem st4) x = rstart h x /\ rend (rs_mem st4) x = rend h x).
    { intros x Hx. destruct (same_data_fld _ _ Hs4 x) as (-> & -> & _). unfold fld. by rewrite HdK. }
    assert (Hres4 : rstart (rs_mem st4) res = a /\ rend (rs_mem st4) res = cs - 1).
    { destruct (same_data_fld _ _ Hs4 res) as (-> & -> & _). by rewrite !Hf3, Es1, Ee1 by done. }
    assert (Hcin : c ∈ la ++ res :: lb) by (rewrite El' in Hc; rewrite elem_of_app in *; rewrite elem_of_cons; tauto).
    apply (done_later st K l a b st4 K1 (la ++ res :: lb) (ce + 1)).
    + rewrite <- Es4, <- Ee4. apply (IH (n - 1)%nat); try done; rewrite ?Es4, ?Ee4; [lia|lia| | |lia].
      * unfold inside in *. rewrite Es4, Ee4. destruct (Hf4 root HrootK) as [-> ->]. lia.
      * rewrite (ahead_placed (rs_mem st3) (rs_mem st4)); [|done|rewrite Hf3, Ee1 by done; unfold ce, cs in *; lia].
        rewrite <- El', (ahead_same h); [lia|]. intros x Hx. unfold fld. by rewrite HdK by auto.
    + apply (extended_base h (rs_mem st3)); [done|]. apply extended_placed; [done|done|rewrite Hf3 by done; lia|rewrite Hf3 by done; lia].
    + lia.
    + by apply add_child_dom.
    + intros x Hx. by apply (fo_parent _ _ (ro_forest _ _ _ Hok4) root _ x HK1).
    + intros y Hy. destruct (Z.lt_ge_cases y cs).
      * exists res. destruct Hres4 as [-> ->]. split; [rewrite elem_of_app; right; left|lia].
      * exists c. split; [done|]. destruct (Hf4 c HcK) as [-> ->]. fold cs ce. lia.
Qed.
End Split.

Lemma reserve_spec kzalloc is_slab st K root l start end_ name :
  kzalloc_fresh kzalloc -> res_ok st K [] -> K !! root = Some l -> is_u64 start -> is_u64 end_ ->
  let a := Z.max start (rstart (rs_mem st) root) in let b := Z.min end_ (rend (rs_mem st) root) in
  start <= end_ ->
  (a <= b /\ done_with kzalloc root st K l a b (reserve_region_with_split kzalloc is_slab st root start end_ name))
  \/ (b < a /\ reserve_region_with_split kzalloc is_slab st root start end_ name = Ret st).
Proof.
  intros Hfresh Hok Hk Hs He a b Hse. pose proof Hok as [F _ _]. set (h := rs_mem st) in *.
  assert (HrK : root ∈ dom K) by (apply elem_of_dom; by rewrite Hk). pose proof (fo_dom _ _ F root HrK) as Hrd.
  destruct (fo_range _ _ F root HrK) as [Hrr Hrr2].
  assert (Hin : a <= b -> done_with kzalloc root st K l a b (__reserve_region_with_split kzalloc is_slab st root a b name)).
  { intros Hab. unfold __reserve_region_with_split.
    destruct (alloc_resource_spec kzalloc Hfresh st K [] Hok) as (st1 & r & -> & [(-> & -> & Hz)|(Hr0 & Hok1 & _ & HrK' & Hx)]); cbn [obind].
    { fold h. rewrite (rd_dom h root Hrd). cbn [obind Z.eqb]. exists st, K, l. split_and!; try done; [by apply extended_refl|]. intros Hnz. by destruct (Hnz st). }
    pose proof (ro_loose _ _ _ Hok1 r ltac:(left)) as Lr. assert (Hrr1 : root <> r) by (by intros ->).
    assert (Hrd1 : root ∈ dom (rs_mem st1)) by (by apply (fo_dom _ _ (ro_forest _ _ _ Hok1))).
    rewrite (rd_dom _ root Hrd1). cbn [obind]. destruct (Z.eqb_spec r 0); [done|]. rewrite (upd_dom _ r _ (lo_dom _ _ _ Lr)). cbn [obind].
    set (flags := Z.lor _ _). set (f := fill name a b flags). set (st2 := with_mem st1 _). change (alter f r (rs_mem st1)) with (rs_mem st2).
    assert (Hr2 : rstart (rs_mem st2) r = a /\ rend (rs_mem st2) r = b) by (apply range_edit; [apply Lr|done..]).
    assert (Hx2 : forall x, x ∈ dom K -> rs_mem st2 !! x = h !! x).
    { intros x HxK. assert (x <> r) by (by intros ->). cbn. rewrite lookup_alter_ne by done. by apply Hx. }
    unfold is_u64 in *.
    assert (Hok2 : res_ok st2 K [r]).
    { apply edit_ok; [done|left|done|]. cbn zeta. change (alter f r (rs_mem st1)) with (rs_mem st2). destruct Hr2 as [-> ->]. lia. }
    destruct Hr2 as [Es Ee]. apply (done_later kzalloc root st K l a b st2 K l a); try done; [|by apply extended_refl|by intros x; apply (kids_in_dom root h)|intros y Hy; lia].
    rewrite <- Es at 1. rewrite <- Ee at 1. apply (split_main kzalloc is_slab root name flags Hfresh (length l)); try done; rewrite ?Es, ?Ee; [lia| |apply ahead_le|].
    - unfold inside. rewrite Es, Ee. unfold fld. rewrite Hx2 by done. fold (rstart h root) (rend h root). lia.
    - pose proof (kids_fuel _ K (ro_forest _ _ _ Hok2) root l Hk). unfold split_fuel, fuel_of. lia. }
  unfold reserve_region_with_split. fold h. rewrite (rd_dom h root Hrd). cbn [obind]. rewrite !fld_at by done.
  destruct (Z.ltb_spec start (rstart h root)), (Z.ltb_spec (rend h root) end_); cbn [orb];
    try (destruct (Z.ltb_spec (rend h root) start), (Z.ltb_spec end_ (rstart h root)); cbn [orb]; try (right; split; [lia|done]));
    left; (split; [lia|]).
  all: replace (__reserve_region_with_split kzalloc is_slab st root _ _ name) with (__reserve_region_with_split kzalloc is_slab st root a b name)
    by (f_equal; lia); apply Hin; lia.
Qed.

(** * The resource tree: searches among the children of iomem_resource *)



(** The range [start .. end_] meets the resource. *)
Definition meets (h : mem) (x start end_ : Z) : Prop := rstart h x <= end_ /\ start <= rend h x.
#[export] Instance meets_dec h x start end_ : Decision (meets h x start end_) := and_dec _ _.

Definition matching (h : mem) (flags desc x : Z) : Prop := matches (at_ h x) flags desc = true.
#[export] Instance matching_dec h flags desc x : Decision (matching h flags desc x) := bool_eq_dec _ _.

(** ** region_intersects *)

Section Intersects.
Context (h : mem) (start end_ flags desc : Z).
Hypothesis Hse : start <= end_.

Definition hits_of (x : Z) : Z :=
  Z.b2z ((rstart h x <=? start) && (start <=? rend h x)) + Z.b2z ((rstart h x <=? end_) && (end_ <=? rend h x))
  + Z.b2z ((start <=? rstart h x) && (rend h x <=? end_)).

Lemma hits_range x : 0 <= hits_of x <= 3.
Proof. unfold hits_of, Z.b2z. repeat case_match; lia. Qed.

Lemma hits_meets x : rstart h x <= rend h x -> 0 < hits_of x <-> meets h x start end_.
Proof using Hse. intros Hx. unfold hits_of, meets. bdestr; cbn; lia. Qed.

Definition total (P : Z -> bool) (l : list Z) : Z := foldr (fun x n => (if P x then hits_of x else 0) + n) 0 l.

Lemma total_range P l : 0 <= total P l <= 3 * Z.of_nat (length l).
Proof. induction l as [|x l IH]; cbn [total foldr length]; [lia|]. fold (total P l). pose proof (hits_range x). destruct (P x); lia. Qed.

Lemma total_pos P (l : list Z) : (forall x, x ∈ l -> rstart h x <= rend h x) ->
  total P l <> 0 <-> exists x, x ∈ l /\ P x = true /\ meets h x start end_.
Proof using Hse.
  intros Hr. induction l as [|x l IH].
  - split; [done|]. intros (x & Hx & _). by apply not_elem_of_nil in Hx.
  - cbn [total foldr]. fold (total P l). specialize (IH (fun y Hy => Hr y (list_elem_of_further _ _ _ Hy))).
    pose proof (total_range P l). pose proof (hits_range x). pose proof (hits_meets x (Hr x (list_elem_of_here _ _))) as Hm.
    destruct (P x) eqn:Ep.
    + destruct (decide (meets h x start end_)) as [Hx|Hx].
      * split; [intros _; exists x; split; [left|done]|]. intros _. apply Hm in Hx. lia.
      * assert (hits_of x = 0) by (destruct (Z.eq_dec (hits_of x) 0); [done|]; exfalso; apply Hx, Hm; lia).
        replace (hits_of x + total P l) with (total P l) by lia. rewrite IH.
        split; intros (y & Hy & Hp & Hmy); exists y; (split; [|done]); [by right|]. apply elem_of_cons in Hy as [->|?]; done.
    + rewrite Z.add_0_l, IH. split; intros (y & Hy & Hp & Hmy); exists y; (split; [|done]); [by right|].
      apply elem_of_cons in Hy as [->|?]; [congruence|done].
Qed.

Lemma intersects_loop_spec (l : list Z) : forall a fuel t o,
  lseg h a 0 l -> 0 ∉ dom h -> (length l < fuel)%nat -> 0 <= t -> 0 <= o -> t + o + 3 * Z.of_nat (length l) < 2 ^ 31 ->
  intersects_loop fuel h a start end_ flags desc t o
  = Ret (t + total (fun x => matches (at_ h x) flags desc) l, o + total (fun x => negb (matches (at_ h x) flags desc)) l).
Proof.
  induction l as [|x l IH]; intros a fuel t o Hl H0 Hf Ht Ho Hb; (destruct fuel as [|fuel]; [cbn in Hf; lia|]); cbn [intersects_loop].
  - cbn in Hl. rewrite Hl. cbn. by rewrite !Z.add_0_r.
  - cbn in Hl. destruct Hl as (-> & Hx & Hl). destruct (Z.eqb_spec x 0) as [->|_]; [done|].
    rewrite (rd_dom h x Hx). cbn [obind]. rewrite !fld_at by done. fold (hits_of x). pose proof (hits_range x).
    cbn [length] in *. cbn [total foldr]. fold (total (fun x => matches (at_ h x) flags desc) l).
    fold (total (fun x => negb (matches (at_ h x) flags desc)) l).
    destruct (matches (at_ h x) flags desc); cbn [negb]; rewrite s32_id, IH by (done || lia); f_equal; f_equal; lia.
Qed.
End Intersects.

Lemma region_intersects_spec h K iomem l start size flags desc :
  forest h K -> K !! iomem = Some l -> 0 <= start -> 1 <= size -> start + size <= U64_MOD -> 3 * Z.of_nat (length l) < 2 ^ 31 ->
  let hit := fun b => exists x, x ∈ l /\ matches (at_ h x) flags desc = b /\ meets h x start (start + size - 1) in
  exists r, region_intersects iomem h start size flags desc = Ret r
    /\ match r with
       | REGION_INTERSECTS => hit true /\ ~ hit false
       | REGION_DISJOINT => ~ hit true
       | REGION_MIXED => hit true /\ hit false
       end.
Proof.
  intros F Hk Hs Hz Hend Hlen hit. unfold region_intersects. pose proof (in_dom h K F iomem l Hk) as Hd.
  rewrite (u64_id (start + size - 1)) by ulia. rewrite (rd_dom h iomem Hd). cbn [obind]. rewrite fld_at by done.
  rewrite (intersects_loop_spec h start _ flags desc l); [|by apply (fo_list _ _ F)|apply F| |lia|lia|lia].
  2:{ pose proof (kids_fuel h K F iomem l Hk). unfold fuel_of. lia. }
  cbn [obind]. rewrite !Z.add_0_l. eexists. split; [done|].
  assert (Hr : forall x, x ∈ l -> rstart h x <= rend h x).
  { intros x Hx. destruct (fo_range _ _ F x); [by apply (fo_parent _ _ F iomem l)|lia]. }
  pose proof (total_pos h start (start + size - 1) ltac:(lia) (fun x => matches (at_ h x) flags desc) l Hr) as Ht.
  pose proof (total_pos h start (start + size - 1) ltac:(lia) (fun x => negb (matches (at_ h x) flags desc)) l Hr) as Ho.
  assert (Ho' : total h start (start + size - 1) (fun x => negb (matches (at_ h x) flags desc)) l <> 0 <-> hit false).
  { rewrite Ho. unfold hit. split; intros (x & ? & Hm & ?); exists x; (split; [done|]); (split; [|done]); destruct (matches (at_ h x) flags desc); done. }
  fold (hit true) in Ht. clear Ho.
  destruct (Z.eqb_spec (total h start (start + size - 1) (fun x => negb (matches (at_ h x) flags desc)) l) 0),
    (Z.eqb_spec (total h start (start + size - 1) (fun x => matches (at_ h x) flags desc) l) 0); cbn [negb]; tauto.
Qed.

(** ** The lowest resource on the first level *)

Lemma iomem_first_spec h start end_ flags desc (l : list Z) : forall a fuel,
  lseg h a 0 l -> 0 ∉ dom h -> StronglySorted (before h) l -> (forall x, x ∈ l -> rstart h x <= rend h x) -> start <= end_ -> (length l < fuel)%nat ->
  (exists x l1 l2, iomem_loop fuel h a start end_ flags desc true = Ret (Some (at_ h x)) /\ l = l1 ++ x :: l2
     /\ matching h flags desc x /\ meets h x start end_ /\ forall y, y ∈ l1 -> ~ (matching h flags desc y /\ meets h y start end_))
  \/ (iomem_loop fuel h a start end_ flags desc true = Ret None /\ forall y, y ∈ l -> ~ (matching h flags desc y /\ meets h y start end_)).
Proof.
  induction l as [|x l IH]; intros a fuel Hl H0 Hs Hr Hse Hf; (destruct fuel as [|fuel]; [cbn in Hf; lia|]); cbn [iomem_loop].
  - cbn in Hl. rewrite Hl. right. split; [done|]. by intros y ?%not_elem_of_nil.
  - cbn in Hl. destruct Hl as (-> & Hx & Hl). destruct (Z.eqb_spec x 0) as [->|_]; [done|].
    rewrite (rd_dom h x Hx). cbn [obind]. apply StronglySorted_inv in Hs as [Hs Hall]. rewrite Forall_forall in Hall.
    rewrite !fld_at by done. pose proof (Hr x ltac:(left)) as Hxr.
    assert (Hnext : next_resource h x true = Ret (rsib h x)).
    { unfold next_resource. rewrite (rd_dom h x Hx). cbn [obind]. by rewrite fld_at. }
    assert (Hgo : ~ (matching h flags desc x /\ meets h x start end_) -> forall o,
      iomem_loop fuel h (rsib h x) start end_ flags desc true = o ->
      (exists z l1 l2, o = Ret (Some (at_ h z)) /\ x :: l = l1 ++ z :: l2
         /\ matching h flags desc z /\ meets h z start end_ /\ forall y, y ∈ l1 -> ~ (matching h flags desc y /\ meets h y start end_))
      \/ (o = Ret None /\ forall y, y ∈ x :: l -> ~ (matching h flags desc y /\ meets h y start end_))).
    { intros Hnx o <-. destruct (IH (rsib h x) fuel) as [(z & l1 & l2 & -> & -> & Hm & Hz & Hb)|[-> Hno]]; try done;
        [intros; apply Hr; by right|cbn in Hf; lia|left|right].
      - exists z, (x :: l1), l2. split_and!; try done. intros y [->|Hy]%elem_of_cons; [done|by apply Hb].
      - split; [done|]. intros y [->|Hy]%elem_of_cons; [done|by apply Hno]. }
    unfold matching, meets in *. destruct (matches (at_ h x) flags desc) eqn:Em; cbn [andb].
    + destruct (Z.ltb_spec end_ (rstart h x)).
      { right. split; [done|]. intros y [->|Hy]%elem_of_cons; [lia|]. specialize (Hall y Hy). unfold before in Hall. lia. }
      destruct (Z.leb_spec start (rend h x)); cbn [andb]; [|rewrite Hnext; cbn [obind]; apply Hgo; [lia|done]].
      destruct (Z.leb_spec (rstart h x) end_); [|lia]. left. exists x, [], l. split_and!; try done. by intros y ?%not_elem_of_nil.
    + rewrite Hnext. cbn [obind]. apply Hgo; [intros [? _]; done|done].
Qed.

(** ** page_is_ram *)

Definition RAM_FLAGS : Z := Z.lor IORESOURCE_SYSTEM_RAM IORESOURCE_BUSY.

Lemma page_is_ram_spec h K iomem l pfn :
  forest h K -> K !! iomem = Some l -> 0 <= pfn < 2 ^ 52 - 1 ->
  exists b, page_is_ram iomem h pfn = Ret b
    /\ (b = true <-> exists x, x ∈ l /\ matching h RAM_FLAGS IORES_DESC_NONE x
          /\ rstart h x <= 4096 * pfn /\ 4096 * pfn + 4095 <= rend h x).
Proof.
  intros F Hk Hp. unfold page_is_ram, walk_system_ram_range. pose proof (in_dom h K F iomem l Hk) as Hd.
  rewrite (u64_id (pfn + 1)) by ulia. rewrite !Z.shiftl_mul_pow2 by (unfold PAGE_SHIFT; lia). change (2 ^ PAGE_SHIFT) with 4096.
  rewrite (u64_id (pfn * 4096)), (u64_id ((pfn + 1) * 4096)) by ulia. rewrite (u64_id ((pfn + 1) * 4096 - 1)) by ulia.
  set (S0 := pfn * 4096). set (E0 := (pfn + 1) * 4096 - 1). unfold fuel_of. cbn [ram_loop].
  destruct (Z.ltb_spec S0 E0); [|unfold S0, E0 in *; lia]. unfold find_next_iomem_res. destruct (Z.leb_spec E0 S0); [lia|].
  rewrite (rd_dom h iomem Hd). cbn [obind]. rewrite fld_at by done. fold RAM_FLAGS.
  assert (Hr : forall x, x ∈ l -> 0 <= rstart h x <= rend h x).
  { intros x Hx. destruct (fo_range _ _ F x); [by apply (fo_parent _ _ F iomem l)|lia]. }
  destruct (iomem_first_spec h S0 E0 RAM_FLAGS IORES_DESC_NONE l (rkid h iomem) (fuel_of h)) as
    [(x & l1 & l2 & -> & -> & Hm & [Hx1 Hx2] & Hb)|[-> Hno]]; [by apply (fo_list _ _ F)|apply F|by apply (fo_sorted _ _ F iomem)| |lia| | |].
  { intros x Hx. specialize (Hr x Hx). lia. }
  { pose proof (kids_fuel h K F iomem l Hk). unfold fuel_of. lia. }
  - assert (Hxl : x ∈ l1 ++ x :: l2) by (rewrite elem_of_app; right; left). pose proof (kid_dom h K F iomem _ x Hk Hxl) as Hxd.
    cbn [obind r_start r_end]. rewrite !fld_at by done. destruct (Hr x Hxl) as [Hx0 Hxr].
    rewrite !Z.shiftr_div_pow2 by (unfold PAGE_SHIFT; lia). change (2 ^ PAGE_SHIFT) with 4096. change PAGE_SIZE with 4096.
    assert (Hlow : u64 (Z.max S0 (rstart h x) + 4096 - 1) / 4096 = if decide (rstart h x <= S0) then pfn else pfn + 1).
    { rewrite u64_id by (unfold is_u64, U64_MOD, S0, E0 in *; lia).
      case_decide; symmetry; [apply Z.div_unique with 4095|apply Z.div_unique with (rstart h x - 1 - S0)]; unfold S0, E0 in *; lia. }
    assert (Hhigh : u64 (Z.min E0 (rend h x) + 1) / 4096 = if decide (E0 <= rend h x) then pfn + 1 else pfn).
    { rewrite u64_id by (unfold is_u64, U64_MOD, S0, E0 in *; lia).
      destruct (decide (E0 <= rend h x)); symmetry; [apply Z.div_unique with 0|apply Z.div_unique with (rend h x + 1 - S0)]; unfold S0, E0 in *; lia. }
    rewrite Hlow, Hhigh. clear Hlow Hhigh.
    assert (Hiff : (exists y, y ∈ l1 ++ x :: l2 /\ matching h RAM_FLAGS IORES_DESC_NONE y /\ rstart h y <= 4096 * pfn /\ 4096 * pfn + 4095 <= rend h y)
      <-> rstart h x <= S0 /\ E0 <= rend h x).
    { split; [|intros ?; exists x; split_and!; try done; unfold S0, E0 in *; lia]. intros (y & Hy & Hmy & Hy1 & Hy2).
      destruct (decide (y = x)) as [->|Hne]; [unfold S0, E0; lia|]. exfalso. pose proof (fo_sorted _ _ F iomem _ Hk) as Hs.
      apply StronglySorted_app in Hs as (_ & _ & Hs2). apply StronglySorted_inv in Hs2 as [_ Hs2]. rewrite Forall_forall in Hs2.
      rewrite elem_of_app, elem_of_cons in Hy. destruct Hy as [Hy|[Hy|Hy]]; [|done|].
      - apply (Hb y Hy). split; [done|]. unfold meets, S0, E0. lia.
      - specialize (Hs2 y Hy). unfold before, S0, E0 in *. lia. }
    case_decide; case_decide; try rewrite (proj2 (Z.ltb_lt pfn (pfn + 1))) by lia;
      try rewrite (proj2 (Z.ltb_ge (pfn + 1) (pfn + 1))) by lia; try rewrite (proj2 (Z.ltb_ge pfn pfn)) by lia;
      try rewrite (proj2 (Z.ltb_ge (pfn + 1) pfn)) by lia; cbn; eexists; (split; [done|]); rewrite Hiff; split; try done; lia || tauto.
  - cbn [obind]. exists false. split; [done|]. split; [done|]. intros (x & Hx & Hm & ? & ?). exfalso. apply (Hno x Hx). split; [done|].
    unfold meets, S0, E0 in *. lia.
Qed.
