(* ===== verification/ResourceProps.v ===== *)
(** * The resource tree: theorems *)

From S2P Require Import Prelude Memblock Resource ResourceSpec ResourceRelease ResourceFind ResourceRegion.
From stdpp Require Import base list numbers option gmap sorting.
#[local] Open Scope Z_scope.
#[local] Open Scope kernel_scope.

Implicit Types h : mem.

(** ** A small tree

    iomem_resource (1) holds a device (3) and memory (2), memory holds the
    kernel's code (4); 5 is a resource not yet in the tree. *)

Module ResDemo.
Definition ram : Z := Z.lor IORESOURCE_SYSTEM_RAM IORESOURCE_BUSY.
Definition mem5 (s e : Z) : mem :=
  <[1 := mk_res 0 (2 ^ 64 - 1) 0 IORESOURCE_MEM 0 0 0 3]>
  (<[2 := mk_res 0x80000000 0xbfffffff 0 ram 0 1 0 4]>
  (<[3 := mk_res 0x9000000 0x9000fff 0 IORESOURCE_MEM 0 1 2 0]>
  (<[4 := mk_res 0x80080000 0x80ffffff 0 IORESOURCE_MEM 0 2 0 0]>
  (<[5 := mk_res s e 0 IORESOURCE_MEM 0 0 0 0]> ∅)))).
Definition K5 : shape := <[1 := [3; 2]]> (<[2 := [4]]> (<[3 := []]> (<[4 := []]> ∅))).

Lemma K5_inv p l : K5 !! p = Some l -> p = 1 /\ l = [3; 2] \/ p = 2 /\ l = [4] \/ p = 3 /\ l = [] \/ p = 4 /\ l = [].
Proof.
  unfold K5. rewrite !lookup_insert. repeat case_decide; subst; rewrite ?lookup_empty; intros E; try discriminate; injection E as <-; auto 10.
Qed.

Lemma forest5 s e : forest (mem5 s e) K5.
Proof.
  assert (Hdom : forall p, p ∈ dom K5 -> p = 1 \/ p = 2 \/ p = 3 \/ p = 4).
  { intros p [l Hp]%elem_of_dom. apply K5_inv in Hp. intuition. }
  split.
  - by apply not_elem_of_dom.
  - intros p Hp. apply elem_of_dom. destruct (Hdom p Hp) as [->|[->|[->| ->]]]; by eexists.
  - intros p l Hp. destruct (K5_inv p l Hp) as [[-> ->]|[[-> ->]|[[-> ->]|[-> ->]]]]; cbn [lseg];
      repeat (first [done | split; [done|]; split; [apply elem_of_dom; by eexists|]]).
  - intros p l c Hp Hc. destruct (K5_inv p l Hp) as [[-> ->]|[[-> ->]|[[-> ->]|[-> ->]]]];
      rewrite ?elem_of_cons in Hc; destruct_or?; subst; try (by apply not_elem_of_nil in Hc); (split; [done|apply elem_of_dom; by eexists]).
  - intros p l c Hp Hc. destruct (K5_inv p l Hp) as [[-> ->]|[[-> ->]|[[-> ->]|[-> ->]]]];
      rewrite ?elem_of_cons in Hc; destruct_or?; subst; try (by apply not_elem_of_nil in Hc); vm_compute; split; discriminate.
  - intros p l Hp. destruct (K5_inv p l Hp) as [[-> ->]|[[-> ->]|[[-> ->]|[-> ->]]]]; repeat constructor.
  - intros p Hp. destruct (Hdom p Hp) as [->|[->|[->| ->]]]; vm_compute; split_and!; done.
  - intros c Hc. destruct (Hdom c Hc) as [->|[->|[->| ->]]]; intros Hne; try (by destruct Hne);
      (eexists; split; [reflexivity|]); rewrite !elem_of_cons; auto.
  - exists (fun x => if decide (x = 1) then 2%nat else if decide (x = 4) then 0%nat else 1%nat). intros p l c Hp Hc.
    destruct (K5_inv p l Hp) as [[-> ->]|[[-> ->]|[[-> ->]|[-> ->]]]];
      rewrite ?elem_of_cons in Hc; destruct_or?; subst; try (by apply not_elem_of_nil in Hc); vm_compute; lia.
Qed.

Lemma loose5 s e : 0 <= s < U64_MOD -> 0 <= e < U64_MOD -> loose (mem5 s e) K5 5.
Proof. intros Hs He. split; [apply elem_of_dom; by eexists|done|done|]. cbn. by split. Qed.
End ResDemo.
Import ResDemo.

(** ** Theorems *)

(** C18. Requesting a resource: on a well-formed tree request_resource() with a
    resource outside it either succeeds, exactly when the range is valid,
    inside the parent and meets none of its children, and then the resource is
    a child at its place and the tree is well formed; or it returns -EBUSY and
    changes nothing. *)
Theorem request_resource_correct h K root new l :
  forest h K -> K !! root = Some l -> loose h K new ->
  (exists h' l1 l2, request_resource h root new = Ret (h', 0) /\ l = l1 ++ l2 /\ forest h' (add_child K root new l1 l2) /\ same_data h h'
     /\ rstart h new <= rend h new /\ inside h new root /\ forall x, x ∈ l -> ~ overlaps h x new)
  \/ (request_resource h root new = Ret (h, - EBUSY)
     /\ ~ (rstart h new <= rend h new /\ inside h new root /\ forall x, x ∈ l -> ~ overlaps h x new)).
Proof.
  intros F Hk L. unfold request_resource, request_resource_conflict.
  destruct (request_spec h K root new l F Hk L) as
    [(h' & l1 & l2 & -> & Hr & Hi & El & Hb & Ha & Hs & F' & _)|[[-> Hbad]|(c & l1 & l2 & -> & Hr & Hi & El & _ & Ho)]]; cbn [obind].
  - left. exists h', l1, l2. split_and!; try done. intros x Hx [? ?]. rewrite El, elem_of_app in Hx. unfold before in *.
    destruct Hx as [Hx|Hx]; [specialize (Hb x Hx)|specialize (Ha x Hx)]; lia.
  - right. pose proof (not_null h K F root (in_dom h K F root l Hk)). destruct (Z.eqb_spec root 0); [done|]. split; [done|]. tauto.
  - right. assert (Hc : c ∈ l) by (rewrite El, elem_of_app; right; left).
    pose proof (not_null h K F c (kid_dom h K F root l c Hk Hc)). destruct (Z.eqb_spec c 0); [done|]. split; [done|].
    intros (_ & _ & Hno). by apply (Hno c).
Qed.

Lemma request_resource_correct_witness :
  let h := mem5 0x10000000 0x10000fff in
  (exists h' l1 l2, request_resource h 1 5 = Ret (h', 0) /\ [3; 2] = l1 ++ l2 /\ forest h' (add_child K5 1 5 l1 l2) /\ same_data h h'
     /\ rstart h 5 <= rend h 5 /\ inside h 5 1 /\ forall x, x ∈ [3; 2] -> ~ overlaps h x 5)
  \/ (request_resource h 1 5 = Ret (h, - EBUSY)
     /\ ~ (rstart h 5 <= rend h 5 /\ inside h 5 1 /\ forall x, x ∈ [3; 2] -> ~ overlaps h x 5)).
Proof. apply (request_resource_correct (mem5 0x10000000 0x10000fff) K5 1 5 [3; 2] (forest5 _ _)); [reflexivity|by apply loose5]. Defined.

(** C19. Inserting a resource: insert_resource() descends to the innermost
    resource that covers the new range and puts the new resource there, above
    exactly the children it covers; or it returns -EBUSY and changes nothing,
    because the range is invalid, outside the root, or partly overlaps some
    resource of the tree. *)
Theorem insert_resource_correct h K root new :
  forest h K -> root ∈ dom K -> loose h K new ->
  (exists h' p l1 M l3, insert_resource h root new = Ret (h', 0) /\ K !! p = Some (l1 ++ M ++ l3) /\ inside h new p
     /\ (forall x, x ∈ l1 -> before h x new) /\ (forall x, x ∈ M -> inside h x new) /\ (forall x, x ∈ l3 -> before h new x)
     /\ forest h' (put_over K p new l1 M l3) /\ same_data h h')
  \/ (insert_resource h root new = Ret (h, - EBUSY)
     /\ (~ (rstart h new <= rend h new /\ inside h new root)
         \/ exists c, c ∈ dom K /\ overlaps h c new /\ ~ inside h c new /\ ~ inside h new c)).
Proof.
  intros F Hr L. unfold insert_resource, insert_resource_conflict.
  destruct (insert_spec h K root new F Hr L) as
    [(h' & p & l1 & M & l3 & -> & Hp & Hs & _ & Hi & Hb & Hm & Ha & F' & _)|[[-> Hbad]|(c & -> & Hc & Ho & Hni & Hni')]]; cbn [obind].
  - left. by exists h', p, l1, M, l3.
  - right. pose proof (not_null h K F root (fo_dom _ _ F root Hr)). destruct (Z.eqb_spec root 0); [done|]. split; [done|by left].
  - right. pose proof (not_null h K F c (fo_dom _ _ F c Hc)). destruct (Z.eqb_spec c 0); [done|]. split; [done|right]. by exists c.
Qed.

Lemma insert_resource_correct_witness :
  let h := mem5 0x80000000 0x8fffffff in
  (exists h' p l1 M l3, insert_resource h 1 5 = Ret (h', 0) /\ K5 !! p = Some (l1 ++ M ++ l3) /\ inside h 5 p
     /\ (forall x, x ∈ l1 -> before h x 5) /\ (forall x, x ∈ M -> inside h x 5) /\ (forall x, x ∈ l3 -> before h 5 x)
     /\ forest h' (put_over K5 p 5 l1 M l3) /\ same_data h h')
  \/ (insert_resource h 1 5 = Ret (h, - EBUSY)
     /\ (~ (rstart h 5 <= rend h 5 /\ inside h 5 1)
         \/ exists c, c ∈ dom K5 /\ overlaps h c 5 /\ ~ inside h c 5 /\ ~ inside h 5 c)).
Proof. apply (insert_resource_correct (mem5 0x80000000 0x8fffffff) K5 1 5 (forest5 _ _)); [apply elem_of_dom; by eexists|by apply loose5]. Defined.

(** Releasing and removing: release_resource() takes a resource out of its
    parent's list together with everything below it; remove_resource() takes
    out only the resource and moves its children up into its place.  Both
    return 0, keep the tree well formed and change no range. *)
Theorem release_remove_correct h K old :
  forest h K -> old ∈ dom K -> rparent h old <> 0 ->
  exists l1 l2 ks, K !! rparent h old = Some (l1 ++ old :: l2) /\ K !! old = Some ks
    /\ (exists h', release_resource h old = Ret (h', 0) /\ forest h' (<[rparent h old := l1 ++ l2]> K) /\ rparent h' old = 0 /\ same_data h h')
    /\ (exists h', remove_resource h old = Ret (h', 0) /\ forest h' (delete old (<[rparent h old := l1 ++ ks ++ l2]> K)) /\ same_data h h').
Proof.
  intros F Ho Hp. destruct (release_spec h K old F Ho Hp) as (l1 & l2 & h1 & Hq & E1 & Hs1 & F1 & Hpar & _).
  destruct (remove_spec h K old F Ho Hp) as (la & lb & ks & h2 & Hq' & Hks & E2 & Hs2 & F2 & _).
  assert (Heq : la = l1 /\ lb = l2).
  { rewrite Hq in Hq'. injection Hq' as Hq'. apply (nodup_split old); [by apply (kids_nodup h K F (rparent h old))|done]. }
  destruct Heq as [-> ->]. exists l1, l2, ks. split; [done|]. split; [done|]. split; [exists h1|exists h2]; split_and!; try done.
  by rewrite Hpar, decide_True.
Qed.

Lemma release_remove_correct_witness :
  let h := mem5 0 0 in
  exists l1 l2 ks, K5 !! 1 = Some (l1 ++ 2 :: l2) /\ K5 !! 2 = Some ks
    /\ (exists h', release_resource h 2 = Ret (h', 0) /\ forest h' (<[1 := l1 ++ l2]> K5) /\ rparent h' 2 = 0 /\ same_data h h')
    /\ (exists h', remove_resource h 2 = Ret (h', 0) /\ forest h' (delete 2 (<[1 := l1 ++ ks ++ l2]> K5)) /\ same_data h h').
Proof. apply (release_remove_correct (mem5 0 0) K5 2 (forest5 _ _)); [apply elem_of_dom; by eexists|discriminate]. Defined.

(** Inserting a resource and removing it again represents the same tree
    with the same ranges, whatever the insertion moved below it. *)
Theorem insert_remove_roundtrip h K root new h1 :
  forest h K -> root ∈ dom K -> loose h K new -> insert_resource h root new = Ret (h1, 0) ->
  exists h2, remove_resource h1 new = Ret (h2, 0) /\ forest h2 K /\ same_data h h2.
Proof.
  intros F Hr L E. unfold insert_resource, insert_resource_conflict in E.
  assert (Hz : forall c, c ∈ dom K -> (if negb (c =? 0) then - EBUSY else 0) = - EBUSY).
  { intros c Hc. pose proof (not_null h K F c (fo_dom _ _ F c Hc)). by destruct (Z.eqb_spec c 0). }
  destruct (insert_spec h K root new F Hr L) as
    [(h' & p & l1 & M & l3 & E' & Hp & Hs & _ & _ & _ & _ & _ & F' & Hpar)|[[E' _]|(c & E' & Hc & _)]]; rewrite E' in E; cbn [obind] in E.
  2:{ rewrite (Hz root Hr) in E. discriminate. }
  2:{ rewrite (Hz c Hc) in E. discriminate. }
  injection E as <-. assert (Hne : new <> p) by (intros ->; by rewrite (lo_out _ _ _ L) in Hp).
  assert (Hn : new ∈ dom (put_over K p new l1 M l3)) by (apply elem_of_dom; unfold put_over; by rewrite lookup_insert_eq).
  pose proof (not_null h K F p (in_dom h K F p _ Hp)) as Hp0.
  destruct (remove_spec h' _ new F' Hn) as (la & lb & ks & h2 & Hq & Hks & E2 & Hs2 & F2 & _); [by rewrite Hpar|]. rewrite Hpar in *.
  assert (Hpl : put_over K p new l1 M l3 !! p = Some (l1 ++ new :: l3)) by (unfold put_over; rewrite lookup_insert_ne, lookup_insert_eq by done; done).
  assert (Hkm : ks = M) by (unfold put_over in Hks; rewrite lookup_insert_eq in Hks; by injection Hks).
  assert (Heq : la = l1 /\ lb = l3).
  { rewrite Hpl in Hq. injection Hq as Hq. apply (nodup_split new); [by apply (kids_nodup h' _ F' p)|done]. }
  destruct Heq as [-> ->]. subst ks. rewrite (put_over_undo K p new l1 M l3 Hp (lo_out _ _ _ L)) in F2.
  exists h2. split_and!; [done|done|]. by apply (same_data_trans h h').
Qed.

Definition after_insert : mem := match insert_resource (mem5 0x80000000 0x8fffffff) 1 5 with Ret (h, _) => h | _ => ∅ end.
Lemma insert_remove_roundtrip_witness :
  exists h2, remove_resource after_insert 5 = Ret (h2, 0) /\ forest h2 K5 /\ same_data (mem5 0x80000000 0x8fffffff) h2.
Proof.
  apply (insert_remove_roundtrip (mem5 0x80000000 0x8fffffff) K5 1 5 after_insert (forest5 _ _)); [apply elem_of_dom; by eexists|by apply loose5|].
  vm_compute. reflexivity.
Defined.

(** C20. Allocation is sound and complete: allocate_resource() of a resource
    that is in no tree gives it an aligned range of the requested size inside
    the root and the limits that meets no child and makes it a child there, or
    answers -EBUSY, leaves the tree alone, and no such range exists. *)
Theorem allocate_resource_correct h K root l new size min max k :
  forest h K -> K !! root = Some l -> loose h K new -> rparent h new = 0 ->
  is_u64 min -> is_u64 max -> 1 <= size < U64_MOD -> 0 <= k < 64 ->
  (exists h' s l1 l2, allocate_resource h root new size min max (2 ^ k) None = Ret (h', 0) /\ room h root l min max size (2 ^ k) s
     /\ rstart h' new = s /\ rend h' new = s + size - 1 /\ l = l1 ++ l2 /\ forest h' (add_child K root new l1 l2))
  \/ (exists h', allocate_resource h root new size min max (2 ^ k) None = Ret (h', - EBUSY)
     /\ (forall s, ~ room h root l min max size (2 ^ k) s) /\ forest h' K /\ forall x, x <> new -> h' !! x = h !! x).
Proof.
  intros F Hk L Hp Hmin Hmax Hsize Hal.
  destruct (allocate_spec h K root l new size min max k F Hk L Hp Hmin Hmax Hsize Hal) as [(h' & s & l1 & l2 & ? & ? & ? & ? & ? & _ & ?)|?];
    [left; by exists h', s, l1, l2|by right].
Qed.

Lemma allocate_resource_correct_witness :
  let h := mem5 0 0 in
  (exists h' s l1 l2, allocate_resource h 1 5 0x1000 0x1000 0xffffffff (2 ^ 12) None = Ret (h', 0)
     /\ room h 1 [3; 2] 0x1000 0xffffffff 0x1000 (2 ^ 12) s
     /\ rstart h' 5 = s /\ rend h' 5 = s + 0x1000 - 1 /\ [3; 2] = l1 ++ l2 /\ forest h' (add_child K5 1 5 l1 l2))
  \/ (exists h', allocate_resource h 1 5 0x1000 0x1000 0xffffffff (2 ^ 12) None = Ret (h', - EBUSY)
     /\ (forall s, ~ room h 1 [3; 2] 0x1000 0xffffffff 0x1000 (2 ^ 12) s) /\ forest h' K5 /\ forall x, x <> 5 -> h' !! x = h !! x).
Proof.
  apply (allocate_resource_correct (mem5 0 0) K5 1 [3; 2] 5 0x1000 0x1000 0xffffffff 12 (forest5 _ _));
    [reflexivity|by apply loose5|reflexivity|unfold is_u64, U64_MOD; lia|unfold is_u64, U64_MOD; lia|unfold U64_MOD; lia|lia].
Defined.

(** Adjusting a range: adjust_resource() to a nonempty range that does not
    wrap succeeds exactly when the new range stays inside the parent, clear of
    the neighbours and around the children; then only the range changes and
    the tree is well formed, otherwise nothing changes. *)
Theorem adjust_resource_correct h K res start size :
  forest h K -> res ∈ dom K -> 0 <= start -> 1 <= size -> start + size <= U64_MOD ->
  (exists h', adjust_resource h res start size = Ret (h', 0) /\ adjustable h K res start (start + size - 1) /\ forest h' K
     /\ rstart h' res = start /\ rend h' res = start + size - 1 /\ forall x, x <> res -> h' !! x = h !! x)
  \/ (adjust_resource h res start size = Ret (h, - EBUSY) /\ ~ adjustable h K res start (start + size - 1)).
Proof.
  intros F Hres Hs Hz He. destruct (adjust_spec h K res start size F Hres Hs Hz He) as [[E Ha]|?]; [left|by right].
  eexists. split; [exact E|]. pose proof (fo_dom _ _ F res Hres) as Hd. destruct (range_after h res start (start + size - 1) Hd) as [-> ->].
  split_and!; try done; [by apply adjust_forest|]. intros x Hx. by apply lookup_alter_ne.
Qed.

Lemma adjust_resource_correct_witness :
  let h := mem5 0 0 in
  (exists h', adjust_resource h 2 0x80000000 0x20000000 = Ret (h', 0) /\ adjustable h K5 2 0x80000000 (0x80000000 + 0x20000000 - 1) /\ forest h' K5
     /\ rstart h' 2 = 0x80000000 /\ rend h' 2 = 0x80000000 + 0x20000000 - 1 /\ forall x, x <> 2 -> h' !! x = h !! x)
  \/ (adjust_resource h 2 0x80000000 0x20000000 = Ret (h, - EBUSY) /\ ~ adjustable h K5 2 0x80000000 (0x80000000 + 0x20000000 - 1)).
Proof.
  apply (adjust_resource_correct (mem5 0 0) K5 2 0x80000000 0x20000000 (forest5 _ _)); [apply elem_of_dom; by eexists|lia|lia|unfold U64_MOD; lia].
Defined.

(** C21. Reserving with splits: reserve_region_with_split() terminates, keeps
    every resource of the tree and its range, adds children only inside the
    requested range cut to the root, and when no allocation fails every
    address of that range ends up inside some child of the root. *)
Theorem reserve_region_correct kzalloc is_slab st K root l start end_ name :
  kzalloc_fresh kzalloc -> res_ok st K [] -> K !! root = Some l -> is_u64 start -> is_u64 end_ -> start <= end_ ->
  let a := Z.max start (rstart (rs_mem st) root) in let b := Z.min end_ (rend (rs_mem st) root) in
  exists st' K' l', reserve_region_with_split kzalloc is_slab st root start end_ name = Ret st' /\ res_ok st' K' []
    /\ K' !! root = Some l' /\ (forall x, x ∈ l -> x ∈ l')
    /\ (forall x, x ∈ dom K -> x ∈ dom K' /\ rstart (rs_mem st') x = rstart (rs_mem st) x /\ rend (rs_mem st') x = rend (rs_mem st) x)
    /\ (forall x, x ∈ l' -> x ∈ l \/ a <= rstart (rs_mem st') x /\ rend (rs_mem st') x <= b)
    /\ ((forall st, kzalloc st <> 0) -> forall y, a <= y <= b -> exists x, x ∈ l' /\ rstart (rs_mem st') x <= y <= rend (rs_mem st') x).
Proof.
  intros Hf Hok Hk Hs He Hse a b. destruct (reserve_spec kzalloc is_slab st K root l start end_ name Hf Hok Hk Hs He Hse) as
    [(Hab & st' & K' & l' & E & Hok' & Hk' & HK & [O D N] & Hc)|[Hba E]].
  - exists st', K', l'. split_and!; try done. intros x Hx. split; [by apply HK|by apply D].
  - exists st, K, l. split_and!; try done; [by left|]. intros _ y Hy. unfold a, b in Hy. lia.
Qed.

(** The next address after all those in use. *)
Definition bump (st : res_state) : Z := 1 + foldr Z.max 0 (elements (dom (rs_mem st))).
Lemma bump_fresh : kzalloc_fresh bump.
Proof.
  intros st. right. assert (Hle : forall l : list Z, 0 <= foldr Z.max 0 l /\ forall x, x ∈ l -> x <= foldr Z.max 0 l).
  { induction l as [|y l [IH0 IH]]; cbn; [split; [done|]; by intros x ?%not_elem_of_nil|]. split; [lia|].
    intros x [->|Hx]%elem_of_cons; [lia|specialize (IH x Hx); lia]. }
  destruct (Hle (elements (dom (rs_mem st)))) as [H0 Hx]. unfold bump. split; [lia|]. intros Hin%elem_of_elements.
  specialize (Hx _ Hin). lia.
Qed.

Lemma reserve_region_correct_witness :
  let st := mk_rs (mem5 0 0) 0 in
  let a := Z.max 0x8f00000 (rstart (rs_mem st) 1) in let b := Z.min 0xffffffff (rend (rs_mem st) 1) in
  exists st' K' l', reserve_region_with_split bump (fun _ => true) st 1 0x8f00000 0xffffffff 0 = Ret st' /\ res_ok st' K' []
    /\ K' !! 1 = Some l' /\ (forall x, x ∈ [3; 2] -> x ∈ l')
    /\ (forall x, x ∈ dom K5 -> x ∈ dom K' /\ rstart (rs_mem st') x = rstart (rs_mem st) x /\ rend (rs_mem st') x = rend (rs_mem st) x)
    /\ (forall x, x ∈ l' -> x ∈ [3; 2] \/ a <= rstart (rs_mem st') x /\ rend (rs_mem st') x <= b)
    /\ ((forall st, bump st <> 0) -> forall y, a <= y <= b -> exists x, x ∈ l' /\ rstart (rs_mem st') x <= y <= rend (rs_mem st') x).
Proof.
  apply (reserve_region_correct bump (fun _ => true) (mk_rs (mem5 0 0) 0) K5 1 [3; 2] 0x8f00000 0xffffffff 0 bump_fresh);
    [|reflexivity|unfold is_u64, U64_MOD; lia|unfold is_u64, U64_MOD; lia|lia].
  split; [apply forest5|by intros x ?%not_elem_of_nil|]. exists []. split_and!; [done|constructor|by intros x ?%not_elem_of_nil].
Defined.

(** region_intersects() classifies a range by the first level of the tree:
    it intersects when it meets a resource of the asked kind and no other, is
    mixed when it meets both, and disjoint when it meets none of the kind. *)
Theorem region_intersects_correct h K iomem l start size flags desc :
  forest h K -> K !! iomem = Some l -> 0 <= start -> 1 <= size -> start + size <= U64_MOD -> 3 * Z.of_nat (length l) < 2 ^ 31 ->
  exists r, region_intersects iomem h start size flags desc = Ret r
    /\ let hit := fun b => exists x, x ∈ l /\ matches (at_ h x) flags desc = b /\ meets h x start (start + size - 1) in
       match r with
       | REGION_INTERSECTS => hit true /\ ~ hit false
       | REGION_DISJOINT => ~ hit true
       | REGION_MIXED => hit true /\ hit false
       end.
Proof. apply region_intersects_spec. Qed.

Lemma region_intersects_correct_witness :
  let h := mem5 0 0 in
  exists r, region_intersects 1 h 0x9000800 0x80000000 IORESOURCE_SYSTEM_RAM IORES_DESC_NONE = Ret r
    /\ let hit := fun b => exists x, x ∈ [3; 2] /\ matches (at_ h x) IORESOURCE_SYSTEM_RAM IORES_DESC_NONE = b
                             /\ meets h x 0x9000800 (0x9000800 + 0x80000000 - 1) in
       match r with
       | REGION_INTERSECTS => hit true /\ ~ hit false
       | REGION_DISJOINT => ~ hit true
       | REGION_MIXED => hit true /\ hit false
       end.
Proof.
  apply (region_intersects_correct (mem5 0 0) K5 1 [3; 2] 0x9000800 0x80000000 _ _ (forest5 _ _)); [reflexivity|lia|lia|unfold U64_MOD; lia|cbn; lia].
Defined.

(** page_is_ram() holds exactly when one busy System RAM resource on the
    first level covers the whole page. *)
Theorem page_is_ram_correct h K iomem l pfn :
  forest h K -> K !! iomem = Some l -> 0 <= pfn < 2 ^ 52 - 1 ->
  exists b, page_is_ram iomem h pfn = Ret b
    /\ (b = true <-> exists x, x ∈ l /\ matches (at_ h x) (Z.lor IORESOURCE_SYSTEM_RAM IORESOURCE_BUSY) IORES_DESC_NONE = true
          /\ rstart h x <= 4096 * pfn /\ 4096 * pfn + 4095 <= rend h x).
Proof. apply page_is_ram_spec. Qed.

Lemma page_is_ram_correct_witness :
  let h := mem5 0 0 in
  exists b, page_is_ram 1 h 0x80000 = Ret b
    /\ (b = true <-> exists x, x ∈ [3; 2] /\ matches (at_ h x) (Z.lor IORESOURCE_SYSTEM_RAM IORESOURCE_BUSY) IORES_DESC_NONE = true
          /\ rstart h x <= 4096 * 0x80000 /\ 4096 * 0x80000 + 4095 <= rend h x).
Proof. apply (page_is_ram_correct (mem5 0 0) K5 1 [3; 2] 0x80000 (forest5 _ _)); [reflexivity|lia]. Defined.

(** ** Examples *)

(** A first range of memory smaller than a page ends the walk before the
    callback has seen any of the memory that follows. *)
Definition two_ranges : mem :=
  <[1 := mk_res 0 (2 ^ 64 - 1) 0 IORESOURCE_MEM 0 0 0 2]>
  (<[2 := mk_res 0x800 0xfff 0 ram 0 1 3 0]> (<[3 := mk_res 0x1000 0x4fff 0 ram 0 1 0 0]> ∅)).

Example walk_stops_early :
  walk_system_ram_range 1 two_ranges 0 8 [] (fun pfn n seen => (0, (pfn, n) :: seen)) = Ret (-1, [])
  /\ walk_system_ram_range 1 two_ranges 1 7 [] (fun pfn n seen => (0, (pfn, n) :: seen)) = Ret (0, [(1, 4)]).
Proof. split; vm_compute; reflexivity. Qed.

(** A range that ends with the address space makes the walk start over. *)
Definition to_the_top : mem :=
  <[1 := mk_res 0 (2 ^ 64 - 1) 0 IORESOURCE_MEM 0 0 0 2]> (<[2 := mk_res (2 ^ 64 - 4096) (2 ^ 64 - 1) 0 ram 0 1 0 0]> ∅).

Lemma walk_never_ends fuel : forall n ret,
  walk_loop 1 fuel to_the_top (fun _ n => (0, n + 1)) 0 (2 ^ 64 - 1) (Z.lor IORESOURCE_SYSTEM_RAM IORESOURCE_BUSY) IORES_DESC_NONE true n ret = Stuck.
Proof. induction fuel as [|fuel IH]; intros n ret; [done|]. exact (IH (n + 1) 0). Qed.

(** A size of 0 turns a resource into an empty range. *)
Example adjust_to_empty :
  match adjust_resource (mem5 0 0) 3 0x9000000 0 with Ret (h, r) => r = 0 /\ rend h 3 < rstart h 3 | _ => False end.
Proof. vm_compute. split; reflexivity. Qed.

Example request_and_conflict :
  match request_resource (mem5 0x10000000 0x10000fff) 1 5 with Ret (h, r) => r = 0 /\ rsib h 3 = 5 /\ rsib h 5 = 2 | _ => False end
  /\ match __request_resource (mem5 0x9000800 0x90017ff) 1 5 with Ret (_, c) => c = 3 | _ => False end.
Proof. vm_compute. repeat split; reflexivity. Qed.
