(* ===== verification/Rbtree.v ===== *)
(** * Red-black trees

    Model of src/lib/rbtree.c with src/include/linux/rbtree.h and
    src/include/linux/rbtree_augmented.h.  A node is known by its address; memory
    gives the three words of the node at every address, the parent pointer and
    the colour packed into one.  Following NULL is a panic.

    The source writes every case of the rebalancing twice, once for each side,
    and the two copies are mirror images; here a case is written once for a
    [side] and the field on that side.  The callbacks that keep augmented data
    are the dummies that rb_insert_color() and rb_erase() pass. *)

From S2P Require Import Prelude Bitops.
From stdpp Require Import base list numbers option.
#[local] Open Scope Z_scope.
#[local] Open Scope kernel_scope.

Definition RB_RED : Z := 0.
Definition RB_BLACK : Z := 1.

(** [struct rb_node] at every address. *)
Record rbmem := mk_rbmem { pc_of : Z -> Z; right_of : Z -> Z; left_of : Z -> Z }.

Definition upd (f : Z -> Z) (x v : Z) : Z -> Z := fun k => if k =? x then v else f k.

Variant side := L | R.
Definition opp (s : side) : side := match s with L => R | R => L end.

(** Loads and stores through a pointer. *)
Definition deref {A} (x : Z) (a : A) : outcome A := if x =? 0 then Panic else Ret a.
Definition ld_pc (m : rbmem) (x : Z) : outcome Z := deref x (pc_of m x).
Definition ld (s : side) (m : rbmem) (x : Z) : outcome Z :=
  deref x (match s with L => left_of m x | R => right_of m x end).
Definition st_pc (m : rbmem) (x v : Z) : outcome rbmem :=
  deref x (mk_rbmem (upd (pc_of m) x v) (right_of m) (left_of m)).
Definition st (s : side) (m : rbmem) (x v : Z) : outcome rbmem :=
  deref x (match s with
           | L => mk_rbmem (pc_of m) (right_of m) (upd (left_of m) x v)
           | R => mk_rbmem (pc_of m) (upd (right_of m) x v) (left_of m)
           end).

Definition __rb_parent (pc : Z) : Z := Z.land pc (not64 3).
Definition __rb_color (pc : Z) : Z := Z.land pc 1.
Definition __rb_is_black (pc : Z) : bool := negb (__rb_color pc =? 0).
Definition __rb_is_red (pc : Z) : bool := __rb_color pc =? 0.

Definition rb_parent (m : rbmem) (x : Z) : outcome Z := let! pc := ld_pc m x in Ret (__rb_parent pc).
Definition rb_is_red (m : rbmem) (x : Z) : outcome bool := let! pc := ld_pc m x in Ret (__rb_is_red pc).
Definition rb_is_black (m : rbmem) (x : Z) : outcome bool := let! pc := ld_pc m x in Ret (__rb_is_black pc).
Definition rb_red_parent (m : rbmem) (x : Z) : outcome Z := ld_pc m x.

Definition rb_set_black (m : rbmem) (x : Z) : outcome rbmem :=
  let! pc := ld_pc m x in st_pc m x (Z.lor pc RB_BLACK).
Definition rb_set_parent (m : rbmem) (x p : Z) : outcome rbmem :=
  let! pc := ld_pc m x in st_pc m x (Z.lor (__rb_color pc) p).
Definition rb_set_parent_color (m : rbmem) (x p color : Z) : outcome rbmem := st_pc m x (Z.lor p color).

(** The root is a pointer of its own. *)
Definition __rb_change_child (m : rbmem) (root old new parent : Z) : outcome (rbmem * Z) :=
  if negb (parent =? 0) then
    let! l := ld L m parent in
    let! m1 := st (if l =? old then L else R) m parent new in
    Ret (m1, root)
  else Ret (m, new).

Definition __rb_rotate_set_parents (m : rbmem) (root old new color : Z) : outcome (rbmem * Z) :=
  let! parent := rb_parent m old in
  let! pc := ld_pc m old in
  let! m1 := st_pc m new pc in
  let! m2 := rb_set_parent_color m1 old new color in
  __rb_change_child m2 root old new parent.

(** ** Linking a new node *)

(** Where a pointer to a node is stored: [&root->rb_node] or a field. *)
Variant rb_link := AtRoot | AtField (p : Z) (s : side).

Definition store_link (m : rbmem) (root : Z) (l : rb_link) (v : Z) : outcome (rbmem * Z) :=
  match l with
  | AtRoot => Ret (m, v)
  | AtField p s => let! m1 := st s m p v in Ret (m1, root)
  end.
Definition rb_link_node (m : rbmem) (root node parent : Z) (l : rb_link) : outcome (rbmem * Z) :=
  let! m1 := st_pc m node parent in
  let! m2 := st R m1 node 0 in
  let! m3 := st L m2 node 0 in
  store_link m3 root l node.

(** ** Rebalancing after an insertion *)

Definition when (b : bool) (m : rbmem) (f : outcome rbmem) : outcome rbmem := if b then f else Ret m.

(** Cases 2 and 3 for a [parent] on side [s] of [gparent]. *)
Definition insert_rotate (s : side) (m : rbmem) (root node parent gparent : Z) : outcome (rbmem * Z) :=
  let! tmp := ld (opp s) m parent in
  let! (m, parent, tmp) :=
    if node =? tmp then
      let! tmp := ld s m node in
      let! m := st (opp s) m parent tmp in
      let! m := st s m node parent in
      let! m := when (negb (tmp =? 0)) m (rb_set_parent_color m tmp parent RB_BLACK) in
      let! m := rb_set_parent_color m parent node RB_RED in
      let! tmp := ld (opp s) m node in
      Ret (m, node, tmp)
    else Ret (m, parent, tmp) in
  let! m := st s m gparent tmp in
  let! m := st (opp s) m parent gparent in
  let! m := when (negb (tmp =? 0)) m (rb_set_parent_color m tmp gparent RB_BLACK) in
  __rb_rotate_set_parents m root gparent parent RB_RED.

Fixpoint insert_loop (fuel : nat) (m : rbmem) (root node parent : Z) : outcome (rbmem * Z) :=
  match fuel with
  | O => Stuck
  | S fuel' =>
      if parent =? 0 then
        let! m := rb_set_parent_color m node 0 RB_BLACK in Ret (m, root)
      else
        let! black := rb_is_black m parent in
        if black then Ret (m, root)
        else
          let! gparent := rb_red_parent m parent in
          let! tmp := ld R m gparent in
          let s := if negb (parent =? tmp) then L else R in
          let! tmp := ld (opp s) m gparent in
          let! red := if negb (tmp =? 0) then rb_is_red m tmp else Ret false in
          if red then
            let! m := rb_set_parent_color m tmp gparent RB_BLACK in
            let! m := rb_set_parent_color m parent gparent RB_BLACK in
            let! p := rb_parent m gparent in
            let! m := rb_set_parent_color m gparent p RB_RED in
            insert_loop fuel' m root gparent p
          else insert_rotate s m root node parent gparent
  end.

Definition __rb_insert (fuel : nat) (m : rbmem) (root node : Z) : outcome (rbmem * Z) :=
  let! parent := rb_red_parent m node in
  insert_loop fuel m root node parent.

(** A path of a tree in memory is never longer than this. *)
Definition PATH_FUEL : nat := 200.
Definition rb_insert_color (m : rbmem) (root node : Z) : outcome (rbmem * Z) := __rb_insert PATH_FUEL m root node.

(** ** Rebalancing after a removal *)

(** Case 4, left rotation at [parent] when the short side is [s]. *)
Definition erase_case4 (s : side) (m : rbmem) (root parent sibling tmp1 : Z) : outcome (rbmem * Z) :=
  let! tmp2 := ld s m sibling in
  let! m := st (opp s) m parent tmp2 in
  let! m := st s m sibling parent in
  let! m := rb_set_parent_color m tmp1 sibling RB_BLACK in
  let! m := when (negb (tmp2 =? 0)) m (rb_set_parent m tmp2 parent) in
  __rb_rotate_set_parents m root parent sibling RB_BLACK.

(** Case 1: a red sibling is rotated above [parent]; the new sibling. *)
Definition erase_case1 (s : side) (m : rbmem) (root parent sibling : Z) : outcome (rbmem * Z * Z) :=
  let! tmp1 := ld s m sibling in
  let! m := st (opp s) m parent tmp1 in
  let! m := st s m sibling parent in
  let! m := rb_set_parent_color m tmp1 parent RB_BLACK in
  let! (m, root) := __rb_rotate_set_parents m root parent sibling RB_RED in
  Ret (m, root, tmp1).

(** Case 3: right rotation at [sibling]; the new [tmp1] and sibling. *)
Definition erase_case3 (s : side) (m : rbmem) (parent sibling tmp2 : Z) : outcome rbmem :=
  let! tmp1 := ld (opp s) m tmp2 in
  let! m := st s m sibling tmp1 in
  let! m := st (opp s) m tmp2 sibling in
  let! m := st (opp s) m parent tmp2 in
  when (negb (tmp1 =? 0)) m (rb_set_parent_color m tmp1 sibling RB_BLACK).

Definition null_or_black (m : rbmem) (x : Z) : outcome bool :=
  if negb (x =? 0) then rb_is_black m x else Ret true.

(** Cases 2 to 4, the sibling being black; [again] is the next turn of the
    loop. *)
Definition erase_black (again : rbmem -> Z -> Z -> Z -> outcome (rbmem * Z)) (s : side) (m : rbmem)
    (root parent sibling : Z) : outcome (rbmem * Z) :=
  let! tmp1 := ld (opp s) m sibling in
  let! b1 := null_or_black m tmp1 in
  if b1 then
    let! tmp2 := ld s m sibling in
    let! b2 := null_or_black m tmp2 in
    if b2 then
      let! m := rb_set_parent_color m sibling parent RB_RED in
      let! red := rb_is_red m parent in
      if red then let! m := rb_set_black m parent in Ret (m, root)
      else
        let! p := rb_parent m parent in
        if negb (p =? 0) then again m root parent p else Ret (m, root)
    else
      let! m := erase_case3 s m parent sibling tmp2 in
      erase_case4 s m root parent tmp2 sibling
  else erase_case4 s m root parent sibling tmp1.

Fixpoint erase_loop (fuel : nat) (m : rbmem) (root node parent : Z) : outcome (rbmem * Z) :=
  match fuel with
  | O => Stuck
  | S fuel' =>
      let! rgt := ld R m parent in
      let s := if negb (node =? rgt) then L else R in
      let! sibling := ld (opp s) m parent in
      let! red := rb_is_red m sibling in
      let! (m, root, sibling) := if red then erase_case1 s m root parent sibling else Ret (m, root, sibling) in
      erase_black (erase_loop fuel') s m root parent sibling
  end.

(** ** First, last, next, previous *)

(** [while (n->rb_left) n = n->rb_left]: as far as possible to one side. *)
Fixpoint far (fuel : nat) (s : side) (m : rbmem) (n : Z) : outcome Z :=
  match fuel with
  | O => Stuck
  | S fuel' =>
      let! c := ld s m n in
      if negb (c =? 0) then far fuel' s m c else Ret n
  end.
Definition rb_end (s : side) (m : rbmem) (root : Z) : outcome Z :=
  if root =? 0 then Ret 0 else far PATH_FUEL s m root.
Definition rb_first (m : rbmem) (root : Z) : outcome Z := rb_end L m root.
Definition rb_last (m : rbmem) (root : Z) : outcome Z := rb_end R m root.

(** [while ((parent = rb_parent(node)) && node == parent->rb_right)] *)
Fixpoint climb (fuel : nat) (s : side) (m : rbmem) (node : Z) : outcome Z :=
  match fuel with
  | O => Stuck
  | S fuel' =>
      let! parent := rb_parent m node in
      if negb (parent =? 0) then
        let! c := ld s m parent in
        if node =? c then climb fuel' s m parent else Ret parent
      else Ret parent
  end.
Definition RB_EMPTY_NODE (m : rbmem) (x : Z) : outcome bool := let! pc := ld_pc m x in Ret (pc =? x).
Definition RB_CLEAR_NODE (m : rbmem) (x : Z) : outcome rbmem := st_pc m x x.

(** rb_next() goes to side [R] first, rb_prev() to side [L]. *)
Definition rb_step (s : side) (m : rbmem) (node : Z) : outcome Z :=
  let! e := RB_EMPTY_NODE m node in
  if e then Ret 0
  else
    let! c := ld s m node in
    if negb (c =? 0) then far PATH_FUEL (opp s) m c else climb PATH_FUEL s m node.
Definition rb_next (m : rbmem) (node : Z) : outcome Z := rb_step R m node.
Definition rb_prev (m : rbmem) (node : Z) : outcome Z := rb_step L m node.

(** ** Removal *)

(** [do { parent = successor; successor = tmp; tmp = tmp->rb_left; } while (tmp)] *)
Fixpoint succ_loop (fuel : nat) (m : rbmem) (successor tmp : Z) : outcome (Z * Z) :=
  match fuel with
  | O => Stuck
  | S fuel' =>
      let parent := successor in
      let successor := tmp in
      let! tmp := ld L m tmp in
      if negb (tmp =? 0) then succ_loop fuel' m successor tmp else Ret (parent, successor)
  end.

(** The second half of cases 2 and 3: the successor takes the place of the
    node, [child2] that of the successor below [parent]. *)
Definition erase_relink (m : rbmem) (root node successor parent child2 : Z) : outcome (rbmem * Z * Z) :=
  let! tmp := ld L m node in
  let! m := st L m successor tmp in
  let! m := rb_set_parent m tmp successor in
  let! pc := ld_pc m node in
  let! (m, root) := __rb_change_child m root node successor (__rb_parent pc) in
  if negb (child2 =? 0) then
    let! m := st_pc m successor pc in
    let! m := rb_set_parent_color m child2 parent RB_BLACK in
    Ret (m, root, 0)
  else
    let! pc2 := ld_pc m successor in
    let! m := st_pc m successor pc in
    Ret (m, root, if __rb_is_black pc2 then parent else 0).

(** The memory, the root and the node to rebalance from, 0 for none. *)
Definition __rb_erase (m : rbmem) (root node : Z) : outcome (rbmem * Z * Z) :=
  let! child := ld R m node in
  let! tmp := ld L m node in
  if tmp =? 0 then
    let! pc := ld_pc m node in
    let parent := __rb_parent pc in
    let! (m, root) := __rb_change_child m root node child parent in
    if negb (child =? 0) then let! m := st_pc m child pc in Ret (m, root, 0)
    else Ret (m, root, if __rb_is_black pc then parent else 0)
  else if child =? 0 then
    let! pc := ld_pc m node in
    let! m := st_pc m tmp pc in
    let parent := __rb_parent pc in
    let! (m, root) := __rb_change_child m root node tmp parent in
    Ret (m, root, 0)
  else
    let! lft := ld L m child in
    let! (m, parent, successor, child2) :=
      if lft =? 0 then
        let! child2 := ld R m child in
        Ret (m, child, child, child2)
      else
        let! (parent, successor) := succ_loop PATH_FUEL m child lft in
        let! child2 := ld R m successor in
        let! m := st L m parent child2 in
        let! m := st R m successor child in
        let! m := rb_set_parent m child successor in
        Ret (m, parent, successor, child2) in
    erase_relink m root node successor parent child2.

Definition rb_erase (m : rbmem) (root node : Z) : outcome (rbmem * Z) :=
  let! (m, root, rebalance) := __rb_erase m root node in
  if negb (rebalance =? 0) then erase_loop PATH_FUEL m root 0 rebalance else Ret (m, root).

(** ** Replacement of a node *)
Definition rb_replace_node (m : rbmem) (root victim new : Z) : outcome (rbmem * Z) :=
  let! parent := rb_parent m victim in
  let! pc := ld_pc m victim in
  let! r := ld R m victim in
  let! l := ld L m victim in
  let! m := st_pc m new pc in
  let! m := st R m new r in
  let! m := st L m new l in
  let! m := when (negb (l =? 0)) m (rb_set_parent m l new) in
  let! m := when (negb (r =? 0)) m (rb_set_parent m r new) in
  __rb_change_child m root victim new parent.

(** ** Trees that remember their leftmost node *)

Definition rb_insert_color_cached (m : rbmem) (root leftmost node : Z) (newleft : bool) : outcome (rbmem * Z * Z) :=
  let leftmost := if newleft then node else leftmost in
  let! (m, root) := rb_insert_color m root node in
  Ret (m, root, leftmost).
Definition rb_erase_cached (m : rbmem) (root leftmost node : Z) : outcome (rbmem * Z * Z) :=
  let! leftmost := if node =? leftmost then rb_next m node else Ret leftmost in
  let! (m, root) := rb_erase m root node in
  Ret (m, root, leftmost).

Definition rb_replace_node_cached (m : rbmem) (root leftmost victim new : Z) : outcome (rbmem * Z * Z) :=
  let! (m, root) := rb_replace_node m root victim new in
  Ret (m, root, if leftmost =? victim then new else leftmost).

(** ** Postorder *)

Fixpoint rb_left_deepest_node (fuel : nat) (m : rbmem) (node : Z) : outcome Z :=
  match fuel with
  | O => Stuck
  | S fuel' =>
      let! l := ld L m node in
      if negb (l =? 0) then rb_left_deepest_node fuel' m l
      else
        let! r := ld R m node in
        if negb (r =? 0) then rb_left_deepest_node fuel' m r else Ret node
  end.
Definition rb_next_postorder (m : rbmem) (node : Z) : outcome Z :=
  if node =? 0 then Ret 0
  else
    let! parent := rb_parent m node in
    if negb (parent =? 0) then
      let! l := ld L m parent in
      let! r := ld R m parent in
      if (node =? l) && negb (r =? 0) then rb_left_deepest_node PATH_FUEL m r else Ret parent
    else Ret parent.
Definition rb_first_postorder (m : rbmem) (root : Z) : outcome Z :=
  if root =? 0 then Ret 0 else rb_left_deepest_node PATH_FUEL m root.

(** ** A user's search for the place of a new node *)

(** [while ( *p) { parent = *p; ... p = &( *p)->rb_left or rb_right; }] from [cur],
    the user's comparison being [go]; the parent and the pointer found, and
    whether the search only went left, which the users of cached trees note in
    a flag of their own. *)
Fixpoint rb_descend (fuel : nat) (go : Z -> outcome side) (m : rbmem) (cur parent : Z) (l : rb_link) (leftmost : bool)
    : outcome (Z * rb_link * bool) :=
  match fuel with
  | O => Stuck
  | S fuel' =>
      if cur =? 0 then Ret (parent, l, leftmost)
      else
        let! s := go cur in
        let! next := ld s m cur in
        rb_descend fuel' go m next cur (AtField cur s) (match s with L => leftmost | R => false end)
  end.
(** The search, rb_link_node() and rb_insert_color(). *)
Definition rb_add (go : Z -> outcome side) (m : rbmem) (root node : Z) : outcome (rbmem * Z) :=
  let! (parent, l, _) := rb_descend PATH_FUEL go m root 0 AtRoot true in
  let! (m, root) := rb_link_node m root node parent l in
  rb_insert_color m root node.
(** The search, rb_link_node() and rb_insert_color_cached(). *)
Definition rb_add_cached (go : Z -> outcome side) (m : rbmem) (root leftmost node : Z) : outcome (rbmem * Z * Z) :=
  let! (parent, l, newleft) := rb_descend PATH_FUEL go m root 0 AtRoot true in
  let! (m, root) := rb_link_node m root node parent l in
  rb_insert_color_cached m root leftmost node newleft.
