(* ===== verification/RbtreeSpec.v ===== *)
(** * Red-black trees in memory and on paper

    [tree] is the abstract tree whose nodes are addresses, [ctx] a tree with a
    hole, as the list of frames from the hole up to the root.  [rep] and [crep]
    say that memory holds them; [occ] counts the occurrences of an address,
    so that disjointness is linear arithmetic. *)

From S2P Require Import Prelude Bitops Rbtree.
From stdpp Require Import base list numbers option.
#[local] Open Scope Z_scope.
#[local] Open Scope kernel_scope.

(** ** The packed word *)

Variant color := Red | Black.
Definition colz (c : color) : Z := match c with Red => RB_RED | Black => RB_BLACK end.

Definition good (x : Z) : Prop := 0 < x < 2 ^ 64 /\ (4 | x).
Definition ptr (x : Z) : Prop := x = 0 \/ good x.

Lemma ptr_bounds p : ptr p -> 0 <= p < 2 ^ 64 /\ (4 | p).
Proof. intros [->|[H1 H2]]; [split; [lia|apply Z.divide_0_r]|split; [lia|done]]. Qed.

Lemma land_low p k n : 0 <= n -> (2 ^ n | p) -> 0 <= k < 2 ^ n -> Z.land p k = 0.
Proof.
  intros Hn [q ->] Hk. apply Z.bits_inj'. intros i Hi. rewrite Z.land_spec, Z.bits_0. destruct (Z.ltb_spec i n).
  - by rewrite Z.mul_pow2_bits_low.
  - destruct (decide (k = 0)) as [->|]; [by rewrite Z.bits_0, andb_false_r|].
    rewrite (Z.bits_above_log2 k i), andb_false_r; [done|lia|]. apply Z.log2_lt_pow2; [lia|].
    pose proof (Z.pow_le_mono_r 2 n i ltac:(lia) ltac:(lia)). lia.
Qed.

Lemma colz_range c : 0 <= colz c < 2.
Proof. by destruct c. Qed.

Lemma lor_col p c : ptr p -> Z.lor p (colz c) = p + colz c.
Proof.
  intros [_ Hd]%ptr_bounds. pose proof (colz_range c). assert (E : Z.land p (colz c) = 0) by (apply (land_low p _ 2); [lia|done|change (2 ^ 2) with 4; lia]).
  rewrite Z.add_nocarry_lxor by done. symmetry. by apply Z.lxor_lor.
Qed.

Lemma not3_land a : 0 <= a < 2 ^ 64 -> Z.land a (not64 3) = a - a mod 4.
Proof.
  intros Ha. assert (E : a - a mod 4 = Z.shiftl (Z.shiftr a 2) 2).
  { rewrite Z.shiftl_mul_pow2, Z.shiftr_div_pow2 by lia. change (2 ^ 2) with 4. pose proof (Z.div_mod a 4). lia. }
  rewrite E. apply Z.bits_inj'. intros i Hi. rewrite Z.land_spec. destruct (Z.ltb_spec i 64).
  - rewrite not64_bit by lia. destruct (Z.ltb_spec i 2).
    + rewrite Z.shiftl_spec_low by lia. assert (i = 0 \/ i = 1) as [-> | ->] by lia; apply andb_false_r.
    + rewrite Z.shiftl_spec, Z.shiftr_spec by lia. replace (i - 2 + 2) with i by lia.
      rewrite (Z.bits_above_log2 3 i) by (cbn; lia). apply andb_true_r.
  - rewrite (testbit_u64 a i) by (uunfold; lia). rewrite Z.shiftl_spec, Z.shiftr_spec by lia. replace (i - 2 + 2) with i by lia.
    by rewrite (testbit_u64 a i) by (uunfold; lia).
Qed.

Lemma parent_pack p c : ptr p -> __rb_parent (p + colz c) = p.
Proof.
  intros [H [k Hk]]%ptr_bounds. pose proof (colz_range c). unfold __rb_parent. rewrite not3_land.
  - Z.div_mod_to_equations. lia.
  - assert (p + 4 <= 2 ^ 64) by (change (2 ^ 64) with (4 * 2 ^ 62) in *; lia). lia.
Qed.

Lemma color_pack p c : ptr p -> __rb_color (p + colz c) = colz c.
Proof.
  intros [H [k Hk]]%ptr_bounds. pose proof (colz_range c). unfold __rb_color. change 1 with (Z.ones 1). rewrite Z.land_ones by lia. change (2 ^ 1) with 2.
  Z.div_mod_to_equations. lia.
Qed.

Lemma lor_color_ptr p c : ptr p -> Z.lor (colz c) p = p + colz c.
Proof. intros. rewrite Z.lor_comm. by apply lor_col. Qed.

Lemma lor_black p c : ptr p -> Z.lor (p + colz c) RB_BLACK = p + colz Black.
Proof. intros Hp. rewrite <- !lor_col by done. rewrite <- Z.lor_assoc. by destruct c. Qed.

(** ** Trees *)

Inductive tree := Leaf | Node (c : color) (l : tree) (x : Z) (r : tree).

#[export] Instance color_eq_dec : EqDecision color.
Proof. solve_decision. Defined.
#[export] Instance tree_eq_dec : EqDecision tree.
Proof. solve_decision. Defined.

Definition addr (t : tree) : Z := match t with Leaf => 0 | Node _ _ x _ => x end.
Fixpoint elems (t : tree) : list Z := match t with Leaf => [] | Node _ l x r => elems l ++ x :: elems r end.

(** A node with [t] on side [s] and [u] on the other. *)
Definition mk (s : side) (c : color) (t : tree) (x : Z) (u : tree) : tree :=
  match s with L => Node c t x u | R => Node c u x t end.

Record frame := F { f_side : side; f_color : color; f_addr : Z; f_sib : tree }.
Abbreviation ctx := (list frame).

Definition par_of (k : ctx) : Z := match k with [] => 0 | f :: _ => f_addr f end.
Fixpoint topk (a : Z) (k : ctx) : Z := match k with [] => a | f :: k' => topk (f_addr f) k' end.
Fixpoint plug (k : ctx) (t : tree) : tree :=
  match k with [] => t | F s c x u :: k' => plug k' (mk s c t x u) end.
Fixpoint pre (k : ctx) : list Z :=
  match k with [] => [] | F L _ _ _ :: k' => pre k' | F R _ x u :: k' => pre k' ++ elems u ++ [x] end.
Fixpoint post (k : ctx) : list Z :=
  match k with [] => [] | F L _ x u :: k' => x :: elems u ++ post k' | F R _ _ _ :: k' => post k' end.

Lemma addr_mk s c t x u : addr (mk s c t x u) = x.
Proof. by destruct s. Qed.
Lemma addr_plug k t : addr (plug k t) = topk (addr t) k.
Proof. revert t. induction k as [|[s c x u] k IH]; intros t; [done|]. cbn. by rewrite IH, addr_mk. Qed.
Lemma elems_plug k t : elems (plug k t) = pre k ++ elems t ++ post k.
Proof.
  revert t. induction k as [|[s c x u] k IH]; intros t; cbn; [by rewrite app_nil_r|]. rewrite IH.
  destruct s; cbn; by rewrite <- ?app_assoc, ?app_comm_cons, <- ?app_assoc.
Qed.
Lemma plug_app k1 k2 t : plug (k1 ++ k2) t = plug k2 (plug k1 t).
Proof. revert t. induction k1 as [|[s c x u] k1 IH]; intros t; cbn; done. Qed.
Lemma topk_app a k1 k2 : topk a (k1 ++ k2) = topk (topk a k1) k2.
Proof. revert a. induction k1 as [|f k1 IH]; intros a; cbn; done. Qed.

(** ** Occurrences *)

Definition one (z x : Z) : Z := if z =? x then 1 else 0.
Fixpoint occ (z : Z) (t : tree) : Z := match t with Leaf => 0 | Node _ l x r => occ z l + one z x + occ z r end.
Fixpoint occk (z : Z) (k : ctx) : Z := match k with [] => 0 | f :: k' => one z (f_addr f) + occ z (f_sib f) + occk z k' end.

Lemma one_refl z : one z z = 1.
Proof. unfold one. by rewrite Z.eqb_refl. Qed.
Lemma one_range z x : 0 <= one z x <= 1.
Proof. unfold one. destruct (z =? x); lia. Qed.
Lemma one_ne z x : z <> x -> one z x = 0.
Proof. unfold one. by destruct (Z.eqb_spec z x). Qed.
Lemma occ_nonneg z t : 0 <= occ z t.
Proof. induction t as [|c l IHl x r IHr]; cbn; [lia|]. pose proof (one_range z x). lia. Qed.
Lemma occk_nonneg z k : 0 <= occk z k.
Proof. induction k as [|f k IH]; cbn; [lia|]. pose proof (one_range z (f_addr f)). pose proof (occ_nonneg z (f_sib f)). lia. Qed.
Lemma occ_mk z s c t x u : occ z (mk s c t x u) = occ z t + one z x + occ z u.
Proof. destruct s; cbn; lia. Qed.
Lemma occ_plug z k t : occ z (plug k t) = occ z t + occk z k.
Proof. revert t. induction k as [|[s c x u] k IH]; intros t; cbn; [lia|]. rewrite IH, occ_mk. lia. Qed.
Lemma occk_app z k1 k2 : occk z (k1 ++ k2) = occk z k1 + occk z k2.
Proof. induction k1 as [|f k1 IH]; cbn; [done|]. rewrite IH. lia. Qed.
Lemma occ_elem z t : 0 < occ z t <-> z ∈ elems t.
Proof.
  induction t as [|c l IHl x r IHr]; cbn; [rewrite elem_of_nil; lia|]. rewrite elem_of_app, elem_of_cons, <- IHl, <- IHr. unfold one.
  pose proof (occ_nonneg z l). pose proof (occ_nonneg z r). destruct (Z.eqb_spec z x); intuition lia.
Qed.
Lemma occ_NoDup t : NoDup (elems t) <-> forall z, occ z t <= 1.
Proof.
  induction t as [|c l IHl x r IHr]; cbn; [split; [lia|intros _; constructor]|].
  rewrite list.NoDup_app, list.NoDup_cons. split.
  - intros (Hl & Hd & Hx & Hr) z. assert (occ z l <= 1) by (by apply IHl). assert (occ z r <= 1) by (by apply IHr).
    pose proof (occ_nonneg z l). pose proof (occ_nonneg z r). unfold one.
    destruct (decide (z ∈ elems l)) as [Hz|Hz]; [specialize (Hd z Hz); rewrite elem_of_cons in Hd|]; rewrite <- !occ_elem in *;
      destruct (Z.eqb_spec z x) as [->|]; (tauto || lia || (rewrite <- occ_elem in Hx; lia)).
  - intros U. split_and!.
    + apply IHl. intros z. specialize (U z). pose proof (occ_nonneg z r). pose proof (one_range z x). lia.
    + intros z Hz [->|Hz']%elem_of_cons.
      * specialize (U x). rewrite one_refl in U. apply occ_elem in Hz. pose proof (occ_nonneg x r). lia.
      * specialize (U z). apply occ_elem in Hz, Hz'. pose proof (one_range z x). lia.
    + intros Hx%occ_elem. specialize (U x). rewrite one_refl in U. pose proof (occ_nonneg x l). lia.
    + apply IHr. intros z. specialize (U z). pose proof (occ_nonneg z l). pose proof (one_range z x). lia.
Qed.

(** ** Fields *)

Definition fld (s : side) (m : rbmem) (x : Z) : Z := match s with L => left_of m x | R => right_of m x end.
Definition setf (s : side) (m : rbmem) (x v : Z) : rbmem :=
  match s with
  | L => mk_rbmem (pc_of m) (right_of m) (upd (left_of m) x v)
  | R => mk_rbmem (pc_of m) (upd (right_of m) x v) (left_of m)
  end.
Definition setpc (m : rbmem) (x v : Z) : rbmem := mk_rbmem (upd (pc_of m) x v) (right_of m) (left_of m).

Lemma deref_ok {A} x (a : A) : x <> 0 -> deref x a = Ret a.
Proof. intros. unfold deref. by destruct (Z.eqb_spec x 0). Qed.
Lemma ld_pc_ok m x : x <> 0 -> ld_pc m x = Ret (pc_of m x).
Proof. apply deref_ok. Qed.
Lemma ld_ok s m x : x <> 0 -> ld s m x = Ret (fld s m x).
Proof. apply deref_ok. Qed.
Lemma st_pc_ok m x v : x <> 0 -> st_pc m x v = Ret (setpc m x v).
Proof. apply deref_ok. Qed.
Lemma st_ok s m x v : x <> 0 -> st s m x v = Ret (setf s m x v).
Proof. apply deref_ok. Qed.

Lemma upd_eq f x v : upd f x v x = v.
Proof. unfold upd. by rewrite Z.eqb_refl. Qed.
Lemma upd_ne f x v y : y <> x -> upd f x v y = f y.
Proof. intros. unfold upd. by destruct (Z.eqb_spec y x). Qed.

Lemma pc_setf s m x v y : pc_of (setf s m x v) y = pc_of m y.
Proof. by destruct s. Qed.
Lemma fld_setpc s m x v y : fld s (setpc m x v) y = fld s m y.
Proof. by destruct s. Qed.
Lemma pc_setpc_eq m x v : pc_of (setpc m x v) x = v.
Proof. apply upd_eq. Qed.
Lemma pc_setpc_ne m x v y : y <> x -> pc_of (setpc m x v) y = pc_of m y.
Proof. apply upd_ne. Qed.
Lemma fld_setf_eq s m x v : fld s (setf s m x v) x = v.
Proof. destruct s; apply upd_eq. Qed.
Lemma fld_setf_ne s s' m x v y : y <> x -> fld s (setf s' m x v) y = fld s m y.
Proof. intros. destruct s, s'; cbn; by rewrite ?upd_ne. Qed.
Lemma fld_setf_opp s m x v y : fld (opp s) (setf s m x v) y = fld (opp s) m y.
Proof. by destruct s. Qed.
Lemma fld_setf_opp' s m x v y : fld s (setf (opp s) m x v) y = fld s m y.
Proof. by destruct s. Qed.
Lemma opp_opp s : opp (opp s) = s.
Proof. by destruct s. Qed.

(** ** Trees in memory *)

Fixpoint rep (m : rbmem) (par : Z) (t : tree) : Prop :=
  match t with
  | Leaf => True
  | Node c l x r => good x /\ pc_of m x = par + colz c /\ fld L m x = addr l /\ fld R m x = addr r /\ rep m x l /\ rep m x r
  end.
Fixpoint crep (m : rbmem) (a : Z) (k : ctx) : Prop :=
  match k with
  | [] => True
  | F s c x u :: k' => good x /\ pc_of m x = par_of k' + colz c /\ fld s m x = a /\ fld (opp s) m x = addr u /\ rep m x u /\ crep m x k'
  end.

Lemma rep_mk m par s c t x u :
  rep m par (mk s c t x u) <-> good x /\ pc_of m x = par + colz c /\ fld s m x = addr t /\ fld (opp s) m x = addr u /\ rep m x t /\ rep m x u.
Proof. destruct s; cbn; tauto. Qed.

Lemma rep_plug m k t : rep m 0 (plug k t) <-> crep m (addr t) k /\ rep m (par_of k) t.
Proof.
  revert t. induction k as [|[s c x u] k IH]; intros t; cbn [plug crep par_of f_addr]; [tauto|].
  rewrite IH, rep_mk, addr_mk. tauto.
Qed.

Definition same_at (m m' : rbmem) (z : Z) : Prop := pc_of m' z = pc_of m z /\ forall s, fld s m' z = fld s m z.

Lemma rep_frame m m' t : forall par, rep m par t -> (forall z, 0 < occ z t -> same_at m m' z) -> rep m' par t.
Proof.
  induction t as [|c l IHl x r IHr]; intros par; cbn; [done|]. intros (G & P & Fl & Fr & Hl & Hr) Hs.
  destruct (Hs x) as [E1 E2]. { rewrite one_refl. pose proof (occ_nonneg x l). pose proof (occ_nonneg x r). lia. }
  change (left_of m' x) with (fld L m' x). change (right_of m' x) with (fld R m' x). rewrite E1, !E2. split_and!; try done.
  - apply IHl; [done|]. intros z Hz. apply Hs. pose proof (one_range z x). pose proof (occ_nonneg z r). lia.
  - apply IHr; [done|]. intros z Hz. apply Hs. pose proof (one_range z x). pose proof (occ_nonneg z l). lia.
Qed.
Lemma crep_frame m m' k : forall a, crep m a k -> (forall z, 0 < occk z k -> same_at m m' z) -> crep m' a k.
Proof.
  induction k as [|[s c x u] k IH]; intros a; cbn; [done|]. intros (G & P & Fl & Fr & Hl & Hr) Hs.
  destruct (Hs x) as [E1 E2]. { rewrite one_refl. pose proof (occ_nonneg x u). pose proof (occk_nonneg x k). lia. }
  rewrite E1, !E2. split_and!; try done.
  - apply (rep_frame m); [done|]. intros z Hz. apply Hs. pose proof (one_range z x). pose proof (occk_nonneg z k). lia.
  - apply IH; [done|]. intros z Hz. apply Hs. pose proof (one_range z x). pose proof (occ_nonneg z u). lia.
Qed.

Lemma same_setf s m x v z : z <> x -> same_at m (setf s m x v) z.
Proof. intros. split; [apply pc_setf|]. intros s'. by apply fld_setf_ne. Qed.
Lemma same_setpc m x v z : z <> x -> same_at m (setpc m x v) z.
Proof. intros. split; [by apply pc_setpc_ne|]. intros s'. apply fld_setpc. Qed.
Lemma same_trans m1 m2 m3 z : same_at m1 m2 z -> same_at m2 m3 z -> same_at m1 m3 z.
Proof. intros [A1 A2] [B1 B2]. split; [congruence|]. intros s. rewrite B2. apply A2. Qed.
Lemma same_refl m z : same_at m m z.
Proof. done. Qed.

Lemma rep_addr_ptr m par t : rep m par t -> ptr (addr t).
Proof. destruct t; [by left|]. intros [G _]. by right. Qed.
Lemma crep_par_ptr m a k : crep m a k -> ptr (par_of k).
Proof. destruct k as [|[s c x u] k]; [by left|]. intros [G _]. by right. Qed.
Lemma good_ptr x : good x -> ptr x.
Proof. by right. Qed.
Lemma good_nz x : good x -> x <> 0.
Proof. intros [? _]. lia. Qed.
Lemma addr_occ t : addr t <> 0 -> 0 < occ (addr t) t.
Proof. destruct t as [|c l x r]; cbn; [done|]. intros _. rewrite one_refl. pose proof (occ_nonneg x l). pose proof (occ_nonneg x r). lia. Qed.
Lemma par_occ k : par_of k <> 0 -> 0 < occk (par_of k) k.
Proof. destruct k as [|f k]; cbn; [done|]. intros _. rewrite one_refl. pose proof (occ_nonneg (f_addr f) (f_sib f)). pose proof (occk_nonneg (f_addr f) k). lia. Qed.

(** ** Red-black shape *)

Definition is_black (t : tree) : Prop := match t with Node Red _ _ _ => False | _ => True end.

#[export] Instance is_black_dec t : Decision (is_black t).
Proof. destruct t as [|[]]; [left|right|left]; try done. intros []. Defined.

(** [t] has black height [n] and no red node with a red child. *)
Fixpoint rbt (n : nat) (t : tree) : Prop :=
  match t with
  | Leaf => n = O
  | Node Red l _ r => rbt n l /\ rbt n r /\ is_black l /\ is_black r
  | Node Black l _ r => exists n', n = S n' /\ rbt n' l /\ rbt n' r
  end.
Definition is_rb (t : tree) : Prop := is_black t /\ exists n, rbt n t.

(** A context whose hole wants a tree of black height [n]; below a red frame it
    wants a black one. *)
Fixpoint cok (n : nat) (k : ctx) : Prop :=
  match k with
  | [] => True
  | F _ Black _ u :: k' => rbt n u /\ cok (S n) k'
  | F _ Red _ u :: k' => rbt n u /\ is_black u /\ cok n k' /\ match k' with F _ Black _ _ :: _ => True | _ => False end
  end.
Definition wants_black (k : ctx) : Prop := match k with F _ Red _ _ :: _ => True | [] => True | _ => False end.

Lemma rbt_mk n s c t x u : rbt n (mk s c t x u) <->
  match c with Red => rbt n t /\ rbt n u /\ is_black t /\ is_black u | Black => exists n', n = S n' /\ rbt n' t /\ rbt n' u end.
Proof. destruct s, c; cbn; try tauto. split; intros (n' & ? & ? & ?); eauto. Qed.
Lemma is_black_mk s c t x u : is_black (mk s c t x u) <-> c = Black.
Proof. destruct s, c; cbn; done. Qed.

Lemma rb_plug k : forall n t, rbt n t -> cok n k -> (wants_black k -> is_black t) -> is_rb (plug k t).
Proof.
  induction k as [|[s c x u] k IH]; intros n t Ht Hk Hw; cbn [plug].
  - split; [by apply Hw|]. by exists n.
  - destruct c; cbn in Hk.
    + destruct Hk as (Hu & Bu & Hk & Hb). apply (IH n); [|done|].
      * apply rbt_mk. split_and!; try done. by apply Hw.
      * intros W. exfalso. destruct k as [|[? [] ? ?] ?]; done.
    + destruct Hk as (Hu & Hk). apply (IH (S n)); [|done|].
      * apply rbt_mk. eauto.
      * intros _. by apply is_black_mk.
Qed.
Lemma rb_unplug k : forall t, is_rb (plug k t) -> exists n, rbt n t /\ cok n k /\ (wants_black k -> is_black t).
Proof.
  induction k as [|[s c x u] k IH]; intros t; cbn [plug].
  - intros [B [n Hn]]. by exists n.
  - intros (n & Hn & Hk & Hw)%IH. apply rbt_mk in Hn. destruct c.
    + destruct Hn as (Ht & Hu & Bt & Bu). exists n. cbn. split_and!; try done.
      destruct k as [|[? [] ? ?] ?]; [|by apply is_black_mk in Hw|done]. exfalso. cbn in Hw. by apply is_black_mk in Hw.
    + destruct Hn as (n' & -> & Ht & Hu). exists n'. cbn. done.
Qed.

(** ** Writing through the tree *)

(** The pointer to the hole's tree, and the packed word of a tree's root. *)
Definition setk (m : rbmem) (k : ctx) (v : Z) : rbmem := match k with [] => m | f :: _ => setf (f_side f) m (f_addr f) v end.
Definition setroot (m : rbmem) (t : tree) (v : Z) : rbmem := match t with Leaf => m | Node _ _ x _ => setpc m x v end.
Definition paint (c : color) (t : tree) : tree := match t with Leaf => Leaf | Node _ l x r => Node c l x r end.
Definition col (t : tree) : color := match t with Leaf => Black | Node c _ _ _ => c end.

Lemma pc_setk m k v y : pc_of (setk m k v) y = pc_of m y.
Proof. destruct k; [done|]. apply pc_setf. Qed.
Lemma occk_par_ne f k y : occk y (f :: k) = 0 -> y <> f_addr f.
Proof. cbn. intros E ->. rewrite one_refl in E. pose proof (occ_nonneg (f_addr f) (f_sib f)). pose proof (occk_nonneg (f_addr f) k). lia. Qed.
Lemma fld_setk_ne s m k v y : occk y k = 0 -> fld s (setk m k v) y = fld s m y.
Proof. destruct k; [done|]. intros. apply fld_setf_ne. by apply (occk_par_ne _ k). Qed.
Lemma fld_setroot s m t v y : fld s (setroot m t v) y = fld s m y.
Proof. destruct t; [done|]. apply fld_setpc. Qed.
Lemma pc_setroot_ne m t v y : occ y t = 0 -> pc_of (setroot m t v) y = pc_of m y.
Proof.
  destruct t as [|c l x r]; [done|]. cbn. intros E. apply pc_setpc_ne. intros ->. rewrite one_refl in E.
  pose proof (occ_nonneg x l). pose proof (occ_nonneg x r). lia.
Qed.
Lemma same_setk m k v z : occk z k = 0 -> same_at m (setk m k v) z.
Proof. destruct k; [done|]. intros. apply same_setf. by apply (occk_par_ne _ k). Qed.
Lemma same_setroot m t v z : occ z t = 0 -> same_at m (setroot m t v) z.
Proof. intros. split; [by apply pc_setroot_ne|]. intros. apply fld_setroot. Qed.
Lemma paint_black t : is_black t -> paint Black t = t.
Proof. by destruct t as [|[]]. Qed.
Lemma paint_col t : paint (col t) t = t.
Proof. by destruct t as [|[]]. Qed.
Lemma addr_paint c t : addr (paint c t) = addr t.
Proof. by destruct t. Qed.
Lemma occ_paint z c t : occ z (paint c t) = occ z t.
Proof. by destruct t. Qed.
Lemma elems_paint c t : elems (paint c t) = elems t.
Proof. by destruct t. Qed.

Lemma rep_setroot m par t g c : rep m par t -> (forall z, occ z t <= 1) -> rep (setroot m t (g + colz c)) g (paint c t).
Proof.
  destruct t as [|c0 l x r]; [done|]. cbn [rep setroot paint]. intros (G & P & Fl & Fr & Hl & Hr) U.
  rewrite pc_setpc_eq, !fld_setpc. split_and!; try done.
  - apply (rep_frame m); [done|]. intros z Hz. apply same_setpc. intros ->. specialize (U x). cbn in U. rewrite one_refl in U. pose proof (occ_nonneg x r). lia.
  - apply (rep_frame m); [done|]. intros z Hz. apply same_setpc. intros ->. specialize (U x). cbn in U. rewrite one_refl in U. pose proof (occ_nonneg x l). lia.
Qed.

Lemma crep_setk m a k v : crep m a k -> (forall z, occk z k <= 1) -> crep (setk m k v) v k.
Proof.
  destruct k as [|[s c x u] k]; [done|]. cbn [crep setk f_side f_addr]. intros (G & P & Fa & Fu & Hu & Hk) U.
  rewrite pc_setf, fld_setf_eq, fld_setf_opp. split_and!; try done.
  - apply (rep_frame m); [done|]. intros z Hz. apply same_setf. intros ->. specialize (U x). cbn in U. rewrite one_refl in U. pose proof (occk_nonneg x k). lia.
  - apply (crep_frame m); [done|]. intros z Hz. apply same_setf. intros ->. specialize (U x). cbn in U. rewrite one_refl in U. pose proof (occ_nonneg x u). lia.
Qed.

Definition root_after (root new : Z) (k : ctx) : Z := match k with [] => new | _ => root end.
Lemma root_after_topk old new k : root_after (topk old k) new k = topk new k.
Proof. by destruct k. Qed.

Lemma change_child_ok m root old new k : crep m old k -> old <> 0 -> occk old k = 0 ->
  __rb_change_child m root old new (par_of k) = Ret (setk m k new, root_after root new k).
Proof.
  destruct k as [|[s c x u] k]; intros H Ho Hk; [done|]. cbn [crep] in H. destruct H as (G & _ & Fa & Fu & _). pose proof (good_nz x G).
  unfold __rb_change_child. cbn [par_of f_addr]. destruct (Z.eqb_spec x 0); [done|]. cbn [negb].
  rewrite ld_ok by done. cbn [obind]. assert ((if fld L m x =? old then L else R) = s) as ->.
  { destruct s; cbn [opp] in *; [by rewrite Fa, Z.eqb_refl|]. rewrite Fu. destruct (Z.eqb_spec (addr u) old) as [E|]; [|done].
    exfalso. cbn in Hk. pose proof (addr_occ u ltac:(by rewrite E)) as Hp. rewrite E in Hp. pose proof (one_range old x). pose proof (occk_nonneg old k). lia. }
  rewrite st_ok by done. done.
Qed.

(** ** Tactics *)

Ltac pose_new P := let T := type of P in match goal with H : T |- _ => fail 1 | _ => pose proof P end.
Ltac occ_pose :=
  repeat match goal with
  | |- context [occ ?z ?t] => pose_new (occ_nonneg z t)
  | H : context [occ ?z ?t] |- _ => pose_new (occ_nonneg z t)
  | |- context [occk ?z ?k] => pose_new (occk_nonneg z k)
  | H : context [occk ?z ?k] |- _ => pose_new (occk_nonneg z k)
  | |- context [one ?z ?x] => pose_new (one_range z x)
  | H : context [one ?z ?x] |- _ => pose_new (one_range z x)
  end.
(** Distinctness from [U : forall z, <occurrences> <= 1]. *)
Ltac uq :=
  match goal with
  | U : forall z, _ <= 1 |- ?x <> ?y =>
      let E := fresh in intros E; apply (f_equal (one x)) in E; rewrite one_refl in E; specialize (U x);
      rewrite ?occk_app in *; cbn [occ occk f_addr f_sib] in *; rewrite ?occ_mk, ?occ_paint, ?one_refl in *; occ_pose; lia
  | U : forall z, _ <= 1 |- occ ?z _ = 0 => specialize (U z); rewrite ?occk_app in *; cbn [occ occk f_addr f_sib] in *; rewrite ?occ_mk, ?occ_paint, ?one_refl in *; occ_pose; lia
  | U : forall z, _ <= 1 |- occk ?z _ = 0 => specialize (U z); rewrite ?occk_app in *; cbn [occ occk f_addr f_sib] in *; rewrite ?occ_mk, ?occ_paint, ?one_refl in *; occ_pose; lia
  | U : forall z, _ <= 1 |- forall z, _ <= 1 => let z := fresh "z" in intros z; specialize (U z); rewrite ?occk_app in *; cbn [occ occk f_addr f_sib] in *; rewrite ?occ_mk, ?occ_paint, ?one_refl in *; occ_pose; lia
  end.

(** What a memory built by stores from [m] still holds. *)
Ltac same :=
  repeat match goal with
  | |- same_at ?m ?m _ => apply same_refl
  | |- same_at ?m (setf _ ?m2 _ _) _ => apply (same_trans m m2); [|apply same_setf; uq]
  | |- same_at ?m (setpc ?m2 _ _) _ => apply (same_trans m m2); [|apply same_setpc; uq]
  | |- same_at ?m (setk ?m2 _ _) _ => apply (same_trans m m2); [|apply same_setk; uq]
  | |- same_at ?m (setroot ?m2 _ _) _ => apply (same_trans m m2); [|apply same_setroot; uq]
  end.
Ltac frame_from m0 :=
  match goal with
  | |- rep _ _ _ => apply (rep_frame m0); [try assumption|let z := fresh "z" in intros z ?; same]
  | |- crep _ _ _ => apply (crep_frame m0); [try assumption|let z := fresh "z" in intros z ?; same]
  end.
Ltac rd :=
  repeat first
    [ rewrite pc_setf | rewrite fld_setpc | rewrite pc_setk | rewrite fld_setroot
    | rewrite pc_setpc_eq | rewrite fld_setf_eq | rewrite fld_setf_opp | rewrite fld_setf_opp'
    | rewrite pc_setpc_ne by uq | rewrite fld_setf_ne by uq | rewrite fld_setk_ne by uq | rewrite pc_setroot_ne by uq ].

Lemma rotate_ok m root old new c c' k : crep m old k -> pc_of m old = par_of k + colz c -> good old -> good new ->
  (forall z, one z old + one z new + occk z k <= 1) ->
  __rb_rotate_set_parents m root old new (colz c') =
    Ret (setk (setpc (setpc m new (par_of k + colz c)) old (new + colz c')) k new, root_after root new k).
Proof.
  intros Hk P Go Gn U. unfold __rb_rotate_set_parents, rb_parent, rb_set_parent_color.
  rewrite ld_pc_ok by (by apply good_nz). cbn [obind]. rewrite P, parent_pack by (by apply (crep_par_ptr m old)).
  rewrite st_pc_ok by (by apply good_nz). cbn [obind]. rewrite st_pc_ok by (by apply good_nz). cbn [obind].
  rewrite lor_col by (by apply good_ptr). apply change_child_ok; [|by apply good_nz|uq]. frame_from m.
Qed.

(** [if (t) rb_set_parent_color(t, p, c)]. *)
Lemma when_color_ok m par t p c : rep m par t -> ptr p ->
  when (negb (addr t =? 0)) m (rb_set_parent_color m (addr t) p (colz c)) = Ret (setroot m t (p + colz c)).
Proof.
  intros Ht Hp. destruct t as [|c0 l x r]; [done|]. destruct Ht as [G _]. cbn [addr setroot]. pose proof (good_nz x G).
  destruct (Z.eqb_spec x 0); [done|]. cbn [negb when]. unfold rb_set_parent_color. rewrite st_pc_ok, lor_col by done. done.
Qed.
Lemma when_parent_ok m par t p : rep m par t -> ptr par -> ptr p ->
  when (negb (addr t =? 0)) m (rb_set_parent m (addr t) p) = Ret (setroot m t (p + colz (col t))).
Proof.
  intros Ht Hpar Hp. destruct t as [|c0 l x r]; [done|]. destruct Ht as (G & P & _). cbn [addr setroot col]. pose proof (good_nz x G).
  destruct (Z.eqb_spec x 0); [done|]. cbn [negb when]. unfold rb_set_parent. rewrite ld_pc_ok by done. cbn [obind]. rewrite P, color_pack by done.
  rewrite st_pc_ok, lor_color_ptr by done. done.
Qed.
Lemma rep_is_red m par t : rep m par t -> ptr par -> t <> Leaf -> rb_is_red m (addr t) = Ret (match col t with Red => true | Black => false end).
Proof.
  intros Ht Hp Hne. destruct t as [|c0 l x r]; [done|]. destruct Ht as (G & P & _). unfold rb_is_red. cbn [addr col].
  rewrite ld_pc_ok by (by apply good_nz). cbn [obind]. rewrite P. unfold __rb_is_red. rewrite color_pack by done. by destruct c0.
Qed.
Lemma rep_is_black m par t : rep m par t -> ptr par -> t <> Leaf -> rb_is_black m (addr t) = Ret (match col t with Red => false | Black => true end).
Proof.
  intros Ht Hp Hne. destruct t as [|c0 l x r]; [done|]. destruct Ht as (G & P & _). unfold rb_is_black. cbn [addr col].
  rewrite ld_pc_ok by (by apply good_nz). cbn [obind]. rewrite P. unfold __rb_is_black. rewrite color_pack by done. by destruct c0.
Qed.

(** * Insertion into a red-black tree *)

(** Memory [m'] holds [t] in the hole of [k] and is otherwise as [m]; [out z]
    says that [z] is no node of the tree. *)
Record holds (m' : rbmem) (k : ctx) (t : tree) (m : rbmem) (out : Z -> Prop) : Prop := {
  ho_ctx : crep m' (addr t) k;
  ho_tree : rep m' (par_of k) t;
  ho_same : forall z, out z -> same_at m m' z;
}.

(** Case 3 of the source: one rotation at the grandparent. *)
Lemma insert_near s m x a b p sib g u k :
  let N := mk s Red a x b in
  (forall z, occ z N + one z p + occ z sib + one z g + occ z u + occk z k <= 1) ->
  crep m x (F s Red p sib :: F s Black g u :: k) -> rep m p N -> is_black sib ->
  exists m', insert_rotate s m (topk g k) x p g = Ret (m', topk p k)
    /\ holds m' k (mk s Black N p (mk s Red sib g u)) m
         (fun z => occ z N + one z p + occ z sib + one z g + occ z u + occk z k = 0).
Proof.
  intros N U (Gp & Pp & Fp & Fp' & Hsib & Gg & Pg & Fg & Fg' & Hu & Hk) HN Bs. subst N. cbn [par_of f_addr] in *.
  pose proof (proj1 (rep_mk _ _ _ _ _ _ _) HN) as (Gx & _). pose proof (good_nz p Gp). pose proof (good_nz g Gg). pose proof (good_nz x Gx).
  assert (Ex : (x =? addr sib) = false).
  { apply Z.eqb_neq. intros E. pose proof (addr_occ sib ltac:(lia)) as Hp. rewrite <- E in Hp. specialize (U x). rewrite occ_mk, one_refl in U. occ_pose. lia. }
  unfold insert_rotate. change RB_BLACK with (colz Black). change RB_RED with (colz Red). rewrite ld_ok by done. cbn [obind]. rewrite Fp', Ex. cbn [obind].
  rewrite !st_ok by done. cbn [obind]. rewrite st_ok by done. cbn [obind].
  set (m1 := setf (opp s) (setf s m g (addr sib)) p g).
  assert (Hs1 : rep m1 p sib) by (unfold m1; frame_from m).
  rewrite (when_color_ok m1 p sib g Black) by (done || by apply good_ptr). cbn [obind].
  set (m2 := setroot m1 sib (g + colz Black)).
  assert (P2 : pc_of m2 g = par_of k + colz Black) by (unfold m2, m1; rd; done).
  rewrite (rotate_ok m2 (topk g k) g p Black Red k); [|unfold m2, m1; frame_from m|done|done|done|uq].
  rewrite root_after_topk. eexists. split; [reflexivity|]. split; rewrite ?addr_mk.
  - apply (crep_setk _ g); [|uq]. unfold m2, m1. frame_from m.
  - rewrite (rep_mk _ _ s Black), (rep_mk _ _ s Red sib), !addr_mk. split_and!; try done; try (unfold m2, m1; rd; done).
    + unfold m2, m1. frame_from m.
    + frame_from m2. rewrite <- (paint_black sib Bs). apply (rep_setroot m1 p); [done|uq].
    + unfold m2, m1. frame_from m.
  - intros z Hz. unfold m2, m1. rewrite occ_mk in Hz. same.

Qed.

(** Cases 2 and 3: a rotation at the parent and one at the grandparent. *)
Lemma insert_far s m x a b p sib g u k :
  let N := mk s Red a x b in
  (forall z, occ z N + one z p + occ z sib + one z g + occ z u + occk z k <= 1) ->
  crep m x (F (opp s) Red p sib :: F s Black g u :: k) -> rep m p N -> is_black a -> is_black b ->
  exists m', insert_rotate s m (topk g k) x p g = Ret (m', topk x k)
    /\ holds m' k (mk s Black (mk s Red sib p a) x (mk s Red b g u)) m
         (fun z => occ z N + one z p + occ z sib + one z g + occ z u + occk z k = 0).
Proof.
  intros N U (Gp & Pp & Fp & Fp' & Hsib & Gg & Pg & Fg & Fg' & Hu & Hk) HN Ba Bb. subst N. cbn [par_of f_addr] in *. rewrite opp_opp in *.
  apply rep_mk in HN as (Gx & Px & Fx & Fx' & Ha & Hb). pose proof (good_nz p Gp). pose proof (good_nz g Gg). pose proof (good_nz x Gx).
  unfold insert_rotate. change RB_BLACK with (colz Black). change RB_RED with (colz Red). rewrite ld_ok by done. cbn [obind]. rewrite Fp, Z.eqb_refl. cbn [obind].
  rewrite ld_ok by done. cbn [obind]. rewrite Fx. do 2 (rewrite st_ok by done; cbn [obind]).
  set (m1 := setf s (setf (opp s) m p (addr a)) x p).
  assert (Ha1 : rep m1 x a) by (unfold m1; frame_from m).
  rewrite (when_color_ok m1 x a p Black) by (done || by apply good_ptr). cbn [obind]. set (m2 := setroot m1 a (p + colz Black)).
  unfold rb_set_parent_color at 1. rewrite st_pc_ok, lor_col by (done || by apply good_ptr). cbn [obind]. set (m3 := setpc m2 p (x + colz Red)).
  rewrite ld_ok by done. cbn [obind]. assert (fld (opp s) m3 x = addr b) as -> by (unfold m3, m2, m1; rd; done).
  do 2 (rewrite st_ok by done; cbn [obind]). set (m4 := setf (opp s) (setf s m3 g (addr b)) x g).
  assert (Hb4 : rep m4 x b) by (unfold m4, m3, m2, m1; frame_from m).
  rewrite (when_color_ok m4 x b g Black) by (done || by apply good_ptr). cbn [obind]. set (m5 := setroot m4 b (g + colz Black)).
  rewrite (rotate_ok m5 (topk g k) g x Black Red k); [|unfold m5, m4, m3, m2, m1; frame_from m|unfold m5, m4, m3, m2, m1; rd; done|done|done|uq].
  rewrite root_after_topk. eexists. split; [reflexivity|]. split; rewrite ?addr_mk.
  - apply (crep_setk _ g); [|uq]. unfold m5, m4, m3, m2, m1. frame_from m.
  - rewrite (rep_mk _ _ s Black), (rep_mk _ _ s Red b), (rep_mk _ _ s Red sib), !addr_mk.
    split_and!; try done; try (unfold m5, m4, m3, m2, m1; rd; done).
    + unfold m5, m4, m3, m2, m1. frame_from m.
    + unfold m5, m4, m3. frame_from m2. rewrite <- (paint_black a Ba). apply (rep_setroot m1 x); [done|uq].
    + frame_from m5. rewrite <- (paint_black b Bb). apply (rep_setroot m4 x); [done|uq].
    + unfold m5, m4, m3, m2, m1. frame_from m.
  - intros z Hz. unfold m5, m4, m3, m2, m1. rewrite occ_mk in Hz. same.
Qed.

(** ** The loop *)

(** A red tree whose children are black. *)
Definition red_tree (n : nat) (t : tree) : Prop :=
  exists a x b, t = Node Red a x b /\ rbt n a /\ rbt n b /\ is_black a /\ is_black b.

Lemma red_mk s n t : red_tree n t -> exists a x b, t = mk s Red a x b /\ rbt n a /\ rbt n b /\ is_black a /\ is_black b.
Proof. intros (a & x & b & -> & H1 & H2 & H3 & H4). destruct s; [exists a, x, b|exists b, x, a]; done. Qed.

(** On which side the grandparent has the parent. *)
Lemma parent_side s m p sib g : good p -> fld s m g = p -> fld (opp s) m g = addr sib -> occ p sib = 0 ->
  (if negb (p =? fld R m g) then L else R) = s.
Proof.
  intros G F1 F2 Ho. destruct s; cbn [opp] in *.
  - rewrite F2. destruct (Z.eqb_spec p (addr sib)) as [E|]; [|done]. pose proof (good_nz p G). pose proof (addr_occ sib ltac:(by rewrite <- E)) as H0.
    rewrite <- E in H0. lia.
  - rewrite F1, Z.eqb_refl. done.
Qed.

(** The new node is the root: it becomes black. *)
Lemma blacken_root m n t : red_tree n t -> (forall z, occ z t <= 1) -> rep m 0 t ->
  exists m' t', (let! m1 := rb_set_parent_color m (addr t) 0 (colz Black) in Ret (m1, addr t)) = Ret (m', addr t')
    /\ rep m' 0 t' /\ is_rb t' /\ elems t' = elems t /\ forall z, occ z t = 0 -> same_at m m' z.
Proof.
  intros (a & x & b & -> & Ra & Rb & Ba & Bb) U (G & P & Fa & Fb & Ha & Hb). cbn [addr]. unfold rb_set_parent_color. rewrite st_pc_ok by (by apply good_nz).
  cbn [obind]. rewrite lor_col by (by left). exists (setpc m x (0 + colz Black)), (Node Black a x b). split_and!; [done| |by split; [done|exists (S n), n]|done|].
  - cbn [rep]. rewrite pc_setpc_eq, !fld_setpc. split_and!; try done; frame_from m.
  - intros z Hz. same.
Qed.

(** The uncle is black: one or two rotations end the loop. *)
Lemma insert_black_uncle s s1 m n t p sib g u k : let K := F s1 Red p sib :: F s Black g u :: k in
  red_tree n t -> cok n K -> is_black u -> (forall z, occ z t + occk z K <= 1) -> crep m (addr t) K -> rep m p t ->
  exists m' t', insert_rotate s m (topk g k) (addr t) p g = Ret (m', addr t')
    /\ rep m' 0 t' /\ is_rb t' /\ elems t' = elems (plug K t) /\ forall z, occ z t + occk z K = 0 -> same_at m m' z.
Proof.
  intros K Ht (Rs & Bs & [Ru Hk] & Hblk) Bu U Hc Hr. subst K. destruct (red_mk s n t Ht) as (a & x & b & -> & Ra & Rb & Ba & Bb). rewrite addr_mk in *.
  assert (Hfin : forall m' t' c v d y e, t' = mk s Black (mk s Red c v d) y (mk s Red e g u) ->
    holds m' k t' m (fun z => occ z (mk s Red a x b) + one z p + occ z sib + one z g + occ z u + occk z k = 0) -> rbt n c -> rbt n d -> rbt n e ->
    is_black c -> is_black d -> is_black e -> elems (plug k t') = elems (plug (F s1 Red p sib :: F s Black g u :: k) (mk s Red a x b)) ->
    insert_rotate s m (topk g k) x p g = Ret (m', topk (addr t') k) ->
    exists m' t', insert_rotate s m (topk g k) x p g = Ret (m', addr t') /\ rep m' 0 t' /\ is_rb t'
      /\ elems t' = elems (plug (F s1 Red p sib :: F s Black g u :: k) (mk s Red a x b))
      /\ forall z, occ z (mk s Red a x b) + occk z (F s1 Red p sib :: F s Black g u :: k) = 0 -> same_at m m' z).
  { intros m' t' c v d y e -> [H1 H2 H3] ? ? ? ? ? ? He E. eexists m', (plug k _). rewrite addr_plug. split_and!.
    - exact E.
    - apply rep_plug. split; [exact H1|exact H2].
    - apply (rb_plug _ (S n)); [|done|by rewrite is_black_mk]. rewrite rbt_mk. exists n. rewrite !rbt_mk. split_and!; done.
    - exact He.
    - intros z Hz. apply H3. cbn in Hz. lia. }
  assert (Hs1 : s1 = s \/ s1 = opp s) by (destruct s1, s; auto). destruct Hs1 as [-> | ->].
  - destruct (insert_near s m x a b p sib g u k) as (m' & E & Hh); [uq|done|done|done|].
    apply (Hfin m' _ a x b p sib eq_refl); try done; [|by rewrite addr_mk].
    cbn [plug]. rewrite !elems_plug. destruct s; cbn; repeat (rewrite <- ?app_assoc; cbn); done.
  - destruct (insert_far s m x a b p sib g u k) as (m' & E & Hh); [uq|done|done|done|done|].
    apply (Hfin m' _ sib p a x b eq_refl); try done; [|by rewrite addr_mk].
    cbn [plug]. rewrite !elems_plug. destruct s; cbn; repeat (rewrite <- ?app_assoc; cbn); done.
Qed.

Lemma insert_loop_spec : forall fuel k m n t, (length k < fuel)%nat ->
  red_tree n t -> cok n k -> (forall z, occ z t + occk z k <= 1) -> crep m (addr t) k -> rep m (par_of k) t ->
  exists m' t', insert_loop fuel m (topk (addr t) k) (addr t) (par_of k) = Ret (m', addr t')
    /\ rep m' 0 t' /\ is_rb t' /\ elems t' = elems (plug k t)
    /\ forall z, occ z t + occk z k = 0 -> same_at m m' z.
Proof.
  induction fuel as [|fuel IH]; intros k m n t Hf Ht Hk U Hc Hr; [lia|]. cbn [insert_loop]. change RB_BLACK with (colz Black). change RB_RED with (colz Red).
  destruct k as [|[s1 c p sib] k].
  { cbn [par_of topk]. rewrite Z.eqb_refl. destruct (blacken_root m n t Ht ltac:(intros z; specialize (U z); cbn in U; lia) Hr) as (m' & t' & E & R1 & R2 & R3 & R4). exists m', t'. split_and!; try done.
    intros z Hz. apply R4. cbn in Hz. lia. }
  pose proof Hc as (Gp & Pp & Fp & Fp' & Hsib & Hc'). cbn [par_of f_addr]. pose proof (good_nz p Gp). destruct (Z.eqb_spec p 0); [done|].
  unfold rb_is_black. rewrite ld_pc_ok by done. cbn [obind]. rewrite Pp. unfold __rb_is_black. rewrite color_pack by (by apply (crep_par_ptr m p)).
  destruct c; [change (negb (colz Red =? 0)) with false|change (negb (colz Black =? 0)) with true]; cbn iota.
  2:{ exists m, (plug (F s1 Black p sib :: k) t). rewrite addr_plug. split_and!; try done.
      - apply rep_plug. done.
      - destruct Ht as (a & x & b & -> & Ra & Rb & Ba & Bb). apply (rb_plug _ n); cbn; try done. }
  pose proof Hk as Hk0. destruct Hk as (Rs & Bs & Hk & Hblk). destruct k as [|[s [] g u] k]; try done. destruct Hk as [Ru Hk]. cbn in Hf.
  destruct Hc' as (Gg & Pg & Fg & Fg' & Hu & Hc'). pose proof (good_nz g Gg). cbn [par_of f_addr] in *.
  unfold rb_red_parent. rewrite ld_pc_ok by done. cbn [obind]. rewrite Pp. replace (g + colz Red) with g by (unfold colz, RB_RED; lia).
  rewrite ld_ok by done. cbn [obind]. rewrite (parent_side s m p u g); [|done|done|done|uq].
  rewrite ld_ok by done. cbn [obind]. rewrite Fg'.
  destruct (decide (is_black u)) as [Bu|Bu].
  - assert ((if negb (addr u =? 0) then rb_is_red m (addr u) else Ret false) = Ret false) as ->.
    { destruct u as [|[] ul ux ur]; [done|done|]. rewrite (rep_is_red m g) by (done || by apply good_ptr). by destruct (negb _). }
    cbn [obind topk f_addr]. by apply (insert_black_uncle s s1 m n t p sib g u k).
  - destruct u as [|[] ul ux ur]; try done. destruct Hu as (Gu & Pu & Ful & Fur & Hul & Hur). cbn [addr]. pose proof (good_nz ux Gu).
    destruct (Z.eqb_spec ux 0); [done|]. cbn [negb]. unfold rb_is_red. rewrite ld_pc_ok by done. cbn [obind]. rewrite Pu. unfold __rb_is_red.
    rewrite color_pack by (by apply good_ptr). change (colz Red =? 0) with true. cbn [obind]. unfold rb_set_parent_color.
    rewrite st_pc_ok by done. cbn [obind]. rewrite st_pc_ok by done. cbn [obind]. unfold rb_parent. rewrite ld_pc_ok by done. cbn [obind].
    rewrite !lor_col by (by apply good_ptr).
    rewrite !pc_setpc_ne by uq. rewrite Pg, parent_pack by (by apply (crep_par_ptr m g)). rewrite st_pc_ok by done. cbn [obind].
    rewrite lor_col by (by apply (crep_par_ptr m g)). set (m1 := setpc _ g _).
    destruct Ru as (Rul & Rur & Bul & Bur).
    destruct (IH k m1 (S n) (mk s Red (mk s1 Black t p sib) g (Node Black ul ux ur))) as (m' & t' & E & R1 & R2 & R3 & R4).
    + lia.
    + destruct Ht as (a & x & b & -> & Ra & Rb & Ba & Bb). destruct s; eexists _, _, _; (split; [reflexivity|]); rewrite !rbt_mk; cbn; rewrite ?is_black_mk; split_and!; eauto 10.
      all: eexists; split_and!; try done; cbn; split_and!; done.
    + done.
    + intros z. specialize (U z). rewrite !occ_mk. cbn in *. rewrite ?occ_mk. occ_pose. lia.
    + rewrite addr_mk. unfold m1. frame_from m.
    + rewrite !rep_mk, addr_mk. cbn [rep addr]. unfold m1. split_and!; try done; try (rd; done).
      all: frame_from m.
    + rewrite addr_mk in E. cbn [topk f_addr]. exists m', t'. split_and!; [done|done|done| |].
      * rewrite R3. cbn [plug]. rewrite !elems_plug. destruct s, s1; cbn; repeat (rewrite <- ?app_assoc; cbn); done.
      * intros z Hz. apply (same_trans _ m1); [|apply R4].
        -- unfold m1. cbn in Hz. same.
        -- cbn in Hz. rewrite !occ_mk. cbn. occ_pose. lia.
Qed.

(** * Paths are short

    A red-black tree of distinct aligned addresses has fewer than 2^62 nodes
    and no path of more than 124 of them, so the loops that follow a path end
    within [PATH_FUEL] steps. *)

Fixpoint blacks (k : ctx) : nat :=
  match k with [] => O | F _ Black _ _ :: k' => S (blacks k') | F _ Red _ _ :: k' => blacks k' end.

Lemma ctx_length k : forall n, cok n k -> (length k <= 2 * blacks k)%nat
  /\ match k with F _ Black _ _ :: _ => (length k < 2 * blacks k)%nat | _ => True end.
Proof.
  induction k as [|[s [] x u] k IH]; intros n Hk; [cbn; lia| |].
  - destruct Hk as (_ & _ & Hk & Hb). destruct (IH n Hk) as [H1 H2]. destruct k as [|[? [] ? ?] ?]; [done|done|]. cbn [length blacks] in *. lia.
  - destruct Hk as [_ Hk]. destruct (IH _ Hk) as [H1 _]. cbn. lia.
Qed.

Lemma rbt_plug k : forall n t, rbt n t -> cok n k -> (wants_black k -> is_black t) -> rbt (n + blacks k) (plug k t).
Proof.
  induction k as [|[s [] x u] k IH]; intros n t Ht Hk Hw; cbn [plug blacks].
  - by rewrite Nat.add_0_r.
  - destruct Hk as (Hu & Bu & Hk & Hb). apply IH; [|done|].
    + apply rbt_mk. split_and!; try done. by apply Hw.
    + intros W. exfalso. destruct k as [|[? [] ? ?] ?]; done.
  - destruct Hk as [Hu Hk]. replace (n + S (blacks k))%nat with (S n + blacks k)%nat by lia. apply IH; [|done|].
    + apply rbt_mk. eauto.
    + intros _. by apply is_black_mk.
Qed.

Lemma rbt_size t : forall n, rbt n t -> 2 ^ Z.of_nat n <= Z.of_nat (length (elems t)) + 1.
Proof.
  induction t as [|c l IHl x r IHr]; intros n; cbn [rbt elems]; [intros ->; cbn; lia|]. rewrite length_app. cbn [length]. destruct c.
  - intros (Hl & Hr & _). specialize (IHl n Hl). specialize (IHr n Hr). lia.
  - intros (n' & -> & Hl & Hr). specialize (IHl n' Hl). specialize (IHr n' Hr). rewrite Nat2Z.inj_succ, Z.pow_succ_r by lia. lia.
Qed.

Lemma rep_good m t : forall par z, rep m par t -> 0 < occ z t -> good z.
Proof.
  induction t as [|c l IHl x r IHr]; intros par z; cbn; [lia|]. intros (G & _ & _ & _ & Hl & Hr) Hz.
  destruct (decide (0 < occ z l)); [by eapply IHl|]. destruct (decide (0 < occ z r)); [by eapply IHr|].
  unfold one in Hz. destruct (Z.eqb_spec z x) as [->|]; [done|]. pose proof (occ_nonneg z l). pose proof (occ_nonneg z r). lia.
Qed.

Lemma good_count l : NoDup l -> (forall x, x ∈ l -> good x) -> Z.of_nat (length l) <= 2 ^ 62.
Proof.
  intros Hd Hg. assert (Hsub : ((fun x => x / 4) <$> l) ⊆+ seqZ 0 (2 ^ 62)).
  { apply NoDup_submseteq.
    - apply NoDup_fmap_2_strong; [|done]. intros x y Hx%Hg Hy%Hg E. destruct Hx as [_ [a ->]], Hy as [_ [b ->]]. rewrite !Z.div_mul in E by lia. lia.
    - intros y (x & -> & Hx%Hg)%list_elem_of_fmap. destruct Hx as [Hx _]. apply elem_of_seqZ. split; [apply Z.div_pos; lia|].
      apply Z.div_lt_upper_bound; [lia|]. change (4 * (0 + 2 ^ 62)) with (2 ^ 64). lia. }
  apply submseteq_length in Hsub. rewrite length_fmap, length_seqZ in Hsub. lia.
Qed.

(** Every place in a red-black tree is less than [PATH_FUEL] steps from its
    root. *)
Lemma path_short m k t : rep m 0 (plug k t) -> is_rb (plug k t) -> (forall z, occ z (plug k t) <= 1) -> (length k < 150)%nat.
Proof.
  intros Hr Hrb U. destruct (rb_unplug k t Hrb) as (n & Ht & Hk & Hw). destruct (ctx_length k n Hk) as [Hl _].
  pose proof (rbt_size _ _ (rbt_plug k n t Ht Hk Hw)) as Hs.
  assert (Hc : Z.of_nat (length (elems (plug k t))) <= 2 ^ 62).
  { apply good_count; [by apply occ_NoDup|]. intros x Hx%occ_elem. by apply (rep_good m (plug k t) 0). }
  assert (Hb : (n + blacks k < 64)%nat).
  { destruct (decide (n + blacks k < 64)%nat); [done|]. exfalso.
    assert (2 ^ 64 <= 2 ^ Z.of_nat (n + blacks k)) by (apply Z.pow_le_mono_r; lia). lia. }
  lia.
Qed.
