(* ===== verification/RbErase.v ===== *)
(** * Removal from a red-black tree: restoring the black height *)

From S2P Require Import Prelude Bitops Rbtree RbtreeSpec.
From stdpp Require Import base list numbers option.
#[local] Open Scope Z_scope.
#[local] Open Scope kernel_scope.

Lemma null_or_black_ok m par t : rep m par t -> ptr par -> null_or_black m (addr t) = Ret (bool_decide (is_black t)).
Proof.
  intros Ht Hp. unfold null_or_black. destruct t as [|c l x r]; [done|]. pose proof Ht as (G & _). pose proof (good_nz x G).
  pose proof (rep_is_black m par (Node c l x r) Ht Hp ltac:(done)) as E. cbn [addr] in *. destruct (Z.eqb_spec x 0); [done|]. cbn [negb]. rewrite E. by destruct c.
Qed.

Lemma nonleaf_addr m par t : rep m par t -> t <> Leaf -> good (addr t).
Proof. destruct t; [done|]. by intros [G _] _. Qed.

Lemma bh_nonleaf n t : rbt (S n) t -> t <> Leaf.
Proof. intros H ->. done. Qed.

(** Trees of the height the context asks for, put below its first frame. *)
Lemma frame_plug s c n p sib k a x b : cok n (F s c p sib :: k) -> rbt n a -> rbt n b -> is_black a -> is_black b ->
  is_rb (plug k (mk s c a x b)).
Proof.
  intros Hk Ra Rb Ba Bb. destruct c; cbn in Hk.
  - destruct Hk as (_ & _ & Hk & Hb). apply (rb_plug k n); [by apply rbt_mk|done|]. intros W. destruct k as [|[? [] ? ?] ?]; done.
  - destruct Hk as [_ Hk]. apply (rb_plug k (S n)); [apply rbt_mk; eauto|done|]. intros _. by apply is_black_mk.
Qed.

(** Case 1: the red sibling [q] goes above [p]. *)
Lemma erase_case1_ok s m t p a q b k :
  (forall z, occ z t + one z p + occ z a + one z q + occ z b + occk z k <= 1) ->
  crep m (addr t) (F s Black p (mk s Red a q b) :: k) -> rep m p t -> is_black a -> a <> Leaf ->
  exists m', erase_case1 s m (topk p k) p q = Ret (m', topk q k, addr a)
    /\ crep m' (addr t) (F s Red p a :: F s Black q b :: k) /\ rep m' p t
    /\ forall z, occ z t + one z p + occ z a + one z q + occ z b + occk z k = 0 -> same_at m m' z.
Proof.
  intros U (Gp & Pp & Fp & Fp' & Hsib & Hk) Ht Ba Na. apply rep_mk in Hsib as (Gq & Pq & Fq & Fq' & Ha & Hb). cbn [par_of f_addr] in *.
  pose proof (good_nz p Gp). pose proof (good_nz q Gq). pose proof (nonleaf_addr _ _ _ Ha Na) as Gn. pose proof (good_nz _ Gn).
  unfold erase_case1. change RB_BLACK with (colz Black). change RB_RED with (colz Red). rewrite ld_ok by done. cbn [obind]. rewrite Fq.
  do 2 (rewrite st_ok by done; cbn [obind]). set (m1 := setf s (setf (opp s) m p (addr a)) q p).
  assert (Ha1 : rep m1 q a) by (unfold m1; frame_from m).
  pose proof (when_color_ok m1 q a p Black Ha1 (good_ptr p Gp)) as Ew. destruct (Z.eqb_spec (addr a) 0); [done|]. cbn [negb when] in Ew. rewrite Ew. cbn [obind].
  set (m2 := setroot m1 a (p + colz Black)).
  rewrite (rotate_ok m2 (topk p k) p q Black Red k); [|unfold m2, m1; frame_from m|unfold m2, m1; rd; done|done|done|uq].
  cbn [obind]. rewrite root_after_topk. eexists. split; [reflexivity|]. split_and!.
  - cbn [crep par_of f_addr]. split_and!; try done; try (unfold m2, m1; rd; done).
    + frame_from m2. rewrite <- (paint_black a Ba). apply (rep_setroot m1 q); [done|uq].
    + unfold m2, m1. frame_from m.
    + apply (crep_setk _ p); [|uq]. unfold m2, m1. frame_from m.
  - unfold m2, m1. frame_from m.
  - intros z Hz. unfold m2, m1. same.
Qed.

(** Case 4: the far child [b] of the sibling [q] is red, or case 3 has just put
    it there; the packed words of [q] and of [b] do not matter. *)
Lemma erase_case4_ok s m t c p a q b par k :
  (forall z, occ z t + one z p + occ z a + one z q + occ z b + occk z k <= 1) ->
  good p -> pc_of m p = par_of k + colz c -> fld s m p = addr t -> rep m p t -> crep m p k ->
  good q -> fld s m q = addr a -> fld (opp s) m q = addr b -> rep m q a -> rep m par b -> b <> Leaf ->
  exists m', erase_case4 s m (topk p k) p q (addr b) = Ret (m', topk q k)
    /\ holds m' k (mk s c (mk s Black t p a) q (paint Black b)) m
         (fun z => occ z t + one z p + occ z a + one z q + occ z b + occk z k = 0).
Proof.
  intros U Gp Pp Fp Ht Hk Gq Fq Fq' Ha Hb Nb.
  pose proof (good_nz p Gp). pose proof (good_nz q Gq). pose proof (nonleaf_addr _ _ _ Hb Nb) as Gn. pose proof (good_nz _ Gn).
  unfold erase_case4. change RB_BLACK with (colz Black). rewrite ld_ok by done. cbn [obind]. rewrite Fq.
  do 2 (rewrite st_ok by done; cbn [obind]). set (m1 := setf s (setf (opp s) m p (addr a)) q p).
  assert (Hb1 : rep m1 par b) by (unfold m1; frame_from m).
  pose proof (when_color_ok m1 par b q Black Hb1 (good_ptr q Gq)) as Ew. destruct (Z.eqb_spec (addr b) 0); [done|]. cbn [negb when] in Ew. rewrite Ew. cbn [obind].
  set (m2 := setroot m1 b (q + colz Black)). assert (Ha2 : rep m2 q a) by (unfold m2, m1; frame_from m).
  rewrite (when_parent_ok m2 q a p) by (done || by apply good_ptr). cbn [obind]. set (m3 := setroot m2 a (p + colz (col a))).
  rewrite (rotate_ok m3 (topk p k) p q c Black k); [|unfold m3, m2, m1; frame_from m|unfold m3, m2, m1; rd; done|done|done|uq].
  rewrite root_after_topk. eexists. split; [reflexivity|]. split; rewrite ?addr_mk.
  - apply (crep_setk _ p); [|uq]. unfold m3, m2, m1. frame_from m.
  - rewrite (rep_mk _ _ s c), (rep_mk _ _ s Black t), !addr_mk, addr_paint. split_and!; try done; try (unfold m3, m2, m1; rd; done).
    + unfold m3, m2, m1. frame_from m.
    + frame_from m3. rewrite <- (paint_col a) at 1. apply (rep_setroot m2 q); [done|uq].
    + unfold m3. apply (rep_frame m2); [apply (rep_setroot m1 par); [done|uq]|]. intros z Hz. rewrite occ_paint in Hz. same.
  - intros z Hz. unfold m3, m2, m1. same.
Qed.

(** Case 3: the near child [w] of the sibling [q] is red and is rotated above
    it; [w] is red until case 4 follows. *)
Lemma erase_case3_ok s m t c p a1 w a2 q b k :
  (forall z, occ z t + one z p + occ z a1 + one z w + occ z a2 + one z q + occ z b + occk z k <= 1) ->
  crep m (addr t) (F s c p (mk s Black (mk s Red a1 w a2) q b) :: k) -> rep m p t -> is_black a2 ->
  exists m', erase_case3 s m p q w = Ret m' /\ rep m' p t /\ crep m' p k /\ good p /\ good w /\ good q
    /\ pc_of m' p = par_of k + colz c /\ fld s m' p = addr t /\ fld (opp s) m' p = w
    /\ pc_of m' w = q + colz Red /\ fld s m' w = addr a1 /\ fld (opp s) m' w = q /\ rep m' w a1
    /\ pc_of m' q = p + colz Black /\ fld s m' q = addr a2 /\ fld (opp s) m' q = addr b /\ rep m' q a2 /\ rep m' q b
    /\ forall z, occ z t + one z p + occ z a1 + one z w + occ z a2 + one z q + occ z b + occk z k = 0 -> same_at m m' z.
Proof.
  intros U (Gp & Pp & Fp & Fp' & Hsib & Hk) Ht Ba. apply rep_mk in Hsib as (Gq & Pq & Fq & Fq' & Ha & Hb). rewrite addr_mk in *.
  apply rep_mk in Ha as (Gw & Pw & Fw & Fw' & Ha1 & Ha2). cbn [par_of f_addr] in *.
  pose proof (good_nz p Gp). pose proof (good_nz q Gq). pose proof (good_nz w Gw).
  unfold erase_case3. change RB_BLACK with (colz Black). rewrite ld_ok by done. cbn [obind]. rewrite Fw'.
  do 3 (rewrite st_ok by done; cbn [obind]). set (m1 := setf _ _ p w).
  assert (Ha21 : rep m1 w a2) by (unfold m1; frame_from m).
  rewrite (when_color_ok m1 w a2 q Black) by (done || by apply good_ptr). eexists. split; [reflexivity|].
  split_and!; try done; try (unfold m1; rd; done); try (unfold m1; frame_from m; done).
  - pose proof (rep_setroot m1 w a2 q Black Ha21 ltac:(uq)) as E. by rewrite (paint_black a2 Ba) in E.
  - intros z Hz. unfold m1. same.
Qed.

(** ** One turn of the loop *)

(** The result of the loop: a red-black tree with the same nodes in the same
    order. *)
Definition done_erase (res : outcome (rbmem * Z)) (m : rbmem) (k : ctx) (t : tree) : Prop :=
  exists m' t', res = Ret (m', addr t') /\ rep m' 0 t' /\ is_rb t' /\ elems t' = elems (plug k t)
    /\ forall z, occ z t + occk z k = 0 -> same_at m m' z.

Section black_sibling.
Context (s : side) (m : rbmem) (t : tree) (c : color) (p : Z) (a : tree) (q : Z) (b : tree) (k : ctx) (n : nat).
#[local] Abbreviation K := (F s c p (mk s Black a q b) :: k).
Hypothesis U : forall z, occ z t + occk z K <= 1.
Hypothesis Rt : rbt n t.
Hypothesis Bt : is_black t.
Hypothesis Hck : cok (S n) K.
Hypothesis Hcr : crep m (addr t) K.
Hypothesis Ht : rep m p t.

Lemma done_plug m' r u out : addr u = r -> holds m' k u m out -> is_rb (plug k u) -> elems u = elems (mk s c t p (mk s Black a q b)) ->
  (forall z, occ z t + occk z K = 0 -> out z) -> done_erase (Ret (m', topk r k)) m K t.
Proof.
  intros <- [H1 H2 H3] Hrb He Ho. exists m', (plug k u). rewrite addr_plug. split_and!; [done|by apply rep_plug|done| |].
  - cbn [plug]. by rewrite !elems_plug, He.
  - intros z Hz. apply H3, Ho, Hz.
Qed.

Lemma sibling_children : rbt n a /\ rbt n b.
Proof. destruct c; destruct Hck as [Hs _]; apply rbt_mk in Hs as (n' & [= <-] & ? & ?); done. Qed.

Lemma finish_case4 : ~ is_black b -> done_erase (erase_case4 s m (topk p k) p q (addr b)) m K t.
Proof.
  intros Bb. pose proof Hcr as (Gp & Pp & Fp & Fp' & Hsib & Hk). pose proof Hsib as (Gq & Pq & Fq & Fq' & Ha & Hb)%rep_mk. destruct sibling_children as [Ra Rb].
  destruct (erase_case4_ok s m t c p a q b q k) as (m' & -> & Hh); try done; [uq|by intros ->|].
  eapply (done_plug m' q _ _ (addr_mk _ _ _ _ _) Hh).
  - eapply frame_plug; [exact Hck|apply rbt_mk; eauto| |by apply is_black_mk|by destruct b]. destruct b as [|[] bl bx br]; try done.
    destruct Rb as (? & ? & ? & ?). cbn. eauto.
  - destruct s; cbn; rewrite elems_paint; repeat (rewrite <- ?app_assoc; cbn); done.
  - intros z Hz. cbn in Hz. rewrite occ_mk in Hz. lia.
Qed.

Lemma finish_case3 : ~ is_black a -> is_black b ->
  done_erase (let! m := erase_case3 s m p q (addr a) in erase_case4 s m (topk p k) p (addr a) q) m K t.
Proof.
  intros Bal Bb. assert (Ea : exists a1 w a2, a = mk s Red a1 w a2) by (destruct a as [|[] al ax ar]; try done; destruct s; eexists _, _, _; done).
  destruct Ea as (a1 & w & a2 & Ea). destruct sibling_children as [Ra Rb]. rewrite Ea in Ra. apply rbt_mk in Ra as (Ra1 & Ra2 & Ba1 & Ba2).
  rewrite Ea in *. rewrite addr_mk.
  destruct (erase_case3_ok s m t c p a1 w a2 q b k) as (m1 & -> & H1 & H2 & H3 & H4 & H5 & H6 & H7 & H8 & H9 & H10 & H11 & H12 & H13 & H14 & H15 & H16 & H17 & H18); [uq|done..|].
  cbn [obind]. destruct (erase_case4_ok s m1 t c p a1 w (mk s Black a2 q b) p k) as (m' & E4 & Hh); try done.
  { uq. } { by rewrite addr_mk. } { apply rep_mk. done. } { by destruct s. }
  rewrite addr_mk in E4. rewrite E4. destruct Hh as [G1 G2 G3].
  exists m', (plug k (mk s c (mk s Black t p a1) w (paint Black (mk s Black a2 q b)))). rewrite addr_plug, addr_mk. split_and!; [done|by apply rep_plug| | |].
  - eapply frame_plug; [exact Hck| | |by apply is_black_mk|by destruct s]; [apply rbt_mk; eauto|]. destruct s; cbn; eauto.
  - cbn [plug]. rewrite !elems_plug. destruct s; cbn; repeat (rewrite <- ?app_assoc; cbn); done.
  - intros z Hz. cbn in Hz. rewrite !occ_mk in Hz. apply (same_trans _ m1); [apply H18|apply G3; rewrite occ_mk]; lia.
Qed.
(** Case 2: the sibling turns red; the tree below [p] has its height but [p]
    is then one black short unless it was red. *)
Lemma case2_memory : is_black a -> is_black b -> forall c',
  let m1 := setpc m q (p + colz Red) in
  let m2 := match c' with None => m1 | Some d => setpc m1 p (par_of k + colz d) end in
  let u := mk s (default c c') t p (mk s Red a q b) in
  holds m2 k u m (fun z => occ z t + occk z K = 0).
Proof.
  intros Bal Bb c' m1 m2 u. pose proof Hcr as (Gp & Pp & Fp & Fp' & Hsib & Hk). pose proof Hsib as (Gq & Pq & Fq & Fq' & Ha & Hb)%rep_mk.
  rewrite addr_mk in Fp'. unfold u, m2, m1. split; rewrite ?addr_mk.
  - destruct c'; frame_from m.
  - rewrite !rep_mk, addr_mk. destruct c'; cbn [default]; split_and!; try done; try (rd; done); frame_from m.
  - intros z Hz. destruct c'; cbn in Hz; rewrite occ_mk in Hz; same.
Qed.

Variable again : rbmem -> Z -> Z -> Z -> outcome (rbmem * Z).
Hypothesis Again : forall m' t', c = Black -> k <> [] -> rbt (S n) t' -> is_black t' -> cok (S (S n)) k ->
  (forall z, occ z t' + occk z k <= 1) -> crep m' (addr t') k -> rep m' (par_of k) t' ->
  done_erase (again m' (topk (addr t') k) (addr t') (par_of k)) m' k t'.

Lemma finish_case2 : is_black a -> is_black b ->
  done_erase (let! m := rb_set_parent_color m q p RB_RED in
              let! red := rb_is_red m p in
              if red then let! m := rb_set_black m p in Ret (m, topk p k)
              else
                let! pp := rb_parent m p in
                if negb (pp =? 0) then again m (topk p k) p pp else Ret (m, topk p k)) m K t.
Proof.
  intros Bal Bb. pose proof Hcr as (Gp & Pp & _ & _ & Hsib & Hk). pose proof Hsib as (Gq & _)%rep_mk. pose proof (crep_par_ptr _ _ _ Hk) as Ppar.
  pose proof (good_nz p Gp). pose proof (good_nz q Gq). destruct sibling_children as [Ra Rb]. change RB_RED with (colz Red).
  assert (Hpq : p <> q) by uq.
  assert (Pp1 : pc_of (setpc m q (p + colz Red)) p = par_of k + colz c) by (by rewrite pc_setpc_ne).
  unfold rb_set_parent_color. rewrite st_pc_ok, lor_col by (done || by apply good_ptr). cbn [obind].
  unfold rb_is_red, rb_set_black, rb_parent. rewrite !ld_pc_ok by done. cbn [obind]. rewrite Pp1. unfold __rb_is_red. rewrite color_pack, parent_pack by done.
  pose proof done_plug as DP. pose proof case2_memory as CM. destruct c.
  - change (colz Red =? 0) with true. cbn iota. rewrite st_pc_ok, lor_black by done. cbn [obind].
    eapply (DP _ p _ _ (addr_mk _ _ _ _ _) (CM Bal Bb (Some Black))).
    + destruct Hck as (_ & _ & Hk' & Hb'). apply (rb_plug k (S n)); [|done|by rewrite is_black_mk]. cbn [default]. rewrite !rbt_mk. exists n. rewrite rbt_mk. done.
    + destruct s; done.
    + done.
  - change (colz Black =? 0) with false. cbn iota. destruct Hck as [_ Hk']. pose proof (CM Bal Bb None) as Hh. cbn [default] in Hh.
    assert (Ru : rbt (S n) (mk s Black t p (mk s Red a q b))) by (rewrite rbt_mk; exists n; rewrite rbt_mk; done).
    destruct (decide (k = [])) as [->|Hne].
    + eapply (DP _ p _ _ (addr_mk _ _ _ _ _) Hh); [|by destruct s|done]. apply (rb_plug _ (S n)); [done|done|]. by rewrite is_black_mk.
    + assert (Hnz : par_of k <> 0) by (destruct k as [|[? ? ? ?] ?]; [done|]; destruct Hk as [Gk _]; by apply good_nz).
      destruct (Z.eqb_spec (par_of k) 0); [done|]. cbn [negb]. destruct Hh as [H1 H2 H3].
      destruct (Again (setpc m q (p + colz Red)) _ eq_refl Hne Ru) as (m' & t' & E & R1 & R2 & R3 & R4); [by apply is_black_mk|done|uq|done|done|]. rewrite addr_mk in E.
      exists m', t'. split_and!; [done|done|done| |].
      * rewrite R3. cbn [plug]. rewrite !elems_plug. by destruct s.
      * intros z Hz. eapply same_trans; [by apply H3|]. apply R4. cbn in Hz. rewrite !occ_mk in *. lia.
Qed.

Lemma erase_black_spec : done_erase (erase_black again s m (topk p k) p q) m K t.
Proof.
  pose proof Hcr as (Gp & _ & _ & _ & Hsib & Hk). pose proof Hsib as (Gq & Pq & Fq & Fq' & Ha & Hb)%rep_mk.
  unfold erase_black. rewrite ld_ok by (by apply good_nz). cbn [obind]. rewrite Fq', (null_or_black_ok m q b) by (done || by apply good_ptr). cbn [obind].
  case_bool_decide as Bb; [|by apply finish_case4].
  rewrite ld_ok by (by apply good_nz). cbn [obind]. rewrite Fq, (null_or_black_ok m q a) by (done || by apply good_ptr). cbn [obind].
  case_bool_decide as Bal; [by apply finish_case2|by apply finish_case3].
Qed.
End black_sibling.

(** ** The loop *)

Lemma erase_side s m t sib p : rep m p t -> rep m p sib -> sib <> Leaf -> fld s m p = addr t -> fld (opp s) m p = addr sib ->
  (forall z, occ z t + occ z sib <= 1) -> (if negb (addr t =? fld R m p) then L else R) = s.
Proof.
  intros Ht Hs Hn F1 F2 U. pose proof (nonleaf_addr _ _ _ Hs Hn) as G. destruct s; cbn [opp] in *.
  - rewrite F2. destruct (Z.eqb_spec (addr t) (addr sib)) as [E|]; [|done]. exfalso. pose proof (addr_occ sib (good_nz _ G)).
    pose proof (addr_occ t ltac:(rewrite E; by apply good_nz)) as Ho. rewrite E in Ho. specialize (U (addr sib)). lia.
  - by rewrite F1, Z.eqb_refl.
Qed.

Lemma erase_loop_spec : forall fuel k m n t, (length k < fuel)%nat -> k <> [] ->
  rbt n t -> is_black t -> cok (S n) k -> (forall z, occ z t + occk z k <= 1) -> crep m (addr t) k -> rep m (par_of k) t ->
  done_erase (erase_loop fuel m (topk (addr t) k) (addr t) (par_of k)) m k t.
Proof.
  induction fuel as [|fuel IH]; intros [|[s c p sib] k] m n t Hf Hne Rt Bt Hck U Hcr Ht; [cbn in Hf; lia..|done|]. cbn [length] in Hf.
  pose proof Hcr as (Gp & Pp & Fp & Fp' & Hsib & Hk). cbn [par_of f_addr topk] in *.
  assert (Rs : rbt (S n) sib) by (destruct c; apply Hck).
  assert (Ns : sib <> Leaf) by (by apply (bh_nonleaf n)).
  cbn [erase_loop]. rewrite ld_ok by (by apply good_nz). cbn [obind]. rewrite (erase_side s m t sib p); try done; [|uq].
  rewrite ld_ok by (by apply good_nz). cbn [obind]. rewrite Fp', (rep_is_red m p sib) by (done || by apply good_ptr). cbn [obind].
  assert (Es : exists a q b, sib = mk s (col sib) a q b) by (destruct sib as [|d sl sx sr]; [done|]; destruct s; eexists _, _, _; done).
  destruct Es as (a & q & b & Es). destruct (col sib) eqn:Ec; rewrite Es in *; rewrite addr_mk in *; cbn [obind].
  - destruct c; [by destruct Hck as (_ & B & _); apply is_black_mk in B|]. destruct Hck as [(Ra & Rb & Ba & Bb)%rbt_mk Hck].
    destruct (erase_case1_ok s m t p a q b k) as (m1 & -> & Hc1 & Ht1 & S1); [uq|done|done|done|by apply (bh_nonleaf n)|]. cbn [obind].
    assert (Ea : exists a1 w a2, a = mk s Black a1 w a2).
    { destruct a as [|[] al ax ar]; [by apply bh_nonleaf in Ra|done|]. destruct s; eexists _, _, _; done. }
    destruct Ea as (a1 & w & a2 & ->). rewrite addr_mk.
    destruct (erase_black_spec s m1 t Red p a1 w a2 (F s Black q b :: k) n) with (again := erase_loop fuel)
      as (m' & t' & E & R1 & R2 & R3 & R4); try done; [uq|].
    exists m', t'. split_and!; [done|done|done| |].
    + rewrite R3. cbn [plug]. rewrite !elems_plug. destruct s; cbn; repeat (rewrite <- ?app_assoc; cbn); done.
    + intros z Hz. cbn in Hz. rewrite !occ_mk in Hz. apply (same_trans _ m1); [apply S1; rewrite occ_mk; lia|]. apply R4. cbn. rewrite occ_mk. lia.
  - apply (erase_black_spec s m t c p a q b k n); try done. intros m' t' -> Hn R' B' K' U' C' T'. apply (IH k m' (S n) t'); try done. lia.
Qed.

(** * Removal from a red-black tree: taking the node out *)

(** ** Stretches of a path *)

Definition top_of (k : ctx) (p : Z) : Z := match k with [] => p | f :: _ => f_addr f end.

(** As [crep] for a context whose outermost frame has parent [p]. *)
Fixpoint seg (m : rbmem) (a : Z) (k : ctx) (p : Z) : Prop :=
  match k with
  | [] => True
  | F s c x u :: k' => good x /\ pc_of m x = top_of k' p + colz c /\ fld s m x = a /\ fld (opp s) m x = addr u /\ rep m x u /\ seg m x k' p
  end.

Lemma top_par k1 k2 : top_of k1 (par_of k2) = par_of (k1 ++ k2).
Proof. by destruct k1. Qed.
Lemma top_of_app k1 k2 p : top_of (k1 ++ k2) p = top_of k1 (top_of k2 p).
Proof. by destruct k1. Qed.
Lemma crep_app m k1 k2 : forall a, crep m a (k1 ++ k2) <-> seg m a k1 (par_of k2) /\ crep m (topk a k1) k2.
Proof. induction k1 as [|[s c x u] k1 IH]; intros a; cbn; [tauto|]. rewrite IH, top_par. tauto. Qed.
Lemma seg_app m k1 k2 p : forall a, seg m a (k1 ++ k2) p <-> seg m a k1 (top_of k2 p) /\ seg m (topk a k1) k2 p.
Proof. induction k1 as [|[s c x u] k1 IH]; intros a; cbn; [tauto|]. rewrite IH, top_of_app. tauto. Qed.
Lemma seg_frame m m' k p : forall a, seg m a k p -> (forall z, 0 < occk z k -> same_at m m' z) -> seg m' a k p.
Proof.
  induction k as [|[s c x u] k IH]; intros a; cbn; [done|]. intros (G & P & Fl & Fr & Hl & Hr) Hs.
  destruct (Hs x) as [E1 E2]. { rewrite one_refl. pose proof (occ_nonneg x u). pose proof (occk_nonneg x k). lia. }
  rewrite E1, !E2. split_and!; try done.
  - apply (rep_frame m); [done|]. intros z Hz. apply Hs. pose proof (one_range z x). pose proof (occk_nonneg z k). lia.
  - apply IH; [done|]. intros z Hz. apply Hs. pose proof (one_range z x). pose proof (occ_nonneg z u). lia.
Qed.
Lemma seg_setk m a k p v : seg m a k p -> (forall z, occk z k <= 1) -> seg (setk m k v) v k p.
Proof.
  destruct k as [|[s c x u] k]; [done|]. cbn [seg setk f_side f_addr]. intros (G & P & Fa & Fu & Hu & Hk) U.
  rewrite pc_setf, fld_setf_eq, fld_setf_opp. split_and!; try done; [frame_from m|].
  apply (seg_frame m); [done|]. intros z Hz. same.
Qed.
(** The parent of the outermost node changes. *)
Lemma seg_reparent m a k s c x u p p' : seg m a (k ++ [F s c x u]) p -> (forall z, occk z (k ++ [F s c x u]) <= 1) ->
  seg (setpc m x (p' + colz c)) a (k ++ [F s c x u]) p'.
Proof.
  rewrite !seg_app. cbn [top_of f_addr seg]. intros (Hk & G & P & Fa & Fu & Hu & _) U. rewrite pc_setpc_eq, !fld_setpc. split_and!; try done; [|frame_from m].
  apply (seg_frame m); [done|]. intros z Hz. same.
Qed.

(** A tree below parent [p] and its context up to there. *)
Lemma rep_plug_seg m k t p : rep m p (plug k t) <-> seg m (addr t) k p /\ rep m (top_of k p) t.
Proof.
  revert t. induction k as [|[s c x u] k IH]; intros t; cbn [plug seg top_of f_addr]; [tauto|].
  rewrite IH, rep_mk, addr_mk. tauto.
Qed.

(** ** The outermost node on one side *)

Definition all_on (s : side) (k : ctx) : Prop := Forall (fun f => f_side f = s) k.

Lemma tree_mk s t : t <> Leaf -> exists a x b, t = mk s (col t) a x b.
Proof. destruct t as [|c l x r]; [done|]. intros _. destruct s; eexists _, _, _; done. Qed.

Lemma far_ok s m t : forall par, t <> Leaf -> rep m par t ->
  exists k c y u, t = plug k (mk s c Leaf y u) /\ all_on s k /\ forall fuel, (length k < fuel)%nat -> far fuel s m (addr t) = Ret y.
Proof.
  induction t as [|c l IHl x r IHr]; intros par Hn Hr; [done|]. clear Hn.
  assert (IH : forall a b, Node c l x r = mk s c a x b -> (a = l \/ a = r) -> rep m x a ->
    exists k c' y u, Node c l x r = plug k (mk s c' Leaf y u) /\ all_on s k /\ forall fuel, (length k < fuel)%nat -> far fuel s m x = Ret y).
  { intros a b E Hor Ha. rewrite E in Hr. apply rep_mk in Hr as (G & P & Fa & Fb & _ & Hb). pose proof (good_nz x G) as Hx.
    destruct (decide (addr a = 0)) as [Ha0|Ha0].
    - assert (a = Leaf) as ->. { destruct a as [|ca al ax ar]; [done|]. cbn in Ha0. destruct Ha as [Ga _]. apply good_nz in Ga. done. }
      exists [], c, x, b. split_and!; [done|constructor|]. intros [|fuel] Hf; [cbn in Hf; lia|]. cbn [far]. rewrite ld_ok by done. cbn [obind]. by rewrite Fa.
    - assert (Hna : a <> Leaf) by (by intros ->).
      assert (Hk : exists k c y u, a = plug k (mk s c Leaf y u) /\ all_on s k /\ forall fuel, (length k < fuel)%nat -> far fuel s m (addr a) = Ret y).
      { destruct Hor as [-> | ->]; eauto. }
      destruct Hk as (k & c' & y & u & Ea & Hk & Hf'). exists (k ++ [F s c x b]), c', y, u. split_and!.
      + rewrite plug_app, <- Ea. exact E.
      + apply Forall_app. split; [done|]. by constructor.
      + rewrite length_app. cbn. intros [|fuel] Hf; [lia|]. cbn [far]. rewrite ld_ok by done. cbn [obind]. rewrite Fa.
        destruct (Z.eqb_spec (addr a) 0); [done|]. cbn [negb]. apply Hf'. lia. }
  destruct Hr as (_ & _ & _ & _ & Hl & Hr'). destruct s; [apply (IH l r)|apply (IH r l)]; auto.
Qed.

(** The walk of __rb_erase() to the leftmost node below the right child. *)
Lemma succ_ok m a : forall par, a <> Leaf -> rep m par a ->
  exists k c y u, a = plug k (Node c Leaf y u) /\ all_on L k
    /\ forall fuel x, (length k < fuel)%nat -> succ_loop fuel m x (addr a) = Ret (top_of k x, y).
Proof.
  induction a as [|c l IHl x r _]; intros par Hn Ha; [done|]. destruct Ha as (G & P & Fl & Fr & Hl & Hr). pose proof (good_nz x G). destruct (decide (l = Leaf)) as [->|Hne].
  - exists [], c, x, r. split_and!; [done|constructor|]. intros [|fuel] x' Hf; [cbn in Hf; lia|]. cbn [succ_loop addr]. rewrite ld_ok by done. cbn [obind].
    by rewrite Fl.
  - destruct (IHl x Hne Hl) as (k & c' & y & u & El & Hk & Hs). exists (k ++ [F L c x r]), c', y, u. split_and!.
    + by rewrite plug_app, <- El.
    + apply Forall_app. split; [done|]. by constructor.
    + intros [|fuel] x'; rewrite length_app, top_of_app; cbn [length top_of f_addr]; intros Hf; [lia|]. cbn [succ_loop addr]. rewrite ld_ok by done. cbn [obind]. rewrite Fl.
      pose proof (good_nz _ (nonleaf_addr _ _ _ Hl Hne)). destruct (Z.eqb_spec (addr l) 0); [done|]. cbn [negb]. apply Hs. lia.
Qed.

(** ** The end of the removal *)

(** A node without a child on side [s] has been taken out of [k] and its other
    child [rs], which is a red leaf or nothing, has its place, painted black. *)
Lemma erase_finish m k s cs y rs n : (length k < PATH_FUEL)%nat ->
  rbt n (mk s cs Leaf y rs) -> cok n k -> (wants_black k -> cs = Black) ->
  (forall z, occ z rs + occk z k <= 1) -> crep m (addr rs) k -> rep m (par_of k) (paint Black rs) ->
  let reb := if decide (rs = Leaf) then match cs with Black => par_of k | Red => 0 end else 0 in
  done_erase (if negb (reb =? 0) then erase_loop PATH_FUEL m (topk (addr rs) k) 0 reb else Ret (m, topk (addr rs) k)) m k (paint Black rs).
Proof.
  intros Hlen Hrb Hk Hw U Hc Hr reb. unfold reb. clear reb. apply rbt_mk in Hrb.
  assert (Hstop : is_rb (plug k (paint Black rs)) -> done_erase (Ret (m, topk (addr rs) k)) m k (paint Black rs)).
  { intros Hg. exists m, (plug k (paint Black rs)). rewrite addr_plug, addr_paint. split_and!; try done. apply rep_plug. by rewrite addr_paint. }
  case_decide as Hl; [subst rs|].
  - cbn [addr paint] in *. destruct cs.
    + destruct Hrb as [-> _]. apply Hstop. by apply (rb_plug k O).
    + destruct Hrb as (n' & -> & -> & _). destruct (decide (k = [])) as [->|Hne].
      * apply Hstop. split; [done|]. by exists O.
      * assert (Hnz : par_of k <> 0) by (destruct k as [|[? ? ? ?] ?]; [done|]; destruct Hc as [Gk _]; by apply good_nz).
        destruct (Z.eqb_spec (par_of k) 0); [done|]. cbn [negb]. by apply (erase_loop_spec PATH_FUEL k m O Leaf).
  - cbn [Z.eqb negb]. apply Hstop. destruct rs as [|[] ra rx rr]; [done| |].
    + destruct cs; [by destruct Hrb as (_ & _ & _ & [])|]. destruct Hrb as (n' & -> & _ & Ha & Hb & _). apply (rb_plug k (S n')); [|done|done]. cbn. eauto.
    + destruct cs; [destruct Hrb as (-> & Hrs & _)|destruct Hrb as (n' & -> & -> & Hrs)]; by destruct Hrs as (? & ? & _).
Qed.

(** ** A node with at most one child *)

Lemma erase_done_trans res m m1 k t (out : Z -> Prop) : done_erase res m1 k t ->
  (forall z, out z -> same_at m m1 z) -> (forall z, out z -> occ z t + occk z k = 0) ->
  exists m' t', res = Ret (m', addr t') /\ rep m' 0 t' /\ is_rb t' /\ elems t' = elems (plug k t) /\ forall z, out z -> same_at m m' z.
Proof.
  intros (m' & t' & E & R1 & R2 & R3 & R4) H1 H2. exists m', t'. split_and!; try done. intros z Hz. eapply same_trans; [by apply H1|]. apply R4, H2, Hz.
Qed.

(** What removal of the root of [t] below [k] promises. *)
Definition erased (m : rbmem) (k : ctx) (t : tree) (l : list Z) : Prop :=
  exists m' t', rb_erase m (topk (addr t) k) (addr t) = Ret (m', addr t') /\ rep m' 0 t' /\ is_rb t' /\ elems t' = l
    /\ forall z, occ z t + occk z k = 0 -> same_at m m' z.

Section one_child.
Context (m : rbmem) (k : ctx) (s : side) (c : color) (x : Z) (u : tree).
#[local] Abbreviation T := (mk s c Leaf x u).
Hypothesis Hlen : (length k < PATH_FUEL)%nat.
Hypothesis Hrb : is_rb (plug k T).
Hypothesis Hrep : rep m 0 (plug k T).
Hypothesis U : forall z, one z x + occ z u + occk z k <= 1.

Lemma one_child_facts : good x /\ pc_of m x = par_of k + colz c /\ fld s m x = 0 /\ fld (opp s) m x = addr u /\ rep m x u /\ crep m x k.
Proof. apply rep_plug in Hrep as [Hc Hr]. rewrite addr_mk in Hc. apply rep_mk in Hr as (? & ? & ? & ? & _ & ?). done. Qed.

Lemma one_child_black : u <> Leaf -> c = Black.
Proof.
  clear Hlen Hrep U. intros Hu. destruct (rb_unplug _ _ Hrb) as (n & Rt & _). apply rbt_mk in Rt. destruct c; [|done]. destruct Rt as (-> & Ru & _ & Bu).
  destruct u as [|[] ul ux ur]; [done..|]. by destruct Ru as (? & ? & _).
Qed.

(** Once memory holds the child in the place of the node, the loop finishes. *)
Lemma one_child_finish m1 : crep m1 (addr u) k -> rep m1 (par_of k) (paint Black u) ->
  (forall z, one z x + occ z u + occk z k = 0 -> same_at m m1 z) ->
  let reb := if decide (u = Leaf) then match c with Black => par_of k | Red => 0 end else 0 in
  exists m' t', (if negb (reb =? 0) then erase_loop PATH_FUEL m1 (topk (addr u) k) 0 reb else Ret (m1, topk (addr u) k)) = Ret (m', addr t')
    /\ rep m' 0 t' /\ is_rb t' /\ elems t' = pre k ++ elems u ++ post k /\ forall z, occ z T + occk z k = 0 -> same_at m m' z.
Proof.
  intros Hc Hr Hs reb. destruct (rb_unplug _ _ Hrb) as (n & Rt & Hk & Hw).
  pose proof (erase_finish m1 k s c x u n Hlen Rt Hk ltac:(intros W; by apply Hw, is_black_mk in W) ltac:(uq) Hc Hr) as Hd.
  rewrite <- (elems_paint Black u), <- elems_plug. eapply erase_done_trans; [exact Hd| |].
  - intros z Hz. apply Hs. rewrite occ_mk in Hz. cbn in Hz. lia.
  - intros z Hz. rewrite occ_paint. rewrite occ_mk in Hz. cbn in Hz. pose proof (one_range z x). pose proof (occ_nonneg z u). pose proof (occk_nonneg z k). lia.
Qed.
End one_child.

Lemma erase_no_left m k c x u : (length k < PATH_FUEL)%nat -> is_rb (plug k (Node c Leaf x u)) -> rep m 0 (plug k (Node c Leaf x u)) ->
  (forall z, one z x + occ z u + occk z k <= 1) -> erased m k (Node c Leaf x u) (pre k ++ elems u ++ post k).
Proof.
  intros Hlen Hrb Hrep U. destruct (one_child_facts m k L c x u Hrep) as (G & P & Fs & Fu & Hu & Hc). pose proof (good_nz x G).
  pose proof (crep_par_ptr _ _ _ Hc) as Ppar. unfold erased, rb_erase, __rb_erase. cbn [addr]. rewrite !ld_ok by done. cbn [obind opp] in *. rewrite Fs, Fu. cbn [Z.eqb].
  rewrite ld_pc_ok by done. cbn [obind]. rewrite P, parent_pack by done. rewrite (change_child_ok m _ x (addr u) k) by (done || uq). cbn [obind].
  unfold __rb_is_black. rewrite color_pack by done. rewrite root_after_topk.
  pose proof (one_child_finish m k L c x u Hlen Hrb U (setroot (setk m k (addr u)) u (par_of k + colz Black))) as Hfin.
  pose proof (one_child_black k L c x u Hrb) as Hblack.
  assert (Hu1 : rep (setk m k (addr u)) x u) by frame_from m.
  specialize (Hfin ltac:(frame_from (setk m k (addr u)); by apply (crep_setk _ x); [|uq]) ltac:(by apply (rep_setroot _ x); [|uq]) ltac:(intros; same)).
  destruct u as [|cu ul ux ur]; cbn [addr setroot] in *.
  - rewrite Z.eqb_refl. cbn [negb obind]. cbn [decide tree_eq_dec] in Hfin. destruct c; exact Hfin.
  - pose proof (good_nz ux (proj1 Hu)). rewrite (Hblack ltac:(done)) in *. destruct (Z.eqb_spec ux 0); [done|]. cbn [negb]. rewrite st_pc_ok by done. cbn [obind].
    rewrite decide_False in Hfin by done. exact Hfin.
Qed.

Lemma erase_no_right m k c x u : (length k < PATH_FUEL)%nat -> u <> Leaf -> is_rb (plug k (Node c u x Leaf)) -> rep m 0 (plug k (Node c u x Leaf)) ->
  (forall z, one z x + occ z u + occk z k <= 1) -> erased m k (Node c u x Leaf) (pre k ++ elems u ++ post k).
Proof.
  intros Hlen Hne Hrb Hrep U. destruct (one_child_facts m k R c x u Hrep) as (G & P & Fs & Fu & Hu & Hc). pose proof (good_nz x G).
  pose proof (good_nz _ (nonleaf_addr _ _ _ Hu Hne)) as Hnz. pose proof (one_child_black k R c x u Hrb Hne) as ->.
  pose proof (crep_par_ptr _ _ _ Hc) as Ppar. unfold erased, rb_erase, __rb_erase. cbn [addr]. rewrite !ld_ok by done. cbn [obind opp] in *. rewrite Fs, Fu.
  destruct (Z.eqb_spec (addr u) 0); [done|]. cbn [Z.eqb]. rewrite ld_pc_ok by done. cbn [obind]. rewrite st_pc_ok by done. cbn [obind]. rewrite P, parent_pack by done.
  set (m1 := setpc m (addr u) _). assert (E1 : m1 = setroot m u (par_of k + colz Black)) by (by destruct u).
  rewrite (change_child_ok m1 _ x (addr u) k); [|rewrite E1; frame_from m|done|uq]. cbn [obind]. rewrite root_after_topk, E1.
  pose proof (one_child_finish m k R Black x u Hlen Hrb U (setk (setroot m u (par_of k + colz Black)) k (addr u))) as Hfin.
  rewrite decide_False in Hfin by done. apply Hfin.
  - apply (crep_setk _ x); [frame_from m|uq].
  - apply (rep_frame (setroot m u (par_of k + colz Black))); [by apply (rep_setroot _ x); [|uq]|]. intros z Hz. rewrite occ_paint in Hz. same.
  - intros z Hz. same.
Qed.

(** ** A node with two children *)

Section two_children.
Context (m : rbmem) (k : ctx) (c : color) (l : tree) (x : Z) (kr : ctx) (cs : color) (y : Z) (rs : tree) (w n : Z).
#[local] Abbreviation K' := (kr ++ F R c y l :: k).
Hypothesis U : forall z, occ z rs + one z y + occk z kr + one z x + occ z l + occk z k <= 1.
Hypothesis Gx : good x.
Hypothesis Gy : good y.
Hypothesis Nl : l <> Leaf.
Hypothesis Hl : rep m x l.
Hypothesis Fl : fld L m x = addr l.
Hypothesis Px : pc_of m x = par_of k + colz c.
Hypothesis Hk : crep m x k.
Hypothesis Fy : fld R m y = topk (addr rs) kr.
Hypothesis Pw : ptr w.
Hypothesis Py : pc_of m y = w + colz cs.
Hypothesis Hseg : seg m (addr rs) kr y.
Hypothesis Hrs : rep m n rs.

(** The successor [y] takes the place of [x]. *)
Lemma relink_ok : exists m',
  erase_relink m (topk x k) x y (top_of kr y) (addr rs)
    = Ret (m', topk (addr rs) K', if decide (rs = Leaf) then match cs with Black => par_of K' | Red => 0 end else 0)
  /\ crep m' (addr rs) K' /\ rep m' (par_of K') (paint Black rs)
  /\ forall z, occ z rs + one z y + occk z kr + one z x + occ z l + occk z k = 0 -> same_at m m' z.
Proof.
  pose proof (good_nz x Gx). pose proof (good_nz y Gy). pose proof (crep_par_ptr _ _ _ Hk) as Ppar.
  pose proof (good_nz _ (nonleaf_addr _ _ _ Hl Nl)) as Hlz. change (f_addr (F R c y l)) with y.
  unfold erase_relink. rewrite ld_ok by done. cbn [obind]. rewrite Fl, st_ok by done. cbn [obind]. set (m4 := setf L m y (addr l)).
  assert (Hl4 : rep m4 x l) by (unfold m4; frame_from m).
  pose proof (when_parent_ok m4 x l y Hl4 (good_ptr x Gx) (good_ptr y Gy)) as Ew. destruct (Z.eqb_spec (addr l) 0); [done|]. cbn [negb when] in Ew.
  rewrite Ew. cbn [obind]. set (m5 := setroot m4 l (y + colz (col l))). rewrite ld_pc_ok by done. cbn [obind].
  assert (pc_of m5 x = par_of k + colz c) as -> by (unfold m5, m4; rd; done). rewrite parent_pack by done.
  rewrite (change_child_ok m5 _ x y k); [|unfold m5, m4; frame_from m|done|uq]. cbn [obind]. rewrite root_after_topk. set (m6 := setk m5 k y).
  assert (Ptop : ptr (top_of kr y)) by (destruct kr as [|[? ? ? ?] ?]; [by right|]; right; apply Hseg).
  assert (Py6 : pc_of m6 y = w + colz cs) by (unfold m6, m5, m4; rd; done).
  set (m8 := setroot (setpc m6 y (par_of k + colz c)) rs (top_of kr y + colz Black)). exists m8.
  assert (Ept : par_of K' = top_of kr y) by (by rewrite <- top_par).
  split_and!.
  - rewrite topk_app. cbn [topk f_addr]. rewrite Ept. destruct rs as [|cr rl rx rr]; cbn [addr].
    + cbn [Z.eqb negb]. rewrite ld_pc_ok by done. cbn [obind]. rewrite st_pc_ok by done. cbn [obind]. rewrite Py6. unfold __rb_is_black. rewrite color_pack by done.
      by destruct cs.
    + pose proof (good_nz rx (proj1 Hrs)). destruct (Z.eqb_spec rx 0); [done|]. cbn [negb]. rewrite st_pc_ok by done. cbn [obind].
      unfold rb_set_parent_color. rewrite st_pc_ok by done. cbn [obind]. change RB_BLACK with (colz Black). by rewrite lor_col.
  - apply crep_app. cbn [par_of f_addr crep opp]. split.
    + apply (seg_frame m); [done|]. intros z Hz. unfold m8, m6, m5, m4. same.
    + split_and!; try done; try (unfold m8, m6, m5, m4; rd; done).
      * unfold m8, m6. frame_from m5. rewrite <- (paint_col l) at 1. by apply (rep_setroot m4 x); [|uq].
      * unfold m8, m6. frame_from (setk m5 k y). apply (crep_setk _ x); [unfold m5, m4; frame_from m|uq].
  - rewrite Ept. unfold m8. apply (rep_setroot _ n); [|uq]. unfold m6, m5, m4. frame_from m.
  - intros z Hz. unfold m8, m6, m5, m4. same.
Qed.
End two_children.

Lemma all_left_pre k : all_on L k -> pre k = [].
Proof. induction 1 as [|[s c x u] k Hs Hk IH]; [done|]. cbn in Hs. subst s. done. Qed.

(** The shape of a context does not depend on its addresses. *)
Lemma cok_rename k1 s c x y u k2 : forall n, cok n (k1 ++ F s c x u :: k2) -> cok n (k1 ++ F s c y u :: k2).
Proof.
  induction k1 as [|[s1 [] x1 u1] k1 IH]; intros n; cbn [app cok]; [done| |].
  - intros (H1 & H2 & H3 & H4). split_and!; [done|done|by apply IH|]. by destruct k1.
  - intros [H1 H2]. split; [done|by apply IH].
Qed.
Lemma wants_rename k1 s c x y u k2 : wants_black (k1 ++ F s c x u :: k2) <-> wants_black (k1 ++ F s c y u :: k2).
Proof. by destruct k1. Qed.

(** Removal of [x], whose right child's leftmost node is [y]. *)
Lemma two_children_finish m m1 k c l x kr cs y rs w pz : (length k + length kr < 150)%nat ->
  is_rb (plug (kr ++ F R c x l :: k) (Node cs Leaf y rs)) -> all_on L kr ->
  (forall z, occ z rs + one z y + occk z kr + one z x + occ z l + occk z k <= 1) ->
  good x -> good y -> l <> Leaf -> rep m1 x l -> fld L m1 x = addr l -> pc_of m1 x = par_of k + colz c -> crep m1 x k ->
  fld R m1 y = topk (addr rs) kr -> ptr w -> pc_of m1 y = w + colz cs -> seg m1 (addr rs) kr y -> rep m1 pz rs ->
  (forall z, occ z rs + one z y + occk z kr + one z x + occ z l + occk z k = 0 -> same_at m m1 z) ->
  exists m' t',
    (let! (m, root, reb) := erase_relink m1 (topk x k) x y (top_of kr y) (addr rs) in
     if negb (reb =? 0) then erase_loop PATH_FUEL m root 0 reb else Ret (m, root)) = Ret (m', addr t')
    /\ rep m' 0 t' /\ is_rb t' /\ elems t' = pre k ++ elems l ++ elems (plug kr (Node cs Leaf y rs)) ++ post k
    /\ forall z, occ z rs + one z y + occk z kr + one z x + occ z l + occk z k = 0 -> same_at m m' z.
Proof.
  intros Hlen Hrb Hall U Gx Gy Nl Hl Fl Px Hk Fy Pw Py Hseg Hrs Hs.
  destruct (relink_ok m1 k c l x kr cs y rs w pz) as (m2 & -> & Hc2 & Hr2 & S2); try done. cbn [obind].
  destruct (rb_unplug _ _ Hrb) as (n & Rn & Hck & Hw). apply (cok_rename _ _ _ _ y) in Hck. rewrite (wants_rename _ _ _ _ y) in Hw.
  assert (U' : forall z, occ z rs + occk z (kr ++ F R c y l :: k) <= 1) by (clear - U; uq).
  pose proof (erase_finish m2 (kr ++ F R c y l :: k) L cs y rs n) as Hd. specialize (Hd ltac:(rewrite length_app; cbn; unfold PATH_FUEL; lia) Rn Hck).
  specialize (Hd ltac:(intros W; apply Hw in W; by destruct cs) U' Hc2 Hr2).
  destruct (erase_done_trans _ m m2 _ _ (fun z => occ z rs + one z y + occk z kr + one z x + occ z l + occk z k = 0) Hd) as (m' & t' & E & R1 & R2 & R3 & R4).
  - intros z Hz. eapply same_trans; [by apply Hs|]. by apply S2.
  - intros z Hz. rewrite occ_paint, occk_app. cbn. occ_pose. lia.
  - exists m', t'. split_and!; [done|done|done| |done]. rewrite R3, plug_app. cbn [plug mk]. rewrite elems_plug. cbn [elems].
    rewrite !elems_plug, elems_paint, (all_left_pre kr) by done. cbn. repeat (rewrite <- ?app_assoc; cbn). done.
Qed.

Lemma erase_two m k c l x r : is_rb (plug k (Node c l x r)) -> rep m 0 (plug k (Node c l x r)) -> (forall z, occ z (plug k (Node c l x r)) <= 1) ->
  l <> Leaf -> r <> Leaf -> erased m k (Node c l x r) (pre k ++ elems l ++ elems r ++ post k).
Proof.
  intros Hrb Hrep U Nl Nr. pose proof Hrep as (Hk & Gx & Px & Fl & Fr & Hl & Hr)%rep_plug. cbn [addr] in Hk.
  pose proof (good_nz x Gx). pose proof (good_nz _ (nonleaf_addr _ _ _ Hl Nl)). destruct r as [|cr a xr ur]; [done|]. clear Nr.
  pose proof Hr as (Gr & Pr & Fa & Fu & Ha & Hu). pose proof (good_nz xr Gr). cbn [addr] in Fr.
  unfold erased, rb_erase, __rb_erase. cbn [addr]. rewrite !ld_ok by done. cbn [obind]. rewrite Fl, Fr. destruct (Z.eqb_spec (addr l) 0); [done|].
  destruct (Z.eqb_spec xr 0); [done|]. rewrite ld_ok by done. cbn [obind]. rewrite Fa. destruct (decide (a = Leaf)) as [->|Na].
  - cbn [addr Z.eqb]. rewrite ld_ok by done. cbn [obind]. rewrite Fu.
    destruct (two_children_finish m m k c l x [] cr xr ur x xr) as (m' & t' & E & R1 & R2 & R3 & R4); try done.
    + pose proof (path_short m (F R c x l :: k) (Node cr Leaf xr ur) Hrep Hrb U) as Hp. cbn in Hp. cbn. lia.
    + constructor.
    + intros z. specialize (U z). rewrite occ_plug in U. cbn in *. lia.
    + by right.
    + cbn [top_of] in E. exists m', t'. split_and!; try done. intros z Hz. apply R4. cbn in *. lia.
  - pose proof (good_nz _ (nonleaf_addr _ _ _ Ha Na)). destruct (Z.eqb_spec (addr a) 0); [done|].
    destruct (succ_ok m a xr Na Ha) as (kr & cs & y & rs & -> & Hall & Hsucc).
    pose proof (path_short m (kr ++ F L cr xr ur :: F R c x l :: k) (Node cs Leaf y rs)) as Hp. rewrite plug_app in Hp. specialize (Hp Hrep Hrb U).
    rewrite length_app in Hp. cbn [length] in Hp. rewrite Hsucc by (unfold PATH_FUEL; lia). cbn [obind].
    apply rep_plug_seg in Ha as [Hseg (Gy & Py & Fy & Fyr & _ & Hrs)]. pose proof (good_nz y Gy). cbn [addr] in *.
    assert (U' : forall z, occ z rs + one z y + occk z kr + one z xr + occ z ur + one z x + occ z l + occk z k <= 1).
    { intros z. specialize (U z). rewrite occ_plug in U. cbn [occ] in U. rewrite occ_plug in U. cbn in U. lia. }
    clear U. rename U' into U.
    assert (Gp : good (top_of kr xr)) by (destruct kr as [|[? ? ? ?] ?]; [done|]; apply Hseg).
    set (K1 := kr ++ [F L cr xr ur]). assert (Es : setf L m (top_of kr xr) (addr rs) = setk m K1 (addr rs)).
    { destruct Hall as [|[s1 c1 x1 u1] kr' Hs1 _]; [done|]. cbn in Hs1. by subst s1. }
    rewrite ld_ok by done. cbn [obind]. rewrite Fyr. rewrite st_ok by (by apply good_nz). cbn [obind]. rewrite Es, st_ok by done. cbn [obind].
    unfold rb_set_parent. rewrite ld_pc_ok by done. cbn [obind]. rewrite pc_setf, pc_setk, Pr. rewrite color_pack by (by apply good_ptr).
    rewrite st_pc_ok by done. cbn [obind]. rewrite lor_color_ptr by (by apply good_ptr).
    set (m1 := setk m K1 (addr rs)). set (m3 := setpc (setf R m1 y xr) xr (y + colz cr)).
    assert (Hseg1 : seg m y K1 x) by (rewrite addr_plug in Fa; apply seg_app; split; [done|]; split_and!; done).
    assert (Hseg3 : seg m3 (addr rs) K1 y).
    { apply (seg_reparent _ _ _ _ _ _ _ x); [|uq]. apply (seg_frame m1); [apply (seg_setk m y); [done|unfold K1; uq]|].
      intros z Hz. unfold K1 in Hz. same. }
    destruct (two_children_finish m m3 k c l x K1 cs y rs (top_of kr xr) y) as (m' & t' & E & R1 & R2 & R3 & R4); try done.
    + unfold K1. rewrite length_app. cbn. lia.
    + unfold K1. by rewrite plug_app, plug_app.
    + apply Forall_app. split; [done|]. by constructor.
    + unfold K1. uq.
    + unfold m3, m1, K1. frame_from m.
    + unfold m3, m1, K1. rd. done.
    + unfold m3, m1, K1. rd. done.
    + unfold m3, m1, K1. frame_from m.
    + unfold m3, m1, K1. rd. by rewrite topk_app.
    + by right.
    + unfold m3, m1, K1. rd. done.
    + unfold m3, m1, K1. frame_from m.
    + intros z Hz. unfold K1 in Hz. rewrite occk_app in Hz. cbn in Hz. unfold m3, m1, K1. same.
    + unfold K1 in E, R3. rewrite top_of_app in E. cbn [top_of f_addr] in E. exists m', t'. split_and!; [done|done|done| |].
      * rewrite R3, plug_app. done.
      * intros z Hz. apply R4. unfold K1. rewrite occk_app. cbn in *. rewrite occ_plug in Hz. cbn in Hz. lia.
Qed.

(** ** Any node *)

Lemma rb_erase_ok m k c l x r : is_rb (plug k (Node c l x r)) -> rep m 0 (plug k (Node c l x r)) -> (forall z, occ z (plug k (Node c l x r)) <= 1) ->
  erased m k (Node c l x r) (pre k ++ elems l ++ elems r ++ post k).
Proof.
  intros Hrb Hrep U. pose proof (path_short m k _ Hrep Hrb U) as Hp.
  assert (Hlen : (length k < PATH_FUEL)%nat) by (unfold PATH_FUEL; lia).
  destruct (decide (l = Leaf)) as [->|Nl]; [|destruct (decide (r = Leaf)) as [->|Nr]].
  - apply erase_no_left; try done. intros z. specialize (U z). rewrite occ_plug in U. cbn in U. lia.
  - apply erase_no_right; try done. intros z. specialize (U z). rewrite occ_plug in U. cbn in U. lia.
  - by apply erase_two.
Qed.
