(* ===== verification/RbSet.v ===== *)
(** * Walking a red-black tree: first, last, next, previous *)

From S2P Require Import Prelude Bitops Rbtree RbtreeSpec RbErase.
From stdpp Require Import base list numbers option sorting.
#[local] Open Scope Z_scope.
#[local] Open Scope kernel_scope.

(** The innermost frame whose hole is not on side [s]. *)
Fixpoint turn (s : side) (k : ctx) : Z :=
  match k with
  | [] => 0
  | f :: k' => match s, f_side f with L, R | R, L => f_addr f | _, _ => turn s k' end
  end.

Definition hd0 (l : list Z) : Z := default 0 (head l).
Definition last0 (l : list Z) : Z := default 0 (list.last l).

Lemma turn_post k : turn R k = hd0 (post k).
Proof. induction k as [|[[] c x u] k IH]; done. Qed.
Lemma turn_pre k : turn L k = last0 (pre k).
Proof. induction k as [|[[] c x u] k IH]; cbn; [done|done|]. unfold last0. by rewrite app_assoc, last_snoc. Qed.
Lemma all_right_post k : all_on R k -> post k = [].
Proof. induction 1 as [|[s c x u] k Hs Hk IH]; [done|]. cbn in Hs. subst s. done. Qed.

Lemma climb_ok s m k : forall fuel a c, (length k < fuel)%nat -> good a -> pc_of m a = par_of k + colz c -> crep m a k -> occk a k = 0 ->
  (forall z, occk z k <= 1) -> climb fuel s m a = Ret (turn s k).
Proof.
  induction k as [|[s1 c1 x u] k IH]; intros [|fuel] a c Hf Ga Pa Hc Ho U; [cbn in Hf; lia| |cbn in Hf; lia|]; cbn [climb length] in *.
  - unfold rb_parent. rewrite ld_pc_ok by (by apply good_nz). cbn [obind]. rewrite Pa. rewrite parent_pack by (by left). done.
  - destruct Hc as (Gx & Px & Fa & Fu & Hu & Hk). pose proof (good_nz x Gx). pose proof (good_nz a Ga). unfold rb_parent. rewrite ld_pc_ok by done. cbn [obind]. rewrite Pa.
    rewrite parent_pack by (by right). cbn [par_of f_addr]. destruct (Z.eqb_spec x 0); [done|]. cbn [negb]. rewrite ld_ok by done. cbn [obind].
    assert (Hua : addr u <> a).
    { intros E. pose proof (addr_occ u ltac:(by rewrite E)) as Hp. rewrite E in Hp. cbn in Ho. occ_pose. lia. }
    assert (Hrec : climb fuel s m x = Ret (turn s k)) by (apply (IH _ _ c1); [lia|done|done|done|uq|uq]).
    destruct s, s1; cbn [opp turn f_side f_addr] in *; rewrite ?Fa, ?Fu, ?Z.eqb_refl; try exact Hrec.
    all: destruct (Z.eqb_spec a (addr u)); [congruence|done].
Qed.

(** The neighbour of a node on side [s]. *)
Definition neighbour (s : side) (l1 l2 : list Z) : Z := match s with R => hd0 l2 | L => last0 l1 end.

Lemma rep_split m k c l x r : rep m 0 (plug k (Node c l x r)) <->
  good x /\ pc_of m x = par_of k + colz c /\ fld L m x = addr l /\ fld R m x = addr r /\ rep m x l /\ rep m x r /\ crep m x k.
Proof. rewrite rep_plug. cbn. tauto. Qed.

Lemma nonempty_node m x k c : good x -> pc_of m x = par_of k + colz c -> ptr (par_of k) -> occk x k = 0 -> RB_EMPTY_NODE m x = Ret false.
Proof.
  intros G P Hp Ho. unfold RB_EMPTY_NODE. rewrite ld_pc_ok by (by apply good_nz). cbn [obind]. rewrite P. f_equal. apply Z.eqb_neq. intros E.
  assert (Hne : par_of k <> x). { intros E1. pose proof (par_occ k ltac:(rewrite E1; by apply good_nz)) as Hpp. rewrite E1 in Hpp. lia. }
  destruct G as [_ [a Ha]]. apply ptr_bounds in Hp as [_ [b Hb]]. pose proof (colz_range c). lia.
Qed.

Lemma rb_step_ok s m k c l x r : is_rb (plug k (Node c l x r)) -> rep m 0 (plug k (Node c l x r)) -> (forall z, occ z (plug k (Node c l x r)) <= 1) ->
  rb_step s m x = Ret (neighbour s (pre k ++ elems l) (elems r ++ post k)).
Proof.
  intros Hrb Hrep U. pose proof Hrep as (G & P & Fl & Fr & Hl & Hr & Hk)%rep_split. pose proof (crep_par_ptr _ _ _ Hk) as Ppar. pose proof (good_nz x G).
  assert (U' : forall z, occ z l + one z x + occ z r + occk z k <= 1) by (intros z; specialize (U z); rewrite occ_plug in U; exact U).
  unfold rb_step. rewrite (nonempty_node m x k c) by (done || uq). cbn [obind]. rewrite ld_ok by done. cbn [obind].
  set (t := match s with L => l | R => r end). assert (fld s m x = addr t) as -> by (by destruct s). assert (Ht : rep m x t) by (by destruct s).
  destruct (decide (t = Leaf)) as [Et|Nt].
  - rewrite Et. cbn [addr Z.eqb negb]. rewrite (climb_ok s m k PATH_FUEL x c); [|pose proof (path_short _ _ _ Hrep Hrb U); unfold PATH_FUEL; lia|done|done|done|uq|uq].
    f_equal. destruct s; subst t; rewrite Et; cbn [neighbour elems app]; rewrite ?app_nil_r; [apply turn_pre|apply turn_post].
  - pose proof (good_nz _ (nonleaf_addr _ _ _ Ht Nt)). destruct (Z.eqb_spec (addr t) 0); [done|]. cbn [negb].
    destruct (far_ok (opp s) m t x Nt Ht) as (k1 & c1 & y & u & Et & Hall & Hfar). rewrite Hfar.
    + f_equal. destruct s; subst t; cbn [neighbour opp] in *; rewrite Et, elems_plug.
      * rewrite (all_right_post k1) by done. cbn [mk elems]. rewrite app_nil_r, !app_assoc. unfold last0. by rewrite last_snoc.
      * rewrite (all_left_pre k1) by done. done.
    + assert (Hp : (length (k1 ++ F s c x (match s with L => r | R => l end) :: k) < 150)%nat).
      { apply (path_short m _ (mk (opp s) c1 Leaf y u)); rewrite plug_app; cbn [plug]; rewrite <- Et; subst t; by destruct s. }
      rewrite length_app in Hp. cbn in Hp. unfold PATH_FUEL. lia.
Qed.

Lemma rb_end_ok s m t : is_rb t -> rep m 0 t -> (forall z, occ z t <= 1) ->
  rb_end s m (addr t) = Ret (match s with L => hd0 (elems t) | R => last0 (elems t) end).
Proof.
  intros Hrb Hrep U. unfold rb_end. destruct (decide (t = Leaf)) as [->|Nt]; [by destruct s|].
  pose proof (good_nz _ (nonleaf_addr _ _ _ Hrep Nt)). destruct (Z.eqb_spec (addr t) 0); [done|].
  destruct (far_ok s m t 0 Nt Hrep) as (k1 & c1 & y & u & -> & Hall & ->).
  - f_equal. rewrite elems_plug. destruct s.
    + by rewrite (all_left_pre k1).
    + rewrite (all_right_post k1) by done. cbn [mk elems]. rewrite app_nil_r, app_assoc. unfold last0. by rewrite last_snoc.
  - pose proof (path_short m k1 _ Hrep Hrb U). unfold PATH_FUEL. lia.
Qed.

(** ** Replacing a node *)

Lemma replace_ok m k c l x r y : rep m 0 (plug k (Node c l x r)) -> (forall z, occ z (plug k (Node c l x r)) <= 1) -> good y -> y <> x ->
  occ y (plug k (Node c l x r)) = 0 ->
  exists m', rb_replace_node m (topk x k) x y = Ret (m', topk y k) /\ rep m' 0 (plug k (Node c l y r))
    /\ forall z, occ z (plug k (Node c l x r)) = 0 -> z <> y -> same_at m m' z.
Proof.
  intros Hrep U Gy Hyx Hy. pose proof Hrep as (G & P & Fl & Fr & Hl & Hr & Hk)%rep_split. pose proof (crep_par_ptr _ _ _ Hk) as Ppar.
  pose proof (good_nz x G). pose proof (good_nz y Gy).
  assert (U' : forall z, occ z l + one z x + one z y + occ z r + occk z k <= 1).
  { intros z. specialize (U z). rewrite occ_plug in U. cbn in U. unfold one at 2. destruct (Z.eqb_spec z y) as [->|]; [|lia].
    rewrite occ_plug in Hy. cbn in Hy. rewrite (one_ne y x) in * by done. occ_pose. lia. }
  clear U. rename U' into U. unfold rb_replace_node, rb_parent. rewrite !ld_pc_ok, !ld_ok by done. cbn [obind]. rewrite P, parent_pack by done.
  rewrite st_pc_ok by done. cbn [obind]. do 2 (rewrite st_ok by done; cbn [obind]). rewrite Fl, Fr.
  set (m1 := setf L (setf R (setpc m y (par_of k + colz c)) y (addr r)) y (addr l)).
  assert (Hl1 : rep m1 x l) by (unfold m1; frame_from m). rewrite (when_parent_ok m1 x l y) by (done || by right). cbn [obind].
  set (m2 := setroot m1 l (y + colz (col l))). assert (Hr2 : rep m2 x r) by (unfold m2, m1; frame_from m).
  rewrite (when_parent_ok m2 x r y) by (done || by right). cbn [obind]. set (m3 := setroot m2 r (y + colz (col r))).
  rewrite (change_child_ok m3 _ x y k); [|unfold m3, m2, m1; frame_from m|done|uq]. rewrite root_after_topk. eexists. split; [reflexivity|]. split.
  - apply rep_split. split_and!; try done; try (unfold m3, m2, m1; rd; done).
    + unfold m3. frame_from m2. rewrite <- (paint_col l) at 1. by apply (rep_setroot m1 x); [|uq].
    + frame_from m3. rewrite <- (paint_col r) at 1. by apply (rep_setroot m2 x); [|uq].
    + apply (crep_setk _ x); [unfold m3, m2, m1; frame_from m|uq].
  - intros z Hz Hzy. rewrite occ_plug in Hz. cbn in Hz. pose proof (one_ne z y Hzy). unfold m3, m2, m1. same.
Qed.

(** * What a red-black tree promises: an ordered list of nodes

    [rbtree m root l] says that the tree at [root] has the nodes [l] in order.
    The users of rbtree.h know the operations by their effect on [l]; a user's
    search for the place of a new node is [rb_descend] with the user's
    comparison. *)


Definition rbtree (m : rbmem) (root : Z) (l : list Z) : Prop :=
  exists t, root = addr t /\ rep m 0 t /\ is_rb t /\ NoDup (elems t) /\ elems t = l.

Lemma rbtree_empty m : rbtree m 0 [].
Proof. exists Leaf. split_and!; try done; [split; [done|by exists O]|constructor]. Qed.

(** The cells of the nodes in [l] may change, no other. *)
Definition only (l : list Z) (m m' : rbmem) : Prop := forall z, z ∉ l -> same_at m m' z.

Lemma not_occ z t : z ∉ elems t -> occ z t = 0.
Proof. rewrite <- occ_elem. pose proof (occ_nonneg z t). lia. Qed.

Lemma rbtree_frame m m' root l : rbtree m root l -> (forall z, z ∈ l -> same_at m m' z) -> rbtree m' root l.
Proof.
  intros (t & -> & Hr & Hrb & Hd & <-) Hs. exists t. split_and!; try done. apply (rep_frame m); [done|]. intros z Hz. apply Hs. by apply occ_elem.
Qed.
Lemma rbtree_good m root l x : rbtree m root l -> x ∈ l -> good x.
Proof. intros (t & -> & Hr & Hrb & Hd & <-) Hx. apply (rep_good m t 0 x Hr). by apply occ_elem. Qed.
Lemma rbtree_nodup m root l : rbtree m root l -> NoDup l.
Proof. by intros (t & -> & Hr & Hrb & Hd & <-). Qed.

(** ** Where a node is *)

Lemma tree_at t x : x ∈ elems t -> exists k c l r, t = plug k (Node c l x r).
Proof.
  induction t as [|c l IHl y r IHr]; cbn; [by intros ?%not_elem_of_nil|]. rewrite elem_of_app, elem_of_cons. intros [H|[->|H]].
  - destruct (IHl H) as (k & c' & l' & r' & ->). exists (k ++ [F L c y r]), c', l', r'. by rewrite plug_app.
  - by exists [], c, l, r.
  - destruct (IHr H) as (k & c' & l' & r' & ->). exists (k ++ [F R c y l]), c', l', r'. by rewrite plug_app.
Qed.

Lemma nodup_split_unique {A} (a b c d : list A) x : NoDup (a ++ x :: b) -> a ++ x :: b = c ++ x :: d -> a = c /\ b = d.
Proof.
  revert c. induction a as [|y a IH]; intros [|z c] Hd E; simplify_eq/=; [done| | |].
  - apply list.NoDup_cons in Hd as [Hx _]. destruct Hx. apply elem_of_app. right. left.
  - apply list.NoDup_cons in Hd as [Hx _]. destruct Hx. apply elem_of_app. right. left.
  - apply list.NoDup_cons in Hd as [_ Hd]. destruct (IH c Hd) as [-> ->]; done.
Qed.

Lemma rbtree_at m root l1 x l2 : rbtree m root (l1 ++ x :: l2) ->
  exists k c l r, root = topk x k /\ is_rb (plug k (Node c l x r)) /\ rep m 0 (plug k (Node c l x r)) /\ (forall z, occ z (plug k (Node c l x r)) <= 1)
    /\ l1 = pre k ++ elems l /\ l2 = elems r ++ post k.
Proof.
  intros (t & -> & Hr & Hrb & Hd & E). destruct (tree_at t x) as (k & c & l & r & ->). { rewrite E. apply elem_of_app. right. left. }
  rewrite elems_plug in E. cbn [elems] in E. replace (pre k ++ (elems l ++ x :: elems r) ++ post k) with ((pre k ++ elems l) ++ x :: (elems r ++ post k)) in E
    by (repeat (rewrite <- ?app_assoc; cbn); done).
  assert (Hd' : NoDup ((pre k ++ elems l) ++ x :: (elems r ++ post k))).
  { rewrite elems_plug in Hd. cbn [elems] in Hd. replace ((pre k ++ elems l) ++ x :: (elems r ++ post k)) with (pre k ++ (elems l ++ x :: elems r) ++ post k)
      by (repeat (rewrite <- ?app_assoc; cbn); done). done. }
  destruct (nodup_split_unique _ _ _ _ _ Hd' E) as [<- <-]. exists k, c, l, r. rewrite addr_plug. split_and!; try done. by apply occ_NoDup.
Qed.

(** ** The operations *)

Lemma rb_first_list m root l : rbtree m root l -> rb_first m root = Ret (hd0 l).
Proof. intros (t & -> & Hr & Hrb & Hd & <-). apply (rb_end_ok L); [done|done|by apply occ_NoDup]. Qed.
Lemma rb_last_list m root l : rbtree m root l -> rb_last m root = Ret (last0 l).
Proof. intros (t & -> & Hr & Hrb & Hd & <-). apply (rb_end_ok R); [done|done|by apply occ_NoDup]. Qed.
Lemma rb_next_list m root l1 x l2 : rbtree m root (l1 ++ x :: l2) -> rb_next m x = Ret (hd0 l2).
Proof. intros (k & c & l & r & -> & Hrb & Hr & U & -> & ->)%rbtree_at. by apply (rb_step_ok R m k c l x r). Qed.
Lemma rb_prev_list m root l1 x l2 : rbtree m root (l1 ++ x :: l2) -> rb_prev m x = Ret (last0 l1).
Proof. intros (k & c & l & r & -> & Hrb & Hr & U & -> & ->)%rbtree_at. by apply (rb_step_ok L m k c l x r). Qed.
Lemma rb_not_empty m root l x : rbtree m root l -> x ∈ l -> RB_EMPTY_NODE m x = Ret false.
Proof.
  intros Ht (l1 & l2 & ->)%list_elem_of_split. apply rbtree_at in Ht as (k & c & l & r & -> & Hrb & Hr & U & -> & ->).
  pose proof Hr as (G & P & _ & _ & _ & _ & Hk)%rep_split. apply (nonempty_node m x k c); [done|done|by apply (crep_par_ptr m x)|].
  specialize (U x). rewrite occ_plug in U. cbn in U. rewrite one_refl in U. occ_pose. lia.
Qed.

Lemma rb_erase_list m root l1 x l2 : rbtree m root (l1 ++ x :: l2) ->
  exists m' root', rb_erase m root x = Ret (m', root') /\ rbtree m' root' (l1 ++ l2) /\ only (l1 ++ x :: l2) m m'.
Proof.
  intros Ht. pose proof (rbtree_nodup _ _ _ Ht) as Hd. apply rbtree_at in Ht as (k & c & l & r & -> & Hrb & Hr & U & -> & ->).
  destruct (rb_erase_ok m k c l x r Hrb Hr U) as (m' & t' & E & R1 & R2 & R3 & R4). exists m', (addr t'). split_and!; [done| |].
  - assert (E' : elems t' = (pre k ++ elems l) ++ elems r ++ post k) by (rewrite R3; by rewrite <- ?app_assoc).
    exists t'. split_and!; try done. rewrite E'. apply list.NoDup_app in Hd as (H1 & H2 & H3). apply list.NoDup_cons in H3 as [H3 H4]. apply list.NoDup_app. split_and!; try done.
    intros z Hz Hz2. apply (H2 z Hz). by right.
  - intros z Hz. apply R4. rewrite <- occ_plug. apply not_occ. intros Hz'. apply Hz. rewrite elems_plug in Hz'. cbn in Hz'.
    repeat (rewrite <- ?app_assoc in *; cbn in *). done.
Qed.

Lemma rb_replace_list m root l1 x l2 y : rbtree m root (l1 ++ x :: l2) -> good y -> y ∉ l1 ++ x :: l2 ->
  exists m' root', rb_replace_node m root x y = Ret (m', root') /\ rbtree m' root' (l1 ++ y :: l2) /\ only (y :: l1 ++ x :: l2) m m'.
Proof.
  intros Ht Gy Hy. pose proof (rbtree_nodup _ _ _ Ht) as Hd. apply rbtree_at in Ht as (k & c & l & r & -> & Hrb & Hr & U & -> & ->).
  assert (Ee : forall z, elems (plug k (Node c l z r)) = (pre k ++ elems l) ++ z :: (elems r ++ post k)).
  { intros z. rewrite elems_plug. cbn. repeat (rewrite <- ?app_assoc; cbn). done. }
  destruct (replace_ok m k c l x r y Hr U Gy) as (m' & E & R1 & R2).
  { intros ->. apply Hy, elem_of_app. right. left. } { apply not_occ. by rewrite Ee. }
  exists m', (topk y k). split_and!; [done| |].
  - exists (plug k (Node c l y r)). rewrite addr_plug. split_and!; try done.
    + destruct (rb_unplug _ _ Hrb) as (n & H1 & H2 & H3). by apply (rb_plug k n).
    + rewrite Ee. apply list.NoDup_app in Hd as (H1 & H2 & H3). apply list.NoDup_cons in H3 as [H3 H4]. apply list.NoDup_app. split_and!; [done| |].
      * intros z Hz [->|Hz2]%elem_of_cons; [apply Hy, elem_of_app; by left|]. apply (H2 z Hz). by right.
      * apply list.NoDup_cons. split; [|done]. intros Hy2. apply Hy, elem_of_app. right. by right.
  - intros z [Hz1 Hz2]%not_elem_of_cons. apply R2; [|done]. apply not_occ. by rewrite Ee.
Qed.

(** ** Insertion *)

Definition link_of (k : ctx) : rb_link := match k with [] => AtRoot | f :: _ => AtField (f_addr f) (f_side f) end.

Lemma link_ok m k x : crep m 0 k -> good x -> occk x k = 0 -> (forall z, occk z k <= 1) ->
  exists m', rb_link_node m (topk 0 k) x (par_of k) (link_of k) = Ret (m', topk x k)
    /\ crep m' x k /\ rep m' (par_of k) (Node Red Leaf x Leaf) /\ forall z, one z x + occk z k = 0 -> same_at m m' z.
Proof.
  intros Hk G Ho U0. pose proof (good_nz x G).
  assert (U : forall z, one z x + occk z k <= 1).
  { intros z. specialize (U0 z). unfold one. destruct (Z.eqb_spec z x) as [->|]; lia. }
  clear U0 Ho. unfold rb_link_node. rewrite st_pc_ok by done. cbn [obind]. do 2 (rewrite st_ok by done; cbn [obind]).
  set (m1 := setf L (setf R (setpc m x (par_of k)) x 0) x 0). exists (setk m1 k x). split_and!.
  - destruct k as [|[s c p u] k]; [done|]. cbn [link_of f_addr f_side store_link topk setk]. rewrite st_ok by (by apply good_nz, Hk). done.
  - apply (crep_setk _ 0); [unfold m1; frame_from m|uq].
  - cbn [rep addr]. change (left_of (setk m1 k x) x) with (fld L (setk m1 k x) x). change (right_of (setk m1 k x) x) with (fld R (setk m1 k x) x).
    unfold m1. replace (par_of k + colz Red) with (par_of k) by (unfold colz, RB_RED; lia). split_and!; try done; rd; try done.
  - intros z Hz. unfold m1. same.
Qed.

Lemma insert_ok m k x : is_rb (plug k Leaf) -> rep m 0 (plug k Leaf) -> (forall z, occ z (plug k Leaf) <= 1) -> good x -> occk x k = 0 ->
  exists m' t', (let! (m1, root) := rb_link_node m (topk 0 k) x (par_of k) (link_of k) in rb_insert_color m1 root x) = Ret (m', addr t')
    /\ rep m' 0 t' /\ is_rb t' /\ elems t' = pre k ++ x :: post k /\ forall z, one z x + occk z k = 0 -> same_at m m' z.
Proof.
  intros Hrb Hrep U G Ho. pose proof (path_short _ _ _ Hrep Hrb U) as Hp. apply rep_plug in Hrep as [Hk _].
  assert (U0 : forall z, occk z k <= 1) by (intros z; specialize (U z); rewrite occ_plug in U; exact U).
  destruct (link_ok m k x Hk G Ho U0) as (m1 & -> & Hk1 & Hx1 & S1). cbn [obind]. unfold rb_insert_color, __rb_insert, rb_red_parent.
  rewrite ld_pc_ok by (by apply good_nz). cbn [obind]. replace (pc_of m1 x) with (par_of k) by (destruct Hx1 as (_ & -> & _); unfold colz, RB_RED; lia).
  destruct (rb_unplug _ _ Hrb) as (n & Hn & Hck & _). cbn in Hn. subst n.
  destruct (insert_loop_spec PATH_FUEL k m1 O (Node Red Leaf x Leaf)) as (m' & t' & E & R1 & R2 & R3 & R4); try done.
  - unfold PATH_FUEL. lia.
  - by exists Leaf, x, Leaf.
  - intros z. specialize (U0 z). cbn. unfold one. destruct (Z.eqb_spec z x) as [->|]; lia.
  - exists m', t'. split_and!; [done|done|done| |].
    + rewrite R3, elems_plug. done.
    + intros z Hz. eapply same_trans; [by apply S1|]. apply R4. cbn. lia.
Qed.

Definition is_nil {A} (l : list A) : bool := match l with [] => true | _ => false end.
Lemma is_nil_snoc {A} (l : list A) u x : is_nil (l ++ u ++ [x]) = false.
Proof. by destruct l, u. Qed.

Lemma descend_ok m go (d : Z -> side) t : forall fuel k, rep m 0 (plug k t) -> (forall k' t', plug k' t' = plug k t -> (length k' < length k + fuel)%nat) ->
  (forall x, x ∈ elems t -> go x = Ret (d x)) ->
  Forall (fun f => d (f_addr f) = f_side f) k ->
  exists k', plug k' Leaf = plug k t /\ Forall (fun f => d (f_addr f) = f_side f) k'
    /\ rb_descend fuel go m (addr t) (par_of k) (link_of k) (is_nil (pre k)) = Ret (par_of k', link_of k', is_nil (pre k')).
Proof.
  induction t as [|c l IHl x r IHr]; intros [|fuel] k Hrep Hf Hgo Hk.
  - specialize (Hf k Leaf eq_refl). lia.
  - exists k. done.
  - specialize (Hf k _ eq_refl). lia.
  - pose proof Hrep as (G & P & Fl & Fr & _)%rep_split. pose proof (good_nz x G). cbn [rb_descend addr]. destruct (Z.eqb_spec x 0); [done|].
    assert (Hx : go x = Ret (d x)) by (apply Hgo; cbn; rewrite elem_of_app; right; left). rewrite Hx. cbn [obind]. rewrite ld_ok by done. cbn [obind].
    destruct (d x) eqn:Ed; rewrite ?Fl, ?Fr.
    + apply (IHl fuel (F L c x r :: k)); [done| | |by constructor].
      * intros k' t' E. specialize (Hf k' t' E). cbn. lia.
      * intros y Hy. apply Hgo. cbn. apply elem_of_app. by left.
    + rewrite <- (is_nil_snoc (pre k) (elems l) x). apply (IHr fuel (F R c x l :: k)); [done| | |by constructor].
      * intros k' t' E. specialize (Hf k' t' E). cbn. lia.
      * intros y Hy. apply Hgo. cbn. apply elem_of_app. right. by right.
Qed.

(** The innermost frames on the two sides decide where the hole is. *)
Lemma path_turns d k : Forall (fun f => d (f_addr f) = f_side f) k ->
  (forall x, list.last (pre k) = Some x -> d x = R) /\ (forall x, head (post k) = Some x -> d x = L).
Proof.
  induction 1 as [|[s c x u] k Hs _ [IH1 IH2]]; [done|]. cbn in Hs. destruct s; cbn; split; try done.
  - by intros ? [= <-].
  - intros y. rewrite app_assoc, last_snoc. by intros [= <-].
Qed.

Lemma turn_split_unique (d : Z -> side) a b l1 l2 : a ++ b = l1 ++ l2 -> (forall x, x ∈ l1 -> d x = R) -> (forall x, x ∈ l2 -> d x = L) ->
  (forall x, list.last a = Some x -> d x = R) -> (forall x, head b = Some x -> d x = L) -> a = l1 /\ b = l2.
Proof.
  intros E H1 H2 Ha Hb. apply app_eq_inv in E as [(k & -> & ->)|(k & -> & ->)].
  - destruct k as [|y k _] using rev_ind; [by rewrite app_nil_r|]. exfalso. specialize (Ha y). rewrite app_assoc, last_snoc in Ha.
    specialize (H2 y ltac:(rewrite !elem_of_app; left; right; left)). rewrite Ha in H2; done.
  - destruct k as [|y k]; [by rewrite app_nil_r|]. exfalso. specialize (Hb y eq_refl). specialize (H1 y ltac:(rewrite elem_of_app; right; left)). congruence.
Qed.

(** A user whose comparison sends the nodes [l1] to the left of the new one and
    [l2] to its right finds the place between them. *)
Lemma place_ok m root l1 l2 go : rbtree m root (l1 ++ l2) -> (forall y, y ∈ l1 -> go y = Ret R) -> (forall y, y ∈ l2 -> go y = Ret L) ->
  exists k, is_rb (plug k Leaf) /\ rep m 0 (plug k Leaf) /\ (forall z, occ z (plug k Leaf) <= 1) /\ root = topk 0 k /\ pre k = l1 /\ post k = l2
    /\ rb_descend PATH_FUEL go m root 0 AtRoot true = Ret (par_of k, link_of k, is_nil l1).
Proof.
  intros (t & -> & Hr & Hrb & Hd & Ht) H1 H2. pose proof (proj1 (occ_NoDup t) Hd) as U. set (d := fun y => if decide (y ∈ l1) then R else L).
  assert (D2 : forall y, y ∈ l2 -> d y = L).
  { intros y Hy. unfold d. rewrite decide_False; [done|]. intros Hy1. rewrite Ht in Hd. apply list.NoDup_app in Hd as (_ & Hd & _). by apply (Hd y). }
  destruct (descend_ok m go d t PATH_FUEL []) as (k & Ek & Hk & Hdesc).
  - done.
  - intros k' t' E. cbn. pose proof (path_short m k' t') as Hp. rewrite E in Hp. specialize (Hp Hr Hrb U). unfold PATH_FUEL. lia.
  - intros y Hy. rewrite Ht, elem_of_app in Hy. unfold d. case_decide; [by apply H1|]. apply H2. tauto.
  - constructor.
  - cbn [plug par_of link_of pre is_nil] in *. destruct (path_turns d k Hk) as [T1 T2].
    assert (El : pre k ++ post k = l1 ++ l2) by (rewrite <- Ht, <- Ek, elems_plug; done).
    destruct (turn_split_unique d _ _ _ _ El) as [<- <-]; [|done|done|done|]. { intros y Hy. unfold d. by rewrite decide_True. }
    exists k. rewrite <- Ek in *. split_and!; try done. by rewrite addr_plug.
Qed.

Lemma rb_link_list m root l1 l2 x k : is_rb (plug k Leaf) -> rep m 0 (plug k Leaf) -> (forall z, occ z (plug k Leaf) <= 1) -> root = topk 0 k ->
  pre k = l1 -> post k = l2 -> good x -> x ∉ l1 ++ l2 ->
  exists m' root', (let! (m, root) := rb_link_node m root x (par_of k) (link_of k) in rb_insert_color m root x) = Ret (m', root')
    /\ rbtree m' root' (l1 ++ x :: l2) /\ only (x :: l1 ++ l2) m m'.
Proof.
  intros Hrb Hr U -> <- <- G Hx. pose proof (proj2 (occ_NoDup _) U) as Hd.
  assert (Hn : forall z, z ∉ pre k ++ post k -> occk z k = 0).
  { intros z Hz. pose proof (not_occ z (plug k Leaf)) as Hn. rewrite occ_plug in Hn. apply Hn. by rewrite elems_plug. }
  destruct (insert_ok m k x Hrb Hr U G (Hn x Hx)) as (m' & t' & E & R1 & R2 & R3 & R4). exists m', (addr t'). split_and!; [done| |].
  - exists t'. split_and!; try done. rewrite R3. rewrite elems_plug in Hd. cbn in Hd. apply list.NoDup_app in Hd as (N1 & N2 & N3). rewrite elem_of_app in Hx.
    apply list.NoDup_app. split_and!; [done| |apply list.NoDup_cons; tauto]. intros z Hz [->|Hz2]%elem_of_cons; [tauto|]. by apply (N2 z).
  - intros z [Hz1 Hz2]%not_elem_of_cons. apply R4. rewrite (one_ne z x Hz1). rewrite (Hn z Hz2). done.
Qed.

Lemma rb_add_list m root l1 l2 go x : rbtree m root (l1 ++ l2) ->
  (forall y, y ∈ l1 -> go y = Ret R) -> (forall y, y ∈ l2 -> go y = Ret L) -> good x -> x ∉ l1 ++ l2 ->
  exists m' root', rb_add go m root x = Ret (m', root') /\ rbtree m' root' (l1 ++ x :: l2) /\ only (x :: l1 ++ l2) m m'.
Proof.
  intros Ht H1 H2 G Hx. destruct (place_ok m root l1 l2 go Ht H1 H2) as (k & Hrb & Hr & U & Er & E1 & E2 & E). unfold rb_add. rewrite E. cbn [obind].
  by apply rb_link_list.
Qed.

(** ** Trees that remember their first node *)

Lemma rb_add_cached_list m root l1 l2 go x : rbtree m root (l1 ++ l2) ->
  (forall y, y ∈ l1 -> go y = Ret R) -> (forall y, y ∈ l2 -> go y = Ret L) -> good x -> x ∉ l1 ++ l2 ->
  exists m' root', rb_add_cached go m root (hd0 (l1 ++ l2)) x = Ret (m', root', hd0 (l1 ++ x :: l2))
    /\ rbtree m' root' (l1 ++ x :: l2) /\ only (x :: l1 ++ l2) m m'.
Proof.
  intros Ht H1 H2 G Hx. destruct (place_ok m root l1 l2 go Ht H1 H2) as (k & Hrb & Hr & U & Er & E1 & E2 & E).
  destruct (rb_link_list m root l1 l2 x k) as (m' & root' & El & R1 & R2); try done. exists m', root'. split_and!; [|done|done].
  unfold rb_add_cached, rb_insert_color_cached. rewrite E. cbn [obind]. destruct (rb_link_node m root x (par_of k) (link_of k)) as [[m1 r1]| |]; try done.
  cbn [obind] in *. rewrite El. cbn [obind]. by destruct l1.
Qed.
Lemma rb_erase_cached_list m root l1 x l2 : rbtree m root (l1 ++ x :: l2) ->
  exists m' root', rb_erase_cached m root (hd0 (l1 ++ x :: l2)) x = Ret (m', root', hd0 (l1 ++ l2))
    /\ rbtree m' root' (l1 ++ l2) /\ only (l1 ++ x :: l2) m m'.
Proof.
  intros Ht. destruct (rb_erase_list _ _ _ _ _ Ht) as (m' & root' & E & R1 & R2). exists m', root'. split_and!; [|done|done].
  unfold rb_erase_cached. destruct l1 as [|y l1]; cbn [app] in *; change (hd0 (?a :: _)) with a.
  - rewrite Z.eqb_refl, (rb_next_list m root [] x l2) by done. cbn [obind]. by rewrite E.
  - assert (Hne : x <> y). { intros ->. apply rbtree_nodup, list.NoDup_cons in Ht as [Ht _]. apply Ht, elem_of_app. right. left. }
    destruct (Z.eqb_spec x y); [done|]. cbn [obind]. by rewrite E.
Qed.
Lemma rb_replace_cached_list m root l1 x l2 y : rbtree m root (l1 ++ x :: l2) -> good y -> y ∉ l1 ++ x :: l2 ->
  exists m' root', rb_replace_node_cached m root (hd0 (l1 ++ x :: l2)) x y = Ret (m', root', hd0 (l1 ++ y :: l2))
    /\ rbtree m' root' (l1 ++ y :: l2) /\ only (y :: l1 ++ x :: l2) m m'.
Proof.
  intros Ht G Hy. destruct (rb_replace_list _ _ _ _ _ _ Ht G Hy) as (m' & root' & E & R1 & R2). exists m', root'. split_and!; [|done|done].
  unfold rb_replace_node_cached. rewrite E. cbn [obind]. destruct l1 as [|w l1]; cbn [app] in *; change (hd0 (?a :: _)) with a; [by rewrite Z.eqb_refl|].
  assert (Hne : w <> x). { intros ->. apply rbtree_nodup, list.NoDup_cons in Ht as [Ht _]. apply Ht, elem_of_app. right. left. }
  by destruct (Z.eqb_spec w x).
Qed.

(** ** Sorted lists of the users *)

Lemma sorted_same {A} (P Q : A -> A -> Prop) l : StronglySorted P l -> (forall x y, x ∈ l -> y ∈ l -> P x y -> Q x y) -> StronglySorted Q l.
Proof.
  induction 1 as [|x l Hs IH Hx]; intros H; constructor.
  - apply IH. intros y z Hy Hz. apply H; by right.
  - rewrite list.Forall_forall in *. intros y Hy. apply H; [left|by right|by apply Hx].
Qed.
Lemma sorted_put {A} (P : A -> A -> Prop) l1 x l2 : StronglySorted P (l1 ++ l2) -> (forall y, y ∈ l1 -> P y x) -> (forall y, y ∈ l2 -> P x y) ->
  StronglySorted P (l1 ++ x :: l2).
Proof.
  induction l1 as [|y l1 IH]; cbn; intros Hs H1 H2; [constructor; [done|by apply list.Forall_forall]|]. inversion Hs as [|? ? Hs' Hy]; subst. constructor.
  - apply IH; [done|intros z Hz; apply H1; by right|done].
  - rewrite list.Forall_forall in *. intros z. rewrite elem_of_app, elem_of_cons. intros [Hz|[->|Hz]]; [apply Hy, elem_of_app; by left|apply H1; left|].
    apply Hy, elem_of_app. by right.
Qed.
Lemma sorted_remove {A} (P : A -> A -> Prop) l1 x l2 : StronglySorted P (l1 ++ x :: l2) -> StronglySorted P (l1 ++ l2).
Proof.
  induction l1 as [|y l1 IH]; cbn; intros Hs; inversion Hs as [|? ? Hs' Hy]; subst; [done|]. constructor; [by apply IH|]. rewrite list.Forall_forall in *.
  intros z Hz. apply Hy. rewrite elem_of_app, elem_of_cons in *. tauto.
Qed.

(** * Red-black trees: postorder and the cost of a search *)

(** ** Children before their parent *)

Fixpoint postorder (t : tree) : list Z := match t with Leaf => [] | Node _ l x r => postorder l ++ postorder r ++ [x] end.
(** What comes before and after the hole's tree. *)
Fixpoint kbefore (k : ctx) : list Z :=
  match k with [] => [] | F L _ _ _ :: k' => kbefore k' | F R _ _ u :: k' => kbefore k' ++ postorder u end.
Fixpoint kafter (k : ctx) : list Z :=
  match k with [] => [] | F L _ x u :: k' => postorder u ++ x :: kafter k' | F R _ x _ :: k' => x :: kafter k' end.

Lemma postorder_plug k : forall t, postorder (plug k t) = kbefore k ++ postorder t ++ kafter k.
Proof.
  induction k as [|[[] c x u] k IH]; intros t; cbn [plug mk kbefore kafter]; [by rewrite app_nil_r| |]; rewrite IH; cbn [postorder];
    repeat (rewrite <- ?app_assoc; cbn); done.
Qed.
Lemma postorder_perm t : postorder t ≡ₚ elems t.
Proof.
  induction t as [|c l IHl x r IHr]; cbn; [done|]. rewrite IHl, IHr. apply Permutation_app_head. by rewrite Permutation_app_comm.
Qed.

Lemma deepest_ok m t : forall par fuel, t <> Leaf -> rep m par t -> (forall k' t', plug k' t' = t -> (length k' < S fuel)%nat) ->
  rb_left_deepest_node fuel m (addr t) = Ret (hd0 (postorder t)).
Proof.
  induction t as [|c l IHl x r IHr]; intros par fuel Hn Hr Hf; [done|]. destruct Hr as (G & P & Fl & Fr & Hl & Hr). pose proof (good_nz x G).
  destruct fuel as [|fuel]; [specialize (Hf [F L c x r] l eq_refl); cbn in Hf; lia|]. cbn [rb_left_deepest_node addr]. rewrite ld_ok by done. cbn [obind]. rewrite Fl.
  assert (Hsub : forall s a b, mk s c a x b = Node c l x r -> forall k' t', plug k' t' = a -> (length k' < S fuel)%nat).
  { intros s a b E k' t' <-. specialize (Hf (k' ++ [F s c x b]) t'). rewrite plug_app in Hf. specialize (Hf E). rewrite length_app in Hf. cbn in Hf. lia. }
  destruct (decide (l = Leaf)) as [->|Nl].
  - cbn [addr Z.eqb negb]. rewrite ld_ok by done. cbn [obind]. rewrite Fr. destruct (decide (r = Leaf)) as [->|Nr]; [done|].
    pose proof (good_nz _ (nonleaf_addr _ _ _ Hr Nr)). destruct (Z.eqb_spec (addr r) 0); [done|]. cbn [negb].
    rewrite (IHr x fuel Nr Hr) by (by apply (Hsub R r Leaf)). cbn. destruct r as [|cr rl rx rr]; [done|]. cbn. destruct (postorder rl), (postorder rr); done.
  - pose proof (good_nz _ (nonleaf_addr _ _ _ Hl Nl)). destruct (Z.eqb_spec (addr l) 0); [done|]. cbn [negb].
    rewrite (IHl x fuel Nl Hl) by (by apply (Hsub L l r)). cbn. destruct l as [|cl ll lx lr]; [done|]. cbn. destruct (postorder ll), (postorder lr); done.
Qed.

Lemma next_postorder_ok m k c l x r : is_rb (plug k (Node c l x r)) -> rep m 0 (plug k (Node c l x r)) -> (forall z, occ z (plug k (Node c l x r)) <= 1) ->
  rb_next_postorder m x = Ret (hd0 (kafter k)).
Proof.
  intros Hrb Hrep U. pose proof Hrep as (G & P & _ & _ & _ & _ & Hk)%rep_split. pose proof (crep_par_ptr _ _ _ Hk) as Ppar. pose proof (good_nz x G).
  assert (U' : forall z, occ z l + one z x + occ z r + occk z k <= 1) by (intros z; specialize (U z); rewrite occ_plug in U; exact U).
  unfold rb_next_postorder. destruct (Z.eqb_spec x 0); [done|]. unfold rb_parent. rewrite ld_pc_ok by done. cbn [obind]. rewrite P, parent_pack by done.
  destruct k as [|[s cp p u] k]; [done|]. destruct Hk as (Gp & Pp & Fa & Fu & Hu & Hk). pose proof (good_nz p Gp). cbn [par_of f_addr].
  destruct (Z.eqb_spec p 0); [done|]. cbn [negb]. rewrite !ld_ok by done. cbn [obind]. destruct s; cbn [opp] in *; rewrite Fa, Fu.
  - rewrite Z.eqb_refl. cbn [andb kafter]. destruct (decide (u = Leaf)) as [->|Nu]; [done|]. pose proof (good_nz _ (nonleaf_addr _ _ _ Hu Nu)).
    destruct (Z.eqb_spec (addr u) 0); [done|]. cbn [negb]. rewrite (deepest_ok m u p); [|done|done|].
    + f_equal. destruct u as [|cu ul ux ur]; [done|]. cbn. destruct (postorder ul), (postorder ur); done.
    + intros k' t' <-. pose proof (path_short m (k' ++ F R cp p (Node c l x r) :: k) t') as Hp. rewrite plug_app in Hp. specialize (Hp Hrep Hrb U).
      rewrite length_app in Hp. cbn in Hp. unfold PATH_FUEL. lia.
  - destruct (Z.eqb_spec x (addr u)) as [E|]; [|done]. exfalso. pose proof (addr_occ u ltac:(by rewrite <- E)) as Hp. rewrite <- E in Hp.
    specialize (U' x). cbn in U'. rewrite one_refl in U'. occ_pose. lia.
Qed.

(** The successive nodes of an iteration: from [x] as [step] goes until NULL. *)
Fixpoint visits (fuel : nat) (step : Z -> outcome Z) (x : Z) : outcome (list Z) :=
  match fuel with
  | O => Stuck
  | S fuel' => if x =? 0 then Ret [] else let! y := step x in let! l := visits fuel' step y in Ret (x :: l)
  end.

Lemma visits_list step l : forall fuel, (length l < fuel)%nat -> (forall x, x ∈ l -> x <> 0) ->
  (forall l1 x l2, l = l1 ++ x :: l2 -> step x = Ret (hd0 l2)) -> visits fuel step (hd0 l) = Ret l.
Proof.
  induction l as [|x l IH]; intros [|fuel] Hf Hnz Hs; [cbn in Hf; lia|done|cbn in Hf; lia|]. cbn [visits].
  change (hd0 (x :: l)) with x. destruct (Z.eqb_spec x 0) as [->|]; [by destruct (Hnz 0 ltac:(left))|]. rewrite (Hs [] x l eq_refl). cbn [obind].
  rewrite IH; [done|cbn in Hf; lia| |].
  - intros y Hy. apply Hnz. by right.
  - intros l1 y l2 ->. by apply (Hs (x :: l1) y l2).
Qed.

Lemma rbtree_nonzero m root l x : rbtree m root l -> x ∈ l -> x <> 0.
Proof. intros Ht Hx. by eapply good_nz, rbtree_good. Qed.

Lemma visit_next m root l fuel : rbtree m root l -> (length l < fuel)%nat -> visits fuel (rb_next m) (hd0 l) = Ret l.
Proof.
  intros Ht Hf. apply visits_list; [done|intros x; by apply (rbtree_nonzero m root)|]. intros l1 x l2 ->. by apply (rb_next_list m root l1).
Qed.
Lemma visit_prev m root l fuel : rbtree m root l -> (length l < fuel)%nat -> visits fuel (rb_prev m) (last0 l) = Ret (rev l).
Proof.
  intros Ht Hf. assert (El : forall k, last0 k = hd0 (rev k)).
  { intros k. destruct k as [|y k _] using rev_ind; [done|]. unfold last0. by rewrite last_snoc, rev_unit. }
  rewrite El. apply visits_list; [by rewrite length_rev| |].
  - intros x Hx. apply (rbtree_nonzero m root l); [done|]. apply list_elem_of_In in Hx. apply list_elem_of_In. by apply in_rev.
  - intros l1 x l2 E. apply (f_equal (@rev Z)) in E. rewrite rev_involutive, rev_app_distr in E. cbn in E. rewrite <- app_assoc in E. cbn in E. subst l.
    rewrite (rb_prev_list m root (rev l2) x (rev l1) Ht), El, rev_involutive. done.
Qed.

Lemma visit_postorder m root l fuel : rbtree m root l -> (length l < fuel)%nat ->
  exists x p, rb_first_postorder m root = Ret x /\ visits fuel (rb_next_postorder m) x = Ret p /\ p ≡ₚ l
    /\ forall c y, y ∈ l -> c ∈ l -> (left_of m y = c \/ right_of m y = c) -> exists p1 p2 p3, p = p1 ++ c :: p2 ++ y :: p3.
Proof.
  intros (t & -> & Hr & Hrb & Hd & <-) Hf. pose proof (proj1 (occ_NoDup t) Hd) as U. exists (hd0 (postorder t)), (postorder t). split_and!.
  - unfold rb_first_postorder. destruct (decide (t = Leaf)) as [->|Nt]; [done|]. pose proof (good_nz _ (nonleaf_addr _ _ _ Hr Nt)).
    destruct (Z.eqb_spec (addr t) 0); [done|]. apply (deepest_ok m t 0); [done|done|]. intros k' t' E. pose proof (path_short m k' t') as Hp. rewrite E in Hp.
    specialize (Hp Hr Hrb U). unfold PATH_FUEL. lia.
  - assert (HN : NoDup (postorder t)) by (by rewrite postorder_perm). apply visits_list; [by rewrite postorder_perm| |].
    + intros x Hx. rewrite postorder_perm in Hx. apply good_nz, (rep_good m t 0); [done|]. by apply occ_elem.
    + intros l1 x l2 E. destruct (tree_at t x) as (k & c & l & r & ->). { rewrite <- postorder_perm, E. apply elem_of_app. right. left. }
      rewrite (next_postorder_ok m k c l x r) by done. do 2 f_equal. rewrite postorder_plug in E, HN. cbn [postorder] in E, HN.
      replace (kbefore k ++ (postorder l ++ postorder r ++ [x]) ++ kafter k) with ((kbefore k ++ postorder l ++ postorder r) ++ x :: kafter k) in E, HN
        by (repeat (rewrite <- ?app_assoc; cbn); done).
      by destruct (nodup_split_unique _ _ _ _ _ HN E).
  - apply postorder_perm.
  - intros c y Hy Hc Hch. destruct (tree_at t y Hy) as (k & cy & l & r & ->). pose proof Hr as (_ & _ & Fl & Fr & _)%rep_split.
    assert (Hz : c <> 0) by (by apply (rbtree_nonzero m (topk y k) (elems (plug k (Node cy l y r)))); [exists (plug k (Node cy l y r)); rewrite addr_plug; split_and!|]).
    rewrite postorder_plug. cbn [postorder]. change (left_of m y) with (fld L m y) in Hch. change (right_of m y) with (fld R m y) in Hch. rewrite Fl, Fr in Hch.
    destruct Hch as [E|E]; [destruct l as [|cc lc xc rc]|destruct r as [|cc lc xc rc]]; cbn in E; subst; try done; cbn [postorder].
    + exists (kbefore k ++ postorder lc ++ postorder rc), (postorder r), (kafter k). repeat (rewrite <- ?app_assoc; cbn). done.
    + exists (kbefore k ++ postorder l ++ postorder lc ++ postorder rc), [], (kafter k). repeat (rewrite <- ?app_assoc; cbn). done.
Qed.

(** ** The cost of a search *)

(** In a tree of [n] nodes no place is more than [2 log2 (n + 1)] steps from
    the root. *)
Lemma depth_log k t : is_rb (plug k t) -> Z.of_nat (length k) <= 2 * Z.log2 (Z.of_nat (length (elems (plug k t))) + 1).
Proof.
  intros Hrb. destruct (rb_unplug k t Hrb) as (n & Ht & Hk & Hw). destruct (ctx_length k n Hk) as [Hl _].
  pose proof (rbt_size _ _ (rbt_plug k n t Ht Hk Hw)) as Hs.
  assert (Z.of_nat (n + blacks k) <= Z.log2 (Z.of_nat (length (elems (plug k t))) + 1)) by (apply Z.log2_le_pow2; lia). lia.
Qed.

Lemma search_steps m root l go (d : Z -> side) : rbtree m root l -> (forall x, x ∈ l -> go x = Ret (d x)) ->
  exists p, rb_descend (Z.to_nat (2 * Z.log2 (Z.of_nat (length l) + 1) + 1)) go m root 0 AtRoot true = Ret p.
Proof.
  intros (t & -> & Hr & Hrb & Hd & <-) Hgo. set (fuel := Z.to_nat _). destruct (descend_ok m go d t fuel []) as (k & _ & _ & E); [done| |done|constructor|by eexists].
  intros k' t' E. cbn [plug] in E. pose proof (depth_log k' t') as Hl. rewrite E in Hl. specialize (Hl Hrb). subst fuel. cbn [length].
  pose proof (Z.log2_nonneg (Z.of_nat (length (elems t)) + 1)). lia.
Qed.
