(* ===== verification/RbProps.v ===== *)
(** * Red-black trees: what the operations of lib/rbtree.c promise *)

From S2P Require Import Prelude Bitops Rbtree RbtreeSpec RbErase RbSet.
From stdpp Require Import base list numbers option.
#[local] Open Scope Z_scope.
#[local] Open Scope kernel_scope.

(** ** A tree built by insertions, for the witnesses *)

Definition rb_blank : rbmem := mk_rbmem (fun _ => 0) (fun _ => 0) (fun _ => 0).
Definition by_addr (x : Z) : Z -> outcome side := fun y => Ret (if x <? y then L else R).
Definition rb_add_all (xs : list Z) : outcome (rbmem * Z) :=
  foldl (fun o x => let! (m, root) := o in rb_add (by_addr x) m root x) (Ret (rb_blank, 0)) xs.

Definition rb_demo_keys : list Z := [64; 32; 96; 16; 48; 80; 112; 8; 24; 40; 56].
Definition rb_demo : rbmem * Z := match rb_add_all rb_demo_keys with Ret p => p | _ => (rb_blank, 0) end.
(** The tree these insertions make. *)
Definition rb_demo_tree : tree :=
  Node Black (Node Red (Node Black (Node Red Leaf 8 Leaf) 16 (Node Red Leaf 24 Leaf)) 32 (Node Black (Node Red Leaf 40 Leaf) 48 (Node Red Leaf 56 Leaf)))
    64 (Node Black (Node Red Leaf 80 Leaf) 96 (Node Red Leaf 112 Leaf)).

(** ** Deciding whether memory holds a tree *)

#[export] Instance good_dec x : Decision (good x).
Proof.
  refine (cast_if (decide (((0 <? x) && (x <? 2 ^ 64) && (x mod 4 =? 0)) = true))).
  - rewrite !andb_true_iff, !Z.ltb_lt, Z.eqb_eq in *. split; [lia|]. apply Z.mod_divide; lia.
  - intros [Hx Hd]. apply Z.mod_divide in Hd; [|lia]. rewrite !andb_true_iff, !Z.ltb_lt, Z.eqb_eq in *. lia.
Defined.
#[export] Instance rep_dec m t : forall par, Decision (rep m par t).
Proof. induction t as [|c l IHl x r IHr]; intros par; cbn; apply _. Defined.
#[export] Instance rbt_dec t : forall n, Decision (rbt n t).
Proof.
  induction t as [|[] l IHl x r IHr]; intros n; cbn; [apply _..|]. destruct n as [|n]; [right; by intros (? & ? & _)|].
  refine (cast_if (decide (rbt n l /\ rbt n r))); [by exists n|]. intros (n1 & E & H1 & H2). injection E as <-. tauto.
Defined.
Lemma rbtree_by m root t n l : root = addr t -> bool_decide (rep m 0 t) = true -> bool_decide (is_black t /\ rbt n t) = true ->
  bool_decide (NoDup (elems t)) = true -> elems t = l -> rbtree m root l.
Proof. rewrite !bool_decide_eq_true. intros ? ? [? ?] ? ?. exists t. split_and!; try done. split; [done|by exists n]. Qed.

Lemma rb_demo_ok : rbtree rb_demo.1 rb_demo.2 [8; 16; 24; 32; 40; 48; 56; 64; 80; 96; 112].
Proof. apply (rbtree_by _ _ rb_demo_tree 2); vm_compute; reflexivity. Qed.

(** ** The properties *)

(** C14. A user of the tree looks for the place of a new node with
    its comparison, links the node there with rb_link_node() and calls
    rb_insert_color().  If the comparison sends it to the right of the nodes
    [l1] and to the left of the nodes [l2], the tree then has the nodes
    [l1 ++ x :: l2] in order: it is a red-black tree again (the root black, no
    red node with a red child, all paths with the same number of black nodes),
    its parent pointers and colours are right, and no node outside of it was
    written.  Neither loop runs out of steps and no NULL pointer is followed. *)
Theorem rb_insert_correct m root l1 l2 go x : rbtree m root (l1 ++ l2) ->
  (forall y, y ∈ l1 -> go y = Ret R) -> (forall y, y ∈ l2 -> go y = Ret L) -> good x -> x ∉ l1 ++ l2 ->
  exists m' root', rb_add go m root x = Ret (m', root') /\ rbtree m' root' (l1 ++ x :: l2)
    /\ forall z, z ∉ x :: l1 ++ l2 -> same_at m m' z.
Proof. apply rb_add_list. Qed.

Lemma rb_insert_correct_witness : exists m' root', rb_add (by_addr 44) rb_demo.1 rb_demo.2 44 = Ret (m', root')
  /\ rbtree m' root' ([8; 16; 24; 32; 40] ++ 44 :: [48; 56; 64; 80; 96; 112])
  /\ forall z, z ∉ 44 :: [8; 16; 24; 32; 40] ++ [48; 56; 64; 80; 96; 112] -> same_at rb_demo.1 m' z.
Proof.
  apply (rb_insert_correct rb_demo.1 rb_demo.2 [8; 16; 24; 32; 40] [48; 56; 64; 80; 96; 112] (by_addr 44) 44).
  - exact rb_demo_ok.
  - apply list.Forall_forall. repeat constructor.
  - apply list.Forall_forall. repeat constructor.
  - by apply (bool_decide_unpack _).
  - by apply (bool_decide_unpack _).
Defined.

(** C15. rb_erase() takes exactly its node out of the tree,
    whichever of the cases of the removal and of the rebalancing apply: what is
    left is a red-black tree of the other nodes in the same order. *)
Theorem rb_erase_correct m root l1 x l2 : rbtree m root (l1 ++ x :: l2) ->
  exists m' root', rb_erase m root x = Ret (m', root') /\ rbtree m' root' (l1 ++ l2)
    /\ forall z, z ∉ l1 ++ x :: l2 -> same_at m m' z.
Proof. apply rb_erase_list. Qed.

Lemma rb_erase_correct_witness : exists m' root', rb_erase rb_demo.1 rb_demo.2 64 = Ret (m', root')
  /\ rbtree m' root' ([8; 16; 24; 32; 40; 48; 56] ++ [80; 96; 112])
  /\ forall z, z ∉ [8; 16; 24; 32; 40; 48; 56] ++ 64 :: [80; 96; 112] -> same_at rb_demo.1 m' z.
Proof. apply (rb_erase_correct rb_demo.1 rb_demo.2 [8; 16; 24; 32; 40; 48; 56] 64 [80; 96; 112]). exact rb_demo_ok. Defined.

(** C30. The iterators of a tree with the nodes [l] in order:
    starting at rb_first() and going on with rb_next() visits exactly [l];
    starting at rb_last() and going on with rb_prev() visits it backwards;
    rb_first_postorder() and rb_next_postorder() visit every node once, its
    children before it. *)
Theorem rb_walk_correct m root l fuel : rbtree m root l -> (length l < fuel)%nat ->
  (exists x, rb_first m root = Ret x /\ visits fuel (rb_next m) x = Ret l)
  /\ (exists x, rb_last m root = Ret x /\ visits fuel (rb_prev m) x = Ret (rev l))
  /\ (exists x p, rb_first_postorder m root = Ret x /\ visits fuel (rb_next_postorder m) x = Ret p /\ p ≡ₚ l
        /\ forall c y, y ∈ l -> c ∈ l -> (left_of m y = c \/ right_of m y = c) -> exists p1 p2 p3, p = p1 ++ c :: p2 ++ y :: p3).
Proof.
  intros Ht Hf. split_and!.
  - exists (hd0 l). split; [by apply rb_first_list|by apply visit_next with (root := root)].
  - exists (last0 l). split; [by apply rb_last_list|by apply visit_prev with (root := root)].
  - by apply visit_postorder.
Qed.

Lemma rb_walk_correct_witness : let l := [8; 16; 24; 32; 40; 48; 56; 64; 80; 96; 112] in let m := rb_demo.1 in
  (exists x, rb_first m rb_demo.2 = Ret x /\ visits 20 (rb_next m) x = Ret l)
  /\ (exists x, rb_last m rb_demo.2 = Ret x /\ visits 20 (rb_prev m) x = Ret (rev l))
  /\ (exists x p, rb_first_postorder m rb_demo.2 = Ret x /\ visits 20 (rb_next_postorder m) x = Ret p /\ p ≡ₚ l
        /\ forall c y, y ∈ l -> c ∈ l -> (left_of m y = c \/ right_of m y = c) -> exists p1 p2 p3, p = p1 ++ c :: p2 ++ y :: p3).
Proof. intros l m. apply (rb_walk_correct m rb_demo.2 l 20); [exact rb_demo_ok|cbn; lia]. Defined.

(** C29. In a tree of [n] nodes a search from the root follows at most
    [2 log2 (n + 1)] pointers before it reaches NULL, whatever the comparison
    answers. *)
Theorem rb_search_bound m root l go (d : Z -> side) : rbtree m root l -> (forall x, x ∈ l -> go x = Ret (d x)) ->
  exists p, rb_descend (Z.to_nat (2 * Z.log2 (Z.of_nat (length l) + 1) + 1)) go m root 0 AtRoot true = Ret p.
Proof. apply search_steps. Qed.

Lemma rb_search_bound_witness : exists p,
  rb_descend (Z.to_nat (2 * Z.log2 (Z.of_nat (length [8; 16; 24; 32; 40; 48; 56; 64; 80; 96; 112]) + 1) + 1)) (by_addr 44) rb_demo.1 rb_demo.2 0 AtRoot true = Ret p.
Proof.
  apply (rb_search_bound rb_demo.1 rb_demo.2 [8; 16; 24; 32; 40; 48; 56; 64; 80; 96; 112] (by_addr 44) (fun y => if 44 <? y then L else R)).
  - exact rb_demo_ok.
  - intros x _. reflexivity.
Defined.

(** A cached tree's [rb_leftmost] is the first node of the
    tree, NULL when it is empty, and insertion with rb_insert_color_cached(),
    removal with rb_erase_cached() and replacement keep it so, whether or not
    they concern the first node. *)
Theorem rb_cached_correct m root l1 l2 go x y : good y -> y ∉ l1 ++ l2 ->
  (rbtree m root (l1 ++ l2) -> (forall z, z ∈ l1 -> go z = Ret R) -> (forall z, z ∈ l2 -> go z = Ret L) ->
     exists m' root', rb_add_cached go m root (hd0 (l1 ++ l2)) y = Ret (m', root', hd0 (l1 ++ y :: l2)) /\ rbtree m' root' (l1 ++ y :: l2))
  /\ (rbtree m root (l1 ++ x :: l2) ->
     exists m' root', rb_erase_cached m root (hd0 (l1 ++ x :: l2)) x = Ret (m', root', hd0 (l1 ++ l2)) /\ rbtree m' root' (l1 ++ l2))
  /\ (rbtree m root (l1 ++ x :: l2) -> y <> x ->
     exists m' root', rb_replace_node_cached m root (hd0 (l1 ++ x :: l2)) x y = Ret (m', root', hd0 (l1 ++ y :: l2)) /\ rbtree m' root' (l1 ++ y :: l2)).
Proof.
  intros G Hy. split_and!.
  - intros Ht H1 H2. destruct (rb_add_cached_list m root l1 l2 go y Ht H1 H2 G Hy) as (m' & r' & E & R1 & _). eauto.
  - intros Ht. destruct (rb_erase_cached_list _ _ _ _ _ Ht) as (m' & r' & E & R1 & _). eauto.
  - intros Ht Hne. destruct (rb_replace_cached_list _ _ _ _ _ y Ht G) as (m' & r' & E & R1 & _); [|eauto].
    rewrite elem_of_app, elem_of_cons in *. tauto.
Qed.

Lemma rb_cached_correct_witness :
  (exists m' root', rb_erase_cached rb_demo.1 rb_demo.2 8 8 = Ret (m', root', 16) /\ rbtree m' root' [16; 24; 32; 40; 48; 56; 64; 80; 96; 112])
  /\ (exists m' root', rb_replace_node_cached rb_demo.1 rb_demo.2 8 8 12 = Ret (m', root', 12) /\ rbtree m' root' [12; 16; 24; 32; 40; 48; 56; 64; 80; 96; 112]).
Proof.
  destruct (rb_cached_correct rb_demo.1 rb_demo.2 [] [16; 24; 32; 40; 48; 56; 64; 80; 96; 112] (by_addr 4) 8 12) as (_ & H2 & H3).
  - by apply (bool_decide_unpack _).
  - by apply (bool_decide_unpack _).
  - split; [apply H2; exact rb_demo_ok|apply H3; [exact rb_demo_ok|done]].
Defined.
