(* ===== verification/Timerqueue.v ===== *)
(** * Timer queues

    Model of src/lib/timerqueue.c and src/include/linux/timerqueue.h: a
    red-black tree of timers ordered by expiry and a pointer to the earliest.
    The [rb_node] is the first field of a timer, so rb_entry() keeps the
    address; [ex] is the field [expires], signed nanoseconds, which the queue
    only reads.  The warnings about nodes already or not yet queued read the
    node and have no other effect. *)

From S2P Require Import Prelude Bitops Rbtree RbtreeSpec RbSet RbProps.
From stdpp Require Import base list numbers option sorting.
#[local] Open Scope Z_scope.
#[local] Open Scope kernel_scope.

Record timerqueue_head := mk_tq { tq_root : Z; tq_next : Z }.

Section queue.
Context (ex : Z -> Z).

Definition tq_go (node : Z) : Z -> outcome side := fun ptr => Ret (if ex node <? ex ptr then L else R).

Definition timerqueue_add (m : rbmem) (h : timerqueue_head) (node : Z) : outcome (rbmem * timerqueue_head * bool) :=
  let! _ := RB_EMPTY_NODE m node in
  let! (m, root) := rb_add (tq_go node) m (tq_root h) node in
  if (tq_next h =? 0) || (ex node <? ex (tq_next h)) then Ret (m, mk_tq root node, true)
  else Ret (m, mk_tq root (tq_next h), false).

Definition timerqueue_del (m : rbmem) (h : timerqueue_head) (node : Z) : outcome (rbmem * timerqueue_head * bool) :=
  let! _ := RB_EMPTY_NODE m node in
  let! next := if tq_next h =? node then rb_next m node else Ret (tq_next h) in
  let! (m, root) := rb_erase m (tq_root h) node in
  let! m := RB_CLEAR_NODE m node in
  Ret (m, mk_tq root next, negb (next =? 0)).

Definition timerqueue_iterate_next (m : rbmem) (node : Z) : outcome Z :=
  if node =? 0 then Ret 0
  else
    let! next := rb_next m node in
    if next =? 0 then Ret 0 else Ret next.

Definition timerqueue_getnext (h : timerqueue_head) : Z := tq_next h.
Definition timerqueue_init (m : rbmem) (node : Z) : outcome rbmem := RB_CLEAR_NODE m node.
Definition timerqueue_init_head : timerqueue_head := mk_tq 0 0.

(** ** What a queue is *)

Definition sooner (x y : Z) : Prop := ex x <= ex y.

Record queue_ok (m : rbmem) (h : timerqueue_head) (l : list Z) : Prop := {
  qo_tree : rbtree m (tq_root h) l;
  qo_sorted : StronglySorted sooner l;
  qo_next : tq_next h = hd0 l;
}.

(** The new timer goes behind those that expire no later. *)
Fixpoint enqueue (x : Z) (l : list Z) : list Z :=
  match l with
  | [] => [x]
  | y :: l' => if ex x <? ex y then x :: y :: l' else y :: enqueue x l'
  end.

Lemma enqueue_split x l : StronglySorted sooner l ->
  exists l1 l2, l = l1 ++ l2 /\ enqueue x l = l1 ++ x :: l2 /\ (forall y, y ∈ l1 -> ex y <= ex x) /\ (forall y, y ∈ l2 -> ex x < ex y).
Proof.
  induction 1 as [|y l Hs IH Hy]; [by exists [], []; split_and!; [done|done|intros ? ?%not_elem_of_nil..]|]. cbn. destruct (Z.ltb_spec (ex x) (ex y)).
  - exists [], (y :: l). split_and!; [done|done|by intros ? ?%not_elem_of_nil|]. rewrite list.Forall_forall in Hy. unfold sooner in Hy.
    intros z [->|Hz]%elem_of_cons; [done|]. specialize (Hy z Hz). lia.
  - destruct IH as (l1 & l2 & -> & -> & H1 & H2). exists (y :: l1), l2. split_and!; [done|done| |done]. intros z [->|Hz]%elem_of_cons; [done|by apply H1].
Qed.
Lemma enqueue_perm x l : enqueue x l ≡ₚ x :: l.
Proof. induction l as [|y l IH]; [done|]. cbn. destruct (ex x <? ex y); [done|]. rewrite IH. apply Permutation_swap. Qed.
Lemma enqueue_sorted x l : StronglySorted sooner l -> StronglySorted sooner (enqueue x l).
Proof.
  induction 1 as [|y l Hs IH Hy]; cbn; [by repeat constructor|]. destruct (Z.ltb_spec (ex x) (ex y)).
  - constructor; [by constructor|]. constructor; [unfold sooner; lia|]. eapply Forall_impl; [exact Hy|]. unfold sooner. intros. cbn in *. lia.
  - constructor; [done|]. rewrite enqueue_perm. constructor; [done|done].
Qed.
(** Timers with the same expiry keep the order of their insertion. *)
Lemma enqueue_filter x e l : StronglySorted sooner l ->
  filter (fun y => ex y = e) (enqueue x l) = filter (fun y => ex y = e) l ++ filter (fun y => ex y = e) [x].
Proof.
  intros (l1 & l2 & -> & -> & H1 & H2)%(enqueue_split x). rewrite !filter_app, <- app_assoc. f_equal. rewrite filter_cons. rewrite (filter_cons _ x []).
  case_decide as Hx; [|by rewrite app_nil_r]. rewrite filter_nil.
  assert (filter (fun y => ex y = e) l2 = []) as ->; [|done]. apply elem_of_nil_inv. intros z [Hz1 Hz2]%list_elem_of_filter. specialize (H2 z Hz2). lia.
Qed.

(** ** The operations *)

Lemma queue_empty m : queue_ok m timerqueue_init_head [].
Proof. split; [apply rbtree_empty|constructor|done]. Qed.

Lemma add_ok m h l x : queue_ok m h l -> good x -> x ∉ l ->
  exists m' h', timerqueue_add m h x = Ret (m', h', bool_decide (hd0 (enqueue x l) = x)) /\ queue_ok m' h' (enqueue x l) /\ only (x :: l) m m'.
Proof.
  intros [Ht Hs Hn] G Hx. pose proof (enqueue_split x l Hs) as (l1 & l2 & El & Ee & H1 & H2). rewrite El in Ht, Hx.
  destruct (rb_add_list m (tq_root h) l1 l2 (tq_go x) x Ht) as (m' & root' & E & R1 & R2).
  - intros y Hy. unfold tq_go. specialize (H1 y Hy). destruct (Z.ltb_spec (ex x) (ex y)); [lia|done].
  - intros y Hy. unfold tq_go. specialize (H2 y Hy). destruct (Z.ltb_spec (ex x) (ex y)); [done|lia].
  - done.
  - done.
  - unfold timerqueue_add, RB_EMPTY_NODE. rewrite ld_pc_ok by (by apply good_nz). cbn [obind]. rewrite E. cbn [obind]. rewrite Hn, El, <- El, Ee.
    assert (Hfirst : (hd0 l =? 0) || (ex x <? ex (hd0 l)) = is_nil l1).
    { rewrite El. destruct l1 as [|y l1]; cbn [app is_nil].
      - destruct l2 as [|y l2]; [done|]. change (hd0 (y :: l2)) with y. specialize (H2 y ltac:(left)). destruct (Z.ltb_spec (ex x) (ex y)); [apply orb_true_r|lia].
      - change (hd0 (y :: l1 ++ l2)) with y. specialize (H1 y ltac:(left)). destruct (Z.ltb_spec (ex x) (ex y)); [lia|]. rewrite orb_false_r.
        apply Z.eqb_neq. apply good_nz. eapply rbtree_good; [exact Ht|]. left. }
    rewrite Hfirst. rewrite <- Ee. pose proof (enqueue_sorted x l Hs) as Hs'. destruct l1 as [|y l1]; cbn [is_nil].
    + exists m', (mk_tq root' x). rewrite bool_decide_eq_true_2 by (by rewrite Ee). split_and!; [done| |by rewrite El]. split; rewrite ?Ee; try done. by rewrite <- Ee.
    + exists m', (mk_tq root' (hd0 l)). rewrite bool_decide_eq_false_2; [|rewrite Ee; cbn; intros ->; apply Hx; left].
      split_and!; [done| |by rewrite El]. split; rewrite ?Ee; cbn [tq_root tq_next]; [done|by rewrite <- Ee|by rewrite El].
Qed.

Lemma del_ok m h l1 x l2 : queue_ok m h (l1 ++ x :: l2) ->
  exists m' h', timerqueue_del m h x = Ret (m', h', negb (is_nil (l1 ++ l2))) /\ queue_ok m' h' (l1 ++ l2) /\ only (l1 ++ x :: l2) m m'
    /\ RB_EMPTY_NODE m' x = Ret true.
Proof.
  intros [Ht Hs Hn]. assert (Hx : x ∈ l1 ++ x :: l2) by (rewrite elem_of_app; right; left). pose proof (good_nz x (rbtree_good _ _ _ _ Ht Hx)) as Hz.
  destruct (rb_erase_list _ _ _ _ _ Ht) as (m1 & root' & E & R1 & R2). pose proof (rbtree_nodup _ _ _ Ht) as Hd.
  assert (Hxn : x ∉ l1 ++ l2).
  { apply list.NoDup_app in Hd as (_ & N2 & N3). apply list.NoDup_cons in N3 as [N3 _]. rewrite elem_of_app. intros [Hx1|Hx2]; [|done]. apply (N2 x Hx1). left. }
  assert (Hnext : (if tq_next h =? x then rb_next m x else Ret (tq_next h)) = Ret (hd0 (l1 ++ l2))).
  { rewrite Hn. destruct l1 as [|y l1]; cbn [app] in *; change (hd0 (?a :: _)) with a.
    - rewrite Z.eqb_refl. by apply (rb_next_list m (tq_root h) []).
    - destruct (Z.eqb_spec y x) as [->|]; [|done]. destruct Hxn. left. }
  unfold timerqueue_del. rewrite (rb_not_empty m (tq_root h) _ x Ht Hx). cbn [obind]. rewrite Hnext. cbn [obind]. rewrite E. cbn [obind].
  unfold RB_CLEAR_NODE. rewrite st_pc_ok by done. cbn [obind]. exists (setpc m1 x x), (mk_tq root' (hd0 (l1 ++ l2))). split_and!.
  - do 2 f_equal. destruct (l1 ++ l2) as [|y l] eqn:El; [done|]. change (hd0 (y :: l)) with y. cbn [is_nil]. f_equal. apply Z.eqb_neq, good_nz.
    eapply rbtree_good; [exact R1|]. left.
  - split; cbn [tq_root tq_next]; [|by apply sorted_remove in Hs|done]. apply (rbtree_frame m1); [done|]. intros z Hz'. apply same_setpc. by intros ->.
  - intros z Hz'. eapply same_trans; [by apply R2|]. apply same_setpc. intros ->. done.
  - unfold RB_EMPTY_NODE. rewrite ld_pc_ok by done. cbn [obind]. rewrite pc_setpc_eq, Z.eqb_refl. done.
Qed.

Lemma iterate_ok m h l1 x l2 : queue_ok m h (l1 ++ x :: l2) -> timerqueue_iterate_next m x = Ret (hd0 l2).
Proof.
  intros [Ht Hs Hn]. unfold timerqueue_iterate_next. assert (Hx : x ∈ l1 ++ x :: l2) by (rewrite elem_of_app; right; left).
  pose proof (good_nz x (rbtree_good _ _ _ _ Ht Hx)). destruct (Z.eqb_spec x 0); [done|]. rewrite (rb_next_list _ _ _ _ _ Ht). cbn [obind].
  by destruct (Z.eqb_spec (hd0 l2) 0) as [->|].
Qed.

(** ** Adding timers and taking the earliest again and again *)

Fixpoint add_all (m : rbmem) (h : timerqueue_head) (xs : list Z) : outcome (rbmem * timerqueue_head) :=
  match xs with
  | [] => Ret (m, h)
  | x :: xs' => let! (m, h, _) := timerqueue_add m h x in add_all m h xs'
  end.
(** [while ((node = timerqueue_getnext(q))) timerqueue_del(q, node)] *)
Fixpoint drain (fuel : nat) (m : rbmem) (h : timerqueue_head) : outcome (list Z) :=
  match fuel with
  | O => Stuck
  | S fuel' =>
      let node := timerqueue_getnext h in
      if node =? 0 then Ret []
      else
        let! (m, h, _) := timerqueue_del m h node in
        let! l := drain fuel' m h in
        Ret (node :: l)
  end.

Lemma add_all_ok xs : forall m h l, queue_ok m h l -> (forall x, x ∈ xs -> good x) -> NoDup (xs ++ l) ->
  exists m' h', add_all m h xs = Ret (m', h') /\ queue_ok m' h' (foldl (fun l x => enqueue x l) l xs).
Proof.
  induction xs as [|x xs IH]; intros m h l Hq Hg Hd; [by exists m, h|]. cbn [app] in Hd. apply list.NoDup_cons in Hd as [Hx Hd]. rewrite elem_of_app in Hx.
  destruct (add_ok m h l x Hq) as (m1 & h1 & E & Hq1 & _); [apply Hg; left|tauto|]. cbn [add_all foldl]. rewrite E. cbn [obind].
  apply IH; [done|intros y Hy; apply Hg; by right|]. rewrite enqueue_perm, <- Permutation_middle. apply list.NoDup_cons. rewrite elem_of_app. tauto.
Qed.
Lemma drain_ok l : forall fuel m h, (length l < fuel)%nat -> queue_ok m h l -> drain fuel m h = Ret l.
Proof.
  induction l as [|x l IH]; intros [|fuel] m h Hf Hq; [cbn in Hf; lia| |cbn in Hf; lia|]; cbn [drain]; unfold timerqueue_getnext; rewrite (qo_next _ _ _ Hq); [done|].
  change (hd0 (x :: l)) with x. pose proof (good_nz x (rbtree_good _ _ _ x (qo_tree _ _ _ Hq) ltac:(left))). destruct (Z.eqb_spec x 0); [done|].
  destruct (del_ok m h [] x l Hq) as (m1 & h1 & -> & Hq1 & _). cbn [obind]. rewrite (IH fuel m1 h1); [done|cbn in Hf; lia|done].
Qed.
Lemma foldl_enqueue xs : forall l, StronglySorted sooner l ->
  let l' := foldl (fun l x => enqueue x l) l xs in
  StronglySorted sooner l' /\ l' ≡ₚ l ++ xs /\ forall e, filter (fun y => ex y = e) l' = filter (fun y => ex y = e) l ++ filter (fun y => ex y = e) xs.
Proof.
  induction xs as [|x xs IH]; intros l Hs; cbn [foldl]; [split_and!; [done|by rewrite app_nil_r|intros e; by rewrite filter_nil, app_nil_r]|].
  destruct (IH _ (enqueue_sorted x l Hs)) as (H1 & H2 & H3). split_and!; [done| |].
  - rewrite H2, enqueue_perm. cbn [app]. by rewrite Permutation_middle.
  - intros e. rewrite H3, enqueue_filter by done. rewrite <- app_assoc. f_equal. by rewrite <- filter_app.
Qed.
End queue.

(** ** The properties *)

(** C28. A timer queue is the list of its timers in order of
    expiry, [next] the first of them or NULL.  timerqueue_add() puts a timer
    behind those that expire no later and answers whether it is now the first;
    timerqueue_del() takes exactly its timer out wherever it is, answers
    whether the queue still has timers and leaves the node marked as not
    queued; timerqueue_iterate_next() gives the next timer in order. *)
Theorem timerqueue_correct ex m h l x l1 l2 : good x -> l = l1 ++ l2 -> x ∉ l ->
  (queue_ok ex m h l -> exists m' h', timerqueue_add ex m h x = Ret (m', h', bool_decide (hd0 (enqueue ex x l) = x)) /\ queue_ok ex m' h' (enqueue ex x l))
  /\ (queue_ok ex m h (l1 ++ x :: l2) ->
        timerqueue_iterate_next m x = Ret (hd0 l2)
        /\ exists m' h', timerqueue_del m h x = Ret (m', h', negb (is_nil l)) /\ queue_ok ex m' h' l /\ RB_EMPTY_NODE m' x = Ret true).
Proof.
  intros G -> Hx. split.
  - intros Hq. destruct (add_ok ex m h _ x Hq G Hx) as (m' & h' & E & R & _). eauto.
  - intros Hq. split; [by apply (iterate_ok ex m h l1)|]. destruct (del_ok ex m h l1 x l2 Hq) as (m' & h' & E & R & _ & R2). eauto.
Qed.

(** Two timers with the same expiry, one earlier and one later. *)
Definition tq_demo_ex (x : Z) : Z := if x =? 16 then 50 else if x =? 32 then 20 else if x =? 48 then 50 else if x =? 64 then -7 else 90.
Definition tq_demo : rbmem * timerqueue_head :=
  match add_all tq_demo_ex rb_blank timerqueue_init_head [16; 32; 48] with Ret p => p | _ => (rb_blank, timerqueue_init_head) end.
Lemma tq_demo_ok : queue_ok tq_demo_ex tq_demo.1 tq_demo.2 [32; 16; 48].
Proof.
  split; [|repeat constructor; vm_compute; discriminate|done].
  apply (rbtree_by _ _ (Node Black (Node Red Leaf 32 Leaf) 16 (Node Red Leaf 48 Leaf)) 1); vm_compute; reflexivity.
Qed.

Lemma timerqueue_correct_witness :
  (exists m' h', timerqueue_add tq_demo_ex tq_demo.1 tq_demo.2 64 = Ret (m', h', true) /\ queue_ok tq_demo_ex m' h' [64; 32; 16; 48])
  /\ timerqueue_iterate_next tq_demo.1 16 = Ret 48
  /\ (exists m' h', timerqueue_del tq_demo.1 tq_demo.2 16 = Ret (m', h', true) /\ queue_ok tq_demo_ex m' h' [32; 48] /\ RB_EMPTY_NODE m' 16 = Ret true).
Proof.
  split.
  - apply (timerqueue_correct tq_demo_ex tq_demo.1 tq_demo.2 [32; 16; 48] 64 [] [32; 16; 48]); [by apply (bool_decide_unpack _)|done|by apply (bool_decide_unpack _)|exact tq_demo_ok].
  - apply (timerqueue_correct tq_demo_ex tq_demo.1 tq_demo.2 [32; 48] 16 [32] [48]); [by apply (bool_decide_unpack _)|done|by apply (bool_decide_unpack _)|exact tq_demo_ok].
Defined.

(** Whatever timers are added to an empty queue, taking the
    earliest with timerqueue_getnext() and deleting it until the queue is empty
    gives every timer once, in order of expiry, those with equal expiry in the
    order in which they were added. *)
Theorem timerqueue_drains ex m xs fuel : (forall x, x ∈ xs -> good x) -> NoDup xs -> (length xs < fuel)%nat ->
  exists m' h' l, add_all ex m timerqueue_init_head xs = Ret (m', h') /\ drain fuel m' h' = Ret l
    /\ l ≡ₚ xs /\ StronglySorted (fun x y => ex x <= ex y) l /\ forall e, filter (fun y => ex y = e) l = filter (fun y => ex y = e) xs.
Proof.
  intros Hg Hd Hf. destruct (add_all_ok ex xs m timerqueue_init_head [] (queue_empty ex m) Hg) as (m' & h' & E & Hq); [by rewrite app_nil_r|].
  destruct (foldl_enqueue ex xs [] ltac:(constructor)) as (H1 & H2 & H3). eexists m', h', _. split_and!; [exact E| |exact H2|exact H1|exact H3].
  apply (drain_ok ex); [|exact Hq]. by rewrite H2.
Qed.

Lemma timerqueue_drains_witness : exists m' h' l, add_all tq_demo_ex rb_blank timerqueue_init_head [16; 32; 80; 48; 64] = Ret (m', h') /\ drain 9 m' h' = Ret l
  /\ l ≡ₚ [16; 32; 80; 48; 64] /\ StronglySorted (fun x y => tq_demo_ex x <= tq_demo_ex y) l
  /\ forall e, filter (fun y => tq_demo_ex y = e) l = filter (fun y => tq_demo_ex y = e) [16; 32; 80; 48; 64].
Proof.
  apply (timerqueue_drains tq_demo_ex rb_blank [16; 32; 80; 48; 64] 9); [|by apply (bool_decide_unpack _)|cbn; lia].
  apply list.Forall_forall. by apply (bool_decide_unpack _).
Defined.
