(* ===== verification/FairMath.v ===== *)
(** * Weights and virtual time

    The fixed-point arithmetic of src/kernel/sched/fair.c: the weight of a task
    or a run queue with its cached inverse, __calc_delta(), the slices, and the
    comparison of virtual times that wrap around. *)

From S2P Require Import Prelude Bitops.
From stdpp Require Import base list numbers option.
#[local] Open Scope Z_scope.
#[local] Open Scope kernel_scope.

(** ** Definitions *)

Definition SCHED_FIXEDPOINT_SHIFT : Z := 10.
Definition scale_load (w : Z) : Z := u64 (Z.shiftl w SCHED_FIXEDPOINT_SHIFT).
Definition scale_load_down (w : Z) : Z := Z.shiftr w SCHED_FIXEDPOINT_SHIFT.
Definition NICE_0_LOAD : Z := Z.shiftl 1 (SCHED_FIXEDPOINT_SHIFT + SCHED_FIXEDPOINT_SHIFT).

Record load_weight := mk_lw { lw_weight : Z; inv_weight : Z }.
Definition update_load_add (lw : load_weight) (inc : Z) : load_weight := mk_lw (u64 (lw_weight lw + inc)) 0.
Definition update_load_sub (lw : load_weight) (dec : Z) : load_weight := mk_lw (u64 (lw_weight lw - dec)) 0.
Definition update_load_set (lw : load_weight) (w : Z) : load_weight := mk_lw w 0.

Definition WMULT_CONST : Z := 2 ^ 32 - 1.
Definition WMULT_SHIFT : Z := 32.
Definition __update_inv_weight (lw : load_weight) : load_weight :=
  if negb (inv_weight lw =? 0) then lw
  else
    let w := scale_load_down (lw_weight lw) in
    mk_lw (lw_weight lw) (if WMULT_CONST <=? w then 1 else if w =? 0 then WMULT_CONST else WMULT_CONST / w).

(** The two forms of the multiplication: with a 128-bit product, and with
    32-bit halves for compilers without one.  The shift is from 0 to 32. *)
Definition mul_u64_u32_shr (a mul shift : Z) : Z := u64 (Z.shiftr (a * mul) shift).
Definition mul_u64_u32_shr_halves (a mul shift : Z) : Z :=
  let al := u32 a in
  let ah := u32 (Z.shiftr a 32) in
  let ret := Z.shiftr (u64 (al * mul)) shift in
  if negb (ah =? 0) then u64 (ret + u64 (Z.shiftl (u64 (ah * mul)) (32 - shift))) else ret.

(** [while (fact >> 32) { fact >>= 1; shift--; }], for a [u64]. *)
Fixpoint shrink (n : nat) (fact shift : Z) : Z * Z :=
  match n with
  | O => (fact, shift)
  | S n' => if negb (Z.shiftr fact 32 =? 0) then shrink n' (Z.shiftr fact 1) (shift - 1) else (fact, shift)
  end.

(** The factor and the shift __calc_delta() multiplies with, and the weight
    with its inverse filled in. *)
Definition calc_factor (weight : Z) (lw : load_weight) : Z * Z * load_weight :=
  let fact := scale_load_down weight in
  let lw := __update_inv_weight lw in
  let '(fact, shift) := shrink 64 fact WMULT_SHIFT in
  let fact := u64 (u32 fact * inv_weight lw) in
  let '(fact, shift) := shrink 64 fact shift in
  (fact, shift, lw).
Definition __calc_delta (delta_exec weight : Z) (lw : load_weight) : Z * load_weight :=
  let '(fact, shift, lw) := calc_factor weight lw in
  (mul_u64_u32_shr delta_exec (u32 fact) shift, lw).

Definition calc_delta_fair (delta : Z) (lw : load_weight) : Z * load_weight :=
  if negb (lw_weight lw =? NICE_0_LOAD) then __calc_delta delta NICE_0_LOAD lw else (delta, lw).

(** Virtual times are compared by their signed difference. *)
Definition max_vruntime (max_vruntime vruntime : Z) : Z := if s64 (vruntime - max_vruntime) >? 0 then vruntime else max_vruntime.
Definition min_vruntime (min_vruntime vruntime : Z) : Z := if s64 (vruntime - min_vruntime) <? 0 then vruntime else min_vruntime.

(** Tunables: latency, minimal granularity, wake-up granularity in
    nanoseconds, and the scaling with the number of CPUs. *)
Variant sched_tunable_scaling := SCHED_TUNABLESCALING_NONE | SCHED_TUNABLESCALING_LOG | SCHED_TUNABLESCALING_LINEAR | SCHED_TUNABLESCALING_END.
Record tunables := mk_tun { sched_latency : Z; sched_min_granularity : Z; sched_wakeup_granularity : Z }.
Definition normalized : tunables := mk_tun 6000000 750000 1000000.
Definition sched_nr_latency : Z := 8.
Definition get_update_sysctl_factor (scaling : sched_tunable_scaling) (nr_online_cpu_ids : Z) : Z :=
  let cpus := Z.min (u32 nr_online_cpu_ids) 8 in
  match scaling with
  | SCHED_TUNABLESCALING_NONE => 1
  | SCHED_TUNABLESCALING_LINEAR => cpus
  | SCHED_TUNABLESCALING_LOG | SCHED_TUNABLESCALING_END => 1 + Z.log2 cpus
  end.
Definition update_sysctl (scaling : sched_tunable_scaling) (cpus : Z) : tunables :=
  let factor := get_update_sysctl_factor scaling cpus in
  mk_tun (u32 (factor * sched_latency normalized)) (u32 (factor * sched_min_granularity normalized))
    (u32 (factor * sched_wakeup_granularity normalized)).

Definition __sched_period (tun : tunables) (nr_running : Z) : Z :=
  if nr_running >? sched_nr_latency then u64 (nr_running * sched_min_granularity tun) else sched_latency tun.

Definition sched_prio_to_weight : list Z :=
  [88761; 71755; 56483; 46273; 36291; 29154; 23254; 18705; 14949; 11916; 9548; 7620; 6100; 4904; 3906; 3121; 2501; 1991; 1586; 1277;
   1024; 820; 655; 526; 423; 335; 272; 215; 172; 137; 110; 87; 70; 56; 45; 36; 29; 23; 18; 15].
Definition sched_prio_to_wmult : list Z :=
  [48388; 59856; 76040; 92818; 118348; 147320; 184698; 229616; 287308; 360437; 449829; 563644; 704093; 875809; 1099582; 1376151; 1717300;
   2157191; 2708050; 3363326; 4194304; 5237765; 6557202; 8165337; 10153587; 12820798; 15790321; 19976592; 24970740; 31350126; 39045157;
   49367440; 61356676; 76695844; 95443717; 119304647; 148102320; 186737708; 238609294; 286331153].
(** The weight of a nice level, as reweight_task() and set_load_weight() set
    it. *)
Definition prio_weight (i : nat) : load_weight :=
  mk_lw (scale_load (nth i sched_prio_to_weight 0)) (nth i sched_prio_to_wmult 0).

(** ** Shifting until the value fits 32 bits *)

(** [f] shifted right by [j] bits, no more than it takes to fit 32. *)
Definition chopped (f j : Z) : Prop := 0 <= j /\ 0 <= Z.shiftr f j < 2 ^ 32 /\ (j = 0 \/ 2 ^ 31 <= Z.shiftr f j).

Lemma shrink_ok n : forall f sh, 0 <= f < 2 ^ (32 + Z.of_nat n) ->
  exists j, j <= Z.of_nat n /\ shrink n f sh = (Z.shiftr f j, sh - j) /\ chopped f j.
Proof.
  unfold chopped. induction n as [|n IH]; intros f sh Hf; cbn [shrink].
  - exists 0. rewrite Z.shiftr_0_r, Z.sub_0_r. change (32 + Z.of_nat 0) with 32 in Hf. split; [lia|]. split; [done|]. split; [lia|]. auto.
  - assert (Hd : f / 2 ^ 32 = 0 <-> 0 <= f < 2 ^ 32) by (pose proof (Z.div_small_iff f (2 ^ 32) ltac:(lia)); lia).
    rewrite Z.shiftr_div_pow2 by lia. destruct (Z.eqb_spec (f / 2 ^ 32) 0) as [E|E]; cbn [negb].
    + exists 0. rewrite Z.shiftr_0_r, Z.sub_0_r. split; [lia|]. split; [done|]. split; [lia|]. split; [tauto|by left].
    + assert (Hp : 2 ^ (32 + Z.of_nat (S n)) = 2 * 2 ^ (32 + Z.of_nat n)) by (rewrite <- Z.pow_succ_r by lia; f_equal; lia).
      assert (Hbig : 2 ^ 32 <= f) by lia. assert (Hs : Z.shiftr f 1 = f / 2) by (rewrite Z.shiftr_div_pow2 by lia; done).
      destruct (IH (Z.shiftr f 1) (sh - 1)) as (j & Hj & -> & Hj0 & Hr & Hor).
      { rewrite Hs. split; [apply Z.div_pos; lia|apply Z.div_lt_upper_bound; lia]. }
      exists (1 + j). rewrite Z.shiftr_shiftr in * by lia. split; [lia|]. split; [f_equal; lia|]. split; [lia|]. split; [done|]. right.
      destruct Hor as [->|]; [|done]. rewrite Z.add_0_r, Hs. apply Z.div_le_lower_bound; lia.
Qed.

(** The value that is left: the dropped bits read as 0. *)
Definition kept (f j : Z) : Z := Z.shiftr f j * 2 ^ j.

Lemma kept_bounds f j : 0 <= f -> 0 <= j -> kept f j <= f < kept f j + 2 ^ j.
Proof.
  intros Hf Hj. unfold kept. rewrite Z.shiftr_div_pow2 by done. pose proof (Z.pow_pos_nonneg 2 j ltac:(lia) Hj).
  pose proof (Z.div_mod f (2 ^ j) ltac:(lia)). pose proof (Z.mod_pos_bound f (2 ^ j) ltac:(lia)). lia.
Qed.
Lemma kept_mono f1 j1 f2 j2 : 0 <= f1 <= f2 -> chopped f1 j1 -> chopped f2 j2 -> kept f1 j1 <= kept f2 j2.
Proof.
  intros Hf (H1 & R1 & O1) (H2 & R2 & O2). pose proof (kept_bounds f1 j1 ltac:(lia) H1) as B1. pose proof (kept_bounds f2 j2 ltac:(lia) H2) as B2.
  pose proof (Z.pow_pos_nonneg 2 j1 ltac:(lia) H1). pose proof (Z.pow_pos_nonneg 2 j2 ltac:(lia) H2). unfold kept in *.
  destruct (Z.lt_trichotomy j1 j2) as [Hlt|[->|Hgt]].
  - assert (Hp : 2 * 2 ^ j1 <= 2 ^ j2) by (rewrite <- Z.pow_succ_r by lia; apply Z.pow_le_mono_r; lia). destruct O2 as [->|O2]; [lia|]. nia.
  - apply Z.mul_le_mono_nonneg_r; [lia|]. rewrite !Z.shiftr_div_pow2 by done. apply Z.div_le_mono; lia.
  - assert (Hp : 2 * 2 ^ j2 <= 2 ^ j1) by (rewrite <- Z.pow_succ_r by lia; apply Z.pow_le_mono_r; lia). destruct O1 as [->|O1]; [lia|]. nia.
Qed.
(** At most one part in 2^31 is lost. *)
Lemma kept_loss f j : 0 <= f -> chopped f j -> (2 ^ 31 - 1) * f <= 2 ^ 31 * kept f j.
Proof.
  intros Hf (H & R & O). pose proof (kept_bounds f j Hf H) as B. pose proof (Z.pow_pos_nonneg 2 j ltac:(lia) H). unfold kept in *.
  destruct O as [->|O]; [rewrite Z.shiftr_0_r in *; change (2 ^ 0) with 1 in *; lia|]. nia.
Qed.
Lemma shift_kept a f j : 0 <= j <= 32 -> Z.shiftr (a * Z.shiftr f j) (32 - j) = (a * kept f j) / 2 ^ 32.
Proof.
  intros Hj. unfold kept. rewrite (Z.shiftr_div_pow2 _ (32 - j)) by lia. rewrite Z.mul_assoc. replace (2 ^ 32) with (2 ^ (32 - j) * 2 ^ j).
  - rewrite Z.div_mul_cancel_r; [done|apply Z.pow_nonzero; lia..].
  - rewrite <- Z.pow_add_r by lia. f_equal. lia.
Qed.

(** ** The two forms of the multiplication *)

Lemma mul32_u64 x y : 0 <= x < 2 ^ 32 -> 0 <= y < 2 ^ 32 -> is_u64 (x * y).
Proof. intros. uunfold. split; [nia|]. change (2 ^ 64) with (2 ^ 32 * 2 ^ 32). apply Z.mul_lt_mono_nonneg; lia. Qed.

Lemma mul_halves a mul shift : is_u64 a -> is_u32 mul -> 0 <= shift <= 32 -> mul_u64_u32_shr_halves a mul shift = mul_u64_u32_shr a mul shift.
Proof.
  intros Ha Hm Hs. unfold mul_u64_u32_shr_halves, mul_u64_u32_shr. rewrite (Z.shiftr_div_pow2 a 32) by lia.
  set (al := u32 a). set (h := a / 2 ^ 32). pose proof (Z.pow_pos_nonneg 2 shift ltac:(lia) ltac:(lia)) as Hp.
  assert (Hh : 0 <= h < 2 ^ 32) by (split; [apply Z.div_pos; ulia|apply Z.div_lt_upper_bound; ulia]).
  assert (Hal : 0 <= al < 2 ^ 32) by (apply u32_range).
  assert (Ea : a = 2 ^ 32 * h + al) by (subst h al; unfold u32; unfold U32_MOD; apply Z.div_mod; lia).
  assert (Ep : 2 ^ 32 = 2 ^ shift * 2 ^ (32 - shift)) by (rewrite <- Z.pow_add_r by lia; f_equal; lia).
  rewrite (u32_id h) by ulia. rewrite (u64_id (al * mul)) by (by apply mul32_u64). rewrite (u64_id (h * mul)) by (by apply mul32_u64).
  assert (E : Z.shiftr (a * mul) shift = Z.shiftr (al * mul) shift + Z.shiftl (h * mul) (32 - shift)).
  { rewrite Z.shiftl_mul_pow2, !Z.shiftr_div_pow2 by lia. rewrite Ea.
    replace ((2 ^ 32 * h + al) * mul) with (al * mul + (h * mul * 2 ^ (32 - shift)) * 2 ^ shift) by (rewrite Ep; ring). rewrite Z.div_add by lia. done. }
  rewrite E. destruct (Z.eqb_spec h 0) as [Hz|]; cbn [negb].
  - rewrite Hz. rewrite Z.mul_0_l, Z.shiftl_0_l, Z.add_0_r. symmetry. apply u64_id. rewrite Z.shiftr_div_pow2 by lia.
    pose proof (mul32_u64 al mul Hal Hm) as Hb. uunfold. split; [apply Z.div_pos; lia|]. apply Z.div_lt_upper_bound; nia.
  - unfold u64. by rewrite Z.add_mod_idemp_r by done.
Qed.

(** ** Virtual time of a task *)

(** The cached inverse is 2^32 divided by the weight, rounded either way. *)
Definition inv_near (lw : load_weight) : Prop :=
  let w := scale_load_down (lw_weight lw) in
  0 < w /\ 0 <= inv_weight lw < 2 ^ 32 /\ 2 ^ 32 - w <= inv_weight lw * w <= 2 ^ 32 + w.

Lemma update_inv_near lw : (inv_weight lw = 0 -> 0 < scale_load_down (lw_weight lw) < WMULT_CONST) -> (inv_weight lw <> 0 -> inv_near lw) ->
  inv_near (__update_inv_weight lw) /\ lw_weight (__update_inv_weight lw) = lw_weight lw.
Proof.
  intros H0 H1. unfold __update_inv_weight. destruct (Z.eqb_spec (inv_weight lw) 0) as [E|E]; cbn [negb]; [|by split; [apply H1|]].
  specialize (H0 E). clear H1. set (w := scale_load_down (lw_weight lw)) in *. destruct (Z.leb_spec WMULT_CONST w); [lia|]. destruct (Z.eqb_spec w 0); [lia|].
  split; [|done]. unfold inv_near. cbn [lw_weight inv_weight]. fold w. unfold WMULT_CONST in *. pose proof (Z.div_mod (2 ^ 32 - 1) w ltac:(lia)).
  pose proof (Z.mod_pos_bound (2 ^ 32 - 1) w ltac:(lia)). assert (0 <= (2 ^ 32 - 1) / w) by (apply Z.div_pos; lia). split; [lia|]. split; nia.
Qed.

Lemma calc_fair_factor lw : 0 <= inv_weight (__update_inv_weight lw) < 2 ^ 32 ->
  let f := 1024 * inv_weight (__update_inv_weight lw) in
  exists j, j <= 10 /\ chopped f j /\ calc_factor NICE_0_LOAD lw = (Z.shiftr f j, 32 - j, __update_inv_weight lw).
Proof.
  intros Hi f. unfold calc_factor. change (scale_load_down NICE_0_LOAD) with 1024. cbn -[__update_inv_weight shrink].
  change (shrink 64 1024 WMULT_SHIFT) with (1024, 32). cbv iota beta. change (u32 1024) with 1024. rewrite u64_id by (uunfold; nia). fold f.
  assert (Hsame : forall n sh, shrink (10 + n) f sh = shrink 10 f sh).
  { intros n. assert (Hg : forall k g sh, 0 <= g < 2 ^ (32 + Z.of_nat k) -> shrink (k + n) g sh = shrink k g sh).
    { induction k as [|k IH]; intros g sh Hg; cbn [Nat.add shrink].
      - destruct n; [done|]. cbn [shrink]. rewrite Z.shiftr_div_pow2, Z.div_small by (change (2 ^ (32 + Z.of_nat 0)) with (2 ^ 32) in Hg; lia). done.
      - destruct (negb _); [|done]. apply IH. rewrite Z.shiftr_div_pow2 by lia. change (2 ^ 1) with 2.
        assert (Hp : 2 ^ (32 + Z.of_nat (S k)) = 2 * 2 ^ (32 + Z.of_nat k)) by (rewrite <- Z.pow_succ_r by lia; f_equal; lia).
        split; [apply Z.div_pos; lia|apply Z.div_lt_upper_bound; lia]. }
    intros sh. apply Hg. change (2 ^ (32 + Z.of_nat 10)) with (1024 * 2 ^ 32). subst f. lia. }
  change 64%nat with (10 + 54)%nat. rewrite Hsame.
  destruct (shrink_ok 10 f 32) as (j & Hj & -> & Hc); [change (2 ^ (32 + Z.of_nat 10)) with (1024 * 2 ^ 32); subst f; lia|]. exists j. split; [lia|done].
Qed.

Lemma calc_delta_nice lw delta : 0 <= inv_weight (__update_inv_weight lw) < 2 ^ 32 -> 0 <= delta < 2 ^ 54 ->
  let f := 1024 * inv_weight (__update_inv_weight lw) in
  exists j, chopped f j /\ __calc_delta delta NICE_0_LOAD lw = ((delta * kept f j) / 2 ^ 32, __update_inv_weight lw).
Proof.
  intros Hi Hd f. destruct (calc_fair_factor lw Hi) as (j & Hj & Hc & E). exists j. split; [done|]. unfold __calc_delta. rewrite E.
  destruct Hc as (Hj0 & Hr & _). fold f in Hr |- *. rewrite u32_id by ulia. unfold mul_u64_u32_shr. rewrite shift_kept by lia. f_equal. apply u64_id. uunfold.
  pose proof (kept_bounds f j ltac:(subst f; lia) Hj0) as B. assert (0 <= kept f j) by (unfold kept; apply Z.mul_nonneg_nonneg; [lia|apply Z.pow_nonneg; lia]).
  split; [apply Z.div_pos; nia|]. apply Z.div_lt_upper_bound; [lia|]. subst f. nia.
Qed.

(** How far the virtual time of a task of weight [w] advances in [delta]:
    [delta * 1024 / w] up to the rounding of the inverse and of the factor. *)
Definition near_rate (delta w r : Z) : Prop :=
  2 ^ 32 * w * r <= delta * 1024 * (2 ^ 32 + w) /\ delta * 1024 * (2 ^ 32 - w) * (2 ^ 31 - 1) < 2 ^ 63 * w * (r + 1).

Lemma rate_ok inv w delta j : 0 < w <= 2 ^ 32 -> 0 <= inv -> 2 ^ 32 - w <= inv * w <= 2 ^ 32 + w -> 0 <= delta -> chopped (1024 * inv) j ->
  near_rate delta w ((delta * kept (1024 * inv) j) / 2 ^ 32).
Proof.
  intros Hw Hi Hn Hd Hc. pose proof (kept_bounds (1024 * inv) j ltac:(lia) (proj1 Hc)) as [B _]. pose proof (kept_loss (1024 * inv) j ltac:(lia) Hc) as Lo.
  set (g := kept (1024 * inv) j) in *. set (r := delta * g / 2 ^ 32). pose proof (Z.div_mod (delta * g) (2 ^ 32) ltac:(lia)) as E. fold r in E.
  pose proof (Z.mod_pos_bound (delta * g) (2 ^ 32) ltac:(lia)) as Hm. split.
  - assert (H1 : 2 ^ 32 * r <= delta * (1024 * inv)) by nia.
    transitivity (delta * 1024 * (inv * w)); [|nia]. replace (delta * 1024 * (inv * w)) with ((delta * (1024 * inv)) * w) by ring. nia.
  - assert (H1 : delta * g < 2 ^ 32 * (r + 1)) by lia.
    assert (H2 : delta * ((2 ^ 31 - 1) * (1024 * inv)) <= delta * (2 ^ 31 * g)) by (apply Z.mul_le_mono_nonneg_l; lia).
    assert (H3 : delta * ((2 ^ 31 - 1) * (1024 * inv)) < 2 ^ 63 * (r + 1)) by lia.
    assert (H4 : delta * ((2 ^ 31 - 1) * (1024 * inv)) * w < 2 ^ 63 * (r + 1) * w) by (apply Z.mul_lt_mono_pos_r; lia).
    apply Z.le_lt_trans with (delta * ((2 ^ 31 - 1) * (1024 * inv)) * w); [|lia].
    replace (delta * ((2 ^ 31 - 1) * (1024 * inv)) * w) with (delta * 1024 * (inv * w) * (2 ^ 31 - 1)) by ring.
    apply Z.mul_le_mono_nonneg_r; [lia|]. apply Z.mul_le_mono_nonneg_l; lia.
Qed.

Lemma fair_rate lw delta : inv_near (__update_inv_weight lw) -> lw_weight (__update_inv_weight lw) = lw_weight lw -> 0 <= delta < 2 ^ 54 ->
  scale_load_down (lw_weight lw) <= 2 ^ 32 ->
  near_rate delta (scale_load_down (lw_weight lw)) (fst (calc_delta_fair delta lw)).
Proof.
  intros (Hw & Hi & Hn) Ew Hd Hmax. rewrite Ew in *. unfold calc_delta_fair. destruct (Z.eqb_spec (lw_weight lw) NICE_0_LOAD) as [E|]; cbn [negb fst].
  - rewrite E. change (scale_load_down NICE_0_LOAD) with 1024. unfold near_rate. lia.
  - destruct (calc_delta_nice lw delta Hi Hd) as (j & Hc & ->). cbn [fst]. apply rate_ok; try done; lia.
Qed.

(** ** Nice levels *)

(** Every entry of the table of inverses is within one of 2^32 divided by the
    weight; lower priorities have smaller weights and larger inverses. *)
Lemma prio_table i : (i < 40)%nat -> inv_near (prio_weight i) /\ inv_weight (prio_weight i) <> 0 /\ 15 <= scale_load_down (lw_weight (prio_weight i)) <= 88761.
Proof.
  intros Hi. do 40 (destruct i as [|i]; [vm_compute; repeat split; first [reflexivity|intro; discriminate]|]). lia.
Qed.
Lemma prio_inv_mono i j : (i <= j < 40)%nat -> inv_weight (prio_weight i) <= inv_weight (prio_weight j).
Proof.
  intros [Hij Hj]. cbn [inv_weight prio_weight]. induction Hij as [|j Hij IH]; [done|]. transitivity (nth j sched_prio_to_wmult 0); [apply IH; lia|]. clear IH Hij.
  do 39 (destruct j as [|j]; [vm_compute; intro; discriminate|]). lia.
Qed.

(** One formula for all levels, also for nice 0, where the source skips the
    multiplication. *)
Lemma prio_delta i delta : (i < 40)%nat -> 0 <= delta < 2 ^ 54 ->
  exists j, chopped (1024 * inv_weight (prio_weight i)) j
    /\ fst (calc_delta_fair delta (prio_weight i)) = (delta * kept (1024 * inv_weight (prio_weight i)) j) / 2 ^ 32.
Proof.
  intros Hi Hd. destruct (prio_table i Hi) as ((_ & Hinv & _) & Hnz & _).
  assert (Eu : __update_inv_weight (prio_weight i) = prio_weight i) by (unfold __update_inv_weight; by destruct (Z.eqb_spec (inv_weight (prio_weight i)) 0)).
  destruct (calc_delta_nice (prio_weight i) delta) as (j & Hc & E); [by rewrite Eu|done|]. rewrite Eu in *.
  unfold calc_delta_fair. destruct (Z.eqb_spec (lw_weight (prio_weight i)) NICE_0_LOAD) as [E0|]; cbn [negb fst]; [|rewrite E; by exists j].
  assert (i = 20%nat) as ->.
  { clear - Hi E0. do 40 (destruct i as [|i]; [first [reflexivity|exfalso; revert E0; vm_compute; discriminate]|]). lia. }
  exists 1. split; [split; [lia|]; split; [vm_compute; split; [intro; discriminate|reflexivity]|right; vm_compute; intro; discriminate]|]. change (kept (1024 * inv_weight (prio_weight 20)) 1) with (2 ^ 32).
  by rewrite Z.div_mul.
Qed.

Lemma prio_delta_mono i j delta : (i <= j < 40)%nat -> 0 <= delta < 2 ^ 54 ->
  fst (calc_delta_fair delta (prio_weight i)) <= fst (calc_delta_fair delta (prio_weight j)).
Proof.
  intros Hij Hd. destruct (prio_delta i delta ltac:(lia) Hd) as (ji & Ci & ->). destruct (prio_delta j delta ltac:(lia) Hd) as (jj & Cj & ->).
  apply Z.div_le_mono; [lia|]. apply Z.mul_le_mono_nonneg_l; [lia|]. apply kept_mono; [|done|done].
  pose proof (prio_inv_mono i j Hij). destruct (prio_table i ltac:(lia)) as ((_ & ? & _) & _). lia.
Qed.

(** ** Slices *)

(** [weight] out of the queue's total: no bit is dropped, the shift stays 32. *)
Lemma calc_share lw weight P : inv_weight lw = 0 -> let W := scale_load_down (lw_weight lw) in let w := scale_load_down weight in
  0 <= w <= W -> 0 < W < WMULT_CONST -> 0 <= P < 2 ^ 64 ->
  __calc_delta P weight lw = ((P * (w * (WMULT_CONST / W))) / 2 ^ 32, mk_lw (lw_weight lw) (WMULT_CONST / W)).
Proof.
  intros E0 W w Hw HW HP. unfold __calc_delta, calc_factor, __update_inv_weight. rewrite E0. cbn [Z.eqb negb]. fold W w.
  destruct (Z.leb_spec WMULT_CONST W); [lia|]. destruct (Z.eqb_spec W 0); [lia|]. cbn [inv_weight].
  assert (Hsh : forall f sh, 0 <= f < 2 ^ 32 -> shrink 64 f sh = (f, sh)).
  { intros f sh Hf. change 64%nat with (S 63). cbn [shrink]. rewrite Z.shiftr_div_pow2, Z.div_small by lia. done. }
  pose proof (Z.div_mod WMULT_CONST W ltac:(lia)) as Ed. pose proof (Z.mod_pos_bound WMULT_CONST W ltac:(lia)). set (inv := WMULT_CONST / W) in *.
  assert (Hinv : 0 <= inv) by (apply Z.div_pos; unfold WMULT_CONST; lia). assert (Hf : 0 <= w * inv <= WMULT_CONST) by nia. unfold WMULT_CONST in *.
  rewrite (Hsh w WMULT_SHIFT) by lia. rewrite (u32_id w) by ulia. rewrite (u64_id (w * inv)) by ulia. rewrite (Hsh (w * inv)) by lia.
  rewrite u32_id by ulia. f_equal. unfold mul_u64_u32_shr. change WMULT_SHIFT with 32. rewrite Z.shiftr_div_pow2 by lia. apply u64_id. uunfold.
  split; [apply Z.div_pos; nia|]. apply Z.div_lt_upper_bound; [lia|]. nia.
Qed.

Definition sum_of (ws : list Z) : Z := foldr Z.add 0 ws.

Lemma total_nonneg ws : Forall (fun w => 0 <= w) ws -> 0 <= sum_of ws.
Proof. unfold sum_of. induction 1; cbn in *; lia. Qed.
Lemma down_total ws : Forall (fun w => 0 <= w) ws -> sum_of (scale_load_down <$> ws) <= scale_load_down (sum_of ws).
Proof.
  assert (Hd : forall x, scale_load_down x = x / 1024) by (intros; unfold scale_load_down, SCHED_FIXEDPOINT_SHIFT; by rewrite Z.shiftr_div_pow2).
  induction 1 as [|w ws Hw Hws IH]; [done|]. rewrite fmap_cons. change (sum_of (?a :: ?b)) with (a + sum_of b). rewrite !Hd in *.
  transitivity (w / 1024 + sum_of ws / 1024); [lia|]. pose proof (Z.mul_div_le w 1024). pose proof (Z.mul_div_le (sum_of ws) 1024).
  apply Z.div_le_lower_bound; lia.
Qed.

(** The slices of all tasks of a queue fit into the period together. *)
Lemma shares_fit ws P : Forall (fun w => 0 <= w) ws -> 0 < scale_load_down (sum_of ws) < WMULT_CONST -> 0 <= P < 2 ^ 64 ->
  sum_of ((fun w => fst (__calc_delta P w (mk_lw (sum_of ws) 0))) <$> ws) <= P.
Proof.
  intros Hws HW HP. set (W := scale_load_down (sum_of ws)) in *. set (inv := WMULT_CONST / W).
  assert (Hinv : 0 <= inv) by (apply Z.div_pos; unfold WMULT_CONST in *; lia).
  assert (Hpos : Forall (fun w => 0 <= scale_load_down w) ws).
  { eapply list.Forall_impl; [exact Hws|]. intros w Hw. unfold scale_load_down. by apply Z.shiftr_nonneg. }
  assert (Hle : Forall (fun w => scale_load_down w <= W) ws).
  { rewrite list.Forall_forall. intros w Hin. transitivity (sum_of (scale_load_down <$> ws)); [|by apply down_total].
    clear - Hin Hpos. induction Hpos as [|v ws Hv Hws IH]; [by apply not_elem_of_nil in Hin|]. cbn.
    assert (0 <= sum_of (scale_load_down <$> ws)) by (apply total_nonneg; by apply list.Forall_fmap). apply elem_of_cons in Hin as [->|Hin]; [unfold sum_of in *; lia|].
    specialize (IH Hin). unfold sum_of in *. lia. }
  assert (Es : forall l, Forall (fun w => scale_load_down w <= W) l -> Forall (fun w => 0 <= scale_load_down w) l ->
    2 ^ 32 * sum_of ((fun w => fst (__calc_delta P w (mk_lw (sum_of ws) 0))) <$> l) <= P * (sum_of (scale_load_down <$> l) * inv)).
  { intros l Hl. induction Hl as [|w l Hw Hl IH]; intros Hn; [cbn; lia|]. inversion Hn as [|? ? Hw0 Hn']; subst. specialize (IH Hn').
    rewrite !fmap_cons. change (sum_of (?a :: ?b)) with (a + sum_of b). rewrite (calc_share (mk_lw (sum_of ws) 0) w P) by (done || (cbn; fold W; lia)). cbn [fst lw_weight]. fold W inv.
    pose proof (Z.mul_div_le (P * (scale_load_down w * inv)) (2 ^ 32) ltac:(lia)). nia. }
  specialize (Es ws Hle Hpos). pose proof (down_total ws Hws) as Hd. fold W in Hd. pose proof (Z.mul_div_le WMULT_CONST W ltac:(lia)) as Hm. fold inv in Hm.
  assert (H1 : sum_of (scale_load_down <$> ws) * inv <= WMULT_CONST) by nia. unfold WMULT_CONST in *. nia.
Qed.
