(* ===== verification/Fair.v ===== *)
(** * The run queue of the fair scheduling class

    Model of the entity and task operations of src/kernel/sched/fair.c for one
    CPU: the timeline of runnable tasks ordered by virtual time, the accounting
    of the running one, placement, the choice of the next and preemption.

    An entity is known by the address of its [run_node]; there are no task
    groups, so an entity is a task and for_each_sched_entity() runs once.  The
    load averages of pelt.c, frequency scaling, schedstats and tracing do not
    act on the state below and are left out.  The clock of the run queue is a
    field; resched_curr() sets a flag. *)

From S2P Require Import Prelude Bitops Rbtree FairMath.
From stdpp Require Import base list numbers option.
#[local] Open Scope Z_scope.
#[local] Open Scope kernel_scope.

Record sched_entity := mk_se {
  se_load : load_weight;
  on_rq : bool;
  exec_start : Z;
  sum_exec_runtime : Z;
  vruntime : Z;
  prev_sum_exec_runtime : Z;
}.

(** [struct cfs_rq] and what the class uses of [struct rq]. *)
Record cfs_rq := mk_cfs {
  tl_mem : rbmem;
  tl_root : Z;
  tl_leftmost : Z;
  ent : Z -> sched_entity;
  c_curr : Z;
  c_next : Z;
  c_last : Z;
  c_skip : Z;
  c_load : load_weight;
  nr_running : Z;
  h_nr_running : Z;
  c_min_vruntime : Z;
  rq_load : load_weight;
  rq_nr_running : Z;
  cfs_tasks : list Z;
  clock_task : Z;
  need_resched : bool;
  tun : tunables;
}.

Definition set_timeline (s : cfs_rq) (m : rbmem) (root lft : Z) : cfs_rq :=
  mk_cfs m root lft (ent s) (c_curr s) (c_next s) (c_last s) (c_skip s) (c_load s) (nr_running s) (h_nr_running s) (c_min_vruntime s)
    (rq_load s) (rq_nr_running s) (cfs_tasks s) (clock_task s) (need_resched s) (tun s).
Definition set_ent (s : cfs_rq) (x : Z) (e : sched_entity) : cfs_rq :=
  mk_cfs (tl_mem s) (tl_root s) (tl_leftmost s) (fun y => if y =? x then e else ent s y) (c_curr s) (c_next s) (c_last s) (c_skip s) (c_load s)
    (nr_running s) (h_nr_running s) (c_min_vruntime s) (rq_load s) (rq_nr_running s) (cfs_tasks s) (clock_task s) (need_resched s) (tun s).
Definition set_curr (s : cfs_rq) (x : Z) : cfs_rq :=
  mk_cfs (tl_mem s) (tl_root s) (tl_leftmost s) (ent s) x (c_next s) (c_last s) (c_skip s) (c_load s) (nr_running s) (h_nr_running s)
    (c_min_vruntime s) (rq_load s) (rq_nr_running s) (cfs_tasks s) (clock_task s) (need_resched s) (tun s).
Definition set_buddies (s : cfs_rq) (nx la sk : Z) : cfs_rq :=
  mk_cfs (tl_mem s) (tl_root s) (tl_leftmost s) (ent s) (c_curr s) nx la sk (c_load s) (nr_running s) (h_nr_running s) (c_min_vruntime s)
    (rq_load s) (rq_nr_running s) (cfs_tasks s) (clock_task s) (need_resched s) (tun s).
Definition set_accounts (s : cfs_rq) (lw : load_weight) (nr : Z) (rlw : load_weight) (tasks : list Z) : cfs_rq :=
  mk_cfs (tl_mem s) (tl_root s) (tl_leftmost s) (ent s) (c_curr s) (c_next s) (c_last s) (c_skip s) lw nr (h_nr_running s) (c_min_vruntime s)
    rlw (rq_nr_running s) tasks (clock_task s) (need_resched s) (tun s).
Definition set_min (s : cfs_rq) (v : Z) : cfs_rq :=
  mk_cfs (tl_mem s) (tl_root s) (tl_leftmost s) (ent s) (c_curr s) (c_next s) (c_last s) (c_skip s) (c_load s) (nr_running s) (h_nr_running s) v
    (rq_load s) (rq_nr_running s) (cfs_tasks s) (clock_task s) (need_resched s) (tun s).
Definition set_counts (s : cfs_rq) (h rn : Z) : cfs_rq :=
  mk_cfs (tl_mem s) (tl_root s) (tl_leftmost s) (ent s) (c_curr s) (c_next s) (c_last s) (c_skip s) (c_load s) (nr_running s) h (c_min_vruntime s)
    (rq_load s) rn (cfs_tasks s) (clock_task s) (need_resched s) (tun s).
Definition set_load (s : cfs_rq) (lw : load_weight) : cfs_rq := set_accounts s lw (nr_running s) (rq_load s) (cfs_tasks s).
Definition resched_curr (s : cfs_rq) : cfs_rq :=
  mk_cfs (tl_mem s) (tl_root s) (tl_leftmost s) (ent s) (c_curr s) (c_next s) (c_last s) (c_skip s) (c_load s) (nr_running s) (h_nr_running s)
    (c_min_vruntime s) (rq_load s) (rq_nr_running s) (cfs_tasks s) (clock_task s) true (tun s).
(** update_rq_clock(): time goes on. *)
Definition set_clock (s : cfs_rq) (now : Z) : cfs_rq :=
  mk_cfs (tl_mem s) (tl_root s) (tl_leftmost s) (ent s) (c_curr s) (c_next s) (c_last s) (c_skip s) (c_load s) (nr_running s) (h_nr_running s)
    (c_min_vruntime s) (rq_load s) (rq_nr_running s) (cfs_tasks s) now (need_resched s) (tun s).

Definition with_vruntime (e : sched_entity) (v : Z) : sched_entity :=
  mk_se (se_load e) (on_rq e) (exec_start e) (sum_exec_runtime e) v (prev_sum_exec_runtime e).
Definition with_load (e : sched_entity) (lw : load_weight) : sched_entity :=
  mk_se lw (on_rq e) (exec_start e) (sum_exec_runtime e) (vruntime e) (prev_sum_exec_runtime e).
Definition with_on_rq (e : sched_entity) (b : bool) : sched_entity :=
  mk_se (se_load e) b (exec_start e) (sum_exec_runtime e) (vruntime e) (prev_sum_exec_runtime e).

(** init_cfs_rq() on the zeroed structure. *)
Definition init_cfs_rq (m : rbmem) (ents : Z -> sched_entity) (now : Z) (t : tunables) : cfs_rq :=
  mk_cfs m 0 0 ents 0 0 0 0 (mk_lw 0 0) 0 0 (u64 (- (2 ^ 20))) (mk_lw 0 0) 0 [] now false t.

(** ** The timeline *)

Definition entity_before (a b : sched_entity) : bool := s64 (vruntime a - vruntime b) <? 0.

Definition update_min_vruntime (s : cfs_rq) : cfs_rq :=
  let curr := c_curr s in
  let vr := c_min_vruntime s in
  let '(curr, vr) :=
    if negb (curr =? 0) then (if on_rq (ent s curr) then (curr, vruntime (ent s curr)) else (0, vr)) else (curr, vr) in
  let lft := tl_leftmost s in
  let vr :=
    if negb (lft =? 0) then (if curr =? 0 then vruntime (ent s lft) else min_vruntime vr (vruntime (ent s lft))) else vr in
  set_min s (max_vruntime (c_min_vruntime s) vr).

Definition tl_go (s : cfs_rq) (se : Z) : Z -> outcome side :=
  fun entry => Ret (if entity_before (ent s se) (ent s entry) then L else R).
Definition __enqueue_entity (s : cfs_rq) (se : Z) : outcome cfs_rq :=
  let! (m, root, lft) := rb_add_cached (tl_go s se) (tl_mem s) (tl_root s) (tl_leftmost s) se in
  Ret (set_timeline s m root lft).
Definition __dequeue_entity (s : cfs_rq) (se : Z) : outcome cfs_rq :=
  let! (m, root, lft) := rb_erase_cached (tl_mem s) (tl_root s) (tl_leftmost s) se in
  Ret (set_timeline s m root lft).
Definition __pick_first_entity (s : cfs_rq) : Z := tl_leftmost s.
Definition __pick_next_entity (s : cfs_rq) (se : Z) : outcome Z := rb_next (tl_mem s) se.

(** ** The running entity *)

Definition update_curr (s : cfs_rq) : cfs_rq :=
  let curr := c_curr s in
  if curr =? 0 then s
  else
    let e := ent s curr in
    let delta_exec := u64 (clock_task s - exec_start e) in
    if s64 delta_exec <=? 0 then s
    else
      let '(d, lw) := calc_delta_fair delta_exec (se_load e) in
      let e := mk_se lw (on_rq e) (clock_task s) (u64 (sum_exec_runtime e + delta_exec)) (u64 (vruntime e + d)) (prev_sum_exec_runtime e) in
      update_min_vruntime (set_ent s curr e).

(** The period shared by the queued tasks, and the slice of [se] out of it. *)
Definition sched_slice (s : cfs_rq) (se : Z) : Z * cfs_rq :=
  let e := ent s se in
  let slice := __sched_period (tun s) (u32 (nr_running s + (if on_rq e then 0 else 1))) in
  if negb (on_rq e) then
    let lw := update_load_add (c_load s) (lw_weight (se_load e)) in
    (fst (__calc_delta slice (lw_weight (se_load e)) lw), s)
  else
    let '(slice, lw) := __calc_delta slice (lw_weight (se_load e)) (c_load s) in
    (slice, set_load s lw).
Definition sched_vslice (s : cfs_rq) (se : Z) : Z * cfs_rq :=
  let '(slice, s) := sched_slice s se in
  let '(v, lw) := calc_delta_fair slice (se_load (ent s se)) in
  (v, set_ent s se (with_load (ent s se) lw)).

Definition place_entity (s : cfs_rq) (se : Z) (initial : bool) : cfs_rq :=
  let vr := c_min_vruntime s in
  let '(vr, s) := if initial then (let '(v, s) := sched_vslice s se in (u64 (vr + v), s)) else (vr, s) in
  let vr := if negb initial then u64 (vr - Z.shiftr (sched_latency (tun s)) 1) else vr in
  set_ent s se (with_vruntime (ent s se) (max_vruntime (vruntime (ent s se)) vr)).

(** ** Queueing *)

Definition account_entity_enqueue (s : cfs_rq) (se : Z) : cfs_rq :=
  let w := lw_weight (se_load (ent s se)) in
  set_accounts s (update_load_add (c_load s) w) (u32 (nr_running s + 1)) (update_load_add (rq_load s) w) (se :: cfs_tasks s).
Definition account_entity_dequeue (s : cfs_rq) (se : Z) : cfs_rq :=
  let w := lw_weight (se_load (ent s se)) in
  set_accounts s (update_load_sub (c_load s) w) (u32 (nr_running s - 1)) (update_load_sub (rq_load s) w)
    (filter (fun y => y <> se) (cfs_tasks s)).

Definition ENQUEUE_WAKEUP : Z := 1.
Definition ENQUEUE_MIGRATED : Z := 64.
Definition DEQUEUE_SLEEP : Z := 1.
Definition DEQUEUE_SAVE : Z := 2.
Definition DEQUEUE_MOVE : Z := 4.
Definition has (flags f : Z) : bool := negb (Z.land flags f =? 0).

Definition renormalise (s : cfs_rq) (se : Z) : cfs_rq :=
  set_ent s se (with_vruntime (ent s se) (u64 (vruntime (ent s se) + c_min_vruntime s))).

(** enqueue_entity() up to the insertion into the timeline. *)
Definition enqueue_prepare (s : cfs_rq) (se flags : Z) : cfs_rq :=
  let renorm := negb (has flags ENQUEUE_WAKEUP) || has flags ENQUEUE_MIGRATED in
  let curr := c_curr s =? se in
  let s := if renorm && curr then renormalise s se else s in
  let s := update_curr s in
  let s := if renorm && negb curr then renormalise s se else s in
  let s := account_entity_enqueue s se in
  if has flags ENQUEUE_WAKEUP then place_entity s se false else s.
Definition enqueue_entity (s : cfs_rq) (se flags : Z) : outcome cfs_rq :=
  let curr := c_curr s =? se in
  let s := enqueue_prepare s se flags in
  let! s := if negb curr then __enqueue_entity s se else Ret s in
  Ret (set_ent s se (with_on_rq (ent s se) true)).

Definition clear_buddies (s : cfs_rq) (se : Z) : cfs_rq :=
  set_buddies s (if c_next s =? se then 0 else c_next s) (if c_last s =? se then 0 else c_last s) (if c_skip s =? se then 0 else c_skip s).

Definition dequeue_entity (s : cfs_rq) (se flags : Z) : outcome cfs_rq :=
  let s := update_curr s in
  let s := clear_buddies s se in
  let! s := if negb (se =? c_curr s) then __dequeue_entity s se else Ret s in
  let s := set_ent s se (with_on_rq (ent s se) false) in
  let s := account_entity_dequeue s se in
  let s := if negb (has flags DEQUEUE_SLEEP) then
      set_ent s se (with_vruntime (ent s se) (u64 (vruntime (ent s se) - c_min_vruntime s))) else s in
  Ret (if negb (Z.land flags (Z.lor DEQUEUE_SAVE DEQUEUE_MOVE) =? DEQUEUE_SAVE) then update_min_vruntime s else s).

(** ** Choosing who runs *)

Definition set_next_entity (s : cfs_rq) (se : Z) : outcome cfs_rq :=
  let! _ := deref se tt in
  let! s := if on_rq (ent s se) then __dequeue_entity s se else Ret s in
  let e := ent s se in
  let s := set_ent s se (mk_se (se_load e) (on_rq e) (clock_task s) (sum_exec_runtime e) (vruntime e) (prev_sum_exec_runtime e)) in
  let s := set_curr s se in
  let e := ent s se in
  Ret (set_ent s se (mk_se (se_load e) (on_rq e) (exec_start e) (sum_exec_runtime e) (vruntime e) (sum_exec_runtime e))).

Definition put_prev_entity (s : cfs_rq) (prev : Z) : outcome cfs_rq :=
  let s := if on_rq (ent s prev) then update_curr s else s in
  let! s := if on_rq (ent s prev) then __enqueue_entity s prev else Ret s in
  Ret (set_curr s 0).

Definition wakeup_gran (s : cfs_rq) (se : Z) : Z * cfs_rq :=
  let '(g, lw) := calc_delta_fair (sched_wakeup_granularity (tun s)) (se_load (ent s se)) in
  (g, set_ent s se (with_load (ent s se) lw)).
(** Should [se] preempt [curr]: -1, 0 or 1. *)
Definition wakeup_preempt_entity (s : cfs_rq) (curr se : Z) : Z * cfs_rq :=
  let vdiff := s64 (vruntime (ent s curr) - vruntime (ent s se)) in
  if vdiff <=? 0 then (-1, s)
  else
    let '(g, s) := wakeup_gran s se in
    (if vdiff >? s64 g then 1 else 0, s).

(** [x] instead of [se] if it is set and not too far behind [lft]. *)
Definition prefer (s : cfs_rq) (x lft se : Z) : Z * cfs_rq :=
  if negb (x =? 0) then
    let '(w, s) := wakeup_preempt_entity s x lft in
    (if w <? 1 then x else se, s)
  else (se, s).
Definition pick_next_entity (s : cfs_rq) (curr : Z) : outcome (Z * cfs_rq) :=
  let lft := __pick_first_entity s in
  let lft := if (lft =? 0) || (negb (curr =? 0) && entity_before (ent s curr) (ent s lft)) then curr else lft in
  let se := lft in
  let! (se, s) :=
    if c_skip s =? se then
      let! second :=
        if se =? curr then Ret (__pick_first_entity s)
        else
          let! second := __pick_next_entity s se in
          Ret (if (second =? 0) || (negb (curr =? 0) && entity_before (ent s curr) (ent s second)) then curr else second) in
      Ret (prefer s second lft se)
    else Ret (se, s) in
  let '(se, s) := prefer s (c_last s) lft se in
  let '(se, s) := prefer s (c_next s) lft se in
  Ret (se, clear_buddies s se).

Definition check_preempt_tick (s : cfs_rq) (curr : Z) : outcome cfs_rq :=
  let '(ideal_runtime, s) := sched_slice s curr in
  let e := ent s curr in
  let delta_exec := u64 (sum_exec_runtime e - prev_sum_exec_runtime e) in
  if delta_exec >? ideal_runtime then Ret (clear_buddies (resched_curr s) curr)
  else if delta_exec <? sched_min_granularity (tun s) then Ret s
  else
    let se := __pick_first_entity s in
    let! _ := deref se tt in
    let delta := s64 (vruntime e - vruntime (ent s se)) in
    if delta <? 0 then Ret s
    else if u64 delta >? ideal_runtime then Ret (resched_curr s) else Ret s.
Definition entity_tick (s : cfs_rq) (curr : Z) : outcome cfs_rq :=
  let s := update_curr s in
  if nr_running s >? 1 then check_preempt_tick s curr else Ret s.

(** ** The methods of the class *)

(** [se->on_rq] breaks out of the first loop; the second then only counts. *)
Definition enqueue_task_fair (s : cfs_rq) (p flags : Z) : outcome cfs_rq :=
  let! s := if on_rq (ent s p) then Ret s else enqueue_entity s p flags in
  Ret (set_counts s (u32 (h_nr_running s + 1)) (u32 (rq_nr_running s + 1))).
Definition dequeue_task_fair (s : cfs_rq) (p flags : Z) : outcome cfs_rq :=
  let! s := dequeue_entity s p flags in
  Ret (set_counts s (u32 (h_nr_running s - 1)) (u32 (rq_nr_running s - 1))).
Definition put_prev_task_fair (s : cfs_rq) (prev : Z) : outcome cfs_rq := put_prev_entity s prev.

(** With tasks on the queue: [prev] is put back if it is of this class.  What
    idle_balance() does on an empty queue is not part of the model: 0. *)
Definition pick_next_task_fair (s : cfs_rq) (prev : option Z) : outcome (Z * cfs_rq) :=
  if nr_running s =? 0 then Ret (0, s)
  else
    let! s := match prev with Some p => put_prev_task_fair s p | None => Ret s end in
    let! (se, s) := pick_next_entity s 0 in
    let! s := set_next_entity s se in
    Ret (se, set_accounts s (c_load s) (nr_running s) (rq_load s) (se :: filter (fun y => y <> se) (cfs_tasks s))).

Definition task_tick_fair (s : cfs_rq) (curr : Z) : outcome cfs_rq := entity_tick s curr.

(** A batch task yields without accounting; [now] is the updated clock. *)
Definition yield_task_fair (s : cfs_rq) (curr : Z) (batch : bool) (now : Z) : cfs_rq :=
  if rq_nr_running s =? 1 then s
  else
    let s := clear_buddies s curr in
    let s := if negb batch then update_curr (set_clock s now) else s in
    set_buddies s (c_next s) (c_last s) curr.
(** set_next_buddy() and set_last_buddy(), for a task without the idle policy;
    a task that is not queued is only warned about. *)
Definition set_next_buddy (s : cfs_rq) (se : Z) (idle_policy : bool) : cfs_rq :=
  if idle_policy then s else if negb (on_rq (ent s se)) then s else set_buddies s se (c_last s) (c_skip s).
Definition set_last_buddy (s : cfs_rq) (se : Z) (idle_policy : bool) : cfs_rq :=
  if idle_policy then s else if negb (on_rq (ent s se)) then s else set_buddies s (c_next s) se (c_skip s).
Definition yield_to_task_fair (s : cfs_rq) (curr p : Z) (p_idle batch : bool) (now : Z) : bool * cfs_rq :=
  if negb (on_rq (ent s p)) then (false, s) else (true, yield_task_fair (set_next_buddy s p p_idle) curr batch now).

(** A woken task [p] while [curr] runs; the policies are those of the two
    tasks, [p_normal] says SCHED_NORMAL.  NEXT_BUDDY is off and LAST_BUDDY and
    WAKEUP_PREEMPTION are on, as in features.h. *)
Definition check_preempt_wakeup (s : cfs_rq) (curr p idle : Z) (curr_idle p_idle p_normal : bool) : cfs_rq :=
  let scale := nr_running s >=? sched_nr_latency in
  if curr =? p then s
  else if need_resched s then s
  else
    let preempt (s : cfs_rq) :=
      let s := resched_curr s in
      if negb (on_rq (ent s curr)) || (curr =? idle) then s
      else if scale then set_last_buddy s curr curr_idle else s in
    if curr_idle && negb p_idle then preempt s
    else if negb p_normal then s
    else
      let s := update_curr s in
      let '(w, s) := wakeup_preempt_entity s curr p in
      if w =? 1 then preempt (set_next_buddy s p p_idle) else s.

(** The virtual time of a new task [se], relative to the queue's. *)
Definition task_fork_fair (s : cfs_rq) (se now : Z) (child_runs_first : bool) : cfs_rq :=
  let s := set_clock s now in
  let curr := c_curr s in
  let s := if negb (curr =? 0) then
      (let s := update_curr s in set_ent s se (with_vruntime (ent s se) (vruntime (ent s curr)))) else s in
  let s := place_entity s se true in
  let s := if child_runs_first && negb (curr =? 0) && entity_before (ent s curr) (ent s se) then
      (let vc := vruntime (ent s curr) in
       let vs := vruntime (ent s se) in
       resched_curr (set_ent (set_ent s curr (with_vruntime (ent s curr) vs)) se (with_vruntime (ent s se) vc))) else s in
  set_ent s se (with_vruntime (ent s se) (u64 (vruntime (ent s se) - c_min_vruntime s))).

(** A new weight for an entity on or off the queue. *)
Definition reweight_entity (s : cfs_rq) (se weight : Z) : cfs_rq :=
  let s := if on_rq (ent s se) then
      (let s := if c_curr s =? se then update_curr s else s in account_entity_dequeue s se) else s in
  let s := set_ent s se (with_load (ent s se) (update_load_set (se_load (ent s se)) weight)) in
  if on_rq (ent s se) then account_entity_enqueue s se else s.
Definition reweight_task (s : cfs_rq) (se : Z) (prio : nat) : cfs_rq :=
  let s := reweight_entity s se (scale_load (nth prio sched_prio_to_weight 0)) in
  set_ent s se (with_load (ent s se) (mk_lw (lw_weight (se_load (ent s se))) (nth prio sched_prio_to_wmult 0))).
