(* ===== verification/FairSpec.v ===== *)
(** * The fair run queue: invariant and operations

    The timeline is the list of queued tasks in order of virtual time, the
    running task apart; counts, weights and the list of tasks agree with it.
    Virtual times wrap around: the order is that of signed differences, which
    makes sense while the queued tasks are within 2^62 of some common time
    ([spread]). *)

From S2P Require Import Prelude Bitops Rbtree RbtreeSpec RbSet FairMath Fair.
From stdpp Require Import base list numbers option sorting.
#[local] Open Scope Z_scope.
#[local] Open Scope kernel_scope.

(** ** Signed differences *)

Definition near (b v : Z) : Prop := - 2 ^ 62 <= s64 (v - b) < 2 ^ 62.

Lemma s64_rep x : exists k, s64 x = x + k * 2 ^ 64.
Proof.
  exists (- ((x + 2 ^ 63) / 2 ^ 64)). unfold s64. pose proof (Z.div_mod (x + 2 ^ 63) (2 ^ 64) ltac:(lia)). lia.
Qed.
Lemma s64_bounds x : - 2 ^ 63 <= s64 x < 2 ^ 63.
Proof. unfold s64. pose proof (Z.mod_pos_bound (x + 2 ^ 63) (2 ^ 64) ltac:(lia)). lia. Qed.
Lemma s64_shift x k : s64 (x + k * 2 ^ 64) = s64 x.
Proof. unfold s64. replace (x + k * 2 ^ 64 + 2 ^ 63) with (x + 2 ^ 63 + k * 2 ^ 64) by lia. by rewrite Z.mod_add by lia. Qed.
Lemma near_diff b u v : near b u -> near b v -> s64 (u - v) = s64 (u - b) - s64 (v - b).
Proof.
  unfold near. intros Hu Hv. destruct (s64_rep (u - b)) as [k1 E1]. destruct (s64_rep (v - b)) as [k2 E2].
  rewrite <- (s64_id (s64 (u - b) - s64 (v - b))) by lia. rewrite E1, E2.
  replace (u - b + k1 * 2 ^ 64 - (v - b + k2 * 2 ^ 64)) with (u - v + (k1 - k2) * 2 ^ 64) by lia. by rewrite s64_shift.
Qed.

(** ** The invariant *)

Definition vrt (s : cfs_rq) (x : Z) : Z := vruntime (ent s x).
Definition wgt (s : cfs_rq) (x : Z) : Z := lw_weight (se_load (ent s x)).
Definition spread (s : cfs_rq) (xs : list Z) : Prop := exists b, forall x, x ∈ xs -> near b (vrt s x).
(** [y] is not before [x]. *)
Definition no_later (s : cfs_rq) (x y : Z) : Prop := entity_before (ent s y) (ent s x) = false.

Record timeline_ok (s : cfs_rq) (l : list Z) : Prop := {
  to_tree : rbtree (tl_mem s) (tl_root s) l;
  to_left : tl_leftmost s = hd0 l;
  to_sorted : StronglySorted (no_later s) l;
  to_spread : spread s l;
}.

(** The running task is queued too, unless it has left. *)
Definition queued (s : cfs_rq) (l : list Z) : list Z :=
  if negb (c_curr s =? 0) && on_rq (ent s (c_curr s)) then c_curr s :: l else l.

Record accounts_ok (s : cfs_rq) (q : list Z) : Prop := {
  ao_nr : nr_running s = u32 (Z.of_nat (length q));
  ao_load : lw_weight (c_load s) = u64 (sum_of (wgt s <$> q));
  ao_rq : lw_weight (rq_load s) = lw_weight (c_load s);
  ao_tasks : cfs_tasks s ≡ₚ q;
}.
Definition buddies_ok (s : cfs_rq) (q : list Z) : Prop := forall b, b ∈ [c_next s; c_last s; c_skip s] -> b = 0 \/ b ∈ q.

Record cfs_ok (s : cfs_rq) (l : list Z) : Prop := {
  co_tl : timeline_ok s l;
  co_on : forall x, x ∈ l -> on_rq (ent s x) = true;
  co_curr : c_curr s ∉ l;
  co_acc : accounts_ok s (queued s l);
  co_bud : buddies_ok s (queued s l);
}.

Lemma sum_of_perm l l' : l ≡ₚ l' -> sum_of l = sum_of l'.
Proof. unfold sum_of. induction 1; cbn in *; lia. Qed.
Lemma accounts_perm s q q' : accounts_ok s q -> q ≡ₚ q' -> accounts_ok s q'.
Proof.
  intros [H1 H2 Hr H3] Hp. split; try done.
  - by rewrite <- Hp.
  - rewrite H2. f_equal. apply sum_of_perm. by rewrite Hp.
  - by rewrite H3.
Qed.
Lemma buddies_incl s q q' : buddies_ok s q -> (forall x, x ∈ q -> x ∈ q') -> buddies_ok s q'.
Proof. intros Hb Hi b Hin. destruct (Hb b Hin); auto. Qed.

(** ** What does not disturb the queue *)

(** [s'] has the same timeline and accounts; virtual times may differ only
    outside of [l]. *)
Record keeps (l : list Z) (s s' : cfs_rq) : Prop := {
  ke_mem : tl_mem s' = tl_mem s;
  ke_root : tl_root s' = tl_root s;
  ke_left : tl_leftmost s' = tl_leftmost s;
  ke_curr : c_curr s' = c_curr s;
  ke_next : c_next s' = c_next s;
  ke_last : c_last s' = c_last s;
  ke_skip : c_skip s' = c_skip s;
  ke_nr : nr_running s' = nr_running s;
  ke_load : lw_weight (c_load s') = lw_weight (c_load s);
  ke_rq : lw_weight (rq_load s') = lw_weight (rq_load s);
  ke_tasks : cfs_tasks s' = cfs_tasks s;
  ke_tun : tun s' = tun s;
  ke_on : forall x, on_rq (ent s' x) = on_rq (ent s x);
  ke_wgt : forall x, wgt s' x = wgt s x;
  ke_vrt : forall x, x ∈ l -> vrt s' x = vrt s x;
}.

Lemma keeps_refl l s : keeps l s s.
Proof. by split. Qed.
Lemma keeps_trans l s1 s2 s3 : keeps l s1 s2 -> keeps l s2 s3 -> keeps l s1 s3.
Proof.
  intros K1 K2. split; intros; try (etransitivity; [by apply K2|by apply K1]).
Qed.
Lemma keeps_queued l l' s s' : keeps l s s' -> queued s' l' = queued s l'.
Proof. intros K. unfold queued. by rewrite (ke_curr _ _ _ K), (ke_on _ _ _ K). Qed.

Lemma timeline_keeps l s s' : timeline_ok s l -> keeps l s s' -> timeline_ok s' l.
Proof.
  intros [Ht Hl Hs [b Hb]] K. split.
  - by rewrite (ke_mem _ _ _ K), (ke_root _ _ _ K).
  - by rewrite (ke_left _ _ _ K).
  - eapply sorted_same; [exact Hs|]. unfold no_later, entity_before. intros x y Hx Hy. pose proof (ke_vrt _ _ _ K x Hx) as E1. pose proof (ke_vrt _ _ _ K y Hy) as E2.
    unfold vrt in *. by rewrite E1, E2.
  - exists b. intros x Hx. rewrite (ke_vrt _ _ _ K x Hx). by apply Hb.
Qed.
Lemma accounts_keeps l s s' q : accounts_ok s q -> keeps l s s' -> accounts_ok s' q.
Proof.
  intros [H1 H2 Hr H3] K. split.
  - by rewrite (ke_nr _ _ _ K).
  - rewrite (ke_load _ _ _ K), H2. do 2 f_equal. apply list_fmap_ext. intros i x _. symmetry. apply (ke_wgt _ _ _ K).
  - by rewrite (ke_rq _ _ _ K), (ke_load _ _ _ K).
  - by rewrite (ke_tasks _ _ _ K).
Qed.
Lemma buddies_keeps l s s' q : buddies_ok s q -> keeps l s s' -> buddies_ok s' q.
Proof. intros Hb K b. rewrite (ke_next _ _ _ K), (ke_last _ _ _ K), (ke_skip _ _ _ K). apply Hb. Qed.
Lemma cfs_keeps l s s' : cfs_ok s l -> keeps l s s' -> cfs_ok s' l.
Proof.
  intros [H1 H2 H3 H4 H5] K. split.
  - by apply (timeline_keeps l s).
  - intros x Hx. rewrite (ke_on _ _ _ K). by apply H2.
  - by rewrite (ke_curr _ _ _ K).
  - rewrite (keeps_queued l l s s' K). by apply (accounts_keeps l s).
  - rewrite (keeps_queued l l s s' K). by apply (buddies_keeps l s).
Qed.

(** ** Operations that keep it *)

Lemma ent_set s x e y : ent (set_ent s x e) y = if y =? x then e else ent s y.
Proof. done. Qed.

(** A store to an entity that keeps its weight and whether it is queued. *)
Lemma keeps_set_ent l s x e : on_rq e = on_rq (ent s x) -> lw_weight (se_load e) = wgt s x -> (x ∈ l -> vruntime e = vrt s x) -> keeps l s (set_ent s x e).
Proof.
  intros H1 H2 H3. split; try done; unfold wgt, vrt in *; intros y; rewrite ent_set; destruct (Z.eqb_spec y x) as [->|]; auto.
Qed.
Lemma keeps_set_min l s v : keeps l s (set_min s v).
Proof. by split. Qed.
Lemma keeps_set_load l s lw : lw_weight lw = lw_weight (c_load s) -> keeps l s (set_load s lw).
Proof. by split. Qed.
Lemma keeps_resched l s : keeps l s (resched_curr s).
Proof. by split. Qed.
Lemma keeps_clock l s now : keeps l s (set_clock s now).
Proof. by split. Qed.
Lemma keeps_counts l s h r : keeps l s (set_counts s h r).
Proof. by split. Qed.

Lemma update_inv_weight lw : lw_weight (__update_inv_weight lw) = lw_weight lw.
Proof. unfold __update_inv_weight. by destruct (negb _). Qed.
Lemma calc_delta_weight d w lw : lw_weight (snd (__calc_delta d w lw)) = lw_weight lw.
Proof.
  unfold __calc_delta, calc_factor. destruct (shrink 64 (scale_load_down w) WMULT_SHIFT) as [f sh]. destruct (shrink 64 _ sh) as [f' sh']. cbn. apply update_inv_weight.
Qed.
Lemma calc_fair_weight d lw : lw_weight (snd (calc_delta_fair d lw)) = lw_weight lw.
Proof. unfold calc_delta_fair. destruct (negb _); [apply calc_delta_weight|done]. Qed.

Lemma update_min_keeps l s : keeps l s (update_min_vruntime s).
Proof.
  unfold update_min_vruntime. destruct (if negb (c_curr s =? 0) then _ else _) as [c v]. apply keeps_set_min.
Qed.
Lemma update_curr_keeps l s : c_curr s ∉ l -> keeps l s (update_curr s).
Proof.
  intros Hc. unfold update_curr. destruct (c_curr s =? 0); [apply keeps_refl|]. destruct (s64 _ <=? 0); [apply keeps_refl|].
  pose proof (calc_fair_weight (u64 (clock_task s - exec_start (ent s (c_curr s)))) (se_load (ent s (c_curr s)))) as Hw.
  destruct (calc_delta_fair _ _) as [d lw]. cbn [snd] in Hw. eapply keeps_trans; [|apply update_min_keeps]. by apply keeps_set_ent.
Qed.
Lemma slice_keeps l s x : keeps l s (snd (sched_slice s x)).
Proof.
  unfold sched_slice. set (sl := __sched_period _ _). destruct (negb (on_rq (ent s x))); [apply keeps_refl|].
  pose proof (calc_delta_weight sl (lw_weight (se_load (ent s x))) (c_load s)) as Hw. destruct (__calc_delta _ _ _) as [v lw]. by apply keeps_set_load.
Qed.
Lemma vslice_keeps l s x : keeps l s (snd (sched_vslice s x)).
Proof.
  unfold sched_vslice. pose proof (slice_keeps l s x) as K. destruct (sched_slice s x) as [v s1]. cbn [snd] in K.
  pose proof (calc_fair_weight v (se_load (ent s1 x))) as Hw. destruct (calc_delta_fair _ _) as [d lw]. cbn [snd] in *.
  eapply keeps_trans; [exact K|]. by apply keeps_set_ent.
Qed.
Lemma place_keeps l s x b : x ∉ l -> keeps l s (place_entity s x b).
Proof.
  intros Hx. unfold place_entity. destruct b.
  - pose proof (vslice_keeps l s x) as K. destruct (sched_vslice s x) as [v s1]. cbn [snd] in K. eapply keeps_trans; [exact K|]. by apply keeps_set_ent.
  - by apply keeps_set_ent.
Qed.
Lemma gran_keeps l s x : keeps l s (snd (wakeup_gran s x)).
Proof.
  unfold wakeup_gran. pose proof (calc_fair_weight (sched_wakeup_granularity (tun s)) (se_load (ent s x))) as Hw. destruct (calc_delta_fair _ _) as [g lw]. by apply keeps_set_ent.
Qed.
Lemma preempt_keeps l s c x : keeps l s (snd (wakeup_preempt_entity s c x)).
Proof.
  unfold wakeup_preempt_entity. destruct (s64 _ <=? 0); [apply keeps_refl|]. pose proof (gran_keeps l s x) as K. by destruct (wakeup_gran s x).
Qed.
Lemma prefer_keeps l s x lft se : keeps l s (snd (prefer s x lft se)).
Proof.
  unfold prefer. destruct (negb _); [|apply keeps_refl]. pose proof (preempt_keeps l s x lft) as K. by destruct (wakeup_preempt_entity s x lft).
Qed.

(** ** The timeline *)

(** Virtual time relative to a common base orders the tasks. *)
Lemma entity_before_key b s x y : near b (vrt s x) -> near b (vrt s y) -> entity_before (ent s x) (ent s y) = (s64 (vrt s x - b) <? s64 (vrt s y - b)).
Proof.
  intros Hx Hy. unfold entity_before. change (vruntime (ent s ?z)) with (vrt s z). rewrite (near_diff b) by done.
  destruct (Z.ltb_spec (s64 (vrt s x - b) - s64 (vrt s y - b)) 0); destruct (Z.ltb_spec (s64 (vrt s x - b)) (s64 (vrt s y - b))); lia || done.
Qed.

(** The tasks that are not later than [x], then those that are. *)
Lemma timeline_split s l x : StronglySorted (no_later s) l -> spread s (x :: l) ->
  exists l1 l2, l = l1 ++ l2 /\ (forall y, y ∈ l1 -> entity_before (ent s x) (ent s y) = false) /\ (forall y, y ∈ l2 -> entity_before (ent s x) (ent s y) = true).
Proof.
  intros Hs [b Hb]. assert (Hx : near b (vrt s x)) by (apply Hb; left). assert (Hl : forall y, y ∈ l -> near b (vrt s y)) by (intros; apply Hb; by right). clear Hb.
  induction Hs as [|y l Hs IH Hy]; [by exists [], []; split_and!; [done|intros ? ?%not_elem_of_nil..]|].
  destruct (entity_before (ent s x) (ent s y)) eqn:Eb.
  - exists [], (y :: l). split_and!; [done|by intros ? ?%not_elem_of_nil|]. intros z [->|Hz]%elem_of_cons; [done|]. rewrite list.Forall_forall in Hy. specialize (Hy z Hz).
    unfold no_later in Hy. rewrite (entity_before_key b) in * by (done || apply Hl; (by left) || (by right)). rewrite Z.ltb_lt, Z.ltb_ge in *. lia.
  - destruct IH as (l1 & l2 & -> & H1 & H2); [intros; apply Hl; by right|]. exists (y :: l1), l2. split_and!; [done| |done].
    intros z [->|Hz]%elem_of_cons; [done|by apply H1].
Qed.

Lemma enqueue_timeline s l x : timeline_ok s l -> good x -> x ∉ l -> spread s (x :: l) ->
  exists m r l1 l2, l = l1 ++ l2 /\ __enqueue_entity s x = Ret (set_timeline s m r (hd0 (l1 ++ x :: l2)))
    /\ timeline_ok (set_timeline s m r (hd0 (l1 ++ x :: l2))) (l1 ++ x :: l2)
    /\ (forall y, y ∈ l1 -> entity_before (ent s x) (ent s y) = false) /\ (forall y, y ∈ l2 -> entity_before (ent s x) (ent s y) = true).
Proof.
  intros [Ht Hl Hs Hsp] G Hx Hn. destruct (timeline_split s l x Hs Hn) as (l1 & l2 & -> & H1 & H2).
  destruct (rb_add_cached_list (tl_mem s) (tl_root s) l1 l2 (tl_go s x) x Ht) as (m & r & E & R1 & _); try done.
  - intros y Hy. unfold tl_go. by rewrite (H1 y Hy).
  - intros y Hy. unfold tl_go. by rewrite (H2 y Hy).
  - exists m, r, l1, l2. unfold __enqueue_entity. rewrite Hl, E. cbn [obind]. split_and!; try done. destruct Hn as [b Hb]. split; try done.
    + apply sorted_put.
      * exact Hs.
      * exact H1.
      * intros y Hy. unfold no_later. specialize (H2 y Hy). change (ent (set_timeline s m r (hd0 (l1 ++ x :: l2)))) with (ent s).
        assert (Nx : near b (vrt s x)) by (apply Hb; left). assert (Ny : near b (vrt s y)) by (apply Hb; right; apply elem_of_app; by right).
        rewrite (entity_before_key b) in * by done. rewrite Z.ltb_lt, Z.ltb_ge in *. lia.
    + exists b. intros y Hy. apply Hb. rewrite elem_of_app, !elem_of_cons, elem_of_app in *. tauto.
Qed.

Lemma dequeue_timeline s l1 x l2 : timeline_ok s (l1 ++ x :: l2) ->
  exists m r, __dequeue_entity s x = Ret (set_timeline s m r (hd0 (l1 ++ l2))) /\ timeline_ok (set_timeline s m r (hd0 (l1 ++ l2))) (l1 ++ l2).
Proof.
  intros [Ht Hl Hs [b Hb]]. destruct (rb_erase_cached_list (tl_mem s) (tl_root s) l1 x l2 Ht) as (m & r & E & R1 & _). exists m, r. unfold __dequeue_entity. rewrite Hl, E.
  split; [done|]. split; try done; [by apply sorted_remove in Hs|]. exists b. intros y Hy. apply Hb. rewrite elem_of_app, elem_of_cons in *. tauto.
Qed.

(** * The fair run queue: queueing, dequeueing, switching *)

(** ** Accounts *)

Lemma u32_add_l x y : u32 (u32 x + y) = u32 (x + y).
Proof. unfold u32. by rewrite Zplus_mod_idemp_l. Qed.

Lemma accounts_same s s' q : accounts_ok s q -> nr_running s' = nr_running s -> lw_weight (c_load s') = lw_weight (c_load s) ->
  lw_weight (rq_load s') = lw_weight (rq_load s) -> cfs_tasks s' = cfs_tasks s -> (forall x, wgt s' x = wgt s x) -> accounts_ok s' q.
Proof.
  intros [H1 H2 Hr H3] E1 E2 E4 E3 Ew. split; [by rewrite E1|rewrite E2, H2|by rewrite E4, E2|by rewrite E3]. do 2 f_equal. apply list_fmap_ext. intros i x _. symmetry. apply Ew.
Qed.
Lemma accounts_add s q x : accounts_ok s q -> accounts_ok (account_entity_enqueue s x) (x :: q).
Proof.
  intros [H1 H2 Hr H3]. split.
  - change (nr_running (account_entity_enqueue s x)) with (u32 (nr_running s + 1)). rewrite H1, u32_add_l. f_equal. cbn [length]. lia.
  - change (lw_weight (c_load (account_entity_enqueue s x))) with (u64 (lw_weight (c_load s) + wgt s x)). rewrite H2, u64_add_l. f_equal.
    rewrite fmap_cons. change (sum_of (?a :: ?b)) with (a + sum_of b). change (wgt (account_entity_enqueue s x)) with (wgt s). lia.
  - change (u64 (lw_weight (rq_load s) + wgt s x) = u64 (lw_weight (c_load s) + wgt s x)). by rewrite Hr.
  - cbn. by rewrite H3.
Qed.
Lemma filter_other (x : Z) (q : list Z) : x ∉ q -> filter (fun y => y <> x) q = q.
Proof.
  induction q as [|y q IH]; [done|]. rewrite not_elem_of_cons. intros [Hne Hx]. rewrite filter_cons_True by done. by rewrite (IH Hx).
Qed.
Lemma accounts_sub s q x : accounts_ok s (x :: q) -> x ∉ q -> accounts_ok (account_entity_dequeue s x) q.
Proof.
  intros [H1 H2 Hr H3] Hx. split.
  - change (nr_running (account_entity_dequeue s x)) with (u32 (nr_running s - 1)). rewrite H1. unfold Z.sub. rewrite u32_add_l. f_equal. cbn [length]. lia.
  - change (lw_weight (c_load (account_entity_dequeue s x))) with (u64 (lw_weight (c_load s) - wgt s x)). rewrite H2, u64_sub_l. f_equal.
    rewrite fmap_cons. change (sum_of (?a :: ?b)) with (a + sum_of b). change (wgt (account_entity_dequeue s x)) with (wgt s). lia.
  - change (u64 (lw_weight (rq_load s) - wgt s x) = u64 (lw_weight (c_load s) - wgt s x)). by rewrite Hr.
  - cbn. rewrite H3. rewrite filter_cons_False by (intros ?; done). by rewrite filter_other.
Qed.

Lemma queued_nodup s l : cfs_ok s l -> NoDup (queued s l).
Proof.
  intros [Ht _ Hc _ _]. pose proof (rbtree_nodup _ _ _ (to_tree _ _ Ht)). unfold queued. destruct (_ && _); [by apply list.NoDup_cons|done].
Qed.
Lemma queued_cases s l x : x ∈ queued s l -> x ∈ l \/ x = c_curr s /\ x <> 0 /\ on_rq (ent s x) = true.
Proof.
  unfold queued. destruct (Z.eqb_spec (c_curr s) 0); cbn [negb andb]; [by left|]. destruct (on_rq (ent s (c_curr s))) eqn:E; [|by left].
  intros [->|H]%elem_of_cons; [by right|by left].
Qed.
Lemma in_queued s l x : x ∈ l -> x ∈ queued s l.
Proof. unfold queued. destruct (_ && _); [by right|done]. Qed.

(** ** enqueue_entity() *)

Lemma keeps_account l s x : timeline_ok s l -> timeline_ok (account_entity_enqueue s x) l.
Proof. intros [H1 H2 H3 H4]. by split. Qed.

Lemma renormalise_keeps l s x : x ∉ l -> keeps l s (renormalise s x).
Proof. intros Hx. by apply keeps_set_ent. Qed.

(** What comes before the insertion keeps the timeline and adds the task to the
    accounts. *)
Lemma prepare_ok s l x flags : cfs_ok s l -> x ∉ l -> let s1 := enqueue_prepare s x flags in
  exists s0, keeps l s s0 /\ keeps l (account_entity_enqueue s0 x) s1.
Proof.
  intros Hok Hx s1. unfold s1, enqueue_prepare. set (rn := negb _ || _). set (cu := c_curr s =? x).
  set (sa := if rn && cu then renormalise s x else s). assert (Ka : keeps l s sa) by (unfold sa; destruct (rn && cu); [by apply renormalise_keeps|apply keeps_refl]).
  set (sb := update_curr sa). assert (Kb : keeps l s sb).
  { eapply keeps_trans; [exact Ka|]. apply update_curr_keeps. rewrite (ke_curr _ _ _ Ka). apply (co_curr _ _ Hok). }
  set (sc := if rn && negb cu then renormalise sb x else sb). assert (Kc : keeps l s sc).
  { eapply keeps_trans; [exact Kb|]. unfold sc. destruct (rn && negb cu); [by apply renormalise_keeps|apply keeps_refl]. }
  exists sc. split; [done|]. destruct (has flags ENQUEUE_WAKEUP); [by apply place_keeps|apply keeps_refl].
Qed.

Lemma enqueue_ok s l x flags : cfs_ok s l -> good x -> x ∉ l -> on_rq (ent s x) = false -> spread (enqueue_prepare s x flags) (x :: l) ->
  exists s' l', enqueue_entity s x flags = Ret s' /\ cfs_ok s' l' /\ (if c_curr s =? x then l' = l else l' ≡ₚ x :: l) /\ queued s' l' ≡ₚ x :: queued s l.
Proof.
  intros Hok G Hx Hoff Hsp. destruct (prepare_ok s l x flags Hok Hx) as (s0 & K0 & K1). set (s1 := enqueue_prepare s x flags) in *.
  pose proof (cfs_keeps l s s0 Hok K0) as Hok0. pose proof (keeps_queued l l s s0 K0) as Eq0.
  pose proof (accounts_keeps l _ _ _ (accounts_add s0 _ x (co_acc _ _ Hok0)) K1) as Hacc. rewrite Eq0 in Hacc.
  pose proof (timeline_keeps l _ _ (keeps_account l s0 x (co_tl _ _ Hok0)) K1) as Htl.
  assert (Ec : c_curr s1 = c_curr s) by (rewrite (ke_curr _ _ _ K1); apply (ke_curr _ _ _ K0)).
  assert (Eon : forall y, on_rq (ent s1 y) = on_rq (ent s y)) by (intros y; rewrite (ke_on _ _ _ K1); apply (ke_on _ _ _ K0)).
  assert (Hbud : buddies_ok s1 (queued s l)). { apply (buddies_keeps l (account_entity_enqueue s0 x)); [|done]. rewrite <- Eq0. apply (co_bud _ _ Hok0). }
  pose proof (good_nz x G) as Hnz. unfold enqueue_entity. fold s1.
  (* the state once the task is marked, over a timeline [l'] *)
  assert (Hfin : forall s2 l', timeline_ok s2 l' -> c_curr s2 = c_curr s -> ent s2 = ent s1 -> nr_running s2 = nr_running s1 -> c_load s2 = c_load s1 -> rq_load s2 = rq_load s1 ->
    cfs_tasks s2 = cfs_tasks s1 -> c_next s2 = c_next s1 -> c_last s2 = c_last s1 -> c_skip s2 = c_skip s1 ->
    (if c_curr s =? x then l' = l else l' ≡ₚ x :: l) ->
    let s' := set_ent s2 x (with_on_rq (ent s2 x) true) in cfs_ok s' l' /\ queued s' l' ≡ₚ x :: queued s l).
  { intros s2 l' T2 C2 E2 N2 L2 R2 A2 B1 B2 B3 Hl' s'. assert (Hw : forall y, wgt s' y = wgt s1 y).
    { intros y. unfold wgt, s'. rewrite ent_set, E2. by destruct (Z.eqb_spec y x) as [->|]. }
    assert (Ho : forall y, on_rq (ent s' y) = (if y =? x then true else on_rq (ent s y))).
    { intros y. unfold s'. rewrite ent_set, E2. destruct (Z.eqb_spec y x) as [->|]; [done|]. apply Eon. }
    assert (Hq : queued s' l' ≡ₚ x :: queued s l).
    { unfold queued. change (c_curr s') with (c_curr s2). rewrite C2, Ho. destruct (Z.eqb_spec (c_curr s) x) as [Ecx|Ncx].
      - rewrite Ecx in *. destruct (Z.eqb_spec x 0); [done|]. cbn [negb andb]. by rewrite Hoff, Hl'.
      - destruct (negb (c_curr s =? 0) && on_rq (ent s (c_curr s))); [|done]. rewrite Hl'. apply Permutation_swap. }
    split; [|done]. split.
    - destruct T2 as [H1 H2 H3 H4]. split; try done.
      + eapply sorted_same; [exact H3|]. unfold no_later, entity_before, s'. intros y z _ _. rewrite !ent_set. by destruct (Z.eqb_spec y x) as [->|], (Z.eqb_spec z x) as [->|].
      + destruct H4 as [b Hb]. exists b. intros y Hy. specialize (Hb y Hy). unfold vrt, s' in *. rewrite ent_set. by destruct (Z.eqb_spec y x) as [->|].
    - intros y Hy. rewrite Ho. destruct (Z.eqb_spec y x); [done|]. apply (co_on _ _ Hok). destruct (c_curr s =? x); [by subst l'|].
      rewrite Hl', elem_of_cons in Hy. tauto.
    - change (c_curr s') with (c_curr s2). rewrite C2. pose proof (co_curr _ _ Hok). destruct (Z.eqb_spec (c_curr s) x); [by subst l'|]. rewrite Hl', elem_of_cons. tauto.
    - apply (accounts_perm _ (x :: queued s l)); [|done]. apply (accounts_same s1); try done; [change (c_load s') with (c_load s2); by rewrite L2|change (rq_load s') with (rq_load s2); by rewrite R2].
    - apply (buddies_incl _ (queued s l)); [|intros y Hy; rewrite Hq; by right]. intros b Hb. apply Hbud. revert Hb. cbn. by rewrite B1, B2, B3. }
  destruct (Z.eqb_spec (c_curr s) x) as [Ecx|Ncx]; cbn [negb obind].
  - eexists _, l. split; [reflexivity|]. destruct (Hfin s1 l Htl Ec) as [H1 H2]; try done.
  - destruct (enqueue_timeline s1 l x Htl G Hx Hsp) as (m & r & l1 & l2 & -> & E & T & _). rewrite E. cbn [obind]. eexists _, (l1 ++ x :: l2). split; [reflexivity|].
    assert (Hp : l1 ++ x :: l2 ≡ₚ x :: l1 ++ l2) by (by rewrite Permutation_middle). destruct (Hfin _ (l1 ++ x :: l2) T) as [H1 H2]; try done.
Qed.

(** ** dequeue_entity() *)

Lemma clear_keeps_tl s l x : timeline_ok s l -> timeline_ok (clear_buddies s x) l.
Proof. intros [H1 H2 H3 H4]. by split. Qed.
Lemma clear_buddies_ok s q q' x : buddies_ok s q -> (forall y, y ∈ q -> y <> x -> y ∈ q') -> buddies_ok (clear_buddies s x) q'.
Proof.
  intros Hb Hq b. cbn. rewrite !elem_of_cons. intros Hin. assert (Hor : b = 0 \/ b <> x /\ b ∈ [c_next s; c_last s; c_skip s]).
  { rewrite !elem_of_cons. destruct Hin as [->|[->|[->|Hin]]]; [destruct (Z.eqb_spec (c_next s) x)|destruct (Z.eqb_spec (c_last s) x)|destruct (Z.eqb_spec (c_skip s) x)|by apply not_elem_of_nil in Hin]; tauto. }
  destruct Hor as [->|[Hne Hin']]; [by left|]. destruct (Hb b Hin') as [->|Hbq]; [by left|]. right. by apply Hq.
Qed.

(** A task taken off: not queued, its weight subtracted. *)
Lemma unqueue_ok s l' q x : timeline_ok s l' -> x ∉ l' -> (forall y, y ∈ l' -> on_rq (ent s y) = true) -> c_curr s ∉ l' ->
  accounts_ok s (x :: q) -> x ∉ q -> buddies_ok s q -> let s' := account_entity_dequeue (set_ent s x (with_on_rq (ent s x) false)) x in
  queued s' l' = q -> cfs_ok s' l'.
Proof.
  intros [T1 T2 T3 [b T4]] Hx Hon Hc Ha Hxq Hb s' Hq. set (s1 := set_ent s x (with_on_rq (ent s x) false)).
  assert (Hv : forall y, vruntime (ent s' y) = vruntime (ent s y)) by (intros y; change (ent s') with (ent s1); unfold s1; rewrite ent_set; by destruct (Z.eqb_spec y x) as [->|]).
  split.
  - split; try done.
    + eapply sorted_same; [exact T3|]. unfold no_later, entity_before. intros y z _ _. by rewrite !Hv.
    + exists b. intros y Hy. unfold vrt. rewrite Hv. by apply T4.
  - intros y Hy. change (ent s') with (ent s1). unfold s1. rewrite ent_set. destruct (Z.eqb_spec y x) as [->|]; [done|]. by apply Hon.
  - done.
  - rewrite Hq. apply (accounts_sub s1); [|done]. apply (accounts_same s); try done. intros y. unfold wgt, s1. rewrite ent_set. by destruct (Z.eqb_spec y x) as [->|].
  - by rewrite Hq.
Qed.

Lemma dequeue_tail_keeps l s x flags : x ∉ l ->
  let s1 := if negb (has flags DEQUEUE_SLEEP) then set_ent s x (with_vruntime (ent s x) (u64 (vruntime (ent s x) - c_min_vruntime s))) else s in
  keeps l s (if negb (Z.land flags (Z.lor DEQUEUE_SAVE DEQUEUE_MOVE) =? DEQUEUE_SAVE) then update_min_vruntime s1 else s1).
Proof.
  intros Hx s1. assert (K1 : keeps l s s1) by (unfold s1; destruct (negb (has flags DEQUEUE_SLEEP)); [by apply keeps_set_ent|apply keeps_refl]).
  destruct (negb (Z.land flags _ =? _)); [|exact K1]. eapply keeps_trans; [exact K1|apply update_min_keeps].
Qed.

Lemma dequeue_ok s l x flags : cfs_ok s l -> x ∈ queued s l ->
  exists s' l', dequeue_entity s x flags = Ret s' /\ cfs_ok s' l' /\ (if c_curr s =? x then l' = l else l ≡ₚ x :: l') /\ queued s l ≡ₚ x :: queued s' l'.
Proof.
  intros Hok Hin. pose proof (update_curr_keeps l s (co_curr _ _ Hok)) as Ku. set (s0 := update_curr s) in *. pose proof (cfs_keeps l s s0 Hok Ku) as Hok0.
  pose proof (keeps_queued l l s s0 Ku) as Eq0. rewrite <- Eq0 in *. rewrite <- (ke_curr _ _ _ Ku). pose proof (queued_nodup s0 l Hok0) as Hnd.
  set (s1 := clear_buddies s0 x). unfold dequeue_entity. fold s0. fold s1. change (c_curr s1) with (c_curr s0).
  destruct (queued_cases s0 l x Hin) as [Hl|(Hcx & Hx0 & Hon)].
  - pose proof (co_curr _ _ Hok0) as Hc. assert (Hne : x <> c_curr s0) by congruence. rewrite (proj2 (Z.eqb_neq x (c_curr s0))) by done.
    rewrite (proj2 (Z.eqb_neq (c_curr s0) x)) by done. cbn [negb].
    apply list_elem_of_split in Hl as (l1 & l2 & ->). destruct (dequeue_timeline s1 l1 x l2) as (m & r & E & T2); [by apply clear_keeps_tl, (co_tl _ _ Hok0)|].
    rewrite E. cbn [obind]. set (s2 := set_timeline s1 m r (hd0 (l1 ++ l2))) in *. assert (Hp : l1 ++ x :: l2 ≡ₚ x :: l1 ++ l2) by (by rewrite Permutation_middle).
    assert (Hxl : x ∉ l1 ++ l2). { pose proof (rbtree_nodup _ _ _ (to_tree _ _ (co_tl _ _ Hok0))) as Hd. rewrite Hp in Hd. by apply list.NoDup_cons in Hd as [? _]. }
    assert (Hq : queued s0 (l1 ++ x :: l2) ≡ₚ x :: queued s0 (l1 ++ l2)).
    { unfold queued. destruct (_ && _); [|done]. rewrite Hp. apply Permutation_swap. }
    assert (Hxq : x ∉ queued s0 (l1 ++ l2)) by (rewrite Hq in Hnd; by apply list.NoDup_cons in Hnd as [? _]).
    assert (Eq2 : queued (account_entity_dequeue (set_ent s2 x (with_on_rq (ent s2 x) false)) x) (l1 ++ l2) = queued s0 (l1 ++ l2)).
    { unfold queued. cbn. by rewrite (proj2 (Z.eqb_neq (c_curr s0) x)) by done. }
    pose proof (unqueue_ok s2 (l1 ++ l2) (queued s0 (l1 ++ l2)) x T2 Hxl) as Hu.
    assert (Hok2 : cfs_ok (account_entity_dequeue (set_ent s2 x (with_on_rq (ent s2 x) false)) x) (l1 ++ l2)).
    { apply Hu; [|intros H; apply Hc; cbn in H; rewrite elem_of_app, elem_of_cons in *; tauto| |done| |done].
      - intros y Hy. apply (co_on _ _ Hok0). rewrite elem_of_app, elem_of_cons in *. tauto.
      - apply (accounts_perm _ (queued s0 (l1 ++ x :: l2))); [|done]. by apply (accounts_same s0); [apply (co_acc _ _ Hok0)|..].
      - apply (clear_buddies_ok s0 (queued s0 (l1 ++ x :: l2))); [apply (co_bud _ _ Hok0)|]. intros y. rewrite Hq, elem_of_cons. tauto. }
    pose proof (dequeue_tail_keeps (l1 ++ l2) (account_entity_dequeue (set_ent s2 x (with_on_rq (ent s2 x) false)) x) x flags Hxl) as Kt.
    eexists _, (l1 ++ l2). split; [reflexivity|]. split; [by eapply cfs_keeps; [exact Hok2|]|]. split; [done|]. rewrite (keeps_queued _ _ _ _ Kt), Eq2. done.
  - rewrite Hcx, Z.eqb_refl. rewrite <- Hcx. cbn [negb obind]. pose proof (co_curr _ _ Hok0) as Hc. rewrite <- Hcx in Hc.
    assert (Hq : queued s0 l = x :: l). { unfold queued. rewrite <- Hcx, Hon, (proj2 (Z.eqb_neq x 0)) by done. done. }
    assert (Hok2 : cfs_ok (account_entity_dequeue (set_ent s1 x (with_on_rq (ent s1 x) false)) x) l).
    { apply (unqueue_ok s1 l l x); try done.
      - by apply clear_keeps_tl, (co_tl _ _ Hok0).
      - apply (co_on _ _ Hok0).
      - cbn. by rewrite <- Hcx.
      - rewrite <- Hq. by apply (accounts_same s0); [apply (co_acc _ _ Hok0)|..].
      - apply (clear_buddies_ok s0 (queued s0 l)); [apply (co_bud _ _ Hok0)|]. intros y. rewrite Hq, elem_of_cons. tauto.
      - unfold queued. cbn. rewrite <- Hcx, Z.eqb_refl. cbn. by rewrite andb_false_r. }
    pose proof (dequeue_tail_keeps l (account_entity_dequeue (set_ent s1 x (with_on_rq (ent s1 x) false)) x) x flags Hc) as Kt.
    eexists _, l. split; [reflexivity|]. split; [by eapply cfs_keeps; [exact Hok2|]|]. split; [done|]. rewrite (keeps_queued _ _ _ _ Kt), Hq.
    unfold queued. cbn. rewrite <- Hcx, Z.eqb_refl. cbn. by rewrite andb_false_r.
Qed.

(** * The fair run queue: choosing the next task, ticks *)

(** ** set_next_entity(), put_prev_entity() *)

Lemma timeline_zero s l : timeline_ok s l -> 0 ∉ l.
Proof. intros [Ht _ _ _] H0. by apply (good_nz 0 (rbtree_good _ _ _ _ Ht H0)). Qed.

(** The same tasks with another one running. *)
Lemma switch_ok s s' l l' : cfs_ok s l -> timeline_ok s' l' -> c_curr s' ∉ l' -> queued s' l' ≡ₚ queued s l ->
  (forall x, on_rq (ent s' x) = on_rq (ent s x)) -> (forall x, wgt s' x = wgt s x) -> (forall x, x ∈ l' -> on_rq (ent s x) = true) ->
  nr_running s' = nr_running s -> lw_weight (c_load s') = lw_weight (c_load s) -> lw_weight (rq_load s') = lw_weight (rq_load s) -> cfs_tasks s' ≡ₚ cfs_tasks s ->
  (forall b, b ∈ [c_next s'; c_last s'; c_skip s'] -> b = 0 \/ b ∈ [c_next s; c_last s; c_skip s]) -> cfs_ok s' l'.
Proof.
  intros [T On C [A1 A2 Ar A3] B] T' C' Hq Eo Ew Hon En El Er Et Eb. split; try done.
  - intros x Hx. rewrite Eo. by apply Hon.
  - split.
    + by rewrite En, A1, Hq.
    + rewrite El, A2. f_equal. assert (sum_of (wgt s' <$> queued s' l') = sum_of (wgt s' <$> queued s l)) as -> by (apply sum_of_perm; by rewrite Hq). f_equal. apply list_fmap_ext. intros i x _. symmetry. apply Ew.
    + by rewrite Er, El.
    + by rewrite Et, A3, Hq.
  - intros b Hb. destruct (Eb b Hb) as [->|Hb']; [by left|]. destruct (B b Hb') as [->|Hbq]; [by left|]. right. by rewrite Hq.
Qed.

Lemma set_next_ok s l x : cfs_ok s l -> c_curr s = 0 -> x ∈ l ->
  exists s' l', set_next_entity s x = Ret s' /\ cfs_ok s' l' /\ c_curr s' = x /\ l ≡ₚ x :: l' /\ queued s' l' ≡ₚ queued s l
    /\ tun s' = tun s /\ vrt s' x = vrt s x /\ (forall y, y <> x -> ent s' y = ent s y).
Proof.
  intros Hok Hc Hx. pose proof (rbtree_good _ _ _ x (to_tree _ _ (co_tl _ _ Hok)) Hx) as G. pose proof (good_nz x G) as Hnz.
  unfold set_next_entity. rewrite deref_ok by done. cbn [obind]. rewrite (co_on _ _ Hok x Hx).
  pose proof (rbtree_nodup _ _ _ (to_tree _ _ (co_tl _ _ Hok))) as Hnd. pose proof (co_on _ _ Hok) as Hon. pose proof (co_tl _ _ Hok) as Htl.
  apply list_elem_of_split in Hx as (l1 & l2 & ->). assert (Hp : l1 ++ x :: l2 ≡ₚ x :: l1 ++ l2) by (by rewrite Permutation_middle).
  destruct (dequeue_timeline s l1 x l2 Htl) as (m & r & E & [T1 T2 T3 [b T4]]). rewrite E. cbn [obind]. eexists _, (l1 ++ l2). split; [reflexivity|].
  assert (Hxl : x ∉ l1 ++ l2) by (rewrite Hp in Hnd; by apply list.NoDup_cons in Hnd as [? _]).
  assert (Hv : forall y, vruntime (ent s y) = vruntime (if y =? x then
     {| se_load := se_load (ent s x); on_rq := on_rq (ent s x); exec_start := clock_task s; sum_exec_runtime := sum_exec_runtime (ent s x);
        vruntime := vruntime (ent s x); prev_sum_exec_runtime := sum_exec_runtime (ent s x) |} else ent s y)) by (intros y; by destruct (Z.eqb_spec y x) as [->|]).
  match goal with |- cfs_ok ?s2 _ /\ _ => set (s' := s2) end.
  assert (Hent : forall y, ent s' y = if y =? x then
     {| se_load := se_load (ent s x); on_rq := on_rq (ent s x); exec_start := clock_task s; sum_exec_runtime := sum_exec_runtime (ent s x);
        vruntime := vruntime (ent s x); prev_sum_exec_runtime := sum_exec_runtime (ent s x) |} else ent s y).
  { intros y. unfold s'. rewrite ent_set. cbn. rewrite !Z.eqb_refl. by destruct (Z.eqb_spec y x). }
  assert (Hq : queued s' (l1 ++ l2) ≡ₚ queued s (l1 ++ x :: l2)).
  { unfold queued. change (c_curr s') with x. rewrite Hc, Hent, Z.eqb_refl. cbn [on_rq]. rewrite (Hon x) by (rewrite Hp; left). rewrite (proj2 (Z.eqb_neq x 0)) by done. cbn. done. }
  split_and!; try done.
  - apply (switch_ok s s' (l1 ++ x :: l2) (l1 ++ l2) Hok); try done.
    + split; try done.
      * eapply sorted_same; [exact T3|]. unfold no_later, entity_before. intros y z _ _. by rewrite !Hent, <- !Hv.
      * exists b. intros y Hy. unfold vrt. rewrite Hent, <- Hv. by apply T4.
    + intros y. rewrite Hent. by destruct (Z.eqb_spec y x) as [->|].
    + intros y. unfold wgt. rewrite Hent. by destruct (Z.eqb_spec y x) as [->|].
    + intros y Hy. apply Hon. rewrite Hp. by right.
    + auto.
  - unfold vrt. by rewrite Hent, <- Hv.
  - intros y Hne. rewrite Hent. by destruct (Z.eqb_spec y x).
Qed.

Lemma put_prev_ok s l x : cfs_ok s l -> c_curr s = x -> good x -> (on_rq (ent s x) = true -> spread (update_curr s) (x :: l)) ->
  exists s' l', put_prev_entity s x = Ret s' /\ cfs_ok s' l' /\ c_curr s' = 0 /\ l' ≡ₚ queued s l /\ tun s' = tun s.
Proof.
  intros Hok Hc G Hsp. unfold put_prev_entity. pose proof (co_curr _ _ Hok) as Hxl. rewrite Hc in Hxl. pose proof (good_nz x G) as Hnz. pose proof (timeline_zero s l (co_tl _ _ Hok)) as Hz.
  destruct (on_rq (ent s x)) eqn:Hon.
  - pose proof (update_curr_keeps l s ltac:(by rewrite Hc)) as K. set (s0 := update_curr s) in *. pose proof (cfs_keeps l s s0 Hok K) as Hok0.
    rewrite (ke_on _ _ _ K), Hon. destruct (enqueue_timeline s0 l x (co_tl _ _ Hok0) G Hxl (Hsp eq_refl)) as (m & r & l1 & l2 & El & E & T & _). rewrite E. cbn [obind].
    assert (Hp : l1 ++ x :: l2 ≡ₚ x :: l) by (rewrite El; by rewrite Permutation_middle).
    assert (Hq : queued s l = x :: l) by (unfold queued; rewrite Hc, Hon, (proj2 (Z.eqb_neq x 0)) by done; done).
    eexists _, (l1 ++ x :: l2). split; [reflexivity|]. split_and!; [|done|by rewrite Hq|apply (ke_tun _ _ _ K)].
    apply (switch_ok s0 _ l (l1 ++ x :: l2) Hok0); try done.
    + destruct T as [T1 T2 T3 T4]. by split.
    + cbn. rewrite Hp, elem_of_cons. intros [?|?]; [congruence|done].
    + change (queued (set_curr (set_timeline s0 m r (hd0 (l1 ++ x :: l2))) 0) (l1 ++ x :: l2)) with (l1 ++ x :: l2). by rewrite (keeps_queued l l s s0 K), Hq.
    + intros y. rewrite Hp, elem_of_cons. intros [->|Hy]; [by rewrite (ke_on _ _ _ K)|by apply (co_on _ _ Hok0)].
    + auto.
  - rewrite Hon. cbn [obind]. assert (Hq : queued s l = l) by (unfold queued; rewrite Hc, Hon; by rewrite andb_false_r).
    eexists _, l. split; [reflexivity|]. split_and!; [|done|by rewrite Hq|done]. apply (switch_ok s _ l l Hok); try done.
    + destruct (co_tl _ _ Hok) as [T1 T2 T3 T4]. by split.
    + by rewrite Hq.
    + apply (co_on _ _ Hok).
    + auto.
Qed.

(** ** pick_next_entity() *)

(** [x] may run although [lft] is the first of the timeline: it is not more
    than a wake-up granularity behind it. *)
Definition fair_to (s : cfs_rq) (lft x : Z) : Prop :=
  x = lft \/ s64 (vrt s x - vrt s lft) <= Z.max 0 (s64 (fst (calc_delta_fair (sched_wakeup_granularity (tun s)) (se_load (ent s lft))))).

(** Virtual times and granularities are the same; an inverse may have been
    filled in. *)
Definition same_times (s s' : cfs_rq) : Prop :=
  tun s' = tun s /\ forall y, vrt s' y = vrt s y /\ wgt s' y = wgt s y /\ __update_inv_weight (se_load (ent s' y)) = __update_inv_weight (se_load (ent s y)).

Lemma same_times_refl s : same_times s s.
Proof. done. Qed.
Lemma same_times_trans s1 s2 s3 : same_times s1 s2 -> same_times s2 s3 -> same_times s1 s3.
Proof.
  intros [E1 H1] [E2 H2]. split; [congruence|]. intros y. destruct (H1 y) as (A1 & A2 & A3), (H2 y) as (B1 & B2 & B3). split_and!; congruence.
Qed.
Lemma update_inv_idem lw : __update_inv_weight (__update_inv_weight lw) = __update_inv_weight lw.
Proof.
  unfold __update_inv_weight. destruct (negb (inv_weight lw =? 0)) eqn:E; [by rewrite E|]. cbn [inv_weight lw_weight].
  match goal with |- (if negb (?v =? 0) then _ else _) = _ => by destruct (negb (v =? 0)) end.
Qed.
Lemma calc_fair_update d lw : __update_inv_weight (snd (calc_delta_fair d lw)) = __update_inv_weight lw.
Proof.
  unfold calc_delta_fair. destruct (negb (lw_weight lw =? NICE_0_LOAD)); [|done]. unfold __calc_delta, calc_factor.
  destruct (shrink 64 (scale_load_down NICE_0_LOAD) WMULT_SHIFT) as [f sh]. destruct (shrink 64 _ sh) as [f' sh']. cbn. apply update_inv_idem.
Qed.
Lemma calc_fair_same d lw lw' : lw_weight lw' = lw_weight lw -> __update_inv_weight lw' = __update_inv_weight lw -> fst (calc_delta_fair d lw') = fst (calc_delta_fair d lw).
Proof.
  intros E1 E2. unfold calc_delta_fair. rewrite E1. destruct (negb _); [|done]. unfold __calc_delta, calc_factor. by rewrite E2.
Qed.

Definition gran (s : cfs_rq) (x : Z) : Z := fst (calc_delta_fair (sched_wakeup_granularity (tun s)) (se_load (ent s x))).
Lemma gran_same s s' x : same_times s s' -> gran s' x = gran s x.
Proof. intros [E H]. destruct (H x) as (_ & Hw & Hu). unfold gran. rewrite E. by apply calc_fair_same. Qed.

Lemma preempt_spec s c x : same_times s (snd (wakeup_preempt_entity s c x))
  /\ (fst (wakeup_preempt_entity s c x) < 1 <-> s64 (vrt s c - vrt s x) <= Z.max 0 (s64 (gran s x))).
Proof.
  unfold wakeup_preempt_entity. change (vruntime (ent s ?z)) with (vrt s z). destruct (Z.leb_spec (s64 (vrt s c - vrt s x)) 0); cbn [fst snd]; [split; [done|lia]|].
  unfold wakeup_gran. pose proof (calc_fair_weight (sched_wakeup_granularity (tun s)) (se_load (ent s x))) as Hw.
  pose proof (calc_fair_update (sched_wakeup_granularity (tun s)) (se_load (ent s x))) as Hu. unfold gran. destruct (calc_delta_fair _ _) as [g lw]. cbn [fst snd] in *. split.
  - split; [done|]. intros y. unfold vrt, wgt. rewrite ent_set. by destruct (Z.eqb_spec y x) as [->|].
  - destruct (Z.gtb_spec (s64 (vrt s c - vrt s x)) (s64 g)); lia.
Qed.

Lemma prefer_spec s x lft se : same_times s (snd (prefer s x lft se))
  /\ (fst (prefer s x lft se) = se \/ x <> 0 /\ fst (prefer s x lft se) = x /\ s64 (vrt s x - vrt s lft) <= Z.max 0 (s64 (gran s lft))).
Proof.
  unfold prefer. destruct (Z.eqb_spec x 0); cbn [negb fst snd]; [by split; [|left]|]. destruct (preempt_spec s x lft) as [Hs Hw].
  destruct (wakeup_preempt_entity s x lft) as [w s1]. cbn [fst snd] in *. split; [done|]. destruct (Z.ltb_spec w 1); [|by left]. right. split_and!; [done|done|tauto].
Qed.

(** After [prefer] on a queue where [x] is 0 or one of [l]. *)
Lemma prefer_step s0 s l x lft se : same_times s0 s -> keeps l s0 s -> (x = 0 \/ x ∈ l) -> se ∈ l -> fair_to s0 lft se ->
  let r := prefer s x lft se in same_times s0 (snd r) /\ keeps l s0 (snd r) /\ fst r ∈ l /\ fair_to s0 lft (fst r).
Proof.
  intros Hs K Hx Hse Hf r. destruct (prefer_spec s x lft se) as [Hs' Hr]. fold r in Hs', Hr. split_and!.
  - by eapply same_times_trans.
  - eapply keeps_trans; [exact K|]. apply prefer_keeps.
  - destruct Hr as [->|(H0 & -> & _)]; [done|]. destruct Hx; done.
  - destruct Hr as [->|(H0 & -> & Hg)]; [done|]. right. destruct Hs as [Et Hs]. destruct (Hs x) as (<- & _), (Hs lft) as (<- & _).
    fold (gran s0 lft). by rewrite <- (gran_same s0 s lft) by (by split).
Qed.

Lemma clear_ok s l x : cfs_ok s l -> cfs_ok (clear_buddies s x) l.
Proof.
  intros [T On C A B]. split; try done.
  - by apply clear_keeps_tl.
  - by apply (accounts_same s).
  - by apply (clear_buddies_ok s (queued s l)).
Qed.

Lemma pick_next_ok s l : cfs_ok s l -> c_curr s = 0 -> l <> [] ->
  exists x s', pick_next_entity s 0 = Ret (x, s') /\ cfs_ok s' l /\ c_curr s' = 0 /\ x ∈ l /\ fair_to s (hd0 l) x /\ same_times s s'
    /\ (c_next s = 0 -> c_last s = 0 -> c_skip s = 0 -> x = hd0 l).
Proof.
  intros Hok Hc Hne. destruct l as [|a l]; [done|]. change (hd0 (a :: l)) with a. pose proof (co_tl _ _ Hok) as T. pose proof (timeline_zero s _ T) as Hz.
  assert (Ha : a <> 0) by (intros ->; apply Hz; left). assert (Hbud : forall b, b ∈ [c_next s; c_last s; c_skip s] -> b = 0 \/ b ∈ a :: l).
  { intros b Hb. destruct (co_bud _ _ Hok b Hb) as [->|Hq]; [by left|]. right. unfold queued in Hq. by rewrite Hc in Hq. }
  unfold pick_next_entity, __pick_first_entity. rewrite (to_left _ _ T). change (hd0 (a :: l)) with a. rewrite (proj2 (Z.eqb_neq a 0)) by done.
  change (negb (0 =? 0)) with false. cbn [andb orb]. cbv iota. rewrite ?(proj2 (Z.eqb_neq a 0)) by done. cbv iota.
  (* the skip buddy *)
  assert (H1 : exists x1 s1, (if c_skip s =? a then
      let! second := (let! second := __pick_next_entity s a in Ret (if (second =? 0) || false then 0 else second)) in Ret (prefer s second a a)
      else Ret (a, s)) = Ret (x1, s1) /\ same_times s s1 /\ keeps (a :: l) s s1 /\ x1 ∈ a :: l /\ fair_to s a x1 /\ (c_skip s = 0 -> x1 = a)).
  { destruct (Z.eqb_spec (c_skip s) a) as [Ea|]; [|exists a, s; split_and!; [done|done|apply keeps_refl|left|by left|done]].
    unfold __pick_next_entity. rewrite (rb_next_list _ _ [] a l (to_tree _ _ T)). cbn [obind]. rewrite orb_false_r.
    set (sec := if hd0 l =? 0 then 0 else hd0 l). assert (Hsec : sec = 0 \/ sec ∈ a :: l).
    { unfold sec. destruct l as [|c l]; [by left|]. change (hd0 (c :: l)) with c. destruct (c =? 0); [by left|]. right. right. left. }
    destruct (prefer_step s s (a :: l) sec a a (same_times_refl s) (keeps_refl _ s) Hsec ltac:(left) ltac:(by left)) as (P1 & P2 & P3 & P4).
    destruct (prefer s sec a a) as [x1 s1]. exists x1, s1. split_and!; try done. congruence. }
  destruct H1 as (x1 & s1 & -> & S1 & K1 & X1 & F1 & D1). cbn [obind].
  assert (Hl1 : c_last s1 = 0 \/ c_last s1 ∈ a :: l) by (rewrite (ke_last _ _ _ K1); apply Hbud; right; left).
  destruct (prefer_step s s1 (a :: l) (c_last s1) a x1 S1 K1 Hl1 X1 F1) as (S2 & K2 & X2 & F2).
  assert (D2 : c_last s = 0 -> c_skip s = 0 -> fst (prefer s1 (c_last s1) a x1) = a) by (intros E1 E2; rewrite (ke_last _ _ _ K1), E1; by apply D1).
  destruct (prefer s1 (c_last s1) a x1) as [x2 s2]. cbn [fst snd] in *.
  assert (Hn2 : c_next s2 = 0 \/ c_next s2 ∈ a :: l) by (rewrite (ke_next _ _ _ K2); apply Hbud; left).
  destruct (prefer_step s s2 (a :: l) (c_next s2) a x2 S2 K2 Hn2 X2 F2) as (S3 & K3 & X3 & F3).
  assert (D3 : c_next s = 0 -> c_last s = 0 -> c_skip s = 0 -> fst (prefer s2 (c_next s2) a x2) = a) by (intros E0 E1 E2; rewrite (ke_next _ _ _ K2), E0; by apply D2).
  destruct (prefer s2 (c_next s2) a x2) as [x3 s3]. cbn [fst snd] in *. exists x3, (clear_buddies s3 x3). split_and!; try done.
  - apply clear_ok. by apply (cfs_keeps (a :: l) s).
  - change (c_curr (clear_buddies s3 x3)) with (c_curr s3). by rewrite (ke_curr _ _ _ K3).
Qed.

(** ** The tick *)

Lemma tick_ok s l x : cfs_ok s l -> c_curr s = x -> good x -> on_rq (ent s x) = true -> exists s', entity_tick s x = Ret s' /\ cfs_ok s' l /\ c_curr s' = x /\ queued s' l = queued s l.
Proof.
  intros Hok Hc G Hon. pose proof (update_curr_keeps l s (co_curr _ _ Hok)) as K. unfold entity_tick. set (s0 := update_curr s) in *.
  pose proof (cfs_keeps l s s0 Hok K) as Hok0. pose proof (ke_curr _ _ _ K) as Hc0. rewrite Hc in Hc0. pose proof (keeps_queued l l s s0 K) as Eq0. destruct (Z.gtb_spec (nr_running s0) 1) as [Hnr|]; [|exists s0; split_and!; done].
  assert (Hne : l <> []).
  { intros ->. pose proof (ao_nr _ _ (co_acc _ _ Hok0)) as En. unfold queued in En. rewrite Hc0, (ke_on _ _ _ K), Hon, (proj2 (Z.eqb_neq x 0)) in En by (by apply good_nz).
    change (nr_running s0 = 1) in En. lia. }
  unfold check_preempt_tick. pose proof (slice_keeps l s0 x) as Ks. destruct (sched_slice s0 x) as [ideal s1]. cbn [snd] in Ks.
  pose proof (cfs_keeps l s0 s1 Hok0 Ks) as Hok1. pose proof (ke_curr _ _ _ Ks) as Hc1. rewrite Hc0 in Hc1. pose proof (keeps_queued l l s0 s1 Ks) as Eq1. rewrite Eq0 in Eq1.
  assert (Hre : cfs_ok (resched_curr s1) l) by (apply (cfs_keeps l s1); [done|apply keeps_resched]).
  set (delta_exec := u64 _). destruct (delta_exec >? ideal); [eexists; split; [reflexivity|]; split_and!; [by apply clear_ok|done|exact Eq1]|].
  destruct (delta_exec <? _); [exists s1; split_and!; done|]. unfold __pick_first_entity. rewrite (to_left _ _ (co_tl _ _ Hok1)).
  destruct l as [|a l]; [done|]. change (hd0 (a :: l)) with a. pose proof (timeline_zero _ _ (co_tl _ _ Hok1)) as Hz.
  assert (Ha : a <> 0) by (intros ->; apply Hz; left). rewrite deref_ok by done. cbn [obind].
  destruct (s64 _ <? 0); [exists s1; split_and!; done|]. destruct (u64 _ >? ideal); [exists (resched_curr s1); split_and!; try done; exact Eq1|exists s1; split_and!; done].
Qed.

(** ** Switching to the next task *)

Lemma schedule_ok s l prev : cfs_ok s l -> queued s l <> [] -> (Z.of_nat (length (queued s l)) < 2 ^ 32) ->
  match prev with
  | Some x => c_curr s = x /\ good x /\ (on_rq (ent s x) = true -> spread (update_curr s) (x :: l))
  | None => c_curr s = 0
  end ->
  exists y s0 l0 s' l', pick_next_task_fair s prev = Ret (y, s')
    /\ (match prev with Some x => put_prev_task_fair s x | None => Ret s end) = Ret s0 /\ cfs_ok s0 l0 /\ l0 ≡ₚ queued s l
    /\ cfs_ok s' l' /\ c_curr s' = y /\ l0 ≡ₚ y :: l' /\ queued s' l' ≡ₚ queued s l
    /\ fair_to s0 (hd0 l0) y /\ (c_next s0 = 0 -> c_last s0 = 0 -> c_skip s0 = 0 -> y = hd0 l0).
Proof.
  intros Hok Hne Hlen Hprev. assert (Hnr : (nr_running s =? 0) = false).
  { apply Z.eqb_neq. rewrite (ao_nr _ _ (co_acc _ _ Hok)). rewrite u32_id by (uunfold; lia). destruct (queued s l); [done|]. cbn. lia. }
  assert (H0 : exists s0 l0, (match prev with Some x => put_prev_task_fair s x | None => Ret s end) = Ret s0 /\ cfs_ok s0 l0 /\ c_curr s0 = 0 /\ l0 ≡ₚ queued s l).
  { destruct prev as [x|].
    - destruct Hprev as (Hc & G & Hsp). destruct (put_prev_ok s l x Hok Hc G Hsp) as (s0 & l0 & E & O & C & P & _). by exists s0, l0.
    - exists s, l. split_and!; try done. unfold queued. by rewrite Hprev. }
  destruct H0 as (s0 & l0 & E0 & O0 & C0 & P0). assert (Hne0 : l0 <> []) by (intros ->; apply Hne; by apply Permutation_nil).
  destruct (pick_next_ok s0 l0 O0 C0 Hne0) as (y & s1 & E1 & O1 & C1 & Y1 & F1 & S1 & D1).
  destruct (set_next_ok s1 l0 y O1 C1 Y1) as (s2 & l2 & E2 & O2 & C2 & P2 & Q2 & _).
  unfold pick_next_task_fair. rewrite Hnr, E0. cbn [obind]. rewrite E1. cbn [obind]. rewrite E2. cbn [obind].
  set (s3 := set_accounts s2 _ _ _ _). exists y, s0, l0, s3, l2. assert (Hq3 : queued s3 l2 = queued s2 l2) by done.
  assert (Ht : y :: filter (fun z => z <> y) (cfs_tasks s2) ≡ₚ cfs_tasks s2).
  { rewrite (ao_tasks _ _ (co_acc _ _ O2)), Q2. unfold queued. rewrite C1. cbn. rewrite P2. rewrite filter_cons_False by (intros ?; done). rewrite filter_other; [done|].
    pose proof (rbtree_nodup _ _ _ (to_tree _ _ (co_tl _ _ O1))) as Hd. rewrite P2 in Hd. by apply list.NoDup_cons in Hd as [? _]. }
  assert (O3 : cfs_ok s3 l2).
  { apply (switch_ok s2 s3 l2 l2 O2); try done; [|apply (co_curr _ _ O2)|apply (co_on _ _ O2)|auto]. destruct (co_tl _ _ O2) as [T1 T2 T3 T4]. by split. }
  split_and!; try done. rewrite Hq3, Q2. unfold queued at 1. rewrite C1. cbn. done.
Qed.

Lemma before_refl e : entity_before e e = false.
Proof. unfold entity_before. by rewrite Z.sub_diag. Qed.
(** Nobody is before the first of the timeline. *)
Lemma first_earliest s l y : timeline_ok s l -> y ∈ l -> entity_before (ent s y) (ent s (hd0 l)) = false.
Proof.
  intros [_ _ Hs _]. destruct l as [|a l]; [by intros ?%not_elem_of_nil|]. change (hd0 (a :: l)) with a. inversion Hs as [|? ? _ Ha]; subst.
  intros [->|Hy]%elem_of_cons; [apply before_refl|]. rewrite list.Forall_forall in Ha. by apply (Ha y).
Qed.

(** ** The counts of tasks *)

(** [q] are the queued tasks and [o] the number of tasks of other classes. *)
Record counts_ok (o : Z) (s : cfs_rq) (q : list Z) : Prop := {
  cn_h : h_nr_running s = u32 (Z.of_nat (length q));
  cn_rq : rq_nr_running s = u32 (o + Z.of_nat (length q));
}.

(** The entity operations leave the counts to the task operations. *)
Definition counts (s : cfs_rq) : Z * Z := (h_nr_running s, rq_nr_running s).

Lemma update_curr_counts s : counts (update_curr s) = counts s.
Proof.
  unfold update_curr. destruct (_ =? 0); [done|]. destruct (_ <=? 0); [done|]. destruct (calc_delta_fair _ _) as [d lw]. unfold update_min_vruntime.
  destruct (if negb _ then _ else _) as [c v]. done.
Qed.
Lemma place_counts s x b : counts (place_entity s x b) = counts s.
Proof.
  unfold place_entity. destruct b; [|done]. unfold sched_vslice, sched_slice. destruct (negb _); [by destruct (calc_delta_fair _ _)|].
  destruct (__calc_delta _ _ _) as [sl lw]. by destruct (calc_delta_fair _ _).
Qed.
Lemma prepare_counts s x flags : counts (enqueue_prepare s x flags) = counts s.
Proof.
  unfold enqueue_prepare. assert (Hr : forall (b : bool) t, counts (if b then renormalise t x else t) = counts t) by (by intros []).
  assert (Ha : forall t, counts (account_entity_enqueue t x) = counts t) by done.
  destruct (has flags ENQUEUE_WAKEUP); rewrite ?place_counts, Ha, Hr, update_curr_counts, Hr; done.
Qed.
Lemma enqueue_counts s x flags s' : enqueue_entity s x flags = Ret s' -> counts s' = counts s.
Proof.
  unfold enqueue_entity, __enqueue_entity. rewrite <- (prepare_counts s x flags). set (t := enqueue_prepare s x flags). destruct (negb _); cbn [obind].
  - destruct (rb_add_cached _ _ _ _ _) as [[[m r] lf]| |]; cbn [obind]; [|done..]. by intros [= <-].
  - by intros [= <-].
Qed.
Lemma dequeue_counts s x flags s' : dequeue_entity s x flags = Ret s' -> counts s' = counts s.
Proof.
  unfold dequeue_entity, __dequeue_entity. rewrite <- (update_curr_counts s). set (t := update_curr s).
  assert (Hm : forall u (b : bool), counts (if b then update_min_vruntime u else u) = counts u).
  { intros u []; [|done]. unfold update_min_vruntime. by destruct (if negb _ then _ else _). }
  destruct (negb (x =? _)); cbn [obind]; [destruct (rb_erase_cached _ _ _ _) as [[[m r] lf]| |]; cbn [obind]; [|done..]|];
    intros [= <-]; rewrite Hm; by destruct (negb _).
Qed.
Lemma tick_counts s x s' : entity_tick s x = Ret s' -> counts s' = counts s.
Proof.
  unfold entity_tick. rewrite <- (update_curr_counts s). set (t := update_curr s). destruct (_ >? 1); [|by intros [= <-]].
  unfold check_preempt_tick. assert (Hs : counts (snd (sched_slice t x)) = counts t) by (unfold sched_slice; destruct (negb _); [done|]; by destruct (__calc_delta _ _ _)).
  destruct (sched_slice t x) as [ideal u]. cbn [snd] in Hs. rewrite <- Hs. destruct (_ >? ideal); [by intros [= <-]|]. destruct (_ <? _); [by intros [= <-]|].
  destruct (deref _ _); cbn [obind]; [|done..]. destruct (_ <? 0); [by intros [= <-]|]. by destruct (_ >? ideal); intros [= <-].
Qed.

Lemma counts_same o s s' q q' : counts_ok o s q -> counts s' = counts s -> q' ≡ₚ q -> counts_ok o s' q'.
Proof. unfold counts. intros [H1 H2] [= E1 E2] Hq. split; rewrite ?E1, ?E2, Hq; done. Qed.
Lemma counts_more o s s1 q q' x : counts_ok o s q -> counts s1 = counts s -> q' ≡ₚ x :: q ->
  counts_ok o (set_counts s1 (u32 (h_nr_running s1 + 1)) (u32 (rq_nr_running s1 + 1))) q'.
Proof.
  unfold counts. intros [H1 H2] [= E1 E2] Hq. split; cbn [h_nr_running rq_nr_running set_counts]; rewrite ?E1, ?E2, ?H1, ?H2, u32_add_l, Hq; f_equal; cbn [length]; lia.
Qed.
Lemma counts_less o s s1 q q' x : counts_ok o s q -> counts s1 = counts s -> q ≡ₚ x :: q' ->
  counts_ok o (set_counts s1 (u32 (h_nr_running s1 - 1)) (u32 (rq_nr_running s1 - 1))) q'.
Proof.
  unfold counts. intros [H1 H2] [= E1 E2] Hq. rewrite Hq in H1, H2.
  split; cbn [h_nr_running rq_nr_running set_counts]; rewrite ?E1, ?E2, ?H1, ?H2; unfold Z.sub; rewrite u32_add_l; f_equal; cbn [length]; lia.
Qed.

Lemma enqueue_task_ok o s l x flags : cfs_ok s l -> counts_ok o s (queued s l) -> good x -> x ∉ l -> on_rq (ent s x) = false ->
  spread (enqueue_prepare s x flags) (x :: l) ->
  exists s' l', enqueue_task_fair s x flags = Ret s' /\ cfs_ok s' l' /\ counts_ok o s' (queued s' l') /\ queued s' l' ≡ₚ x :: queued s l.
Proof.
  intros Hok Hn G Hx Hoff Hsp. destruct (enqueue_ok s l x flags Hok G Hx Hoff Hsp) as (s1 & l1 & E & O1 & _ & Q1). unfold enqueue_task_fair. rewrite Hoff, E. cbn [obind].
  eexists _, l1. split; [reflexivity|]. split; [by apply (cfs_keeps l1 s1); [|apply keeps_counts]|]. split; [|done].
  by apply (counts_more o s s1 (queued s l) _ x Hn (enqueue_counts _ _ _ _ E)).
Qed.
Lemma dequeue_task_ok o s l x flags : cfs_ok s l -> counts_ok o s (queued s l) -> x ∈ queued s l ->
  exists s' l', dequeue_task_fair s x flags = Ret s' /\ cfs_ok s' l' /\ counts_ok o s' (queued s' l') /\ queued s l ≡ₚ x :: queued s' l'.
Proof.
  intros Hok Hn Hx. destruct (dequeue_ok s l x flags Hok Hx) as (s1 & l1 & E & O1 & _ & Q1). unfold dequeue_task_fair. rewrite E. cbn [obind].
  eexists _, l1. split; [reflexivity|]. split; [by apply (cfs_keeps l1 s1); [|apply keeps_counts]|]. split; [|done].
  by apply (counts_less o s s1 (queued s l) _ x Hn (dequeue_counts _ _ _ _ E)).
Qed.
