(* ===== verification/FairProps.v ===== *)
(** * The fair scheduling class: properties *)

From S2P Require Import Prelude Bitops Rbtree RbtreeSpec RbSet RbProps FairMath Fair FairSpec.
From stdpp Require Import base list numbers option sorting.
#[local] Open Scope Z_scope.
#[local] Open Scope kernel_scope.

(** ** A queue with three tasks of different weights, one of them running *)

Definition demo_task (nice : nat) (v : Z) : sched_entity := mk_se (prio_weight nice) false 0 0 v 0.
Definition demo_ents : Z -> sched_entity :=
  fun x => if x =? 64 then demo_task 20 7 else if x =? 128 then demo_task 10 3 else if x =? 192 then demo_task 30 5 else demo_task 20 0.
Definition demo_tun : tunables := update_sysctl SCHED_TUNABLESCALING_LOG 4.
Definition demo_start : cfs_rq := init_cfs_rq rb_blank demo_ents 1000 demo_tun.
Definition demo_run (o : outcome cfs_rq) : cfs_rq := match o with Ret s => s | _ => demo_start end.
Definition demo3 : cfs_rq :=
  demo_run (let! s := enqueue_task_fair demo_start 64 0 in let! s := enqueue_task_fair s 128 0 in enqueue_task_fair s 192 0).
Definition demo_running : cfs_rq := match pick_next_task_fair demo3 None with Ret (_, s) => set_clock s 5001000 | _ => demo3 end.

(** Goals about a concrete queue. *)
Ltac demo_goal :=
  repeat match goal with
  | |- StronglySorted _ _ => constructor
  | |- Forall _ _ => constructor
  | |- no_later _ _ _ => vm_compute; reflexivity
  | |- near _ _ => vm_compute; split; [intro; discriminate|reflexivity]
  | |- on_rq _ = _ => vm_compute; reflexivity
  | |- _ = 0 => vm_compute; reflexivity
  end.

Lemma demo3_ok : cfs_ok demo3 [128; 192; 64].
Proof.
  split.
  - split; [|vm_compute; reflexivity|demo_goal|exists 0; apply list.Forall_forall; demo_goal].
    apply (rbtree_by _ _ (Node Black (Node Red Leaf 128 Leaf) 192 (Node Red Leaf 64 Leaf)) 1); vm_compute; reflexivity.
  - apply list.Forall_forall. demo_goal.
  - assert (c_curr demo3 = 0) as -> by (vm_compute; reflexivity). by apply (bool_decide_unpack _).
  - assert (queued demo3 [128; 192; 64] = [128; 192; 64]) as -> by (vm_compute; reflexivity). split; [vm_compute; reflexivity..|].
    assert (cfs_tasks demo3 = [192; 128; 64]) as -> by (vm_compute; reflexivity). apply Permutation_swap.
  - intros b Hb. left. revert b Hb. apply list.Forall_forall. demo_goal.
Qed.
Example demo_pick : c_curr demo_running = 128 /\ tl_leftmost demo_running = 192 /\ nr_running demo_running = 3.
Proof. vm_compute. done. Qed.

(** ** The properties *)

(** C16. The queue of runnable tasks: the timeline is a red-black tree in order
    of virtual time with the cached first task, the running task is not in it,
    and the list of tasks, the counts [nr_running] and [h_nr_running], the count
    of the run queue (with [o] tasks of other classes) and the weights of the
    queue and of the run queue agree with it.  Enqueueing a task with any flags
    (after a fork, a wake-up, a migration, or as the running task), dequeueing a
    queued or running one and the tick keep this, add or remove exactly that
    task, and never follow a NULL pointer, also where the tick looks at the
    first task.  For the insertion, the virtual time that enqueue_entity() gives
    the task and those of the timeline must lie within 2^62 of a common time:
    the order by signed differences is none otherwise. *)
Theorem cfs_queue_correct o s l x flags : cfs_ok s l -> counts_ok o s (queued s l) ->
  (good x -> x ∉ l -> on_rq (ent s x) = false -> spread (enqueue_prepare s x flags) (x :: l) ->
     exists s' l', enqueue_task_fair s x flags = Ret s' /\ cfs_ok s' l' /\ counts_ok o s' (queued s' l') /\ queued s' l' ≡ₚ x :: queued s l)
  /\ (x ∈ queued s l ->
     exists s' l', dequeue_task_fair s x flags = Ret s' /\ cfs_ok s' l' /\ counts_ok o s' (queued s' l') /\ queued s l ≡ₚ x :: queued s' l')
  /\ (c_curr s = x -> good x -> on_rq (ent s x) = true ->
     exists s', task_tick_fair s x = Ret s' /\ cfs_ok s' l /\ counts_ok o s' (queued s' l) /\ c_curr s' = x /\ queued s' l = queued s l).
Proof.
  intros Hok Hn. split_and!.
  - by apply enqueue_task_ok.
  - by apply dequeue_task_ok.
  - intros Hc G Hon. destruct (tick_ok s l x Hok Hc G Hon) as (s' & E & O & C & Q). exists s'. split_and!; try done.
    apply (counts_same o s s' (queued s l)); [done|by apply (tick_counts s x)|by rewrite Q].
Qed.

Lemma demo3_counts : counts_ok 0 demo3 (queued demo3 [128; 192; 64]).
Proof. split; vm_compute; reflexivity. Qed.

Lemma cfs_queue_correct_witness :
  (exists s' l', enqueue_task_fair demo3 256 ENQUEUE_WAKEUP = Ret s' /\ cfs_ok s' l' /\ counts_ok 0 s' (queued s' l') /\ queued s' l' ≡ₚ 256 :: queued demo3 [128; 192; 64])
  /\ (exists s' l', dequeue_task_fair demo3 192 DEQUEUE_SLEEP = Ret s' /\ cfs_ok s' l' /\ counts_ok 0 s' (queued s' l')
       /\ queued demo3 [128; 192; 64] ≡ₚ 192 :: queued s' l').
Proof.
  split.
  - destruct (cfs_queue_correct 0 demo3 [128; 192; 64] 256 ENQUEUE_WAKEUP demo3_ok demo3_counts) as (H & _). apply H.
    + by apply (bool_decide_unpack _).
    + by apply (bool_decide_unpack _).
    + vm_compute. reflexivity.
    + exists 0. apply list.Forall_forall. demo_goal.
  - destruct (cfs_queue_correct 0 demo3 [128; 192; 64] 192 DEQUEUE_SLEEP demo3_ok demo3_counts) as (_ & H & _). apply H. apply in_queued. by apply (bool_decide_unpack _).
Defined.

(** C17. pick_next_task_fair() with tasks on the queue puts the
    previous task back if it is still runnable and switches to a queued task.
    That task is the first of the timeline, or a buddy that is behind the first
    by no more than the wake-up granularity in the first task's virtual time;
    without buddies no queued task is before it.  The set of queued tasks does
    not change. *)
Theorem cfs_pick_fair s l prev : cfs_ok s l -> queued s l <> [] -> Z.of_nat (length (queued s l)) < 2 ^ 32 ->
  match prev with
  | Some x => c_curr s = x /\ good x /\ (on_rq (ent s x) = true -> spread (update_curr s) (x :: l))
  | None => c_curr s = 0
  end ->
  exists y s0 l0 s' l', pick_next_task_fair s prev = Ret (y, s')
    /\ (match prev with Some x => put_prev_task_fair s x | None => Ret s end) = Ret s0 /\ cfs_ok s0 l0 /\ l0 ≡ₚ queued s l
    /\ cfs_ok s' l' /\ c_curr s' = y /\ l0 ≡ₚ y :: l' /\ queued s' l' ≡ₚ queued s l
    /\ fair_to s0 (hd0 l0) y
    /\ (c_next s0 = 0 -> c_last s0 = 0 -> c_skip s0 = 0 -> forall z, z ∈ l0 -> entity_before (ent s0 z) (ent s0 y) = false).
Proof.
  intros Hok Hne Hlen Hprev. destruct (schedule_ok s l prev Hok Hne Hlen Hprev) as (y & s0 & l0 & s' & l' & E & E0 & O0 & P0 & O' & C' & P' & Q' & F & D).
  exists y, s0, l0, s', l'. split_and!; try done. intros B1 B2 B3 z Hz. rewrite (D B1 B2 B3). by apply first_earliest; [apply (co_tl _ _ O0)|].
Qed.

Lemma cfs_pick_fair_witness : exists y s0 l0 s' l', pick_next_task_fair demo3 None = Ret (y, s')
  /\ Ret demo3 = Ret s0 /\ cfs_ok s0 l0 /\ l0 ≡ₚ queued demo3 [128; 192; 64]
  /\ cfs_ok s' l' /\ c_curr s' = y /\ l0 ≡ₚ y :: l' /\ queued s' l' ≡ₚ queued demo3 [128; 192; 64]
  /\ fair_to s0 (hd0 l0) y
  /\ (c_next s0 = 0 -> c_last s0 = 0 -> c_skip s0 = 0 -> forall z, z ∈ l0 -> entity_before (ent s0 z) (ent s0 y) = false).
Proof.
  assert (E : queued demo3 [128; 192; 64] = [128; 192; 64]) by (vm_compute; reflexivity).
  apply (cfs_pick_fair demo3 [128; 192; 64] None); [exact demo3_ok|rewrite E; discriminate|rewrite E; reflexivity|vm_compute; reflexivity].
Defined.

(** C27. Virtual time: in [delta] nanoseconds a task of weight [w]
    ages by [delta * 1024 / w], off by no more than one part in [2^32 / w] and
    one in 2^31 and one nanosecond, for the inverses of the table and those
    computed on demand; at equal run time a nicer task ages at least as fast;
    and the slices that sched_slice() gives the tasks of a queue together fit
    into the period. *)
Theorem vruntime_rate delta lw i j ws P :
  (0 <= delta < 2 ^ 54 -> (inv_weight lw = 0 -> 0 < scale_load_down (lw_weight lw) < WMULT_CONST) -> (inv_weight lw <> 0 -> inv_near lw) ->
     scale_load_down (lw_weight lw) <= 2 ^ 32 -> near_rate delta (scale_load_down (lw_weight lw)) (fst (calc_delta_fair delta lw)))
  /\ ((i < 40)%nat -> inv_weight (prio_weight i) <> 0 /\ inv_near (prio_weight i))
  /\ (0 <= delta < 2 ^ 54 -> (i <= j < 40)%nat -> fst (calc_delta_fair delta (prio_weight i)) <= fst (calc_delta_fair delta (prio_weight j)))
  /\ (Forall (fun w => 0 <= w) ws -> 0 < scale_load_down (sum_of ws) < WMULT_CONST -> 0 <= P < 2 ^ 64 ->
        sum_of ((fun w => fst (__calc_delta P w (mk_lw (sum_of ws) 0))) <$> ws) <= P).
Proof.
  split_and!.
  - intros Hd H0 H1 Hm. destruct (update_inv_near lw H0 H1) as [Hn Ew]. by apply fair_rate.
  - intros Hi. by destruct (prio_table i Hi) as (? & ? & _).
  - intros Hd Hij. by apply prio_delta_mono.
  - apply shares_fit.
Qed.

Lemma vruntime_rate_witness :
  near_rate 4000000 15 (fst (calc_delta_fair 4000000 (prio_weight 39)))
  /\ fst (calc_delta_fair 4000000 (prio_weight 5)) <= fst (calc_delta_fair 4000000 (prio_weight 20))
  /\ sum_of ((fun w => fst (__calc_delta 18000000 w (mk_lw (sum_of [1048576; 335 * 1024]) 0))) <$> [1048576; 335 * 1024]) <= 18000000.
Proof.
  destruct (vruntime_rate 4000000 (prio_weight 39) 5 20 [1048576; 335 * 1024] 18000000) as (H1 & _ & H3 & H4). split_and!.
  - apply H1; [lia|vm_compute; discriminate| |vm_compute; discriminate]. intros _. apply prio_table. lia.
  - apply H3; lia.
  - apply H4; [repeat constructor; lia|vm_compute; split; reflexivity|lia].
Defined.

(** The multiplication by a 32-bit factor and shift without
    a 128-bit product, from the two halves, gives the same result. *)
Theorem mul_shr_forms_agree a mul shift : is_u64 a -> is_u32 mul -> 0 <= shift <= 32 -> mul_u64_u32_shr_halves a mul shift = mul_u64_u32_shr a mul shift.
Proof. apply mul_halves. Qed.

Lemma mul_shr_forms_agree_witness : mul_u64_u32_shr_halves (2 ^ 63 + 12345) 4194304 22 = mul_u64_u32_shr (2 ^ 63 + 12345) 4194304 22.
Proof. apply (mul_shr_forms_agree (2 ^ 63 + 12345) 4194304 22); uunfold; lia. Defined.
