(* ===== verification/Vmalloc.v ===== *)
(** * Ranges of kernel virtual addresses

    Model of the allocator of virtual address ranges in src/mm/vmalloc.c: the
    tree and the list of areas in order of address, the search for a hole with
    its cache, lazy freeing and purging, and the [vm_struct] layer on top of
    it up to the choice of pages.  An area is known by the address of its
    [rb_node], which is [VA_NODE] bytes into the object; objects come from the
    interface [ObjectAllocator].  vmap_area_list is the list of areas, the lazy
    list a list with the newest first.  Mapping and unmapping are stubs that
    warn in this kernel; locks and TLB flushes have no effect on the state. *)

From S2P Require Import Prelude Bitops Memblock Bitmap Objects Rbtree.
From stdpp Require Import base list numbers option.
#[local] Open Scope Z_scope.
#[local] Open Scope kernel_scope.

Definition VMALLOC_START : Z := U64_MOD - 2 ^ 48.
Definition PUD_SHIFT : Z := (PAGE_SHIFT - 3) * (4 - 1) + 3.
Definition PUD_SIZE : Z := 2 ^ PUD_SHIFT.
Definition VMEMMAP_SIZE : Z := 2 ^ (48 - PAGE_SHIFT - 1 + 6).
Definition VMALLOC_END : Z := U64_MOD - 2 ^ 47 - PUD_SIZE - VMEMMAP_SIZE - 65536.
Definition VM_LAZY_FREE : Z := 2.
Definition VM_VM_AREA : Z := 4.
Definition VM_IOREMAP : Z := 1.
Definition VM_UNINITIALIZED : Z := 32.
Definition VM_NO_GUARD : Z := 64.
Definition EBUSY : Z := 16.
Definition ENOMEM : Z := 12.

Record vmap_area := mk_va { va_start : Z; va_end : Z; va_flags : Z; va_vm : Z }.
Record vm_struct := mk_vm { vm_addr : Z; vm_size : Z; vm_flags : Z; vm_pages : Z; vm_nr_pages : Z }.
Definition VA_NODE : Z := 24.
Definition SIZEOF_VMAP_AREA : Z := 96.
Definition SIZEOF_VM_STRUCT : Z := 64.

Record vmap (K : Type) := mk_vmap {
  vm_mem : rbmem;
  vm_root : Z;
  va_of : Z -> vmap_area;
  va_list : list Z;
  purge_list : list Z;
  free_vmap_cache : Z;
  cached_hole_size : Z;
  cached_vstart : Z;
  cached_align : Z;
  vmap_area_pcpu_hole : Z;
  vmap_lazy_nr : Z;
  vms : Z -> vm_struct;
  kmem : K;
}.
Arguments mk_vmap {K}. Arguments vm_mem {K}. Arguments vm_root {K}. Arguments va_of {K}. Arguments va_list {K}. Arguments purge_list {K}.
Arguments free_vmap_cache {K}. Arguments cached_hole_size {K}. Arguments cached_vstart {K}. Arguments cached_align {K}.
Arguments vmap_area_pcpu_hole {K}. Arguments vmap_lazy_nr {K}. Arguments vms {K}. Arguments kmem {K}.

(** ALIGN() on unsigned long, and its test. *)
Definition ALIGN (x a : Z) : Z := __ALIGN_MASK x (u64 (a - 1)).
Definition IS_ALIGNED (x a : Z) : bool := Z.land x (u64 (a - 1)) =? 0.
Definition is_power_of_2 (n : Z) : bool := negb (n =? 0) && (Z.land n (u64 (n - 1)) =? 0).

Section areas.
Context {K : Type} `{ObjectAllocator K}.
Implicit Types s : vmap K.

Definition set_tree s (m : rbmem) (root : Z) (l : list Z) : vmap K :=
  mk_vmap m root (va_of s) l (purge_list s) (free_vmap_cache s) (cached_hole_size s) (cached_vstart s) (cached_align s)
    (vmap_area_pcpu_hole s) (vmap_lazy_nr s) (vms s) (kmem s).
Definition set_va s (x : Z) (a : vmap_area) : vmap K :=
  mk_vmap (vm_mem s) (vm_root s) (fun y => if y =? x then a else va_of s y) (va_list s) (purge_list s) (free_vmap_cache s) (cached_hole_size s)
    (cached_vstart s) (cached_align s) (vmap_area_pcpu_hole s) (vmap_lazy_nr s) (vms s) (kmem s).
Definition set_cache s (cache hole vstart align : Z) : vmap K :=
  mk_vmap (vm_mem s) (vm_root s) (va_of s) (va_list s) (purge_list s) cache hole vstart align (vmap_area_pcpu_hole s) (vmap_lazy_nr s) (vms s) (kmem s).
Definition set_lazy s (l : list Z) (nr : Z) : vmap K :=
  mk_vmap (vm_mem s) (vm_root s) (va_of s) (va_list s) l (free_vmap_cache s) (cached_hole_size s) (cached_vstart s) (cached_align s)
    (vmap_area_pcpu_hole s) nr (vms s) (kmem s).
Definition set_pcpu_hole s (h : Z) : vmap K :=
  mk_vmap (vm_mem s) (vm_root s) (va_of s) (va_list s) (purge_list s) (free_vmap_cache s) (cached_hole_size s) (cached_vstart s) (cached_align s)
    h (vmap_lazy_nr s) (vms s) (kmem s).
Definition set_vm s (x : Z) (v : vm_struct) : vmap K :=
  mk_vmap (vm_mem s) (vm_root s) (va_of s) (va_list s) (purge_list s) (free_vmap_cache s) (cached_hole_size s) (cached_vstart s) (cached_align s)
    (vmap_area_pcpu_hole s) (vmap_lazy_nr s) (fun y => if y =? x then v else vms s y) (kmem s).
Definition set_kmem s (k : K) : vmap K :=
  mk_vmap (vm_mem s) (vm_root s) (va_of s) (va_list s) (purge_list s) (free_vmap_cache s) (cached_hole_size s) (cached_vstart s) (cached_align s)
    (vmap_area_pcpu_hole s) (vmap_lazy_nr s) (vms s) k.

(** ** The tree of areas *)

Fixpoint find_loop (fuel : nat) s (addr n : Z) : outcome Z :=
  match fuel with
  | O => Stuck
  | S fuel' =>
      if n =? 0 then Ret 0
      else if addr <? va_start (va_of s n) then let! c := ld L (vm_mem s) n in find_loop fuel' s addr c
      else if addr >=? va_end (va_of s n) then let! c := ld R (vm_mem s) n in find_loop fuel' s addr c
      else Ret n
  end.
Definition __find_vmap_area s (addr : Z) : outcome Z := find_loop PATH_FUEL s addr (vm_root s).

(** list_add(): behind [prev] in the list. *)
Fixpoint list_add_after (prev x : Z) (l : list Z) : list Z :=
  match l with
  | [] => []
  | y :: l' => if y =? prev then y :: x :: l' else y :: list_add_after prev x l'
  end.

Definition va_go s (va : Z) : Z -> outcome side :=
  fun tmp =>
    if va_start (va_of s va) <? va_end (va_of s tmp) then Ret L
    else if va_end (va_of s va) >? va_start (va_of s tmp) then Ret R
    else Panic.
Definition __insert_vmap_area s (va : Z) : outcome (vmap K) :=
  let! (m, root) := rb_add (va_go s va) (vm_mem s) (vm_root s) va in
  let! tmp := rb_prev m va in
  Ret (set_tree s m root (if negb (tmp =? 0) then list_add_after tmp va (va_list s) else va :: va_list s)).

(** ** Freeing *)

Definition __free_vmap_area s (va : Z) : outcome (vmap K) :=
  let a := va_of s va in
  let! e := RB_EMPTY_NODE (vm_mem s) va in
  if e then Panic
  else
    let! cache :=
      if negb (free_vmap_cache s =? 0) then
        if va_end a <? cached_vstart s then Ret 0
        else if va_start a <=? va_start (va_of s (free_vmap_cache s)) then rb_prev (vm_mem s) va
        else Ret (free_vmap_cache s)
      else Ret (free_vmap_cache s) in
    let s := set_cache s cache (cached_hole_size s) (cached_vstart s) (cached_align s) in
    let! (m, root) := rb_erase (vm_mem s) (vm_root s) va in
    let! m := RB_CLEAR_NODE m va in
    let s := set_tree s m root (filter (fun y => y <> va) (va_list s)) in
    let s := if (va_end a >? VMALLOC_START) && (va_end a <=? VMALLOC_END) then set_pcpu_hole s (Z.max (vmap_area_pcpu_hole s) (va_end a)) else s in
    let! k := oa_kfree (kmem s) (va - VA_NODE) in
    Ret (set_kmem s k).

(** The second loop of __purge_vmap_area_lazy(); the first only computes the
    range to flush. *)
Fixpoint purge_loop s (l : list Z) : outcome (vmap K) :=
  match l with
  | [] => Ret s
  | va :: l' =>
      let nr := Z.shiftr (u64 (va_end (va_of s va) - va_start (va_of s va))) PAGE_SHIFT in
      let! s := __free_vmap_area s va in
      purge_loop (set_lazy s (purge_list s) (s32 (vmap_lazy_nr s - s32 nr))) l'
  end.
Definition __purge_vmap_area_lazy s : outcome (bool * vmap K) :=
  let valist := purge_list s in
  let s := set_lazy s [] (vmap_lazy_nr s) in
  match valist with
  | [] => Ret (false, s)
  | _ => let! s := purge_loop s valist in Ret (true, s)
  end.
Definition purge_vmap_area_lazy s : outcome (vmap K) := let! (_, s) := __purge_vmap_area_lazy s in Ret s.

(** fls(nr_online_cpu_ids) * (32 MB in pages). *)
Definition lazy_max_pages (nr_online_cpu_ids : Z) : Z := (if nr_online_cpu_ids =? 0 then 0 else Z.log2 nr_online_cpu_ids + 1) * (32 * 1024 * 1024 / PAGE_SIZE).
Definition free_vmap_area_noflush (cpus : Z) s (va : Z) : outcome (vmap K) :=
  let nr_lazy := s32 (vmap_lazy_nr s + s32 (Z.shiftr (u64 (va_end (va_of s va) - va_start (va_of s va))) PAGE_SHIFT)) in
  let s := set_lazy s (va :: purge_list s) nr_lazy in
  if u64 nr_lazy >? lazy_max_pages cpus then purge_vmap_area_lazy s else Ret s.

(** ** Allocation *)

(** The result of one search: an address for the area, or none. *)
Variant search := Found (addr : Z) | Overflow.

(** [while (n)]: the lowest area that ends at or above [addr]. *)
Fixpoint first_loop (fuel : nat) s (addr n first : Z) : outcome Z :=
  match fuel with
  | O => Stuck
  | S fuel' =>
      if n =? 0 then Ret first
      else if va_end (va_of s n) >=? addr then
        if va_start (va_of s n) <=? addr then Ret n
        else let! c := ld L (vm_mem s) n in first_loop fuel' s addr c n
      else let! c := ld R (vm_mem s) n in first_loop fuel' s addr c first
  end.

(** The walk over the list from [first], the head of [l], and the largest hole
    it passes. *)
Fixpoint walk s (size align vend addr hole : Z) (l : list Z) : search * Z :=
  match l with
  | [] => (Found addr, hole)
  | first :: l' =>
      if (u64 (addr + size) >? va_start (va_of s first)) && (u64 (addr + size) <=? vend) then
        let hole := if u64 (addr + hole) <? va_start (va_of s first) then u64 (va_start (va_of s first) - addr) else hole in
        let addr := ALIGN (va_end (va_of s first)) align in
        if u64 (addr + size) <? addr then (Overflow, hole) else walk s size align vend addr hole l'
      else (Found addr, hole)
  end.
(** The list from an area on. *)
Fixpoint from (x : Z) (l : list Z) : list Z := match l with [] => [] | y :: l' => if y =? x then l else from x l' end.

(** The label found: the area must end below [vend]. *)
Definition fits (size vend : Z) (r : search) : search :=
  match r with Found addr => if u64 (addr + size) >? vend then Overflow else Found addr | Overflow => Overflow end.

Definition search_plain s (size align vstart vend : Z) : outcome (search * vmap K) :=
  let s := set_cache s 0 0 vstart align in
  let addr := ALIGN vstart align in
  if u64 (addr + size) <? addr then Ret (Overflow, s)
  else
    let! first := first_loop PATH_FUEL s addr (vm_root s) 0 in
    if first =? 0 then Ret (fits size vend (Found addr), s)
    else
      let '(r, hole) := walk s size align vend addr (cached_hole_size s) (from first (va_list s)) in
      Ret (fits size vend r, set_cache s (free_vmap_cache s) hole (cached_vstart s) (cached_align s)).
Definition search_hole s (size align vstart vend : Z) : outcome (search * vmap K) :=
  if (free_vmap_cache s =? 0) || (size <? cached_hole_size s) || (vstart <? cached_vstart s) || (align <? cached_align s)
  then search_plain s size align vstart vend
  else
    let s := set_cache s (free_vmap_cache s) (cached_hole_size s) vstart align in
    let first := free_vmap_cache s in
    let addr := ALIGN (va_end (va_of s first)) align in
    if addr <? vstart then search_plain s size align vstart vend
    else if u64 (addr + size) <? addr then Ret (Overflow, s)
    else
      let '(r, hole) := walk s size align vend addr (cached_hole_size s) (from first (va_list s)) in
      Ret (fits size vend r, set_cache s (free_vmap_cache s) hole (cached_vstart s) (cached_align s)).

Definition place_area s (va addr size align vstart vend : Z) : outcome (vmap K) :=
  let s := set_va s va (mk_va addr (u64 (addr + size)) 0 (va_vm (va_of s va))) in
  let! s := __insert_vmap_area s va in
  let s := set_cache s va (cached_hole_size s) (cached_vstart s) (cached_align s) in
  let a := va_of s va in
  if negb (IS_ALIGNED (va_start a) align) || (va_start a <? vstart) || (va_end a >? vend) then Panic else Ret s.

(** The area, or a negative error number. *)
Definition alloc_vmap_area s (size align vstart vend : Z) : outcome (vmap K * Z) :=
  if (size =? 0) || negb (Z.land size (PAGE_SIZE - 1) =? 0) || negb (is_power_of_2 align) then Panic
  else
    let! (k, p) := oa_kzalloc (kmem s) SIZEOF_VMAP_AREA in
    let s := set_kmem s k in
    if p =? 0 then Ret (s, - ENOMEM)
    else
      let va := p + VA_NODE in
      let! (r, s) := search_hole s size align vstart vend in
      let! (r, s) :=
        match r with
        | Found addr => Ret (r, s)
        | Overflow => let! s := purge_vmap_area_lazy s in search_hole s size align vstart vend
        end in
      match r with
      | Found addr => let! s := place_area s va addr size align vstart vend in Ret (s, va)
      | Overflow => let! k := oa_kfree (kmem s) p in Ret (set_kmem s k, - EBUSY)
      end.
End areas.

(** ** The layer of [vm_struct] *)

Section vm_areas.
Context {K : Type} `{ObjectAllocator K} (cpus : Z).
Implicit Types s : vmap K.

(** The generic header's default gives way to the architecture's value. *)
Definition IOREMAP_MAX_ORDER : Z := PUD_SHIFT.
Definition get_count_order_long (l : Z) : Z :=
  if l =? 0 then -1 else if negb (Z.land l (u64 (l - 1)) =? 0) then Z.log2 l + 1 else Z.log2 l.

Definition setup_vmalloc_vm s (vm va flags : Z) : vmap K :=
  let a := va_of s va in
  let v := vms s vm in
  let s := set_vm s vm (mk_vm (va_start a) (u64 (va_end a - va_start a)) flags (vm_pages v) (vm_nr_pages v)) in
  set_va s va (mk_va (va_start a) (va_end a) (Z.lor (va_flags a) VM_VM_AREA) vm).

(** 0 is NULL; a negative area is an error pointer. *)
Definition __get_vm_area_node s (size align flags start end_ : Z) : outcome (vmap K * Z) :=
  let size := PAGE_ALIGN size in
  if size =? 0 then Ret (s, 0)
  else
    let align := if negb (Z.land flags VM_IOREMAP =? 0)
      then Z.shiftl 1 (Z.min (Z.max (get_count_order_long size) PAGE_SHIFT) IOREMAP_MAX_ORDER) else align in
    let! (k, area) := oa_kzalloc (kmem s) SIZEOF_VM_STRUCT in
    let s := set_kmem s k in
    if area =? 0 then Ret (s, 0)
    else
      let s := set_vm s area (mk_vm 0 0 0 0 0) in
      let size := if Z.land flags VM_NO_GUARD =? 0 then u64 (size + PAGE_SIZE) else size in
      let! (s, va) := alloc_vmap_area s size align start end_ in
      if va <? 0 then let! k := oa_kfree (kmem s) area in Ret (set_kmem s k, 0)
      else Ret (setup_vmalloc_vm s area va flags, area).
Definition get_vm_area s (size flags : Z) : outcome (vmap K * Z) := __get_vm_area_node s size 1 flags VMALLOC_START VMALLOC_END.
Definition get_vm_area_size (v : vm_struct) : Z := if Z.land (vm_flags v) VM_NO_GUARD =? 0 then u64 (vm_size v - PAGE_SIZE) else vm_size v.

Definition find_vm_area s (addr : Z) : outcome Z :=
  let! va := __find_vmap_area s addr in
  Ret (if negb (va =? 0) && negb (Z.land (va_flags (va_of s va)) VM_VM_AREA =? 0) then va_vm (va_of s va) else 0).
Definition remove_vm_area s (addr : Z) : outcome (vmap K * Z) :=
  let! va := __find_vmap_area s addr in
  if negb (va =? 0) && negb (Z.land (va_flags (va_of s va)) VM_VM_AREA =? 0) then
    let a := va_of s va in
    let s := set_va s va (mk_va (va_start a) (va_end a) (Z.lor (Z.land (va_flags a) (not64 VM_VM_AREA)) VM_LAZY_FREE) 0) in
    let! s := free_vmap_area_noflush cpus s va in
    Ret (s, va_vm a)
  else Ret (s, 0).
(** vunmap(): __vunmap() without pages to free. *)
Definition vunmap s (addr : Z) : outcome (vmap K) :=
  if addr =? 0 then Ret s
  else if negb (Z.land addr (PAGE_SIZE - 1) =? 0) then Ret s
  else
    let! va := __find_vmap_area s addr in
    let! area := deref va (va_vm (va_of s va)) in
    if area =? 0 then Ret s
    else
      let! (s, _) := remove_vm_area s addr in
      let! k := oa_kfree (kmem s) area in
      Ret (set_kmem s k).

(** ** Early boot *)

(** The list of areas noted before the allocator works, in order of address. *)
Fixpoint early_loop (vm : Z -> vm_struct) (vmlist : list Z) (x : Z) : outcome (list Z) :=
  match vmlist with
  | [] => Ret [x]
  | tmp :: l' =>
      if vm_addr (vm tmp) >=? vm_addr (vm x) then
        if vm_addr (vm tmp) <? u64 (vm_addr (vm x) + vm_size (vm x)) then Panic else Ret (x :: vmlist)
      else if u64 (vm_addr (vm tmp) + vm_size (vm tmp)) >? vm_addr (vm x) then Panic
      else let! l := early_loop vm l' x in Ret (tmp :: l)
  end.
Definition vm_area_add_early (vmap_initialized : bool) (vm : Z -> vm_struct) (vmlist : list Z) (x : Z) : outcome (list Z) :=
  if vmap_initialized then Panic else early_loop vm vmlist x.

(** vmalloc_init(): the result of kzalloc() is used without a test. *)
Fixpoint import_loop s (vmlist : list Z) : outcome (vmap K) :=
  match vmlist with
  | [] => Ret s
  | tmp :: l' =>
      let! (k, p) := oa_kzalloc (kmem s) SIZEOF_VMAP_AREA in
      let s := set_kmem s k in
      let! _ := deref p tt in
      let v := vms s tmp in
      let s := set_va s (p + VA_NODE) (mk_va (vm_addr v) (u64 (vm_addr v + vm_size v)) VM_VM_AREA tmp) in
      let! s := __insert_vmap_area s (p + VA_NODE) in
      import_loop s l'
  end.
Definition vmalloc_init s (vmlist : list Z) : outcome (vmap K) :=
  let! s := import_loop s vmlist in
  Ret (set_pcpu_hole s VMALLOC_END).
End vm_areas.
