(* ===== verification/VmallocSpec.v ===== *)
(** * Ranges of virtual addresses: searches *)

From S2P Require Import Prelude Bitops Memblock Bitmap BitmapSpec Objects Rbtree RbtreeSpec RbErase RbSet Vmalloc.
From stdpp Require Import base list numbers option sorting.
#[local] Open Scope Z_scope.
#[local] Open Scope kernel_scope.

Section searches.
Context {K : Type} `{ObjectAllocator K}.
Implicit Types s : vmap K.

Definition vas s (x : Z) : Z := va_start (va_of s x).
Definition vae s (x : Z) : Z := va_end (va_of s x).
(** Areas in order, not empty and without overlap. *)
Definition below s (x y : Z) : Prop := vae s x <= vas s y.
Definition areas s (l : list Z) : Prop := StronglySorted (below s) l /\ forall x, x ∈ l -> 0 <= vas s x < vae s x /\ vae s x < 2 ^ 64.

Lemma areas_app s l1 l2 : areas s (l1 ++ l2) -> areas s l1 /\ areas s l2 /\ forall x y, x ∈ l1 -> y ∈ l2 -> below s x y.
Proof.
  intros [Hs Hn]. assert (H3 : StronglySorted (below s) l1 /\ StronglySorted (below s) l2 /\ forall x y, x ∈ l1 -> y ∈ l2 -> below s x y).
  { clear Hn. induction l1 as [|z l1 IH]; cbn in *; [split_and!; [constructor|done|by intros ? ? ?%not_elem_of_nil]|]. inversion Hs as [|? ? Hs' Hz]; subst.
    destruct (IH Hs') as (H1 & H2 & H3). rewrite list.Forall_forall in Hz. split_and!; [constructor; [done|] |done|].
    - apply list.Forall_forall. intros y Hy. apply Hz, elem_of_app. by left.
    - intros x y [->|Hx]%elem_of_cons Hy; [apply Hz, elem_of_app; by right|by apply H3]. }
  destruct H3 as (H1 & H2 & H3). split_and!; [split; [done|]|split; [done|]|done]; intros x Hx; apply Hn, elem_of_app; auto.
Qed.
Lemma areas_cons s x l : areas s (x :: l) -> areas s l /\ (0 <= vas s x < vae s x /\ vae s x < 2 ^ 64) /\ forall y, y ∈ l -> below s x y.
Proof.
  intros Ha. destruct (areas_app s [x] l Ha) as (H1 & H2 & H3). split; [done|]. split; [apply H1; left|]. intros y Hy. apply H3; [left|done].
Qed.

(** ** __find_vmap_area() *)

Definition contains s (x a : Z) : Prop := vas s x <= a < vae s x.

Lemma sub_fuel (t : tree) (d : side) c l x r fuel : t = Node c l x r -> (forall k' t', plug k' t' = t -> (length k' < S fuel)%nat) ->
  forall k' t', plug k' t' = match d with L => l | R => r end -> (length k' < fuel)%nat.
Proof.
  intros -> Hf k' t' E. specialize (Hf (k' ++ [F d c x (match d with L => r | R => l end)]) t'). rewrite plug_app, length_app in Hf. cbn [plug length] in Hf.
  rewrite E in Hf. destruct d; specialize (Hf eq_refl); lia.
Qed.

Lemma find_tree s a t : forall par fuel, rep (vm_mem s) par t -> (forall k' t', plug k' t' = t -> (length k' < fuel)%nat) -> areas s (elems t) ->
  exists x, find_loop fuel s a (addr t) = Ret x /\ ((x = 0 /\ forall y, y ∈ elems t -> ~ contains s y a) \/ (x ∈ elems t /\ contains s x a)).
Proof.
  induction t as [|c l IHl x r IHr]; intros par [|fuel] Hr Hf Ha; try (specialize (Hf [] _ eq_refl); cbn in Hf; lia).
  - exists 0. split; [done|]. left. split; [done|by intros ? ?%not_elem_of_nil].
  - destruct Hr as (G & P & Fl & Fr & Hl & Hr). pose proof (good_nz x G). cbn [find_loop addr elems] in *. rewrite (proj2 (Z.eqb_neq x 0)) by done.
    destruct (areas_app s (elems l) (x :: elems r) Ha) as (Al & Axr & Hlx). destruct (areas_cons s x (elems r) Axr) as (Ar & Hx & Hxr).
    change (va_start (va_of s x)) with (vas s x). change (va_end (va_of s x)) with (vae s x). destruct (Z.ltb_spec a (vas s x)) as [Hlt|Hge].
    + rewrite ld_ok by done. cbn [obind]. rewrite Fl. destruct (IHl x fuel Hl) as (z & E & Hz); [by apply (sub_fuel _ L c l x r fuel eq_refl Hf)|done|].
      exists z. split; [done|]. destruct Hz as [[-> Hz]|[Hz1 Hz2]]; [left|right; split; [apply elem_of_app; by left|done]]. split; [done|].
      intros y. rewrite elem_of_app, elem_of_cons. unfold contains in *. intros [Hy|[->|Hy]]; [by apply Hz|lia|]. specialize (Hxr y Hy). unfold below in Hxr. lia.
    + rewrite Z.geb_leb. destruct (Z.leb_spec (vae s x) a) as [Hle|Hlt].
      * rewrite ld_ok by done. cbn [obind]. rewrite Fr. destruct (IHr x fuel Hr) as (z & E & Hz); [by apply (sub_fuel _ R c l x r fuel eq_refl Hf)|done|].
        exists z. split; [done|]. destruct Hz as [[-> Hz]|[Hz1 Hz2]]; [left|right; split; [apply elem_of_app; right; by right|done]]. split; [done|].
        intros y. rewrite elem_of_app, elem_of_cons. unfold contains in *. intros [Hy|[->|Hy]]; [|lia|by apply Hz].
        specialize (Hlx y x Hy ltac:(left)). unfold below in Hlx. lia.
      * exists x. split; [done|]. right. split; [apply elem_of_app; right; left|]. unfold contains. lia.
Qed.

Lemma tree_fuel m root l : rbtree m root l -> exists t, root = addr t /\ rep m 0 t /\ elems t = l /\ forall k' t', plug k' t' = t -> (length k' < PATH_FUEL)%nat.
Proof.
  intros (t & -> & Hr & Hrb & Hd & <-). exists t. split_and!; try done. intros k' t' E. pose proof (path_short m k' t') as Hp. rewrite E in Hp.
  specialize (Hp Hr Hrb (proj1 (occ_NoDup t) Hd)). unfold PATH_FUEL. lia.
Qed.

Lemma find_area_ok s l a : rbtree (vm_mem s) (vm_root s) l -> areas s l ->
  exists x, __find_vmap_area s a = Ret x /\ ((x = 0 /\ forall y, y ∈ l -> ~ contains s y a) \/ (x ∈ l /\ contains s x a)).
Proof.
  intros Ht Ha. destruct (tree_fuel _ _ _ Ht) as (t & Er & Hr & <- & Hf). unfold __find_vmap_area. rewrite Er. by apply (find_tree s a t 0).
Qed.

(** ** The first area that ends at or above an address *)

Lemma first_tree s a t : forall par fuel f0, rep (vm_mem s) par t -> (forall k' t', plug k' t' = t -> (length k' < fuel)%nat) -> areas s (elems t) ->
  exists r, first_loop fuel s a (addr t) f0 = Ret r
    /\ ((r = f0 /\ forall y, y ∈ elems t -> vae s y < a) \/ (a <= vae s r /\ exists l1 l2, elems t = l1 ++ r :: l2 /\ forall y, y ∈ l1 -> vae s y <= a)).
Proof.
  induction t as [|c l IHl x r IHr]; intros par [|fuel] f0 Hr Hf Ha; try (specialize (Hf [] _ eq_refl); cbn in Hf; lia).
  - exists f0. split; [done|]. left. split; [done|by intros ? ?%not_elem_of_nil].
  - destruct Hr as (G & P & Fl & Fr & Hl & Hr). pose proof (good_nz x G). cbn [first_loop addr elems] in *. rewrite (proj2 (Z.eqb_neq x 0)) by done.
    destruct (areas_app s (elems l) (x :: elems r) Ha) as (Al & Axr & Hlx). destruct (areas_cons s x (elems r) Axr) as (Ar & Hx & Hxr).
    change (va_start (va_of s x)) with (vas s x). change (va_end (va_of s x)) with (vae s x). rewrite Z.geb_leb. destruct (Z.leb_spec a (vae s x)) as [Hge|Hlt].
    + destruct (Z.leb_spec (vas s x) a) as [Hle|Hgt].
      * exists x. split; [done|]. right. split; [done|]. exists (elems l), (elems r). split; [done|]. intros y Hy. specialize (Hlx y x Hy ltac:(left)). unfold below in Hlx. lia.
      * rewrite ld_ok by done. cbn [obind]. rewrite Fl. destruct (IHl x fuel x Hl) as (z & E & Hz); [by apply (sub_fuel _ L c l x r fuel eq_refl Hf)|done|].
        exists z. split; [done|]. right. destruct Hz as [[-> Hz]|(Hz0 & l1 & l2 & -> & Hz)]; (split; [done|]).
        -- exists (elems l), (elems r). split; [done|]. intros y Hy. specialize (Hz y Hy). lia.
        -- exists l1, (l2 ++ x :: elems r). split; [by rewrite <- app_assoc|done].
    + rewrite ld_ok by done. cbn [obind]. rewrite Fr. destruct (IHr x fuel f0 Hr) as (z & E & Hz); [by apply (sub_fuel _ R c l x r fuel eq_refl Hf)|done|].
      assert (Hlow : forall y, y ∈ elems l -> vae s y < a) by (intros y Hy; specialize (Hlx y x Hy ltac:(left)); unfold below in Hlx; lia).
      exists z. split; [done|]. destruct Hz as [[-> Hz]|(Hz0 & l1 & l2 & -> & Hz)]; [left|right; split; [done|]].
      * split; [done|]. intros y. rewrite elem_of_app, elem_of_cons. intros [Hy|[->|Hy]]; [by apply Hlow|done|by apply Hz].
      * exists (elems l ++ x :: l1), l2. split; [by rewrite <- app_assoc|]. intros y. rewrite elem_of_app, elem_of_cons. intros [Hy|[->|Hy]]; [specialize (Hlow y Hy); lia|lia|by apply Hz].
Qed.

Lemma from_split x l1 l2 : x ∉ l1 -> from x (l1 ++ x :: l2) = x :: l2.
Proof.
  induction l1 as [|y l1 IH]; cbn; [by rewrite Z.eqb_refl|]. rewrite not_elem_of_cons. intros [Hne Hx]. rewrite (proj2 (Z.eqb_neq y x)) by done. by apply IH.
Qed.
End searches.

(** * Ranges of virtual addresses: the search for a hole

    [placed] is what a search promises: an aligned address at or above the
    start whose range ends below the limit and meets no area, the lowest such
    address; or that there is none. *)

Section search.
Context {K : Type} `{ObjectAllocator K}.
Implicit Types s : vmap K.
Context (size k vend : Z) (Hsize : 0 < size < 2 ^ 64) (Hk : 0 <= k) (Hvend : 0 <= vend < 2 ^ 64).

Definition candidate s (l : list Z) (lo b : Z) : Prop :=
  lo <= b /\ (2 ^ k | b) /\ b + size <= vend /\ forall x, x ∈ l -> b + size <= vas s x \/ vae s x <= b.
(** The place of an address among the areas. *)
Definition amid s (l : list Z) (a : Z) : Prop :=
  exists l1 l2, l = l1 ++ l2 /\ (forall x, x ∈ l1 -> vae s x <= a) /\ forall x, x ∈ l2 -> a + size <= vas s x.
Definition sound s (l : list Z) (lo : Z) (r : search) : Prop :=
  match r with Found a => lo <= a /\ (2 ^ k | a) /\ a + size <= vend /\ amid s l a | Overflow => True end.
Definition best s (l : list Z) (lo : Z) (r : search) : Prop :=
  match r with Found a => forall b, candidate s l lo b -> a <= b | Overflow => forall b, ~ candidate s l lo b end.
Definition placed s l lo r : Prop := sound s l lo r /\ best s l lo r.

(** The end of an area can be aligned without wrapping. *)
Definition can_align s (l : list Z) : Prop := forall x, x ∈ l -> vae s x + 2 ^ k <= 2 ^ 64.

Lemma ALIGN_up x : 0 <= x -> x + 2 ^ k <= 2 ^ 64 -> ALIGN x (2 ^ k) = align_up x k.
Proof.
  intros Hx Hs. assert (0 < 2 ^ k) by (apply Z.pow_pos_nonneg; lia). unfold ALIGN. rewrite u64_id by ulia. apply __ALIGN_MASK_spec; [ulia|lia|lia].
Qed.
Lemma align_up_mono x y : x <= y -> align_up x k <= align_up y k.
Proof. intros Hxy. destruct (align_up_bounds y k Hk) as [B1 B2]. apply align_up_least; [lia|lia|done]. Qed.
(** [addr + size < addr] tests for wrapping. *)
Lemma wraps a : 0 <= a < 2 ^ 64 -> (u64 (a + size) <? a) = (2 ^ 64 <=? a + size).
Proof.
  intros Ha. destruct (Z.leb_spec (2 ^ 64) (a + size)).
  - apply Z.ltb_lt. unfold u64, U64_MOD. rewrite <- (Z_mod_plus_full (a + size) (-1)), Z.mod_small; lia.
  - rewrite u64_id by ulia. apply Z.ltb_ge. lia.
Qed.

Lemma found_end s l lo : lo + size < 2 ^ 64 -> 0 <= lo -> (2 ^ k | lo) -> (forall x, x ∈ l -> vae s x <= lo) -> placed s l lo (fits size vend (Found lo)).
Proof.
  intros Hlo H0 Hd Hl. unfold placed, fits. rewrite u64_id by ulia. rewrite Z.gtb_ltb. destruct (Z.ltb_spec vend (lo + size)); cbn.
  - split; [done|]. intros b (? & ? & ? & _). lia.
  - split; [|by intros b [? _]]. split_and!; [lia|done|lia|]. exists l, []. rewrite app_nil_r. split_and!; [done|done|by intros ? ?%not_elem_of_nil].
Qed.

(** An area that is in the way of [lo] is stepped over. *)
Lemma placed_step s x l lo r : vas s x < lo + size -> 0 <= vae s x -> lo <= align_up (vae s x) k ->
  placed s l (align_up (vae s x) k) r -> placed s (x :: l) lo r.
Proof.
  intros Hx H0 Hlo [Hr1 Hr2]. assert (Hc : forall b, candidate s (x :: l) lo b -> candidate s l (align_up (vae s x) k) b).
  { intros b (B1 & B2 & B3 & B4). split_and!; [|done|done|intros y Hy; apply B4; by right]. apply align_up_least; [lia| |done].
    destruct (B4 x ltac:(left)); lia. }
  destruct (align_up_bounds (vae s x) k Hk) as [Hu _]. destruct r as [a|]; split; cbn in *.
  - destruct Hr1 as (R1 & R2 & R3 & l1 & l2 & -> & R4 & R5). split_and!; [lia|done|done|]. exists (x :: l1), l2. split_and!; [done| |done].
    intros y [->|Hy]%elem_of_cons; [lia|by apply R4].
  - intros b Hb. by apply Hr2, Hc.
  - done.
  - intros b Hb. by apply (Hr2 b), Hc.
Qed.

Lemma walk_ok s l : forall lo hole, areas s l -> can_align s l -> 0 <= lo -> lo + size < 2 ^ 64 -> (2 ^ k | lo) -> (forall x, x ∈ l -> lo <= align_up (vae s x) k) ->
  placed s l lo (fits size vend (fst (walk s size (2 ^ k) vend lo hole l))).
Proof.
  induction l as [|x l IH]; intros lo hole Ha Hal H0 Hlo Hd Hup; cbn [walk].
  - apply found_end; try done. by intros ? ?%not_elem_of_nil.
  - destruct (areas_cons s x l Ha) as (Al & [Hx1 Hx2] & Hx3). change (va_start (va_of s x)) with (vas s x). change (va_end (va_of s x)) with (vae s x).
    rewrite (u64_id (lo + size)) by ulia. rewrite !Z.gtb_ltb. destruct (Z.ltb_spec (vas s x) (lo + size)) as [Hin|Hout]; cbn [andb].
    + destruct (Z.leb_spec (lo + size) vend) as [Hle|Hgt]; cbn [andb fst].
      * assert (Hax : ALIGN (vae s x) (2 ^ k) = align_up (vae s x) k) by (apply ALIGN_up; [lia|apply Hal; left]).
        destruct (align_up_bounds (vae s x) k Hk) as [B1 B2]. specialize (Hal x ltac:(left)) as Hx4. rewrite Hax, wraps by lia.
        destruct (Z.leb_spec (2 ^ 64) (align_up (vae s x) k + size)) as [Hw|Hnw]; cbn [fst].
        -- apply (placed_step s x l lo Overflow); [lia|lia|apply Hup; left|]. split; [done|]. intros b (C1 & C2 & C3 & _). lia.
        -- apply placed_step; [lia|lia|apply Hup; left|]. apply IH; [done|intros y Hy; apply Hal; by right|lia|lia|done|].
           intros y Hy. specialize (Hx3 y Hy). destruct (areas_app s [x] l Ha) as (_ & A2 & _). destruct A2 as [_ A2]. specialize (A2 y Hy).
           unfold below in Hx3. apply align_up_mono. lia.
      * unfold fits. rewrite u64_id by ulia. rewrite Z.gtb_ltb, (proj2 (Z.ltb_lt vend (lo + size))) by done. split; [done|]. intros b (? & ? & ? & _). lia.
    + cbn [fst]. unfold fits. rewrite u64_id by ulia. rewrite Z.gtb_ltb. destruct (Z.ltb_spec vend (lo + size)).
      * split; [done|]. intros b (? & ? & ? & _). lia.
      * split; [|by intros b [? _]]. split_and!; [lia|done|lia|]. exists [], (x :: l). split_and!; [done|by intros ? ?%not_elem_of_nil|].
        intros y [->|Hy]%elem_of_cons; [lia|]. specialize (Hx3 y Hy). unfold below in Hx3. lia.
Qed.

(** Areas that end at or below the start do not matter. *)
Lemma sound_prefix s l1 l2 lo r : (forall x, x ∈ l1 -> vae s x <= lo) -> sound s l2 lo r -> sound s (l1 ++ l2) lo r.
Proof.
  intros H1. destruct r as [a|]; [|done]. cbn. intros (R1 & R2 & R3 & la & lb & -> & R4 & R5). split_and!; try done. exists (l1 ++ la), lb.
  rewrite app_assoc. split_and!; [done| |done]. intros x [Hx|Hx]%elem_of_app; [specialize (H1 x Hx); lia|by apply R4].
Qed.
Lemma placed_prefix s l1 l2 lo r : (forall x, x ∈ l1 -> vae s x <= lo) -> placed s l2 lo r -> placed s (l1 ++ l2) lo r.
Proof.
  intros H1 [S B]. split; [by apply sound_prefix|]. assert (Hc : forall b, candidate s (l1 ++ l2) lo b -> candidate s l2 lo b).
  { intros b (B1 & B2 & B3 & B4). split_and!; try done. intros x Hx. apply B4, elem_of_app. by right. }
  destruct r; cbn in *; intros b Hb; [by apply B, Hc|by apply (B b), Hc].
Qed.
(** The start of the search is aligned first. *)
Lemma placed_align s l v r : placed s l (align_up v k) r -> placed s l v r.
Proof.
  intros [S B]. destruct (align_up_bounds v k Hk) as [Hu _]. assert (Hc : forall b, candidate s l v b -> candidate s l (align_up v k) b).
  { intros b (B1 & B2 & B3 & B4). split_and!; try done. by apply align_up_least. }
  destruct r as [a|]; split; cbn in *; [destruct S as (? & ? & ? & ?); split_and!; try done; lia|intros b Hb; by apply B, Hc|done|intros b Hb; by apply (B b), Hc].
Qed.

Definition index s (l : list Z) : Prop := rbtree (vm_mem s) (vm_root s) l /\ va_list s = l /\ areas s l.

Lemma search_plain_ok s l vstart : index s l -> can_align s l -> 0 <= vstart -> vstart + 2 ^ k <= 2 ^ 64 ->
  exists r hole, search_plain s size (2 ^ k) vstart vend = Ret (r, set_cache s 0 hole vstart (2 ^ k)) /\ placed s l vstart r.
Proof.
  intros (Ht & El & Ha) Hal H0 H1. unfold search_plain. rewrite ALIGN_up by done. destruct (align_up_bounds vstart k Hk) as [B1 B2]. rewrite wraps by lia.
  destruct (Z.leb_spec (2 ^ 64) (align_up vstart k + size)) as [Hw|Hnw].
  - exists Overflow, 0. split; [done|]. apply placed_align. split; [done|]. intros b (? & ? & ? & _). lia.
  - destruct (tree_fuel _ _ _ Ht) as (t & Er & Hr & Et & Hf). set (s1 := set_cache s 0 0 vstart (2 ^ k)). change (vm_root s1) with (vm_root s). rewrite Er.
    destruct (first_tree s1 (align_up vstart k) t 0 PATH_FUEL 0 Hr Hf) as (first & E & Hfirst); [by rewrite Et|]. rewrite E. cbn [obind]. rewrite Et in Hfirst.
    assert (Hnz : forall x, x ∈ l -> x <> 0) by (intros x Hx; by eapply good_nz, rbtree_good).
    destruct Hfirst as [[-> Hlow]|(Hge & l1 & l2 & -> & Hlow)].
    + exists (fits size vend (Found (align_up vstart k))), 0. split; [done|]. apply placed_align, found_end; [done|lia|done|]. intros x Hx. specialize (Hlow x Hx). change (vae s1 x) with (vae s x) in Hlow. lia.
    + rewrite (proj2 (Z.eqb_neq first 0)) by (apply Hnz, elem_of_app; right; left). change (va_list s1) with (va_list s). rewrite El, from_split.
      * pose proof (areas_app s l1 (first :: l2) Ha) as (_ & Ha2 & _).
        pose proof (walk_ok s1 (first :: l2) (align_up vstart k) (cached_hole_size s1) Ha2) as Hw.
        destruct (walk s1 _ _ _ _ _ _) as [r hole]. exists (fits size vend r), hole. split; [done|]. apply placed_align, placed_prefix; [done|].
        apply Hw; [intros x Hx; apply Hal, elem_of_app; by right|lia|done|done|]. intros x Hx. change (vae s1 x) with (vae s x).
        enough (align_up vstart k <= vae s x) by (pose proof (align_up_bounds (vae s x) k Hk) as [? _]; lia). apply elem_of_cons in Hx as [->|Hx]; [done|].
        destruct (areas_cons s first l2 Ha2) as (Al2 & _ & Hb). specialize (Hb x Hx). destruct Al2 as [_ Al2]. specialize (Al2 x Hx). unfold below in Hb. change (vae s1 first) with (vae s first) in Hge. lia.
      * apply rbtree_nodup in Ht. apply list.NoDup_app in Ht as (_ & N & _). intros Hf1. apply (N first Hf1). left.
Qed.

(** When the search starts from the beginning and not at the cached area. *)
Definition from_start s (vstart : Z) : Prop :=
  free_vmap_cache s = 0 \/ size < cached_hole_size s \/ vstart < cached_vstart s \/ 2 ^ k < cached_align s.

Lemma search_hole_ok s l vstart : index s l -> can_align s l -> 0 <= vstart -> vstart + 2 ^ k <= 2 ^ 64 -> free_vmap_cache s ∈ 0 :: l ->
  exists r c hole, search_hole s size (2 ^ k) vstart vend = Ret (r, set_cache s c hole vstart (2 ^ k)) /\ c ∈ 0 :: l
    /\ sound s l vstart r /\ (from_start s vstart -> c = 0 /\ best s l vstart r).
Proof.
  intros Hi Hal H0 H1 Hc. unfold search_hole.
  assert (Hplain : exists r c hole, search_plain s size (2 ^ k) vstart vend = Ret (r, set_cache s c hole vstart (2 ^ k)) /\ c ∈ 0 :: l
    /\ sound s l vstart r /\ (from_start s vstart -> c = 0 /\ best s l vstart r)).
  { destruct (search_plain_ok s l vstart Hi Hal H0 H1) as (r & hole & E & S & B). exists r, 0, hole. split_and!; [done|left|done|done]. }
  destruct ((free_vmap_cache s =? 0) || (size <? cached_hole_size s) || (vstart <? cached_vstart s) || (2 ^ k <? cached_align s)) eqn:Eg; [exact Hplain|].
  rewrite !orb_false_iff, Z.eqb_neq, !Z.ltb_ge in Eg. destruct Eg as [[[G1 G2] G3] G4]. destruct Hi as (Ht & El & Ha).
  set (first := free_vmap_cache s) in *. apply elem_of_cons in Hc as [Hc|Hc]; [done|]. assert (Hx : 0 <= vae s first).
  { destruct Ha as [_ Ha]. destruct (Ha first Hc). lia. }
  set (s1 := set_cache s first (cached_hole_size s) vstart (2 ^ k)). change (va_end (va_of s1 (free_vmap_cache s1))) with (vae s first).
  rewrite ALIGN_up by (done || by apply Hal). destruct (Z.ltb_spec (align_up (vae s first) k) vstart) as [Hlt|Hge].
  { (* the label nocache: the changed cache fields are overwritten *) exact Hplain. }
  assert (Hnb : from_start s vstart -> False) by (unfold from_start; fold first; lia). destruct (align_up_bounds (vae s first) k Hk) as [B1 B2].
  specialize (Hal first Hc) as Hal1. rewrite wraps by lia. destruct (Z.leb_spec (2 ^ 64) (align_up (vae s first) k + size)) as [Hw|Hnw].
  { exists Overflow, first, (cached_hole_size s). split_and!; [done|by right|done|done]. }
  apply list_elem_of_split in Hc as (l1 & l2 & ->). change (va_list s1) with (va_list s). change (free_vmap_cache s1) with first. rewrite El, from_split.
  - pose proof (areas_app s l1 (first :: l2) Ha) as (_ & Ha2 & Hb). 
    pose proof (walk_ok s1 (first :: l2) (align_up (vae s first) k) (cached_hole_size s1) Ha2) as Hw. destruct (walk s1 _ _ _ _ _ _) as [r hole].
    exists (fits size vend r), first, hole. split_and!; [done|right; apply elem_of_app; right; left| |done].
    destruct Hw as [Hw _]; [intros x Hx'; apply Hal, elem_of_app; by right|lia|done|done| |].
    + intros x [->|Hx']%elem_of_cons; [done|]. apply align_up_mono. change (vae s1 x) with (vae s x).
      destruct (areas_cons s first l2 Ha2) as ([_ Al2] & _ & Hb2). specialize (Hb2 x Hx'). specialize (Al2 x Hx'). unfold below in Hb2. lia.
    + apply (sound_prefix s l1) in Hw; [|intros x Hx'; specialize (Hb x first Hx' ltac:(left)); unfold below in Hb; destruct Ha2 as [_ Ha2]; specialize (Ha2 first ltac:(left)); lia].
      cbn [fst] in Hw. destruct (fits size vend r) as [a|]; [|done]. destruct Hw as (W1 & W2 & W3 & W4). split_and!; [lia|done|done|done].
  - apply rbtree_nodup in Ht. apply list.NoDup_app in Ht as (_ & N & _). intros Hf1. apply (N first Hf1). left.
Qed.
End search.
