(* ===== verification/VmallocOps.v ===== *)
(** * Ranges of virtual addresses: placing, freeing and purging areas *)

From S2P Require Import Prelude Bitops Memblock Bitmap BitmapSpec Objects Rbtree RbtreeSpec RbSet VmallocSpec.
From stdpp Require Import base list numbers option sorting gmap sets.
From S2P Require Import RbSet Vmalloc.
#[local] Open Scope Z_scope.
#[local] Open Scope kernel_scope.

(** Objects of the slab allocator are aligned to words and do not wrap. *)
Class AlignedObjects (K : Type) `{ObjectAllocator K} : Prop :=
  oa_aligned k size k' p : 0 < size -> oa_kzalloc k size = Ret (k', p) -> p <> 0 -> 0 < p /\ (8 | p) /\ p + size <= 2 ^ 64.

Section ops.
Context {K : Type} `{HK : ObjectAllocatorLaws K}.
Implicit Types s : vmap K.

(** The tree, the list and the ranges agree; the cached area is one of them;
    every area waiting to be purged is still there, once; every area lives in
    an object. *)
Record vmap_ok s (l : list Z) : Prop := {
  vo_index : index s l;
  vo_cache : free_vmap_cache s ∈ 0 :: l;
  vo_lazy : NoDup (purge_list s) /\ purge_list s ⊆ l;
  vo_objs : forall x, x ∈ l -> x - VA_NODE ∈ oa_live (kmem s);
}.

Lemma areas_ext s s' l : (forall x, x ∈ l -> va_of s' x = va_of s x) -> areas s l -> areas s' l.
Proof.
  intros He [Hs Hn]. assert (E1 : forall x, x ∈ l -> vas s' x = vas s x) by (intros x Hx; unfold vas; by rewrite He).
  assert (E2 : forall x, x ∈ l -> vae s' x = vae s x) by (intros x Hx; unfold vae; by rewrite He). split.
  - apply (sorted_same (below s)); [done|]. intros x y Hx Hy. unfold below. by rewrite E1, E2.
  - intros x Hx. rewrite E1, E2 by done. by apply Hn.
Qed.

(** ** Placing an area *)

Lemma add_after_last l1 x l2 : l1 <> [] -> NoDup (l1 ++ l2) -> list_add_after (last0 l1) x (l1 ++ l2) = l1 ++ x :: l2.
Proof.
  destruct l1 as [|y l1 _] using rev_ind; [done|]. intros _ Hd. unfold last0. rewrite last_snoc. change (default 0 (Some y)) with y. rewrite <- app_assoc in Hd |- *. cbn [app] in *. clear -Hd.
  induction l1 as [|z l1 IH]; cbn [list_add_after app] in *; [by rewrite Z.eqb_refl|]. apply list.NoDup_cons in Hd as [Hz Hd].
  destruct (Z.eqb_spec z y) as [->|]; [destruct Hz; apply elem_of_app; right; left|]. by rewrite IH.
Qed.

Lemma insert_area_ok s l1 l2 va : index s (l1 ++ l2) -> good va -> va ∉ l1 ++ l2 -> 0 <= vas s va < vae s va -> vae s va < 2 ^ 64 ->
  (forall x, x ∈ l1 -> vae s x <= vas s va) -> (forall x, x ∈ l2 -> vae s va <= vas s x) ->
  exists m root, __insert_vmap_area s va = Ret (set_tree s m root (l1 ++ va :: l2)) /\ index (set_tree s m root (l1 ++ va :: l2)) (l1 ++ va :: l2).
Proof.
  intros (Ht & El & Ha) G Hn Hlo Hhi Hl1 Hl2. assert (Hne : forall x, x ∈ l1 ++ l2 -> vas s x < vae s x) by (intros x Hx; destruct Ha as [_ Ha]; destruct (Ha x Hx); lia).
  destruct (rb_add_list _ _ l1 l2 (va_go s va) va Ht) as (m & root & E & R1 & _); [| |done|done|].
  - intros y Hy. specialize (Hl1 y Hy). specialize (Hne y ltac:(apply elem_of_app; by left)). unfold va_go. fold (vas s va) (vae s va) (vas s y) (vae s y).
    rewrite (proj2 (Z.ltb_ge _ _)) by lia. rewrite Z.gtb_ltb, (proj2 (Z.ltb_lt _ _)) by lia. done.
  - intros y Hy. specialize (Hl2 y Hy). specialize (Hne y ltac:(apply elem_of_app; by right)). unfold va_go. fold (vas s va) (vae s va) (vas s y) (vae s y).
    rewrite (proj2 (Z.ltb_lt _ _)) by lia. done.
  - unfold __insert_vmap_area. rewrite E. cbn [obind]. rewrite (rb_prev_list m root l1 va l2 R1). cbn [obind]. rewrite El. exists m, root.
    assert (Hlist : (if negb (last0 l1 =? 0) then list_add_after (last0 l1) va (l1 ++ l2) else va :: l1 ++ l2) = l1 ++ va :: l2).
    { destruct l1 as [|y l1 _] using rev_ind; [done|]. rewrite add_after_last; [|by destruct l1|by apply (rbtree_nodup _ _ _ Ht)].
      unfold last0. rewrite last_snoc. change (default 0 (Some y)) with y. rewrite (proj2 (Z.eqb_neq y 0)); [done|]. eapply good_nz, rbtree_good; [exact R1|]. rewrite !elem_of_app. left. right. left. }
    rewrite Hlist. split; [done|]. split_and!; [done|done|]. split.
    + apply sorted_put; [by apply Ha|done|done].
    + intros x Hx. destruct Ha as [_ Ha]. rewrite elem_of_app, elem_of_cons in Hx. destruct (decide (x = va)) as [->|]; [done|]. apply Ha, elem_of_app. tauto.
Qed.

Lemma is_aligned a k : 0 <= k -> 2 ^ k <= 2 ^ 64 -> (2 ^ k | a) -> IS_ALIGNED a (2 ^ k) = true.
Proof.
  intros Hk Hk2 [c ->]. assert (0 < 2 ^ k) by (apply Z.pow_pos_nonneg; lia). unfold IS_ALIGNED. rewrite u64_id by ulia. 
  replace (2 ^ k - 1) with (Z.ones k) by (rewrite Z.ones_equiv; lia). rewrite Z.land_ones, Z.mod_mul by lia. done.
Qed.

Lemma place_area_ok s l va a size k vstart vend : vmap_ok s l -> good va -> va ∉ l -> va - VA_NODE ∈ oa_live (kmem s) ->
  0 < size -> 0 <= k -> 2 ^ k <= 2 ^ 64 -> 0 <= vstart -> vend < 2 ^ 64 -> sound size k vend s l vstart (Found a) ->
  exists s' l', place_area s va a size (2 ^ k) vstart vend = Ret s' /\ vmap_ok s' l' /\ l' ≡ₚ va :: l
    /\ vas s' va = a /\ vae s' va = a + size /\ (forall x, x <> va -> va_of s' x = va_of s x) /\ purge_list s' = purge_list s /\ kmem s' = kmem s.
Proof.
  intros [(Ht & El & Ha) Hc [Hp1 Hp2] Ho] G Hn Hva Hs Hk Hk2 H0 Hv (Ha1 & Ha2 & Ha3 & l1 & l2 & -> & Hl1 & Hl2). unfold place_area. rewrite u64_id by ulia.
  set (s1 := set_va s va (mk_va a (a + size) 0 (va_vm (va_of s va)))).
  assert (Eva : va_of s1 va = mk_va a (a + size) 0 (va_vm (va_of s va))) by (cbn; by rewrite Z.eqb_refl).
  assert (Eot : forall x, x <> va -> va_of s1 x = va_of s x) by (intros x Hx; cbn; by rewrite (proj2 (Z.eqb_neq x va))).
  assert (Evs : vas s1 va = a) by (unfold vas; by rewrite Eva). assert (Eve : vae s1 va = a + size) by (unfold vae; by rewrite Eva).
  assert (Hne : forall x, x ∈ l1 ++ l2 -> va_of s1 x = va_of s x) by (intros x Hx; apply Eot; by intros ->).
  destruct (insert_area_ok s1 l1 l2 va) as (m & root & E & Hi); [split_and!; [done|done|by apply (areas_ext s)]|done|done|rewrite Evs, Eve; lia|lia| | |].
  - intros x Hx. rewrite Evs. unfold vae. rewrite Hne by (apply elem_of_app; by left). by apply Hl1.
  - intros x Hx. rewrite Eve. unfold vas. rewrite Hne by (apply elem_of_app; by right). by apply Hl2.
  - rewrite E. cbn [obind]. set (s2 := set_tree s1 m root (l1 ++ va :: l2)) in *. change (va_of (set_cache s2 _ _ _ _) va) with (va_of s1 va). rewrite Eva.
    cbn [va_start va_end]. rewrite is_aligned, (proj2 (Z.ltb_ge a vstart)), Z.gtb_ltb, (proj2 (Z.ltb_ge vend (a + size))) by (done || lia). cbn [negb orb].
    eexists _, (l1 ++ va :: l2). split_and!; [reflexivity| |by rewrite Permutation_middle|done|done|done|done|done]. split; [exact Hi|right; apply elem_of_app; right; left| |].
    + split; [done|]. intros x Hx%Hp2. rewrite elem_of_app, elem_of_cons in *. tauto.
    + intros x. rewrite elem_of_app, elem_of_cons. intros [Hx|[->|Hx]]; [|done|]; apply Ho, elem_of_app; tauto.
Qed.

(** ** Freeing an area *)

Lemma filter_one (l1 l2 : list Z) x : x ∉ l1 ++ l2 -> filter (fun y => y <> x) (l1 ++ x :: l2) = l1 ++ l2.
Proof.
  intros Hx. rewrite filter_app, filter_cons, decide_False by (by intros []). rewrite <- filter_app. apply filter_every. intros y Hy ->. done.
Qed.

Lemma pcpu_hole_if s (b : bool) h : (if b then set_pcpu_hole s h else s) = set_pcpu_hole s (if b then h else vmap_area_pcpu_hole s).
Proof. destruct b; [done|]. by destruct s. Qed.

Lemma free_area_ok s l1 x l2 : vmap_ok s (l1 ++ x :: l2) -> x ∉ purge_list s ->
  exists s', __free_vmap_area s x = Ret s' /\ vmap_ok s' (l1 ++ l2) /\ va_of s' = va_of s /\ purge_list s' = purge_list s
    /\ oa_live (kmem s') = oa_live (kmem s) ∖ {[x - VA_NODE]} /\ (free_vmap_cache s = 0 -> free_vmap_cache s' = 0).
Proof.
  intros [(Ht & El & Ha) Hc [Hp1 Hp2] Ho] Hx. assert (Hin : x ∈ l1 ++ x :: l2) by (apply elem_of_app; right; left).
  pose proof (rbtree_nodup _ _ _ Ht) as Hd. assert (Hxn : x ∉ l1 ++ l2).
  { rewrite <- Permutation_middle in Hd. by apply list.NoDup_cons in Hd as [Hd _]. }
  pose proof (good_nz x (rbtree_good _ _ _ _ Ht Hin)) as Hz. unfold __free_vmap_area. rewrite (rb_not_empty _ _ _ x Ht Hin). cbn [obind].
  assert (Hcache : exists c, (if negb (free_vmap_cache s =? 0) then
        if va_end (va_of s x) <? cached_vstart s then Ret 0
        else if va_start (va_of s x) <=? va_start (va_of s (free_vmap_cache s)) then rb_prev (vm_mem s) x else Ret (free_vmap_cache s)
      else Ret (free_vmap_cache s)) = Ret c /\ c ∈ 0 :: l1 ++ l2 /\ (free_vmap_cache s = 0 -> c = 0)).
  { destruct (Z.eqb_spec (free_vmap_cache s) 0) as [E0|N0]; cbn [negb]; [exists 0; rewrite E0; split_and!; [done|left|done]|].
    destruct (Z.ltb_spec (va_end (va_of s x)) (cached_vstart s)); [exists 0; split_and!; [done|left|done]|].
    destruct (Z.leb_spec (va_start (va_of s x)) (va_start (va_of s (free_vmap_cache s)))).
    - exists (last0 l1). split_and!; [by apply (rb_prev_list _ _ _ _ _ Ht)| |done]. destruct l1 as [|y l1 _] using rev_ind; [left|].
      unfold last0. rewrite last_snoc. right. rewrite !elem_of_app. left. right. left.
    - exists (free_vmap_cache s). split_and!; [done| |done]. rewrite elem_of_cons, elem_of_app, elem_of_cons in Hc. rewrite elem_of_cons, elem_of_app.
      destruct Hc as [|[|[Ec|]]]; try tauto. rewrite Ec in *. lia. }
  destruct Hcache as (c & Ec & Hcin & Hc0). rewrite Ec. cbn [obind]. cbn [vm_mem vm_root set_cache]. destruct (rb_erase_list _ _ _ _ _ Ht) as (m & root & E & R1 & _). rewrite E. cbn [obind].
  unfold RB_CLEAR_NODE. rewrite st_pc_ok by done. cbn [obind]. set (s1 := set_cache s c _ _ _). assert (Hl : filter (fun y => y <> x) (va_list s1) = l1 ++ l2).
  { cbn. rewrite El. by apply filter_one. }
  rewrite Hl. set (s2 := set_tree s1 _ _ _). rewrite pcpu_hole_if. set (h := if _ : bool then _ else _).
  change (kmem (set_pcpu_hole s2 h)) with (kmem s). destruct (oa_kfree_law (kmem s) (x - VA_NODE) (Ho x Hin)) as (k & Ek & Hk).
  rewrite Ek. cbn [obind]. eexists. split_and!; [reflexivity| |done|done|done|done]. split.
  - split_and!; [|done|]. { apply (rbtree_frame m); [done|]. intros z Hz'. apply same_setpc. by intros ->. }
    split; [by apply (sorted_remove _ _ x), Ha|]. intros y Hy. destruct Ha as [_ Ha]. apply Ha. rewrite elem_of_app, elem_of_cons in *. tauto.
  - exact Hcin.
  - split; [done|]. intros y Hy. change (y ∈ purge_list s) in Hy. specialize (Hp2 y Hy). rewrite elem_of_app, elem_of_cons in *. destruct Hp2 as [|[->|]]; tauto.
  - intros y Hy. change (y - VA_NODE ∈ oa_live k). rewrite Hk, elem_of_difference, elem_of_singleton. split; [apply Ho; rewrite elem_of_app, elem_of_cons in *; tauto|].
    intros E'. apply Hxn. by replace x with y by lia.
Qed.

(** ** Purging *)

(** The areas that are not waiting in [ps], and the objects of those that are. *)
Definition without (ps l : list Z) : list Z := filter (fun y => y ∉ ps) l.
Definition objects (ps : list Z) : gset Z := list_to_set ((fun x => x - VA_NODE) <$> ps).

Lemma elem_without ps l x : x ∈ without ps l <-> x ∈ l /\ x ∉ ps.
Proof. unfold without. rewrite list_elem_of_filter. tauto. Qed.
Lemma without_nil l : without [] l = l.
Proof. apply filter_every. intros x _. apply not_elem_of_nil. Qed.
Lemma without_cons x ps l1 l2 : x ∉ l1 ++ l2 -> without (x :: ps) (l1 ++ x :: l2) = without ps (l1 ++ l2).
Proof.
  intros Hx. unfold without. rewrite <- (filter_one l1 l2 x Hx), list_filter_filter. apply list_filter_iff. intros y. rewrite not_elem_of_cons. tauto.
Qed.
Lemma objects_cons x ps : objects (x :: ps) = {[x - VA_NODE]} ∪ objects ps.
Proof. done. Qed.

Lemma vmap_ok_lazy s l p n : vmap_ok s l -> NoDup p -> p ⊆ l -> vmap_ok (set_lazy s p n) l.
Proof. intros [Hi Hc _ Ho] Hp1 Hp2. by split. Qed.

Lemma purge_loop_ok ps : forall s l, vmap_ok s l -> purge_list s = [] -> NoDup ps -> ps ⊆ l ->
  exists s', purge_loop s ps = Ret s' /\ vmap_ok s' (without ps l) /\ va_of s' = va_of s /\ purge_list s' = []
    /\ oa_live (kmem s') = oa_live (kmem s) ∖ objects ps /\ (free_vmap_cache s = 0 -> free_vmap_cache s' = 0).
Proof.
  induction ps as [|x ps IH]; intros s l Hok Hp Hd Hin; cbn [purge_loop].
  - exists s. rewrite without_nil. split_and!; try done. unfold objects. cbn. set_solver.
  - apply list.NoDup_cons in Hd as [Hx Hd]. assert (Hxl : x ∈ l) by (apply Hin; left). apply list_elem_of_split in Hxl as (l1 & l2 & ->).
    destruct (free_area_ok s l1 x l2 Hok) as (s1 & E & O1 & V1 & P1 & L1 & C1); [rewrite Hp; apply not_elem_of_nil|]. rewrite E. cbn [obind]. rewrite P1, Hp.
    set (s2 := set_lazy s1 [] _). assert (Hxn : x ∉ l1 ++ l2).
    { destruct Hok as [(Ht & _) _ _ _]. apply rbtree_nodup in Ht. rewrite <- Permutation_middle in Ht. by apply list.NoDup_cons in Ht as [Ht _]. }
    destruct (IH s2 (l1 ++ l2)) as (s' & E' & O' & V' & P' & L' & C'); [apply vmap_ok_lazy; [done|constructor|apply list_subseteq_nil]|done|done| |].
    + intros y Hy. specialize (Hin y ltac:(by right)). rewrite elem_of_app, elem_of_cons in *. destruct Hin as [|[->|]]; tauto.
    + exists s'. split_and!; [done|by rewrite without_cons|by rewrite V'|done| |intros H0; apply C'; by apply C1].
      rewrite L'. change (kmem s2) with (kmem s1). rewrite L1, objects_cons. set_solver.
Qed.

Lemma purge_ok s l : vmap_ok s l ->
  exists s', purge_vmap_area_lazy s = Ret s' /\ vmap_ok s' (without (purge_list s) l) /\ va_of s' = va_of s /\ purge_list s' = []
    /\ oa_live (kmem s') = oa_live (kmem s) ∖ objects (purge_list s) /\ (free_vmap_cache s = 0 -> free_vmap_cache s' = 0).
Proof.
  intros Hok. pose proof (vo_lazy _ _ Hok) as [Hp1 Hp2]. unfold purge_vmap_area_lazy, __purge_vmap_area_lazy.
  destruct (purge_loop_ok (purge_list s) (set_lazy s [] (vmap_lazy_nr s)) l) as (s' & E & H'); [apply vmap_ok_lazy; [done|constructor|apply list_subseteq_nil]|done|done|done|].
  exists s'. split; [|exact H']. destruct (purge_list s) as [|x ps]; [|by rewrite E]. cbn [purge_loop] in E. by injection E as <-.
Qed.
End ops.

(** * Ranges of virtual addresses: allocation *)

Section alloc.
Context {K : Type} `{HK : ObjectAllocatorLaws K} {HA : AlignedObjects K}.
Implicit Types s : vmap K.

Lemma vmap_ok_kmem s l k : vmap_ok s l -> (forall x, x ∈ l -> x - VA_NODE ∈ oa_live k) -> vmap_ok (set_kmem s k) l.
Proof. intros [Hi Hc Hp _] Ho. by split. Qed.
Lemma vmap_ok_cache s l c h v a : vmap_ok s l -> c ∈ 0 :: l -> vmap_ok (set_cache s c h v a) l.
Proof. intros [Hi _ Hp Ho] Hc. by split. Qed.

Lemma objects_live s l : vmap_ok s l -> objects (purge_list s) ⊆ oa_live (kmem s).
Proof.
  intros [_ _ [_ Hp] Ho] p. unfold objects. rewrite elem_of_list_to_set, list_elem_of_fmap. intros (x & -> & Hx). by apply Ho, Hp.
Qed.

(** What is said of a search depends on the ranges only. *)
Lemma sound_ext size k vend s s' l lo r : va_of s' = va_of s -> sound size k vend s' l lo r -> sound size k vend s l lo r.
Proof. intros E. unfold sound, amid, vas, vae. by rewrite E. Qed.
Lemma best_ext size k vend s s' l lo r : va_of s' = va_of s -> best size k vend s' l lo r -> best size k vend s l lo r.
Proof. intros E. unfold best, candidate, vas, vae. by rewrite E. Qed.

Section request.
Context (size k vstart vend : Z) (Hsize : 0 < size < 2 ^ 64) (Hpage : (PAGE_SIZE | size)) (Hk : 0 <= k < 64)
  (Hvs : 0 <= vstart) (Hvs2 : vstart + 2 ^ k <= 2 ^ 64) (Hvend : 0 <= vend < 2 ^ 64).

(** The three ends of an allocation.  [ps] are the areas purged on the way. *)
Definition no_memory s l s' (r : Z) : Prop :=
  r = - ENOMEM /\ oa_serves (kmem s) [SIZEOF_VMAP_AREA] = false /\ vmap_ok s' l /\ va_of s' = va_of s /\ purge_list s' ⊆ purge_list s /\ oa_live (kmem s') = oa_live (kmem s).
Definition no_room s l s' (r : Z) : Prop :=
  let ps := purge_list s in
  r = - EBUSY /\ vmap_ok s' (without ps l) /\ va_of s' = va_of s /\ purge_list s' ⊆ purge_list s /\ oa_live (kmem s') = oa_live (kmem s) ∖ objects ps
  /\ (from_start size k s vstart -> forall b, ~ candidate size k vend s (without ps l) vstart b).
Definition got_area s l s' (r : Z) : Prop :=
  exists ps l', (ps = [] \/ ps = purge_list s /\ (from_start size k s vstart -> forall b, ~ candidate size k vend s l vstart b))
  /\ good r /\ (r ∉ l) /\ vmap_ok s' l' /\ l' ≡ₚ r :: without ps l
  /\ sound size k vend s (without ps l) vstart (Found (vas s' r)) /\ vae s' r = vas s' r + size
  /\ (forall x, x <> r -> va_of s' x = va_of s x)
  /\ purge_list s' ⊆ purge_list s /\ oa_live (kmem s') = ({[r - VA_NODE]} ∪ oa_live (kmem s)) ∖ objects ps
  /\ (from_start size k s vstart -> forall b, candidate size k vend s (without ps l) vstart b -> vas s' r <= b).

Lemma alloc_guards : (size =? 0) || negb (Z.land size (PAGE_SIZE - 1) =? 0) || negb (is_power_of_2 (2 ^ k)) = false.
Proof.
  assert (0 < 2 ^ k) by (apply Z.pow_pos_nonneg; lia). assert (2 ^ k < 2 ^ 64) by (apply Z.pow_lt_mono_r; lia). destruct Hpage as [c Ec].
  rewrite !orb_false_iff, !negb_false_iff, Z.eqb_neq, Z.eqb_eq. split_and!; [lia| |].
  - rewrite Ec. change (PAGE_SIZE - 1) with (Z.ones 12). rewrite Z.land_ones by lia. change PAGE_SIZE with (2 ^ 12). apply Z.mod_mul. lia.
  - unfold is_power_of_2. rewrite andb_true_iff, negb_true_iff, Z.eqb_neq. split; [lia|].
    pose proof (is_aligned (2 ^ k) k) as Hal. unfold IS_ALIGNED in Hal. apply Hal; [lia|lia|by exists 1; lia].
Qed.

Lemma pow_le_64 : 2 ^ k <= 2 ^ 64.
Proof. apply Z.pow_le_mono_r; lia. Qed.

(** The area is placed in a state [s2] reached with the object taken and the
    areas [ps] purged. *)
Lemma place_found s l ps s2 va a : vmap_ok s l -> (ps = [] \/ ps = purge_list s /\ (from_start size k s vstart -> forall b, ~ candidate size k vend s l vstart b)) ->
  vmap_ok s2 (without ps l) -> va_of s2 = va_of s -> purge_list s2 ⊆ purge_list s -> good va -> va ∉ l -> va - VA_NODE ∉ oa_live (kmem s) ->
  oa_live (kmem s2) = ({[va - VA_NODE]} ∪ oa_live (kmem s)) ∖ objects ps ->
  sound size k vend s (without ps l) vstart (Found a) -> (from_start size k s vstart -> best size k vend s (without ps l) vstart (Found a)) ->
  exists s', place_area s2 va a size (2 ^ k) vstart vend = Ret s' /\ got_area s l s' va.
Proof.
  intros Hok Hps O2 V2 Q2 G Hn Hp L2 Hs Hb. assert (Ho : va - VA_NODE ∉ objects ps).
  { destruct Hps as [->|[-> _]]; [unfold objects; cbn; set_solver|]. intros Hin. apply Hp. by apply (objects_live s l Hok). }
  destruct (place_area_ok s2 (without ps l) va a size k vstart vend O2 G) as (s' & l' & E & O' & P' & S' & E' & V' & Q' & K');
    [rewrite elem_without; tauto|rewrite L2; set_solver|lia|lia|apply pow_le_64|lia|lia|apply (sound_ext _ _ _ s2 s); [by rewrite V2|exact Hs]|].
  exists s'. split; [exact E|]. exists ps, l'. rewrite S', E', K', Q'. split_and!; try done. intros x Hx. by rewrite V', V2.
Qed.

Lemma alloc_ok s l : vmap_ok s l -> can_align k s l ->
  exists s' r, alloc_vmap_area s size (2 ^ k) vstart vend = Ret (s', r) /\ (no_memory s l s' r \/ no_room s l s' r \/ got_area s l s' r).
Proof.
  intros Hok Hal. unfold alloc_vmap_area. rewrite alloc_guards. destruct (oa_kzalloc_law (kmem s) SIZEOF_VMAP_AREA ltac:(done)) as (k1 & p & E & Hp).
  rewrite E. cbn [obind]. destruct Hp as [[-> L1]|(Np & Hp & L1)].
  { rewrite Z.eqb_refl. exists (set_kmem s k1), (- ENOMEM). split; [done|]. left. split_and!; [done|cbn; by rewrite E| |done|done|done].
    apply vmap_ok_kmem; [done|]. intros x Hx. rewrite L1. by apply (vo_objs _ _ Hok). }
  rewrite (proj2 (Z.eqb_neq p 0)) by done. destruct (oa_aligned (kmem s) SIZEOF_VMAP_AREA k1 p ltac:(done) E Np) as (P1 & [c P2] & P3). set (va := p + VA_NODE).
  assert (Ev : va - VA_NODE = p) by (unfold va; lia). assert (G : good va).
  { unfold va, VA_NODE, SIZEOF_VMAP_AREA in *. split; [lia|]. exists (2 * c + 6). lia. }
  assert (Hn : va ∉ l) by (intros Hin; apply Hp; rewrite <- Ev; by apply (vo_objs _ _ Hok)).
  set (s1 := set_kmem s k1). assert (O1 : vmap_ok s1 l).
  { apply vmap_ok_kmem; [done|]. intros x Hx. rewrite L1. apply elem_of_union. right. by apply (vo_objs _ _ Hok). }
  destruct (search_hole_ok size k vend Hsize ltac:(lia) Hvend s1 l vstart (vo_index _ _ O1) Hal Hvs Hvs2 (vo_cache _ _ O1)) as (r & c1 & hole & Es & Hc1 & S1 & B1).
  rewrite Es. cbn [obind]. set (s2 := set_cache s1 c1 hole vstart (2 ^ k)). assert (O2 : vmap_ok s2 l) by (by apply vmap_ok_cache).
  destruct r as [a|].
  - cbn [obind]. destruct (place_found s l [] s2 va a Hok ltac:(by left)) as (s' & E' & Hg); rewrite ?without_nil; try done.
    + by rewrite Ev.
    + rewrite Ev. change (kmem s2) with k1. rewrite L1. unfold objects. cbn. set_solver.
    + intros Hf. by apply B1.
    + rewrite E'. cbn [obind]. exists s', va. split; [done|]. right. by right.
  - destruct (purge_ok s2 l O2) as (s3 & E3 & O3 & V3 & Q3 & L3 & C3). rewrite E3. cbn [obind]. change (purge_list s2) with (purge_list s) in *.
    change (va_of s2) with (va_of s) in V3. change (kmem s2) with k1 in L3. rewrite L1 in L3. assert (Hal3 : can_align k s3 (without (purge_list s) l)).
    { intros x Hx. unfold vae. rewrite V3. apply Hal. by apply elem_without in Hx as [? _]. }
    destruct (search_hole_ok size k vend Hsize ltac:(lia) Hvend s3 _ vstart (vo_index _ _ O3) Hal3 Hvs Hvs2 (vo_cache _ _ O3)) as (r & c3 & hole3 & Es3 & Hc3 & S3 & B3).
    rewrite Es3. cbn [obind]. set (s4 := set_cache s3 c3 hole3 vstart (2 ^ k)). assert (O4 : vmap_ok s4 (without (purge_list s) l)) by (by apply vmap_ok_cache).
    apply (sound_ext _ _ _ s s3) in S3; [|done]. assert (Hfs : from_start size k s vstart -> from_start size k s3 vstart).
    { intros Hf. left. apply C3. by apply B1. }
    assert (B3' : from_start size k s vstart -> best size k vend s (without (purge_list s) l) vstart r) by (intros Hf; apply (best_ext _ _ _ s s3); [done|by apply B3, Hfs]).
    destruct r as [a|].
    + destruct (place_found s l (purge_list s) s4 va a Hok) as (s' & E' & Hg); try done; [right; split; [done|intros Hf; by apply B1]|change (purge_list s3 ⊆ purge_list s); rewrite Q3; apply list_subseteq_nil|by rewrite Ev|by rewrite Ev|].
      rewrite E'. cbn [obind]. exists s', va. split; [done|]. right. by right.
    + change (kmem s4) with (kmem s3). destruct (oa_kfree_law (kmem s3) p) as (k5 & E5 & L5).
      { rewrite L3. pose proof (objects_live s l Hok). set_solver. }
      rewrite E5. cbn [obind]. eexists _, _. split; [reflexivity|]. right. left. assert (L6 : oa_live k5 = oa_live (kmem s) ∖ objects (purge_list s)).
      { rewrite L5, L3. set_solver. }
      split_and!; [done| |done|change (purge_list s3 ⊆ purge_list s); rewrite Q3; apply list_subseteq_nil|done|exact B3']. apply vmap_ok_kmem; [done|]. intros x [Hx Hx2]%elem_without. rewrite L6, elem_of_difference.
      split; [by apply (vo_objs _ _ Hok)|]. unfold objects. rewrite elem_of_list_to_set, list_elem_of_fmap. intros (y & Ey & Hy). apply Hx2. by replace x with y by lia.
Qed.
End request.
End alloc.

(** * Areas with a [vm_struct]: what an address belongs to

    find_vm_area() is the view of its users: which [vm_struct], if any, an
    address belongs to.  Reserving an area changes the answer exactly on the
    new range, removing one exactly on its range. *)

Section areas.
Context {K : Type} `{HK : ObjectAllocatorLaws K} {HA : AlignedObjects K}.
Implicit Types s : vmap K.

Definition flagged s (x : Z) : Prop := Z.land (va_flags (va_of s x)) VM_VM_AREA <> 0.
(** Areas that wait to be purged have lost their [vm_struct]. *)
Record vm_ok s (l : list Z) : Prop := {
  vk_map : vmap_ok s l;
  vk_quiet : forall x, x ∈ purge_list s -> ~ flagged s x;
}.

Definition seen s (l : list Z) (b v : Z) : Prop :=
  (exists x, x ∈ l /\ contains s x b /\ flagged s x /\ v = va_vm (va_of s x)) \/ (v = 0 /\ forall x, x ∈ l -> contains s x b -> ~ flagged s x).

Lemma contains_unique s l x y b : areas s l -> x ∈ l -> y ∈ l -> contains s x b -> contains s y b -> x = y.
Proof.
  intros Ha Hx Hy Cx Cy. apply list_elem_of_split in Hx as (l1 & l2 & ->). destruct (areas_app s l1 (x :: l2) Ha) as (_ & A2 & Hb).
  destruct (areas_cons s x l2 A2) as (_ & _ & Hb2). unfold contains, below in *. rewrite elem_of_app, elem_of_cons in Hy. destruct Hy as [Hy|[->|Hy]]; [|done|].
  - specialize (Hb y x Hy ltac:(left)). lia.
  - specialize (Hb2 y Hy). lia.
Qed.

Lemma find_vm_eq s l b v : vmap_ok s l -> seen s l b v -> find_vm_area s b = Ret v.
Proof.
  intros [(Ht & El & Ha) _ _ _] Hs. unfold find_vm_area. destruct (find_area_ok s l b Ht Ha) as (x & E & Hx). rewrite E. cbn [obind]. f_equal.
  destruct Hx as [[-> Hx]|[Hx Cx]].
  - rewrite Z.eqb_refl. cbn. destruct Hs as [(y & Hy & Cy & _)|[-> _]]; [by destruct (Hx y Hy)|done].
  - rewrite (proj2 (Z.eqb_neq x 0)) by (by eapply good_nz, rbtree_good). cbn [negb andb]. destruct Hs as [(y & Hy & Cy & Fy & ->)|[-> Hn]].
    + rewrite (contains_unique s l x y b Ha) by done. unfold flagged in Fy. by rewrite (proj2 (Z.eqb_neq _ 0)).
    + specialize (Hn x Hx Cx). unfold flagged in Hn. destruct (Z.eqb_spec (Z.land (va_flags (va_of s x)) VM_VM_AREA) 0) as [|N]; [done|by destruct (Hn N)].
Qed.
Lemma seen_total s l b : vmap_ok s l -> exists v, seen s l b v.
Proof.
  intros [(Ht & El & Ha) _ _ _]. destruct (find_area_ok s l b Ht Ha) as (x & _ & Hx). destruct Hx as [[_ Hx]|[Hx Cx]]; [exists 0; right; split; [done|]; intros y Hy Cy; by destruct (Hx y Hy)|].
  unfold seen, flagged. destruct (decide (Z.land (va_flags (va_of s x)) VM_VM_AREA = 0)) as [E|N]; [exists 0; right|exists (va_vm (va_of s x)); left; by exists x].
  split; [done|]. intros y Hy Cy N. by rewrite (contains_unique s l y x b Ha) in N.
Qed.
(** The answers of find_vm_area() are those of [seen]. *)
Lemma find_vm_seen s l b v : vmap_ok s l -> find_vm_area s b = Ret v -> seen s l b v.
Proof. intros Hok E. destruct (seen_total s l b Hok) as (w & Hw). pose proof (find_vm_eq s l b w Hok Hw). congruence. Qed.

(** An area is added and areas without a [vm_struct] go. *)
Lemma seen_add s s' l l' ps va b v : seen s l b v -> l' ≡ₚ va :: without ps l -> (forall x, x ∈ ps -> ~ flagged s x) -> (va ∉ l) ->
  (forall x, x <> va -> va_of s' x = va_of s x) -> ~ contains s' va b -> seen s' l' b v.
Proof.
  intros Hs Hl Hq Hn Hv Hc. assert (Hne : forall x, x ∈ l -> x <> va) by (by intros x Hx ->). destruct Hs as [(x & Hx & Cx & Fx & ->)|[-> Hs]].
  - left. exists x. unfold contains, flagged, vas, vae in *. rewrite Hv by (by apply Hne). split_and!; try done; try lia. rewrite Hl, elem_of_cons, elem_without. right. split; [done|].
    intros Hp. by apply (Hq x).
  - right. split; [done|]. intros x Hx Cx. rewrite Hl, elem_of_cons, elem_without in Hx. destruct Hx as [->|[Hx _]]; [done|].
    specialize (Hs x Hx). unfold contains, flagged, vas, vae in *. rewrite Hv in * by (by apply Hne). by apply Hs.
Qed.

(** ** Reserving *)

Lemma page_align_ok x : 0 <= x -> x + PAGE_SIZE <= 2 ^ 64 -> (PAGE_SIZE | PAGE_ALIGN x) /\ x <= PAGE_ALIGN x < x + PAGE_SIZE.
Proof.
  intros H0 H1. unfold PAGE_ALIGN. change PAGE_SIZE with (2 ^ 12) in *. rewrite u64_id by ulia. rewrite round_down_spec by (ulia || lia).
  pose proof (Z.div_mod (x + 2 ^ 12 - 1) (2 ^ 12)). pose proof (Z.mod_pos_bound (x + 2 ^ 12 - 1) (2 ^ 12)). split; [exists ((x + 2 ^ 12 - 1) / 2 ^ 12); lia|lia].
Qed.

(** The size of the range with its guard page, and the order of its alignment. *)
Definition area_size (size flags : Z) : Z := PAGE_ALIGN size + (if Z.land flags VM_NO_GUARD =? 0 then PAGE_SIZE else 0).
Definition area_order (size k flags : Z) : Z :=
  if negb (Z.land flags VM_IOREMAP =? 0) then Z.min (Z.max (get_count_order_long (PAGE_ALIGN size)) PAGE_SHIFT) IOREMAP_MAX_ORDER else k.

Lemma area_order_ok size k flags : 0 <= k < 64 -> 0 <= area_order size k flags < 64.
Proof. intros Hk. unfold area_order, IOREMAP_MAX_ORDER, PUD_SHIFT, PAGE_SHIFT. destruct (negb _); lia. Qed.

(** Why no area is reserved: its two objects cannot be allocated, or there is
    no room even without the waiting areas, as far as the search looks. *)
Definition no_way s (l : list Z) (size k flags vstart vend : Z) : Prop :=
  oa_serves (kmem s) [SIZEOF_VM_STRUCT; SIZEOF_VMAP_AREA] = false
  \/ (from_start (area_size size flags) (area_order size k flags) s vstart ->
      forall b, ~ candidate (area_size size flags) (area_order size k flags) vend s (without (purge_list s) l) vstart b).
(** No area: nothing is kept, except that waiting areas may have been purged. *)
Definition not_reserved s (l : list Z) s' (r : Z) : Prop :=
  r = 0 /\ exists ps, (ps = [] \/ ps = purge_list s) /\ vm_ok s' (without ps l) /\ va_of s' = va_of s /\ oa_live (kmem s') = oa_live (kmem s) ∖ objects ps.
Definition reserved s (l : list Z) (size k flags vstart vend : Z) s' (r : Z) : Prop :=
  exists va ps l', (ps = [] \/ ps = purge_list s) /\ r <> 0 /\ (r ∉ oa_live (kmem s)) /\ good va /\ (va ∉ l) /\ vm_ok s' l' /\ l' ≡ₚ va :: without ps l
  /\ sound (area_size size flags) (area_order size k flags) vend s (without ps l) vstart (Found (vas s' va)) /\ vae s' va = vas s' va + area_size size flags
  /\ flagged s' va /\ va_vm (va_of s' va) = r /\ (vm_addr (vms s' r) = vas s' va /\ vm_size (vms s' r) = area_size size flags /\ vm_flags (vms s' r) = flags)
  /\ (forall x, x <> va -> va_of s' x = va_of s x)
  /\ oa_live (kmem s') = ({[va - VA_NODE]} ∪ ({[r]} ∪ oa_live (kmem s))) ∖ objects ps.

Lemma land_or_flag f : Z.land (Z.lor f VM_VM_AREA) VM_VM_AREA = VM_VM_AREA.
Proof. apply Z.bits_inj'. intros i Hi. rewrite Z.land_spec, Z.lor_spec. destruct (Z.testbit f i), (Z.testbit VM_VM_AREA i); done. Qed.

Lemma quiet_without s ps : (forall x, x ∈ purge_list s -> ~ flagged s x) -> ps = [] \/ ps = purge_list s -> forall x, x ∈ ps -> ~ flagged s x.
Proof. intros Hq [-> | ->] x Hx; [by apply not_elem_of_nil in Hx|by apply Hq]. Qed.

(** Changing whom a range belongs to changes no range. *)
Lemma tag_ok s l va f w : vmap_ok s l -> let s' := set_va s va (mk_va (va_start (va_of s va)) (va_end (va_of s va)) f w) in
  vmap_ok s' l /\ (forall x, vas s' x = vas s x /\ vae s' x = vae s x) /\ va_flags (va_of s' va) = f /\ va_vm (va_of s' va) = w
  /\ forall x, x <> va -> va_of s' x = va_of s x.
Proof.
  intros [(Ht & El & Ha) Hc Hp Ho] s'. assert (Eva : va_of s' va = mk_va (va_start (va_of s va)) (va_end (va_of s va)) f w) by (unfold s'; cbn; by rewrite Z.eqb_refl).
  assert (Eot : forall x, x <> va -> va_of s' x = va_of s x) by (intros x Hx; unfold s'; cbn; by rewrite (proj2 (Z.eqb_neq x va))).
  assert (Er : forall x, vas s' x = vas s x /\ vae s' x = vae s x) by (intros x; unfold vas, vae; destruct (decide (x = va)) as [->|]; [by rewrite Eva|by rewrite Eot]).
  split; [|split_and!; [exact Er|by rewrite Eva|by rewrite Eva|exact Eot]]. split; [split_and!; [done|done|]|done|done|done]. destruct Ha as [Hs Hn]. split.
  - apply (sorted_same (below s)); [done|]. intros x y _ _. unfold below. by rewrite (proj1 (Er y)), (proj2 (Er x)).
  - intros x Hx. destruct (Er x) as [-> ->]. by apply Hn.
Qed.

(** setup_vmalloc_vm(): the range and the area know each other. *)
Lemma setup_vm_ok s l va vm flags : vm_ok s l -> (va ∉ purge_list s) -> let s' := setup_vmalloc_vm s vm va flags in
  vm_ok s' l /\ flagged s' va /\ va_vm (va_of s' va) = vm /\ (vas s' va = vas s va /\ vae s' va = vae s va)
  /\ vms s' vm = mk_vm (vas s va) (u64 (vae s va - vas s va)) flags (vm_pages (vms s vm)) (vm_nr_pages (vms s vm))
  /\ forall x, x <> va -> va_of s' x = va_of s x.
Proof.
  intros [Hok Hq] Hnp s'. set (v := mk_vm (vas s va) (u64 (vae s va - vas s va)) flags (vm_pages (vms s vm)) (vm_nr_pages (vms s vm))).
  destruct (tag_ok (set_vm s vm v) l va (Z.lor (va_flags (va_of s va)) VM_VM_AREA) vm) as (T1 & T2 & T3 & T4 & T5).
  { destruct Hok as [Hi Hc Hp Ho]. by split. }
  change (va_flags (va_of s' va) = Z.lor (va_flags (va_of s va)) VM_VM_AREA) in T3. change (forall x, x <> va -> va_of s' x = va_of s x) in T5.
  split_and!; [|unfold flagged; by rewrite T3, land_or_flag|exact T4|apply T2|apply T2|unfold s'; cbn; by rewrite Z.eqb_refl|exact T5].
  split; [exact T1|]. intros x Hx. change (x ∈ purge_list s) in Hx. unfold flagged. rewrite T5 by (by intros ->). by apply Hq.
Qed.

Section request.
Context (size k flags vstart vend : Z) (Hsize : 0 < size) (Hsize2 : size + 2 * PAGE_SIZE <= 2 ^ 64) (Hk : 0 <= k < 64)
  (Hvs : 0 <= vstart) (Hvs2 : vstart + 2 ^ area_order size k flags <= 2 ^ 64) (Hvend : 0 <= vend < 2 ^ 64).

Lemma area_size_ok : 0 < area_size size flags < 2 ^ 64 /\ (PAGE_SIZE | area_size size flags).
Proof.
  unfold area_size. destruct (page_align_ok size ltac:(lia)) as [D B]; [change PAGE_SIZE with 4096 in *; lia|]. change PAGE_SIZE with 4096 in *.
  destruct (Z.land flags VM_NO_GUARD =? 0); (split; [lia|]); [apply Z.divide_add_r; [done|by exists 1]|by rewrite Z.add_0_r].
Qed.

(** The [vm_struct] is given back when there is no range for it. *)
Lemma give_back_ok s l p s2 ps : vm_ok s l -> (p ∉ oa_live (kmem s)) -> (ps = [] \/ ps = purge_list s) -> vmap_ok s2 (without ps l) -> va_of s2 = va_of s ->
  purge_list s2 ⊆ purge_list s -> oa_live (kmem s2) = ({[p]} ∪ oa_live (kmem s)) ∖ objects ps ->
  exists k, oa_kfree (kmem s2) p = Ret k /\ not_reserved s l (set_kmem s2 k) 0.
Proof.
  intros [Hok Hq] Hp Hps O2 V2 Q2 L2. assert (Hpo : p ∉ objects ps).
  { destruct Hps as [-> | ->]; [unfold objects; cbn; set_solver|]. intros Hin. apply Hp. by apply (objects_live s l Hok). }
  destruct (oa_kfree_law (kmem s2) p) as (k5 & E5 & L5); [rewrite L2; set_solver|]. exists k5. split; [exact E5|]. split; [done|]. exists ps.
  assert (L6 : oa_live k5 = oa_live (kmem s) ∖ objects ps) by (rewrite L5, L2; set_solver). split_and!; [done| |done|exact L6]. split.
  - apply vmap_ok_kmem; [done|]. intros x Hx. rewrite L5, elem_of_difference, elem_of_singleton. split; [by apply (vo_objs _ _ O2)|]. intros Ex.
    apply Hp. rewrite <- Ex. apply (vo_objs _ _ Hok). by apply elem_without in Hx as [? _].
  - intros x Hx. unfold flagged. change (va_of (set_kmem s2 k5)) with (va_of s2). rewrite V2. by apply Hq, Q2.
Qed.

Lemma get_area_ok s l : vm_ok s l -> can_align (area_order size k flags) s l ->
  exists s' r, __get_vm_area_node s size (2 ^ k) flags vstart vend = Ret (s', r)
    /\ (not_reserved s l s' r /\ no_way s l size k flags vstart vend \/ reserved s l size k flags vstart vend s' r).
Proof.
  intros Hok' Hal. pose proof Hok' as [Hok Hq]. unfold __get_vm_area_node. destruct area_size_ok as [A1 A2]. assert (Hpa : PAGE_SIZE <= PAGE_ALIGN size).
  { destruct (page_align_ok size ltac:(lia)) as [[c Ec] B]; change PAGE_SIZE with 4096 in *; lia. }
  rewrite (proj2 (Z.eqb_neq (PAGE_ALIGN size) 0)) by (change PAGE_SIZE with 4096 in *; lia).
  assert (Eal : (if negb (Z.land flags VM_IOREMAP =? 0) then Z.shiftl 1 (Z.min (Z.max (get_count_order_long (PAGE_ALIGN size)) PAGE_SHIFT) IOREMAP_MAX_ORDER) else 2 ^ k)
    = 2 ^ area_order size k flags).
  { pose proof (area_order_ok size k flags Hk). unfold area_order in *. destruct (negb _); [|done]. rewrite Z.shiftl_1_l. done. }
  rewrite Eal. assert (Esz : (if Z.land flags VM_NO_GUARD =? 0 then u64 (PAGE_ALIGN size + PAGE_SIZE) else PAGE_ALIGN size) = area_size size flags).
  { unfold area_size in *. destruct (Z.land flags VM_NO_GUARD =? 0); [apply u64_id; ulia|lia]. }
  rewrite Esz. destruct (oa_kzalloc_law (kmem s) SIZEOF_VM_STRUCT ltac:(done)) as (k1 & p & E & Hp). rewrite E. cbn [obind]. destruct Hp as [[-> L1]|(Np & Hp & L1)].
  { rewrite Z.eqb_refl. eexists _, _. split; [reflexivity|]. left. split; [|left; cbn; by rewrite E]. split; [done|]. exists []. rewrite without_nil. split_and!; [by left| |done|change (oa_live k1 = oa_live (kmem s) ∖ objects []); rewrite L1; unfold objects; cbn; set_solver].
    split; [|exact Hq]. apply vmap_ok_kmem; [done|]. intros x Hx. rewrite L1. by apply (vo_objs _ _ Hok). }
  rewrite (proj2 (Z.eqb_neq p 0)) by done. set (s1 := set_vm (set_kmem s k1) p (mk_vm 0 0 0 0 0)). assert (O1 : vmap_ok s1 l).
  { destruct Hok as [Hi Hc Hpu Ho]. split; [exact Hi|exact Hc|exact Hpu|]. intros x Hx. change (x - VA_NODE ∈ oa_live k1). rewrite L1, elem_of_union. right. by apply Ho. }
  destruct (alloc_ok (area_size size flags) (area_order size k flags) vstart vend A1 A2 (area_order_ok _ _ _ Hk) Hvs Hvs2 Hvend s1 l O1 Hal) as (s2 & r & E2 & Hr).
  rewrite E2. cbn [obind]. change (va_of s1) with (va_of s) in *. change (purge_list s1) with (purge_list s) in *. change (kmem s1) with k1 in *.
  destruct Hr as [(Er & Hno & O2 & V2 & Q2 & L2)|[(Er & O2 & V2 & Q2 & L2 & Hno)|Hg]].
  - rewrite Er. change (- ENOMEM <? 0) with true. destruct (give_back_ok s l p s2 [] Hok' Hp) as (k5 & E5 & Hn); [by left|by rewrite without_nil|done|done|rewrite L2; change (kmem s1) with k1; rewrite L1; unfold objects; cbn; set_solver|].
    rewrite E5. cbn [obind]. eexists _, _. split; [reflexivity|]. left. split; [exact Hn|]. left. change (oa_serves k1 [SIZEOF_VMAP_AREA] = false) in Hno.
    cbn [oa_serves] in *. by rewrite E, (proj2 (Z.eqb_neq p 0)).
  - rewrite Er. change (- EBUSY <? 0) with true. destruct (give_back_ok s l p s2 (purge_list s) Hok' Hp) as (k5 & E5 & Hn); [by right|done|done|done|rewrite L2; change (kmem s1) with k1; by rewrite L1|].
    rewrite E5. cbn [obind]. eexists _, _. split; [reflexivity|]. left. split; [exact Hn|]. by right.
  - destruct Hg as (ps & l' & Hps & G & Hn & O2 & P2 & S2 & Z2 & V2 & Q2 & L2 & _). rewrite (proj2 (Z.ltb_ge r 0)) by (destruct G; lia).
    pose proof (vo_lazy _ _ Hok) as [_ Hpl]. assert (Hrp : r ∉ purge_list s2) by (intros Hin; by apply Hn, Hpl, Q2).
    assert (Ho2 : vm_ok s2 l'). { split; [exact O2|]. intros x Hx. unfold flagged. rewrite V2 by (by intros ->). by apply Hq, Q2. }
    destruct (setup_vm_ok s2 l' r p flags Ho2 Hrp) as (T1 & T2 & T3 & [T4 T5] & T6 & T7). eexists _, _. split; [reflexivity|]. right. exists r, ps, l'.
    assert (Hps' : ps = [] \/ ps = purge_list s) by tauto. rewrite T4, T5, T6. cbn [vm_addr vm_size vm_flags]. rewrite Z2.
    replace (vas s2 r + area_size size flags - vas s2 r) with (area_size size flags) by lia. rewrite u64_id by ulia.
    split_and!; try done; [intros x Hx; by rewrite T7, V2|]. change (kmem (setup_vmalloc_vm s2 p r flags)) with (kmem s2). change (kmem s1) with k1 in L2. by rewrite L2, L1.
Qed.
End request.

(** ** Removing *)

Lemma land_clear_flag f : Z.land (Z.lor (Z.land f (not64 VM_VM_AREA)) VM_LAZY_FREE) VM_VM_AREA = 0.
Proof.
  apply Z.bits_inj'. intros i Hi. rewrite Z.bits_0, Z.land_spec. destruct (Z.eq_dec i 2) as [->|N].
  - rewrite Z.lor_spec, Z.land_spec. change (Z.testbit (not64 VM_VM_AREA) 2) with false. change (Z.testbit VM_LAZY_FREE 2) with false. by rewrite andb_false_r.
  - change VM_VM_AREA with (2 ^ 2). by rewrite (Z.pow2_bits_false 2 i), andb_false_r by lia.
Qed.

(** A freed area waits to be purged, or is purged with all that wait. *)
Definition dropped s (x : Z) s' (ps : list Z) : Prop :=
  (ps = [] /\ purge_list s' = x :: purge_list s) \/ (ps = x :: purge_list s /\ purge_list s' = []).

Lemma noflush_ok cpus s l x : vmap_ok s l -> x ∈ l -> (x ∉ purge_list s) ->
  exists s' ps, free_vmap_area_noflush cpus s x = Ret s' /\ dropped s x s' ps /\ vmap_ok s' (without ps l) /\ va_of s' = va_of s
    /\ oa_live (kmem s') = oa_live (kmem s) ∖ objects ps.
Proof.
  intros Hok Hx Hn. pose proof (vo_lazy _ _ Hok) as [Hp1 Hp2]. unfold free_vmap_area_noflush. set (nr := s32 (vmap_lazy_nr s + _)). set (s1 := set_lazy s (x :: purge_list s) nr).
  assert (O1 : vmap_ok s1 l). { apply vmap_ok_lazy; [done|by constructor|]. intros y [->|Hy]%elem_of_cons; [done|by apply Hp2]. }
  destruct (_ >? _).
  - destruct (purge_ok s1 l O1) as (s' & E & O' & V' & Q' & L' & _). exists s', (x :: purge_list s). split_and!; try done. by right.
  - exists s1, []. rewrite without_nil. split_and!; try done; [by left|]. change (kmem s1) with (kmem s). unfold objects. cbn. set_solver.
Qed.

(** Removal takes the range of [x] out of the view and no other. *)
Definition removed s (l : list Z) (x : Z) s' : Prop :=
  exists ps, dropped s x s' ps /\ vm_ok s' (without ps l) /\ (forall y, y <> x -> va_of s' y = va_of s y)
  /\ oa_live (kmem s') = oa_live (kmem s) ∖ objects ps
  /\ forall b v, find_vm_area s b = Ret v -> find_vm_area s' b = Ret (if decide (contains s x b) then 0 else v).

Lemma remove_ok cpus s l x a : vm_ok s l -> x ∈ l -> contains s x a -> flagged s x ->
  exists s', remove_vm_area cpus s a = Ret (s', va_vm (va_of s x)) /\ removed s l x s'.
Proof.
  intros [Hok Hq] Hx Cx Fx. pose proof Hok as [(Ht & El & Ha) _ _ _]. unfold remove_vm_area. destruct (find_area_ok s l a Ht Ha) as (y & E & Hy). rewrite E. cbn [obind].
  destruct Hy as [[_ Hy]|[Hy Cy]]; [by destruct (Hy x Hx)|]. rewrite (contains_unique s l y x a Ha) by done.
  rewrite (proj2 (Z.eqb_neq x 0)) by (by eapply good_nz, rbtree_good). unfold flagged in Fx. rewrite (proj2 (Z.eqb_neq _ 0) Fx). cbn [negb andb].
  set (f := Z.lor _ VM_LAZY_FREE). destruct (tag_ok s l x f 0 Hok) as (T1 & T2 & T3 & T4 & T5). set (s1 := set_va s x _) in *.
  assert (Hnp : x ∉ purge_list s) by (intros Hin; by apply (Hq x Hin)). destruct (noflush_ok cpus s1 l x T1 Hx Hnp) as (s' & ps & E' & D & O' & V' & L').
  rewrite E'. cbn [obind]. exists s'. split; [done|]. exists ps. change (purge_list s1) with (purge_list s) in D.
  assert (Hun : forall z, z ∈ x :: purge_list s -> ~ flagged s' z).
  { intros z Hz. unfold flagged. rewrite V'. destruct (decide (z = x)) as [->|]; [rewrite T3; intros N; by apply N, land_clear_flag|]. rewrite T5 by done.
    apply elem_of_cons in Hz as [|Hz]; [done|by apply Hq]. }
  split_and!; [exact D| |intros z Hz; by rewrite V', T5|exact L'|].
  - split; [exact O'|]. intros z Hz. apply Hun. destruct D as [[_ Ep]|[_ Ep]]; rewrite Ep in Hz; [done|by apply not_elem_of_nil in Hz].
  - intros b v Hb. apply (find_vm_seen s l b v Hok) in Hb. apply (find_vm_eq s' (without ps l) b _ O'). assert (Hps : forall z, z ∈ ps -> z ∈ x :: purge_list s).
    { intros z Hz. destruct D as [[-> _]|[-> _]]; [by apply not_elem_of_nil in Hz|done]. }
    assert (Hr : forall z c, contains s' z c <-> contains s z c) by (intros z c; unfold contains, vas, vae; rewrite V'; fold (vas s1 z) (vae s1 z); by destruct (T2 z) as [-> ->]).
    destruct (decide (contains s x b)) as [Cb|Nb].
    + right. split; [done|]. intros z [Hz _]%elem_without Cz%Hr. rewrite (contains_unique s l z x b Ha) by done. apply Hun. left.
    + destruct Hb as [(z & Hz & Cz & Fz & ->)|[-> Hb]].
      * assert (z <> x) by (by intros ->). left. exists z. unfold flagged. rewrite Hr, V', T5, elem_without by done. split_and!; try done. intros Hin%Hps.
        apply elem_of_cons in Hin as [|Hin]; [done|]. by apply (Hq z).
      * right. split; [done|]. intros z [Hz _]%elem_without Cz%Hr. assert (z <> x) by (by intros ->). unfold flagged. rewrite V', T5 by done. by apply Hb.
Qed.

Lemma remove_none cpus s l : vm_ok s l -> forall a, find_vm_area s a = Ret 0 -> (forall x, x ∈ l -> flagged s x -> va_vm (va_of s x) <> 0) ->
  remove_vm_area cpus s a = Ret (s, 0).
Proof.
  intros [[(Ht & El & Ha) _ _ _] _] a. unfold find_vm_area, remove_vm_area. destruct (find_area_ok s l a Ht Ha) as (y & E & Hy). rewrite E. cbn [obind]. intros Ef Hv.
  destruct (negb (y =? 0) && negb (Z.land (va_flags (va_of s y)) VM_VM_AREA =? 0)) eqn:Eg; [|done]. injection Ef as Ef. destruct Hy as [[-> _]|[Hy _]]; [done|].
  rewrite andb_true_iff, !negb_true_iff, !Z.eqb_neq in Eg. by destruct (Hv y Hy (proj2 Eg)).
Qed.

(** ** What reserving does to the view *)

Lemma not_reserved_view s l s' r : vm_ok s l -> not_reserved s l s' r -> forall b v, find_vm_area s b = Ret v -> find_vm_area s' b = Ret v.
Proof.
  intros [Hok Hq] (_ & ps & Hps & [O' _] & V' & _) b v Hb. apply (find_vm_seen s l b v Hok) in Hb. apply (find_vm_eq s' (without ps l) b v O').
  pose proof (quiet_without s ps Hq Hps) as Hq'. unfold seen, contains, flagged, vas, vae in *. rewrite V'. destruct Hb as [(x & Hx & Cx & Fx & ->)|[-> Hb]].
  - left. exists x. rewrite elem_without. split; [|done]. split; [done|]. intros Hin. by apply (Hq' x).
  - right. split; [done|]. intros x [Hx _]%elem_without. by apply Hb.
Qed.
Lemma reserved_view s l size k flags vstart vend s' r : vm_ok s l -> reserved s l size k flags vstart vend s' r ->
  forall b v, find_vm_area s b = Ret v -> find_vm_area s' b = Ret (if decide (vm_addr (vms s' r) <= b < vm_addr (vms s' r) + area_size size flags) then r else v).
Proof.
  intros [Hok Hq] (va & ps & l' & Hps & _ & _ & _ & Hn & [O' _] & P' & _ & Ee & F' & Ev & (Ea & _) & V' & _) b v Hb. apply (find_vm_seen s l b v Hok) in Hb.
  apply (find_vm_eq s' l' b _ O'). rewrite Ea, <- Ee. destruct (decide _) as [Cb|Nb].
  - left. exists va. split; [rewrite P'; left|]. split; [exact Cb|done].
  - apply (seen_add s s' l l' ps va); try done. by apply (quiet_without s).
Qed.
End areas.

(** * Ranges of virtual addresses: areas noted during early boot *)

Section early.
Context (vm : Z -> vm_struct).

Definition vm_end (x : Z) : Z := vm_addr (vm x) + vm_size (vm x).
Definition vm_range (x : Z) : Prop := 0 <= vm_addr (vm x) < vm_end x /\ vm_end x < 2 ^ 64.
Definition vm_below (x y : Z) : Prop := vm_end x <= vm_addr (vm y).
(** Early areas: in order, not empty, without overlap. *)
Definition early (l : list Z) : Prop := StronglySorted vm_below l /\ forall x, x ∈ l -> vm_range x.

Lemma early_cons x l : early (x :: l) -> early l /\ vm_range x /\ forall y, y ∈ l -> vm_below x y.
Proof.
  intros [Hs Hr]. inversion Hs as [|? ? Hs' Hx]; subst. rewrite list.Forall_forall in Hx. split_and!; [split; [done|intros y Hy; apply Hr; by right]|apply Hr; left..|done].
Qed.

Lemma early_loop_ok l x : early l -> vm_range x ->
  ((forall y, y ∈ l -> vm_below x y \/ vm_below y x) -> exists l1 l2, l = l1 ++ l2 /\ early_loop vm l x = Ret (l1 ++ x :: l2) /\ early (l1 ++ x :: l2))
  /\ (~ (forall y, y ∈ l -> vm_below x y \/ vm_below y x) -> early_loop vm l x = Panic).
Proof.
  intros He Hx. induction l as [|y l IH]; cbn [early_loop].
  - split; [|intros Hn; destruct Hn; by intros y ?%not_elem_of_nil]. intros _. exists [], []. split_and!; [done|done|]. split; [repeat constructor|]. by intros z ->%list_elem_of_singleton.
  - destruct (early_cons y l He) as (El & Hy & Hb). destruct (IH El) as [IH1 IH2]. fold (vm_end x) (vm_end y). destruct Hx as [X1 X2], Hy as [Y1 Y2].
    rewrite !u64_id by ulia. rewrite Z.geb_leb, Z.gtb_ltb. destruct (Z.leb_spec (vm_addr (vm x)) (vm_addr (vm y))) as [Hle|Hgt].
    + destruct (Z.ltb_spec (vm_addr (vm y)) (vm_end x)) as [Hov|Hok].
      * split; [|done]. intros Hd. destruct (Hd y ltac:(left)) as [D|D]; unfold vm_below in D; lia.
      * assert (Hxl : forall z, z ∈ y :: l -> vm_below x z).
        { intros z [->|Hz]%elem_of_cons; [done|]. specialize (Hb z Hz). unfold vm_below in *. lia. }
        split; [|intros Hn; destruct Hn; intros z Hz; left; by apply Hxl]. intros _. exists [], (y :: l). split_and!; [done|done|]. split.
        -- constructor; [apply He|]. by apply list.Forall_forall.
        -- intros z [->|Hz]%elem_of_cons; [done|by apply He].
    + destruct (Z.ltb_spec (vm_addr (vm x)) (vm_end y)) as [Hov|Hok].
      * split; [|done]. intros Hd. destruct (Hd y ltac:(left)) as [D|D]; unfold vm_below in D; lia.
      * split.
        -- intros Hd. destruct IH1 as (l1 & l2 & -> & E & E'). { intros z Hz. apply Hd. by right. }
           exists (y :: l1), l2. rewrite E. split_and!; [done|done|]. split; [constructor; [apply E'|]|].
           ++ apply list.Forall_forall. intros z. rewrite elem_of_app, elem_of_cons. intros [Hz|[->|Hz]]; [apply Hb, elem_of_app; by left|done|apply Hb, elem_of_app; by right].
           ++ intros z. cbn [app]. rewrite elem_of_cons. intros [->|Hz]; [done|by apply E'].
        -- intros Hn. rewrite IH2; [done|]. intros Hd. apply Hn. intros z [->|Hz]%elem_of_cons; [by right|by apply Hd].
Qed.
End early.

Section init.
Context {K : Type} `{HK : ObjectAllocatorLaws K} {HA : AlignedObjects K}.
Implicit Types s : vmap K.

(** The area [x] stands for the early area [t]. *)
Definition stands_for s (x t : Z) : Prop :=
  flagged s x /\ va_vm (va_of s x) = t /\ vas s x = vm_addr (vms s t) /\ vae s x = vm_end (vms s) t.

Lemma import_one s l t : vm_ok s l -> purge_list s = [] -> vm_range (vms s) t -> (forall x, x ∈ l -> vae s x <= vm_addr (vms s t)) ->
  forall k p, oa_kzalloc (kmem s) SIZEOF_VMAP_AREA = Ret (k, p) -> p <> 0 ->
  exists s' va, __insert_vmap_area (set_va (set_kmem s k) (p + VA_NODE) (mk_va (vm_addr (vms s t)) (u64 (vm_addr (vms s t) + vm_size (vms s t))) VM_VM_AREA t)) (p + VA_NODE) = Ret s'
    /\ vm_ok s' (l ++ [va]) /\ (va ∉ l) /\ purge_list s' = [] /\ vms s' = vms s /\ stands_for s' va t /\ (forall x, x <> va -> va_of s' x = va_of s x) /\ kmem s' = k.
Proof.
  intros [Hok Hq] Hp [R1 R2] Hb k p E Np. destruct Hok as [(Ht & El & Ha) Hc Hpl Ho]. fold (vm_end (vms s) t). rewrite u64_id by ulia.
  destruct (oa_kzalloc_law (kmem s) SIZEOF_VMAP_AREA ltac:(done)) as (k' & p' & E' & Hl). rewrite E in E'. injection E' as <- <-.
  destruct Hl as [[? _]|(_ & Hf & L)]; [done|]. destruct (oa_aligned (kmem s) SIZEOF_VMAP_AREA k p ltac:(done) E Np) as (P1 & [c P2] & P3). set (va := p + VA_NODE).
  assert (Ev : va - VA_NODE = p) by (unfold va; lia). assert (G : good va).
  { unfold va, VA_NODE, SIZEOF_VMAP_AREA in *. split; [lia|]. exists (2 * c + 6). lia. }
  assert (Hn : va ∉ l) by (intros Hin; apply Hf; rewrite <- Ev; by apply Ho). set (s1 := set_va (set_kmem s k) va _).
  assert (Eva : va_of s1 va = mk_va (vm_addr (vms s t)) (vm_end (vms s) t) VM_VM_AREA t) by (cbn; by rewrite Z.eqb_refl).
  assert (Eot : forall x, x <> va -> va_of s1 x = va_of s x) by (intros x Hx; cbn; by rewrite (proj2 (Z.eqb_neq x va))).
  assert (Evs : vas s1 va = vm_addr (vms s t)) by (unfold vas; by rewrite Eva). assert (Eve : vae s1 va = vm_end (vms s) t) by (unfold vae; by rewrite Eva).
  assert (Hne : forall x, x ∈ l -> x <> va) by (by intros x Hx ->).
  destruct (insert_area_ok s1 l [] va) as (m & root & Ei & Hi); [rewrite app_nil_r; split_and!; [done|done|apply (areas_ext s); [by intros x Hx; apply Eot, Hne|done]]|done|by rewrite app_nil_r|by rewrite Evs, Eve|by rewrite Eve| |by intros ? ?%not_elem_of_nil|].
  { intros x Hx. rewrite Evs. unfold vae. rewrite Eot by (by apply Hne). by apply Hb. }
  rewrite Ei. eexists _, va. split; [reflexivity|]. split_and!; [|done|done|done| |done|done].
  - split; [split; [exact Hi| | |]|].
    + change (free_vmap_cache s ∈ 0 :: l ++ [va]). rewrite elem_of_cons in *. rewrite elem_of_app. tauto.
    + change (NoDup (purge_list s) /\ purge_list s ⊆ l ++ [va]). rewrite Hp. split; [constructor|apply list_subseteq_nil].
    + intros x. change (x ∈ l ++ [va] -> x - VA_NODE ∈ oa_live k). rewrite L, elem_of_app, list_elem_of_singleton, elem_of_union, elem_of_singleton. intros [Hx| ->]; [right; by apply Ho|by left].
    + intros x Hx. change (x ∈ purge_list s) in Hx. rewrite Hp in Hx. by apply not_elem_of_nil in Hx.
  - unfold stands_for, flagged. change (va_of (set_tree s1 m root (l ++ [va]))) with (va_of s1). rewrite Eva. split_and!; [done|done|exact Evs|exact Eve].
Qed.

Lemma stands_ext s s' x t : va_of s' x = va_of s x -> vms s' = vms s -> stands_for s x t -> stands_for s' x t.
Proof. intros E1 E2. unfold stands_for, flagged, vas, vae. by rewrite E1, E2. Qed.

(** Without memory the import follows NULL; otherwise every early area gets an
    area, in order. *)
Lemma import_ok vmlist : forall s l, vm_ok s l -> purge_list s = [] -> early (vms s) vmlist ->
  (forall x t, x ∈ l -> t ∈ vmlist -> vae s x <= vm_addr (vms s t)) ->
  if oa_serves (kmem s) (replicate (length vmlist) SIZEOF_VMAP_AREA)
  then exists s' l', import_loop s vmlist = Ret s' /\ vm_ok s' (l ++ l') /\ purge_list s' = [] /\ vms s' = vms s
      /\ (forall x, x ∈ l -> va_of s' x = va_of s x) /\ Forall2 (stands_for s') l' vmlist
  else import_loop s vmlist = Panic.
Proof.
  induction vmlist as [|t vmlist IH]; intros s l Hok Hp He Hb; cbn [import_loop length replicate oa_serves].
  { exists s, []. rewrite app_nil_r. split_and!; try done. }
  destruct (early_cons _ t vmlist He) as (He' & Hr & Hlt). destruct (oa_kzalloc_law (kmem s) SIZEOF_VMAP_AREA ltac:(done)) as (k & p & E & Hl). rewrite E. cbn [obind].
  unfold deref. destruct (Z.eqb_spec p 0) as [->|Np]; cbn [obind]; [done|]. clear Hl. change (vms (set_kmem s k)) with (vms s).
  destruct (import_one s l t Hok Hp Hr ltac:(intros x Hx; apply Hb; [done|left]) k p E Np) as (s1 & va & E1 & O1 & Hn & P1 & V1 & S1 & F1 & K1). rewrite E1. cbn [obind].
  specialize (IH s1 (l ++ [va]) O1 P1). rewrite K1, V1 in IH. assert (Hb1 : forall x u, x ∈ l ++ [va] -> u ∈ vmlist -> vae s1 x <= vm_addr (vms s u)).
  { intros x u. rewrite elem_of_app, list_elem_of_singleton. intros [Hx| ->] Hu.
    - unfold vae. rewrite F1 by (by intros ->). apply Hb; [done|by right].
    - destruct S1 as (_ & _ & _ & Ee). rewrite Ee, V1. by apply Hlt. }
  specialize (IH He' Hb1). destruct (oa_serves k _); [|exact IH]. destruct IH as (s' & l' & E' & O' & P' & V' & F' & S').
  exists s', (va :: l'). rewrite <- app_assoc in O'. split_and!; try done.
  - intros x Hx. rewrite F' by (apply elem_of_app; by left). apply F1. by intros ->.
  - constructor; [|done]. apply (stands_ext s1); [apply F', elem_of_app; right; left|by rewrite V', V1|done].
Qed.

Lemma stands_view s l vmlist b : vm_ok s l -> Forall2 (stands_for s) l vmlist ->
  (forall t, t ∈ vmlist -> vm_addr (vms s t) <= b < vm_end (vms s) t -> find_vm_area s b = Ret t)
  /\ ((forall t, t ∈ vmlist -> ~ vm_addr (vms s t) <= b < vm_end (vms s) t) -> find_vm_area s b = Ret 0).
Proof.
  intros [Hok _] Hf. split.
  - intros t Ht Hb. apply (find_vm_eq s l b t Hok). apply list_elem_of_lookup in Ht as [i Hi]. destruct (Forall2_lookup_r _ _ _ _ _ Hf Hi) as (x & Hx & F & Ev & E1 & E2).
    left. exists x. split; [by eapply list_elem_of_lookup_2|]. split; [unfold contains; rewrite E1, E2; lia|done].
  - intros Hn. apply (find_vm_eq s l b 0 Hok). right. split; [done|]. intros x Hx Cx _. apply list_elem_of_lookup in Hx as [i Hi].
    destruct (Forall2_lookup_l _ _ _ _ _ Hf Hi) as (t & Ht & F & Ev & E1 & E2). unfold contains in Cx. rewrite E1, E2 in Cx. apply (Hn t); [by eapply list_elem_of_lookup_2|done].
Qed.
End init.
