(* ===== verification/VmallocProps.v ===== *)
(** * Ranges of virtual addresses: properties *)

From S2P Require Import Prelude Bitops Memblock Bitmap BitmapSpec Objects Rbtree RbtreeSpec RbSet RbProps VmallocSpec.
From stdpp Require Import base list numbers option sorting gmap sets.
From S2P Require Import Vmalloc VmallocOps.
#[local] Open Scope Z_scope.
#[local] Open Scope kernel_scope.

(** ** An allocator of aligned objects, for the examples *)

Record pool := mk_pool { pool_next : Z; pool_end : Z; pool_live : gset Z }.
#[export] Instance pool_allocator : ObjectAllocator pool := {
  oa_available _ := true;
  oa_kzalloc k size :=
    let p := pool_next k in
    if (0 <? p) && (p mod 8 =? 0) && (p + size <=? pool_end k) && (pool_end k <=? 2 ^ 64) && negb (bool_decide (p ∈ pool_live k))
    then Ret (mk_pool (p + (size + 7) / 8 * 8) (pool_end k) ({[p]} ∪ pool_live k), p) else Ret (k, 0);
  oa_kfree k p := Ret (mk_pool (pool_next k) (pool_end k) (pool_live k ∖ {[p]}));
}.
#[export] Instance pool_laws : ObjectAllocatorLaws pool.
Proof.
  refine {| oa_live := pool_live |}.
  - intros k size _. cbn. destruct (_ && _) eqn:E; eexists _, _; (split; [reflexivity|]); [right|by left].
    rewrite !andb_true_iff, negb_true_iff, bool_decide_eq_false, Z.ltb_lt in E. split_and!; [lia|tauto|done].
  - intros k p _. eexists. by split.
Defined.
#[export] Instance pool_aligned : AlignedObjects pool.
Proof.
  intros k size k' p _. cbn. destruct (_ && _) eqn:E; intros [= <- <-] Np; [|done]. rewrite !andb_true_iff, Z.ltb_lt, Z.eqb_eq, !Z.leb_le in E. split_and!; [lia| |lia].
  apply Z.mod_divide; lia.
Qed.

(** Three areas are reserved, the middle one is removed again and waits. *)
Definition vm_empty : vmap pool := mk_vmap rb_blank 0 (fun _ => mk_va 0 0 0 0) [] [] 0 0 0 0 0 0 (fun _ => mk_vm 0 0 0 0 0) (mk_pool 4096 65536 ∅).
Definition demo_vm (o : outcome (vmap pool)) : vmap pool := match o with Ret s => s | _ => vm_empty end.
Definition vm_demo : vmap pool :=
  demo_vm (
    let! (s, _) := __get_vm_area_node vm_empty 8192 1 0 65536 262144 in
    let! (s, _) := __get_vm_area_node s 8192 1 0 65536 262144 in
    let! (s, _) := __get_vm_area_node s 8192 1 0 65536 262144 in
    let! (s, _) := remove_vm_area 4 s 81920 in Ret s).
Example vm_demo_state : va_list vm_demo = [4184; 4344; 4504] /\ purge_list vm_demo = [4344] /\ free_vmap_cache vm_demo = 4504 /\ vmap_lazy_nr vm_demo = 3
  /\ (fun x => (va_start (va_of vm_demo x), va_end (va_of vm_demo x))) <$> va_list vm_demo = [(65536, 77824); (77824, 90112); (90112, 102400)].
Proof. vm_compute. done. Qed.

Lemma vm_demo_ok : vm_ok vm_demo [4184; 4344; 4504].
Proof.
  split; [split|].
  - split_and!; [|vm_compute; reflexivity|]. { apply (rbtree_by _ _ (Node Black (Node Red Leaf 4184 Leaf) 4344 (Node Red Leaf 4504 Leaf)) 1); vm_compute; reflexivity. }
    split; [repeat constructor; vm_compute; discriminate|]. apply list.Forall_forall. repeat constructor; vm_compute; (reflexivity || discriminate).
  - assert (free_vmap_cache vm_demo = 4504) as -> by (vm_compute; reflexivity). by apply (bool_decide_unpack _).
  - assert (purge_list vm_demo = [4344]) as -> by (vm_compute; reflexivity). split; [apply NoDup_singleton|]. intros x ->%list_elem_of_singleton. by apply (bool_decide_unpack _).
  - apply list.Forall_forall. repeat constructor; apply (bool_decide_unpack _); vm_compute; exact I.
  - assert (purge_list vm_demo = [4344]) as -> by (vm_compute; reflexivity). intros x ->%list_elem_of_singleton. vm_compute. intros N. by apply N.
Qed.
Lemma vm_demo_align k : 0 <= k < 16 -> can_align k vm_demo [4184; 4344; 4504].
Proof.
  intros Hk. assert (2 ^ k <= 2 ^ 16) by (apply Z.pow_le_mono_r; lia). unfold can_align. apply list.Forall_forall.
  assert (E : vae vm_demo 4184 = 77824 /\ vae vm_demo 4344 = 90112 /\ vae vm_demo 4504 = 102400) by (vm_compute; done). destruct E as (E1 & E2 & E3).
  repeat constructor; [rewrite E1|rewrite E2|rewrite E3]; lia.
Qed.

(** ** The properties *)

(** C22. alloc_vmap_area() of a whole number of pages with an
    alignment of a power of two, where the ends of areas can be aligned
    without wrapping, always returns.  Without memory for the area it fails
    with -ENOMEM and nothing changes.  Otherwise it places an area of exactly
    the size, aligned, between [vstart] and [vend], that meets no other area
    (the areas stay in order without overlap, in the tree and in the list), or
    fails with -EBUSY and gives its object back; only areas that were waiting
    to be purged may be gone.  When the search starts from the beginning the
    area is the lowest possible one, purging happens only if no hole was large
    enough, and -EBUSY means that there is none even after purging. *)
Theorem alloc_vmap_area_correct {K} `{HK : ObjectAllocatorLaws K} {HA : AlignedObjects K} (s : vmap K) l size k vstart vend :
  vmap_ok s l -> can_align k s l -> 0 < size < 2 ^ 64 -> (PAGE_SIZE | size) -> 0 <= k < 64 -> 0 <= vstart -> vstart + 2 ^ k <= 2 ^ 64 -> 0 <= vend < 2 ^ 64 ->
  exists s' r, alloc_vmap_area s size (2 ^ k) vstart vend = Ret (s', r)
    /\ (no_memory s l s' r \/ no_room size k vstart vend s l s' r \/ got_area size k vstart vend s l s' r).
Proof. intros Hok Hal Hs Hp Hk H1 H2 H3. by apply alloc_ok. Qed.

Lemma alloc_vmap_area_correct_witness : exists s' r, alloc_vmap_area vm_demo 40960 (2 ^ 14) 65536 262144 = Ret (s', r)
  /\ (no_memory vm_demo [4184; 4344; 4504] s' r \/ no_room 40960 14 65536 262144 vm_demo [4184; 4344; 4504] s' r
      \/ got_area 40960 14 65536 262144 vm_demo [4184; 4344; 4504] s' r).
Proof.
  apply alloc_vmap_area_correct; [exact (vk_map _ _ vm_demo_ok)|by apply vm_demo_align|lia|by exists 10|lia|lia|lia|lia].
Defined.



(** C24. Before the allocator works, vm_area_add_early() keeps
    the areas noted so far in order of address: it adds an area that overlaps
    none of them at its place and panics on one that overlaps.  vmalloc_init(),
    if one area object after the other can be allocated for the early areas,
    starts an allocator in which exactly the addresses of the early areas are
    taken and find_vm_area() answers with the early area; it follows NULL
    exactly when one of these allocations fails. *)
Theorem vmalloc_boot_correct {K} `{HK : ObjectAllocatorLaws K} {HA : AlignedObjects K} (s : vmap K) l x : early (vms s) l ->
  (vm_range (vms s) x ->
     ((forall y, y ∈ l -> vm_below (vms s) x y \/ vm_below (vms s) y x) ->
        exists l', vm_area_add_early false (vms s) l x = Ret l' /\ l' ≡ₚ x :: l /\ early (vms s) l')
     /\ (~ (forall y, y ∈ l -> vm_below (vms s) x y \/ vm_below (vms s) y x) -> vm_area_add_early false (vms s) l x = Panic))
  /\ (vm_ok s [] -> purge_list s = [] ->
     if oa_serves (kmem s) (replicate (length l) SIZEOF_VMAP_AREA)
     then exists s' l', vmalloc_init s l = Ret s' /\ vm_ok s' l' /\ vms s' = vms s /\ length l' = length l
        /\ forall b, (forall t, t ∈ l -> vm_addr (vms s t) <= b < vm_end (vms s) t -> find_vm_area s' b = Ret t)
             /\ ((forall t, t ∈ l -> ~ vm_addr (vms s t) <= b < vm_end (vms s) t) -> find_vm_area s' b = Ret 0)
     else vmalloc_init s l = Panic).
Proof.
  intros He. split.
  - intros Hr. destruct (early_loop_ok (vms s) l x He Hr) as [H1 H2]. split; [|exact H2]. intros Hd. destruct (H1 Hd) as (l1 & l2 & -> & E & E').
    exists (l1 ++ x :: l2). split_and!; [exact E|by rewrite Permutation_middle|exact E'].
  - intros Hok Hp. unfold vmalloc_init. pose proof (import_ok l s [] Hok Hp He ltac:(by intros ? ? ?%not_elem_of_nil)) as Hi.
    destruct (oa_serves _ _); [|by rewrite Hi]. destruct Hi as (s' & l' & E & O' & _ & V' & _ & S'). rewrite E. cbn [obind].
    assert (Oh : vm_ok (set_pcpu_hole s' VMALLOC_END) l') by (destruct O' as [[Hi Hc Hpl Ho] Hq]; by split).
    exists (set_pcpu_hole s' VMALLOC_END), l'. split_and!; [done|exact Oh|done|by apply (Forall2_length _ _ _ S')|].
    intros b. rewrite <- V'. apply (stands_view (set_pcpu_hole s' VMALLOC_END) l' l b Oh). exact S'.
Qed.

(** Two early areas, and an empty allocator. *)
Definition early_vm : Z -> vm_struct := fun t => if t =? 8 then mk_vm 131072 8192 0 0 0 else if t =? 16 then mk_vm 65536 4096 0 0 0 else mk_vm 98304 4096 0 0 0.
Definition vm_blank : vmap pool := mk_vmap rb_blank 0 (fun _ => mk_va 0 0 0 0) [] [] 0 0 0 0 0 0 early_vm (mk_pool 4096 65536 ∅).
Lemma early_demo : early early_vm [16; 8].
Proof.
  split; [repeat constructor; vm_compute; discriminate|]. apply list.Forall_forall. repeat constructor; vm_compute; (reflexivity || discriminate).
Qed.
Lemma vm_blank_ok : vm_ok vm_blank [].
Proof.
  split; [split|]; try (intros x; change (purge_list vm_blank) with (@nil Z); by intros ?%not_elem_of_nil).
  - split_and!; [apply rbtree_empty|done|]. split; [constructor|by intros x ?%not_elem_of_nil].
  - left.
  - split; [constructor|done].
Qed.

Lemma vmalloc_boot_correct_witness :
  (exists l', vm_area_add_early false early_vm [16; 8] 24 = Ret l' /\ l' ≡ₚ [24; 16; 8] /\ early early_vm l')
  /\ (exists s' l', vmalloc_init vm_blank [16; 8] = Ret s' /\ vm_ok s' l' /\ vms s' = early_vm /\ length l' = length [16; 8]
        /\ forall b, (forall t, t ∈ [16; 8] -> vm_addr (early_vm t) <= b < vm_end early_vm t -> find_vm_area s' b = Ret t)
             /\ ((forall t, t ∈ [16; 8] -> ~ vm_addr (early_vm t) <= b < vm_end early_vm t) -> find_vm_area s' b = Ret 0)).
Proof.
  destruct (vmalloc_boot_correct vm_blank [16; 8] 24 early_demo) as [H1 H2]. split; [|apply H2; [exact vm_blank_ok|reflexivity]]. apply H1.
  - vm_compute. split; [split; [discriminate|reflexivity]|reflexivity].
  - apply list.Forall_forall. constructor; [right; vm_compute; discriminate|]. constructor; [left; vm_compute; discriminate|constructor].
Defined.

(** ** Where the code falls short of its comments *)

(** A hole of exactly the size asked for is not found: the comment says that
    the search starts over "if size fits into that hole", the test is
    [size < cached_hole_size].  Here 3 pages at 65536 are free, and the request
    for 3 pages fails. *)
Definition vm_hole : vmap pool :=
  demo_vm (
    let! (s, a) := alloc_vmap_area vm_empty 12288 1 65536 126976 in
    let! (s, _) := alloc_vmap_area s 12288 1 65536 126976 in
    let! s := free_vmap_area_noflush 4 s a in
    let! s := purge_vmap_area_lazy s in
    let! (s, _) := alloc_vmap_area s 24576 1 65536 126976 in
    Ret s).
Example exact_hole_missed :
  (fun x => (va_start (va_of vm_hole x), va_end (va_of vm_hole x))) <$> va_list vm_hole = [(77824, 90112); (90112, 114688)] /\ purge_list vm_hole = []
  /\ (exists s', alloc_vmap_area vm_hole 12288 1 65536 114688 = Ret (s', - EBUSY))
  /\ (exists s' r, alloc_vmap_area vm_hole 8192 1 65536 114688 = Ret (s', r) /\ va_start (va_of s' r) = 65536).
Proof.
  split_and!; [vm_compute; reflexivity|vm_compute; reflexivity|eexists; vm_compute; reflexivity|eexists _, _; split; vm_compute; reflexivity].
Qed.

(** __vunmap() means to warn about an address that belongs to no area, but
    find_vmap_area() has answered NULL by then and is followed. *)
Lemma vunmap_unknown_panics {K} `{HK : ObjectAllocatorLaws K} (cpus : Z) (s : vmap K) l a : vmap_ok s l -> a <> 0 -> (PAGE_SIZE | a) ->
  (forall x, x ∈ l -> ~ contains s x a) -> vunmap cpus s a = Panic.
Proof.
  intros [(Ht & El & Ha) _ _ _] Na [c Ec] Hn. unfold vunmap. rewrite (proj2 (Z.eqb_neq a 0)) by done.
  assert (Z.land a (PAGE_SIZE - 1) = 0) as ->. { rewrite Ec. change (PAGE_SIZE - 1) with (Z.ones 12). rewrite Z.land_ones by lia. apply Z.mod_mul. done. }
  cbn [negb Z.eqb]. destruct (find_area_ok s l a Ht Ha) as (x & E & [[-> _]|[Hx Cx]]); [by rewrite E|by destruct (Hn x Hx)].
Qed.
