(* ===== verification/Calendar.v ===== *)
(** * Calendar time

    Model of src/kernel/time/timeconv.c (seconds to dates) and of mktime64() of
    src/kernel/time/time.c (dates to seconds), against the Gregorian calendar
    given by the length of its months and the date that follows a date.  A
    [long] is a [Z], as every intermediate value fits in 64 bits; the unsigned
    operations of mktime64() are written with their width. *)

From S2P Require Import Prelude.
From stdpp Require Import base list numbers option.
#[local] Open Scope Z_scope.
#[local] Open Scope kernel_scope.

(** ** Seconds to dates *)

Definition __isleap (year : Z) : bool := (Z.rem year 4 =? 0) && (negb (Z.rem year 100 =? 0) || (Z.rem year 400 =? 0)).
Definition math_div (a b : Z) : Z := Z.quot a b - (if Z.rem a b <? 0 then 1 else 0).
Definition leaps_between (y1 y2 : Z) : Z :=
  let leaps1 := math_div (y1 - 1) 4 - math_div (y1 - 1) 100 + math_div (y1 - 1) 400 in
  let leaps2 := math_div (y2 - 1) 4 - math_div (y2 - 1) 100 + math_div (y2 - 1) 400 in
  leaps2 - leaps1.
Definition __mon_yday (leap : bool) : list Z :=
  if leap then [0; 31; 60; 91; 121; 152; 182; 213; 244; 274; 305; 335; 366]
  else [0; 31; 59; 90; 120; 151; 181; 212; 243; 273; 304; 334; 365].
Definition SECS_PER_HOUR : Z := 60 * 60.
Definition SECS_PER_DAY : Z := SECS_PER_HOUR * 24.

Record tm := mk_tm { tm_sec : Z; tm_min : Z; tm_hour : Z; tm_mday : Z; tm_mon : Z; tm_year : Z; tm_wday : Z; tm_yday : Z }.

Fixpoint back_loop (fuel : nat) (rem days : Z) : outcome (Z * Z) :=
  match fuel with
  | O => Stuck
  | S fuel' => if rem <? 0 then back_loop fuel' (rem + SECS_PER_DAY) (days - 1) else Ret (rem, days)
  end.
Fixpoint fore_loop (fuel : nat) (rem days : Z) : outcome (Z * Z) :=
  match fuel with
  | O => Stuck
  | S fuel' => if rem >=? SECS_PER_DAY then fore_loop fuel' (rem - SECS_PER_DAY) (days + 1) else Ret (rem, days)
  end.
Fixpoint year_loop (fuel : nat) (y days : Z) : outcome (Z * Z) :=
  match fuel with
  | O => Stuck
  | S fuel' =>
      if (days <? 0) || (days >=? (if __isleap y then 366 else 365)) then
        let yg := y + math_div days 365 in
        year_loop fuel' yg (days - ((yg - y) * 365 + leaps_between y yg))
      else Ret (y, days)
  end.
(** [for (y = 11; days < ip[y]; y--)]. *)
Fixpoint mon_loop (ip : list Z) (days : Z) (y : nat) : outcome nat :=
  if days <? nth y ip 0 then match y with O => Stuck | S y' => mon_loop ip days y' end else Ret y.

Definition DAY_FUEL (rem : Z) : nat := Z.to_nat (Z.abs rem / SECS_PER_DAY + 2).
Definition YEAR_FUEL : nat := 10.
Definition time64_to_tm (totalsecs offset : Z) : outcome tm :=
  let days := Z.quot totalsecs SECS_PER_DAY in
  let rem := Z.rem totalsecs SECS_PER_DAY + offset in
  let! (rem, days) := back_loop (DAY_FUEL rem) rem days in
  let! (rem, days) := fore_loop (DAY_FUEL rem) rem days in
  let hour := Z.quot rem SECS_PER_HOUR in
  let rem := Z.rem rem SECS_PER_HOUR in
  let wday := Z.rem (4 + days) 7 in
  let wday := if wday <? 0 then wday + 7 else wday in
  let! (y, days) := year_loop YEAR_FUEL 1970 days in
  let ip := __mon_yday (__isleap y) in
  let! m := mon_loop ip days 11 in
  Ret (mk_tm (Z.rem rem 60) (Z.quot rem 60) hour (days - nth m ip 0 + 1) (Z.of_nat m) (y - 1900) wday days).

(** ** Dates to seconds *)

Definition mktime64 (year0 mon0 day hour min sec : Z) : Z :=
  let mon := u32 (mon0 - 2) in
  let '(mon, year) := if 0 >=? s32 mon then (u32 (mon + 12), u32 (year0 - 1)) else (mon, year0) in
  let days := u32 (year / 4 - year / 100 + year / 400 + u32 (367 * mon) / 12 + day) + u32 (year * 365) - 719499 in
  ((days * 24 + hour) * 60 + min) * 60 + sec.

(** ** The calendar *)

Definition leap (y : Z) : bool := (y mod 4 =? 0) && (negb (y mod 100 =? 0) || (y mod 400 =? 0)).
Definition month_days (y m : Z) : Z :=
  if m =? 1 then (if leap y then 29 else 28) else if (m =? 3) || (m =? 5) || (m =? 8) || (m =? 10) then 30 else 31.
(** A date: year, month from 0, day of the month from 1. *)
Definition valid_date (d : Z * Z * Z) : Prop := let '(y, m, d) := d in 0 <= m < 12 /\ 1 <= d <= month_days y m.
Definition next_date (d : Z * Z * Z) : Z * Z * Z :=
  let '(y, m, d) := d in
  if d <? month_days y m then (y, m, d + 1) else if m <? 11 then (y, m + 1, 1) else (y + 1, 0, 1).

(** Leap years up to and including year [n], the first day of a year, and the
    number of a date, all counted from 1 January 1970. *)
Definition leaps (n : Z) : Z := n / 4 - n / 100 + n / 400.
Definition year_start (y : Z) : Z := 365 * (y - 1970) + leaps (y - 1) - leaps 1969.
Definition day_number (d : Z * Z * Z) : Z := let '(y, m, d) := d in year_start y + nth (Z.to_nat m) (__mon_yday (leap y)) 0 + d - 1.

Lemma math_div_spec a b : 0 < b -> math_div a b = a / b.
Proof.
  intros Hb. unfold math_div. pose proof (Z.quot_rem' a b). pose proof (Z.rem_bound_abs a b ltac:(lia)). pose proof (Z.div_mod a b ltac:(lia)). pose proof (Z.mod_pos_bound a b Hb).
  destruct (Z.ltb_spec (Z.rem a b) 0); nia.
Qed.
Lemma isleap_spec y : __isleap y = leap y.
Proof.
  unfold __isleap, leap. assert (E : forall b, 0 < b -> (Z.rem y b =? 0) = (y mod b =? 0)).
  { intros b Hb. apply Bool.eq_iff_eq_true. rewrite !Z.eqb_eq, Z.mod_divide by lia. rewrite Z.rem_divide by lia. done. }
  by rewrite !E by lia.
Qed.
Lemma leaps_between_spec y1 y2 : leaps_between y1 y2 = leaps (y2 - 1) - leaps (y1 - 1).
Proof. unfold leaps_between, leaps. rewrite !math_div_spec by lia. done. Qed.

(** A year is a leap year, or has one day less. *)
Lemma leaps_step y : leaps y = leaps (y - 1) + (if leap y then 1 else 0).
Proof.
  unfold leaps, leap. destruct (Z.eqb_spec (y mod 4) 0), (Z.eqb_spec (y mod 100) 0), (Z.eqb_spec (y mod 400) 0); cbn; Z.to_euclidean_division_equations; lia.
Qed.
(** Leap years are 97 in 400. *)
Lemma leaps_near n : 97 * n - 699 <= 400 * leaps n <= 97 * n + 396.
Proof. unfold leaps. Z.to_euclidean_division_equations; lia. Qed.
Lemma year_start_next y : year_start (y + 1) = year_start y + (if leap y then 366 else 365).
Proof. unfold year_start. replace (y + 1 - 1) with y by lia. rewrite (leaps_step y). destruct (leap y); lia. Qed.
Lemma year_start_mono y z : y <= z -> year_start y <= year_start z.
Proof. intros Hyz. pose proof (leaps_near (y - 1)). pose proof (leaps_near (z - 1)). destruct (Z.eq_dec y z) as [->|]; [lia|]. unfold year_start. lia. Qed.

Lemma leap_four y : leap y = true -> y mod 4 = 0.
Proof. unfold leap. rewrite andb_true_iff, Z.eqb_eq. tauto. Qed.
(** Three years in a row have at most one leap year. *)
Lemma leaps_few n j : 0 <= j <= 3 -> leaps n <= leaps (n + j) <= leaps n + 1.
Proof.
  intros Hj. pose proof (leaps_step (n + 1)) as E1. pose proof (leaps_step (n + 2)) as E2. pose proof (leaps_step (n + 3)) as E3.
  replace (n + 1 - 1) with n in E1 by lia. replace (n + 2 - 1) with (n + 1) in E2 by lia. replace (n + 3 - 1) with (n + 2) in E3 by lia.
  assert (Hone : (if leap (n + 1) then 1 else 0) + (if leap (n + 2) then 1 else 0) + (if leap (n + 3) then 1 else 0) <= 1).
  { destruct (leap (n + 1)) eqn:L1, (leap (n + 2)) eqn:L2, (leap (n + 3)) eqn:L3; try lia;
      repeat match goal with H : leap _ = true |- _ => apply leap_four in H end; exfalso; Z.to_euclidean_division_equations; lia. }
  assert (Hc : j = 0 \/ j = 1 \/ j = 2 \/ j = 3) by lia. destruct (leap (n + 1)), (leap (n + 2)), (leap (n + 3)); destruct Hc as [-> |[-> |[-> | ->]]]; rewrite ?Z.add_0_r; lia.
Qed.

(** ** The search for the year *)

(** One turn of the loop. *)
Definition year_turn (y days : Z) : Z * Z := (y + days / 365, days mod 365 - (leaps (y + days / 365 - 1) - leaps (y - 1))).
Lemma year_loop_step fuel y days : year_loop (S fuel) y days =
  if (days <? 0) || (days >=? (if leap y then 366 else 365)) then year_loop fuel (fst (year_turn y days)) (snd (year_turn y days)) else Ret (y, days).
Proof.
  cbn [year_loop]. rewrite isleap_spec, math_div_spec by lia. destruct (_ || _); [|done]. cbn [fst snd year_turn]. f_equal. rewrite leaps_between_spec.
  pose proof (Z.div_mod days 365 ltac:(lia)). lia.
Qed.
(** The day meant does not change. *)
Lemma year_turn_same y days : year_start (fst (year_turn y days)) + snd (year_turn y days) = year_start y + days.
Proof. cbn [fst snd year_turn]. unfold year_start. pose proof (Z.div_mod days 365 ltac:(lia)). lia. Qed.
(** The distance shrinks. *)
Lemma year_turn_near y days : Z.abs (snd (year_turn y days)) <= 368 + Z.abs days / 1000.
Proof.
  cbn [fst snd year_turn]. pose proof (leaps_near (y + days / 365 - 1)). pose proof (leaps_near (y - 1)). Z.to_euclidean_division_equations. lia.
Qed.

Definition in_year (y days : Z) : Prop := 0 <= days < (if leap y then 366 else 365).
Lemma year_loop_in fuel y days : in_year y days -> year_loop (S fuel) y days = Ret (y, days).
Proof. intros Hi. rewrite year_loop_step. unfold in_year in Hi. destruct (Z.ltb_spec days 0); [lia|]. cbn [orb]. rewrite Z.geb_leb. by destruct (Z.leb_spec (if leap y then 366 else 365) days); [lia|]. Qed.

(** Close to the year the loop ends after at most three turns. *)
Lemma year_turn_close y days : Z.abs days <= 1094 -> -1 <= snd (year_turn y days) <= 365.
Proof.
  intros Hd. cbn [fst snd year_turn]. assert (-3 <= days / 365 <= 2) by (Z.to_euclidean_division_equations; lia). pose proof (Z.mod_pos_bound days 365).
  destruct (Z.leb_spec 0 (days / 365)).
  - pose proof (leaps_few (y - 1) (days / 365)). replace (y + days / 365 - 1) with (y - 1 + days / 365) by lia. lia.
  - pose proof (leaps_few (y + days / 365 - 1) (- (days / 365))) as Hf. replace (y + days / 365 - 1 + - (days / 365)) with (y - 1) in Hf by lia. lia.
Qed.
Lemma year_turn_edge y days : -1 <= days <= 365 -> ~ in_year y days -> in_year (fst (year_turn y days)) (snd (year_turn y days)).
Proof.
  intros Hd Hn. unfold in_year in *. assert (Hc : days = -1 \/ days = 365 /\ leap y = false) by (destruct (leap y) eqn:E; lia).
  destruct Hc as [-> |[-> E]]; cbn [fst snd year_turn].
  - change (-1 / 365) with (-1). change (-1 mod 365) with 364. replace (y + -1 - 1) with (y - 1 - 1) by lia. rewrite (leaps_step (y - 1)).
    replace (y + -1) with (y - 1) by lia. destruct (leap (y - 1)); lia.
  - change (365 / 365) with 1. change (365 mod 365) with 0. replace (y + 1 - 1) with y by lia. rewrite (leaps_step y), E. destruct (leap (y + 1)); lia.
Qed.

(** How far from the year the loop may start with some fuel left. *)
Fixpoint reach (fuel : nat) : Z := match fuel with O => 1094 | S fuel' => (reach fuel' - 368) * 1000 end.
Lemma year_loop_ok fuel : forall y days, Z.abs days <= reach fuel ->
  exists y' days', year_loop (fuel + 4) y days = Ret (y', days') /\ in_year y' days' /\ year_start y' + days' = year_start y + days.
Proof.
  assert (Hstay : forall f y days, in_year y days \/ ~ in_year y days /\ year_loop (S f) y days = year_loop f (fst (year_turn y days)) (snd (year_turn y days))).
  { intros f y days. rewrite year_loop_step. unfold in_year. destruct (Z.ltb_spec days 0); [right; split; [lia|done]|]. cbn [orb]. rewrite Z.geb_leb.
    destruct (Z.leb_spec (if leap y then 366 else 365) days); [right; split; [lia|done]|left; lia]. }
  induction fuel as [|fuel IH]; intros y days Hd; cbn [reach] in Hd.
  - destruct (Hstay 3%nat y days) as [Hi|[_ E]]; [exists y, days; split; [by apply year_loop_in|done]|]. cbn [plus]. rewrite E, <- (year_turn_same y days).
    pose proof (year_turn_close y days Hd) as Hc. set (y1 := fst (year_turn y days)) in *. set (d1 := snd (year_turn y days)) in *.
    destruct (Hstay 2%nat y1 d1) as [Hi|[Hn E1]]; [exists y1, d1; split; [by apply year_loop_in|done]|]. rewrite E1, <- (year_turn_same y1 d1).
    pose proof (year_turn_edge y1 d1 Hc Hn) as Hi. eexists _, _. split; [by apply year_loop_in|done].
  - change (S fuel + 4)%nat with (S (fuel + 4)). destruct (Hstay (fuel + 4)%nat y days) as [Hi|[_ E]]; [exists y, days; split; [by apply year_loop_in|done]|].
    rewrite E, <- (year_turn_same y days). apply IH. pose proof (year_turn_near y days). enough (Z.abs days / 1000 <= reach fuel - 368) by lia.
    apply Z.div_le_upper_bound; lia.
Qed.

(** ** The rest of the conversion *)

Lemma back_ok fuel : forall rem days, - (Z.of_nat fuel * SECS_PER_DAY) <= rem ->
  exists rem' days', back_loop (S fuel) rem days = Ret (rem', days') /\ 0 <= rem' /\ (rem' < SECS_PER_DAY \/ rem' = rem) /\ days' * SECS_PER_DAY + rem' = days * SECS_PER_DAY + rem.
Proof.
  induction fuel as [|fuel IH]; intros rem days Hr; change SECS_PER_DAY with 86400 in *; cbn [back_loop]; destruct (Z.ltb_spec rem 0) as [Hn|Hp].
  - lia.
  - exists rem, days. split_and!; try done; lia.
  - destruct (IH (rem + 86400) (days - 1)) as (r & d & E & H1 & H2 & H3); [lia|]. change SECS_PER_DAY with 86400. exists r, d. cbn [back_loop] in E. split_and!; [exact E|lia|lia|lia].
  - exists rem, days. split_and!; try done; lia.
Qed.
Lemma fore_ok fuel : forall rem days, 0 <= rem < (Z.of_nat fuel + 1) * SECS_PER_DAY ->
  exists rem' days', fore_loop (S fuel) rem days = Ret (rem', days') /\ 0 <= rem' < SECS_PER_DAY /\ days' * SECS_PER_DAY + rem' = days * SECS_PER_DAY + rem.
Proof.
  induction fuel as [|fuel IH]; intros rem days Hr; change SECS_PER_DAY with 86400 in *; cbn [fore_loop]; change SECS_PER_DAY with 86400; rewrite Z.geb_leb; destruct (Z.leb_spec 86400 rem) as [Hn|Hp].
  - lia.
  - exists rem, days. split_and!; try done; lia.
  - destruct (IH (rem - 86400) (days + 1)) as (r & d & E & H1 & H3); [lia|]. exists r, d. cbn [fore_loop] in E. change SECS_PER_DAY with 86400 in E. split_and!; [exact E|lia|lia|lia].
  - exists rem, days. split_and!; try done; lia.
Qed.
(** Both loops together divide by the length of a day, rounding down. *)
Lemma day_loops_ok rem days : exists r d, (let! (rem1, days1) := back_loop (DAY_FUEL rem) rem days in fore_loop (DAY_FUEL rem1) rem1 days1) = Ret (r, d)
  /\ 0 <= r < SECS_PER_DAY /\ d * SECS_PER_DAY + r = days * SECS_PER_DAY + rem.
Proof.
  assert (Hf : forall x, exists n, DAY_FUEL x = S n /\ Z.abs x < Z.of_nat n * SECS_PER_DAY).
  { intros x. exists (Z.to_nat (Z.abs x / SECS_PER_DAY + 1)). unfold DAY_FUEL. change SECS_PER_DAY with 86400.
    assert (0 <= Z.abs x / 86400) by (apply Z.div_pos; lia). pose proof (Z.div_mod (Z.abs x) 86400 ltac:(lia)). pose proof (Z.mod_pos_bound (Z.abs x) 86400 ltac:(lia)). split; lia. }
  destruct (Hf rem) as (n & -> & Hn). destruct (back_ok n rem days) as (r1 & d1 & -> & H1 & H2 & H3); [lia|]. cbn [obind].
  destruct (Hf r1) as (n1 & -> & Hn1). destruct (fore_ok n1 r1 d1) as (r & d & -> & H4 & H5); [change SECS_PER_DAY with 86400 in *; lia|].
  exists r, d. split_and!; [done|lia|lia|lia].
Qed.

Lemma mon_loop_ok ip days y : nth 0 ip 0 <= days -> exists m, mon_loop ip days y = Ret m /\ (m <= y)%nat /\ nth m ip 0 <= days /\ ((m < y)%nat -> days < nth (S m) ip 0).
Proof.
  intros H0. induction y as [|y (m & E & Hm & H1 & H2)]; cbn [mon_loop].
  { destruct (Z.ltb_spec days (nth 0 ip 0)); [lia|]. exists 0%nat. split_and!; [done|lia|lia|lia]. }
  destruct (Z.ltb_spec days (nth (S y) ip 0)) as [Hlt|Hge].
  - exists m. split_and!; [done|lia|done|]. intros Hlt'. destruct (decide (m = y)) as [->|]; [done|]. apply H2. lia.
  - exists (S y). split_and!; [done|lia|done|lia].
Qed.
Lemma month_table y (m : nat) : (m < 12)%nat -> nth (S m) (__mon_yday (leap y)) 0 = nth m (__mon_yday (leap y)) 0 + month_days y (Z.of_nat m).
Proof. intros Hm. unfold month_days. do 12 (destruct m as [|m]; [cbn; destruct (leap y); reflexivity|]). lia. Qed.
Lemma month_found y days : in_year y days ->
  exists m, mon_loop (__mon_yday (leap y)) days 11 = Ret m /\ (m < 12)%nat /\ 1 <= days - nth m (__mon_yday (leap y)) 0 + 1 <= month_days y (Z.of_nat m).
Proof.
  intros Hi. unfold in_year in Hi. destruct (mon_loop_ok (__mon_yday (leap y)) days 11) as (m & E & Hm & H1 & H2); [destruct (leap y); cbn; lia|].
  exists m. split_and!; [done|lia|lia|]. pose proof (month_table y m ltac:(lia)) as Ht. assert (days < nth (S m) (__mon_yday (leap y)) 0); [|lia].
  destruct (decide (m < 11)%nat) as [Hl|Hl]; [by apply H2|]. assert (m = 11%nat) as -> by lia. destruct (leap y); cbn; lia.
Qed.

Definition date_of (r : tm) : Z * Z * Z := (tm_year r + 1900, tm_mon r, tm_mday r).
(** What a broken-down time says: date, day of the year and week, time. *)
Definition tells (r : tm) (secs : Z) : Prop :=
  valid_date (date_of r) /\ day_number (date_of r) = secs / SECS_PER_DAY
  /\ tm_yday r = day_number (date_of r) - year_start (tm_year r + 1900) /\ tm_wday r = (4 + secs / SECS_PER_DAY) mod 7
  /\ 0 <= tm_sec r < 60 /\ 0 <= tm_min r < 60 /\ 0 <= tm_hour r < 24 /\ tm_hour r * 3600 + tm_min r * 60 + tm_sec r = secs mod SECS_PER_DAY.

Lemma time64_to_tm_ok t off : - 2 ^ 63 <= t < 2 ^ 63 -> - 2 ^ 31 <= off < 2 ^ 31 -> exists r, time64_to_tm t off = Ret r /\ tells r (t + off).
Proof.
  intros Ht Ho. unfold time64_to_tm. destruct (day_loops_ok (Z.rem t SECS_PER_DAY + off) (Z.quot t SECS_PER_DAY)) as (r & d & E & Hr & Hd).
  destruct (back_loop _ _ _) as [[r1 d1]| |]; try done. cbn [obind] in *. rewrite E. cbn [obind]. clear E r1 d1.
  pose proof (Z.quot_rem' t SECS_PER_DAY) as Hq. assert (Hsum : d * SECS_PER_DAY + r = t + off) by lia. clear Hd Hq. change SECS_PER_DAY with 86400 in *.
  assert (Ed : (t + off) / 86400 = d) by (symmetry; apply (Z.div_unique _ _ _ r); lia). assert (Er : (t + off) mod 86400 = r) by (symmetry; apply (Z.mod_unique _ _ d); lia).
  destruct (year_loop_ok 6 1970 d) as (y & days & E & Hi & Hy); [change (reach 6) with (((((((1094 - 368) * 1000 - 368) * 1000 - 368) * 1000 - 368) * 1000 - 368) * 1000 - 368) * 1000); lia|].
  change YEAR_FUEL with (6 + 4)%nat. rewrite E. cbn [obind]. rewrite isleap_spec. destruct (month_found y days Hi) as (m & Em & Hm & Hmd). rewrite Em. cbn [obind].
  eexists. split; [reflexivity|]. unfold tells, date_of. cbn [tm_sec tm_min tm_hour tm_mday tm_mon tm_year tm_wday tm_yday]. change SECS_PER_DAY with 86400. rewrite Ed, Er.
  replace (y - 1900 + 1900) with y by lia. unfold valid_date, day_number. rewrite Nat2Z.id. change (year_start 1970) with 0 in Hy.
  change SECS_PER_HOUR with 3600. pose proof (Z.mod_pos_bound r 3600 ltac:(lia)). rewrite (Z.rem_mod_nonneg r 3600), (Z.quot_div_nonneg r 3600) by lia.
  rewrite (Z.rem_mod_nonneg (r mod 3600) 60), (Z.quot_div_nonneg (r mod 3600) 60) by lia.
  pose proof (Z.quot_rem' (4 + d) 7). pose proof (Z.rem_bound_abs (4 + d) 7 ltac:(lia)).
  split_and!; try lia; try (Z.to_euclidean_division_equations; lia). destruct (Z.ltb_spec (Z.rem (4 + d) 7) 0).
  - apply (Z.mod_unique _ _ (Z.quot (4 + d) 7 - 1)); lia.
  - apply (Z.mod_unique _ _ (Z.quot (4 + d) 7)); lia.
Qed.

(** ** Dates and their numbers *)

Lemma month_days_pos y m : 28 <= month_days y m.
Proof. unfold month_days. repeat case_match; lia. Qed.
Lemma table_mono y (m n : nat) : (m <= n <= 12)%nat -> nth m (__mon_yday (leap y)) 0 <= nth n (__mon_yday (leap y)) 0.
Proof.
  intros [Hm Hn]. induction Hm as [|n Hm IH]; [lia|]. rewrite (month_table y n) by lia. pose proof (month_days_pos y (Z.of_nat n)). specialize (IH ltac:(lia)). lia.
Qed.
Lemma day_in_year y m d : valid_date (y, m, d) -> year_start y <= day_number (y, m, d) < year_start (y + 1).
Proof.
  intros [Hm Hd]. unfold day_number. rewrite year_start_next. pose proof (table_mono y 0 (Z.to_nat m) ltac:(lia)). pose proof (table_mono y (S (Z.to_nat m)) 12 ltac:(lia)).
  pose proof (month_table y (Z.to_nat m) ltac:(lia)) as Ht. rewrite Z2Nat.id in Ht by lia.
  assert (nth 0 (__mon_yday (leap y)) 0 = 0) by (by destruct (leap y)). assert (nth 12 (__mon_yday (leap y)) 0 = if leap y then 366 else 365) by (by destruct (leap y)). lia.
Qed.

Lemma day_number_inj d1 d2 : valid_date d1 -> valid_date d2 -> day_number d1 = day_number d2 -> d1 = d2.
Proof.
  destruct d1 as [[y1 m1] d1], d2 as [[y2 m2] d2]. intros V1 V2 E. pose proof (day_in_year y1 m1 d1 V1). pose proof (day_in_year y2 m2 d2 V2).
  assert (y1 = y2) as ->.
  { destruct (Z.lt_trichotomy y1 y2) as [L|[?|L]]; [|done|]; exfalso.
    - pose proof (year_start_mono (y1 + 1) y2 ltac:(lia)). lia.
    - pose proof (year_start_mono (y2 + 1) y1 ltac:(lia)). lia. }
  destruct V1 as [M1 D1], V2 as [M2 D2]. unfold day_number in E. assert (m1 = m2) as ->; [|f_equal; lia].
  pose proof (month_table y2 (Z.to_nat m1) ltac:(lia)) as T1. pose proof (month_table y2 (Z.to_nat m2) ltac:(lia)) as T2. rewrite !Z2Nat.id in * by lia.
  destruct (Z.lt_trichotomy m1 m2) as [L|[?|L]]; [|done|]; exfalso.
  - pose proof (table_mono y2 (S (Z.to_nat m1)) (Z.to_nat m2) ltac:(lia)). lia.
  - pose proof (table_mono y2 (S (Z.to_nat m2)) (Z.to_nat m1) ltac:(lia)). lia.
Qed.

Lemma next_date_ok d : valid_date d -> valid_date (next_date d) /\ day_number (next_date d) = day_number d + 1.
Proof.
  destruct d as [[y m] d]. intros [Hm Hd]. unfold next_date. destruct (Z.ltb_spec d (month_days y m)) as [Hl|Hl].
  - unfold valid_date, day_number. lia.
  - destruct (Z.ltb_spec m 11) as [Hm1|Hm1].
    + pose proof (month_table y (Z.to_nat m) ltac:(lia)) as Ht. rewrite Z2Nat.id in Ht by lia. pose proof (month_days_pos y (m + 1)). unfold valid_date, day_number.
      replace (Z.to_nat (m + 1)) with (S (Z.to_nat m)) by lia. lia.
    + assert (m = 11) as -> by lia. pose proof (month_days_pos (y + 1) 0). unfold valid_date, day_number. rewrite year_start_next. change (Z.to_nat 11) with 11%nat.
      change (Z.to_nat 0) with 0%nat. change (month_days y 11) with 31 in *. destruct (leap y), (leap (y + 1)); cbn; lia.
Qed.

Lemma mktime64_ok y m d h mi s : 1 <= y <= 11767033 -> valid_date (y, m, d) ->
  mktime64 y (m + 1) d h mi s = day_number (y, m, d) * SECS_PER_DAY + h * 3600 + mi * 60 + s.
Proof.
  intros Hy [Hm Hd]. assert (Hd31 : month_days y m <= 31) by (unfold month_days; repeat case_match; lia).
  assert (Hcore : forall yr mon, 0 <= yr <= 11767033 -> 1 <= mon <= 12 ->
    u32 (yr / 4 - yr / 100 + yr / 400 + u32 (367 * mon) / 12 + d) + u32 (yr * 365) - 719499 = leaps yr + 367 * mon / 12 + d + yr * 365 - 719499).
  { intros yr mon Hyr Hmon. rewrite (u32_id (367 * mon)), (u32_id (yr * 365)) by ulia. rewrite u32_id; [done|].
    assert (0 <= yr / 4 - yr / 100 + yr / 400 <= yr) by (Z.to_euclidean_division_equations; lia). assert (0 <= 367 * mon / 12 <= 400) by (Z.to_euclidean_division_equations; lia). ulia. }
  unfold mktime64. change SECS_PER_DAY with 86400. unfold day_number, year_start. change (leaps 1969) with 477.
  assert (Hc : m = 0 \/ m = 1 \/ 2 <= m < 12) by lia. destruct Hc as [-> |[-> |Hc]].
  - change (0 >=? s32 (u32 (0 + 1 - 2))) with true. cbn iota. change (u32 (u32 (0 + 1 - 2) + 12)) with 11. rewrite (u32_id (y - 1)), Hcore by (ulia || lia). change (367 * 11 / 12) with 336.
    replace (nth (Z.to_nat 0) (__mon_yday (leap y)) 0) with 0 by (by destruct (leap y)). lia.
  - change (0 >=? s32 (u32 (1 + 1 - 2))) with true. cbn iota. change (u32 (u32 (1 + 1 - 2) + 12)) with 12. rewrite (u32_id (y - 1)), Hcore by (ulia || lia). change (367 * 12 / 12) with 367.
    replace (nth (Z.to_nat 1) (__mon_yday (leap y)) 0) with 31 by (by destruct (leap y)). lia.
  - assert (Es : (0 >=? s32 (u32 (m + 1 - 2))) = false).
    { rewrite (u32_id (m + 1 - 2)) by ulia. unfold s32. rewrite Z.mod_small by lia. rewrite Z.geb_leb. apply Z.leb_gt. lia. }
    rewrite Es, (u32_id (m + 1 - 2)) by ulia. rewrite Hcore by lia. pose proof (leaps_step y) as El.
    assert (Ht : 367 * (m + 1 - 2) / 12 + (if leap y then 1 else 0) + 29 = nth (Z.to_nat m) (__mon_yday (leap y)) 0).
    { assert (Hmm : m = 2 \/ m = 3 \/ m = 4 \/ m = 5 \/ m = 6 \/ m = 7 \/ m = 8 \/ m = 9 \/ m = 10 \/ m = 11) by lia.
      destruct (leap y); repeat destruct Hmm as [-> |Hmm]; try reflexivity; subst m; reflexivity. }
    lia.
Qed.

(** ** What the conversions promise *)

Lemma tells_unique r r' secs : tells r secs -> tells r' secs -> r = r'.
Proof.
  intros (V & D & Y & W & S1 & M1 & H1 & T) (V' & D' & Y' & W' & S1' & M1' & H1' & T'). pose proof (day_number_inj _ _ V V' ltac:(lia)) as Ed.
  destruct r as [s mi h md mo y w yd], r' as [s' mi' h' md' mo' y' w' yd']. unfold date_of in *. cbn in *. injection Ed as Ey Em Ed. f_equal; try lia. rewrite Y, Y'. by rewrite Ey, Em, Ed.
Qed.
Lemma next_day secs : (secs + SECS_PER_DAY) / SECS_PER_DAY = secs / SECS_PER_DAY + 1 /\ (secs + SECS_PER_DAY) mod SECS_PER_DAY = secs mod SECS_PER_DAY.
Proof. change SECS_PER_DAY with 86400. Z.to_euclidean_division_equations; lia. Qed.
Lemma tells_next r r' secs : tells r secs -> tells r' (secs + SECS_PER_DAY) ->
  date_of r' = next_date (date_of r) /\ tm_wday r' = (tm_wday r + 1) mod 7 /\ tm_hour r' = tm_hour r /\ tm_min r' = tm_min r /\ tm_sec r' = tm_sec r.
Proof.
  intros (V & D & Y & W & S1 & M1 & H1 & T) (V' & D' & Y' & W' & S1' & M1' & H1' & T'). destruct (next_day secs) as [Ed Em]. rewrite Ed in D', W'. rewrite Em in T'.
  destruct (next_date_ok _ V) as [Vn En]. split_and!; [apply day_number_inj; lia || done| |lia|lia|lia]. rewrite W, W', Zplus_mod_idemp_l. f_equal. lia.
Qed.

(** C32. For every 64-bit time and offset time64_to_tm() returns,
    and what it returns is that time in the Gregorian calendar: second 0 is
    Thursday, 1 January 1970, 00:00:00; the time a day later shows the next
    date, the next day of the week and the same time of the day; the fields are
    in their ranges, and date, day of the year and day of the week agree with
    the day counted from the epoch, also before it. *)
Theorem calendar_correct (totalsecs offset : Z) (Ht : - 2 ^ 63 <= totalsecs < 2 ^ 63) (Ho : - 2 ^ 31 <= offset < 2 ^ 31) :
  exists r, time64_to_tm totalsecs offset = Ret r
    /\ (totalsecs + offset = 0 -> r = mk_tm 0 0 0 1 0 70 4 0)
    /\ (forall r', totalsecs + SECS_PER_DAY < 2 ^ 63 -> time64_to_tm (totalsecs + SECS_PER_DAY) offset = Ret r' ->
        date_of r' = next_date (date_of r) /\ tm_wday r' = (tm_wday r + 1) mod 7 /\ tm_hour r' = tm_hour r /\ tm_min r' = tm_min r /\ tm_sec r' = tm_sec r)
    /\ tells r (totalsecs + offset).
Proof.
  destruct (time64_to_tm_ok totalsecs offset Ht Ho) as (r & E & Hr). exists r. split_and!; [done| | |done].
  - intros E0. rewrite E0 in Hr. apply (tells_unique _ _ 0 Hr). unfold tells, valid_date, date_of, day_number. cbn. split_and!; reflexivity || lia.
  - intros r' Hlt E'. destruct (time64_to_tm_ok (totalsecs + SECS_PER_DAY) offset) as (r2 & E2 & Hr2); [change SECS_PER_DAY with 86400 in *; lia|done|].
    rewrite E' in E2. injection E2 as <-. apply (tells_next r r' (totalsecs + offset) Hr). by replace (totalsecs + offset + SECS_PER_DAY) with (totalsecs + SECS_PER_DAY + offset) by lia.
Qed.
Lemma calendar_correct_witness :
  time64_to_tm 951782399 3600 = Ret (mk_tm 59 59 0 29 1 100 2 59) /\ time64_to_tm (-1) 0 = Ret (mk_tm 59 59 23 31 11 69 3 364)
  /\ exists r, time64_to_tm 951782399 3600 = Ret r /\ tells r (951782399 + 3600).
Proof.
  split; [vm_compute; reflexivity|]. split; [vm_compute; reflexivity|].
  destruct (calendar_correct 951782399 3600 ltac:(lia) ltac:(lia)) as (r & E & _ & _ & Hr). exists r. split; [exact E|exact Hr].
Defined.

(** C33. mktime64() inverts time64_to_tm(): the seconds it computes
    for a date and time are broken down to the same date and time, and the
    fields of a broken-down time give back its seconds, for the years 1 to
    11767033, where [year * 365] fits in 32 bits. *)
Theorem mktime_roundtrip :
  (forall t r, - 2 ^ 63 <= t < 2 ^ 63 -> time64_to_tm t 0 = Ret r -> 1 <= tm_year r + 1900 <= 11767033 ->
    mktime64 (tm_year r + 1900) (tm_mon r + 1) (tm_mday r) (tm_hour r) (tm_min r) (tm_sec r) = t)
  /\ (forall y m d h mi s, 1 <= y <= 11767033 -> valid_date (y, m, d) -> 0 <= h < 24 -> 0 <= mi < 60 -> 0 <= s < 60 ->
    exists r, time64_to_tm (mktime64 y (m + 1) d h mi s) 0 = Ret r /\ date_of r = (y, m, d) /\ tm_hour r = h /\ tm_min r = mi /\ tm_sec r = s).
Proof.
  split.
  - intros t r Ht E Hy. destruct (time64_to_tm_ok t 0 Ht) as (r' & E' & Hr); [lia|]. rewrite E in E'. injection E' as <-. rewrite Z.add_0_r in Hr.
    destruct Hr as (V & D & _ & _ & _ & _ & _ & T). unfold date_of in *. rewrite mktime64_ok by done. rewrite D. change SECS_PER_DAY with 86400 in *. Z.to_euclidean_division_equations; lia.
  - intros y m d h mi s Hy V Hh Hmi Hs. rewrite mktime64_ok by done. pose proof (day_in_year y m d V) as Hd. pose proof (leaps_near (y - 1)). pose proof (leaps_near (y + 1 - 1)).
    assert (Hb : - 719163 <= day_number (y, m, d) < 2 ^ 33).
    { unfold year_start in Hd. change (leaps 1969) with 477 in Hd. assert (0 <= leaps (y - 1)) by (unfold leaps; Z.to_euclidean_division_equations; lia). lia. }
    set (n := day_number (y, m, d)) in *. assert (Hsecs : 0 <= h * 3600 + mi * 60 + s < SECS_PER_DAY) by (change SECS_PER_DAY with 86400; lia).
    set (t := n * SECS_PER_DAY + h * 3600 + mi * 60 + s). change SECS_PER_DAY with 86400 in *.
    assert (Et : t / 86400 = n) by (symmetry; apply (Z.div_unique _ _ _ (h * 3600 + mi * 60 + s)); lia).
    assert (Em : t mod 86400 = h * 3600 + mi * 60 + s) by (symmetry; apply (Z.mod_unique _ _ n); lia).
    destruct (time64_to_tm_ok t 0) as (r & -> & Hr); [lia|lia|]. rewrite Z.add_0_r in Hr. destruct Hr as (V' & D & _ & _ & S1 & M1 & H1 & T). exists r.
    change SECS_PER_DAY with 86400 in *. rewrite Et in D. rewrite Em in T. split_and!; [done|by apply day_number_inj|lia|lia|lia].
Qed.
Lemma mktime_roundtrip_witness : mktime64 2000 2 29 0 59 59 = 951785999
  /\ exists r, time64_to_tm (mktime64 2000 (1 + 1) 29 0 59 59) 0 = Ret r /\ date_of r = (2000, 1, 29) /\ tm_hour r = 0 /\ tm_min r = 59 /\ tm_sec r = 59.
Proof.
  split; [vm_compute; reflexivity|]. apply mktime_roundtrip; [lia| |lia|lia|lia]. vm_compute. repeat split; discriminate.
Defined.
