(* ===== verification/Timecounter.v ===== *)
(** * Timespecs and cycle counters

    Model of the timespec helpers of src/kernel/time/time.c and
    src/include/linux/time64.h, and of src/kernel/time/timecounter.c, which
    turns a free-running hardware counter into nanoseconds.  The function
    [read] of a cycle counter belongs to a driver: what it returned is an
    argument. *)

From S2P Require Import Prelude.
From stdpp Require Import base list numbers option.
#[local] Open Scope Z_scope.
#[local] Open Scope kernel_scope.

(** ** Timespecs *)

Record timespec64 := mk_timespec64 { tv_sec : Z; tv_nsec : Z }.
Definition NSEC_PER_SEC : Z := 1000000000.
Definition TIME64_MAX : Z := s64 (Z.lxor (u64 (Z.shiftl 1 63)) (2 ^ 64 - 1)).
Definition KTIME_SEC_MAX : Z := Z.quot TIME64_MAX NSEC_PER_SEC.

Definition timespec64_compare (lhs rhs : timespec64) : Z :=
  if tv_sec lhs <? tv_sec rhs then -1 else if tv_sec lhs >? tv_sec rhs then 1 else s32 (tv_nsec lhs - tv_nsec rhs).

(** The loops of set_normalized_timespec64(); [++sec] and [--sec] wrap, since
    the kernel is built with -fno-strict-overflow. *)
Fixpoint carry_loop (fuel : nat) (sec nsec : Z) : outcome (Z * Z) :=
  match fuel with
  | O => Stuck
  | S fuel' => if nsec >=? NSEC_PER_SEC then carry_loop fuel' (s64 (sec + 1)) (nsec - NSEC_PER_SEC) else Ret (sec, nsec)
  end.
Fixpoint borrow_loop (fuel : nat) (sec nsec : Z) : outcome (Z * Z) :=
  match fuel with
  | O => Stuck
  | S fuel' => if nsec <? 0 then borrow_loop fuel' (s64 (sec - 1)) (nsec + NSEC_PER_SEC) else Ret (sec, nsec)
  end.
Definition NSEC_FUEL (nsec : Z) : nat := Z.to_nat (Z.abs nsec / NSEC_PER_SEC + 2).
Definition set_normalized_timespec64 (sec nsec : Z) : outcome timespec64 :=
  let! (sec, nsec) := carry_loop (NSEC_FUEL nsec) sec nsec in
  let! (sec, nsec) := borrow_loop (NSEC_FUEL nsec) sec nsec in
  Ret (mk_timespec64 sec nsec).
Definition timespec64_add (lhs rhs : timespec64) : outcome timespec64 :=
  set_normalized_timespec64 (s64 (tv_sec lhs + tv_sec rhs)) (s64 (tv_nsec lhs + tv_nsec rhs)).
Definition timespec64_sub (lhs rhs : timespec64) : outcome timespec64 :=
  set_normalized_timespec64 (s64 (tv_sec lhs - tv_sec rhs)) (s64 (tv_nsec lhs - tv_nsec rhs)).
Definition timespec64_add_safe (lhs rhs : timespec64) : outcome timespec64 :=
  let! res := set_normalized_timespec64 (s64 (u64 (u64 (tv_sec lhs) + u64 (tv_sec rhs)))) (s64 (tv_nsec lhs + tv_nsec rhs)) in
  if (tv_sec res <? tv_sec lhs) || (tv_sec res <? tv_sec rhs) then Ret (mk_timespec64 TIME64_MAX 0) else Ret res.

Definition timespec64_valid (ts : timespec64) : bool :=
  if tv_sec ts <? 0 then false else if u64 (tv_nsec ts) >=? NSEC_PER_SEC then false else true.
Definition timespec64_valid_strict (ts : timespec64) : bool :=
  if negb (timespec64_valid ts) then false else if u64 (tv_sec ts) >=? KTIME_SEC_MAX then false else true.
Definition timespec64_to_ns (ts : timespec64) : Z := s64 (s64 (tv_sec ts * NSEC_PER_SEC) + tv_nsec ts).
Definition ns_to_timespec64 (nsec : Z) : timespec64 :=
  if nsec =? 0 then mk_timespec64 0 0
  else
    let sec := Z.quot nsec NSEC_PER_SEC in
    let rem := Z.rem nsec NSEC_PER_SEC in
    if rem <? 0 then mk_timespec64 (sec - 1) (rem + NSEC_PER_SEC) else mk_timespec64 sec rem.

(** ** Time counters *)

Record cyclecounter := mk_cyclecounter { cc_mask : Z; cc_mult : Z; cc_shift : Z }.
Record timecounter := mk_timecounter { tc_cc : cyclecounter; tc_cycle_last : Z; tc_nsec : Z; tc_mask : Z; tc_frac : Z }.
Definition CYCLECOUNTER_MASK (bits : Z) : Z := if bits <? 64 then u64 (Z.shiftl 1 bits - 1) else u64 (-1).

(** The nanoseconds, and the new [*frac]. *)
Definition cyclecounter_cyc2ns (cc : cyclecounter) (cycles mask frac : Z) : Z * Z :=
  let ns := u64 (u64 (cycles * cc_mult cc) + frac) in
  (Z.shiftr ns (cc_shift cc), Z.land ns mask).
Definition timecounter_adjtime (tc : timecounter) (delta : Z) : timecounter :=
  mk_timecounter (tc_cc tc) (tc_cycle_last tc) (u64 (tc_nsec tc + delta)) (tc_mask tc) (tc_frac tc).
Definition timecounter_init (cc : cyclecounter) (now start_tstamp : Z) : timecounter :=
  mk_timecounter cc now start_tstamp (u64 (u64 (Z.shiftl 1 (cc_shift cc)) - 1)) 0.
Definition timecounter_read_delta (tc : timecounter) (cycle_now : Z) : Z * timecounter :=
  let cycle_delta := Z.land (u64 (cycle_now - tc_cycle_last tc)) (cc_mask (tc_cc tc)) in
  let '(ns_offset, frac) := cyclecounter_cyc2ns (tc_cc tc) cycle_delta (tc_mask tc) (tc_frac tc) in
  (ns_offset, mk_timecounter (tc_cc tc) cycle_now (tc_nsec tc) (tc_mask tc) frac).
Definition timecounter_read (tc : timecounter) (cycle_now : Z) : Z * timecounter :=
  let '(nsec, tc) := timecounter_read_delta tc cycle_now in
  let nsec := u64 (nsec + tc_nsec tc) in
  (nsec, mk_timecounter (tc_cc tc) (tc_cycle_last tc) nsec (tc_mask tc) (tc_frac tc)).
Definition cc_cyc2ns_backwards (cc : cyclecounter) (cycles frac : Z) : Z :=
  Z.shiftr (u64 (u64 (cycles * cc_mult cc) - frac)) (cc_shift cc).
Definition timecounter_cyc2time (tc : timecounter) (cycle_tstamp : Z) : Z :=
  let delta := Z.land (u64 (cycle_tstamp - tc_cycle_last tc)) (cc_mask (tc_cc tc)) in
  if delta >? cc_mask (tc_cc tc) / 2 then
    let delta := Z.land (u64 (tc_cycle_last tc - cycle_tstamp)) (cc_mask (tc_cc tc)) in
    u64 (tc_nsec tc - cc_cyc2ns_backwards (tc_cc tc) delta (tc_frac tc))
  else u64 (tc_nsec tc + fst (cyclecounter_cyc2ns (tc_cc tc) delta (tc_mask tc) (tc_frac tc))).

(** ** Timespecs are pairs of quotient and remainder *)

Definition is_s64 (x : Z) : Prop := - 2 ^ 63 <= x < 2 ^ 63.
Lemma s64_range x : is_s64 (s64 x).
Proof. unfold s64, is_s64. pose proof (Z.mod_pos_bound (x + 2 ^ 63) (2 ^ 64) ltac:(lia)). lia. Qed.
Lemma s64_add_l x y : s64 (s64 x + y) = s64 (x + y).
Proof. unfold s64. replace ((x + 2 ^ 63) mod 2 ^ 64 - 2 ^ 63 + y + 2 ^ 63) with ((x + 2 ^ 63) mod 2 ^ 64 + y) by lia. rewrite Zplus_mod_idemp_l. do 2 f_equal. lia. Qed.
Lemma s64_u64 x : s64 (u64 x) = s64 x.
Proof. unfold s64, u64, U64_MOD. by rewrite Zplus_mod_idemp_l. Qed.
Lemma time64_max : TIME64_MAX = 2 ^ 63 - 1. Proof. reflexivity. Qed.

Lemma nsec_pos : 0 < NSEC_PER_SEC. Proof. reflexivity. Qed.
Lemma nsec_value : NSEC_PER_SEC = 1000000000. Proof. reflexivity. Qed.
Ltac nlia := pose proof nsec_value; unfold is_s64 in *; lia.
Lemma carry_step fuel sec nsec : carry_loop (S fuel) sec nsec = if nsec >=? NSEC_PER_SEC then carry_loop fuel (s64 (sec + 1)) (nsec - NSEC_PER_SEC) else Ret (sec, nsec).
Proof. reflexivity. Qed.
Lemma borrow_step fuel sec nsec : borrow_loop (S fuel) sec nsec = if nsec <? 0 then borrow_loop fuel (s64 (sec - 1)) (nsec + NSEC_PER_SEC) else Ret (sec, nsec).
Proof. reflexivity. Qed.
#[local] Opaque NSEC_PER_SEC.
Lemma carry_ok fuel : forall sec nsec, nsec < (Z.of_nat fuel + 1) * NSEC_PER_SEC -> is_s64 sec ->
  exists sec' nsec' k, carry_loop (S fuel) sec nsec = Ret (sec', nsec') /\ nsec' = nsec - k * NSEC_PER_SEC /\ sec' = s64 (sec + k)
    /\ nsec' < NSEC_PER_SEC /\ (0 <= nsec -> 0 <= nsec') /\ (nsec < 0 -> nsec' = nsec).
Proof.
  pose proof nsec_pos. induction fuel as [|fuel IH]; intros sec nsec Hn Hs; rewrite carry_step, Z.geb_leb; destruct (Z.leb_spec NSEC_PER_SEC nsec) as [Hge|Hlt].
  - lia.
  - exists sec, nsec, 0. rewrite Z.add_0_r, (s64_id sec) by exact Hs. repeat split; lia.
  - destruct (IH (s64 (sec + 1)) (nsec - NSEC_PER_SEC)) as (s' & n' & k & -> & H1 & H2 & H3 & H4 & H5); [lia|apply s64_range|].
    exists s', n', (k + 1). rewrite s64_add_l, <- Z.add_assoc, (Z.add_comm 1) in H2. repeat split; [lia|exact H2|lia|lia|lia].
  - exists sec, nsec, 0. rewrite Z.add_0_r, (s64_id sec) by exact Hs. repeat split; lia.
Qed.
Lemma borrow_ok fuel : forall sec nsec, - (Z.of_nat fuel * NSEC_PER_SEC) <= nsec < NSEC_PER_SEC -> is_s64 sec ->
  exists sec' nsec' k, borrow_loop (S fuel) sec nsec = Ret (sec', nsec') /\ nsec' = nsec - k * NSEC_PER_SEC /\ sec' = s64 (sec + k) /\ 0 <= nsec' < NSEC_PER_SEC.
Proof.
  pose proof nsec_pos. induction fuel as [|fuel IH]; intros sec nsec Hn Hs; rewrite borrow_step; destruct (Z.ltb_spec nsec 0) as [Hneg|Hpos].
  - lia.
  - exists sec, nsec, 0. rewrite Z.add_0_r, (s64_id sec) by exact Hs. repeat split; lia.
  - destruct (IH (s64 (sec - 1)) (nsec + NSEC_PER_SEC)) as (s' & n' & k & -> & H1 & H2 & H3); [lia|apply s64_range|].
    exists s', n', (k - 1). rewrite s64_add_l in H2. replace (sec - 1 + k) with (sec + (k - 1)) in H2 by lia. repeat split; [lia|exact H2|lia|lia].
  - exists sec, nsec, 0. rewrite Z.add_0_r, (s64_id sec) by exact Hs. repeat split; lia.
Qed.
Lemma nsec_fuel nsec : exists n, NSEC_FUEL nsec = S n /\ Z.abs nsec < Z.of_nat n * NSEC_PER_SEC.
Proof.
  exists (Z.to_nat (Z.abs nsec / NSEC_PER_SEC + 1)). unfold NSEC_FUEL. pose proof nsec_pos as Hp.
  assert (0 <= Z.abs nsec / NSEC_PER_SEC) by (apply Z.div_pos; lia). pose proof (Z.div_mod (Z.abs nsec) NSEC_PER_SEC ltac:(lia)). pose proof (Z.mod_pos_bound (Z.abs nsec) NSEC_PER_SEC Hp). split; lia.
Qed.
Lemma set_normalized_ok sec nsec : is_s64 sec -> set_normalized_timespec64 sec nsec = Ret (mk_timespec64 (s64 (sec + nsec / NSEC_PER_SEC)) (nsec mod NSEC_PER_SEC)).
Proof.
  intros Hs. unfold set_normalized_timespec64. destruct (nsec_fuel nsec) as (n & -> & Hn).
  destruct (carry_ok n sec nsec) as (s1 & n1 & k1 & -> & E1 & E2 & H1 & H2 & H3); [pose proof nsec_pos; lia|done|]. cbn [obind].
  destruct (nsec_fuel n1) as (m & -> & Hm). destruct (borrow_ok m s1 n1) as (s2 & n2 & k2 & -> & E3 & E4 & H4); [lia|rewrite E2; apply s64_range|]. cbn [obind].
  assert (Ed : nsec / NSEC_PER_SEC = k1 + k2) by (symmetry; apply (Z.div_unique _ _ _ n2); lia).
  assert (Em : nsec mod NSEC_PER_SEC = n2) by (symmetry; apply (Z.mod_unique _ _ (k1 + k2)); lia). rewrite Ed, Em, E4, E2, s64_add_l. do 2 f_equal. f_equal. lia.
Qed.

(** Nanoseconds a timespec stands for, and its normal form. *)
Definition total_ns (ts : timespec64) : Z := tv_sec ts * NSEC_PER_SEC + tv_nsec ts.
Definition normal (ts : timespec64) : Prop := is_s64 (tv_sec ts) /\ 0 <= tv_nsec ts < NSEC_PER_SEC.

Lemma normal_total ts : normal ts -> tv_sec ts = total_ns ts / NSEC_PER_SEC /\ tv_nsec ts = total_ns ts mod NSEC_PER_SEC.
Proof. intros [Hs Hn]. unfold total_ns. split; [apply (Z.div_unique _ _ _ (tv_nsec ts))|apply (Z.mod_unique _ _ (tv_sec ts))]; lia. Qed.
Lemma sum_split s1 n1 s2 n2 : (s1 * NSEC_PER_SEC + n1 + (s2 * NSEC_PER_SEC + n2)) / NSEC_PER_SEC = s1 + s2 + (n1 + n2) / NSEC_PER_SEC
  /\ (s1 * NSEC_PER_SEC + n1 + (s2 * NSEC_PER_SEC + n2)) mod NSEC_PER_SEC = (n1 + n2) mod NSEC_PER_SEC.
Proof.
  pose proof nsec_pos. replace (s1 * NSEC_PER_SEC + n1 + (s2 * NSEC_PER_SEC + n2)) with (n1 + n2 + (s1 + s2) * NSEC_PER_SEC) by lia.
  rewrite Z.div_add, Z_mod_plus_full by lia. lia.
Qed.

Lemma timespec64_add_ok a b : normal a -> normal b ->
  timespec64_add a b = Ret (mk_timespec64 (s64 ((total_ns a + total_ns b) / NSEC_PER_SEC)) ((total_ns a + total_ns b) mod NSEC_PER_SEC)).
Proof.
  intros [Ha Na] [Hb Nb]. unfold timespec64_add, total_ns. destruct (sum_split (tv_sec a) (tv_nsec a) (tv_sec b) (tv_nsec b)) as [-> ->].
  rewrite set_normalized_ok by apply s64_range. rewrite s64_add_l, (s64_id (tv_nsec a + tv_nsec b)) by nlia. done.
Qed.
Lemma timespec64_sub_ok a b : normal a -> normal b ->
  timespec64_sub a b = Ret (mk_timespec64 (s64 ((total_ns a - total_ns b) / NSEC_PER_SEC)) ((total_ns a - total_ns b) mod NSEC_PER_SEC)).
Proof.
  intros [Ha Na] [Hb Nb]. unfold timespec64_sub, total_ns. destruct (sum_split (tv_sec a) (tv_nsec a) (- tv_sec b) (- tv_nsec b)) as [E1 E2].
  rewrite set_normalized_ok by apply s64_range. rewrite s64_add_l, (s64_id (tv_nsec a - tv_nsec b)) by nlia.
  replace (tv_sec a * NSEC_PER_SEC + tv_nsec a - (tv_sec b * NSEC_PER_SEC + tv_nsec b)) with (tv_sec a * NSEC_PER_SEC + tv_nsec a + (- tv_sec b * NSEC_PER_SEC + - tv_nsec b)) by lia.
  rewrite E1, E2. done.
Qed.

Lemma timespec64_compare_ok a b : normal a -> normal b -> (total_ns a ?= total_ns b) = (timespec64_compare a b ?= 0).
Proof.
  intros [Ha Na] [Hb Nb]. unfold timespec64_compare, total_ns. rewrite Z.gtb_ltb, (s32_id (tv_nsec a - tv_nsec b)) by nlia.
  destruct (Z.ltb_spec (tv_sec a) (tv_sec b)) as [H1|H1]; [by apply Z.compare_lt_iff; nia|]. destruct (Z.ltb_spec (tv_sec b) (tv_sec a)) as [H2|H2]; [by apply Z.compare_gt_iff; nia|].
  assert (tv_sec a = tv_sec b) as -> by lia. destruct (Z.compare_spec (tv_nsec a - tv_nsec b) 0); [apply Z.compare_eq_iff|apply Z.compare_lt_iff|apply Z.compare_gt_iff]; lia.
Qed.

(** The sum is clamped where it does not fit. *)
Lemma timespec64_add_safe_ok a b : normal a -> normal b -> 0 <= tv_sec a -> 0 <= tv_sec b ->
  timespec64_add_safe a b = Ret (if (total_ns a + total_ns b) / NSEC_PER_SEC <=? TIME64_MAX
    then mk_timespec64 ((total_ns a + total_ns b) / NSEC_PER_SEC) ((total_ns a + total_ns b) mod NSEC_PER_SEC) else mk_timespec64 TIME64_MAX 0).
Proof.
  intros [Ha Na] [Hb Nb] Pa Pb. unfold timespec64_add_safe, total_ns. destruct (sum_split (tv_sec a) (tv_nsec a) (tv_sec b) (tv_nsec b)) as [-> ->].
  rewrite set_normalized_ok by apply s64_range. rewrite s64_u64, s64_add_l. unfold is_s64 in *. unwrap. rewrite (s64_id (tv_nsec a + tv_nsec b)) by nlia. cbn [obind tv_sec].
  assert (Hc : 0 <= (tv_nsec a + tv_nsec b) / NSEC_PER_SEC <= 1).
  { rewrite nsec_value in *. Z.to_euclidean_division_equations; lia. }
  set (c := (tv_nsec a + tv_nsec b) / NSEC_PER_SEC) in *. rewrite time64_max. destruct (Z.leb_spec (tv_sec a + tv_sec b + c) (2 ^ 63 - 1)) as [Hl|Hl].
  - rewrite s64_id by lia. bdestr; try lia. done.
  - assert (E : s64 (tv_sec a + tv_sec b + c) = tv_sec a + tv_sec b + c - 2 ^ 64).
    { unfold s64. rewrite <- (Z.mod_add _ (-1)) by lia. rewrite Z.mod_small by lia. lia. }
    rewrite E. bdestr; try lia. done.
Qed.

Lemma ns_to_timespec64_spec n : ns_to_timespec64 n = mk_timespec64 (n / NSEC_PER_SEC) (n mod NSEC_PER_SEC).
Proof.
  unfold ns_to_timespec64. rewrite nsec_value. destruct (Z.eqb_spec n 0) as [->|Hn]; [reflexivity|].
  pose proof (Z.quot_rem' n 1000000000). pose proof (Z.rem_bound_abs n 1000000000 ltac:(lia)).
  destruct (Z.ltb_spec (Z.rem n 1000000000) 0); f_equal; Z.to_euclidean_division_equations; lia.
Qed.
Lemma timespec64_to_ns_ok ts : is_s64 (total_ns ts) -> is_s64 (tv_sec ts) -> timespec64_to_ns ts = total_ns ts.
Proof. intros Ht Hs. unfold timespec64_to_ns. rewrite s64_add_l. by apply s64_id. Qed.
Lemma total_of_ns n : total_ns (ns_to_timespec64 n) = n.
Proof. rewrite ns_to_timespec64_spec. unfold total_ns. cbn [tv_sec tv_nsec]. pose proof (Z.div_mod n NSEC_PER_SEC ltac:(nlia)). lia. Qed.
Lemma ns_normal n : is_s64 n -> normal (ns_to_timespec64 n).
Proof.
  intros Hn. rewrite ns_to_timespec64_spec. split; cbn [tv_sec tv_nsec]; [|apply Z.mod_pos_bound, nsec_pos]. unfold is_s64 in *. rewrite nsec_value. Z.to_euclidean_division_equations; lia.
Qed.
Lemma valid_strict_fits ts : is_s64 (tv_sec ts) -> is_s64 (tv_nsec ts) -> timespec64_valid_strict ts = true -> normal ts /\ 0 <= total_ns ts < 2 ^ 63.
Proof.
  intros Hs Hn. unfold timespec64_valid_strict, timespec64_valid, normal, total_ns. assert (EK : KTIME_SEC_MAX = 9223372036) by (unfold KTIME_SEC_MAX; rewrite nsec_value; reflexivity).
  rewrite EK, !Z.geb_leb. destruct (Z.ltb_spec (tv_sec ts) 0); [done|]. assert (Hu : 0 <= tv_nsec ts \/ tv_nsec ts < 0) by lia. destruct Hu as [Hp|Hneg].
  - unfold is_s64 in *. unwrap. destruct (Z.leb_spec NSEC_PER_SEC (tv_nsec ts)); [done|]. cbn [negb]. destruct (Z.leb_spec 9223372036 (tv_sec ts)); [done|]. intros _. nlia.
  - assert (E : u64 (tv_nsec ts) = tv_nsec ts + 2 ^ 64). { unfold u64, U64_MOD. unfold is_s64 in Hn. rewrite <- (Z.mod_add _ 1) by lia. apply Z.mod_small. lia. }
    rewrite E. unfold is_s64 in *. destruct (Z.leb_spec NSEC_PER_SEC (tv_nsec ts + 2 ^ 64)); [done|nlia].
Qed.

(** ** A counter's time *)

Section Counter.
(** A counter of [bits] bits that has counted [c] cycles shows [c mod 2 ^ bits]. *)
Context (bits mult shift : Z) (Hbits : 0 < bits <= 64) (Hmult : is_u32 mult) (Hshift : 0 <= shift < 64).
Definition the_counter : cyclecounter := mk_cyclecounter (CYCLECOUNTER_MASK bits) mult shift.
Definition shows (c : Z) : Z := c mod 2 ^ bits.
(** The exact time of [n] cycles, in nanoseconds times [2 ^ shift]. *)
Definition exact (n : Z) : Z := n * mult.
Definition ns_of (n : Z) : Z := exact n / 2 ^ shift.

(** The counter state after it was read at cycle [c], having started at cycle
    [c0] with the time [start]. *)
Definition tracks (start c0 c : Z) (tc : timecounter) : Prop :=
  tc_cc tc = the_counter /\ tc_cycle_last tc = shows c /\ tc_mask tc = 2 ^ shift - 1 /\ c0 <= c
  /\ tc_nsec tc = u64 (start + ns_of (c - c0)) /\ tc_frac tc = exact (c - c0) mod 2 ^ shift.

(** Reads may be that far apart. *)
Definition soon (c c' : Z) : Prop := c <= c' < c + 2 ^ bits /\ exact (c' - c) + 2 ^ shift <= 2 ^ 64.

Lemma mask_value : CYCLECOUNTER_MASK bits = 2 ^ bits - 1.
Proof using Hbits.
  unfold CYCLECOUNTER_MASK. destruct (Z.ltb_spec bits 64) as [Hl|Hl].
  - rewrite Z.shiftl_1_l. apply u64_id. assert (2 ^ bits <= 2 ^ 63) by (apply Z.pow_le_mono_r; lia). pose proof (Z.pow_pos_nonneg 2 bits). ulia.
  - assert (bits = 64) as -> by lia. reflexivity.
Qed.
Lemma land_mask x k : 0 <= k -> Z.land x (2 ^ k - 1) = x mod 2 ^ k.
Proof. intros Hk. rewrite <- Z.land_ones by done. f_equal. rewrite Z.ones_equiv. lia. Qed.
Lemma mod_u64 x k : 0 <= k <= 64 -> u64 x mod 2 ^ k = x mod 2 ^ k.
Proof.
  intros Hk. unfold u64, U64_MOD. replace (2 ^ 64) with (2 ^ k * 2 ^ (64 - k)) by (rewrite <- Z.pow_add_r by lia; f_equal; lia).
  rewrite Z.rem_mul_r by (pose proof (Z.pow_pos_nonneg 2 k); pose proof (Z.pow_pos_nonneg 2 (64 - k)); lia). rewrite (Z.mul_comm (2 ^ k)), Z_mod_plus_full. apply Z.mod_mod. pose proof (Z.pow_pos_nonneg 2 k); lia.
Qed.
(** The difference of what the counter showed is the number of cycles between. *)
Lemma shown_delta c c' : Z.land (u64 (shows c' - shows c)) (cc_mask the_counter) = (c' - c) mod 2 ^ bits.
Proof using Hbits.
  cbn [cc_mask the_counter]. rewrite mask_value, land_mask by lia. rewrite mod_u64 by lia. unfold shows. by rewrite <- Zminus_mod.
Qed.

Lemma pow_shift : 0 < 2 ^ shift. Proof using Hshift. apply Z.pow_pos_nonneg; lia. Qed.
Lemma exact_split a b : exact (a + b) / 2 ^ shift = exact a / 2 ^ shift + (exact b + exact a mod 2 ^ shift) / 2 ^ shift
  /\ exact (a + b) mod 2 ^ shift = (exact b + exact a mod 2 ^ shift) mod 2 ^ shift.
Proof using Hshift.
  pose proof pow_shift. replace (exact (a + b)) with (exact b + exact a mod 2 ^ shift + (exact a / 2 ^ shift) * 2 ^ shift).
  - rewrite Z.div_add, Z_mod_plus_full by lia. lia.
  - pose proof (Z.div_mod (exact a) (2 ^ shift)). unfold exact in *. lia.
Qed.

(** Cycles after the last read become nanoseconds, the fraction included. *)
Lemma cyc2ns_ok n d : 0 <= d -> exact d + 2 ^ shift <= 2 ^ 64 ->
  cyclecounter_cyc2ns the_counter d (2 ^ shift - 1) (exact n mod 2 ^ shift) = (ns_of (n + d) - ns_of n, exact (n + d) mod 2 ^ shift).
Proof using Hmult Hshift.
  intros Hd Hf. unfold cyclecounter_cyc2ns. cbn [cc_mult cc_shift the_counter]. fold (exact d). pose proof pow_shift. pose proof (Z.mod_pos_bound (exact n) (2 ^ shift)).
  assert (0 <= exact d) by (unfold exact; uunfold; nia). unwrap. rewrite Z.shiftr_div_pow2, land_mask by lia.
  unfold ns_of. destruct (exact_split n d) as [-> ->]. f_equal. lia.
Qed.

Lemma init_tracks start c0 : is_u64 start -> tracks start c0 c0 (timecounter_init the_counter (shows c0) start).
Proof using Hshift.
  intros Hst. unfold tracks, timecounter_init. cbn. rewrite Z.sub_diag. unfold ns_of, exact. rewrite Z.mul_0_l, Z.div_0_l, Z.mod_0_l, Z.add_0_r, (u64_id start) by (done || (pose proof pow_shift; lia)).
  rewrite Z.shiftl_1_l. pose proof pow_shift. assert (2 ^ shift <= 2 ^ 63) by (apply Z.pow_le_mono_r; lia). unwrap. split_and!; done || lia.
Qed.

Lemma read_tracks start c0 c c' tc : tracks start c0 c tc -> soon c c' ->
  fst (timecounter_read tc (shows c')) = u64 (start + ns_of (c' - c0)) /\ tracks start c0 c' (snd (timecounter_read tc (shows c'))).
Proof using Hbits Hmult Hshift.
  intros (Ecc & El & Em & Hc & En & Ef) [Hs Hfit]. unfold timecounter_read, timecounter_read_delta. rewrite Ecc, El, Em, Ef, shown_delta, Z.mod_small by lia.
  rewrite cyc2ns_ok by lia. replace (c - c0 + (c' - c)) with (c' - c0) by lia. cbn [fst snd tc_cc tc_nsec tc_cycle_last tc_mask tc_frac]. rewrite En.
  assert (E : u64 (ns_of (c' - c0) - ns_of (c - c0) + u64 (start + ns_of (c - c0))) = u64 (start + ns_of (c' - c0))).
  { rewrite Z.add_comm, u64_add_l. f_equal. lia. }
  rewrite E. split; [done|]. unfold tracks. cbn [tc_cc tc_nsec tc_cycle_last tc_mask tc_frac]. split_and!; done || lia.
Qed.

(** A sequence of reads. *)
Definition read_all (tc : timecounter) (cs : list Z) : timecounter := fold_left (fun tc c => snd (timecounter_read tc (shows c))) cs tc.
Fixpoint all_soon (c : Z) (cs : list Z) : Prop := match cs with [] => True | c' :: cs => soon c c' /\ all_soon c' cs end.
Lemma reads_track start c0 cs : forall c tc, tracks start c0 c tc -> all_soon c cs -> tracks start c0 (List.last cs c) (read_all tc cs).
Proof using Hbits Hmult Hshift.
  induction cs as [|c' cs IH]; intros c tc Ht Hs; [done|]. destruct Hs as [Hc Hs]. destruct (read_tracks start c0 c c' tc Ht Hc) as [_ Ht'].
  assert (El : forall x, List.last (c' :: cs) x = List.last cs c'). { clear. revert c'. induction cs as [|a cs IH]; intros c' x; [done|]. change (List.last (c' :: a :: cs) x) with (List.last (a :: cs) x). by rewrite !IH. }
  rewrite El. cbn [read_all fold_left]. by apply IH.
Qed.

(** The time of a stamp near the last read: exact after it, and before it
    rounded up. *)
Lemma cyc2time_after start c0 c t tc : tracks start c0 c tc -> c <= t <= c + (2 ^ bits - 1) / 2 -> exact (t - c) + 2 ^ shift <= 2 ^ 64 ->
  timecounter_cyc2time tc (shows t) = u64 (start + ns_of (t - c0)).
Proof using Hbits Hmult Hshift.
  intros (Ecc & El & Em & Hc & En & Ef) Ht Hfit. unfold timecounter_cyc2time. rewrite Ecc, El, shown_delta. assert (2 ^ bits > 0) by (pose proof (Z.pow_pos_nonneg 2 bits); lia).
  rewrite Z.mod_small by (Z.to_euclidean_division_equations; lia). cbn [cc_mask the_counter]. rewrite mask_value, Z.gtb_ltb. destruct (Z.ltb_spec ((2 ^ bits - 1) / 2) (t - c)); [lia|].
  fold the_counter. rewrite Em, Ef, cyc2ns_ok by lia. replace (c - c0 + (t - c)) with (t - c0) by lia. cbn [fst]. rewrite En, u64_add_l. f_equal. lia.
Qed.
Lemma cyc2time_before start c0 c t tc : tracks start c0 c tc -> c - (2 ^ bits - 1) / 2 <= t < c -> exact (c - t) < 2 ^ 64 -> tc_frac tc <= exact (c - t) ->
  timecounter_cyc2time tc (shows t) = u64 (start - (- exact (t - c0)) / 2 ^ shift).
Proof using Hbits Hmult Hshift.
  intros (Ecc & El & Em & Hc & En & Ef) Ht Hfit Hfrac. unfold timecounter_cyc2time. rewrite Ecc, El, !shown_delta. assert (2 ^ bits > 0) by (pose proof (Z.pow_pos_nonneg 2 bits); lia).
  pose proof (Z_div_mod_eq_full (2 ^ bits - 1) 2) as H2. pose proof (Z.mod_pos_bound (2 ^ bits - 1) 2 ltac:(lia)).
  rewrite (Z.mod_small (c - t)) by lia. assert (Ed : (t - c) mod 2 ^ bits = t - c + 2 ^ bits).
  { symmetry. apply (Z.mod_unique _ _ (-1)); lia. }
  rewrite Ed. cbn [cc_mask the_counter]. rewrite mask_value, Z.gtb_ltb. destruct (Z.ltb_spec ((2 ^ bits - 1) / 2) (t - c + 2 ^ bits)) as [_|]; [|lia].
  unfold cc_cyc2ns_backwards. cbn [cc_mult cc_shift the_counter]. fold (exact (c - t)). pose proof pow_shift. pose proof (Z.mod_pos_bound (exact (c - c0)) (2 ^ shift) ltac:(lia)). rewrite Ef in *.
  assert (0 <= exact (c - t)) by lia. unwrap. rewrite Z.shiftr_div_pow2, En, u64_sub_l by lia. f_equal.
  replace (- exact (t - c0)) with (exact (c - t) - exact (c - c0) mod 2 ^ shift + (- (exact (c - c0) / 2 ^ shift)) * 2 ^ shift).
  - rewrite Z.div_add by lia. unfold ns_of. lia.
  - pose proof (Z.div_mod (exact (c - c0)) (2 ^ shift)). unfold exact in *. lia.
Qed.
End Counter.

(** ** What the helpers promise *)

(** On timespecs in normal form timespec64_add() and
    timespec64_sub() return the normal form of the sum and the difference (the
    seconds wrapped to 64 bits), timespec64_compare() has the sign of their
    comparison, and timespec64_add_safe() of times after the epoch is the sum
    where its seconds fit and TIME64_MAX otherwise; the loops of
    set_normalized_timespec64() end for every input. *)
Theorem timespec_arithmetic (a b : timespec64) (Ha : normal a) (Hb : normal b) :
  timespec64_add a b = Ret (mk_timespec64 (s64 ((total_ns a + total_ns b) / NSEC_PER_SEC)) ((total_ns a + total_ns b) mod NSEC_PER_SEC))
  /\ timespec64_sub a b = Ret (mk_timespec64 (s64 ((total_ns a - total_ns b) / NSEC_PER_SEC)) ((total_ns a - total_ns b) mod NSEC_PER_SEC))
  /\ (timespec64_compare a b ?= 0) = (total_ns a ?= total_ns b)
  /\ (0 <= tv_sec a -> 0 <= tv_sec b -> timespec64_add_safe a b = Ret (if (total_ns a + total_ns b) / NSEC_PER_SEC <=? TIME64_MAX
        then mk_timespec64 ((total_ns a + total_ns b) / NSEC_PER_SEC) ((total_ns a + total_ns b) mod NSEC_PER_SEC) else mk_timespec64 TIME64_MAX 0))
  /\ (forall sec nsec, is_s64 sec -> set_normalized_timespec64 sec nsec = Ret (mk_timespec64 (s64 (sec + nsec / NSEC_PER_SEC)) (nsec mod NSEC_PER_SEC))).
Proof.
  split_and!; [by apply timespec64_add_ok|by apply timespec64_sub_ok|symmetry; by apply timespec64_compare_ok|by apply timespec64_add_safe_ok|by apply set_normalized_ok].
Qed.
Lemma timespec_arithmetic_witness :
  timespec64_sub (mk_timespec64 5 100) (mk_timespec64 7 200) = Ret (mk_timespec64 (-3) 999999900)
  /\ timespec64_add_safe (mk_timespec64 TIME64_MAX 999999999) (mk_timespec64 0 1) = Ret (mk_timespec64 TIME64_MAX 0).
Proof.
  assert (H1 : normal (mk_timespec64 5 100)) by (unfold normal, is_s64; cbn; nlia). assert (H2 : normal (mk_timespec64 7 200)) by (unfold normal, is_s64; cbn; nlia).
  assert (H3 : normal (mk_timespec64 TIME64_MAX 999999999)) by (rewrite time64_max; unfold normal, is_s64; cbn [tv_sec tv_nsec]; nlia).
  assert (H4 : normal (mk_timespec64 0 1)) by (unfold normal, is_s64; cbn; nlia).
  split.
  - destruct (timespec_arithmetic _ _ H1 H2) as (_ & -> & _). vm_compute. reflexivity.
  - destruct (timespec_arithmetic _ _ H3 H4) as (_ & _ & _ & -> & _); [vm_compute; reflexivity|discriminate|discriminate].
Defined.

(** ns_to_timespec64() splits every 64-bit number of
    nanoseconds into the normal form timespec64_to_ns() turns back into it, and
    a normal timespec whose nanoseconds fit in 64 bits, in particular one that
    timespec64_valid_strict() accepts, is restored from its nanoseconds. *)
Theorem ns_roundtrip :
  (forall n, is_s64 n -> normal (ns_to_timespec64 n) /\ timespec64_to_ns (ns_to_timespec64 n) = n)
  /\ (forall ts, normal ts -> is_s64 (total_ns ts) -> ns_to_timespec64 (timespec64_to_ns ts) = ts)
  /\ (forall ts, is_s64 (tv_sec ts) -> is_s64 (tv_nsec ts) -> timespec64_valid_strict ts = true -> ns_to_timespec64 (timespec64_to_ns ts) = ts).
Proof.
  assert (Hback : forall ts, normal ts -> is_s64 (total_ns ts) -> ns_to_timespec64 (timespec64_to_ns ts) = ts).
  { intros ts Hn Ht. rewrite timespec64_to_ns_ok by (done || apply Hn). rewrite ns_to_timespec64_spec. destruct (normal_total ts Hn) as [E1 E2]. rewrite <- E1, <- E2. by destruct ts. }
  split_and!; [|done|].
  - intros n Hn. pose proof (ns_normal n Hn) as Hno. split; [done|]. rewrite timespec64_to_ns_ok; rewrite ?total_of_ns; done || apply Hno.
  - intros ts Hs Hn Hv. destruct (valid_strict_fits ts Hs Hn Hv) as [Hno Ht]. apply Hback; [done|]. unfold is_s64. lia.
Qed.
Lemma ns_roundtrip_witness : ns_to_timespec64 (-1) = mk_timespec64 (-1) 999999999 /\ timespec64_to_ns (ns_to_timespec64 (-1)) = -1.
Proof. split; [vm_compute; reflexivity|]. apply ns_roundtrip. unfold is_s64. lia. Defined.

(** C31. A time counter never drifts: after any sequence of reads,
    each at most one wrap of the hardware counter and one 64-bit product after
    the one before, a read, the first one included (which the comment of
    timecounter_read_delta() calls undefined), returns the start time plus the
    nanoseconds of all cycles since, rounded down once, whatever was read
    between; a stamp up to
    half a wrap after the last read has its exact time too, and one before it
    that time rounded up, provided its distance exceeds the fraction kept. *)
Theorem timecounter_never_drifts (bits mult shift start c0 : Z) (cs : list Z) (Hbits : 0 < bits <= 64) (Hmult : is_u32 mult) (Hshift : 0 <= shift < 64)
  (Hstart : is_u64 start) (Hcs : all_soon bits mult shift c0 cs) :
  let tc := read_all bits (timecounter_init (the_counter bits mult shift) (shows bits c0) start) cs in
  let c := List.last cs c0 in
  (forall c', soon bits mult shift c c' -> fst (timecounter_read tc (shows bits c')) = u64 (start + (c' - c0) * mult / 2 ^ shift))
  /\ (forall t, c <= t <= c + (2 ^ bits - 1) / 2 -> (t - c) * mult + 2 ^ shift <= 2 ^ 64 ->
        timecounter_cyc2time tc (shows bits t) = u64 (start + (t - c0) * mult / 2 ^ shift))
  /\ (forall t, c - (2 ^ bits - 1) / 2 <= t < c -> (c - t) * mult < 2 ^ 64 -> tc_frac tc <= (c - t) * mult ->
        timecounter_cyc2time tc (shows bits t) = u64 (start - (- ((t - c0) * mult)) / 2 ^ shift)).
Proof.
  intros tc c. pose proof (reads_track bits mult shift Hbits Hmult Hshift start c0 cs c0 _ (init_tracks bits mult shift Hshift start c0 Hstart) Hcs) as Ht. fold c in Ht.
  change (tracks bits mult shift start c0 c tc) in Ht. split_and!.
  - intros c' Hs. by apply (read_tracks bits mult shift Hbits Hmult Hshift start c0 c c' tc Ht).
  - intros t H1 H2. by apply (cyc2time_after bits mult shift Hbits Hmult Hshift start c0 c t tc Ht).
  - intros t H1 H2 H3. by apply (cyc2time_before bits mult shift Hbits Hmult Hshift start c0 c t tc Ht).
Qed.
Lemma timecounter_never_drifts_witness :
  fst (timecounter_read (read_all 8 (timecounter_init (the_counter 8 5 2) (shows 8 250) 1000) [300; 301; 302]) (shows 8 400)) = 1187.
Proof.
  assert (Hs : all_soon 8 5 2 250 [300; 301; 302]) by (vm_compute; repeat split; discriminate || reflexivity).
  destruct (timecounter_never_drifts 8 5 2 1000 250 [300; 301; 302] ltac:(lia) ltac:(ulia) ltac:(lia) ltac:(ulia) Hs) as [Hr _]. rewrite Hr; [vm_compute; reflexivity|].
  vm_compute. repeat split; discriminate || reflexivity.
Defined.

(** Where the fraction kept exceeds the distance the subtraction of
    cc_cyc2ns_backwards() wraps: a counter of 4 GHz (a quarter of a nanosecond
    per cycle) read at cycle 7 gives the stamp of cycle 6 a time about 146 years before the start. *)
Lemma cyc2time_wraps :
  let tc := read_all 32 (timecounter_init (the_counter 32 1 2) (shows 32 0) 1000) [7] in
  tc_nsec tc = 1001 /\ timecounter_cyc2time tc (shows 32 6) = 2 ^ 64 + 1001 - (2 ^ 62 - 1).
Proof. vm_compute. done. Qed.
